(* ===== verification/_CoqProject ===== *)
-Q . S2P
Prelude.v
Bits.v
Chain.v
Sllist.v
Vsfq.v
Fifo.v
Multibuf.v
Endian.v
Bitfield.v
Crc.v
Bufmgr.v
Pool.v
Vsfsm.v
Sync.v
Vsftimer.v
Stream.v
Memory.v
Vsfhid.v
HidParse.v
HidEvents.v
Dynarr.v
Dynstack.v
Dynpool.v
Vsfmal.v
Malstream.v
Vsfscsi.v
Vsfusbd.v
Usbctrl.v
Usbxfer.v
Usbrecv.v
Usbreq.v
Usbconf.v
Mscbot.v
Mscexec.v
Ipdata.v
Netif.v
Ipsock.v
Tcp.v
Vsfip.v
Iplab.v
Packet.v
Ipwire.v
Tcpseg.v
Tcprecv.v
Vsfile.v
Vsffat.v
Fakefat.v
Fatlayout.v
Fatimage.v
Fatdir.v
Fatparse.v
Fatlist.v
Fatvolume.v
Fatwrite.v
Fattype.v
