(* ===== verification/Prelude.v ===== *)
(** * The VSF framework: a verification library

    This library models the portable core of VSF (src/vsf): the containers and
    byte streams of component/fundation, the event kernel of framework/vsfsm,
    the software timers of framework/vsftimer, and the components built on
    them that are closed under the C code present here.  This file is its
    root: it documents the library and holds what the components share
    (integers of machine width, memory as lists, tactics).

    ** How the program is put together

    Interrupt handlers and state machines talk through event queues: an event
    is posted to a machine with [vsfsm_post_evt] and dispatched by
    [vsfsm_poll] at the priority of the machine's queue.  Semaphores and
    critical sections queue machines that wait; timers post or call back from
    the timer machine.  Bytes move through streams, a table of operations over
    one of three memories (a ring of bytes, a ring of buffers, one buffer).
    Protothreads, state machines that keep a label between dispatches, drive
    devices: a memory abstraction layer reads and writes blocks, a malstream
    couples it to a stream, and a SCSI target couples both to the host.  The USB
    device core moves packets between the endpoints of a controller and streams
    and answers the requests of its control endpoint; the mass-storage class
    carries command blocks from it to the SCSI target.  A memory whose driver makes
    a FAT32 volume from a tree of files gives a host something to read there.
    The TCP/IP stack takes
    frames from network interfaces to sockets and back: packets wait in the same
    node queues, resolved addresses are cached per interface, a timer tick sends
    again what was not acknowledged, and an application is called back or waits
    as a protothread.  The heap, the fixed-size pool and the dynamic containers
    give objects.

    ** Files

    Under component/fundation:
    - Bits: bit reversal, byte swapping, msb, ffz and the mask arrays of
      bittool/bittool.c and vsf_type.h.  Endian: its byte-order accessors.
    - Chain: linked objects in a store by address, the base of every list.
      Sllist: list/list.c.
    - Vsfq: the node queues, Fifo: the ring of bytes, Multibuf: the ring of
      buffers with the stream functions over it, Bitfield: the bit fields,
      Bufmgr: the heap, Pool: the fixed-size slots; all of buffer/buffer.c.
    - Stream: stream/stream.c, the generic layer and its three tables.
    Elsewhere:
    - Crc: component/crypto/crc/crc.c.
    - Vsfsm: event queues, dispatch, init, fini and poll of
      framework/vsfsm/vsfsm.c; Sync: its semaphores and critical sections.
    - Vsftimer: framework/vsftimer/vsftimer.c.
    - Memory: the interface between the heap and its users (see below).
    - Vsfhid, HidParse, HidEvents: component/input/hid/vsfhid.c, the model
      first, then what parsing and input processing promise.
    - Dynarr, Dynstack, Dynpool: the containers of component/tool.
    - Vsfmal, Malstream: component/mal/vsfmal.c, the block layer with its
      windows and the streaming threads; Vsfscsi: component/mal/vsfscsi.c.
    - Vsfusbd: the data of usb/core/vsfusbd.c, its controller driver (vsfhal.h)
      as a record of operations, the transfers of its endpoints; Usbctrl: its
      requests, set-up and event handler.  Their theorems: Usbxfer (IN
      transfers), Usbrecv (OUT transfers), Usbreq (control requests), Usbconf
      (set-up of the endpoints).
    - Mscbot: usb/class/device/MSC/vsfusbd_MSC_BOT.c; Mscexec: its theorems.
    - Files, component/file.  Vsfile: names, attributes and the memory file system
      of vsfile.c; Vsffat: long names and the parser of directory entries of
      fs/malfs/fat/vsffat.c; Fakefat: fs/fakefs/fakefat32/fakefat32.c, a memory
      driver that makes each sector of a FAT32 volume from a tree of files.  Their
      theorems: Fatlayout (which file has which clusters), Fatimage (the sectors,
      and a FAT32 reader to look at them with), Fatdir (a window of the entries of
      a directory), Fatparse and Fatlist (the entries parsed again), Fatvolume
      (the whole volume, read), Fatwrite (written), Fattype (types of the state).

    - The TCP/IP stack, component/tcpip.  Ipdata: packets, sockets, control
      blocks and what the stack asks of the rest of the system (vsfip.h, the
      buffers and checksums of vsfip.c); Netif: interfaces, the address cache
      and its client thread (netif/vsfip_netif.c) and the Ethernet head
      (netif/eth/vsfip_eth.c); Ipsock: sockets, IP output and UDP; Tcp: the TCP
      half; Vsfip: input, ICMP, the tick and start-up (all of vsfip.c).  Their
      theorems: Packet (fields and checksums), Ipwire (datagrams from host to
      host), Tcpseg (segments from host to host), Tcprecv (what a connection
      hands over of the segments that reach it).  Iplab: a concrete system that
      the witnesses run the stack on.

    A C function is a Rocq function of the same name from the state it uses to
    the state it leaves, with its result; [None] is undefined behaviour (an
    access outside an object, NULL or a table, division by zero) or a loop that
    has not ended within its fuel, so every theorem that gives a result also
    says that neither happens.  Structs are records, pointers are addresses
    into a store ([gmap Z]) where aliasing matters and indices or contents where
    it does not; unsigned integers are reduced with [u8] to [u64] where C
    reduces them.  Function pointers are addresses and their calls go through
    a parameter, so that callbacks act on the state of their caller.  Locals of a
    protothread that live across a wait are part of its state, and its label is
    the source's line number.

    ** Interfaces

    [ByteStream] (Stream) is what a stream's memory promises, a queue of bytes;
    the two rings discharge it and the generic layer is proved against it.
    [Allocator] (Memory) is what a heap promises, disjoint live objects; Bufmgr
    discharges it, and the HID parser and the containers are proved against
    it.  [TimerMem] (Vsftimer) is what a memory of timers promises; the pool
    discharges it.  [BlockDriver] (Vsfmal) is what the driver of a memory
    promises, blocks done, failed or waited for; a window discharges it for its
    range when the memory below does not wait, and the block layer, the
    malstream and the SCSI target are proved against it.  [Source] and [Sink]
    (Usbxfer) are what a transfer asks of the stream it reads or fills,
    [UsbdHal] and [UsbdSetup] (Usbxfer, Usbconf) what the device core asks of the
    controller driver; a demonstration board discharges them.  [executes] (Mscexec) is
    what the mass-storage class asks of the unit that a command is for.
    [system] (Ipdata) is what the TCP/IP stack asks of the kernel, the memory, the
    interface driver and the application, and [Quiet] (Ipwire) what a theorem
    about sending asks of it: what is posted runs later, the driver's head is
    Ethernet's; [Host] (Tcprecv) is what the receiving half asks of the memory and
    the application.  The system of Iplab discharges both.
    [Linked] (Chain) gives the list routines to each struct that has a link.

    ** What is shown

    - Refinement: the fifo, the ring of buffers and the streams are queues of
      bytes, queues of nodes are sorted or first-in first-out, the pool and
      dynpool are sets of slots, dynstack is a stack, a window is a memory,
      semaphores are counters with a queue of waiters, the receiving half of a
      TCP connection is a sequence number, an end mark and the packets taken.
    - Functional behaviour on every branch: allocation and release in the heap,
      bit fields, timers, growth of arrays, HID fields and events, list removal,
      SCSI reads from the command block to the bytes delivered, the endpoints
      that a configuration descriptor sets up, control reads, and the answer of
      the mass-storage class to a command block, data and status, and the
      generated FAT32 volume as a host reads it.
    - Equivalence with a reference: both checksums are remainders of
      polynomials, the bit tricks permute bits.
    - Types: the state of the generated volume keeps its lengths and widths.
    - Invariants over histories: the heap stays a partition, events are
      delivered once and in order, connections are announced symmetrically, and
      an application has got a prefix of the peer's stream whatever segments are
      lost, repeated or out of order.
    - Errors: rejected HID descriptors release all they allocated; a SCSI
      command that fails says why in the sense data, once; a transfer that fails
      has done exactly the blocks before the failing one; a control request that
      is refused stalls both directions, a bad command block is ignored and the
      next one awaited, and nothing else changes.
    - Termination and liveness: polling drains the queues, descriptor parsing
      ends, a block transfer, a malstream and a transfer to the host end whatever
      the events and the chunks taken; and a timer callback that re-arms across the wrap-around of
      the tick does not end.
    - Composition from host to host: the frame that a host makes of a datagram
      or a segment passes every check of the input of another host and is read
      back there as it was written; once each segment of a stream has come in
      its turn, the whole stream has been handed over.
    - Round trips and bounds: byte-order accessors, command blocks, windows of
      the rings, directory entries and their parser, sectors of a file written and
      read; an endpoint is never enabled for a packet its stream has no room
      for.
    Defects found on the way are stated as theorems or computed examples next to
    the definition they are about (names ending in _overruns, _wraps, _wrong,
    _hangs, _lost and the like).

    ** Fuel

    Loops that are not structural take fuel, computed by their caller from the
    state: the length of the list, the bytes or blocks left plus one, the size of
    a ring, the length of a descriptor.  The theorems show it to be enough;
    where the number of rounds depends on the environment (a driver that waits, a
    receiver that takes bytes) they give the amount.  [vsfmal_blocks] has one
    unit for each byte and one more, which is enough as blocks are not empty.
    Searches in a tree of files have fuel for each object of the store, which is
    visited at most once; the loops over a sector have its size in bytes.

    ** Not modelled

    - Of the modelled files: the logging variant of the heap, hierarchical and
      message machines and long-jump threads of vsfsm.c (off in the default
      configuration), the in-place windows of the multi-buffer stream (they
      call through a wrong pointer and have no behaviour), the garbage
      collector of dynpool (never enabled), and scsi2mal (empty stubs).
      Interrupt masking is not modelled: the guarded sections are single steps.
      [vsfsm_fini] leaves out its call of [vsftimer_clean_sm] (modelled in
      Vsftimer); the events of the USB device machine are an unbounded queue, on
      which a post does not fail.
      The dispatch of the malstream's events has one schedule in the theorems about
      it: each posted event before the receiver takes more bytes ([play]).
      Modelled and not yet specified: directory entries that a host writes
      ([fakefat32_dir_write], but for the types), the sending half of a TCP connection
      (window, repetition, set-up and closing), the address resolution client,
      the writing thread of a malstream, the data-out phase of the mass-storage
      class and its command blocks over endpoints of less than 31 bytes.
    - Left for later, in this order: of component/file, FAT volumes on a memory
      (mounting, cluster chains, reading), paths and mount points of vsfile.c, and
      the generated ISO image; the clients of the TCP/IP stack
      (DNS, DHCP, HTTP, telnet); the USB host core, hubs and classes; the CDC, HID
      and RNDIS device classes; the shell.  Of the stack itself, forwarding and
      IPv6 are off in the default configuration.
    - Outside the library: the hardware abstraction layer and the host
      controller drivers (registers of devices that are not here), vendored
      headers, examples, and the application skeleton but for its timer pool. *)

From stdpp Require Export base numbers list gmap.
From Stdlib Require Export ZArith Lia.

Global Open Scope Z_scope.

(** ** Machine-width integers

    A C integer of width [w] is a [Z] in [0, 2^w) (unsigned) or the value
    of its two's-complement reading (signed); every arithmetic result is
    reduced where the C conversion reduces it. *)

Definition wrap (w x : Z) : Z := x mod 2 ^ w.

Definition u8 (x : Z) : Z := wrap 8 x.
Definition u16 (x : Z) : Z := wrap 16 x.
Definition u32 (x : Z) : Z := wrap 32 x.
Definition u64 (x : Z) : Z := wrap 64 x.

(** Conversion to a signed type of width [w]. *)
Definition sgn (w x : Z) : Z :=
  let y := x mod 2 ^ w in if y <? 2 ^ (w - 1) then y else y - 2 ^ w.

Definition s16 (x : Z) : Z := sgn 16 x.
Definition s32 (x : Z) : Z := sgn 32 x.

(** The values of an unsigned type of width [w]. *)
Definition fits (w x : Z) : Prop := 0 ≤ x < 2 ^ w.

#[global] Instance fits_dec w x : Decision (fits w x).
Proof. unfold fits. apply _. Defined.

(** C's conversion of a comparison to [int]. *)
Definition of_bool (b : bool) : Z := if b then 1 else 0.

(** ** Error codes (vsf_err.h) *)

Definition VSFERR_NOT_READY : Z := 1.
Definition VSFERR_NONE : Z := 0.
Definition VSFERR_NOT_SUPPORT : Z := -1.
Definition VSFERR_NOT_AVAILABLE : Z := -3.
Definition VSFERR_NOT_ACCESSABLE : Z := -4.
Definition VSFERR_NOT_ENOUGH_RESOURCES : Z := -5.
Definition VSFERR_FAIL : Z := -6.
Definition VSFERR_INVALID_PARAMETER : Z := -7.
Definition VSFERR_BUG : Z := -11.

(** ** Lemmas on machine integers *)

Create HintDb width.

Lemma wrap_fits w x : 0 ≤ w → fits w (wrap w x).
Proof. intros Hw. unfold fits, wrap. apply Z.mod_pos_bound. lia. Qed.

Lemma wrap_small w x : fits w x → wrap w x = x.
Proof. unfold fits, wrap. intros. by apply Z.mod_small. Qed.

Lemma u8_small x : 0 ≤ x < 256 → u8 x = x.
Proof. apply (wrap_small 8). Qed.
Lemma u16_small x : 0 ≤ x < 65536 → u16 x = x.
Proof. apply (wrap_small 16). Qed.
Lemma u32_small x : 0 ≤ x < 4294967296 → u32 x = x.
Proof. apply (wrap_small 32). Qed.

Lemma u8_range x : 0 ≤ u8 x < 256.
Proof. by apply (wrap_fits 8). Qed.
Lemma u16_range x : 0 ≤ u16 x < 65536.
Proof. by apply (wrap_fits 16). Qed.
Lemma u32_range x : 0 ≤ u32 x < 4294967296.
Proof. by apply (wrap_fits 32). Qed.

#[export] Hint Resolve wrap_fits u8_range u16_range u32_range : width.

(** Subtraction that does not go below zero is exact. *)
Lemma u32_sub_small a b :
  0 ≤ b ≤ a → a < 4294967296 → u32 (a - b) = a - b.
Proof. intros. apply u32_small. lia. Qed.

(** ** Bits *)

Create Rewrite HintDb zbits.

Lemma testbit_fits n v i : fits n v → n ≤ i → Z.testbit v i = false.
Proof.
  unfold fits. intros [H0 H1] Hi.
  destruct (decide (0 ≤ n)).
  - rewrite <- (Z.mod_small v (2 ^ n)) by lia. by apply Z.mod_pow2_bits_high.
  - rewrite Z.pow_neg_r in H1; lia.
Qed.

Lemma fits_testbit n v :
  0 ≤ n → 0 ≤ v → (∀ i, n ≤ i → Z.testbit v i = false) → fits n v.
Proof.
  intros Hn Hv Hb. split; [done|].
  destruct (decide (v = 0)) as [->|Hv0]; [lia|].
  apply Z.log2_lt_pow2; [lia|].
  destruct (decide (Z.log2 v < n)); [done|].
  pose proof (Z.bit_log2 v ltac:(lia)) as Hl. by rewrite Hb in Hl by lia.
Qed.

Lemma wrap_testbit n v i :
  0 ≤ n → Z.testbit (wrap n v) i = (i <? n) && Z.testbit v i.
Proof.
  intros. unfold wrap. destruct (Z.ltb_spec i n).
  - by rewrite Z.mod_pow2_bits_low.
  - by rewrite Z.mod_pow2_bits_high.
Qed.

Lemma fits_ext n a b :
  fits n a → fits n b → (∀ i, 0 ≤ i < n → Z.testbit a i = Z.testbit b i) → a = b.
Proof.
  intros Ha Hb Hab. apply Z.bits_inj'. intros i Hi.
  destruct (decide (i < n)); [auto|].
  by rewrite !(testbit_fits n) by (done || lia).
Qed.

Lemma testbit_pow2_bool k i :
  0 ≤ k → 0 ≤ i → Z.testbit (Z.shiftl 1 k) i = bool_decide (i = k).
Proof.
  intros. rewrite Z.shiftl_1_l. case_bool_decide.
  - subst. by apply Z.pow2_bits_true.
  - by apply Z.pow2_bits_false.
Qed.

#[export] Hint Rewrite Z.lor_spec Z.land_spec Z.lxor_spec Z.bits_0 : zbits.
#[export] Hint Rewrite Z.shiftr_spec Z.shiftl_spec Z.lnot_spec wrap_testbit
  using lia : zbits.

(** A boolean check over a concrete range of indices. *)
Definition all_below (n : Z) (f : Z → bool) : bool :=
  forallb f (map Z.of_nat (seq 0 (Z.to_nat n))).

Lemma all_below_spec n f i : all_below n f = true → 0 ≤ i < n → f i = true.
Proof.
  intros Hall Hi. unfold all_below in Hall. rewrite forallb_forall in Hall.
  apply Hall. apply in_map_iff. exists (Z.to_nat i). rewrite in_seq. lia.
Qed.

(** Clearing the two low bits of a 32-bit word. *)
Lemma land_fffffffc x : 0 ≤ x < 4294967296 → Z.land x 0xfffffffc = x - x mod 4.
Proof.
  intros Hx. transitivity (Z.ldiff x (Z.ones 2)).
  - apply Z.bits_inj'. intros i Hi. rewrite Z.land_spec, Z.ldiff_spec.
    destruct (decide (i < 32)) as [Hi32|Hi32].
    + f_equal. apply eqb_prop.
      by apply (all_below_spec 32 (λ i, eqb (Z.testbit 4294967292 i) (negb (Z.testbit (Z.ones 2) i))) i).
    + rewrite (testbit_fits 32 x) by (unfold fits; lia). done.
  - rewrite Z.ldiff_ones_r, Z.shiftl_mul_pow2, Z.shiftr_div_pow2 by lia.
    change (2 ^ 2) with 4. pose proof (Z.div_mod x 4). lia.
Qed.

(** ** Lists used as memory *)

Create Rewrite HintDb len.

Definition getb (l : list Z) (i : Z) : option Z :=
  if decide (0 ≤ i) then l !! Z.to_nat i else None.

Definition setb (l : list Z) (i v : Z) : option (list Z) :=
  if decide (0 ≤ i < Z.of_nat (length l)) then Some (<[Z.to_nat i := v]> l)
  else None.

(** [memcpy(&l[i], src, length src)]; [None] when it would leave [l]. *)
Definition memcpy {A} (l : list A) (i : nat) (src : list A) : option (list A) :=
  if decide (i + length src ≤ length l)%nat then Some (list_inserts i src l)
  else None.

(** The [n] elements of [l] from index [i]; [None] when that leaves [l]. *)
Definition read_at {A} (l : list A) (i n : nat) : option (list A) :=
  if decide (i + n ≤ length l)%nat then Some (take n (drop i l)) else None.

Lemma getb_Some l i v :
  getb l i = Some v ↔ 0 ≤ i ∧ l !! Z.to_nat i = Some v.
Proof. unfold getb. case_decide; intuition congruence. Qed.

Lemma setb_in l i v :
  0 ≤ i < Z.of_nat (length l) → setb l i v = Some (<[Z.to_nat i := v]> l).
Proof. intros. unfold setb. by rewrite decide_True. Qed.

Lemma memcpy_in {A} (l : list A) i src :
  (i + length src ≤ length l)%nat → memcpy l i src = Some (list_inserts i src l).
Proof. intros. unfold memcpy. by rewrite decide_True. Qed.

Lemma read_at_in {A} (l : list A) i n :
  (i + n ≤ length l)%nat → read_at l i n = Some (take n (drop i l)).
Proof. intros. unfold read_at. by rewrite decide_True. Qed.

#[export] Hint Rewrite @length_inserts @length_app @length_take @length_drop
  @length_insert @length_replicate @length_fmap : len.

(** ** Tactics *)

(** Run the option monad as far as known lookups allow. *)
Ltac run := repeat (simplify_option_eq; simpl).

(** Reduce the binds of the option monad and nothing else. *)
Ltac bindr := cbn [mbind option_bind].

(** Case analysis on every boolean comparison and decision in sight, with
    the arithmetic meaning as a hypothesis. *)
Ltac zcase :=
  repeat (match goal with
  | |- context [Z.ltb ?a ?b] => destruct (Z.ltb_spec a b)
  | |- context [Z.leb ?a ?b] => destruct (Z.leb_spec a b)
  | |- context [Z.eqb ?a ?b] => destruct (Z.eqb_spec a b)
  end).

Ltac len := autorewrite with len; simpl; try lia.

(** Prove a decidable proposition about closed terms by evaluating it. *)
Ltac by_decide :=
  match goal with
  | |- ?P => exact (@bool_decide_unpack P ltac:(apply _) ltac:(vm_compute; exact I))
  end.

(** ** Rings *)

(** The index of the [i]-th element after [t] in a ring of [s] elements. *)
Definition slot (s t i : Z) : Z := if t + i <? s then t + i else t + i - s.

Lemma slot_range c t i : 0 ≤ t < c → 0 ≤ i ≤ c → 0 ≤ slot c t i < c.
Proof. intros. unfold slot. zcase; lia. Qed.

Lemma slot_inj s t i j :
  0 ≤ t < s → 0 ≤ i < s → 0 ≤ j < s → slot s t i = slot s t j → i = j.
Proof. intros Ht Hi Hj. unfold slot. destruct (Z.ltb_spec (t + i) s), (Z.ltb_spec (t + j) s); lia. Qed.

(** Moving the start of a ring forward by one element. *)
Lemma slot_succ s t i :
  0 ≤ t < s → 0 ≤ i < s → slot s (if t =? s - 1 then 0 else t + 1) i = slot s t (i + 1).
Proof.
  intros Ht Hi. unfold slot. destruct (Z.eqb_spec t (s - 1));
    destruct (Z.ltb_spec (t + (i + 1)) s);
    match goal with |- context [Z.ltb ?a ?b] => destruct (Z.ltb_spec a b) end; lia.
Qed.

(** The element after the [n]-th one. *)
Lemma slot_next s t n :
  0 ≤ t < s → 0 ≤ n < s →
  (if slot s t n =? s - 1 then 0 else slot s t n + 1) = slot s t (n + 1).
Proof.
  intros Ht Hn. unfold slot.
  destruct (Z.ltb_spec (t + n) s), (Z.ltb_spec (t + (n + 1)) s);
    match goal with |- context [Z.eqb ?a ?b] => destruct (Z.eqb_spec a b) end; lia.
Qed.
