(* ===== verification/Bits.v ===== *)
(** * Bits: bit reversal, byte swapping and bit masks (bittool.c)

    [BIT_REVERSE_U*] and [SWAP_U*] are written as the butterflies of the
    source; every level exchanges bit [i] with bit [i xor k], and the
    specification follows by composing levels.  [msb], [ffz] and the mask
    arrays ([mskarr_*]) are the free-slot search of the fixed-size pool. *)

From S2P Require Import Prelude.

(** ** Byte swapping *)

Definition SWAP_U16 (v16 : Z) : Z :=
  u16 (Z.lor (Z.shiftr v16 8) (Z.shiftl v16 8)).

Definition SWAP_U24 (v32 : Z) : Z :=
  Z.lor (Z.lor (Z.shiftr v32 16) (Z.land v32 0x0000FF00))
        (u32 (Z.shiftl (Z.land v32 0x000000FF) 16)).

Definition SWAP_U32 (v32 : Z) : Z :=
  let v32 := Z.lor (Z.land (Z.shiftr v32 8) 0x00FF00FF)
                   (Z.land (u32 (Z.shiftl v32 8)) 0xFF00FF00) in
  Z.lor (Z.shiftr v32 16) (u32 (Z.shiftl v32 16)).

Definition SWAP_U64 (v64 : Z) : Z :=
  let v64 := Z.lor (Z.land (Z.shiftr v64 8) 0x00FF00FF00FF00FF)
                   (Z.land (u64 (Z.shiftl v64 8)) 0xFF00FF00FF00FF00) in
  let v64 := Z.lor (Z.land (Z.shiftr v64 16) 0x0000FFFF0000FFFF)
                   (Z.land (u64 (Z.shiftl v64 16)) 0xFFFF0000FFFF0000) in
  Z.lor (Z.shiftr v64 32) (u64 (Z.shiftl v64 32)).

(** ** Bit reversal *)

Definition BIT_REVERSE_U8 (v8 : Z) : Z :=
  let v8 := u8 (Z.lor (Z.land (Z.shiftr v8 1) 0x55) (Z.land (Z.shiftl v8 1) 0xAA)) in
  let v8 := u8 (Z.lor (Z.land (Z.shiftr v8 2) 0x33) (Z.land (Z.shiftl v8 2) 0xCC)) in
  let v8 := u8 (Z.lor (Z.land (Z.shiftr v8 4) 0x0F) (Z.land (Z.shiftl v8 4) 0xF0)) in
  v8.

Definition BIT_REVERSE_U16 (v16 : Z) : Z :=
  let v16 := u16 (Z.lor (Z.land (Z.shiftr v16 1) 0x5555)
                        (Z.land (Z.shiftl v16 1) 0xAAAA)) in
  let v16 := u16 (Z.lor (Z.land (Z.shiftr v16 2) 0x3333)
                        (Z.land (Z.shiftl v16 2) 0xCCCC)) in
  let v16 := u16 (Z.lor (Z.land (Z.shiftr v16 4) 0x0F0F)
                        (Z.land (Z.shiftl v16 4) 0xF0F0)) in
  SWAP_U16 v16.

Definition BIT_REVERSE_U32 (v32 : Z) : Z :=
  let v32 := Z.lor (Z.land (Z.shiftr v32 1) 0x55555555)
                   (Z.land (u32 (Z.shiftl v32 1)) 0xAAAAAAAA) in
  let v32 := Z.lor (Z.land (Z.shiftr v32 2) 0x33333333)
                   (Z.land (u32 (Z.shiftl v32 2)) 0xCCCCCCCC) in
  let v32 := Z.lor (Z.land (Z.shiftr v32 4) 0x0F0F0F0F)
                   (Z.land (u32 (Z.shiftl v32 4)) 0xF0F0F0F0) in
  SWAP_U32 v32.

Definition BIT_REVERSE_U64 (v64 : Z) : Z :=
  let v64 := Z.lor (Z.land (Z.shiftr v64 1) 0x5555555555555555)
                   (Z.land (u64 (Z.shiftl v64 1)) 0xAAAAAAAAAAAAAAAA) in
  let v64 := Z.lor (Z.land (Z.shiftr v64 2) 0x3333333333333333)
                   (Z.land (u64 (Z.shiftl v64 2)) 0xCCCCCCCCCCCCCCCC) in
  let v64 := Z.lor (Z.land (Z.shiftr v64 4) 0x0F0F0F0F0F0F0F0F)
                   (Z.land (u64 (Z.shiftl v64 4)) 0xF0F0F0F0F0F0F0F0) in
  SWAP_U64 v64.

(** The macro version of the 64-bit reversal (vsf_type.h). *)
Definition BIT_REVERSE_U64C (v64 : Z) : Z :=
  let v64 := Z.lor (Z.land (Z.shiftr v64 1) 0x5555555555555555)
                   (Z.land (u64 (Z.shiftl v64 1)) 0xaaaaaaaaaaaaaaaa) in
  let v64 := Z.lor (Z.land (Z.shiftr v64 2) 0x3333333333333333)
                   (Z.land (u64 (Z.shiftl v64 2)) 0xcccccccccccccccc) in
  let v64 := Z.lor (Z.land (Z.shiftr v64 4) 0x0f0f0f0f0f0f0f0f)
                   (Z.land (u64 (Z.shiftl v64 4)) 0xf0f0f0f0f0f0f0f0) in
  let v64 := Z.lor (Z.land (Z.shiftr v64 8) 0x00ff00ff00ff00ff)
                   (Z.land (u64 (Z.shiftl v64 8)) 0xff00ff00ff00ff00) in
  let v64 := Z.lor (Z.land (Z.shiftr v64 16) 0x0000ffff0000ffff)
                   (Z.land (u64 (Z.shiftl v64 16)) 0xffff0000ffff0000) in
  let v64 := Z.lor (Z.land (Z.shiftr v64 1) 0x00000000ffffffff)
                   (Z.land (u64 (Z.shiftl v64 1)) 0xffffffff00000000) in
  v64.

(** ** Most significant bit, first zero, mask arrays *)

(** The loop of [msb]; [None] only when the fuel runs out. *)
Fixpoint msb_loop (fuel : nat) (a c : Z) : option Z :=
  match fuel with
  | O => None
  | S fuel => if 0 <? a then msb_loop fuel (Z.shiftr a 1) (c + 1) else Some c
  end.

Definition msb (a : Z) : option Z := msb_loop 33 a (-1).

Definition ffz (a : Z) : option Z :=
  let a := u32 (Z.lnot a) in
  msb (Z.land a (u32 (- s32 a))).

Definition mskarr_set (arr : list Z) (bit : Z) : option (list Z) :=
  w ← getb arr (Z.shiftr bit 5);
  setb arr (Z.shiftr bit 5)
    (Z.lor w (u32 (Z.shiftl 1 (Z.land bit 0x1F)))).

Definition mskarr_clr (arr : list Z) (bit : Z) : option (list Z) :=
  w ← getb arr (Z.shiftr bit 5);
  setb arr (Z.shiftr bit 5)
    (Z.land w (u32 (Z.lnot (Z.shiftl 1 (Z.land bit 0x1F))))).

(** [for (i = 0; i < arrlen; i++)], with [n] iterations left. *)
Fixpoint mskarr_ffz_loop (arr : list Z) (i : Z) (n : nat) : option Z :=
  match n with
  | O => Some (-1)
  | S n =>
      a ← getb arr i;
      tmp ← ffz a;
      if 0 <=? tmp then Some (Z.shiftl i 5 + tmp)
      else mskarr_ffz_loop arr (i + 1) n
  end.

Definition mskarr_ffz (arr : list Z) (arrlen : Z) : option Z :=
  mskarr_ffz_loop arr 0 (Z.to_nat arrlen).

(** The abstract reading of a mask array: bit [i] is set. *)
Definition mskarr_bit (arr : list Z) (i : Z) : bool :=
  match getb arr (i / 32) with
  | Some w => Z.testbit w (i mod 32)
  | None => false
  end.

(** ** Butterfly levels *)

(** [M] and [N] select the bits whose [k]-partner lies above or below. *)
Definition level_ok (n k M N : Z) : bool :=
  all_below n (fun i =>
    if Z.testbit M i
    then (Z.lxor i k =? i + k) && (i + k <? n) && negb (Z.testbit N i)
    else (Z.lxor i k =? i - k) && (k <=? i) && Z.testbit N i).

Lemma level_bits n k M N v i :
  0 < k → level_ok n k M N = true → 0 ≤ i < n →
  Z.testbit (Z.lor (Z.land (Z.shiftr v k) M) (Z.land (wrap n (Z.shiftl v k)) N)) i
  = Z.testbit v (Z.lxor i k).
Proof.
  intros Hk Hok Hi. pose proof (all_below_spec _ _ _ Hok Hi) as Hc. simpl in Hc.
  autorewrite with zbits.
  destruct (Z.ltb_spec i n); [|lia].
  destruct (Z.testbit M i); rewrite !andb_true_iff in Hc;
    destruct Hc as [[Hx%Z.eqb_eq Hb] HN]; rewrite Hx.
  - rewrite negb_true_iff in HN. rewrite HN. by rewrite !andb_true_r, andb_false_r, orb_false_r.
  - rewrite HN. by rewrite !andb_true_r, andb_false_r.
Qed.

(** The same with the result reduced to the width, as the narrow types do. *)
Lemma level_bits_narrow n k M N v i :
  0 < k → level_ok n k M N = true → 0 ≤ i < n →
  Z.testbit (wrap n (Z.lor (Z.land (Z.shiftr v k) M) (Z.land (Z.shiftl v k) N))) i
  = Z.testbit v (Z.lxor i k).
Proof.
  intros Hk Hok Hi. rewrite <- (level_bits n k M N v i) by done.
  autorewrite with zbits. destruct (Z.ltb_spec i n); [done|lia].
Qed.

(** The last level of a swap needs no masks: the other half is shifted out. *)
Definition half_ok (k : Z) : bool :=
  all_below (2 * k) (fun i =>
    if i <? k then Z.lxor i k =? i + k else Z.lxor i k =? i - k).

Lemma half_bits k v i :
  0 < k → half_ok k = true → fits (2 * k) v → 0 ≤ i < 2 * k →
  Z.testbit (Z.lor (Z.shiftr v k) (wrap (2 * k) (Z.shiftl v k))) i
  = Z.testbit v (Z.lxor i k).
Proof.
  intros Hk Hok Hv Hi. pose proof (all_below_spec _ _ _ Hok Hi) as Hc. simpl in Hc.
  autorewrite with zbits.
  destruct (Z.ltb_spec i (2 * k)); [|lia]. simpl.
  destruct (Z.ltb_spec i k); apply Z.eqb_eq in Hc; rewrite Hc.
  - rewrite (Z.testbit_neg_r v (i - k)) by lia. by rewrite orb_false_r.
  - by rewrite (testbit_fits (2 * k) v (i + k)) by (done || lia).
Qed.

(** ** Widths of the results *)

Lemma fits_lor n a b : 0 ≤ n → fits n a → fits n b → fits n (Z.lor a b).
Proof.
  intros Hn Ha Hb. apply fits_testbit; [done|unfold fits in *; rewrite Z.lor_nonneg; lia|].
  intros i Hi. rewrite Z.lor_spec. by rewrite !(testbit_fits n) by done.
Qed.

Lemma fits_land_l n a m : 0 ≤ n → fits n m → 0 ≤ a → fits n (Z.land a m).
Proof.
  intros Hn Hm Ha. apply fits_testbit; [done|rewrite Z.land_nonneg; lia|].
  intros i Hi. rewrite Z.land_spec, (testbit_fits n m) by done. apply andb_false_r.
Qed.

Lemma fits_land_r n a m : 0 ≤ n → fits n a → fits n (Z.land a m).
Proof.
  intros Hn Ha. rewrite Z.land_comm.
  destruct (decide (0 ≤ m)).
  - rewrite Z.land_comm. apply fits_testbit; [done|unfold fits in *; rewrite Z.land_nonneg; lia|].
    intros i Hi. by rewrite Z.land_spec, (testbit_fits n a) by done.
  - apply fits_testbit; [done|unfold fits in *; rewrite Z.land_nonneg; lia|].
    intros i Hi. rewrite Z.land_spec, (testbit_fits n a) by done. apply andb_false_r.
Qed.

Lemma fits_shiftr n a k : 0 ≤ n → 0 ≤ k → fits n a → fits n (Z.shiftr a k).
Proof.
  intros Hn Hk Ha. apply fits_testbit; [done|unfold fits in *; rewrite Z.shiftr_nonneg; lia|].
  intros i Hi. rewrite Z.shiftr_spec by lia. apply (testbit_fits n); [done|lia].
Qed.

#[export] Hint Resolve fits_lor fits_land_r fits_shiftr : width.

Ltac fits_tac :=
  repeat first
    [ assumption
    | apply wrap_fits; lia
    | apply fits_lor; [lia| |]
    | apply fits_land_r; [lia|]
    | apply fits_shiftr; [lia|lia|] ].

Lemma fits_lxor n a b : 0 ≤ n → fits n a → fits n b → fits n (Z.lxor a b).
Proof.
  intros Hn Ha Hb. apply fits_testbit; [done|unfold fits in *; rewrite Z.lxor_nonneg; lia|].
  intros i Hi. rewrite Z.lxor_spec. by rewrite !(testbit_fits n) by done.
Qed.

(** Solve [0 <= lxor (lxor i k) ... < 2^m] from the range of [i]. *)
Ltac index_tac m :=
  solve [ repeat (apply (fits_lxor m); [lia| |vm_compute; split; congruence]);
          assumption ].

Lemma SWAP_U16_bits v i :
  fits 16 v → 0 ≤ i < 16 → Z.testbit (SWAP_U16 v) i = Z.testbit v (Z.lxor i 8).
Proof.
  intros Hv Hi. unfold SWAP_U16, u16. rewrite <- (half_bits 8 v i) by (done || lia).
  autorewrite with zbits.
  change (2 * 8) with 16. destruct (Z.ltb_spec i 16); [done|lia].
Qed.

Lemma SWAP_U32_bits v i :
  fits 32 v → 0 ≤ i < 32 → Z.testbit (SWAP_U32 v) i = Z.testbit v (Z.lxor i 24).
Proof.
  intros Hv Hi. unfold SWAP_U32, u32.
  rewrite (half_bits 16) by (done || fits_tac).
  rewrite (level_bits 32 8) by (done || index_tac 5).
  by rewrite Z.lxor_assoc.
Qed.

Lemma SWAP_U64_bits v i :
  fits 64 v → 0 ≤ i < 64 → Z.testbit (SWAP_U64 v) i = Z.testbit v (Z.lxor i 56).
Proof.
  intros Hv Hi. unfold SWAP_U64, u64.
  rewrite (half_bits 32) by (done || fits_tac).
  rewrite (level_bits 64 16) by (done || index_tac 6).
  rewrite (level_bits 64 8) by (done || index_tac 6).
  by rewrite !Z.lxor_assoc.
Qed.

Lemma SWAP_fits v :
  (fits 16 v → fits 16 (SWAP_U16 v)) ∧ (fits 32 v → fits 32 (SWAP_U32 v)) ∧
  (fits 64 v → fits 64 (SWAP_U64 v)).
Proof.
  split_and!; intros Hv; unfold SWAP_U16, SWAP_U32, SWAP_U64, u16, u32, u64; fits_tac.
Qed.

(** Reversal indices: the composed exchanges are [i ↦ n - 1 - i]. *)
Lemma lxor_complement n i :
  all_below n (fun i => Z.lxor i (n - 1) =? n - 1 - i) = true →
  0 ≤ i < n → Z.lxor i (n - 1) = n - 1 - i.
Proof. intros Hc Hi. by apply Z.eqb_eq, (all_below_spec _ _ _ Hc). Qed.

Lemma BIT_REVERSE_U8_bits v i :
  fits 8 v → 0 ≤ i < 8 → Z.testbit (BIT_REVERSE_U8 v) i = Z.testbit v (7 - i).
Proof.
  intros Hv Hi. unfold BIT_REVERSE_U8, u8.
  rewrite (level_bits_narrow 8 4) by done.
  rewrite (level_bits_narrow 8 2) by (done || index_tac 3).
  rewrite (level_bits_narrow 8 1) by (done || index_tac 3).
  rewrite !Z.lxor_assoc. by rewrite <- (lxor_complement 8) by done.
Qed.

Lemma BIT_REVERSE_U16_bits v i :
  fits 16 v → 0 ≤ i < 16 → Z.testbit (BIT_REVERSE_U16 v) i = Z.testbit v (15 - i).
Proof.
  intros Hv Hi. unfold BIT_REVERSE_U16, u16.
  rewrite SWAP_U16_bits by (done || fits_tac).
  rewrite (level_bits_narrow 16 4) by (done || index_tac 4).
  rewrite (level_bits_narrow 16 2) by (done || index_tac 4).
  rewrite (level_bits_narrow 16 1) by (done || index_tac 4).
  rewrite !Z.lxor_assoc. by rewrite <- (lxor_complement 16) by done.
Qed.

Lemma BIT_REVERSE_U32_bits v i :
  fits 32 v → 0 ≤ i < 32 → Z.testbit (BIT_REVERSE_U32 v) i = Z.testbit v (31 - i).
Proof.
  intros Hv Hi. unfold BIT_REVERSE_U32, u32.
  rewrite SWAP_U32_bits by (done || fits_tac).
  rewrite (level_bits 32 4) by (done || index_tac 5).
  rewrite (level_bits 32 2) by (done || index_tac 5).
  rewrite (level_bits 32 1) by (done || index_tac 5).
  rewrite !Z.lxor_assoc. by rewrite <- (lxor_complement 32) by done.
Qed.

Lemma BIT_REVERSE_U64_bits v i :
  fits 64 v → 0 ≤ i < 64 → Z.testbit (BIT_REVERSE_U64 v) i = Z.testbit v (63 - i).
Proof.
  intros Hv Hi. unfold BIT_REVERSE_U64, u64.
  rewrite SWAP_U64_bits by (done || fits_tac).
  rewrite (level_bits 64 4) by (done || index_tac 6).
  rewrite (level_bits 64 2) by (done || index_tac 6).
  rewrite (level_bits 64 1) by (done || index_tac 6).
  rewrite !Z.lxor_assoc. by rewrite <- (lxor_complement 64) by done.
Qed.

(** Every routine of the family reverses its [n] bits and stays in width. *)
Definition reverses (n : Z) (f : Z → Z) : Prop :=
  ∀ v, fits n v →
    fits n (f v) ∧ (∀ i, 0 ≤ i < n → Z.testbit (f v) i = Z.testbit v (n - 1 - i)) ∧
    f (f v) = v.

Lemma reverses_intro n f :
  (∀ v, fits n v → fits n (f v)) →
  (∀ v i, fits n v → 0 ≤ i < n → Z.testbit (f v) i = Z.testbit v (n - 1 - i)) →
  reverses n f.
Proof.
  intros Hf Hb v Hv. split_and!; auto. apply (fits_ext n); auto.
  intros i Hi. rewrite !Hb by (auto; lia). f_equal. lia.
Qed.

Lemma reverses_all :
  reverses 8 BIT_REVERSE_U8 ∧ reverses 16 BIT_REVERSE_U16 ∧
  reverses 32 BIT_REVERSE_U32 ∧ reverses 64 BIT_REVERSE_U64.
Proof.
  split_and!; apply reverses_intro;
    auto using BIT_REVERSE_U8_bits, BIT_REVERSE_U16_bits,
               BIT_REVERSE_U32_bits, BIT_REVERSE_U64_bits;
    intros v Hv;
    unfold BIT_REVERSE_U8, BIT_REVERSE_U16, BIT_REVERSE_U32, BIT_REVERSE_U64,
      SWAP_U16, SWAP_U32, SWAP_U64, u8, u16, u32, u64; fits_tac.
Qed.

(** Every reversal routine of bittool.c reverses the bits of its width,
    stays in that width, and is its own inverse. *)
Theorem bit_reverse_correct :
  reverses 8 BIT_REVERSE_U8 ∧ reverses 16 BIT_REVERSE_U16 ∧
  reverses 32 BIT_REVERSE_U32 ∧ reverses 64 BIT_REVERSE_U64.
Proof. exact reverses_all. Qed.

(** ** msb and ffz *)

Lemma msb_loop_spec fuel a c :
  0 ≤ a < 2 ^ Z.of_nat fuel →
  msb_loop (S fuel) a c = Some (c + if a =? 0 then 0 else Z.log2 a + 1).
Proof.
  revert a c. induction fuel as [|fuel IH]; intros a c Ha.
  - simpl in *. assert (a = 0) as -> by lia. simpl. f_equal. lia.
  - simpl. destruct (Z.ltb_spec 0 a).
    + change (msb_loop (S fuel) (Z.shiftr a 1) (c + 1) = 
        Some (c + (if a =? 0 then 0 else Z.log2 a + 1))).
      rewrite IH.
      2: { rewrite Z.shiftr_div_pow2 by lia. 
           rewrite Nat2Z.inj_succ, Z.pow_succ_r in Ha by lia. 
           change (2 ^ 1) with 2. split; [apply Z.div_pos; lia|].
           apply Z.div_lt_upper_bound; lia. }
      f_equal. destruct (Z.eqb_spec a 0); [lia|].
      destruct (Z.eqb_spec (Z.shiftr a 1) 0) as [Hs|Hs].
      * apply Z.shiftr_eq_0_iff in Hs. destruct Hs as [?|[? Hl]]; [lia|].
        pose proof (Z.log2_nonneg a). lia.
      * rewrite Z.log2_shiftr by lia.
        assert (Z.log2 a ≠ 0).
        { intros Hl. apply Hs. apply Z.shiftr_eq_0; lia. }
        pose proof (Z.log2_nonneg a). lia.
    + assert (a = 0) as -> by lia. simpl. f_equal. lia.
Qed.

Lemma msb_spec a :
  fits 32 a → msb a = Some (if a =? 0 then -1 else Z.log2 a).
Proof.
  intros Ha. unfold msb. rewrite msb_loop_spec by done.
  f_equal. destruct (a =? 0); lia.
Qed.

(** Every positive number is an odd number shifted left. *)
Lemma odd_part x :
  0 < x → ∃ k y, 0 ≤ k ∧ 0 ≤ y ∧ x = Z.shiftl (2 * y + 1) k.
Proof.
  intros Hx. destruct x as [|p|p]; try lia. clear Hx.
  induction p as [p _|p (k & y & Hk & Hy & IH)|].
  - exists 0, (Z.pos p). rewrite Z.shiftl_0_r. lia.
  - exists (k + 1), y. split_and!; try lia.
    rewrite <- Z.shiftl_shiftl, <- IH, Z.shiftl_mul_pow2 by lia. lia.
  - exists 0, 0. done.
Qed.

(** [x land (-x)] isolates the lowest set bit of [x]. *)
Lemma land_opp_odd y k :
  0 ≤ k → Z.land (Z.shiftl (2 * y + 1) k) (- Z.shiftl (2 * y + 1) k) = 2 ^ k.
Proof.
  intros Hk.
  replace (- Z.shiftl (2 * y + 1) k) with (Z.shiftl (2 * Z.lnot y + 1) k).
  2: { rewrite !Z.shiftl_mul_pow2 by lia. unfold Z.lnot. lia. }
  rewrite <- Z.shiftl_land, <- Z.shiftl_1_l. f_equal.
  apply Z.bits_inj'. intros j Hj. rewrite Z.land_spec.
  destruct (decide (j = 0)) as [->|].
  - by rewrite !Z.testbit_odd_0.
  - replace j with (Z.succ (j - 1)) by lia.
    rewrite !Z.testbit_odd_succ, Z.lnot_spec, andb_negb_r by lia.
    symmetry. apply (testbit_fits 1); [done|lia].
Qed.

Lemma shiftl_odd_lowest y k :
  0 ≤ k →
  Z.testbit (Z.shiftl (2 * y + 1) k) k = true ∧
  ∀ j, 0 ≤ j < k → Z.testbit (Z.shiftl (2 * y + 1) k) j = false.
Proof.
  intros Hk. split.
  - rewrite Z.shiftl_spec, Z.sub_diag by lia. apply Z.testbit_odd_0.
  - intros j Hj. rewrite Z.shiftl_spec by lia. apply Z.testbit_neg_r. lia.
Qed.

Lemma u32_lnot a : fits 32 a → u32 (Z.lnot a) = 2 ^ 32 - 1 - a.
Proof.
  intros Ha. unfold u32, wrap, Z.lnot, fits in *.
  replace (Z.pred (- a)) with ((2 ^ 32 - 1 - a) + -1 * 2 ^ 32) by lia.
  rewrite Z.mod_add by lia. apply Z.mod_small. lia.
Qed.

Lemma lnot_testbit a i :
  fits 32 a → 0 ≤ i < 32 → Z.testbit (u32 (Z.lnot a)) i = negb (Z.testbit a i).
Proof.
  intros Ha Hi. unfold u32. autorewrite with zbits.
  destruct (Z.ltb_spec i 32); [done|lia].
Qed.

Lemma u32_opp_s32 x : fits 32 x → u32 (- s32 x) = u32 (- x).
Proof.
  intros Hx. unfold s32, sgn, u32, wrap, fits in *.
  rewrite (Z.mod_small x) by lia. destruct (x <? 2 ^ (32 - 1)); [done|].
  replace (- (x - 2 ^ 32)) with (- x + 1 * 2 ^ 32) by lia. by rewrite Z.mod_add by lia.
Qed.

Lemma land_u32 x y : fits 32 x → Z.land x (u32 y) = Z.land x y.
Proof.
  intros Hx. apply Z.bits_inj'. intros j Hj. unfold u32. autorewrite with zbits.
  destruct (Z.ltb_spec j 32); [done|]. by rewrite (testbit_fits 32 x) by done.
Qed.

(** The position of the lowest clear bit of a 32-bit word, or -1. *)
Lemma ffz_spec a :
  fits 32 a →
  (ffz a = Some (-1) ∧ ∀ i, 0 ≤ i < 32 → Z.testbit a i = true) ∨
  (∃ k, ffz a = Some k ∧ 0 ≤ k < 32 ∧ Z.testbit a k = false ∧
        ∀ i, 0 ≤ i < k → Z.testbit a i = true).
Proof.
  intros Ha. unfold ffz. set (x := u32 (Z.lnot a)).
  assert (Hx : fits 32 x) by by apply wrap_fits.
  assert (Hbit : ∀ i, 0 ≤ i < 32 → Z.testbit a i = negb (Z.testbit x i)).
  { intros i Hi. unfold x. by rewrite lnot_testbit, negb_involutive by done. }
  rewrite u32_opp_s32, land_u32 by done.
  destruct (decide (x = 0)) as [Hx0|Hx0].
  - left. split; [rewrite Hx0; reflexivity|].
    intros i Hi. by rewrite Hbit, Hx0, Z.bits_0.
  - right. destruct (odd_part x) as (k & y & Hk & Hy & Hxk); [unfold fits in *; lia|].
    destruct (shiftl_odd_lowest y k Hk) as [Htop Hlow]. rewrite <- Hxk in Htop, Hlow.
    assert (k < 32).
    { destruct (decide (k < 32)); [done|]. rewrite (testbit_fits 32) in Htop; [done..|lia]. }
    exists k. rewrite Hxk at 1 2. rewrite land_opp_odd by done.
    rewrite msb_spec.
    2: { split; [lia|]. apply Z.pow_lt_mono_r; lia. }
    rewrite Z.log2_pow2 by done. 
    destruct (Z.eqb_spec (2 ^ k) 0); [lia|]. split_and!; try done.
    + rewrite Hbit, Htop by lia. done.
    + intros i Hi. rewrite Hbit, Hlow by lia. done.
Qed.

(** ** Mask arrays *)

Lemma shiftr5 bit : Z.shiftr bit 5 = bit / 32.
Proof. by rewrite Z.shiftr_div_pow2. Qed.

Lemma land31 bit : Z.land bit 0x1F = bit mod 32.
Proof. change 0x1F with (Z.ones 5). by rewrite Z.land_ones. Qed.

Lemma bit_split i : i = 32 * (i / 32) + i mod 32 ∧ 0 ≤ i mod 32 < 32.
Proof. split; [by apply Z.div_mod|by apply Z.mod_pos_bound]. Qed.

Lemma mskarr_bit_insert arr b w i :
  0 ≤ b < Z.of_nat (length arr) → 0 ≤ i →
  mskarr_bit (<[Z.to_nat b := w]> arr) i =
    if decide (i / 32 = b) then Z.testbit w (i mod 32) else mskarr_bit arr i.
Proof.
  intros Hb Hi. unfold mskarr_bit, getb. 
  assert (0 ≤ i / 32) by (apply Z.div_pos; lia).
  rewrite !(decide_True (P := 0 ≤ i / 32)) by done. case_decide as Heq.
  - subst b. by rewrite list_lookup_insert_eq by lia.
  - by rewrite list_lookup_insert_ne by lia.
Qed.

Lemma getb_in arr b :
  0 ≤ b < Z.of_nat (length arr) → ∃ w, getb arr b = Some w.
Proof.
  intros Hb. unfold getb. rewrite decide_True by lia.
  apply lookup_lt_is_Some_2. lia.
Qed.

Lemma getb_Forall (P : Z → Prop) arr b w : Forall P arr → getb arr b = Some w → P w.
Proof. intros HP [_ Hw]%getb_Some. by eapply Forall_lookup_1. Qed.

(** One mask-array update: word [bit >> 5] becomes [f] of itself. *)
Lemma mskarr_update arr bit (f : Z → Z) :
  Forall (fits 32) arr → 0 ≤ bit < 32 * Z.of_nat (length arr) →
  (∀ w, fits 32 w → fits 32 (f w)) →
  ∃ w arr', getb arr (bit / 32) = Some w ∧ fits 32 w ∧
    setb arr (bit / 32) (f w) = Some arr' ∧
    Forall (fits 32) arr' ∧ length arr' = length arr ∧
    ∀ i, 0 ≤ i → mskarr_bit arr' i =
      if decide (i / 32 = bit / 32) then Z.testbit (f w) (i mod 32) else mskarr_bit arr i.
Proof.
  intros Harr Hbit Hf.
  assert (Hb : 0 ≤ bit / 32 < Z.of_nat (length arr)).
  { split; [apply Z.div_pos; lia|apply Z.div_lt_upper_bound; lia]. }
  destruct (getb_in arr (bit / 32) Hb) as [w Hw].
  pose proof (getb_Forall _ _ _ _ Harr Hw) as Hfw.
  exists w, (<[Z.to_nat (bit / 32) := f w]> arr). split_and!; try done.
  - by apply setb_in.
  - apply Forall_insert; auto.
  - len.
  - intros i Hi. by apply mskarr_bit_insert.
Qed.

Lemma mskarr_bit_word arr i w :
  getb arr (i / 32) = Some w → mskarr_bit arr i = Z.testbit w (i mod 32).
Proof. unfold mskarr_bit. by intros ->. Qed.

Lemma same_bit i bit : i / 32 = bit / 32 → (i mod 32 = bit mod 32 ↔ i = bit).
Proof. intros. pose proof (bit_split i). pose proof (bit_split bit). lia. Qed.

Lemma mskarr_set_spec arr bit :
  Forall (fits 32) arr → 0 ≤ bit < 32 * Z.of_nat (length arr) →
  ∃ arr', mskarr_set arr bit = Some arr' ∧ Forall (fits 32) arr' ∧
    length arr' = length arr ∧
    ∀ i, 0 ≤ i → mskarr_bit arr' i = bool_decide (i = bit) || mskarr_bit arr i.
Proof.
  intros Harr Hbit. pose proof (bit_split bit) as [_ Hm].
  destruct (mskarr_update arr bit (fun w => Z.lor w (u32 (Z.shiftl 1 (Z.land bit 0x1F)))))
    as (w & arr' & Hw & Hfw & Hset & Hall & Hlen & Hbits); [done..| |].
  { intros w Hw. unfold u32. fits_tac. }
  exists arr'. unfold mskarr_set. rewrite shiftr5, Hw. simpl. split_and!; try done.
  intros i Hi. rewrite Hbits by done. pose proof (bit_split i) as [_ Hmi]. case_decide as Hd.
  - rewrite land31, Z.lor_spec. unfold u32. rewrite wrap_testbit, testbit_pow2_bool by lia.
    rewrite (mskarr_bit_word arr i w) by congruence.
    destruct (Z.ltb_spec (i mod 32) 32); [|lia]. simpl. rewrite orb_comm. f_equal.
    apply bool_decide_ext. by apply same_bit.
  - rewrite bool_decide_eq_false_2 by congruence. done.
Qed.

Lemma mskarr_clr_spec arr bit :
  Forall (fits 32) arr → 0 ≤ bit < 32 * Z.of_nat (length arr) →
  ∃ arr', mskarr_clr arr bit = Some arr' ∧ Forall (fits 32) arr' ∧
    length arr' = length arr ∧
    ∀ i, 0 ≤ i → mskarr_bit arr' i = negb (bool_decide (i = bit)) && mskarr_bit arr i.
Proof.
  intros Harr Hbit. pose proof (bit_split bit) as [_ Hm].
  destruct (mskarr_update arr bit
      (fun w => Z.land w (u32 (Z.lnot (Z.shiftl 1 (Z.land bit 0x1F))))))
    as (w & arr' & Hw & Hfw & Hset & Hall & Hlen & Hbits); [done..| |].
  { intros w Hw. fits_tac. }
  exists arr'. unfold mskarr_clr. rewrite shiftr5, Hw. simpl. split_and!; try done.
  intros i Hi. rewrite Hbits by done. pose proof (bit_split i) as [_ Hmi]. case_decide as Hd.
  - rewrite land31, Z.land_spec. unfold u32.
    rewrite wrap_testbit, Z.lnot_spec, testbit_pow2_bool by lia.
    rewrite (mskarr_bit_word arr i w) by congruence.
    destruct (Z.ltb_spec (i mod 32) 32); [|lia]. simpl. rewrite andb_comm. do 2 f_equal.
    apply bool_decide_ext. by apply same_bit.
  - rewrite bool_decide_eq_false_2 by congruence. done.
Qed.

(** The value the search must return, [base] being the first bit examined. *)
Definition first_clear (arr : list Z) (base last r : Z) : Prop :=
  (r = -1 ∧ ∀ i, base ≤ i < last → mskarr_bit arr i = true) ∨
  (base ≤ r < last ∧ mskarr_bit arr r = false ∧
   ∀ i, base ≤ i < r → mskarr_bit arr i = true).

Lemma mskarr_word_bits arr i w j :
  getb arr i = Some w → 32 * i ≤ j < 32 * (i + 1) →
  mskarr_bit arr j = Z.testbit w (j - 32 * i).
Proof.
  intros Hw Hj. pose proof (bit_split j).
  assert (Hd : j / 32 = i) by lia. rewrite <- Hd in Hw.
  rewrite (mskarr_bit_word _ _ _ Hw). f_equal. lia.
Qed.

Lemma mskarr_ffz_loop_spec arr n i e :
  Forall (fits 32) arr → 0 ≤ i → i + Z.of_nat n = e → e ≤ Z.of_nat (length arr) →
  ∃ r, mskarr_ffz_loop arr i n = Some r ∧ first_clear arr (32 * i) (32 * e) r.
Proof.
  intros Harr Hi Hn He. revert i Hi Hn. induction n as [|n IH]; intros i Hi Hn; simpl.
  - exists (-1). split; [done|]. left. split; [done|]. lia.
  - destruct (getb_in arr i) as [w Hw]; [lia|]. rewrite Hw. simpl.
    pose proof (getb_Forall _ _ _ _ Harr Hw) as Hfw.
    destruct (ffz_spec w Hfw) as [[-> Hall]|(k & -> & Hk & Hclr & Hlow)]; simpl.
    + destruct (IH (i + 1)) as (r & Hr & Hf); [lia..|]. exists r. split; [done|].
      assert (Hword : ∀ j, 32 * i ≤ j < 32 * (i + 1) → mskarr_bit arr j = true).
      { intros j Hj. rewrite (mskarr_word_bits _ _ _ _ Hw Hj). apply Hall. lia. }
      destruct Hf as [[-> Hf]|(Hr1 & Hr2 & Hf)]; [left|right].
      * split; [done|]. intros j Hj. destruct (decide (j < 32 * (i + 1))); auto with lia.
      * split_and!; [lia..|done|]. intros j Hj.
        destruct (decide (j < 32 * (i + 1))); auto with lia.
    + destruct (Z.leb_spec 0 k); [|lia]. exists (Z.shiftl i 5 + k). split; [done|].
      rewrite Z.shiftl_mul_pow2 by lia. change (2 ^ 5) with 32. right. split_and!; [lia..| |].
      * rewrite (mskarr_word_bits _ _ _ _ Hw) by lia. rewrite <- Hclr. f_equal. lia.
      * intros j Hj. rewrite (mskarr_word_bits _ _ _ _ Hw) by lia. apply Hlow. lia.
Qed.

Lemma mskarr_ffz_spec arr k :
  Forall (fits 32) arr → 0 ≤ k ≤ Z.of_nat (length arr) →
  ∃ r, mskarr_ffz arr k = Some r ∧ first_clear arr 0 (32 * k) r.
Proof.
  intros Harr Hk. unfold mskarr_ffz.
  destruct (mskarr_ffz_loop_spec arr (Z.to_nat k) 0 k) as (r & Hr & Hf); [done|lia..|].
  eauto.
Qed.

(** Over any array of 32-bit words, [mskarr_ffz] terminates and returns
    the least clear bit of the first [k] words (-1 when every one is set), and
    [mskarr_set]/[mskarr_clr] change exactly the addressed bit. *)
Theorem mskarr_correct arr bit :
  Forall (fits 32) arr → 0 ≤ bit < 32 * Z.of_nat (length arr) →
  (∀ k, 0 ≤ k ≤ Z.of_nat (length arr) →
     ∃ r, mskarr_ffz arr k = Some r ∧ first_clear arr 0 (32 * k) r) ∧
  (∃ arr', mskarr_set arr bit = Some arr' ∧
     ∀ i, 0 ≤ i → mskarr_bit arr' i = bool_decide (i = bit) || mskarr_bit arr i) ∧
  (∃ arr', mskarr_clr arr bit = Some arr' ∧
     ∀ i, 0 ≤ i → mskarr_bit arr' i = negb (bool_decide (i = bit)) && mskarr_bit arr i).
Proof.
  intros Harr Hbit. split_and!.
  - intros k Hk. by apply mskarr_ffz_spec.
  - destruct (mskarr_set_spec arr bit) as (arr' & ? & ? & ? & ?); eauto.
  - destruct (mskarr_clr_spec arr bit) as (arr' & ? & ? & ? & ?); eauto.
Qed.

Lemma mskarr_correct_witness :
  mskarr_ffz [0xFFFFFFFF; 5] 2 = Some 33 ∧
  (∃ arr', mskarr_set [0xFFFFFFFF; 5] 33 = Some arr' ∧
     ∀ i, 0 ≤ i →
       mskarr_bit arr' i = bool_decide (i = 33) || mskarr_bit [0xFFFFFFFF; 5] i).
Proof.
  split; [reflexivity|].
  apply (mskarr_correct [0xFFFFFFFF; 5] 33); [|done].
  repeat constructor; by vm_compute.
Defined.

(** The macro [BIT_REVERSE_U64C] of vsf_type.h shifts by 1 instead of 32
    in its last step, so it does not reverse the bits the function
    [BIT_REVERSE_U64] reverses. *)
Theorem BIT_REVERSE_U64C_wrong :
  BIT_REVERSE_U64 1 = 2 ^ 63 ∧ BIT_REVERSE_U64C 1 = 0x140000000.
Proof. by vm_compute. Qed.
