(* ===== verification/Chain.v ===== *)
(** * Chain: null-terminated singly linked lists in a store

    The program threads its lists through a [next] field inside larger
    structures.  A store maps addresses to structures; [Linked] says what a
    structure must offer for its instances to be chained; [lseg]/[chain]
    relate a pointer to the list of addresses reached from it. *)

From S2P Require Import Prelude.

(** A structure with an embedded link. *)
Class Linked (N : Type) := {
  nxt : N → Z;
  set_nxt : Z → N → N;
  nxt_set_nxt a n : nxt (set_nxt a n) = a;
  set_nxt_twice a b n : set_nxt a (set_nxt b n) = set_nxt a n;
  set_nxt_same n : set_nxt (nxt n) n = n }.

Definition NULL : Z := 0.

Create HintDb chain.
Create Rewrite HintDb link.

Section chain.
Context {N : Type} `{Linked N}.
Implicit Types (h : gmap Z N) (p q r a : Z) (l : list Z).

(** [p->next], undefined when [p] points to no structure. *)
Definition load_nxt h p : option Z := n ← h !! p; Some (nxt n).

(** [p->next = q]. *)
Definition store_nxt h p q : option (gmap Z N) :=
  n ← h !! p; Some (<[p := set_nxt q n]> h).

(** Following [next] from [p] visits exactly [l] and then stands at [q]. *)
Fixpoint lseg h p l q : Prop :=
  match l with
  | [] => p = q
  | a :: l => p = a ∧ a ≠ NULL ∧ ∃ n, h !! a = Some n ∧ lseg h (nxt n) l q
  end.

Definition chain h p l : Prop := lseg h p l NULL.

(** A number of steps that every acyclic walk through [h] stays below. *)
Definition fuel_of h : nat := S (size h).

Lemma lseg_app h p l1 l2 q :
  lseg h p (l1 ++ l2) q ↔ ∃ r, lseg h p l1 r ∧ lseg h r l2 q.
Proof.
  revert p. induction l1 as [|a l1 IH]; intros p; simpl.
  - naive_solver.
  - split.
    + intros (-> & Ha & n & Hn & (r & H1 & H2)%IH). eauto 10.
    + intros (r & (-> & Ha & n & Hn & H1) & H2). split_and!; [done..|].
      exists n. split; [done|]. apply IH. eauto.
Qed.

Lemma lseg_snoc h p l a q :
  lseg h p (l ++ [a]) q ↔ ∃ n, lseg h p l a ∧ a ≠ NULL ∧ h !! a = Some n ∧ nxt n = q.
Proof. rewrite lseg_app. simpl. naive_solver. Qed.

Lemma chain_nil h p : chain h p [] ↔ p = NULL.
Proof. done. Qed.

Lemma chain_null h l : chain h NULL l → l = [].
Proof. destruct l; [done|]. simpl. intros (<- & ? & _). done. Qed.

Lemma chain_cons_inv h p l :
  p ≠ NULL → chain h p l → ∃ n l', l = p :: l' ∧ h !! p = Some n ∧ chain h (nxt n) l'.
Proof.
  intros Hp. destruct l as [|a l]; simpl; [done|].
  intros (-> & _ & n & Hn & Hl). eauto.
Qed.

Lemma chain_fun h p l1 l2 : chain h p l1 → chain h p l2 → l1 = l2.
Proof.
  revert p l2. induction l1 as [|a l1 IH]; intros p l2; unfold chain; simpl.
  - intros ->. intros ?%chain_null. done.
  - intros (-> & Ha & n & Hn & H1) H2.
    apply chain_cons_inv in H2 as (n' & l' & -> & Hn' & H2); [|done].
    f_equal. eapply IH; [done|]. by simplify_eq.
Qed.

Lemma lseg_dom h p l q a : lseg h p l q → a ∈ l → is_Some (h !! a) ∧ a ≠ NULL.
Proof.
  revert p. induction l as [|b l IH]; intros p; simpl; [by intros _ ?%not_elem_of_nil|].
  intros (-> & Hb & n & Hn & Hl) [->|Ha]%elem_of_cons; [eauto|by eapply IH].
Qed.

(** A walk that ends at NULL never meets an address twice. *)
Lemma chain_NoDup h p l : chain h p l → NoDup l.
Proof.
  revert p. induction l as [|a l IH]; intros p; unfold chain; simpl; [constructor|].
  intros (-> & Ha & n & Hn & Hl). constructor; [|by eapply IH].
  intros (l1 & l2 & ->)%list_elem_of_split.
  pose proof Hl as Hl'. apply lseg_app in Hl as (r & _ & H2).
  assert (r = a) as -> by (simpl in H2; naive_solver).
  assert (chain h a (a :: (l1 ++ a :: l2))) as H3.
  { unfold chain. simpl. eauto. }
  pose proof (chain_fun _ _ _ _ H2 H3) as Heq.
  apply (f_equal length) in Heq. simpl in Heq. rewrite length_app in Heq. simpl in Heq. lia.
Qed.

Lemma chain_length h p l : chain h p l → (length l ≤ size h)%nat.
Proof.
  intros Hl. pose proof (chain_NoDup _ _ _ Hl) as Hnd.
  rewrite <- size_dom. 
  rewrite <- (size_list_to_set (C := gset Z) l) by done.
  apply subseteq_size. intros a. rewrite elem_of_list_to_set, elem_of_dom.
  intros Ha. by eapply lseg_dom.
Qed.

(** Only the link fields of the visited nodes matter. *)
Lemma lseg_frame h h' p l q :
  (∀ a n, a ∈ l → h !! a = Some n → ∃ n', h' !! a = Some n' ∧ nxt n' = nxt n) →
  lseg h p l q → lseg h' p l q.
Proof.
  revert p. induction l as [|a l IH]; intros p Hf; simpl; [done|].
  intros (-> & Ha & n & Hn & Hl). destruct (Hf a n) as (n' & Hn' & Hx); [set_solver|done|].
  split_and!; [done..|]. exists n'. rewrite Hx. split; [done|].
  apply IH; [|done]. intros b m Hb. apply Hf. set_solver.
Qed.

Lemma lseg_insert_notin h p l q a n :
  a ∉ l → lseg h p l q → lseg (<[a := n]> h) p l q.
Proof.
  intros Ha. apply lseg_frame. intros b m Hb Hm. exists m.
  rewrite lookup_insert_ne by set_solver. done.
Qed.

(** Redirecting the link of the last node of a segment. *)
Lemma lseg_relink h p l a q r n :
  a ∉ l → h !! a = Some n → lseg h p (l ++ [a]) q →
  lseg (<[a := set_nxt r n]> h) p (l ++ [a]) r.
Proof.
  intros Ha Hn. rewrite !lseg_snoc. intros (m & Hl & Ha0 & Hm & Hq).
  exists (set_nxt r n). rewrite lookup_insert_eq, nxt_set_nxt.
  split_and!; try done. by apply lseg_insert_notin.
Qed.

Lemma chain_app_inv h p l1 a l2 :
  chain h p (l1 ++ a :: l2) →
  ∃ n, lseg h p l1 a ∧ a ≠ NULL ∧ h !! a = Some n ∧ chain h (nxt n) l2 ∧ a ∉ l1 ∧ a ∉ l2.
Proof.
  intros Hc. pose proof (chain_NoDup _ _ _ Hc) as Hnd.
  apply NoDup_app in Hnd as (_ & Hd & [Ha2 _]%NoDup_cons).
  apply lseg_app in Hc as (r & H1 & H2). simpl in H2.
  destruct H2 as (-> & Ha & n & Hn & H2). exists n. split_and!; try done.
  intros Hin. apply (Hd a Hin). set_solver.
Qed.

Lemma lseg_fresh h p l q a : lseg h p l q → h !! a = None → a ∉ l.
Proof. intros Hl Hn Ha. destruct (lseg_dom _ _ _ _ _ Hl Ha) as [[? ?] _]. congruence. Qed.

(** Unlinking the successor [b] of [a]. *)
Lemma chain_unlink h p l1 a b l2 na nb :
  chain h p (l1 ++ a :: b :: l2) → h !! a = Some na → h !! b = Some nb →
  chain (<[a := set_nxt (nxt nb) na]> h) p (l1 ++ a :: l2).
Proof.
  intros Hc Hna Hnb.
  pose proof (chain_NoDup _ _ _ Hc) as Hnd.
  apply NoDup_app in Hnd as (_ & Hd & [Ha _]%NoDup_cons).
  replace (l1 ++ a :: b :: l2) with ((l1 ++ [a]) ++ b :: l2) in Hc by by rewrite <- app_assoc.
  apply chain_app_inv in Hc as (n & H1 & Hb & Hn & H2 & _ & _).
  replace (l1 ++ a :: l2) with ((l1 ++ [a]) ++ l2) by by rewrite <- app_assoc.
  apply lseg_app. exists (nxt nb). split.
  - eapply lseg_relink; [|done..]. intros Hin. apply (Hd a Hin). set_solver.
  - simplify_eq. apply lseg_insert_notin; [set_solver|done].
Qed.

(** Linking a fresh node [b] after [a]. *)
Lemma chain_link h p l1 a l2 b na nb :
  chain h p (l1 ++ a :: l2) → h !! a = Some na → h !! b = Some nb →
  b ≠ NULL → b ∉ l1 ++ a :: l2 →
  chain (<[a := set_nxt b na]> (<[b := set_nxt (nxt na) nb]> h)) p (l1 ++ a :: b :: l2).
Proof.
  intros Hc Hna Hnb Hb Hfr.
  apply chain_app_inv in Hc as (n & H1 & Ha & Hn & H2 & Ha1 & Ha2). simplify_eq.
  assert (a ≠ b) by set_solver.
  apply lseg_app. exists a. split.
  - apply lseg_insert_notin; [done|]. apply lseg_insert_notin; [set_solver|done].
  - simpl. split_and!; [done..|]. exists (set_nxt b n). rewrite lookup_insert_eq, nxt_set_nxt.
    split_and!; [done..|]. exists (set_nxt (nxt n) nb).
    rewrite lookup_insert_ne, lookup_insert_eq, nxt_set_nxt by done. split; [done|].
    apply lseg_insert_notin; [done|]. apply lseg_insert_notin; [set_solver|done].
Qed.

(** Adding a fresh node after the last one. *)
Lemma chain_snoc h p l a b na nb :
  chain h p (l ++ [a]) → h !! a = Some na → h !! b = Some nb →
  b ≠ NULL → b ∉ l ++ [a] →
  chain (<[a := set_nxt b na]> (<[b := set_nxt NULL nb]> h)) p ((l ++ [a]) ++ [b]).
Proof.
  intros Hc Hna Hnb Hb Hfr. pose proof Hc as (m & _ & _ & Hm & Hend)%lseg_snoc.
  assert (m = na) as -> by congruence. rewrite <- app_assoc. rewrite <- Hend.
  by apply (chain_link h p l a [] b na nb).
Qed.

(** Pushing a fresh node in front. *)
Lemma chain_push h p l b nb :
  chain h p l → h !! b = Some nb → b ≠ NULL → b ∉ l →
  chain (<[b := set_nxt p nb]> h) b (b :: l).
Proof.
  intros Hc Hnb Hb Hfr. unfold chain. simpl. split_and!; [done..|].
  exists (set_nxt p nb). rewrite lookup_insert_eq, nxt_set_nxt. split; [done|].
  by apply lseg_insert_notin.
Qed.

Lemma load_nxt_eq h p n : h !! p = Some n → load_nxt h p = Some (nxt n).
Proof. unfold load_nxt. by intros ->. Qed.

Lemma store_nxt_eq h p q n :
  h !! p = Some n → store_nxt h p q = Some (<[p := set_nxt q n]> h).
Proof. unfold store_nxt. by intros ->. Qed.
End chain.

Section chain_fuel.
Context {N : Type} `{Linked N}.

(** [fuel_of] suffices for one pass over any acyclic list of the store. *)
Lemma chain_fuel (h : gmap Z N) p l : chain h p l → (length l < fuel_of h)%nat.
Proof. intros Hc%chain_length. unfold fuel_of. lia. Qed.

Lemma chain_single (h : gmap Z N) a n :
  a ≠ NULL → h !! a = Some n → nxt n = NULL → chain h a [a].
Proof. intros. unfold chain. simpl. eauto. Qed.

(** The first node of a chain. *)
Definition first (l : list Z) : Z := match l with [] => NULL | a :: _ => a end.

Lemma chain_first (h : gmap Z N) p l : chain h p l → p = first l.
Proof. destruct l; simpl; [done|]. by intros (-> & _). Qed.

Lemma chain_not_null (h : gmap Z N) p l : chain h p l → l ≠ [] → p ≠ NULL.
Proof. intros Hc Hl ->. by apply chain_null in Hc. Qed.
End chain_fuel.

(** Deleting a node from a list without duplicates. *)
Lemma filter_ne_notin (n : Z) (l : list Z) : n ∉ l → filter (λ a, a ≠ n) l = l.
Proof.
  induction l as [|a l IH]; intros Hn; [done|].
  rewrite filter_cons_True by set_solver. f_equal. apply IH. set_solver.
Qed.

Lemma filter_ne_mid (n : Z) (l1 l2 : list Z) :
  NoDup (l1 ++ n :: l2) → filter (λ a, a ≠ n) (l1 ++ n :: l2) = l1 ++ l2.
Proof.
  intros (Hd1 & Hd & [Hn Hd2]%NoDup_cons)%NoDup_app.
  rewrite filter_app, filter_cons_False by naive_solver.
  rewrite !filter_ne_notin; [done|done|]. intros Hi. apply (Hd n Hi). set_solver.
Qed.

#[export] Hint Resolve load_nxt_eq store_nxt_eq : chain.
#[export] Hint Rewrite @nxt_set_nxt @set_nxt_twice @set_nxt_same : link.
#[global] Arguments fuel_of : simpl never.
#[global] Arguments load_nxt : simpl never.
#[global] Arguments store_nxt : simpl never.
#[global] Arguments nxt : simpl never.
#[global] Arguments set_nxt : simpl never.
