(* ===== verification/Sllist.v ===== *)
(** * Sllist: the intrusive singly linked list (list.c)

    The functions of list.c over a store of linked structures.  Loops run
    on fuel [fuel_of h]; the theorems show it is enough on every acyclic
    list, so a result of [None] stands for a null or dangling dereference
    or for an endless walk. *)

From S2P Require Import Prelude Chain.

(** [struct sllist] itself. *)
Record sllist := { next : Z }.

#[export] Instance sllist_Linked : Linked sllist.
Proof.
  refine {| nxt := next; set_nxt a _ := {| next := a |} |}; [done..|by intros []].
Defined.

Section sllist.
Context {N : Type} `{Linked N}.
Implicit Types (h : gmap Z N) (head node : Z).

Fixpoint sllist_get_length_loop (fuel : nat) h head (length : Z) : option Z :=
  match fuel with
  | O => None
  | S fuel =>
      if decide (head = NULL) then Some length
      else head ← load_nxt h head;
           sllist_get_length_loop fuel h head (length + 1)
  end.

Definition sllist_get_length h head : option Z :=
  sllist_get_length_loop (fuel_of h) h head 0.

Fixpoint sllist_get_idx_loop (fuel : nat) h head node (index : Z) : option Z :=
  match fuel with
  | O => None
  | S fuel =>
      if decide (head = NULL) then Some (-1)
      else if decide (head = node) then Some index
      else head ← load_nxt h head;
           sllist_get_idx_loop fuel h head node (index + 1)
  end.

Definition sllist_get_idx h head node : option Z :=
  sllist_get_idx_loop (fuel_of h) h head node 0.

Definition sllist_is_in h head node : option bool :=
  idx ← sllist_get_idx h head node; Some (bool_decide (0 ≤ idx)).

(** The walk of [sllist_remove]: it advances the caller's own [*head]. *)
Fixpoint sllist_remove_loop (fuel : nat) h head node : option (gmap Z N * Z) :=
  match fuel with
  | O => None
  | S fuel =>
      if decide (head = NULL) then Some (h, head)
      else nx ← load_nxt h head;
           if decide (nx = node)
           then nn ← load_nxt h node; h ← store_nxt h head nn; Some (h, head)
           else sllist_remove_loop fuel h nx node
  end.

(** Returns the error code, the store and the new value of [*head]. *)
Definition sllist_remove h head node : option (Z * gmap Z N * Z) :=
  is_in ← sllist_is_in h head node;
  if is_in : bool then
    if decide (head = node)
    then nn ← load_nxt h node; Some (0, h, nn)
    else '(h, head) ← sllist_remove_loop (fuel_of h) h head node; Some (0, h, head)
  else Some (-1, h, head).

Fixpoint sllist_append_loop (fuel : nat) h next : option Z :=
  match fuel with
  | O => None
  | S fuel =>
      nx ← load_nxt h next;
      if decide (nx = NULL) then Some next else sllist_append_loop fuel h nx
  end.

Definition sllist_append h head new_node : option (gmap Z N) :=
  next ← sllist_append_loop (fuel_of h) h head;
  h ← store_nxt h next new_node;
  store_nxt h new_node NULL.

Definition sllist_delete_next h head : option (gmap Z N) :=
  next ← load_nxt h head;
  nn ← load_nxt h next;
  if decide (nn = NULL) then store_nxt h head NULL
  else store_nxt h head nn.

(** ** Correctness *)

Lemma sllist_get_length_loop_spec fuel h p l n :
  chain h p l → (length l < fuel)%nat →
  sllist_get_length_loop fuel h p n = Some (n + Z.of_nat (length l)).
Proof.
  revert p l n. induction fuel as [|fuel IH]; intros p l n Hc Hf; [lia|]. simpl.
  case_decide as Hp.
  - subst. apply chain_null in Hc as ->. simpl. f_equal. lia.
  - apply chain_cons_inv in Hc as (m & l' & -> & Hm & Hc); [|done].
    rewrite (load_nxt_eq _ _ _ Hm). simpl in *. erewrite IH by (done || lia). f_equal. lia.
Qed.

Lemma sllist_get_length_spec h p l :
  chain h p l → sllist_get_length h p = Some (Z.of_nat (length l)).
Proof.
  intros Hc. unfold sllist_get_length.
  by erewrite sllist_get_length_loop_spec by eauto using chain_fuel.
Qed.

(** The index of the first occurrence of [x], [-1] when there is none. *)
Fixpoint index_of (x : Z) (l : list Z) (i : Z) : Z :=
  match l with
  | [] => -1
  | a :: l => if decide (a = x) then i else index_of x l (i + 1)
  end.

Lemma index_of_notin x l i : x ∉ l → index_of x l i = -1.
Proof.
  revert i. induction l as [|a l IH]; intros i Hx; simpl; [done|].
  rewrite decide_False by set_solver. apply IH. set_solver.
Qed.

Lemma index_of_in x l i : 0 ≤ i → x ∈ l → i ≤ index_of x l i.
Proof.
  revert i. induction l as [|a l IH]; intros i Hi Hx; simpl; [set_solver|].
  case_decide; [lia|]. pose proof (IH (i + 1) ltac:(lia) ltac:(set_solver)). lia.
Qed.

Lemma sllist_get_idx_loop_spec fuel h p l x i :
  chain h p l → (length l < fuel)%nat →
  sllist_get_idx_loop fuel h p x i = Some (index_of x l i).
Proof.
  revert p l i. induction fuel as [|fuel IH]; intros p l i Hc Hf; [lia|]. simpl.
  case_decide as Hp.
  - subst. by apply chain_null in Hc as ->.
  - apply chain_cons_inv in Hc as (m & l' & -> & Hm & Hc); [|done]. simpl in *.
    case_decide; [done|]. rewrite (load_nxt_eq _ _ _ Hm). simpl. apply IH; [done|lia].
Qed.

Lemma sllist_get_idx_spec h p l x :
  chain h p l → sllist_get_idx h p x = Some (index_of x l 0).
Proof. intros. apply sllist_get_idx_loop_spec; eauto using chain_fuel. Qed.

Lemma sllist_is_in_spec h p l x :
  chain h p l → sllist_is_in h p x = Some (bool_decide (x ∈ l)).
Proof.
  intros Hc. unfold sllist_is_in. rewrite (sllist_get_idx_spec _ _ _ _ Hc). simpl.
  f_equal. destruct (decide (x ∈ l)).
  - rewrite !bool_decide_eq_true_2; [done..|]. apply index_of_in; [lia|done].
  - rewrite index_of_notin, !bool_decide_eq_false_2; [done..|lia|done].
Qed.

Lemma sllist_append_loop_spec fuel h p l a q :
  chain h p (l ++ [a]) → (length l < fuel)%nat →
  p ≠ NULL → q = a → sllist_append_loop fuel h p = Some q.
Proof.
  revert p l. induction fuel as [|fuel IH]; intros p l Hc Hf Hp ->; [lia|]. simpl.
  apply chain_cons_inv in Hc as (m & l' & Hl & Hm & Hc); [|done].
  rewrite (load_nxt_eq _ _ _ Hm). simpl.
  destruct l as [|b l]; simplify_eq/=.
  - by rewrite decide_True by done.
  - case_decide as Hn.
    + rewrite Hn in Hc. apply chain_null in Hc. by destruct l.
    + eapply IH; [done|lia|done..].
Qed.

(** Appending to a list whose first node is [p] (the list's head node). *)
Lemma sllist_append_spec h p l b nb :
  chain h p l → p ≠ NULL → h !! b = Some nb → b ≠ NULL → b ∉ l →
  ∃ h', sllist_append h p b = Some h' ∧ chain h' p (l ++ [b]) ∧
        ∀ c, c ∉ b :: l → h' !! c = h !! c.
Proof.
  intros Hc Hp Hb Hb0 Hfr.
  destruct l as [|a l _] using rev_ind; [done|].
  pose proof (chain_NoDup _ _ _ Hc) as Hnd.
  pose proof (chain_fuel _ _ _ Hc) as Hf. rewrite length_app in Hf. simpl in Hf.
  pose proof Hc as (na & Hl & Ha0 & Hna & Hend)%lseg_snoc.
  unfold sllist_append. 
  rewrite (sllist_append_loop_spec _ _ _ l a a) by (done || lia). simpl.
  rewrite (store_nxt_eq _ _ _ _ Hna). simpl.
  assert (Hab : a ≠ b) by set_solver.
  erewrite store_nxt_eq by by rewrite lookup_insert_ne.
  eexists. split; [done|]. split.
  - apply NoDup_app in Hnd as (_ & Hd & _).
    apply lseg_snoc. exists (set_nxt NULL nb).
    rewrite lookup_insert_eq, nxt_set_nxt. split_and!; [|done..].
    apply lseg_insert_notin; [done|]. eapply lseg_relink; [|done..].
    intros Hin. apply (Hd a Hin). set_solver.
  - intros c Hc'. rewrite !lookup_insert_ne by set_solver. done.
Qed.

Lemma sllist_remove_loop_spec fuel h p l1 a b l2 na nb :
  chain h p (l1 ++ a :: b :: l2) → (length l1 < fuel)%nat →
  h !! a = Some na → h !! b = Some nb →
  sllist_remove_loop fuel h p b = Some (<[a := set_nxt (nxt nb) na]> h, a).
Proof.
  revert p l1. induction fuel as [|fuel IH]; intros p l1 Hc Hf Hna Hnb; [lia|]. simpl.
  assert (p ≠ NULL).
  { intros ->. apply chain_null in Hc. by destruct l1. }
  rewrite decide_False by done.
  apply chain_cons_inv in Hc as (m & l' & Hl & Hm & Hc); [|done].
  rewrite (load_nxt_eq _ _ _ Hm). pose proof (chain_first _ _ _ Hc) as Hx. simpl.
  destruct l1 as [|c l1]; simplify_eq/=.
  - rewrite decide_True by done. rewrite (load_nxt_eq _ _ _ Hnb). simpl.
    by erewrite store_nxt_eq.
  - rewrite decide_False; [eapply IH; try done; lia|].
    pose proof (chain_NoDup _ _ _ Hc) as Hnd.
    rewrite Hx. intros Hb. destruct l1 as [|d l1]; simplify_eq/=;
      apply NoDup_cons in Hnd as [Hn _]; set_solver.
Qed.

(** Removing [b], which follows [a]: [b] is unlinked, but [*head] is left
    pointing at [a]; the nodes before [a] are no longer reachable from it. *)
Lemma sllist_remove_mid h p l1 a b l2 :
  chain h p (l1 ++ a :: b :: l2) →
  ∃ h', sllist_remove h p b = Some (0, h', a) ∧
        chain h' p (l1 ++ a :: l2) ∧ chain h' a (a :: l2).
Proof.
  intros Hc. pose proof (chain_NoDup _ _ _ Hc) as Hnd.
  pose proof (chain_fuel _ _ _ Hc) as Hf. rewrite length_app in Hf. simpl in Hf.
  destruct (chain_app_inv _ _ _ _ _ Hc) as (na & H1 & Ha & Hna & H2 & _ & _).
  destruct H2 as (_ & Hb0 & nb & Hnb & H3).
  exists (<[a := set_nxt (nxt nb) na]> h). split.
  - unfold sllist_remove. erewrite sllist_is_in_spec by done. bindr.
    rewrite bool_decide_eq_true_2 by set_solver.
    rewrite decide_False.
    + by erewrite sllist_remove_loop_spec by (done || lia).
    + rewrite (chain_first _ _ _ Hc). intros Hb. destruct l1 as [|d l1]; simplify_eq/=;
        apply NoDup_cons in Hnd as [Hn _]; set_solver.
  - pose proof (chain_unlink _ _ _ _ _ _ _ _ Hc Hna Hnb) as Hu. split; [done|].
    apply lseg_app in Hu as (r & _ & Hr). 
    assert (r = a) as -> by (by destruct Hr). done.
Qed.

Lemma sllist_remove_first h p l2 :
  chain h p (p :: l2) →
  ∃ q, sllist_remove h p p = Some (0, h, q) ∧ chain h q l2.
Proof.
  intros Hc. pose proof Hc as (_ & Hp & n & Hn & H2).
  exists (nxt n). split; [|done]. unfold sllist_remove.
  erewrite sllist_is_in_spec by done. simpl.
  rewrite bool_decide_eq_true_2 by set_solver. rewrite decide_True by done.
  by rewrite (load_nxt_eq _ _ _ Hn).
Qed.

Lemma sllist_remove_absent h p l b :
  chain h p l → b ∉ l → sllist_remove h p b = Some (-1, h, p).
Proof.
  intros Hc Hb. unfold sllist_remove. erewrite sllist_is_in_spec by done. simpl.
  by rewrite bool_decide_eq_false_2.
Qed.

(** [sllist_remove] on an acyclic list returns -1 and changes nothing for
    an absent node; removing the first node advances [*head]; removing a
    later node unlinks it, but leaves [*head] at its predecessor [a], so
    the list seen from the caller's head shrinks to [a :: l2] and every node
    before [a] is lost to it. *)
Theorem sllist_remove_spec h p l :
  chain h p l →
  (∀ b, b ∉ l → sllist_remove h p b = Some (-1, h, p)) ∧
  (∀ b l2, l = b :: l2 → ∃ q, sllist_remove h p b = Some (0, h, q) ∧ chain h q l2) ∧
  (∀ l1 a b l2, l = l1 ++ a :: b :: l2 →
     ∃ h', sllist_remove h p b = Some (0, h', a) ∧
           chain h' p (l1 ++ a :: l2) ∧ chain h' a (a :: l2)).
Proof.
  intros Hc. split_and!.
  - eauto using sllist_remove_absent.
  - intros b l2 ->. assert (p = b) as -> by apply Hc. by apply sllist_remove_first.
  - intros l1 a b l2 ->. by apply sllist_remove_mid.
Qed.

(** On an acyclic list the traversals of list.c terminate with the length,
    the index of the first match and membership, and [sllist_append]
    adds the node at the end, leaving every other node alone. *)
Theorem sllist_queries_append h p l :
  chain h p l →
  sllist_get_length h p = Some (Z.of_nat (length l)) ∧
  (∀ x, sllist_get_idx h p x = Some (index_of x l 0) ∧
        sllist_is_in h p x = Some (bool_decide (x ∈ l))) ∧
  (∀ b nb, p ≠ NULL → h !! b = Some nb → b ≠ NULL → b ∉ l →
     ∃ h', sllist_append h p b = Some h' ∧ chain h' p (l ++ [b]) ∧
           ∀ c, c ∉ b :: l → h' !! c = h !! c).
Proof.
  intros Hc. split_and!; [by apply sllist_get_length_spec| |].
  - intros x. split; [by apply sllist_get_idx_spec|by apply sllist_is_in_spec].
  - intros. by eapply sllist_append_spec.
Qed.

(** [sllist_delete_next] drops the second node. *)
Lemma sllist_delete_next_spec h a b l :
  chain h a (a :: b :: l) →
  ∃ h', sllist_delete_next h a = Some h' ∧ chain h' a (a :: l).
Proof.
  intros Hc. pose proof Hc as (_ & Ha & na & Hna & H2).
  pose proof H2 as (Hb & Hb0 & nb & Hnb & H3).
  unfold sllist_delete_next. rewrite (load_nxt_eq _ _ _ Hna). simpl. rewrite Hb.
  rewrite (load_nxt_eq _ _ _ Hnb). simpl.
  exists (<[a := set_nxt (nxt nb) na]> h). split.
  - case_decide as Hz; rewrite (store_nxt_eq _ _ _ _ Hna); [by rewrite Hz|done].
  - by apply (chain_unlink h a [] a b l na nb).
Qed.
End sllist.

(** A concrete list [1 -> 2 -> 3] and the node 9. *)
Definition demo_store : gmap Z sllist :=
  {[ 1 := {| next := 2 |}; 2 := {| next := 3 |}; 3 := {| next := 0 |};
     9 := {| next := 7 |} ]}.

Lemma demo_chain : chain demo_store 1 [1; 2; 3].
Proof.
  repeat (split; [done|]; split; [done|]; eexists; split; [reflexivity|]). done.
Defined.

Lemma sllist_remove_spec_witness :
  ∃ h', sllist_remove demo_store 1 3 = Some (0, h', 2) ∧
        chain h' 1 [1; 2] ∧ chain h' 2 [2].
Proof. exact (proj2 (proj2 (sllist_remove_spec _ _ _ demo_chain)) [1] 2 3 [] eq_refl). Defined.

Lemma sllist_queries_append_witness :
  ∃ h', sllist_append demo_store 1 9 = Some h' ∧ chain h' 1 [1; 2; 3; 9] ∧
        ∀ c, c ∉ [9; 1; 2; 3] → h' !! c = demo_store !! c.
Proof.
  refine (proj2 (proj2 (sllist_queries_append _ _ _ demo_chain)) 9 _ _ eq_refl _ _);
    [done..|]. by_decide.
Defined.
