(* ===== verification/Vsfq.v ===== *)
(** * Vsfq: the linked queue (vsfq_* of buffer.c)

    A queue keeps a head and a tail pointer into a store of nodes that carry
    a 32-bit key [addr].  [vsfq_append]/[vsfq_dequeue] are a FIFO;
    [vsfq_enqueue] inserts in key order (the timer list); [vsfq_remove]
    unlinks a node. *)

From stdpp Require Import sorting.
From S2P Require Import Prelude Chain.

Record vsfq_node_t := { addr : Z; next : Z }.

#[export] Instance vsfq_node_Linked : Linked vsfq_node_t.
Proof.
  refine {| nxt := next; set_nxt a n := {| addr := addr n; next := a |} |};
    [done..|by intros []].
Defined.

Record vsfq_t := { head : Z; tail : Z }.

Notation qstore := (gmap Z vsfq_node_t).
Implicit Types (h : qstore) (q : vsfq_t) (n : Z) (l : list Z).

Definition vsfq_init : vsfq_t := {| head := NULL; tail := NULL |}.

Definition vsfq_append h q n : option (qstore * vsfq_t) :=
  h ← store_nxt h n NULL;
  if decide (tail q = NULL) then Some (h, {| head := n; tail := n |})
  else h ← store_nxt h (tail q) n;
       Some (h, {| head := head q; tail := n |}).

(** [while (head->next != NULL)] of [vsfq_remove]. *)
Fixpoint vsfq_remove_loop (fuel : nat) h q (hd : Z) n : option (qstore * vsfq_t) :=
  match fuel with
  | O => None
  | S fuel =>
      nx ← load_nxt h hd;
      if decide (nx = NULL) then Some (h, q)
      else if decide (nx = n) then
        nn ← load_nxt h nx;
        h ← store_nxt h hd nn;
        Some (h, if decide (nn = NULL) then {| head := head q; tail := hd |} else q)
      else vsfq_remove_loop fuel h q nx n
  end.

Definition vsfq_remove h q n : option (qstore * vsfq_t) :=
  if decide (head q = n) then
    nx ← load_nxt h (head q);
    Some (h, {| head := nx; tail := if decide (nx = NULL) then NULL else tail q |})
  else if decide (head q = NULL) then Some (h, q)
  else vsfq_remove_loop (fuel_of h) h q (head q) n.

(** The walk of [vsfq_enqueue]: the store and the node it stopped at. *)
Fixpoint vsfq_enqueue_loop (fuel : nat) h (tmp : Z) n (naddr : Z) : option (qstore * Z) :=
  match fuel with
  | O => None
  | S fuel =>
      nx ← load_nxt h tmp;
      if decide (nx = NULL) then Some (h, tmp)
      else
        nn ← h !! nx;
        if decide (naddr ≤ addr nn) then
          h ← store_nxt h n nx;
          h ← store_nxt h tmp n;
          Some (h, tmp)
        else vsfq_enqueue_loop fuel h nx n naddr
  end.

Definition vsfq_enqueue h q n : option (qstore * vsfq_t) :=
  h ← store_nxt h n NULL;
  nd ← h !! n;
  if decide (head q = NULL) then Some (h, {| head := n; tail := n |})
  else
    tmp ← h !! head q;
    if decide (addr nd ≤ addr tmp) then
      h ← store_nxt h n (head q);
      Some (h, {| head := n; tail := tail q |})
    else
      '(h, tmp) ← vsfq_enqueue_loop (fuel_of h) h (head q) n (addr nd);
      h ← store_nxt h tmp n;
      Some (h, q).

(** The dequeued node, NULL for an empty queue. *)
Definition vsfq_dequeue h q : option (Z * vsfq_t) :=
  if decide (head q = NULL) then Some (head q, q)
  else nx ← load_nxt h (head q);
       Some (head q, {| head := nx; tail := if decide (nx = NULL) then NULL else tail q |}).

(** ** Abstraction *)

(** The queue holds [l], first to last, and [tail] is its last node. *)
Definition queue_rep h q l : Prop :=
  chain h (head q) l ∧ tail q = default NULL (last l).

Definition key h n : Z := default 0 (addr <$> h !! n).

(** Insertion before the first node whose key is not smaller. *)
Fixpoint insert_before h n l : list Z :=
  match l with
  | [] => [n]
  | a :: l' => if decide (key h n ≤ key h a) then n :: l else a :: insert_before h n l'
  end.

Definition by_key h (a b : Z) : Prop := key h a ≤ key h b.

(** Two stores with the same nodes and keys (the links may differ). *)
Definition same_keys h h' : Prop := ∀ a, addr <$> h' !! a = addr <$> h !! a.

Lemma same_keys_key h h' a : same_keys h h' → key h' a = key h a.
Proof. intros Hk. unfold key. by rewrite Hk. Qed.

Lemma same_keys_node h h' a nd :
  same_keys h h' → h !! a = Some nd → ∃ nd', h' !! a = Some nd' ∧ addr nd' = addr nd.
Proof. intros Hk Ha. specialize (Hk a). rewrite Ha in Hk. by apply fmap_Some in Hk as (? & ? & ?); eauto. Qed.

#[export] Instance same_keys_equiv : Equivalence same_keys.
Proof.
  split; [by intros ? ?|intros x y Hk a; by rewrite Hk|].
  intros x y z H1 H2 a. by rewrite H2.
Qed.

Lemma same_keys_store h a x nd :
  h !! a = Some nd → same_keys h (<[a := set_nxt x nd]> h).
Proof.
  intros Ha b. destruct (decide (a = b)) as [<-|].
  - by rewrite lookup_insert_eq, Ha.
  - by rewrite lookup_insert_ne.
Qed.

Lemma insert_before_same_keys h h' n l :
  same_keys h h' → insert_before h' n l = insert_before h n l.
Proof.
  intros Hk. induction l as [|a l IH]; simpl; [done|].
  by rewrite !(same_keys_key _ _ _ Hk), IH.
Qed.

Lemma by_key_same h h' l :
  same_keys h h' → StronglySorted (by_key h) l → StronglySorted (by_key h') l.
Proof.
  intros Hk. induction 1 as [|a l Hs IH Ha]; constructor; [done|].
  eapply Forall_impl; [exact Ha|]. intros b. unfold by_key.
  by rewrite !(same_keys_key _ _ _ Hk).
Qed.

Lemma insert_before_perm h n l : insert_before h n l ≡ₚ n :: l.
Proof.
  induction l as [|a l IH]; simpl; [done|]. case_decide; [done|].
  rewrite IH. apply Permutation_swap.
Qed.

Lemma insert_before_sorted h n l :
  StronglySorted (by_key h) l → StronglySorted (by_key h) (insert_before h n l).
Proof.
  induction l as [|a l IH]; simpl; intros Hs; [repeat constructor|].
  apply StronglySorted_inv in Hs as [Hs Ha]. case_decide as Hk.
  - constructor; [by constructor|]. constructor; [done|].
    eapply Forall_impl; [exact Ha|]. unfold by_key. intros; lia.
  - constructor; [by apply IH|]. rewrite insert_before_perm. constructor; [|done].
    unfold by_key. lia.
Qed.

(** Where the node goes: after [l1], all of smaller key. *)
Lemma insert_before_split h n l :
  ∃ l1 l2, l = l1 ++ l2 ∧ insert_before h n l = l1 ++ n :: l2 ∧
    (∀ a, a ∈ l1 → key h a < key h n) ∧
    (∀ b l2', l2 = b :: l2' → key h n ≤ key h b).
Proof.
  induction l as [|a l (l1 & l2 & -> & Hi & H1 & H2)]; simpl.
  - exists [], []. split_and!; [done..|set_solver|done].
  - case_decide as Hk.
    + exists [], (a :: l1 ++ l2). split_and!; [done..|set_solver|naive_solver].
    + exists (a :: l1), l2. rewrite Hi. split_and!; [done..| |done].
      intros b [->|Hb]%elem_of_cons; [lia|auto].
Qed.

(** ** The operations *)

Lemma key_eq h a nd : h !! a = Some nd → key h a = addr nd.
Proof. unfold key. by intros ->. Qed.

Lemma vsfq_append_spec h q l n nd :
  queue_rep h q l → h !! n = Some nd → n ≠ NULL → n ∉ l →
  ∃ h' q', vsfq_append h q n = Some (h', q') ∧ queue_rep h' q' (l ++ [n]) ∧
           same_keys h h'.
Proof.
  intros [Hc Ht] Hn Hn0 Hfr. unfold vsfq_append.
  rewrite (store_nxt_eq _ _ _ _ Hn). bindr. rewrite Ht.
  destruct l as [|a l _] using rev_ind; cbn [last default].
  - rewrite decide_True by done. do 2 eexists. split; [done|]. split.
    + split; [|done]. simpl. eapply chain_single; [done|apply lookup_insert_eq|done].
    + by apply same_keys_store.
  - rewrite last_snoc. simpl.
    pose proof Hc as (na & Hl & Ha0 & Hna & Hend)%lseg_snoc.
    assert (a ≠ n) by set_solver.
    assert (Hna' : <[n := set_nxt NULL nd]> h !! a = Some na) by by rewrite lookup_insert_ne.
    rewrite decide_False by done. rewrite (store_nxt_eq _ _ _ _ Hna'). bindr.
    do 2 eexists. split; [done|]. split.
    + split; [|by rewrite last_snoc]. by apply chain_snoc.
    + etrans; by apply same_keys_store.
Qed.

Lemma vsfq_dequeue_spec h q l :
  queue_rep h q l →
  match l with
  | [] => vsfq_dequeue h q = Some (NULL, q)
  | a :: l' => ∃ q', vsfq_dequeue h q = Some (a, q') ∧ queue_rep h q' l'
  end.
Proof.
  intros [Hc Ht]. unfold vsfq_dequeue. destruct l as [|a l].
  - apply chain_nil in Hc. rewrite decide_True by done. by rewrite Hc.
  - pose proof Hc as (Ha & Ha0 & na & Hna & Hl). rewrite Ha, decide_False by done.
    rewrite (load_nxt_eq _ _ _ Hna). bindr. eexists. split; [done|].
    split; [done|]. cbn [tail]. pose proof (chain_first _ _ _ Hl) as Hf. case_decide as Hd.
    + rewrite Hd in Hl. by apply chain_null in Hl as ->.
    + rewrite Ht. destruct l; [by rewrite Hf in Hd|done].
Qed.

(** The walk of [vsfq_enqueue] from [a], whose key is smaller: once the
    last store [tmp->next = n] is done, [n] sits before the first node of
    [l] whose key is not smaller. *)
Lemma vsfq_enqueue_loop_spec fuel h a l n nd :
  chain h a (a :: l) → h !! n = Some nd → nxt nd = NULL → n ≠ NULL → n ∉ a :: l →
  key h a < key h n → (length l < fuel)%nat →
  ∃ h' tmp nt, vsfq_enqueue_loop fuel h a n (addr nd) = Some (h', tmp) ∧
    h' !! tmp = Some nt ∧
    let hf := <[tmp := set_nxt n nt]> h' in
    chain hf a (insert_before h n (a :: l)) ∧ same_keys h hf ∧
    ∀ c, c ∉ n :: a :: l → hf !! c = h !! c.
Proof.
  revert a l. induction fuel as [|fuel IH]; intros a l Hc Hn Hnn Hn0 Hfr Hka Hf; [lia|].
  pose proof Hc as (_ & Ha0 & na & Hna & Hl). simpl vsfq_enqueue_loop.
  rewrite (load_nxt_eq _ _ _ Hna). bindr.
  assert (Han : a ≠ n) by set_solver.
  assert (Hins : insert_before h n (a :: l) = a :: insert_before h n l).
  { simpl. by rewrite decide_False by lia. }
  rewrite Hins. destruct l as [|b l].
  - apply chain_nil in Hl. rewrite decide_True by done. do 3 eexists.
    split; [done|]. split; [done|]. split_and!.
    + pose proof (chain_link h a [] a [] n na nd Hc Hna Hn Hn0 Hfr) as Hk.
      rewrite Hl, <- Hnn, set_nxt_same, (insert_id h n) in Hk by done. done.
    + by apply same_keys_store.
    + intros c Hc'. rewrite lookup_insert_ne by set_solver. done.
  - pose proof Hl as (Hab & Hb0 & nb & Hnb & Hl').
    rewrite Hab, decide_False by done. rewrite Hnb. bindr. simpl insert_before.
    rewrite (key_eq h n nd), (key_eq h b nb) by done. case_decide as Hk.
    + rewrite (store_nxt_eq _ _ _ _ Hn). bindr.
      assert (Hna' : <[n := set_nxt b nd]> h !! a = Some na) by by rewrite lookup_insert_ne.
      rewrite (store_nxt_eq _ _ _ _ Hna'). bindr. do 3 eexists. split; [done|].
      split; [apply lookup_insert_eq|]. rewrite insert_insert_eq, set_nxt_twice. split_and!.
      * pose proof (chain_link h a [] a (b :: l) n na nd Hc Hna Hn Hn0 Hfr) as Hlk.
        by rewrite Hab in Hlk.
      * etrans; by apply same_keys_store.
      * intros c Hc'. rewrite !lookup_insert_ne by set_solver. done.
    + destruct (IH b l) as (h' & tmp & nt & Hr & Ht & Hcf & Hkf & Hff);
        [by rewrite Hab in Hl|done..|set_solver
        |rewrite (key_eq h n nd), (key_eq h b nb) by done; lia|simpl in *; lia|].
      exists h', tmp, nt. split; [done|]. split; [done|]. split_and!.
      * simpl in Hcf. rewrite (key_eq h n nd), (key_eq h b nb), decide_False in Hcf by done.
        unfold chain. simpl. split_and!; [done..|]. exists na.
        rewrite Hff; [|apply chain_NoDup in Hc; apply NoDup_cons in Hc as [? _]; set_solver].
        split; [done|]. rewrite Hab. apply Hcf.
      * done.
      * intros c Hc'. apply Hff. set_solver.
Qed.

Lemma vsfq_enqueue_chain h q l n nd :
  chain h (head q) l → h !! n = Some nd → n ≠ NULL → n ∉ l →
  ∃ h' q', vsfq_enqueue h q n = Some (h', q') ∧
    chain h' (head q') (insert_before h n l) ∧ same_keys h h' ∧
    tail q' = (if decide (l = []) then n else tail q).
Proof.
  intros Hc Hn Hn0 Hfr. unfold vsfq_enqueue.
  rewrite (store_nxt_eq _ _ _ _ Hn). bindr. rewrite lookup_insert_eq. bindr.
  set (h0 := <[n := set_nxt NULL nd]> h).
  assert (Hn' : h0 !! n = Some (set_nxt NULL nd)) by apply lookup_insert_eq.
  assert (Hk0 : same_keys h h0) by by apply same_keys_store.
  assert (Hc0 : chain h0 (head q) l) by by apply lseg_insert_notin.
  rewrite <- (insert_before_same_keys h h0) by done. destruct l as [|a l].
  - rewrite decide_True by by apply chain_nil in Hc. rewrite decide_True by done.
    do 2 eexists. split; [done|]. split_and!; [|done..]. by eapply chain_single.
  - pose proof Hc0 as (Hh & Ha0 & na & Hna & Hl). rewrite Hh in *.
    rewrite decide_False by done. rewrite Hna. bindr.
    rewrite (decide_False (P := a :: l = [])) by done. case_decide as Hk.
    + rewrite (store_nxt_eq _ _ _ _ Hn'). bindr. do 2 eexists. split; [done|].
      split_and!; [| |done].
      * simpl. rewrite (key_eq h0 n _ Hn'), (key_eq h0 a _ Hna), decide_True by done.
        by apply chain_push.
      * etrans; [exact Hk0|]. by apply same_keys_store.
    + destruct (vsfq_enqueue_loop_spec (fuel_of h0) h0 a l n (set_nxt NULL nd))
        as (h' & tmp & nt & Hr & Ht & Hcf & Hkf & _); try done.
      * rewrite (key_eq h0 n _ Hn'), (key_eq h0 a _ Hna). lia.
      * apply chain_fuel in Hc0. simpl in Hc0. lia.
      * rewrite Hr. bindr. rewrite (store_nxt_eq _ _ _ _ Ht). bindr.
        do 2 eexists. split; [done|]. rewrite Hh. split_and!; [done| |done].
        by etrans.
Qed.

(** The walk of [vsfq_remove] from [p <> n]. *)
Lemma vsfq_remove_loop_spec fuel h q p l n :
  chain h p (p :: l) → n ≠ p → n ≠ NULL → (length l < fuel)%nat →
  (n ∉ l → vsfq_remove_loop fuel h q p n = Some (h, q)) ∧
  (∀ l1 a l2, p :: l = l1 ++ a :: n :: l2 →
     ∃ na nn, h !! a = Some na ∧ h !! n = Some nn ∧
     vsfq_remove_loop fuel h q p n =
       Some (<[a := set_nxt (nxt nn) na]> h,
             if decide (l2 = []) then {| head := head q; tail := a |} else q)).
Proof.
  revert p l. induction fuel as [|fuel IH]; intros p l Hc Hnp Hn0 Hf; [lia|].
  pose proof Hc as (_ & Hp0 & np & Hnp' & Hl). simpl vsfq_remove_loop.
  rewrite (load_nxt_eq _ _ _ Hnp'). bindr. destruct l as [|b l].
  - apply chain_nil in Hl. rewrite decide_True by done. split; [done|].
    intros l1 a l2 Heq. destruct l1 as [|? [|]]; simplify_eq/=.
  - pose proof Hl as (Hb & Hb0 & nb & Hnb & Hl'). rewrite Hb in Hl |- *.
    rewrite decide_False by done. case_decide as Hbn.
    + clear Hb. subst b. split; [set_solver|]. intros l1 a l2 Heq.
      assert (l1 = [] ∧ p = a ∧ l = l2) as (-> & -> & ->).
      { pose proof (chain_NoDup _ _ _ Hc) as Hnd. rewrite Heq in Hnd.
        destruct l1 as [|c l1]; [naive_solver|]. exfalso. simpl in Heq. simplify_eq.
        destruct l1 as [|d l1]; simplify_eq/=;
          apply NoDup_cons in Hnd as [_ [Hx _]%NoDup_cons]; set_solver. }
      exists np, nb. split; [done|]. split; [done|].
      rewrite (load_nxt_eq _ _ _ Hnb). bindr. rewrite (store_nxt_eq _ _ _ _ Hnp'). bindr.
      f_equal. f_equal. apply decide_ext. split.
      * intros Hz. rewrite Hz in Hl'. by apply chain_null in Hl'.
      * intros ->. by apply chain_nil in Hl'.
    + destruct (IH b l) as [IH1 IH2]; [done..|simpl in *; lia|]. split.
      * intros Hni. apply IH1. set_solver.
      * intros l1 a l2 Heq. destruct l1 as [|c l1]; simplify_eq/=. by apply (IH2 l1).
Qed.

Lemma vsfq_remove_chain h q l n :
  chain h (head q) l → n ≠ NULL →
  ∃ h' q', vsfq_remove h q n = Some (h', q') ∧
    chain h' (head q') (filter (λ a, a ≠ n) l) ∧ same_keys h h' ∧
    (n ∉ l → h' = h ∧ q' = q) ∧
    (tail q = default NULL (last l) →
     tail q' = default NULL (last (filter (λ a, a ≠ n) l))).
Proof.
  intros Hc Hn0. unfold vsfq_remove. pose proof (chain_NoDup _ _ _ Hc) as Hnd.
  case_decide as Hhd.
  - destruct l as [|a l].
    { apply chain_nil in Hc. congruence. }
    pose proof Hc as (Ha & Ha0 & na & Hna & Hl). rewrite Hhd in Ha. subst a.
    rewrite Hhd, (load_nxt_eq _ _ _ Hna). bindr.
    rewrite (filter_ne_mid n [] l Hnd : filter _ (n :: l) = l).
    do 2 eexists. split; [done|]. split; [done|]. split; [done|]. split; [set_solver|].
    intros Ht. cbn [tail]. pose proof (chain_first _ _ _ Hl) as Hf. case_decide as Hd.
    + rewrite Hd in Hl. by apply chain_null in Hl as ->.
    + rewrite Ht. destruct l; [by rewrite Hf in Hd|done].
  - destruct l as [|p l].
    { rewrite decide_True by by apply chain_nil in Hc. do 2 eexists. split_and!; done. }
    pose proof Hc as (Hp & Hp0 & _). rewrite Hp in Hc, Hhd |- *. rewrite decide_False by done.
    destruct (vsfq_remove_loop_spec (fuel_of h) h q p l n) as [Hno Hyes]; [done..| |].
    { apply chain_fuel in Hc. simpl in Hc. lia. }
    destruct (decide (n ∈ l)) as [Hin|Hni].
    + apply list_elem_of_split in Hin as (l1 & l2 & ->).
      assert (∃ k a, p :: l1 = k ++ [a]) as (k & a & Hka).
      { destruct l1 as [|x l1 _] using rev_ind; [by exists [], p|]. by exists (p :: l1), x. }
      assert (Hsplit : p :: l1 ++ n :: l2 = k ++ a :: n :: l2).
      { change (p :: l1 ++ n :: l2) with ((p :: l1) ++ n :: l2).
        by rewrite Hka, <- app_assoc. }
      destruct (Hyes _ _ _ Hsplit) as (na & nn & Hna & Hnn & Hr).
      rewrite Hr. do 2 eexists. split; [done|].
      assert (Hfil : filter (λ a, a ≠ n) (p :: l1 ++ n :: l2) = k ++ a :: l2).
      { rewrite (filter_ne_mid n (p :: l1) l2 Hnd : filter _ (p :: l1 ++ n :: l2) = _).
        by rewrite Hka, <- app_assoc. }
      rewrite Hfil. split_and!.
      * assert (Hh : head (if decide (l2 = []) then {| head := head q; tail := a |} else q) = p)
          by by case_decide.
        rewrite Hh. apply (chain_unlink h p k a n l2 na nn); [by rewrite <- Hsplit|done..].
      * by apply same_keys_store.
      * set_solver.
      * intros Ht. case_decide as Hl2; [subst; by rewrite last_snoc|].
        rewrite Ht, Hsplit, !last_app. simpl. by destruct l2.
    + rewrite Hno by done. do 2 eexists. split; [done|].
      rewrite filter_ne_notin by set_solver. rewrite Hp. split_and!; done.
Qed.

(** As long as only [vsfq_append], [vsfq_dequeue] and [vsfq_remove] are
    used, the queue is a FIFO list: append adds at the end, dequeue takes
    the first node (NULL when empty), remove deletes exactly the given node
    (nothing when it is absent), all keeping the tail pointer exact. *)
Theorem vsfq_fifo h q l :
  queue_rep h q l →
  (∀ n nd, h !! n = Some nd → n ≠ NULL → n ∉ l →
     ∃ h' q', vsfq_append h q n = Some (h', q') ∧ queue_rep h' q' (l ++ [n])) ∧
  match l with
  | [] => vsfq_dequeue h q = Some (NULL, q)
  | a :: l' => ∃ q', vsfq_dequeue h q = Some (a, q') ∧ queue_rep h q' l'
  end ∧
  (∀ n, n ≠ NULL →
     ∃ h' q', vsfq_remove h q n = Some (h', q') ∧
              queue_rep h' q' (filter (λ a, a ≠ n) l)).
Proof.
  intros Hq. split_and!.
  - intros n nd Hn Hn0 Hfr.
    destruct (vsfq_append_spec h q l n nd) as (h' & q' & ? & ? & _); eauto.
  - by apply vsfq_dequeue_spec.
  - intros n Hn0. destruct Hq as [Hc Ht].
    destruct (vsfq_remove_chain h q l n Hc Hn0) as (h' & q' & Hr & Hc' & _ & _ & Ht').
    exists h', q'. split; [done|]. split; [done|auto].
Qed.

(** [vsfq_enqueue] terminates on every acyclic list and inserts the node
    before the first node whose key is not smaller, so that the list gains
    exactly that node; a list that was sorted by key is still sorted.  (The tail
    pointer is not kept, see [vsfq_enqueue_stale_tail].) *)
Theorem vsfq_enqueue_sorted h q l n nd :
  chain h (head q) l → h !! n = Some nd → n ≠ NULL → n ∉ l →
  ∃ h' q' l', vsfq_enqueue h q n = Some (h', q') ∧ chain h' (head q') l' ∧
    l' ≡ₚ n :: l ∧ (StronglySorted (by_key h) l → StronglySorted (by_key h') l') ∧
    ∃ l1 l2, l = l1 ++ l2 ∧ l' = l1 ++ n :: l2 ∧
      (∀ a, a ∈ l1 → key h a < key h n) ∧ (∀ b l2', l2 = b :: l2' → key h n ≤ key h b).
Proof.
  intros Hc Hn Hn0 Hfr.
  destruct (vsfq_enqueue_chain h q l n nd) as (h' & q' & He & Hc' & Hk & _); [done..|].
  exists h', q', (insert_before h n l). split_and!; [done..| | |].
  - apply insert_before_perm.
  - intros Hs. rewrite <- (insert_before_same_keys h h') by done.
    apply insert_before_sorted. by eapply by_key_same.
  - apply insert_before_split.
Qed.

Lemma insert_before_last h n l :
  (∀ a, a ∈ l → key h a < key h n) → insert_before h n l = l ++ [n].
Proof.
  induction l as [|a l IH]; simpl; intros Hl; [done|].
  rewrite decide_False; [f_equal; apply IH; set_solver|].
  pose proof (Hl a ltac:(set_solver)). lia.
Qed.

(** Inserting at the end of a non-empty queue does not move the tail
    pointer, so a later [vsfq_append] overwrites the link to the inserted
    node: the enqueued node [n] is lost. *)
Theorem vsfq_enqueue_stale_tail h q l n nd m md :
  queue_rep h q l → l ≠ [] → (∀ a, a ∈ l → key h a < key h n) →
  h !! n = Some nd → n ≠ NULL → n ∉ l → h !! m = Some md → m ≠ NULL → m ∉ n :: l →
  ∃ h1 q1 h2 q2,
    vsfq_enqueue h q n = Some (h1, q1) ∧ chain h1 (head q1) (l ++ [n]) ∧
    vsfq_append h1 q1 m = Some (h2, q2) ∧ chain h2 (head q2) (l ++ [m]).
Proof.
  intros [Hc Ht] Hl Hlt Hn Hn0 Hfr Hm Hm0 Hfm.
  destruct (vsfq_enqueue_chain h q l n nd) as (h1 & q1 & He & Hc1 & Hk & Ht1); [done..|].
  rewrite decide_False, Ht in Ht1 by done. rewrite insert_before_last in Hc1 by done.
  destruct l as [|a l _] using rev_ind; [done|]. rewrite last_snoc in Ht1. simpl in Ht1.
  destruct (same_keys_node _ _ _ _ Hk Hm) as (md1 & Hm1 & _).
  exists h1, q1. unfold vsfq_append. rewrite (store_nxt_eq _ _ _ _ Hm1). bindr.
  rewrite <- app_assoc in Hc1. simpl in Hc1.
  destruct (chain_app_inv _ _ _ _ _ Hc1) as (na & H1 & Ha0 & Hna & _ & Hal & _).
  rewrite Ht1, decide_False by done.
  assert (a ≠ m) by set_solver.
  erewrite (store_nxt_eq _ a) by by rewrite lookup_insert_ne. bindr.
  do 2 eexists. split; [done|]. rewrite <- app_assoc. split; [done|]. split; [done|].
  rewrite <- app_assoc. apply lseg_app. exists a. split.
  - apply lseg_insert_notin; [done|]. apply lseg_insert_notin; [set_solver|done].
  - simpl. split_and!; [done..|]. eexists. rewrite lookup_insert_eq. split; [done|].
    rewrite nxt_set_nxt. split_and!; [done..|]. eexists.
    rewrite lookup_insert_ne, lookup_insert_eq by done. split; [done|]. by rewrite nxt_set_nxt.
Qed.

(** ** Witnesses *)

(** Nodes 1, 2, 3 with keys 10, 20, 30; 1 and 2 queued. *)
Definition demo_qstore : qstore :=
  {[ 1 := {| addr := 10; next := 2 |}; 2 := {| addr := 20; next := 0 |};
     3 := {| addr := 30; next := 0 |}; 4 := {| addr := 15; next := 0 |} ]}.

Definition demo_queue : vsfq_t := {| head := 1; tail := 2 |}.

Lemma demo_queue_rep : queue_rep demo_qstore demo_queue [1; 2].
Proof.
  split; [|done].
  repeat (split; [done|]; split; [done|]; eexists; split; [reflexivity|]). done.
Defined.

Lemma vsfq_fifo_witness :
  ∃ h' q', vsfq_append demo_qstore demo_queue 3 = Some (h', q') ∧
           queue_rep h' q' [1; 2; 3].
Proof.
  refine (proj1 (vsfq_fifo _ _ _ demo_queue_rep) 3 _ eq_refl _ _);
    [done|by_decide].
Defined.

Lemma vsfq_enqueue_sorted_witness :
  ∃ h' q' l', vsfq_enqueue demo_qstore demo_queue 4 = Some (h', q') ∧
    chain h' (head q') l' ∧ l' ≡ₚ [4; 1; 2].
Proof.
  destruct (vsfq_enqueue_sorted demo_qstore demo_queue [1; 2] 4 {| addr := 15; next := 0 |})
    as (h' & q' & l' & He & Hc & Hp & _).
  - apply demo_queue_rep.
  - reflexivity.
  - done.
  - by_decide.
  - by exists h', q', l'.
Defined.

Lemma vsfq_enqueue_stale_tail_witness :
  ∃ h1 q1 h2 q2,
    vsfq_enqueue demo_qstore demo_queue 3 = Some (h1, q1) ∧ chain h1 (head q1) [1; 2; 3] ∧
    vsfq_append h1 q1 4 = Some (h2, q2) ∧ chain h2 (head q2) [1; 2; 4].
Proof.
  apply (vsfq_enqueue_stale_tail demo_qstore demo_queue [1; 2] 3
           {| addr := 30; next := 0 |} 4 {| addr := 15; next := 0 |} demo_queue_rep);
    try done; try (by_decide).
  intros a [->|[->|[]%not_elem_of_nil]%elem_of_cons]%elem_of_cons; by vm_compute.
Defined.
