(* ===== verification/Fifo.v ===== *)
(** * Fifo: the byte ring (vsf_fifo_* of buffer.c)

    A ring of [size] bytes with a head (next write) and a tail (next read);
    it holds at most [size - 1] bytes, so that head = tail means empty.
    [fifo_rep] relates the ring to the list of bytes it holds. *)

From S2P Require Import Prelude.

(** [struct vsf_buffer_t]: the bytes behind the pointer, and the size. *)
Record vsf_buffer_t := { buffer : list Z; size : Z }.

Record vsf_fifo_t := { fbuf : vsf_buffer_t; head : Z; tail : Z }.

Definition set_head (f : vsf_fifo_t) (x : Z) := {| fbuf := fbuf f; head := x; tail := tail f |}.
Definition set_tail (f : vsf_fifo_t) (x : Z) := {| fbuf := fbuf f; head := head f; tail := x |}.
Definition set_bytes (f : vsf_fifo_t) (b : list Z) :=
  {| fbuf := {| buffer := b; size := size (fbuf f) |}; head := head f; tail := tail f |}.

Definition vsf_fifo_get_next_index (pos size : Z) : Z :=
  let pos := u32 (pos + 1) in if size <=? pos then 0 else pos.

Definition vsf_fifo_init (f : vsf_fifo_t) : Z * vsf_fifo_t :=
  (VSFERR_NONE, {| fbuf := fbuf f; head := 0; tail := 0 |}).

Definition vsf_fifo_get_data_length (f : vsf_fifo_t) : Z :=
  if tail f <=? head f then u32 (head f - tail f)
  else u32 (size (fbuf f) - u32 (tail f - head f)).

Definition vsf_fifo_get_avail_length (f : vsf_fifo_t) : Z :=
  let len := u32 (size (fbuf f) - vsf_fifo_get_data_length f) in
  if 0 <? len then len - 1 else len.

(** Returns the count pushed (0 or 1). *)
Definition vsf_fifo_push8 (f : vsf_fifo_t) (data : Z) : option (Z * vsf_fifo_t) :=
  if vsf_fifo_get_avail_length f <? 1 then Some (0, f)
  else
    b ← setb (buffer (fbuf f)) (head f) data;
    Some (1, set_head (set_bytes f b)
               (vsf_fifo_get_next_index (head f) (size (fbuf f)))).

Definition vsf_fifo_pop8 (f : vsf_fifo_t) : option (Z * vsf_fifo_t) :=
  if vsf_fifo_get_data_length f <=? 0 then Some (0, f)
  else
    data ← getb (buffer (fbuf f)) (tail f);
    Some (data, set_tail f (vsf_fifo_get_next_index (tail f) (size (fbuf f)))).

(** [data] is NULL or the bytes behind the pointer. *)
Definition vsf_fifo_push (f : vsf_fifo_t) (sz : Z) (data : option (list Z))
  : option (Z * vsf_fifo_t) :=
  if vsf_fifo_get_avail_length f <? sz then Some (0, f)
  else
    let tmp32 := u32 (size (fbuf f) - head f) in
    if tmp32 <? sz then
      b ← match data with
          | Some d =>
              d1 ← read_at d 0 (Z.to_nat tmp32);
              b ← memcpy (buffer (fbuf f)) (Z.to_nat (head f)) d1;
              d2 ← read_at d (Z.to_nat tmp32) (Z.to_nat (sz - tmp32));
              memcpy b 0 d2
          | None => Some (buffer (fbuf f))
          end;
      Some (sz, set_head (set_bytes f b) (u32 (sz - tmp32)))
    else
      b ← match data with
          | Some d =>
              d1 ← read_at d 0 (Z.to_nat sz);
              memcpy (buffer (fbuf f)) (Z.to_nat (head f)) d1
          | None => Some (buffer (fbuf f))
          end;
      let head := u32 (head f + sz) in
      Some (sz, set_head (set_bytes f b) (if head =? size (fbuf f) then 0 else head)).

(** The length readable in one piece and the index [*data] points to. *)
Definition vsf_fifo_get_rbuf (f : vsf_fifo_t) : Z * Z :=
  let avail_len := vsf_fifo_get_data_length f in
  let tmp32 := u32 (size (fbuf f) - tail f) in
  (Z.min tmp32 avail_len, tail f).

Definition vsf_fifo_get_wbuf (f : vsf_fifo_t) : Z * Z :=
  let avail_len := vsf_fifo_get_avail_length f in
  let tmp32 := u32 (size (fbuf f) - head f) in
  (Z.min tmp32 avail_len, head f).

(** Returns the count and the destination buffer (when not NULL). *)
Definition vsf_fifo_peek (f : vsf_fifo_t) (sz : Z) (data : option (list Z))
  : option (Z * option (list Z)) :=
  let avail_len := vsf_fifo_get_data_length f in
  let sz := if avail_len <? sz then avail_len else sz in
  let tmp32 := u32 (size (fbuf f) - tail f) in
  match data with
  | None => Some (sz, None)
  | Some d =>
      if tmp32 <? sz then
        b1 ← read_at (buffer (fbuf f)) (Z.to_nat (tail f)) (Z.to_nat tmp32);
        d ← memcpy d 0 b1;
        b2 ← read_at (buffer (fbuf f)) 0 (Z.to_nat (sz - tmp32));
        d ← memcpy d (Z.to_nat tmp32) b2;
        Some (sz, Some d)
      else
        b1 ← read_at (buffer (fbuf f)) (Z.to_nat (tail f)) (Z.to_nat sz);
        d ← memcpy d 0 b1;
        Some (sz, Some d)
  end.

Definition vsf_fifo_pop (f : vsf_fifo_t) (sz : Z) (data : option (list Z))
  : option (Z * vsf_fifo_t * option (list Z)) :=
  '(ret, data) ← vsf_fifo_peek f sz data;
  if ret =? 0 then Some (0, f, data)
  else
    let tmp32 := u32 (size (fbuf f) - tail f) in
    if tmp32 <? ret then Some (ret, set_tail f (u32 (ret - tmp32)), data)
    else
      let tail := u32 (tail f + ret) in
      Some (ret, set_tail f (if tail =? size (fbuf f) then 0 else tail), data).

(** ** Abstraction: the ring as a list of bytes *)

Definition fifo_wf (f : vsf_fifo_t) : Prop :=
  0 < size (fbuf f) < 4294967296 ∧
  Z.of_nat (length (buffer (fbuf f))) = size (fbuf f) ∧
  0 ≤ head f < size (fbuf f) ∧ 0 ≤ tail f < size (fbuf f).

Definition fifo_rep (f : vsf_fifo_t) (l : list Z) : Prop :=
  fifo_wf f ∧
  Z.of_nat (length l) < size (fbuf f) ∧
  head f = slot (size (fbuf f)) (tail f) (Z.of_nat (length l)) ∧
  ∀ i, (i < length l)%nat →
    l !! i = buffer (fbuf f) !! Z.to_nat (slot (size (fbuf f)) (tail f) (Z.of_nat i)).

Ltac fifo_unfold := unfold fifo_rep, fifo_wf, slot in *.

Lemma fifo_data_length f l :
  fifo_rep f l → vsf_fifo_get_data_length f = Z.of_nat (length l).
Proof.
  intros ((Hs & Hb & Hh & Ht) & Hl & Hhd & _). unfold vsf_fifo_get_data_length, slot in *.
  revert Hhd. zcase; intros Hhd; rewrite ?(u32_small (tail f - head f)) by lia;
    rewrite u32_small; lia.
Qed.

Lemma fifo_avail_length f l :
  fifo_rep f l →
  vsf_fifo_get_avail_length f = size (fbuf f) - 1 - Z.of_nat (length l).
Proof.
  intros Hf. unfold vsf_fifo_get_avail_length. rewrite (fifo_data_length _ _ Hf).
  destruct Hf as ((Hs & _) & Hl & _). rewrite u32_small by lia.
  destruct (Z.ltb_spec 0 (size (fbuf f) - Z.of_nat (length l))); lia.
Qed.

(** ** Writing *)

(** A write that puts [d] in the slots after the head, and leaves the slots
    in use alone, appends [d]. *)
Lemma fifo_rep_push f l b d hd :
  fifo_rep f l → Z.of_nat (length l + length d) < size (fbuf f) →
  length b = length (buffer (fbuf f)) →
  (∀ i, (i < length d)%nat →
     b !! Z.to_nat (slot (size (fbuf f)) (head f) (Z.of_nat i)) = d !! i) →
  (∀ i, (i < length l)%nat →
     b !! Z.to_nat (slot (size (fbuf f)) (tail f) (Z.of_nat i))
     = buffer (fbuf f) !! Z.to_nat (slot (size (fbuf f)) (tail f) (Z.of_nat i))) →
  hd = slot (size (fbuf f)) (head f) (Z.of_nat (length d)) →
  fifo_rep (set_head (set_bytes f b) hd) (l ++ d).
Proof.
  intros ((Hs & Hb & Hh & Ht) & Hl & Hhd & Hc) Hroom Hlen Hnew Hold ->.
  split; [|split; [|split]]; simpl.
  - unfold fifo_wf, slot in *; simpl. revert Hhd. zcase; lia.
  - rewrite length_app. lia.
  - rewrite length_app. unfold slot in *. revert Hhd. zcase; lia.
  - intros i. rewrite length_app. intros Hi. destruct (decide (i < length l)%nat).
    + rewrite lookup_app_l by lia. rewrite Hold by lia. by apply Hc.
    + rewrite lookup_app_r by lia. rewrite <- Hnew by lia. f_equal. f_equal.
      unfold slot in *. revert Hhd. zcase; lia.
Qed.

(** The slots in use are not those about to be written. *)
Lemma fifo_slots_disjoint f l i j :
  fifo_rep f l → (i < length l)%nat →
  (0 ≤ j)%Z → Z.of_nat (length l) + j < size (fbuf f) →
  slot (size (fbuf f)) (tail f) (Z.of_nat i) ≠ slot (size (fbuf f)) (head f) j.
Proof.
  intros ((Hs & Hb & Hh & Ht) & Hl & Hhd & Hc) Hi Hj Hr. unfold slot in *.
  revert Hhd. zcase; lia.
Qed.

Lemma fifo_slot_range f l i :
  fifo_rep f l → (i < length l)%nat →
  0 ≤ slot (size (fbuf f)) (tail f) (Z.of_nat i) < size (fbuf f).
Proof. intros ((Hs & _ & _ & Ht) & Hl & _) Hi. unfold slot. zcase; lia. Qed.

Lemma fifo_push_spec f l d :
  fifo_rep f l →
  Z.of_nat (length d) ≤ size (fbuf f) - 1 - Z.of_nat (length l) →
  ∃ f', vsf_fifo_push f (Z.of_nat (length d)) (Some d) = Some (Z.of_nat (length d), f') ∧
        fifo_rep f' (l ++ d) ∧ size (fbuf f') = size (fbuf f).
Proof.
  intros Hf Hroom. unfold vsf_fifo_push. rewrite (fifo_avail_length _ _ Hf).
  pose proof Hf as ((Hs & Hb & Hh & Ht) & Hl & Hhd & Hc).
  destruct (Z.ltb_spec (size (fbuf f) - 1 - Z.of_nat (length l)) (Z.of_nat (length d))); [lia|].
  rewrite u32_small by lia.
  destruct (Z.ltb_spec (size (fbuf f) - head f) (Z.of_nat (length d))).
  - rewrite (read_at_in d 0) by lia. bindr. rewrite memcpy_in by len. bindr.
    rewrite read_at_in by lia. bindr. rewrite memcpy_in by len. bindr.
    eexists. split; [done|]. split; [|done]. apply fifo_rep_push; try done.
    + lia.
    + by len.
    + intros i Hi. unfold slot. destruct (Z.ltb_spec (head f + Z.of_nat i) (size (fbuf f))).
      * rewrite list_lookup_inserts_ge by len.
        rewrite list_lookup_inserts by len. 
        rewrite lookup_take_lt by lia. rewrite lookup_drop. f_equal. lia.
      * rewrite list_lookup_inserts by len.
        rewrite lookup_take_lt by lia. rewrite lookup_drop. f_equal. lia.
    + intros i Hi. pose proof (fifo_slot_range _ _ _ Hf Hi).
      pose proof (λ j Hj Hr, fifo_slots_disjoint f l i j Hf Hi Hj Hr) as Hdis.
      assert (Z.of_nat (length d) - (size (fbuf f) - head f) ≤
              slot (size (fbuf f)) (tail f) (Z.of_nat i) < head f).
      { unfold slot in *. revert Hhd. zcase; lia. }
      rewrite list_lookup_inserts_ge by len.
      rewrite list_lookup_inserts_lt by len. done.
    + unfold slot. rewrite u32_small by lia. zcase; lia.
  - rewrite read_at_in by lia. bindr. rewrite memcpy_in by len. bindr.
    eexists. split; [done|]. split; [|done]. apply fifo_rep_push; try done.
    + lia.
    + by len.
    + intros i Hi. unfold slot. destruct (Z.ltb_spec (head f + Z.of_nat i) (size (fbuf f))); [|lia].
      rewrite list_lookup_inserts by len.
      rewrite lookup_take_lt by lia. rewrite lookup_drop. f_equal. lia.
    + intros i Hi. pose proof (fifo_slot_range _ _ _ Hf Hi).
      destruct (decide (slot (size (fbuf f)) (tail f) (Z.of_nat i) < head f)).
      * rewrite list_lookup_inserts_lt by len. done.
      * rewrite list_lookup_inserts_ge; [done|]. len. 
        unfold slot in *. revert Hhd. zcase; lia.
    + unfold slot. rewrite u32_small by lia. zcase; lia.
Qed.

Lemma fifo_push_full f l d n :
  fifo_rep f l → size (fbuf f) - 1 - Z.of_nat (length l) < n →
  vsf_fifo_push f n d = Some (0, f).
Proof.
  intros Hf Hn. unfold vsf_fifo_push. rewrite (fifo_avail_length _ _ Hf).
  destruct (Z.ltb_spec (size (fbuf f) - 1 - Z.of_nat (length l)) n); [done|lia].
Qed.

(** ** Reading *)

(** Advancing the tail by [n] drops [n] bytes. *)
Lemma fifo_rep_drop f l n tl :
  fifo_rep f l → (n ≤ length l)%nat →
  tl = slot (size (fbuf f)) (tail f) (Z.of_nat n) →
  fifo_rep (set_tail f tl) (drop n l).
Proof.
  intros ((Hs & Hb & Hh & Ht) & Hl & Hhd & Hc) Hn ->.
  split; [|split; [|split]]; simpl.
  - unfold fifo_wf, slot in *; simpl. zcase; lia.
  - rewrite length_drop. lia.
  - rewrite length_drop. unfold slot in *. revert Hhd. zcase; lia.
  - intros i. rewrite length_drop. intros Hi. rewrite lookup_drop, Hc by lia.
    f_equal. f_equal. unfold slot. zcase; lia.
Qed.

(** The bytes of the ring read in at most two pieces are the list. *)
Lemma fifo_bytes f l n i :
  fifo_rep f l → (n ≤ length l)%nat → (i < n)%nat →
  take n l !! i
  = buffer (fbuf f) !! Z.to_nat (slot (size (fbuf f)) (tail f) (Z.of_nat i)).
Proof. intros (_ & _ & _ & Hc) Hn Hi. rewrite lookup_take_lt by done. apply Hc. lia. Qed.

Lemma fifo_peek_spec f l n d :
  fifo_rep f l → 0 ≤ n → Z.min n (Z.of_nat (length l)) ≤ Z.of_nat (length d) →
  let m := Z.min n (Z.of_nat (length l)) in
  vsf_fifo_peek f n (Some d) = Some (m, Some (list_inserts 0 (take (Z.to_nat m) l) d)).
Proof.
  intros Hf Hn Hd m. unfold vsf_fifo_peek. rewrite (fifo_data_length _ _ Hf).
  assert ((if Z.of_nat (length l) <? n then Z.of_nat (length l) else n) = m) as -> by
    (destruct (Z.ltb_spec (Z.of_nat (length l)) n); lia).
  pose proof Hf as ((Hs & Hb & Hh & Ht) & Hl & Hhd & Hc).
  rewrite u32_small by lia.
  assert (Hm : Z.of_nat (Z.to_nat m) = m) by lia.
  destruct (Z.ltb_spec (size (fbuf f) - tail f) m).
  - rewrite (read_at_in _ (Z.to_nat _)) by lia. bindr. rewrite memcpy_in by len. bindr.
    rewrite read_at_in by lia. bindr. rewrite memcpy_in by len. bindr.
    do 3 f_equal. apply list_eq. intros i. 
    destruct (decide (i < Z.to_nat m)%nat).
    + rewrite (list_lookup_inserts d 0) by len. rewrite Nat.sub_0_r.
      rewrite (fifo_bytes _ _ _ _ Hf) by lia. unfold slot.
      destruct (Z.ltb_spec (tail f + Z.of_nat i) (size (fbuf f))).
      * rewrite list_lookup_inserts_lt by lia. rewrite list_lookup_inserts by len.
        rewrite lookup_take_lt, lookup_drop by lia. f_equal. lia.
      * rewrite list_lookup_inserts by len.
        rewrite lookup_take_lt, lookup_drop by lia. f_equal. lia.
    + rewrite !list_lookup_inserts_ge by len. done.
  - rewrite read_at_in by lia. bindr. rewrite memcpy_in by len. bindr.
    do 3 f_equal. apply list_eq. intros i.
    destruct (decide (i < Z.to_nat m)%nat).
    + rewrite !list_lookup_inserts by len. rewrite Nat.sub_0_r.
      rewrite (fifo_bytes _ _ _ _ Hf) by lia. unfold slot.
      destruct (Z.ltb_spec (tail f + Z.of_nat i) (size (fbuf f))); [|lia].
      rewrite lookup_take_lt, lookup_drop by lia. f_equal. lia.
    + rewrite !list_lookup_inserts_ge by len. done.
Qed.

Lemma fifo_pop_spec f l n d :
  fifo_rep f l → 0 ≤ n → Z.min n (Z.of_nat (length l)) ≤ Z.of_nat (length d) →
  let m := Z.min n (Z.of_nat (length l)) in
  ∃ f', vsf_fifo_pop f n (Some d) =
          Some (m, f', Some (list_inserts 0 (take (Z.to_nat m) l) d)) ∧
        fifo_rep f' (drop (Z.to_nat m) l) ∧ size (fbuf f') = size (fbuf f).
Proof.
  intros Hf Hn Hd m. unfold vsf_fifo_pop. rewrite (fifo_peek_spec _ _ _ _ Hf Hn Hd). bindr.
  fold m. pose proof Hf as ((Hs & Hb & Hh & Ht) & Hl & Hhd & Hc).
  rewrite (u32_small (size (fbuf f) - tail f)) by lia.
  assert (Hdrop := λ tl Htl, fifo_rep_drop f l (Z.to_nat m) tl Hf ltac:(lia) Htl).
  destruct (Z.eqb_spec m 0) as [Hm0|]; [|destruct (Z.ltb_spec (size (fbuf f) - tail f) m)].
  - exists f. rewrite Hm0. by split_and!.
  - eexists. split; [done|]. split; [|done]. apply Hdrop. unfold slot.
    rewrite u32_small by lia. zcase; lia.
  - eexists. split; [done|]. split; [|done]. apply Hdrop. unfold slot.
    rewrite u32_small by lia. zcase; lia.
Qed.

Lemma next_index_slot f :
  fifo_wf f → ∀ p, 0 ≤ p < size (fbuf f) →
  vsf_fifo_get_next_index p (size (fbuf f)) = slot (size (fbuf f)) p 1.
Proof.
  intros (Hs & _) p Hp. unfold vsf_fifo_get_next_index, slot.
  rewrite u32_small by lia. zcase; lia.
Qed.

Lemma fifo_push8_spec f l x :
  fifo_rep f l →
  (size (fbuf f) - 1 ≤ Z.of_nat (length l) → vsf_fifo_push8 f x = Some (0, f)) ∧
  (Z.of_nat (length l) < size (fbuf f) - 1 →
   ∃ f', vsf_fifo_push8 f x = Some (1, f') ∧ fifo_rep f' (l ++ [x])).
Proof.
  intros Hf. unfold vsf_fifo_push8. rewrite (fifo_avail_length _ _ Hf).
  pose proof Hf as ((Hs & Hb & Hh & Ht) & Hl & Hhd & Hc).
  destruct (Z.ltb_spec (size (fbuf f) - 1 - Z.of_nat (length l)) 1);
    (split; intros; [try lia; try done|try lia]).
  rewrite setb_in by lia. bindr. eexists. split; [done|].
  apply fifo_rep_push; try done.
  - simpl. lia.
  - by len.
  - intros i Hi. simpl in Hi. assert (i = 0%nat) as -> by lia.
    unfold slot. destruct (Z.ltb_spec (head f + Z.of_nat 0) (size (fbuf f))); [|lia].
    rewrite Z.add_0_r. rewrite list_lookup_insert_eq by lia. done.
  - intros i Hi. rewrite list_lookup_insert_ne; [done|]. intros Heq.
    pose proof (fifo_slot_range _ _ _ Hf Hi).
    apply (fifo_slots_disjoint f l i 0 Hf Hi); [lia..|].
    unfold slot at 2. destruct (Z.ltb_spec (head f + 0) (size (fbuf f))); lia.
  - by apply next_index_slot.
Qed.

Lemma fifo_pop8_spec f l :
  fifo_rep f l →
  match l with
  | [] => vsf_fifo_pop8 f = Some (0, f)
  | x :: l' => ∃ f', vsf_fifo_pop8 f = Some (x, f') ∧ fifo_rep f' l'
  end.
Proof.
  intros Hf. unfold vsf_fifo_pop8. rewrite (fifo_data_length _ _ Hf).
  destruct l as [|x l]; [done|]. simpl length.
  destruct (Z.leb_spec (Z.of_nat (S (length l))) 0); [lia|].
  pose proof Hf as ((Hs & Hb & Hh & Ht) & Hl & Hhd & Hc).
  pose proof (Hc 0%nat ltac:(simpl; lia)) as Hx. simpl in Hx.
  assert (slot (size (fbuf f)) (tail f) 0 = tail f) as Htl by (unfold slot; zcase; lia).
  change (Z.of_nat 0) with 0 in Hx. rewrite Htl in Hx.
  unfold getb. rewrite decide_True, <- Hx by lia. bindr.
  eexists. split; [done|]. apply (fifo_rep_drop f (x :: l) 1); [done|simpl; lia|].
  by apply next_index_slot.
Qed.

(** C26: the ring implements a bounded byte queue of capacity [size - 1]:
    [vsf_fifo_push] appends all the bytes or, when they do not fit, returns 0
    and changes nothing, in one piece or split around the end of the buffer;
    [vsf_fifo_pop] removes and copies out the first [min n length] bytes;
    [vsf_fifo_get_data_length]/[_avail_length] are exact. *)
Theorem vsf_fifo_refines_queue f l :
  fifo_rep f l →
  vsf_fifo_get_data_length f = Z.of_nat (length l) ∧
  vsf_fifo_get_avail_length f = size (fbuf f) - 1 - Z.of_nat (length l) ∧
  (∀ d, let n := Z.of_nat (length d) in
     if decide (n ≤ vsf_fifo_get_avail_length f)
     then ∃ f', vsf_fifo_push f n (Some d) = Some (n, f') ∧ fifo_rep f' (l ++ d)
     else vsf_fifo_push f n (Some d) = Some (0, f)) ∧
  (∀ n d, 0 ≤ n → Z.min n (Z.of_nat (length l)) ≤ Z.of_nat (length d) →
     let m := Z.min n (Z.of_nat (length l)) in
     ∃ f', vsf_fifo_pop f n (Some d) =
             Some (m, f', Some (list_inserts 0 (take (Z.to_nat m) l) d)) ∧
           fifo_rep f' (drop (Z.to_nat m) l)).
Proof.
  intros Hf. split_and!; [by apply fifo_data_length|by apply fifo_avail_length| |].
  - intros d n. rewrite (fifo_avail_length _ _ Hf). case_decide.
    + destruct (fifo_push_spec f l d) as (f' & ? & ? & _); eauto.
    + apply (fifo_push_full f l); [done|lia].
  - intros n d Hn Hd. destruct (fifo_pop_spec f l n d) as (f' & ? & ? & _); eauto.
Qed.

(** The byte-wise operations are the one-byte case: [vsf_fifo_push8]
    accepts a byte exactly while fewer than [size - 1] are held, and
    [vsf_fifo_pop8] returns the oldest byte (0 on an empty ring). *)
Theorem vsf_fifo_byte_ops f l :
  fifo_rep f l →
  (∀ x, if decide (Z.of_nat (length l) < size (fbuf f) - 1)
        then ∃ f', vsf_fifo_push8 f x = Some (1, f') ∧ fifo_rep f' (l ++ [x])
        else vsf_fifo_push8 f x = Some (0, f)) ∧
  match l with
  | [] => vsf_fifo_pop8 f = Some (0, f)
  | x :: l' => ∃ f', vsf_fifo_pop8 f = Some (x, f') ∧ fifo_rep f' l'
  end.
Proof.
  intros Hf. split; [|by apply fifo_pop8_spec].
  intros x. destruct (fifo_push8_spec f l x Hf) as [Hfull Hroom].
  case_decide; [by apply Hroom|apply Hfull; lia].
Qed.

(** The in-place windows are sound: the [vsf_fifo_get_rbuf] window holds
    the first bytes of the queue, and the [vsf_fifo_get_wbuf] window lies
    inside the buffer, fits the free room and overlaps no byte in use. *)
Theorem vsf_fifo_windows f l :
  fifo_rep f l →
  (let '(n, p) := vsf_fifo_get_rbuf f in
   0 ≤ n ≤ Z.of_nat (length l) ∧ (l ≠ [] → 0 < n) ∧
   take (Z.to_nat n) (drop (Z.to_nat p) (buffer (fbuf f))) = take (Z.to_nat n) l) ∧
  (let '(n, p) := vsf_fifo_get_wbuf f in
   0 ≤ n ≤ vsf_fifo_get_avail_length f ∧ 0 ≤ p ∧ p + n ≤ size (fbuf f) ∧
   ∀ i j, (i < length l)%nat → 0 ≤ j < n →
     slot (size (fbuf f)) (tail f) (Z.of_nat i) ≠ p + j).
Proof.
  intros Hf. pose proof Hf as ((Hs & Hb & Hh & Ht) & Hl & Hhd & Hc).
  unfold vsf_fifo_get_rbuf, vsf_fifo_get_wbuf.
  rewrite (fifo_data_length _ _ Hf), (fifo_avail_length _ _ Hf), !u32_small by lia.
  split; split_and!; try lia.
  - intros Hne. destruct l; [done|]. simpl. lia.
  - apply list_eq. intros i.
    set (m := Z.min (size (fbuf f) - tail f) (Z.of_nat (length l))).
    destruct (decide (i < Z.to_nat m)%nat).
    + rewrite !lookup_take_lt, lookup_drop, Hc by lia. f_equal. unfold slot. zcase; lia.
    + rewrite !lookup_take_ge by lia. done.
  - intros i j Hi Hj. pose proof (fifo_slots_disjoint f l i j Hf Hi ltac:(lia) ltac:(lia)) as Hd.
    intros Heq. apply Hd. rewrite Heq. unfold slot. zcase; lia.
Qed.

(** A ring of 4 bytes holding [7; 8], wrapped around the end. *)
Definition demo_fifo : vsf_fifo_t :=
  {| fbuf := {| buffer := [8; 0; 0; 7]; size := 4 |}; head := 1; tail := 3 |}.

Lemma demo_fifo_rep : fifo_rep demo_fifo [7; 8].
Proof.
  split; [unfold fifo_wf; simpl; lia|]. split; [simpl; lia|]. split; [done|].
  intros [|[|i]] Hi; [done..|simpl in Hi; lia].
Qed.

Lemma vsf_fifo_refines_queue_witness :
  ∃ f', vsf_fifo_pop demo_fifo 2 (Some [0; 0; 0]) = Some (2, f', Some [7; 8; 0]) ∧
        fifo_rep f' [].
Proof.
  refine (proj2 (proj2 (proj2 (vsf_fifo_refines_queue _ _ demo_fifo_rep)))
            2 [0; 0; 0] _ _); by vm_compute.
Defined.

Lemma vsf_fifo_byte_ops_witness :
  ∃ f', vsf_fifo_push8 demo_fifo 9 = Some (1, f') ∧ fifo_rep f' [7; 8; 9].
Proof. exact (proj1 (vsf_fifo_byte_ops _ _ demo_fifo_rep) 9). Defined.

Lemma vsf_fifo_windows_witness :
  vsf_fifo_get_rbuf demo_fifo = (1, 3) ∧
  take 1 (drop 3 (buffer (fbuf demo_fifo))) = take 1 [7; 8].
Proof.
  split; [reflexivity|].
  exact (proj2 (proj2 (proj1 (vsf_fifo_windows _ _ demo_fifo_rep)))).
Defined.
