(* ===== verification/Multibuf.v ===== *)
(** * Multibuf: the ring of buffers and its byte stream
    (vsf_multibuf_* of buffer.c, multibuf_stream_* of stream.c)

    [count] buffers of [size] bytes; a producer fills the buffer at [head]
    up to [wpos] and publishes it with a push, a consumer drains the buffer
    at [tail] from [rpos] and gives it back with a pop. *)

From S2P Require Import Prelude Fifo.

(** A pointer of the source that may be NULL: [None] is NULL. *)
Notation ptr := (option Z).

(** [struct vsf_multibuf_t]; [buffer_list] is the contents of the buffers. *)
Record vsf_multibuf_t := {
  msize : Z; buffer_list : list (list Z); count : Z;
  mhead : Z; mtail : Z; mlength : Z }.

Definition vsf_multibuf_init (m : vsf_multibuf_t) : Z * vsf_multibuf_t :=
  (VSFERR_NONE,
   {| msize := msize m; buffer_list := buffer_list m; count := count m;
      mhead := 0; mtail := 0; mlength := 0 |}).

(** The index in [buffer_list] of the buffer to fill, or NULL. *)
Definition vsf_multibuf_get_empty (m : vsf_multibuf_t) : ptr :=
  if count m <=? mlength m then None else Some (mhead m).

Definition vsf_multibuf_push (m : vsf_multibuf_t) : Z * vsf_multibuf_t :=
  if count m <=? mlength m then (VSFERR_FAIL, m)
  else (VSFERR_NONE,
        {| msize := msize m; buffer_list := buffer_list m; count := count m;
           mhead := u16 (vsf_fifo_get_next_index (mhead m) (count m));
           mtail := mtail m; mlength := u16 (mlength m + 1) |}).

Definition vsf_multibuf_get_payload (m : vsf_multibuf_t) : ptr :=
  if mlength m =? 0 then None else Some (mtail m).

Definition vsf_multibuf_pop (m : vsf_multibuf_t) : Z * vsf_multibuf_t :=
  if mlength m =? 0 then (VSFERR_FAIL, m)
  else (VSFERR_NONE,
        {| msize := msize m; buffer_list := buffer_list m; count := count m;
           mhead := mhead m;
           mtail := u16 (vsf_fifo_get_next_index (mtail m) (count m));
           mlength := u16 (mlength m - 1) |}).

(** [struct vsf_mbufstream_mem_t]. *)
Record vsf_mbufstream_mem_t := { multibuf : vsf_multibuf_t; rpos : Z; wpos : Z }.

Definition multibuf_stream_init (s : vsf_mbufstream_mem_t) : vsf_mbufstream_mem_t :=
  {| multibuf := snd (vsf_multibuf_init (multibuf s)); rpos := 0; wpos := 0 |}.

Definition multibuf_stream_get_data_length (s : vsf_mbufstream_mem_t) : Z :=
  let m := multibuf s in
  u32 (u32 (u32 (mlength m * msize m) + wpos s) - rpos s).

Definition multibuf_stream_get_avail_length (s : vsf_mbufstream_mem_t) : Z :=
  let m := multibuf s in
  u32 (u32 (count m * msize m) - multibuf_stream_get_data_length s).

Definition set_bytes (m : vsf_multibuf_t) (l : list (list Z)) : vsf_multibuf_t :=
  {| msize := msize m; buffer_list := l; count := count m;
     mhead := mhead m; mtail := mtail m; mlength := mlength m |}.

(** [memcpy(&buf[wpos], src, length src)] for buffer number [buf]. *)
Definition buf_write (m : vsf_multibuf_t) (buf pos : Z) (src : list Z)
  : option vsf_multibuf_t :=
  b ← buffer_list m !! Z.to_nat buf;
  b ← memcpy b (Z.to_nat pos) src;
  Some (set_bytes m (<[Z.to_nat buf := b]> (buffer_list m))).

Definition buf_read (m : vsf_multibuf_t) (buf pos n : Z) : option (list Z) :=
  b ← buffer_list m !! Z.to_nat buf;
  read_at b (Z.to_nat pos) (Z.to_nat n).

(** The write loop: [data] is NULL or the whole source, [wsize] bytes of it
    are done and [remain_size] are left. *)
Fixpoint multibuf_stream_write_loop (fuel : nat) (s : vsf_mbufstream_mem_t)
    (data : option (list Z)) (buf : ptr) (wsize remain_size : Z)
  : option (Z * vsf_mbufstream_mem_t) :=
  match fuel with
  | O => None
  | S fuel =>
      match buf with
      | None => Some (wsize, s)
      | Some b =>
          if remain_size <=? 0 then Some (wsize, s)
          else
            let cur_size := Z.min (u32 (msize (multibuf s) - wpos s)) remain_size in
            m ← match data with
                | Some d => src ← read_at d (Z.to_nat wsize) (Z.to_nat cur_size);
                            buf_write (multibuf s) b (wpos s) src
                | None => Some (multibuf s)
                end;
            let wsize := u32 (wsize + cur_size) in
            let remain_size := u32 (remain_size - cur_size) in
            let wp := u32 (wpos s + cur_size) in
            if msize m <=? wp then
              let m := snd (vsf_multibuf_push m) in
              multibuf_stream_write_loop fuel {| multibuf := m; rpos := rpos s; wpos := 0 |}
                data (vsf_multibuf_get_empty m) wsize remain_size
            else
              multibuf_stream_write_loop fuel {| multibuf := m; rpos := rpos s; wpos := wp |}
                data (Some b) wsize remain_size
      end
  end.

Definition multibuf_stream_write (s : vsf_mbufstream_mem_t) (size : Z)
    (data : option (list Z)) : option (Z * vsf_mbufstream_mem_t) :=
  multibuf_stream_write_loop (S (Z.to_nat size)) s data
    (vsf_multibuf_get_empty (multibuf s)) 0 size.

Fixpoint multibuf_stream_read_loop (fuel : nat) (s : vsf_mbufstream_mem_t)
    (data : option (list Z)) (buf : ptr) (rsize remain_size : Z)
  : option (Z * vsf_mbufstream_mem_t * option (list Z)) :=
  match fuel with
  | O => None
  | S fuel =>
      match buf with
      | None => Some (rsize, s, data)
      | Some b =>
          if remain_size <=? 0 then Some (rsize, s, data)
          else
            let m := multibuf s in
            let cur_size := Z.min (u32 (msize m - rpos s)) remain_size in
            data ← match data with
                   | Some d => src ← buf_read m b (rpos s) cur_size;
                               d ← memcpy d (Z.to_nat rsize) src;
                               Some (Some d)
                   | None => Some None
                   end;
            let rsize := u32 (rsize + cur_size) in
            let remain_size := u32 (remain_size - cur_size) in
            let rp := u32 (rpos s + cur_size) in
            if msize m <=? rp then
              let m := snd (vsf_multibuf_pop m) in
              multibuf_stream_read_loop fuel {| multibuf := m; rpos := 0; wpos := wpos s |}
                data (vsf_multibuf_get_payload m) rsize remain_size
            else
              multibuf_stream_read_loop fuel {| multibuf := m; rpos := rp; wpos := wpos s |}
                data (Some b) rsize remain_size
      end
  end.

Definition multibuf_stream_read (s : vsf_mbufstream_mem_t) (size : Z)
    (data : option (list Z)) : option (Z * vsf_mbufstream_mem_t * option (list Z)) :=
  multibuf_stream_read_loop (S (Z.to_nat size)) s data
    (vsf_multibuf_get_payload (multibuf s)) 0 size.

(** ** Abstraction *)

Definition mbytes (m : vsf_multibuf_t) : Z := count m * msize m.

(** The byte at flat position [p] of the ring. *)
Definition mbyte (m : vsf_multibuf_t) (p : Z) : option Z :=
  b ← buffer_list m !! Z.to_nat (p / msize m);
  b !! Z.to_nat (p mod msize m).

Definition mbuf_wf (s : vsf_mbufstream_mem_t) : Prop :=
  let m := multibuf s in
  0 < msize m ∧ 0 < count m < 65536 ∧ mbytes m < 4294967296 ∧
  Z.of_nat (length (buffer_list m)) = count m ∧
  (∀ b, b ∈ buffer_list m → Z.of_nat (length b) = msize m) ∧
  0 ≤ mtail m < count m ∧ 0 ≤ mlength m ≤ count m ∧
  mhead m = slot (count m) (mtail m) (mlength m) ∧
  0 ≤ wpos s < msize m ∧ 0 ≤ rpos s < msize m ∧
  (mlength m = count m → wpos s = 0) ∧ (mlength m = 0 → rpos s = 0).

Definition mbuf_rep (s : vsf_mbufstream_mem_t) (l : list Z) : Prop :=
  let m := multibuf s in
  mbuf_wf s ∧
  Z.of_nat (length l) = mlength m * msize m + wpos s - rpos s ∧
  ∀ i, (i < length l)%nat →
    l !! i = mbyte m (slot (mbytes m) (mtail m * msize m + rpos s) (Z.of_nat i)).

(** ** Flat positions *)

Lemma flat_div s b o : 0 < s → 0 ≤ o < s → (b * s + o) / s = b ∧ (b * s + o) mod s = o.
Proof.
  intros Hs Ho. split.
  - rewrite Z.add_comm, Z.div_add, Z.div_small by lia. lia.
  - rewrite Z.add_comm, Z.mod_add, Z.mod_small by lia. lia.
Qed.

Lemma flat_split s p : 0 < s → p = p / s * s + p mod s ∧ 0 ≤ p mod s < s.
Proof.
  intros Hs. pose proof (Z.div_mod p s). pose proof (Z.mod_pos_bound p s). lia.
Qed.

Lemma flat_range c s b o : 0 ≤ b < c → 0 ≤ o < s → 0 ≤ b * s + o < c * s.
Proof. nia. Qed.

(** In a flat position the buffer number decides the order. *)
Lemma flat_lt s b o b' o' :
  0 ≤ o < s → 0 ≤ o' < s → (b * s + o < b' * s + o' ↔ b < b' ∨ (b = b' ∧ o < o')).
Proof. intros. split; [|nia]. intros. destruct (Z.lt_trichotomy b b') as [?|[?|?]]; nia. Qed.

Lemma mbyte_write m buf pos src :
  0 < msize m → 0 ≤ buf < Z.of_nat (length (buffer_list m)) →
  (∀ b, b ∈ buffer_list m → Z.of_nat (length b) = msize m) →
  0 ≤ pos → pos + Z.of_nat (length src) ≤ msize m →
  ∃ l, buf_write m buf pos src = Some (set_bytes m l) ∧
    length l = length (buffer_list m) ∧
    (∀ b, b ∈ l → Z.of_nat (length b) = msize m) ∧
    ∀ p, 0 ≤ p → mbyte (set_bytes m l) p =
      let q := p - (buf * msize m + pos) in
      if decide (0 ≤ q < Z.of_nat (length src)) then src !! Z.to_nat q else mbyte m p.
Proof.
  intros Hs Hb Hall Hpos Hfit. unfold buf_write.
  destruct (lookup_lt_is_Some_2 (buffer_list m) (Z.to_nat buf)) as [b Hlk]; [lia|].
  pose proof (Hall b (list_elem_of_lookup_2 _ _ _ Hlk)) as Hlb.
  rewrite Hlk. bindr. rewrite memcpy_in by lia. bindr. eexists. split; [done|].
  split; [by len|]. split.
  { intros b' [i Hi]%list_elem_of_lookup. apply list_lookup_insert_Some in Hi as [(_ & <- & _)|[_ Hi]].
    - by len.
    - by apply Hall, (list_elem_of_lookup_2 _ i). }
  intros p Hp. set (q := p - (buf * msize m + pos)). unfold mbyte. simpl. destruct (flat_split (msize m) p Hs) as [Hpd Hpm].
  assert (0 ≤ p / msize m) by (apply Z.div_pos; lia).
  assert (Hq : q = (p / msize m - buf) * msize m + (p mod msize m - pos)) by (unfold q; lia).
  destruct (decide (p / msize m = buf)) as [Heq|Hne].
  - rewrite Heq, Z.sub_diag in Hq. rewrite Heq, list_lookup_insert_eq by lia. bindr.
    rewrite Hlk. bindr. case_decide as Hd.
    + rewrite list_lookup_inserts by lia. f_equal. lia.
    + destruct (decide (p mod msize m < pos)).
      * by rewrite list_lookup_inserts_lt by lia.
      * by rewrite list_lookup_inserts_ge by lia.
  - rewrite list_lookup_insert_ne by lia. rewrite decide_False; [done|].
    destruct (decide (p / msize m < buf)); nia.
Qed.

(** The producer's position is the end of the contents. *)
Lemma mbuf_head_pos s l :
  mbuf_rep s l → mlength (multibuf s) < count (multibuf s) →
  let m := multibuf s in
  Z.of_nat (length l) < mbytes m ∧
  mhead m * msize m + wpos s
  = slot (mbytes m) (mtail m * msize m + rpos s) (Z.of_nat (length l)) ∧
  0 ≤ mhead m < count m ∧ 0 ≤ mhead m * msize m + wpos s < mbytes m.
Proof.
  intros ((Hs & Hc & Hmb & Hlen & Hall & Ht & Hl & Hhd & Hw & Hr & Hfull & Hemp) & Hll & _) Hlt m.
  fold m in Hs, Hc, Hmb, Hlen, Hall, Ht, Hl, Hhd, Hw, Hr, Hll, Hlt.
  unfold mbytes, slot in *.
  split; [nia|]. split; [|revert Hhd; zcase; intros; nia].
  destruct (Z.ltb_spec (mtail m + mlength m) (count m));
    destruct (Z.ltb_spec (mtail m * msize m + rpos s + Z.of_nat (length l))
                (count m * msize m)); rewrite Hhd; nia.
Qed.

(** One chunk of the write loop, without or with the final push. *)
Lemma mbuf_rep_write s l src m' :
  mbuf_rep s l → mlength (multibuf s) < count (multibuf s) →
  wpos s + Z.of_nat (length src) ≤ msize (multibuf s) →
  buf_write (multibuf s) (mhead (multibuf s)) (wpos s) src = Some m' →
  msize m' = msize (multibuf s) ∧ count m' = count (multibuf s) ∧
  mlength m' = mlength (multibuf s) ∧ mhead m' = mhead (multibuf s) ∧
  let wp := wpos s + Z.of_nat (length src) in
  (wp < msize m' →
   mbuf_rep {| multibuf := m'; rpos := rpos s; wpos := wp |} (l ++ src)) ∧
  (wp = msize m' →
   mbuf_rep {| multibuf := snd (vsf_multibuf_push m'); rpos := rpos s; wpos := 0 |} (l ++ src)).
Proof.
  intros Hrep Hlt Hfit Hwr.
  destruct (mbuf_head_pos s l Hrep Hlt) as (Hroom & Hpos & Hh & Hhp).
  pose proof Hrep as ((Hs & Hc & Hmb & Hlen & Hall & Ht & Hl & Hhd & Hw & Hr & Hfull & Hemp)
                      & Hll & Hbytes).
  set (m := multibuf s) in *.
  destruct (mbyte_write m (mhead m) (wpos s) src) as (bl & Hbw & Hbl & Hball & Hmby);
    [lia..|done|lia|lia|].
  rewrite Hwr in Hbw. injection Hbw as ->. simpl. do 4 (split; [done|]).
  assert (Hcont : ∀ i, (i < length (l ++ src))%nat →
    (l ++ src) !! i = mbyte (set_bytes m bl)
      (slot (mbytes m) (mtail m * msize m + rpos s) (Z.of_nat i))).
  { intros i. rewrite length_app. intros Hi.
    assert (Hi2 : Z.of_nat (length l) + Z.of_nat (length src) ≤ mbytes m).
    { pose proof (Z.mul_le_mono_nonneg_r (mlength m + 1) (count m) (msize m)
        ltac:(lia) ltac:(lia)). unfold mbytes in *. lia. }
    assert (Hi3 : mhead m * msize m + wpos s + Z.of_nat (length src) ≤ mbytes m).
    { pose proof (Z.mul_le_mono_nonneg_r (mhead m + 1) (count m) (msize m)
        ltac:(lia) ltac:(lia)). unfold mbytes in *. lia. }
    assert (Htp : 0 ≤ mtail m * msize m + rpos s < mbytes m) by by apply flat_range.
    rewrite Hmby by (apply slot_range; lia). simpl. 
    destruct (decide (i < length l)%nat).
    - rewrite lookup_app_l, Hbytes, decide_False by (try lia; done || (unfold slot in *; revert Hpos; zcase; lia)).
      done.
    - rewrite lookup_app_r by lia. rewrite decide_True.
      + f_equal. unfold slot in *. revert Hpos. zcase; lia.
      + unfold slot in *. revert Hpos. zcase; lia. }
  split; intros Hwp.
  - split; [|split]; simpl; [|rewrite length_app; lia|exact Hcont].
    unfold mbuf_wf, mbytes in *; simpl; fold m. rewrite Hbl.
    split_and!; try done; try lia.
  - unfold vsf_multibuf_push. simpl. destruct (Z.leb_spec (count m) (mlength m)); [lia|]. simpl.
    assert (Hnext : u16 (vsf_fifo_get_next_index (mhead m) (count m))
                    = slot (count m) (mtail m) (mlength m + 1)).
    { unfold vsf_fifo_get_next_index. rewrite u32_small, u16_small by (zcase; lia).
      rewrite Hhd. unfold slot in *. revert Hhd. zcase; lia. }
    split; [|split]; simpl; [| |exact Hcont].
    + unfold mbuf_wf, mbytes in *; simpl. rewrite Hbl, Hnext, u16_small by lia.
      split_and!; try done; try lia.
    + rewrite length_app, u16_small by lia. nia.
Qed.

Lemma mbuf_length_ge s l :
  mbuf_rep s l → 0 < mlength (multibuf s) →
  msize (multibuf s) - rpos s ≤ Z.of_nat (length l).
Proof.
  intros ((Hs & _ & _ & _ & _ & _ & Hl & _ & Hw & _) & -> & _) Hlt.
  pose proof (Z.mul_le_mono_nonneg_r 1 (mlength (multibuf s)) (msize (multibuf s))
    ltac:(lia) ltac:(lia)). lia.
Qed.

Lemma mbuf_rep_read s l k :
  mbuf_rep s l → 0 < mlength (multibuf s) →
  0 ≤ k → rpos s + k ≤ msize (multibuf s) →
  let m := multibuf s in
  buf_read m (mtail m) (rpos s) k = Some (take (Z.to_nat k) l) ∧
  (rpos s + k < msize m →
   mbuf_rep {| multibuf := m; rpos := rpos s + k; wpos := wpos s |} (drop (Z.to_nat k) l)) ∧
  (rpos s + k = msize m →
   mbuf_rep {| multibuf := snd (vsf_multibuf_pop m); rpos := 0; wpos := wpos s |}
     (drop (Z.to_nat k) l)).
Proof.
  intros Hrep Hlt Hk Hfit m. pose proof (mbuf_length_ge _ _ Hrep Hlt) as Hge. fold m in Hge.
  pose proof Hrep as ((Hs & Hc & Hmb & Hlen & Hall & Ht & Hl & Hhd & Hw & Hr & Hfull & Hemp)
                      & Hll & Hbytes). fold m in Hs, Hc, Hmb, Hlen, Hall, Ht, Hl, Hhd, Hw, Hr, Hll, Hbytes, Hlt, Hfit, Hfull, Hemp.
  pose proof (flat_range _ _ _ _ Ht Hr) as Htp. fold (mbytes m) in Htp.
  pose proof (Z.mul_le_mono_nonneg_r (mtail m + 1) (count m) (msize m)
    ltac:(lia) ltac:(lia)) as Hend. fold (mbytes m) in Hend.
  split; [|split].
  - unfold buf_read.
    destruct (lookup_lt_is_Some_2 (buffer_list m) (Z.to_nat (mtail m))) as [b Hlk]; [lia|].
    pose proof (Hall b (list_elem_of_lookup_2 _ _ _ Hlk)) as Hlb.
    rewrite Hlk. bindr. rewrite read_at_in by lia. f_equal. apply list_eq. intros i.
    destruct (decide (i < Z.to_nat k)%nat).
    + rewrite !lookup_take_lt, lookup_drop, Hbytes by lia. unfold slot, mbyte.
      destruct (Z.ltb_spec (mtail m * msize m + rpos s + Z.of_nat i) (mbytes m)); [|lia].
      rewrite <- Z.add_assoc.
      destruct (flat_div (msize m) (mtail m) (rpos s + Z.of_nat i)) as [-> ->]; [lia..|].
      rewrite Hlk. bindr. f_equal. lia.
    + rewrite !lookup_take_ge by lia. done.
  - intros Hrp. split; [|split]; simpl; [|rewrite length_drop; lia|].
    + unfold mbuf_wf, mbytes in *; simpl; fold m. split_and!; try done; lia.
    + fold m. intros i. rewrite length_drop. intros Hi.
      rewrite lookup_drop, Hbytes by lia. f_equal. unfold slot. zcase; lia.
  - intros Hrp. unfold vsf_multibuf_pop. destruct (Z.eqb_spec (mlength m) 0); [lia|]. simpl.
    assert (Hnext : u16 (vsf_fifo_get_next_index (mtail m) (count m))
                    = if mtail m + 1 <? count m then mtail m + 1 else 0).
    { unfold vsf_fifo_get_next_index. rewrite u32_small, u16_small by (zcase; lia).
      zcase; lia. }
    split; [|split]; simpl.
    + unfold mbuf_wf, mbytes in *; simpl. rewrite Hnext, u16_small by lia.
      split_and!; try done; try lia; [zcase; lia..|].
      rewrite Hhd. unfold slot. zcase; lia.
    + rewrite length_drop, u16_small by lia. lia.
    + intros i. rewrite length_drop. intros Hi. rewrite lookup_drop, Hbytes by lia.
      transitivity (mbyte m (slot (mbytes m) (mtail m * msize m + rpos s)
                      (Z.of_nat (Z.to_nat k + i)))); [done|].
      unfold mbytes at 2. simpl. rewrite Hnext. change (mbyte _ ?p) with (mbyte m p) at 2.
      f_equal. assert (Hpos : 0 ≤ Z.of_nat i < mbytes m).
      { pose proof (Z.mul_le_mono_nonneg_r (mlength m) (count m) (msize m)
          ltac:(lia) ltac:(lia)). unfold mbytes. lia. }
      fold (mbytes m). destruct (Z.ltb_spec (mtail m + 1) (count m)).
      * unfold slot. zcase; lia.
      * assert (count m = mtail m + 1) as Hct by lia.
        assert (mbytes m = mtail m * msize m + msize m) by (unfold mbytes; rewrite Hct; lia).
        unfold slot. zcase; lia.
Qed.

(** ** The loops *)

(** Bytes the writer can still place, bytes the reader can already take. *)
Definition mbuf_room (s : vsf_mbufstream_mem_t) : Z :=
  (count (multibuf s) - mlength (multibuf s)) * msize (multibuf s) - wpos s.

Definition mbuf_ready (s : vsf_mbufstream_mem_t) : Z :=
  mlength (multibuf s) * msize (multibuf s) - rpos s.

Lemma mbuf_room_full s :
  mbuf_wf s → mlength (multibuf s) = count (multibuf s) → mbuf_room s = 0.
Proof.
  intros (_ & _ & _ & _ & _ & _ & _ & _ & _ & _ & Hf & _) He.
  unfold mbuf_room. rewrite He, Hf by done. lia.
Qed.

Lemma mbuf_room_free s :
  mbuf_wf s → mlength (multibuf s) < count (multibuf s) →
  msize (multibuf s) - wpos s ≤ mbuf_room s.
Proof.
  intros (Hs & _) Hlt. unfold mbuf_room.
  pose proof (Z.mul_le_mono_nonneg_r 1 (count (multibuf s) - mlength (multibuf s))
    (msize (multibuf s)) ltac:(lia) ltac:(lia)). lia.
Qed.

Lemma mbuf_size_small s : mbuf_wf s → msize (multibuf s) < 4294967296.
Proof.
  intros (Hs & Hc & Hm & _). unfold mbytes in Hm.
  pose proof (Z.mul_le_mono_nonneg_r 1 (count (multibuf s)) (msize (multibuf s))
    ltac:(lia) ltac:(lia)). lia.
Qed.

Lemma multibuf_write_loop_spec fuel s l d w :
  mbuf_rep s l → (w ≤ length d)%nat → Z.of_nat (length d) < 4294967296 →
  (length d - w < fuel)%nat →
  let j := Z.to_nat (Z.min (Z.of_nat (length d - w)) (mbuf_room s)) in
  ∃ s', multibuf_stream_write_loop fuel s (Some d)
          (vsf_multibuf_get_empty (multibuf s)) (Z.of_nat w) (Z.of_nat (length d - w))
        = Some (Z.of_nat (w + j), s') ∧
        mbuf_rep s' (l ++ take j (drop w d)).
Proof.
  revert s l w. induction fuel as [|fuel IH]; intros s l w Hrep Hw Hd Hf j; [lia|].
  simpl multibuf_stream_write_loop. unfold vsf_multibuf_get_empty at 1.
  pose proof (proj1 Hrep) as Hwf. pose proof (mbuf_size_small _ Hwf) as Hsm.
  pose proof Hwf as (Hs & Hc & Hmb & Hlen & Hall & Ht & Hl & Hhd & Hwp & Hr & Hfull & Hemp).
  destruct (Z.leb_spec (count (multibuf s)) (mlength (multibuf s))).
  { exists s. assert (j = 0)%nat as ->
      by (unfold j; rewrite (mbuf_room_full s) by (done || lia); lia).
    rewrite Nat.add_0_r. split; [done|]. by rewrite take_0, app_nil_r. }
  pose proof (mbuf_room_free s Hwf ltac:(lia)) as Hroom.
  destruct (Z.leb_spec (Z.of_nat (length d - w)) 0).
  { exists s. assert (j = 0)%nat as -> by (unfold j; lia).
    rewrite Nat.add_0_r. split; [done|]. by rewrite take_0, app_nil_r. }
  set (m := multibuf s) in *.
  rewrite (u32_small (msize m - wpos s)) by lia.
  set (k := Z.min (msize m - wpos s) (Z.of_nat (length d - w))).
  rewrite Nat2Z.id, read_at_in by lia. bindr.
  set (src := take (Z.to_nat k) (drop w d)).
  assert (Hsrc : Z.of_nat (length src) = k) by (unfold src; len).
  destruct (mbyte_write m (mhead m) (wpos s) src) as (bl & Hbw & _);
    [done|unfold slot in Hhd; revert Hhd; zcase; lia|done|lia|lia|].
  rewrite Hbw. bindr.
  destruct (mbuf_rep_write s l src (set_bytes m bl))
    as (Hsz & Hct & Hml & Hmh & Hcont & Hpush);
    [done|done|change (wpos s + Z.of_nat (length src) ≤ msize m); lia|done|].
  rewrite (u32_small (wpos s + k)), (u32_small (Z.of_nat w + k)),
    (u32_small (Z.of_nat (length d - w) - k)) by lia.
  assert (Hrest : Z.of_nat (length d - w) - k = Z.of_nat (length d - (w + Z.to_nat k))) by lia.
  assert (Hwk : Z.of_nat w + k = Z.of_nat (w + Z.to_nat k)) by lia.
  rewrite Hsrc in Hcont, Hpush. rewrite Hrest, Hwk. change (msize (set_bytes m bl)) with (msize m) in *.
  assert (Hjoin : ∀ j', (j = Z.to_nat k + j')%nat →
    (l ++ src) ++ take j' (drop (w + Z.to_nat k) d) = l ++ take j (drop w d)).
  { intros j' ->. rewrite <- app_assoc. f_equal. unfold src.
    rewrite <- drop_drop, <- (take_take_drop (drop w d) (Z.to_nat k) j').
    done. }
  destruct (Z.leb_spec (msize m) (wpos s + k)) as [Hfill|Hnot].
  - specialize (Hpush ltac:(lia)). set (s1 := {| multibuf := _; rpos := _; wpos := 0 |}).
    destruct (IH s1 (l ++ src) (w + Z.to_nat k)%nat Hpush) as (s' & Hr' & Hrep'); [lia..|].
    exists s'. assert (Hj : j = (Z.to_nat k + Z.to_nat (Z.min
        (Z.of_nat (length d - (w + Z.to_nat k))) (mbuf_room s1)))%nat).
    { unfold j, mbuf_room, s1, vsf_multibuf_push. simpl. fold m.
      destruct (Z.leb_spec (count m) (mlength m)); [lia|]. simpl.
      rewrite u16_small by lia. 
      replace ((count m - (mlength m + 1)) * msize m - 0)
        with ((count m - mlength m) * msize m - wpos s - k) by lia.
      unfold mbuf_room in Hroom. fold m in Hroom. lia. }
    split; [etransitivity; [exact Hr'|do 2 f_equal; lia]|].
    by rewrite <- (Hjoin _ Hj).
  - specialize (Hcont ltac:(lia)). set (s1 := {| multibuf := _; rpos := _; wpos := _ |}).
    destruct (IH s1 (l ++ src) (w + Z.to_nat k)%nat) as (s' & Hr' & Hrep');
      [exact Hcont|lia..|].
    exists s'. 
    assert (Hj : j = (Z.to_nat k + Z.to_nat (Z.min
        (Z.of_nat (length d - (w + Z.to_nat k))) (mbuf_room s1)))%nat).
    { unfold j, mbuf_room, s1 in *. simpl. fold m. fold m in Hroom. lia. }
    split; [|by rewrite <- (Hjoin _ Hj)].
    unfold vsf_multibuf_get_empty in Hr'. simpl in Hr'.
    destruct (Z.leb_spec (count m) (mlength m)) in Hr'; [lia|].
    etransitivity; [exact Hr'|]. do 2 f_equal. lia.
Qed.

Lemma mbuf_ready_empty s : mbuf_wf s → mlength (multibuf s) = 0 → mbuf_ready s = 0.
Proof.
  intros (_ & _ & _ & _ & _ & _ & _ & _ & _ & _ & _ & He) Hz.
  unfold mbuf_ready. rewrite Hz, He by done. lia.
Qed.

Lemma mbuf_ready_some s :
  mbuf_wf s → 0 < mlength (multibuf s) → msize (multibuf s) - rpos s ≤ mbuf_ready s.
Proof.
  intros (Hs & _) Hlt. unfold mbuf_ready.
  pose proof (Z.mul_le_mono_nonneg_r 1 (mlength (multibuf s))
    (msize (multibuf s)) ltac:(lia) ltac:(lia)). lia.
Qed.

Lemma multibuf_read_loop_spec fuel s l d w n :
  mbuf_rep s l → 0 ≤ n < 4294967296 →
  Z.of_nat w + n < 4294967296 → (Z.to_nat n < fuel)%nat →
  let j := Z.to_nat (Z.min n (mbuf_ready s)) in
  (w + j ≤ length d)%nat →
  ∃ s', multibuf_stream_read_loop fuel s (Some d)
          (vsf_multibuf_get_payload (multibuf s)) (Z.of_nat w) n
        = Some (Z.of_nat (w + j), s', Some (list_inserts w (take j l) d)) ∧
        mbuf_rep s' (drop j l).
Proof.
  revert s l d w n. induction fuel as [|fuel IH]; intros s l d w n Hrep Hn Hwn Hf j Hd; [lia|].
  simpl multibuf_stream_read_loop. unfold vsf_multibuf_get_payload at 1.
  pose proof (proj1 Hrep) as Hwf. pose proof (mbuf_size_small _ Hwf) as Hsm.
  pose proof Hwf as (Hs & Hc & Hmb & Hlen & Hall & Ht & Hl & Hhd & Hwp & Hr & Hfull & Hemp).
  destruct (Z.eqb_spec (mlength (multibuf s)) 0).
  { exists s. assert (j = 0)%nat as ->
      by (unfold j; rewrite (mbuf_ready_empty s) by (done || lia); lia).
    rewrite Nat.add_0_r, take_0. by split. }
  pose proof (mbuf_ready_some s Hwf ltac:(lia)) as Hready.
  destruct (Z.leb_spec n 0).
  { exists s. assert (j = 0)%nat as -> by (unfold j; lia).
    rewrite Nat.add_0_r, take_0. by split. }
  set (m := multibuf s) in *.
  rewrite (u32_small (msize m - rpos s)) by lia.
  set (k := Z.min (msize m - rpos s) n).
  destruct (mbuf_rep_read s l k Hrep) as (Hread & Hcont & Hpop);
    [change (0 < mlength m); lia|lia|change (rpos s + k ≤ msize m); lia|].
  fold m in Hread, Hcont, Hpop. rewrite Hread. bindr.
  pose proof (mbuf_length_ge s l Hrep ltac:(change (0 < mlength m); lia)) as Hge. fold m in Hge.
  assert (Hkl : length (take (Z.to_nat k) l) = Z.to_nat k) by len.
  assert (Hkj : (Z.to_nat k ≤ j)%nat) by (unfold j; lia).
  rewrite Nat2Z.id, memcpy_in by lia. bindr.
  rewrite (u32_small (rpos s + k)), (u32_small (Z.of_nat w + k)), (u32_small (n - k)) by lia.
  assert (Hwk : Z.of_nat w + k = Z.of_nat (w + Z.to_nat k)) by lia. rewrite Hwk.
  assert (Hjoin : ∀ j', j = (Z.to_nat k + j')%nat →
    drop j' (drop (Z.to_nat k) l) = drop j l ∧
    list_inserts (w + Z.to_nat k) (take j' (drop (Z.to_nat k) l))
      (list_inserts w (take (Z.to_nat k) l) d) = list_inserts w (take j l) d).
  { intros j' ->. split; [apply drop_drop|].
    rewrite <- (take_take_drop l (Z.to_nat k) j'), list_inserts_app_l, Hkl.
    f_equal. lia. }
  destruct (Z.leb_spec (msize m) (rpos s + k)) as [Hfill|Hnot].
  - specialize (Hpop ltac:(lia)). set (s1 := {| multibuf := _; rpos := 0; wpos := _ |}).
    assert (Hj : j = (Z.to_nat k + Z.to_nat (Z.min (n - k) (mbuf_ready s1)))%nat).
    { unfold j, mbuf_ready, s1, vsf_multibuf_pop. simpl. fold m.
      destruct (Z.eqb_spec (mlength m) 0); [lia|]. simpl. rewrite u16_small by lia.
      unfold mbuf_ready in Hready. fold m in Hready.
      replace ((mlength m - 1) * msize m - 0) with (mlength m * msize m - rpos s - k) by lia.
      lia. }
    destruct (IH s1 _ (list_inserts w (take (Z.to_nat k) l) d) (w + Z.to_nat k)%nat (n - k) Hpop)
      as (s' & Hr' & Hrep'); [lia..|len|].
    destruct (Hjoin _ Hj) as [Hdj Hij]. exists s'. rewrite <- Hdj, <- Hij. split; [|done].
    etransitivity; [exact Hr'|]. do 3 f_equal. lia.
  - specialize (Hcont ltac:(lia)). set (s1 := {| multibuf := _; rpos := _; wpos := _ |}).
    assert (Hj : j = (Z.to_nat k + Z.to_nat (Z.min (n - k) (mbuf_ready s1)))%nat).
    { unfold j, mbuf_ready, s1 in *. simpl. fold m. fold m in Hready. lia. }
    destruct (IH s1 _ (list_inserts w (take (Z.to_nat k) l) d) (w + Z.to_nat k)%nat (n - k) Hcont)
      as (s' & Hr' & Hrep'); [lia..|len|].
    destruct (Hjoin _ Hj) as [Hdj Hij]. exists s'. rewrite <- Hdj, <- Hij. split; [|done].
    unfold vsf_multibuf_get_payload in Hr'. simpl in Hr'.
    destruct (Z.eqb_spec (mlength m) 0) in Hr'; [lia|].
    etransitivity; [exact Hr'|]. do 3 f_equal. lia.
Qed.

Lemma mbuf_data_length s l :
  mbuf_rep s l → multibuf_stream_get_data_length s = Z.of_nat (length l).
Proof.
  intros (Hwf & Hll & _). pose proof (mbuf_size_small _ Hwf) as Hsm.
  destruct Hwf as (Hs & Hc & Hmb & Hlen & Hall & Ht & Hl & Hhd & Hwp & Hr & Hfull & Hemp).
  unfold multibuf_stream_get_data_length, mbytes in *. rewrite Hll.
  unfold u32, wrap. rewrite Zplus_mod_idemp_l, Zminus_mod_idemp_l.
  apply Z.mod_small. 
  destruct (decide (mlength (multibuf s) = count (multibuf s))) as [He|].
  - rewrite Hfull, He by done. split; [|lia]. nia.
  - pose proof (Z.mul_le_mono_nonneg_r (mlength (multibuf s) + 1) (count (multibuf s))
      (msize (multibuf s)) ltac:(lia) ltac:(lia)). 
    split; [lia|]. nia.
Qed.

(** C36: the multi-buffer stream is a byte queue of [count * size] bytes.  A
    write appends as many bytes as the free buffers take and reports how
    many; a read removes and copies out the bytes of published (full)
    buffers, oldest first; the bytes of a partly filled buffer stay behind
    although [get_data_length] counts them.  Both loops terminate. *)
Theorem multibuf_stream_refines_queue s l :
  mbuf_rep s l →
  multibuf_stream_get_data_length s = Z.of_nat (length l) ∧
  (∀ d, Z.of_nat (length d) < 4294967296 →
     let j := Z.to_nat (Z.min (Z.of_nat (length d)) (mbuf_room s)) in
     ∃ s', multibuf_stream_write s (Z.of_nat (length d)) (Some d)
             = Some (Z.of_nat j, s') ∧ mbuf_rep s' (l ++ take j d)) ∧
  (∀ d n, 0 ≤ n < 4294967296 →
     let j := Z.to_nat (Z.min n (mbuf_ready s)) in
     (j ≤ length d)%nat →
     ∃ s', multibuf_stream_read s n (Some d)
             = Some (Z.of_nat j, s', Some (list_inserts 0 (take j l) d)) ∧
           mbuf_rep s' (drop j l)).
Proof.
  intros Hrep. split_and!; [by apply mbuf_data_length| |].
  - intros d Hd j. unfold multibuf_stream_write. rewrite Nat2Z.id.
    pose proof (multibuf_write_loop_spec (S (length d)) s l d 0 Hrep) as Hspec.
    rewrite Nat.sub_0_r, drop_0 in Hspec. apply Hspec; lia.
  - intros d n Hn j Hj. unfold multibuf_stream_read.
    by apply (multibuf_read_loop_spec (S (Z.to_nat n)) s l d 0 n Hrep); try lia.
Qed.

(** Two buffers of two bytes; one full buffer and one byte of the second. *)
Definition demo_mbuf : vsf_mbufstream_mem_t :=
  {| multibuf := {| msize := 2; buffer_list := [[1; 2]; [3; 0]]; count := 2;
                    mhead := 1; mtail := 0; mlength := 1 |};
     rpos := 0; wpos := 1 |}.

Lemma demo_mbuf_rep : mbuf_rep demo_mbuf [1; 2; 3].
Proof.
  split; [|split]; [|done|].
  - unfold mbuf_wf, mbytes; simpl. split_and!; try done; try lia.
    intros b [->|[->|[]%not_elem_of_nil]%elem_of_cons]%elem_of_cons; done.
  - intros [|[|[|i]]] Hi; [done..|simpl in Hi; lia].
Qed.

Lemma multibuf_stream_refines_queue_witness :
  multibuf_stream_get_data_length demo_mbuf = 3 ∧
  ∃ s', multibuf_stream_read demo_mbuf 3 (Some [0; 0; 0]) = Some (2, s', Some [1; 2; 0]) ∧
        mbuf_rep s' [3].
Proof.
  split; [exact (proj1 (multibuf_stream_refines_queue _ _ demo_mbuf_rep))|].
  refine (proj2 (proj2 (multibuf_stream_refines_queue _ _ demo_mbuf_rep)) [0; 0; 0] 3 _ _);
    [done|]. vm_compute. repeat constructor.
Defined.
