(* ===== verification/Endian.v ===== *)
(** * Endian: byte-order accessors (GET_Uxx_xSBFIRST, SET_Uxx_xSBFIRST of
    bittool.c)

    The accessors read or write 2, 3, 4 or 8 bytes at the start of a buffer,
    [None] when that leaves the buffer.  A [codec] bundles a width with its
    reader, writer and byte order; [codec_ok] is what it promises. *)

From S2P Require Import Prelude Bits.

(** ** The accessors *)

Definition GET_U16_MSBFIRST (p : list Z) : option Z :=
  p0 ← getb p 0; p1 ← getb p 1;
  Some (u16 (Z.lor (Z.shiftl p0 8) (Z.shiftl p1 0))).

Definition GET_U24_MSBFIRST (p : list Z) : option Z :=
  p0 ← getb p 0; p1 ← getb p 1; p2 ← getb p 2;
  Some (u32 (Z.lor (Z.lor (Z.shiftl p0 16) (Z.shiftl p1 8)) (Z.shiftl p2 0))).

Definition GET_U32_MSBFIRST (p : list Z) : option Z :=
  p0 ← getb p 0; p1 ← getb p 1; p2 ← getb p 2; p3 ← getb p 3;
  Some (u32 (Z.lor (Z.lor (Z.lor (Z.shiftl p0 24) (Z.shiftl p1 16)) (Z.shiftl p2 8)) (Z.shiftl p3 0))).

Definition GET_U64_MSBFIRST (p : list Z) : option Z :=
  p0 ← getb p 0; p1 ← getb p 1; p2 ← getb p 2; p3 ← getb p 3;
  p4 ← getb p 4; p5 ← getb p 5; p6 ← getb p 6; p7 ← getb p 7;
  Some (u64 (Z.lor (Z.lor (Z.lor (Z.lor (Z.lor (Z.lor (Z.lor (Z.shiftl p0 56) (Z.shiftl p1 48))
    (Z.shiftl p2 40)) (Z.shiftl p3 32))
    (Z.shiftl p4 24)) (Z.shiftl p5 16)) (Z.shiftl p6 8)) (Z.shiftl p7 0))).

Definition GET_U16_LSBFIRST (p : list Z) : option Z :=
  p0 ← getb p 0; p1 ← getb p 1;
  Some (u16 (Z.lor (Z.shiftl p0 0) (Z.shiftl p1 8))).

Definition GET_U24_LSBFIRST (p : list Z) : option Z :=
  p0 ← getb p 0; p1 ← getb p 1; p2 ← getb p 2;
  Some (u32 (Z.lor (Z.lor (Z.shiftl p0 0) (Z.shiftl p1 8)) (Z.shiftl p2 16))).

Definition GET_U32_LSBFIRST (p : list Z) : option Z :=
  p0 ← getb p 0; p1 ← getb p 1; p2 ← getb p 2; p3 ← getb p 3;
  Some (u32 (Z.lor (Z.lor (Z.lor (Z.shiftl p0 0) (Z.shiftl p1 8)) (Z.shiftl p2 16)) (Z.shiftl p3 24))).

Definition GET_U64_LSBFIRST (p : list Z) : option Z :=
  p0 ← getb p 0; p1 ← getb p 1; p2 ← getb p 2; p3 ← getb p 3;
  p4 ← getb p 4; p5 ← getb p 5; p6 ← getb p 6; p7 ← getb p 7;
  Some (u64 (Z.lor (Z.lor (Z.lor (Z.lor (Z.lor (Z.lor (Z.lor (Z.shiftl p0 0) (Z.shiftl p1 8))
    (Z.shiftl p2 16)) (Z.shiftl p3 24))
    (Z.shiftl p4 32)) (Z.shiftl p5 40)) (Z.shiftl p6 48)) (Z.shiftl p7 56))).

Definition SET_U16_MSBFIRST (p : list Z) (v16 : Z) : option (list Z) :=
  p ← setb p 0 (Z.land (Z.shiftr v16 8) 0xFF);
  setb p 1 (Z.land (Z.shiftr v16 0) 0xFF).

Definition SET_U24_MSBFIRST (p : list Z) (v32 : Z) : option (list Z) :=
  p ← setb p 0 (Z.land (Z.shiftr v32 16) 0xFF);
  p ← setb p 1 (Z.land (Z.shiftr v32 8) 0xFF);
  setb p 2 (Z.land (Z.shiftr v32 0) 0xFF).

Definition SET_U32_MSBFIRST (p : list Z) (v32 : Z) : option (list Z) :=
  p ← setb p 0 (Z.land (Z.shiftr v32 24) 0xFF);
  p ← setb p 1 (Z.land (Z.shiftr v32 16) 0xFF);
  p ← setb p 2 (Z.land (Z.shiftr v32 8) 0xFF);
  setb p 3 (Z.land (Z.shiftr v32 0) 0xFF).

Definition SET_U64_MSBFIRST (p : list Z) (v64 : Z) : option (list Z) :=
  p ← setb p 0 (Z.land (Z.shiftr v64 56) 0xFF);
  p ← setb p 1 (Z.land (Z.shiftr v64 48) 0xFF);
  p ← setb p 2 (Z.land (Z.shiftr v64 40) 0xFF);
  p ← setb p 3 (Z.land (Z.shiftr v64 32) 0xFF);
  p ← setb p 4 (Z.land (Z.shiftr v64 24) 0xFF);
  p ← setb p 5 (Z.land (Z.shiftr v64 16) 0xFF);
  p ← setb p 6 (Z.land (Z.shiftr v64 8) 0xFF);
  setb p 7 (Z.land (Z.shiftr v64 0) 0xFF).

Definition SET_U16_LSBFIRST (p : list Z) (v16 : Z) : option (list Z) :=
  p ← setb p 0 (Z.land (Z.shiftr v16 0) 0xFF);
  setb p 1 (Z.land (Z.shiftr v16 8) 0xFF).

Definition SET_U24_LSBFIRST (p : list Z) (v32 : Z) : option (list Z) :=
  p ← setb p 0 (Z.land (Z.shiftr v32 0) 0xFF);
  p ← setb p 1 (Z.land (Z.shiftr v32 8) 0xFF);
  setb p 2 (Z.land (Z.shiftr v32 16) 0xFF).

Definition SET_U32_LSBFIRST (p : list Z) (v32 : Z) : option (list Z) :=
  p ← setb p 0 (Z.land (Z.shiftr v32 0) 0xFF);
  p ← setb p 1 (Z.land (Z.shiftr v32 8) 0xFF);
  p ← setb p 2 (Z.land (Z.shiftr v32 16) 0xFF);
  setb p 3 (Z.land (Z.shiftr v32 24) 0xFF).

Definition SET_U64_LSBFIRST (p : list Z) (v64 : Z) : option (list Z) :=
  p ← setb p 0 (Z.land (Z.shiftr v64 0) 0xFF);
  p ← setb p 1 (Z.land (Z.shiftr v64 8) 0xFF);
  p ← setb p 2 (Z.land (Z.shiftr v64 16) 0xFF);
  p ← setb p 3 (Z.land (Z.shiftr v64 24) 0xFF);
  p ← setb p 4 (Z.land (Z.shiftr v64 32) 0xFF);
  p ← setb p 5 (Z.land (Z.shiftr v64 40) 0xFF);
  p ← setb p 6 (Z.land (Z.shiftr v64 48) 0xFF);
  setb p 7 (Z.land (Z.shiftr v64 56) 0xFF).

(** ** Specification: little-endian numerals *)

Fixpoint le_value (bs : list Z) : Z :=
  match bs with [] => 0 | b :: bs => b + 256 * le_value bs end.

Fixpoint le_bytes (n : nat) (v : Z) : list Z :=
  match n with O => [] | S n => v mod 256 :: le_bytes n (v / 256) end.

Definition bytes (p : list Z) : Prop := Forall (λ b, 0 ≤ b < 256) p.

(** A width in bytes, a reader, a writer, and where the low byte is. *)
Record codec := {
  c_len : nat;
  c_get : list Z → option Z;
  c_set : list Z → Z → option (list Z);
  c_order : list Z → list Z }.

Definition codecs : list codec :=
  [Build_codec 2 GET_U16_MSBFIRST SET_U16_MSBFIRST (@reverse Z);
   Build_codec 3 GET_U24_MSBFIRST SET_U24_MSBFIRST (@reverse Z);
   Build_codec 4 GET_U32_MSBFIRST SET_U32_MSBFIRST (@reverse Z);
   Build_codec 8 GET_U64_MSBFIRST SET_U64_MSBFIRST (@reverse Z);
   Build_codec 2 GET_U16_LSBFIRST SET_U16_LSBFIRST id;
   Build_codec 3 GET_U24_LSBFIRST SET_U24_LSBFIRST id;
   Build_codec 4 GET_U32_LSBFIRST SET_U32_LSBFIRST id;
   Build_codec 8 GET_U64_LSBFIRST SET_U64_LSBFIRST id].

(** The reader gives the numeral in its byte order, the writer stores it and
    touches nothing else, and both refuse a short buffer. *)
Record codec_ok (c : codec) : Prop := {
  get_ok p : bytes p → (c_len c ≤ length p)%nat →
    c_get c p = Some (le_value (c_order c (take (c_len c) p)));
  set_ok p v : 0 ≤ v → (c_len c ≤ length p)%nat →
    c_set c p v = Some (c_order c (le_bytes (c_len c) v) ++ drop (c_len c) p);
  get_short p : (length p < c_len c)%nat → c_get c p = None;
  set_short p v : (length p < c_len c)%nat → c_set c p v = None }.

(** ** Bytes and numerals *)

Lemma le_value_range bs : bytes bs → 0 ≤ le_value bs < 256 ^ Z.of_nat (length bs).
Proof.
  induction 1 as [|b bs Hb Hbs IH]; [done|]. cbn [le_value length].
  rewrite Nat2Z.inj_succ, Z.pow_succ_r by lia. lia.
Qed.

Lemma le_bytes_length n v : length (le_bytes n v) = n.
Proof. revert v. induction n; intros; simpl; auto. Qed.

Lemma le_bytes_bytes n v : bytes (le_bytes n v).
Proof.
  revert v. induction n; intros; constructor; [|apply IHn].
  apply Z.mod_pos_bound. lia.
Qed.

Lemma le_value_bytes n v :
  0 ≤ v < 256 ^ Z.of_nat n → le_value (le_bytes n v) = v.
Proof.
  revert v. induction n as [|n IH]; intros v Hv; simpl; [simpl in Hv; lia|].
  rewrite Nat2Z.inj_succ, Z.pow_succ_r in Hv by lia.
  rewrite IH; [pose proof (Z.div_mod v 256); lia|].
  split; [apply Z.div_pos; lia|apply Z.div_lt_upper_bound; lia].
Qed.

Lemma le_bytes_value bs : bytes bs → le_bytes (length bs) (le_value bs) = bs.
Proof.
  induction 1 as [|b bs Hb Hbs IH]; [done|]. cbn [le_value length le_bytes].
  rewrite (Z.mul_comm 256), Z.mod_add, Z.div_add by lia.
  rewrite (Z.mod_small b), (Z.div_small b) by done. by rewrite Z.add_0_l, IH.
Qed.

(** Two words whose set bits do not meet: [lor] is addition. *)
Lemma lor_add_low a b k :
  0 ≤ k → a mod 2 ^ k = 0 → 0 ≤ b < 2 ^ k → Z.lor a b = a + b.
Proof.
  intros Hk Ha Hb. symmetry. apply Z.add_nocarry_lor.
  apply Z.bits_inj'. intros i Hi. rewrite Z.land_spec, Z.bits_0.
  destruct (decide (i < k)).
  - rewrite <- (Z.mod_pow2_bits_low a k i), Ha, Z.bits_0 by done. done.
  - rewrite (testbit_fits k b) by (done || lia). apply andb_false_r.
Qed.

Lemma lor_add_high a b k :
  0 ≤ k → 0 ≤ a < 2 ^ k → b mod 2 ^ k = 0 → Z.lor a b = a + b.
Proof. intros. rewrite Z.lor_comm, (lor_add_low b a k) by done. lia. Qed.

Lemma byte_of v k : Z.land (Z.shiftr v k) 0xFF = Z.shiftr v k mod 256.
Proof. change 0xFF with (Z.ones 8). by rewrite Z.land_ones. Qed.

Lemma getb_0 b p : getb (b :: p) 0 = Some b.
Proof. done. Qed.

(** Replace every [Z.lor] of shifted bytes by a sum, innermost first. *)
Ltac lor_step :=
  match goal with
  | |- context [Z.lor ?a (?p * 2 ^ ?k)] =>
      lazymatch a with
      | context [Z.lor] => fail
      | _ => first
          [ rewrite (lor_add_high a (p * 2 ^ k) k) by (apply Z.mod_mul || lia; lia)
          | rewrite (lor_add_low a (p * 2 ^ k) (k + 8)) by
              (lia || (cbn -[Z.add Z.mul Z.modulo]; Z.div_mod_to_equations; lia)) ]
      end
  end.

(** Expose the first [n] bytes of a buffer. *)
Tactic Notation "expose" int_or_var(n) hyp(p) :=
  do n (destruct p as [|? p]; [simpl in *; lia|]);
  repeat match goal with
  | H : bytes (_ :: _) |- _ => apply Forall_cons in H as [? H]
  | H : Forall _ (_ :: _) |- _ => apply Forall_cons in H as [? H]
  end.

Ltac prove_get p :=
  cbv -[Z.add Z.mul Z.lor Z.shiftl wrap u16 u32 u64];
  rewrite ?Z.shiftl_mul_pow2 by lia; repeat lor_step;
  unfold u16, u32, u64; rewrite wrap_small by (unfold fits; lia); f_equal; lia.

Ltac prove_set p v :=
  cbn [c_set c_order c_len];
  repeat (first [rewrite setb_in by (simpl; lia); bindr | progress unfold
    SET_U16_MSBFIRST, SET_U24_MSBFIRST, SET_U32_MSBFIRST, SET_U64_MSBFIRST,
    SET_U16_LSBFIRST, SET_U24_LSBFIRST, SET_U32_LSBFIRST, SET_U64_LSBFIRST]);
  cbv -[Z.div Z.modulo Z.land Z.shiftr];
  rewrite !byte_of, !Z.shiftr_div_pow2, ?Z.div_div by lia;
  repeat f_equal; by rewrite ?Z.div_1_r.

(** A buffer shorter than [n] has one of finitely many shapes. *)
Ltac prove_short p :=
  repeat (destruct p as [|? p]; [reflexivity|]); simpl in *; lia.

Tactic Notation "prove_codec" int_or_var(n) :=
  constructor; cbn [c_len c_get c_set c_order];
  [ intros p ? ?; expose n p; prove_get p
  | intros p v ? ?; expose n p; prove_set p v
  | intros p ?; prove_short p
  | intros p v ?; prove_short p ].

Lemma codecs_ok : Forall codec_ok codecs.
Proof.
  unfold codecs. repeat (apply Forall_cons; split); [..|apply Forall_nil; done].
  - prove_codec 2.
  - prove_codec 3.
  - prove_codec 4.
  - prove_codec 8.
  - prove_codec 2.
  - prove_codec 3.
  - prove_codec 4.
  - prove_codec 8.
Qed.

(** The byte of [v] at weight [256^k]. *)
Lemma le_bytes_lookup n v k :
  (k < n)%nat → le_bytes n v !! k = Some (wrap 8 (Z.shiftr v (8 * Z.of_nat k))).
Proof.
  revert v k. induction n as [|n IH]; intros v k Hk; [lia|].
  destruct k as [|k]; simpl; [done|].
  rewrite IH by lia. do 2 f_equal.
  change 256 with (2 ^ 8). rewrite <- Z.shiftr_div_pow2, Z.shiftr_shiftr by lia.
  f_equal. lia.
Qed.

(** Reversing the bytes of a word, from the word's bits. *)
Lemma le_bytes_rev n v w :
  (∀ i, 0 ≤ i < 8 * Z.of_nat n →
    Z.testbit w i = Z.testbit v (8 * (Z.of_nat n - 1 - i / 8) + i mod 8)) →
  le_bytes n w = reverse (le_bytes n v).
Proof.
  intros Hw. apply list_eq. intros k.
  destruct (decide (k < n)%nat).
  - rewrite le_bytes_lookup by done.
    rewrite reverse_lookup by (by rewrite le_bytes_length).
    rewrite le_bytes_length, le_bytes_lookup by lia. f_equal.
    apply Z.bits_inj'. intros i Hi. autorewrite with zbits.
    destruct (Z.ltb_spec i 8); simpl; [|done]. rewrite Hw by lia. f_equal.
    replace (i + 8 * Z.of_nat k) with (i + Z.of_nat k * 8) by lia.
    rewrite Z.div_add, Z.mod_add, Z.div_small, Z.mod_small by lia. lia.
  - rewrite !lookup_ge_None_2; [done|..]; rewrite ?length_reverse, le_bytes_length; lia.
Qed.

(** The bit index of the mirrored byte, as the xor the swaps use. *)
Definition mirror_ok (n m : Z) : bool :=
  all_below (8 * n) (λ i, Z.lxor i m =? 8 * (n - 1 - i / 8) + i mod 8).

Lemma mirror_index n m i :
  mirror_ok n m = true → 0 ≤ i < 8 * n → Z.lxor i m = 8 * (n - 1 - i / 8) + i mod 8.
Proof. intros Hm Hi. apply Z.eqb_eq. exact (all_below_spec _ _ _ Hm Hi). Qed.

Lemma SWAP_bytes v :
  (fits 16 v → le_bytes 2 (SWAP_U16 v) = reverse (le_bytes 2 v)) ∧
  (fits 32 v → le_bytes 4 (SWAP_U32 v) = reverse (le_bytes 4 v)) ∧
  (fits 64 v → le_bytes 8 (SWAP_U64 v) = reverse (le_bytes 8 v)).
Proof.
  split_and!; intros Hv; apply le_bytes_rev; intros i Hi.
  - rewrite SWAP_U16_bits by (done || lia). by rewrite (mirror_index 2) by (done || lia).
  - rewrite SWAP_U32_bits by (done || lia). by rewrite (mirror_index 4) by (done || lia).
  - rewrite SWAP_U64_bits by (done || lia). by rewrite (mirror_index 8) by (done || lia).
Qed.

Lemma reverse_bytes p : bytes p → bytes (reverse p).
Proof. intros Hp. unfold bytes. by rewrite Forall_reverse. Qed.

Lemma codec_order_involutive c :
  c ∈ codecs → (∀ l, length (c_order c l) = length l) ∧ (∀ l, c_order c (c_order c l) = l) ∧
               (∀ l, bytes l → bytes (c_order c l)).
Proof.
  intros Hc. assert (c_order c = @reverse Z ∨ c_order c = id) as [->| ->].
  { revert c Hc. apply Forall_forall. unfold codecs.
    repeat (apply Forall_cons; split); simpl; auto. }
  - split_and!; intros; [apply length_reverse|apply reverse_involutive|by apply reverse_bytes].
  - done.
Qed.

(** for every width and byte order the writer and the reader are inverse
    in both directions and touch only the bytes of their width: reading back
    a written value gives it, writing back a read value changes nothing; and
    [SWAP_U16/32/64] reverse the bytes of a word. *)
Theorem byte_order_roundtrip c p v :
  c ∈ codecs → bytes p → (c_len c ≤ length p)%nat → 0 ≤ v < 256 ^ Z.of_nat (c_len c) →
  (∃ p', c_set c p v = Some p' ∧ bytes p' ∧ length p' = length p ∧
         drop (c_len c) p' = drop (c_len c) p ∧ c_get c p' = Some v) ∧
  (∃ w, c_get c p = Some w ∧ 0 ≤ w < 256 ^ Z.of_nat (c_len c) ∧ c_set c p w = Some p) ∧
  (fits 16 v → le_bytes 2 (SWAP_U16 v) = reverse (le_bytes 2 v)) ∧
  (fits 32 v → le_bytes 4 (SWAP_U32 v) = reverse (le_bytes 4 v)) ∧
  (fits 64 v → le_bytes 8 (SWAP_U64 v) = reverse (le_bytes 8 v)).
Proof.
  intros Hc Hp Hl Hv.
  pose proof (proj1 (Forall_forall _ _) codecs_ok c Hc) as Hok.
  destruct (codec_order_involutive c Hc) as (Hlen & Hinv & Hby).
  assert (Hlt : length (take (c_len c) p) = c_len c) by (rewrite length_take; lia).
  assert (Hbt : bytes (take (c_len c) p)) by by apply Forall_take.
  split; [|split; [|apply SWAP_bytes]].
  - set (b := c_order c (le_bytes (c_len c) v)).
    assert (Hb : length b = c_len c) by (unfold b; by rewrite Hlen, le_bytes_length).
    assert (Hbb : bytes (b ++ drop (c_len c) p)).
    { apply Forall_app. split; [apply Hby, le_bytes_bytes|by apply Forall_drop]. }
    exists (b ++ drop (c_len c) p). split_and!.
    + by rewrite (set_ok c Hok) by (done || lia).
    + done.
    + rewrite length_app, length_drop. lia.
    + by rewrite <- Hb, drop_app_length at 1.
    + rewrite (get_ok c Hok) by (try done; rewrite length_app; lia).
      rewrite <- Hb at 1. rewrite take_app_length. unfold b. by rewrite Hinv, le_value_bytes.
  - exists (le_value (c_order c (take (c_len c) p))). split_and!.
    + by apply (get_ok c Hok).
    + apply le_value_range, Hby, Hbt.
    + rewrite <- Hlt at 2. rewrite <- (Hlen (take (c_len c) p)). apply le_value_range, Hby, Hbt.
    + rewrite (set_ok c Hok) by (try done; apply le_value_range, Hby, Hbt).
      rewrite <- Hlt at 1. rewrite <- (Hlen (take (c_len c) p)).
      rewrite le_bytes_value by (apply Hby, Hbt). by rewrite Hinv, take_drop.
Qed.

Lemma byte_order_roundtrip_witness :
  ∃ p', SET_U24_MSBFIRST [1; 2; 3; 4] 0xABCDEF = Some p' ∧ GET_U24_MSBFIRST p' = Some 0xABCDEF.
Proof.
  destruct (byte_order_roundtrip (Build_codec 3 GET_U24_MSBFIRST SET_U24_MSBFIRST (@reverse Z))
    [1; 2; 3; 4] 0xABCDEF) as [(p' & Hs & _ & _ & _ & Hg) _].
  - unfold codecs. apply list_elem_of_further, list_elem_of_here.
  - repeat constructor; lia.
  - simpl. lia.
  - simpl. lia.
  - exists p'. split; [exact Hs|exact Hg].
Defined.
