(* ===== verification/Bitfield.v ===== *)
(** * Bitfield: bit fields of a byte buffer (buf_get_value, buf_set_value of
    buffer.c)

    [offset] and [len] are bytes in the source, so a field may be at most 255
    bits and its bit index is reduced modulo 256.  A shift of a 32-bit word by
    32 or more, and an access outside the buffer, give [None]. *)

From S2P Require Import Prelude Bits.

(** The loop shared shape: byte index, bit index, chunk width and mask. *)
Definition chunk (offset len result_len : Z) : Z :=
  u8 (Z.min (len - result_len) (8 - Z.land offset 7)).

Fixpoint buf_get_value_loop (fuel : nat) (buf : list Z)
    (offset len result_len result : Z) : option Z :=
  match fuel with
  | O => None
  | S fuel =>
      if result_len <? len then
        let bytepos := Z.shiftr offset 3 in
        let bitpos := Z.land offset 7 in
        let bitlen := chunk offset len result_len in
        let mask := u8 (Z.shiftl 1 bitlen - 1) in
        b ← getb buf bytepos;
        if decide (result_len < 32) then
          let result := u32 (Z.lor result
            (Z.shiftl (Z.land (Z.shiftr b bitpos) mask) result_len)) in
          buf_get_value_loop fuel buf (u8 (offset + bitlen)) len
            (u8 (result_len + bitlen)) result
        else None
      else Some result
  end.

Definition buf_get_value (buf : list Z) (offset len : Z) : option Z :=
  buf_get_value_loop (S (Z.to_nat len)) buf offset len 0 0.

Fixpoint buf_set_value_loop (fuel : nat) (buf : list Z)
    (offset len result_len value : Z) : option (list Z) :=
  match fuel with
  | O => None
  | S fuel =>
      if result_len <? len then
        let bytepos := Z.shiftr offset 3 in
        let bitpos := Z.land offset 7 in
        let bitlen := chunk offset len result_len in
        let mask := u8 (Z.shiftl 1 bitlen - 1) in
        if decide (result_len < 32) then
          b ← getb buf bytepos;
          let b := u8 (Z.land b (Z.lnot
            (Z.shiftl (Z.land (Z.shiftr (u32 (Z.lnot 0)) result_len) mask) bitpos))) in
          buf ← setb buf bytepos b;
          b ← getb buf bytepos;
          let b := u8 (Z.lor b (Z.shiftl (Z.land (Z.shiftr value result_len) mask) bitpos)) in
          buf ← setb buf bytepos b;
          buf_set_value_loop fuel buf (u8 (offset + bitlen)) len
            (u8 (result_len + bitlen)) value
        else None
      else Some buf
  end.

Definition buf_set_value (buf : list Z) (offset len value : Z) : option (list Z) :=
  buf_set_value_loop (S (Z.to_nat len)) buf offset len 0 value.

(** ** Specification: the buffer as a string of bits *)

Definition bufbit (buf : list Z) (i : Z) : bool :=
  match buf !! Z.to_nat (i / 8) with Some b => Z.testbit b (i mod 8) | None => false end.

(** The bytes the field lies in exist, with the bit index taken modulo 256. *)
Definition field_in (buf : list Z) (offset len : Z) : Prop :=
  offset + len ≤ 8 * Z.of_nat (length buf) ∨ 256 ≤ 8 * Z.of_nat (length buf).

(** ** One chunk *)

Section Chunk.
Variables (offset len r : Z).
Hypotheses (Ho : 0 ≤ offset < 256) (Hr : 0 ≤ r < len) (Hlen : len ≤ 32).

Lemma chunk_eq : chunk offset len r = Z.min (len - r) (8 - offset mod 8).
Proof using Ho Hr Hlen.
  unfold chunk. change 7 with (Z.ones 3). rewrite Z.land_ones by lia.
  change (2 ^ 3) with 8. apply u8_small.
  pose proof (Z.mod_pos_bound offset 8). lia.
Qed.

Lemma chunk_range :
  0 < chunk offset len r ≤ 8 - offset mod 8 ∧ r + chunk offset len r ≤ len.
Proof using Ho Hr Hlen.
  rewrite chunk_eq. pose proof (Z.mod_pos_bound offset 8). lia.
Qed.

Lemma chunk_mask i :
  0 ≤ i → Z.testbit (u8 (Z.shiftl 1 (chunk offset len r) - 1)) i
          = (i <? chunk offset len r).
Proof using Ho Hr Hlen.
  intros Hi. pose proof chunk_range as [Hc _].
  pose proof (Z.mod_pos_bound offset 8).
  assert (H2 : 2 ^ chunk offset len r ≤ 2 ^ 8) by (apply Z.pow_le_mono_r; lia).
  rewrite Z.shiftl_1_l, u8_small by (change (2 ^ 8) with 256 in H2; lia).
  replace (2 ^ chunk offset len r - 1) with (Z.ones (chunk offset len r))
    by (rewrite Z.ones_equiv; lia).
  rewrite Z.testbit_ones by lia. destruct (Z.leb_spec 0 i); [done|lia].
Qed.

(** The bit index the next chunk starts at. *)
Lemma chunk_next i :
  (u8 (offset + chunk offset len r) + i) mod 256
  = (offset + (chunk offset len r + i)) mod 256.
Proof using. unfold u8, wrap. change (2 ^ 8) with 256. rewrite Z.add_mod_idemp_l by lia. f_equal. lia. Qed.

(** A bit of the chunk is a bit of the byte at [offset / 8]. *)
Lemma chunk_index i :
  0 ≤ i < chunk offset len r →
  (offset + i) mod 256 = offset + i ∧ (offset + i) / 8 = offset / 8 ∧
  (offset + i) mod 8 = offset mod 8 + i.
Proof using Ho Hr Hlen.
  intros Hi. pose proof chunk_range as [[_ Hc] _]. Z.div_mod_to_equations. lia.
Qed.

Lemma chunk_bytepos buf :
  field_in buf offset (len - r) →
  Z.shiftr offset 3 = offset / 8 ∧ Z.land offset 7 = offset mod 8 ∧
  0 ≤ offset / 8 < Z.of_nat (length buf).
Proof using Ho Hr Hlen.
  unfold field_in. intros Hin. rewrite Z.shiftr_div_pow2 by lia.
  change 7 with (Z.ones 3). rewrite Z.land_ones by lia. change (2 ^ 3) with 8.
  do 2 (split; [done|]). Z.div_mod_to_equations. lia.
Qed.

Lemma chunk_field_in buf :
  field_in buf offset (len - r) →
  field_in buf (u8 (offset + chunk offset len r)) (len - (r + chunk offset len r)).
Proof using Ho Hr Hlen.
  pose proof chunk_range as [[Hc _] Hl].
  unfold field_in, u8, wrap. change (2 ^ 8) with 256.
  pose proof (Z.mod_le (offset + chunk offset len r) 256). lia.
Qed.
End Chunk.

(** ** Reading *)

Lemma buf_get_chunk offset len r b res i :
  0 ≤ offset < 256 → 0 ≤ r < len → len ≤ 32 → 0 ≤ b < 256 → fits r res → 0 ≤ i →
  Z.testbit (u32 (Z.lor res (Z.shiftl (Z.land (Z.shiftr b (offset mod 8))
    (u8 (Z.shiftl 1 (chunk offset len r) - 1))) r))) i
  = if i <? r then Z.testbit res i
    else if i <? r + chunk offset len r then Z.testbit b (offset mod 8 + (i - r)) else false.
Proof.
  intros Ho Hr Hl Hb Hres Hi.
  pose proof (chunk_range offset len r Ho Hr Hl) as [Hc Hcl].
  pose proof (Z.mod_pos_bound offset 8).
  unfold u32. rewrite wrap_testbit, Z.lor_spec, Z.shiftl_spec by lia.
  destruct (Z.ltb_spec i r) as [Hir|Hir].
  - rewrite (Z.testbit_neg_r _ (i - r)), orb_false_r by lia.
    destruct (Z.ltb_spec i 32); [done|lia].
  - rewrite (testbit_fits r res) by done. simpl.
    rewrite Z.land_spec, Z.shiftr_spec, chunk_mask by lia.
    replace (i - r + offset mod 8) with (offset mod 8 + (i - r)) by lia.
    destruct (Z.ltb_spec (i - r) (chunk offset len r)), (Z.ltb_spec i (r + chunk offset len r)),
      (Z.ltb_spec i 32); try lia; by rewrite ?andb_true_r, ?andb_false_r.
Qed.

Lemma fits_bits n v (f : Z → bool) :
  0 ≤ n → 0 ≤ v → (∀ i, 0 ≤ i → Z.testbit v i = f i) → (∀ i, n ≤ i → f i = false) → fits n v.
Proof.
  intros Hn Hv Hb Hf. apply fits_testbit; [done..|]. intros i Hi. rewrite Hb by lia. auto.
Qed.

Lemma bufbit_index buf i b :
  getb buf (i / 8) = Some b → bufbit buf i = Z.testbit b (i mod 8).
Proof. intros [_ Hb]%getb_Some. unfold bufbit. by rewrite Hb. Qed.

Lemma buf_get_value_loop_spec fuel buf offset len r res :
  (Z.to_nat (len - r) < fuel)%nat → Forall (fits 8) buf → 0 ≤ offset < 256 →
  0 ≤ r ≤ len → len ≤ 32 → fits r res → field_in buf offset (len - r) →
  ∃ v, buf_get_value_loop fuel buf offset len r res = Some v ∧ fits len v ∧
    ∀ i, 0 ≤ i < len →
      Z.testbit v i = if i <? r then Z.testbit res i
                      else bufbit buf ((offset + (i - r)) mod 256).
Proof.
  revert offset r res. induction fuel as [|fuel IH]; intros offset r res Hf Hbuf Ho Hr Hl Hres Hin;
    [lia|]. simpl. destruct (Z.ltb_spec r len) as [Hrl|Hrl].
  2: { exists res. assert (r = len) as -> by lia. split_and!; [done..|].
       intros i Hi. destruct (Z.ltb_spec i len); [done|lia]. }
  pose proof (chunk_range offset len r Ho ltac:(lia) Hl) as [Hc Hcl].
  destruct (chunk_bytepos offset len r Ho ltac:(lia) Hl buf Hin) as (-> & -> & Hbp).
  destruct (getb_in buf _ Hbp) as [b Hb]. rewrite Hb. bindr.
  rewrite decide_True by lia.
  pose proof (getb_Forall _ _ _ _ Hbuf Hb) as Hb8.
  set (res' := u32 _).
  assert (Hbits : ∀ i, 0 ≤ i → Z.testbit res' i = _)
    by exact (λ i, buf_get_chunk offset len r b res i Ho (conj (proj1 Hr) Hrl) Hl Hb8 Hres).
  assert (Hres' : fits (r + chunk offset len r) res').
  { eapply fits_bits; [lia|apply u32_range|exact Hbits|].
    intros i Hi. cbv beta. zcase; lia || done. }
  rewrite (u8_small (r + _)) by lia.
  destruct (IH (u8 (offset + chunk offset len r)) (r + chunk offset len r) res')
    as (v & -> & Hfv & Hv); try done; try lia; [apply u8_range|apply chunk_field_in; lia || done|].
  exists v. split_and!; [done..|]. intros i Hi. rewrite Hv by done. rewrite Hbits by lia.
  destruct (Z.ltb_spec i r), (Z.ltb_spec i (r + chunk offset len r)); try lia; try done.
  - destruct (chunk_index offset len r Ho ltac:(lia) Hl (i - r)) as (-> & Hd & Hm); [lia|].
    rewrite (bufbit_index _ _ b) by (by rewrite Hd). by rewrite Hm.
  - rewrite chunk_next. do 2 f_equal. lia.
Qed.

(** ** Writing *)

(** The byte [buf_set_value] stores for one chunk. *)
Lemma buf_set_chunk offset len r b value i :
  0 ≤ offset < 256 → 0 ≤ r < len → len ≤ 32 → 0 ≤ b < 256 → 0 ≤ i < 8 →
  Z.testbit (u8 (Z.lor (u8 (Z.land b (Z.lnot (Z.shiftl (Z.land (Z.shiftr (u32 (Z.lnot 0)) r)
      (u8 (Z.shiftl 1 (chunk offset len r) - 1))) (offset mod 8)))))
    (Z.shiftl (Z.land (Z.shiftr value r) (u8 (Z.shiftl 1 (chunk offset len r) - 1)))
      (offset mod 8)))) i
  = if (offset mod 8 <=? i) && (i <? offset mod 8 + chunk offset len r)
    then Z.testbit value (r + (i - offset mod 8)) else Z.testbit b i.
Proof.
  intros Ho Hr Hl Hb Hi.
  pose proof (chunk_range offset len r Ho Hr Hl) as [Hc Hcl].
  pose proof (Z.mod_pos_bound offset 8).
  change (u32 (Z.lnot 0)) with (Z.ones 32).
  unfold u8 at 1 2. rewrite wrap_testbit, Z.lor_spec, wrap_testbit, Z.land_spec, Z.lnot_spec by lia.
  destruct (Z.ltb_spec i 8); [|lia]. rewrite !Z.shiftl_spec by lia. simpl.
  destruct (Z.leb_spec (offset mod 8) i); simpl.
  - rewrite !Z.land_spec, !Z.shiftr_spec, chunk_mask, Z.testbit_ones by lia.
    replace (i - offset mod 8 + r) with (r + (i - offset mod 8)) by lia.
    zcase; try lia; simpl; by rewrite ?andb_false_r, ?andb_true_r, ?orb_false_r.
  - rewrite !(Z.testbit_neg_r _ (i - offset mod 8)) by lia. simpl.
    by rewrite andb_true_r, orb_false_r.
Qed.

Lemma bufbit_insert buf k b i :
  0 ≤ k < Z.of_nat (length buf) → 0 ≤ i →
  bufbit (<[Z.to_nat k := b]> buf) i
  = if decide (i / 8 = k) then Z.testbit b (i mod 8) else bufbit buf i.
Proof.
  intros Hk Hi. unfold bufbit.
  assert (0 ≤ i / 8) by (apply Z.div_pos; lia). case_decide as Heq.
  - subst k. by rewrite list_lookup_insert_eq by lia.
  - by rewrite list_lookup_insert_ne by lia.
Qed.

(** Bit [j] of the buffer belongs to the field of [len] bits at [offset]. *)
Definition in_field (offset len j : Z) : bool :=
  ((j - offset) mod 256 <? len) && (j <? 256).

Lemma in_field_chunk offset len r j :
  0 ≤ offset < 256 → 0 ≤ r < len → len ≤ 32 → 0 ≤ j →
  in_field offset (len - r) j =
    if in_field (u8 (offset + chunk offset len r)) (len - (r + chunk offset len r)) j then true
    else (j / 8 =? offset / 8) && ((offset mod 8 <=? j mod 8) &&
         (j mod 8 <? offset mod 8 + chunk offset len r)).
Proof.
  intros Ho Hr Hl Hj. pose proof (chunk_range offset len r Ho Hr Hl) as [Hc Hcl].
  set (k := chunk offset len r) in *. unfold in_field, u8, wrap. change (2 ^ 8) with 256.
  rewrite Zminus_mod_idemp_r by lia.
  destruct (Z.ltb_spec j 256); rewrite ?andb_true_r, ?andb_false_r.
  - destruct (Z.ltb_spec ((j - offset) mod 256) (len - r)),
      (Z.ltb_spec ((j - (offset + k)) mod 256) (len - (r + k))),
      (Z.eqb_spec (j / 8) (offset / 8)), (Z.leb_spec (offset mod 8) (j mod 8)),
      (Z.ltb_spec (j mod 8) (offset mod 8 + k)); try done;
      Z.div_mod_to_equations; lia.
  - destruct (Z.eqb_spec (j / 8) (offset / 8)); [|done]. Z.div_mod_to_equations; lia.
Qed.

Lemma buf_set_value_loop_spec fuel buf offset len r value :
  (Z.to_nat (len - r) < fuel)%nat → Forall (fits 8) buf → 0 ≤ offset < 256 →
  0 ≤ r ≤ len → len ≤ 32 → field_in buf offset (len - r) →
  ∃ buf', buf_set_value_loop fuel buf offset len r value = Some buf' ∧
    Forall (fits 8) buf' ∧ length buf' = length buf ∧
    ∀ j, 0 ≤ j → bufbit buf' j =
      if in_field offset (len - r) j then Z.testbit value (r + (j - offset) mod 256)
      else bufbit buf j.
Proof.
  revert buf offset r. induction fuel as [|fuel IH]; intros buf offset r Hf Hbuf Ho Hr Hl Hin;
    [lia|]. cbn [buf_set_value_loop]. destruct (Z.ltb_spec r len) as [Hrl|Hrl].
  2: { exists buf. assert (r = len) as -> by lia. split_and!; [done..|].
       intros j Hj. unfold in_field. pose proof (Z.mod_pos_bound (j - offset) 256).
       by destruct (Z.ltb_spec ((j - offset) mod 256) (len - len)); [lia|]. }
  pose proof (chunk_range offset len r Ho ltac:(lia) Hl) as [Hc Hcl].
  destruct (chunk_bytepos offset len r Ho ltac:(lia) Hl buf Hin) as (-> & -> & Hbp).
  rewrite decide_True by lia.
  destruct (getb_in buf _ Hbp) as [b Hb]. rewrite Hb. bindr.
  pose proof (getb_Forall _ _ _ _ Hbuf Hb) as Hb8.
  rewrite setb_in by done. bindr. unfold getb at 1. rewrite decide_True by lia.
  rewrite list_lookup_insert_eq by lia. bindr.
  rewrite setb_in by (rewrite length_insert; lia). bindr. rewrite list_insert_insert_eq.
  set (b' := u8 (Z.lor (u8 _) _)).
  assert (Hbits : ∀ i, 0 ≤ i < 8 → Z.testbit b' i = _)
    by exact (λ i, buf_set_chunk offset len r b value i Ho (conj (proj1 Hr) Hrl) Hl Hb8).
  rewrite (u8_small (r + _)) by lia.
  destruct (IH (<[Z.to_nat (offset / 8) := b']> buf) (u8 (offset + chunk offset len r))
    (r + chunk offset len r)) as (buf' & -> & Hf' & Hlen' & Hv); try lia; try apply u8_range.
  { apply Forall_insert; [done|]. apply u8_range. }
  { unfold field_in. rewrite length_insert.
    exact (chunk_field_in offset len r Ho (conj (proj1 Hr) Hrl) Hl buf Hin). }
  exists buf'. split_and!; [done..|by rewrite Hlen', length_insert|].
  intros j Hj. rewrite Hv by done. rewrite bufbit_insert by done.
  rewrite (in_field_chunk offset len r j) by (done || lia).
  destruct (in_field (u8 _) _ j) eqn:Hnext.
  - f_equal. revert Hnext. unfold in_field, u8, wrap. change (2 ^ 8) with 256.
    rewrite Zminus_mod_idemp_r by lia. intros [Hm%Z.ltb_lt _]%andb_true_iff.
    Z.div_mod_to_equations; lia.
  - case_decide as Hj8.
    + rewrite Hbits by (apply Z.mod_pos_bound; lia).
      rewrite (proj2 (Z.eqb_eq _ _) Hj8), andb_true_l.
      destruct (_ && _) eqn:Hrange.
      * f_equal. apply andb_true_iff in Hrange as [Hlo%Z.leb_le Hhi%Z.ltb_lt].
        Z.div_mod_to_equations; lia.
      * symmetry. apply bufbit_index. by rewrite Hj8.
    + by rewrite (proj2 (Z.eqb_neq _ _) Hj8).
Qed.

(** bit fields of at most 32 bits.  [buf_get_value] terminates and returns
    the number whose bit [i] is bit [offset + i] of the buffer, the index
    taken modulo 256 as the 8-bit [offset] wraps.  [buf_set_value] terminates,
    stores exactly the field, leaves every other bit, and reading the field
    back gives the value reduced to the width of the field. *)
Theorem buf_value_correct buf offset len value :
  Forall (fits 8) buf → 0 ≤ offset < 256 → 0 ≤ len ≤ 32 → 0 ≤ value →
  field_in buf offset len →
  (∃ v, buf_get_value buf offset len = Some v ∧ fits len v ∧
     ∀ i, 0 ≤ i < len → Z.testbit v i = bufbit buf ((offset + i) mod 256)) ∧
  (∃ buf', buf_set_value buf offset len value = Some buf' ∧
     Forall (fits 8) buf' ∧ length buf' = length buf ∧
     (∀ j, 0 ≤ j → bufbit buf' j = if in_field offset len j
        then Z.testbit value ((j - offset) mod 256) else bufbit buf j) ∧
     buf_get_value buf' offset len = Some (wrap len value)).
Proof.
  intros Hbuf Ho Hl Hval Hin.
  assert (Hget : ∀ buf, Forall (fits 8) buf → field_in buf offset len →
    ∃ v, buf_get_value buf offset len = Some v ∧ fits len v ∧
     ∀ i, 0 ≤ i < len → Z.testbit v i = bufbit buf ((offset + i) mod 256)).
  { intros buf0 Hb0 Hin0.
    destruct (buf_get_value_loop_spec (S (Z.to_nat len)) buf0 offset len 0 0)
      as (v & Hv & Hfv & Hbv); try done; try lia; [by rewrite Z.sub_0_r|].
    exists v. split_and!; [done..|]. intros i Hi. rewrite Hbv by done.
    destruct (Z.ltb_spec i 0); [lia|]. by rewrite Z.sub_0_r. }
  split; [by apply Hget|].
  destruct (buf_set_value_loop_spec (S (Z.to_nat len)) buf offset len 0 value)
    as (buf' & Hs & Hf' & Hlen' & Hbits); try done; try lia; [by rewrite Z.sub_0_r|].
  rewrite Z.sub_0_r in Hbits.
  exists buf'. split_and!; [done..| |].
  { intros j Hj. rewrite Hbits by done. done. }
  destruct (Hget buf') as (v & -> & Hfv & Hv); [done|unfold field_in; by rewrite Hlen'|].
  f_equal. apply (fits_ext len); [done|apply wrap_fits; lia|].
  intros i Hi. rewrite Hv by done. rewrite wrap_testbit by lia.
  destruct (Z.ltb_spec i len); [|lia]. simpl.
  pose proof (Z.mod_pos_bound (offset + i) 256 ltac:(lia)).
  assert (Hi' : ((offset + i) mod 256 - offset) mod 256 = i).
  { rewrite Zminus_mod_idemp_l. replace (offset + i - offset) with i by lia.
    apply Z.mod_small. lia. }
  rewrite Hbits by lia. unfold in_field. rewrite Hi'.
  destruct (Z.ltb_spec i len), (Z.ltb_spec ((offset + i) mod 256) 256); try lia. done.
Qed.

Lemma buf_value_correct_witness :
  ∃ buf', buf_set_value [0xFF; 0; 0xFF] 6 9 0x155 = Some buf' ∧
          buf_get_value buf' 6 9 = Some 0x155.
Proof.
  destruct (buf_value_correct [0xFF; 0; 0xFF] 6 9 0x155) as [_ (buf' & Hs & _ & _ & _ & Hg)];
    [by_decide|by_decide|by_decide|by_decide|left; simpl; lia|].
  exists buf'. split; [exact Hs|exact Hg].
Defined.
