(* ===== verification/Crc.v ===== *)
(** * Crc: cyclic redundancy checks (crc_calc and crc32_get of crc.c)

    [crc_calc] shifts a register of 8, 16 or 32 bits (kept in a [uint32_t])
    to the left, once per bit of each item; [crc32_get] shifts a 32-bit
    register to the right, 8 times per byte.  Both are shown to compute the
    remainder of the message polynomial over GF(2), with the coefficients of a
    polynomial as the bits of a non-negative integer. *)

From S2P Require Import Prelude Bits Endian.

(** ** The routines *)

Record crc_t := { bitlen : Z; result : Z; poly : Z }.

(** One round of the inner loop of [crc_calc]. *)
Definition crc_step (bitlen poly result : Z) : Z :=
  if decide (Z.land result (Z.shiftl 1 (bitlen - 1)) = 0) then u32 (Z.shiftl result 1)
  else Z.lxor (u32 (Z.shiftl result 1)) poly.

Fixpoint crc_loop (num : nat) (bitlen poly result : Z) (buff : list Z) : option Z :=
  match num with
  | O => Some result
  | S num =>
      '(result, buff) ←
         (if decide (bitlen = 8 ∨ bitlen = 16 ∨ bitlen = 32) then
            match buff with [] => None | d :: buff => Some (Z.lxor result d, buff) end
          else Some (result, buff));
      crc_loop num bitlen poly
        (Nat.iter (Z.to_nat (u8 bitlen)) (crc_step (u8 bitlen) poly) result) buff
  end.

(** [buff] is the data as items of [bitlen] bits, the type the source reads
    it at. *)
Definition crc_calc (crc : crc_t) (buff : list Z) (num : Z) : option (Z * crc_t) :=
  r ← crc_loop (Z.to_nat num) (bitlen crc) (poly crc) (result crc) buff;
  let r := Z.land r (Z.shiftl 1 (u8 (bitlen crc)) - 1) in
  Some (r, {| bitlen := bitlen crc; result := r; poly := poly crc |}).

Definition crc32_step (crc : Z) : Z :=
  Z.lxor (Z.shiftr crc 1) (if decide (Z.land crc 1 = 0) then 0 else 0xedb88320).

Fixpoint crc32_loop (len : nat) (crc : Z) (p : list Z) : option Z :=
  match len with
  | O => Some crc
  | S len =>
      match p with
      | [] => None
      | b :: p => crc32_loop len (Nat.iter 8 crc32_step (Z.lxor crc b)) p
      end
  end.

Definition crc32_get (crc : Z) (p : list Z) (len : Z) : option Z :=
  crc ← crc32_loop (Z.to_nat len) crc p;
  Some (Z.lxor crc 0xffffffff).

(** ** Polynomials over GF(2) *)

(** The sum of the multiples [x^k * G], [k] in [ks]. *)
Definition multiples (G : Z) (ks : list Z) : Z :=
  foldr (λ k acc, Z.lxor (Z.shiftl G k) acc) 0 ks.

(** [a] and [b] differ by a multiple of [G]. *)
Definition cong (G a b : Z) : Prop :=
  ∃ ks, Forall (λ k, 0 ≤ k) ks ∧ Z.lxor a b = multiples G ks.

Lemma multiples_app G ks1 ks2 :
  multiples G (ks1 ++ ks2) = Z.lxor (multiples G ks1) (multiples G ks2).
Proof.
  induction ks1 as [|k ks1 IH]; simpl; [by rewrite Z.lxor_0_l|].
  unfold multiples in *. simpl. by rewrite IH, Z.lxor_assoc.
Qed.

Lemma multiples_shift G ks n :
  0 ≤ n → Forall (λ k, 0 ≤ k) ks →
  Z.shiftl (multiples G ks) n = multiples G (map (λ k, k + n) ks).
Proof.
  intros Hn. induction 1 as [|k ks Hk Hks IH]; unfold multiples in *; simpl.
  - by rewrite Z.shiftl_0_l.
  - by rewrite Z.shiftl_lxor, IH, Z.shiftl_shiftl by lia.
Qed.

#[export] Instance cong_equiv G : Equivalence (cong G).
Proof.
  split.
  - intros a. exists []. by rewrite Z.lxor_nilpotent.
  - intros a b (ks & ? & Hk). exists ks. by rewrite Z.lxor_comm.
  - intros a b c (ks1 & ? & H1) (ks2 & ? & H2). exists (ks1 ++ ks2).
    split; [by apply Forall_app|]. rewrite multiples_app, <- H1, <- H2.
    rewrite Z.lxor_assoc, <- (Z.lxor_assoc b b c), Z.lxor_nilpotent. by rewrite Z.lxor_0_l.
Qed.

#[export] Instance cong_lxor G : Proper (cong G ==> cong G ==> cong G) Z.lxor.
Proof.
  intros a a' (ks1 & ? & H1) b b' (ks2 & ? & H2). exists (ks1 ++ ks2).
  split; [by apply Forall_app|]. rewrite multiples_app, <- H1, <- H2.
  apply Z.bits_inj. intros i. rewrite !Z.lxor_spec.
  by destruct (Z.testbit a i), (Z.testbit a' i), (Z.testbit b i), (Z.testbit b' i).
Qed.

Lemma cong_shiftl G a b n : 0 ≤ n → cong G a b → cong G (Z.shiftl a n) (Z.shiftl b n).
Proof.
  intros Hn (ks & Hks & Hk). exists (map (λ k, k + n) ks). split.
  - apply Forall_map. eapply Forall_impl; [exact Hks|]. simpl. lia.
  - by rewrite <- Z.shiftl_lxor, Hk, multiples_shift.
Qed.

Lemma cong_generator G a : cong G (Z.lxor a G) a.
Proof.
  exists [0]. split; [by repeat constructor|]. unfold multiples. simpl.
  rewrite Z.shiftl_0_r, Z.lxor_0_r, Z.lxor_comm, <- Z.lxor_assoc, Z.lxor_nilpotent.
  apply Z.lxor_0_l.
Qed.

(** ** The shift register *)

(** One shift of a [w]-bit register with generator [G] (of degree [w]), and
    [k] shifts after adding an item of [k] bits at the top of the register. *)
Definition gstep (w G r : Z) : Z :=
  Z.lxor (Z.shiftl r 1) (if Z.testbit r (w - 1) then G else 0).

Definition gitem (w G : Z) (k : nat) (r d : Z) : Z :=
  Nat.iter k (gstep w G) (Z.lxor r (Z.shiftl d (w - Z.of_nat k))).

Definition crc_register (w G : Z) (k : nat) (r : Z) (ds : list Z) : Z :=
  fold_left (gitem w G k) ds r.

Lemma crc_register_cons w G k r d ds :
  crc_register w G k r (d :: ds) = crc_register w G k (gitem w G k r d) ds.
Proof. done. Qed.

(** The message as one number: the items from the first to the last. *)
Definition message (k : Z) (m : Z) (ds : list Z) : Z :=
  fold_left (λ m d, Z.lxor (Z.shiftl m k) d) ds m.

Lemma message_init k m ds :
  0 ≤ k →
  message k m ds = Z.lxor (Z.shiftl m (Z.of_nat (length ds) * k)) (message k 0 ds).
Proof.
  intros Hk. revert m. induction ds as [|d ds IH]; intros m.
  { simpl. by rewrite Z.shiftl_0_r, Z.lxor_0_r. }
  unfold message in *. cbn [fold_left length].
  rewrite (IH (Z.lxor (Z.shiftl m k) d)), (IH (Z.lxor (Z.shiftl 0 k) d)).
  rewrite Z.shiftl_0_l, Z.lxor_0_l, Z.shiftl_lxor, Z.shiftl_shiftl by lia.
  rewrite Z.lxor_assoc. do 2 f_equal. lia.
Qed.

Lemma lxor_cancel_r a b c : Z.lxor a c = Z.lxor b c → a = b.
Proof.
  intros Heq. apply Z.bits_inj. intros i.
  assert (Hi : Z.testbit (Z.lxor a c) i = Z.testbit (Z.lxor b c) i) by by rewrite Heq.
  rewrite !Z.lxor_spec in Hi.
  by destruct (Z.testbit a i), (Z.testbit b i), (Z.testbit c i).
Qed.

Lemma lxor_shift_inj r x y n :
  0 ≤ n → Z.lxor r (Z.shiftl x n) = Z.lxor r (Z.shiftl y n) → x = y.
Proof.
  intros Hn Heq. rewrite !(Z.lxor_comm r) in Heq. apply lxor_cancel_r in Heq.
  rewrite !Z.shiftl_mul_pow2 in Heq by done.
  apply Z.mul_reg_r in Heq; [done|]. pose proof (Z.pow_pos_nonneg 2 n). lia.
Qed.

Section Register.
Context (w G : Z) (Hw : 0 < w) (HG : fits (w + 1) G) (Htop : Z.testbit G w = true).

Lemma gstep_fits r : fits w r → fits w (gstep w G r).
Proof using Hw HG Htop.
  intros Hr. unfold gstep. apply fits_testbit; [lia| |].
  - assert (0 ≤ Z.shiftl r 1) by apply Z.shiftl_nonneg, Hr.
    assert (0 ≤ if Z.testbit r (w - 1) then G else 0) by (destruct (Z.testbit r (w - 1)); [apply HG|lia]).
    by apply Z.lxor_nonneg.
  - intros i Hi. rewrite Z.lxor_spec, Z.shiftl_spec by lia.
    destruct (decide (i = w)) as [->|].
    + destruct (Z.testbit r (w - 1)) eqn:Hb; [by rewrite Htop|by rewrite Z.bits_0].
    + rewrite (testbit_fits w r) by (done || lia).
      destruct (Z.testbit r (w - 1)); [|by rewrite Z.bits_0].
      by rewrite (testbit_fits (w + 1) G) by (done || lia).
Qed.

Lemma gstep_cong r : cong G (gstep w G r) (Z.shiftl r 1).
Proof using.
  unfold gstep. destruct (Z.testbit r (w - 1)); [apply cong_generator|].
  by rewrite Z.lxor_0_r.
Qed.

(** Distinct registers stay distinct when the generator has a constant term. *)
Lemma gstep_inj r1 r2 :
  Z.testbit G 0 = true → fits w r1 → fits w r2 → gstep w G r1 = gstep w G r2 → r1 = r2.
Proof using Hw.
  intros H0 Hr1 Hr2 Heq.
  assert (Hbit : ∀ i, Z.testbit (gstep w G r1) i = Z.testbit (gstep w G r2) i)
    by (intros; by rewrite Heq).
  unfold gstep in Hbit.
  assert (Htb : Z.testbit r1 (w - 1) = Z.testbit r2 (w - 1)).
  { specialize (Hbit 0). rewrite !Z.lxor_spec, !Z.shiftl_spec in Hbit by lia.
    rewrite (Z.testbit_neg_r r1), (Z.testbit_neg_r r2) in Hbit by lia.
    destruct (Z.testbit r1 _), (Z.testbit r2 _); rewrite ?H0, ?Z.bits_0 in Hbit; done. }
  apply Z.bits_inj'. intros i Hi. specialize (Hbit (i + 1)). rewrite Htb in Hbit.
  rewrite !Z.lxor_spec, !Z.shiftl_spec in Hbit by lia.
  replace (i + 1 - 1) with i in Hbit by lia.
  by destruct (Z.testbit r1 i), (Z.testbit r2 i),
    (Z.testbit (if Z.testbit r2 (w - 1) then G else 0) (i + 1)).
Qed.

Lemma iter_gstep_fits k r : fits w r → fits w (Nat.iter k (gstep w G) r).
Proof using Hw HG Htop. induction k; simpl; auto using gstep_fits. Qed.

Lemma iter_gstep_cong k r : cong G (Nat.iter k (gstep w G) r) (Z.shiftl r (Z.of_nat k)).
Proof using.
  induction k as [|k IH]; simpl; [by rewrite Z.shiftl_0_r|].
  rewrite gstep_cong, (cong_shiftl G _ _ 1 ltac:(lia) IH), Z.shiftl_shiftl by lia.
  by replace (Z.of_nat k + 1) with (Z.of_nat (S k)) by lia.
Qed.

Lemma iter_gstep_inj k r1 r2 :
  Z.testbit G 0 = true → fits w r1 → fits w r2 →
  Nat.iter k (gstep w G) r1 = Nat.iter k (gstep w G) r2 → r1 = r2.
Proof using Hw HG Htop.
  intros H0 Hr1 Hr2. induction k as [|k IH]; simpl; [done|].
  intros ?%gstep_inj; auto using iter_gstep_fits.
Qed.

Context (k : nat) (Hk : Z.of_nat k ≤ w).

Lemma gitem_in_fits r d :
  fits w r → fits (Z.of_nat k) d → fits w (Z.lxor r (Z.shiftl d (w - Z.of_nat k))).
Proof using Hw Hk.
  intros Hr Hd. apply fits_lxor; [lia|done|]. unfold fits in *.
  rewrite Z.shiftl_mul_pow2 by lia.
  replace w with (Z.of_nat k + (w - Z.of_nat k)) at 3 by lia.
  rewrite Z.pow_add_r by lia. nia.
Qed.

Lemma crc_register_fits r ds :
  fits w r → Forall (fits (Z.of_nat k)) ds → fits w (crc_register w G k r ds).
Proof using Hw HG Htop Hk.
  intros Hr Hds. revert r Hr. induction Hds as [|d ds Hd Hds IH]; intros r Hr; [done|].
  apply IH. by apply iter_gstep_fits, gitem_in_fits.
Qed.

(** The register is congruent to the initial value moved up by the length of
    the message, plus the message times [x^w]. *)
Lemma crc_register_cong r ds :
  cong G (crc_register w G k r ds)
    (Z.lxor (Z.shiftl r (Z.of_nat (length ds) * Z.of_nat k))
            (Z.shiftl (message (Z.of_nat k) 0 ds) w)).
Proof using Hw Hk.
  revert r. induction ds as [|d ds IH]; intros r.
  { simpl. by rewrite Z.shiftl_0_l, Z.lxor_0_r, Z.shiftl_0_r. }
  change (crc_register w G k r (d :: ds)) with (crc_register w G k (gitem w G k r d) ds).
  rewrite IH. unfold gitem.
  rewrite (cong_shiftl G _ _ (Z.of_nat (length ds) * Z.of_nat k) ltac:(lia)
    (iter_gstep_cong k _)).
  unfold message. cbn [fold_left length]. rewrite Z.shiftl_0_l, Z.lxor_0_l.
  fold (message (Z.of_nat k) d ds). fold (message (Z.of_nat k) 0 ds).
  rewrite (message_init _ d ds) by lia. rewrite !Z.shiftl_lxor, !Z.shiftl_shiftl by nia.
  rewrite Z.lxor_assoc. do 2 f_equiv; [lia|].
  match goal with |- cong _ (Z.shiftl d ?a) (Z.shiftl d ?b) => by replace a with b by lia end.
Qed.

(** Messages that differ in one item only have different registers. *)
Lemma crc_register_detects r ds1 x y ds2 :
  Z.testbit G 0 = true → fits w r → Forall (fits (Z.of_nat k)) (ds1 ++ x :: y :: ds2) →
  x ≠ y →
  crc_register w G k r (ds1 ++ x :: ds2) ≠ crc_register w G k r (ds1 ++ y :: ds2).
Proof using Hw HG Htop Hk.
  intros H0 Hr Hds Hxy. apply Forall_app in Hds as [Hds1 [Hx [Hy Hds2]%Forall_cons]%Forall_cons].
  unfold crc_register. rewrite !fold_left_app. cbn [fold_left].
  pose proof (crc_register_fits r ds1 Hr Hds1) as Hr1. unfold crc_register in Hr1.
  set (r1 := fold_left _ ds1 r) in *.
  assert (Hne : gitem w G k r1 x ≠ gitem w G k r1 y).
  { intros Heq%iter_gstep_inj; [|done|by apply gitem_in_fits..].
    apply Hxy. by apply lxor_shift_inj in Heq; [|lia]. }
  assert (Hfx : fits w (gitem w G k r1 x)) by by apply iter_gstep_fits, gitem_in_fits.
  assert (Hfy : fits w (gitem w G k r1 y)) by by apply iter_gstep_fits, gitem_in_fits.
  revert Hne Hfx Hfy. generalize (gitem w G k r1 x) (gitem w G k r1 y).
  induction Hds2 as [|d ds2 Hd Hds2 IH]; intros a b Hne Ha Hb; [done|].
  cbn [fold_left]. apply IH; [|by apply iter_gstep_fits, gitem_in_fits..].
  intros Heq%iter_gstep_inj; [|done|by apply gitem_in_fits..].
  apply Hne. by apply lxor_cancel_r in Heq.
Qed.
End Register.

(** ** crc_calc runs the register *)

Definition generator (w poly : Z) : Z := 2 ^ w + wrap w poly.

Lemma generator_bits w poly i :
  0 ≤ w → 0 ≤ i → Z.testbit (generator w poly) i =
    if decide (i = w) then true else (i <? w) && Z.testbit poly i.
Proof.
  intros Hw Hi. unfold generator.
  rewrite <- (lor_add_low (2 ^ w) (wrap w poly) w), Z.lor_spec, wrap_testbit, Z.pow2_bits_eqb
    by (try apply Z.mod_same; try apply wrap_fits; lia).
  case_decide as Heq; subst; [by rewrite Z.eqb_refl|].
  by rewrite (proj2 (Z.eqb_neq w i)).
Qed.

Lemma generator_ok w poly :
  0 < w → fits (w + 1) (generator w poly) ∧ Z.testbit (generator w poly) w = true ∧
          Z.testbit (generator w poly) 0 = Z.testbit poly 0.
Proof.
  intros Hw. split_and!.
  - apply fits_testbit; [lia| |].
    + pose proof (wrap_fits w poly). unfold generator, fits in *. lia.
    + intros i Hi. rewrite generator_bits by lia. rewrite decide_False by lia.
      by destruct (Z.ltb_spec i w); [lia|].
  - rewrite generator_bits by lia. by rewrite decide_True.
  - rewrite generator_bits by lia. rewrite decide_False by lia.
    by destruct (Z.ltb_spec 0 w); [|lia].
Qed.

Lemma land_bit_0 r n : 0 ≤ n → Z.land r (Z.shiftl 1 n) = 0 ↔ Z.testbit r n = false.
Proof.
  intros Hn. split; intros H.
  - assert (Hb : Z.testbit (Z.land r (Z.shiftl 1 n)) n = false) by by rewrite H, Z.bits_0.
    rewrite Z.land_spec, testbit_pow2_bool, bool_decide_true in Hb by done.
    by rewrite andb_true_r in Hb.
  - apply Z.bits_inj'. intros i Hi. rewrite Z.land_spec, testbit_pow2_bool, Z.bits_0 by done.
    case_bool_decide; [subst; by rewrite H|apply andb_false_r].
Qed.

Lemma crc_step_gstep w poly r :
  0 < w ≤ 32 → wrap w (crc_step w poly r) = gstep w (generator w poly) (wrap w r).
Proof.
  intros Hw. destruct (generator_ok w poly ltac:(lia)) as (HG & Htop & _).
  apply (fits_ext w); [apply wrap_fits; lia|apply gstep_fits; try done; try lia; apply wrap_fits; lia|].
  intros i Hi. unfold gstep, crc_step.
  rewrite !wrap_testbit, Z.lxor_spec, Z.shiftl_spec, wrap_testbit by lia.
  destruct (Z.ltb_spec i w), (Z.ltb_spec (i - 1) w), (Z.ltb_spec (w - 1) w); try lia.
  rewrite !andb_true_l.
  assert (Hs : Z.testbit (u32 (Z.shiftl r 1)) i = Z.testbit r (i - 1)).
  { unfold u32. rewrite wrap_testbit, Z.shiftl_spec by lia.
    by destruct (Z.ltb_spec i 32); [|lia]. }
  case_decide as Hd; rewrite land_bit_0 in Hd by lia.
  - by rewrite Hd, Hs, Z.bits_0, xorb_false_r.
  - apply not_false_iff_true in Hd. rewrite Hd, Z.lxor_spec, Hs, generator_bits by lia.
    rewrite decide_False by lia. by destruct (Z.ltb_spec i w); [|lia].
Qed.

Definition width_ok (w : Z) : Prop := w = 8 ∨ w = 16 ∨ w = 32.

#[export] Instance width_ok_dec w : Decision (width_ok w).
Proof. unfold width_ok. apply _. Defined.

Lemma crc_loop_spec num w poly r buff :
  width_ok w → (num ≤ length buff)%nat → Forall (fits w) buff →
  ∃ r', crc_loop num w poly r buff = Some r' ∧
    wrap w r' = crc_register w (generator w poly) (Z.to_nat w) (wrap w r) (take num buff).
Proof.
  intros Hw. revert r buff. induction num as [|num IH]; intros r buff Hnum Hbuff.
  { exists r. by rewrite take_0. }
  destruct buff as [|d buff]; [simpl in Hnum; lia|].
  apply Forall_cons in Hbuff as [Hd Hbuff].
  assert (Hw32 : 0 < w ≤ 32) by (unfold width_ok in Hw; lia).
  cbn [crc_loop]. rewrite (decide_True (P := w = 8 ∨ _)) by done. bindr.
  rewrite u8_small by lia.
  edestruct (IH (Nat.iter (Z.to_nat w) (crc_step w poly) (Z.lxor r d)) buff) as (r' & -> & Hr');
    [simpl in Hnum; lia|done|].
  exists r'. split; [done|]. rewrite Hr'. unfold crc_register. cbn [take fold_left]. f_equal.
  unfold gitem. rewrite Z2Nat.id, Z.sub_diag, Z.shiftl_0_r by lia.
  assert (Hx : wrap w (Z.lxor r d) = Z.lxor (wrap w r) d).
  { apply (fits_ext w); [apply wrap_fits; lia|apply fits_lxor; [lia|apply wrap_fits; lia|done]|].
    intros i Hi. autorewrite with zbits. by destruct (Z.ltb_spec i w); [|lia]. }
  rewrite <- Hx. generalize (Z.lxor r d). clear -Hw32. intros x.
  induction (Z.to_nat w) as [|n IHn]; simpl; [done|]. by rewrite crc_step_gstep, IHn by done.
Qed.

(** The register of [crc_calc] for a state and [num] items. *)
Definition crc_value (crc : crc_t) (ds : list Z) : Z :=
  crc_register (bitlen crc) (generator (bitlen crc) (poly crc)) (Z.to_nat (bitlen crc))
    (wrap (bitlen crc) (result crc)) ds.

Lemma crc_calc_value crc buff num :
  width_ok (bitlen crc) → 0 ≤ num ≤ Z.of_nat (length buff) →
  Forall (fits (bitlen crc)) buff →
  crc_calc crc buff num =
    Some (crc_value crc (take (Z.to_nat num) buff),
          {| bitlen := bitlen crc; result := crc_value crc (take (Z.to_nat num) buff);
             poly := poly crc |}).
Proof.
  intros Hw Hnum Hbuff. unfold crc_calc.
  destruct (crc_loop_spec (Z.to_nat num) (bitlen crc) (poly crc) (result crc) buff)
    as (r & -> & Hr); [done|lia|done|]. bindr.
  rewrite u8_small by (unfold width_ok in Hw; lia).
  replace (Z.land r (Z.shiftl 1 (bitlen crc) - 1)) with (wrap (bitlen crc) r).
  - unfold crc_value. by rewrite <- Hr.
  - unfold wrap. rewrite <- Z.land_ones by (unfold width_ok in Hw; lia).
    rewrite Z.ones_equiv, Z.shiftl_1_l. by f_equal.
Qed.

Lemma crc_value_fits crc ds :
  width_ok (bitlen crc) → Forall (fits (bitlen crc)) ds → fits (bitlen crc) (crc_value crc ds).
Proof.
  intros Hw Hds. assert (0 < bitlen crc) by (unfold width_ok in Hw; lia).
  destruct (generator_ok (bitlen crc) (poly crc)) as (HG & Htop & _); [done|].
  apply crc_register_fits; try done; [lia|apply wrap_fits; lia|]. by rewrite Z2Nat.id by lia.
Qed.

(** C39: for 8-, 16- and 32-bit items [crc_calc] returns a [bitlen]-bit number
    that differs by a multiple of the generator polynomial [x^bitlen + poly]
    from the initial register moved up by the message length plus the message
    times [x^bitlen], i.e. the CRC of the message; it keeps it as the new
    register; and feeding a message in two pieces gives the same result. *)
Theorem crc_calc_remainder crc buff num :
  width_ok (bitlen crc) → 0 ≤ num ≤ Z.of_nat (length buff) →
  Forall (fits (bitlen crc)) buff →
  let w := bitlen crc in let ds := take (Z.to_nat num) buff in
  ∃ r crc', crc_calc crc buff num = Some (r, crc') ∧
    fits w r ∧ result crc' = r ∧ bitlen crc' = w ∧ poly crc' = poly crc ∧
    cong (generator w (poly crc)) r
      (Z.lxor (Z.shiftl (wrap w (result crc)) (num * w)) (Z.shiftl (message w 0 ds) w)) ∧
    (∀ n, 0 ≤ n ≤ num → ∃ r1 crc1, crc_calc crc buff n = Some (r1, crc1) ∧
       crc_calc crc1 (drop (Z.to_nat n) buff) (num - n) = Some (r, crc')).
Proof.
  intros Hw Hnum Hbuff w ds. subst w ds.
  assert (Hw0 : 0 < bitlen crc) by (unfold width_ok in Hw; lia).
  eexists _, _. split; [by apply crc_calc_value|]. simpl. split_and!; try done.
  - apply crc_value_fits; [done|by apply Forall_take].
  - etransitivity; [apply crc_register_cong; lia|].
    rewrite Z2Nat.id, length_take_le, Z2Nat.id by lia. done.
  - intros n Hn. eexists _, _. split; [apply crc_calc_value; [done|lia|done]|].
    rewrite crc_calc_value; simpl; [|done|rewrite length_drop; lia|by apply Forall_drop].
    set (r := crc_value crc (take (Z.to_nat num) buff)).
    replace (crc_value _ (take (Z.to_nat (num - n)) _)) with r; [done|].
    unfold r, crc_value at 2. simpl. rewrite wrap_small by
      (apply crc_value_fits; [done|by apply Forall_take]).
    unfold crc_value, crc_register. rewrite <- fold_left_app. f_equal.
    rewrite <- (take_drop (Z.to_nat n) buff) at 1.
    rewrite take_app, take_take, length_take_le by lia.
    f_equal; f_equal; lia.
Qed.

(** With an odd polynomial, two messages of the same length that differ
    in one item get different checksums: [crc_calc] detects every burst error
    inside one item. *)
Theorem crc_calc_detects crc ds1 x y ds2 num :
  width_ok (bitlen crc) → Z.testbit (poly crc) 0 = true →
  Forall (fits (bitlen crc)) (ds1 ++ x :: y :: ds2) → x ≠ y →
  num = Z.of_nat (length (ds1 ++ x :: ds2)) →
  ∃ r1 r2 c1 c2, crc_calc crc (ds1 ++ x :: ds2) num = Some (r1, c1) ∧
    crc_calc crc (ds1 ++ y :: ds2) num = Some (r2, c2) ∧ r1 ≠ r2.
Proof.
  intros Hw Hpoly Hds Hxy Hnum. assert (0 < bitlen crc) by (unfold width_ok in Hw; lia).
  pose proof Hds as [Hds1 [Hx [Hy Hds2]%Forall_cons]%Forall_cons]%Forall_app.
  assert (Hl : length (ds1 ++ x :: ds2) = length (ds1 ++ y :: ds2)) by (by rewrite !length_app).
  do 4 eexists. split_and!.
  - apply crc_calc_value; [done|lia|]. by apply Forall_app; auto.
  - apply crc_calc_value; [done|lia|]. by apply Forall_app; auto.
  - rewrite !take_ge by lia.
    destruct (generator_ok (bitlen crc) (poly crc)) as (HG & Htop & H0); [done|].
    apply crc_register_detects; try done; [lia|by rewrite H0|apply wrap_fits; lia|].
    by rewrite Z2Nat.id by lia.
Qed.

(** ** crc32_get is the reflected register *)

Definition crc32_generator : Z := 0x104C11DB7.

Lemma crc32_generator_bits i :
  0 ≤ i < 32 → Z.testbit crc32_generator i = Z.testbit 0xedb88320 (31 - i).
Proof.
  intros Hi. apply eqb_prop.
  by apply (all_below_spec 32
    (λ i, eqb (Z.testbit crc32_generator i) (Z.testbit 0xedb88320 (31 - i))) i).
Qed.

Lemma reverse32 : reverses 32 BIT_REVERSE_U32.
Proof. apply reverses_all. Qed.
Lemma reverse8 : reverses 8 BIT_REVERSE_U8.
Proof. apply reverses_all. Qed.

Lemma crc32_step_fits c : fits 32 c → fits 32 (crc32_step c).
Proof.
  intros Hc. apply fits_lxor; [lia|apply fits_shiftr; [lia..|done]|].
  by case_decide.
Qed.

Lemma crc32_step_reflect c :
  fits 32 c →
  BIT_REVERSE_U32 (crc32_step c) = gstep 32 crc32_generator (BIT_REVERSE_U32 c).
Proof.
  intros Hc. destruct (reverse32 c Hc) as (Hf & Hb & _).
  destruct (reverse32 _ (crc32_step_fits c Hc)) as (Hf' & Hb' & _).
  apply (fits_ext 32); [done|by apply gstep_fits|].
  intros i Hi. rewrite Hb' by done. unfold crc32_step, gstep.
  rewrite !Z.lxor_spec, Z.shiftr_spec, Z.shiftl_spec by lia. f_equal.
  - destruct (decide (i = 0)) as [->|].
    + rewrite (Z.testbit_neg_r _ (0 - 1)) by lia. by apply (testbit_fits 32).
    + rewrite Hb by lia. f_equal. lia.
  - rewrite Hb by lia. change (32 - 1 - (32 - 1)) with 0.
    pose proof (land_bit_0 c 0 ltac:(lia)) as H0. change (Z.shiftl 1 0) with 1 in H0.
    case_decide as Hd; rewrite H0 in Hd.
    + by rewrite Hd, !Z.bits_0.
    + apply not_false_iff_true in Hd. rewrite Hd.
      by rewrite crc32_generator_bits by done.
Qed.

Lemma crc32_item_reflect c b :
  fits 32 c → fits 8 b →
  BIT_REVERSE_U32 (Z.lxor c b) = Z.lxor (BIT_REVERSE_U32 c) (Z.shiftl (BIT_REVERSE_U8 b) (32 - Z.of_nat 8)).
Proof.
  intros Hc Hb. destruct (reverse32 c Hc) as (Hf & Hbc & _).
  destruct (reverse8 b Hb) as (Hf8 & Hb8 & _).
  assert (Hb32 : fits 32 b) by (unfold fits in *; lia).
  assert (Hx : fits 32 (Z.lxor c b)) by (apply fits_lxor; done || lia).
  destruct (reverse32 _ Hx) as (Hfx & Hbx & _).
  apply (fits_ext 32); [done|exact (gitem_in_fits 32 ltac:(lia) 8 ltac:(lia) _ _ Hf Hf8)|].
  intros i Hi. rewrite Hbx, !Z.lxor_spec, Z.shiftl_spec, Hbc by lia. f_equal.
  destruct (decide (24 ≤ i)).
  - rewrite Hb8 by lia. f_equal. lia.
  - rewrite (Z.testbit_neg_r _ (i - (32 - Z.of_nat 8))) by lia. apply (testbit_fits 8); [done|lia].
Qed.

Lemma crc32_loop_spec len c p :
  fits 32 c → Forall (fits 8) p → (len ≤ length p)%nat →
  ∃ c', crc32_loop len c p = Some c' ∧ fits 32 c' ∧
    BIT_REVERSE_U32 c' = crc_register 32 crc32_generator 8 (BIT_REVERSE_U32 c)
                           (map BIT_REVERSE_U8 (take len p)).
Proof.
  intros Hc Hp. revert c p Hc Hp. induction len as [|len IH]; intros c p Hc Hp Hl.
  { exists c. by rewrite take_0. }
  destruct p as [|b p]; [simpl in Hl; lia|]. apply Forall_cons in Hp as [Hb Hp].
  assert (Hb32 : fits 32 b) by (unfold fits in *; lia).
  assert (Hx : fits 32 (Z.lxor c b)) by (apply fits_lxor; done || lia).
  assert (Hiter : ∀ n, fits 32 (Nat.iter n crc32_step (Z.lxor c b)) ∧
    BIT_REVERSE_U32 (Nat.iter n crc32_step (Z.lxor c b)) =
    Nat.iter n (gstep 32 crc32_generator) (BIT_REVERSE_U32 (Z.lxor c b))).
  { induction n as [|n [Hn IHn]]; [done|]. simpl.
    split; [by apply crc32_step_fits|]. by rewrite crc32_step_reflect, IHn. }
  destruct (Hiter 8%nat) as [Hf8 H8].
  destruct (IH (Nat.iter 8 crc32_step (Z.lxor c b)) p Hf8 Hp) as (c' & Hc' & Hf' & Hr');
    [simpl in Hl; lia|].
  exists c'. split_and!; [exact Hc'|done|]. rewrite Hr', H8, crc32_item_reflect by done.
  cbn [take map]. rewrite crc_register_cons. unfold gitem. reflexivity.
Qed.

(** [crc32_get] is the bit-reflected CRC-32: it terminates, and with the
    reversals of bittool.c its complement is the register of the generator
    0x104C11DB7 run over the reversed bytes from the reversed start value. *)
Theorem crc32_get_reflected crc p len :
  fits 32 crc → Forall (fits 8) p → 0 ≤ len ≤ Z.of_nat (length p) →
  ∃ r, crc32_get crc p len = Some (Z.lxor r 0xffffffff) ∧ fits 32 r ∧
    let v := BIT_REVERSE_U32 r in
    v = crc_register 32 crc32_generator 8 (BIT_REVERSE_U32 crc)
          (map BIT_REVERSE_U8 (take (Z.to_nat len) p)) ∧
    cong crc32_generator v
      (Z.lxor (Z.shiftl (BIT_REVERSE_U32 crc) (len * 8))
        (Z.shiftl (message 8 0 (map BIT_REVERSE_U8 (take (Z.to_nat len) p))) 32)).
Proof.
  intros Hc Hp Hl.
  destruct (crc32_loop_spec (Z.to_nat len) crc p Hc Hp) as (r & Hr & Hf & Hv); [lia|].
  exists r. unfold crc32_get. rewrite Hr. split_and!; [done..|]. rewrite Hv.
  etransitivity; [apply crc_register_cong; lia|].
  rewrite length_map, length_take_le by lia. by rewrite Z2Nat.id by lia.
Qed.

(** ** Witnesses *)

Definition demo_crc : crc_t := {| bitlen := 16; result := 0xFFFF; poly := 0x1021 |}.

Lemma crc_calc_remainder_witness :
  ∃ r crc', crc_calc demo_crc [0x3132; 0x3334] 2 = Some (r, crc') ∧ fits 16 r.
Proof.
  destruct (crc_calc_remainder demo_crc [0x3132; 0x3334] 2) as (r & c & Hc & Hf & _);
    [by_decide|simpl; lia|by_decide|].
  exists r, c. split; [exact Hc|exact Hf].
Defined.

Lemma crc_calc_detects_witness :
  ∃ r1 r2 c1 c2, crc_calc demo_crc [1; 2; 3] 3 = Some (r1, c1) ∧
    crc_calc demo_crc [1; 7; 3] 3 = Some (r2, c2) ∧ r1 ≠ r2.
Proof.
  exact (crc_calc_detects demo_crc [1] 2 7 [3] 3 ltac:(by_decide) eq_refl
    ltac:(by_decide) ltac:(lia) eq_refl).
Defined.

Lemma crc32_get_reflected_witness :
  crc32_get 0xffffffff [49; 50; 51; 52; 53; 54; 55; 56; 57] 9 = Some 0xCBF43926 ∧
  ∃ r, crc32_get 0xffffffff [49; 50; 51; 52; 53; 54; 55; 56; 57] 9
         = Some (Z.lxor r 0xffffffff) ∧ fits 32 r.
Proof.
  split; [vm_compute; reflexivity|].
  destruct (crc32_get_reflected 0xffffffff [49; 50; 51; 52; 53; 54; 55; 56; 57] 9)
    as (r & Hr & Hf & _); [by_decide|by_decide|simpl; lia|].
  exists r. split; [exact Hr|exact Hf].
Defined.
