(* ===== verification/Bufmgr.v ===== *)
(** * Bufmgr: the heap allocator (vsf_bufmgr_* of buffer.c)

    The heap is a region cut into blocks, each a header ([vsf_bufmgr_mcb_t],
    12 bytes on the 32-bit targets) followed by its buffer.  Headers are
    threaded on two lists sorted by size, [freed_list] and [allocated_list],
    whose heads are headers of static storage.  The configuration is the
    source's default one: no log, no pointer or buffer check, and the
    interrupt mask of [VSFCFG_THREAD_SAFTY] outside the model (the operations
    run to completion).  A link is represented by the address of the header it
    points into, as [sllist_get_container] computes it. *)

From stdpp Require Import sorting.
From S2P Require Import Prelude Chain.

(** [struct vsf_bufmgr_mcb_t]. *)
Record vsf_bufmgr_mcb_t := { mbuffer : Z; msize : Z; mnext : Z }.

Definition MCB_SIZE : Z := 12.
Definition VSF_BUFMGR_DEFAULT_ALIGN : Z := 4.

#[export] Instance mcb_Linked : Linked vsf_bufmgr_mcb_t.
Proof.
  refine {| nxt := mnext;
            set_nxt a n := {| mbuffer := mbuffer n; msize := msize n; mnext := a |} |};
    [done..|by intros []].
Defined.

Notation heap := (gmap Z vsf_bufmgr_mcb_t).

Section Bufmgr.
(** The addresses of the two list heads of [bufmgr]. *)
Context (freed_list allocated_list : Z).
Implicit Types (h : heap).

(** [active_mcb->buffer.size = size]. *)
Definition set_size h (mcb size : Z) : option heap :=
  m ← h !! mcb; Some (<[mcb := {| mbuffer := mbuffer m; msize := size; mnext := mnext m |}]> h).

(** The two stores that turn raw memory into a header; its link is whatever
    the memory held. *)
Definition set_buffer h (mcb buffer size : Z) : heap :=
  <[mcb := {| mbuffer := buffer; msize := size;
              mnext := default NULL (mnext <$> h !! mcb) |}]> h.

Fixpoint vsf_bufmgr_remove_loop (fuel : nat) h (prev_mcb active_mcb mcb : Z) : option heap :=
  match fuel with
  | O => None
  | S fuel =>
      if decide (active_mcb = NULL) then Some h
      else if decide (active_mcb = mcb) then
        next_mcb ← load_nxt h active_mcb;
        h ← (if decide (next_mcb ≠ NULL) then store_nxt h prev_mcb next_mcb
             else store_nxt h prev_mcb NULL);
        store_nxt h active_mcb NULL
      else
        next_mcb ← load_nxt h active_mcb;
        vsf_bufmgr_remove_loop fuel h active_mcb next_mcb mcb
  end.

Definition vsf_bufmgr_remove_mcb h (list mcb : Z) : option heap :=
  active_mcb ← load_nxt h list;
  vsf_bufmgr_remove_loop (fuel_of h) h list active_mcb mcb.

Fixpoint vsf_bufmgr_insert_loop (fuel : nat) h (prev_mcb active_mcb mcb : Z) : option heap :=
  match fuel with
  | O => None
  | S fuel =>
      if decide (active_mcb = NULL) then
        h ← store_nxt h prev_mcb mcb;
        store_nxt h mcb NULL
      else
        am ← h !! active_mcb;
        m ← h !! mcb;
        if msize m <=? msize am then
          h ← store_nxt h prev_mcb mcb;
          store_nxt h mcb active_mcb
        else
          next_mcb ← load_nxt h active_mcb;
          vsf_bufmgr_insert_loop fuel h active_mcb next_mcb mcb
  end.

Definition vsf_bufmgr_insert_mcb h (list mcb : Z) : option heap :=
  active_mcb ← load_nxt h list;
  vsf_bufmgr_insert_loop (fuel_of h) h list active_mcb mcb.

(** The scan of [vsf_bufmgr_merge_mcb]: the free neighbours after and before
    [mcb], NULL when there is none. *)
Fixpoint vsf_bufmgr_merge_loop (fuel : nat) h (active_mcb mcb next_mcb prev_mcb : Z)
  : option (Z * Z) :=
  match fuel with
  | O => None
  | S fuel =>
      if decide (active_mcb = NULL) then Some (next_mcb, prev_mcb)
      else
        m ← h !! mcb;
        am ← h !! active_mcb;
        let next_mcb := if decide (u32 (mbuffer m + msize m) = active_mcb)
                        then active_mcb else next_mcb in
        let prev_mcb := if decide (u32 (mbuffer am + msize am) = mcb)
                        then active_mcb else prev_mcb in
        vsf_bufmgr_merge_loop fuel h (nxt am) mcb next_mcb prev_mcb
  end.

Definition vsf_bufmgr_merge_mcb h (list mcb : Z) : option heap :=
  active_mcb ← load_nxt h list;
  '(next_mcb, prev_mcb) ← vsf_bufmgr_merge_loop (fuel_of h) h active_mcb mcb NULL NULL;
  if decide (next_mcb = NULL ∧ prev_mcb = NULL) then vsf_bufmgr_insert_mcb h list mcb
  else if decide (next_mcb ≠ NULL ∧ prev_mcb = NULL) then
    h ← vsf_bufmgr_remove_mcb h list next_mcb;
    m ← h !! mcb; nm ← h !! next_mcb;
    h ← set_size h mcb (u32 (msize m + (MCB_SIZE + msize nm)));
    vsf_bufmgr_insert_mcb h list mcb
  else if decide (next_mcb = NULL ∧ prev_mcb ≠ NULL) then
    h ← vsf_bufmgr_remove_mcb h list prev_mcb;
    m ← h !! mcb; pm ← h !! prev_mcb;
    h ← set_size h prev_mcb (u32 (msize pm + (MCB_SIZE + msize m)));
    vsf_bufmgr_insert_mcb h list prev_mcb
  else
    h ← vsf_bufmgr_remove_mcb h list prev_mcb;
    h ← vsf_bufmgr_remove_mcb h list next_mcb;
    m ← h !! mcb; pm ← h !! prev_mcb; nm ← h !! next_mcb;
    h ← set_size h prev_mcb (u32 (msize pm + (MCB_SIZE * 2 + msize m + msize nm)));
    vsf_bufmgr_insert_mcb h list prev_mcb.

Definition vsf_bufmgr_init h (buf size : Z) : option heap :=
  let head := {| mbuffer := NULL; msize := 0; mnext := NULL |} in
  let h := <[allocated_list := head]> (<[freed_list := head]> h) in
  let buffer := Z.land (u32 (buf + MCB_SIZE + 3)) 0xfffffffc in
  let h := <[buf := {| mbuffer := buffer; msize := u32 (u32 (buf + size) - buffer);
                       mnext := NULL |}]> h in
  store_nxt h freed_list buf.

(** The end of the body of the search of [vsf_bufmgr_malloc_aligned]: the part
    of [mcb_align] that is not needed becomes a free block. *)
Definition vsf_bufmgr_take_tail h (mcb_align size offset : Z) : option (Z * heap) :=
  ma ← h !! mcb_align;
  h ← (if u32 (size + offset + MCB_SIZE) <? msize ma then
         let mcb_tail := u32 (mbuffer ma + offset + size) in
         let h := set_buffer h mcb_tail (u32 (mcb_tail + MCB_SIZE))
                    (u32 (msize ma - offset - size - MCB_SIZE)) in
         h ← vsf_bufmgr_insert_mcb h freed_list mcb_tail;
         set_size h mcb_align (u32 (offset + size))
       else Some h);
  h ← vsf_bufmgr_insert_mcb h allocated_list mcb_align;
  ma ← h !! mcb_align;
  Some (u32 (mbuffer ma + offset), h).

(** The body of the search once [mcb] fits: a large enough padding is first
    cut off as a free block. *)
Definition vsf_bufmgr_take h (mcb size offset : Z) : option (Z * heap) :=
  if MCB_SIZE + VSF_BUFMGR_DEFAULT_ALIGN <=? offset then
    m ← h !! mcb;
    let mcb_align := u32 (mbuffer m + offset - MCB_SIZE) in
    let h := set_buffer h mcb_align (u32 (mcb_align + MCB_SIZE)) (u32 (msize m - offset)) in
    h ← vsf_bufmgr_remove_mcb h freed_list mcb;
    h ← set_size h mcb (u32 (offset - MCB_SIZE));
    h ← vsf_bufmgr_insert_mcb h freed_list mcb;
    vsf_bufmgr_take_tail h mcb_align size 0
  else
    h ← vsf_bufmgr_remove_mcb h freed_list mcb;
    vsf_bufmgr_take_tail h mcb size offset.

(** The padding that aligns a buffer. *)
Definition align_offset (buffer align : Z) : Z :=
  let offset := buffer mod align in if decide (offset = 0) then 0 else align - offset.

Fixpoint vsf_bufmgr_malloc_loop (fuel : nat) h (mcb size align : Z) : option (Z * heap) :=
  match fuel with
  | O => None
  | S fuel =>
      if decide (mcb = NULL) then Some (NULL, h)
      else
        m ← h !! mcb;
        let offset := align_offset (mbuffer m) align in
        if u32 (size + offset) <=? msize m then vsf_bufmgr_take h mcb size offset
        else vsf_bufmgr_malloc_loop fuel h (nxt m) size align
  end.

(** The size rounded up to a multiple of 4, in 32 bits. *)
Definition round_size (size : Z) : Z :=
  if decide (Z.land size 0x3 = 0) then size else u32 (Z.land size 0xfffffffc + 4).

Definition vsf_bufmgr_malloc_aligned h (size align : Z) : option (Z * heap) :=
  mcb ← load_nxt h freed_list;
  if decide (size = 0) then Some (NULL, h)
  else
    let align := if align <? VSF_BUFMGR_DEFAULT_ALIGN then VSF_BUFMGR_DEFAULT_ALIGN else align in
    vsf_bufmgr_malloc_loop (fuel_of h) h mcb (round_size size) align.

Definition vsf_bufmgr_malloc h (size : Z) : option (Z * heap) :=
  vsf_bufmgr_malloc_aligned h size 4.

Fixpoint vsf_bufmgr_free_loop (fuel : nat) h (mcb ptr : Z) : option heap :=
  match fuel with
  | O => None
  | S fuel =>
      if decide (mcb = NULL) then Some h
      else
        m ← h !! mcb;
        if (mbuffer m <=? ptr) && (ptr <? u32 (mbuffer m + msize m)) then
          h ← vsf_bufmgr_remove_mcb h allocated_list mcb;
          vsf_bufmgr_merge_mcb h freed_list mcb
        else vsf_bufmgr_free_loop fuel h (nxt m) ptr
  end.

Definition vsf_bufmgr_free h (ptr : Z) : option heap :=
  mcb ← load_nxt h allocated_list;
  vsf_bufmgr_free_loop (fuel_of h) h mcb ptr.

(** ** The two lists *)

(** The payload of the header at [a]: its buffer and size. *)
Definition payload h (a : Z) : option (Z * Z) := (λ m, (mbuffer m, msize m)) <$> h !! a.

Definition same_payload h h' : Prop := ∀ a, payload h' a = payload h a.

#[local] Instance same_payload_equiv : Equivalence same_payload.
Proof.
  split; [by intros ? ?|intros x y Hk a; by rewrite Hk|].
  intros x y z H1 H2 a. by rewrite H2.
Qed.

Definition hsize h (a : Z) : Z := default 0 (snd <$> payload h a).

Lemma hsize_eq h a m : h !! a = Some m → hsize h a = msize m.
Proof. intros Ha. unfold hsize, payload. by rewrite Ha. Qed.

Lemma hsize_same h h' a : same_payload h h' → hsize h' a = hsize h a.
Proof. intros Hp. unfold hsize. by rewrite Hp. Qed.

Definition by_size h (a b : Z) : Prop := hsize h a ≤ hsize h b.

Lemma same_payload_link h a x m :
  h !! a = Some m → same_payload h (<[a := set_nxt x m]> h).
Proof.
  intros Ha b. unfold payload. destruct (decide (a = b)) as [<-|].
  - by rewrite lookup_insert_eq, Ha.
  - by rewrite lookup_insert_ne.
Qed.

Lemma same_payload_dom h h' a : same_payload h h' → is_Some (h !! a) → is_Some (h' !! a).
Proof.
  intros Hp [m Hm]. specialize (Hp a). unfold payload in Hp. rewrite Hm in Hp.
  by destruct (h' !! a); [eexists|].
Qed.

Lemma store_null_or h prev next :
  (if decide (next ≠ NULL) then store_nxt h prev next else store_nxt h prev NULL)
  = store_nxt h prev next.
Proof. case_decide as Hd; [done|by rewrite Hd]. Qed.

(** Removing a member: it leaves the list and keeps its payload. *)
Lemma remove_loop_spec fuel h p k prev l1 mcb l2 :
  chain h p (k ++ prev :: l1 ++ mcb :: l2) → (length l1 < fuel)%nat →
  ∃ h', vsf_bufmgr_remove_loop fuel h prev (first (l1 ++ [mcb])) mcb = Some h' ∧
    chain h' p (k ++ prev :: l1 ++ l2) ∧ same_payload h h' ∧
    ∀ c, c ∉ k ++ prev :: l1 ++ mcb :: l2 → h' !! c = h !! c.
Proof.
  revert k prev l1. induction fuel as [|fuel IH]; intros k prev l1 Hc Hf; [lia|].
  pose proof (chain_NoDup _ _ _ Hc) as Hnd. simpl vsf_bufmgr_remove_loop.
  destruct l1 as [|a l1]; cbn [app first].
  - pose proof (chain_app_inv _ _ _ _ _ Hc) as (np & _ & _ & Hnp & Hl & _).
    pose proof Hl as (Heq & Hm0 & nm & Hnm & Hl2).
    rewrite decide_False, decide_True by done.
    rewrite (load_nxt_eq _ _ _ Hnm). bindr. rewrite store_null_or.
    rewrite (store_nxt_eq _ _ _ _ Hnp). bindr.
    assert (Hne : prev ≠ mcb).
    { apply NoDup_app in Hnd as (_ & _ & [Hx _]%NoDup_cons). set_solver. }
    assert (Hnm' : <[prev := set_nxt (nxt nm) np]> h !! mcb = Some nm)
      by by rewrite lookup_insert_ne.
    rewrite (store_nxt_eq _ _ _ _ Hnm'). eexists. split; [done|]. split_and!.
    + apply lseg_insert_notin.
      * apply NoDup_app in Hnd as (_ & Hd & [Hx [Hy _]%NoDup_cons]%NoDup_cons).
        intros [Hk|[->|Hin]%elem_of_cons]%elem_of_app; [|done..].
        by apply (Hd mcb Hk); set_solver.
      * by apply (chain_unlink h p k prev mcb l2 np nm).
    + etrans; by apply same_payload_link.
    + intros c Hcn. rewrite !lookup_insert_ne by set_solver. done.
  - assert (Hne : a ≠ mcb).
    { apply NoDup_app in Hnd as (_ & _ & [_ [Hx _]%NoDup_cons]%NoDup_cons). set_solver. }
    assert (Hc' : chain h p ((k ++ [prev]) ++ a :: l1 ++ mcb :: l2)) by by rewrite <- app_assoc.
    pose proof (chain_app_inv _ _ _ _ _ Hc') as (na & _ & Ha0 & Hna & Hl & _).
    rewrite !decide_False by done. rewrite (load_nxt_eq _ _ _ Hna). bindr.
    assert (Hfirst : nxt na = first (l1 ++ [mcb])).
    { rewrite (chain_first _ _ _ Hl). by destruct l1. }
    rewrite Hfirst. destruct (IH (k ++ [prev]) a l1 Hc') as (h' & -> & Hc2 & Hp & Hfr);
      [simpl in Hf; lia|].
    exists h'. rewrite <- app_assoc in Hc2, Hfr. by split_and!.
Qed.

Lemma remove_mcb_spec h list l1 mcb l2 :
  chain h list (list :: l1 ++ mcb :: l2) →
  ∃ h', vsf_bufmgr_remove_mcb h list mcb = Some h' ∧
    chain h' list (list :: l1 ++ l2) ∧ same_payload h h' ∧
    ∀ c, c ∉ list :: l1 ++ mcb :: l2 → h' !! c = h !! c.
Proof.
  intros Hc. unfold vsf_bufmgr_remove_mcb.
  pose proof Hc as (_ & _ & n & Hn & Hl). rewrite (load_nxt_eq _ _ _ Hn). bindr.
  assert (Hfirst : nxt n = first (l1 ++ [mcb])).
  { rewrite (chain_first _ _ _ Hl). by destruct l1. }
  rewrite Hfirst. apply (remove_loop_spec (fuel_of h) h list [] list l1 mcb l2); [done|].
  apply chain_fuel in Hc. simpl in Hc. rewrite length_app in Hc. lia.
Qed.

(** Where an insertion lands. *)
Fixpoint insert_by_size h (mcb : Z) (l : list Z) : list Z :=
  match l with
  | [] => [mcb]
  | a :: l' => if decide (hsize h mcb ≤ hsize h a) then mcb :: l
               else a :: insert_by_size h mcb l'
  end.

Lemma insert_by_size_perm h mcb l : insert_by_size h mcb l ≡ₚ mcb :: l.
Proof.
  induction l as [|a l IH]; simpl; [done|]. case_decide; [done|].
  rewrite IH. apply Permutation_swap.
Qed.

Lemma insert_by_size_sorted h mcb l :
  StronglySorted (by_size h) l → StronglySorted (by_size h) (insert_by_size h mcb l).
Proof.
  induction 1 as [|a l Hs IH Ha]; simpl; [by repeat constructor|].
  case_decide as Hd.
  - constructor; [by constructor|]. constructor; [done|].
    eapply Forall_impl; [exact Ha|]. unfold by_size. intros. lia.
  - constructor; [done|]. rewrite insert_by_size_perm. constructor; [unfold by_size; lia|done].
Qed.

Lemma insert_by_size_same h h' mcb l :
  same_payload h h' → insert_by_size h' mcb l = insert_by_size h mcb l.
Proof.
  intros Hp. induction l as [|a l IH]; simpl; [done|].
  by rewrite !(hsize_same _ _ _ Hp), IH.
Qed.

Lemma by_size_same h h' l :
  (∀ a, a ∈ l → hsize h' a = hsize h a) →
  StronglySorted (by_size h) l → StronglySorted (by_size h') l.
Proof.
  intros Hp Hs. induction Hs as [|a l Hs IH Ha]; constructor.
  - apply IH. intros b Hb. apply Hp. set_solver.
  - apply Forall_forall. intros b Hb. rewrite Forall_forall in Ha. specialize (Ha b Hb).
    unfold by_size in *. rewrite !Hp by set_solver. done.
Qed.

Lemma insert_loop_spec fuel h p k prev l mcb m :
  chain h p (k ++ prev :: l) → h !! mcb = Some m → mcb ≠ NULL → mcb ∉ k ++ prev :: l →
  (length l < fuel)%nat →
  ∃ h', vsf_bufmgr_insert_loop fuel h prev (first l) mcb = Some h' ∧
    chain h' p (k ++ prev :: insert_by_size h mcb l) ∧ same_payload h h' ∧
    ∀ c, c ∉ mcb :: k ++ prev :: l → h' !! c = h !! c.
Proof.
  revert k prev l. induction fuel as [|fuel IH]; intros k prev l Hc Hm Hm0 Hfr Hf; [lia|].
  pose proof (chain_app_inv _ _ _ _ _ Hc) as (np & _ & Hp0 & Hnp & Hl & _).
  pose proof (chain_first _ _ _ Hl) as Hfst.
  assert (Hne : prev ≠ mcb) by set_solver.
  assert (Hm' : <[prev := set_nxt mcb np]> h !! mcb = Some m) by by rewrite lookup_insert_ne.
  assert (Hlink : ∃ h', (h ← store_nxt h prev mcb; store_nxt h mcb (first l)) = Some h' ∧
    chain h' p (k ++ prev :: mcb :: l) ∧ same_payload h h' ∧
    ∀ c, c ∉ mcb :: k ++ prev :: l → h' !! c = h !! c).
  { rewrite (store_nxt_eq _ _ _ _ Hnp). bindr. rewrite (store_nxt_eq _ _ _ _ Hm').
    eexists. split; [done|]. split_and!.
    - rewrite insert_insert_ne by done. rewrite <- Hfst.
      by apply (chain_link h p k prev l mcb np m).
    - etrans; by apply same_payload_link.
    - intros c Hcn. rewrite !lookup_insert_ne by set_solver. done. }
  simpl vsf_bufmgr_insert_loop. destruct l as [|a l]; cbn [first].
  - rewrite decide_True by done. apply Hlink.
  - pose proof Hl as (_ & Ha0 & na & Hna & Hl').
    rewrite decide_False by done. rewrite Hna, Hm. bindr. simpl insert_by_size.
    rewrite (hsize_eq h mcb m), (hsize_eq h a na) by done.
    destruct (Z.leb_spec (msize m) (msize na)) as [Hle|Hgt].
    + rewrite decide_True by done. apply Hlink.
    + rewrite decide_False by lia. rewrite (load_nxt_eq _ _ _ Hna). bindr.
      rewrite (chain_first _ _ _ Hl').
      assert (Hc' : chain h p ((k ++ [prev]) ++ a :: l)) by by rewrite <- app_assoc.
      destruct (IH (k ++ [prev]) a l Hc') as (h' & -> & Hc2 & Hp & Hfr2); try done.
      { rewrite <- app_assoc. done. }
      { simpl in Hf. lia. }
      exists h'. rewrite <- app_assoc in Hc2, Hfr2. by split_and!.
Qed.

Lemma insert_mcb_spec h list l mcb m :
  chain h list (list :: l) → h !! mcb = Some m → mcb ≠ NULL → mcb ∉ list :: l →
  ∃ h', vsf_bufmgr_insert_mcb h list mcb = Some h' ∧
    chain h' list (list :: insert_by_size h mcb l) ∧ same_payload h h' ∧
    ∀ c, c ∉ mcb :: list :: l → h' !! c = h !! c.
Proof.
  intros Hc Hm Hm0 Hfr. unfold vsf_bufmgr_insert_mcb.
  pose proof Hc as (_ & _ & n & Hn & Hl). rewrite (load_nxt_eq _ _ _ Hn). bindr.
  rewrite (chain_first _ _ _ Hl).
  apply (insert_loop_spec (fuel_of h) h list [] list l mcb m); try done.
  apply chain_fuel in Hc. simpl in Hc. lia.
Qed.

(** ** The layout of the heap

    [Pend] marks a block that an operation has taken off its list. *)

Inductive status := Free | Used | Pend.

#[local] Instance status_eq_dec : EqDecision status.
Proof. solve_decision. Defined.

Record blk := Blk { b_addr : Z; b_size : Z; b_st : status }.

Definition b_end (b : blk) : Z := b_addr b + MCB_SIZE + b_size b.

(** The blocks cover [base, lim) without gap or overlap, each with an aligned
    header. *)
Fixpoint tiles (base : Z) (bs : list blk) (lim : Z) : Prop :=
  match bs with
  | [] => base = lim
  | b :: bs => b_addr b = base ∧ 0 ≤ b_size b ∧ base mod 4 = 0 ∧ tiles (b_end b) bs lim
  end.

Definition addrs (st : status) (bs : list blk) : list Z :=
  b_addr <$> filter (λ b, b_st b = st) bs.

Definition head_of (st : status) : Z :=
  match st with Free => freed_list | Used => allocated_list | Pend => NULL end.

(** The list of status [st] holds exactly the blocks of that status, by size. *)
Definition list_rep h (st : status) (bs : list blk) : Prop :=
  ∃ l, chain h (head_of st) (head_of st :: l) ∧ l ≡ₚ addrs st bs ∧
       StronglySorted (by_size h) l.

Record rep h (base : Z) (bs : list blk) (lim : Z) : Prop := {
  rep_tiles : tiles base bs lim;
  rep_bounds : 0 < base ∧ lim < 4294967296;
  rep_heads : freed_list ≠ allocated_list ∧
    ∀ st, st ≠ Pend → head_of st < base ∨ lim ≤ head_of st;
  rep_payload : ∀ b, b ∈ bs → b_st b ≠ Pend →
    payload h (b_addr b) = Some (b_addr b + MCB_SIZE, b_size b);
  rep_header : ∀ b, b ∈ bs → is_Some (h !! b_addr b);
  rep_lists : ∀ st, st ≠ Pend → list_rep h st bs }.

Lemma tiles_app base bs1 bs2 lim :
  tiles base (bs1 ++ bs2) lim ↔ ∃ mid, tiles base bs1 mid ∧ tiles mid bs2 lim.
Proof.
  revert base. induction bs1 as [|b bs1 IH]; intros base; simpl.
  - naive_solver.
  - rewrite IH. naive_solver.
Qed.

Lemma tiles_le base bs lim : tiles base bs lim → base ≤ lim.
Proof.
  revert base. induction bs as [|b bs IH]; intros base; simpl; [lia|].
  intros (<- & Hs & _ & Ht%IH). unfold b_end, MCB_SIZE in Ht. lia.
Qed.

Lemma tiles_in base bs lim b :
  tiles base bs lim → b ∈ bs →
  base ≤ b_addr b ∧ b_end b ≤ lim ∧ 0 ≤ b_size b ∧ b_addr b mod 4 = 0.
Proof.
  revert base. induction bs as [|c bs IH]; intros base; simpl; [by intros _ ?%not_elem_of_nil|].
  intros (<- & Hs & Hm & Ht) [->|Hb]%elem_of_cons.
  - apply tiles_le in Ht. lia.
  - pose proof (IH _ Ht Hb). unfold b_end, MCB_SIZE in *. lia.
Qed.

Lemma tiles_sep base bs lim b c :
  tiles base bs lim → b ∈ bs → c ∈ bs → b = c ∨ b_end b ≤ b_addr c ∨ b_end c ≤ b_addr b.
Proof.
  revert base. induction bs as [|d bs IH]; intros base; simpl; [by intros _ ?%not_elem_of_nil|].
  intros (<- & Hs & Hm & Ht) [->|Hb]%elem_of_cons [->|Hc]%elem_of_cons; eauto.
  - pose proof (tiles_in _ _ _ _ Ht Hc). lia.
  - pose proof (tiles_in _ _ _ _ Ht Hb). lia.
Qed.

Lemma tiles_NoDup base bs lim : tiles base bs lim → NoDup (b_addr <$> bs).
Proof.
  revert base. induction bs as [|b bs IH]; intros base; simpl; [constructor|].
  intros (<- & Hs & Hm & Ht). constructor; [|by eapply IH].
  intros (c & Heq & Hc)%list_elem_of_fmap. pose proof (tiles_in _ _ _ _ Ht Hc).
  unfold b_end, MCB_SIZE in *. lia.
Qed.

Lemma addrs_app st bs1 bs2 : addrs st (bs1 ++ bs2) = addrs st bs1 ++ addrs st bs2.
Proof. unfold addrs. by rewrite filter_app, fmap_app. Qed.

Lemma addrs_cons_in st a n bs : addrs st (Blk a n st :: bs) = a :: addrs st bs.
Proof. unfold addrs. by rewrite filter_cons_True. Qed.

Lemma addrs_cons_out st st' a n bs : st' ≠ st → addrs st (Blk a n st' :: bs) = addrs st bs.
Proof. intros. unfold addrs. by rewrite filter_cons_False. Qed.

Lemma addrs_elem st bs a : a ∈ addrs st bs ↔ ∃ b, b ∈ bs ∧ b_st b = st ∧ b_addr b = a.
Proof.
  unfold addrs. rewrite list_elem_of_fmap. setoid_rewrite list_elem_of_filter. naive_solver.
Qed.

(** The heap may change at addresses no list and no listed block uses. *)
Lemma list_rep_frame h h' st bs :
  (∀ b, b ∈ bs → b_st b = st → h' !! b_addr b = h !! b_addr b) →
  h' !! head_of st = h !! head_of st → list_rep h st bs → list_rep h' st bs.
Proof.
  intros Hb Hh (l & Hc & Hp & Hs). exists l.
  assert (Hl : ∀ a, a ∈ l → h' !! a = h !! a).
  { intros a. rewrite Hp, addrs_elem. intros (b & Hin & Hst & <-). auto. }
  split_and!; [|done|].
  - eapply lseg_frame; [|exact Hc]. intros a n Ha Hn. exists n. split; [|done].
    apply elem_of_cons in Ha as [->|Ha]; [by rewrite Hh|by rewrite Hl].
  - eapply by_size_same; [|exact Hs]. intros a Ha. unfold hsize, payload. by rewrite Hl.
Qed.

Section Rep.
Context (h : heap) (base lim : Z).

Lemma rep_frame h' bs :
  rep h base bs lim →
  (∀ b, b ∈ bs → b_st b ≠ Pend → h' !! b_addr b = h !! b_addr b) →
  (∀ b, b ∈ bs → is_Some (h' !! b_addr b)) →
  (∀ st, st ≠ Pend → h' !! head_of st = h !! head_of st) →
  rep h' base bs lim.
Proof using.
  intros [Ht Hbd Hhd Hpl Hhr Hls] Hb Hd Hh. split; try done.
  - intros b Hin Hst. unfold payload. rewrite Hb by done. by apply Hpl.
  - intros st Hst. apply (list_rep_frame h); [|by apply Hh|by apply Hls].
    intros b Hin <-. by apply Hb.
Qed.

(** Blocks and list heads do not overlap. *)
Lemma rep_head_addr bs st b :
  rep h base bs lim → st ≠ Pend → b ∈ bs → head_of st ≠ b_addr b.
Proof using.
  intros Hr Hst Hb Heq. destruct (proj2 (rep_heads _ _ _ _ Hr) st Hst) as [Hh|Hh];
    pose proof (tiles_in _ _ _ _ (rep_tiles _ _ _ _ Hr) Hb);
    unfold b_end, MCB_SIZE in *; lia.
Qed.

(** A store to an address that is neither a header nor a list head. *)
Lemma rep_write_fresh bs a m :
  rep h base bs lim → (∀ b, b ∈ bs → b_addr b ≠ a) → base ≤ a < lim →
  rep (<[a := m]> h) base bs lim.
Proof using.
  intros Hr Ha Hin. eapply rep_frame; [exact Hr|..].
  - intros b Hb _. by rewrite lookup_insert_ne by (apply not_eq_sym, Ha, Hb).
  - intros b Hb. rewrite lookup_insert_ne by (apply not_eq_sym, Ha, Hb).
    by eapply rep_header.
  - intros st Hst. apply lookup_insert_ne.
    destruct (proj2 (rep_heads _ _ _ _ Hr) st Hst); lia.
Qed.
End Rep.

Lemma middle_in (b : blk) pre post : b ∈ pre ++ b :: post.
Proof. set_solver. Qed.

Lemma rep_other_addr h base pre b post lim c :
  rep h base (pre ++ b :: post) lim → c ∈ pre ++ post → b_addr c ≠ b_addr b.
Proof.
  intros Hr Hc Heq. pose proof (tiles_NoDup _ _ _ (rep_tiles _ _ _ _ Hr)) as Hnd.
  rewrite fmap_app, fmap_cons in Hnd.
  apply NoDup_app in Hnd as (_ & Hd & [Hx _]%NoDup_cons).
  apply elem_of_app in Hc as [Hc|Hc].
  - apply (Hd (b_addr b)); [rewrite <- Heq; by apply list_elem_of_fmap_2|set_solver].
  - apply Hx. rewrite <- Heq. by apply list_elem_of_fmap_2.
Qed.

Lemma tiles_status base pre a n s1 s2 post lim :
  tiles base (pre ++ Blk a n s1 :: post) lim → tiles base (pre ++ Blk a n s2 :: post) lim.
Proof. rewrite !tiles_app. done. Qed.

Lemma addrs_middle st pre a n s post :
  addrs st (pre ++ Blk a n s :: post) ≡ₚ
    (if decide (s = st) then [a] else []) ++ addrs st (pre ++ post).
Proof.
  rewrite !addrs_app. case_decide as Hs.
  - subst. rewrite addrs_cons_in. by rewrite <- Permutation_middle.
  - by rewrite addrs_cons_out.
Qed.

(** A block that changes status, by an operation on the list [st] alone. *)
Lemma rep_move h h' base pre a n s1 s2 st post lim :
  rep h base (pre ++ Blk a n s1 :: post) lim → st ≠ Pend →
  (s1 = st ∧ s2 = Pend ∨ s1 = Pend ∧ s2 = st) →
  payload h a = Some (a + MCB_SIZE, n) → same_payload h h' →
  (∀ c, c ∉ a :: head_of st :: addrs st (pre ++ Blk a n s1 :: post) → h' !! c = h !! c) →
  list_rep h' st (pre ++ Blk a n s2 :: post) →
  rep h' base (pre ++ Blk a n s2 :: post) lim.
Proof.
  intros Hr Hst Hs Hpa Hp Hfr Hl. split.
  - eapply tiles_status, rep_tiles, Hr.
  - apply Hr.
  - apply Hr.
  - intros b Hb Hbp. rewrite Hp. apply elem_of_app in Hb as [Hb|[->|Hb]%elem_of_cons]; [|done|];
      eapply rep_payload; eauto; set_solver.
  - intros b Hb. eapply same_payload_dom; [done|].
    apply elem_of_app in Hb as [Hb|[->|Hb]%elem_of_cons].
    + eapply rep_header; [exact Hr|set_solver].
    + eapply (rep_header _ _ _ _ Hr (Blk a n s1)), middle_in.
    + eapply rep_header; [exact Hr|set_solver].
  - intros st' Hst'. destruct (decide (st' = st)) as [->|Hne]; [done|].
    assert (Hl' : list_rep h' st' (pre ++ Blk a n s1 :: post)).
    { eapply list_rep_frame; [| |by eapply rep_lists].
      - intros b Hb Hbs. apply Hfr. intros Hin.
        assert (Ha : b_addr b = a → False).
        { intros Heq. assert (Hbb : b = Blk a n s1); [|subst b; simpl in Hbs; naive_solver].
          destruct (tiles_sep _ _ _ b (Blk a n s1) (rep_tiles _ _ _ _ Hr) Hb (middle_in _ _ _))
            as [?|Hsep]; [done|].
          pose proof (tiles_in _ _ _ _ (rep_tiles _ _ _ _ Hr) Hb).
          pose proof (tiles_in _ _ _ _ (rep_tiles _ _ _ _ Hr) (middle_in (Blk a n s1) pre post)).
          unfold b_end, MCB_SIZE in *. simpl in *. lia. }
        apply elem_of_cons in Hin as [?|[Hh|Hin]%elem_of_cons]; [done| |].
        + by apply (rep_head_addr _ _ _ _ st b Hr).
        + apply addrs_elem in Hin as (c & Hc & Hcs & Hcb).
          destruct (tiles_sep _ _ _ b c (rep_tiles _ _ _ _ Hr) Hb Hc) as [?|Hsep]; [congruence|].
          pose proof (tiles_in _ _ _ _ (rep_tiles _ _ _ _ Hr) Hb).
          pose proof (tiles_in _ _ _ _ (rep_tiles _ _ _ _ Hr) Hc).
          unfold b_end, MCB_SIZE in *. lia.
      - apply Hfr. intros [Heq|[Heq|Hin]%elem_of_cons]%elem_of_cons.
        + by apply (rep_head_addr _ _ _ _ st' _ Hr Hst' (middle_in (Blk a n s1) pre post)).
        + pose proof (rep_heads _ _ _ _ Hr) as [Hd _]. destruct st, st'; simpl in Heq; congruence.
        + apply addrs_elem in Hin as (c & Hc & _ & Heq).
          by apply (rep_head_addr _ _ _ _ st' c Hr). }
    destruct Hl' as (l & Hc & Hpm & Hso). exists l. split_and!; try done.
    rewrite Hpm, !addrs_middle. rewrite !decide_False by naive_solver. done.
Qed.

(** Taking a block off its list. *)
Lemma rep_take h base pre a n st post lim :
  rep h base (pre ++ Blk a n st :: post) lim → st ≠ Pend →
  ∃ h', vsf_bufmgr_remove_mcb h (head_of st) a = Some h' ∧
    rep h' base (pre ++ Blk a n Pend :: post) lim ∧ same_payload h h'.
Proof.
  intros Hr Hst. destruct (rep_lists _ _ _ _ Hr st Hst) as (l & Hc & Hpm & Hso).
  assert (Hin : a ∈ l) by (rewrite Hpm, addrs_middle, decide_True by done; set_solver).
  apply list_elem_of_split in Hin as (l1 & l2 & ->).
  destruct (remove_mcb_spec h (head_of st) l1 a l2 Hc) as (h' & Hrm & Hc' & Hp & Hfr).
  exists h'. split; [done|]. split; [|done].
  eapply (rep_move h h' base pre a n st Pend st); try done; [by left| | |].
  - apply (rep_payload _ _ _ _ Hr (Blk a n st)); [apply middle_in|done].
  - intros c Hcn. apply Hfr. contradict Hcn.
    apply elem_of_cons in Hcn as [->|Hcn]; [set_solver|].
    apply list_elem_of_further, list_elem_of_further. by rewrite <- Hpm.
  - exists (l1 ++ l2). split_and!; [done| |].
    + rewrite addrs_middle, decide_True in Hpm by done.
      rewrite addrs_middle, decide_False by naive_solver.
      apply (Permutation_cons_inv (a := a)). simpl in Hpm |- *. rewrite <- Hpm.
      by rewrite Permutation_middle.
    + eapply by_size_same; [intros; by apply hsize_same|].
      clear -Hso. induction l1 as [|x l1 IH]; simpl in *; [by inversion Hso|].
      inversion Hso as [|?? Hs Hf]; subst. constructor; [auto|].
      rewrite Forall_app in Hf |- *. destruct Hf as [? [_ ?]%Forall_cons]. done.
Qed.

(** Putting a pending block, whose header is filled in, on a list. *)
Lemma rep_put h base pre a n st post lim :
  rep h base (pre ++ Blk a n Pend :: post) lim → st ≠ Pend →
  payload h a = Some (a + MCB_SIZE, n) →
  ∃ h', vsf_bufmgr_insert_mcb h (head_of st) a = Some h' ∧
    rep h' base (pre ++ Blk a n st :: post) lim ∧ same_payload h h'.
Proof.
  intros Hr Hst Hpa. destruct (rep_lists _ _ _ _ Hr st Hst) as (l & Hc & Hpm & Hso).
  destruct (rep_header _ _ _ _ Hr (Blk a n Pend) (middle_in _ _ _)) as [m Hm]. simpl in Hm.
  pose proof (tiles_in _ _ _ _ (rep_tiles _ _ _ _ Hr) (middle_in (Blk a n Pend) pre post)) as Hin.
  pose proof (rep_bounds _ _ _ _ Hr) as Hbd. unfold b_end, MCB_SIZE in Hin. simpl in Hin.
  destruct (insert_mcb_spec h (head_of st) l a m) as (h' & Hi & Hc' & Hp & Hfr); try done.
  { unfold NULL. lia. }
  { intros [Heq|Hal]%elem_of_cons.
    - by apply (rep_head_addr _ _ _ _ st _ Hr Hst (middle_in (Blk a n Pend) pre post)).
    - rewrite Hpm, addrs_middle, decide_False in Hal by naive_solver.
      simpl in Hal. apply addrs_elem in Hal as (c & Hcin & _ & Heq).
      by apply (rep_other_addr _ _ _ _ _ _ c Hr). }
  exists h'. split; [done|]. split; [|done].
  eapply (rep_move h h' base pre a n Pend st st); try done; [by right| |].
  - intros c Hcn. apply Hfr. contradict Hcn.
    apply elem_of_cons in Hcn as [->|[->|Hcn]%elem_of_cons]; [set_solver..|].
    apply list_elem_of_further, list_elem_of_further. by rewrite <- Hpm.
  - exists (insert_by_size h a l). split_and!; [done| |].
    + rewrite insert_by_size_perm, Hpm, !addrs_middle.
      rewrite (decide_False (P := Pend = st)) by naive_solver. by rewrite decide_True by done.
    + eapply by_size_same; [intros; by apply hsize_same|]. by apply insert_by_size_sorted.
Qed.

(** Cutting and joining pending blocks. *)
Lemma rep_cut h base pre a n k post lim :
  rep h base (pre ++ Blk a n Pend :: post) lim →
  0 ≤ k → k + MCB_SIZE ≤ n → (a + MCB_SIZE + k) mod 4 = 0 →
  is_Some (h !! (a + MCB_SIZE + k)) →
  rep h base (pre ++ Blk a k Pend :: Blk (a + MCB_SIZE + k) (n - k - MCB_SIZE) Pend :: post) lim.
Proof.
  intros [Ht Hbd Hhd Hpl Hhr Hls] Hk Hkn Hm Hs. split; try done.
  - apply tiles_app in Ht as (mid & H1 & H2). apply tiles_app. exists mid. split; [done|].
    simpl in *. unfold b_end in *. simpl in *. destruct H2 as (<- & ? & ? & H2).
    split_and!; try lia; [done..|]. by replace (_ + (n - k - MCB_SIZE)) with (a + MCB_SIZE + n) by lia.
  - intros b Hb Hbp. apply Hpl; [|done].
    apply elem_of_app in Hb as [Hb|[->|[->|Hb]%elem_of_cons]%elem_of_cons]; [set_solver|done..|set_solver].
  - intros b Hb.
    apply elem_of_app in Hb as [Hb|[->|[->|Hb]%elem_of_cons]%elem_of_cons];
      [apply Hhr; set_solver| |done|apply Hhr; set_solver].
    apply (Hhr (Blk a n Pend)), middle_in.
  - intros st Hst. destruct (Hls st Hst) as (l & Hc & Hp & Hso). exists l. split_and!; try done.
    by rewrite Hp, !addrs_middle, !decide_False by naive_solver.
Qed.

Lemma rep_join h base pre a n k post lim :
  rep h base (pre ++ Blk a n Pend :: Blk (a + MCB_SIZE + n) k Pend :: post) lim →
  rep h base (pre ++ Blk a (n + MCB_SIZE + k) Pend :: post) lim.
Proof.
  intros [Ht Hbd Hhd Hpl Hhr Hls]. split; try done.
  - apply tiles_app in Ht as (mid & H1 & H2). apply tiles_app. exists mid. split; [done|].
    simpl in *. unfold b_end in *. simpl in *. destruct H2 as (<- & ? & ? & _ & ? & ? & H2).
    split_and!; try done; [unfold MCB_SIZE; lia|].
    by replace (a + MCB_SIZE + (n + MCB_SIZE + k)) with (a + MCB_SIZE + n + MCB_SIZE + k) by lia.
  - intros b Hb Hbp. apply Hpl; [|done].
    apply elem_of_app in Hb as [Hb|[->|Hb]%elem_of_cons]; [set_solver|done|set_solver].
  - intros b Hb.
    apply elem_of_app in Hb as [Hb|[->|Hb]%elem_of_cons];
      [apply Hhr; set_solver| |apply Hhr; set_solver].
    apply (Hhr (Blk a n Pend)), middle_in.
  - intros st Hst. destruct (Hls st Hst) as (l & Hc & Hp & Hso). exists l. split_and!; try done.
    by rewrite Hp, !addrs_middle, !decide_False by naive_solver.
Qed.

(** Rewriting the header of a pending block. *)
Lemma rep_fill h base pre a n post lim m :
  rep h base (pre ++ Blk a n Pend :: post) lim →
  rep (<[a := m]> h) base (pre ++ Blk a n Pend :: post) lim.
Proof.
  intros Hr. eapply rep_frame; [exact Hr|..].
  - intros b Hb Hbp. rewrite lookup_insert_ne; [done|]. apply not_eq_sym.
    apply (rep_other_addr _ _ _ (Blk a n Pend) _ _ b Hr).
    apply elem_of_app in Hb as [Hb|[->|Hb]%elem_of_cons]; [set_solver|done|set_solver].
  - intros b Hb. destruct (decide (a = b_addr b)) as [<-|].
    + by rewrite lookup_insert_eq.
    + rewrite lookup_insert_ne by done. by eapply rep_header.
  - intros st Hst. apply lookup_insert_ne. apply not_eq_sym.
    by apply (rep_head_addr _ _ _ _ st _ Hr Hst (middle_in (Blk a n Pend) pre post)).
Qed.

(** ** Allocation *)

(** What a free block of [n] bytes at [a] becomes when [size] bytes are taken
    from it after [offset] bytes of padding. *)
Definition carve_tail (a n offset size : Z) : list blk :=
  if size + offset + MCB_SIZE <? n then
    [Blk a (offset + size) Used;
     Blk (a + MCB_SIZE + (offset + size)) (n - (offset + size) - MCB_SIZE) Free]
  else [Blk a n Used].

Definition carve (a n offset size : Z) : list blk :=
  if MCB_SIZE + VSF_BUFMGR_DEFAULT_ALIGN <=? offset then
    Blk a (offset - MCB_SIZE) Free :: carve_tail (a + offset) (n - offset) 0 size
  else carve_tail a n offset size.

Lemma payload_insert h a b s n :
  payload (<[a := {| mbuffer := b; msize := s; mnext := n |}]> h) a = Some (b, s).
Proof. unfold payload. by rewrite lookup_insert_eq. Qed.

Lemma payload_insert_ne h a c m : a ≠ c → payload (<[a := m]> h) c = payload h c.
Proof. intros. unfold payload. by rewrite lookup_insert_ne. Qed.

Lemma payload_lookup h a b s :
  payload h a = Some (b, s) → ∃ x, h !! a = Some {| mbuffer := b; msize := s; mnext := x |}.
Proof.
  unfold payload. intros ([b' s' x] & Hm & Heq)%fmap_Some. simplify_eq/=. by exists x.
Qed.

(** The numbers of one block of a represented heap. *)
Lemma rep_range h base pre a n st post lim :
  rep h base (pre ++ Blk a n st :: post) lim →
  0 < a ∧ 0 ≤ n ∧ a mod 4 = 0 ∧ a + MCB_SIZE + n < 4294967296 ∧ base ≤ a ∧
  a + MCB_SIZE + n ≤ lim.
Proof.
  intros Hr. pose proof (tiles_in _ _ _ _ (rep_tiles _ _ _ _ Hr) (middle_in (Blk a n st) pre post)).
  pose proof (rep_bounds _ _ _ _ Hr). unfold b_end in *. simpl in *. lia.
Qed.

(** An address inside the buffer of a block is no header. *)
Lemma rep_inside h base pre a n st post lim x b :
  rep h base (pre ++ Blk a n st :: post) lim → a < x < a + MCB_SIZE + n →
  b ∈ pre ++ Blk a n st :: post → b_addr b ≠ x.
Proof.
  intros Hr Hx Hb <-. pose proof (middle_in (Blk a n st) pre post) as Hm.
  pose proof (tiles_in _ _ _ _ (rep_tiles _ _ _ _ Hr) Hb).
  destruct (tiles_sep _ _ _ _ _ (rep_tiles _ _ _ _ Hr) Hb Hm) as [->|Hs];
    unfold b_end, MCB_SIZE in *; simpl in *; lia.
Qed.

Lemma app_cons_assoc {A} (pre : list A) b bs : pre ++ b :: bs = (pre ++ [b]) ++ bs.
Proof. by rewrite <- app_assoc. Qed.

Lemma take_tail_spec h base pre a n post lim size offset :
  rep h base (pre ++ Blk a n Pend :: post) lim →
  payload h a = Some (a + MCB_SIZE, n) →
  0 ≤ size → size mod 4 = 0 → 0 ≤ offset → (a + MCB_SIZE + offset) mod 4 = 0 →
  size + offset ≤ n →
  ∃ h', vsf_bufmgr_take_tail h a size offset = Some (a + MCB_SIZE + offset, h') ∧
    rep h' base (pre ++ carve_tail a n offset size ++ post) lim.
Proof.
  intros Hr Hpa Hs Hs4 Ho Ho4 Hfit. pose proof (rep_range _ _ _ _ _ _ _ _ Hr) as Hra.
  destruct (payload_lookup _ _ _ _ Hpa) as [x Hx].
  unfold vsf_bufmgr_take_tail, carve_tail. rewrite Hx. bindr. cbn [msize mbuffer].
  unfold MCB_SIZE in Hra. rewrite (u32_small (size + offset + MCB_SIZE)) by (unfold MCB_SIZE; lia).
  destruct (Z.ltb_spec (size + offset + MCB_SIZE) n) as [Hlt|Hge].
  - unfold MCB_SIZE in Hlt.
    set (t := a + MCB_SIZE + (offset + size)).
    replace (u32 (a + MCB_SIZE + offset + size)) with t
      by (unfold t, MCB_SIZE; rewrite u32_small; lia).
    replace (u32 (t + MCB_SIZE)) with (t + MCB_SIZE) by (unfold t, MCB_SIZE; rewrite u32_small; lia).
    replace (u32 (n - offset - size - MCB_SIZE)) with (n - (offset + size) - MCB_SIZE)
      by (unfold MCB_SIZE; rewrite u32_small; lia).
    set (h1 := set_buffer h t (t + MCB_SIZE) (n - (offset + size) - MCB_SIZE)).
    assert (Hr1 : rep h1 base (pre ++ Blk a n Pend :: post) lim).
    { apply rep_write_fresh; [done| |unfold t, MCB_SIZE in *; lia].
      intros b Hb. eapply rep_inside; [exact Hr|unfold t, MCB_SIZE; lia|done]. }
    assert (Hta : t ≠ a) by (unfold t, MCB_SIZE; lia).
    apply (rep_cut h1 base pre a n (offset + size) post lim) in Hr1; [|lia|unfold MCB_SIZE; lia|
      unfold MCB_SIZE in *; Z.div_mod_to_equations; lia|unfold h1, set_buffer; by rewrite lookup_insert_eq].
    fold t in Hr1. rewrite app_cons_assoc in Hr1.
    destruct (rep_put h1 base (pre ++ [Blk a (offset + size) Pend]) t _ Free post lim Hr1)
      as (h2 & Hi & Hr2 & Hp2); [done|apply payload_insert|].
    simpl in Hi. rewrite Hi. bindr. rewrite <- app_cons_assoc in Hr2.
    assert (Hpa2 : payload h2 a = Some (a + MCB_SIZE, n)).
    { rewrite Hp2. unfold h1, set_buffer. by rewrite payload_insert_ne. }
    destruct (payload_lookup _ _ _ _ Hpa2) as [x2 Hx2].
    unfold set_size. rewrite Hx2. bindr. rewrite (u32_small (offset + size)) by lia.
    eapply rep_fill in Hr2.
    edestruct (rep_put _ base pre a (offset + size) Used _ lim Hr2) as (h3 & Hi3 & Hr3 & Hp3);
      [done|apply payload_insert|].
    simpl in Hi3. rewrite Hi3. bindr.
    destruct (payload_lookup h3 a (a + MCB_SIZE) (offset + size)) as [x3 Hx3];
      [rewrite Hp3; apply payload_insert|].
    rewrite Hx3. bindr. cbn [mbuffer].
    rewrite u32_small by (unfold MCB_SIZE; lia). by exists h3.
  - destruct (rep_put h base pre a n Used post lim Hr) as (h2 & Hi & Hr2 & Hp2); [done..|].
    simpl in Hi. bindr. rewrite Hi. bindr.
    destruct (payload_lookup h2 a (a + MCB_SIZE) n) as [x3 Hx3]; [by rewrite Hp2|].
    rewrite Hx3. bindr. cbn [mbuffer].
    rewrite u32_small by (unfold MCB_SIZE; lia). by exists h2.
Qed.

Lemma take_spec h base pre a n post lim size offset :
  rep h base (pre ++ Blk a n Free :: post) lim →
  0 ≤ size → size mod 4 = 0 → 0 ≤ offset → (a + MCB_SIZE + offset) mod 4 = 0 →
  size + offset ≤ n →
  ∃ h', vsf_bufmgr_take h a size offset = Some (a + MCB_SIZE + offset, h') ∧
    rep h' base (pre ++ carve a n offset size ++ post) lim.
Proof.
  intros Hr Hs Hs4 Ho Ho4 Hfit. pose proof (rep_range _ _ _ _ _ _ _ _ Hr) as Hra.
  pose proof (rep_payload _ _ _ _ Hr (Blk a n Free) (middle_in _ _ _) ltac:(done)) as Hpa.
  simpl in Hpa. destruct (payload_lookup _ _ _ _ Hpa) as [x Hx]. unfold MCB_SIZE in Hra.
  unfold vsf_bufmgr_take, carve.
  destruct (Z.leb_spec (MCB_SIZE + VSF_BUFMGR_DEFAULT_ALIGN) offset) as [Hle|Hgt].
  - unfold MCB_SIZE, VSF_BUFMGR_DEFAULT_ALIGN in Hle. rewrite Hx. bindr. cbn [msize mbuffer].
    set (t := a + offset).
    replace (u32 (a + MCB_SIZE + offset - MCB_SIZE)) with t
      by (unfold t, MCB_SIZE; rewrite u32_small; lia).
    replace (u32 (t + MCB_SIZE)) with (t + MCB_SIZE) by (unfold t, MCB_SIZE; rewrite u32_small; lia).
    rewrite (u32_small (n - offset)) by lia.
    set (h1 := set_buffer h t (t + MCB_SIZE) (n - offset)).
    assert (Hr1 : rep h1 base (pre ++ Blk a n Free :: post) lim).
    { apply rep_write_fresh; [done| |unfold t, MCB_SIZE in *; lia].
      intros b Hb. eapply rep_inside; [exact Hr|unfold t, MCB_SIZE; lia|done]. }
    destruct (rep_take h1 base pre a n Free post lim Hr1) as (h2 & Hi & Hr2 & Hp2); [done|].
    simpl in Hi. rewrite Hi. bindr.
    assert (Hta : t ≠ a) by (unfold t; lia).
    assert (Hpa2 : payload h2 a = Some (a + MCB_SIZE, n)).
    { rewrite Hp2. unfold h1, set_buffer. by rewrite payload_insert_ne. }
    assert (Hpt2 : payload h2 t = Some (t + MCB_SIZE, n - offset)).
    { rewrite Hp2. apply payload_insert. }
    destruct (payload_lookup _ _ _ _ Hpa2) as [x2 Hx2].
    unfold set_size. rewrite Hx2. bindr. cbn [msize mbuffer mnext].
    rewrite (u32_small (offset - MCB_SIZE)) by (unfold MCB_SIZE; lia).
    assert (Ht : a + MCB_SIZE + (offset - MCB_SIZE) = t) by (unfold t; lia).
    apply (rep_cut h2 base pre a n (offset - MCB_SIZE) post lim) in Hr2;
      [|unfold MCB_SIZE; lia..| |].
    2: { rewrite Ht. unfold t, MCB_SIZE in *. Z.div_mod_to_equations; lia. }
    2: { rewrite Ht. by destruct (payload_lookup _ _ _ _ Hpt2) as [? ->]. }
    rewrite Ht in Hr2.
    replace (n - (offset - MCB_SIZE) - MCB_SIZE) with (n - offset) in Hr2 by lia.
    eapply rep_fill in Hr2.
    edestruct (rep_put _ base pre a (offset - MCB_SIZE) Free _ lim Hr2) as (h3 & Hi3 & Hr3 & Hp3);
      [done|apply payload_insert|].
    simpl in Hi3. rewrite Hi3. bindr. rewrite app_cons_assoc in Hr3.
    destruct (take_tail_spec h3 base (pre ++ [Blk a (offset - MCB_SIZE) Free]) t (n - offset)
      post lim size 0 Hr3) as (h4 & Htt & Hr4); try done; try lia.
    { rewrite Hp3, payload_insert_ne by done. done. }
    { unfold t, MCB_SIZE in *. Z.div_mod_to_equations; lia. }
    rewrite Htt. exists h4. rewrite <- app_assoc in Hr4. split; [|done].
    do 2 f_equal. unfold t. lia.
  - destruct (rep_take h base pre a n Free post lim Hr) as (h2 & Hi & Hr2 & Hp2); [done|].
    simpl in Hi. rewrite Hi. bindr.
    apply take_tail_spec; try done. by rewrite Hp2.
Qed.

(** *** No two neighbouring free blocks *)

Definition is_free (b : blk) : bool := bool_decide (b_st b = Free).
Definition starts_free (bs : list blk) : bool := match bs with b :: _ => is_free b | [] => false end.
Definition ends_free (bs : list blk) : bool :=
  match last bs with Some b => is_free b | None => false end.

Fixpoint no_adj (bs : list blk) : Prop :=
  match bs with
  | [] => True
  | b :: bs => (is_free b && starts_free bs = false) ∧ no_adj bs
  end.

Lemma no_adj_app bs1 bs2 :
  no_adj (bs1 ++ bs2) ↔
    no_adj bs1 ∧ no_adj bs2 ∧ ends_free bs1 && starts_free bs2 = false.
Proof.
  induction bs1 as [|b bs1 IH]; simpl; [naive_solver|]. rewrite IH.
  destruct bs1 as [|c bs1]; cbn [app starts_free no_adj].
  { change (ends_free [b]) with (is_free b). change (ends_free []) with false.
    rewrite andb_false_r, andb_false_l. tauto. }
  change (ends_free (b :: c :: bs1)) with (ends_free (c :: bs1)). tauto.
Qed.

(** Replacing a stretch of blocks by one whose free edges were free before. *)
Lemma no_adj_replace pre mid mid' post :
  no_adj (pre ++ mid ++ post) → no_adj mid' → mid ≠ [] → mid' ≠ [] →
  (starts_free mid' = true → starts_free mid = true) →
  (ends_free mid' = true → ends_free mid = true) →
  no_adj (pre ++ mid' ++ post).
Proof.
  rewrite !no_adj_app. intros (Hp & (_ & Hq & He) & Hs) Hm Hne Hne' Hs' He'.
  assert (Happ : ∀ l l' : list blk, l ≠ [] → starts_free (l ++ l') = starts_free l)
    by by intros [].
  rewrite !Happ in * by done. split_and!; try done.
  - destruct (ends_free mid') eqn:Heq; [|done]. by rewrite He' in He.
  - destruct (starts_free mid') eqn:Heq; [|by apply andb_false_r]. by rewrite Hs' in Hs.
Qed.

Record heap_ok h (base : Z) (bs : list blk) (lim : Z) : Prop := {
  ok_rep : rep h base bs lim;
  ok_adj : no_adj bs;
  ok_pend : Forall (λ b, b_st b ≠ Pend) bs }.

Definition used (bs : list blk) : list blk := filter (λ b, b_st b = Used) bs.

(** *** Sizes and alignment *)

Lemma round_size_spec size :
  0 < size → size + 3 < 4294967296 →
  size ≤ round_size size < size + 4 ∧ round_size size mod 4 = 0.
Proof.
  intros Hs Hb. unfold round_size. change 0x3 with (Z.ones 2). rewrite Z.land_ones by lia.
  change (2 ^ 2) with 4. case_decide as Hd; [lia|].
  rewrite land_fffffffc by lia.
  rewrite u32_small by (Z.div_mod_to_equations; lia).
  split; Z.div_mod_to_equations; lia.
Qed.

Lemma align_offset_spec b align :
  0 < align → 0 ≤ align_offset b align < align ∧ (b + align_offset b align) mod align = 0.
Proof.
  intros Ha. unfold align_offset. pose proof (Z.mod_pos_bound b align Ha).
  case_decide as Hd; [by rewrite Z.add_0_r|]. split; [lia|].
  replace (b + (align - b mod align)) with ((b - b mod align) + 1 * align) by lia.
  rewrite Z.mod_add by lia. rewrite Zminus_mod_idemp_r, Z.sub_diag. done.
Qed.

Lemma mod_mod_4 x align : 0 < align → align mod 4 = 0 → x mod align = 0 → x mod 4 = 0.
Proof.
  intros Ha (k & ->)%Z.mod_divide (j & ->)%Z.mod_divide; [|lia..].
  apply Z.mod_divide; [lia|]. exists (j * k). lia.
Qed.

(** *** The search *)

(** The header at [x] describes a buffer that can serve the request. *)
Definition fits_at h (size align x : Z) : Prop :=
  ∃ b s, payload h x = Some (b, s) ∧ u32 (size + align_offset b align) ≤ s.

Lemma malloc_loop_spec fuel h p l size align :
  chain h p l → (length l < fuel)%nat →
  (vsf_bufmgr_malloc_loop fuel h p size align = Some (NULL, h) ∧
     ∀ x, x ∈ l → ¬ fits_at h size align x) ∨
  (∃ l1 x l2 b s, l = l1 ++ x :: l2 ∧ (∀ y, y ∈ l1 → ¬ fits_at h size align y) ∧
     payload h x = Some (b, s) ∧ u32 (size + align_offset b align) ≤ s ∧
     vsf_bufmgr_malloc_loop fuel h p size align
       = vsf_bufmgr_take h x size (align_offset b align)).
Proof.
  revert p l. induction fuel as [|fuel IH]; intros p l Hc Hf; [lia|].
  simpl vsf_bufmgr_malloc_loop. destruct l as [|x l].
  { left. apply chain_nil in Hc as ->. rewrite decide_True by done.
    split; [done|]. by intros x ?%not_elem_of_nil. }
  pose proof Hc as (-> & Hx0 & m & Hm & Hl). rewrite decide_False by done. rewrite Hm. bindr.
  assert (Hpx : payload h x = Some (mbuffer m, msize m)) by (unfold payload; by rewrite Hm).
  destruct (Z.leb_spec (u32 (size + align_offset (mbuffer m) align)) (msize m)) as [Hle|Hgt].
  - right. exists [], x, l, (mbuffer m), (msize m). split_and!; try done.
    by intros y ?%not_elem_of_nil.
  - assert (Hno : ¬ fits_at h size align x).
    { intros (b & s & Hb & Hs). simplify_eq. lia. }
    destruct (IH (nxt m) l Hl) as [[-> Hall]|(l1 & y & l2 & b & s & -> & H1 & H2 & H3 & ->)];
      [simpl in Hf; lia| |].
    + left. split; [done|]. intros y [->|Hy]%elem_of_cons; auto.
    + right. exists (x :: l1), y, l2, b, s. split_and!; try done.
      intros z [->|Hz]%elem_of_cons; auto.
Qed.

(** What a request needs of a block, as the code computes it. *)
Definition need (size align : Z) (b : blk) : Z :=
  round_size size + align_offset (b_addr b + MCB_SIZE) align.

Lemma fits_at_block h base bs lim b size align :
  rep h base bs lim → b ∈ bs → b_st b = Free → 0 < align →
  0 < size → size + align + 3 < 4294967296 →
  fits_at h (round_size size) align (b_addr b) ↔ need size align b ≤ b_size b.
Proof.
  intros Hr Hb Hst Ha Hs Hbd.
  pose proof (rep_payload _ _ _ _ Hr b Hb ltac:(by rewrite Hst)) as Hp.
  pose proof (round_size_spec size) as [Hrs _]; [lia..|].
  pose proof (align_offset_spec (b_addr b + MCB_SIZE) align Ha) as [Ho _].
  unfold fits_at, need. split.
  - intros (b' & s & Hp' & Hle). rewrite Hp in Hp'. simplify_eq.
    rewrite u32_small in Hle by lia. done.
  - intros Hle. do 2 eexists. split; [exact Hp|]. rewrite u32_small by lia. done.
Qed.

Lemma carve_tail_ok a n offset size :
  0 < size → 0 ≤ offset → size + offset ≤ n →
  ∃ u rest, carve_tail a n offset size = u :: rest ∧ b_st u = Used ∧ b_addr u = a ∧
    a + MCB_SIZE + offset + size ≤ b_end u ≤ a + MCB_SIZE + n ∧
    used rest = [] ∧ no_adj (u :: rest) ∧ Forall (λ b, b_st b ≠ Pend) (u :: rest).
Proof.
  intros Hs Ho Hn. unfold carve_tail.
  destruct (Z.ltb_spec (size + offset + MCB_SIZE) n); do 2 eexists; (split; [done|]);
    unfold b_end, MCB_SIZE in *; simpl;
    (split_and!; try done; try lia; repeat constructor; done).
Qed.

Lemma carve_ok a n offset size :
  0 < size → 0 ≤ offset → size + offset ≤ n →
  ∃ u, used (carve a n offset size) = [u] ∧ u ∈ carve a n offset size ∧
    b_addr u + MCB_SIZE ≤ a + MCB_SIZE + offset ∧ a + MCB_SIZE + offset + size ≤ b_end u ∧
    a ≤ b_addr u ∧ b_end u ≤ a + MCB_SIZE + n ∧
    no_adj (carve a n offset size) ∧ Forall (λ b, b_st b ≠ Pend) (carve a n offset size).
Proof.
  intros Hs Ho Hn. unfold carve.
  destruct (Z.leb_spec (MCB_SIZE + VSF_BUFMGR_DEFAULT_ALIGN) offset) as [Hle|_].
  - destruct (carve_tail_ok (a + offset) (n - offset) 0 size)
      as (u & rest & -> & Hst & Ha & He & Hu & Hadj & Hp); [lia..|].
    exists u. unfold used in *. rewrite filter_cons_False by done.
    rewrite filter_cons_True, Hu by done. unfold MCB_SIZE, VSF_BUFMGR_DEFAULT_ALIGN in *.
    split_and!; try done; try lia; [set_solver| |by constructor].
    split; [|done]. simpl. unfold is_free. by rewrite Hst.
  - destruct (carve_tail_ok a n offset size) as (u & rest & -> & Hst & Ha & He & Hu & Hadj & Hp);
      [lia..|].
    exists u. unfold used in *. rewrite filter_cons_True, Hu by done.
    unfold MCB_SIZE in *. split_and!; try done; try lia. set_solver.
Qed.

Lemma free_elem bs b : b ∈ bs → b_st b = Free → b_addr b ∈ addrs Free bs.
Proof. intros. apply addrs_elem. eauto. Qed.

(** In a list by size, no later member is smaller. *)
Lemma by_size_first h l1 x l2 b s y b' s' :
  StronglySorted (by_size h) (l1 ++ x :: l2) → payload h x = Some (b, s) →
  y ∈ x :: l2 → payload h y = Some (b', s') → s ≤ s'.
Proof.
  intros Hsort Hx Hy Hpy. induction l1 as [|z l1 IH]; simpl in Hsort.
  - apply elem_of_cons in Hy as [->|Hy]; [simplify_eq; lia|].
    inversion Hsort as [|?? _ Hf]; subst. rewrite Forall_forall in Hf.
    specialize (Hf _ Hy). unfold by_size, hsize in Hf. by rewrite Hx, Hpy in Hf.
  - inversion Hsort; subst. auto.
Qed.

Lemma tiles_replace_sep base pre mid post lim u v :
  tiles base (pre ++ mid ++ post) lim → u ∈ mid → v ∈ pre ++ post →
  b_end v ≤ b_addr u ∨ b_end u ≤ b_addr v.
Proof.
  intros Ht Hu Hv. destruct (tiles_sep _ _ _ v u Ht) as [->|Hsep]; [set_solver..| |done].
  exfalso. pose proof (tiles_NoDup _ _ _ Ht) as Hnd. rewrite !fmap_app in Hnd.
  apply NoDup_app in Hnd as (_ & Hd1 & (_ & Hd2 & _)%NoDup_app).
  apply elem_of_app in Hv as [Hv|Hv].
  - apply (Hd1 (b_addr u)); [by apply list_elem_of_fmap_2|].
    apply elem_of_app. left. by apply list_elem_of_fmap_2.
  - apply (Hd2 (b_addr u)); by apply list_elem_of_fmap_2.
Qed.

(** What a request for [size] bytes at alignment [al] may answer. *)
Definition malloc_outcome h base bs lim (size al ptr : Z) h' : Prop :=
  (ptr = NULL ∧ h' = h ∧ ∀ b, b ∈ bs → b_st b = Free → b_size b < need size al b) ∨
  (∃ bs' u f, heap_ok h' base bs' lim ∧ ptr mod al = 0 ∧
     u ∈ bs' ∧ b_st u = Used ∧ b_addr u + MCB_SIZE ≤ ptr ∧ ptr + size ≤ b_end u ∧
     used bs' ≡ₚ u :: used bs ∧
     (∀ v, v ∈ used bs → b_end v ≤ b_addr u ∨ b_end u ≤ b_addr v) ∧
     f ∈ bs ∧ b_st f = Free ∧ b_addr f ≤ b_addr u ∧ b_end u ≤ b_end f ∧
     ∀ g, g ∈ bs → b_st g = Free → need size al g ≤ b_size g → b_size f ≤ b_size g).

Lemma malloc_ok h base bs lim size align :
  heap_ok h base bs lim → 0 < size → 0 ≤ align →
  let al := Z.max align VSF_BUFMGR_DEFAULT_ALIGN in
  al mod 4 = 0 → size + al + 3 < 4294967296 →
  ∃ ptr h', vsf_bufmgr_malloc_aligned h size align = Some (ptr, h') ∧
    malloc_outcome h base bs lim size al ptr h'.
Proof.
  intros [Hr Hadj Hpend] Hs Ha al Hal Hbd.
  pose proof (round_size_spec size) as [Hrs Hrs4]; [lia..|].
  assert (Hal4 : 4 ≤ al) by (unfold al, VSF_BUFMGR_DEFAULT_ALIGN; lia).
  destruct (rep_lists _ _ _ _ Hr Free ltac:(done)) as (l & Hc & Hperm & Hsort).
  assert (Hblk : ∀ x, x ∈ l → ∃ b, b ∈ bs ∧ b_st b = Free ∧ b_addr b = x).
  { intros x. by rewrite Hperm, addrs_elem. }
  unfold vsf_bufmgr_malloc_aligned. pose proof Hc as (_ & _ & m & Hm & Hl).
  simpl in Hm. rewrite (load_nxt_eq _ _ _ Hm). bindr. rewrite decide_False by lia.
  replace (if align <? VSF_BUFMGR_DEFAULT_ALIGN then VSF_BUFMGR_DEFAULT_ALIGN else align) with al
    by (unfold al; destruct (Z.ltb_spec align VSF_BUFMGR_DEFAULT_ALIGN); lia).
  destruct (malloc_loop_spec (fuel_of h) h (nxt m) l (round_size size) al Hl)
    as [[-> Hnone]|(l1 & x & l2 & bb & s & -> & Hno & Hpx & Hle & ->)].
  { apply chain_fuel in Hc. simpl in Hc. lia. }
  - exists NULL, h. split; [done|]. left. split_and!; try done. intros b Hb Hst.
    apply Z.nle_gt. rewrite <- (fits_at_block h base bs lim) by (done || lia).
    apply Hnone. rewrite Hperm. by apply free_elem.
  - destruct (Hblk x) as ([a n st] & Hb & Hst & Hax); [set_solver|]. simpl in Hst, Hax. subst st x.
    pose proof (rep_payload _ _ _ _ Hr _ Hb ltac:(done)) as Hpb. simpl in Hpb.
    rewrite Hpx in Hpb. simplify_eq.
    destruct (align_offset_spec (a + MCB_SIZE) al) as [Ho Hom]; [lia|].
    rewrite u32_small in Hle by lia.
    pose proof Hb as (pre & post & ->)%list_elem_of_split.
    destruct (take_spec h base pre a n post lim (round_size size)
      (align_offset (a + MCB_SIZE) al) Hr) as (h' & Ht & Hr'); try lia.
    { eapply mod_mod_4; [|exact Hal|done]. lia. }
    destruct (carve_ok a n (align_offset (a + MCB_SIZE) al) (round_size size))
      as (u & Hu & Huin & H1 & H2 & H3 & H4 & H5 & H6); [lia..|].
    rewrite Ht. do 2 eexists. split; [done|]. right.
    set (bs' := pre ++ carve a n _ _ ++ post) in *.
    assert (Hub : u ∈ bs') by (unfold bs'; set_solver).
    assert (Hust : b_st u = Used).
    { assert (Hx : u ∈ used (carve a n (align_offset (a + MCB_SIZE) al) (round_size size)))
        by (rewrite Hu; set_solver).
      by apply list_elem_of_filter in Hx as [? _]. }
    assert (Hused : used bs' ≡ₚ u :: used (pre ++ Blk a n Free :: post)).
    { unfold bs', used in *. rewrite !filter_app, Hu, filter_cons_False by done.
      cbn [app]. by rewrite <- Permutation_middle. }
    exists bs', u, (Blk a n Free). split_and!; try done; try lia; simpl; try lia.
    + split; [done| |].
      * eapply (no_adj_replace pre [Blk a n Free]); try done.
        intros Hx. by rewrite Hx in Hu.
      * apply Forall_app in Hpend as [? [_ ?]%Forall_cons].
        unfold bs'. by repeat (apply Forall_app; split).
    + intros v Hv. eapply (tiles_replace_sep _ pre _ post); [exact (rep_tiles _ _ _ _ Hr')|done|].
      unfold used in Hv. rewrite filter_app, filter_cons_False in Hv by done.
      rewrite <- filter_app in Hv. by apply list_elem_of_filter in Hv as [_ ?].
    + intros g Hg Hgs Hfit.
      rewrite <- (fits_at_block h base _ lim) in Hfit by (done || lia).
      assert (Hgl : b_addr g ∈ l1 ++ a :: l2) by (rewrite Hperm; by apply free_elem).
      pose proof (rep_payload _ _ _ _ Hr g Hg ltac:(by rewrite Hgs)) as Hpg.
      apply elem_of_app in Hgl as [Hg1|Hg2]; [by apply Hno in Hg1|].
      exact (by_size_first _ _ _ _ _ _ _ _ _ Hsort Hpx Hg2 Hpg).
Qed.

(** ** Release *)

(** The buffer of [x] ends where [a] starts. *)
Definition ends_at h (a x : Z) : bool :=
  match payload h x with Some (b, s) => u32 (b + s) =? a | None => false end.

Lemma merge_loop_spec fuel h p l a b s nx pv :
  chain h p l → (length l < fuel)%nat → payload h a = Some (b, s) →
  vsf_bufmgr_merge_loop fuel h p a nx pv =
    Some (if decide (u32 (b + s) ∈ l) then u32 (b + s) else nx,
          default pv (last (filter (λ x, ends_at h a x = true) l))).
Proof.
  intros Hc Hf Hp. destruct (payload_lookup _ _ _ _ Hp) as [y Hy].
  revert p l nx pv Hc Hf. induction fuel as [|fuel IH]; intros p l nx pv Hc Hf; [lia|].
  simpl vsf_bufmgr_merge_loop. destruct l as [|x l].
  { apply chain_nil in Hc as ->. rewrite decide_True by done. done. }
  destruct Hc as (-> & Hx0 & m & Hm & Hl). rewrite decide_False by done.
  rewrite Hy, Hm. bindr. cbn [mbuffer msize]. rewrite (IH _ l) by (done || (simpl in Hf; lia)).
  assert (He : ends_at h a x = (u32 (mbuffer m + msize m) =? a))
    by (unfold ends_at, payload; by rewrite Hm).
  do 2 f_equal.
  - destruct (decide (u32 (b + s) = x)) as [->|Hne].
    + rewrite (decide_True (P := x ∈ x :: l)) by set_solver. by case_decide.
    + destruct (decide (u32 (b + s) ∈ l)); destruct (decide (u32 (b + s) ∈ x :: l)) as [Hin|Hin];
        set_solver.
  - rewrite filter_cons, He. destruct (Z.eqb_spec (u32 (mbuffer m + msize m)) a) as [Heq|Hne].
    + rewrite (decide_True (P := _ = a)), (decide_True (P := true = true)) by done.
      rewrite last_cons. by destruct (last _).
    + by rewrite (decide_False (P := _ = a)), (decide_False (P := false = true)) by done.
Qed.

Lemma tiles_last base pre mid b :
  tiles base pre mid → b ∈ pre → b_end b = mid → last pre = Some b.
Proof.
  revert base. induction pre as [|c pre IH]; intros base; simpl; [by intros _ ?%not_elem_of_nil|].
  intros (<- & Hs & _ & Ht) [->|Hb]%elem_of_cons He.
  - destruct pre as [|d pre]; [done|]. simpl in Ht. destruct Ht as (Hd & Hds & _ & Ht).
    apply tiles_le in Ht. unfold b_end, MCB_SIZE in *. lia.
  - pose proof (IH _ Ht Hb He) as Hl. destruct pre; [done|]. exact Hl.
Qed.

Lemma tiles_last_end base pre c mid : tiles base (pre ++ [c]) mid → b_end c = mid.
Proof. rewrite tiles_app. simpl. naive_solver. Qed.

Lemma tiles_first base post lim b : tiles base post lim → b ∈ post → b_addr b = base → head post = Some b.
Proof.
  destruct post as [|c post]; simpl; [by intros _ ?%not_elem_of_nil|].
  intros (<- & Hs & _ & Ht) [->|Hb]%elem_of_cons He; [done|].
  pose proof (tiles_in _ _ _ _ Ht Hb). unfold b_end, MCB_SIZE in *. lia.
Qed.

Section Neighbours.
Context (h : heap) (base lim : Z) (pre post : list blk) (a n : Z) (l : list Z).
Hypothesis Hr : rep h base (pre ++ Blk a n Pend :: post) lim.
Hypothesis Hl : l ≡ₚ addrs Free (pre ++ Blk a n Pend :: post).

Lemma neighbour_tiles : tiles base pre a ∧ tiles (a + MCB_SIZE + n) post lim.
Proof using Hr.
  pose proof (rep_tiles _ _ _ _ Hr) as Ht. apply tiles_app in Ht as (mid & H1 & H2).
  simpl in H2. destruct H2 as (<- & _ & _ & H2). done.
Qed.

Lemma free_member x :
  x ∈ l → ∃ b, (b ∈ pre ∨ b ∈ post) ∧ b_st b = Free ∧ b_addr b = x ∧ b_end b < 4294967296 ∧
    payload h x = Some (x + MCB_SIZE, b_size b).
Proof using Hr Hl.
  rewrite Hl, addrs_elem. intros (b & Hb & Hst & Hx). exists b.
  pose proof (rep_payload _ _ _ _ Hr b Hb ltac:(by rewrite Hst)) as Hp. rewrite Hx in Hp.
  pose proof (tiles_in _ _ _ _ (rep_tiles _ _ _ _ Hr) Hb).
  pose proof (rep_bounds _ _ _ _ Hr). split_and!; try done; [|lia].
  apply elem_of_app in Hb as [?|[->|?]%elem_of_cons]; [by left|done|by right].
Qed.

Lemma next_free :
  (a + MCB_SIZE + n ∈ l ↔ starts_free post = true).
Proof using Hr Hl.
  destruct neighbour_tiles as [H1 H2]. split.
  - intros (b & [Hb|Hb] & Hst & Ha & _)%free_member.
    + pose proof (tiles_in _ _ _ _ H1 Hb). pose proof (rep_range _ _ _ _ _ _ _ _ Hr).
      unfold b_end, MCB_SIZE in *. lia.
    + pose proof (tiles_first _ _ _ _ H2 Hb Ha) as Hh.
      destruct post; simplify_eq/=. unfold is_free. by apply bool_decide_true.
  - destruct post as [|c post']; simpl in *; [done|]. unfold is_free.
    rewrite bool_decide_eq_true. intros Hst. destruct H2 as [Ha _].
    rewrite Hl, <- Ha. apply free_elem; [|done]. set_solver.
Qed.

Lemma prev_free :
  last (filter (λ x, ends_at h a x = true) l) =
    match last pre with
    | Some c => if is_free c then Some (b_addr c) else None
    | None => None
    end.
Proof using Hr Hl.
  destruct neighbour_tiles as [H1 H2].
  pose proof (rep_range _ _ _ _ _ _ _ _ Hr) as Hra.
  assert (Hends : ∀ x, x ∈ l → ends_at h a x = true →
    ∃ c, last pre = Some c ∧ is_free c = true ∧ b_addr c = x).
  { intros x (b & Hb & Hst & Hx & Hlt & Hp)%free_member He.
    unfold ends_at in He. rewrite Hp in He. apply Z.eqb_eq in He.
    assert (Heb : b_end b = a).
    { rewrite <- He. rewrite <- Hx. symmetry. apply u32_small.
      destruct Hb as [Hb|Hb]; [pose proof (tiles_in _ _ _ _ H1 Hb)|pose proof (tiles_in _ _ _ _ H2 Hb)];
        pose proof (rep_bounds _ _ _ _ Hr); unfold b_end, MCB_SIZE in *;
        pose proof (tiles_le _ _ _ H1); lia. }
    destruct Hb as [Hb|Hb].
    - exists b. split_and!; [by eapply tiles_last|unfold is_free; by apply bool_decide_true|done].
    - pose proof (tiles_in _ _ _ _ H2 Hb). unfold b_end, MCB_SIZE in *. lia. }
  destruct (last (filter _ l)) as [x|] eqn:Hlast.
  - apply last_Some_elem_of, list_elem_of_filter in Hlast as [He Hx].
    destruct (Hends x Hx He) as (c & -> & -> & ->). done.
  - apply last_None in Hlast. destruct (last pre) as [c|] eqn:Hc; [|done].
    destruct (is_free c) eqn:Hfc; [|done]. exfalso.
    apply bool_decide_eq_true in Hfc. apply last_Some in Hc as [pre' Hpre].
    assert (Hin : c ∈ pre ++ Blk a n Pend :: post) by (rewrite Hpre; set_solver).
    assert (Hcl : b_addr c ∈ l) by (rewrite Hl; by apply free_elem).
    assert (Hce : ends_at h a (b_addr c) = true).
    { unfold ends_at. rewrite (rep_payload _ _ _ _ Hr c Hin) by (by rewrite Hfc).
      rewrite Hpre in H1. pose proof (tiles_last_end _ _ _ _ H1) as He. unfold b_end in He.
      rewrite He. apply Z.eqb_eq, u32_small. unfold MCB_SIZE in *. lia. }
    assert (Hnil : b_addr c ∈ filter (λ x, ends_at h a x = true) l) by by apply list_elem_of_filter.
    rewrite Hlast in Hnil. by apply not_elem_of_nil in Hnil.
Qed.

Definition prev_addr (bs : list blk) : Z :=
  default NULL (match last bs with
    | Some c => if is_free c then Some (b_addr c) else None
    | None => None
    end).

Lemma prev_cases :
  (ends_free pre = false ∧ prev_addr pre = NULL) ∨
  (∃ pre' c k, pre = pre' ++ [Blk c k Free] ∧ a = c + MCB_SIZE + k ∧ c ≠ NULL ∧
    prev_addr pre = c).
Proof using Hr.
  destruct neighbour_tiles as [Htp _]. unfold ends_free, prev_addr.
  destruct (last pre) as [c|] eqn:Hlast; [|by left].
  destruct (is_free c) eqn:Hf; [right|by left]. apply bool_decide_eq_true in Hf.
  apply last_Some in Hlast as [pre' Hpre]. destruct c as [c k st]. simpl in Hf. subst st.
  rewrite Hpre in Htp. pose proof (tiles_last_end _ _ _ _ Htp) as He.
  exists pre', c, k. split; [done|].
  pose proof (tiles_in _ _ _ _ Htp (middle_in (Blk c k Free) pre' [])).
  pose proof (rep_bounds _ _ _ _ Hr). unfold b_end, NULL in *. simpl in *. split_and!; lia.
Qed.

Lemma next_cases :
  let e := a + MCB_SIZE + n in
  (starts_free post = false ∧ (if decide (e ∈ l) then e else NULL) = NULL) ∨
  (∃ k post', post = Blk e k Free :: post' ∧ e ≠ NULL ∧
    (if decide (e ∈ l) then e else NULL) = e).
Proof using Hr Hl.
  intros e. destruct neighbour_tiles as [_ Htn].
  pose proof (rep_range _ _ _ _ _ _ _ _ Hr) as Hra. pose proof next_free as Hnx.
  destruct (starts_free post) eqn:Hs.
  - right. rewrite (decide_True (P := e ∈ l)) by by apply Hnx.
    destruct post as [|[d k st] post']; [done|].
    apply bool_decide_eq_true in Hs. simpl in Hs, Htn. subst st. destruct Htn as [-> _].
    exists k, post'. unfold e, NULL, MCB_SIZE in *. split_and!; [done|lia|done].
  - left. split; [done|]. apply decide_False. intros Hx%Hnx. congruence.
Qed.
End Neighbours.

(** Filling in the final size of the pending block at [a] and freeing it. *)
Lemma set_size_put h base pre a n b s post lim :
  rep h base (pre ++ Blk a n Pend :: post) lim → payload h a = Some (a + MCB_SIZE, s) →
  b = n →
  ∃ h', (h1 ← set_size h a b; vsf_bufmgr_insert_mcb h1 freed_list a) = Some h' ∧
    rep h' base (pre ++ Blk a n Free :: post) lim.
Proof.
  intros Hr Hp ->. destruct (payload_lookup _ _ _ _ Hp) as [x Hx].
  unfold set_size. rewrite Hx. bindr. cbn [mbuffer mnext].
  eapply rep_fill in Hr.
  destruct (rep_put _ base pre a n Free post lim Hr) as (h' & Hi & Hr' & _);
    [done|apply payload_insert|]. by exists h'.
Qed.

Lemma merge_next h base pre a n k post lim :
  rep h base (pre ++ Blk a n Pend :: Blk (a + MCB_SIZE + n) k Free :: post) lim →
  payload h a = Some (a + MCB_SIZE, n) →
  ∃ h', (h ← vsf_bufmgr_remove_mcb h freed_list (a + MCB_SIZE + n);
         m ← h !! a; nm ← h !! (a + MCB_SIZE + n);
         h ← set_size h a (u32 (msize m + (MCB_SIZE + msize nm)));
         vsf_bufmgr_insert_mcb h freed_list a) = Some h' ∧
    rep h' base (pre ++ Blk a (n + MCB_SIZE + k) Free :: post) lim.
Proof.
  intros Hr Hp. rewrite app_cons_assoc in Hr.
  pose proof (rep_payload _ _ _ _ Hr _ (middle_in _ _ _) ltac:(done)) as Hpd. simpl in Hpd.
  destruct (rep_take _ _ _ _ _ Free _ _ Hr) as (h1 & Hi & Hr1 & Hp1); [done|].
  simpl in Hi. rewrite Hi. bindr. rewrite <- app_cons_assoc in Hr1.
  apply rep_join in Hr1. pose proof (rep_range _ _ _ _ _ _ _ _ Hr1) as Hra.
  rewrite <- (Hp1 a) in Hp. rewrite <- Hp1 in Hpd.
  destruct (payload_lookup _ _ _ _ Hp) as [x Hx]. destruct (payload_lookup _ _ _ _ Hpd) as [y Hy].
  pose proof (rep_range _ _ _ _ _ _ _ _ Hr) as Hrd.
  rewrite Hx, Hy. bindr. cbn [msize]. eapply set_size_put; try done.
  unfold MCB_SIZE in *. rewrite u32_small; lia.
Qed.

Lemma merge_prev h base pre c k n post lim :
  rep h base (pre ++ Blk c k Free :: Blk (c + MCB_SIZE + k) n Pend :: post) lim →
  payload h (c + MCB_SIZE + k) = Some (c + MCB_SIZE + k + MCB_SIZE, n) →
  ∃ h', (h ← vsf_bufmgr_remove_mcb h freed_list c;
         m ← h !! (c + MCB_SIZE + k); pm ← h !! c;
         h ← set_size h c (u32 (msize pm + (MCB_SIZE + msize m)));
         vsf_bufmgr_insert_mcb h freed_list c) = Some h' ∧
    rep h' base (pre ++ Blk c (k + MCB_SIZE + n) Free :: post) lim.
Proof.
  intros Hr Hp.
  pose proof (rep_payload _ _ _ _ Hr _ (middle_in _ _ _) ltac:(done)) as Hpc. simpl in Hpc.
  pose proof (rep_range _ _ _ _ _ _ _ _ Hr) as Hrc.
  destruct (rep_take _ _ _ _ _ Free _ _ Hr) as (h1 & Hi & Hr1 & Hp1); [done|].
  simpl in Hi. rewrite Hi. bindr.
  pose proof Hr1 as Hrn. rewrite app_cons_assoc in Hrn.
  pose proof (rep_range _ _ _ _ _ _ _ _ Hrn) as Hran.
  apply rep_join in Hr1. pose proof (rep_range _ _ _ _ _ _ _ _ Hr1) as Hra.
  rewrite <- Hp1 in Hp, Hpc.
  destruct (payload_lookup _ _ _ _ Hp) as [x Hx]. destruct (payload_lookup _ _ _ _ Hpc) as [y Hy].
  rewrite Hx, Hy. bindr. cbn [msize]. eapply set_size_put; try done.
  unfold MCB_SIZE in *. rewrite u32_small; lia.
Qed.

Lemma merge_both h base pre c k n j post lim :
  let a := c + MCB_SIZE + k in
  rep h base (pre ++ Blk c k Free :: Blk a n Pend :: Blk (a + MCB_SIZE + n) j Free :: post) lim →
  payload h a = Some (a + MCB_SIZE, n) →
  ∃ h', (h ← vsf_bufmgr_remove_mcb h freed_list c;
         h ← vsf_bufmgr_remove_mcb h freed_list (a + MCB_SIZE + n);
         m ← h !! a; pm ← h !! c; nm ← h !! (a + MCB_SIZE + n);
         h ← set_size h c (u32 (msize pm + (MCB_SIZE * 2 + msize m + msize nm)));
         vsf_bufmgr_insert_mcb h freed_list c) = Some h' ∧
    rep h' base (pre ++ Blk c (k + MCB_SIZE + (n + MCB_SIZE + j)) Free :: post) lim.
Proof.
  intros a Hr Hp.
  pose proof (rep_payload _ _ _ _ Hr _ (middle_in _ _ _) ltac:(done)) as Hpc. simpl in Hpc.
  pose proof (rep_range _ _ _ _ _ _ _ _ Hr) as Hrc.
  destruct (rep_take _ _ _ _ _ Free _ _ Hr) as (h1 & Hi & Hr1 & Hp1); [done|].
  simpl in Hi. rewrite Hi. bindr. rewrite app_cons_assoc in Hr1.
  pose proof (rep_range _ _ _ _ _ _ _ _ Hr1) as Hran. rewrite app_cons_assoc in Hr1.
  pose proof (rep_payload _ _ _ _ Hr1 _ (middle_in _ _ _) ltac:(done)) as Hpd. simpl in Hpd.
  pose proof (rep_range _ _ _ _ _ _ _ _ Hr1) as Hrd.
  destruct (rep_take _ _ _ _ _ Free _ _ Hr1) as (h2 & Hi2 & Hr2 & Hp2); [done|].
  simpl in Hi2. rewrite Hi2. bindr. rewrite <- !app_cons_assoc in Hr2.
  rewrite app_cons_assoc in Hr2. apply rep_join in Hr2. rewrite <- app_cons_assoc in Hr2.
  apply rep_join in Hr2. pose proof (rep_range _ _ _ _ _ _ _ _ Hr2) as Hra.
  rewrite <- Hp1, <- Hp2 in Hp, Hpc. rewrite <- Hp2 in Hpd.
  destruct (payload_lookup _ _ _ _ Hp) as [x Hx]. destruct (payload_lookup _ _ _ _ Hpc) as [y Hy].
  destruct (payload_lookup _ _ _ _ Hpd) as [z Hz].
  rewrite Hx, Hy. bindr. rewrite Hz. bindr. cbn [msize]. eapply set_size_put; try done.
  unfold MCB_SIZE in *. rewrite u32_small; lia.
Qed.

(** The pending block grows over its free neighbours and becomes free. *)
Lemma merge_mcb_spec h base pre a n post lim :
  rep h base (pre ++ Blk a n Pend :: post) lim → payload h a = Some (a + MCB_SIZE, n) →
  ∃ h' pre1 pre2 a' n' post1 post2,
    vsf_bufmgr_merge_mcb h freed_list a = Some h' ∧
    pre = pre1 ++ pre2 ∧ post = post1 ++ post2 ∧
    rep h' base (pre1 ++ Blk a' n' Free :: post2) lim ∧
    (pre2 = [] ∧ ends_free pre = false ∨ ∃ c k, pre2 = [Blk c k Free]) ∧
    (post1 = [] ∧ starts_free post = false ∨ ∃ c k, post1 = [Blk c k Free]).
Proof.
  intros Hr Hp. pose proof (rep_range _ _ _ _ _ _ _ _ Hr) as Hra.
  destruct (rep_lists _ _ _ _ Hr Free ltac:(done)) as (l & Hc & Hperm & _). simpl in Hc.
  unfold vsf_bufmgr_merge_mcb. pose proof Hc as (_ & _ & m & Hm & Hl).
  rewrite (load_nxt_eq _ _ _ Hm). bindr.
  rewrite (merge_loop_spec _ h _ l a (a + MCB_SIZE) n NULL NULL Hl)
    by (done || (apply chain_fuel in Hc; simpl in Hc; lia)).
  bindr. rewrite (prev_free h base lim pre post a n l Hr Hperm). fold (prev_addr pre).
  rewrite u32_small by (unfold MCB_SIZE in *; lia).
  pose proof (prev_cases h base lim pre post a n Hr) as Hprev.
  pose proof (next_cases h base lim pre post a n l Hr Hperm) as Hnext.
  destruct Hprev as [[Hnp ->]|(pre' & c & k & -> & -> & Hc0 & ->)],
    Hnext as [[Hnn ->]|(j & post' & -> & Hd0 & ->)].
  - rewrite decide_True by done.
    destruct (rep_put h base pre a n Free post lim Hr) as (h' & Hi & Hr' & _); [done..|].
    exists h', pre, [], a, n, [], post. rewrite app_nil_r. split_and!; auto.
  - rewrite decide_False, decide_True by naive_solver.
    destruct (merge_next h base pre a n j post' lim Hr Hp) as (h' & Hi & Hr').
    exists h', pre, [], a, (n + MCB_SIZE + j), [Blk (a + MCB_SIZE + n) j Free], post'.
    rewrite app_nil_r. split_and!; eauto.
  - rewrite decide_False, decide_False, decide_True by naive_solver.
    rewrite <- app_assoc in Hr. destruct (merge_prev _ _ _ _ _ _ _ _ Hr Hp) as (h' & Hi & Hr').
    exists h', pre', [Blk c k Free], c, (k + MCB_SIZE + n), [], post. split_and!; eauto.
  - rewrite !decide_False by naive_solver.
    rewrite <- app_assoc in Hr. destruct (merge_both _ _ _ _ _ _ _ _ _ Hr Hp) as (h' & Hi & Hr').
    exists h', pre', [Blk c k Free], c, (k + MCB_SIZE + (n + MCB_SIZE + j)), 
      [Blk (c + MCB_SIZE + k + MCB_SIZE + n) j Free], post'.
    split_and!; eauto.
Qed.

Lemma free_loop_spec fuel h p l ptr :
  chain h p l → (length l < fuel)%nat →
  (vsf_bufmgr_free_loop fuel h p ptr = Some h ∧
     ∀ x b s, x ∈ l → payload h x = Some (b, s) → ¬ (b ≤ ptr < u32 (b + s))) ∨
  (∃ x b s, x ∈ l ∧ payload h x = Some (b, s) ∧ b ≤ ptr < u32 (b + s) ∧
     vsf_bufmgr_free_loop fuel h p ptr =
       (h ← vsf_bufmgr_remove_mcb h allocated_list x; vsf_bufmgr_merge_mcb h freed_list x)).
Proof.
  revert p l. induction fuel as [|fuel IH]; intros p l Hc Hf; [lia|].
  simpl vsf_bufmgr_free_loop. destruct l as [|x l].
  { left. apply chain_nil in Hc as ->. rewrite decide_True by done.
    split; [done|]. by intros x b s ?%not_elem_of_nil. }
  pose proof Hc as (-> & Hx0 & m & Hm & Hl). rewrite decide_False by done. rewrite Hm. bindr.
  assert (Hpx : payload h x = Some (mbuffer m, msize m)) by (unfold payload; by rewrite Hm).
  destruct ((mbuffer m <=? ptr) && (ptr <? u32 (mbuffer m + msize m))) eqn:Hin.
  - right. apply andb_true_iff in Hin as [?%Z.leb_le ?%Z.ltb_lt].
    exists x, (mbuffer m), (msize m). split_and!; try done. set_solver.
  - apply andb_false_iff in Hin. rewrite Z.leb_gt, Z.ltb_ge in Hin.
    destruct (IH (nxt m) l Hl) as [[-> Hall]|(y & b & s & Hy & H1 & H2 & ->)];
      [simpl in Hf; lia| |].
    + left. split; [done|]. intros y b s [->|Hy]%elem_of_cons Hp; [|by eapply Hall].
      simplify_eq. lia.
    + right. exists y, b, s. split_and!; try done; try lia. set_solver.
Qed.

Lemma used_app bs1 bs2 : used (bs1 ++ bs2) = used bs1 ++ used bs2.
Proof. apply filter_app. Qed.

Lemma used_elem bs b : b ∈ used bs ↔ b ∈ bs ∧ b_st b = Used.
Proof. unfold used. rewrite list_elem_of_filter. naive_solver. Qed.

(** A heap without allocated block is one free block. *)
Lemma all_free h base bs lim :
  heap_ok h base bs lim → used bs = [] → bs ≠ [] →
  bs = [Blk base (lim - base - MCB_SIZE) Free].
Proof.
  intros [Hr Hadj Hp] Hu Hne.
  assert (Hfree : ∀ b, b ∈ bs → b_st b = Free).
  { intros b Hb. rewrite Forall_forall in Hp. specialize (Hp b Hb).
    destruct (b_st b) eqn:Hst; [done| |done].
    assert (Hx : b ∈ used bs) by by apply used_elem. rewrite Hu in Hx.
    by apply not_elem_of_nil in Hx. }
  pose proof (rep_tiles _ _ _ _ Hr) as Ht.
  destruct bs as [|[a n st] [|c bs]]; [done| |].
  - simpl in Ht. unfold b_end in Ht. simpl in Ht. destruct Ht as (<- & _ & _ & <-).
    rewrite <- (Hfree (Blk a n st)) by set_solver. simpl. repeat f_equal. lia.
  - simpl in Hadj. destruct Hadj as [Hadj _]. exfalso. unfold is_free in Hadj.
    rewrite (Hfree (Blk a n st)), (Hfree c) in Hadj by set_solver. done.
Qed.

Lemma block_end h base bs lim b :
  rep h base bs lim → b ∈ bs → u32 (b_addr b + MCB_SIZE + b_size b) = b_end b.
Proof.
  intros Hr Hb. pose proof (tiles_in _ _ _ _ (rep_tiles _ _ _ _ Hr) Hb).
  pose proof (rep_bounds _ _ _ _ Hr). unfold b_end, MCB_SIZE in *. rewrite u32_small; lia.
Qed.

(** The joined heap again has no neighbouring free blocks. *)
Lemma merge_adj pre1 pre2 post1 post2 b a' n' :
  no_adj ((pre1 ++ pre2) ++ b :: post1 ++ post2) →
  (pre2 = [] ∧ ends_free (pre1 ++ pre2) = false ∨ ∃ c k, pre2 = [Blk c k Free]) →
  (post1 = [] ∧ starts_free (post1 ++ post2) = false ∨ ∃ c k, post1 = [Blk c k Free]) →
  no_adj (pre1 ++ Blk a' n' Free :: post2).
Proof.
  intros Hadj Hpre Hpost. apply no_adj_app in Hadj as (Hpre12 & [_ Hpost12] & _).
  apply no_adj_app in Hpre12 as (Hpre1 & _ & He), Hpost12 as (_ & Hpost2 & Hs).
  apply no_adj_app. split_and!; [done| |].
  - simpl. split; [|done].
    destruct Hpost as [[-> Hx]|(c & k & ->)]; [exact Hx|exact Hs].
  - destruct Hpre as [[-> Hx]|(c & k & ->)]; [by rewrite app_nil_r in Hx; rewrite Hx|].
    simpl in He. exact He.
Qed.

(** What a release of [ptr] may answer. *)
Definition free_outcome h base bs lim (ptr : Z) h' bs' : Prop :=
  heap_ok h' base bs' lim ∧
  ((∃ u, u ∈ used bs ∧ b_addr u + MCB_SIZE ≤ ptr < b_end u ∧ used bs ≡ₚ u :: used bs') ∨
   (h' = h ∧ bs' = bs ∧ ∀ u, u ∈ used bs → ¬ (b_addr u + MCB_SIZE ≤ ptr < b_end u))) ∧
  (used bs' = [] → bs' = [Blk base (lim - base - MCB_SIZE) Free]).

Lemma free_ok h base bs lim ptr :
  heap_ok h base bs lim → bs ≠ [] →
  ∃ h' bs', vsf_bufmgr_free h ptr = Some h' ∧ free_outcome h base bs lim ptr h' bs'.
Proof.
  intros Hok Hne. pose proof Hok as [Hr Hadj Hpend].
  destruct (rep_lists _ _ _ _ Hr Used ltac:(done)) as (l & Hc & Hperm & _). simpl in Hc.
  unfold vsf_bufmgr_free. pose proof Hc as (_ & _ & m & Hm & Hl).
  rewrite (load_nxt_eq _ _ _ Hm). bindr.
  destruct (free_loop_spec (fuel_of h) h (nxt m) l ptr Hl)
    as [[-> Hall]|(x & b & s & Hx & Hp & Hin & ->)].
  { apply chain_fuel in Hc. simpl in Hc. lia. }
  - exists h, bs. split; [done|]. split_and!; try done; [|by intros; eapply all_free].
    right. split_and!; try done. intros u [Hu Hst]%used_elem.
    pose proof (rep_payload _ _ _ _ Hr u Hu ltac:(by rewrite Hst)) as Hp.
    rewrite <- (block_end h base bs lim) by done. apply (Hall _ _ _) with (2 := Hp).
    rewrite Hperm. apply addrs_elem. eauto.
  - rewrite Hperm in Hx. apply addrs_elem in Hx as ([a n st] & Hu & Hst & Hux).
    simpl in Hst, Hux. subst st x.
    pose proof (rep_payload _ _ _ _ Hr _ Hu ltac:(done)) as Hpu. simpl in Hpu.
    rewrite Hp in Hpu. simplify_eq.
    pose proof (block_end _ _ _ _ _ Hr Hu) as He. simpl in He. rewrite He in Hin.
    apply list_elem_of_split in Hu as (pre & post & ->).
    destruct (rep_take h base pre a n Used post lim Hr) as (h1 & Hi & Hr1 & Hp1); [done|].
    simpl in Hi. rewrite Hi. bindr. rewrite <- Hp1 in Hp.
    destruct (merge_mcb_spec _ _ _ _ _ _ _ Hr1 Hp)
      as (h' & pre1 & pre2 & a' & n' & post1 & post2 & -> & -> & -> & Hr' & Hpre & Hpost).
    assert (Hok' : heap_ok h' base (pre1 ++ Blk a' n' Free :: post2) lim).
    { split; [done|by eapply merge_adj|].
      apply Forall_app in Hpend as [[? _]%Forall_app [_ [_ ?]%Forall_app]%Forall_cons].
      apply Forall_app. split; [done|by constructor]. }
    assert (Hu2 : used pre2 = [] ∧ used post1 = []).
    { split; [destruct Hpre as [[-> _]|(? & ? & ->)]|destruct Hpost as [[-> _]|(? & ? & ->)]]; done. }
    eexists h', _. split; [done|].
    split_and!; [done| |intros; eapply all_free; [done..|by destruct pre1]].
    left. exists (Blk a n Used). split_and!; [|simpl; lia|lia|].
    + apply used_elem. split; [apply middle_in|done].
    + destruct Hu2 as [Hpu Hqu]. rewrite !used_app.
      change (used (Blk a n Used :: post1 ++ post2)) with (Blk a n Used :: used (post1 ++ post2)).
      change (used (Blk a' n' Free :: post2)) with (used post2).
      rewrite used_app, Hpu, Hqu, app_nil_r. by rewrite <- Permutation_middle.
Qed.

(** ** Initialisation and histories *)

(** The caller's obligations: an aligned region that ends below 2^32 and does
    not overlap the list heads. *)
Definition region_ok (buf size : Z) : Prop :=
  0 < buf ∧ buf mod 4 = 0 ∧ MCB_SIZE < size ∧ buf + size < 4294967296 ∧
  freed_list ≠ allocated_list ∧ freed_list ≠ NULL ∧ allocated_list ≠ NULL ∧
  (freed_list < buf ∨ buf + size ≤ freed_list) ∧
  (allocated_list < buf ∨ buf + size ≤ allocated_list).

Lemma init_ok h buf size :
  region_ok buf size →
  ∃ h', vsf_bufmgr_init h buf size = Some h' ∧
    heap_ok h' buf [Blk buf (size - MCB_SIZE) Free] (buf + size).
Proof.
  unfold region_ok. intros (H0 & Hm & Hs & He & Hd & Hf0 & Ha0 & Hf & Ha).
  unfold MCB_SIZE in Hs. unfold vsf_bufmgr_init.
  assert (Hb16 : buf + 15 < 4294967296) by (Z.div_mod_to_equations; lia).
  rewrite (u32_small (buf + MCB_SIZE + 3)) by (unfold MCB_SIZE; lia).
  rewrite land_fffffffc by (unfold MCB_SIZE; lia).
  replace (buf + MCB_SIZE + 3 - (buf + MCB_SIZE + 3) mod 4) with (buf + MCB_SIZE)
    by (unfold MCB_SIZE; Z.div_mod_to_equations; lia).
  rewrite (u32_small (buf + size)), (u32_small (buf + size - (buf + MCB_SIZE)))
    by (unfold MCB_SIZE; lia).
  set (hd := {| mbuffer := NULL; msize := 0; mnext := NULL |}).
  set (m := {| mbuffer := _; msize := _; mnext := NULL |}).
  set (h1 := <[buf := m]> _).
  assert (Hbf : buf ≠ freed_list) by lia. assert (Hba : buf ≠ allocated_list) by lia.
  assert (H1b : h1 !! buf = Some m) by apply lookup_insert_eq.
  assert (H1f : h1 !! freed_list = Some hd)
    by (unfold h1; by rewrite !lookup_insert_ne, lookup_insert_eq by done).
  assert (H1a : h1 !! allocated_list = Some hd)
    by (unfold h1; by rewrite lookup_insert_ne, lookup_insert_eq by done).
  rewrite (store_nxt_eq _ _ _ _ H1f). eexists. split; [done|].
  set (h2 := <[freed_list := _]> h1).
  assert (H2b : h2 !! buf = Some m) by (unfold h2; by rewrite lookup_insert_ne by done).
  assert (H2a : h2 !! allocated_list = Some hd) by (unfold h2; by rewrite lookup_insert_ne by done).
  split; [split| |]; simpl.
  - unfold b_end, MCB_SIZE. simpl. split_and!; lia.
  - lia.
  - split; [done|]. intros [] ?; simpl; done || lia.
  - intros b Hb%list_elem_of_singleton _. subst b. simpl. unfold payload. rewrite H2b. simpl.
    do 2 f_equal. unfold MCB_SIZE. lia.
  - intros b Hb%list_elem_of_singleton. subst b. simpl. by eexists.
  - intros [] ?; simpl; [|..|done].
    + exists [buf]. split_and!; [|done|by repeat constructor].
      unfold chain. simpl. split_and!; [done..|]. exists (set_nxt buf hd).
      unfold h2 at 1. rewrite lookup_insert_eq. split_and!; [done..|unfold NULL; lia|].
      exists m. done.
    + exists []. split_and!; [|done|constructor]. by eapply chain_single.
  - done.
  - by repeat constructor.
Qed.

Lemma ok_nonempty h base bs lim : heap_ok h base bs lim → base < lim → bs ≠ [].
Proof. intros [Hr _ _] Hlt ->. pose proof (rep_tiles _ _ _ _ Hr) as Ht. simpl in Ht. lia. Qed.

(** The operations of a client. *)
Inductive request := Malloc (size align : Z) | Release (ptr : Z).

Definition request_ok (r : request) : Prop :=
  match r with
  | Malloc size align =>
      0 < size ∧ 0 ≤ align ∧ Z.max align VSF_BUFMGR_DEFAULT_ALIGN mod 4 = 0 ∧
      size + Z.max align VSF_BUFMGR_DEFAULT_ALIGN + 3 < 4294967296
  | Release _ => True
  end.

Definition exec h (r : request) : option heap :=
  match r with
  | Malloc size align => snd <$> vsf_bufmgr_malloc_aligned h size align
  | Release ptr => vsf_bufmgr_free h ptr
  end.

Fixpoint exec_all h (rs : list request) : option heap :=
  match rs with
  | [] => Some h
  | r :: rs => h ← exec h r; exec_all h rs
  end.

(** C27: from an initialised region every sequence of allocations and releases
    (double and stray releases included) runs to completion, leaves the region
    exactly tiled by blocks whose headers are the two lists and none of whose
    free blocks are neighbours, and whenever all blocks are free again the
    whole region is one free block. *)
Theorem vsf_bufmgr_history h buf size rs :
  region_ok buf size → Forall request_ok rs →
  ∃ h0 h' bs, vsf_bufmgr_init h buf size = Some h0 ∧ exec_all h0 rs = Some h' ∧
    heap_ok h' buf bs (buf + size) ∧
    (used bs = [] → bs = [Blk buf (size - MCB_SIZE) Free]).
Proof.
  intros Hreg Hrs. destruct (init_ok h buf size Hreg) as (h0 & Hi & Hok).
  assert (Hlt : buf < buf + size) by (unfold region_ok, MCB_SIZE in Hreg; lia).
  assert (Hgen : ∀ h1 bs1, heap_ok h1 buf bs1 (buf + size) →
    ∃ h' bs, exec_all h1 rs = Some h' ∧ heap_ok h' buf bs (buf + size)).
  { clear -Hrs Hlt. induction Hrs as [|r rs Hr Hrs IH]; intros h1 bs1 Hok; [by exists h1, bs1|].
    simpl. destruct r as [sz al|ptr]; simpl in *.
    - destruct Hr as (H1 & H2 & H3 & H4).
      destruct (malloc_ok h1 buf bs1 (buf + size) sz al Hok H1 H2 H3 H4)
        as (ptr & h2 & -> & [(-> & -> & _)|(bs2 & u & f & Hok2 & _)]); simpl; eauto.
    - pose proof (ok_nonempty _ _ _ _ Hok Hlt) as Hne.
      destruct (free_ok h1 buf bs1 (buf + size) ptr Hok Hne) as (h2 & bs2 & -> & Hok2 & _).
      simpl. eauto. }
  destruct (Hgen h0 _ Hok) as (h' & bs & Hex & Hok').
  exists h0, h', bs. split_and!; try done. intros Hu.
  rewrite (all_free _ _ _ _ Hok' Hu (ok_nonempty _ _ _ _ Hok' Hlt)). repeat f_equal. lia.
Qed.

(** C2: [vsf_bufmgr_malloc_aligned] on any reachable heap, for an alignment
    that is a multiple of 4 (smaller ones count as 4) and a request that does
    not overflow 32 bits when rounded.  It terminates; it returns NULL and
    changes nothing exactly when no free block can hold the rounded request
    with its padding; otherwise ([malloc_outcome]) the pointer is aligned, the
    requested bytes lie inside one newly allocated block cut from the smallest
    free block that fits, all other allocated blocks are kept and disjoint from
    it, and the heap is again tiled by blocks without neighbouring free ones. *)
Theorem vsf_bufmgr_malloc_correct h base bs lim size align :
  heap_ok h base bs lim → 0 < size → 0 ≤ align →
  let al := Z.max align VSF_BUFMGR_DEFAULT_ALIGN in
  al mod 4 = 0 → size + al + 3 < 4294967296 →
  ∃ ptr h', vsf_bufmgr_malloc_aligned h size align = Some (ptr, h') ∧
    malloc_outcome h base bs lim size al ptr h'.
Proof. apply malloc_ok. Qed.

(** C3: [vsf_bufmgr_free] on any reachable heap terminates ([free_outcome]).  A
    pointer into the buffer of an allocated block releases exactly that block,
    joined with its free neighbours on both sides; any other pointer changes
    nothing.  Once no block is allocated the heap is a single free block. *)
Theorem vsf_bufmgr_free_correct h base bs lim ptr :
  heap_ok h base bs lim → bs ≠ [] →
  ∃ h' bs', vsf_bufmgr_free h ptr = Some h' ∧ free_outcome h base bs lim ptr h' bs'.
Proof. apply free_ok. Qed.

Lemma round_size_overflow size :
  4294967292 < size < 4294967296 → round_size size = 0.
Proof.
  intros Hs. unfold round_size. change 0x3 with (Z.ones 2). rewrite Z.land_ones by lia.
  change (2 ^ 2) with 4. rewrite decide_False by (Z.div_mod_to_equations; lia).
  rewrite land_fffffffc by lia.
  by replace (size - size mod 4 + 4) with 4294967296 by (Z.div_mod_to_equations; lia).
Qed.

Lemma carve_zero a n :
  MCB_SIZE < n → carve a n 0 0 = [Blk a 0 Used; Blk (a + MCB_SIZE) (n - MCB_SIZE) Free].
Proof.
  intros Hn. unfold carve, carve_tail.
  change (MCB_SIZE + VSF_BUFMGR_DEFAULT_ALIGN <=? 0) with false. cbv iota.
  rewrite (Z.add_0_l 0), Z.add_0_l, Z.add_0_r, Z.sub_0_r.
  by destruct (Z.ltb_spec MCB_SIZE n); [|lia].
Qed.

Lemma heap_align_offset a : a mod 4 = 0 → align_offset (a + MCB_SIZE) 4 = 0.
Proof.
  intros. unfold align_offset.
  by rewrite decide_True by (unfold MCB_SIZE; Z.div_mod_to_equations; lia).
Qed.

(** A request of the last three byte counts below 2^32 wraps to 0 when it is
    rounded up to a multiple of 4, so a heap with a free block of more than 12
    bytes as its smallest never refuses it: it answers a pointer to a block of
    size 0, which is the address of the header of the free block behind it, and
    which [vsf_bufmgr_free] does not find again. *)
Theorem vsf_bufmgr_malloc_overflow h base bs lim size align f :
  heap_ok h base bs lim → 4294967292 < size < 4294967296 → 0 ≤ align ≤ 4 →
  f ∈ bs → b_st f = Free → (∀ b, b ∈ bs → b_st b = Free → MCB_SIZE < b_size b) →
  ∃ pre a n post h', bs = pre ++ Blk a n Free :: post ∧
    vsf_bufmgr_malloc_aligned h size align = Some (a + MCB_SIZE, h') ∧
    heap_ok h' base (pre ++ Blk a 0 Used :: Blk (a + MCB_SIZE) (n - MCB_SIZE) Free :: post) lim ∧
    vsf_bufmgr_free h' (a + MCB_SIZE) = Some h'.
Proof.
  intros [Hr Hadj Hpend] Hs Ha Hf Hfs Hbig.
  pose proof (round_size_overflow size Hs) as Hround.
  destruct (rep_lists _ _ _ _ Hr Free ltac:(done)) as (l & Hc & Hperm & Hsort).
  assert (Hfl : b_addr f ∈ l) by (rewrite Hperm; by apply free_elem).
  destruct l as [|a l]; [by apply not_elem_of_nil in Hfl|].
  assert (Hal : a ∈ addrs Free bs) by (rewrite <- Hperm; set_solver).
  apply addrs_elem in Hal as ([a' n st] & Hb & Hst & Heq). simpl in Hst, Heq. subst a' st.
  pose proof (rep_payload _ _ _ _ Hr _ Hb ltac:(done)) as Hp. simpl in Hp.
  pose proof (Hbig _ Hb ltac:(done)) as Hn. simpl in Hn.
  pose proof Hb as (pre & post & ->)%list_elem_of_split.
  pose proof (rep_range _ _ _ _ _ _ _ _ Hr) as Hra.
  destruct (payload_lookup _ _ _ _ Hp) as [x Hx].
  destruct (take_spec h base pre a n post lim 0 0 Hr) as (h' & Ht & Hr'); try done; try lia.
  { unfold MCB_SIZE. Z.div_mod_to_equations; lia. }
  rewrite Z.add_0_r in Ht.
  rewrite carve_zero in Hr' by done. cbn [app] in Hr'.
  set (bs' := pre ++ _) in Hr'.
  assert (Hok : heap_ok h' base bs' lim).
  { split; [done| |].
    - apply (no_adj_replace pre [Blk a n Free] [Blk a 0 Used; Blk (a + MCB_SIZE) (n - MCB_SIZE) Free]);
        done.
    - apply Forall_app in Hpend as [? [_ ?]%Forall_cons]. apply Forall_app.
      split; [done|]. by repeat constructor. }
  exists pre, a, n, post, h'. split; [done|]. split; [|split; [exact Hok|]].
  - unfold vsf_bufmgr_malloc_aligned. pose proof Hc as (_ & _ & m & Hm & Hl).
    simpl in Hm. rewrite (load_nxt_eq _ _ _ Hm). bindr. rewrite decide_False by lia.
    replace (if align <? VSF_BUFMGR_DEFAULT_ALIGN then VSF_BUFMGR_DEFAULT_ALIGN else align) with 4
      by (unfold VSF_BUFMGR_DEFAULT_ALIGN; destruct (Z.ltb_spec align 4); lia).
    pose proof (heap_align_offset a ltac:(lia)) as Hoff.
    rewrite Hround. unfold fuel_of. cbn [vsf_bufmgr_malloc_loop].
    destruct Hl as (-> & Ha0 & _). rewrite decide_False by done. rewrite Hx. bindr.
    cbn [mbuffer msize]. rewrite Hoff. change (u32 (0 + 0)) with 0.
    destruct (Z.leb_spec 0 n); [|lia]. by rewrite Ht.
  - destruct (free_ok h' base bs' lim (a + MCB_SIZE) Hok) as (h2 & bs2 & Hfr & _ & Hout & _).
    { by destruct pre. }
    destruct Hout as [(u & Hu & Hin & _)|(-> & _)]; [|done]. exfalso.
    apply used_elem in Hu as [Hu Hus].
    destruct (tiles_sep _ _ _ u (Blk a 0 Used) (rep_tiles _ _ _ _ Hr') Hu) as [->|Hsep].
    + apply middle_in.
    + unfold b_end in Hin. simpl in Hin. lia.
    + assert (Hd : Blk (a + MCB_SIZE) (n - MCB_SIZE) Free ∈ bs') by (unfold bs'; set_solver).
      destruct (tiles_sep _ _ _ u _ (rep_tiles _ _ _ _ Hr') Hu Hd) as [->|Hsep2]; [done|].
      unfold b_end, MCB_SIZE in *. simpl in *. lia.
Qed.
End Bufmgr.

(** ** Witnesses: a heap of 1 KiB at 0x1000 *)

Definition demo_heap : heap := default ∅ (vsf_bufmgr_init 4 20 ∅ 0x1000 0x400).

Lemma demo_region : region_ok 4 20 0x1000 0x400.
Proof. unfold region_ok, MCB_SIZE, NULL. split_and!; try lia. done. Qed.

Lemma demo_heap_ok :
  heap_ok 4 20 demo_heap 0x1000 [Blk 0x1000 1012 Free] 0x1400.
Proof.
  destruct (init_ok 4 20 ∅ 0x1000 0x400 demo_region) as (h & Hi & Hok).
  unfold demo_heap. rewrite Hi. exact Hok.
Qed.

Lemma vsf_bufmgr_malloc_correct_witness :
  ∃ ptr h', vsf_bufmgr_malloc_aligned 4 20 demo_heap 10 64 = Some (ptr, h') ∧
    malloc_outcome 4 20 demo_heap 0x1000 [Blk 0x1000 1012 Free] 0x1400 10 64 ptr h'.
Proof.
  exact (vsf_bufmgr_malloc_correct 4 20 demo_heap 0x1000 [Blk 0x1000 1012 Free] 0x1400 10 64
    demo_heap_ok ltac:(lia) ltac:(lia) eq_refl ltac:(by_decide)).
Defined.

Lemma vsf_bufmgr_free_correct_witness :
  ∃ h' bs', vsf_bufmgr_free 4 20 demo_heap 0x1010 = Some h' ∧
    free_outcome 4 20 demo_heap 0x1000 [Blk 0x1000 1012 Free] 0x1400 0x1010 h' bs'.
Proof.
  exact (vsf_bufmgr_free_correct 4 20 demo_heap 0x1000 [Blk 0x1000 1012 Free] 0x1400 0x1010
    demo_heap_ok ltac:(done)).
Defined.

Lemma vsf_bufmgr_history_witness :
  ∃ h0 h' bs, vsf_bufmgr_init 4 20 ∅ 0x1000 0x400 = Some h0 ∧
    exec_all 4 20 h0 [Malloc 10 64; Malloc 100 4; Release 0x1040; Release 0x1058] = Some h' ∧
    heap_ok 4 20 h' 0x1000 bs 0x1400.
Proof.
  destruct (vsf_bufmgr_history 4 20 ∅ 0x1000 0x400
    [Malloc 10 64; Malloc 100 4; Release 0x1040; Release 0x1058] demo_region)
    as (h0 & h' & bs & H1 & H2 & H3 & _).
  - repeat constructor; vm_compute; congruence.
  - exists h0, h', bs. split; [exact H1|]. split; [exact H2|exact H3].
Defined.

Lemma vsf_bufmgr_malloc_overflow_witness :
  ∃ pre a n post h', [Blk 0x1000 1012 Free] = pre ++ Blk a n Free :: post ∧
    vsf_bufmgr_malloc_aligned 4 20 demo_heap 0xFFFFFFFF 4 = Some (a + MCB_SIZE, h').
Proof.
  destruct (vsf_bufmgr_malloc_overflow 4 20 demo_heap 0x1000 [Blk 0x1000 1012 Free] 0x1400
    0xFFFFFFFF 4 (Blk 0x1000 1012 Free) demo_heap_ok) as (pre & a & n & post & h' & H1 & H2 & _).
  - lia.
  - lia.
  - apply list_elem_of_here.
  - reflexivity.
  - intros b Hb%list_elem_of_singleton _. subst b. simpl. unfold MCB_SIZE. lia.
  - exists pre, a, n, post, h'. split; [exact H1|exact H2].
Defined.
