(* ===== verification/Pool.v ===== *)
(** * Pool: fixed-size slots (vsfpool_* of buffer.c)

    A pool of [item_num] slots of [item_size] bytes at [buffer]; bit [i] of
    the mask array [flags] says that slot [i] is taken.  [flags] is the memory
    from the mask array on, in 32-bit words, so that an access behind the
    array proper is an access to the words that follow it. *)

From S2P Require Import Prelude Bits.

Record vsfpool_t := { flags : list Z; buffer : Z; item_size : Z; item_num : Z }.

Definition with_flags (p : vsfpool_t) (f : list Z) : vsfpool_t :=
  {| flags := f; buffer := buffer p; item_size := item_size p; item_num := item_num p |}.

(** [memset(p, 0, n)] over little-endian words. *)
Fixpoint memset0 (ws : list Z) (n : Z) : option (list Z) :=
  if n <=? 0 then Some ws
  else match ws with
       | [] => None
       | w :: ws =>
           if 4 <=? n then ws ← memset0 ws (n - 4); Some (0 :: ws)
           else Some (Z.shiftl (Z.shiftr w (8 * n)) (8 * n) :: ws)
       end.

Definition vsfpool_init (p : vsfpool_t) : option vsfpool_t :=
  let item_size := Z.land (u32 (item_size p + 3)) (u32 (Z.lnot 3)) in
  f ← memset0 (flags p) (Z.shiftr (u32 (item_num p + 31)) 3);
  Some {| flags := f; buffer := buffer p; item_size := item_size; item_num := item_num p |}.

(** The address of the slot, NULL (0) when the pool is full. *)
Definition vsfpool_alloc (p : vsfpool_t) : option (Z * vsfpool_t) :=
  r ← mskarr_ffz (flags p) (Z.shiftr (u32 (item_num p + 31)) 5);
  let index := u32 r in
  if item_num p <=? index then Some (0, p)
  else
    f ← mskarr_set (flags p) index;
    Some (u32 (buffer p + index * item_size p), with_flags p f).

Definition vsfpool_free (p : vsfpool_t) (ptr : Z) : option (bool * vsfpool_t) :=
  if decide (item_size p = 0) then None
  else
    let index := u32 (ptr - buffer p) / item_size p in
    if index <? item_num p then
      f ← mskarr_clr (flags p) index;
      Some (true, with_flags p f)
    else Some (false, p).

(** ** Specification: the set of taken slots *)

(** The number of words of the mask array. *)
Definition mask_words (num : Z) : Z := (num + 31) / 32.

Definition slot_addr (p : vsfpool_t) (i : Z) : Z := buffer p + i * item_size p.

(** The pool lies below 2^32, its mask array is there, and [S] is taken. *)
Record pool_ok (p : vsfpool_t) (S : gset Z) : Prop := {
  ok_flags : Forall (fits 32) (flags p);
  ok_words : mask_words (item_num p) ≤ Z.of_nat (length (flags p));
  ok_num : 0 ≤ item_num p ∧ item_num p + 31 < 4294967296;
  ok_size : 0 < item_size p;
  ok_mem : 0 < buffer p ∧ buffer p + item_num p * item_size p < 4294967296;
  ok_taken : ∀ i, i ∈ S ↔ 0 ≤ i < item_num p ∧ mskarr_bit (flags p) i = true }.

Lemma mask_words_eq num :
  0 ≤ num → num + 31 < 4294967296 → Z.shiftr (u32 (num + 31)) 5 = mask_words num.
Proof. intros. rewrite u32_small by lia. by rewrite Z.shiftr_div_pow2. Qed.

Lemma mask_words_cover num : 0 ≤ num → num ≤ 32 * mask_words num < num + 32.
Proof. intros. unfold mask_words. Z.div_mod_to_equations; lia. Qed.

Lemma taken_range p S i : pool_ok p S → 0 ≤ i < item_num p → 0 ≤ i < 32 * Z.of_nat (length (flags p)).
Proof.
  intros Hp Hi. pose proof (mask_words_cover (item_num p) ltac:(lia)).
  pose proof (ok_words _ _ Hp). lia.
Qed.

Lemma slot_addr_bounds p S i :
  pool_ok p S → 0 ≤ i < item_num p →
  buffer p ≤ slot_addr p i ∧ slot_addr p i + item_size p ≤ buffer p + item_num p * item_size p.
Proof.
  intros Hp Hi. pose proof (ok_size _ _ Hp). unfold slot_addr.
  assert ((i + 1) * item_size p ≤ item_num p * item_size p) by (apply Z.mul_le_mono_nonneg_r; lia).
  assert (0 ≤ i * item_size p) by (apply Z.mul_nonneg_nonneg; lia). lia.
Qed.

Lemma pool_alloc_ok p S :
  pool_ok p S →
  (∃ i p', vsfpool_alloc p = Some (slot_addr p i, p') ∧ 0 ≤ i < item_num p ∧ i ∉ S ∧
     (∀ j, 0 ≤ j < i → j ∈ S) ∧ pool_ok p' ({[i]} ∪ S) ∧ ∃ f, p' = with_flags p f) ∨
  ((∀ i, 0 ≤ i < item_num p → i ∈ S) ∧ vsfpool_alloc p = Some (0, p)).
Proof.
  intros Hp. destruct (ok_num _ _ Hp) as [Hn0 Hn]. pose proof (ok_words _ _ Hp) as Hw.
  pose proof (mask_words_cover (item_num p) Hn0) as Hcov.
  unfold vsfpool_alloc. rewrite mask_words_eq by done.
  destruct (mskarr_ffz_spec (flags p) (mask_words (item_num p)) (ok_flags _ _ Hp))
    as (r & -> & Hr); [lia|]. bindr.
  assert (Hfull : (∀ i, 0 ≤ i < item_num p → mskarr_bit (flags p) i = true) →
    item_num p ≤ u32 r → ((∀ i, 0 ≤ i < item_num p → i ∈ S) ∧
      (if item_num p <=? u32 r then Some (0, p) else
       f ← mskarr_set (flags p) (u32 r);
       Some (u32 (buffer p + u32 r * item_size p), with_flags p f)) = Some (0, p))).
  { intros Hall Hge. split; [intros i Hi; apply (ok_taken _ _ Hp); auto|].
    by destruct (Z.leb_spec (item_num p) (u32 r)); [|lia]. }
  destruct Hr as [[-> Hall]|(Hr1 & Hclr & Hall)].
  { right. apply Hfull; [intros i Hi; apply Hall; lia|]. change (u32 (-1)) with 4294967295. lia. }
  destruct (decide (item_num p ≤ r)) as [Hge|Hlt].
  { right. apply Hfull; [intros i Hi; apply Hall; lia|]. rewrite u32_small; lia. }
  left. rewrite u32_small by lia. destruct (Z.leb_spec (item_num p) r); [lia|].
  destruct (mskarr_set_spec (flags p) r (ok_flags _ _ Hp)) as (f & -> & Hf & Hlen & Hbits);
    [eapply taken_range; [done|lia]|]. bindr.
  pose proof (slot_addr_bounds p S r Hp ltac:(lia)). pose proof (ok_mem _ _ Hp).
  pose proof (ok_size _ _ Hp).
  exists r, (with_flags p f). split_and!; try done; try lia; [| | | |by exists f].
  - do 2 f_equal. unfold slot_addr in *. apply u32_small. lia.
  - rewrite (ok_taken _ _ Hp). rewrite Hclr. intros [_ ?]. done.
  - intros j Hj. apply (ok_taken _ _ Hp). split; [lia|]. by apply Hall.
  - split; simpl; try apply Hp; try done; [by rewrite Hlen|].
    intros i. rewrite elem_of_union, elem_of_singleton, (ok_taken _ _ Hp). split.
    + intros [->|[Hi Hb]]; (split; [lia|]); rewrite Hbits by lia; [by rewrite bool_decide_true|].
      by rewrite Hb, orb_true_r.
    + intros [Hi Hb]. rewrite Hbits in Hb by lia. apply orb_true_iff in Hb as [Hb|Hb]; [|by right].
      left. by apply bool_decide_eq_true in Hb.
Qed.

Lemma pool_free_ok p S ptr :
  pool_ok p S → 0 ≤ ptr < 4294967296 →
  let i := (ptr - buffer p) / item_size p in
  (buffer p ≤ ptr < buffer p + item_num p * item_size p ∧ 0 ≤ i < item_num p ∧
     ∃ p', vsfpool_free p ptr = Some (true, p') ∧ pool_ok p' (S ∖ {[i]})) ∨
  (¬ (buffer p ≤ ptr < buffer p + item_num p * item_size p) ∧
     vsfpool_free p ptr = Some (false, p)).
Proof.
  intros Hp Hptr i. pose proof (ok_size _ _ Hp) as Hs. pose proof (ok_mem _ _ Hp) as [Hb0 Hb].
  unfold vsfpool_free. rewrite decide_False by lia.
  destruct (decide (buffer p ≤ ptr < buffer p + item_num p * item_size p)) as [Hin|Hout].
  - left. rewrite u32_sub_small by lia. fold i.
    assert (Hi : 0 ≤ i < item_num p).
    { split; [apply Z.div_pos; lia|apply Z.div_lt_upper_bound; lia]. }
    split; [done|]. split; [done|]. destruct (Z.ltb_spec i (item_num p)); [|lia].
    destruct (mskarr_clr_spec (flags p) i (ok_flags _ _ Hp)) as (f & -> & Hf & Hlen & Hbits);
      [eapply taken_range; [done|lia]|]. bindr.
    exists (with_flags p f). split_and!; try done.
    split; simpl; try apply Hp; try done; [rewrite Hlen; apply Hp|].
    intros j. rewrite elem_of_difference, elem_of_singleton, (ok_taken _ _ Hp). split.
    + intros [[Hj Hbj] Hne]. split; [done|]. rewrite Hbits by lia.
      by rewrite Hbj, bool_decide_false.
    + intros [Hj Hbj]. rewrite Hbits in Hbj by lia. apply andb_true_iff in Hbj as [Hne Hbj].
      split; [done|]. intros ->. by rewrite bool_decide_true in Hne.
  - right. split; [done|].
    assert (0 ≤ item_num p * item_size p)
      by (apply Z.mul_nonneg_nonneg; [apply (ok_num _ _ Hp)|lia]).
    assert (Hge : item_num p ≤ u32 (ptr - buffer p) / item_size p).
    { apply Z.div_le_lower_bound; [lia|]. rewrite Z.mul_comm.
      destruct (decide (buffer p ≤ ptr)); [rewrite u32_small; lia|].
      unfold u32, wrap. rewrite <- (Z.mod_unique_pos (ptr - buffer p) (2 ^ 32) (-1)
        (ptr - buffer p + 4294967296)); lia. }
    by destruct (Z.ltb_spec (u32 (ptr - buffer p) / item_size p) (item_num p)); [lia|].
Qed.

(** a pool is a set of taken slots.  [vsfpool_alloc] takes the lowest free
    slot and returns its address, or NULL exactly when every slot is taken;
    [vsfpool_free] gives back the slot that contains the pointer (whether or
    not it was taken, and wherever in the slot it points) and answers [false]
    without change for a pointer outside the pool.  Slots do not overlap, and
    freeing what was just allocated gives the former set back. *)
Theorem vsfpool_refines_set p S ptr :
  pool_ok p S → 0 ≤ ptr < 4294967296 →
  ((∃ i p', vsfpool_alloc p = Some (slot_addr p i, p') ∧ 0 ≤ i < item_num p ∧ i ∉ S ∧
      (∀ j, 0 ≤ j < i → j ∈ S) ∧ pool_ok p' ({[i]} ∪ S) ∧
      (∀ j, j ≠ i → 0 ≤ j → slot_addr p j + item_size p ≤ slot_addr p i ∨
                            slot_addr p i + item_size p ≤ slot_addr p j) ∧
      ∃ p'', vsfpool_free p' (slot_addr p i) = Some (true, p'') ∧ pool_ok p'' S) ∨
   ((∀ i, 0 ≤ i < item_num p → i ∈ S) ∧ vsfpool_alloc p = Some (0, p))) ∧
  let i := (ptr - buffer p) / item_size p in
  ((buffer p ≤ ptr < buffer p + item_num p * item_size p ∧ 0 ≤ i < item_num p ∧
     ∃ p', vsfpool_free p ptr = Some (true, p') ∧ pool_ok p' (S ∖ {[i]})) ∨
   (¬ (buffer p ≤ ptr < buffer p + item_num p * item_size p) ∧
     vsfpool_free p ptr = Some (false, p))).
Proof.
  intros Hp Hptr. split.
  - destruct (pool_alloc_ok p S Hp) as [(i & p' & Ha & Hi & Hni & Hlow & Hp' & Hf)|?]; [left|by right].
    exists i, p'. split_and!; try done; try lia.
    + intros j Hj Hj0. pose proof (ok_size _ _ Hp). unfold slot_addr.
      destruct (decide (j < i)).
      * left. assert ((j + 1) * item_size p ≤ i * item_size p)
          by (apply Z.mul_le_mono_nonneg_r; lia). lia.
      * right. assert ((i + 1) * item_size p ≤ j * item_size p)
          by (apply Z.mul_le_mono_nonneg_r; lia). lia.
    + destruct (pool_free_ok p' _ (slot_addr p i) Hp') as [(_ & _ & p'' & Hfr & Hp'')|[Hout _]].
      * pose proof (slot_addr_bounds p S i Hp Hi). pose proof (ok_size _ _ Hp).
        pose proof (ok_mem _ _ Hp). lia.
      * exists p''. split; [done|]. destruct Hf as [f ->].
        assert (Hidx : (slot_addr p i - buffer p) / item_size p = i).
        { unfold slot_addr. replace (buffer p + i * item_size p - buffer p) with (i * item_size p)
            by lia. apply Z.div_mul. pose proof (ok_size _ _ Hp). lia. }
        simpl in Hp''. rewrite Hidx in Hp''.
        by replace (({[i]} ∪ S) ∖ {[i]}) with S in Hp'' by set_solver.
      * destruct Hf as [f ->]. simpl in Hout. exfalso. apply Hout.
        pose proof (slot_addr_bounds p S i Hp Hi). pose proof (ok_size _ _ Hp). lia.
  - by apply pool_free_ok.
Qed.

(** ** Initialisation *)

(** The bytes [vsfpool_init] clears behind the mask array. *)
Definition overrun (num : Z) : Z := (num + 31) / 8 - 4 * mask_words num.

Lemma overrun_range num :
  0 ≤ num → 0 ≤ overrun num ≤ 3 ∧ (overrun num = 0 ↔ 1 ≤ num mod 32 ≤ 8).
Proof. intros. unfold overrun, mask_words. Z.div_mod_to_equations; lia. Qed.

(** Clearing [4 k + j] bytes clears [k] words and the low [j] bytes of the
    next one. *)
Lemma memset0_spec k j ws w rest :
  0 ≤ j < 4 → length ws = k →
  memset0 (ws ++ w :: rest) (4 * Z.of_nat k + j) =
    Some (replicate k 0 ++ Z.shiftl (Z.shiftr w (8 * j)) (8 * j) :: rest).
Proof.
  intros Hj. revert k. induction ws as [|x ws IH]; intros k Hk; subst k; simpl.
  - replace (4 * Z.of_nat 0 + j) with j by lia.
    destruct (Z.leb_spec j 0), (Z.leb_spec 4 j); try lia; [|done].
    assert (j = 0) as -> by lia. by rewrite Z.mul_0_r, Z.shiftr_0_r, Z.shiftl_0_r.
  - destruct (Z.leb_spec (4 * Z.of_nat (S (length ws)) + j) 0); [lia|].
    destruct (Z.leb_spec 4 (4 * Z.of_nat (S (length ws)) + j)); [|lia].
    replace (4 * Z.of_nat (S (length ws)) + j - 4) with (4 * Z.of_nat (length ws) + j) by lia.
    by rewrite IH.
Qed.

Lemma mskarr_bit_zero k rest i :
  0 ≤ i < 32 * Z.of_nat k → mskarr_bit (replicate k 0 ++ rest) i = false.
Proof.
  intros Hi. unfold mskarr_bit.
  assert (Hd : 0 ≤ i / 32 < Z.of_nat k) by (Z.div_mod_to_equations; lia).
  unfold getb. rewrite decide_True by lia.
  rewrite lookup_app_l, lookup_replicate_2 by (rewrite ?length_replicate; lia). apply Z.bits_0.
Qed.

(** [vsfpool_init] rounds the slot size up to a multiple of 4 and empties
    the pool, but the length it gives to [memset] is in units of 8 slots rounded
    up as if they were 32: it also clears [overrun] bytes of the word that
    follows the mask array, none only if the number of slots modulo 32 is
    between 1 and 8. *)
Theorem vsfpool_init_overruns p w :
  Forall (fits 32) (flags p) → 0 ≤ item_num p → item_num p + 31 < 4294967296 →
  flags p !! Z.to_nat (mask_words (item_num p)) = Some w →
  0 < item_size p → item_size p + 3 < 4294967296 → 0 < buffer p →
  let sz := (item_size p + 3) / 4 * 4 in
  buffer p + item_num p * sz < 4294967296 →
  let k := overrun (item_num p) in
  ∃ p', vsfpool_init p = Some p' ∧ pool_ok p' ∅ ∧ item_size p' = sz ∧
    flags p' !! Z.to_nat (mask_words (item_num p)) = Some (Z.shiftl (Z.shiftr w (8 * k)) (8 * k)) ∧
    drop (S (Z.to_nat (mask_words (item_num p)))) (flags p')
      = drop (S (Z.to_nat (mask_words (item_num p)))) (flags p) ∧
    0 ≤ k ≤ 3 ∧ (k = 0 ↔ 1 ≤ item_num p mod 32 ≤ 8).
Proof.
  intros Hfl Hn0 Hn Hw Hs0 Hs Hb0 sz Hb k. unfold vsfpool_init.
  destruct (overrun_range (item_num p) Hn0) as [Hk Hk0]. fold k in Hk, Hk0.
  rewrite (u32_small (item_size p + 3)), (u32_small (item_num p + 31)) by lia.
  change (u32 (Z.lnot 3)) with 0xfffffffc. rewrite land_fffffffc by lia.
  replace (item_size p + 3 - (item_size p + 3) mod 4) with sz
    by (unfold sz; Z.div_mod_to_equations; lia).
  set (W := Z.to_nat (mask_words (item_num p))) in *.
  assert (HW : Z.of_nat W = mask_words (item_num p))
    by (unfold W; pose proof (mask_words_cover _ Hn0); lia).
  rewrite Z.shiftr_div_pow2 by lia. change (2 ^ 3) with 8.
  replace ((item_num p + 31) / 8) with (4 * Z.of_nat W + k) by (unfold k, overrun; lia).
  pose proof (list_elem_of_split_length _ _ _ Hw) as (l1 & l2 & Hsp & Hl1).
  rewrite Hsp, memset0_spec by (done || lia). bindr.
  eexists. split; [done|]. simpl. split_and!; try done; try lia.
  - split; simpl.
    + rewrite Hsp in Hfl. apply Forall_app in Hfl as [_ [Hfw Hf2]%Forall_cons].
      apply Forall_app. split; [by apply Forall_replicate|]. constructor; [|done].
      split; [apply Z.shiftl_nonneg, Z.shiftr_nonneg, Hfw|].
      rewrite Z.shiftl_mul_pow2, Z.shiftr_div_pow2 by lia.
      pose proof (Z.mul_div_le w (2 ^ (8 * k)) ltac:(apply Z.pow_pos_nonneg; lia)).
      unfold fits in Hfw. lia.
    + rewrite length_app, length_replicate. lia.
    + lia.
    + unfold sz. Z.div_mod_to_equations; lia.
    + lia.
    + intros i. rewrite elem_of_empty. split; [done|]. intros [Hi Hbit].
      rewrite mskarr_bit_zero in Hbit; [done|].
      pose proof (mask_words_cover _ Hn0). lia.
  - by rewrite lookup_app_r, length_replicate, Nat.sub_diag by (by rewrite length_replicate).
  - rewrite !drop_app, length_replicate, Hl1.
    rewrite (drop_ge l1), drop_ge by (rewrite ?length_replicate; lia).
    by replace (S (length l1) - length l1)%nat with 1%nat by lia.
Qed.

(** ** Witnesses *)

Definition demo_pool : vsfpool_t :=
  {| flags := [0x80; 0xFFFFFFFF; 7]; buffer := 0x2000; item_size := 6; item_num := 30 |}.

Lemma vsfpool_init_overruns_witness :
  ∃ p', vsfpool_init demo_pool = Some p' ∧ pool_ok p' ∅ ∧
        flags p' !! 1%nat = Some 0xFF000000.
Proof.
  destruct (vsfpool_init_overruns demo_pool 0xFFFFFFFF) as (p' & H1 & H2 & _ & H3 & _).
  - by_decide.
  - simpl. lia.
  - simpl. lia.
  - reflexivity.
  - simpl. lia.
  - simpl. lia.
  - simpl. lia.
  - vm_compute. reflexivity.
  - exists p'. split; [exact H1|]. split; [exact H2|exact H3].
Defined.

Definition demo_pool1 : vsfpool_t :=
  {| flags := [3; 0]; buffer := 0x2000; item_size := 8; item_num := 30 |}.

Lemma demo_pool1_ok : pool_ok demo_pool1 {[0; 1]}.
Proof.
  split; simpl; try lia; [by_decide|unfold mask_words; vm_compute; congruence|].
  intros i. rewrite elem_of_union, !elem_of_singleton. split.
  - intros [->| ->]; (split; [lia|reflexivity]).
  - intros [Hi Hb]. destruct (decide (i < 2)); [lia|]. exfalso.
    rewrite (mskarr_bit_word _ i 3) in Hb
      by (unfold getb; by replace (i / 32) with 0 by (Z.div_mod_to_equations; lia)).
    rewrite (testbit_fits 2) in Hb; [done|by vm_compute|].
    rewrite Z.mod_small by lia. lia.
Qed.

Lemma vsfpool_refines_set_witness :
  ∃ p', vsfpool_free demo_pool1 0x200B = Some (true, p') ∧ pool_ok p' ({[0; 1]} ∖ {[1]}).
Proof.
  destruct (vsfpool_refines_set demo_pool1 {[0; 1]} 0x200B demo_pool1_ok ltac:(lia))
    as [_ [(_ & _ & p' & H1 & H2)|[Hout _]]].
  - exists p'. split; [exact H1|exact H2].
  - exfalso. apply Hout. simpl. lia.
Defined.
