(* ===== verification/Vsfsm.v ===== *)
(** * Vsfsm: event queues and state machines (vsfsm.c)

    The kernel of the framework in its default configuration (preemption and
    synchronisation enabled, hierarchical machines and the active flag not).
    A world holds the state machines, the event queues, the current queue and
    the trace of calls into application code.  Application handlers are the
    parameter [evt_handler]; the section between DISABLE and
    SET_GLOBAL_INTERRUPT_STATE is one step, and [vsfsm_poll] is cut where an
    interrupt can come: between moving the head and the counters. *)

From S2P Require Import Prelude Chain.

(** Events (vsfsm.h). *)
Definition VSFSM_EVT_INVALID : Z := -1.
Definition VSFSM_EVT_INIT : Z := 2.
Definition VSFSM_EVT_TIMER : Z := 4.
Definition VSFSM_EVT_INSTANT_MSK : Z := 0x2000.
Definition VSFSM_EVT_LOCAL_MSK : Z := 0x4000.
Definition VSFSM_EVT_ENTER : Z := 0x6000.
Definition VSFSM_EVT_EXIT : Z := 0x6001.

Definition instant (evt : Z) : bool := negb (Z.land evt VSFSM_EVT_INSTANT_MSK =? 0).

(** [struct vsfsm_t]; [evtq] is the address of its queue or NULL. *)
Record vsfsm_t := { evtq : Z; evt_count : Z; pending_next : Z }.

(** [struct vsfsm_evtq_element_t]. *)
Record vsfsm_evtq_element_t := { e_sm : Z; e_evt : Z }.

(** [struct vsfsm_evtq_t]: [head] and [tail] as indices of [queue];
    [activate] says that the callback is not NULL.  [q_tmp] is the local
    variable [tmp] of the [vsfsm_poll] running on this queue, while it holds an
    element that is off the ring but still counted. *)
Record vsfsm_evtq_t := {
  qsize : Z; queue : list vsfsm_evtq_element_t; activate : bool;
  qhead : Z; qtail : Z; q_evt_count : Z; tick_evt_count : Z;
  q_tmp : option vsfsm_evtq_element_t }.

(** Calls into application code. *)
Inductive call := Handler (sm evt : Z) | Activate (q : Z).

Record world := {
  sms : gmap Z vsfsm_t; evtqs : gmap Z vsfsm_evtq_t; vsfsm_cur_evtq : Z; trace : list call }.

Definition set_sm (w : world) (sm : Z) (s : vsfsm_t) : world :=
  {| sms := <[sm := s]> (sms w); evtqs := evtqs w;
     vsfsm_cur_evtq := vsfsm_cur_evtq w; trace := trace w |}.
Definition set_evtq (w : world) (qa : Z) (q : vsfsm_evtq_t) : world :=
  {| sms := sms w; evtqs := <[qa := q]> (evtqs w);
     vsfsm_cur_evtq := vsfsm_cur_evtq w; trace := trace w |}.
Definition log (w : world) (c : call) : world :=
  {| sms := sms w; evtqs := evtqs w;
     vsfsm_cur_evtq := vsfsm_cur_evtq w; trace := trace w ++ [c] |}.

Definition set_count (s : vsfsm_t) (n : Z) : vsfsm_t :=
  {| evtq := evtq s; evt_count := n; pending_next := pending_next s |}.

Definition vsfsm_evtq_set (w : world) (qa : Z) : Z * world :=
  (vsfsm_cur_evtq w,
   {| sms := sms w; evtqs := evtqs w; vsfsm_cur_evtq := qa; trace := trace w |}).

Definition vsfsm_evtq_init (q : vsfsm_evtq_t) : vsfsm_evtq_t :=
  {| qsize := qsize q; queue := queue q; activate := activate q; qhead := 0; qtail := 0;
     q_evt_count := 0; tick_evt_count := tick_evt_count q; q_tmp := q_tmp q |}.

Definition vsfsm_get_event_pending (w : world) : option Z :=
  q ← evtqs w !! vsfsm_cur_evtq w; Some (q_evt_count q).

(** The ring position after [i]. *)
Definition next_slot (q : vsfsm_evtq_t) (i : Z) : Z :=
  if i =? qsize q - 1 then 0 else i + 1.

(** The slot at [qtail] filled and counted. *)
Definition evtq_push (q : vsfsm_evtq_t) (sm evt : Z) : option vsfsm_evtq_t :=
  if decide (Z.to_nat (qtail q) < length (queue q))%nat then
    Some {| qsize := qsize q;
            queue := <[Z.to_nat (qtail q) := {| e_sm := sm; e_evt := evt |}]> (queue q);
            activate := activate q; qhead := qhead q; qtail := next_slot q (qtail q);
            q_evt_count := u16 (q_evt_count q + 1);
            tick_evt_count := if evt =? VSFSM_EVT_TIMER then u16 (tick_evt_count q + 1)
                              else tick_evt_count q;
            q_tmp := q_tmp q |}
  else None.

Definition vsfsm_evtq_post (w : world) (sm evt : Z) : option (Z * world) :=
  s ← sms w !! sm;
  q ← evtqs w !! evtq s;
  if qsize q <=? q_evt_count q then Some (VSFERR_NOT_ENOUGH_RESOURCES, w)
  else if (evt =? VSFSM_EVT_TIMER) && negb (tick_evt_count q =? 0) then Some (VSFERR_NONE, w)
  else
    q' ← evtq_push q sm evt;
    let w := set_evtq (set_sm w sm (set_count s (u32 (evt_count s + 1)))) (evtq s) q' in
    Some (VSFERR_NONE, if activate q then log w (Activate (evtq s)) else w).

Section Kernel.
(** The body of the application's handlers. *)
Context (evt_handler : Z → Z → world → option world).

Definition vsfsm_dispatch_evt (w : world) (sm evt : Z) : option (Z * world) :=
  w ← evt_handler sm evt (log w (Handler sm evt));
  Some (VSFERR_NONE, w).

(** The interrupt level it raises is outside the model. *)
Definition vsfsm_dispatch_evt_protected (w : world) (sm evt : Z) : option (Z * world) :=
  vsfsm_dispatch_evt w sm evt.

Definition vsfsm_post_evt (w : world) (sm evt : Z) : option (Z * world) :=
  s ← sms w !! sm;
  if decide (evtq s ≠ NULL ∧ evtq s ≠ vsfsm_cur_evtq w ∧ instant evt = true)
  then Some (VSFERR_FAIL, w)
  else if decide (evtq s = NULL) then vsfsm_dispatch_evt_protected w sm evt
  else if decide (evtq s ≠ vsfsm_cur_evtq w ∨ (instant evt = false ∧ evt_count s ≠ 0))
  then vsfsm_evtq_post w sm evt
  else vsfsm_dispatch_evt w sm evt.

Definition vsfsm_post_evt_pending (w : world) (sm evt : Z) : option (Z * world) :=
  s ← sms w !! sm;
  if instant evt then Some (VSFERR_FAIL, w)
  else if decide (evtq s = NULL) then vsfsm_dispatch_evt_protected w sm evt
  else vsfsm_evtq_post w sm evt.

Definition vsfsm_init (w : world) (sm : Z) : option (Z * world) :=
  let w := set_sm w sm {| evtq := vsfsm_cur_evtq w; evt_count := 0; pending_next := NULL |} in
  w ← evt_handler sm VSFSM_EVT_ENTER (log w (Handler sm VSFSM_EVT_ENTER));
  vsfsm_post_evt w sm VSFSM_EVT_INIT.

(** [vsfsm_poll] up to DISABLE_GLOBAL_INTERRUPT: [None] also when no event is
    counted, where the loop ends. *)
Definition vsfsm_poll_take (w : world) : option world :=
  q ← evtqs w !! vsfsm_cur_evtq w;
  if q_evt_count q =? 0 then None
  else
    tmp ← queue q !! Z.to_nat (qhead q);
    Some (set_evtq w (vsfsm_cur_evtq w)
      {| qsize := qsize q; queue := queue q; activate := activate q;
         qhead := next_slot q (qhead q); qtail := qtail q; q_evt_count := q_evt_count q;
         tick_evt_count := tick_evt_count q; q_tmp := Some tmp |}).

(** The counters, with interrupts disabled, then the dispatch. *)
Definition vsfsm_poll_count (w : world) : option world :=
  q ← evtqs w !! vsfsm_cur_evtq w;
  tmp ← q_tmp q;
  w ← (if decide (e_sm tmp = NULL) then Some w
       else s ← sms w !! e_sm tmp;
            Some (set_sm w (e_sm tmp) (set_count s (u32 (evt_count s - 1)))));
  let w := set_evtq w (vsfsm_cur_evtq w)
      {| qsize := qsize q; queue := queue q; activate := activate q;
         qhead := qhead q; qtail := qtail q; q_evt_count := u16 (q_evt_count q - 1);
         tick_evt_count := if e_evt tmp =? VSFSM_EVT_TIMER then u16 (tick_evt_count q - 1)
                           else tick_evt_count q;
         q_tmp := None |} in
  if decide (e_sm tmp = NULL) then Some w
  else '(_, w) ← vsfsm_dispatch_evt w (e_sm tmp) (e_evt tmp); Some w.

(** The loop, with [fuel] iterations at most. *)
Fixpoint vsfsm_poll (fuel : nat) (w : world) : option (Z * world) :=
  match fuel with
  | O => None
  | S fuel =>
      q ← evtqs w !! vsfsm_cur_evtq w;
      if q_evt_count q =? 0 then Some (VSFERR_NONE, w)
      else w ← vsfsm_poll_take w; w ← vsfsm_poll_count w; vsfsm_poll fuel w
  end.
End Kernel.

(** The loop of [vsfsm_fini] over the ring, from index [tmp]. *)
Fixpoint vsfsm_fini_loop (fuel : nat) (q : vsfsm_evtq_t) (tmp sm : Z) : option vsfsm_evtq_t :=
  match fuel with
  | O => None
  | S fuel =>
      if tmp =? qtail q then Some q
      else
        e ← queue q !! Z.to_nat tmp;
        let q := if e_sm e =? sm then
          {| qsize := qsize q;
             queue := <[Z.to_nat tmp := {| e_sm := NULL; e_evt := e_evt e |}]> (queue q);
             activate := activate q; qhead := qhead q; qtail := qtail q;
             q_evt_count := q_evt_count q; tick_evt_count := tick_evt_count q;
             q_tmp := q_tmp q |} else q in
        vsfsm_fini_loop fuel q (if qsize q <=? tmp + 1 then 0 else tmp + 1) sm
  end.

(** [vsfsm_fini] after [vsftimer_clean_sm]. *)
Definition vsfsm_fini (w : world) (sm : Z) : option (Z * world) :=
  s ← sms w !! sm;
  if decide (evtq s = NULL) then Some (VSFERR_NONE, w)
  else
    q ← evtqs w !! evtq s;
    q ← vsfsm_fini_loop (S (Z.to_nat (qsize q))) q (qhead q) sm;
    Some (VSFERR_NONE, set_evtq w (evtq s) q).

(** ** The ring of one queue *)

Notation element := vsfsm_evtq_element_t.

Definition timers (l : list element) : Z :=
  Z.of_nat (length (filter (λ e, e_evt e = VSFSM_EVT_TIMER) l)).
Definition addressed (sm : Z) (l : list element) : Z :=
  Z.of_nat (length (filter (λ e, e_sm e = sm) l)).

(** The counted elements: the one being polled and the list [l] in the ring. *)
Definition outstanding (q : vsfsm_evtq_t) (l : list element) : list element :=
  match q_tmp q with Some e => e :: l | None => l end.

Record ring (q : vsfsm_evtq_t) (l : list element) : Prop := {
  r_size : 0 < qsize q ≤ 65535;
  r_len : Z.of_nat (length (queue q)) = qsize q;
  r_head : 0 ≤ qhead q < qsize q;
  r_tail : qtail q = slot (qsize q) (qhead q) (Z.of_nat (length l));
  r_count : q_evt_count q = Z.of_nat (length (outstanding q l)) ∧ q_evt_count q ≤ qsize q;
  r_elems : ∀ i e, l !! i = Some e →
    queue q !! Z.to_nat (slot (qsize q) (qhead q) (Z.of_nat i)) = Some e;
  r_tick : tick_evt_count q = timers (outstanding q l) }.

Lemma timers_cons e l :
  timers (e :: l) = (if e_evt e =? VSFSM_EVT_TIMER then 1 else 0) + timers l.
Proof.
  unfold timers. rewrite filter_cons.
  destruct (Z.eqb_spec (e_evt e) VSFSM_EVT_TIMER); case_decide; simpl; done || lia.
Qed.

Lemma timers_app l1 l2 : timers (l1 ++ l2) = timers l1 + timers l2.
Proof. unfold timers. rewrite filter_app, length_app. lia. Qed.

Lemma timers_length l : 0 ≤ timers l ≤ Z.of_nat (length l).
Proof. unfold timers. pose proof (length_filter (λ e, e_evt e = VSFSM_EVT_TIMER) l). lia. Qed.

Lemma addressed_cons sm e l :
  addressed sm (e :: l) = (if decide (e_sm e = sm) then 1 else 0) + addressed sm l.
Proof. unfold addressed. rewrite filter_cons. case_decide; simpl; lia. Qed.

Lemma addressed_app sm l1 l2 : addressed sm (l1 ++ l2) = addressed sm l1 + addressed sm l2.
Proof. unfold addressed. rewrite filter_app, length_app. lia. Qed.

Lemma addressed_length sm l : 0 ≤ addressed sm l ≤ Z.of_nat (length l).
Proof. unfold addressed. pose proof (length_filter (λ e, e_sm e = sm) l). lia. Qed.

Lemma addressed_zero sm l : addressed sm l = 0 ↔ ∀ e, e ∈ l → e_sm e ≠ sm.
Proof.
  induction l as [|a l IH]; [set_solver|].
  rewrite addressed_cons. pose proof (addressed_length sm l). case_decide.
  - split; [lia|]. intros Hall. exfalso. apply (Hall a); set_solver.
  - rewrite Z.add_0_l, IH. set_solver.
Qed.

Lemma outstanding_push q q' l e :
  q_tmp q' = q_tmp q → outstanding q' (l ++ [e]) = outstanding q l ++ [e].
Proof. unfold outstanding. intros ->. by destruct (q_tmp q). Qed.

Lemma outstanding_length q l : (length l ≤ length (outstanding q l))%nat.
Proof. unfold outstanding. destruct (q_tmp q); simpl; lia. Qed.

(** A queue with room accepts the element behind the others. *)
Lemma ring_push q l sm evt :
  ring q l → q_evt_count q < qsize q →
  ∃ q', evtq_push q sm evt = Some q' ∧ ring q' (l ++ [{| e_sm := sm; e_evt := evt |}]) ∧
    q_tmp q' = q_tmp q ∧ qsize q' = qsize q ∧ activate q' = activate q.
Proof.
  intros [Hs Hl Hh Ht [Hc Hcs] He Htk] Hroom.
  pose proof (outstanding_length q l) as Hol.
  pose proof (slot_range (qsize q) (qhead q) (Z.of_nat (length l)) Hh ltac:(lia)) as Hr.
  unfold evtq_push. rewrite decide_True by lia. eexists. split; [done|].
  set (e := {| e_sm := sm; e_evt := evt |}).
  split; [|done]. split; simpl; try done.
  - by rewrite length_insert.
  - unfold next_slot. rewrite Ht, slot_next, length_app by lia. simpl. f_equal. lia.
  - rewrite (outstanding_push q) by done. rewrite length_app. simpl.
    rewrite u16_small by lia. lia.
  - intros i x Hi. rewrite Ht. destruct (decide (i = length l)) as [->|Hne].
    + rewrite lookup_app_r, Nat.sub_diag in Hi by lia. simplify_eq/=.
      apply list_lookup_insert_eq. lia.
    + assert (Hil : (i < length l)%nat).
      { apply lookup_lt_Some in Hi. rewrite length_app in Hi. simpl in Hi. lia. }
      rewrite lookup_app_l in Hi by done.
      rewrite list_lookup_insert_ne; [by apply He|].
      pose proof (slot_range (qsize q) (qhead q) (Z.of_nat i) Hh ltac:(lia)).
      intros Heq. assert (Hsl : slot (qsize q) (qhead q) (Z.of_nat (length l)) =
        slot (qsize q) (qhead q) (Z.of_nat i)) by lia.
      apply slot_inj in Hsl; lia.
  - rewrite (outstanding_push q) by done. rewrite timers_app, timers_cons.
    pose proof (timers_length (outstanding q l)). simpl. change (timers []) with 0.
    destruct (Z.eqb_spec evt VSFSM_EVT_TIMER); [|lia]. rewrite u16_small by lia. lia.
Qed.

(** Moving the head: the first element is off the ring but still counted. *)
Lemma ring_take q e l :
  ring q (e :: l) → q_tmp q = None →
  queue q !! Z.to_nat (qhead q) = Some e ∧
  ring {| qsize := qsize q; queue := queue q; activate := activate q;
          qhead := next_slot q (qhead q); qtail := qtail q; q_evt_count := q_evt_count q;
          tick_evt_count := tick_evt_count q; q_tmp := Some e |} l.
Proof.
  intros [Hs Hl Hh Ht [Hc Hcs] He Htk] Htmp. unfold outstanding in Hc, Htk. rewrite Htmp in Hc, Htk.
  simpl in Hc. split.
  - specialize (He 0%nat e eq_refl). unfold slot in He.
    destruct (Z.ltb_spec (qhead q + Z.of_nat 0) (qsize q)); [|lia].
    by replace (qhead q + Z.of_nat 0) with (qhead q) in He by lia.
  - split; simpl; try done.
    + unfold next_slot. destruct (Z.eqb_spec (qhead q) (qsize q - 1)); lia.
    + unfold next_slot. rewrite slot_succ, Ht by lia. simpl. f_equal. lia.
    + intros i x Hi. unfold next_slot.
      assert ((i < length l)%nat) by by apply lookup_lt_Some in Hi.
      rewrite slot_succ by lia. specialize (He (S i) x Hi).
      by replace (Z.of_nat (S i)) with (Z.of_nat i + 1) in He by lia.
Qed.

(** Counting it: nothing else changes, whatever was posted in between. *)
Lemma ring_count q e l :
  ring q l → q_tmp q = Some e →
  ring {| qsize := qsize q; queue := queue q; activate := activate q;
          qhead := qhead q; qtail := qtail q; q_evt_count := u16 (q_evt_count q - 1);
          tick_evt_count := if e_evt e =? VSFSM_EVT_TIMER then u16 (tick_evt_count q - 1)
                            else tick_evt_count q;
          q_tmp := None |} l.
Proof.
  intros [Hs Hl Hh Ht [Hc Hcs] He Htk] Htmp. unfold outstanding in Hc, Htk. rewrite Htmp in Hc, Htk.
  simpl in Hc. split; simpl; try done.
  - unfold outstanding. simpl. rewrite u16_small by lia. lia.
  - unfold outstanding. simpl. rewrite timers_cons in Htk. pose proof (timers_length l).
    destruct (Z.eqb_spec (e_evt e) VSFSM_EVT_TIMER); [rewrite u16_small by lia|]; lia.
Qed.

(** A non-zero count without an element in hand: the ring is not empty. *)
Lemma ring_nonempty q l :
  ring q l → q_evt_count q ≠ 0 → q_tmp q = None → ∃ e l', l = e :: l'.
Proof.
  intros Hr Hne Htmp. destruct (r_count _ _ Hr) as [Hc _].
  unfold outstanding in Hc. rewrite Htmp in Hc. destruct l; [done|eauto].
Qed.

(** ** Delivery: worlds, histories and steps *)

(** Events whose order is promised: instant ones overtake the queue and
    timer events are coalesced. *)
Definition ordered (evt : Z) : bool := negb (instant evt) && negb (evt =? VSFSM_EVT_TIMER).

(** The ordered events for [sm] in a history of (machine, event) pairs. *)
Definition events (sm : Z) (l : list (Z * Z)) : list (Z * Z) :=
  filter (λ x, x.1 = sm ∧ ordered x.2 = true) l.

Definition calls (t : list call) : list (Z * Z) :=
  omap (λ c, match c with Handler sm evt => Some (sm, evt) | Activate _ => None end) t.

Definition posts (l : list element) : list (Z * Z) := (λ e, (e_sm e, e_evt e)) <$> l.

(** A handler that is entered and does nothing by itself: what the code in it
    does are the steps that follow. *)
Definition enter (sm evt : Z) (w : world) : option world := Some w.

(** The event a posting call adds to the history of accepted posts. *)
Definition accepted (r sm evt : Z) : list (Z * Z) :=
  if r =? VSFERR_NONE then [(sm, evt)] else [].

(** A world with the history of the accepted posts.  Main-line code, handlers
    and interrupts are all made of these steps, in any interleaving:
    [vsfsm_poll] is a [step_take] followed, perhaps after other steps, by a
    [step_count]; a nested [vsfsm_evtq_set] is how another queue is polled. *)
Inductive step : world * list (Z * Z) → world * list (Z * Z) → Prop :=
| step_post w p sm evt r w' :
    vsfsm_post_evt enter w sm evt = Some (r, w') → step (w, p) (w', p ++ accepted r sm evt)
| step_post_pending w p sm evt r w' :
    vsfsm_post_evt_pending enter w sm evt = Some (r, w') → step (w, p) (w', p ++ accepted r sm evt)
| step_take w p q w' :
    evtqs w !! vsfsm_cur_evtq w = Some q → q_tmp q = None →
    vsfsm_poll_take w = Some w' → step (w, p) (w', p)
| step_count w p w' : vsfsm_poll_count enter w = Some w' → step (w, p) (w', p)
| step_set w p qa : is_Some (evtqs w !! qa) → step (w, p) (snd (vsfsm_evtq_set w qa), p).

(** The elements waiting in the queue of machine [s]. *)
Definition waiting (w : world) (L : Z → list element) (s : vsfsm_t) : list element :=
  match evtqs w !! evtq s with Some q => outstanding q (L (evtq s)) | None => [] end.

(** [L] gives the contents of every ring. *)
Record inv (w : world) (p : list (Z * Z)) (L : Z → list element) : Prop := {
  i_queues : ∀ qa q, evtqs w !! qa = Some q → qa ≠ NULL ∧ ring q (L qa);
  i_elems : ∀ qa q e, evtqs w !! qa = Some q → e ∈ outstanding q (L qa) →
    e_sm e ≠ NULL ∧ instant (e_evt e) = false ∧ ∃ s, sms w !! e_sm e = Some s ∧ evtq s = qa;
  i_sms : ∀ sm s, sms w !! sm = Some s → sm ≠ NULL ∧
    (evtq s = NULL ∨ is_Some (evtqs w !! evtq s) ∧ evt_count s = addressed sm (waiting w L s));
  i_order : ∀ sm s, sms w !! sm = Some s →
    events sm p = events sm (calls (trace w)) ++ events sm (posts (waiting w L s)) }.

Lemma events_app sm l1 l2 : events sm (l1 ++ l2) = events sm l1 ++ events sm l2.
Proof. apply filter_app. Qed.

Lemma events_single sm x evt :
  events sm [(x, evt)] = if decide (x = sm ∧ ordered evt = true) then [(x, evt)] else [].
Proof. unfold events. rewrite filter_cons. simpl. repeat case_decide; done. Qed.

Lemma calls_app t1 t2 : calls (t1 ++ t2) = calls t1 ++ calls t2.
Proof. apply omap_app. Qed.

Lemma posts_app l1 l2 : posts (l1 ++ l2) = posts l1 ++ posts l2.
Proof. apply fmap_app. Qed.

(** No element for [sm], no ordered event for it. *)
Lemma events_addressed sm l : addressed sm l = 0 → events sm (posts l) = [].
Proof.
  rewrite addressed_zero. induction l as [|e l IH]; intros Hall; [done|].
  unfold events, posts. simpl. rewrite filter_cons_False.
  - apply IH. set_solver.
  - simpl. intros [Heq _]. apply (Hall e); set_solver.
Qed.

Lemma unordered_nil sm x evt : ordered evt = false → events sm [(x, evt)] = [].
Proof. intros He. rewrite events_single, decide_False; [done|]. rewrite He. naive_solver. Qed.

Lemma log_inv w p L c :
  inv w p L → calls [c] = [] → inv (log w c) p L.
Proof.
  intros [Hq He Hs Ho] Hc. split; try done.
  intros sm s Hsm. simpl. rewrite calls_app, Hc, app_nil_r. by apply Ho.
Qed.

Lemma waiting_null w L s :
  (∀ qa q, evtqs w !! qa = Some q → qa ≠ NULL ∧ ring q (L qa)) → evtq s = NULL →
  waiting w L s = [].
Proof.
  intros Hq Hn. unfold waiting. rewrite Hn.
  destruct (evtqs w !! NULL) as [q|] eqn:HqN; [|done]. by destruct (Hq _ _ HqN).
Qed.

(** Entering a handler directly. *)
Lemma dispatch_inv w p L sm evt s :
  inv w p L → sms w !! sm = Some s →
  (instant evt = true ∨ evtq s = NULL ∨ evt_count s = 0) →
  ∃ w', vsfsm_dispatch_evt enter w sm evt = Some (VSFERR_NONE, w') ∧
    inv w' (p ++ accepted VSFERR_NONE sm evt) L.
Proof.
  intros [Hq He Hs Ho] Hsm Hev. eexists. split; [done|]. split; try done.
  intros sm' s' Hsm'. simpl in Hsm' |- *. rewrite calls_app, !events_app. simpl.
  rewrite (Ho _ _ Hsm'). change (waiting (log w (Handler sm evt)) L s') with (waiting w L s').
  rewrite <- !app_assoc. f_equal. change (accepted VSFERR_NONE sm evt) with [(sm, evt)].
  destruct (decide (sm' = sm)) as [->|Hne].
  - destruct (ordered evt) eqn:Hord; [|by rewrite !unordered_nil, app_nil_r by done].
    assert (s' = s) as -> by congruence.
    assert (Hnil : events sm (posts (waiting w L s)) = []).
    { unfold ordered in Hord. destruct Hev as [Hi|[Hn|H0]]; [by rewrite Hi in Hord| |].
      - by rewrite (waiting_null w L s Hq Hn).
      - destruct (Hs _ _ Hsm) as [_ [Hn|[_ Hc]]]; [by rewrite (waiting_null w L s Hq Hn)|].
        apply events_addressed. lia. }
    by rewrite Hnil, app_nil_r.
  - rewrite events_single, decide_False by naive_solver. by rewrite app_nil_r.
Qed.

(** The ring contents after a change at queue [qa]. *)
Definition at_queue (L : Z → list element) (qa : Z) (l : list element) : Z → list element :=
  λ a, if decide (a = qa) then l else L a.

Lemma at_queue_eq L qa l : at_queue L qa l qa = l.
Proof. unfold at_queue. by rewrite decide_True. Qed.
Lemma at_queue_ne L qa l a : a ≠ qa → at_queue L qa l a = L a.
Proof. intros. unfold at_queue. by rewrite decide_False. Qed.

Lemma waiting_at w L s qa q l w' :
  evtqs w' = <[qa := q]> (evtqs w) →
  waiting w' (at_queue L qa l) s =
    if decide (evtq s = qa) then outstanding q l else waiting w L s.
Proof.
  intros Hw. unfold waiting. rewrite Hw. case_decide as Hd.
  - subst qa. by rewrite lookup_insert_eq, at_queue_eq.
  - by rewrite lookup_insert_ne, at_queue_ne by congruence.
Qed.

(** A change of one machine [sm] and of the queue [qa] it belongs to. *)
Lemma inv_update w p L sm s qa q w' p' s' q' l' :
  inv w p L → sms w !! sm = Some s → evtq s = qa → evtqs w !! qa = Some q →
  sms w' = <[sm := s']> (sms w) → evtq s' = qa →
  evtqs w' = <[qa := q']> (evtqs w) → ring q' l' →
  let o := outstanding q (L qa) in let o' := outstanding q' l' in
  (∀ e, e ∈ o' → e ∈ o ∨ e_sm e = sm ∧ instant (e_evt e) = false) →
  evt_count s' = addressed sm o' →
  (∀ x, x ≠ sm → addressed x o' = addressed x o ∧ events x p' = events x p ∧
     events x (calls (trace w')) = events x (calls (trace w)) ∧
     events x (posts o') = events x (posts o)) →
  events sm p' = events sm (calls (trace w')) ++ events sm (posts o') →
  inv w' p' (at_queue L qa l').
Proof.
  intros [Hq He Hs Ho] Hsm Hsq Hqa Hw1 Hsq' Hw2 Hring o o' Hin Hcnt Hother Hmine.
  assert (Hwo : ∀ x, evtq x = qa → waiting w L x = o)
    by (intros x Hx; unfold waiting; by rewrite Hx, Hqa).
  assert (Hwait : ∀ x, waiting w' (at_queue L qa l') x =
    if decide (evtq x = qa) then o' else waiting w L x)
    by (intros x; by apply waiting_at).
  split.
  - intros a x. rewrite Hw2. intros [[<- <-]|[Hne Hx]]%lookup_insert_Some.
    + rewrite at_queue_eq. by destruct (Hq _ _ Hqa).
    + rewrite at_queue_ne by done. by apply Hq.
  - assert (Hkeep : ∀ a y, (∃ s0, sms w !! y = Some s0 ∧ evtq s0 = a) →
      ∃ s0, sms w' !! y = Some s0 ∧ evtq s0 = a).
    { intros a y (s0 & Hs0 & Ha). rewrite Hw1. destruct (decide (y = sm)) as [->|].
      - rewrite lookup_insert_eq. exists s'. split; [done|]. congruence.
      - rewrite lookup_insert_ne by done. eauto. }
    intros a x e. rewrite Hw2. intros [[<- <-]|[Hne Hx]]%lookup_insert_Some Hein.
    + rewrite at_queue_eq in Hein. destruct (Hin e Hein) as [Hold|[-> Hev]].
      * destruct (He _ _ _ Hqa Hold) as (? & ? & ?). auto.
      * split_and!; [by destruct (Hs _ _ Hsm)|done|]. apply Hkeep. eauto.
    + rewrite at_queue_ne in Hein by done. destruct (He _ _ _ Hx Hein) as (? & ? & ?). auto.
  - intros y x. rewrite Hw1, Hw2, Hwait. intros [[<- <-]|[Hne Hx]]%lookup_insert_Some.
    + split; [by destruct (Hs _ _ Hsm)|]. right. rewrite Hsq', lookup_insert_eq.
      by rewrite decide_True by done.
    + destruct (Hs _ _ Hx) as (Hy & [Hn|[Hsome Hc]]); split; auto; right.
      case_decide as Hd.
      * rewrite Hd, lookup_insert_eq. split; [done|].
        destruct (Hother y) as [-> _]; [done|]. by rewrite Hc, Hwo.
      * by rewrite lookup_insert_ne by congruence.
  - intros y x. rewrite Hw1, Hwait. intros [[<- <-]|[Hne Hx]]%lookup_insert_Some.
    + by rewrite decide_True.
    + destruct (Hother y) as (_ & -> & -> & Hp); [done|]. rewrite (Ho _ _ Hx).
      case_decide as Hd; [|done]. by rewrite Hp, Hwo.
Qed.

Lemma addressed_snoc_ne x l e : e_sm e ≠ x → addressed x (l ++ [e]) = addressed x l.
Proof.
  intros. rewrite addressed_app, addressed_cons, decide_False by done.
  change (addressed x []) with 0. lia.
Qed.

Lemma events_posts_cons x e l :
  events x (posts (e :: l)) = events x [(e_sm e, e_evt e)] ++ events x (posts l).
Proof. change (posts (e :: l)) with ([(e_sm e, e_evt e)] ++ posts l). apply events_app. Qed.

Lemma events_other x y evt : y ≠ x → events x [(y, evt)] = [].
Proof. intros. rewrite events_single. by rewrite decide_False by naive_solver. Qed.

Lemma evtq_post_inv w p L sm evt s :
  inv w p L → sms w !! sm = Some s → evtq s ≠ NULL → instant evt = false →
  ∃ r w' L', vsfsm_evtq_post w sm evt = Some (r, w') ∧ inv w' (p ++ accepted r sm evt) L'.
Proof.
  intros Hinv Hsm Hq0 Hev. pose proof Hinv as [Hq He Hs Ho].
  destruct (Hs _ _ Hsm) as (Hsm0 & [?|[[q Hqa] Hcnt]]); [done|].
  destruct (Hq _ _ Hqa) as [_ Hring].
  unfold vsfsm_evtq_post. rewrite Hsm. bindr. rewrite Hqa. bindr.
  destruct (Z.leb_spec (qsize q) (q_evt_count q)) as [Hfull|Hroom].
  { exists VSFERR_NOT_ENOUGH_RESOURCES, w, L. split; [done|]. by rewrite app_nil_r. }
  destruct ((evt =? VSFSM_EVT_TIMER) && negb (tick_evt_count q =? 0)) eqn:Htm.
  { exists VSFERR_NONE, w, L. split; [done|]. split; try done. intros sm' s' Hsm'.
    rewrite events_app, (Ho _ _ Hsm'). change (accepted VSFERR_NONE sm evt) with [(sm, evt)].
    apply andb_true_iff in Htm as [->%Z.eqb_eq _].
    by rewrite unordered_nil, app_nil_r by done. }
  destruct (ring_push q (L (evtq s)) sm evt Hring Hroom) as (q' & -> & Hring' & Htmp & _). bindr.
  set (e := {| e_sm := sm; e_evt := evt |}) in *.
  pose proof (outstanding_push q q' (L (evtq s)) e Htmp) as Hout.
  assert (Hwo : waiting w L s = outstanding q (L (evtq s))) by (unfold waiting; by rewrite Hqa).
  pose proof (addressed_length sm (outstanding q (L (evtq s)))) as Hal.
  destruct (r_count _ _ Hring) as [Hrc Hrs]. pose proof (r_size _ _ Hring).
  assert (Hinv1 : inv (set_evtq (set_sm w sm (set_count s (u32 (evt_count s + 1)))) (evtq s) q')
    (p ++ accepted VSFERR_NONE sm evt) (at_queue L (evtq s) (L (evtq s) ++ [e]))).
  { eapply inv_update; try done; rewrite ?Hout.
    - intros x [Hx|Hx%list_elem_of_singleton]%elem_of_app; [by left|right; by subst x].
    - simpl. rewrite addressed_app, addressed_cons, decide_True by done.
      change (addressed sm []) with 0. rewrite Hcnt, Hwo, u32_small; lia.
    - intros x Hx. rewrite addressed_snoc_ne by done.
      rewrite posts_app, !events_app. change (accepted VSFERR_NONE sm evt) with [(sm, evt)].
      change (posts [e]) with [(sm, evt)]. by rewrite events_other, !app_nil_r by done.
    - rewrite posts_app, !events_app. change (posts [e]) with (accepted VSFERR_NONE sm evt).
      simpl. by rewrite (Ho _ _ Hsm), Hwo, app_assoc. }
  do 3 eexists. split; [done|]. destruct (activate q); [by apply log_inv|done].
Qed.

Lemma post_evt_inv w p L sm evt s :
  inv w p L → sms w !! sm = Some s →
  ∃ r w' L', vsfsm_post_evt enter w sm evt = Some (r, w') ∧ inv w' (p ++ accepted r sm evt) L'.
Proof.
  intros Hinv Hsm. unfold vsfsm_post_evt. rewrite Hsm. bindr.
  case_decide as H1; [exists VSFERR_FAIL, w, L; by rewrite app_nil_r|].
  case_decide as H2.
  { destruct (dispatch_inv w p L sm evt s) as (w' & Hd & Hi); eauto. }
  case_decide as H3.
  - apply (evtq_post_inv w p L sm evt s); try done. destruct (instant evt); naive_solver.
  - destruct (dispatch_inv w p L sm evt s) as (w' & Hd & Hi); eauto.
    destruct (instant evt); [by left|right; right]. destruct (decide (evt_count s = 0)); naive_solver.
Qed.

Lemma post_evt_pending_inv w p L sm evt s :
  inv w p L → sms w !! sm = Some s →
  ∃ r w' L', vsfsm_post_evt_pending enter w sm evt = Some (r, w') ∧
    inv w' (p ++ accepted r sm evt) L'.
Proof.
  intros Hinv Hsm. unfold vsfsm_post_evt_pending. rewrite Hsm. bindr.
  destruct (instant evt) eqn:Hi; [exists VSFERR_FAIL, w, L; by rewrite app_nil_r|].
  case_decide as H2.
  { destruct (dispatch_inv w p L sm evt s) as (w' & Hd & Hi'); eauto. }
  by apply (evtq_post_inv w p L sm evt s).
Qed.

(** The head of the ring moves into the poller's hand. *)
Lemma poll_take_inv w p L q :
  inv w p L → evtqs w !! vsfsm_cur_evtq w = Some q → q_tmp q = None → q_evt_count q ≠ 0 →
  ∃ w' e l, vsfsm_poll_take w = Some w' ∧ L (vsfsm_cur_evtq w) = e :: l ∧
    inv w' p (at_queue L (vsfsm_cur_evtq w) l) ∧
    trace w' = trace w ∧ vsfsm_cur_evtq w' = vsfsm_cur_evtq w ∧
    ∃ q', evtqs w' !! vsfsm_cur_evtq w = Some q' ∧ q_tmp q' = Some e ∧
          q_evt_count q' = q_evt_count q.
Proof.
  intros [Hq He Hs Ho] Hqa Htmp Hne. destruct (Hq _ _ Hqa) as [Hq0 Hring].
  destruct (ring_nonempty _ _ Hring Hne Htmp) as (e & l & Hl). rewrite Hl in Hring.
  destruct (ring_take q e l Hring Htmp) as [Hhd Hring'].
  unfold vsfsm_poll_take. rewrite Hqa. bindr.
  destruct (Z.eqb_spec (q_evt_count q) 0); [done|]. rewrite Hhd. bindr.
  set (q' := {| qsize := _; q_tmp := Some e |}) in *.
  assert (Hout : outstanding q' l = outstanding q (L (vsfsm_cur_evtq w)))
    by (unfold outstanding; by rewrite Htmp, Hl).
  assert (Hwait : ∀ x, waiting (set_evtq w (vsfsm_cur_evtq w) q')
      (at_queue L (vsfsm_cur_evtq w) l) x = waiting w L x).
  { intros x. rewrite (waiting_at w L x (vsfsm_cur_evtq w) q') by done.
    case_decide as Hd; [|done]. rewrite Hout. unfold waiting. by rewrite Hd, Hqa. }
  do 3 eexists. split; [done|]. split; [done|].
  split; [|do 2 (split; [done|]); exists q'; simpl; by rewrite lookup_insert_eq]. split.
  - intros a x Hx. simpl in Hx. apply lookup_insert_Some in Hx as [[<- <-]|[Hne' Hx]].
    + by rewrite at_queue_eq.
    + rewrite at_queue_ne by done. by apply Hq.
  - intros a x y Hx Hy. simpl in Hx. apply lookup_insert_Some in Hx as [[<- <-]|[Hne' Hx]].
    + rewrite at_queue_eq, Hout in Hy. by eapply He.
    + rewrite at_queue_ne in Hy by done. by eapply He.
  - intros y x Hx. rewrite Hwait. destruct (Hs _ _ Hx) as (H1 & [H2|[H2 H3]]); split; auto.
    right. split; [|done]. simpl. destruct (decide (evtq x = vsfsm_cur_evtq w)) as [->|].
    + by rewrite lookup_insert_eq.
    + by rewrite lookup_insert_ne.
  - intros y x Hx. rewrite Hwait. by apply Ho.
Qed.

(** The element in hand is counted off and its handler entered. *)
Lemma poll_count_inv w p L q e :
  inv w p L → evtqs w !! vsfsm_cur_evtq w = Some q → q_tmp q = Some e →
  ∃ w', vsfsm_poll_count enter w = Some w' ∧
    inv w' p (at_queue L (vsfsm_cur_evtq w) (L (vsfsm_cur_evtq w))) ∧
    trace w' = trace w ++ [Handler (e_sm e) (e_evt e)] ∧ vsfsm_cur_evtq w' = vsfsm_cur_evtq w ∧
    ∃ q', evtqs w' !! vsfsm_cur_evtq w = Some q' ∧ q_tmp q' = None ∧
          q_evt_count q' = u16 (q_evt_count q - 1).
Proof.
  intros Hinv Hqa Htmp. pose proof Hinv as [Hq He Hs Ho].
  destruct (Hq _ _ Hqa) as [Hq0 Hring]. set (qa := vsfsm_cur_evtq w) in *.
  pose proof (ring_count q e (L qa) Hring Htmp) as Hring'.
  assert (Hout : outstanding q (L qa) = e :: L qa) by (unfold outstanding; by rewrite Htmp).
  destruct (He _ _ e Hqa) as (Hsm0 & Hev & s & Hsm & Hsq); [rewrite Hout; set_solver|].
  destruct (Hs _ _ Hsm) as (_ & [Hn|[_ Hcnt]]); [congruence|].
  assert (Hwo : waiting w L s = e :: L qa) by (unfold waiting; by rewrite Hsq, Hqa).
  unfold vsfsm_poll_count. fold qa. rewrite Hqa. bindr. rewrite Htmp. bindr.
  rewrite decide_False by done. rewrite Hsm. bindr. rewrite decide_False by done.
  eexists. split; [done|].
  split; [|do 2 (split; [done|]); eexists; simpl; by rewrite lookup_insert_eq].
  pose proof (addressed_length (e_sm e) (L qa)) as Hal.
  destruct (r_count _ _ Hring) as [Hrc Hrs]. rewrite Hout in Hrc. simpl in Hrc.
  pose proof (r_size _ _ Hring).
  match type of Hring' with ring ?x _ => set (q' := x) in * end.
  assert (Hout' : outstanding q' (L qa) = L qa) by done.
  assert (Hcalls : calls (trace w ++ [Handler (e_sm e) (e_evt e)])
    = calls (trace w) ++ [(e_sm e, e_evt e)]) by apply calls_app.
  eapply (inv_update w p L (e_sm e) s qa q _ p _ q' (L qa)); try done; rewrite ?Hout', ?Hout.
  - intros x Hx. left. set_solver.
  - simpl. rewrite Hcnt, Hwo, addressed_cons, decide_True by done. rewrite u32_small by lia. lia.
  - intros x Hx. cbn [trace log set_evtq set_sm]. rewrite addressed_cons, decide_False by done.
    rewrite events_posts_cons, Hcalls, events_app.
    rewrite !events_other, app_nil_r by done. done.
  - cbn [trace log set_evtq set_sm]. rewrite (Ho _ _ Hsm), Hwo, events_posts_cons, Hcalls, events_app.
    by rewrite <- app_assoc.
Qed.

Lemma step_inv w p w' p' L :
  inv w p L → step (w, p) (w', p') → ∃ L', inv w' p' L'.
Proof.
  intros Hinv Hst. inversion Hst as
    [? ? sm evt r ? Hp|? ? sm evt r ? Hp|? ? q ? Hq Htmp Hp|? ? ? Hp|? ? qa [q Hq]]; subst.
  - assert (∃ s, sms w !! sm = Some s) as [s Hs].
    { unfold vsfsm_post_evt in Hp. destruct (sms w !! sm); [eauto|done]. }
    destruct (post_evt_inv w p L sm evt s Hinv Hs) as (r' & w2 & L' & Hp' & Hi).
    rewrite Hp in Hp'. simplify_eq. eauto.
  - assert (∃ s, sms w !! sm = Some s) as [s Hs].
    { unfold vsfsm_post_evt_pending in Hp. destruct (sms w !! sm); [eauto|done]. }
    destruct (post_evt_pending_inv w p L sm evt s Hinv Hs) as (r' & w2 & L' & Hp' & Hi).
    rewrite Hp in Hp'. simplify_eq. eauto.
  - destruct (decide (q_evt_count q = 0)) as [H0|Hne].
    { unfold vsfsm_poll_take in Hp. rewrite Hq in Hp. simpl in Hp. by rewrite H0 in Hp. }
    destruct (poll_take_inv w p' L q Hinv Hq Htmp Hne) as (w2 & e & l & Hp' & _ & Hi & _).
    rewrite Hp in Hp'. simplify_eq. eauto.
  - assert (∃ q e, evtqs w !! vsfsm_cur_evtq w = Some q ∧ q_tmp q = Some e) as (q & e & Hq & He).
    { unfold vsfsm_poll_count in Hp. destruct (evtqs w !! _) as [q|]; [|done]. simpl in Hp.
      destruct (q_tmp q) as [e|] eqn:He; [eauto|done]. }
    destruct (poll_count_inv w p' L q e Hinv Hq He) as (w2 & Hp' & Hi & _).
    rewrite Hp in Hp'. simplify_eq. eauto.
  - exists L. destruct Hinv as [H1 H2 H3 H4]. split; done.
Qed.

Lemma steps_inv a b L :
  rtc step a b → inv (fst a) (snd a) L → ∃ L', inv (fst b) (snd b) L'.
Proof.
  intros Hs. revert L. induction Hs as [[w p]|[w p] [w1 p1] [w2 p2] Hst Hs IH]; intros L Hi; [eauto|].
  destruct (step_inv _ _ _ _ _ Hi Hst) as [L' Hi']. by eapply IH.
Qed.

(** The world after the queues and machines were set up and before any event. *)
Record ready (w : world) : Prop := {
  ready_queues : ∀ qa q, evtqs w !! qa = Some q → qa ≠ NULL ∧ 0 < qsize q ≤ 65535 ∧
    Z.of_nat (length (queue q)) = qsize q ∧ qhead q = 0 ∧ qtail q = 0 ∧
    q_evt_count q = 0 ∧ tick_evt_count q = 0 ∧ q_tmp q = None;
  ready_sms : ∀ sm s, sms w !! sm = Some s → sm ≠ NULL ∧ evt_count s = 0 ∧
    (evtq s = NULL ∨ is_Some (evtqs w !! evtq s));
  ready_trace : trace w = [] }.

Lemma ready_inv w : ready w → inv w [] (λ _, []).
Proof.
  intros [Hq Hs Ht].
  assert (Hout : ∀ qa q, evtqs w !! qa = Some q → outstanding q [] = []).
  { intros qa q H. unfold outstanding.
    by destruct (Hq _ _ H) as (_ & _ & _ & _ & _ & _ & _ & ->). }
  assert (Hwait : ∀ s, waiting w (λ _, []) s = []).
  { intros s. unfold waiting. destruct (evtqs w !! evtq s) as [q|] eqn:H; [by eapply Hout|done]. }
  split.
  - intros qa q H. destruct (Hq _ _ H) as (H0 & H1 & H2 & H3 & H4 & H5 & H6 & H7).
    split; [done|]. split; try done; try lia.
    + rewrite H4. unfold slot. rewrite H3. cbn [length].
      destruct (Z.ltb_spec (0 + Z.of_nat 0) (qsize q)); lia.
    + rewrite (Hout _ _ H), H5. simpl. lia.
    + rewrite (Hout _ _ H). done.
  - intros qa q e H. rewrite (Hout _ _ H). by intros ?%not_elem_of_nil.
  - intros sm s H. destruct (Hs _ _ H) as (H0 & H1 & H2). split; [done|].
    destruct H2 as [|H2]; [by left|right]. by rewrite Hwait.
  - intros sm s H. by rewrite Hwait, Ht.
Qed.

(** C1: delivery under any interleaving of posts from main-line code, handlers
    and interrupts with polls of any queue, starting from freshly initialised
    queues.  Every ring stays well formed, with its counters equal to the
    events it holds, the one being polled included; the events accepted for a
    machine are exactly those its handler was entered with followed by those
    still queued, in order (instant events, which overtake the queue, and timer
    events, which are coalesced, apart); and no step reads outside a ring. *)
Theorem vsfsm_delivery w0 w p :
  ready w0 → rtc step (w0, []) (w, p) →
  ∃ L,
    (∀ qa q, evtqs w !! qa = Some q → ring q (L qa)) ∧
    (∀ sm s, sms w !! sm = Some s →
       events sm p = events sm (calls (trace w)) ++ events sm (posts (waiting w L s)) ∧
       (evtq s = NULL ∨ evt_count s = addressed sm (waiting w L s)) ∧
       ∀ evt, is_Some (vsfsm_post_evt enter w sm evt) ∧
              is_Some (vsfsm_post_evt_pending enter w sm evt)) ∧
    (∀ q, evtqs w !! vsfsm_cur_evtq w = Some q →
       match q_tmp q with
       | None => q_evt_count q ≠ 0 → is_Some (vsfsm_poll_take w)
       | Some _ => is_Some (vsfsm_poll_count enter w)
       end).
Proof.
  intros Hr Hs. destruct (steps_inv _ _ _ Hs (ready_inv _ Hr)) as [L Hi]. simpl in Hi.
  exists L. split_and!.
  - intros qa q Hq. by apply (i_queues _ _ _ Hi).
  - intros sm s Hsm. split_and!.
    + by apply (i_order _ _ _ Hi).
    + destruct (i_sms _ _ _ Hi _ _ Hsm) as (_ & [?|[_ ?]]); auto.
    + intros evt. destruct (post_evt_inv _ _ _ sm evt s Hi Hsm) as (r & w1 & L1 & -> & _).
      destruct (post_evt_pending_inv _ _ _ sm evt s Hi Hsm) as (r2 & w2 & L2 & -> & _). eauto.
  - intros q Hq. destruct (q_tmp q) as [e|] eqn:Htmp.
    + destruct (poll_count_inv w p L q e Hi Hq Htmp) as (w' & -> & _). eauto.
    + intros Hne. destruct (poll_take_inv w p L q Hi Hq Htmp Hne) as (w' & e & l & -> & _). eauto.
Qed.

(** *** The poll loop *)

(** The ring of the current queue has been emptied into the trace. *)
Lemma poll_drain w p L q :
  inv w p L → evtqs w !! vsfsm_cur_evtq w = Some q → q_tmp q = None →
  ∃ w' q', vsfsm_poll enter (S (Z.to_nat (q_evt_count q))) w = Some (VSFERR_NONE, w') ∧
    calls (trace w') = calls (trace w) ++ posts (L (vsfsm_cur_evtq w)) ∧
    vsfsm_cur_evtq w' = vsfsm_cur_evtq w ∧
    evtqs w' !! vsfsm_cur_evtq w = Some q' ∧ q_evt_count q' = 0 ∧ tick_evt_count q' = 0.
Proof.
  remember (Z.to_nat (q_evt_count q)) as n eqn:Hn. revert w p L q Hn.
  induction n as [|n IH]; intros w p L q Hn Hi Hq Htmp.
  - destruct (i_queues _ _ _ Hi _ _ Hq) as [_ Hr]. destruct (r_count _ _ Hr) as [Hc _].
    assert (H0 : q_evt_count q = 0) by lia.
    assert (Hl : L (vsfsm_cur_evtq w) = []).
    { unfold outstanding in Hc. rewrite Htmp in Hc. destruct (L _); [done|simpl in Hc; lia]. }
    exists w, q. cbn [vsfsm_poll]. rewrite Hq. bindr. rewrite H0. split; [done|].
    rewrite Hl. simpl. rewrite app_nil_r. split_and!; try done.
    rewrite (r_tick _ _ Hr). unfold outstanding. by rewrite Htmp, Hl.
  - assert (Hne : q_evt_count q ≠ 0) by lia.
    destruct (i_queues _ _ _ Hi _ _ Hq) as [_ Hr]. destruct (r_count _ _ Hr) as [Hc Hcs].
    pose proof (r_size _ _ Hr) as Hsz.
    destruct (poll_take_inv w p L q Hi Hq Htmp Hne)
      as (w1 & e & l & Htk & Hl & Hi1 & Ht1 & Hc1 & q1 & Hq1 & Htmp1 & Hn1).
    rewrite <- Hc1 in Hq1.
    destruct (poll_count_inv w1 p _ q1 e Hi1 Hq1 Htmp1)
      as (w2 & Hct & Hi2 & Ht2 & Hc2 & q2 & Hq2 & Htmp2 & Hn2).
    rewrite <- Hc2 in Hq2.
    assert (Hn' : n = Z.to_nat (q_evt_count q2)) by (rewrite Hn2, Hn1, u16_small; lia).
    destruct (IH w2 p _ q2 Hn' Hi2 Hq2 Htmp2) as (w' & q' & Hp & Hcalls & Hcur & H1 & H2 & H3).
    exists w', q'. split.
    + change (vsfsm_poll enter (S (S n)) w = Some (VSFERR_NONE, w')).
      cbn [vsfsm_poll]. rewrite Hq. bindr. destruct (Z.eqb_spec (q_evt_count q) 0); [done|].
      rewrite Htk. bindr. rewrite Hct. bindr.
      exact Hp.
    + rewrite Hc2, Hc1 in *. rewrite Hcalls, Ht2, Ht1, Hl, calls_app, !at_queue_eq.
      split_and!; try done. by rewrite <- app_assoc.
Qed.

(** ** Finalisation *)

Definition clear (sm : Z) (e : element) : element :=
  if e_sm e =? sm then {| e_sm := NULL; e_evt := e_evt e |} else e.

Definition with_queue (q : vsfsm_evtq_t) (l : list element) : vsfsm_evtq_t :=
  {| qsize := qsize q; queue := l; activate := activate q; qhead := qhead q; qtail := qtail q;
     q_evt_count := q_evt_count q; tick_evt_count := tick_evt_count q; q_tmp := q_tmp q |}.

Lemma outstanding_same_length q l l' :
  length l' = length l → length (outstanding q l') = length (outstanding q l).
Proof. intros Hl. unfold outstanding. destruct (q_tmp q); simpl; lia. Qed.

Lemma timers_insert l i e e' :
  l !! i = Some e → e_evt e' = e_evt e → timers (<[i := e']> l) = timers l.
Proof.
  intros Hi He. rewrite <- (take_drop_middle l i e Hi) at 2.
  rewrite insert_take_drop by by eapply lookup_lt_Some.
  rewrite !timers_app, !timers_cons. by rewrite He.
Qed.

(** Overwriting an element by one with the same event. *)
Lemma ring_update q l i e e' :
  ring q l → l !! i = Some e → e_evt e' = e_evt e →
  ring (with_queue q (<[Z.to_nat (slot (qsize q) (qhead q) (Z.of_nat i)) := e']> (queue q)))
       (<[i := e']> l).
Proof.
  intros [Hs Hl Hh Ht [Hc Hcs] He Htk] Hi Hev.
  pose proof (lookup_lt_Some _ _ _ Hi) as Hil. pose proof (outstanding_length q l) as Hol.
  pose proof (slot_range (qsize q) (qhead q) (Z.of_nat i) Hh ltac:(lia)) as Hr.
  split; simpl; try done.
  - by rewrite length_insert.
  - by rewrite length_insert.
  - rewrite Hc at 1. split; [|done]. f_equal. symmetry. unfold outstanding. simpl.
    destruct (q_tmp q); simpl; by rewrite length_insert.
  - intros j x Hj. destruct (decide (j = i)) as [->|Hne].
    + rewrite list_lookup_insert_eq in Hj by done. simplify_eq. apply list_lookup_insert_eq. lia.
    + rewrite list_lookup_insert_ne in Hj by done.
      pose proof (lookup_lt_Some _ _ _ Hj) as Hjl.
      pose proof (slot_range (qsize q) (qhead q) (Z.of_nat j) Hh ltac:(lia)).
      rewrite list_lookup_insert_ne; [by apply He|]. intros Heq.
      assert (Hsl : slot (qsize q) (qhead q) (Z.of_nat i) = slot (qsize q) (qhead q) (Z.of_nat j))
        by lia.
      apply slot_inj in Hsl; lia.
  - rewrite Htk. unfold outstanding. simpl.
    destruct (q_tmp q); rewrite ?timers_cons; by rewrite (timers_insert l i e e') by done.
Qed.

Lemma take_snoc_clear sm l i e :
  l !! i = Some e →
  take (S i) (<[i := clear sm e]> l) ++ (clear sm <$> drop (S i) (<[i := clear sm e]> l))
  = take i l ++ (clear sm <$> drop i l).
Proof.
  intros Hi. pose proof (lookup_lt_Some _ _ _ Hi) as Hil.
  rewrite (take_S_r _ i (clear sm e)) by (by apply list_lookup_insert_eq).
  rewrite take_insert_ge, drop_insert_lt by lia. rewrite <- app_assoc. f_equal.
  by rewrite (drop_S l e i Hi).
Qed.

Lemma fini_loop_spec fuel q l i sm :
  ring q l → Z.of_nat (length l) < qsize q → (i ≤ length l)%nat → (length l - i < fuel)%nat →
  ∃ ql, vsfsm_fini_loop fuel q (slot (qsize q) (qhead q) (Z.of_nat i)) sm
      = Some (with_queue q ql) ∧
    ring (with_queue q ql) (take i l ++ (clear sm <$> drop i l)).
Proof.
  revert q l i. induction fuel as [|fuel IH]; intros q l i Hr Hroom Hi Hf; [lia|].
  pose proof (r_head _ _ Hr) as Hh. cbn [vsfsm_fini_loop].
  destruct (Z.eqb_spec (slot (qsize q) (qhead q) (Z.of_nat i)) (qtail q)) as [Heq|Hne];
    [rewrite (r_tail _ _ Hr) in Heq|rewrite (r_tail _ _ Hr) in Hne].
  - apply slot_inj in Heq; [|lia..]. assert (i = length l) as -> by lia.
    exists (queue q). rewrite drop_all, firstn_all, app_nil_r. by destruct q.
  - assert (Hil : (i < length l)%nat) by (destruct (decide (i = length l)); [by subst|lia]).
    destruct (lookup_lt_is_Some_2 l i Hil) as [e He]. rewrite (r_elems _ _ Hr _ _ He). bindr.
    pose proof (ring_update q l i e (clear sm e) Hr He) as Hr'.
    assert (Hev : e_evt (clear sm e) = e_evt e) by (unfold clear; by destruct (e_sm e =? sm)).
    specialize (Hr' Hev). set (q' := with_queue q _) in Hr'.
    assert (Hq' : (if e_sm e =? sm then with_queue q (<[Z.to_nat (slot (qsize q) (qhead q) (Z.of_nat i))
        := {| e_sm := NULL; e_evt := e_evt e |}]> (queue q)) else q) = q').
    { unfold q', clear. destruct (e_sm e =? sm); [done|].
      rewrite list_insert_id by (by apply (r_elems _ _ Hr)). by destruct q. }
    unfold with_queue in Hq' at 1. cbv zeta. rewrite Hq'.
    assert (Hnext : (if qsize q' <=? slot (qsize q) (qhead q) (Z.of_nat i) + 1 then 0
      else slot (qsize q) (qhead q) (Z.of_nat i) + 1) = slot (qsize q') (qhead q') (Z.of_nat (S i))).
    { change (qsize q') with (qsize q). change (qhead q') with (qhead q).
      replace (Z.of_nat (S i)) with (Z.of_nat i + 1) by lia. rewrite <- slot_next by lia.
      pose proof (slot_range (qsize q) (qhead q) (Z.of_nat i) Hh ltac:(lia)).
      destruct (Z.leb_spec (qsize q) (slot (qsize q) (qhead q) (Z.of_nat i) + 1)),
        (Z.eqb_spec (slot (qsize q) (qhead q) (Z.of_nat i)) (qsize q - 1)); lia. }
    rewrite Hnext. destruct (IH q' (<[i := clear sm e]> l) (S i) Hr') as (ql & Hl & Hrl).
    + by rewrite length_insert.
    + rewrite length_insert. lia.
    + rewrite length_insert. lia.
    + exists ql. split; [exact Hl|]. by rewrite take_snoc_clear in Hrl.
Qed.

Lemma clear_addressed sm l : sm ≠ NULL → addressed sm (clear sm <$> l) = 0.
Proof.
  intros H0. apply addressed_zero. intros e (x & -> & _)%list_elem_of_fmap.
  unfold clear. destruct (Z.eqb_spec (e_sm x) sm); simpl; congruence.
Qed.

Lemma set_evtq_same w qa q : evtqs w !! qa = Some q → set_evtq w qa q = w.
Proof. intros Hq. unfold set_evtq. rewrite insert_id by done. by destruct w. Qed.

(** [vsfsm_fini] terminates.  When the ring has a free slot it replaces, in
    place, exactly the events of the finalised machine by events for nobody,
    so that no handler of it will be entered from the queue, and keeps the
    other events in order.  When the ring is full, where head and tail
    coincide, its loop ends at once and every event of the dead machine stays
    queued. *)
Theorem vsfsm_fini_clears w p L sm s q :
  inv w p L → sms w !! sm = Some s → evtqs w !! evtq s = Some q →
  let l := L (evtq s) in
  (Z.of_nat (length l) < qsize q →
   ∃ ql, vsfsm_fini w sm = Some (VSFERR_NONE, set_evtq w (evtq s) (with_queue q ql)) ∧
     ring (with_queue q ql) (clear sm <$> l) ∧ addressed sm (clear sm <$> l) = 0 ∧
     ∀ x, x ≠ sm → x ≠ NULL → addressed x (clear sm <$> l) = addressed x l) ∧
  (Z.of_nat (length l) = qsize q → vsfsm_fini w sm = Some (VSFERR_NONE, w)).
Proof.
  intros Hi Hsm Hq l. destruct (i_queues _ _ _ Hi _ _ Hq) as [Hq0 Hr]. fold l in Hr.
  destruct (i_sms _ _ _ Hi _ _ Hsm) as [Hsm0 _].
  unfold vsfsm_fini. rewrite Hsm. bindr. rewrite decide_False by done. rewrite Hq. bindr.
  pose proof (r_head _ _ Hr) as Hh. pose proof (r_tail _ _ Hr) as Ht.
  split.
  - intros Hroom.
    destruct (fini_loop_spec (S (Z.to_nat (qsize q))) q l 0 sm Hr Hroom) as (ql & Hl & Hrl);
      [lia|lia|].
    replace (slot (qsize q) (qhead q) (Z.of_nat 0)) with (qhead q) in Hl
      by (unfold slot; destruct (Z.ltb_spec (qhead q + Z.of_nat 0) (qsize q)); lia).
    rewrite Hl. bindr. exists ql. split_and!; [done|exact Hrl|by apply clear_addressed|].
    intros x Hx Hx0. clear -Hx Hx0. induction l as [|e l IH]; [done|].
    rewrite fmap_cons, !addressed_cons, IH. f_equal. unfold clear.
    destruct (Z.eqb_spec (e_sm e) sm); simpl; [|done]. subst.
    by rewrite !decide_False by congruence.
  - intros Hfull. cbn [vsfsm_fini_loop]. rewrite Ht, Hfull.
    replace (slot (qsize q) (qhead q) (qsize q)) with (qhead q)
      by (unfold slot; destruct (Z.ltb_spec (qhead q + qsize q) (qsize q)); lia).
    rewrite Z.eqb_refl. bindr. by rewrite set_evtq_same.
Qed.

(** [VSFSM_EVT_TIMER] is coalesced per queue, not per machine: while one is
    outstanding for any machine, a post for another machine of the queue
    reports success and is dropped.  As [vsfsm_evtq_init] leaves the count of
    outstanding timer events alone, re-initialising a queue that holds one makes
    it drop every later timer event although it is empty. *)
Theorem vsfsm_timer_coalescing w p L sm s q :
  inv w p L → sms w !! sm = Some s → evtqs w !! evtq s = Some q →
  q_evt_count q < qsize q → 0 < timers (outstanding q (L (evtq s))) →
  vsfsm_evtq_post w sm VSFSM_EVT_TIMER = Some (VSFERR_NONE, w) ∧
  let w' := set_evtq w (evtq s) (vsfsm_evtq_init q) in
  vsfsm_evtq_post w' sm VSFSM_EVT_TIMER = Some (VSFERR_NONE, w').
Proof.
  intros Hi Hsm Hq Hroom Htm. destruct (i_queues _ _ _ Hi _ _ Hq) as [Hq0 Hr].
  pose proof (r_tick _ _ Hr) as Htk. pose proof (r_size _ _ Hr).
  assert (Ht0 : tick_evt_count q ≠ 0) by lia.
  unfold vsfsm_evtq_post. split.
  - rewrite Hsm. bindr. rewrite Hq. bindr.
    destruct (Z.leb_spec (qsize q) (q_evt_count q)); [lia|].
    by destruct (Z.eqb_spec (tick_evt_count q) 0).
  - cbn [sms evtqs set_evtq]. rewrite Hsm. bindr. rewrite lookup_insert_eq. bindr. simpl.
    destruct (Z.leb_spec (qsize q) 0); [lia|].
    by destruct (Z.eqb_spec (tick_evt_count q) 0).
Qed.

(** [vsfsm_poll] returns when the handlers post nothing: it enters the
    handlers of all queued events in order and leaves the queue empty, with
    both counters at zero. *)
Theorem vsfsm_poll_drains w p L q :
  inv w p L → evtqs w !! vsfsm_cur_evtq w = Some q → q_tmp q = None →
  ∃ w' q', vsfsm_poll enter (S (Z.to_nat (q_evt_count q))) w = Some (VSFERR_NONE, w') ∧
    calls (trace w') = calls (trace w) ++ posts (L (vsfsm_cur_evtq w)) ∧
    evtqs w' !! vsfsm_cur_evtq w = Some q' ∧ q_evt_count q' = 0 ∧ tick_evt_count q' = 0.
Proof. intros Hi Hq Ht. destruct (poll_drain w p L q Hi Hq Ht) as (w' & q' & ?); naive_solver. Qed.

(** ** Programs as steps *)

(** Code that only uses the kernel's operations. *)
Definition runs (f : world → option world) : Prop :=
  ∀ w p w', f w = Some w' → ∃ p', rtc step (w, p) (w', p').

(** Handlers that leave the poller of their own queue undisturbed. *)
Definition handler_ok (h : Z → Z → world → option world) : Prop :=
  ∀ sm evt, runs (h sm evt) ∧
    ∀ w w' q, h sm evt w = Some w' → evtqs w !! vsfsm_cur_evtq w = Some q → q_tmp q = None →
      vsfsm_cur_evtq w' = vsfsm_cur_evtq w ∧
      ∃ q', evtqs w' !! vsfsm_cur_evtq w = Some q' ∧ q_tmp q' = None.

(** Entering a handler is the prefix of running it. *)
Lemma dispatch_enter h w sm evt r w' :
  vsfsm_dispatch_evt h w sm evt = Some (r, w') →
  ∃ w1, vsfsm_dispatch_evt enter w sm evt = Some (VSFERR_NONE, w1) ∧ h sm evt w1 = Some w' ∧
        r = VSFERR_NONE.
Proof. unfold vsfsm_dispatch_evt, enter. destruct (h sm evt _) eqn:Hh; naive_solver. Qed.

Lemma poll_count_enter h w w' :
  vsfsm_poll_count h w = Some w' →
  ∃ w1, vsfsm_poll_count enter w = Some w1 ∧
    (w1 = w' ∨ ∃ sm evt, h sm evt w1 = Some w').
Proof.
  unfold vsfsm_poll_count. destruct (evtqs w !! _) as [q|]; [|done]. bindr.
  destruct (q_tmp q) as [e|]; [|done]. bindr.
  case_decide as H0.
  - bindr. intros. simplify_eq. eauto.
  - destruct (sms w !! e_sm e) as [s|]; [|done]. bindr.
    destruct (vsfsm_dispatch_evt h _ _ _) as [[r w2]|] eqn:Hd; [|done]. simpl. intros. simplify_eq.
    apply dispatch_enter in Hd as (w1 & Hd & Hh & ->). exists w1.
    unfold vsfsm_dispatch_evt, enter in Hd |- *. simplify_eq/=. eauto.
Qed.

Lemma poll_count_hand w w' :
  vsfsm_poll_count enter w = Some w' →
  vsfsm_cur_evtq w' = vsfsm_cur_evtq w ∧
  ∃ q', evtqs w' !! vsfsm_cur_evtq w = Some q' ∧ q_tmp q' = None.
Proof.
  unfold vsfsm_poll_count, vsfsm_dispatch_evt, enter.
  destruct (evtqs w !! _) as [q|]; [|done]. bindr. destruct (q_tmp q) as [e|]; [|done]. bindr.
  case_decide as H0.
  - bindr. intros. simplify_eq. simpl. split; [done|]. eexists. by rewrite lookup_insert_eq.
  - destruct (sms w !! e_sm e) as [s|]; [|done]. bindr. intros. simplify_eq. simpl.
    split; [done|]. eexists. by rewrite lookup_insert_eq.
Qed.

(** [vsfsm_poll] with arbitrary handlers, as long as these consist of kernel
    operations: whenever it returns, it has only made [step]s, so the
    invariants of [vsfsm_delivery] hold at its end, and no event is counted in
    its queue any more. *)
Theorem vsfsm_poll_safe h fuel w0 w p q r w' :
  handler_ok h → ready w0 → rtc step (w0, []) (w, p) →
  evtqs w !! vsfsm_cur_evtq w = Some q → q_tmp q = None →
  vsfsm_poll h fuel w = Some (r, w') →
  r = VSFERR_NONE ∧ vsfsm_cur_evtq w' = vsfsm_cur_evtq w ∧
  ∃ p' L q', rtc step (w0, []) (w', p') ∧ inv w' p' L ∧
    evtqs w' !! vsfsm_cur_evtq w' = Some q' ∧ q_evt_count q' = 0.
Proof.
  intros Hh Hr0. revert w p q. induction fuel as [|fuel IH]; intros w p q Hs Hq Htmp Hp; [done|].
  cbn [vsfsm_poll] in Hp. rewrite Hq in Hp. simpl in Hp.
  destruct (Z.eqb_spec (q_evt_count q) 0) as [H0|Hne].
  { simplify_eq. destruct (steps_inv _ _ _ Hs (ready_inv _ Hr0)) as [L Hi].
    split_and!; [done..|]. exists p, L, q. by split_and!. }
  destruct (vsfsm_poll_take w) as [w1|] eqn:Ht; [|done]. simpl in Hp.
  destruct (vsfsm_poll_count h w1) as [w2|] eqn:Hc; [|done]. simpl in Hp.
  assert (Hs1 : rtc step (w0, []) (w1, p)).
  { eapply rtc_r; [exact Hs|]. by econstructor. }
  assert (Hcur1 : vsfsm_cur_evtq w1 = vsfsm_cur_evtq w).
  { unfold vsfsm_poll_take in Ht. rewrite Hq in Ht. simpl in Ht. case_match; [done|].
    by destruct (queue q !! _); simplify_eq/=. }
  apply poll_count_enter in Hc as (w1' & Hce & Hrun).
  pose proof (poll_count_hand _ _ Hce) as (Hcur2 & q2 & Hq2 & Htmp2).
  assert (Hs2 : rtc step (w0, []) (w1', p)).
  { eapply rtc_r; [exact Hs1|]. by econstructor. }
  assert (∃ p2 q3, rtc step (w0, []) (w2, p2) ∧ vsfsm_cur_evtq w2 = vsfsm_cur_evtq w ∧
    evtqs w2 !! vsfsm_cur_evtq w2 = Some q3 ∧ q_tmp q3 = None)
    as (p2 & q3 & Hs3 & Hcur3 & Hq3 & Htmp3).
  { destruct Hrun as [->|(sm & evt & Hhe)].
    - exists p, q2. rewrite Hcur2. by split_and!.
    - destruct (Hh sm evt) as [Hruns Hkeep]. destruct (Hruns w1' p w2 Hhe) as [p2 Hst].
      rewrite <- Hcur2 in Hq2.
      destruct (Hkeep w1' w2 q2 Hhe Hq2 Htmp2) as (Hc3 & q3 & Hq3 & Htmp3).
      exists p2, q3. rewrite Hc3. split_and!; try done; [by etrans|congruence]. }
  destruct (IH w2 p2 q3 Hs3 Hq3 Htmp3 Hp) as (Hr & Hcur & Hrest).
  split_and!; [done|congruence|done].
Qed.

(** ** Concrete worlds *)

(** Machines 1 and 2 share the queue 100 with four elements, machine 3 has the
    queue 200 with two and machine 4 none. *)
Definition demo_queue (n : nat) : vsfsm_evtq_t :=
  {| qsize := Z.of_nat n; queue := replicate n {| e_sm := NULL; e_evt := 0 |};
     activate := true; qhead := 0; qtail := 0; q_evt_count := 0; tick_evt_count := 0;
     q_tmp := None |}.
Definition demo_sm (qa : Z) : vsfsm_t := {| evtq := qa; evt_count := 0; pending_next := NULL |}.
Definition demo : world :=
  {| sms := {[1 := demo_sm 100; 2 := demo_sm 100; 3 := demo_sm 200; 4 := demo_sm NULL]};
     evtqs := {[100 := demo_queue 4; 200 := demo_queue 2]};
     vsfsm_cur_evtq := 100; trace := [] |}.

Lemma demo_ready : ready demo.
Proof.
  split; [| |done].
  - intros qa q. simpl. rewrite !lookup_insert_Some, lookup_singleton_Some.
    intros H. destruct_or?; destruct_and?; subst; split_and!; simpl; done || lia.
  - intros sm s. simpl. rewrite !lookup_insert_Some, lookup_singleton_Some.
    intros [[<- <-]|[_ [[<- <-]|[_ [[<- <-]|[_ [<- <-]]]]]]]; (split; [done|split; [done|]]);
      (by left) || (right; by eexists).
Qed.

(** One event for machine 1 and a timer event for machine 2 are queued. *)
Definition posted (w : world) (sm evt : Z) : world :=
  from_option snd w (vsfsm_post_evt_pending enter w sm evt).
Definition demo2 : world := posted (posted demo 1 0x10) 2 VSFSM_EVT_TIMER.

Lemma demo2_steps : rtc step (demo, []) (demo2, [(1, 0x10); (2, VSFSM_EVT_TIMER)]).
Proof.
  eapply rtc_l; [by apply (step_post_pending demo [] 1 0x10 VSFERR_NONE (posted demo 1 0x10))|].
  eapply rtc_l; [by apply (step_post_pending (posted demo 1 0x10) _ 2 VSFSM_EVT_TIMER VSFERR_NONE demo2)|].
  apply rtc_refl.
Qed.

Lemma demo2_inv : ∃ L, inv demo2 [(1, 0x10); (2, VSFSM_EVT_TIMER)] L.
Proof. exact (steps_inv _ _ _ demo2_steps (ready_inv _ demo_ready)). Qed.

(** The queue 100 of [demo2]. *)
Definition demo2_queue : vsfsm_evtq_t := default (demo_queue 4) (evtqs demo2 !! 100).

Lemma demo2_lookup : evtqs demo2 !! 100 = Some demo2_queue.
Proof. vm_compute. reflexivity. Qed.

Lemma demo2_lookup_cur : evtqs demo2 !! vsfsm_cur_evtq demo2 = Some demo2_queue.
Proof. vm_compute. reflexivity. Qed.

Definition demo2_sm : vsfsm_t := {| evtq := 100; evt_count := 1; pending_next := NULL |}.

Lemma demo2_lookup_sm : sms demo2 !! 1 = Some demo2_sm.
Proof. vm_compute. reflexivity. Qed.

Lemma demo2_lookup_evtq : evtqs demo2 !! evtq demo2_sm = Some demo2_queue.
Proof. vm_compute. reflexivity. Qed.

Lemma demo2_counts :
  qsize demo2_queue = 4 ∧ q_evt_count demo2_queue = 2 ∧ tick_evt_count demo2_queue = 1 ∧
  q_tmp demo2_queue = None.
Proof. vm_compute. done. Qed.

Lemma vsfsm_delivery_witness :
  ∃ w, rtc step (demo, []) (w, [(1, 0x10); (2, VSFSM_EVT_TIMER)]) ∧ calls (trace w) = [(1, 0x10)] ∧
    ∃ L : Z → list element, ∀ qa q, evtqs w !! qa = Some q → ring q (L qa).
Proof.
  pose (w3 := default demo2 (vsfsm_poll_take demo2)).
  pose (w4 := default demo2 (vsfsm_poll_count enter w3)).
  assert (Hs : rtc step (demo, []) (w4, [(1, 0x10); (2, VSFSM_EVT_TIMER)])).
  { eapply rtc_r; [eapply rtc_r; [exact demo2_steps|]|].
    - apply (step_take demo2 _ demo2_queue w3 demo2_lookup_cur); vm_compute; reflexivity.
    - apply (step_count w3 _ w4). vm_compute. reflexivity. }
  exists w4. split; [exact Hs|]. split; [by vm_compute|].
  destruct (vsfsm_delivery demo w4 _ demo_ready Hs) as (L & H & _). by exists L.
Defined.

Lemma vsfsm_poll_drains_witness :
  ∃ w', vsfsm_poll enter (S (Z.to_nat (q_evt_count demo2_queue))) demo2 = Some (VSFERR_NONE, w') ∧
    ∃ q', evtqs w' !! vsfsm_cur_evtq demo2 = Some q' ∧ q_evt_count q' = 0.
Proof.
  destruct demo2_inv as [L Hi]. destruct demo2_counts as (_ & _ & _ & Ht).
  destruct (vsfsm_poll_drains _ _ _ demo2_queue Hi demo2_lookup_cur Ht)
    as (w' & q' & H1 & H2 & H3 & H4 & H5).
  exists w'. split; [exact H1|]. exists q'. split; [exact H3|exact H4].
Defined.

Lemma vsfsm_fini_clears_witness :
  ∃ ql, vsfsm_fini demo2 1 = Some (VSFERR_NONE, set_evtq demo2 (evtq demo2_sm) (with_queue demo2_queue ql)).
Proof.
  destruct demo2_inv as [L Hi]. destruct demo2_counts as (Hs & Hc & _ & Ht).
  destruct (vsfsm_fini_clears _ _ _ 1 demo2_sm demo2_queue Hi demo2_lookup_sm demo2_lookup_evtq) as [H _].
  destruct H as (ql & H & _); [|exists ql; exact H].
  destruct (i_queues _ _ _ Hi _ _ demo2_lookup_evtq) as [_ Hr]. destruct (r_count _ _ Hr) as [Hcl _].
  unfold outstanding in Hcl. rewrite Ht in Hcl. rewrite Hs. lia.
Defined.

(** The post for machine 1 is lost, the one for machine 2 is queued. *)
Lemma vsfsm_timer_coalescing_witness :
  vsfsm_evtq_post demo2 1 VSFSM_EVT_TIMER = Some (VSFERR_NONE, demo2).
Proof.
  destruct demo2_inv as [L Hi]. destruct demo2_counts as (Hs & Hc & Hk & Ht).
  apply (vsfsm_timer_coalescing _ _ _ 1 demo2_sm demo2_queue Hi demo2_lookup_sm demo2_lookup_evtq);
    [lia|].
  destruct (i_queues _ _ _ Hi _ _ demo2_lookup_evtq) as [_ Hr].
  pose proof (r_tick _ _ Hr) as Htk. lia.
Defined.

(** A handler that answers each event of machine 1 with one for machine 2. *)
Definition forward (sm evt : Z) (w : world) : option world :=
  if sm =? 1 then snd <$> vsfsm_post_evt_pending enter w 2 evt else Some w.

Lemma evtq_post_hand w sm evt r w' q :
  vsfsm_evtq_post w sm evt = Some (r, w') →
  evtqs w !! vsfsm_cur_evtq w = Some q → q_tmp q = None →
  vsfsm_cur_evtq w' = vsfsm_cur_evtq w ∧
  ∃ q', evtqs w' !! vsfsm_cur_evtq w = Some q' ∧ q_tmp q' = None.
Proof.
  unfold vsfsm_evtq_post. destruct (sms w !! sm) as [s|]; [|done]. bindr.
  destruct (evtqs w !! evtq s) as [q0|] eqn:Hq0; [|done]. bindr.
  case_match; [naive_solver|]. case_match; [naive_solver|].
  destruct (evtq_push q0 sm evt) as [q1|] eqn:Hp; [|done]. bindr. intros Hw Hq Ht.
  assert (q_tmp q1 = q_tmp q0) by (unfold evtq_push in Hp; case_decide; by simplify_eq/=).
  assert (Hw' : evtqs w' = <[evtq s := q1]> (evtqs w) ∧ vsfsm_cur_evtq w' = vsfsm_cur_evtq w)
    by (destruct (activate q0); by simplify_eq).
  destruct Hw' as [-> ->]. split; [done|].
  destruct (decide (evtq s = vsfsm_cur_evtq w)) as [He|].
  - rewrite He in Hq0 |- *. exists q1. rewrite lookup_insert_eq. split; [done|]. congruence.
  - exists q. by rewrite lookup_insert_ne.
Qed.

Lemma forward_ok : handler_ok forward.
Proof.
  intros sm evt. unfold forward. destruct (sm =? 1); [split|split].
  - intros w p w' Hw. destruct (vsfsm_post_evt_pending enter w 2 evt) as [[r w1]|] eqn:Hp; [|done].
    simplify_eq/=. eexists. eapply rtc_once. by eapply step_post_pending.
  - intros w w' q Hw. destruct (vsfsm_post_evt_pending enter w 2 evt) as [[r w1]|] eqn:Hp; [|done].
    simplify_eq/=. unfold vsfsm_post_evt_pending in Hp.
    destruct (sms w !! 2) as [s|]; [|done]. simpl in Hp.
    case_match; [naive_solver|]. case_decide; [|by apply (evtq_post_hand w 2 evt r w' q Hp)].
    unfold vsfsm_dispatch_evt_protected, vsfsm_dispatch_evt, enter in Hp. simplify_eq/=. naive_solver.
  - intros w p w' Hw. simplify_eq. exists p. apply rtc_refl.
  - intros w w' q Hw. simplify_eq. naive_solver.
Qed.

Lemma vsfsm_poll_safe_witness :
  ∃ w', vsfsm_poll forward 4 demo2 = Some (VSFERR_NONE, w') ∧
    calls (trace w') = [(1, 0x10); (2, VSFSM_EVT_TIMER); (2, 0x10)] ∧
    ∃ p' L, inv w' p' L.
Proof.
  pose (w' := from_option snd demo (vsfsm_poll forward 4 demo2)).
  assert (Hp : vsfsm_poll forward 4 demo2 = Some (VSFERR_NONE, w')) by (vm_compute; reflexivity).
  exists w'. split; [exact Hp|]. split; [vm_compute; reflexivity|].
  destruct (vsfsm_poll_safe forward 4 demo demo2 _ demo2_queue VSFERR_NONE w' forward_ok demo_ready
    demo2_steps demo2_lookup_cur (proj2 (proj2 (proj2 demo2_counts))) Hp) as (_ & _ & p' & L & q' & _ & Hi & _).
  by exists p', L.
Defined.
