(* ===== verification/Sync.v ===== *)
(** * Sync: semaphores and critical sections (vsfsm_sync_* of vsfsm.c)

    A sync object counts free units; machines that find none are chained on
    [sm_pending] through their [pending_next] field and are woken, in order, by
    an event.  The sections run at interrupt level VSFCFG_MAX_SRT_PRIO, so each
    operation is one step; the post of [vsfsm_sync_increase] comes last. *)

From S2P Require Import Prelude Chain Vsfsm.

#[export] Instance vsfsm_Linked : Linked vsfsm_t.
Proof.
  refine {| nxt := pending_next;
    set_nxt a s := {| evtq := evtq s; evt_count := evt_count s; pending_next := a |} |};
    [done..|by intros []].
Defined.

(** [struct vsfsm_sync_t]. *)
Record vsfsm_sync_t := { cur_value : Z; s_evt : Z; max_value : Z; sm_pending : Z }.

Definition set_pending (s : vsfsm_sync_t) (p : Z) : vsfsm_sync_t :=
  {| cur_value := cur_value s; s_evt := s_evt s; max_value := max_value s; sm_pending := p |}.
Definition set_value (s : vsfsm_sync_t) (v : Z) : vsfsm_sync_t :=
  {| cur_value := v; s_evt := s_evt s; max_value := max_value s; sm_pending := sm_pending s |}.

Definition set_sms (w : world) (h : gmap Z vsfsm_t) : world :=
  {| sms := h; evtqs := evtqs w; vsfsm_cur_evtq := vsfsm_cur_evtq w; trace := trace w |}.

Definition vsfsm_sync_init (cur max evt : Z) : vsfsm_sync_t :=
  {| cur_value := cur; s_evt := evt; max_value := max; sm_pending := NULL |}.

Definition vsfsm_sem_init (cnt evt : Z) : vsfsm_sync_t := vsfsm_sync_init cnt 0xFFFFFFFF evt.
Definition vsfsm_crit_init (evt : Z) : vsfsm_sync_t := vsfsm_sync_init 1 1 evt.

(** [while (sm_pending->pending_next != NULL)]: the last machine. *)
Fixpoint vsfsm_sync_append_loop (fuel : nat) (h : gmap Z vsfsm_t) (p : Z) : option Z :=
  match fuel with
  | O => None
  | S fuel =>
      nx ← load_nxt h p;
      if decide (nx = NULL) then Some p else vsfsm_sync_append_loop fuel h nx
  end.

Definition vsfsm_sync_append_sm (h : gmap Z vsfsm_t) (s : vsfsm_sync_t) (sm : Z)
    : option (gmap Z vsfsm_t * vsfsm_sync_t) :=
  h ← store_nxt h sm NULL;
  if decide (sm_pending s = NULL) then Some (h, set_pending s sm)
  else
    p ← vsfsm_sync_append_loop (fuel_of h) h (sm_pending s);
    h ← store_nxt h p sm;
    Some (h, s).

Fixpoint vsfsm_sync_cancel_loop (fuel : nat) (h : gmap Z vsfsm_t) (p sm : Z)
    : option (gmap Z vsfsm_t) :=
  match fuel with
  | O => None
  | S fuel =>
      nx ← load_nxt h p;
      if decide (nx = NULL) then Some h
      else if decide (nx = sm) then nn ← load_nxt h sm; store_nxt h p nn
      else vsfsm_sync_cancel_loop fuel h nx sm
  end.

Definition vsfsm_sync_cancel (w : world) (s : vsfsm_sync_t) (sm : Z)
    : option (Z * world * vsfsm_sync_t) :=
  if decide (sm_pending s = sm) then
    nn ← load_nxt (sms w) sm; Some (VSFERR_NONE, w, set_pending s nn)
  else if decide (sm_pending s = NULL) then Some (VSFERR_NONE, w, s)
  else
    h ← vsfsm_sync_cancel_loop (fuel_of (sms w)) (sms w) (sm_pending s) sm;
    Some (VSFERR_NONE, set_sms w h, s).

Definition vsfsm_sync_increase (evt_handler : Z → Z → world → option world)
    (w : world) (s : vsfsm_sync_t) : option (Z * world * vsfsm_sync_t) :=
  if decide (sm_pending s ≠ NULL) then
    nn ← load_nxt (sms w) (sm_pending s);
    '(r, w) ← vsfsm_post_evt evt_handler w (sm_pending s) (s_evt s);
    Some (if decide (r ≠ VSFERR_NONE) then VSFERR_BUG else VSFERR_NONE, w, set_pending s nn)
  else if cur_value s <? max_value s then
    Some (VSFERR_NONE, w, set_value s (u32 (cur_value s + 1)))
  else Some (VSFERR_BUG, w, s).

Definition vsfsm_sync_decrease (w : world) (s : vsfsm_sync_t) (sm : Z)
    : option (Z * world * vsfsm_sync_t) :=
  if 0 <? cur_value s then Some (VSFERR_NONE, w, set_value s (u32 (cur_value s - 1)))
  else
    '(h, s) ← vsfsm_sync_append_sm (sms w) s sm;
    Some (VSFERR_NOT_READY, set_sms w h, s).

(** ** A counter and a queue of waiters *)

(** The object holds [v] free units and the waiting machines [l], first to
    last; nobody waits while a unit is free. *)
Record sync_rep (w : world) (s : vsfsm_sync_t) (v : Z) (l : list Z) : Prop := {
  sr_value : cur_value s = v ∧ 0 ≤ v ≤ max_value s ∧ max_value s ≤ 0xFFFFFFFF;
  sr_chain : chain (sms w) (sm_pending s) l;
  sr_idle : 0 < v → l = [] }.

(** Two worlds that differ at most in [pending_next]. *)
Definition same_but_links (w w' : world) : Prop :=
  evtqs w' = evtqs w ∧ vsfsm_cur_evtq w' = vsfsm_cur_evtq w ∧ trace w' = trace w ∧
  ∀ x, (λ s, (evtq s, evt_count s)) <$> sms w' !! x = (λ s, (evtq s, evt_count s)) <$> sms w !! x.

(** Two worlds with the same [pending_next] fields. *)
Definition same_links (w w' : world) : Prop :=
  ∀ x, pending_next <$> sms w' !! x = pending_next <$> sms w !! x.

#[export] Instance same_links_equiv : Equivalence same_links.
Proof.
  split; [by intros ? ?|by intros x y H a; rewrite H|].
  intros x y z H1 H2 a. by rewrite H2.
Qed.

Lemma same_links_chain w w' p l : same_links w w' → chain (sms w) p l → chain (sms w') p l.
Proof.
  intros Hs. apply lseg_frame. intros a n _ Ha. specialize (Hs a). rewrite Ha in Hs.
  apply fmap_Some in Hs as (n' & Hn' & Heq). by exists n'.
Qed.

Lemma same_links_set_count w sm s n :
  sms w !! sm = Some s → same_links w (set_sm w sm (set_count s n)).
Proof.
  intros Hs x. simpl. destruct (decide (x = sm)) as [->|].
  - by rewrite lookup_insert_eq, Hs.
  - by rewrite lookup_insert_ne.
Qed.

Lemma store_nxt_same w h a x :
  store_nxt (sms w) a x = Some h → same_but_links w (set_sms w h).
Proof.
  unfold store_nxt. destruct (sms w !! a) as [n|] eqn:Hn; [|done]. bindr. intros [= <-].
  split_and!; try done. intros b. simpl. destruct (decide (b = a)) as [->|].
  - by rewrite lookup_insert_eq, Hn.
  - by rewrite lookup_insert_ne.
Qed.

(** *** Kernel operations leave the chain of waiters alone *)

Lemma evtq_post_links w sm evt r w' :
  vsfsm_evtq_post w sm evt = Some (r, w') → same_links w w'.
Proof.
  unfold vsfsm_evtq_post. destruct (sms w !! sm) as [s|] eqn:Hs; [|done]. bindr.
  destruct (evtqs w !! evtq s) as [q|]; [|done]. bindr.
  case_match; [by intros [= _ <-]|]. case_match; [by intros [= _ <-]|].
  destruct (evtq_push q sm evt) as [q'|]; [|done]. bindr. intros [= _ <-].
  pose proof (same_links_set_count w sm s (u32 (evt_count s + 1)) Hs) as Hl.
  by destruct (activate q).
Qed.

Lemma post_evt_links w sm evt r w' :
  vsfsm_post_evt enter w sm evt = Some (r, w') → same_links w w'.
Proof.
  unfold vsfsm_post_evt. destruct (sms w !! sm) as [s|]; [|done]. bindr.
  case_decide; [by intros [= _ <-]|]. case_decide; [by intros [= _ <-]|].
  case_decide; [apply evtq_post_links|by intros [= _ <-]].
Qed.

Lemma post_evt_pending_links w sm evt r w' :
  vsfsm_post_evt_pending enter w sm evt = Some (r, w') → same_links w w'.
Proof.
  unfold vsfsm_post_evt_pending. destruct (sms w !! sm) as [s|]; [|done]. bindr.
  case_match; [by intros [= _ <-]|]. case_decide; [by intros [= _ <-]|apply evtq_post_links].
Qed.

Lemma step_links w p w' p' : step (w, p) (w', p') → same_links w w'.
Proof.
  inversion 1 as [? ? sm evt r ? Hp|? ? sm evt r ? Hp|? ? q ? Hq Ht Hp|? ? ? Hp|? ? qa Hq]; subst.
  - by eapply post_evt_links.
  - by eapply post_evt_pending_links.
  - unfold vsfsm_poll_take in Hp. rewrite Hq in Hp. simpl in Hp.
    destruct (q_evt_count q =? 0); [done|]. destruct (queue q !! _); [|done]. by simplify_eq/=.
  - unfold vsfsm_poll_count in Hp. destruct (evtqs w !! _) as [q|]; [|done]. simpl in Hp.
    destruct (q_tmp q) as [e|]; [|done]. simpl in Hp.
    case_decide; [by simplify_eq/=|]. destruct (sms w !! e_sm e) as [s|] eqn:Hs; [|done].
    simplify_eq/=. exact (same_links_set_count w _ s _ Hs).
  - done.
Qed.

(** *** The operations *)

Lemma append_loop_spec fuel (h : gmap Z vsfsm_t) p l a :
  chain h p (l ++ [a]) → (length l < fuel)%nat →
  vsfsm_sync_append_loop fuel h p = Some a.
Proof.
  revert p l. induction fuel as [|fuel IH]; intros p l Hc Hf; [lia|].
  assert (Hp : p ≠ NULL) by (intros ->; apply chain_null in Hc; by destruct l).
  apply chain_cons_inv in Hc as (m & l' & Hl & Hm & Hc); [|done].
  cbn [vsfsm_sync_append_loop]. rewrite (load_nxt_eq _ _ _ Hm). bindr.
  destruct l as [|b l]; simplify_eq/=.
  - by rewrite decide_True by done.
  - case_decide as Hn.
    + rewrite Hn in Hc. apply chain_null in Hc. by destruct l.
    + eapply IH; [done|lia].
Qed.

Lemma append_sm_spec (h : gmap Z vsfsm_t) s l sm n :
  chain h (sm_pending s) l → h !! sm = Some n → sm ≠ NULL → sm ∉ l →
  ∃ h' s', vsfsm_sync_append_sm h s sm = Some (h', s') ∧
    chain h' (sm_pending s') (l ++ [sm]) ∧
    cur_value s' = cur_value s ∧ max_value s' = max_value s ∧ s_evt s' = s_evt s.
Proof.
  intros Hc Hn Hsm Hfr. unfold vsfsm_sync_append_sm. rewrite (store_nxt_eq _ _ _ _ Hn). bindr.
  destruct l as [|a l _] using rev_ind.
  - apply chain_nil in Hc. rewrite decide_True by done. do 2 eexists. split; [done|].
    split; [|done]. cbn [set_pending sm_pending app].
    apply (chain_single _ sm (set_nxt NULL n)); [done|by rewrite lookup_insert_eq|].
    by rewrite nxt_set_nxt.
  - rewrite decide_False by (intros Hz; rewrite Hz in Hc; apply chain_null in Hc; by destruct l).
    pose proof Hc as (na & _ & Ha0 & Hna & _)%lseg_snoc.
    pose proof (chain_fuel _ _ _ Hc) as Hf. rewrite length_app in Hf. simpl in Hf.
    assert (Hc' : chain (<[sm:=set_nxt NULL n]> h) (sm_pending s) (l ++ [a]))
      by by apply lseg_insert_notin.
    rewrite (append_loop_spec _ _ _ l a Hc')
      by (unfold fuel_of in *; rewrite map_size_insert_Some by done; lia).
    bindr. assert (sm ≠ a) by set_solver.
    rewrite (store_nxt_eq _ _ _ na) by by rewrite lookup_insert_ne. bindr.
    do 2 eexists. split; [done|]. split; [|done]. by apply chain_snoc.
Qed.

Lemma append_sm_same w s sm h' s' :
  vsfsm_sync_append_sm (sms w) s sm = Some (h', s') → same_but_links w (set_sms w h').
Proof.
  unfold vsfsm_sync_append_sm. destruct (store_nxt (sms w) sm NULL) as [h1|] eqn:H1; [|done].
  bindr. apply (store_nxt_same w) in H1. case_decide; [by intros [= <- <-]|].
  destruct (vsfsm_sync_append_loop _ _ _) as [p|]; [|done]. bindr.
  destruct (store_nxt h1 p sm) as [h2|] eqn:H2; [|done]. bindr. intros [= <- <-].
  apply (store_nxt_same (set_sms w h1)) in H2.
  destruct H1 as (? & ? & ? & E1), H2 as (? & ? & ? & E2). split_and!; try done.
  intros x. by rewrite <- E1, <- E2.
Qed.

Lemma cancel_loop_spec fuel (h : gmap Z vsfsm_t) p l sm :
  chain h p (p :: l) → sm ≠ p → sm ≠ NULL → (length l < fuel)%nat →
  ∃ h', vsfsm_sync_cancel_loop fuel h p sm = Some h' ∧
    chain h' p (filter (λ a, a ≠ sm) (p :: l)) ∧
    (h' = h ∨ ∃ a x, store_nxt h a x = Some h').
Proof.
  intros Hc Hsp Hs0 Hf.
  assert (Hgen : ∀ fuel k a l, chain h p ((k ++ [a]) ++ l) → sm ∉ k ++ [a] → (length l < fuel)%nat →
    ∃ h', vsfsm_sync_cancel_loop fuel h a sm = Some h' ∧
    chain h' p (filter (λ a, a ≠ sm) ((k ++ [a]) ++ l)) ∧ (h' = h ∨ ∃ a x, store_nxt h a x = Some h')).
  { clear fuel l Hc Hf. induction fuel as [|fuel IH]; intros k a l Hc Hni Hf; [lia|].
    pose proof Hc as Hca. rewrite <- app_assoc in Hca.
    apply chain_app_inv in Hca as (na & Hk & Ha0 & Hna & Hl & _).
    cbn [vsfsm_sync_cancel_loop]. rewrite (load_nxt_eq _ _ _ Hna). bindr. destruct l as [|b l].
    - apply chain_nil in Hl. rewrite decide_True by done. exists h. split; [done|].
      rewrite app_nil_r in Hc |- *. rewrite filter_ne_notin by done. split; [done|by left].
    - pose proof Hl as (Hb & Hb0 & nb & Hnb & Hl'). rewrite Hb, decide_False by done.
      case_decide as Hbs.
      + rewrite Hbs in *. rewrite (load_nxt_eq _ _ _ Hnb). bindr.
        rewrite (store_nxt_eq _ _ _ _ Hna). eexists. split; [done|].
        pose proof (chain_NoDup _ _ _ Hc) as Hnd. rewrite filter_ne_mid by done.
        rewrite <- !app_assoc in *. split; [by apply (chain_unlink h p k a sm l)|].
        right. exists a, (nxt nb). by apply store_nxt_eq.
      + replace ((k ++ [a]) ++ b :: l) with (((k ++ [a]) ++ [b]) ++ l) in *
          by by rewrite <- app_assoc.
        apply IH; [done|set_solver|simpl in Hf; lia]. }
  apply (Hgen fuel [] p l); [done|set_solver|done].
Qed.

Lemma increase_spec w s v l :
  sync_rep w s v l →
  match l with
  | a :: l' => ∀ r w', vsfsm_post_evt enter w a (s_evt s) = Some (r, w') →
      ∃ s', vsfsm_sync_increase enter w s =
              Some (if decide (r ≠ VSFERR_NONE) then VSFERR_BUG else VSFERR_NONE, w', s') ∧
            sync_rep w' s' v l' ∧ max_value s' = max_value s
  | [] => ∃ s', vsfsm_sync_increase enter w s =
              Some (if v <? max_value s then VSFERR_NONE else VSFERR_BUG, w, s') ∧
            sync_rep w s' (if v <? max_value s then v + 1 else v) [] ∧
            max_value s' = max_value s
  end.
Proof.
  intros [(Hv & Hb & Hm) Hc Hi]. unfold vsfsm_sync_increase. destruct l as [|a l].
  - apply chain_nil in Hc. rewrite decide_False by auto. rewrite Hv.
    destruct (Z.ltb_spec v (max_value s)).
    + eexists. split; [done|]. rewrite u32_small by lia.
      split; [split; cbn; [split_and!; done || lia|done..]|done].
    + eexists. split; [done|]. split; [split; [done..|done]|done].
  - intros r w' Hp. pose proof Hc as (Ha & Ha0 & n & Hn & Hl). rewrite Ha in *.
    rewrite decide_True by done. rewrite (load_nxt_eq _ _ _ Hn). bindr. rewrite Hp. bindr.
    eexists. split; [done|]. split; [|done]. split; cbn; [done| |intros H; by apply Hi in H].
    eapply same_links_chain; [by eapply post_evt_links|done].
Qed.

Lemma decrease_spec w s v l sm :
  sync_rep w s v l → is_Some (sms w !! sm) → sm ≠ NULL → sm ∉ l →
  ∃ w' s', vsfsm_sync_decrease w s sm =
      Some (if 0 <? v then VSFERR_NONE else VSFERR_NOT_READY, w', s') ∧
    sync_rep w' s' (if 0 <? v then v - 1 else v) (if 0 <? v then [] else l ++ [sm]) ∧
    max_value s' = max_value s ∧ s_evt s' = s_evt s ∧ same_but_links w w'.
Proof.
  intros [(Hv & Hb & Hm) Hc Hi] [n Hn] Hs0 Hni. unfold vsfsm_sync_decrease. rewrite Hv.
  destruct (Z.ltb_spec 0 v) as [Hpos|Hz].
  - do 2 eexists. split; [done|]. rewrite u32_small by lia. split_and!; try done.
    rewrite (Hi Hpos) in Hc. split; cbn; [split_and!; done || lia|done..].
  - destruct (append_sm_spec (sms w) s l sm n Hc Hn Hs0 Hni) as (h' & s' & Ha & Hc' & H1 & H2 & H3).
    pose proof (append_sm_same w s sm h' s' Ha) as Hsame. rewrite Ha. bindr.
    do 2 eexists. split; [done|]. split_and!; try done; [|by apply Hsame..].
    split; [rewrite H1, H2; split_and!; done || lia|done|lia].
Qed.

Lemma cancel_spec w s v l sm :
  sync_rep w s v l → is_Some (sms w !! sm) → sm ≠ NULL →
  ∃ w' s', vsfsm_sync_cancel w s sm = Some (VSFERR_NONE, w', s') ∧
    sync_rep w' s' v (filter (λ a, a ≠ sm) l) ∧
    max_value s' = max_value s ∧ s_evt s' = s_evt s ∧ same_but_links w w'.
Proof.
  intros [(Hv & Hb & Hm) Hc Hi] [n Hn] Hs0. unfold vsfsm_sync_cancel.
  assert (Hi' : 0 < v → filter (λ a, a ≠ sm) l = []) by (intros H; by rewrite (Hi H)).
  case_decide as Hhd; [|case_decide as Hnull].
  - rewrite (load_nxt_eq _ _ _ Hn). bindr. do 2 eexists. split; [done|].
    split; [split; [done| |done]|done].
    rewrite Hhd in Hc. apply chain_cons_inv in Hc as (m & l' & -> & Hm' & Hc'); [|done].
    assert (m = n) as -> by congruence.
    assert (sm ∉ l').
    { assert (chain (sms w) sm (sm :: l')) as Hd%chain_NoDup by (unfold chain; simpl; eauto).
      by apply NoDup_cons in Hd as [? _]. }
    rewrite filter_cons_False by naive_solver. by rewrite filter_ne_notin.
  - rewrite Hnull in Hc. apply chain_null in Hc as Hl. subst l. do 2 eexists. split; [done|].
    split; [split; [done| |done]|done]. by rewrite Hnull.
  - destruct (chain_cons_inv _ _ _ Hnull Hc) as (m & l' & -> & _).
    pose proof (chain_fuel _ _ _ Hc) as Hf. simpl in Hf.
    destruct (cancel_loop_spec (fuel_of (sms w)) (sms w) (sm_pending s) l' sm)
      as (h' & -> & Hc' & Hst); [done|done|done|lia|].
    bindr. do 2 eexists. split; [done|]. split; [split; done|]. split; [done|]. split; [done|].
    destruct Hst as [->|(a & x & Hst)]; [by destruct w|]. by eapply store_nxt_same.
Qed.

(** ** Units, owners and waiters over time *)

(** The kernel's world and history, the object, and three ghosts: the machines
    that were granted a unit and did not release it, the waiting machines in
    order, and the number of units lost in wake-ups whose post failed. *)
Record sstate := {
  st_w : world; st_p : list (Z * Z); st_s : vsfsm_sync_t;
  owners : list Z; waiters : list Z; lost : nat }.

(** Kernel steps of any kind, a machine that does not wait already asking for a
    unit, an owner releasing one, and a machine giving up waiting. *)
Inductive sync_step : sstate → sstate → Prop :=
| sync_kernel w p w' p' s o l k :
    step (w, p) (w', p') → sync_step (Build_sstate w p s o l k) (Build_sstate w' p' s o l k)
| sync_ask w p s o l k sm r w' s' :
    is_Some (sms w !! sm) → sm ∉ l → vsfsm_sync_decrease w s sm = Some (r, w', s') →
    sync_step (Build_sstate w p s o l k)
      (if decide (r = VSFERR_NONE) then Build_sstate w' p s' (sm :: o) l k
       else Build_sstate w' p s' o (l ++ [sm]) k)
| sync_release w p s o1 o2 l k sm r w' s' :
    vsfsm_sync_increase enter w s = Some (r, w', s') →
    sync_step (Build_sstate w p s (o1 ++ sm :: o2) l k)
      (match l with
       | [] => Build_sstate w' p s' (o1 ++ o2) [] k
       | a :: l =>
           if decide (r = VSFERR_NONE)
           then Build_sstate w' (p ++ [(a, s_evt s)]) s' (a :: o1 ++ o2) l k
           else Build_sstate w' p s' (o1 ++ o2) l (S k)
       end)
| sync_giveup w p s o l k sm w' s' :
    is_Some (sms w !! sm) → vsfsm_sync_cancel w s sm = Some (VSFERR_NONE, w', s') →
    sync_step (Build_sstate w p s o l k) (Build_sstate w' p s' o (filter (λ a, a ≠ sm) l) k).

(** [n] units in all, of the object's maximum [m]. *)
Record sync_inv (n m : Z) (x : sstate) : Prop := {
  si_kernel : ∃ L, inv (st_w x) (st_p x) L;
  si_rep : sync_rep (st_w x) (st_s x) (cur_value (st_s x)) (waiters x);
  si_max : max_value (st_s x) = m ∧ n ≤ m;
  si_units : cur_value (st_s x) + Z.of_nat (length (owners x)) + Z.of_nat (lost x) = n }.

Lemma waiting_same w w' L s s' :
  evtqs w' = evtqs w → evtq s' = evtq s → waiting w' L s' = waiting w L s.
Proof. unfold waiting. by intros -> ->. Qed.

Lemma same_but_links_inv w w' p L : same_but_links w w' → inv w p L → inv w' p L.
Proof.
  intros (Hq & Hc & Ht & Hs) [H1 H2 H3 H4].
  assert (Hback : ∀ sm s', sms w' !! sm = Some s' →
    ∃ s, sms w !! sm = Some s ∧ evtq s' = evtq s ∧ evt_count s' = evt_count s).
  { intros sm s' Hs'. specialize (Hs sm). rewrite Hs' in Hs. symmetry in Hs.
    apply fmap_Some in Hs as (s & -> & [=]). eauto. }
  split.
  - intros qa q. rewrite Hq. apply H1.
  - intros qa q e. rewrite Hq. intros Hqa He. destruct (H2 _ _ _ Hqa He) as (? & ? & s & Hsm & <-).
    split_and!; try done. specialize (Hs (e_sm e)). rewrite Hsm in Hs.
    apply fmap_Some in Hs as (s' & -> & [=]). by exists s'.
  - intros sm s' (s & Hsm & E1 & E2)%Hback. rewrite Hq, E1, E2.
    rewrite (waiting_same w w' L s s') by done. by apply H3.
  - intros sm s' (s & Hsm & E1 & E2)%Hback. rewrite Ht.
    rewrite (waiting_same w w' L s s') by done. by apply H4.
Qed.

Lemma sync_rep_eq w s v l : sync_rep w s v l → cur_value s = v.
Proof. by intros [[? _] _ _]. Qed.

Lemma accepted_not r sm evt : r ≠ VSFERR_NONE → accepted r sm evt = [].
Proof. intros. unfold accepted. by destruct (Z.eqb_spec r VSFERR_NONE). Qed.

Lemma sync_release_inv n m w p s o1 o2 l k sm r w' s' :
  sync_inv n m (Build_sstate w p s (o1 ++ sm :: o2) l k) →
  vsfsm_sync_increase enter w s = Some (r, w', s') →
  sync_inv n m (match l with
       | [] => Build_sstate w' p s' (o1 ++ o2) [] k
       | a :: l =>
           if decide (r = VSFERR_NONE)
           then Build_sstate w' (p ++ [(a, s_evt s)]) s' (a :: o1 ++ o2) l k
           else Build_sstate w' p s' (o1 ++ o2) l (S k)
       end) ∧ (l = [] → r = VSFERR_NONE).
Proof.
  intros [[L Hk] Hr [Hm Hnm] Hu] Hi. cbn [st_w st_p st_s owners waiters lost] in *.
  rewrite length_app in Hu. simpl in Hu. pose proof (increase_spec w s _ l Hr) as Hsp.
  destruct l as [|a l].
  - destruct Hsp as (s1 & Hi1 & Hr1 & Hm1). rewrite Hi in Hi1. injection Hi1 as -> -> ->.
    pose proof (sync_rep_eq _ _ _ _ Hr1) as Hv. destruct (sr_value _ _ _ _ Hr) as (_ & Hb & _).
    destruct (Z.ltb_spec (cur_value s) (max_value s)) as [Hlt|Hge]; [|lia].
    split; [|done]. split; cbn; [by exists L|by rewrite Hv|by rewrite Hm1|].
    rewrite Hv, length_app. lia.
  - pose proof (sr_chain _ _ _ _ Hr) as (_ & _ & na & Hna & _).
    destruct (post_evt_inv _ _ _ a (s_evt s) na Hk Hna) as (r0 & w1 & L1 & Hp & Hk1).
    destruct (Hsp r0 w1 Hp) as (s1 & Hi1 & Hr1 & Hm1). rewrite Hi in Hi1. injection Hi1 as -> -> ->.
    pose proof (sync_rep_eq _ _ _ _ Hr1) as Hv. rewrite <- Hv in Hr1. split; [|done].
    destruct (decide (r0 = VSFERR_NONE)) as [->|Hne].
    + rewrite (decide_False (P := VSFERR_NONE ≠ VSFERR_NONE)) by auto.
      rewrite decide_True by done.
      split; cbn; [by exists L1|done|by rewrite Hm1|]. rewrite Hv, length_app. lia.
    + rewrite (decide_True (P := r0 ≠ VSFERR_NONE)) by done. rewrite decide_False by done.
      rewrite (accepted_not _ _ _ Hne), app_nil_r in Hk1.
      split; cbn; [by exists L1|done|by rewrite Hm1|]. rewrite Hv, length_app. lia.
Qed.

Lemma sync_step_inv n m x y : sync_inv n m x → sync_step x y → sync_inv n m y.
Proof.
  intros Hx Hst. destruct Hst as [w p w' p' s o l k Hst|w p s o l k sm r w' s' Hsm Hni Hd
    |w p s o1 o2 l k sm r w' s' Hi|w p s o l k sm w' s' Hsm Hc].
  - destruct Hx as [[L Hk] [Hv Hc Hi] Hm Hu]. split; cbn in *; try done.
    + by eapply step_inv.
    + split; [done| |done]. eapply same_links_chain; [by eapply step_links|done].
  - destruct Hx as [[L Hk] Hr [Hm Hnm] Hu]. cbn in *.
    assert (Hsm0 : sm ≠ NULL) by (destruct Hsm as [? Hsm]; by destruct (i_sms _ _ _ Hk _ _ Hsm)).
    destruct (decrease_spec w s _ l sm Hr Hsm Hsm0 Hni) as (w1 & s1 & Hd1 & Hr1 & Hm1 & _ & Hsame).
    rewrite Hd in Hd1. injection Hd1 as -> -> ->. apply (same_but_links_inv _ _ _ _ Hsame) in Hk.
    pose proof (sync_rep_eq _ _ _ _ Hr1) as Hv. pose proof Hr1 as Hr2. rewrite <- Hv in Hr2.
    destruct (Z.ltb_spec 0 (cur_value s)) as [Hpos|Hz].
    + rewrite decide_True by done. rewrite (sr_idle _ _ _ _ Hr Hpos).
      split; cbn; [by exists L|done|by rewrite Hm1|lia].
    + rewrite decide_False by done. split; cbn; [by exists L|done|by rewrite Hm1|lia].
  - by destruct (sync_release_inv _ _ _ _ _ _ _ _ _ _ _ _ _ Hx Hi) as [? _].
  - destruct Hx as [[L Hk] Hr [Hm Hnm] Hu]. cbn in *.
    assert (Hsm0 : sm ≠ NULL) by (destruct Hsm as [? Hsm]; by destruct (i_sms _ _ _ Hk _ _ Hsm)).
    destruct (cancel_spec w s _ l sm Hr Hsm Hsm0) as (w1 & s1 & Hc1 & Hr1 & Hm1 & _ & Hsame).
    rewrite Hc in Hc1. injection Hc1 as -> ->. apply (same_but_links_inv _ _ _ _ Hsame) in Hk.
    pose proof (sync_rep_eq _ _ _ _ Hr1) as Hv. rewrite <- Hv in Hr1.
    split; cbn; [by exists L|done|by rewrite Hm1|lia].
Qed.

Definition sync_start (w : world) (n m evt : Z) : sstate :=
  Build_sstate w [] (vsfsm_sync_init n m evt) [] [] 0.

Lemma sync_start_inv w n m evt :
  ready w → 0 ≤ n ≤ m → m ≤ 0xFFFFFFFF → sync_inv n m (sync_start w n m evt).
Proof.
  intros Hr Hn Hm. split; cbn; [by eexists; apply ready_inv| |lia..].
  split; cbn; [lia|done|done].
Qed.

Lemma sync_steps_inv n m x y : sync_inv n m x → rtc sync_step x y → sync_inv n m y.
Proof. intros Hx Hs. induction Hs; eauto using sync_step_inv. Qed.

(** C40: [vsfsm_sync_decrease], [vsfsm_sync_increase] and [vsfsm_sync_cancel]
    implement a counter with a queue of waiters: a free unit is taken at once,
    otherwise the caller is queued at the end and told to wait; a released unit
    goes to the first waiter, by an event, or to the counter, and is refused at
    the maximum; a cancelled waiter leaves the queue and nobody else does. *)
Theorem vsfsm_sync_refines w s v l :
  sync_rep w s v l →
  (∀ sm, is_Some (sms w !! sm) → sm ≠ NULL → sm ∉ l →
     ∃ w' s', vsfsm_sync_decrease w s sm =
         Some (if 0 <? v then VSFERR_NONE else VSFERR_NOT_READY, w', s') ∧
       sync_rep w' s' (if 0 <? v then v - 1 else v) (if 0 <? v then [] else l ++ [sm]) ∧
       same_but_links w w') ∧
  match l with
  | a :: l' => ∀ r w', vsfsm_post_evt enter w a (s_evt s) = Some (r, w') →
      ∃ s', vsfsm_sync_increase enter w s =
              Some (if decide (r ≠ VSFERR_NONE) then VSFERR_BUG else VSFERR_NONE, w', s') ∧
            sync_rep w' s' v l'
  | [] => ∃ s', vsfsm_sync_increase enter w s =
              Some (if v <? max_value s then VSFERR_NONE else VSFERR_BUG, w, s') ∧
            sync_rep w s' (if v <? max_value s then v + 1 else v) []
  end ∧
  (∀ sm, is_Some (sms w !! sm) → sm ≠ NULL →
     ∃ w' s', vsfsm_sync_cancel w s sm = Some (VSFERR_NONE, w', s') ∧
       sync_rep w' s' v (filter (λ a, a ≠ sm) l) ∧ same_but_links w w').
Proof.
  intros Hr. split_and!.
  - intros sm H1 H2 H3. destruct (decrease_spec w s v l sm Hr H1 H2 H3) as (w' & s' & H). naive_solver.
  - pose proof (increase_spec w s v l Hr) as H. destruct l; naive_solver.
  - intros sm H1 H2. destruct (cancel_spec w s v l sm Hr H1 H2) as (w' & s' & H). naive_solver.
Qed.

(** C13: the units of a semaphore or critical section are conserved under any
    interleaving with the kernel's operations: free units, units held and units
    lost in failed wake-ups always add up to the initial count (so a critical
    section has one owner at most), nobody waits while a unit is free, no
    machine waits twice, and a release by an owner always runs and fails only
    if the wake-up event could not be posted. *)
Theorem vsfsm_sync_conserves w n m evt x :
  ready w → 0 ≤ n ≤ m → m ≤ 0xFFFFFFFF → rtc sync_step (sync_start w n m evt) x →
  cur_value (st_s x) + Z.of_nat (length (owners x)) + Z.of_nat (lost x) = n ∧
  0 ≤ cur_value (st_s x) ∧ (0 < cur_value (st_s x) → waiters x = []) ∧ NoDup (waiters x) ∧
  chain (sms (st_w x)) (sm_pending (st_s x)) (waiters x) ∧
  (owners x ≠ [] → ∃ r w' s', vsfsm_sync_increase enter (st_w x) (st_s x) = Some (r, w', s') ∧
     (waiters x = [] → r = VSFERR_NONE)).
Proof.
  intros Hr Hn Hm Hs. pose proof (sync_steps_inv n m _ _ (sync_start_inv w n m evt Hr Hn Hm) Hs) as Hi.
  pose proof Hi as [[L Hk] Hrep Hmx Hu]. pose proof Hrep as [(_ & Hb & _) Hc Hw].
  split_and!; try done; [lia|by eapply chain_NoDup|].
  intros Ho. destruct x as [w1 p s o l k]. cbn in *.
  pose proof (increase_spec w1 s _ l Hrep) as Hsp. destruct o as [|a o]; [done|].
  assert (Hdef : ∃ r w' s', vsfsm_sync_increase enter w1 s = Some (r, w', s')).
  { destruct l as [|b l]; [naive_solver|]. pose proof Hc as (_ & _ & nb & Hnb & _).
    destruct (post_evt_inv _ _ _ b (s_evt s) nb Hk Hnb) as (r & w' & ? & Hp & _).
    destruct (Hsp r w' Hp) as (s' & -> & _). eauto. }
  destruct Hdef as (r & w' & s' & Hdef). exists r, w', s'. split; [done|].
  by destruct (sync_release_inv n m w1 p s [] o l k a r w' s' Hi Hdef) as [_ ?].
Qed.

(** ** A critical section of the demo world *)

(** Machine 1 is inside, machine 2 waits. *)
Definition crit0 : vsfsm_sync_t := vsfsm_crit_init 0x20.
Definition crit1 : vsfsm_sync_t := set_value crit0 0.
Definition crit2 : vsfsm_sync_t := set_pending crit1 2.

(** Machine 1 has left: the event for machine 2 is in the queue 100. *)
Definition crit_world : world := from_option snd demo (vsfsm_post_evt enter demo 2 0x20).

Lemma crit_ask1 : vsfsm_sync_decrease demo crit0 1 = Some (VSFERR_NONE, demo, crit1).
Proof. vm_compute. reflexivity. Qed.
Lemma crit_ask2 : vsfsm_sync_decrease demo crit1 2 = Some (VSFERR_NOT_READY, demo, crit2).
Proof. vm_compute. reflexivity. Qed.
Lemma crit_release : vsfsm_sync_increase enter demo crit2 = Some (VSFERR_NONE, crit_world, crit1).
Proof. vm_compute. reflexivity. Qed.
Lemma demo_sms sm : sm ∈ [1; 2; 3; 4] → is_Some (sms demo !! sm).
Proof. intros H. repeat (apply elem_of_cons in H as [->|H]; [by eexists|]). by apply not_elem_of_nil in H. Qed.

Definition crit_end : sstate := Build_sstate crit_world [(2, 0x20)] crit1 [2] [] 0.

Lemma crit_steps : rtc sync_step (sync_start demo 1 1 0x20) crit_end.
Proof.
  change (sync_start demo 1 1 0x20) with (Build_sstate demo [] crit0 [] [] 0).
  eapply rtc_l.
  { eapply (sync_ask _ _ _ _ _ _ 1); [apply demo_sms; set_solver|set_solver|exact crit_ask1]. }
  rewrite decide_True by done. eapply rtc_l.
  { eapply (sync_ask _ _ _ _ _ _ 2); [apply demo_sms; set_solver|set_solver|exact crit_ask2]. }
  rewrite decide_False by done.
  eapply rtc_l; [exact (sync_release demo [] crit2 [] [] [2] 0 1 _ _ _ crit_release)|].
  apply rtc_refl.
Qed.

Lemma vsfsm_sync_conserves_witness :
  rtc sync_step (sync_start demo 1 1 0x20) crit_end ∧
  cur_value crit1 + Z.of_nat (length [2]) + 0 = 1.
Proof.
  split; [exact crit_steps|].
  destruct (vsfsm_sync_conserves demo 1 1 0x20 crit_end demo_ready ltac:(lia) ltac:(lia) crit_steps)
    as [H _]. exact H.
Defined.

Lemma vsfsm_sync_refines_witness :
  sync_rep demo crit0 1 [] ∧
  ∃ w' s', vsfsm_sync_decrease demo crit0 1 = Some (VSFERR_NONE, w', s') ∧ sync_rep w' s' 0 [].
Proof.
  assert (Hr : sync_rep demo crit0 1 []) by (split; cbn; [lia|done|done]).
  split; [exact Hr|].
  destruct (vsfsm_sync_refines demo crit0 1 [] Hr) as [H _].
  destruct (H 1) as (w' & s' & H1 & H2 & _); [apply demo_sms; set_solver|done|set_solver|].
  exists w', s'. split; [exact H1|exact H2].
Defined.
