(* ===== verification/Vsftimer.v ===== *)
(** * Vsftimer: software timers (vsftimer.c)

    Timers are objects of an application-supplied memory ([mem_op]) chained by
    expiry time on a [vsfq] list.  The tick interrupt posts VSFSM_EVT_TIMER to
    the timer machine, whose handler fires every expired timer.  The state
    holds the list nodes and the rest of the timer objects by address, the
    list, the memory manager, the tick and the rest of the program ([kernel]),
    on which the notifications of the fired timers act. *)

From stdpp Require Import sorting.
From S2P Require Import Prelude Bits Chain Vsfq Pool Vsfsm.

(** [struct vsftimer_mem_op_t] and what it must do for the set [S] of the
    allocated addresses; [release] does not write to the object. *)
Class TimerMem (M : Type) := {
  alloc : M → option (Z * M);
  release : M → Z → option M;
  mem_ok : M → gset Z → Prop;
  alloc_spec m S : mem_ok m S →
    ∃ p m', alloc m = Some (p, m') ∧
      (p = NULL ∧ mem_ok m' S ∨ p ≠ NULL ∧ p ∉ S ∧ mem_ok m' ({[p]} ∪ S));
  release_spec m S a : mem_ok m S → a ∈ S →
    ∃ m', release m a = Some m' ∧ mem_ok m' (S ∖ {[a]}) }.

(** [struct vsftimer_t] after its node: [owner] is the first word of the union
    ([sm] or [cb]), [param] the second. *)
Record vsftimer_t := { owner : Z; param : Z; t_evt : Z; interval : Z; trigger_cnt : Z }.

(** What a fired timer does to the rest of the program. *)
Inductive note := Post (sm evt : Z) | Call (cb param : Z).

Record tstate (M K : Type) := {
  nodes : gmap Z vsfq_node_t; tmrs : gmap Z vsftimer_t; timerlist : vsfq_t;
  mem : M; now : Z; kernel : K }.
Arguments nodes {M K}. Arguments tmrs {M K}. Arguments timerlist {M K}.
Arguments mem {M K}. Arguments now {M K}. Arguments kernel {M K}.

(** In the tick interrupt; [sm] is the timer machine. *)
Definition vsftimer_callback_int (evt_handler : Z → Z → world → option world) (w : world) (sm : Z)
    : option (Z * world) :=
  vsfsm_post_evt_pending evt_handler w sm VSFSM_EVT_TIMER.

Section timer.
Context {M K : Type} `{TimerMem M}.
Notation state := (tstate M K).
Implicit Types (st : state) (timer : Z) (t : vsftimer_t).

Definition set_list st (h : gmap Z vsfq_node_t) (q : vsfq_t) : state :=
  {| nodes := h; tmrs := tmrs st; timerlist := q; mem := mem st; now := now st;
     kernel := kernel st |}.
Definition set_tmr st timer t : state :=
  {| nodes := nodes st; tmrs := <[timer := t]> (tmrs st); timerlist := timerlist st;
     mem := mem st; now := now st; kernel := kernel st |}.
Definition set_mem st (m : M) : state :=
  {| nodes := nodes st; tmrs := tmrs st; timerlist := timerlist st; mem := m; now := now st;
     kernel := kernel st |}.
Definition set_kernel st (k : K) : state :=
  {| nodes := nodes st; tmrs := tmrs st; timerlist := timerlist st; mem := mem st; now := now st;
     kernel := k |}.

(** [sm_init] is [vsfsm_init] of the timer machine. *)
Definition vsftimer_init (sm_init : K → option (Z * K)) st (m : M) : option (Z * state) :=
  let st := set_list (set_mem st m) (nodes st) vsfq_init in
  '(r, k) ← sm_init (kernel st);
  Some (r, set_kernel st k).

Definition vsftimer_dequeue st timer : option state :=
  '(h, q) ← vsfq_remove (nodes st) (timerlist st) timer;
  Some (set_list st h q).

(** The node of a fresh object has an arbitrary link, here NULL. *)
Definition set_addr st timer (a : Z) : state :=
  set_list st
    (<[timer := {| addr := a; next := default NULL (next <$> nodes st !! timer) |}]> (nodes st))
    (timerlist st).

Definition vsftimer_enqueue st timer : option state :=
  t ← tmrs st !! timer;
  let st := set_addr st timer (u32 (interval t + now st)) in
  st ← vsftimer_dequeue st timer;
  '(h, q) ← vsfq_enqueue (nodes st) (timerlist st) timer;
  Some (set_list st h q).

Definition vsftimer_free st timer : option state :=
  st ← vsftimer_dequeue st timer;
  m ← release (mem st) timer;
  Some (set_mem st m).

Definition vsftimer_create_cb st (intv cnt cb prm : Z) : option (Z * state) :=
  '(timer, m) ← alloc (mem st);
  let st := set_mem st m in
  if decide (timer = NULL) then Some (NULL, st)
  else
    let st := set_tmr st timer {| owner := cb; param := prm; t_evt := VSFSM_EVT_INVALID;
                                  interval := intv; trigger_cnt := cnt |} in
    st ← vsftimer_enqueue st timer;
    Some (timer, st).

(** [param] keeps what the memory held, here 0 for fresh memory. *)
Definition vsftimer_create st (sm intv cnt evt : Z) : option (Z * state) :=
  '(timer, m) ← alloc (mem st);
  let st := set_mem st m in
  if decide (timer = NULL) then Some (NULL, st)
  else
    let st := set_tmr st timer {| owner := sm; param := default 0 (param <$> tmrs st !! timer);
                                  t_evt := evt; interval := intv; trigger_cnt := cnt |} in
    st ← vsftimer_enqueue st timer;
    Some (timer, st).

Fixpoint vsftimer_clean_loop (fuel : nat) st timer (sm : Z) : option state :=
  match fuel with
  | O => None
  | S fuel =>
      if decide (timer = NULL) then Some st
      else
        timer_next ← load_nxt (nodes st) timer;
        t ← tmrs st !! timer;
        st ← (if decide (sm ≠ NULL ∧ owner t = sm) then vsftimer_free st timer else Some st);
        vsftimer_clean_loop fuel st timer_next sm
  end.

Definition vsftimer_clean_sm st (sm : Z) : option state :=
  vsftimer_clean_loop (fuel_of (nodes st)) st (head (timerlist st)) sm.

Definition count_down t : vsftimer_t :=
  {| owner := owner t; param := param t; t_evt := t_evt t; interval := interval t;
     trigger_cnt := if 0 <? trigger_cnt t then trigger_cnt t - 1 else trigger_cnt t |}.

Section handler.
(** [vsfsm_post_evt] and the callbacks. *)
Context (notify : note → state → option state).

(** One expired timer. *)
Definition vsftimer_fire st timer : option state :=
  t ← tmrs st !! timer;
  let st := set_tmr st timer (count_down t) in
  st ← (if decide (trigger_cnt (count_down t) ≠ 0) then vsftimer_enqueue st timer
        else vsftimer_free st timer);
  t ← tmrs st !! timer;
  if decide (t_evt t ≠ VSFSM_EVT_INVALID)
  then if decide (owner t ≠ NULL) then notify (Post (owner t) (t_evt t)) st else Some st
  else if decide (owner t ≠ NULL) then notify (Call (owner t) (param t)) st else Some st.

Fixpoint vsftimer_handler_loop (fuel : nat) (cur_tick : Z) st : option state :=
  match fuel with
  | O => None
  | S fuel =>
      let timer := head (timerlist st) in
      if decide (timer = NULL) then Some st
      else
        nd ← nodes st !! timer;
        if addr nd <=? cur_tick then
          st ← vsftimer_fire st timer; vsftimer_handler_loop fuel cur_tick st
        else Some st
  end.

Definition vsftimer_init_handler (fuel : nat) st (evt : Z) : option state :=
  if evt =? VSFSM_EVT_TIMER then vsftimer_handler_loop fuel (now st) st else Some st.
End handler.

(** ** The timer list *)

(** The list holds the timers [l], by expiry time, all of them allocated. *)
Record tinv st (l : list Z) (S : gset Z) : Prop := {
  ti_chain : chain (nodes st) (head (timerlist st)) l;
  ti_sorted : StronglySorted (by_key (nodes st)) l;
  ti_tmrs : ∀ a, a ∈ l → is_Some (tmrs st !! a);
  ti_mem : mem_ok (mem st) S;
  ti_live : ∀ a, a ∈ l → a ∈ S }.

Lemma sorted_filter h (P : Z → Prop) `{!∀ x, Decision (P x)} l :
  StronglySorted (by_key h) l → StronglySorted (by_key h) (filter P l).
Proof.
  induction 1 as [|a l Hs IH Ha]; [constructor|].
  rewrite filter_cons. case_decide; [|done]. constructor; [done|].
  rewrite Forall_forall in Ha |- *. intros x [_ Hx]%list_elem_of_filter. by apply Ha.
Qed.

Lemma sorted_keys h h' l :
  (∀ a, a ∈ l → key h' a = key h a) →
  StronglySorted (by_key h) l → StronglySorted (by_key h') l.
Proof.
  intros Hk. induction 1 as [|a l Hs IH Ha]; constructor; [apply IH; set_solver|].
  rewrite Forall_forall in Ha |- *. intros x Hx. unfold by_key.
  rewrite !Hk by set_solver. by apply Ha.
Qed.

(** Unlinking: an absent timer is left alone. *)
Lemma dequeue_spec st l timer :
  chain (nodes st) (head (timerlist st)) l → timer ≠ NULL →
  ∃ h q, vsftimer_dequeue st timer = Some (set_list st h q) ∧
    chain h (head q) (filter (λ a, a ≠ timer) l) ∧ same_keys (nodes st) h.
Proof.
  intros Hc H0. destruct (vsfq_remove_chain _ _ _ _ Hc H0) as (h & q & Hr & Hc' & Hk & _).
  exists h, q. unfold vsftimer_dequeue. rewrite Hr. done.
Qed.

Lemma chain_set_addr st l timer a :
  chain (nodes st) (head (timerlist st)) l →
  chain (nodes (set_addr st timer a)) (head (timerlist st)) l.
Proof.
  apply lseg_frame. intros b n _ Hb. simpl. destruct (decide (b = timer)) as [->|].
  - rewrite lookup_insert_eq, Hb. eexists. split; done.
  - rewrite lookup_insert_ne by done. eauto.
Qed.

Lemma enqueue_spec st l timer t :
  chain (nodes st) (head (timerlist st)) l → timer ≠ NULL → tmrs st !! timer = Some t →
  ∃ h q, vsftimer_enqueue st timer = Some (set_list st h q) ∧
    chain h (head q) (insert_before h timer (filter (λ a, a ≠ timer) l)) ∧
    key h timer = u32 (interval t + now st) ∧
    ∀ a, a ≠ timer → key h a = key (nodes st) a.
Proof.
  intros Hc H0 Ht. unfold vsftimer_enqueue. rewrite Ht. bindr.
  set (k := u32 (interval t + now st)). set (st1 := set_addr st timer k).
  assert (Hk1 : key (nodes st1) timer = k).
  { unfold key, st1. simpl. by rewrite lookup_insert_eq. }
  assert (Hk1' : ∀ a, a ≠ timer → key (nodes st1) a = key (nodes st) a).
  { intros a Ha. unfold key, st1. simpl. by rewrite lookup_insert_ne. }
  apply (chain_set_addr st l timer k) in Hc. fold st1 in Hc.
  destruct (dequeue_spec st1 l timer Hc H0) as (h2 & q2 & -> & Hc2 & Hk2). bindr.
  assert (Hn1 : nodes st1 !! timer = Some {| addr := k; next := default NULL (next <$> nodes st !! timer) |})
    by (unfold st1; simpl; by rewrite lookup_insert_eq).
  destruct (same_keys_node _ _ _ _ Hk2 Hn1) as (nd2 & Hn2 & _).
  destruct (vsfq_enqueue_chain h2 q2 _ timer nd2 Hc2 Hn2 H0) as (h3 & q3 & He & Hc3 & Hk3 & _).
  { intros [Hx _]%list_elem_of_filter. done. }
  cbn [nodes timerlist set_list]. rewrite He. bindr. exists h3, q3. split; [done|].
  rewrite (insert_before_same_keys _ _ _ _ Hk3). split; [done|].
  split; [by rewrite (same_keys_key _ _ _ Hk3), (same_keys_key _ _ _ Hk2)|].
  intros a Ha. rewrite (same_keys_key _ _ _ Hk3), (same_keys_key _ _ _ Hk2). auto.
Qed.

Lemma elem_of_insert_before h n l a : a ∈ insert_before h n l ↔ a = n ∨ a ∈ l.
Proof. rewrite insert_before_perm. set_solver. Qed.

(** Queueing an allocated timer keeps the list sorted. *)
Lemma enqueue_inv st l S timer t :
  chain (nodes st) (head (timerlist st)) l →
  StronglySorted (by_key (nodes st)) (filter (λ a, a ≠ timer) l) →
  (∀ a, a ∈ l → is_Some (tmrs st !! a)) → mem_ok (mem st) S → (∀ a, a ∈ l → a ∈ S) →
  timer ≠ NULL → tmrs st !! timer = Some t → timer ∈ S →
  ∃ h q, vsftimer_enqueue st timer = Some (set_list st h q) ∧
    tinv (set_list st h q) (insert_before h timer (filter (λ a, a ≠ timer) l)) S ∧
    key h timer = u32 (interval t + now st) ∧
    ∀ a, a ≠ timer → key h a = key (nodes st) a.
Proof.
  intros Hc Hs Ht Hm Hl H0 Hlk HS.
  destruct (enqueue_spec st l timer t Hc H0 Hlk) as (h & q & He & Hc' & Hk & Hk').
  exists h, q. split; [done|]. split; [|done].
  split; simpl; try done.
  - apply insert_before_sorted. eapply sorted_keys; [|exact Hs].
    intros a [Ha _]%list_elem_of_filter. by apply Hk'.
  - intros a [->|[_ Ha]%list_elem_of_filter]%elem_of_insert_before; [by eexists|auto].
  - intros a [->|[_ Ha]%list_elem_of_filter]%elem_of_insert_before; auto.
Qed.

Lemma free_inv st l S timer :
  chain (nodes st) (head (timerlist st)) l →
  StronglySorted (by_key (nodes st)) (filter (λ a, a ≠ timer) l) →
  (∀ a, a ∈ l → is_Some (tmrs st !! a)) → mem_ok (mem st) S → (∀ a, a ∈ l → a ∈ S) →
  timer ≠ NULL → timer ∈ S →
  ∃ h q m, vsftimer_free st timer = Some (set_mem (set_list st h q) m) ∧
    tinv (set_mem (set_list st h q) m) (filter (λ a, a ≠ timer) l) (S ∖ {[timer]}) ∧
    same_keys (nodes st) h.
Proof.
  intros Hc Hs Ht Hm Hl H0 HS. unfold vsftimer_free.
  destruct (dequeue_spec st l timer Hc H0) as (h & q & -> & Hc' & Hk). bindr.
  destruct (release_spec (mem st) S timer Hm HS) as (m & Hr & Hm'). simpl. rewrite Hr. bindr.
  exists h, q, m. split; [done|]. split; [|done]. split; simpl; try done.
  - by eapply by_key_same.
  - intros a [_ Ha]%list_elem_of_filter. auto.
  - intros a [Hne Ha]%list_elem_of_filter. set_solver.
Qed.
(** ** The expiry handler *)

Definition dummy : vsftimer_t :=
  {| owner := NULL; param := 0; t_evt := 0; interval := 0; trigger_cnt := 0 |}.
Definition body st timer : vsftimer_t := default dummy (tmrs st !! timer).

(** Expired at tick [T]; queued again after firing. *)
Definition due st (T : Z) timer : Prop := key (nodes st) timer ≤ T.
Definition stays st timer : Prop := trigger_cnt (count_down (body st timer)) ≠ 0.

#[global] Instance due_dec st T timer : Decision (due st T timer).
Proof. unfold due. apply _. Defined.
#[global] Instance stays_dec st timer : Decision (stays st timer).
Proof. unfold stays. apply _. Defined.

Definition note_of t : option note :=
  if decide (owner t = NULL) then None
  else Some (if decide (t_evt t ≠ VSFSM_EVT_INVALID) then Post (owner t) (t_evt t)
             else Call (owner t) (param t)).

Lemma body_eq st timer t : tmrs st !! timer = Some t → body st timer = t.
Proof. unfold body. by intros ->. Qed.

Lemma filter_ext_in (P Q : Z → Prop) `{!∀ x, Decision (P x)} `{!∀ x, Decision (Q x)} (l : list Z) :
  (∀ x, x ∈ l → P x ↔ Q x) → filter P l = filter Q l.
Proof.
  induction l as [|a l IH]; intros Hx; [done|].
  rewrite !filter_cons, IH by set_solver. pose proof (Hx a ltac:(set_solver)).
  repeat case_decide; tauto || done.
Qed.

Lemma filter_none (P : Z → Prop) `{!∀ x, Decision (P x)} (l : list Z) :
  (∀ x, x ∈ l → ¬ P x) → filter P l = [].
Proof.
  induction l as [|a l IH]; intros Hx; [done|].
  rewrite filter_cons_False by (apply Hx; set_solver). apply IH. set_solver.
Qed.

Lemma filter_insert_before h (P : Z → Prop) `{!∀ x, Decision (P x)} n l :
  ¬ P n → filter P (insert_before h n l) = filter P l.
Proof.
  intros Hn. induction l as [|a l IH]; simpl.
  - by rewrite filter_cons_False.
  - case_decide; [by rewrite filter_cons_False|]. by rewrite !filter_cons, IH.
Qed.

Lemma foldl_in {A} (f g : A → Z → A) (l : list Z) a :
  (∀ x y, y ∈ l → f x y = g x y) → foldl f a l = foldl g a l.
Proof.
  revert a. induction l as [|y l IH]; intros a Hf; [done|]. simpl.
  rewrite Hf by set_solver. apply IH. intros. apply Hf. set_solver.
Qed.

(** Nothing behind a timer that has not expired has. *)
Lemma not_due_rest st T a l :
  StronglySorted (by_key (nodes st)) (a :: l) → ¬ due st T a → filter (due st T) (a :: l) = [].
Proof.
  intros [_ Ha]%StronglySorted_inv Hd. rewrite filter_cons_False by done.
  rewrite Forall_forall in Ha. apply filter_none. intros x Hx. specialize (Ha x Hx). unfold by_key, due in *. lia.
Qed.

Section fire.
Context (notify : note → state → option state) (act : note → K → K).

(** The notified code does not use the timers meanwhile. *)
Hypothesis quiet : ∀ n st, notify n st = Some (set_kernel st (act n (kernel st))).

Definition apply_note t (k : K) : K := from_option (λ n, act n k) k (note_of t).

Lemma notify_ok st timer t :
  tmrs st !! timer = Some t →
  (t ← tmrs st !! timer;
   if decide (t_evt t ≠ VSFSM_EVT_INVALID)
   then if decide (owner t ≠ NULL) then notify (Post (owner t) (t_evt t)) st else Some st
   else if decide (owner t ≠ NULL) then notify (Call (owner t) (param t)) st else Some st)
  = Some (set_kernel st (apply_note t (kernel st))).
Proof.
  intros ->. bindr. unfold apply_note, note_of.
  destruct (decide (owner t = NULL)) as [Ho|Ho].
  - rewrite !(decide_False (P := owner t ≠ NULL)) by auto. destruct st. by case_decide.
  - rewrite !(decide_True (P := owner t ≠ NULL)) by auto. rewrite !quiet. by case_decide.
Qed.

(** A periodic timer is queued again after the current tick. *)
Definition no_wrap st timer : Prop :=
  stays st timer → 0 < interval (body st timer) ∧ interval (body st timer) + now st < 4294967296.

(** Timer [a] of [st] has fired in [st1]. *)
Record fired_once st (a : Z) st1 (l1 : list Z) (S1 : gset Z) (l : list Z) (S : gset Z) : Prop := {
  fo_inv : tinv st1 l1 S1;
  fo_list : l1 = if decide (stays st a) then insert_before (nodes st1) a l else l;
  fo_live : S1 = if decide (stays st a) then S else S ∖ {[a]};
  fo_keys : ∀ b, key (nodes st1) b =
    if decide (b = a ∧ stays st a) then u32 (interval (body st a) + now st)
    else key (nodes st) b;
  fo_tmrs : tmrs st1 = <[a := count_down (body st a)]> (tmrs st);
  fo_now : now st1 = now st;
  fo_kernel : kernel st1 = apply_note (body st a) (kernel st) }.

Lemma fire_spec st a l S :
  tinv st (a :: l) S →
  ∃ st1 l1 S1, vsftimer_fire notify st a = Some st1 ∧ fired_once st a st1 l1 S1 l S.
Proof.
  intros [Hc Hs Ht Hm Hl].
  destruct (Ht a ltac:(set_solver)) as [t Hta]. pose proof (body_eq _ _ _ Hta) as Hb.
  assert (Hsa : stays st a ↔ trigger_cnt (count_down t) ≠ 0) by (unfold stays; by rewrite Hb).
  assert (Ha0 : a ≠ NULL) by by destruct Hc as (_ & ? & _).
  assert (Hnil : a ∉ l) by (pose proof (chain_NoDup _ _ _ Hc) as Hnd; by apply NoDup_cons in Hnd as [? _]).
  assert (Hfil : filter (λ b, b ≠ a) (a :: l) = l)
    by (rewrite filter_cons_False by auto; by apply filter_ne_notin).
  unfold vsftimer_fire. rewrite Hta. bindr. set (st0 := set_tmr st a (count_down t)).
  assert (Hta0 : tmrs st0 !! a = Some (count_down t)) by apply lookup_insert_eq.
  assert (Ht0 : ∀ b, b ∈ a :: l → is_Some (tmrs st0 !! b)).
  { intros b Hin. destruct (decide (b = a)) as [->|]; [by eexists|].
    simpl. rewrite lookup_insert_ne by done. auto. }
  assert (Hs0 : StronglySorted (by_key (nodes st0)) (filter (λ b, b ≠ a) (a :: l))).
  { rewrite Hfil. by apply StronglySorted_inv in Hs as [? _]. }
  assert (HaS : a ∈ S) by (apply Hl; set_solver).
  destruct (decide (trigger_cnt (count_down t) ≠ 0)) as [Hst|Hst].
  - destruct (enqueue_inv st0 (a :: l) S a (count_down t) Hc Hs0 Ht0 Hm Hl Ha0 Hta0 HaS)
      as (h & q & -> & Hi & Hk & Hk'). rewrite Hfil in Hi. bindr.
    rewrite (notify_ok (set_list st0 h q) a (count_down t)) by exact Hta0.
    do 3 eexists. split; [done|]. split; [| | | |by simpl; rewrite ?Hb|done|].
    + destruct Hi as [H1 H2 H3 H4 H5]. split; done.
    + by rewrite decide_True by by apply Hsa.
    + by rewrite decide_True by by apply Hsa.
    + intros b. rewrite Hb. cbn [nodes set_kernel set_list]. apply Hsa in Hst.
      destruct (decide (b = a)) as [->|].
      * rewrite decide_True by done. by rewrite Hk.
      * rewrite decide_False by naive_solver. by apply Hk'.
    + by rewrite Hb.
  - destruct (free_inv st0 (a :: l) S a Hc Hs0 Ht0 Hm Hl Ha0 HaS)
      as (h & q & m & -> & Hi & Hk). rewrite Hfil in Hi. bindr.
    rewrite (notify_ok (set_mem (set_list st0 h q) m) a (count_down t)) by exact Hta0.
    do 3 eexists. split; [done|]. split; [| | | |by simpl; rewrite ?Hb|done|].
    + destruct Hi as [H1 H2 H3 H4 H5]. split; done.
    + by rewrite decide_False by by rewrite Hsa.
    + by rewrite decide_False by by rewrite Hsa.
    + intros b. cbn [nodes set_kernel set_list set_mem].
      rewrite decide_False by (rewrite Hsa; tauto). by rewrite (same_keys_key _ _ _ Hk).
    + by rewrite Hb.
Qed.

(** The expired timers of [l] have fired, in order: periodic ones are queued
    again, the others are freed. *)
Record all_fired st (T : Z) st' (l' : list Z) (S' : gset Z) (l : list Z) (S : gset Z) : Prop := {
  af_inv : tinv st' l' S';
  af_kernel : kernel st' =
    foldl (λ k a, apply_note (body st a) k) (kernel st) (filter (due st T) l);
  af_list : ∀ x, x ∈ l' ↔ x ∈ l ∧ (due st T x → stays st x);
  af_live : ∀ x, x ∈ S' ↔ x ∈ S ∧ ¬ (x ∈ l ∧ due st T x ∧ ¬ stays st x);
  af_keys : ∀ a, key (nodes st') a =
    if decide (a ∈ l ∧ due st T a ∧ stays st a) then interval (body st a) + now st
    else key (nodes st) a;
  af_tmrs : ∀ a, tmrs st' !! a =
    if decide (a ∈ l ∧ due st T a) then Some (count_down (body st a)) else tmrs st !! a }.

Lemma all_fired_none st T l S :
  tinv st l S → filter (due st T) l = [] → all_fired st T st l S l S.
Proof.
  intros Hi Hnil.
  assert (Hnd : ∀ x, x ∈ l → ¬ due st T x).
  { intros x Hx Hd. apply (not_elem_of_nil x). rewrite <- Hnil. by apply list_elem_of_filter. }
  split; [done|by rewrite Hnil|naive_solver| | |].
  - naive_solver.
  - intros a. rewrite decide_False by naive_solver. done.
  - intros a. rewrite decide_False by naive_solver. done.
Qed.

(** Firing [a] first and then the rest. *)
Lemma all_fired_cons st T a st1 l1 S1 l S st' l' S' :
  now st = T → 0 ≤ T → due st T a → a ∉ l → fired_once st a st1 l1 S1 l S → no_wrap st a →
  all_fired st1 T st' l' S' l1 S1 → all_fired st T st' l' S' (a :: l) S.
Proof.
  intros HT HT0 Hd Hni [Hi Hl HS Hk Ht Hn Hker] Hw [Ai Ak Al As Akk At].
  assert (Hb : ∀ b, b ≠ a → body st1 b = body st b)
    by (intros b Hne; unfold body; by rewrite Ht, lookup_insert_ne).
  assert (Hkb : ∀ b, b ≠ a → key (nodes st1) b = key (nodes st) b)
    by (intros b Hne; rewrite Hk; by rewrite decide_False by naive_solver).
  assert (Hdb : ∀ b, b ≠ a → due st1 T b ↔ due st T b)
    by (intros b Hne; unfold due; by rewrite Hkb).
  assert (Hsb : ∀ b, b ≠ a → stays st1 b ↔ stays st b)
    by (intros b Hne; unfold stays; by rewrite Hb).
  assert (Hne : ∀ b, b ∈ l → b ≠ a) by (intros b ? ->; done).
  assert (Hda : stays st a → ¬ due st1 T a).
  { intros Hst. unfold due. rewrite Hk, decide_True by done.
    destruct (Hw Hst). rewrite u32_small by lia. lia. }
  assert (Hin : ∀ b, b ≠ a → b ∈ l1 ↔ b ∈ l).
  { intros b Hb'. rewrite Hl. case_decide; [|done]. rewrite elem_of_insert_before. naive_solver. }
  assert (Hin_a : a ∈ l1 ↔ stays st a).
  { rewrite Hl. case_decide; [|done]. rewrite elem_of_insert_before. naive_solver. }
  assert (Hdue : filter (due st1 T) l1 = filter (due st T) l).
  { transitivity (filter (due st1 T) l).
    - rewrite Hl. case_decide; [|done]. apply filter_insert_before. auto.
    - apply filter_ext_in. auto. }
  split; [done| | | | |].
  - rewrite Ak, Hker, Hdue, filter_cons_True by done. simpl. apply foldl_in.
    intros k b [_ Hb']%list_elem_of_filter. by rewrite Hb by auto.
  - intros x. rewrite Al. destruct (decide (x = a)) as [->|Hx].
    + rewrite Hin_a. set_solver.
    + rewrite Hin, Hdb, Hsb, elem_of_cons by done. naive_solver.
  - intros x. rewrite As, HS. destruct (decide (x = a)) as [->|Hx].
    + rewrite Hin_a. case_decide; set_solver.
    + rewrite Hin, Hdb, Hsb, elem_of_cons by done. case_decide; set_solver.
  - intros x. rewrite Akk, Hk, Hn. destruct (decide (x = a)) as [->|Hx].
    + rewrite decide_False by naive_solver. destruct (decide (stays st a)) as [Hst|Hst].
      * rewrite !decide_True by set_solver. destruct (Hw Hst). apply u32_small. lia.
      * by rewrite !decide_False by naive_solver.
    + rewrite (decide_False (P := x = a ∧ _)) by naive_solver. rewrite Hb by done.
      apply decide_ext. rewrite Hin, Hdb, Hsb, elem_of_cons by done. naive_solver.
  - intros x. rewrite At, Ht. destruct (decide (x = a)) as [->|Hx].
    + rewrite lookup_insert_eq, (decide_True (P := a ∈ a :: l ∧ _)) by set_solver.
      rewrite decide_False; [done|]. rewrite Hin_a. naive_solver.
    + rewrite lookup_insert_ne by done. rewrite Hb by done.
      apply decide_ext. rewrite Hin, Hdb, elem_of_cons by done. naive_solver.
Qed.

Lemma no_wrap_fired a st st1 l1 S1 l S b :
  fired_once st a st1 l1 S1 l S → b ≠ a → no_wrap st b → no_wrap st1 b.
Proof.
  intros [_ _ _ _ Ht Hn _] Hne Hw. assert (Hb : body st1 b = body st b)
    by (unfold body; by rewrite Ht, lookup_insert_ne).
  unfold no_wrap, stays in *. by rewrite Hb, Hn.
Qed.

Lemma handler_loop_spec n st l S :
  tinv st l S → 0 ≤ now st → length (filter (due st (now st)) l) = n →
  (∀ a, a ∈ l → due st (now st) a → no_wrap st a) →
  ∃ st' l' S', vsftimer_handler_loop notify (Datatypes.S n) (now st) st = Some st' ∧
    all_fired st (now st) st' l' S' l S ∧ now st' = now st.
Proof.
  revert st l S. induction n as [|n IH]; intros st l S Hi Hnow Hn Hw;
    cbn [vsftimer_handler_loop]; pose proof (ti_chain _ _ _ Hi) as Hc.
  - apply length_zero_iff_nil in Hn as Hnil. exists st, l, S.
    split; [|split; [by apply all_fired_none|done]].
    destruct l as [|a l].
    + apply chain_nil in Hc. by rewrite decide_True.
    + destruct Hc as (Ha & Ha0 & nd & Hnd & _). rewrite Ha, decide_False by done.
      rewrite Hnd. bindr. destruct (Z.leb_spec (addr nd) (now st)); [|done].
      rewrite filter_cons_True in Hnil; [done|]. unfold due. by rewrite (key_eq _ _ _ Hnd).
  - destruct l as [|a l]; [done|].
    destruct (decide (due st (now st) a)) as [Hd|Hd].
    2:{ rewrite (not_due_rest _ _ _ _ (ti_sorted _ _ _ Hi) Hd) in Hn. done. }
    pose proof (chain_NoDup _ _ _ Hc) as [Hni _]%NoDup_cons.
    destruct Hc as (Ha & Ha0 & nd & Hnd & _). rewrite Ha, decide_False by done.
    rewrite Hnd. bindr. unfold due in Hd. rewrite (key_eq _ _ _ Hnd) in Hd.
    destruct (Z.leb_spec (addr nd) (now st)); [|lia].
    assert (Hda : due st (now st) a) by (unfold due; by rewrite (key_eq _ _ _ Hnd)).
    assert (Hwa : no_wrap st a) by (apply Hw; [set_solver|done]).
    destruct (fire_spec st a l S Hi) as (st1 & l1 & S1 & -> & Hf). bindr.
    pose proof (fo_now _ _ _ _ _ _ _ Hf) as Hn1. pose proof Hf as [Hi1 Hl1 _ Hk1 _ _ _].
    assert (Hsub : ∀ b, b ∈ l1 → due st1 (now st) b → b ≠ a ∧ b ∈ l ∧ due st (now st) b).
    { intros b Hb Hdb. assert (b ≠ a ∨ ¬ stays st a) as Hba.
      { destruct (decide (b = a)) as [->|]; [right|by left]. intros Hst. unfold due in Hdb.
        rewrite Hk1, decide_True in Hdb by done. destruct (Hwa Hst).
        rewrite u32_small in Hdb by lia. lia. }
      assert (b ∈ l ∧ b ≠ a) as [Hbl Hbn].
      { rewrite Hl1 in Hb. case_decide as Hst.
        - apply elem_of_insert_before in Hb. naive_solver.
        - split; [done|]. by intros ->. }
      split_and!; try done. unfold due in *. by rewrite Hk1, decide_False in Hdb by naive_solver. }
    assert (Hlen : length (filter (due st1 (now st)) l1) = n).
    { rewrite filter_cons_True in Hn by done. simpl in Hn. injection Hn as <-. f_equal.
      transitivity (filter (due st1 (now st)) l).
      - rewrite Hl1. case_decide as Hst; [|done]. apply filter_insert_before. intros Hx.
        apply Hsub in Hx; [naive_solver|]. rewrite Hl1.
        apply elem_of_insert_before. by left.
      - apply filter_ext_in. intros b Hb. unfold due. rewrite Hk1, decide_False; [done|].
        intros [-> _]. done. }
    rewrite <- Hn1 in Hlen, Hnow |- *.
    destruct (IH st1 l1 S1 Hi1 Hnow Hlen) as (st' & l' & S' & Hlp & Haf & Hn').
    { intros b Hb Hdb. rewrite Hn1 in Hdb. destruct (Hsub b Hb Hdb) as (Hba & Hbl & Hbd).
      eapply no_wrap_fired; [exact Hf|done|]. apply Hw; [set_solver|done]. }
    exists st', l', S'. split; [exact Hlp|]. split; [|done].
    rewrite Hn1 in Haf, Hnow |- *. by eapply all_fired_cons.
Qed.

(** [n] timers fired one after the other, each from the head of the list. *)
Fixpoint fire_n (n : nat) st : option state :=
  match n with
  | O => Some st
  | Datatypes.S n => st ← vsftimer_fire notify st (head (timerlist st)); fire_n n st
  end.

(** Timer [a] is periodic and its next expiry wraps around below tick [T]. *)
Definition wrapped st (T a : Z) : Prop :=
  trigger_cnt (body st a) < 0 ∧ u32 (interval (body st a) + now st) ≤ T ∧ due st T a.

Lemma wrapped_step st T l S a :
  tinv st l S → a ∈ l → wrapped st T a →
  ∃ st1 l1 S1, head (timerlist st) ≠ NULL ∧ due st T (head (timerlist st)) ∧
    is_Some (nodes st !! head (timerlist st)) ∧
    vsftimer_fire notify st (head (timerlist st)) = Some st1 ∧
    tinv st1 l1 S1 ∧ a ∈ l1 ∧ wrapped st1 T a.
Proof.
  intros Hi Ha (Hneg & Hu & Hd). pose proof (ti_chain _ _ _ Hi) as Hc.
  destruct l as [|b l]; [set_solver|]. pose proof Hc as (Hb & Hb0 & nb & Hnb & _).
  pose proof (chain_NoDup _ _ _ Hc) as [Hni _]%NoDup_cons.
  destruct (fire_spec st b l S Hi) as (st1 & l1 & S1 & Hf & [Hi1 Hl1 _ Hk1 Ht1 Hn1 _]).
  exists st1, l1, S1. rewrite Hb. split_and!; try done.
  - destruct (StronglySorted_inv (ti_sorted _ _ _ Hi)) as [_ Hall]. rewrite Forall_forall in Hall.
    unfold due in *. apply elem_of_cons in Ha as [->|Ha]; [done|]. specialize (Hall a Ha).
    unfold by_key in Hall. lia.
  - assert (Hab : stays st a).
    { unfold stays. simpl. destruct (Z.ltb_spec 0 (trigger_cnt (body st a))); lia. }
    rewrite Hl1. apply elem_of_cons in Ha as [->|Ha].
    + rewrite decide_True by done. apply elem_of_insert_before. by left.
    + case_decide; [|done]. apply elem_of_insert_before. by right.
  - assert (Hcd : trigger_cnt (count_down (body st a)) < 0).
    { simpl. destruct (Z.ltb_spec 0 (trigger_cnt (body st a))); lia. }
    assert (Hbody : body st1 a = body st a ∨ body st1 a = count_down (body st a)).
    { unfold body at 1 3. rewrite Ht1. destruct (decide (b = a)) as [->|].
      - rewrite lookup_insert_eq. by right.
      - rewrite lookup_insert_ne by done. by left. }
    assert (Hint : interval (body st1 a) = interval (body st a)) by by destruct Hbody as [->| ->].
    split_and!.
    + by destruct Hbody as [->| ->].
    + by rewrite Hint, Hn1.
    + unfold due. rewrite Hk1. destruct (decide (a = b ∧ stays st b)) as [[<- _]|]; [exact Hu|exact Hd].
Qed.

Lemma wrapped_steps n st T l S a :
  tinv st l S → a ∈ l → wrapped st T a →
  is_Some (fire_n n st) ∧ vsftimer_handler_loop notify n T st = None.
Proof.
  revert st l S. induction n as [|n IH]; intros st l S Hi Ha Hw; [done|].
  destruct (wrapped_step st T l S a Hi Ha Hw)
    as (st1 & l1 & S1 & H0 & Hd & [nd Hnd] & Hf & Hi1 & Ha1 & Hw1).
  cbn [fire_n vsftimer_handler_loop]. rewrite Hf, decide_False, Hnd by done. bindr.
  unfold due in Hd. rewrite (key_eq _ _ _ Hnd) in Hd.
  destruct (Z.leb_spec (addr nd) T); [|lia]. by apply (IH st1 l1 S1).
Qed.
End fire.

(** ** The programming interface *)

(** Time and the rest of the program are left alone. *)
Definition same_rest st st' : Prop := now st' = now st ∧ kernel st' = kernel st.

(** [timer] was queued with the given body, keeping every other timer. *)
Record queued st (l : list Z) timer t st' (S' : gset Z) : Prop := {
  qd_inv : tinv st' (insert_before (nodes st') timer (filter (λ a, a ≠ timer) l)) S';
  qd_key : key (nodes st') timer = u32 (interval t + now st);
  qd_keys : ∀ a, a ≠ timer → key (nodes st') a = key (nodes st) a;
  qd_tmrs : tmrs st' = <[timer := t]> (tmrs st);
  qd_rest : same_rest st st' }.

Lemma enqueue_queued st l S timer t :
  tinv st l S → tmrs st !! timer = Some t → timer ∈ S → timer ≠ NULL →
  ∃ st', vsftimer_enqueue st timer = Some st' ∧ queued st l timer t st' S.
Proof.
  intros [Hc Hs Ht Hm Hl] Hlk HS H0.
  destruct (enqueue_inv st l S timer t Hc (sorted_filter _ _ _ Hs) Ht Hm Hl H0 Hlk HS)
    as (h & q & -> & Hi & Hk & Hk').
  eexists. split; [done|]. split; try done. simpl. by rewrite insert_id.
Qed.

Lemma create_queued st l S timer m t :
  tinv st l S → timer ≠ NULL → timer ∉ S → mem_ok m ({[timer]} ∪ S) →
  ∃ st', vsftimer_enqueue (set_tmr (set_mem st m) timer t) timer = Some st' ∧
    queued st l timer t st' ({[timer]} ∪ S).
Proof.
  intros [Hc Hs Ht Hm Hl] H0 HS Hm'.
  destruct (enqueue_queued (set_tmr (set_mem st m) timer t) l ({[timer]} ∪ S) timer t)
    as (st' & He & [Q1 Q2 Q3 Q4 Q5]).
  - split; try done; [|set_solver]. intros a Ha. simpl.
    rewrite lookup_insert_ne by (intros ->; auto). auto.
  - apply lookup_insert_eq.
  - set_solver.
  - done.
  - exists st'. split; [done|]. split; try done. rewrite Q4. simpl. by rewrite insert_insert_eq.
Qed.

Lemma create_ok st l S sm intv cnt evt p st' :
  tinv st l S → vsftimer_create st sm intv cnt evt = Some (p, st') → p ≠ NULL →
  tinv st' (insert_before (nodes st') p (filter (λ a, a ≠ p) l)) ({[p]} ∪ S).
Proof.
  intros Hi Hc Hp0. pose proof Hi as [_ _ _ Hm _]. unfold vsftimer_create in Hc.
  destruct (alloc_spec (mem st) S Hm) as (p' & m & Ha & [[-> _]|(H0 & Hp & Hm')]);
    rewrite Ha in Hc; simpl in Hc.
  - by simplify_eq.
  - rewrite decide_False in Hc by done.
    edestruct (create_queued st l S p' m) as (st1 & He & Hq); [done..|].
    rewrite He in Hc. simplify_eq/=. exact (qd_inv _ _ _ _ _ _ Hq).
Qed.

Definition owned st (sm a : Z) : Prop := owner (body st a) = sm.
#[global] Instance owned_dec st sm a : Decision (owned st sm a).
Proof. unfold owned. apply _. Defined.

Lemma clean_loop_spec fuel st l1 l2 S sm :
  tinv st (l1 ++ l2) S → sm ≠ NULL → (length l2 < fuel)%nat →
  ∃ st' S', vsftimer_clean_loop fuel st (first l2) sm = Some st' ∧
    tinv st' (l1 ++ filter (λ a, ¬ owned st sm a) l2) S' ∧
    (∀ x, x ∈ S' ↔ x ∈ S ∧ ¬ (x ∈ l2 ∧ owned st sm x)) ∧
    same_keys (nodes st) (nodes st') ∧ tmrs st' = tmrs st ∧ same_rest st st'.
Proof.
  revert st l1 l2 S. induction fuel as [|fuel IH]; intros st l1 l2 S Hi Hsm Hf; [lia|].
  cbn [vsftimer_clean_loop]. destruct l2 as [|a l2].
  { rewrite decide_True by done. exists st, S. split_and!; try done. set_solver. }
  pose proof Hi as [Hc Hs Ht Hm Hl]. pose proof (chain_NoDup _ _ _ Hc) as Hnd.
  destruct (chain_app_inv _ _ _ _ _ Hc) as (n & _ & Ha0 & Hn & Hc2 & Hn1 & Hn2).
  destruct (Ht a ltac:(set_solver)) as [t Hta]. cbn [first].
  rewrite decide_False by done. rewrite (load_nxt_eq _ _ _ Hn). bindr. rewrite Hta. bindr.
  rewrite (chain_first _ _ _ Hc2). pose proof (body_eq _ _ _ Hta) as Hb.
  destruct (decide (sm ≠ NULL ∧ owner t = sm)) as [[_ Ho]|Ho].
  - assert (Hoa : owned st sm a) by (unfold owned; by rewrite Hb).
    destruct (free_inv st (l1 ++ a :: l2) S a Hc (sorted_filter _ _ _ Hs) Ht Hm Hl Ha0)
      as (h & q & m & -> & Hi' & Hk); [apply Hl; set_solver|]. bindr.
    rewrite filter_ne_mid in Hi' by done.
    destruct (IH _ l1 l2 _ Hi' Hsm) as (st' & S' & Hr & Hi2 & HS & Hk2 & Ht2 & Hn' & Hk').
    { simpl in Hf. lia. }
    exists st', S'. split; [done|]. rewrite filter_cons_False by auto.
    split_and!; [exact Hi2| |by etrans|exact Ht2|by split].
    intros x. rewrite HS, elem_of_difference, elem_of_singleton, elem_of_cons.
    change (owned (set_mem (set_list st h q) m) sm x) with (owned st sm x).
    destruct (decide (x = a)) as [->|]; naive_solver.
  - assert (Hoa : ¬ owned st sm a) by (unfold owned; rewrite Hb; tauto). bindr.
    replace (l1 ++ a :: l2) with ((l1 ++ [a]) ++ l2) in Hi by by rewrite <- app_assoc.
    destruct (IH st (l1 ++ [a]) l2 S Hi Hsm) as (st' & S' & Hr & Hi2 & HS & Hk2 & Ht2 & Hn');
      [simpl in Hf; lia|].
    exists st', S'. split; [done|]. rewrite filter_cons_True by done.
    split_and!; [by rewrite <- app_assoc in Hi2| |done|done|by destruct Hn'].
    intros x. rewrite HS, elem_of_cons. destruct (decide (x = a)) as [->|]; naive_solver.
Qed.

(** C12: the timer handler, when the notified code does not touch timers and no
    expired periodic timer has a next expiry beyond 2^32.  It terminates; it
    notifies exactly the timers whose expiry time has come, each once, in order
    of expiry; every periodic one is queued again at the current tick plus its
    interval with its count lowered, every other one is freed; the rest stay,
    and the list is still sorted and made of allocated timers only. *)
Theorem vsftimer_handler_fires notify (act : note → K → K) st l S :
  (∀ n st, notify n st = Some (set_kernel st (act n (kernel st)))) →
  tinv st l S → 0 ≤ now st → (∀ a, a ∈ l → due st (now st) a → no_wrap st a) →
  ∃ st' l' S',
    vsftimer_init_handler notify (Datatypes.S (length (filter (due st (now st)) l))) st
      VSFSM_EVT_TIMER = Some st' ∧
    all_fired act st (now st) st' l' S' l S ∧ now st' = now st.
Proof. intros Hq Hi Hn Hw. by apply (handler_loop_spec notify act Hq _ st l S Hi Hn eq_refl Hw). Qed.

(** When the tick counter is about to wrap.  A periodic timer whose next
    expiry overflows 2^32 gets a small expiry time, which the handler takes for
    long past: it fires the timer again and again, each step being possible,
    and never returns, whatever the number of iterations. *)
Theorem vsftimer_wrap_hangs notify (act : note → K → K) st l S a :
  (∀ n st, notify n st = Some (set_kernel st (act n (kernel st)))) →
  tinv st l S → a ∈ l → due st (now st) a → trigger_cnt (body st a) < 0 →
  0 ≤ interval (body st a) < 4294967296 → 0 ≤ now st < 4294967296 →
  4294967296 ≤ interval (body st a) + now st →
  ∀ n, is_Some (fire_n notify n st) ∧ vsftimer_init_handler notify n st VSFSM_EVT_TIMER = None.
Proof.
  intros Hq Hi Ha Hd Hc Hb Hn Hw n. apply (wrapped_steps notify act Hq n st (now st) l S a Hi Ha).
  split_and!; try done. unfold u32, wrap.
  change (2 ^ 32) with 4294967296. Z.div_mod_to_equations. lia.
Qed.

(** C35: the timer interface.  Creating a timer returns NULL and changes no timer
    when the memory is exhausted, and else an unused object queued at the
    current tick plus the interval; [vsftimer_enqueue] restarts a timer,
    [vsftimer_free] unlinks and releases it, and [vsftimer_clean_sm] terminates
    and frees exactly the timers of the given machine.  The list stays sorted,
    other timers keep their expiry times, and nothing but timers changes. *)
Theorem vsftimer_interface st l S :
  tinv st l S →
  (∀ sm intv cnt evt, ∃ p st', vsftimer_create st sm intv cnt evt = Some (p, st') ∧
     (p = NULL ∧ tinv st' l S ∨
      p ≠ NULL ∧ p ∉ S ∧ ∃ t, queued st l p t st' ({[p]} ∪ S) ∧
        owner t = sm ∧ interval t = intv ∧ trigger_cnt t = cnt ∧ t_evt t = evt)) ∧
  (∀ intv cnt cb prm, ∃ p st', vsftimer_create_cb st intv cnt cb prm = Some (p, st') ∧
     (p = NULL ∧ tinv st' l S ∨
      p ≠ NULL ∧ p ∉ S ∧
        queued st l p (Build_vsftimer_t cb prm VSFSM_EVT_INVALID intv cnt) st' ({[p]} ∪ S))) ∧
  (∀ a t, a ∈ S → a ≠ NULL → tmrs st !! a = Some t →
     ∃ st', vsftimer_enqueue st a = Some st' ∧ queued st l a t st' S) ∧
  (∀ a, a ∈ S → a ≠ NULL → ∃ st', vsftimer_free st a = Some st' ∧
     tinv st' (filter (λ x, x ≠ a) l) (S ∖ {[a]}) ∧ same_keys (nodes st) (nodes st') ∧
     tmrs st' = tmrs st ∧ same_rest st st') ∧
  (∀ sm, sm ≠ NULL → ∃ st' S', vsftimer_clean_sm st sm = Some st' ∧
     tinv st' (filter (λ a, ¬ owned st sm a) l) S' ∧
     (∀ x, x ∈ S' ↔ x ∈ S ∧ ¬ (x ∈ l ∧ owned st sm x)) ∧
     same_keys (nodes st) (nodes st') ∧ tmrs st' = tmrs st ∧ same_rest st st').
Proof.
  intros Hi. pose proof Hi as [Hc Hs Ht Hm Hl]. split_and!.
  - intros sm intv cnt evt. unfold vsftimer_create.
    destruct (alloc_spec (mem st) S Hm) as (p & m & -> & [[-> Hm']|(H0 & Hp & Hm')]); bindr.
    + rewrite decide_True by done. do 2 eexists. split; [done|]. left. split; [done|]. by split.
    + rewrite decide_False by done.
      edestruct (create_queued st l S p m) as (st' & -> & Hq); [done..|]. bindr.
      do 2 eexists. split; [done|]. right. split_and!; [done..|]. eexists. by split; [exact Hq|].
  - intros intv cnt cb prm. unfold vsftimer_create_cb.
    destruct (alloc_spec (mem st) S Hm) as (p & m & -> & [[-> Hm']|(H0 & Hp & Hm')]); bindr.
    + rewrite decide_True by done. do 2 eexists. split; [done|]. left. split; [done|]. by split.
    + rewrite decide_False by done.
      edestruct (create_queued st l S p m) as (st' & -> & Hq); [done..|]. bindr.
      do 2 eexists. split; [done|]. right. split_and!; [done..|]. exact Hq.
  - intros a t Ha Ha0 Hlk. by apply enqueue_queued.
  - intros a Ha Ha0. destruct (free_inv st l S a Hc (sorted_filter _ _ _ Hs) Ht Hm Hl Ha0 Ha)
      as (h & q & m & Hf & Hi' & Hk). eexists. split; [exact Hf|]. split_and!; try done.
  - intros sm Hsm. unfold vsftimer_clean_sm. rewrite (chain_first _ _ _ Hc).
    apply (clean_loop_spec (fuel_of (nodes st)) st [] l S sm Hi Hsm).
    by apply chain_fuel in Hc.
Qed.
End timer.

(** ** Timers in a pool (vsfmain.c) *)

Lemma vsfpool_free_shape p ptr b p' :
  vsfpool_free p ptr = Some (b, p') → ∃ f, p' = with_flags p f.
Proof.
  unfold vsfpool_free. case_decide; [done|]. cbv zeta. case_match.
  - destruct (mskarr_clr _ _) as [f|]; [|done]. intros [= _ <-]. by exists f.
  - intros [= _ <-]. exists (flags p). by destruct p.
Qed.

(** The addresses [A] are those of the taken slots. *)
Definition pool_mem (p : vsfpool_t) (A : gset Z) : Prop :=
  ∃ T, pool_ok p T ∧ ∀ a, a ∈ A ↔ ∃ i, i ∈ T ∧ a = slot_addr p i.

Lemma slot_addr_inj p T i j : pool_ok p T → slot_addr p i = slot_addr p j → i = j.
Proof.
  intros Hp. pose proof (ok_size _ _ Hp). unfold slot_addr. intros Heq.
  apply (Z.mul_cancel_r i j (item_size p)); lia.
Qed.

Lemma slot_index p T i : pool_ok p T → (slot_addr p i - buffer p) / item_size p = i.
Proof.
  intros Hp. pose proof (ok_size _ _ Hp). unfold slot_addr.
  replace (buffer p + i * item_size p - buffer p) with (i * item_size p) by lia.
  apply Z.div_mul. lia.
Qed.

Lemma pool_mem_alloc p A :
  pool_mem p A → ∃ a p', vsfpool_alloc p = Some (a, p') ∧
    (a = NULL ∧ pool_mem p' A ∨ a ≠ NULL ∧ a ∉ A ∧ pool_mem p' ({[a]} ∪ A)).
Proof.
  intros (T & Hp & HA). pose proof (ok_mem _ _ Hp) as [Hb _].
  destruct (pool_alloc_ok p T Hp) as [(i & p' & Hal & Hi & Hni & _ & Hp' & f & ->)|[_ Hal]].
  - exists (slot_addr p i), (with_flags p f). split; [done|]. right.
    pose proof (slot_addr_bounds p T i Hp Hi). split_and!.
    + unfold NULL. lia.
    + rewrite HA. intros (j & Hj & Heq). apply (slot_addr_inj _ _ _ _ Hp) in Heq. by subst j.
    + exists ({[i]} ∪ T). split; [done|]. intros a.
      change (slot_addr (with_flags p f)) with (slot_addr p).
      rewrite elem_of_union, elem_of_singleton, HA. set_solver.
  - exists 0, p. split; [done|]. left. split; [done|]. by exists T.
Qed.

Lemma pool_mem_free p A a :
  pool_mem p A → a ∈ A → ∃ p', snd <$> vsfpool_free p a = Some p' ∧ pool_mem p' (A ∖ {[a]}).
Proof.
  intros (T & Hp & HA) (i & Hi & ->)%HA. pose proof (ok_mem _ _ Hp) as [Hb Hm].
  destruct (proj1 (ok_taken _ _ Hp i) Hi) as [Hir _].
  pose proof (slot_addr_bounds p T i Hp Hir). pose proof (ok_size _ _ Hp).
  destruct (pool_free_ok p T (slot_addr p i) Hp ltac:(lia)) as [(_ & _ & p' & Hf & Hp')|[Hout _]];
    [|lia].
  rewrite (slot_index _ _ _ Hp) in Hp'. exists p'. rewrite Hf. split; [done|].
  apply vsfpool_free_shape in Hf as [f ->]. exists (T ∖ {[i]}). split; [done|]. intros x.
  change (slot_addr (with_flags p f)) with (slot_addr p).
  rewrite elem_of_difference, elem_of_singleton, HA. split.
  - intros [(j & Hj & ->) Hne]. exists j. split; [|done].
    apply elem_of_difference. split; [done|]. intros ->%elem_of_singleton. done.
  - intros (j & [Hj Hji]%elem_of_difference & ->). split; [eauto|].
    intros Heq%(slot_addr_inj _ _ _ _ Hp). subst. apply Hji. by apply elem_of_singleton.
Qed.

#[export] Instance pool_TimerMem : TimerMem vsfpool_t := {|
  alloc := vsfpool_alloc;
  release p a := snd <$> vsfpool_free p a;
  mem_ok := pool_mem;
  alloc_spec := pool_mem_alloc;
  release_spec := pool_mem_free |}.

(** ** Timers of the demo kernel *)

(** Notifications post to the kernel of Vsfsm, callbacks do nothing. *)
Definition post_note (n : note) (w : world) : world :=
  match n with
  | Post sm evt => from_option snd w (vsfsm_post_evt enter w sm evt)
  | Call _ _ => w
  end.

Definition demo_notify (n : note) (st : tstate vsfpool_t world) : option (tstate vsfpool_t world) :=
  Some (set_kernel st (post_note n (kernel st))).

(** A pool of four timers, none taken. *)
Definition timer_pool : vsfpool_t :=
  {| flags := [0]; buffer := 0x1000; item_size := 32; item_num := 4 |}.

Lemma timer_pool_ok : pool_mem timer_pool ∅.
Proof.
  exists ∅. split; [|set_solver]. split; simpl; try lia; [by_decide|vm_compute; congruence|].
  intros i. split; [set_solver|]. intros [Hi Hb]. exfalso.
  rewrite (mskarr_bit_word _ i 0) in Hb
    by (unfold getb; by replace (i / 32) with 0 by (Z.div_mod_to_equations; lia)).
  by rewrite Z.testbit_0_l in Hb.
Qed.

Definition timer0 : tstate vsfpool_t world :=
  {| nodes := ∅; tmrs := ∅; timerlist := vsfq_init; mem := timer_pool; now := 10; kernel := demo |}.

Lemma timer0_inv : tinv timer0 [] ∅.
Proof. split; [done|constructor|set_solver|exact timer_pool_ok|set_solver]. Qed.

(** At tick 10 machine 3 gets a periodic timer and machine 2 a single one. *)
Definition create (st : tstate vsfpool_t world) sm intv cnt evt : tstate vsfpool_t world :=
  from_option snd st (vsftimer_create st sm intv cnt evt).
Definition timer1 := create timer0 3 5 (-1) 0x20.
Definition timer2 := create timer1 2 8 1 0x21.

Definition at_tick (st : tstate vsfpool_t world) (t : Z) : tstate vsfpool_t world :=
  {| nodes := nodes st; tmrs := tmrs st; timerlist := timerlist st; mem := mem st; now := t;
     kernel := kernel st |}.

Lemma create_inv st l S sm intv cnt evt p :
  tinv st l S → fst <$> vsftimer_create st sm intv cnt evt = Some p → p ≠ NULL →
  tinv (create st sm intv cnt evt)
    (insert_before (nodes (create st sm intv cnt evt)) p (filter (λ a, a ≠ p) l)) ({[p]} ∪ S).
Proof.
  intros Hi Hp H0. unfold create.
  destruct (vsftimer_create st sm intv cnt evt) as [[p' st']|] eqn:Hc; [|done].
  simplify_eq/=. by eapply create_ok.
Qed.

Lemma timer2_inv : tinv timer2 [0x1000; 0x1020] {[0x1020; 0x1000]}.
Proof.
  assert (H1 : tinv timer1 [0x1000] {[0x1000]}).
  { replace {[0x1000]} with ({[0x1000]} ∪ ∅ : gset Z) by set_solver.
    by apply (create_inv timer0 [] ∅ 3 5 (-1) 0x20 0x1000 timer0_inv). }
  pose proof (create_inv timer1 _ _ 2 8 1 0x21 0x1020 H1) as H2.
  assert (Hl : insert_before (nodes timer2) 0x1020 (filter (λ a, a ≠ 0x1020) [0x1000])
    = [0x1000; 0x1020]) by (vm_compute; reflexivity).
  unfold timer2 in Hl |- *. rewrite Hl in H2. apply H2; vm_compute; congruence.
Qed.

Lemma at_tick_inv st l S t : tinv st l S → tinv (at_tick st t) l S.
Proof. intros [H1 H2 H3 H4 H5]. by split. Qed.

Lemma vsftimer_interface_witness :
  tinv timer2 [0x1000; 0x1020] {[0x1020; 0x1000]} ∧
  ∃ st' S', vsftimer_clean_sm timer2 3 = Some st' ∧ tinv st' [0x1020] S'.
Proof.
  split; [exact timer2_inv|].
  destruct (vsftimer_interface timer2 _ _ timer2_inv) as (_ & _ & _ & _ & H).
  destruct (H 3) as (st' & S' & H1 & H2 & _); [discriminate|].
  exists st', S'. split; [exact H1|].
  assert (Hl : filter (λ a, ¬ owned timer2 3 a) [0x1000; 0x1020] = [0x1020])
    by (vm_compute; reflexivity).
  rewrite Hl in H2. exact H2.
Defined.

Lemma vsftimer_handler_fires_witness :
  ∃ st' l' S', vsftimer_init_handler demo_notify 2 (at_tick timer2 16) VSFSM_EVT_TIMER = Some st' ∧
    tinv st' l' S' ∧ key (nodes st') 0x1000 = 21.
Proof.
  assert (Hf : filter (due (at_tick timer2 16) 16) [0x1000; 0x1020] = [0x1000])
    by (vm_compute; reflexivity).
  destruct (vsftimer_handler_fires demo_notify post_note (at_tick timer2 16) [0x1000; 0x1020]
    {[0x1020; 0x1000]}) as (st' & l' & S' & H1 & H2 & _).
  - reflexivity.
  - exact (at_tick_inv _ _ _ _ timer2_inv).
  - simpl. lia.
  - intros a Ha Hd. assert (Ha' : a ∈ filter (due (at_tick timer2 16) 16) [0x1000; 0x1020])
      by (apply list_elem_of_filter; split; [exact Hd|exact Ha]).
    rewrite Hf in Ha'. apply list_elem_of_singleton in Ha' as ->. intros _.
    vm_compute. split; reflexivity.
  - exists st', l', S'. change (now (at_tick timer2 16)) with 16 in H1, H2. rewrite Hf in H1.
    split; [exact H1|]. split; [exact (af_inv _ _ _ _ _ _ _ _ H2)|].
    rewrite (af_keys _ _ _ _ _ _ _ _ H2), decide_True; [vm_compute; reflexivity|].
    split; [apply list_elem_of_here|]. split; vm_compute; congruence.
Defined.

(** The same timers near the end of the tick range. *)
Definition timer_late : tstate vsfpool_t world := at_tick timer2 4294967293.

Lemma vsftimer_wrap_hangs_witness :
  is_Some (fire_n demo_notify 5 timer_late) ∧
  vsftimer_init_handler demo_notify 5 timer_late VSFSM_EVT_TIMER = None.
Proof.
  refine (vsftimer_wrap_hangs demo_notify post_note timer_late [0x1000; 0x1020] {[0x1020; 0x1000]}
            0x1000 _ _ _ _ _ _ _ _ 5%nat).
  - reflexivity.
  - exact (at_tick_inv _ _ _ _ timer2_inv).
  - apply list_elem_of_here.
  - vm_compute. congruence.
  - vm_compute. reflexivity.
  - vm_compute. split; congruence.
  - vm_compute. split; congruence.
  - vm_compute. congruence.
Defined.
