(* ===== verification/Stream.v ===== *)
(** * Stream: byte streams over interchangeable memories (stream.c)

    A stream is a table of operations, two ends with callbacks and a memory.
    [ByteStream] is what the table promises: the memory is a queue of bytes.
    The fifo and the multi-buffer stream keep the promise; the buffer stream
    is a window on a caller's buffer and has a contract of its own. *)

From S2P Require Import Prelude Chain Fifo Multibuf.

(** [struct vsf_stream_op_t] over memories [S] and pointers [P] into them.
    [read] returns the destination buffer too; the windows are a length and a
    pointer. *)
Record vsf_stream_op_t (S P : Type) := {
  op_init : S → S; op_fini : S → S;
  op_write : S → Z → option (list Z) → option (Z * S);
  op_read : S → Z → option (list Z) → option (Z * S * option (list Z));
  op_get_data_length : S → Z; op_get_avail_length : S → Z;
  op_get_wbuf : S → option (Z * P); op_get_rbuf : S → option (Z * P) }.
Arguments op_init {S P}. Arguments op_fini {S P}. Arguments op_write {S P}.
Arguments op_read {S P}. Arguments op_get_data_length {S P}.
Arguments op_get_avail_length {S P}. Arguments op_get_wbuf {S P}. Arguments op_get_rbuf {S P}.

(** Function pointers are addresses, NULL (0) for none. *)
Record vsf_stream_cb_t := { cb_param : Z; on_inout : Z; on_connect : Z; on_disconnect : Z }.

(** [struct vsf_stream_t] with its memory and the rest of the program [env],
    where the callbacks act. *)
Record vsf_stream_t (S E : Type) := {
  callback_tx : vsf_stream_cb_t; callback_rx : vsf_stream_cb_t;
  tx_ready : bool; rx_ready : bool; overflow : bool; smem : S; env : E }.
Arguments callback_tx {S E}. Arguments callback_rx {S E}. Arguments tx_ready {S E}.
Arguments rx_ready {S E}. Arguments overflow {S E}. Arguments smem {S E}. Arguments env {S E}.

Section stream.
Context {S P E : Type} (op : vsf_stream_op_t S P).
Notation stream := (vsf_stream_t S E).
Implicit Types (s : stream).

(** The callback at address [f], called with its parameter. *)
Context (invoke : Z → Z → stream → option stream).

Definition set_smem s (m : S) : stream :=
  {| callback_tx := callback_tx s; callback_rx := callback_rx s; tx_ready := tx_ready s;
     rx_ready := rx_ready s; overflow := overflow s; smem := m; env := env s |}.
Definition set_flags s (tx rx ov : bool) : stream :=
  {| callback_tx := callback_tx s; callback_rx := callback_rx s; tx_ready := tx; rx_ready := rx;
     overflow := ov; smem := smem s; env := env s |}.
Definition set_env s (e : E) : stream :=
  {| callback_tx := callback_tx s; callback_rx := callback_rx s; tx_ready := tx_ready s;
     rx_ready := rx_ready s; overflow := overflow s; smem := smem s; env := e |}.

(** [if (c && (f != NULL)) f(param)]. *)
Definition call_if (c : bool) (f : Z) (cb : vsf_stream_cb_t) s : option stream :=
  if c && negb (f =? NULL) then invoke f (cb_param cb) s else Some s.

Definition stream_read s (size : Z) (data : option (list Z)) : option (Z * stream * option (list Z)) :=
  '(count, m, data) ← op_read op (smem s) size data;
  let s := set_smem s m in
  s ← call_if (tx_ready s && negb (count =? 0)) (on_inout (callback_tx s)) (callback_tx s) s;
  Some (count, s, data).

Definition stream_write s (size : Z) (data : option (list Z)) : option (Z * stream) :=
  '(count, m) ← op_write op (smem s) size data;
  let s := set_smem s m in
  let s := if count <? size then set_flags s (tx_ready s) (rx_ready s) true else s in
  s ← call_if (rx_ready s && negb (count =? 0)) (on_inout (callback_rx s)) (callback_rx s) s;
  Some (count, s).

Definition stream_get_data_size s : Z := op_get_data_length op (smem s).
Definition stream_get_free_size s : Z := op_get_avail_length op (smem s).
Definition stream_get_wbuf s : option (Z * P) := op_get_wbuf op (smem s).
Definition stream_get_rbuf s : option (Z * P) := op_get_rbuf op (smem s).

Definition stream_connect_rx s : option stream :=
  if rx_ready s then Some s
  else
    s ← call_if true (on_connect (callback_tx s)) (callback_tx s) s;
    s ← call_if (tx_ready s) (on_connect (callback_rx s)) (callback_rx s) s;
    Some (set_flags s (tx_ready s) true (overflow s)).

Definition stream_connect_tx s : option stream :=
  if tx_ready s then Some s
  else
    s ← call_if true (on_connect (callback_rx s)) (callback_rx s) s;
    s ← call_if (rx_ready s) (on_connect (callback_tx s)) (callback_tx s) s;
    Some (set_flags s true (rx_ready s) (overflow s)).

Definition stream_disconnect_rx s : option stream :=
  s ← call_if (rx_ready s) (on_disconnect (callback_tx s)) (callback_tx s) s;
  Some (set_flags s (tx_ready s) false (overflow s)).

Definition stream_disconnect_tx s : option stream :=
  s ← call_if (tx_ready s) (on_disconnect (callback_rx s)) (callback_rx s) s;
  Some (set_flags s false (rx_ready s) (overflow s)).

Definition stream_init s : Z * stream :=
  let s := set_flags s false false false in
  (VSFERR_NONE, set_smem s (op_init op (smem s))).

Definition stream_fini s : option (Z * stream) :=
  s ← (if tx_ready s then stream_disconnect_tx s else Some s);
  s ← (if rx_ready s then stream_disconnect_rx s else Some s);
  Some (VSFERR_NONE, set_smem s (op_fini op (smem s))).
End stream.

(** ** The three tables *)

Definition fifo_stream_init (f : vsf_fifo_t) : vsf_fifo_t := snd (vsf_fifo_init f).
Definition fifo_stream_get_data_length (f : vsf_fifo_t) : Z := vsf_fifo_get_data_length f.
Definition fifo_stream_get_avail_length (f : vsf_fifo_t) : Z := vsf_fifo_get_avail_length f.
(** Pointers are positions in the ring. *)
Definition fifo_stream_get_wbuf (f : vsf_fifo_t) : option (Z * Z) := Some (vsf_fifo_get_wbuf f).
Definition fifo_stream_get_rbuf (f : vsf_fifo_t) : option (Z * Z) := Some (vsf_fifo_get_rbuf f).
Definition fifo_stream_write (f : vsf_fifo_t) (size : Z) (data : option (list Z))
    : option (Z * vsf_fifo_t) := vsf_fifo_push f size data.
Definition fifo_stream_read (f : vsf_fifo_t) (size : Z) (data : option (list Z))
    : option (Z * vsf_fifo_t * option (list Z)) := vsf_fifo_pop f size data.

Definition fifostream_op : vsf_stream_op_t vsf_fifo_t Z := {|
  op_init := fifo_stream_init; op_fini := fifo_stream_init;
  op_write := fifo_stream_write; op_read := fifo_stream_read;
  op_get_data_length := fifo_stream_get_data_length;
  op_get_avail_length := fifo_stream_get_avail_length;
  op_get_wbuf := fifo_stream_get_wbuf; op_get_rbuf := fifo_stream_get_rbuf |}.

(** The windows of the multi-buffer stream are undefined: they cast the
    address of the multi-buffer to a stream and call through its first word. *)
Definition mbufstream_op : vsf_stream_op_t vsf_mbufstream_mem_t Z := {|
  op_init := multibuf_stream_init; op_fini := multibuf_stream_init;
  op_write := multibuf_stream_write;
  op_read := multibuf_stream_read;
  op_get_data_length := multibuf_stream_get_data_length;
  op_get_avail_length := multibuf_stream_get_avail_length;
  op_get_wbuf _ := None; op_get_rbuf _ := None |}.

(** [struct vsf_bufstream_mem_t]; [bread] is its field [read]. *)
Record vsf_bufstream_mem_t := { bbuf : vsf_buffer_t; bread : bool; pos : Z }.

Definition set_pos (m : vsf_bufstream_mem_t) (b : vsf_buffer_t) (p : Z) : vsf_bufstream_mem_t :=
  {| bbuf := b; bread := bread m; pos := p |}.

Definition buffer_stream_init (m : vsf_bufstream_mem_t) : vsf_bufstream_mem_t :=
  set_pos m (bbuf m) 0.

Definition buffer_stream_get_data_length (m : vsf_bufstream_mem_t) : Z :=
  if bread m then u32 (size (bbuf m) - pos m) else pos m.

Definition buffer_stream_get_avail_length (m : vsf_bufstream_mem_t) : Z :=
  if bread m then pos m else u32 (size (bbuf m) - pos m).

(** A pointer is an offset in the buffer, [None] for NULL. *)
Definition buffer_stream_get_wbuf (m : vsf_bufstream_mem_t) : option (Z * option Z) :=
  if bread m then Some (0, None) else Some (buffer_stream_get_avail_length m, Some (pos m)).

Definition buffer_stream_get_rbuf (m : vsf_bufstream_mem_t) : option (Z * option Z) :=
  if bread m then Some (buffer_stream_get_data_length m, Some (pos m)) else Some (0, None).

(** When reading, the caller's buffer is kept: its bytes are in [data]. *)
Definition buffer_stream_write (m : vsf_bufstream_mem_t) (sz : Z) (data : option (list Z))
    : option (Z * vsf_bufstream_mem_t) :=
  if bread m then
    Some (sz, set_pos m {| buffer := default [] data; size := sz |} 0)
  else
    let wsize := Z.min (buffer_stream_get_avail_length m) sz in
    b ← match data with
        | Some d => src ← read_at d 0 (Z.to_nat wsize);
                    memcpy (buffer (bbuf m)) (Z.to_nat (pos m)) src
        | None => Some (buffer (bbuf m))
        end;
    Some (wsize, set_pos m {| buffer := b; size := size (bbuf m) |} (u32 (pos m + wsize))).

Definition buffer_stream_read (m : vsf_bufstream_mem_t) (sz : Z) (data : option (list Z))
    : option (Z * vsf_bufstream_mem_t * option (list Z)) :=
  if bread m then
    let rsize := Z.min (buffer_stream_get_data_length m) sz in
    data ← match data with
           | Some d => src ← read_at (buffer (bbuf m)) (Z.to_nat (pos m)) (Z.to_nat rsize);
                       d ← memcpy d 0 src;
                       Some (Some d)
           | None => Some None
           end;
    Some (rsize, set_pos m (bbuf m) (u32 (pos m + rsize)), data)
  else Some (1, set_pos m {| buffer := default [] data; size := sz |} 0, data).

Definition bufstream_op : vsf_stream_op_t vsf_bufstream_mem_t (option Z) := {|
  op_init := buffer_stream_init; op_fini := buffer_stream_init;
  op_write := buffer_stream_write; op_read := buffer_stream_read;
  op_get_data_length := buffer_stream_get_data_length;
  op_get_avail_length := buffer_stream_get_avail_length;
  op_get_wbuf := buffer_stream_get_wbuf; op_get_rbuf := buffer_stream_get_rbuf |}.

(** ** The promise of a stream memory *)

Class ByteStream {S P} (op : vsf_stream_op_t S P) := {
  brep : S → list Z → Prop;
  bs_length m l : brep m l → op_get_data_length op m = Z.of_nat (length l);
  bs_write m l d : brep m l → Z.of_nat (length d) < 4294967296 →
    ∃ n m', op_write op m (Z.of_nat (length d)) (Some d) = Some (Z.of_nat n, m') ∧
      (n ≤ length d)%nat ∧ brep m' (l ++ take n d);
  bs_read m l n d : brep m l → Z.of_nat n < 4294967296 → (n ≤ length d)%nat →
    ∃ k m', op_read op m (Z.of_nat n) (Some d)
        = Some (Z.of_nat k, m', Some (list_inserts 0 (take k l) d)) ∧
      (k ≤ n)%nat ∧ (k ≤ length l)%nat ∧ brep m' (drop k l) }.

#[export] Instance fifo_ByteStream : ByteStream fifostream_op.
Proof.
  refine {| brep := fifo_rep |}; cbn [op_get_data_length op_write op_read fifostream_op].
  - apply fifo_data_length.
  - intros f l d Hf Hd. destruct (decide (Z.of_nat (length d) ≤ vsf_fifo_get_avail_length f)) as [Hle|Hgt];
      rewrite (fifo_avail_length _ _ Hf) in *.
    + destruct (fifo_push_spec f l d Hf) as (f' & Hp & Hf' & _); [lia|].
      exists (length d), f'. split; [done|]. split; [done|]. by rewrite firstn_all.
    + exists 0%nat, f. split; [apply (fifo_push_full f l); [done|lia]|].
      split; [lia|]. by rewrite take_0, app_nil_r.
  - intros f l n d Hf Hn Hd.
    destruct (fifo_pop_spec f l (Z.of_nat n) d Hf) as (f' & Hp & Hf' & _); [lia|lia|].
    exists (Z.to_nat (Z.min (Z.of_nat n) (Z.of_nat (length l)))), f'.
    rewrite Z2Nat.id by lia. split; [exact Hp|]. split_and!; [lia|lia|exact Hf'].
Defined.

Lemma mbuf_ready_le m l : mbuf_rep m l → mbuf_ready m ≤ Z.of_nat (length l).
Proof.
  intros ((_ & _ & _ & _ & _ & _ & _ & _ & Hw & _) & -> & _). unfold mbuf_ready. lia.
Qed.

#[export] Instance mbuf_ByteStream : ByteStream mbufstream_op.
Proof.
  refine {| brep := mbuf_rep |}; cbn [op_get_data_length op_write op_read mbufstream_op].
  - apply mbuf_data_length.
  - intros s l d Hrep Hd. unfold multibuf_stream_write. rewrite Nat2Z.id.
    pose proof (multibuf_write_loop_spec (S (length d)) s l d 0 Hrep) as Hspec.
    rewrite Nat.sub_0_r, drop_0 in Hspec. destruct Hspec as (s' & Hw & Hr'); [lia..|].
    eexists _, s'. split; [exact Hw|]. split; [lia|exact Hr'].
  - intros s l n d Hrep Hn Hd. unfold multibuf_stream_read.
    pose proof (mbuf_ready_le s l Hrep) as Hle.
    destruct (multibuf_read_loop_spec (S (Z.to_nat (Z.of_nat n))) s l d 0 (Z.of_nat n) Hrep)
      as (s' & Hr & Hr'); [lia..|].
    eexists _, s'. split; [exact Hr|]. split_and!; [lia| |exact Hr']. lia.
Defined.

(** ** The generic layer *)

Section generic.
Context {S P E : Type} {op : vsf_stream_op_t S P} `{!ByteStream op}.
Notation stream := (vsf_stream_t S E).
Implicit Types (s : stream).
Context (invoke : Z → Z → stream → option stream) (act : Z → Z → E → E).

(** The callbacks do not use the stream while they run. *)
Hypothesis quiet : ∀ f p s, invoke f p s = Some (set_env s (act f p (env s))).

(** The effect of a list of calls (function, parameter). *)
Definition acts (cs : list (Z * Z)) (e : E) : E := foldl (λ e c, act c.1 c.2 e) e cs.

Definition calls_if (c : bool) (f : Z) (cb : vsf_stream_cb_t) : list (Z * Z) :=
  if c && negb (f =? NULL) then [(f, cb_param cb)] else [].

Lemma call_if_ok c f cb s :
  call_if invoke c f cb s = Some (set_env s (acts (calls_if c f cb) (env s))).
Proof.
  unfold call_if, calls_if. destruct (c && negb (f =? NULL)); [by rewrite quiet|].
  by destruct s.
Qed.

Lemma acts_app cs1 cs2 e : acts (cs1 ++ cs2) e = acts cs2 (acts cs1 e).
Proof. apply foldl_app. Qed.

(** What an operation leaves alone. *)
Definition same_ends s s' : Prop :=
  callback_tx s' = callback_tx s ∧ callback_rx s' = callback_rx s ∧
  tx_ready s' = tx_ready s ∧ rx_ready s' = rx_ready s.

Lemma stream_write_ok s l d :
  brep (smem s) l → Z.of_nat (length d) < 4294967296 →
  ∃ n s', stream_write op invoke s (Z.of_nat (length d)) (Some d) = Some (Z.of_nat n, s') ∧
    (n ≤ length d)%nat ∧ brep (smem s') (l ++ take n d) ∧ same_ends s s' ∧
    overflow s' = overflow s || (Z.of_nat n <? Z.of_nat (length d)) ∧
    env s' = acts (calls_if (rx_ready s && negb (Z.of_nat n =? 0))
      (on_inout (callback_rx s)) (callback_rx s)) (env s).
Proof.
  intros Hr Hd. destruct (bs_write (smem s) l d Hr Hd) as (n & m & Hw & Hn & Hm).
  unfold stream_write. rewrite Hw. bindr. rewrite call_if_ok. bindr.
  exists n. eexists. split; [done|]. split; [done|].
  destruct (Z.of_nat n <? Z.of_nat (length d)); cbn; (split; [done|]); (split; [done|]).
  - by rewrite orb_true_r.
  - by rewrite orb_false_r.
Qed.

Lemma stream_read_ok s l n d :
  brep (smem s) l → Z.of_nat n < 4294967296 → (n ≤ length d)%nat →
  ∃ k s', stream_read op invoke s (Z.of_nat n) (Some d)
      = Some (Z.of_nat k, s', Some (list_inserts 0 (take k l) d)) ∧
    (k ≤ n)%nat ∧ (k ≤ length l)%nat ∧ brep (smem s') (drop k l) ∧ same_ends s s' ∧
    overflow s' = overflow s ∧
    env s' = acts (calls_if (tx_ready s && negb (Z.of_nat k =? 0))
      (on_inout (callback_tx s)) (callback_tx s)) (env s).
Proof.
  intros Hr Hn Hd. destruct (bs_read (smem s) l n d Hr Hn Hd) as (k & m & Hw & Hk & Hl & Hm).
  unfold stream_read. rewrite Hw. bindr. rewrite call_if_ok. bindr.
  exists k. eexists. split; [done|]. by split_and!.
Qed.

(** *** Histories of writes and reads *)

Inductive sop := SWrite (d : list Z) | SRead (n : nat).

Definition sop_ok (o : sop) : Prop :=
  match o with
  | SWrite d => Z.of_nat (length d) < 4294967296
  | SRead n => Z.of_nat n < 4294967296
  end.

(** The stream with the bytes accepted and delivered so far, the notifications
    due, and whether a write was cut short. *)
Record history := {
  h_stream : stream; h_in : list Z; h_out : list Z; h_calls : list (Z * Z); h_cut : bool }.

Definition exec (h : history) (o : sop) : option history :=
  let s := h_stream h in
  match o with
  | SWrite d =>
      '(count, s') ← stream_write op invoke s (Z.of_nat (length d)) (Some d);
      Some {| h_stream := s'; h_in := h_in h ++ take (Z.to_nat count) d; h_out := h_out h;
              h_calls := h_calls h ++ calls_if (rx_ready s && negb (count =? 0))
                (on_inout (callback_rx s)) (callback_rx s);
              h_cut := h_cut h || (count <? Z.of_nat (length d)) |}
  | SRead n =>
      '(count, s', data) ← stream_read op invoke s (Z.of_nat n) (Some (replicate n 0));
      Some {| h_stream := s'; h_in := h_in h;
              h_out := h_out h ++ take (Z.to_nat count) (default [] data);
              h_calls := h_calls h ++ calls_if (tx_ready s && negb (count =? 0))
                (on_inout (callback_tx s)) (callback_tx s);
              h_cut := h_cut h |}
  end.

Fixpoint exec_all (h : history) (os : list sop) : option history :=
  match os with
  | [] => Some h
  | o :: os => h ← exec h o; exec_all h os
  end.

(** [s0] is the stream at the start of the history. *)
Record hist_ok s0 (h : history) : Prop := {
  ho_bytes : ∃ l, brep (smem (h_stream h)) l ∧ h_in h = h_out h ++ l;
  ho_cut : overflow (h_stream h) = overflow s0 || h_cut h;
  ho_calls : env (h_stream h) = acts (h_calls h) (env s0);
  ho_ends : same_ends s0 (h_stream h) }.

Lemma same_ends_trans s1 s2 s3 : same_ends s1 s2 → same_ends s2 s3 → same_ends s1 s3.
Proof. unfold same_ends. intuition congruence. Qed.

Lemma take_inserts_front k (l : list Z) n :
  (k ≤ length l)%nat → (k ≤ n)%nat →
  take k (list_inserts 0 (take k l) (replicate n 0)) = take k l.
Proof.
  intros Hl Hn. apply list_eq. intros i. destruct (decide (i < k)%nat) as [Hi|Hi].
  - rewrite !lookup_take_lt by lia. rewrite list_lookup_inserts.
    + by rewrite Nat.sub_0_r, lookup_take_lt by lia.
    + rewrite length_take. lia.
    + rewrite length_replicate. lia.
  - rewrite !lookup_take_ge by lia. done.
Qed.

Lemma exec_ok s0 h o : hist_ok s0 h → sop_ok o → ∃ h', exec h o = Some h' ∧ hist_ok s0 h'.
Proof.
  intros [(l & Hl & Hb) Hc Hca He] Ho. destruct o as [d|n]; simpl in Ho.
  - destruct (stream_write_ok (h_stream h) l d Hl Ho) as (k & s' & Hw & Hk & Hl' & He' & Hov & Hen).
    unfold exec. rewrite Hw. bindr. rewrite Nat2Z.id. eexists. split; [done|].
    split; cbn [h_stream h_in h_out h_calls h_cut].
    + exists (l ++ take k d). split; [done|]. by rewrite Hb, app_assoc.
    + by rewrite Hov, Hc, orb_assoc.
    + by rewrite acts_app, <- Hca.
    + by eapply same_ends_trans.
  - destruct (stream_read_ok (h_stream h) l n (replicate n 0) Hl Ho)
      as (k & s' & Hw & Hk & Hkl & Hl' & He' & Hov & Hen); [by rewrite length_replicate|].
    unfold exec. rewrite Hw. bindr. rewrite Nat2Z.id. eexists. split; [done|].
    split; cbn [h_stream h_in h_out h_calls h_cut default].
    + exists (drop k l). split; [done|]. simpl. rewrite take_inserts_front by done.
      by rewrite <- app_assoc, take_drop.
    + by rewrite Hov.
    + by rewrite acts_app, <- Hca.
    + by eapply same_ends_trans.
Qed.

Lemma exec_all_ok s0 h os :
  hist_ok s0 h → Forall sop_ok os → ∃ h', exec_all h os = Some h' ∧ hist_ok s0 h'.
Proof.
  intros Hh Hos. revert h Hh. induction Hos as [|o os Ho _ IH]; intros h Hh; [by exists h|].
  destruct (exec_ok s0 h o Hh Ho) as (h1 & He & Hh1). cbn [exec_all]. rewrite He. by apply IH.
Qed.

Definition hist_start s : history :=
  {| h_stream := s; h_in := []; h_out := []; h_calls := []; h_cut := false |}.

(** C25: a stream over any memory that keeps its promise, with callbacks that
    leave the stream alone.  Every sequence of writes and reads runs to its
    end; the bytes delivered so far followed by those in the memory are exactly
    the bytes accepted, in order; [overflow] is set exactly when some write was
    cut short; and the receiver is called once for each write that accepted
    something, the sender once for each read that delivered something. *)
Theorem stream_lossless s os :
  brep (smem s) [] → Forall sop_ok os →
  ∃ h, exec_all (hist_start s) os = Some h ∧ hist_ok s h ∧
    Z.of_nat (length (h_in h)) =
      Z.of_nat (length (h_out h)) + stream_get_data_size op (h_stream h).
Proof.
  intros Hs Hos. destruct (exec_all_ok s (hist_start s) os) as (h & He & Hh); [|done|].
  - split; cbn; [by exists []|by rewrite orb_false_r|done|done].
  - exists h. split; [done|]. split; [done|]. destruct Hh as [(l & Hl & ->) _ _ _].
    unfold stream_get_data_size. rewrite (bs_length _ l Hl), length_app. lia.
Qed.
End generic.

(** ** Connections *)

Section connect.
Context {S P : Type} (op : vsf_stream_op_t S P).

(** The rest of the program is the log of the called functions. *)
Notation stream := (vsf_stream_t S (list Z)).
Implicit Types (s : stream).
Definition record (f p : Z) s : option stream := Some (set_env s (env s ++ [f])).

Inductive cop := ConnectRx | ConnectTx | DisconnectRx | DisconnectTx.

Definition cexec s (o : cop) : option stream :=
  match o with
  | ConnectRx => stream_connect_rx record s
  | ConnectTx => stream_connect_tx record s
  | DisconnectRx => stream_disconnect_rx record s
  | DisconnectTx => stream_disconnect_tx record s
  end.

Fixpoint cexec_all s (os : list cop) : option stream :=
  match os with [] => Some s | o :: os => s ← cexec s o; cexec_all s os end.

(** How often [f] was called. *)
Definition called (f : Z) s : nat := length (filter (λ x, x = f) (env s)).

(** All four callbacks are there and can be told apart. *)
Definition distinct s : Prop :=
  NoDup [NULL; on_connect (callback_tx s); on_disconnect (callback_tx s);
         on_connect (callback_rx s); on_disconnect (callback_rx s)].

Definition b2n (b : bool) : nat := if b then 1%nat else 0%nat.

(** Each end was told of at least as many connections of its peer as of
    disconnections, one more while the peer is connected, and both ends have
    been told again when the second one came. *)
Record balanced s : Prop := {
  bl_tx : (called (on_disconnect (callback_tx s)) s + b2n (rx_ready s)
           ≤ called (on_connect (callback_tx s)) s)%nat;
  bl_rx : (called (on_disconnect (callback_rx s)) s + b2n (tx_ready s)
           ≤ called (on_connect (callback_rx s)) s)%nat }.

Lemma record_call c f cb s :
  call_if record c f cb s = Some (set_env s (env s ++ if c && negb (f =? NULL) then [f] else [])).
Proof.
  unfold call_if, record. destruct (c && negb (f =? NULL)); [done|].
  rewrite app_nil_r. by destruct s.
Qed.

Lemma count_snoc f g (l : list Z) :
  length (filter (λ x, x = f) (l ++ [g])) =
    (length (filter (λ x, x = f) l) + b2n (bool_decide (g = f)))%nat.
Proof.
  rewrite filter_app, length_app. f_equal. rewrite filter_cons.
  case_decide; case_bool_decide; done.
Qed.

Lemma cexec_ok s o :
  distinct s → balanced s →
  ∃ s', cexec s o = Some s' ∧ distinct s' ∧ balanced s' ∧ smem s' = smem s ∧
    overflow s' = overflow s ∧
    tx_ready s' = match o with ConnectTx => true | DisconnectTx => false | _ => tx_ready s end ∧
    rx_ready s' = match o with ConnectRx => true | DisconnectRx => false | _ => rx_ready s end.
Proof.
  destruct s as [[p1 i1 ct dt] [p2 i2 cr dr] tx rx ov m l]. unfold distinct. cbn.
  intros Hd [H1 H2]. unfold called in *. cbn in *.
  pose proof Hd as Hd0. apply NoDup_cons in Hd as [Hn Hd'].
  apply NoDup_cons in Hd' as [Hct Hd']. apply NoDup_cons in Hd' as [Hdt Hd'].
  apply NoDup_cons in Hd' as [Hcr _].
  repeat setoid_rewrite not_elem_of_cons in Hn. repeat setoid_rewrite not_elem_of_cons in Hct.
  repeat setoid_rewrite not_elem_of_cons in Hdt. repeat setoid_rewrite not_elem_of_cons in Hcr.
  destruct_and?.
  destruct o, tx, rx; unfold cexec, stream_connect_rx, stream_connect_tx, stream_disconnect_rx,
    stream_disconnect_tx; cbn [rx_ready tx_ready]; rewrite ?record_call; bindr;
    cbn [env set_env rx_ready tx_ready callback_rx callback_tx on_connect on_disconnect andb];
    rewrite ?record_call; bindr;
    cbn [env set_env rx_ready tx_ready callback_rx callback_tx on_connect on_disconnect andb];
    rewrite ?(proj2 (Z.eqb_neq _ _)) by congruence; cbn [negb];
    (eexists; split; [done|]); cbn;
    (split; [exact Hd0|]);
    (split; [split; unfold called; cbn; rewrite ?app_nil_r, ?count_snoc;
             unfold b2n in *; repeat (case_bool_decide; try congruence); lia|done]).
Qed.

Lemma cexec_all_ok os s :
  distinct s → balanced s → ∃ s', cexec_all s os = Some s' ∧ distinct s' ∧ balanced s'.
Proof.
  revert s. induction os as [|o os IH]; intros s Hd Hb; [by exists s|].
  destruct (cexec_ok s o Hd Hb) as (s1 & He & Hd1 & Hb1 & _). cbn [cexec_all]. rewrite He. by apply IH.
Qed.

(** Connections, from an initialised stream, for any sequence of connects
    and disconnects of the two ends (repeated ones included).  Every operation
    runs; no end is told of a disconnection of its peer without having been
    told of a connection before, and not of the last connection while the peer
    is still there; and [stream_fini] leaves both ends disconnected, the
    memory initialised and every disconnection told. *)
Theorem stream_connections s os :
  distinct s → env s = [] →
  ∃ s1, cexec_all (snd (stream_init op s)) os = Some s1 ∧ balanced s1 ∧
    ∃ s2, stream_fini op record s1 = Some (VSFERR_NONE, s2) ∧ balanced s2 ∧
      tx_ready s2 = false ∧ rx_ready s2 = false ∧ smem s2 = op_fini op (smem s1) ∧
      called (on_disconnect (callback_tx s1)) s2 =
        (called (on_disconnect (callback_tx s1)) s1 + b2n (rx_ready s1))%nat ∧
      called (on_disconnect (callback_rx s1)) s2 =
        (called (on_disconnect (callback_rx s1)) s1 + b2n (tx_ready s1))%nat.
Proof.
  intros Hd He. assert (Hb : balanced (snd (stream_init op s)))
    by (split; unfold called; simpl; rewrite He; simpl; lia).
  destruct (cexec_all_ok os (snd (stream_init op s)) Hd Hb) as (s1 & H1 & Hd1 & Hb1).
  exists s1. split; [done|]. split; [done|]. clear -Hd1 Hb1. revert Hd1 Hb1.
  destruct s1 as [[p1 i1 ct dt] [p2 i2 cr dr] tx rx ov m l]. unfold distinct. cbn.
  intros Hd [H1 H2]. unfold called in *. cbn in *.
  apply NoDup_cons in Hd as [Hn Hd']. apply NoDup_cons in Hd' as [Hct Hd'].
  apply NoDup_cons in Hd' as [Hdt Hd']. apply NoDup_cons in Hd' as [Hcr _].
  repeat setoid_rewrite not_elem_of_cons in Hn. repeat setoid_rewrite not_elem_of_cons in Hct.
  repeat setoid_rewrite not_elem_of_cons in Hdt. repeat setoid_rewrite not_elem_of_cons in Hcr.
  destruct_and?.
  destruct tx, rx; unfold stream_fini, stream_disconnect_rx, stream_disconnect_tx;
    cbn [rx_ready tx_ready]; rewrite ?record_call; bindr;
    cbn [env set_env set_flags rx_ready tx_ready callback_rx callback_tx on_disconnect andb];
    rewrite ?record_call; bindr;
    cbn [env set_env set_flags rx_ready tx_ready callback_rx callback_tx on_disconnect andb];
    rewrite ?(proj2 (Z.eqb_neq _ _)) by congruence; cbn [negb];
    (eexists; split; [done|]); cbn;
    (split; [split|]); unfold called in *; cbn in *; rewrite ?count_snoc;
    unfold b2n in *; repeat (case_bool_decide; try congruence); split_and?; done || lia.
Qed.
End connect.

(** ** The buffer stream *)

(** [l] is what is left to read of the buffer written last. *)
Definition source (m : vsf_bufstream_mem_t) (l : list Z) : Prop :=
  bread m = true ∧ size (bbuf m) ≤ Z.of_nat (length (buffer (bbuf m))) ∧
  0 ≤ pos m ≤ size (bbuf m) ∧ size (bbuf m) < 4294967296 ∧
  l = drop (Z.to_nat (pos m)) (take (Z.to_nat (size (bbuf m))) (buffer (bbuf m))).

(** [l] has been written to the buffer of [c] bytes supplied last. *)
Definition sink (m : vsf_bufstream_mem_t) (l : list Z) (c : Z) : Prop :=
  bread m = false ∧ Z.of_nat (length (buffer (bbuf m))) = c ∧ size (bbuf m) = c ∧
  c < 4294967296 ∧ pos m = Z.of_nat (length l) ∧ Z.of_nat (length l) ≤ c ∧
  take (length l) (buffer (bbuf m)) = l.

Lemma source_read m l n dst :
  source m l → 0 ≤ n → Z.min n (Z.of_nat (length l)) ≤ Z.of_nat (length dst) →
  let k := Z.min n (Z.of_nat (length l)) in
  ∃ m', buffer_stream_read m n (Some dst)
      = Some (k, m', Some (list_inserts 0 (take (Z.to_nat k) l) dst)) ∧
    source m' (drop (Z.to_nat k) l) ∧ buffer_stream_get_data_length m = Z.of_nat (length l).
Proof.
  intros (Hb & Hl & Hp & Hs & ->) Hn Hd k.
  set (l := drop (Z.to_nat (pos m)) (take (Z.to_nat (size (bbuf m))) (buffer (bbuf m)))) in *.
  assert (Hlen : Z.of_nat (length l) = size (bbuf m) - pos m).
  { unfold l. rewrite length_drop, length_take. lia. }
  assert (Hdl : buffer_stream_get_data_length m = Z.of_nat (length l)).
  { unfold buffer_stream_get_data_length. rewrite Hb, u32_small by lia. lia. }
  assert (Hk : Z.min (Z.of_nat (length l)) n = k) by (unfold k; lia).
  unfold buffer_stream_read. rewrite Hb, Hdl, Hk.
  rewrite read_at_in by lia. bindr.
  replace (take (Z.to_nat k) (drop (Z.to_nat (pos m)) (buffer (bbuf m)))) with (take (Z.to_nat k) l).
  2:{ unfold l. rewrite skipn_firstn_comm, take_take. f_equal. lia. }
  rewrite memcpy_in by (rewrite length_take; lia). bindr.
  eexists. split; [done|]. split; [|done]. unfold source. cbn.
  rewrite u32_small by lia. split_and!; try done; try lia.
  unfold l. rewrite drop_drop. f_equal. lia.
Qed.

Lemma sink_write m l c d :
  sink m l c →
  let k := Z.min (Z.of_nat (length d)) (c - Z.of_nat (length l)) in
  ∃ m', buffer_stream_write m (Z.of_nat (length d)) (Some d) = Some (k, m') ∧
    sink m' (l ++ take (Z.to_nat k) d) c ∧
    buffer_stream_get_avail_length m = c - Z.of_nat (length l).
Proof.
  intros (Hb & Hl & Hsz & Hc & Hp & Hle & Ht) k.
  assert (Hav : buffer_stream_get_avail_length m = c - Z.of_nat (length l)).
  { unfold buffer_stream_get_avail_length. rewrite Hb, u32_small by lia. lia. }
  assert (Hk : Z.min (c - Z.of_nat (length l)) (Z.of_nat (length d)) = k) by (unfold k; lia).
  assert (Hkb : 0 ≤ k ≤ c - Z.of_nat (length l) ∧ k ≤ Z.of_nat (length d)) by (unfold k; lia).
  unfold buffer_stream_write. rewrite Hb, Hav, Hk. clearbody k.
  rewrite read_at_in by lia. bindr. rewrite drop_0.
  assert (Hpn : Z.to_nat (pos m) = length l) by lia. rewrite Hpn.
  rewrite memcpy_in by (rewrite length_take; lia). bindr.
  eexists. split; [done|]. split; [|done]. unfold sink. cbn.
  rewrite length_inserts, length_app, length_take, u32_small by lia.
  split_and!; try done; try lia.
  set (x := take (Z.to_nat k) d).
  replace (l ++ x) with (take (length l) (buffer (bbuf m)) ++ x) by by rewrite Ht.
  assert (Hx : length x = Z.to_nat k) by (unfold x; rewrite length_take; lia).
  replace (length l + Z.to_nat k `min` length d)%nat with (length l + length x)%nat
    by (rewrite Hx; lia).
  apply list_eq. intros i. destruct (decide (i < length l + length x)%nat).
  - rewrite lookup_take_lt by lia. destruct (decide (i < length l)%nat).
    + rewrite list_lookup_inserts_lt by lia. rewrite lookup_app_l by (rewrite length_take; lia).
      by rewrite lookup_take_lt by lia.
    + rewrite list_lookup_inserts by lia. rewrite lookup_app_r by (rewrite length_take; lia).
      f_equal. rewrite length_take. lia.
  - rewrite lookup_take_ge by lia. symmetry. apply lookup_ge_None.
    rewrite length_app, length_take. lia.
Qed.

(** The buffer stream.  In read mode a write hands over a whole buffer, of
    which reads then deliver the bytes in order, each once and never past its
    end (a second write replaces what was not read); in write mode a read hands
    over an empty buffer, which writes fill in order up to its size, accepting
    nothing when it is full.  No access leaves the buffer. *)
Theorem buffer_stream_windows m d dst n c l1 l2 :
  Z.of_nat (length d) < 4294967296 → Z.of_nat (length dst) < 4294967296 → 0 ≤ n →
  (bread m = true →
     (∃ m', buffer_stream_write m (Z.of_nat (length d)) (Some d)
              = Some (Z.of_nat (length d), m') ∧ source m' d)) ∧
  (source m l1 → Z.min n (Z.of_nat (length l1)) ≤ Z.of_nat (length dst) →
     let k := Z.min n (Z.of_nat (length l1)) in
     ∃ m', buffer_stream_read m n (Some dst)
         = Some (k, m', Some (list_inserts 0 (take (Z.to_nat k) l1) dst)) ∧
       source m' (drop (Z.to_nat k) l1) ∧
       buffer_stream_get_data_length m = Z.of_nat (length l1)) ∧
  (bread m = false →
     ∃ m', buffer_stream_read m (Z.of_nat (length dst)) (Some dst) = Some (1, m', Some dst) ∧
       sink m' [] (Z.of_nat (length dst))) ∧
  (sink m l2 c →
     let k := Z.min (Z.of_nat (length d)) (c - Z.of_nat (length l2)) in
     ∃ m', buffer_stream_write m (Z.of_nat (length d)) (Some d) = Some (k, m') ∧
       sink m' (l2 ++ take (Z.to_nat k) d) c ∧
       buffer_stream_get_avail_length m = c - Z.of_nat (length l2)).
Proof.
  intros Hd Hdst Hn. split_and!.
  - intros Hb. unfold buffer_stream_write. rewrite Hb. eexists. split; [done|].
    unfold source. cbn. split_and!; try done; try lia. by rewrite Nat2Z.id, firstn_all.
  - intros Hs Hl. by apply source_read.
  - intros Hb. unfold buffer_stream_read. rewrite Hb. eexists. split; [done|].
    unfold sink. cbn. split_and!; try done; lia.
  - apply sink_write.
Qed.

(** ** Witnesses *)

(** A fifo stream of capacity three with both ends there. *)
Definition demo_stream : vsf_stream_t vsf_fifo_t (list (Z * Z)) :=
  {| callback_tx := {| cb_param := 7; on_inout := 0x11; on_connect := 0x12; on_disconnect := 0x13 |};
     callback_rx := {| cb_param := 8; on_inout := 0x21; on_connect := 0x22; on_disconnect := 0x23 |};
     tx_ready := true; rx_ready := true; overflow := false;
     smem := {| fbuf := {| buffer := [0; 0; 0; 0]; size := 4 |}; head := 2; tail := 2 |};
     env := [] |}.

Lemma demo_stream_rep : fifo_rep (smem demo_stream) [].
Proof. unfold fifo_rep, fifo_wf, slot. simpl. split_and!; lia. Qed.

Definition demo_act (f p : Z) (e : list (Z * Z)) := e ++ [(f, p)].
Definition demo_invoke (f p : Z) (s : vsf_stream_t vsf_fifo_t (list (Z * Z))) :=
  Some (set_env s (demo_act f p (env s))).

(** Five bytes do not fit and are refused as a whole. *)
Lemma stream_lossless_witness :
  ∃ h, exec_all (op := fifostream_op) demo_invoke (hist_start demo_stream)
         [SWrite [1; 2]; SRead 1; SWrite [3; 4]; SWrite [5; 6; 7; 8; 9]; SRead 9] = Some h ∧
    h_out h = [1; 2; 3; 4] ∧ h_in h = [1; 2; 3; 4] ∧ overflow (h_stream h) = true ∧
    env (h_stream h) = acts demo_act (h_calls h) [].
Proof.
  destruct (stream_lossless (op := fifostream_op) demo_invoke demo_act (λ f p s, eq_refl) demo_stream
    [SWrite [1; 2]; SRead 1; SWrite [3; 4]; SWrite [5; 6; 7; 8; 9]; SRead 9]) as (h & H1 & H2 & _).
  - exact demo_stream_rep.
  - repeat constructor; simpl; lia.
  - exists h. split; [exact H1|]. vm_compute in H1. injection H1 as <-.
    split; [reflexivity|]. split; [reflexivity|]. split; [reflexivity|].
    exact (ho_calls _ _ _ H2).
Defined.

Definition demo_ends : vsf_stream_t vsf_fifo_t (list Z) :=
  {| callback_tx := callback_tx demo_stream; callback_rx := callback_rx demo_stream;
     tx_ready := true; rx_ready := true; overflow := false; smem := smem demo_stream; env := [] |}.

Lemma stream_connections_witness :
  ∃ s1, cexec_all (snd (stream_init fifostream_op demo_ends)) [ConnectTx; ConnectRx; ConnectRx]
      = Some s1 ∧ balanced s1 ∧ env s1 = [0x22; 0x12; 0x22].
Proof.
  destruct (stream_connections fifostream_op demo_ends [ConnectTx; ConnectRx; ConnectRx])
    as (s1 & H1 & H2 & _).
  - unfold distinct. simpl. unfold NULL. by_decide.
  - reflexivity.
  - exists s1. split; [exact H1|]. split; [exact H2|]. vm_compute in H1. by injection H1 as <-.
Defined.

Definition demo_bufmem : vsf_bufstream_mem_t :=
  {| bbuf := {| buffer := [9; 9]; size := 2 |}; bread := true; pos := 1 |}.

Lemma buffer_stream_windows_witness :
  ∃ m', buffer_stream_write demo_bufmem 3 (Some [1; 2; 3]) = Some (3, m') ∧ source m' [1; 2; 3].
Proof.
  destruct (buffer_stream_windows demo_bufmem [1; 2; 3] [] 0 0 [] []) as [H _];
    [simpl; lia|simpl; lia|lia|].
  destruct (H eq_refl) as (m' & H1 & H2). exists m'. split; [exact H1|exact H2].
Defined.
