(* ===== verification/Memory.v ===== *)
(** * Memory: what clients of the heap rely on

    [Heap] are the operations of a memory manager and [Allocator] states its
    promise to the components that allocate: [malloc] answers NULL or the address
    of an object that overlaps no other, [mfree] takes an object back from any
    pointer into it.  The heap manager of Bufmgr keeps the promise.  [unlimited]
    is a memory that never runs out and does not tell its objects apart: what a
    component computes over it is what it computes over any memory, but for
    addresses and for failures. *)

From S2P Require Import Prelude Chain Bufmgr.
From Stdlib Require Import Morphisms.

(** An object: its address and size. *)
Notation obj := (Z * Z)%type (only parsing).

(** The two objects share no byte. *)
Definition apart (x y : obj) : Prop := x.1 + x.2 ≤ y.1 ∨ y.1 + y.2 ≤ x.1.

Class Heap (M : Type) := {
  malloc : M → Z → option (Z * M);
  mfree : M → Z → option M }.

(** [mem_live m A]: [m] is well formed and [A] are the objects handed out, in
    any order. *)
Class Allocator (M : Type) `{Heap M} := {
  mem_live : M → list obj → Prop;
  mem_live_perm m A B : A ≡ₚ B → mem_live m A → mem_live m B;
  mem_live_apart m x y A : mem_live m (x :: y :: A) → apart x y;
  mem_live_bounds m x A : mem_live m (x :: A) → 0 < x.1 ∧ 0 < x.2 ∧ x.1 + x.2 < 4294967296;
  malloc_spec m A n : mem_live m A → 0 < n → n < 0x7fffffff →
    ∃ p m', malloc m n = Some (p, m') ∧
      (p = NULL ∧ mem_live m' A ∨ p ≠ NULL ∧ mem_live m' ((p, n) :: A));
  mfree_spec m A a n k : mem_live m ((a, n) :: A) → 0 ≤ k < n →
    ∃ m', mfree m (a + k) = Some m' ∧ mem_live m' A }.

#[export] Instance mem_live_proper `{Allocator M} m : Proper (Permutation ==> iff) (mem_live m).
Proof. intros A B HAB. split; apply mem_live_perm; [done|]. by symmetry. Qed.

#[export] Instance unlimited : Heap unit := {|
  malloc m n := Some (1, m);
  mfree m a := Some m |}.

Lemma mfree_object `{Allocator M} m x B :
  mem_live m (x :: B) → ∃ m', mfree m x.1 = Some m' ∧ mem_live m' B.
Proof.
  destruct x as [a n]. intros Hm. pose proof (mem_live_bounds _ _ _ Hm) as (_ & Hn & _). simpl in Hn.
  rewrite <- (Z.add_0_r a). apply (mfree_spec m B a n 0 Hm). lia.
Qed.

(** Release the objects at the addresses, in order. *)
Fixpoint mfree_all {M} `{Heap M} (ps : list Z) (m : M) : option M :=
  match ps with [] => Some m | p :: ps => m ← mfree m p; mfree_all ps m end.

Lemma mfree_all_live `{Allocator M} (xs : list obj) m B :
  mem_live m (xs ++ B) → ∃ m', mfree_all xs.*1 m = Some m' ∧ mem_live m' B.
Proof.
  revert m. induction xs as [|x xs IH]; intros m Hm; [by exists m|].
  destruct (mfree_object _ _ _ Hm) as (m1 & Hf & Hm1).
  rewrite fmap_cons. cbn [mfree_all]. rewrite Hf. by apply IH.
Qed.

(** ** The heap manager *)

Section bufmgr.
Context (freed_list allocated_list : Z).
Notation heap_ok := (heap_ok freed_list allocated_list).

(** The object lies in the buffer of the block. *)
Definition inside (x : obj) (u : blk) : Prop :=
  b_addr u + MCB_SIZE ≤ x.1 ∧ 0 < x.2 ∧ x.1 + x.2 ≤ b_end u.

(** The objects lie in the allocated blocks, one in each. *)
Definition heap_live (h : heap) (A : list obj) : Prop :=
  ∃ base bs lim us, heap_ok h base bs lim ∧ bs ≠ [] ∧ us ≡ₚ used bs ∧ Forall2 inside A us.

Lemma heap_live_permut h A B : A ≡ₚ B → heap_live h A → heap_live h B.
Proof.
  intros HAB (base & bs & lim & us & Hok & Hne & Hus & HA).
  destruct (Permutation_Forall2 HAB HA) as (us' & Hus' & HB).
  exists base, bs, lim, us'. split_and!; try done. by rewrite <- Hus'.
Qed.

Lemma used_NoDup h base bs lim : heap_ok h base bs lim → NoDup (used bs).
Proof.
  intros Hok. apply NoDup_filter. apply (NoDup_fmap_1 b_addr). eapply tiles_NoDup.
  exact (rep_tiles _ _ _ _ _ _ (ok_rep _ _ _ _ _ _ Hok)).
Qed.

Lemma heap_live_apart h x y A : heap_live h (x :: y :: A) → apart x y.
Proof.
  intros (base & bs & lim & us & Hok & _ & Hus & HA).
  apply Forall2_cons_inv_l in HA as (u & us1 & Hxu & HA & ->).
  apply Forall2_cons_inv_l in HA as (v & us2 & Hyv & HA & ->).
  pose proof (used_NoDup _ _ _ _ Hok) as Hnd. rewrite <- Hus in Hnd.
  assert (Hbs : ∀ w, w ∈ u :: v :: us2 → w ∈ bs).
  { intros w Hw. rewrite Hus in Hw. by apply list_elem_of_filter in Hw as [_ ?]. }
  apply NoDup_cons in Hnd as [Huv _].
  pose proof (tiles_sep _ _ _ u v (rep_tiles _ _ _ _ _ _ (ok_rep _ _ _ _ _ _ Hok))
    ltac:(apply Hbs; set_solver) ltac:(apply Hbs; set_solver)) as [->|Hs]; [set_solver|].
  unfold inside, apart, MCB_SIZE in *. lia.
Qed.

Lemma heap_live_bounds h x A : heap_live h (x :: A) → 0 < x.1 ∧ 0 < x.2 ∧ x.1 + x.2 < 4294967296.
Proof.
  intros (base & bs & lim & us & Hok & _ & Hus & HA).
  apply Forall2_cons_inv_l in HA as (u & us' & (Hlo & Hn & Hhi) & _ & ->).
  destruct (rep_bounds _ _ _ _ _ _ (ok_rep _ _ _ _ _ _ Hok)) as (Hb0 & Hlim).
  assert (Hu : u ∈ used bs) by (rewrite <- Hus; set_solver).
  apply list_elem_of_filter in Hu as [_ Hu].
  pose proof (tiles_in _ _ _ _ (rep_tiles _ _ _ _ _ _ (ok_rep _ _ _ _ _ _ Hok)) Hu) as Ht.
  unfold MCB_SIZE in *. lia.
Qed.

Lemma heap_malloc_live h A n :
  heap_live h A → 0 < n → n < 0x7fffffff →
  ∃ p h', vsf_bufmgr_malloc freed_list allocated_list h n = Some (p, h') ∧
    (p = NULL ∧ heap_live h' A ∨ p ≠ NULL ∧ heap_live h' ((p, n) :: A)).
Proof.
  intros (base & bs & lim & us & Hok & Hne & Hus & HA) Hn Hn2.
  destruct (malloc_ok freed_list allocated_list h base bs lim n 4 Hok)
    as (p & h' & Hm & Ho); [lia|lia|done|unfold VSF_BUFMGR_DEFAULT_ALIGN; lia|].
  exists p, h'. split; [exact Hm|].
  destruct Ho as [(-> & -> & _)|(bs' & u & f & Hok' & _ & Hu & _ & Hlo & Hhi & Hperm & _)].
  - left. split; [done|]. by exists base, bs, lim, us.
  - right. pose proof Hok' as [Hr' _ _].
    destruct (rep_bounds _ _ _ _ _ _ Hr') as [Hb0 _].
    pose proof (tiles_in _ _ _ _ (rep_tiles _ _ _ _ _ _ Hr') Hu) as (Hbu & _).
    split; [unfold NULL, MCB_SIZE in *; lia|].
    exists base, bs', lim, (u :: us). split_and!; [done| |by rewrite Hperm, Hus|].
    + by intros ->; apply not_elem_of_nil in Hu.
    + constructor; [done|exact HA].
Qed.

Lemma heap_free_live h A a n k :
  heap_live h ((a, n) :: A) → 0 ≤ k < n →
  ∃ h', vsf_bufmgr_free freed_list allocated_list h (a + k) = Some h' ∧ heap_live h' A.
Proof.
  intros (base & bs & lim & us & Hok & Hne & Hus & HA) Hk.
  apply Forall2_cons_inv_l in HA as (u & us' & (Hlo & _ & Hhi) & HA & ->). simpl in Hlo, Hhi.
  pose proof (rep_tiles _ _ _ _ _ _ (ok_rep _ _ _ _ _ _ Hok)) as Ht.
  assert (Hu : u ∈ used bs) by (rewrite <- Hus; set_solver).
  destruct (free_ok freed_list allocated_list h base bs lim (a + k) Hok Hne)
    as (h' & bs' & Hf & Hok' & Ho & _).
  exists h'. split; [exact Hf|].
  destruct Ho as [(v & Hv & Hav & Hperm)|(_ & _ & Hno)]; [|by destruct (Hno u Hu); lia].
  assert (v = u) as ->.
  { apply list_elem_of_filter in Hu as [_ Hu]. apply list_elem_of_filter in Hv as [_ Hv].
    destruct (tiles_sep _ _ _ _ _ Ht Hv Hu) as [?|Hs]; [done|]. unfold MCB_SIZE in *. lia. }
  exists base, bs', lim, us'. split_and!; try done.
  - intros ->. pose proof (rep_tiles _ _ _ _ _ _ (ok_rep _ _ _ _ _ _ Hok')) as Ht'. simpl in Ht'.
    apply list_elem_of_filter in Hu as [_ Hu].
    destruct (tiles_in _ _ _ _ Ht Hu) as (? & ? & ? & _). unfold b_end, MCB_SIZE in *. lia.
  - apply (Permutation_cons_inv (a := u)). by rewrite <- Hperm, <- Hus.
Qed.

Definition bufmgr_Heap : Heap heap := {|
  malloc h n := vsf_bufmgr_malloc freed_list allocated_list h n;
  mfree h a := vsf_bufmgr_free freed_list allocated_list h a |}.

Definition bufmgr_Allocator : @Allocator heap bufmgr_Heap :=
  @Build_Allocator heap bufmgr_Heap heap_live heap_live_permut heap_live_apart heap_live_bounds
    heap_malloc_live heap_free_live.
End bufmgr.

(** ** Example *)

(** The heap of Bufmgr's example after allocations of the given sizes, and the
    objects handed out. *)
Definition demo_alloc (ns : list Z) : list obj * heap :=
  foldl (λ Ah n, match vsf_bufmgr_malloc 4 20 Ah.2 n with
                 | Some (p, h) => ((p, n) :: Ah.1, h)
                 | None => Ah
                 end) ([], demo_heap) ns.

Lemma demo_heap_live : heap_live 4 20 demo_heap [].
Proof.
  exists 0x1000, [Blk 0x1000 1012 Free], 0x1400, []. split_and!; [exact demo_heap_ok|done..].
Qed.

Lemma demo_alloc_live ns :
  Forall (λ n, 0 < n < 0x7fffffff) ns → Forall (λ x : obj, x.1 ≠ NULL) (demo_alloc ns).1 →
  heap_live 4 20 (demo_alloc ns).2 (demo_alloc ns).1.
Proof.
  induction ns as [|n ns IH] using rev_ind; intros Hns Hp; [exact demo_heap_live|].
  unfold demo_alloc in *. rewrite foldl_app in *. cbn [foldl] in *.
  apply Forall_app in Hns as [Hns [[Hn Hn2] _]%Forall_cons].
  destruct (foldl _ _ ns) as [A h]. simpl in IH. cbn [fst snd] in *.
  destruct (vsf_bufmgr_malloc 4 20 h n) as [[p h']|] eqn:Hm; [|auto].
  simpl in Hp. apply Forall_cons in Hp as [Hp HA].
  destruct (heap_malloc_live 4 20 h A n (IH Hns HA) Hn Hn2) as (p' & h2 & Hm' & Ho).
  rewrite Hm in Hm'. injection Hm' as <- <-. by destruct Ho as [[? _]|[_ ?]].
Qed.

#[export] Instance demo_Heap : Heap heap := bufmgr_Heap 4 20.
#[export] Instance demo_Allocator : Allocator heap := bufmgr_Allocator 4 20.
