(* ===== verification/Vsfhid.v ===== *)
(** * Vsfhid: HID report descriptors and reports (vsfhid.c)

    [vsfhid_parse_report] turns a report descriptor into a list of reports, each
    with the fields ([usages]) of its bit string; [vsfhid_process_input] decodes
    an input report and notifies the changed fields.  Reports, usages and value
    buffers are heap objects: they carry their address, and the allocator is the
    interface of Memory.  [None] is an access outside a buffer or an array.
    Bytes are read as on the little-endian targets, and [undef] is what an
    uninitialised local variable holds. *)

From S2P Require Import Prelude Chain Bitfield Bufmgr Memory.

(** Item tags (with the type bits). *)
Definition HID_LONG_ITEM (x : Z) : bool := x =? 0xFE.
Definition HID_ITEM_SIZE (x : Z) : Z := if Z.land x 3 =? 3 then 4 else Z.land x 3.
Definition HID_ITEM_TAG (x : Z) : Z := Z.land x 0xFC.
Definition HID_ITEM_INPUT : Z := 0x80.
Definition HID_ITEM_OUTPUT : Z := 0x90.
Definition HID_ITEM_FEATURE : Z := 0xB0.
Definition HID_ITEM_COLLECTION : Z := 0xA0.
Definition HID_ITEM_END_COLLECTION : Z := 0xC0.
Definition HID_ITEM_USAGE_PAGE : Z := 0x04.
Definition HID_ITEM_LOGI_MINI : Z := 0x14.
Definition HID_ITEM_LOGI_MAXI : Z := 0x24.
Definition HID_ITEM_REPORT_SIZE : Z := 0x74.
Definition HID_ITEM_REPORT_ID : Z := 0x84.
Definition HID_ITEM_REPORT_COUNT : Z := 0x94.
Definition HID_ITEM_USAGE : Z := 0x08.
Definition HID_ITEM_USAGE_MIN : Z := 0x18.
Definition HID_ITEM_USAGE_MAX : Z := 0x28.

(** [struct vsfhid_usage_t], at address [u_addr]. *)
Record vsfhid_usage_t := {
  u_addr : Z; u_page : Z; u_min : Z; u_max : Z; u_logical_min : Z; u_logical_max : Z;
  bit_offset : Z; bit_length : Z; u_size : Z; u_count : Z; data_flag : Z }.

Definition HID_USAGE_IS_VAR (u : vsfhid_usage_t) : bool := negb (Z.land (data_flag u) 2 =? 0).
Definition HID_USAGE_IS_REL (u : vsfhid_usage_t) : bool := negb (Z.land (data_flag u) 4 =? 0).

(** [struct vsfhid_report_t]; [value] is NULL or an address with its bytes. *)
Record vsfhid_report_t := {
  r_addr : Z; r_type : Z; r_id : Z; bitlen : Z; r_generic_usage : Z;
  value : option (Z * list Z); usage_list : list vsfhid_usage_t }.

(** [struct vsfhid_dev_t], the report list from its first element. *)
Record vsfhid_dev_t := { report_list : list vsfhid_report_t; report_has_id : bool }.

(** [struct hid_desc_t]; the physical range is neither written nor read. *)
Record hid_desc_t := {
  report_id : Z; collection : Z; report_size : Z; report_count : Z; usage_page : Z;
  usage_num : Z; logical_min : Z; logical_max : Z; usage_min : Z; usage_max : Z;
  generic_usage : Z; d_usages : list Z }.

(** The sizes of the heap objects on a 32-bit target. *)
Definition sizeof_usage : Z := 36.
Definition offsetof_list : Z := 32.
Definition sizeof_report : Z := 20.
Definition sizeof_desc : Z := 116.

Definition set_usage_num (d : hid_desc_t) (n : Z) : hid_desc_t :=
  {| report_id := report_id d; collection := collection d; report_size := report_size d;
     report_count := report_count d; usage_page := usage_page d; usage_num := n;
     logical_min := logical_min d; logical_max := logical_max d; usage_min := usage_min d;
     usage_max := usage_max d; generic_usage := generic_usage d; d_usages := d_usages d |}.
Definition set_range (d : hid_desc_t) (lo hi : Z) : hid_desc_t :=
  {| report_id := report_id d; collection := collection d; report_size := report_size d;
     report_count := report_count d; usage_page := usage_page d; usage_num := usage_num d;
     logical_min := logical_min d; logical_max := logical_max d; usage_min := lo;
     usage_max := hi; generic_usage := generic_usage d; d_usages := d_usages d |}.
Definition set_logical (d : hid_desc_t) (lo hi : Z) : hid_desc_t :=
  {| report_id := report_id d; collection := collection d; report_size := report_size d;
     report_count := report_count d; usage_page := usage_page d; usage_num := usage_num d;
     logical_min := lo; logical_max := hi; usage_min := usage_min d;
     usage_max := usage_max d; generic_usage := generic_usage d; d_usages := d_usages d |}.
Definition set_collection (d : hid_desc_t) (n : Z) : hid_desc_t :=
  {| report_id := report_id d; collection := n; report_size := report_size d;
     report_count := report_count d; usage_page := usage_page d; usage_num := usage_num d;
     logical_min := logical_min d; logical_max := logical_max d; usage_min := usage_min d;
     usage_max := usage_max d; generic_usage := generic_usage d; d_usages := d_usages d |}.
Definition set_page (d : hid_desc_t) (n : Z) : hid_desc_t :=
  {| report_id := report_id d; collection := collection d; report_size := report_size d;
     report_count := report_count d; usage_page := n; usage_num := usage_num d;
     logical_min := logical_min d; logical_max := logical_max d; usage_min := usage_min d;
     usage_max := usage_max d; generic_usage := generic_usage d; d_usages := d_usages d |}.
(** The layout: report id, size and count of the fields. *)
Definition set_layout (d : hid_desc_t) (id size count : Z) : hid_desc_t :=
  {| report_id := id; collection := collection d; report_size := size;
     report_count := count; usage_page := usage_page d; usage_num := usage_num d;
     logical_min := logical_min d; logical_max := logical_max d; usage_min := usage_min d;
     usage_max := usage_max d; generic_usage := generic_usage d; d_usages := d_usages d |}.
Definition set_d_usages (d : hid_desc_t) (generic : Z) (us : list Z) : hid_desc_t :=
  {| report_id := report_id d; collection := collection d; report_size := report_size d;
     report_count := report_count d; usage_page := usage_page d; usage_num := usage_num d;
     logical_min := logical_min d; logical_max := logical_max d; usage_min := usage_min d;
     usage_max := usage_max d; generic_usage := generic; d_usages := us |}.

Definition add_usage (r : vsfhid_report_t) (u : vsfhid_usage_t) : vsfhid_report_t :=
  {| r_addr := r_addr r; r_type := r_type r; r_id := r_id r; bitlen := bitlen r;
     r_generic_usage := r_generic_usage r; value := value r; usage_list := usage_list r ++ [u] |}.
Definition set_bitlen (r : vsfhid_report_t) (n : Z) : vsfhid_report_t :=
  {| r_addr := r_addr r; r_type := r_type r; r_id := r_id r; bitlen := n;
     r_generic_usage := r_generic_usage r; value := value r; usage_list := usage_list r |}.
Definition set_value (r : vsfhid_report_t) (v : option (Z * list Z)) : vsfhid_report_t :=
  {| r_addr := r_addr r; r_type := r_type r; r_id := r_id r; bitlen := bitlen r;
     r_generic_usage := r_generic_usage r; value := v; usage_list := usage_list r |}.
(** Report number [i] replaced. *)
Definition set_report (dev : vsfhid_dev_t) (i : nat) (r : vsfhid_report_t) : vsfhid_dev_t :=
  {| report_list := <[i := r]> (report_list dev); report_has_id := report_has_id dev |}.

(** The index of the first report of a type and id. *)
Fixpoint find_report (rs : list vsfhid_report_t) (type id : Z) : option nat :=
  match rs with
  | [] => None
  | r :: rs => if (r_type r =? type) && (r_id r =? id) then Some 0%nat
               else S <$> find_report rs type id
  end.

Section hid.
Context {M : Type} `{Heap M} (undef : Z).
Implicit Types (m : M) (dev : vsfhid_dev_t) (d : hid_desc_t) (r : vsfhid_report_t).

(** The index of the report, [None] for NULL. *)
Definition vsfhid_get_report dev d (type : Z) m : option (option nat * vsfhid_dev_t * M) :=
  match find_report (report_list dev) type (report_id d) with
  | Some i => Some (Some i, dev, m)
  | None =>
      '(p, m) ← malloc m sizeof_report;
      if decide (p = NULL) then Some (None, dev, m)
      else
        let r := {| r_addr := p; r_type := type;
                    r_id := if 0 <=? report_id d then s16 (report_id d) else -1;
                    bitlen := 0; r_generic_usage := u16 (generic_usage d);
                    value := None; usage_list := [] |} in
        Some (Some 0%nat,
              {| report_list := r :: report_list dev; report_has_id := report_has_id dev |}, m)
  end.

(** Allocate a usage, fill it and append it to report [i]; the flag tells
    whether there was memory. *)
Definition append_usage dev (i : nat) (u : Z → vsfhid_usage_t) m
    : option (bool * vsfhid_dev_t * M) :=
  r ← report_list dev !! i;
  '(p, m) ← malloc m sizeof_usage;
  if decide (p = NULL) then Some (false, dev, m)
  else Some (true, set_report dev i (add_usage r (u p)), m).

(** Both branches for a usage range are the same but for casts. *)
Definition range_usage r d (val p : Z) : vsfhid_usage_t :=
  {| u_addr := p; u_page := u16 (usage_page d); u_min := u8 (usage_min d);
     u_max := u8 (usage_max d); u_logical_min := logical_min d; u_logical_max := logical_max d;
     bit_offset := bitlen r; bit_length := s32 (report_size d * report_count d);
     u_size := report_size d; u_count := report_count d; data_flag := val |}.

(** Element [i] of an input item without a range. *)
Definition input_usage r d (val i id p : Z) : vsfhid_usage_t :=
  let len := s32 (report_size d * 1) in
  {| u_addr := p; u_page := u16 (usage_page d); u_min := u8 id; u_max := u8 id;
     u_logical_min := logical_min d; u_logical_max := logical_max d;
     bit_offset := s32 (bitlen r + i * len); bit_length := len;
     u_size := report_size d; u_count := 1; data_flag := val |}.

(** Element [i] of an output item without a range: [val] is the flag and
    [len] the bit length. *)
Definition output_usage r d (val i id len p : Z) : vsfhid_usage_t :=
  {| u_addr := p; u_page := u16 (usage_page d); u_min := u8 id; u_max := u8 id;
     u_logical_min := logical_min d; u_logical_max := logical_max d;
     bit_offset := s32 (bitlen r + u32 (i * len)); bit_length := s32 len;
     u_size := report_size d; u_count := report_count d; data_flag := val |}.

(** [for (i = 0; i < desc->report_count; i++)], [n] rounds left. *)
Fixpoint input_loop (n : nat) (i : Z) dev (k : nat) d (val : Z) m
    : option (bool * vsfhid_dev_t * M) :=
  match n with
  | O => Some (true, dev, m)
  | S n =>
      r ← report_list dev !! k;
      id ← getb (d_usages d) i;
      '(ok, dev, m) ← append_usage dev k (input_usage r d val i id) m;
      if ok : bool then input_loop n (i + 1) dev k d val m else Some (false, dev, m)
  end.

(** The output loop overwrites the item's flags by the bit length. *)
Fixpoint output_loop (n : nat) (i : Z) dev (k : nat) d (val : Z) m
    : option (bool * vsfhid_dev_t * M) :=
  match n with
  | O => Some (true, dev, m)
  | S n =>
      r ← report_list dev !! k;
      id ← getb (d_usages d) i;
      let len := u32 (Z.quot (s32 (report_size d * report_count d)) (usage_num d)) in
      '(ok, dev, m) ← append_usage dev k (output_usage r d val i id len) m;
      if ok : bool then output_loop n (i + 1) dev k d len m else Some (false, dev, m)
  end.

(** [report->bitlen += desc->report_size * desc->report_count]. *)
Definition grow dev (k : nat) d : option vsfhid_dev_t :=
  r ← report_list dev !! k;
  Some (set_report dev k (set_bitlen r (u16 (bitlen r + s32 (report_size d * report_count d))))).

(** The cases INPUT and OUTPUT: [type] says which. *)
Definition parse_main dev d (type val : Z) m : option (Z * hid_desc_t * vsfhid_dev_t * M) :=
  '(k, dev, m) ← vsfhid_get_report dev d type m;
  match k with
  | None => Some (VSFERR_FAIL, d, dev, m)
  | Some k =>
      if decide (usage_min d ≠ -1 ∧ usage_max d ≠ -1) then
        let d := set_usage_num d (s32 (usage_max d - usage_min d + 1)) in
        r ← report_list dev !! k;
        '(ok, dev, m) ← append_usage dev k (range_usage r d val) m;
        if ok : bool then
          let d := set_usage_num (set_range d (-1) (-1)) 0 in
          dev ← grow dev k d; Some (VSFERR_NONE, d, dev, m)
        else Some (VSFERR_FAIL, d, dev, m)
      else
        '(ok, dev, m) ← (if type =? HID_ITEM_INPUT
          then input_loop (Z.to_nat (report_count d)) 0 dev k d val m
          else output_loop (Z.to_nat (usage_num d)) 0 dev k d val m);
        if ok : bool then
          let d := set_usage_num d 0 in
          dev ← grow dev k d; Some (VSFERR_NONE, d, dev, m)
        else Some (VSFERR_FAIL, d, dev, m)
  end.

(** The item's data, unsigned and signed. *)
Definition item_value (buf : list Z) (p size : Z) : option Z :=
  if size =? 1 then getb buf p
  else if size =? 2 then b0 ← getb buf p; b1 ← getb buf (p + 1); Some (b0 + 256 * b1)
  else if size =? 4 then
    b0 ← getb buf p; b1 ← getb buf (p + 1); b2 ← getb buf (p + 2); b3 ← getb buf (p + 3);
    Some (b0 + 256 * (b1 + 256 * (b2 + 256 * b3)))
  else Some undef.
Definition item_signed (buf : list Z) (p size : Z) : option Z :=
  v ← item_value buf p size;
  Some (if size =? 1 then sgn 8 v else if size =? 2 then sgn 16 v else s32 v).

Definition vsfhid_parse_item dev d (tag size : Z) (buf : list Z) (p : Z) m
    : option (Z * hid_desc_t * vsfhid_dev_t * M) :=
  val ← item_value buf p size;
  let done d := Some (VSFERR_NONE, d, dev, m) in
  if tag =? HID_ITEM_INPUT then parse_main dev d HID_ITEM_INPUT val m
  else if tag =? HID_ITEM_OUTPUT then parse_main dev d HID_ITEM_OUTPUT val m
  else if tag =? HID_ITEM_FEATURE then
    '(k, dev, m) ← vsfhid_get_report dev d HID_ITEM_FEATURE m;
    Some (match k with None => VSFERR_FAIL | Some _ => VSFERR_NONE end, d, dev, m)
  else if tag =? HID_ITEM_COLLECTION then
    done (set_usage_num (set_collection d (s32 (collection d + 1))) 0)
  else if tag =? HID_ITEM_END_COLLECTION then done (set_collection d (s32 (collection d - 1)))
  else if tag =? HID_ITEM_USAGE_PAGE then done (set_page d (s32 val))
  else if tag =? HID_ITEM_LOGI_MINI then
    v ← item_signed buf p size; done (set_logical d v (logical_max d))
  else if tag =? HID_ITEM_LOGI_MAXI then
    v ← item_signed buf p size; done (set_logical d (logical_min d) v)
  else if tag =? HID_ITEM_REPORT_SIZE then
    done (set_layout d (report_id d) (s32 val) (report_count d))
  else if tag =? HID_ITEM_REPORT_ID then
    Some (VSFERR_NONE, set_layout d (s32 val) (report_size d) (report_count d),
          {| report_list := report_list dev; report_has_id := true |}, m)
  else if tag =? HID_ITEM_REPORT_COUNT then
    done (set_layout d (report_id d) (report_size d) (s32 val))
  else if tag =? HID_ITEM_USAGE then
    if u32 (usage_num d) <? 16 then
      us ← setb (d_usages d) (usage_num d) (s32 val);
      done (set_usage_num (set_d_usages d
              (if collection d =? 0 then s32 val else generic_usage d) us) (usage_num d + 1))
    else Some (VSFERR_NOT_ENOUGH_RESOURCES, d, dev, m)
  else if tag =? HID_ITEM_USAGE_MAX then done (set_range d (usage_min d) (s32 val))
  else if tag =? HID_ITEM_USAGE_MIN then done (set_range d (s32 val) (usage_max d))
  else done d.

(** [vsf_bufmgr_free] of every usage, value buffer and report.  A usage is given
    back by the pointer to its list node, not by its address. *)
Fixpoint free_reports (rs : list vsfhid_report_t) m : option M :=
  match rs with
  | [] => Some m
  | r :: rs =>
      m ← mfree_all ((λ u, u_addr u + offsetof_list) <$> usage_list r) m;
      m ← match value r with Some (p, _) => mfree m p | None => Some m end;
      m ← mfree m (r_addr r);
      free_reports rs m
  end.

Definition vsfhid_free_dev dev m : option M := free_reports (report_list dev) m.

(** The items from position [p]; [err] is the last error. *)
Fixpoint parse_loop (fuel : nat) dev d (buf : list Z) (p len err : Z) m
    : option (Z * hid_desc_t * vsfhid_dev_t * M) :=
  match fuel with
  | O => None
  | S fuel =>
      if p <? len then
        b ← getb buf p;
        if HID_LONG_ITEM b then
          size ← getb buf (p + 1);
          parse_loop fuel dev d buf (p + (size + 1)) len err m
        else
          let size := HID_ITEM_SIZE b in
          '(err, d, dev, m) ← vsfhid_parse_item dev d (HID_ITEM_TAG b) size buf (p + 1) m;
          if decide (err ≠ VSFERR_NONE) then Some (err, d, dev, m)
          else parse_loop fuel dev d buf (p + (size + 1)) len err m
      else Some (err, d, dev, m)
  end.

Definition desc0 : hid_desc_t :=
  {| report_id := -1; collection := 0; report_size := 0; report_count := 0; usage_page := 0;
     usage_num := 0; logical_min := 0; logical_max := 0; usage_min := -1; usage_max := -1;
     generic_usage := 0; d_usages := replicate 16 0 |}.

(** Without memory for the parser state the device is left as it was. *)
Definition vsfhid_parse_report dev (buf : list Z) (len : Z) m : option (Z * vsfhid_dev_t * M) :=
  '(pd, m) ← malloc m sizeof_desc;
  if decide (pd = NULL) then Some (VSFERR_FAIL, dev, m)
  else
    '(err, d, dev, m) ← parse_loop (S (Z.to_nat len))
      {| report_list := []; report_has_id := false |} desc0 buf 0 len undef m;
    if decide (collection d ≠ 0 ∨ err ≠ VSFERR_NONE) then
      m ← mfree m pd;
      m ← vsfhid_free_dev dev m;
      Some (VSFERR_FAIL, dev, m)
    else m ← mfree m pd; Some (VSFERR_NONE, dev, m).

Definition vsfhid_find_usage_page dev (page : Z) : Z :=
  foldl (λ ret r, foldl (λ ret u, if u_page u =? page then s32 (ret + 1) else ret)
                        ret (usage_list r)) 0 (report_list dev).

Definition vsfhid_get_max_input_size dev : Z :=
  u16 (Z.shiftr (foldl (λ mx r, if mx <? bitlen r then bitlen r else mx) 0 (report_list dev) + 7) 3).

(** [struct vsfhid_event_t]; [ev_usage] is the address of the usage. *)
Record vsfhid_event_t := {
  ev_page : Z; ev_id : Z; pre_value : Z; cur_value : Z; ev_usage : Z }.

(** The calls of [vsfhid.report] (when it is set). *)
Inductive hid_call := Event (generic : Z) (e : vsfhid_event_t) | Finish (generic : Z).

(** Element [i] of a usage: the event if the element changed.  [buf] starts at
    the first byte after the report id. *)
Definition process_element (buf old : list Z) (u : vsfhid_usage_t) (i : Z)
    : option (option vsfhid_event_t) :=
  let off := u8 (bit_offset u + i * u_size u) in
  cur ← buf_get_value buf off (u8 (u_size u));
  pre ← buf_get_value old off (u8 (u_size u));
  Some (if cur =? (if HID_USAGE_IS_REL u then 0 else pre) then None
        else Some {| ev_page := u_page u;
                     ev_id := if HID_USAGE_IS_VAR u then u16 (u_min u + i)
                              else if negb (cur =? 0) then u16 cur else u16 pre;
                     pre_value := s32 pre; cur_value := s32 cur; ev_usage := u_addr u |}).

Fixpoint process_elements (n : nat) (i : Z) (buf old : list Z) (u : vsfhid_usage_t)
    : option (list vsfhid_event_t) :=
  match n with
  | O => Some []
  | S n =>
      e ← process_element buf old u i;
      es ← process_elements n (i + 1) buf old u;
      Some (option_list e ++ es)
  end.

Fixpoint process_usages (us : list vsfhid_usage_t) (buf old : list Z)
    : option (list vsfhid_event_t) :=
  match us with
  | [] => Some []
  | u :: us =>
      es ← process_elements (Z.to_nat (u_count u)) 0 buf old u;
      es' ← process_usages us buf old;
      Some (es ++ es')
  end.

Definition vsfhid_process_input dev (buf : list Z) (len : Z) m
    : option (list hid_call * vsfhid_dev_t * M) :=
  '(id, off) ← (if report_has_id dev then b ← getb buf 0; Some (b, 1) else Some (-1, 0));
  match find_report (report_list dev) HID_ITEM_INPUT id with
  | None => Some ([], dev, m)
  | Some k =>
      r ← report_list dev !! k;
      '(v, m) ← match value r with
                | Some v => Some (Some v, m)
                | None =>
                    '(p, m) ← malloc m len;
                    Some (if decide (p = NULL) then (None, m)
                          else (Some (p, replicate (Z.to_nat len) 0), m))
                end;
      match v with
      | None => Some ([], dev, m)
      | Some (p, old) =>
          es ← process_usages (usage_list r) (drop (Z.to_nat off) buf) old;
          src ← read_at buf (Z.to_nat off) (Z.to_nat len);
          new ← memcpy old 0 src;
          let g := r_generic_usage r in
          Some ((Event g <$> es) ++ (if decide (es = []) then [] else [Finish g]),
                set_report dev k (set_value r (Some (p, new))), m)
      end
  end.
End hid.

(** ** What does not depend on the memory *)

Definition forget_usage (u : vsfhid_usage_t) : vsfhid_usage_t :=
  {| u_addr := 1; u_page := u_page u; u_min := u_min u; u_max := u_max u;
     u_logical_min := u_logical_min u; u_logical_max := u_logical_max u;
     bit_offset := bit_offset u; bit_length := bit_length u; u_size := u_size u;
     u_count := u_count u; data_flag := data_flag u |}.
Definition forget_report (r : vsfhid_report_t) : vsfhid_report_t :=
  {| r_addr := 1; r_type := r_type r; r_id := r_id r; bitlen := bitlen r;
     r_generic_usage := r_generic_usage r; value := (λ v, (1, v.2)) <$> value r;
     usage_list := forget_usage <$> usage_list r |}.

(** The device without the addresses of its objects. *)
Definition forget (dev : vsfhid_dev_t) : vsfhid_dev_t :=
  {| report_list := forget_report <$> report_list dev; report_has_id := report_has_id dev |}.

(** The objects a device owns. *)
Definition usage_obj (u : vsfhid_usage_t) : obj := (u_addr u, sizeof_usage).
Definition value_obj (v : Z * list Z) : obj := (v.1, Z.of_nat (length v.2)).
Definition report_objs (r : vsfhid_report_t) : list obj :=
  (usage_obj <$> usage_list r) ++ option_list (value_obj <$> value r) ++ [(r_addr r, sizeof_report)].
Definition objs (dev : vsfhid_dev_t) : list obj := report_list dev ≫= report_objs.

Lemma find_report_forget rs type id :
  find_report (forget_report <$> rs) type id = find_report rs type id.
Proof.
  induction rs as [|r rs IH]; [done|]. rewrite fmap_cons.
  cbn [find_report forget_report r_type r_id]. by rewrite IH.
Qed.

Lemma find_report_Some rs type id i :
  find_report rs type id = Some i → ∃ r, rs !! i = Some r ∧ r_type r = type ∧ r_id r = id.
Proof.
  revert i. induction rs as [|r rs IH]; intros i; [done|]. simpl.
  destruct (Z.eqb_spec (r_type r) type), (Z.eqb_spec (r_id r) id); simpl;
    try (intros (j & Hj & ->)%fmap_Some; apply IH; done).
  intros [= <-]. by exists r.
Qed.

Lemma set_report_forget dev i r :
  forget (set_report dev i r) = set_report (forget dev) i (forget_report r).
Proof. unfold forget, set_report. simpl. by rewrite list_fmap_insert. Qed.

(** Replacing a report exchanges its objects. *)
Lemma objs_set_report dev i r r' l :
  report_list dev !! i = Some r → report_objs r' ≡ₚ l ++ report_objs r →
  objs (set_report dev i r') ≡ₚ l ++ objs dev.
Proof.
  intros Hi Hr. unfold objs. simpl.
  rewrite (insert_take_drop _ _ _ (lookup_lt_Some _ _ _ Hi)).
  rewrite <- (take_drop_middle _ _ _ Hi) at 3.
  rewrite !bind_app, !bind_cons, Hr. solve_Permutation.
Qed.

Section refine.
Context {M : Type} `{Allocator M} (undef : Z) (A : list obj).
Implicit Types (m : M) (dev : vsfhid_dev_t) (d : hid_desc_t).

(** A step over any memory against the step over unlimited memory: when the latter
    is defined so is the former, the memory holds exactly the objects of the
    device, and unless the step ran [bad]ly it has the same result. *)
Definition sim {R} (bad : R → Prop) (o0 : option (R * vsfhid_dev_t * unit))
    (o : option (R * vsfhid_dev_t * M)) : Prop :=
  match o0 with
  | None => True
  | Some (r0, dev0, _) => ∃ r dev m, o = Some (r, dev, m) ∧ mem_live m (objs dev ++ A) ∧
      (bad r ∨ r = r0 ∧ forget dev = dev0)
  end.

Lemma sim_ret {R} (bad : R → Prop) r dev dev0 u m :
  mem_live m (objs dev ++ A) → forget dev = dev0 →
  sim bad (Some (r, dev0, u)) (Some (r, dev, m)).
Proof. intros Hm <-. exists r, dev, m. split_and!; [done..|]. by right. Qed.

Lemma sim_bad {R} (bad : R → Prop) r r0 dev dev0 u m :
  mem_live m (objs dev ++ A) → bad r → sim bad (Some (r0, dev0, u)) (Some (r, dev, m)).
Proof. intros Hm Hr. exists r, dev, m. split_and!; [done..|]. by left. Qed.

Lemma sim_bind {R S} (bad : R → Prop) (bad' : S → Prop) o0 o
    (k0 : R * vsfhid_dev_t * unit → option (S * vsfhid_dev_t * unit))
    (k : R * vsfhid_dev_t * M → option (S * vsfhid_dev_t * M)) :
  sim bad o0 o →
  (∀ r dev m, mem_live m (objs dev ++ A) → sim bad' (k0 (r, forget dev, tt)) (k (r, dev, m))) →
  (∀ r dev m, mem_live m (objs dev ++ A) → bad r →
     ∃ s dev' m', k (r, dev, m) = Some (s, dev', m') ∧ mem_live m' (objs dev' ++ A) ∧ bad' s) →
  sim bad' (o0 ≫= k0) (o ≫= k).
Proof.
  intros Ho Hk Hbad. destruct o0 as [[[r0 dev0] []]|]; [|done].
  destruct Ho as (r & dev & m & -> & Hm & [Hb|[-> <-]]); bindr; [|by apply Hk].
  destruct (Hbad r dev m Hm Hb) as (s & dev' & m' & -> & Hm' & Hs).
  destruct (k0 (r0, dev0, tt)) as [[[s0 dev0'] []]|]; [|done]. by apply sim_bad.
Qed.

(** No result of a step counts as a failure. *)
Definition never {R} (r : R) : Prop := False.

Lemma get_report_sim dev d type m :
  mem_live m (objs dev ++ A) →
  sim (λ k, k = None) (vsfhid_get_report (forget dev) d type tt) (vsfhid_get_report dev d type m).
Proof.
  intros Hm. unfold vsfhid_get_report. cbn [report_list forget]. rewrite find_report_forget.
  destruct (find_report (report_list dev) type (report_id d)); [by apply sim_ret|].
  destruct (malloc_spec m _ sizeof_report Hm) as (p & m' & Hp & Ho); [done..|].
  rewrite Hp. bindr. change (malloc tt sizeof_report) with (Some (1, tt)). bindr.
  rewrite (decide_False (P := 1 = NULL)) by done.
  destruct Ho as [[-> Hm']|[Hp0 Hm']].
  - rewrite decide_True by done. by apply sim_bad.
  - rewrite decide_False by done. by apply sim_ret.
Qed.

Lemma append_usage_sim dev i u0 u m :
  (∀ p, forget_usage (u p) = u0 1 ∧ u_addr (u p) = p) → mem_live m (objs dev ++ A) →
  sim (λ ok, ok = false) (append_usage (forget dev) i u0 tt) (append_usage dev i u m).
Proof.
  intros Hu Hm. unfold append_usage. cbn [report_list forget]. rewrite list_lookup_fmap.
  destruct (report_list dev !! i) as [r|] eqn:Hr; simpl fmap; bindr; [|done].
  destruct (malloc_spec m _ sizeof_usage Hm) as (p & m' & Hp & Ho); [done..|].
  rewrite Hp. bindr. change (malloc tt sizeof_usage) with (Some (1, tt)). bindr.
  rewrite (decide_False (P := 1 = NULL)) by done.
  destruct Ho as [[-> Hm']|[Hp0 Hm']].
  - rewrite decide_True by done. by apply sim_bad.
  - rewrite decide_False by done. apply sim_ret.
    + rewrite (objs_set_report dev i r (add_usage r (u p)) [(p, sizeof_usage)] Hr); [done|].
      assert (usage_obj (u p) = (p, sizeof_usage)) as Hobj.
      { unfold usage_obj. by destruct (Hu p) as [_ ->]. }
      unfold report_objs. cbn [usage_list value r_addr add_usage].
      rewrite fmap_app. cbn [fmap list_fmap]. rewrite Hobj. solve_Permutation.
    + rewrite set_report_forget. do 2 f_equal. unfold forget_report, add_usage. simpl.
      rewrite fmap_app. simpl. by destruct (Hu p) as [-> _].
Qed.

Ltac with_report i :=
  cbn [report_list forget]; rewrite list_lookup_fmap;
  match goal with |- context [report_list ?dev !! i] =>
    destruct (report_list dev !! i) as [r|] eqn:?; simpl fmap; bindr; [|done] end.

Lemma input_loop_sim n i dev k d val m :
  mem_live m (objs dev ++ A) →
  sim (λ ok, ok = false) (input_loop n i (forget dev) k d val tt) (input_loop n i dev k d val m).
Proof.
  revert i dev m. induction n as [|n IH]; intros i dev m Hm; cbn [input_loop]; [by apply sim_ret|].
  with_report k. destruct (getb (d_usages d) i) as [id|]; bindr; [|done].
  eapply sim_bind; [by apply append_usage_sim| |].
  - intros [] dev1 m1 Hm1; [by apply IH|by apply sim_ret].
  - intros ok dev1 m1 Hm1 ->. by do 3 eexists.
Qed.

Lemma output_loop_sim n i dev k d val m :
  mem_live m (objs dev ++ A) →
  sim (λ ok, ok = false) (output_loop n i (forget dev) k d val tt) (output_loop n i dev k d val m).
Proof.
  revert i dev val m. induction n as [|n IH]; intros i dev val m Hm; cbn [output_loop];
    [by apply sim_ret|].
  with_report k. destruct (getb (d_usages d) i) as [id|]; bindr; [|done].
  eapply sim_bind; [by apply append_usage_sim| |].
  - intros [] dev1 m1 Hm1; [by apply IH|by apply sim_ret].
  - intros ok dev1 m1 Hm1 ->. by do 3 eexists.
Qed.

Lemma grow_forget dev k d : grow (forget dev) k d = forget <$> grow dev k d.
Proof.
  unfold grow. cbn [report_list forget]. rewrite list_lookup_fmap.
  destruct (report_list dev !! k) as [r|]; simpl fmap; bindr; [|done].
  by rewrite set_report_forget.
Qed.

Lemma grow_objs dev k d dev' : grow dev k d = Some dev' → objs dev' ≡ₚ objs dev.
Proof.
  unfold grow. destruct (report_list dev !! k) as [r|] eqn:Hr; bindr; [|done]. intros [= <-].
  by apply (objs_set_report dev k r _ []).
Qed.

(** The end of an item: the report grows. *)
Lemma finish_sim dev k d d' m :
  mem_live m (objs dev ++ A) →
  sim (λ r : Z * hid_desc_t, r.1 = VSFERR_FAIL)
      (dev ← grow (forget dev) k d; Some (VSFERR_NONE, d', dev, tt))
      (dev ← grow dev k d; Some (VSFERR_NONE, d', dev, m)).
Proof.
  intros Hm. rewrite grow_forget. destruct (grow dev k d) as [dev'|] eqn:Hg; [|done].
  simpl fmap. bindr. apply sim_ret; [|done]. by rewrite (grow_objs _ _ _ _ Hg).
Qed.

Lemma parse_main_sim dev d type val m :
  mem_live m (objs dev ++ A) →
  sim (λ r, r.1 = VSFERR_FAIL) (parse_main (forget dev) d type val tt) (parse_main dev d type val m).
Proof.
  intros Hm. unfold parse_main. eapply sim_bind; [by apply get_report_sim| |].
  2:{ intros r dev1 m1 Hm1 ->. by do 3 eexists. }
  intros [k|] dev1 m1 Hm1; [|by apply sim_ret]. case_decide.
  - with_report k. eapply sim_bind; [by apply append_usage_sim| |].
    + intros [] dev2 m2 Hm2; [by apply finish_sim|by apply sim_ret].
    + intros ok dev2 m2 Hm2 ->. by do 3 eexists.
  - eapply sim_bind.
    + destruct (type =? HID_ITEM_INPUT); [by apply input_loop_sim|by apply output_loop_sim].
    + intros [] dev2 m2 Hm2; [by apply finish_sim|by apply sim_ret].
    + intros ok dev2 m2 Hm2 ->. by do 3 eexists.
Qed.

Lemma parse_item_sim dev d tag size buf p m :
  mem_live m (objs dev ++ A) →
  sim (λ r, r.1 = VSFERR_FAIL)
      (vsfhid_parse_item undef (forget dev) d tag size buf p tt)
      (vsfhid_parse_item undef dev d tag size buf p m).
Proof.
  intros Hm. unfold vsfhid_parse_item.
  destruct (item_value undef buf p size) as [val|]; bindr; [|done].
  destruct (tag =? HID_ITEM_INPUT); [by apply parse_main_sim|].
  destruct (tag =? HID_ITEM_OUTPUT); [by apply parse_main_sim|].
  destruct (tag =? HID_ITEM_FEATURE).
  { eapply sim_bind; [by apply get_report_sim| |].
    - intros [] ???; by apply sim_ret.
    - intros r dev1 m1 Hm1 ->. by do 3 eexists. }
  destruct (item_signed undef buf p size) as [v|]; bindr;
  destruct (setb (d_usages d) (usage_num d) (s32 val)); bindr;
  repeat match goal with |- sim _ (if ?b then _ else _) _ => destruct b end;
  try done; by apply sim_ret.
Qed.

Lemma parse_loop_sim fuel dev d buf p len err m :
  mem_live m (objs dev ++ A) →
  sim (λ r, r.1 = VSFERR_FAIL)
      (parse_loop undef fuel (forget dev) d buf p len err tt)
      (parse_loop undef fuel dev d buf p len err m).
Proof.
  revert dev d p err m. induction fuel as [|fuel IH]; intros dev d p err m Hm; [done|].
  cbn [parse_loop]. destruct (p <? len); [|by apply sim_ret].
  destruct (getb buf p) as [b|]; bindr; [|done]. destruct (HID_LONG_ITEM b).
  - destruct (getb buf (p + 1)) as [n|]; bindr; [|done]. by apply IH.
  - eapply sim_bind; [by apply parse_item_sim| |].
    + intros [err1 d1] dev1 m1 Hm1. case_decide; [by apply sim_ret|by apply IH].
    + intros [err1 d1] dev1 m1 Hm1 ?. simpl in *. subst err1. rewrite decide_True by done.
      by do 3 eexists.
Qed.

(** ** Releasing a device *)

Lemma free_usages us m B :
  mem_live m ((usage_obj <$> us) ++ B) →
  ∃ m', mfree_all ((λ u, u_addr u + offsetof_list) <$> us) m = Some m' ∧ mem_live m' B.
Proof.
  revert m. induction us as [|u us IH]; intros m Hm; [by exists m|].
  destruct (mfree_spec m _ _ _ offsetof_list Hm) as (m1 & Hf & Hm1); [done|].
  rewrite fmap_cons. cbn [mfree_all]. rewrite Hf. by apply IH.
Qed.

Lemma free_reports_live rs m B :
  mem_live m ((rs ≫= report_objs) ++ B) →
  ∃ m', free_reports rs m = Some m' ∧ mem_live m' B.
Proof.
  revert m. induction rs as [|r rs IH]; intros m Hm; [by exists m|].
  rewrite bind_cons, <- (assoc_L (++)) in Hm. unfold report_objs in Hm at 1.
  rewrite <- !(assoc_L (++)) in Hm.
  destruct (free_usages _ _ _ Hm) as (m1 & Hf1 & Hm1). cbn [free_reports]. rewrite Hf1. bindr.
  destruct (value r) as [v|]; simpl in Hm1.
  - destruct (mfree_object _ _ _ Hm1) as (m2 & Hf2 & Hm2).
    destruct (mfree_object _ _ _ Hm2) as (m3 & Hf3 & Hm3).
    destruct v as [a bs]. simpl in Hf2, Hf3. rewrite Hf2. bindr. rewrite Hf3. bindr. by apply IH.
  - destruct (mfree_object _ _ _ Hm1) as (m3 & Hf3 & Hm3).
    bindr. simpl in Hf3. rewrite Hf3. bindr. by apply IH.
Qed.
End refine.

(** ** The report parser *)

(** C28: parsing a report descriptor gives, over any memory, what it gives over an
    unlimited one, or fails.  On success the device differs from the ideal one
    only in the addresses of its objects, the memory has grown by exactly those
    objects, and [vsfhid_free_dev] gives all of them back; on failure (of the
    descriptor or of the memory) nothing is leaked.  In particular the parser
    terminates and leaves no buffer whenever it does so over unlimited memory. *)
Theorem vsfhid_parse_report_refines `{Allocator M} undef dev buf len (m : M) A e0 dev0 :
  mem_live m A →
  vsfhid_parse_report undef dev buf len tt = Some (e0, dev0, tt) →
  ∃ e dev' m', vsfhid_parse_report undef dev buf len m = Some (e, dev', m') ∧
    (e = VSFERR_FAIL ∧ mem_live m' A ∨
     e = VSFERR_NONE ∧ e0 = VSFERR_NONE ∧ forget dev' = dev0 ∧ mem_live m' (objs dev' ++ A) ∧
     ∃ m'', vsfhid_free_dev dev' m' = Some m'' ∧ mem_live m'' A).
Proof.
  intros Hm. unfold vsfhid_parse_report.
  change (malloc tt sizeof_desc) with (Some (1, tt)). bindr. rewrite decide_False by done.
  destruct (malloc_spec m _ sizeof_desc Hm) as (p & m1 & Hp & Ho); [done..|]. rewrite Hp. bindr.
  destruct Ho as [[-> Hm1]|[Hp0 Hm1]].
  { rewrite decide_True by done. intros _. do 3 eexists. split; [done|]. by left. }
  rewrite decide_False by done.
  pose proof (parse_loop_sim undef ((p, sizeof_desc) :: A) (S (Z.to_nat len))
    {| report_list := []; report_has_id := false |} desc0 buf 0 len undef m1 Hm1) as Hs.
  unfold forget in Hs. simpl fmap in Hs. cbn [report_list report_has_id] in Hs.
  destruct (parse_loop undef _ _ _ _ _ _ _ tt) as [[[[err0 d0] dev1] []]|]; [|done].
  bindr. destruct Hs as ([err d] & dev2 & m2 & -> & Hm2 & Hr). bindr. simpl in Hr.
  assert (Hmid : objs dev2 ++ (p, sizeof_desc) :: A ≡ₚ (p, sizeof_desc) :: objs dev2 ++ A)
    by solve_Permutation.
  rewrite Hmid in Hm2. destruct (mfree_object _ _ _ Hm2) as (m3 & Hf3 & Hm3). simpl in Hf3.
  destruct (free_reports_live (report_list dev2) m3 A Hm3) as (m4 & Hf4 & Hm4).
  intros He0. destruct (decide (collection d ≠ 0 ∨ err ≠ VSFERR_NONE)) as [Hc|Hc].
  - rewrite Hf3. bindr. unfold vsfhid_free_dev. rewrite Hf4. bindr.
    do 3 eexists. split; [done|]. by left.
  - rewrite Hf3. bindr. do 3 eexists. split; [done|]. right.
    destruct Hr as [->|[[= -> ->] <-]]; [by destruct Hc; right|].
    rewrite decide_False in He0 by done. cbn in He0. injection He0 as <- <-.
    split_and!; [done..|]. by exists m4.
Qed.

(** ** Example *)

(** A mouse: three buttons and the relative X and Y axes, then four bytes that
    belong to something else. *)
Definition mouse_desc : list Z :=
  [0x05; 0x01; 0x09; 0x02; 0xA1; 0x01; 0x09; 0x01; 0xA1; 0x00; 0x05; 0x09; 0x19; 0x01; 0x29; 0x03;
   0x15; 0x00; 0x25; 0x01; 0x95; 0x03; 0x75; 0x01; 0x81; 0x02; 0x95; 0x01; 0x75; 0x05; 0x81; 0x03;
   0x05; 0x01; 0x09; 0x30; 0x09; 0x31; 0x15; 0x81; 0x25; 0x7F; 0x75; 0x08; 0x95; 0x02; 0x81; 0x06;
   0xC0; 0xC0; 0; 0; 0; 0].
Definition no_dev : vsfhid_dev_t := {| report_list := []; report_has_id := false |}.
Definition mouse : vsfhid_dev_t :=
  match vsfhid_parse_report 0 no_dev mouse_desc 50 tt with Some (_, dev, _) => dev | None => no_dev end.

Example mouse_fields :
  (λ u, (bit_offset u, u_size u, u_count u, u_min u)) <$> (report_list mouse ≫= usage_list)
  = [(0, 1, 3, 1); (3, 5, 1, 1); (8, 8, 1, 0x30); (16, 8, 1, 0x31)].
Proof. reflexivity. Qed.

Lemma vsfhid_parse_report_refines_witness :
  ∃ e dev' m', vsfhid_parse_report 0 no_dev mouse_desc 50 demo_heap = Some (e, dev', m') ∧
    (e = VSFERR_FAIL ∧ heap_live 4 20 m' [] ∨
     e = VSFERR_NONE ∧ VSFERR_NONE = VSFERR_NONE ∧ forget dev' = mouse ∧
     heap_live 4 20 m' (objs dev' ++ []) ∧
     ∃ m'', vsfhid_free_dev dev' m' = Some m'' ∧ heap_live 4 20 m'' []).
Proof.
  refine (vsfhid_parse_report_refines 0 no_dev mouse_desc 50
    demo_heap [] VSFERR_NONE mouse demo_heap_live _).
  vm_compute. reflexivity.
Defined.
