(* ===== verification/HidParse.v ===== *)
(** * HidParse: termination of the report parser, layout of the reports

    The parser of Vsfhid terminates and makes no access outside its buffer and its
    usage array for descriptors whose report counts are small, and the fields it
    records for an input report are laid out one after the other. *)

From S2P Require Import Prelude Chain Memory Vsfhid.

(** The positions of the items of a descriptor. *)
Fixpoint item_starts (fuel : nat) (buf : list Z) (p len : Z) : list Z :=
  match fuel with
  | O => []
  | S fuel =>
      if p <? len then
        match getb buf p with
        | None => []
        | Some b =>
            let size := if HID_LONG_ITEM b then default 0 (getb buf (p + 1)) else HID_ITEM_SIZE b in
            p :: item_starts fuel buf (p + (size + 1)) len
        end
      else []
  end.

(** If the item at [q] is a report count, it is one between [lo] and [hi]. *)
Definition count_ok (undef : Z) (buf : list Z) (lo hi q : Z) : bool :=
  match getb buf q with
  | None => true
  | Some b =>
      negb (HID_ITEM_TAG b =? HID_ITEM_REPORT_COUNT) ||
      match item_value undef buf (q + 1) (HID_ITEM_SIZE b) with
      | None => false
      | Some v => (lo <=? s32 v) && (s32 v <=? hi)
      end
  end.

Definition counts_in (undef : Z) (buf : list Z) (len lo hi : Z) : bool :=
  forallb (count_ok undef buf lo hi) (item_starts (S (Z.to_nat len)) buf 0 len).

(** The item data is in the buffer. *)
Lemma item_value_in undef buf p size :
  0 ≤ p → p + 4 ≤ Z.of_nat (length buf) → ∃ v, item_value undef buf p size = Some v.
Proof.
  intros Hp Hl.
  assert (Hg : ∀ i, p ≤ i < p + 4 → ∃ b, getb buf i = Some b).
  { intros i Hi. destruct (lookup_lt_is_Some_2 buf (Z.to_nat i)) as [b Hb]; [lia|].
    exists b. apply getb_Some. split; [lia|done]. }
  destruct (Hg p) as [b0 H0], (Hg (p + 1)) as [b1 H1], (Hg (p + 2)) as [b2 H2],
    (Hg (p + 3)) as [b3 H3]; try lia.
  unfold item_value. rewrite H0, H1, H2, H3. bindr.
  destruct (size =? 1), (size =? 2), (size =? 4); by eexists.
Qed.

Lemma item_signed_in undef buf p size :
  0 ≤ p → p + 4 ≤ Z.of_nat (length buf) → ∃ v, item_signed undef buf p size = Some v.
Proof.
  intros Hp Hl. unfold item_signed. destruct (item_value_in undef buf p size) as [v ->]; [done..|].
  by eexists.
Qed.

(** ** Termination *)

Section total.
Context (undef : Z).
Implicit Types (dev : vsfhid_dev_t) (d : hid_desc_t).

(** The indices of the usage array stay inside it. *)
Record desc_ok d : Prop := {
  desc_usages : length (d_usages d) = 16%nat;
  desc_num : 0 ≤ usage_num d ≤ 16;
  desc_count : report_count d ≤ 16 }.

Lemma get_report_total dev d type :
  ∃ k dev', vsfhid_get_report dev d type tt = Some (Some k, dev', tt) ∧
    is_Some (report_list dev' !! k).
Proof.
  unfold vsfhid_get_report.
  destruct (find_report (report_list dev) type (report_id d)) as [k|] eqn:Hk.
  - apply find_report_Some in Hk as (r & Hr & _). do 2 eexists. by split.
  - cbn. do 2 eexists. split; [done|]. by eexists.
Qed.

Lemma append_usage_total dev k u :
  is_Some (report_list dev !! k) →
  ∃ dev', append_usage dev k u tt = Some (true, dev', tt) ∧ is_Some (report_list dev' !! k).
Proof.
  intros [r Hr]. unfold append_usage. rewrite Hr. cbn. eexists. split; [done|].
  cbn [report_list set_report]. rewrite list_lookup_insert_eq by (by eapply lookup_lt_Some). done.
Qed.

Lemma usage_in d i : desc_ok d → 0 ≤ i < 16 → ∃ id, getb (d_usages d) i = Some id.
Proof.
  intros [Hl _ _] Hi. destruct (lookup_lt_is_Some_2 (d_usages d) (Z.to_nat i)) as [b Hb]; [lia|].
  exists b. apply getb_Some. split; [lia|done].
Qed.

Lemma input_loop_total n i dev k d val :
  desc_ok d → is_Some (report_list dev !! k) → 0 ≤ i → i + Z.of_nat n ≤ 16 →
  ∃ dev', input_loop n i dev k d val tt = Some (true, dev', tt) ∧ is_Some (report_list dev' !! k).
Proof.
  intros Hd. revert i dev. induction n as [|n IH]; intros i dev [r Hr] Hi Hn; [by exists dev|].
  cbn [input_loop]. rewrite Hr. bindr. destruct (usage_in d i Hd) as [id ->]; [lia|]. bindr.
  destruct (append_usage_total dev k (input_usage r d val i id)) as (dev1 & -> & H1); [done|].
  bindr. apply IH; [done|lia..].
Qed.

Lemma output_loop_total n i dev k d val :
  desc_ok d → is_Some (report_list dev !! k) → 0 ≤ i → i + Z.of_nat n ≤ 16 →
  ∃ dev', output_loop n i dev k d val tt = Some (true, dev', tt) ∧ is_Some (report_list dev' !! k).
Proof.
  intros Hd. revert i dev val. induction n as [|n IH]; intros i dev val [r Hr] Hi Hn; [by exists dev|].
  cbn [output_loop]. rewrite Hr. bindr. destruct (usage_in d i Hd) as [id ->]; [lia|]. bindr.
  match goal with |- context [append_usage dev k ?u tt] =>
    destruct (append_usage_total dev k u) as (dev1 & -> & H1); [done|] end.
  bindr. apply IH; [done|lia..].
Qed.

Lemma grow_total dev k d :
  is_Some (report_list dev !! k) → ∃ dev', grow dev k d = Some dev'.
Proof. intros [r Hr]. unfold grow. rewrite Hr. by eexists. Qed.

Lemma parse_main_total dev d type val :
  desc_ok d →
  ∃ d' dev', parse_main dev d type val tt = Some (VSFERR_NONE, d', dev', tt) ∧ desc_ok d'.
Proof.
  intros Hd. pose proof Hd as [Hl Hn Hc]. unfold parse_main.
  destruct (get_report_total dev d type) as (k & dev1 & -> & H1). bindr. case_decide.
  - destruct H1 as [r Hr]. rewrite Hr. bindr.
    match goal with |- context [append_usage dev1 k ?u tt] =>
      destruct (append_usage_total dev1 k u) as (dev2 & -> & H2); [by exists r|] end. bindr.
    match goal with |- context [grow dev2 k ?e] =>
      destruct (grow_total dev2 k e H2) as [dev3 ->] end. bindr.
    do 2 eexists. split; [done|]. split; [done|simpl; lia|done].
  - assert (Hloop : ∃ dev2, (if type =? HID_ITEM_INPUT
        then input_loop (Z.to_nat (report_count d)) 0 dev1 k d val tt
        else output_loop (Z.to_nat (usage_num d)) 0 dev1 k d val tt) = Some (true, dev2, tt) ∧
        is_Some (report_list dev2 !! k)).
    { destruct (type =? HID_ITEM_INPUT);
        [apply input_loop_total|apply output_loop_total]; try done; lia. }
    destruct Hloop as (dev2 & -> & H2). bindr.
    destruct (grow_total dev2 k (set_usage_num d 0) H2) as [dev3 ->]. bindr.
    do 2 eexists. split; [done|]. split; [done|simpl; lia|done].
Qed.

Lemma u32_num d : desc_ok d → u32 (usage_num d) = usage_num d.
Proof. intros [_ Hn _]. apply u32_small. lia. Qed.

Lemma parse_item_total dev d tag size buf p :
  desc_ok d → 0 ≤ p → p + 4 ≤ Z.of_nat (length buf) →
  (tag = HID_ITEM_REPORT_COUNT → ∀ v, item_value undef buf p size = Some v → s32 v ≤ 16) →
  ∃ err d' dev', vsfhid_parse_item undef dev d tag size buf p tt = Some (err, d', dev', tt) ∧
    desc_ok d'.
Proof.
  intros Hd Hp Hl Hcount. pose proof Hd as [Hdl Hdn Hdc]. unfold vsfhid_parse_item.
  destruct (item_value_in undef buf p size) as [val Hval]; [done..|]. rewrite Hval. bindr.
  destruct (item_signed_in undef buf p size) as [v ->]; [done..|]. bindr.
  assert (Hmain : ∀ type, ∃ err d' dev', parse_main dev d type val tt = Some (err, d', dev', tt) ∧
    desc_ok d').
  { intros type. destruct (parse_main_total dev d type val Hd) as (d' & dev' & ? & ?). eauto. }
  destruct (tag =? HID_ITEM_INPUT); [apply Hmain|].
  destruct (tag =? HID_ITEM_OUTPUT); [apply Hmain|].
  destruct (tag =? HID_ITEM_FEATURE).
  { destruct (get_report_total dev d HID_ITEM_FEATURE) as (k & dev1 & -> & _). bindr. eauto. }
  do 7 (case_match; [do 3 eexists; split; [done|]; split; (done || simpl; lia)|]).
  destruct (Z.eqb_spec tag HID_ITEM_REPORT_COUNT) as [->|_].
  { do 3 eexists. split; [done|]. split; [done..|]. by apply Hcount. }
  destruct (tag =? HID_ITEM_USAGE).
  { rewrite u32_num by done. destruct (Z.ltb_spec (usage_num d) 16); [|eauto].
    rewrite setb_in by (rewrite Hdl; lia). bindr. do 3 eexists. split; [done|].
    split; [simpl; by rewrite length_insert|simpl; lia|done]. }
  repeat (case_match; [do 3 eexists; split; [done|]; split; (done || simpl; lia)|]).
  eauto.
Qed.

Lemma item_size_range b : 0 ≤ HID_ITEM_SIZE b ≤ 4.
Proof.
  unfold HID_ITEM_SIZE. destruct (Z.eqb_spec (Z.land b 3) 3); [lia|].
  change 3 with (Z.ones 2). rewrite Z.land_ones by lia. pose proof (Z.mod_pos_bound b (2 ^ 2)). lia.
Qed.

Lemma parse_loop_total fuel dev d buf p len err :
  desc_ok d → Forall (fits 8) buf → 0 ≤ p → len + 4 ≤ Z.of_nat (length buf) →
  (Z.to_nat (len - p) < fuel)%nat →
  forallb (count_ok undef buf (-2147483648) 16) (item_starts fuel buf p len) = true →
  ∃ err' d' dev', parse_loop undef fuel dev d buf p len err tt = Some (err', d', dev', tt).
Proof.
  intros Hd Hbuf. revert dev d p err Hd. induction fuel as [|fuel IH]; intros dev d p err Hd Hp Hl Hf Hc;
    [lia|].
  cbn [parse_loop item_starts] in *. destruct (Z.ltb_spec p len) as [Hpl|]; [|by do 3 eexists].
  destruct (lookup_lt_is_Some_2 buf (Z.to_nat p)) as [b Hb]; [lia|].
  assert (Hgb : getb buf p = Some b) by (by apply getb_Some). rewrite Hgb in *. bindr.
  cbn [forallb] in Hc. apply andb_prop in Hc as [Hc0 Hc]. destruct (HID_LONG_ITEM b).
  - destruct (lookup_lt_is_Some_2 buf (Z.to_nat (p + 1))) as [n Hn]; [lia|].
    assert (Hgn : getb buf (p + 1) = Some n) by (apply getb_Some; split; [lia|done]).
    rewrite Hgn in *. bindr. unfold default, id in Hc.
    pose proof (Forall_lookup_1 _ _ _ _ Hbuf Hn) as [Hn0 _].
    apply IH; [done|lia..|done].
  - pose proof (item_size_range b). edestruct (parse_item_total dev d (HID_ITEM_TAG b)
      (HID_ITEM_SIZE b) buf (p + 1)) as (err1 & d1 & dev1 & -> & Hd1); [done|lia|lia| |].
    + intros Ht v Hv. unfold count_ok in Hc0. rewrite Hgb, Ht, Hv in Hc0. simpl in Hc0. lia.
    + bindr. case_decide; [by do 3 eexists|]. apply IH; [done|lia..|done].
Qed.
End total.

(** C29: the report parser terminates and reads at most four bytes behind its
    descriptor.  For every descriptor with four readable bytes behind it, whose
    report counts are at most the 16 usages the parser can hold, parsing makes no
    other access outside its buffers and returns an error or a device, whatever
    the items are and in whatever order they come.  The four bytes are needed: an
    item cut off by the end of the descriptor is read whole ([cut_item_overruns]). *)
Theorem vsfhid_parse_report_total undef dev buf len :
  Forall (fits 8) buf → 0 ≤ len → len + 4 ≤ Z.of_nat (length buf) →
  counts_in undef buf len (-2147483648) 16 = true →
  ∃ e dev', vsfhid_parse_report undef dev buf len tt = Some (e, dev', tt) ∧
    (e = VSFERR_NONE ∨ e = VSFERR_FAIL).
Proof.
  intros Hb H0 Hl Hc. unfold vsfhid_parse_report.
  change (malloc tt sizeof_desc) with (Some (1, tt)). bindr. rewrite decide_False by done.
  destruct (parse_loop_total undef (S (Z.to_nat len)) {| report_list := []; report_has_id := false |}
    desc0 buf 0 len undef) as (err & d & dev1 & ->); [by split|done|lia|done|lia|exact Hc|].
  assert (Hfree : ∀ ps, mfree_all ps tt = Some tt) by (induction ps; [done|]; cbn; done).
  assert (Hfr : ∀ rs, free_reports rs tt = Some tt).
  { induction rs as [|r rs IH]; [done|]. cbn [free_reports]. rewrite Hfree. bindr.
    by destruct (value r) as [[]|]. }
  bindr. case_decide; cbn; unfold vsfhid_free_dev; rewrite ?Hfr; cbn; do 2 eexists; eauto.
Qed.

(** ** The layout of input reports *)

(** The fields lie one after the other from bit [o] to bit [e]. *)
Fixpoint placed (o : Z) (us : list vsfhid_usage_t) (e : Z) : Prop :=
  match us with
  | [] => o = e
  | u :: us => bit_offset u = o ∧ placed (o + u_size u * u_count u) us e
  end.

Definition total (us : list vsfhid_usage_t) : Z := foldr (λ u n, u_size u * u_count u + n) 0 us.
Definition sized (u : vsfhid_usage_t) : Prop := 0 ≤ u_size u ∧ 0 ≤ u_count u.

Lemma placed_end o us e : placed o us e → e = o + total us.
Proof. revert o. induction us as [|u us IH]; simpl; intros o; [lia|]. intros [_ H%IH]. lia. Qed.

Lemma placed_app o us vs e :
  placed o (us ++ vs) e ↔ ∃ m, placed o us m ∧ placed m vs e.
Proof.
  revert o. induction us as [|u us IH]; intros o; simpl.
  - split; [by eexists|]. by intros (m & -> & ?).
  - setoid_rewrite IH. split.
    + intros (? & m & ? & ?). by exists m.
    + intros (m & (? & ?) & ?). eauto.
Qed.

Lemma total_app us vs : total (us ++ vs) = total us + total vs.
Proof. induction us as [|u us IH]; simpl; [done|]. lia. Qed.

Lemma total_nonneg us : Forall sized us → 0 ≤ total us.
Proof. induction 1 as [|u us [? ?] _ IH]; simpl; [lia|nia]. Qed.

(** The fields of an input report fill its bit string, as long as their sizes are
    not negative and sum up to a 16-bit length. *)
Definition report_layout (r : vsfhid_report_t) : Prop :=
  r_type r = HID_ITEM_INPUT → Forall sized (usage_list r) → total (usage_list r) < 65536 →
  placed 0 (usage_list r) (bitlen r).

(** [k] elements of [size] bits from bit [o]. *)
Definition elements (o size : Z) (us : list vsfhid_usage_t) : Prop :=
  ∀ j u, us !! j = Some u →
    bit_offset u = s32 (o + Z.of_nat j * s32 size) ∧ u_size u = size ∧ u_count u = 1.

Lemma elements_placed o size us :
  0 ≤ o → Forall sized us → elements o size us → o + total us < 65536 →
  placed o us (o + Z.of_nat (length us) * size).
Proof.
  intros Ho Hs He Hb.
  assert (Hsz : us = [] ∨ 0 ≤ size).
  { destruct us as [|u us]; [by left|]. right. destruct (He 0%nat u eq_refl) as (_ & <- & _).
    by apply Forall_cons in Hs as [[? _] _]. }
  destruct Hsz as [->|Hsz]; [simpl; lia|].
  assert (Hgen : ∀ n, (∀ j u, us !! j = Some u → bit_offset u = s32 (o + (n + Z.of_nat j) * s32 size)
      ∧ u_size u = size ∧ u_count u = 1) → 0 ≤ n → o + n * size + total us < 65536 →
      placed (o + n * size) us (o + n * size + Z.of_nat (length us) * size)).
  { clear He Hb. induction us as [|u us IH]; intros n He Hn Hb; [simpl; lia|].
    destruct (He 0%nat u eq_refl) as (Hoff & Hsu & Hcu). simpl in Hb. rewrite Hsu, Hcu in Hb.
    apply Forall_cons in Hs as [_ Hs]. pose proof (total_nonneg us Hs) as Ht.
    assert (Hs32 : ∀ x, 0 ≤ x < 65536 → s32 x = x).
    { intros x Hx. unfold s32, sgn. rewrite Z.mod_small by lia. by destruct (Z.ltb_spec x (2 ^ (32 - 1))); [|lia]. }
    simpl. rewrite Hsu, Hcu. split.
    - rewrite Hoff. rewrite (Hs32 size) by nia. rewrite Hs32 by nia. lia.
    - replace (o + n * size + size * 1) with (o + (n + 1) * size) by lia.
      replace (o + n * size + Z.of_nat (S (length us)) * size)
        with (o + (n + 1) * size + Z.of_nat (length us) * size) by lia.
      apply IH; [done| |lia|lia]. intros j v Hj.
      destruct (He (S j) v Hj) as (-> & ? & ?). split; [do 2 f_equal; lia|done]. }
  specialize (Hgen 0). rewrite Z.mul_0_l, Z.add_0_r in Hgen. apply Hgen; [|lia|lia].
  intros j u Hj. by rewrite Z.add_0_l; apply He.
Qed.

Section layout.
Context {M : Type} `{Heap M} (undef : Z).
Implicit Types (m : M) (dev : vsfhid_dev_t) (d : hid_desc_t).

Definition dev_layout dev : Prop := Forall report_layout (report_list dev).

(** Only report [k] has changed, and only by [us] at the end of its fields. *)
Definition appended dev (k : nat) (us : list vsfhid_usage_t) dev' : Prop :=
  report_has_id dev' = report_has_id dev ∧
  ∀ r, report_list dev !! k = Some r →
    ∃ r', report_list dev' = <[k := r']> (report_list dev) ∧ r_type r' = r_type r ∧
      bitlen r' = bitlen r ∧ usage_list r' = usage_list r ++ us.

Lemma append_usage_appended dev k u m dev' m' :
  append_usage dev k u m = Some (true, dev', m') → ∃ p, appended dev k [u p] dev'.
Proof.
  unfold append_usage. destruct (report_list dev !! k) as [r|] eqn:Hr; bindr; [|done].
  destruct (malloc m sizeof_usage) as [[p m1]|]; bindr; [|done]. case_decide; [done|].
  intros [= <- <-]. exists p. split; [done|]. intros r0 Hr0. rewrite Hr in Hr0. injection Hr0 as <-.
  by exists (add_usage r (u p)).
Qed.

Lemma appended_cons dev k u us dev1 dev' :
  is_Some (report_list dev !! k) →
  appended dev k [u] dev1 → appended dev1 k us dev' → appended dev k (u :: us) dev'.
Proof.
  intros [r0 Hr0] [Hid H1] [Hid' H2]. split; [congruence|]. intros r Hr. destruct (H1 r Hr) as (r1 & He1 & Ht1 & Hb1 & Hu1).
  destruct (H2 r1) as (r2 & He2 & Ht2 & Hb2 & Hu2).
  { rewrite He1. apply list_lookup_insert_eq. by eapply lookup_lt_Some. }
  exists r2. rewrite He2, He1, list_insert_insert_eq. split_and!; try congruence.
  rewrite Hu2, Hu1. by rewrite <- (assoc_L (++)).
Qed.

Lemma input_loop_elements n i dev k d val m dev' m' r :
  report_list dev !! k = Some r →
  input_loop n i dev k d val m = Some (true, dev', m') →
  ∃ us, appended dev k us dev' ∧ length us = n ∧
    ∀ j u, us !! j = Some u → bit_offset u = s32 (bitlen r + (i + Z.of_nat j) * s32 (report_size d)) ∧
      u_size u = report_size d ∧ u_count u = 1.
Proof.
  revert i dev m r. induction n as [|n IH]; intros i dev m r Hr; cbn [input_loop].
  - intros [= <- <-]. exists []. split_and!; try done. split; [done|]. intros r0 H0.
    exists r0. rewrite list_insert_id by done. by rewrite app_nil_r.
  - rewrite Hr. bindr. destruct (getb (d_usages d) i) as [id|]; bindr; [|done].
    destruct (append_usage dev k _ m) as [[[ok dev1] m1]|] eqn:Ha; bindr; [|done].
    destruct ok; [|done]. destruct (append_usage_appended _ _ _ _ _ _ Ha) as (p & Hp).
    destruct Hp as [Hid Hp]. destruct (Hp r Hr) as (r1 & He1 & Ht1 & Hb1 & Hu1). intros Hl.
    destruct (IH (i + 1) dev1 m1 r1) as (us & Hus & Hlen & Hel); [|exact Hl|].
    { rewrite He1. apply list_lookup_insert_eq. by eapply lookup_lt_Some. }
    exists (input_usage r d val i id p :: us). split_and!; [|simpl; lia|].
    + apply (appended_cons dev k _ us dev1); [by eexists|by split|done].
    + intros [|j] u; simpl.
      * intros [= <-]. simpl. rewrite Z.add_0_r, Z.mul_1_r. done.
      * intros Hj. destruct (Hel j u Hj) as (-> & ? & ?). rewrite Hb1. split; [|done]. do 2 f_equal. lia.
Qed.

Lemma output_loop_appended n i dev k d val m dev' m' :
  is_Some (report_list dev !! k) →
  output_loop n i dev k d val m = Some (true, dev', m') → ∃ us, appended dev k us dev'.
Proof.
  revert i dev val m. induction n as [|n IH]; intros i dev val m Hk; cbn [output_loop].
  - intros [= <- <-]. exists []. split; [done|]. intros r0 H0.
    exists r0. rewrite list_insert_id by done. by rewrite app_nil_r.
  - destruct Hk as [r Hr]. rewrite Hr. bindr. destruct (getb (d_usages d) i) as [id|]; bindr; [|done].
    destruct (append_usage dev k _ m) as [[[ok dev1] m1]|] eqn:Ha; bindr; [|done].
    destruct ok; [|done]. destruct (append_usage_appended _ _ _ _ _ _ Ha) as (p & Hp).
    intros Hl. destruct (IH _ _ _ _ ltac:(
      destruct Hp as [_ Hp]; destruct (Hp r Hr) as (r1 & -> & _);
      rewrite list_lookup_insert_eq by (by eapply lookup_lt_Some); done) Hl) as (us & Hus).
    eexists. eapply (appended_cons dev k); [by eexists|exact Hp|exact Hus].
Qed.

(** A report that grew by placed fields keeps the layout. *)
Lemma grow_layout dev dev1 dev' k d us r :
  dev_layout dev → report_list dev !! k = Some r → appended dev k us dev1 →
  grow dev1 k d = Some dev' →
  (r_type r = HID_ITEM_INPUT → Forall sized us → 0 ≤ bitlen r → bitlen r + total us < 65536 →
   placed (bitlen r) us (bitlen r + total us) ∧ total us = s32 (report_size d * report_count d)) →
  dev_layout dev'.
Proof.
  intros Hdev Hr [_ Ha] Hg Hus. destruct (Ha r Hr) as (r1 & He1 & Ht1 & Hb1 & Hu1).
  unfold grow in Hg. rewrite He1 in Hg.
  rewrite list_lookup_insert_eq in Hg by (by eapply lookup_lt_Some). cbn in Hg. injection Hg as <-.
  unfold dev_layout. cbn [report_list set_report]. rewrite He1, list_insert_insert_eq.
  apply Forall_insert; [done|]. intros Hty Hs Hb. cbn [usage_list bitlen set_bitlen r_type] in *.
  rewrite Hu1 in *. apply Forall_app in Hs as [Hs1 Hs2]. rewrite total_app in Hb.
  pose proof (total_nonneg _ Hs1). pose proof (total_nonneg _ Hs2).
  pose proof (Forall_lookup_1 _ _ _ _ Hdev Hr ltac:(congruence) Hs1 ltac:(lia)) as Hp.
  pose proof (placed_end _ _ _ Hp) as He.
  destruct Hus as [Hpl Ht]; [congruence|done|lia|lia|].
  rewrite Hb1, <- Ht, u16_small by lia. apply placed_app. exists (bitlen r). by split.
Qed.

Lemma get_report_layout dev d type m k dev' m' :
  dev_layout dev → vsfhid_get_report dev d type m = Some (Some k, dev', m') →
  dev_layout dev' ∧ ∃ r, report_list dev' !! k = Some r ∧ r_type r = type.
Proof.
  intros Hdev. unfold vsfhid_get_report.
  destruct (find_report (report_list dev) type (report_id d)) as [i|] eqn:Hi.
  - intros [= <- <- <-]. apply find_report_Some in Hi as (r & Hr & Ht & _). eauto.
  - destruct (malloc m sizeof_report) as [[p m1]|]; bindr; [|done]. case_decide; [done|].
    intros [= <- <- <-]. split; [|eexists; split; [done|done]]. by constructor.
Qed.

Lemma parse_main_layout dev d type val m d' dev' m' :
  dev_layout dev → 0 ≤ report_count d →
  parse_main dev d type val m = Some (VSFERR_NONE, d', dev', m') → dev_layout dev'.
Proof.
  intros Hdev Hc. unfold parse_main.
  destruct (vsfhid_get_report dev d type m) as [[[[k|] dev1] m1]|] eqn:Hk; bindr; [|done..].
  destruct (get_report_layout _ _ _ _ _ _ _ Hdev Hk) as (Hdev1 & r & Hr & Hty). case_decide.
  - rewrite Hr. bindr.
    destruct (append_usage dev1 k _ m1) as [[[[] dev2] m2]|] eqn:Ha; bindr; [|done..].
    destruct (append_usage_appended _ _ _ _ _ _ Ha) as (p & Hp).
    destruct (grow dev2 k _) as [dev3|] eqn:Hg; bindr; [|done]. intros [= <- <- <-].
    apply (grow_layout dev1 dev2 dev3 k _ _ r Hdev1 Hr Hp Hg).
    cbn [report_size report_count set_usage_num set_range]. cbn. intros _ [[??] _]%Forall_cons ? ?.
    cbn in *. assert (Hs : s32 (report_size d * report_count d) = report_size d * report_count d).
    { unfold s32, sgn. rewrite Z.mod_small by lia.
      destruct (Z.ltb_spec (report_size d * report_count d) (2 ^ (32 - 1))); lia. }
    rewrite Hs. lia.
  - destruct (type =? HID_ITEM_INPUT) eqn:Hin.
    + destruct (input_loop _ _ _ _ _ _ m1) as [[[[] dev2] m2]|] eqn:Hl; bindr; [|done..].
      destruct (grow dev2 k _) as [dev3|] eqn:Hg; bindr; [|done]. intros [= <- <- <-].
      destruct (input_loop_elements _ _ _ _ _ _ _ _ _ r Hr Hl) as (us & Hus & Hlen & Hel).
      apply (grow_layout dev1 dev2 dev3 k _ us r Hdev1 Hr Hus Hg).
      cbn [report_size report_count set_usage_num]. intros _ Hsz Hb0 Hb.
      pose proof (elements_placed (bitlen r) (report_size d) us Hb0 Hsz Hel Hb) as Hpl.
      pose proof (placed_end _ _ _ Hpl) as He. pose proof (total_nonneg us Hsz).
      rewrite He in Hpl. split; [done|].
      assert (Z.of_nat (length us) = report_count d) by lia.
      unfold s32, sgn. rewrite Z.mod_small by nia.
      destruct (Z.ltb_spec (report_size d * report_count d) (2 ^ (32 - 1))); nia.
    + destruct (output_loop _ _ _ _ _ _ m1) as [[[[] dev2] m2]|] eqn:Hl; bindr; [|done..].
      destruct (grow dev2 k _) as [dev3|] eqn:Hg; bindr; [|done]. intros [= <- <- <-].
      destruct (output_loop_appended _ _ _ _ _ _ _ _ _ ltac:(by exists r) Hl) as (us & Hus).
      apply (grow_layout dev1 dev2 dev3 k _ us r Hdev1 Hr Hus Hg). intros Ht. exfalso.
      apply Z.eqb_neq in Hin. congruence.
Qed.

(** The report count is only changed by its own item. *)
Lemma parse_main_count dev d type val m err d' dev' m' :
  parse_main dev d type val m = Some (err, d', dev', m') → report_count d' = report_count d.
Proof.
  unfold parse_main.
  destruct (vsfhid_get_report dev d type m) as [[[[k|] dev1] m1]|]; bindr; [|intros [= <- <-]; done|done].
  case_decide; [destruct (report_list dev1 !! k); bindr; [|done]|];
    match goal with |- (?o ≫= _) = _ → _ => destruct o as [[[[] dev2] m2]|] end; bindr; try done;
    try (destruct (grow dev2 k _); bindr); by intros [= <- <-].
Qed.

Lemma parse_item_layout dev d tag size buf p m d' dev' m' :
  dev_layout dev → 0 ≤ report_count d →
  (tag = HID_ITEM_REPORT_COUNT → ∀ v, item_value undef buf p size = Some v → 0 ≤ s32 v) →
  vsfhid_parse_item undef dev d tag size buf p m = Some (VSFERR_NONE, d', dev', m') →
  dev_layout dev' ∧ 0 ≤ report_count d'.
Proof.
  intros Hdev Hc Hcount. unfold vsfhid_parse_item.
  destruct (item_value undef buf p size) as [val|] eqn:Hval; bindr; [|done].
  assert (Hmain : ∀ type, parse_main dev d type val m = Some (VSFERR_NONE, d', dev', m') →
    dev_layout dev' ∧ 0 ≤ report_count d').
  { intros type Hp. split; [by eapply parse_main_layout|].
    by rewrite (parse_main_count _ _ _ _ _ _ _ _ _ Hp). }
  destruct (tag =? HID_ITEM_INPUT); [apply Hmain|].
  destruct (tag =? HID_ITEM_OUTPUT); [apply Hmain|].
  destruct (tag =? HID_ITEM_FEATURE).
  { destruct (vsfhid_get_report _ _ _ _) as [[[[k|] dev1] m1]|] eqn:Hk; bindr; [|done..].
    destruct (get_report_layout _ _ _ _ _ _ _ Hdev Hk) as [? _]. by intros [= <- <- <-]. }
  destruct (Z.eqb_spec tag HID_ITEM_REPORT_COUNT) as [->|_].
  { cbn. intros [= <- <- <-]. split; [done|]. by apply Hcount. }
  destruct (item_signed undef buf p size) as [v|]; bindr;
  destruct (setb (d_usages d) (usage_num d) (s32 val)); bindr;
  repeat match goal with |- (if ?b then _ else _) = _ → _ => destruct b end;
  try done; by intros [= <- <- <-].
Qed.

Lemma parse_loop_layout fuel dev d buf p len err m d' dev' m' :
  dev_layout dev → 0 ≤ report_count d →
  forallb (count_ok undef buf 0 2147483647) (item_starts fuel buf p len) = true →
  parse_loop undef fuel dev d buf p len err m = Some (VSFERR_NONE, d', dev', m') →
  dev_layout dev'.
Proof.
  revert dev d p err m. induction fuel as [|fuel IH]; intros dev d p err m Hdev Hc Hok; [done|].
  cbn [parse_loop item_starts] in *. destruct (p <? len); [|by intros [= _ _ <- _]].
  destruct (getb buf p) as [b|] eqn:Hb; bindr; [|done].
  cbn [forallb] in Hok. apply andb_prop in Hok as [Hok0 Hok]. destruct (HID_LONG_ITEM b).
  - destruct (getb buf (p + 1)) as [n|]; bindr; [|done]. by apply IH.
  - destruct (vsfhid_parse_item _ _ _ _ _ _ _ _) as [[[[err1 d1] dev1] m1]|] eqn:Hi; bindr; [|done].
    destruct (decide (err1 ≠ VSFERR_NONE)) as [Hne|He]; [by intros [= ? _ _ _]|].
    apply dec_stable in He as ->. eapply parse_item_layout in Hi as [Hdev1 Hc1]; [by apply IH|done..|].
    intros Ht v Hv. unfold count_ok in Hok0. rewrite Hb, Ht, Hv in Hok0. simpl in Hok0. lia.
Qed.
End layout.

(** C30: the layout of the reports the parser builds.  After a successful parse of a
    descriptor without negative report counts, the fields of every input report
    lie one after the other, without gap or overlap, from bit 0 to the length of
    the report, as long as no field has a negative size and the report is
    shorter than 65536 bits. *)
Theorem vsfhid_parse_report_layout {M : Type} `{Heap M} undef dev buf len (m : M) dev' m' :
  counts_in undef buf len 0 2147483647 = true →
  vsfhid_parse_report undef dev buf len m = Some (VSFERR_NONE, dev', m') →
  ∀ r, r ∈ report_list dev' → report_layout r.
Proof.
  intros Hc. unfold vsfhid_parse_report.
  destruct (malloc m sizeof_desc) as [[p m1]|]; bindr; [|done]. case_decide; [done|].
  destruct (parse_loop _ _ _ _ _ _ _ _ _) as [[[[err d1] dev1] m2]|] eqn:Hl; bindr; [|done].
  destruct (decide (collection d1 ≠ 0 ∨ err ≠ VSFERR_NONE)) as [_|Hno].
  - destruct (mfree m2 p) as [m3|]; bindr; [|done].
    by destruct (vsfhid_free_dev dev1 m3); bindr.
  - destruct (mfree m2 p) as [m3|]; bindr; [|done]. intros [= <- <-] r Hr.
    assert (err = VSFERR_NONE) as -> by (apply dec_stable; tauto).
    apply parse_loop_layout in Hl; [|by constructor|done|exact Hc].
    unfold dev_layout in Hl. rewrite Forall_forall in Hl. by apply Hl.
Qed.

(** ** Example *)

(** An item of a one-byte descriptor whose data byte is behind it. *)
Example cut_item_overruns :
  counts_in 0 [0x05] 1 (-2147483648) 16 = true ∧
  vsfhid_parse_report 0 no_dev [0x05] 1 tt = None.
Proof. by vm_compute. Qed.

Lemma vsfhid_parse_report_total_witness :
  ∃ e dev', vsfhid_parse_report 0 no_dev mouse_desc 50 tt = Some (e, dev', tt) ∧
    (e = VSFERR_NONE ∨ e = VSFERR_FAIL).
Proof.
  apply (vsfhid_parse_report_total 0 no_dev mouse_desc 50); [by_decide|done|done|reflexivity].
Defined.

Lemma vsfhid_parse_report_layout_witness :
  report_layout (hd (forget_report (Build_vsfhid_report_t 1 0 0 0 0 None [])) (report_list mouse)).
Proof.
  refine (vsfhid_parse_report_layout 0 no_dev mouse_desc 50 tt mouse tt _ _ _ _).
  - reflexivity.
  - vm_compute. reflexivity.
  - vm_compute. apply list_elem_of_here.
Defined.
