(* ===== verification/HidEvents.v ===== *)
(** * HidEvents: the events of an input report

    A report is a number in little-endian byte order and a field a range of its
    bits.  [vsfhid_process_input] of Vsfhid notifies exactly the elements whose
    field has changed since the last report of the same id. *)

From S2P Require Import Prelude Chain Bitfield Bufmgr Memory Vsfhid.

(** ** Fields of a report *)

Definition le_num (buf : list Z) : Z := foldr (λ b n, b + 256 * n) 0 buf.

(** Bits [off] to [off + n - 1]. *)
Definition field (buf : list Z) (off n : Z) : Z := le_num buf / 2 ^ off mod 2 ^ n.

Lemma le_num_nonneg buf : Forall (fits 8) buf → 0 ≤ le_num buf.
Proof. induction 1 as [|b buf [? _] _ IH]; simpl; lia. Qed.

Lemma byte_testbit b n i :
  fits 8 b → 0 ≤ n → 0 ≤ i →
  Z.testbit (b + 256 * n) i = if i <? 8 then Z.testbit b i else Z.testbit n (i - 8).
Proof.
  intros Hb Hn Hi. replace (b + 256 * n) with (Z.lor b (Z.shiftl n 8)).
  - rewrite Z.lor_spec, Z.shiftl_spec by lia. destruct (Z.ltb_spec i 8).
    + rewrite (Z.testbit_neg_r n) by lia. apply orb_false_r.
    + by rewrite (testbit_fits 8 b).
  - assert (Hl : Z.land b (Z.shiftl n 8) = 0).
    { apply Z.bits_inj'. intros j Hj. rewrite Z.land_spec, Z.shiftl_spec, Z.bits_0 by lia.
      destruct (decide (j < 8)); [rewrite (Z.testbit_neg_r n) by lia; apply andb_false_r|].
      by rewrite (testbit_fits 8 b) by (done || lia). }
    rewrite <- Z.lxor_lor, <- Z.add_nocarry_lxor, Z.shiftl_mul_pow2 by (done || lia).
    change (2 ^ 8) with 256. lia.
Qed.

Lemma le_num_testbit buf i :
  Forall (fits 8) buf → 0 ≤ i → Z.testbit (le_num buf) i = bufbit buf i.
Proof.
  intros Hb. revert i. induction Hb as [|b buf Hb Hbuf IH]; intros i Hi.
  { unfold bufbit. by rewrite Z.bits_0. }
  cbn [le_num foldr]. fold (le_num buf).
  rewrite byte_testbit by (done || by apply le_num_nonneg). unfold bufbit.
  destruct (Z.ltb_spec i 8).
  - rewrite Z.div_small, Z.mod_small by lia. done.
  - rewrite IH by lia. unfold bufbit.
    replace (i / 8) with ((i - 8) / 8 + 1) by (Z.div_mod_to_equations; lia).
    replace (i mod 8) with ((i - 8) mod 8) by (Z.div_mod_to_equations; lia).
    assert (0 ≤ (i - 8) / 8) by (apply Z.div_pos; lia).
    replace (Z.to_nat ((i - 8) / 8 + 1)) with (S (Z.to_nat ((i - 8) / 8))) by lia. done.
Qed.

Lemma field_testbit buf off n i :
  Forall (fits 8) buf → 0 ≤ off → 0 ≤ n → 0 ≤ i →
  Z.testbit (field buf off n) i = (i <? n) && bufbit buf (off + i).
Proof.
  intros Hb Ho Hn Hi. unfold field. change (Z.testbit (wrap n (le_num buf / 2 ^ off)) i =
    (i <? n) && bufbit buf (off + i)).
  rewrite wrap_testbit, <- Z.shiftr_div_pow2, Z.shiftr_spec, Z.add_comm, le_num_testbit by (done || lia).
  done.
Qed.

Lemma field_fits buf off n : 0 ≤ n → fits n (field buf off n).
Proof. intros. apply wrap_fits. done. Qed.

Lemma buf_get_field buf off n :
  Forall (fits 8) buf → 0 ≤ off → 0 ≤ n ≤ 32 → off + n ≤ 256 → off + n ≤ 8 * Z.of_nat (length buf) →
  buf_get_value buf (u8 off) (u8 n) = Some (field buf off n).
Proof.
  intros Hb Ho Hn H256 Hl. rewrite (u8_small n) by lia. destruct (decide (n = 0)) as [->|Hn0].
  { unfold field. change (2 ^ 0) with 1. by rewrite Z.mod_1_r. }
  rewrite u8_small by lia. unfold buf_get_value.
  destruct (buf_get_value_loop_spec (S (Z.to_nat n)) buf off n 0 0) as (v & Hv & Hf & Hbits);
    [lia|done|lia|lia|lia|done|left; lia|].
  rewrite Hv. f_equal. apply (fits_ext n); [done|apply field_fits; lia|]. intros i Hi.
  rewrite Hbits, field_testbit by (done || lia). rewrite Z.sub_0_r, Z.mod_small by lia.
  destruct (Z.ltb_spec i 0), (Z.ltb_spec i n); try lia. done.
Qed.

(** Only the bits in range count. *)
Lemma field_ext buf buf' off n :
  Forall (fits 8) buf → Forall (fits 8) buf' → 0 ≤ off → 0 ≤ n →
  (∀ i, off ≤ i < off + n → bufbit buf i = bufbit buf' i) → field buf off n = field buf' off n.
Proof.
  intros Hb Hb' Ho Hn Heq. apply (fits_ext n); [by apply field_fits..|]. intros i Hi.
  rewrite !field_testbit by (done || lia). f_equal. apply Heq. lia.
Qed.

Lemma bufbit_prefix buf buf' k i :
  take k buf = take k buf' → 0 ≤ i < 8 * Z.of_nat k → bufbit buf i = bufbit buf' i.
Proof.
  intros Heq Hi. unfold bufbit.
  assert (Hj : (Z.to_nat (i / 8) < k)%nat) by (Z.div_mod_to_equations; lia).
  by rewrite <- (lookup_take_lt buf k), <- (lookup_take_lt buf' k), Heq by done.
Qed.

(** ** What a report notifies *)

(** The event of element [i] of a usage, none if its field has not changed (for
    a relative usage: is 0). *)
Definition element_event (new old : list Z) (u : vsfhid_usage_t) (i : nat) : list vsfhid_event_t :=
  let off := bit_offset u + Z.of_nat i * u_size u in
  let cur := field new off (u_size u) in
  let pre := field old off (u_size u) in
  if decide (cur = if HID_USAGE_IS_REL u then 0 else pre) then []
  else [{| ev_page := u_page u;
           ev_id := if HID_USAGE_IS_VAR u then u16 (u_min u + Z.of_nat i)
                    else if decide (cur = 0) then u16 pre else u16 cur;
           pre_value := s32 pre; cur_value := s32 cur; ev_usage := u_addr u |}].

Definition usage_events (new old : list Z) (u : vsfhid_usage_t) : list vsfhid_event_t :=
  seq 0 (Z.to_nat (u_count u)) ≫= element_event new old u.

(** The field of every element lies in the first [len] bytes, where the 8-bit
    index of [buf_get_value] reaches it. *)
Record usage_in (len : Z) (u : vsfhid_usage_t) : Prop := {
  in_offset : 0 ≤ bit_offset u;
  in_size : 0 ≤ u_size u ≤ 32;
  in_end : bit_offset u + Z.max 0 (u_count u) * u_size u ≤ Z.min 256 (8 * len) }.

#[export] Instance usage_in_dec len u : Decision (usage_in len u).
Proof.
  refine (cast_if (decide (0 ≤ bit_offset u ∧ 0 ≤ u_size u ≤ 32 ∧
    bit_offset u + Z.max 0 (u_count u) * u_size u ≤ Z.min 256 (8 * len)))).
  - abstract (by split; destruct_and!).
  - abstract (intros [? ? ?]; tauto).
Defined.

Section events.
Context (new old : list Z) (len : Z).
Context (Hnew : Forall (fits 8) new) (Hold : Forall (fits 8) old).
Context (Hln : len ≤ Z.of_nat (length new)) (Hlo : len ≤ Z.of_nat (length old)).

Lemma process_element_spec u i :
  usage_in len u → (i < Z.to_nat (u_count u))%nat →
  option_list <$> process_element new old u (Z.of_nat i) = Some (element_event new old u i).
Proof using All.
  intros [Ho Hs He] Hi. unfold process_element, element_event.
  assert (0 ≤ Z.of_nat i * u_size u) by nia.
  assert (Z.of_nat i * u_size u + u_size u ≤ Z.max 0 (u_count u) * u_size u) by nia.
  rewrite !buf_get_field by (done || lia). bindr. cbn [fmap option_fmap option_map].
  destruct (Z.eqb_spec (field new (bit_offset u + Z.of_nat i * u_size u) (u_size u))
    (if HID_USAGE_IS_REL u then 0
     else field old (bit_offset u + Z.of_nat i * u_size u) (u_size u))) as [He1|He1].
  - by rewrite decide_True by exact He1.
  - rewrite decide_False by exact He1. cbn. do 4 f_equal.
    destruct (HID_USAGE_IS_VAR u); [done|].
    destruct (Z.eqb_spec (field new (bit_offset u + Z.of_nat i * u_size u) (u_size u)) 0) as [Hz|Hz];
      [by rewrite decide_True|by rewrite decide_False].
Qed.

Lemma process_elements_spec u n i :
  usage_in len u → (i + n)%nat = Z.to_nat (u_count u) →
  process_elements n (Z.of_nat i) new old u = Some (seq i n ≫= element_event new old u).
Proof using All.
  intros Hu. revert i. induction n as [|n IH]; intros i Hi; [done|]. cbn [process_elements seq].
  pose proof (process_element_spec u i Hu ltac:(lia)) as He.
  destruct (process_element new old u (Z.of_nat i)) as [e|]; [|done]. bindr.
  cbn in He. injection He as He. replace (Z.of_nat i + 1) with (Z.of_nat (S i)) by lia.
  rewrite IH by lia. bindr. by rewrite bind_cons, <- He.
Qed.

Lemma process_usages_spec us :
  Forall (usage_in len) us →
  process_usages us new old = Some (us ≫= usage_events new old).
Proof using All.
  induction 1 as [|u us Hu _ IH]; [done|]. cbn [process_usages].
  pose proof (process_elements_spec u (Z.to_nat (u_count u)) 0 Hu eq_refl) as Hp.
  change (Z.of_nat 0) with 0 in Hp. rewrite Hp. bindr. rewrite IH. bindr. done.
Qed.
End events.

(** Nothing is notified for absolute fields that are the same. *)
Lemma usage_events_same new old len u :
  Forall (fits 8) new → Forall (fits 8) old → 0 ≤ len →
  take (Z.to_nat len) new = take (Z.to_nat len) old → usage_in len u →
  HID_USAGE_IS_REL u = false → usage_events new old u = [].
Proof.
  intros Hn Ho Hl Heq [? ? ?] Hrel. unfold usage_events.
  assert (Hnil : ∀ l, (∀ i, i ∈ l → (i < Z.to_nat (u_count u))%nat) →
    l ≫= element_event new old u = []).
  { induction l as [|i l IH]; intros His; [done|]. rewrite bind_cons, IH by set_solver.
    rewrite app_nil_r. unfold element_event. rewrite Hrel. apply decide_True.
    pose proof (His i ltac:(set_solver)).
    apply field_ext; [done|done|nia|lia|]. intros j Hj. apply (bufbit_prefix _ _ (Z.to_nat len)); [done|].
    nia. }
  apply Hnil. intros i Hi%elem_of_seq. lia.
Qed.

(** ** Input reports *)

(** The value buffer after a report: its first [len] bytes are the report. *)
Definition stored (len : Z) (data old : list Z) : list Z :=
  take (Z.to_nat len) data ++ drop (Z.to_nat len) old.

Definition report_calls (r : vsfhid_report_t) (data old : list Z) : list hid_call :=
  let es := usage_list r ≫= usage_events data old in
  let g := r_generic_usage r in
  (Event g <$> es) ++ (if decide (es = []) then [] else [Finish g]).

Section input.
Context {M : Type} `{Allocator M} (A : list obj).
Implicit Types (m : M) (dev : vsfhid_dev_t).

(** The bytes of a report as the device sends it: its id, if there are ids, and
    the data. *)
Definition received dev (id : Z) (data : list Z) : list Z :=
  if report_has_id dev then id :: data else data.
Definition input_id dev (id : Z) : Z := if report_has_id dev then id else -1.

(** The report is known, its fields lie in [len] bytes, and so many bytes can be
    read from the data and from its value buffer. *)
Record input_ok dev (id : Z) (data : list Z) (len : Z) (k : nat) r : Prop := {
  ok_find : find_report (report_list dev) HID_ITEM_INPUT (input_id dev id) = Some k;
  ok_report : report_list dev !! k = Some r;
  ok_usages : Forall (usage_in len) (usage_list r);
  ok_bytes : Forall (fits 8) data;
  ok_len : 0 < len ∧ len ≤ Z.of_nat (length data) ∧ len < 0x7fffffff;
  ok_old : ∀ v, value r = Some v → Forall (fits 8) v.2 ∧ len ≤ Z.of_nat (length v.2) }.

(** The input of a report when its value buffer is there. *)
Lemma process_with_value dev id data len k r p old m m1 :
  input_ok dev id data len k r →
  (match value r with
   | Some v => Some (Some v, m)
   | None => '(p, m) ← malloc m len;
       Some (if decide (p = NULL) then (None, m) else (Some (p, replicate (Z.to_nat len) 0), m))
   end) = Some (Some (p, old), m1) →
  Forall (fits 8) old → len ≤ Z.of_nat (length old) →
  vsfhid_process_input dev (received dev id data) len m =
    Some (report_calls r data old, set_report dev k (set_value r (Some (p, stored len data old))), m1).
Proof.
  intros [Hf Hr Hus Hb (Hpos & Hl & _) _] Hv Hold Hlo. unfold vsfhid_process_input, received, input_id in *.
  assert (Hid : (if report_has_id dev then b ← getb (if report_has_id dev then id :: data else data) 0; Some (b, 1)
      else Some (-1, 0)) = Some (if report_has_id dev then id else -1, of_bool (report_has_id dev)))
    by (by destruct (report_has_id dev)).
  rewrite Hid. bindr. rewrite Hf, Hr. bindr. rewrite Hv. bindr.
  assert (Hd : drop (Z.to_nat (of_bool (report_has_id dev)))
      (if report_has_id dev then id :: data else data) = data) by (by destruct (report_has_id dev)).
  rewrite Hd, (process_usages_spec data old len) by done. bindr.
  rewrite read_at_in by (destruct (report_has_id dev); cbn [of_bool length]; lia). bindr.
  rewrite Hd, memcpy_in by (rewrite length_take; lia). bindr.
  do 5 f_equal. unfold stored. rewrite <- (take_drop (Z.to_nat len) old) at 1.
  rewrite list_inserts_0_r by (rewrite !length_take; lia). done.
Qed.

Lemma find_report_insert rs type id k r r' :
  rs !! k = Some r → r_type r' = r_type r → r_id r' = r_id r →
  find_report (<[k := r']> rs) type id = find_report rs type id.
Proof.
  intros Hk Ht Hi. revert k Hk. induction rs as [|q rs IH]; intros [|k] Hk; try done; cbn.
  - injection Hk as ->. by rewrite Ht, Hi.
  - rewrite IH by done. done.
Qed.

Lemma stored_ok len data old :
  Forall (fits 8) data → Forall (fits 8) old → 0 ≤ len ≤ Z.of_nat (length data) →
  Forall (fits 8) (stored len data old) ∧ len ≤ Z.of_nat (length (stored len data old)) ∧
  take (Z.to_nat len) data = take (Z.to_nat len) (stored len data old).
Proof.
  intros Hd Ho Hl. unfold stored. split_and!.
  - apply Forall_app. split; [by apply Forall_take|by apply Forall_drop].
  - rewrite length_app, length_take. lia.
  - rewrite take_app_le, take_take by (rewrite length_take; lia). f_equal. lia.
Qed.

(** A report that was just stored notifies nothing, if its fields are absolute. *)
Lemma process_again dev id data len k r p old m :
  input_ok dev id data len k r → Forall (fits 8) old → len ≤ Z.of_nat (length old) →
  Forall (λ u, HID_USAGE_IS_REL u = false) (usage_list r) →
  let dev' := set_report dev k (set_value r (Some (p, stored len data old))) in
  ∃ dev'', vsfhid_process_input dev' (received dev' id data) len m = Some ([], dev'', m).
Proof.
  intros Hok Ho Hlo Hrel dev'. pose proof Hok as [Hf Hr Hus Hb (Hpos & Hl & Hmax) _].
  destruct (stored_ok len data old Hb Ho ltac:(lia)) as (Hs1 & Hs2 & Hs3).
  assert (Hok' : input_ok dev' id data len k (set_value r (Some (p, stored len data old)))).
  { split; try done.
    - cbn. unfold input_id in *. cbn. by rewrite (find_report_insert _ _ _ _ r) by done.
    - cbn. apply list_lookup_insert_eq. by eapply lookup_lt_Some.
    - cbn. intros v [= <-]. done. }
  eexists. rewrite (process_with_value _ _ _ _ _ _ _ _ m m Hok' eq_refl Hs1 Hs2). f_equal. f_equal.
  f_equal. unfold report_calls. cbn [usage_list set_value].
  assert (Hnil : usage_list r ≫= usage_events data (stored len data old) = []).
  { clear -Hus Hrel Hb Hs1 Hs3 Hpos. induction Hus as [|u us Hu _ IH]; [done|].
    apply Forall_cons in Hrel as [Hru Hrel]. rewrite bind_cons, IH by done.
    rewrite (usage_events_same _ _ len) by (done || lia). done. }
  by rewrite Hnil, decide_True by done.
Qed.

(** C32: the events of an input report.  For a known report whose fields lie in the
    [len] bytes received and in its first 256 bits ([usage_in]: the offset that
    [buf_get_value] takes has 8 bits), [vsfhid_process_input] notifies in order every element
    whose field differs from the report received before (from zeros, the first
    time) or, if relative, from zero, then the end of the report if there was an
    event; it stores the report in the value buffer and makes no access outside
    the buffers.  When the value buffer cannot be allocated the report is
    dropped.  Receiving a report of absolute fields again notifies nothing. *)
Theorem vsfhid_process_input_events dev id data len k r m :
  input_ok dev id data len k r → mem_live m (objs dev ++ A) →
  ∃ calls dev' m', vsfhid_process_input dev (received dev id data) len m = Some (calls, dev', m') ∧
    mem_live m' (objs dev' ++ A) ∧
    (value r = None ∧ calls = [] ∧ dev' = dev ∨
     ∃ p old, (value r = Some (p, old) ∨ value r = None ∧ old = replicate (Z.to_nat len) 0) ∧
       calls = report_calls r data old ∧
       dev' = set_report dev k (set_value r (Some (p, stored len data old))) ∧
       (Forall (λ u, HID_USAGE_IS_REL u = false) (usage_list r) →
        ∃ dev'', vsfhid_process_input dev' (received dev' id data) len m' = Some ([], dev'', m'))).
Proof.
  intros Hok Hm. pose proof Hok as [Hf Hr Hus Hb (Hpos & Hl & Hmax) Hold].
  destruct (value r) as [[p old]|] eqn:Hv.
  - destruct (Hold _ eq_refl) as [Hob Hol]. simpl in Hob, Hol.
    rewrite (process_with_value dev id data len k r p old m m) by (done || by rewrite Hv).
    do 3 eexists. split; [done|]. split.
    + assert (Hsz : length (stored len data old) = length old).
      { unfold stored. rewrite length_app, length_take, length_drop. lia. }
      rewrite (objs_set_report dev k r _ [] Hr); [done|].
      unfold report_objs, value_obj. cbn. by rewrite Hv, Hsz.
    + right. exists p, old. split; [by left|]. split_and!; [done..|].
      intros Hrel. by apply process_again.
  - destruct (malloc_spec m _ len Hm) as (p & m1 & Hp & Ho); [lia..|].
    destruct (decide (p = NULL)) as [Hnull|Hnull].
    + destruct Ho as [[_ Hm1]|[? _]]; [|done].
      exists [], dev, m1. split; [|split; [done|by left]].
      unfold vsfhid_process_input, received, input_id in *.
      destruct (report_has_id dev); simpl getb; unfold getb; simpl; bindr;
        rewrite Hf, Hr; bindr; rewrite Hv, Hp; bindr; by rewrite decide_True.
    + destruct Ho as [[? _]|[_ Hm1]]; [done|].
      set (old := replicate (Z.to_nat len) 0).
      assert (Hz : Forall (fits 8) old) by (by apply Forall_replicate).
      assert (Hzl : Z.of_nat (length old) = len) by (unfold old; rewrite length_replicate; lia).
      rewrite (process_with_value dev id data len k r p old m m1); [|done| |done|lia].
      2:{ rewrite Hv, Hp. bindr. by rewrite decide_False. }
      do 3 eexists. split; [done|]. split.
      * assert (Hsz : Z.of_nat (length (stored len data old)) = len).
        { unfold stored. rewrite length_app, length_take, length_drop. lia. }
        rewrite (objs_set_report dev k r _ [(p, len)] Hr); [done|].
        unfold report_objs, value_obj. cbn [value set_value r_addr usage_list].
        rewrite Hv. cbn. rewrite Hsz. solve_Permutation.
      * right. exists p, old. split; [by right|]. split_and!; [done..|].
        intros Hrel. apply process_again; [done..|lia|done].
Qed.
End input.

(** ** Example *)

(** A joystick with two absolute axes, that was last at (3, 0). *)
Definition axes : vsfhid_usage_t :=
  {| u_addr := 0x102C; u_page := 1; u_min := 0x30; u_max := 0x31; u_logical_min := 0;
     u_logical_max := 255; bit_offset := 0; bit_length := 16; u_size := 8; u_count := 2;
     data_flag := 2 |}.
Definition stick_report : vsfhid_report_t :=
  {| r_addr := 0x100C; r_type := HID_ITEM_INPUT; r_id := -1; bitlen := 16; r_generic_usage := 4;
     value := Some (0x105C, [3; 0]); usage_list := [axes] |}.
Definition stick : vsfhid_dev_t := {| report_list := [stick_report]; report_has_id := false |}.

Example stick_moves :
  report_calls stick_report [5; 0] [3; 0]
  = [Event 4 {| ev_page := 1; ev_id := 0x30; pre_value := 3; cur_value := 5; ev_usage := 0x102C |};
     Finish 4].
Proof. reflexivity. Qed.

Lemma stick_input_ok : input_ok stick 0 [5; 0] 2 0 stick_report.
Proof.
  split; [done|done|by_decide|by_decide|by split_and!|].
  intros v [= <-]. split; [by_decide|done].
Qed.

Lemma stick_live : mem_live (demo_alloc [20; 36; 2]).2 (objs stick ++ []).
Proof.
  assert (Ho : (demo_alloc [20; 36; 2]).1 = [(0x105C, 2); (0x102C, 36); (0x100C, 20)])
    by (vm_compute; reflexivity).
  assert (Hp : objs stick ++ [] ≡ₚ (demo_alloc [20; 36; 2]).1) by (rewrite Ho; apply Permutation_swap).
  rewrite Hp. apply demo_alloc_live; [by_decide|]. rewrite Ho. by_decide.
Qed.

Lemma vsfhid_process_input_events_witness :
  ∃ calls dev' m', vsfhid_process_input stick [5; 0] 2 (demo_alloc [20; 36; 2]).2
    = Some (calls, dev', m') ∧ mem_live m' (objs dev' ++ []).
Proof.
  destruct (vsfhid_process_input_events [] stick 0 [5; 0] 2 0 stick_report
    (demo_alloc [20; 36; 2]).2 stick_input_ok stick_live) as (calls & dev' & m' & Hp & Hm & _).
  exists calls, dev', m'. split; [exact Hp|exact Hm].
Defined.
