(* ===== verification/Dynarr.v ===== *)
(** * Dynarr: arrays that grow and shrink (vsf_dynarr.c)

    The items lie in buffers of [2^item_num_bitlen] items; the addresses of the
    buffers are kept in a list of tables of [2^table_size_bitlen] entries.  Tables
    and buffers are heap objects of the allocator of Memory.  [None] is an access
    outside a table or through NULL. *)

From S2P Require Import Prelude Chain Bufmgr Memory.

(** [struct vsf_dynarr_table_t], at address [t_addr]. *)
Record vsf_dynarr_table_t := { t_addr : Z; buffer : list Z }.

(** [struct vsf_dynarr_t]; [table] are the tables in the order of their links. *)
Record vsf_dynarr_t := {
  item_size : Z; item_num_bitlen : Z; table_size_bitlen : Z;
  table : list vsf_dynarr_table_t; da_length : Z }.

Definition set_length (da : vsf_dynarr_t) (n : Z) : vsf_dynarr_t :=
  {| item_size := item_size da; item_num_bitlen := item_num_bitlen da;
     table_size_bitlen := table_size_bitlen da; table := table da; da_length := n |}.
Definition set_table (da : vsf_dynarr_t) (ts : list vsf_dynarr_table_t) : vsf_dynarr_t :=
  {| item_size := item_size da; item_num_bitlen := item_num_bitlen da;
     table_size_bitlen := table_size_bitlen da; table := ts; da_length := da_length da |}.

(** Entries of a table, items of a buffer, bytes of a buffer and of a table, on a
    32-bit target. *)
Definition table_buffer_num (da : vsf_dynarr_t) : Z := u32 (Z.shiftl 1 (table_size_bitlen da)).
Definition buffer_item_num (da : vsf_dynarr_t) : Z := u32 (Z.shiftl 1 (item_num_bitlen da)).
Definition buffer_size (da : vsf_dynarr_t) : Z := u32 (buffer_item_num da * item_size da).
Definition tblsize (da : vsf_dynarr_t) : Z := u32 (4 + u32 (Z.shiftl (table_buffer_num da) 2)).

(** The number of buffers for [n] items. *)
Definition buffers_of (da : vsf_dynarr_t) (n : Z) : Z :=
  Z.shiftr (u32 (n + buffer_item_num da - 1)) (item_num_bitlen da).

Definition vsf_dynarr_get_size (da : vsf_dynarr_t) : Z := da_length da.

Definition vsf_dynarr_init (da : vsf_dynarr_t) : Z * vsf_dynarr_t :=
  (VSFERR_NONE,
   {| item_size := Z.land (u32 (item_size da + 3)) (u32 (Z.lnot 3));
      item_num_bitlen := item_num_bitlen da; table_size_bitlen := table_size_bitlen da;
      table := []; da_length := 0 |}).

(** [n] links from a table, which NULL ends; following a link of NULL fails. *)
Fixpoint walk (n : nat) (ts : list vsf_dynarr_table_t) : option (list vsf_dynarr_table_t) :=
  match n with
  | O => Some ts
  | S n => match ts with [] => None | _ :: ts => walk n ts end
  end.

(** The address of item [pos], or NULL. *)
Definition vsf_dynarr_get (da : vsf_dynarr_t) (pos : Z) : option Z :=
  if pos <? da_length da then
    let item_idx := Z.land pos (u32 (buffer_item_num da - 1)) in
    let pos := Z.shiftr pos (item_num_bitlen da) in
    let buffer_idx := Z.land pos (u32 (table_buffer_num da - 1)) in
    let table_idx := Z.shiftr pos (table_size_bitlen da) in
    ts ← walk (Z.to_nat table_idx) (table da);
    match ts with
    | [] => Some NULL
    | t :: _ =>
        b ← getb (buffer t) buffer_idx;
        Some (u32 (b + 4 * Z.shiftr (u32 (item_idx * item_size da)) 2))
    end
  else Some NULL.

Section dynarr.
Context {M : Type} `{Heap M}.
Implicit Types (da : vsf_dynarr_t) (m : M).

(** One more buffer in a new table behind the first [k] ones: [sllist_insert]
    drops what was linked there. *)
Definition add_table da (k : nat) (pt pb : Z) : vsf_dynarr_t :=
  set_table da (take k (table da) ++
    [{| t_addr := pt; buffer := <[0%nat := pb]> (replicate (Z.to_nat (table_buffer_num da)) 0) |}]).

(** [table->buffer[idx] = pb] in table [k - 1]. *)
Definition add_buffer da (k : nat) (idx pb : Z) : option vsf_dynarr_t :=
  t ← table da !! Nat.pred k;
  bs ← setb (buffer t) idx pb;
  Some (set_table da (<[Nat.pred k := {| t_addr := t_addr t; buffer := bs |}]> (table da))).

(** [n] more buffers; [k] counts the tables up to the current one, which is NULL
    for 0. *)
Fixpoint grow_loop (n : nat) da (idx : Z) (k : nat) m : option (Z * vsf_dynarr_t * M) :=
  match n with
  | O => Some (VSFERR_NONE, da, m)
  | S n =>
      let idx := u32 (idx + 1) in
      let longer da := set_length da (u32 (da_length da + buffer_item_num da)) in
      if idx =? table_buffer_num da then
        '(pt, m) ← malloc m (tblsize da);
        if decide (pt = NULL) then Some (VSFERR_NOT_ENOUGH_RESOURCES, da, m)
        else
          '(pb, m) ← malloc m (buffer_size da);
          if decide (pb = NULL) then
            m ← mfree m pt; Some (VSFERR_NOT_ENOUGH_RESOURCES, da, m)
          else grow_loop n (longer (add_table da k pt pb)) 0 (S k) m
      else
        '(pb, m) ← malloc m (buffer_size da);
        if decide (pb = NULL) then Some (VSFERR_NOT_ENOUGH_RESOURCES, da, m)
        else
          if decide (k = 0%nat) then None
          else da ← add_buffer da k idx pb; grow_loop n (longer da) idx k m
  end.

(** Remove [n] buffers.  [self] is the current table, none for the head of the
    list, [k] counts the tables up to it and [rest] are the tables behind it. *)
Fixpoint shrink_loop (fuel : nat) da (n idx : Z) (self : option vsf_dynarr_table_t) (k : nat)
    (rest : list vsf_dynarr_table_t) m : option (vsf_dynarr_t * M) :=
  if n =? 0 then Some (da, m)
  else
    match fuel with
    | O => None
    | S fuel =>
        let idx := u32 (idx + 1) in
        if idx =? table_buffer_num da then
          match rest with
          | [] => None
          | t :: rest =>
              let da := set_table da (take k (table da)) in
              let c := Z.min n (table_buffer_num da) in
              bs ← read_at (buffer t) 0 (Z.to_nat c);
              m ← mfree_all (rev bs) m;
              m ← mfree m (t_addr t);
              shrink_loop fuel da (n - c) idx (head rest) k (tail rest) m
          end
        else
          t ← self;
          b ← getb (buffer t) idx;
          m ← mfree m b;
          shrink_loop fuel da (n - 1) idx self k rest m
    end.

(** From [orig] to [num] buffers, more or less; [table] starts at the first table
    and is moved to the one of the last buffer. *)
Definition grow_buffers da (num orig : Z) m : option (Z * vsf_dynarr_t * M) :=
  if orig =? 0 then
    grow_loop (Z.to_nat num) da (u32 (u32 (Z.shiftl 1 (table_size_bitlen da)) - 1))
      (if decide (table da = []) then 0%nat else 1%nat) m
  else
    let idx := Z.land (orig - 1) (u32 (table_buffer_num da - 1)) in
    let i := Z.to_nat (Z.shiftr (orig - 1) (table_size_bitlen da)) in
    ts ← walk i (table da);
    grow_loop (Z.to_nat (num - orig)) da idx (if decide (ts = []) then 0%nat else S i) m.

Definition shrink_buffers da (num orig : Z) m : option (vsf_dynarr_t * M) :=
  if num =? 0 then
    shrink_loop (Z.to_nat orig) da orig (u32 (u32 (Z.shiftl 1 (table_size_bitlen da)) - 1))
      None 0 (table da) m
  else
    let idx := Z.land (num - 1) (u32 (table_buffer_num da - 1)) in
    let i := Z.to_nat (Z.shiftr (num - 1) (table_size_bitlen da)) in
    ts ← walk i (table da);
    shrink_loop (Z.to_nat (orig - num)) da (orig - num) idx (head ts) (S i) (tail ts) m.

Definition vsf_dynarr_set_size da (size : Z) m : option (Z * vsf_dynarr_t * M) :=
  let num := buffers_of da size in
  let orig := buffers_of da (da_length da) in
  let da := set_length da (u32 (orig * buffer_item_num da)) in
  if orig <? num then
    '(e, da, m) ← grow_buffers da num orig m;
    Some (e, if decide (e = VSFERR_NONE) then set_length da size else da, m)
  else if num <? orig then
    '(da, m) ← shrink_buffers da num orig m;
    Some (VSFERR_NONE, set_length da size, m)
  else Some (VSFERR_NONE, set_length da size, m).

(** [n] buffers in the tables from [ts] on, the last entries of a table first. *)
Fixpoint fini_loop (da : vsf_dynarr_t) (ts : list vsf_dynarr_table_t) (n : Z) m : option M :=
  if n =? 0 then Some m
  else
    match ts with
    | [] => None
    | t :: ts =>
        let c := Z.min n (table_buffer_num da) in
        bs ← read_at (buffer t) 0 (Z.to_nat c);
        m ← mfree_all (rev bs) m;
        m ← mfree m (t_addr t);
        fini_loop da ts (n - c) m
    end.

Definition vsf_dynarr_fini da m : option (Z * vsf_dynarr_t * M) :=
  m ← fini_loop da (table da) (buffers_of da (da_length da)) m;
  Some (VSFERR_NONE, set_length (set_table da []) 0, m).
End dynarr.

(** ** Sizes *)

(** Sizes for which buffers and tables are objects of the heap. *)
Record config_ok (da : vsf_dynarr_t) : Prop := {
  cfg_items : 0 ≤ item_num_bitlen da ≤ 28;
  cfg_table : 0 ≤ table_size_bitlen da ≤ 28;
  cfg_size : 0 < item_size da ∧ item_size da mod 4 = 0;
  cfg_buffer : 2 ^ item_num_bitlen da * item_size da < 0x7fffffff }.

(** Entries of a table. *)
Definition entries (da : vsf_dynarr_t) : nat := Z.to_nat (2 ^ table_size_bitlen da).

Section sizes.
Context (da : vsf_dynarr_t) (Hc : config_ok da).

Lemma pow2_bounds n : 0 ≤ n ≤ 28 → 1 ≤ 2 ^ n ≤ 268435456.
Proof.
  intros Hn. split; [apply (Z.pow_le_mono_r 2 0 n); lia|].
  change 268435456 with (2 ^ 28). apply Z.pow_le_mono_r; lia.
Qed.

Lemma entries_Z : Z.of_nat (entries da) = 2 ^ table_size_bitlen da.
Proof using Hc. pose proof (pow2_bounds _ (cfg_table _ Hc)). unfold entries. lia. Qed.

Lemma entries_bounds : (1 ≤ entries da)%nat ∧ Z.of_nat (entries da) ≤ 268435456.
Proof using Hc. pose proof (pow2_bounds _ (cfg_table _ Hc)). rewrite entries_Z. unfold entries. lia. Qed.

Lemma table_buffer_num_eq : table_buffer_num da = Z.of_nat (entries da).
Proof using Hc.
  unfold table_buffer_num. rewrite Z.shiftl_1_l, entries_Z.
  pose proof (pow2_bounds _ (cfg_table _ Hc)). apply u32_small. lia.
Qed.

Lemma buffer_item_num_eq : buffer_item_num da = 2 ^ item_num_bitlen da.
Proof using Hc.
  unfold buffer_item_num. rewrite Z.shiftl_1_l.
  pose proof (pow2_bounds _ (cfg_items _ Hc)). apply u32_small. lia.
Qed.

Lemma buffer_size_eq :
  buffer_size da = 2 ^ item_num_bitlen da * item_size da ∧ 0 < buffer_size da < 0x7fffffff.
Proof using Hc.
  unfold buffer_size. rewrite buffer_item_num_eq. destruct Hc as [Hi _ [Hs _] Hb].
  pose proof (pow2_bounds _ Hi). rewrite u32_small by nia. nia.
Qed.

Lemma tblsize_bounds : 0 < tblsize da < 0x7fffffff.
Proof using Hc.
  unfold tblsize. rewrite table_buffer_num_eq, Z.shiftl_mul_pow2 by lia.
  pose proof entries_bounds. change (2 ^ 2) with 4. rewrite (u32_small (_ * 4)), u32_small by lia. lia.
Qed.

Lemma land_entries x : 0 ≤ x → Z.land x (u32 (table_buffer_num da - 1)) = x mod Z.of_nat (entries da).
Proof using Hc.
  intros Hx. pose proof entries_bounds. rewrite table_buffer_num_eq, u32_small by lia.
  rewrite entries_Z, Z.sub_1_r, <- Z.ones_equiv. apply Z.land_ones. apply (cfg_table _ Hc).
Qed.

Lemma shiftr_entries x : Z.shiftr x (table_size_bitlen da) = x / Z.of_nat (entries da).
Proof using Hc. rewrite entries_Z. apply Z.shiftr_div_pow2. apply (cfg_table _ Hc). Qed.

(** [n] items need [c] buffers. *)
Lemma buffers_of_eq n c :
  0 ≤ n ≤ c * 2 ^ item_num_bitlen da → (c - 1) * 2 ^ item_num_bitlen da < n ∨ c = 0 →
  n + 2 ^ item_num_bitlen da - 1 < 4294967296 → buffers_of da n = c.
Proof using Hc.
  intros Hn Hlo Hb. pose proof (pow2_bounds _ (cfg_items _ Hc)).
  unfold buffers_of. rewrite buffer_item_num_eq, Z.shiftr_div_pow2 by apply (cfg_items _ Hc).
  rewrite u32_small by lia. symmetry.
  apply Z.div_unique_pos with (r := n + 2 ^ item_num_bitlen da - 1 - c * 2 ^ item_num_bitlen da); nia.
Qed.
End sizes.

Lemma walk_drop n ts : walk n ts = if decide (n ≤ length ts)%nat then Some (drop n ts) else None.
Proof.
  revert ts. induction n as [|n IH]; intros ts; [by destruct ts|]. destruct ts as [|t ts]; [done|].
  cbn [walk drop length]. rewrite IH. repeat case_decide; (done || lia).
Qed.

(** ** The structure of an array *)

(** [bufs] are the buffers in the order of their items. *)
Record tabs (da : vsf_dynarr_t) (bufs : list Z) : Prop := {
  tabs_config : config_ok da;
  tabs_size : Forall (λ t, length (buffer t) = entries da) (table da);
  tabs_num : (length bufs ≤ length (table da) * entries da)%nat ∧
             (length (table da) * entries da < length bufs + entries da)%nat;
  tabs_bufs j r b : (r < entries da)%nat → bufs !! (j * entries da + r)%nat = Some b →
    ∃ t, table da !! j = Some t ∧ buffer t !! r = Some b }.

(** The heap objects of an array. *)
Definition da_objs (da : vsf_dynarr_t) (bufs : list Z) : list obj :=
  ((λ t, (t_addr t, tblsize da)) <$> table da) ++ ((λ b, (b, buffer_size da)) <$> bufs).

(** The number of items the buffers hold. *)
Definition capacity (da : vsf_dynarr_t) (bufs : list Z) : Z :=
  Z.of_nat (length bufs) * 2 ^ item_num_bitlen da.

(** The array has as many buffers as its items need. *)
Record wf (da : vsf_dynarr_t) (bufs : list Z) : Prop := {
  wf_tabs : tabs da bufs;
  wf_len : 0 ≤ da_length da ≤ capacity da bufs;
  wf_last : (Z.of_nat (length bufs) - 1) * 2 ^ item_num_bitlen da < da_length da ∨ bufs = [];
  wf_width : da_length da + 2 ^ item_num_bitlen da - 1 < 4294967296 }.

Definition same_config (da da' : vsf_dynarr_t) : Prop :=
  item_size da' = item_size da ∧ item_num_bitlen da' = item_num_bitlen da ∧
  table_size_bitlen da' = table_size_bitlen da.

Lemma divmod_unique T j r j' r' :
  (r < T)%nat → (r' < T)%nat → (j * T + r)%nat = (j' * T + r')%nat → j = j' ∧ r = r'.
Proof. intros Hr Hr' He. assert (j = j') by nia. subst. lia. Qed.

(** The number of tables, from the table and entry of the last buffer. *)
Lemma tables_count T k n q i : 0 < T → n - 1 = T * q + i → 0 ≤ i < T → n ≤ k * T < n + T → k = q + 1.
Proof.
  intros HT Hn Hi [H1 H2]. assert (T * q < T * k) by lia. assert (T * k < T * (q + 2)) by lia.
  apply Z.mul_lt_mono_pos_l in H, H0; lia.
Qed.

Lemma wf_buffers da bufs : wf da bufs → buffers_of da (da_length da) = Z.of_nat (length bufs).
Proof.
  intros [Ht Hl Hlast Hw]. apply buffers_of_eq; [apply Ht|exact Hl| |exact Hw].
  destruct Hlast as [?| ->]; [by left|by right].
Qed.

(** ** Growing *)

Lemma lookup_app_one (bufs : list Z) (i : nat) x b :
  (bufs ++ [x]) !! i = Some b →
  bufs !! i = Some b ∧ (i < length bufs)%nat ∨ i = length bufs ∧ b = x.
Proof.
  intros [Hi|[Hi Hx]]%lookup_app_Some; [left; split; [done|by eapply lookup_lt_Some]|].
  apply list_lookup_singleton_Some in Hx as [? ->]. right. split; [lia|done].
Qed.

Lemma add_table_tabs da bufs pt pb :
  tabs da bufs → length bufs = (length (table da) * entries da)%nat →
  tabs (add_table da (length (table da)) pt pb) (bufs ++ [pb]).
Proof.
  intros [Hc Hs Hn Hb] Hfull. pose proof (entries_bounds da Hc) as [HT _].
  pose proof (table_buffer_num_eq da Hc) as Htb. unfold add_table. rewrite take_ge by done.
  split; cbn [table set_table].
  - by destruct Hc.
  - apply Forall_app. split; [exact Hs|]. apply Forall_singleton. cbn [buffer].
    rewrite length_insert, length_replicate, Htb. unfold entries. simpl. lia.
  - change (entries (set_table da _)) with (entries da). rewrite !length_app. simpl. lia.
  - change (entries (set_table da _)) with (entries da). intros j r b Hr Hl.
    apply lookup_app_one in Hl as [[Hl _]|[He ->]].
    + destruct (Hb j r b Hr Hl) as (t & Ht & Hbt). exists t. split; [|done]. by apply lookup_app_l_Some.
    + destruct (divmod_unique (entries da) j r (length (table da)) 0) as [-> ->]; [lia..|].
      eexists. split; [by rewrite lookup_app_r, Nat.sub_diag by done|].
      cbn [buffer]. apply list_lookup_insert_eq. rewrite length_replicate. lia.
Qed.

Lemma add_buffer_tabs da bufs pb idx :
  tabs da bufs → (length bufs < length (table da) * entries da)%nat →
  idx = (Z.of_nat (length bufs) mod Z.of_nat (entries da)) →
  ∃ da', add_buffer da (length (table da)) idx pb = Some da' ∧ tabs da' (bufs ++ [pb]) ∧
    same_config da da' ∧ da_length da' = da_length da ∧ length (table da') = length (table da) ∧
    t_addr <$> table da' = t_addr <$> table da.
Proof.
  intros [Hc Hs Hn Hb] Hfull ->. pose proof (entries_bounds da Hc) as [HT _].
  set (T := entries da) in *. set (k := length (table da)) in *.
  assert (Hk : (1 ≤ k)%nat) by nia.
  set (i := (length bufs - (k - 1) * T)%nat).
  assert (Hi : (i < T)%nat ∧ length bufs = ((k - 1) * T + i)%nat) by nia. destruct Hi as [Hi Hlen].
  assert (Hmod : Z.of_nat (length bufs) mod Z.of_nat T = Z.of_nat i).
  { symmetry. apply Z.mod_unique_pos with (q := Z.of_nat (k - 1)); lia. }
  rewrite Hmod. destruct (lookup_lt_is_Some_2 (table da) (Nat.pred k)) as [t Ht]; [unfold k in *; lia|].
  assert (Hbt : length (buffer t) = T) by (by eapply (Forall_lookup_1 _ _ _ _ Hs)).
  unfold add_buffer. rewrite Ht. bindr. rewrite setb_in by lia. bindr. rewrite Nat2Z.id.
  eexists. split; [done|]. split_and!; [|done..|done| |].
  - split; cbn [table set_table].
    + by destruct Hc.
    + apply Forall_insert; [exact Hs|]. cbn [buffer]. rewrite length_insert. done.
    + change (entries (set_table da _)) with T. rewrite length_insert, length_app. simpl. fold k. lia.
    + change (entries (set_table da _)) with T. intros j r b Hr Hl.
      apply lookup_app_one in Hl as [[Hl Hlt]|[He ->]].
      * destruct (Hb j r b Hr Hl) as (u & Hu & Hbu). destruct (decide (j = Nat.pred k)) as [->|Hj].
        -- rewrite Ht in Hu. injection Hu as <-. eexists.
           split; [by rewrite list_lookup_insert_eq by (unfold k in *; lia)|].
           cbn [buffer]. rewrite list_lookup_insert_ne; [done|].
           intros ->. rewrite Hlen in Hlt. replace (Nat.pred k) with (k - 1)%nat in Hlt by lia. lia.
        -- exists u. by rewrite list_lookup_insert_ne by done.
      * destruct (divmod_unique T j r (k - 1) i) as [-> ->]; [done|done|lia|].
        replace (k - 1)%nat with (Nat.pred k) by lia. eexists.
        split; [by rewrite list_lookup_insert_eq by (unfold k in *; lia)|].
        cbn [buffer]. apply list_lookup_insert_eq. lia.
  - cbn [table set_table]. by rewrite length_insert.
  - cbn [table set_table]. rewrite list_fmap_insert. cbn [t_addr].
    apply list_insert_id. by rewrite list_lookup_fmap, Ht.
Qed.

Lemma da_objs_eq da da' bufs :
  same_config da da' → t_addr <$> table da' = t_addr <$> table da → da_objs da' bufs = da_objs da bufs.
Proof.
  intros (H1 & H2 & H3) Ht. unfold da_objs, tblsize, table_buffer_num, buffer_size, buffer_item_num.
  rewrite H1, H2, H3. f_equal.
  assert (Hm : ∀ (n : Z) ts, (λ t, (t_addr t, n)) <$> ts = (λ a, (a, n)) <$> (t_addr <$> ts))
    by (intros n ts; by rewrite <- list_fmap_compose).
  by rewrite !Hm, Ht.
Qed.

Lemma da_objs_buffer da bufs pb :
  da_objs da (bufs ++ [pb]) ≡ₚ (pb, buffer_size da) :: da_objs da bufs.
Proof. unfold da_objs. rewrite fmap_app. simpl. solve_Permutation. Qed.

Lemma da_objs_table da bufs pt pb :
  da_objs (add_table da (length (table da)) pt pb) bufs ≡ₚ (pt, tblsize da) :: da_objs da bufs.
Proof.
  unfold da_objs, add_table. cbn [table set_table]. rewrite take_ge, fmap_app by done. cbn [fmap list_fmap t_addr].
  change (tblsize (set_table da _)) with (tblsize da).
  change (buffer_size (set_table da _)) with (buffer_size da). solve_Permutation.
Qed.

Section growing.
Context {M : Type} `{Allocator M} (A : list obj).
Implicit Types (da : vsf_dynarr_t) (m : M).

(** [new] are the buffers added behind [bufs]. *)
Definition grown da bufs da' (new : list Z) m' : Prop :=
  tabs da' (bufs ++ new) ∧ same_config da da' ∧ da_length da' = capacity da (bufs ++ new) ∧
  mem_live m' (da_objs da' (bufs ++ new) ++ A).

Lemma grown_nil da bufs m :
  tabs da bufs → da_length da = capacity da bufs → mem_live m (da_objs da bufs ++ A) →
  grown da bufs da [] m.
Proof. intros. unfold grown. rewrite app_nil_r. by split_and!. Qed.

Lemma grown_cons da bufs pb da1 da' new m' :
  same_config da da1 → grown da1 (bufs ++ [pb]) da' new m' → grown da bufs da' (pb :: new) m'.
Proof.
  intros (H1 & H2 & H3) (Ht & (H4 & H5 & H6) & Hl & Hm). rewrite <- (assoc_L (++)) in *.
  unfold grown, capacity, same_config in *. split_and!; try congruence; try done. by rewrite Hl, H2.
Qed.

Lemma set_length_tabs da bufs n : tabs da bufs → tabs (set_length da n) bufs.
Proof. intros [[] ? ? ?]. by split. Qed.

(** The outcome of adding [n] buffers. *)
Definition grow_result da bufs (n : nat) (o : option (Z * vsf_dynarr_t * M)) : Prop :=
  ∃ e da' new m', o = Some (e, da', m') ∧ grown da bufs da' new m' ∧
    (e = VSFERR_NONE ∧ length new = n ∨ e = VSFERR_NOT_ENOUGH_RESOURCES ∧ (length new < n)%nat).

Lemma grow_gives_up da bufs n m :
  tabs da bufs → da_length da = capacity da bufs → mem_live m (da_objs da bufs ++ A) →
  grow_result da bufs (S n) (Some (VSFERR_NOT_ENOUGH_RESOURCES, da, m)).
Proof.
  intros Ht Hl Hm. do 4 eexists. split; [done|]. split; [by apply grown_nil|].
  right. split; [done|]. simpl. lia.
Qed.

(** What the loop needs: the current entry is the last one in use. *)
Record grow_ready da (bufs : list Z) (n : nat) (idx : Z) m : Prop := {
  gr_tabs : tabs da bufs;
  gr_idx : idx = (Z.of_nat (length bufs) - 1) mod Z.of_nat (entries da);
  gr_len : da_length da = capacity da bufs;
  gr_cap : capacity da bufs + Z.of_nat n * 2 ^ item_num_bitlen da < 4294967296;
  gr_live : mem_live m (da_objs da bufs ++ A) }.

Lemma grow_step n da idx bufs pb da1 idx1 m1 m :
  grow_ready da bufs (S n) idx m →
  tabs da1 (bufs ++ [pb]) → same_config da da1 → da_length da1 = da_length da →
  idx1 = Z.of_nat (length bufs) mod Z.of_nat (entries da) →
  mem_live m1 (da_objs da1 (bufs ++ [pb]) ++ A) →
  let da2 := set_length da1 (u32 (da_length da1 + buffer_item_num da1)) in
  grow_ready da2 (bufs ++ [pb]) n idx1 m1 ∧
  ∀ o, grow_result da2 (bufs ++ [pb]) n o → grow_result da bufs (S n) o.
Proof.
  intros [Ht Hidx Hl Hcap Hm] Ht1 Hsame Hl1 Hidx1 Hm1 da2. pose proof Hsame as (Hs1 & Hs2 & Hs3).
  pose proof (pow2_bounds _ (cfg_items _ (tabs_config _ _ Ht))) as Hpow.
  assert (Hlen : Z.of_nat (length (bufs ++ [pb])) = Z.of_nat (length bufs) + 1)
    by (rewrite length_app; simpl; lia).
  split; [split|].
  - by apply set_length_tabs.
  - rewrite Hidx1, Hlen. unfold entries, da2. cbn [table_size_bitlen set_length]. rewrite Hs3.
    f_equal. lia.
  - unfold da2. cbn [da_length set_length]. unfold capacity in *. cbn [item_num_bitlen set_length].
    rewrite buffer_item_num_eq by apply Ht1. rewrite Hl1, Hl, Hs2, Hlen, u32_small by lia. lia.
  - unfold capacity, da2 in *. cbn [item_num_bitlen set_length]. rewrite Hs2, Hlen. lia.
  - by rewrite (da_objs_eq da1 da2).
  - intros o (e & da' & new & m' & -> & Hg & Ho). exists e, da', (pb :: new), m'. split; [done|].
    split; [eapply (grown_cons da bufs pb da2); [done|exact Hg]|].
    simpl. destruct Ho as [[-> Ho]|[-> Ho]]; [left|right]; split; (done || lia).
Qed.

Lemma grow_loop_spec n da idx bufs m :
  grow_ready da bufs n idx m →
  grow_result da bufs n (grow_loop n da idx (length (table da)) m).
Proof.
  revert da idx bufs m. induction n as [|n IH]; intros da idx bufs m Hr; pose proof Hr as [Ht Hidx Hl _ Hm].
  { exists VSFERR_NONE, da, [], m. split; [done|]. split; [by apply grown_nil|]. by left. }
  pose proof Ht as [Hc _ Hn _]. pose proof (entries_bounds da Hc) as [HT HT2].
  pose proof (Z.mod_pos_bound (Z.of_nat (length bufs) - 1) (Z.of_nat (entries da)) ltac:(lia)) as Hmod.
  pose proof (buffer_size_eq da Hc) as [_ Hbs]. pose proof (tblsize_bounds da Hc) as Hts.
  cbn [grow_loop]. rewrite (u32_small (idx + 1)), table_buffer_num_eq by (done || lia).
  pose proof (Z.div_mod (Z.of_nat (length bufs) - 1) (Z.of_nat (entries da)) ltac:(lia)) as Hdm.
  rewrite <- Hidx in Hmod, Hdm.
  set (q := (Z.of_nat (length bufs) - 1) / Z.of_nat (entries da)) in *.
  assert (Hk : Z.of_nat (length (table da)) = q + 1).
  { apply (tables_count (Z.of_nat (entries da)) _ (Z.of_nat (length bufs)) q idx); lia. }
  destruct (Z.eqb_spec (idx + 1) (Z.of_nat (entries da))) as [Hfull|Hpart].
  - assert (Hlen : length bufs = (length (table da) * entries da)%nat) by nia.
    destruct (malloc_spec m _ (tblsize da) Hm) as (pt & m1 & -> & Ho1); [lia..|]. bindr.
    destruct (decide (pt = NULL)) as [Hpt|Hpt].
    { destruct Ho1 as [[_ Hm1]|[? _]]; [by apply grow_gives_up|done]. }
    destruct Ho1 as [[? _]|[_ Hm1]]; [done|].
    destruct (malloc_spec m1 _ (buffer_size da) Hm1) as (pb & m2 & -> & Ho2); [lia..|]. bindr.
    destruct (decide (pb = NULL)) as [Hpb|Hpb].
    { destruct Ho2 as [[_ Hm2]|[? _]]; [|done].
      destruct (mfree_object _ _ _ Hm2) as (m3 & Hf & Hm3). simpl in Hf. rewrite Hf. bindr.
      by apply grow_gives_up. }
    destruct Ho2 as [[? _]|[_ Hm2]]; [done|].
    edestruct (grow_step n da idx bufs pb (add_table da (length (table da)) pt pb) 0 m2 m) as [Hr2 Hres];
      [done|by apply add_table_tabs|done|done| | |].
    + rewrite Hlen, Nat2Z.inj_mul. symmetry. apply Z_mod_mult.
    + rewrite da_objs_buffer, da_objs_table. exact Hm2.
    + apply Hres. assert (Hk2 : S (length (table da)) = length (table (add_table da (length (table da)) pt pb))).
      { unfold add_table. cbn [table set_table]. rewrite take_ge, length_app by done. simpl. lia. }
      rewrite Hk2. exact (IH _ _ _ _ Hr2).
  - assert (Hlen : (length bufs < length (table da) * entries da)%nat ∧
      Z.of_nat (length bufs) mod Z.of_nat (entries da) = idx + 1).
    { split; [|symmetry; apply Z.mod_unique_pos with (q := q); lia].
      destruct Hn as [Hn1 Hn2].
      destruct (decide (length bufs = (length (table da) * entries da)%nat)) as [He|]; [|lia].
      exfalso. nia. }
    destruct Hlen as [Hlen Hidx1].
    destruct (malloc_spec m _ (buffer_size da) Hm) as (pb & m2 & -> & Ho2); [lia..|]. bindr.
    destruct (decide (pb = NULL)) as [Hpb|Hpb].
    { destruct Ho2 as [[_ Hm2]|[? _]]; [by apply grow_gives_up|done]. }
    destruct Ho2 as [[? _]|[_ Hm2]]; [done|]. rewrite decide_False by nia.
    destruct (add_buffer_tabs da bufs pb (idx + 1) Ht Hlen ltac:(lia))
      as (da1 & -> & Ht1 & Hs1 & Hl1 & Hk1 & Ha1). bindr.
    edestruct (grow_step n da idx bufs pb da1 (idx + 1) m2 m) as [Hr2 Hres]; [done..|lia| |].
    + rewrite (da_objs_eq da da1), da_objs_buffer by done. exact Hm2.
    + apply Hres. rewrite <- Hk1. exact (IH _ _ _ _ Hr2).
Qed.
End growing.

(** ** Releasing buffers and tables *)

Definition table_objs (da : vsf_dynarr_t) (ts : list vsf_dynarr_table_t) : list obj :=
  (λ t, (t_addr t, tblsize da)) <$> ts.
Definition buffer_objs (da : vsf_dynarr_t) (bs : list Z) : list obj :=
  (λ b, (b, buffer_size da)) <$> bs.

Lemma table_chunk_eq da bufs j t c :
  tabs da bufs → table da !! j = Some t → (c ≤ entries da)%nat → (j * entries da + c ≤ length bufs)%nat →
  take c (buffer t) = take c (drop (j * entries da) bufs).
Proof.
  intros [_ Hs _ Hb] Ht Hc Hl. pose proof (Forall_lookup_1 _ _ _ _ Hs Ht) as Hlt. simpl in Hlt.
  apply list_eq. intros i. destruct (decide (i < c)%nat).
  - rewrite !lookup_take_lt, lookup_drop by done.
    destruct (lookup_lt_is_Some_2 bufs (j * entries da + i)) as [b Hbi]; [lia|].
    destruct (Hb j i b ltac:(lia) Hbi) as (t' & Ht' & Hbt). congruence.
  - by rewrite !lookup_take_ge by lia.
Qed.

Section releasing.
Context {M : Type} `{Allocator M}.
Implicit Types (da : vsf_dynarr_t) (m : M).

Lemma free_chunk da t bs m B :
  mem_live m ((t_addr t, tblsize da) :: buffer_objs da bs ++ B) →
  ∃ m1 m2, mfree_all (rev bs) m = Some m1 ∧ mfree m1 (t_addr t) = Some m2 ∧ mem_live m2 B.
Proof.
  intros Hm. destruct (mfree_all_live (buffer_objs da (rev bs)) m ((t_addr t, tblsize da) :: B))
    as (m1 & Hf & Hm1).
  - assert (Hp : (t_addr t, tblsize da) :: buffer_objs da bs ++ B ≡ₚ
      buffer_objs da (rev bs) ++ (t_addr t, tblsize da) :: B).
    { unfold buffer_objs. rewrite <- (Permutation_rev bs). solve_Permutation. }
    by rewrite <- Hp.
  - destruct (mfree_object _ _ _ Hm1) as (m2 & Hf2 & Hm2). exists m1, m2. split_and!; [|done..].
    rewrite <- Hf. f_equal. unfold buffer_objs. rewrite <- list_fmap_compose. symmetry. apply list_fmap_id.
Qed.

Lemma dynarr_fini_loop_spec da bufs ts j n m A :
  tabs da bufs → ts = drop j (table da) → n = Z.of_nat (length bufs - j * entries da) →
  mem_live m (table_objs da ts ++ buffer_objs da (drop (j * entries da) bufs) ++ A) →
  ∃ m', fini_loop da ts n m = Some m' ∧ mem_live m' A.
Proof.
  intros Ht. pose proof Ht as [Hc Hs Hn _]. pose proof (entries_bounds da Hc) as [HT _].
  revert j n m. induction ts as [|t ts IH]; intros j n m Hts -> Hm.
  - assert (length (table da) ≤ j)%nat.
    { pose proof (length_drop (table da) j) as Hl. rewrite <- Hts in Hl. simpl in Hl. lia. }
    assert (length bufs ≤ j * entries da)%nat by nia.
    exists m. replace (length bufs - j * entries da)%nat with 0%nat by lia.
    rewrite drop_ge in Hm by lia. by split.
  - assert (Htj : table da !! j = Some t).
    { rewrite <- (Nat.add_0_r j), <- lookup_drop, <- Hts. done. }
    assert (Hjl : (j < length (table da))%nat) by (by eapply lookup_lt_Some).
    assert (Hjb : (j * entries da < length bufs)%nat) by nia.
    pose proof (Forall_lookup_1 _ _ _ _ Hs Htj) as Hlt. simpl in Hlt.
    set (n := (length bufs - j * entries da)%nat).
    cbn [fini_loop]. destruct (Z.eqb_spec (Z.of_nat n) 0); [lia|].
    rewrite table_buffer_num_eq by done. set (c := (n `min` entries da)%nat).
    assert (Hcz : Z.min (Z.of_nat n) (Z.of_nat (entries da)) = Z.of_nat c) by lia.
    rewrite Hcz, Nat2Z.id. rewrite read_at_in by lia. bindr. rewrite drop_0.
    rewrite (table_chunk_eq da bufs j t c) by (done || lia).
    assert (Hsplit : drop (j * entries da) bufs =
      take c (drop (j * entries da) bufs) ++ drop (S j * entries da) bufs).
    { rewrite <- (take_drop c (drop _ bufs)) at 1. f_equal. rewrite drop_drop.
      destruct (decide (n ≤ entries da)%nat); [rewrite !drop_ge by lia; done|]. f_equal. lia. }
    rewrite Hsplit in Hm. unfold buffer_objs at 1 in Hm. rewrite fmap_app in Hm.
    destruct (free_chunk da t (take c (drop (j * entries da) bufs)) m
      (table_objs da ts ++ buffer_objs da (drop (S j * entries da) bufs) ++ A))
      as (m1 & m2 & -> & Hf & Hm2).
    { eapply mem_live_perm; [|exact Hm]. unfold table_objs, buffer_objs. cbn [fmap list_fmap].
      simpl. constructor. solve_Permutation. }
    bindr. rewrite Hf. bindr. apply (IH (S j)).
    + by rewrite <- Nat.add_1_r, <- drop_drop, <- Hts.
    + lia.
    + exact Hm2.
Qed.

(** Entries of the current table go one by one. *)
Lemma shrink_self n1 fuel da n2 idx self k rest bs m B :
  config_ok da → 0 ≤ idx + 1 → 0 ≤ n2 →
  (∀ t, self = Some t → length (buffer t) = entries da ∧ bs = take n1 (drop (Z.to_nat (idx + 1)) (buffer t))) →
  (n1 = 0%nat ∨ is_Some self) → length bs = n1 → idx + Z.of_nat n1 < Z.of_nat (entries da) →
  mem_live m (buffer_objs da bs ++ B) →
  ∃ m', mem_live m' B ∧
    shrink_loop (n1 + fuel) da (Z.of_nat n1 + n2) idx self k rest m =
    shrink_loop fuel da n2 (idx + Z.of_nat n1) self k rest m'.
Proof.
  intros Hc. pose proof (entries_bounds da Hc) as [HT HT2]. pose proof (table_buffer_num_eq da Hc) as Htb.
  revert idx bs m. induction n1 as [|n1 IH]; intros idx bs m Hidx Hn2 Hself Hdef Hlen Hend Hm.
  - apply nil_length_inv in Hlen as ->. exists m. split; [done|]. simpl. by rewrite Z.add_0_r.
  - destruct Hdef as [?|[t Ht]]; [done|]. destruct (Hself t Ht) as [Hlt Hbs].
    destruct bs as [|b bs]; [done|]. simpl in Hlen.
    destruct (mfree_object _ _ _ Hm) as (m1 & Hf & Hm1). simpl in Hf.
    assert (Hgb : getb (buffer t) (idx + 1) = Some b).
    { apply getb_Some. split; [lia|]. rewrite <- (Nat.add_0_r (Z.to_nat _)), <- lookup_drop.
      rewrite <- (lookup_take_lt _ (S n1)) by lia. by rewrite <- Hbs. }
    assert (Htail : bs = take n1 (drop (Z.to_nat (idx + 1 + 1)) (buffer t))).
    { replace (Z.to_nat (idx + 1 + 1)) with (Z.to_nat (idx + 1) + 1)%nat by lia.
      rewrite <- drop_drop. destruct (drop (Z.to_nat (idx + 1)) (buffer t)) as [|b' l]; [done|].
      simpl in Hbs. injection Hbs as _ ->. simpl. by rewrite drop_0. }
    destruct (IH (idx + 1) bs m1) as (m' & Hm' & He); try (done || lia).
    { intros t' Ht'. assert (t' = t) as -> by congruence. done. }
    { right. by eexists. }
    exists m'. split; [done|]. simpl Nat.add. cbn [shrink_loop].
    destruct (Z.eqb_spec (Z.of_nat (S n1) + n2) 0); [lia|].
    rewrite u32_small, Htb by lia. destruct (Z.eqb_spec (idx + 1) (Z.of_nat (entries da))); [lia|].
    rewrite Ht. bindr. rewrite Hgb. bindr. rewrite Hf. bindr. rewrite Ht in He.
    replace (Z.of_nat (S n1) + n2 - 1) with (Z.of_nat n1 + n2) by lia.
    replace (idx + Z.of_nat (S n1)) with (idx + 1 + Z.of_nat n1) by lia. exact He.
Qed.

(** Fewer buffers in the first [k] tables. *)
Lemma tabs_take da bufs num k :
  tabs da bufs → (num ≤ length bufs)%nat → (num ≤ k * entries da)%nat → (k * entries da < num + entries da)%nat →
  tabs (set_table da (take k (table da))) (take num bufs).
Proof.
  intros [Hc Hs Hn Hb] Hnum Hk1 Hk2. pose proof (entries_bounds da Hc) as [HT _].
  assert (Hkl : (k ≤ length (table da))%nat) by nia.
  split; cbn [table set_table]; change (entries (set_table da _)) with (entries da).
  - by destruct Hc.
  - by apply Forall_take.
  - rewrite !length_take. replace (num `min` length bufs)%nat with num by lia.
    replace (k `min` length (table da))%nat with k by lia. done.
  - intros j r b Hr Hl. apply lookup_take_Some in Hl as [Hl Hlt].
    destruct (Hb j r b Hr Hl) as (t & Ht & Hbt). exists t. split; [|done].
    rewrite lookup_take_lt; [done|nia].
Qed.

(** The entry of the last buffer that stays, in the last table that stays. *)
Lemma last_entry T num k :
  (1 ≤ T)%nat → (num ≤ k * T)%nat → (k * T < num + T)%nat →
  (Z.of_nat num - 1) mod Z.of_nat T = Z.of_nat (T - 1 - (k * T - num)).
Proof.
  intros HT Hk1 Hk2. symmetry. apply Z.mod_unique_pos with (q := Z.of_nat k - 1); nia.
Qed.

Lemma self_entries da bufs num k n1 t :
  tabs da bufs → (num ≤ S k * entries da)%nat → (S k * entries da < num + entries da)%nat →
  table da !! k = Some t → (num + n1 ≤ length bufs)%nat → (num + n1 ≤ S k * entries da)%nat →
  take n1 (drop num bufs) = take n1 (drop (num - k * entries da) (buffer t)).
Proof.
  intros [_ Hs _ Hb] Hk1 Hk2 Ht Hl1 Hl2. apply list_eq. intros i. destruct (decide (i < n1)%nat).
  - rewrite !lookup_take_lt, !lookup_drop by done.
    destruct (lookup_lt_is_Some_2 bufs (num + i)) as [b Hbi]; [lia|].
    replace (num + i)%nat with (k * entries da + (num - k * entries da + i))%nat in Hbi by nia.
    destruct (Hb k (num - k * entries da + i)%nat b ltac:(nia) Hbi) as (t' & Ht' & Hbt).
    replace (num + i)%nat with (k * entries da + (num - k * entries da + i))%nat by nia. congruence.
  - by rewrite !lookup_take_ge by lia.
Qed.

Lemma set_table_id da : set_table da (table da) = da.
Proof. by destruct da. Qed.

(** The end of the loop: at most one table is left to release, as a whole. *)
Lemma shrink_rest da bufs num k fuel self m A :
  tabs da bufs → (num ≤ k * entries da)%nat → (k * entries da < num + entries da)%nat →
  (length bufs ≤ S k * entries da)%nat → (length bufs - k * entries da ≤ fuel)%nat →
  mem_live m (table_objs da (table da) ++ buffer_objs da (take num bufs) ++
              buffer_objs da (drop (k * entries da) bufs) ++ A) →
  ∃ m', shrink_loop fuel da (Z.of_nat (length bufs - k * entries da)) (Z.of_nat (entries da) - 1) self k
          (drop k (table da)) m = Some (set_table da (take k (table da)), m') ∧
    mem_live m' (table_objs da (take k (table da)) ++ buffer_objs da (take num bufs) ++ A).
Proof.
  intros Ht Hk1 Hk2 Hone Hfuel Hm. pose proof Ht as [Hc Hs Hn _].
  pose proof (entries_bounds da Hc) as [HT HT2].
  destruct (decide (length bufs ≤ k * entries da)%nat) as [Hno|Hyes].
  - assert (length (table da) ≤ k)%nat by nia. rewrite take_ge by done.
    replace (length bufs - k * entries da)%nat with 0%nat by lia. rewrite drop_ge in Hm by lia.
    exists m. rewrite set_table_id. split; [by destruct fuel|exact Hm].
  - destruct fuel as [|fuel]; [lia|]. cbn [shrink_loop].
    destruct (Z.eqb_spec (Z.of_nat (length bufs - k * entries da)) 0); [lia|].
    rewrite Z.sub_add, u32_small, table_buffer_num_eq, Z.eqb_refl by (done || lia).
    destruct (lookup_lt_is_Some_2 (table da) k) as [t Htk]; [nia|].
    assert (Hlen : length (table da) = S k) by nia.
    pose proof (Forall_lookup_1 _ _ _ _ Hs Htk) as Hlt. simpl in Hlt.
    assert (Hdrop : drop k (table da) = [t]).
    { rewrite (drop_S _ t) by done. by rewrite drop_ge by lia. }
    rewrite Hdrop. set (c := (length bufs - k * entries da)%nat).
    change (table_buffer_num (set_table da _)) with (table_buffer_num da).
    rewrite table_buffer_num_eq, Z.min_l, Nat2Z.id, read_at_in, drop_0 by (done || lia). bindr.
    rewrite (table_chunk_eq da bufs k t c) by (done || lia).
    rewrite (take_ge (drop _ bufs) c) by (rewrite length_drop; lia).
    destruct (free_chunk da t (drop (k * entries da) bufs) m
      (table_objs da (take k (table da)) ++ buffer_objs da (take num bufs) ++ A)) as (m1 & m2 & -> & Hf & Hm2).
    { eapply mem_live_perm; [|exact Hm]. rewrite <- (take_drop k (table da)) at 1. rewrite Hdrop.
      unfold table_objs. rewrite fmap_app. cbn [fmap list_fmap]. solve_Permutation. }
    bindr. rewrite Hf. bindr. rewrite Z.sub_diag. exists m2. split; [by destruct fuel|exact Hm2].
Qed.

(** The loop first releases the entries of the last table that stays. *)
Lemma shrink_first da bufs num k idx self m A :
  tabs da bufs → (num ≤ length bufs)%nat →
  (num ≤ k * entries da)%nat → (k * entries da < num + entries da)%nat →
  idx = (Z.of_nat num - 1) mod Z.of_nat (entries da) →
  self = match k with O => None | S k => table da !! k end →
  mem_live m (da_objs da bufs ++ A) →
  ∃ m1 idx1, shrink_loop (length bufs - num) da (Z.of_nat (length bufs - num)) idx self k (drop k (table da)) m
    = shrink_loop (length bufs - k * entries da) da (Z.of_nat (length bufs - k * entries da)) idx1 self k
        (drop k (table da)) m1 ∧
    ((k * entries da < length bufs)%nat → idx1 = Z.of_nat (entries da) - 1) ∧
    mem_live m1 (table_objs da (table da) ++ buffer_objs da (take num bufs) ++
                 buffer_objs da (drop (k * entries da) bufs) ++ A).
Proof.
  intros Ht Hnum Hk1 Hk2 Hidx Hself Hm. pose proof Ht as [Hc Hs Hn _].
  pose proof (entries_bounds da Hc) as [HT HT2].
  set (n1 := (length bufs `min` (k * entries da) - num)%nat).
  rewrite (last_entry (entries da) num k) in Hidx by done.
  assert (Hsplit : drop num bufs = take n1 (drop num bufs) ++ drop (k * entries da) bufs).
  { rewrite <- (take_drop n1 (drop num bufs)) at 1. f_equal. rewrite drop_drop.
    destruct (decide (length bufs ≤ k * entries da)%nat); [by rewrite !drop_ge by lia|]. f_equal. lia. }
  destruct (shrink_self n1 (length bufs - k * entries da) da
    (Z.of_nat (length bufs - k * entries da)) idx self k (drop k (table da)) (take n1 (drop num bufs)) m
    (table_objs da (table da) ++ buffer_objs da (take num bufs) ++
     buffer_objs da (drop (k * entries da) bufs) ++ A)) as (m1 & Hm1 & He); try (done || lia).
  - subst self. intros t Ht'. destruct k as [|k]; [done|].
    split; [by eapply (Forall_lookup_1 _ _ _ _ Hs)|].
    rewrite (self_entries da bufs num k n1 t) by (done || lia). do 2 f_equal. nia.
  - subst self. destruct k as [|k]; [left; lia|]. destruct (decide (n1 = 0)%nat) as [|Hn1]; [by left|].
    right. apply lookup_lt_is_Some_2. nia.
  - rewrite length_take, length_drop. lia.
  - eapply mem_live_perm; [|exact Hm]. unfold da_objs, table_objs, buffer_objs.
    assert (Hb : bufs = take num bufs ++ take n1 (drop num bufs) ++ drop (k * entries da) bufs)
      by (rewrite <- Hsplit; by rewrite take_drop).
    rewrite Hb at 1. rewrite !fmap_app. solve_Permutation.
  - exists m1, (idx + Z.of_nat n1). split; [|split; [lia|exact Hm1]].
    replace (length bufs - num)%nat with (n1 + (length bufs - k * entries da))%nat by lia.
    rewrite Nat2Z.inj_add. exact He.
Qed.

(** The loop releases the buffers behind the first [num] and their tables, as long
    as these are at most one. *)
Lemma shrink_loop_spec da bufs num k idx self m A :
  tabs da bufs → (num ≤ length bufs)%nat →
  (num ≤ k * entries da)%nat → (k * entries da < num + entries da)%nat →
  (length bufs ≤ S k * entries da)%nat →
  idx = (Z.of_nat num - 1) mod Z.of_nat (entries da) →
  self = match k with O => None | S k => table da !! k end →
  mem_live m (da_objs da bufs ++ A) →
  ∃ m', shrink_loop (length bufs - num) da (Z.of_nat (length bufs - num)) idx self k (drop k (table da)) m
        = Some (set_table da (take k (table da)), m') ∧
    mem_live m' (da_objs (set_table da (take k (table da))) (take num bufs) ++ A).
Proof.
  intros Ht Hnum Hk1 Hk2 Hone Hidx Hself Hm.
  destruct (shrink_first da bufs num k idx self m A) as (m1 & idx1 & -> & Hidx1 & Hm1); try done.
  destruct (shrink_rest da bufs num k (length bufs - k * entries da) self m1 A)
    as (m' & Hs' & Hm'); [done..|exact Hm1|].
  exists m'. rewrite (assoc_L (++)) in Hm'. split; [|exact Hm']. rewrite <- Hs'.
  destruct (decide (length bufs ≤ k * entries da)%nat).
  - by replace (length bufs - k * entries da)%nat with 0%nat by lia.
  - by rewrite Hidx1 by lia.
Qed.

(** With two tables to release the loop leaves the entries of the second. *)
Lemma shrink_loop_overrun da bufs num k idx self m A :
  tabs da bufs → (num ≤ length bufs)%nat →
  (num ≤ k * entries da)%nat → (k * entries da < num + entries da)%nat →
  (S k * entries da < length bufs)%nat →
  idx = (Z.of_nat num - 1) mod Z.of_nat (entries da) →
  self = match k with O => None | S k => table da !! k end →
  mem_live m (da_objs da bufs ++ A) →
  shrink_loop (length bufs - num) da (Z.of_nat (length bufs - num)) idx self k (drop k (table da)) m = None.
Proof.
  intros Ht Hnum Hk1 Hk2 Htwo Hidx Hself Hm. pose proof Ht as [Hc Hs Hn _].
  pose proof (entries_bounds da Hc) as [HT HT2].
  destruct (shrink_first da bufs num k idx self m A) as (m1 & idx1 & -> & Hidx1 & Hm1); try done.
  rewrite Hidx1 by lia.
  destruct (length bufs - k * entries da)%nat as [|fuel] eqn:Hfuel; [lia|]. cbn [shrink_loop].
  destruct (Z.eqb_spec (Z.of_nat (S fuel)) 0); [lia|].
  rewrite Z.sub_add, u32_small, table_buffer_num_eq, Z.eqb_refl by (done || lia).
  destruct (lookup_lt_is_Some_2 (table da) k) as [t Htk]; [nia|].
  destruct (lookup_lt_is_Some_2 (table da) (S k)) as [t' Htk']; [nia|].
  rewrite (drop_S _ t), (drop_S _ t') by done.
  destruct (read_at (buffer t) 0 _) as [bs|]; bindr; [|done].
  destruct (mfree_all (rev bs) m1) as [m2|]; bindr; [|done].
  destruct (mfree m2 (t_addr t)) as [m3|]; bindr; [|done]. cbn [head tail].
  change (table_buffer_num (set_table da _)) with (table_buffer_num da).
  rewrite table_buffer_num_eq, Z.min_r by (done || lia).
  assert (Hb : getb (buffer t') (Z.of_nat (entries da) + 1) = None).
  { unfold getb. rewrite decide_True by lia. apply lookup_ge_None_2.
    pose proof (Forall_lookup_1 _ _ _ _ Hs Htk') as Hlt. simpl in Hlt. lia. }
  assert (Hgt : Z.of_nat (S fuel) - Z.of_nat (entries da) ≠ 0) by lia.
  destruct fuel as [|fuel]; cbn [shrink_loop]; rewrite (proj2 (Z.eqb_neq _ _) Hgt); [done|].
  rewrite u32_small by lia.
  change (table_buffer_num (set_table da _)) with (table_buffer_num da).
  rewrite table_buffer_num_eq by done.
  destruct (Z.eqb_spec (Z.of_nat (entries da) + 1) (Z.of_nat (entries da))); [lia|].
  bindr. by rewrite Hb.
Qed.
End releasing.

(** ** Sizes again *)

(** The number of tables for [n] buffers. *)
Definition tables_of (da : vsf_dynarr_t) (n : nat) : nat := (n + entries da - 1) / entries da.

Lemma tables_of_spec da n : config_ok da →
  (n ≤ tables_of da n * entries da)%nat ∧ (tables_of da n * entries da < n + entries da)%nat.
Proof.
  intros Hc. pose proof (entries_bounds da Hc) as [HT _]. unfold tables_of.
  pose proof (Nat.div_mod_eq (n + entries da - 1) (entries da)).
  pose proof (Nat.mod_upper_bound (n + entries da - 1) (entries da)). lia.
Qed.

Lemma tables_of_unique da n k : config_ok da →
  (n ≤ k * entries da)%nat → (k * entries da < n + entries da)%nat → tables_of da n = k.
Proof. intros Hc H1 H2. pose proof (tables_of_spec da n Hc). pose proof (entries_bounds da Hc). nia. Qed.

(** The number of buffers of [size] items. *)
Lemma buffers_of_size da size :
  config_ok da → 0 ≤ size → size + 2 ^ item_num_bitlen da - 1 < 4294967296 →
  ∃ num : nat, buffers_of da size = Z.of_nat num ∧
    size ≤ Z.of_nat num * 2 ^ item_num_bitlen da ∧ Z.of_nat num * 2 ^ item_num_bitlen da < size + 2 ^ item_num_bitlen da.
Proof.
  intros Hc H0 Hb. pose proof (pow2_bounds _ (cfg_items _ Hc)) as Hpow.
  pose proof (Z.div_mod (size + 2 ^ item_num_bitlen da - 1) (2 ^ item_num_bitlen da) ltac:(lia)) as Hd.
  pose proof (Z.mod_pos_bound (size + 2 ^ item_num_bitlen da - 1) (2 ^ item_num_bitlen da) ltac:(lia)) as Hm.
  assert (0 ≤ (size + 2 ^ item_num_bitlen da - 1) / 2 ^ item_num_bitlen da) by (apply Z.div_pos; lia).
  exists (Z.to_nat ((size + 2 ^ item_num_bitlen da - 1) / 2 ^ item_num_bitlen da)).
  rewrite Z2Nat.id by done. split; [|lia].
  unfold buffers_of. rewrite buffer_item_num_eq, Z.shiftr_div_pow2 by (done || apply (cfg_items _ Hc)).
  by rewrite u32_small by lia.
Qed.

(** The last table and entry in use, as the code computes them. *)
Lemma last_table da num :
  config_ok da → (0 < num)%nat →
  S (Z.to_nat (Z.shiftr (Z.of_nat num - 1) (table_size_bitlen da))) = tables_of da num ∧
  Z.land (Z.of_nat num - 1) (u32 (table_buffer_num da - 1)) = (Z.of_nat num - 1) mod Z.of_nat (entries da).
Proof.
  intros Hc Hn. split; [|by apply land_entries; [done|lia]].
  rewrite shiftr_entries by done. pose proof (entries_bounds da Hc) as [HT _].
  symmetry. apply tables_of_unique; [done|..];
  pose proof (Z.div_mod (Z.of_nat num - 1) (Z.of_nat (entries da)) ltac:(lia));
  pose proof (Z.mod_pos_bound (Z.of_nat num - 1) (Z.of_nat (entries da)) ltac:(lia));
  assert (0 ≤ (Z.of_nat num - 1) / Z.of_nat (entries da)) by (apply Z.div_pos; lia); nia.
Qed.

Lemma tabs_tables da bufs : tabs da bufs → length (table da) = tables_of da (length bufs).
Proof. intros [Hc _ [H1 H2] _]. symmetry. by apply tables_of_unique. Qed.

(** The entry before the first one. *)
Lemma first_entry da : config_ok da →
  u32 (u32 (Z.shiftl 1 (table_size_bitlen da)) - 1) = (Z.of_nat 0 - 1) mod Z.of_nat (entries da).
Proof.
  intros Hc. fold (table_buffer_num da). rewrite table_buffer_num_eq by done.
  pose proof (entries_bounds da Hc) as [HT HT2]. rewrite u32_small by lia.
  apply Z.mod_unique_pos with (q := -1); lia.
Qed.

Section set_size.
Context {M : Type} `{Allocator M} (A : list obj).
Implicit Types (da : vsf_dynarr_t) (m : M).

(** After growing or shrinking: the buffers before are those after, up to the
    shorter of the two. *)
Definition resized da bufs size e da' bufs' : Prop :=
  same_config da da' ∧ wf da' bufs' ∧
  (e = VSFERR_NONE ∧ da_length da' = size ∧ (bufs' `prefix_of` bufs ∨ bufs `prefix_of` bufs') ∨
   e = VSFERR_NOT_ENOUGH_RESOURCES ∧ da_length da < size ∧ bufs `prefix_of` bufs' ∧
   da_length da' = capacity da' bufs').

Lemma set_length_wf da da' bufs n :
  tabs da' bufs → same_config da da' → 0 ≤ n ≤ Z.of_nat (length bufs) * 2 ^ item_num_bitlen da →
  ((Z.of_nat (length bufs) - 1) * 2 ^ item_num_bitlen da < n ∨ bufs = []) →
  n + 2 ^ item_num_bitlen da - 1 < 4294967296 → wf (set_length da' n) bufs.
Proof.
  intros Ht (_ & Hi & _) Hn Hlast Hw. split.
  - by apply set_length_tabs.
  - unfold capacity. cbn [da_length item_num_bitlen set_length]. by rewrite Hi.
  - cbn [da_length item_num_bitlen set_length]. by rewrite Hi.
  - cbn [da_length item_num_bitlen set_length]. by rewrite Hi.
Qed.

Lemma set_length_same da da' n : same_config da da' → same_config da (set_length da' n).
Proof. done. Qed.

(** What both directions start from: the length of full buffers. *)
Lemma full_length da bufs :
  wf da bufs → capacity da bufs < 4294967296 ∧
  u32 (Z.of_nat (length bufs) * buffer_item_num da) = capacity da bufs.
Proof.
  intros [Ht Hl Hlast Hw]. pose proof (pow2_bounds _ (cfg_items _ (tabs_config _ _ Ht))) as Hpow.
  assert (Hcap : capacity da bufs < 4294967296) by (unfold capacity in *; destruct Hlast as [?| ->]; simpl; lia).
  split; [done|]. rewrite buffer_item_num_eq by apply Ht. apply u32_small. unfold capacity in *. lia.
Qed.

Lemma grow_buffers_spec da0 bufs num m :
  tabs da0 bufs → (length bufs < num)%nat → da_length da0 = capacity da0 bufs →
  Z.of_nat num * 2 ^ item_num_bitlen da0 < 4294967296 → mem_live m (da_objs da0 bufs ++ A) →
  grow_result A da0 bufs (num - length bufs)
    (grow_buffers da0 (Z.of_nat num) (Z.of_nat (length bufs)) m).
Proof.
  intros Ht Hlt Hl Hcap Hm. pose proof Ht as [Hc _ [Hn1 Hn2] _]. unfold grow_buffers.
  assert (Hready : ∀ idx, idx = (Z.of_nat (length bufs) - 1) mod Z.of_nat (entries da0) →
    grow_ready A da0 bufs (num - length bufs) idx m).
  { intros idx Hidx. split; try done. unfold capacity. nia. }
  destruct (Z.eqb_spec (Z.of_nat (length bufs)) 0) as [H0'|Hne].
  - assert (Hnil : table da0 = []) by (apply nil_length_inv; nia).
    rewrite decide_True by done. rewrite Nat2Z.id.
    pose proof (grow_loop_spec A (num - length bufs) da0 _ bufs m (Hready _ ltac:(
      rewrite H0'; by apply (first_entry da0)))) as Hg.
    rewrite Hnil in Hg. cbn [List.length] in Hg. replace (num - length bufs)%nat with num in * by lia. exact Hg.
  - destruct (last_table da0 (length bufs) Hc ltac:(lia)) as [Hk Hidx]. cbv zeta.
    set (i := Z.to_nat (Z.shiftr (Z.of_nat (length bufs) - 1) (table_size_bitlen da0))) in *.
    pose proof (tabs_tables da0 bufs Ht) as Hkt. rewrite walk_drop, decide_True by lia. bindr.
    rewrite decide_False by (intros Hd; apply (f_equal List.length) in Hd; rewrite length_drop in Hd; simpl in Hd; lia).
    rewrite Hk, <- Hkt. replace (Z.to_nat (Z.of_nat num - Z.of_nat (length bufs))) with (num - length bufs)%nat by lia.
    apply grow_loop_spec. by apply Hready.
Qed.

(** The start of the shrinking loop. *)
Lemma shrink_buffers_eq da0 bufs num m :
  tabs da0 bufs → (num < length bufs)%nat →
  ∃ idx, idx = (Z.of_nat num - 1) mod Z.of_nat (entries da0) ∧
    shrink_buffers da0 (Z.of_nat num) (Z.of_nat (length bufs)) m =
    shrink_loop (length bufs - num) da0 (Z.of_nat (length bufs - num)) idx
      match tables_of da0 num with O => None | S k => table da0 !! k end (tables_of da0 num)
      (drop (tables_of da0 num) (table da0)) m.
Proof.
  intros Ht Hlt. pose proof Ht as [Hc _ _ _]. unfold shrink_buffers.
  exists ((Z.of_nat num - 1) mod Z.of_nat (entries da0)). split; [done|].
  destruct (Z.eqb_spec (Z.of_nat num) 0) as [H0'|Hne].
  - assert (num = 0)%nat as -> by lia. rewrite (first_entry da0 Hc), Nat2Z.id, Nat.sub_0_r.
    assert (Hk : tables_of da0 0 = 0%nat)
      by (apply tables_of_unique; [done|lia|]; pose proof (entries_bounds da0 Hc); lia).
    by rewrite Hk, drop_0.
  - destruct (last_table da0 num Hc ltac:(lia)) as [Hk Hidx]. cbv zeta. rewrite Hidx.
    set (i := Z.to_nat (Z.shiftr (Z.of_nat num - 1) (table_size_bitlen da0))) in *.
    pose proof (tabs_tables da0 bufs Ht) as Hkt.
    assert (Hle : (tables_of da0 num ≤ length (table da0))%nat).
    { destruct (tables_of_spec da0 num Hc), (tables_of_spec da0 (length bufs) Hc).
      pose proof (entries_bounds da0 Hc). nia. }
    rewrite walk_drop, decide_True by lia. bindr.
    assert (Htail : tail (drop i (table da0)) = drop (tables_of da0 num) (table da0)).
    { rewrite <- Hk, <- (Nat.add_1_r i), <- drop_drop. by destruct (drop i (table da0)). }
    assert (Hhead : head (drop i (table da0)) = table da0 !! i).
    { rewrite <- (Nat.add_0_r i) at 2. rewrite <- lookup_drop. by destruct (drop i (table da0)). }
    rewrite Htail, Hhead, <- Hk.
    replace (Z.to_nat (Z.of_nat (length bufs) - Z.of_nat num)) with (length bufs - num)%nat by lia.
    by replace (Z.of_nat (length bufs) - Z.of_nat num) with (Z.of_nat (length bufs - num)) by lia.
Qed.

Lemma shrink_buffers_spec da0 bufs num m :
  tabs da0 bufs → (num < length bufs)%nat →
  (tables_of da0 (length bufs) ≤ S (tables_of da0 num))%nat → mem_live m (da_objs da0 bufs ++ A) →
  ∃ m', shrink_buffers da0 (Z.of_nat num) (Z.of_nat (length bufs)) m
    = Some (set_table da0 (take (tables_of da0 num) (table da0)), m') ∧
    mem_live m' (da_objs (set_table da0 (take (tables_of da0 num) (table da0))) (take num bufs) ++ A).
Proof.
  intros Ht Hlt Hone Hm. pose proof Ht as [Hc _ _ _].
  destruct (shrink_buffers_eq da0 bufs num m Ht Hlt) as (idx & Hidx & ->).
  destruct (tables_of_spec da0 num Hc) as [Hk1 Hk2].
  pose proof (tables_of_spec da0 (length bufs) Hc) as [Hk3 _].
  apply shrink_loop_spec; try done; [lia|nia].
Qed.

Lemma shrink_buffers_overrun da0 bufs num m :
  tabs da0 bufs → (num < length bufs)%nat →
  (S (tables_of da0 num) * entries da0 < length bufs)%nat → mem_live m (da_objs da0 bufs ++ A) →
  shrink_buffers da0 (Z.of_nat num) (Z.of_nat (length bufs)) m = None.
Proof.
  intros Ht Hlt Htwo Hm. pose proof Ht as [Hc _ _ _].
  destruct (shrink_buffers_eq da0 bufs num m Ht Hlt) as (idx & Hidx & ->).
  destruct (tables_of_spec da0 num Hc) as [Hk1 Hk2].
  eapply (shrink_loop_overrun da0 bufs num); try done. lia.
Qed.

Lemma set_size_ok da bufs size m :
  wf da bufs → 0 ≤ size → size + 2 ^ item_num_bitlen da - 1 < 4294967296 →
  Z.of_nat (tables_of da (length bufs)) ≤ Z.of_nat (tables_of da (Z.to_nat (buffers_of da size))) + 1 →
  mem_live m (da_objs da bufs ++ A) →
  ∃ e da' bufs' m', vsf_dynarr_set_size da size m = Some (e, da', m') ∧
    resized da bufs size e da' bufs' ∧ mem_live m' (da_objs da' bufs' ++ A).
Proof.
  intros Hwf H0s Hsz Hone Hm. pose proof Hwf as [Ht Hl Hlast Hw]. pose proof Ht as [Hc _ _ _].
  pose proof (pow2_bounds _ (cfg_items _ Hc)) as Hpow.
  destruct (buffers_of_size da size Hc H0s Hsz) as (num & Hnum & Hn1 & Hn2).
  destruct (full_length da bufs Hwf) as [Hcap Hfull].
  unfold vsf_dynarr_set_size. rewrite Hnum, (wf_buffers da bufs Hwf), Hfull in *. rewrite Nat2Z.id in Hone.
  set (da0 := set_length da (capacity da bufs)).
  assert (Ht0 : tabs da0 bufs) by by apply set_length_tabs.
  assert (Hlast' : (Z.of_nat num - 1) * 2 ^ item_num_bitlen da < size ∨ num = 0%nat) by (left; lia).
  destruct (Z.ltb_spec (Z.of_nat (length bufs)) (Z.of_nat num)) as [Hg|Hg].
  - destruct (grow_buffers_spec da0 bufs num m Ht0 ltac:(lia) eq_refl ltac:(cbn; lia) Hm)
      as (e & da' & new & m' & Hrun & (Ht' & Hs' & Hl' & Hm') & Ho).
    cbv zeta. fold da0. rewrite Hrun. bindr.
    assert (Hlen : length (bufs ++ new) = (length bufs + length new)%nat) by by rewrite length_app.
    destruct Ho as [[-> Hall]|[-> Hless]].
    + rewrite decide_True by done. exists VSFERR_NONE, (set_length da' size), (bufs ++ new), m'.
      split; [done|]. split; [|exact Hm']. split; [done|]. split.
      * apply (set_length_wf da); [done|done|rewrite Hlen; lia| |done].
        left. rewrite Hlen. replace (length bufs + length new)%nat with num by lia. lia.
      * left. split_and!; [done..|]. right. by apply prefix_app_r.
    + rewrite decide_False by done. exists VSFERR_NOT_ENOUGH_RESOURCES, da', (bufs ++ new), m'.
      split; [done|]. split; [|exact Hm']. split; [done|].
      pose proof Hs' as (_ & Hi & _). set (p := 2 ^ item_num_bitlen da) in *.
      set (x := (Z.of_nat (length bufs) + Z.of_nat (length new)) * p).
      assert (Hcapl : capacity da' (bufs ++ new) = x).
      { unfold capacity. rewrite Hi, Hlen. unfold x, p. cbn. lia. }
      assert (Hlx : da_length da' = x) by (rewrite Hl'; unfold capacity; rewrite Hlen; unfold x, p; cbn; lia).
      assert (Hx : 0 ≤ x ≤ (Z.of_nat num - 1) * p) by (unfold x; nia).
      assert (2 ^ item_num_bitlen da' = p) by (rewrite Hi; done).
      split.
      * split; [done|lia| |].
        -- left. rewrite Hlx, Hlen. unfold x. nia.
        -- rewrite Hlx. lia.
      * right. split_and!; [done| |by apply prefix_app_r|by rewrite Hlx, Hcapl].
        assert (capacity da bufs < size) by (unfold capacity; nia). lia.
  - destruct (Z.ltb_spec (Z.of_nat num) (Z.of_nat (length bufs))) as [Hs|Hs].
    + destruct (shrink_buffers_spec da0 bufs num m Ht0 ltac:(lia)) as (m' & Hrun & Hm').
      { change (tables_of da0) with (tables_of da). lia. }
      { exact Hm. }
      cbv zeta. fold da0. rewrite Hrun. bindr.
      set (da' := set_table da0 (take (tables_of da0 num) (table da0))) in *.
      exists VSFERR_NONE, (set_length da' size), (take num bufs), m'.
      split; [done|]. split; [|exact Hm']. split; [done|].
      destruct (tables_of_spec da0 num (tabs_config _ _ Ht0)) as [Hk1 Hk2].
      split; [|left; split_and!; [done..|]; left; apply prefix_take].
      apply (set_length_wf da); [apply (tabs_take da0); (done || lia)|done| | |done].
      * rewrite length_take. replace (num `min` length bufs)%nat with num by lia. lia.
      * left. rewrite length_take. replace (num `min` length bufs)%nat with num by lia. lia.
    + assert (num = length bufs) as -> by lia. cbv zeta.
      exists VSFERR_NONE, (set_length da0 size), bufs, m.
      split; [done|]. split; [|exact Hm]. split; [done|].
      split; [apply (set_length_wf da); [done..|lia|left; lia|done]|].
      left. split_and!; [done..|]. by left.
Qed.
End set_size.

(** ** Items *)

(** The buffer and the offset of an item. *)
Definition item_buf (da : vsf_dynarr_t) (pos : Z) : nat := Z.to_nat (pos / 2 ^ item_num_bitlen da).
Definition item_off (da : vsf_dynarr_t) (pos : Z) : Z := pos mod 2 ^ item_num_bitlen da * item_size da.

Lemma item_bounds da bufs pos :
  wf da bufs → 0 ≤ pos < da_length da →
  (item_buf da pos < length bufs)%nat ∧ 0 ≤ item_off da pos ∧
  item_off da pos + item_size da ≤ buffer_size da.
Proof.
  intros [Ht Hl _ _] Hpos. pose proof Ht as [Hc _ _ _].
  pose proof (pow2_bounds _ (cfg_items _ Hc)) as Hpow. destruct (cfg_size _ Hc) as [Hsz _].
  destruct (buffer_size_eq da Hc) as [-> _]. unfold item_buf, item_off, capacity in *.
  pose proof (Z.mod_pos_bound pos (2 ^ item_num_bitlen da) ltac:(lia)).
  assert (0 ≤ pos / 2 ^ item_num_bitlen da) by (apply Z.div_pos; lia).
  assert (pos / 2 ^ item_num_bitlen da < Z.of_nat (length bufs)) by (apply Z.div_lt_upper_bound; lia).
  split; [lia|]. nia.
Qed.

Lemma get_out da pos : ¬ pos < da_length da → vsf_dynarr_get da pos = Some NULL.
Proof. intros Hp. unfold vsf_dynarr_get. by destruct (Z.ltb_spec pos (da_length da)). Qed.

Lemma get_spec da bufs pos :
  wf da bufs → 0 ≤ pos < da_length da →
  vsf_dynarr_get da pos = (λ b, u32 (b + item_off da pos)) <$> bufs !! item_buf da pos.
Proof.
  intros Hwf Hpos. destruct (item_bounds da bufs pos Hwf Hpos) as (Hb & Ho & He).
  pose proof Hwf as [Ht _ _ _]. pose proof Ht as [Hc Hs [Hn1 Hn2] Hbufs].
  pose proof (entries_bounds da Hc) as [HT HT2].
  pose proof (pow2_bounds _ (cfg_items _ Hc)) as Hpow. destruct (cfg_size _ Hc) as [Hsz Hsz4].
  destruct (buffer_size_eq da Hc) as [_ Hbs].
  unfold vsf_dynarr_get. destruct (Z.ltb_spec pos (da_length da)); [|lia].
  rewrite buffer_item_num_eq by done. rewrite (u32_small (2 ^ _ - 1)) by lia.
  rewrite Z.sub_1_r, <- Z.ones_equiv, Z.land_ones by apply (cfg_items _ Hc).
  rewrite (Z.shiftr_div_pow2 pos) by apply (cfg_items _ Hc).
  assert (Hq : 0 ≤ pos / 2 ^ item_num_bitlen da) by (apply Z.div_pos; lia).
  rewrite land_entries, shiftr_entries by done.
  assert (Hoff : Z.shiftr (u32 (pos mod 2 ^ item_num_bitlen da * item_size da)) 2 * 4 = item_off da pos).
  { fold (item_off da pos). rewrite u32_small, Z.shiftr_div_pow2 by lia. change (2 ^ 2) with 4.
    assert (item_off da pos mod 4 = 0) by (unfold item_off; rewrite Z.mul_mod, Hsz4, Z.mul_0_r by lia; done).
    Z.div_mod_to_equations. lia. }
  set (i := item_buf da pos) in *. unfold item_buf in i.
  assert (Hi : pos / 2 ^ item_num_bitlen da = Z.of_nat i) by lia. rewrite Hi.
  set (T := entries da) in *. rewrite <- Nat2Z.inj_div, <- Nat2Z.inj_mod, Nat2Z.id.
  pose proof (Nat.div_mod_eq i T). pose proof (Nat.mod_upper_bound i T ltac:(lia)).
  destruct (lookup_lt_is_Some_2 bufs i Hb) as [b Hbi]. rewrite Hbi.
  destruct (Hbufs (i / T)%nat (i mod T)%nat b) as (t & Htab & Hbt); [done|by rewrite Nat.mul_comm, <- Nat.div_mod_eq|].
  assert ((i / T < length (table da))%nat) by (by eapply lookup_lt_Some).
  rewrite walk_drop, decide_True by lia. bindr. rewrite (drop_S _ t) by done.
  assert (Hg : getb (buffer t) (Z.of_nat (i mod T)) = Some b) by (apply getb_Some; split; [lia|by rewrite Nat2Z.id]).
  rewrite Hg. cbn. do 3 f_equal. lia.
Qed.

Section items.
Context {M : Type} `{Allocator M} (A : list obj).
Context (da : vsf_dynarr_t) (bufs : list Z) (m : M).
Context (Hwf : wf da bufs) (Hm : mem_live m (da_objs da bufs ++ A)).

Lemma buffer_live i b : bufs !! i = Some b → ∃ B, mem_live m ((b, buffer_size da) :: B).
Proof using Hm.
  intros Hi. apply list_elem_of_split_length in Hi as (l1 & l2 & Hb & _).
  exists (table_objs da (table da) ++ buffer_objs da l1 ++ buffer_objs da l2 ++ A).
  eapply mem_live_perm; [|exact Hm]. unfold da_objs. rewrite Hb, fmap_app. cbn [fmap list_fmap].
  unfold table_objs, buffer_objs. solve_Permutation.
Qed.

Lemma buffers_apart i j b c :
  bufs !! i = Some b → bufs !! j = Some c → i ≠ j → apart (b, buffer_size da) (c, buffer_size da).
Proof using Hm.
  assert (Hlt : ∀ i j b c, bufs !! i = Some b → bufs !! j = Some c → (i < j)%nat →
    apart (b, buffer_size da) (c, buffer_size da)).
  { clear i j b c. intros i j b c Hi Hj Hij.
    pose proof (take_drop_middle _ _ _ Hi) as Hs. rewrite <- Hs, lookup_app_r in Hj
      by (rewrite length_take; lia).
    rewrite length_take in Hj. replace (i `min` length bufs)%nat with i in Hj
      by (apply lookup_lt_Some in Hi; lia).
    destruct (j - i)%nat as [|d] eqn:Hd; [lia|]. simpl in Hj.
    apply list_elem_of_split_length in Hj as (l1 & l2 & Hb & _). rewrite Hb in Hs.
    apply (mem_live_apart m _ _ (table_objs da (table da) ++ buffer_objs da (take i bufs) ++
      buffer_objs da l1 ++ buffer_objs da l2 ++ A)).
    eapply mem_live_perm; [|exact Hm]. unfold da_objs. rewrite <- Hs at 1.
    rewrite !fmap_app, fmap_cons, fmap_app, fmap_cons.
    unfold table_objs, buffer_objs. solve_Permutation. }
  intros Hi Hj Hij. destruct (decide (i < j)%nat); [by eapply Hlt|].
  assert (Ha : apart (c, buffer_size da) (b, buffer_size da)) by (eapply Hlt; [done..|lia]).
  unfold apart in *. tauto.
Qed.

(** The address of an item; different items do not overlap. *)
Lemma get_live pos :
  0 ≤ pos < da_length da →
  ∃ b, bufs !! item_buf da pos = Some b ∧ 0 < b ∧ b + buffer_size da < 4294967296 ∧
    vsf_dynarr_get da pos = Some (b + item_off da pos).
Proof using Hwf Hm.
  intros Hpos. destruct (item_bounds da bufs pos Hwf Hpos) as (Hb & Ho & He).
  destruct (lookup_lt_is_Some_2 bufs _ Hb) as [b Hbi]. destruct (buffer_live _ _ Hbi) as [B HB].
  destruct (mem_live_bounds _ _ _ HB) as (Hb0 & Hb1 & Hb2). cbn in Hb0, Hb1, Hb2.
  pose proof (cfg_size _ (tabs_config _ _ (wf_tabs _ _ Hwf))) as [Hsz _].
  exists b. split_and!; [done..|]. rewrite (get_spec da bufs) by done. rewrite Hbi. cbn. f_equal.
  apply u32_small. lia.
Qed.

Lemma items_apart pos pos' a a' :
  0 ≤ pos < da_length da → 0 ≤ pos' < da_length da → pos ≠ pos' →
  vsf_dynarr_get da pos = Some a → vsf_dynarr_get da pos' = Some a' →
  apart (a, item_size da) (a', item_size da).
Proof using Hwf Hm.
  intros Hp Hp' Hne Ha Ha'.
  destruct (get_live pos Hp) as (b & Hb & Hb0 & Hb1 & Hg). rewrite Ha in Hg. injection Hg as ->.
  destruct (get_live pos' Hp') as (b' & Hb' & Hb0' & Hb1' & Hg'). rewrite Ha' in Hg'. injection Hg' as ->.
  destruct (item_bounds da bufs pos Hwf Hp) as (_ & Ho & He).
  destruct (item_bounds da bufs pos' Hwf Hp') as (_ & Ho' & He').
  destruct (decide (item_buf da pos = item_buf da pos')) as [Heq|Hnb].
  - rewrite Heq in Hb. assert (b' = b) as -> by congruence.
    pose proof (tabs_config _ _ (wf_tabs _ _ Hwf)) as Hc.
    pose proof (pow2_bounds _ (cfg_items _ Hc)) as Hpow. destruct (cfg_size _ Hc) as [Hsz _].
    assert (Hmod : pos mod 2 ^ item_num_bitlen da ≠ pos' mod 2 ^ item_num_bitlen da).
    { intros Hmod. apply Hne. unfold item_buf in Heq.
      assert (0 ≤ pos / 2 ^ item_num_bitlen da) by (apply Z.div_pos; lia).
      assert (0 ≤ pos' / 2 ^ item_num_bitlen da) by (apply Z.div_pos; lia).
      rewrite (Z.div_mod pos (2 ^ item_num_bitlen da)), (Z.div_mod pos' (2 ^ item_num_bitlen da)) by lia.
      rewrite Hmod. f_equal. f_equal. lia. }
    unfold apart, item_off. cbn [fst snd].
    destruct (Z.lt_total (pos mod 2 ^ item_num_bitlen da) (pos' mod 2 ^ item_num_bitlen da)) as [|[|]];
      [left; nia|done|right; nia].
  - pose proof (buffers_apart _ _ _ _ Hb Hb' Hnb) as Hap. unfold apart in *. cbn in *. lia.
Qed.
End items.

(** ** The array *)

Lemma get_prefix da da' bufs bufs' pos :
  wf da bufs → wf da' bufs' → same_config da da' → (bufs' `prefix_of` bufs ∨ bufs `prefix_of` bufs') →
  0 ≤ pos < da_length da → pos < da_length da' → vsf_dynarr_get da' pos = vsf_dynarr_get da pos.
Proof.
  intros Hwf Hwf' (Hs1 & Hs2 & Hs3) Hpre Hp Hp'.
  destruct (item_bounds da bufs pos Hwf Hp) as (Hb & _).
  destruct (item_bounds da' bufs' pos Hwf' ltac:(lia)) as (Hb' & _).
  rewrite (get_spec da bufs), (get_spec da' bufs') by (done || lia).
  unfold item_buf, item_off in *. rewrite Hs1, Hs2 in *. f_equal.
  destruct Hpre as [Hpre|Hpre]; [symmetry|];
    destruct (lookup_lt_is_Some_2 _ _ Hb) as [b Hbi], (lookup_lt_is_Some_2 _ _ Hb') as [b' Hbi'];
    rewrite Hbi, Hbi'; [apply (prefix_lookup_Some _ _ _ _ Hbi') in Hpre|apply (prefix_lookup_Some _ _ _ _ Hbi) in Hpre];
    congruence.
Qed.

(** The items of an array.  Position [pos] has an address exactly when it is
    below the length; the item lies inside one of the buffers of the array, and
    different items do not overlap. *)
Theorem vsf_dynarr_items `{Allocator M} A da bufs (m : M) :
  wf da bufs → mem_live m (da_objs da bufs ++ A) →
  (∀ pos, da_length da ≤ pos → vsf_dynarr_get da pos = Some NULL) ∧
  (∀ pos, 0 ≤ pos < da_length da → ∃ a b, vsf_dynarr_get da pos = Some a ∧ a ≠ NULL ∧
     b ∈ bufs ∧ b ≤ a ∧ a + item_size da ≤ b + buffer_size da) ∧
  (∀ pos pos' a a', 0 ≤ pos < da_length da → 0 ≤ pos' < da_length da → pos ≠ pos' →
     vsf_dynarr_get da pos = Some a → vsf_dynarr_get da pos' = Some a' →
     apart (a, item_size da) (a', item_size da)).
Proof.
  intros Hwf Hm. split_and!.
  - intros pos Hp. apply get_out. lia.
  - intros pos Hp. destruct (get_live A da bufs m Hwf Hm pos Hp) as (b & Hb & Hb0 & _ & Hg).
    destruct (item_bounds da bufs pos Hwf Hp) as (_ & Ho & He).
    exists (b + item_off da pos), b. split_and!; [done|unfold NULL; lia|by eapply list_elem_of_lookup_2|lia|lia].
  - intros pos pos' a a'. by apply (items_apart A da bufs m).
Qed.

(** [vsf_dynarr_fini] gives everything back. *)
Lemma vsf_dynarr_fini_ok `{Allocator M} A da bufs (m : M) :
  wf da bufs → mem_live m (da_objs da bufs ++ A) →
  ∃ m', vsf_dynarr_fini da m = Some (VSFERR_NONE, set_length (set_table da []) 0, m') ∧ mem_live m' A.
Proof.
  intros Hwf Hm. unfold vsf_dynarr_fini. rewrite (wf_buffers da bufs) by done.
  destruct (dynarr_fini_loop_spec da bufs (table da) 0 (Z.of_nat (length bufs)) m A (wf_tabs _ _ Hwf))
    as (m' & Hf & Hm'); [done|lia| |].
  - simpl. rewrite drop_0, (assoc_L (++)). exact Hm.
  - rewrite Hf. bindr. by exists m'.
Qed.

(** An empty array. *)
Lemma empty_wf da : config_ok da → wf (set_length (set_table da []) 0) [].
Proof.
  intros Hc. pose proof (pow2_bounds _ (cfg_items _ Hc)). pose proof (entries_bounds da Hc) as [HT _].
  split; [split| | |]; cbn [da_length table item_num_bitlen set_length set_table].
  - by destruct Hc.
  - constructor.
  - change (entries (set_length (set_table da []) 0)) with (entries da). simpl. lia.
  - intros j r b _ Hl. by rewrite lookup_nil in Hl.
  - unfold capacity. simpl. lia.
  - by right.
  - lia.
Qed.

(** Shrinking over several tables.  When two or more tables are to go, the
    index into the table is not reset after the first and [vsf_dynarr_set_size]
    leaves the entries of the next table. *)
Theorem vsf_dynarr_shrink_overruns `{Allocator M} A da bufs size (m : M) :
  wf da bufs → 0 ≤ size → size + 2 ^ item_num_bitlen da - 1 < 4294967296 →
  Z.of_nat (tables_of da (Z.to_nat (buffers_of da size))) + 1 < Z.of_nat (tables_of da (length bufs)) →
  mem_live m (da_objs da bufs ++ A) → vsf_dynarr_set_size da size m = None.
Proof.
  intros Hwf H0s Hsz Htwo Hm. pose proof Hwf as [Ht _ _ _]. pose proof Ht as [Hc _ _ _].
  destruct (buffers_of_size da size Hc H0s Hsz) as (num & Hnum & _).
  destruct (full_length da bufs Hwf) as [_ Hfull].
  unfold vsf_dynarr_set_size. rewrite Hnum, (wf_buffers da bufs Hwf), Hfull in *. rewrite Nat2Z.id in Htwo.
  set (da0 := set_length da (capacity da bufs)).
  assert (Ht0 : tabs da0 bufs) by by apply set_length_tabs.
  pose proof (entries_bounds da Hc) as [HT _].
  destruct (tables_of_spec da num Hc) as [Hk1 Hk2], (tables_of_spec da (length bufs) Hc) as [Hk3 Hk4].
  assert (Hlt : (S (tables_of da num) * entries da < length bufs)%nat) by nia.
  destruct (Z.ltb_spec (Z.of_nat (length bufs)) (Z.of_nat num)); [lia|].
  destruct (Z.ltb_spec (Z.of_nat num) (Z.of_nat (length bufs))); [|lia].
  assert (Hs : shrink_buffers da0 (Z.of_nat num) (Z.of_nat (length bufs)) m = None).
  { apply (shrink_buffers_overrun A); [done|lia|done|exact Hm]. }
  cbv zeta. fold da0. by rewrite Hs.
Qed.

(** C37: resizing an array.  Unless more than one table is to go, [vsf_dynarr_set_size]
    either gives the array the size, or fails for lack of memory when growing and
    leaves it longer than before but shorter than asked.  In both cases the items
    below the shorter length keep their addresses, the array is well formed and
    the memory holds exactly its tables and buffers.  When more than one table is
    to go, it takes entries from outside its table, which is undefined. *)
Theorem vsf_dynarr_set_size_correct `{Allocator M} A da bufs size (m : M) :
  wf da bufs → 0 ≤ size → size + 2 ^ item_num_bitlen da - 1 < 4294967296 →
  mem_live m (da_objs da bufs ++ A) →
  let t := Z.of_nat (tables_of da (length bufs)) in
  let t' := Z.of_nat (tables_of da (Z.to_nat (buffers_of da size))) in
  (t ≤ t' + 1 → ∃ e da' bufs' m', vsf_dynarr_set_size da size m = Some (e, da', m') ∧
    same_config da da' ∧ wf da' bufs' ∧ mem_live m' (da_objs da' bufs' ++ A) ∧
    (∀ pos, 0 ≤ pos < da_length da → pos < da_length da' →
       vsf_dynarr_get da' pos = vsf_dynarr_get da pos) ∧
    (e = VSFERR_NONE ∧ da_length da' = size ∨
     e = VSFERR_NOT_ENOUGH_RESOURCES ∧ da_length da < size ∧ da_length da ≤ da_length da')) ∧
  (t' + 1 < t → vsf_dynarr_set_size da size m = None).
Proof.
  intros Hwf Hsz Hb Hm. cbv zeta. split; [intros Hone|intros Htwo; by eapply vsf_dynarr_shrink_overruns].
  destruct (set_size_ok A da bufs size m Hwf Hsz Hb Hone Hm) as (e & da' & bufs' & m' & Hr & (Hs & Hwf' & Ho) & Hm').
  exists e, da', bufs', m'. split_and!; try done.
  - intros pos Hp Hp'. apply (get_prefix da da' bufs bufs'); try done.
    destruct Ho as [(_ & _ & ?)|(_ & _ & ? & _)]; tauto.
  - destruct Ho as [(? & ? & _)|(? & ? & Hpre & Hl)]; [by left|right]. split_and!; [done..|].
    rewrite Hl. destruct Hwf as [_ Hlen _ _]. apply prefix_length in Hpre.
    destruct Hs as (_ & Hi & _). unfold capacity in *. rewrite Hi.
    pose proof (pow2_bounds _ (cfg_items _ (tabs_config _ _ (wf_tabs _ _ Hwf')))). rewrite Hi in *. nia.
Qed.

(** ** Example *)

(** Nine items of a word in buffers of two, three tables of two buffers. *)
Definition demo_arr : vsf_dynarr_t :=
  {| item_size := 4; item_num_bitlen := 1; table_size_bitlen := 1;
     table := [{| t_addr := 4108; buffer := [4132; 4152] |}; {| t_addr := 4172; buffer := [4196; 4216] |};
               {| t_addr := 4236; buffer := [4260; 0] |}]; da_length := 9 |}.
Definition demo_bufs : list Z := [4132; 4152; 4196; 4216; 4260].
Definition demo_arr_heap : heap := (demo_alloc [12; 8; 8; 12; 8; 8; 12; 8]).2.

Lemma demo_arr_wf : wf demo_arr demo_bufs.
Proof.
  split; [split| | |]; [split; simpl; try lia; done|by_decide|by_decide| |by_decide|left; done|done].
  intros j r b Hr. change (entries demo_arr) with 2%nat in *.
  destruct j as [|[|[|j]]], r as [|[|r]]; simpl; try lia; intros Hb; try done;
    injection Hb as <-; by eexists.
Qed.

Lemma demo_arr_live : mem_live demo_arr_heap (da_objs demo_arr demo_bufs ++ []).
Proof.
  assert (Ho : (demo_alloc [12; 8; 8; 12; 8; 8; 12; 8]).1 =
    [(4260, 8); (4236, 12); (4216, 8); (4196, 8); (4172, 12); (4152, 8); (4132, 8); (4108, 12)])
    by (vm_compute; reflexivity).
  assert (Hp : da_objs demo_arr demo_bufs ++ [] ≡ₚ (demo_alloc [12; 8; 8; 12; 8; 8; 12; 8]).1)
    by (rewrite Ho; by_decide).
  rewrite Hp. apply demo_alloc_live; [by_decide|]. rewrite Ho. by_decide.
Qed.

Lemma vsf_dynarr_set_size_correct_witness :
  ∃ e da' bufs' m', vsf_dynarr_set_size demo_arr 12 demo_arr_heap = Some (e, da', m') ∧
    wf da' bufs' ∧ mem_live m' (da_objs da' bufs' ++ []).
Proof.
  destruct (vsf_dynarr_set_size_correct [] demo_arr demo_bufs 12 demo_arr_heap demo_arr_wf
    ltac:(lia) ltac:(by_decide) demo_arr_live) as [Hok _].
  destruct (Hok ltac:(by_decide)) as (e & da' & bufs' & m' & Hr & _ & Hwf & Hm & _).
  exists e, da', bufs', m'. split; [exact Hr|]. split; [exact Hwf|exact Hm].
Defined.

Lemma vsf_dynarr_items_witness :
  vsf_dynarr_get demo_arr 9 = Some NULL ∧
  ∃ a b, vsf_dynarr_get demo_arr 5 = Some a ∧ a ≠ NULL ∧ b ∈ demo_bufs ∧ b ≤ a ∧
    a + item_size demo_arr ≤ b + buffer_size demo_arr.
Proof.
  destruct (vsf_dynarr_items [] demo_arr demo_bufs demo_arr_heap demo_arr_wf demo_arr_live)
    as (H1 & H2 & _).
  split; [apply H1; simpl; lia|apply H2; simpl; lia].
Defined.

Lemma vsf_dynarr_shrink_overruns_witness : vsf_dynarr_set_size demo_arr 1 demo_arr_heap = None.
Proof.
  apply (vsf_dynarr_shrink_overruns [] demo_arr demo_bufs 1 demo_arr_heap demo_arr_wf);
    [lia|by_decide|by_decide|exact demo_arr_live].
Defined.
