(* ===== verification/Dynstack.v ===== *)
(** * Dynstack: a stack on a growing array (vsf_dynstack.c)

    The items of the array of Dynarr below [sp] are the stack.  [w] holds the words
    of the memory, by address; the buffers of the caller are lists of words.
    [None] is an access outside a buffer or through NULL, or a division by 0. *)

From S2P Require Import Prelude Chain Bufmgr Memory Dynarr.

(** [struct vsf_dynstack_t]. *)
Record vsf_dynstack_t := { var : vsf_dynarr_t; sp : Z }.

(** ** Words in memory *)

Definition words := gmap Z Z.

Fixpoint store_words (w : words) (a : Z) (ws : list Z) : words :=
  match ws with [] => w | x :: ws => store_words (<[a := x]> w) (a + 4) ws end.

(** A word that was never written is 0. *)
Definition load_word (w : words) (a : Z) : Z := default 0 (w !! a).

(** ** Operations *)

Definition vsf_dynstack_init (st : vsf_dynstack_t) (size num_bitlen table_bitlen : Z) : Z * vsf_dynstack_t :=
  let da := {| item_size := size; item_num_bitlen := num_bitlen; table_size_bitlen := table_bitlen;
               table := table (var st); da_length := da_length (var st) |} in
  (VSFERR_NONE, {| var := (vsf_dynarr_init da).2; sp := 0 |}).

(** The address of the item [offset] below the top, or NULL. *)
Definition vsf_dynstack_get (st : vsf_dynstack_t) (offset : Z) : option Z :=
  if sp st <=? offset then Some NULL
  else vsf_dynarr_get (var st) (u16 (sp st - offset - 1)).

Definition vsf_dynstack_pop (st : vsf_dynstack_t) (num : Z) : option (Z * vsf_dynstack_t) :=
  if (num <=? sp st) && (0 <? num) then
    out ← vsf_dynstack_get st (num - 1);
    Some (out, {| var := var st; sp := sp st - num |})
  else Some (NULL, st).

Section dynstack.
Context {M : Type} `{Heap M}.
Implicit Types (st : vsf_dynstack_t) (m : M) (w : words).

Definition vsf_dynstack_reset st m : option (Z * vsf_dynstack_t * M) :=
  '(e, da, m) ← vsf_dynarr_fini (var st) m;
  Some (e, {| var := da; sp := 0 |}, m).

Definition vsf_dynstack_fini st m : option (Z * vsf_dynstack_t * M) := vsf_dynstack_reset st m.

(** [memcpy] of [item] to the [num] topmost items, from the lowest. *)
Fixpoint push_loop (num : nat) st (item : list Z) w : option words :=
  match num with
  | O => Some w
  | S num =>
      a ← vsf_dynstack_get st (Z.of_nat num);
      if decide (a = NULL) then None
      else
        ws ← read_at item 0 (Z.to_nat (Z.shiftr (item_size (var st)) 2));
        push_loop num st item (store_words w a ws)
  end.

Definition vsf_dynstack_push st (item : list Z) (num : Z) m w
    : option (Z * vsf_dynstack_t * M * words) :=
  let stack_size := vsf_dynarr_get_size (var st) in
  '(e, da, m) ← (if stack_size <? u32 (sp st + num)
                 then vsf_dynarr_set_size (var st) (u32 (sp st + num)) m
                 else Some (VSFERR_NONE, var st, m));
  if e <? 0 then Some (VSFERR_FAIL, {| var := da; sp := sp st |}, m, w)
  else
    let st := {| var := da; sp := u32 (sp st + num) |} in
    w ← push_loop (Z.to_nat num) st item w;
    Some (VSFERR_NONE, st, m, w).

(** [num] items of [size] words from [item] on. *)
Fixpoint push_ext_loop (num : nat) st (item : list Z) (size : nat) m w
    : option (Z * vsf_dynstack_t * M * words) :=
  match num with
  | O => Some (VSFERR_NONE, st, m, w)
  | S num =>
      '(e, st, m, w) ← vsf_dynstack_push st item 1 m w;
      if e <? 0 then Some (VSFERR_FAIL, st, m, w)
      else push_ext_loop num st (drop size item) size m w
  end.

Definition vsf_dynstack_push_ext st (ptr : list Z) (len : Z) m w
    : option (Z * vsf_dynstack_t * M * words) :=
  let num := Z.shiftr (u32 (len + 3)) 2 in
  let size := Z.shiftr (item_size (var st)) 2 in
  if decide (size = 0) then None
  else push_ext_loop (Z.to_nat (u32 (num + size - 1) / size)) st ptr (Z.to_nat size) m w.

(** [for (; (i >= 0) && (num > 0); i--, num--) *item-- = out[i];] from
    [i = n - 1], with the index [item] into the caller's buffer. *)
Fixpoint copy_out (n : nat) (out : Z) w (dst : list Z) (item num : Z) : option (list Z * Z * Z) :=
  match n with
  | O => Some (dst, item, num)
  | S n =>
      if 0 <? num then
        dst ← setb dst item (load_word w (out + 4 * Z.of_nat n));
        copy_out n out w dst (item - 1) (num - 1)
      else Some (dst, item, num)
  end.

Fixpoint pop_ext_loop (fuel : nat) st (size : Z) w (dst : list Z) (item num : Z)
    : option (Z * vsf_dynstack_t * list Z) :=
  if num =? 0 then Some (VSFERR_NONE, st, dst)
  else
    match fuel with
    | O => None
    | S fuel =>
        '(out, st) ← vsf_dynstack_pop st 1;
        if decide (out = NULL) then Some (VSFERR_FAIL, st, dst)
        else if decide (size = 0) then None
        else
          let i := if num mod size =? 0 then size - 1 else num mod size - 1 in
          '(dst, item, num) ← copy_out (Z.to_nat (i + 1)) out w dst item num;
          pop_ext_loop fuel st size w dst item num
    end.

Definition vsf_dynstack_pop_ext st (dst : list Z) (len : Z) w
    : option (Z * vsf_dynstack_t * list Z) :=
  let num := Z.shiftr (u32 (len + 3)) 2 in
  if num =? 0 then Some (VSFERR_NONE, st, dst)
  else pop_ext_loop (Z.to_nat num) st (Z.shiftr (item_size (var st)) 2) w dst (num - 1) num.
End dynstack.

(** ** Words *)

(** The words [x] lie from address [a] on. *)
Definition words_at (w : words) (a : Z) (x : list Z) : Prop :=
  ∀ (j : nat) v, x !! j = Some v → w !! (a + 4 * Z.of_nat j) = Some v.

Lemma store_words_other w a ws b :
  b < a ∨ a + 4 * Z.of_nat (length ws) ≤ b → store_words w a ws !! b = w !! b.
Proof.
  revert w a. induction ws as [|x ws IH]; intros w a Hb; [done|]. cbn [store_words]. simpl in Hb.
  rewrite IH by lia. apply lookup_insert_ne. lia.
Qed.

Lemma store_words_at w a ws : words_at (store_words w a ws) a ws.
Proof.
  revert w a. induction ws as [|x ws IH]; intros w a j v Hj; [done|]. cbn [store_words].
  destruct j as [|j]; simpl in Hj.
  - injection Hj as ->. rewrite store_words_other by lia. rewrite Z.mul_0_r, Z.add_0_r. apply lookup_insert_eq.
  - rewrite <- (IH (<[a:=x]> w) (a + 4) j v Hj). f_equal. lia.
Qed.

Lemma words_at_frame w a x b ws :
  words_at w a x → apart (a, 4 * Z.of_nat (length x)) (b, 4 * Z.of_nat (length ws)) →
  words_at (store_words w b ws) a x.
Proof.
  intros Hx Hap j v Hj. rewrite store_words_other; [by apply Hx|].
  apply lookup_lt_Some in Hj. unfold apart in Hap. simpl in Hap. lia.
Qed.

Lemma load_word_at w a x j v : words_at w a x → x !! j = Some v → load_word w (a + 4 * Z.of_nat j) = v.
Proof. intros Hx Hj. unfold load_word. by rewrite (Hx j v Hj). Qed.

(** ** The stack as a list of items *)

Section stack.
Context {M : Type} `{Allocator M} (A : list obj).
Implicit Types (st : vsf_dynstack_t) (m : M) (w : words) (xs : list (list Z)).

(** The words of an item. *)
Definition item_words st : nat := Z.to_nat (Z.shiftr (item_size (var st)) 2).

(** [xs] are the items, the lowest first.  Positions are 16-bit numbers. *)
Record stack_ok st m w xs : Prop := {
  so_array : ∃ bufs, wf (var st) bufs ∧ mem_live m (da_objs (var st) bufs ++ A);
  so_sp : sp st = Z.of_nat (length xs);
  so_len : sp st ≤ da_length (var st);
  so_width : sp st ≤ 65536;
  so_size : Forall (λ x, length x = item_words st) xs;
  so_items i x : xs !! i = Some x →
    ∃ a, vsf_dynarr_get (var st) (Z.of_nat i) = Some a ∧ words_at w a x }.

Lemma item_words_size st bufs :
  wf (var st) bufs → 4 * Z.of_nat (item_words st) = item_size (var st) ∧ (0 < item_words st)%nat.
Proof.
  intros [Ht _ _ _]. destruct (cfg_size _ (tabs_config _ _ Ht)) as [H1 H2].
  unfold item_words. rewrite Z.shiftr_div_pow2 by lia. change (2 ^ 2) with 4.
  Z.div_mod_to_equations. lia.
Qed.

(** The items of a well-formed array of which only some hold known words. *)
Record part_ok st m w xs (n : nat) : Prop := {
  po_array : ∃ bufs, wf (var st) bufs ∧ mem_live m (da_objs (var st) bufs ++ A);
  po_sp : sp st = Z.of_nat (length xs + n);
  po_len : sp st ≤ da_length (var st);
  po_width : sp st ≤ 65536;
  po_size : Forall (λ x, length x = item_words st) xs;
  po_items i x : xs !! i = Some x →
    ∃ a, vsf_dynarr_get (var st) (Z.of_nat i) = Some a ∧ words_at w a x }.

Lemma part_stack st m w xs : part_ok st m w xs 0 → stack_ok st m w xs.
Proof. intros [? Hsp ? ? ? ?]. rewrite Nat.add_0_r in Hsp. by split. Qed.

(** Writing the next item. *)
Lemma part_write st m w xs n ws :
  part_ok st m w xs (S n) → length ws = item_words st →
  ∃ a, vsf_dynarr_get (var st) (Z.of_nat (length xs)) = Some a ∧ a ≠ NULL ∧
    part_ok st m (store_words w a ws) (xs ++ [ws]) n.
Proof.
  intros [(bufs & Hwf & Hm) Hsp Hlen Hw Hsize Hitems] Hws.
  destruct (item_words_size st bufs Hwf) as [Hiw _].
  destruct (get_live A _ _ _ Hwf Hm (Z.of_nat (length xs)) ltac:(lia)) as (b & _ & Hb & _ & Hg).
  destruct (item_bounds _ _ (Z.of_nat (length xs)) Hwf ltac:(lia)) as (_ & Ho & _).
  eexists. split; [exact Hg|]. split; [unfold NULL; lia|]. split; try done.
  - by exists bufs.
  - rewrite length_app. simpl. rewrite Hsp. lia.
  - apply Forall_app. split; [done|]. by apply Forall_singleton.
  - intros i x [Hi|[Hi Hx]]%lookup_app_Some.
    + destruct (Hitems i x Hi) as (a & Ha & Hat). exists a. split; [done|].
      apply words_at_frame; [done|]. apply lookup_lt_Some in Hi as Hlt.
      rewrite (Forall_lookup_1 _ _ _ _ Hsize Hi), Hws, Hiw.
      eapply (items_apart A _ bufs m Hwf Hm); [..|exact Ha|exact Hg]; lia.
    + apply list_lookup_singleton_Some in Hx as [Hi0 <-].
      replace i with (length xs) by lia. eexists. split; [exact Hg|]. apply store_words_at.
Qed.

Lemma get_top st m w xs n :
  part_ok st m w xs (S n) →
  vsf_dynstack_get st (Z.of_nat n) = vsf_dynarr_get (var st) (Z.of_nat (length xs)).
Proof.
  intros [_ Hsp _ Hw _ _]. unfold vsf_dynstack_get. destruct (Z.leb_spec (sp st) (Z.of_nat n)); [lia|].
  f_equal. rewrite u16_small by lia. lia.
Qed.

Lemma push_loop_spec n st item m w xs :
  part_ok st m w xs n → (item_words st ≤ length item)%nat →
  ∃ w', push_loop n st item w = Some w' ∧
    stack_ok st m w' (xs ++ replicate n (take (item_words st) item)).
Proof.
  revert w xs. induction n as [|n IH]; intros w xs Hp Hl.
  - exists w. rewrite app_nil_r. split; [done|]. by apply part_stack.
  - destruct (part_write st m w xs n (take (item_words st) item) Hp) as (a & Ha & Ha0 & Hp').
    { rewrite length_take. lia. }
    cbn [push_loop]. rewrite (get_top st m w xs n Hp), Ha. bindr. rewrite decide_False by done.
    fold (item_words st). rewrite read_at_in by lia. bindr. rewrite drop_0.
    destruct (IH _ _ Hp' Hl) as (w' & -> & Hok). exists w'. split; [done|].
    cbn [replicate]. by rewrite <- (assoc_L (++)) in Hok.
Qed.

(** Growing is never shrinking over tables. *)
Lemma grow_tables da bufs size :
  wf da bufs → da_length da ≤ size → size + 2 ^ item_num_bitlen da - 1 < 4294967296 →
  Z.of_nat (tables_of da (length bufs)) ≤ Z.of_nat (tables_of da (Z.to_nat (buffers_of da size))) + 1.
Proof.
  intros [Ht Hl Hlast _] Hs Hb. pose proof (tabs_config _ _ Ht) as Hc.
  destruct (buffers_of_size da size Hc ltac:(lia) Hb) as (num & -> & Hn & _). rewrite Nat2Z.id.
  pose proof (pow2_bounds _ (cfg_items _ Hc)) as Hp.
  assert (Hle : (length bufs ≤ num)%nat) by (destruct Hlast as [?| ->]; [nia|simpl; lia]).
  assert (tables_of da (length bufs) ≤ tables_of da num)%nat; [|lia].
  unfold tables_of. pose proof (entries_bounds da Hc). apply Nat.Div0.div_le_mono. lia.
Qed.

(** The stack on the resized array, with room for [n] more items. *)
Lemma part_moved st m w xs bufs da' bufs' m1 n :
  stack_ok st m w xs → wf (var st) bufs → same_config (var st) da' → wf da' bufs' →
  mem_live m1 (da_objs da' bufs' ++ A) → (bufs' `prefix_of` bufs ∨ bufs `prefix_of` bufs') →
  sp st + Z.of_nat n ≤ da_length da' → sp st + Z.of_nat n ≤ 65536 →
  let st' := {| var := da'; sp := sp st + Z.of_nat n |} in
  part_ok st' m1 w xs n ∧ item_words st' = item_words st.
Proof.
  intros [_ Hsp Hlen Hw Hsize Hitems] Hwf Hs Hwf' Hm1 Hpre Hl Hmax st'.
  assert (Hiw : item_words st' = item_words st) by (unfold item_words; simpl; by destruct Hs as (-> & _)).
  split; [|done]. split; simpl; [by exists bufs'|lia|lia|lia|by rewrite Hiw|].
  intros i x Hi. destruct (Hitems i x Hi) as (a & Ha & Hat). exists a. split; [|done].
  apply lookup_lt_Some in Hi. by rewrite (get_prefix (var st) da' bufs bufs') by (done || lia).
Qed.

(** Making room. *)
Lemma push_room st num m w xs :
  stack_ok st m w xs → 0 ≤ num → sp st + num ≤ 65536 →
  ∃ e da' m1, (if da_length (var st) <? sp st + num then vsf_dynarr_set_size (var st) (sp st + num) m
               else Some (VSFERR_NONE, var st, m)) = Some (e, da', m1) ∧
    same_config (var st) da' ∧
    (e = VSFERR_NONE ∧ part_ok {| var := da'; sp := sp st + num |} m1 w xs (Z.to_nat num) ∨
     e = VSFERR_NOT_ENOUGH_RESOURCES ∧ stack_ok {| var := da'; sp := sp st |} m1 w xs).
Proof.
  intros Hok Hnum Hmax. pose proof Hok as [(bufs & Hwf & Hm) Hsp Hlen Hw _ _].
  pose proof (pow2_bounds _ (cfg_items _ (tabs_config _ _ (wf_tabs _ _ Hwf)))) as Hpow.
  replace (sp st + num) with (sp st + Z.of_nat (Z.to_nat num)) in * by lia.
  destruct (Z.ltb_spec (da_length (var st)) (sp st + Z.of_nat (Z.to_nat num))) as [Hg|Hg].
  - destruct (set_size_ok A (var st) bufs (sp st + Z.of_nat (Z.to_nat num)) m Hwf)
      as (e & da' & bufs' & m1 & -> & (Hs & Hwf' & Ho) & Hm1);
      [lia|lia|apply (grow_tables _ _ _ Hwf); lia|done|].
    exists e, da', m1. split; [done|]. split; [done|].
    destruct Ho as [(-> & Hl' & Hpre)|(-> & _ & Hpre & Hl')]; [left|right]; (split; [done|]).
    + by apply (part_moved st m w xs bufs da' bufs' m1); (done || lia).
    + assert (Hll : da_length (var st) ≤ da_length da').
      { rewrite Hl'. destruct Hwf as [_ Hcl _ _]. apply prefix_length in Hpre.
        destruct Hs as (_ & Hi & _). unfold capacity in *. rewrite Hi. nia. }
      apply part_stack. rewrite <- (Z.add_0_r (sp st)).
      apply (part_moved st m w xs bufs da' bufs' m1 0); try (done || lia). by right.
  - exists VSFERR_NONE, (var st), m. split; [done|]. split; [done|]. left. split; [done|].
    apply (part_moved st m w xs bufs (var st) bufs m); try (done || lia). by left.
Qed.

Lemma push_ok st item num m w xs :
  stack_ok st m w xs → (item_words st ≤ length item)%nat → 0 ≤ num → sp st + num ≤ 65536 →
  ∃ e st' m' w', vsf_dynstack_push st item num m w = Some (e, st', m', w') ∧
    item_size (var st') = item_size (var st) ∧
    (e = VSFERR_NONE ∧ stack_ok st' m' w' (xs ++ replicate (Z.to_nat num) (take (item_words st) item)) ∨
     e = VSFERR_FAIL ∧ stack_ok st' m' w' xs).
Proof.
  intros Hok Hl Hnum Hmax. pose proof Hok as [_ Hsp _ _ _ _].
  destruct (push_room st num m w xs Hok Hnum Hmax) as (e & da' & m1 & Hr & (Hs & _) & Ho).
  unfold vsf_dynstack_push, vsf_dynarr_get_size. rewrite (u32_small (sp st + num)) by lia.
  rewrite Hr. bindr. destruct Ho as [[-> Hp]|[-> Hst]]; simpl.
  - assert (Hiw : item_words {| var := da'; sp := sp st + num |} = item_words st)
      by (unfold item_words; simpl; by rewrite Hs).
    destruct (push_loop_spec (Z.to_nat num) _ item m1 w xs Hp) as (w' & -> & Hok'); [by rewrite Hiw|].
    rewrite Hiw in Hok'. bindr. do 4 eexists. split; [done|]. split; [done|]. by left.
  - do 4 eexists. split; [done|]. split; [done|]. by right.
Qed.

(** ** Popping *)

Lemma stack_prefix st m w xs ys :
  stack_ok st m w (xs ++ ys) → stack_ok {| var := var st; sp := sp st - Z.of_nat (length ys) |} m w xs.
Proof.
  intros [Ha Hsp Hlen Hw Hsize Hitems]. rewrite length_app in Hsp. split; simpl; try done; [lia|lia|lia| |].
  - by apply Forall_app in Hsize as [? _].
  - intros i x Hi. apply Hitems. by apply lookup_app_l_Some.
Qed.

Lemma item_live st m w xs i x :
  stack_ok st m w xs → xs !! i = Some x →
  ∃ a, vsf_dynarr_get (var st) (Z.of_nat i) = Some a ∧ a ≠ NULL ∧ words_at w a x.
Proof.
  intros [(bufs & Hwf & Hm) Hsp Hlen _ _ Hitems] Hi. destruct (Hitems i x Hi) as (a & Ha & Hat).
  apply lookup_lt_Some in Hi. exists a. split_and!; try done.
  destruct (get_live A _ _ _ Hwf Hm (Z.of_nat i) ltac:(lia)) as (b & _ & Hb & _ & Hg).
  destruct (item_bounds _ _ (Z.of_nat i) Hwf ltac:(lia)) as (_ & Ho & _).
  rewrite Ha in Hg. injection Hg as ->. unfold NULL. lia.
Qed.

Lemma pop_ok st m w xs y ys :
  stack_ok st m w (xs ++ y :: ys) →
  ∃ a, vsf_dynstack_pop st (Z.of_nat (length (y :: ys)))
         = Some (a, {| var := var st; sp := sp st - Z.of_nat (length (y :: ys)) |}) ∧
    a ≠ NULL ∧ words_at w a y ∧
    stack_ok {| var := var st; sp := sp st - Z.of_nat (length (y :: ys)) |} m w xs.
Proof.
  intros Hok. pose proof Hok as [_ Hsp _ Hw _ _]. rewrite length_app in Hsp. simpl in Hsp.
  destruct (item_live st m w _ (length xs) y Hok) as (a & Ha & Ha0 & Hat).
  { by rewrite lookup_app_r, Nat.sub_diag. }
  exists a. split_and!; [|done|done|by apply (stack_prefix st m w xs (y :: ys))].
  unfold vsf_dynstack_pop, vsf_dynstack_get. cbn [length].
  destruct (Z.leb_spec (Z.of_nat (S (length ys))) (sp st)); [|lia].
  destruct (Z.ltb_spec 0 (Z.of_nat (S (length ys)))); [|lia]. simpl andb. cbv iota.
  destruct (Z.leb_spec (sp st) (Z.of_nat (S (length ys)) - 1)); [lia|].
  rewrite u16_small by lia.
  replace (sp st - (Z.of_nat (S (length ys)) - 1) - 1) with (Z.of_nat (length xs)) by lia.
  by rewrite Ha.
Qed.

Lemma copy_out_spec n out w x dst (num : nat) :
  words_at w out x → (n ≤ length x)%nat → (n ≤ num)%nat → (num ≤ length dst)%nat →
  copy_out n out w dst (Z.of_nat num - 1) (Z.of_nat num) =
    Some (take (num - n) dst ++ take n x ++ drop num dst, Z.of_nat (num - n) - 1, Z.of_nat (num - n)).
Proof.
  intros Hx. revert dst num. induction n as [|n IH]; intros dst num Hn Hnum Hl.
  - cbn [copy_out]. by rewrite Nat.sub_0_r, take_0, app_nil_l, take_drop.
  - cbn [copy_out]. destruct (Z.ltb_spec 0 (Z.of_nat num)); [|lia].
    rewrite setb_in by lia. bindr.
    replace (Z.of_nat num - 1) with (Z.of_nat (num - 1)) by lia. rewrite Nat2Z.id.
    destruct (lookup_lt_is_Some_2 x n) as [v Hv]; [lia|]. rewrite (load_word_at w out x n v Hx Hv).
    rewrite IH by (rewrite ?length_insert; lia).
    replace (num - 1 - n)%nat with (num - S n)%nat by lia. do 3 f_equal.
    rewrite take_insert_ge by lia. f_equal. rewrite (take_S_r x n v Hv), <- (assoc_L (++)). f_equal.
    rewrite drop_insert_ge by lia. rewrite Nat.sub_diag.
    destruct (lookup_lt_is_Some_2 dst (num - 1)) as [u Hu]; [lia|].
    rewrite (drop_S _ u) by done. simpl. by replace (S (num - 1)) with num by lia.
Qed.

(** Popping whole items into a buffer, of which the last may be cut. *)
Lemma pop_ext_loop_spec ys fuel st m w xs dst (num : nat) :
  stack_ok st m w (xs ++ ys) → (num ≤ length dst)%nat → (num ≤ fuel)%nat →
  (num ≤ length ys * item_words st)%nat → (length ys * item_words st < num + item_words st)%nat →
  ∃ st', pop_ext_loop fuel st (Z.shiftr (item_size (var st)) 2) w dst (Z.of_nat num - 1) (Z.of_nat num)
      = Some (VSFERR_NONE, st', take num (concat ys) ++ drop num dst) ∧
    stack_ok st' m w xs.
Proof.
  revert fuel st dst num. induction ys as [|y ys IH] using rev_ind; intros fuel st dst num Hok Hl Hf H1 H2.
  - assert (num = 0)%nat as -> by (simpl in H1; lia). exists st. rewrite app_nil_r in Hok.
    split; [|done]. rewrite take_0, drop_0. by destruct fuel.
  - pose proof Hok as [(bufs & Hwf & Hm) _ _ _ Hsize _].
    destruct (item_words_size st bufs Hwf) as [Hiz Hiw]. rewrite length_app in H1, H2. simpl in H1, H2.
    set (iw := item_words st) in *.
    assert (Hsz : Z.shiftr (item_size (var st)) 2 = Z.of_nat iw) by (unfold iw, item_words in *; lia).
    assert (Hnum : (length ys * iw < num)%nat ∧ (num ≤ length ys * iw + iw)%nat) by lia.
    destruct fuel as [|fuel]; [lia|]. cbn [pop_ext_loop].
    destruct (Z.eqb_spec (Z.of_nat num) 0) as [|_]; [lia|]. rewrite (assoc_L (++)) in Hok.
    destruct (pop_ok st m w (xs ++ ys) y [] Hok) as (a & Hpop & Ha & Hat & Hok'). cbn [length] in Hpop, Hok'. change (Z.of_nat 1) with 1 in Hpop, Hok'.
    rewrite Hpop. bindr. rewrite decide_False by done. rewrite Hsz. rewrite decide_False by lia.
    set (n := (num - length ys * iw)%nat).
    assert (Hi : (if Z.of_nat num mod Z.of_nat iw =? 0 then Z.of_nat iw - 1
                  else Z.of_nat num mod Z.of_nat iw - 1) + 1 = Z.of_nat n).
    { destruct (decide (n = iw)) as [He|He].
      - assert (Hm0 : Z.of_nat num mod Z.of_nat iw = 0).
        { symmetry. apply Z.mod_unique_pos with (q := Z.of_nat (length ys) + 1); lia. }
        rewrite Hm0. simpl. lia.
      - assert (Hm0 : Z.of_nat num mod Z.of_nat iw = Z.of_nat n).
        { symmetry. apply Z.mod_unique_pos with (q := Z.of_nat (length ys)); lia. }
        rewrite Hm0. destruct (Z.eqb_spec (Z.of_nat n) 0); lia. }
    cbv zeta. rewrite Hi, Nat2Z.id.
    assert (Hly : length y = iw).
    { apply Forall_app in Hsize as [_ Hsize]. apply Forall_app in Hsize as [_ Hsize].
      apply Forall_cons in Hsize as [Hsize _]. exact Hsize. }
    rewrite (copy_out_spec n a w y) by (done || lia). bindr.
    replace (num - n)%nat with (length ys * iw)%nat by lia.
    destruct (IH fuel {| var := var st; sp := sp st - 1 |}
      (take (length ys * iw) dst ++ take n y ++ drop num dst) (length ys * iw)%nat) as (st' & Hr & Hst'); try done.
    + rewrite length_app, length_take. lia.
    + lia.
    + change (item_words {| var := var st; sp := sp st - 1 |}) with iw. lia.
    + exists st'. split; [|done]. cbn [var] in Hr. rewrite Hsz in Hr. rewrite Hr. do 2 f_equal.
      assert (Hlc : length (concat ys) = (length ys * iw)%nat).
      { apply Forall_app in Hsize as [_ Hsize]. apply Forall_app in Hsize as [Hsize _].
        clear -Hsize. induction Hsize as [|z zs Hz _ IHz]; [done|]. simpl. rewrite length_app. simpl in Hz. lia. }
      rewrite concat_app. simpl. rewrite app_nil_r, (take_ge (concat ys)) by lia.
      rewrite take_app_ge by lia. rewrite Hlc, <- (assoc_L (++)). f_equal.
      rewrite drop_app_length' by (rewrite length_take; lia). done.
Qed.

(** ** Pushing several items *)

Fixpoint chunks (n : nat) (k : nat) (l : list Z) : list (list Z) :=
  match n with O => [] | S n => take k l :: chunks n k (drop k l) end.

Lemma chunks_length n k l : length (chunks n k l) = n.
Proof. revert l. induction n as [|n IH]; intros l; simpl; [done|]. by rewrite IH. Qed.

Lemma concat_chunks n k l : concat (chunks n k l) = take (n * k) l.
Proof.
  revert l. induction n as [|n IH]; intros l; simpl; [done|]. rewrite IH.
  rewrite <- (take_drop k l) at 3. rewrite take_app, take_take, length_take.
  replace ((k + n * k) `min` k)%nat with k by lia. f_equal.
  destruct (decide (k ≤ length l)%nat).
  - f_equal. lia.
  - rewrite !drop_ge, !take_nil by lia. done.
Qed.

Lemma push_ext_loop_spec n st src m w xs :
  stack_ok st m w xs → (n * item_words st ≤ length src)%nat → sp st + Z.of_nat n ≤ 65536 →
  ∃ e st' m' w' ys, push_ext_loop n st src (item_words st) m w = Some (e, st', m', w') ∧
    item_size (var st') = item_size (var st) ∧ stack_ok st' m' w' (xs ++ ys) ∧
    (e = VSFERR_NONE ∧ ys = chunks n (item_words st) src ∨
     e = VSFERR_FAIL ∧ ys `prefix_of` chunks n (item_words st) src).
Proof.
  revert st src m w xs. induction n as [|n IH]; intros st src m w xs Hok Hl Hmax.
  - exists VSFERR_NONE, st, m, w, []. rewrite app_nil_r. split_and!; try done. by left.
  - destruct (push_ok st src 1 m w xs Hok ltac:(nia) ltac:(lia) ltac:(lia))
      as (e & st1 & m1 & w1 & Hp & Hsz & Ho).
    cbn [push_ext_loop]. rewrite Hp. bindr. destruct Ho as [[-> Hok1]|[-> Hok1]].
    + change (VSFERR_NONE <? 0) with false. cbv iota.
      change (replicate (Z.to_nat 1) (take (item_words st) src)) with [take (item_words st) src] in Hok1.
      assert (Hiw : item_words st1 = item_words st) by (unfold item_words; by rewrite Hsz).
      pose proof (so_sp _ _ _ _ Hok1) as Hsp1. pose proof (so_sp _ _ _ _ Hok) as Hsp.
      rewrite length_app in Hsp1. simpl in Hsp1.
      destruct (IH st1 (drop (item_words st) src) m1 w1 _ Hok1) as (e & st' & m' & w' & ys & Hr & Hsz' & Hok' & Ho).
      { rewrite Hiw, length_drop. lia. }
      { lia. }
      rewrite Hiw in Hr, Ho. rewrite Hr. exists e, st', m', w', (take (item_words st) src :: ys).
      rewrite <- (assoc_L (++)) in Hok'. split_and!; [done|congruence|done|].
      cbn [chunks]. destruct Ho as [[-> ->]|[-> Hpre]]; [by left|right]. split; [done|]. by apply prefix_cons.
    + change (VSFERR_FAIL <? 0) with true. cbv iota. exists VSFERR_FAIL, st1, m1, w1, [].
      rewrite app_nil_r. split_and!; try done. right. split; [done|]. apply prefix_nil.
Qed.
End stack.

(** The stack is a list of items.  [vsf_dynstack_push] adds [num] copies of the
    item or fails for lack of memory and changes nothing; [vsf_dynstack_pop] of
    [num] items gives the address of the lowest of them, whose words are still
    there, and NULL when there are fewer. *)
Theorem vsf_dynstack_lifo `{Allocator M} A st (m : M) w xs :
  stack_ok A st m w xs →
  (∀ item num, (item_words st ≤ length item)%nat → 0 ≤ num → sp st + num ≤ 65536 →
     ∃ e st' m' w', vsf_dynstack_push st item num m w = Some (e, st', m', w') ∧
       (e = VSFERR_NONE ∧
          stack_ok A st' m' w' (xs ++ replicate (Z.to_nat num) (take (item_words st) item)) ∨
        e = VSFERR_FAIL ∧ stack_ok A st' m' w' xs)) ∧
  (∀ ys y zs, xs = ys ++ y :: zs →
     ∃ a st', vsf_dynstack_pop st (Z.of_nat (length (y :: zs))) = Some (a, st') ∧ a ≠ NULL ∧
       words_at w a y ∧ stack_ok A st' m w ys) ∧
  (∀ num, num ≤ 0 ∨ Z.of_nat (length xs) < num → vsf_dynstack_pop st num = Some (NULL, st)).
Proof.
  intros Hok. split_and!.
  - intros item num Hl Hn Hmax.
    destruct (push_ok A st item num m w xs Hok Hl Hn Hmax) as (e & st' & m' & w' & Hp & _ & Ho). eauto 10.
  - intros ys y zs ->. destruct (pop_ok A st m w ys y zs Hok) as (a & Hp & Ha & Hat & Hok'). eauto 10.
  - intros num Hnum. pose proof (so_sp _ _ _ _ _ Hok) as Hsp. unfold vsf_dynstack_pop.
    destruct (Z.leb_spec num (sp st)), (Z.ltb_spec 0 num); simpl; try done. lia.
Qed.

(** Round trip of data through the stack.  [vsf_dynstack_push_ext] of a buffer of
    whole items either fails for lack of memory, with only items of the buffer
    added, or succeeds, and then [vsf_dynstack_pop_ext] of the same length writes
    the words of the buffer back and restores the stack. *)
Theorem vsf_dynstack_ext_roundtrip `{Allocator M} A st (m : M) w xs (src dst : list Z) n len :
  stack_ok A st m w xs → 0 ≤ len → len + 3 < 4294967296 →
  let num := Z.to_nat (Z.shiftr (len + 3) 2) in
  (num ≤ n * item_words st)%nat → (n * item_words st < num + item_words st)%nat →
  (n * item_words st ≤ length src)%nat → sp st + Z.of_nat n ≤ 65536 → length dst = num →
  Z.of_nat (n * item_words st) + Z.of_nat (item_words st) < 4294967296 →
  ∃ e st1 m1 w1, vsf_dynstack_push_ext st src len m w = Some (e, st1, m1, w1) ∧
    (e = VSFERR_FAIL ∧ (∃ ys, ys `prefix_of` chunks n (item_words st) src ∧ stack_ok A st1 m1 w1 (xs ++ ys)) ∨
     e = VSFERR_NONE ∧
     ∃ st2, vsf_dynstack_pop_ext st1 dst len w1 = Some (VSFERR_NONE, st2, take num src) ∧
       stack_ok A st2 m1 w1 xs).
Proof.
  intros Hok H0l Hlen num H1 H2 Hsrc Hmax Hdst Hb.
  pose proof Hok as [(bufs & Hwf & _) _ _ _ _ _]. destruct (item_words_size st bufs Hwf) as [_ Hiw].
  set (iw := item_words st) in *.
  assert (Hsz : Z.shiftr (item_size (var st)) 2 = Z.of_nat iw) by (unfold iw, item_words in *; lia).
  assert (Hnz : Z.shiftr (u32 (len + 3)) 2 = Z.of_nat num).
  { unfold num. rewrite u32_small by lia. rewrite Z2Nat.id; [done|].
    apply Z.shiftr_nonneg. lia. }
  assert (Hn : u32 (Z.of_nat num + Z.of_nat iw - 1) / Z.of_nat iw = Z.of_nat n).
  { rewrite u32_small by lia. symmetry.
    apply Z.div_unique_pos with (r := Z.of_nat num + Z.of_nat iw - 1 - Z.of_nat n * Z.of_nat iw); lia. }
  unfold vsf_dynstack_push_ext. rewrite Hnz, Hsz, Hn. rewrite decide_False by lia. rewrite !Nat2Z.id.
  destruct (push_ext_loop_spec A n st src m w xs Hok Hsrc Hmax)
    as (e & st1 & m1 & w1 & ys & Hp & Hsz1 & Hok1 & Ho). fold iw in Hp, Ho. rewrite Hp.
  exists e, st1, m1, w1. split; [done|]. destruct Ho as [[-> ->]|[-> Hpre]]; [right|left]; (split; [done|]).
  - unfold vsf_dynstack_pop_ext. rewrite Hnz. fold iw in Hok1.
    assert (Hiw1 : item_words st1 = iw) by (unfold iw, item_words; by rewrite Hsz1).
    destruct (Z.eqb_spec (Z.of_nat num) 0) as [Hz|Hz].
    + assert (n = 0)%nat as -> by nia. simpl in Hok1. rewrite app_nil_r in Hok1.
      exists st1. split; [|done]. assert (dst = []) as -> by (apply nil_length_inv; lia). replace num with 0%nat by lia. done.
    + destruct (pop_ext_loop_spec A (chunks n iw src) (Z.to_nat (Z.of_nat num)) st1 m1 w1 xs dst num)
        as (st2 & Hr & Hok2); [done|lia|lia|rewrite chunks_length, Hiw1; lia..|].
      exists st2. rewrite Hr. split; [|done]. do 2 f_equal.
      rewrite concat_chunks, take_take, drop_ge, app_nil_r by lia. f_equal. lia.
  - exists ys. by split.
Qed.

(** ** Example *)

(** The stack of the example array, empty, with items of one word. *)
Definition demo_stack : vsf_dynstack_t := {| var := demo_arr; sp := 0 |}.

Lemma demo_stack_ok : stack_ok [] demo_stack demo_arr_heap ∅ [].
Proof.
  split; try done. exists demo_bufs. split; [exact demo_arr_wf|exact demo_arr_live].
Qed.

Lemma vsf_dynstack_lifo_witness :
  (∃ e st' m' w', vsf_dynstack_push demo_stack [7] 2 demo_arr_heap ∅ = Some (e, st', m', w') ∧
     (e = VSFERR_NONE ∧ stack_ok [] st' m' w' [[7]; [7]] ∨ e = VSFERR_FAIL ∧ stack_ok [] st' m' w' [])) ∧
  vsf_dynstack_pop demo_stack 1 = Some (NULL, demo_stack).
Proof.
  destruct (vsf_dynstack_lifo [] demo_stack demo_arr_heap ∅ [] demo_stack_ok) as (H1 & _ & H3).
  split; [refine (H1 [7] 2 _ _ _); by_decide|]. apply H3. right. simpl. lia.
Defined.

Lemma vsf_dynstack_ext_roundtrip_witness :
  ∃ e st1 m1 w1, vsf_dynstack_push_ext demo_stack [1; 2; 3] 11 demo_arr_heap ∅ = Some (e, st1, m1, w1) ∧
    (e = VSFERR_FAIL ∨ ∃ st2, vsf_dynstack_pop_ext st1 [0; 0; 0] 11 w1 = Some (VSFERR_NONE, st2, [1; 2; 3])).
Proof.
  destruct (vsf_dynstack_ext_roundtrip [] demo_stack demo_arr_heap ∅ [] [1; 2; 3] [0; 0; 0] 3 11
    demo_stack_ok) as (e & st1 & m1 & w1 & Hp & Ho); [lia|lia|by_decide|by_decide|by_decide|by_decide|done|by_decide|].
  exists e, st1, m1, w1. split; [exact Hp|].
  destruct Ho as [[He _]|(He & st2 & Hr & _)]; [by left|right]. exists st2. exact Hr.
Defined.
