(* ===== verification/Dynpool.v ===== *)
(** * Dynpool: pools on demand (vsf_dynpool.c)

    A list of pools of [pool_size] items each; a pool is allocated from the heap
    when all the others are full.  Every pool is one heap object: its header, the
    mask array and the items.  The configuration without garbage collection
    ([DYNPOOL_CFG_GC_EN] is not defined). *)

From S2P Require Import Prelude Bits Pool Chain Bufmgr Memory.

(** [struct vsf_dynpool_list_t], at address [p_addr]. *)
Record vsf_dynpool_list_t := { p_addr : Z; pool : vsfpool_t; allocated_num : Z }.

(** [struct vsf_dynpool_t], the pools in the order of their links. *)
Record vsf_dynpool_t := {
  dp_item_size : Z; pool_size : Z; pool_num : Z;
  head : list vsf_dynpool_list_t; cur_pool_num : Z }.

(** The header on a 32-bit target. *)
Definition sizeof_list : Z := 24.

Definition set_head (dp : vsf_dynpool_t) (ps : list vsf_dynpool_list_t) (n : Z) : vsf_dynpool_t :=
  {| dp_item_size := dp_item_size dp; pool_size := pool_size dp; pool_num := pool_num dp;
     head := ps; cur_pool_num := n |}.

Definition vsf_dynpool_init (dp : vsf_dynpool_t) : Z * vsf_dynpool_t :=
  (VSFERR_NONE,
   {| dp_item_size := Z.land (u32 (dp_item_size dp + 3)) (u32 (Z.lnot 3)); pool_size := pool_size dp;
      pool_num := pool_num dp; head := head dp; cur_pool_num := cur_pool_num dp |}).

(** [buff = vsfpool_alloc(&p->pool); p->allocated_num++]. *)
Definition do_allocate (p : vsf_dynpool_list_t) : option (Z * vsf_dynpool_list_t) :=
  '(buff, pl) ← vsfpool_alloc (pool p);
  Some (buff, {| p_addr := p_addr p; pool := pl; allocated_num := u32 (allocated_num p + 1) |}).

(** The first pool with room, and what it gives; [None] inside for none. *)
Fixpoint alloc_loop (ps : list vsf_dynpool_list_t) (size : Z)
    : option (option (Z * list vsf_dynpool_list_t)) :=
  match ps with
  | [] => Some None
  | p :: ps =>
      if allocated_num p <? size then
        '(buff, p) ← do_allocate p; Some (Some (buff, p :: ps))
      else
        r ← alloc_loop ps size;
        Some (match r with Some (buff, ps) => Some (buff, p :: ps) | None => None end)
  end.

(** The number of mask words and the size of a new pool. *)
Definition mskarr_num (dp : vsf_dynpool_t) : Z := Z.shiftr (u32 (pool_size dp + 31)) 5.
Definition pool_bytes (dp : vsf_dynpool_t) : Z :=
  u32 (sizeof_list + Z.shiftl (mskarr_num dp) 2 + pool_size dp * dp_item_size dp).

(** A new pool at address [p], cleared. *)
Definition new_pool (dp : vsf_dynpool_t) (p : Z) : vsf_dynpool_list_t :=
  {| p_addr := p;
     pool := {| flags := replicate (Z.to_nat (mskarr_num dp)) 0;
                buffer := u32 (p + sizeof_list + 4 * mskarr_num dp);
                item_size := dp_item_size dp; item_num := pool_size dp |};
     allocated_num := 0 |}.

Section dynpool.
Context {M : Type} `{Heap M}.

Definition vsf_dynpool_alloc (dp : vsf_dynpool_t) (m : M) : option (Z * vsf_dynpool_t * M) :=
  r ← alloc_loop (head dp) (pool_size dp);
  match r with
  | Some (buff, ps) => Some (buff, set_head dp ps (cur_pool_num dp), m)
  | None =>
      if (pool_num dp =? 0) || (pool_num dp <? cur_pool_num dp) then
        '(p, m) ← malloc m (pool_bytes dp);
        if decide (p = NULL) then Some (NULL, dp, m)
        else
          '(buff, p) ← do_allocate (new_pool dp p);
          Some (buff, set_head dp (p :: head dp) (u16 (cur_pool_num dp + 1)), m)
      else Some (NULL, dp, m)
  end.

Fixpoint free_loop (ps : list vsf_dynpool_list_t) (buff : Z)
    : option (bool * list vsf_dynpool_list_t) :=
  match ps with
  | [] => Some (false, [])
  | p :: ps =>
      '(ok, pl) ← vsfpool_free (pool p) buff;
      if ok : bool then
        Some (true, {| p_addr := p_addr p; pool := pl; allocated_num := u32 (allocated_num p - 1) |} :: ps)
      else
        '(ok, ps) ← free_loop ps buff;
        Some (ok, {| p_addr := p_addr p; pool := pl; allocated_num := allocated_num p |} :: ps)
  end.

Definition vsf_dynpool_free (dp : vsf_dynpool_t) (buff : Z) : option (bool * vsf_dynpool_t) :=
  '(ok, ps) ← free_loop (head dp) buff;
  Some (ok, set_head dp ps (cur_pool_num dp)).

(** The list keeps its dangling pointers. *)
Definition vsf_dynpool_fini (dp : vsf_dynpool_t) (m : M) : option (Z * M) :=
  m ← mfree_all (p_addr <$> head dp) m;
  Some (VSFERR_NONE, m).
End dynpool.

(** ** The items handed out *)

(** Sizes for which a pool is a heap object. *)
Record pool_config (dp : vsf_dynpool_t) : Prop := {
  pc_item : 0 < dp_item_size dp;
  pc_size : 0 < pool_size dp < 65536;
  pc_bytes : sizeof_list + 4 * mask_words (pool_size dp) + pool_size dp * dp_item_size dp < 0x7fffffff }.

(** The pool [p] of which the slots [S] are taken. *)
Record list_ok (dp : vsf_dynpool_t) (p : vsf_dynpool_list_t) (S : gset Z) : Prop := {
  lo_pool : pool_ok (pool p) S;
  lo_item : item_size (pool p) = dp_item_size dp;
  lo_num : item_num (pool p) = pool_size dp;
  lo_count : allocated_num p = Z.of_nat (size S);
  lo_buffer : buffer (pool p) = p_addr p + sizeof_list + 4 * mask_words (pool_size dp) }.

Definition pool_obj (dp : vsf_dynpool_t) (p : vsf_dynpool_list_t) : obj := (p_addr p, pool_bytes dp).
Definition dp_objs (dp : vsf_dynpool_t) : list obj := pool_obj dp <$> head dp.

(** The address was handed out and not given back. *)
Definition taken (ps : list vsf_dynpool_list_t) (Ss : list (gset Z)) (a : Z) : Prop :=
  ∃ j p S k, ps !! j = Some p ∧ Ss !! j = Some S ∧ k ∈ S ∧ a = slot_addr (pool p) k.

Lemma pool_bytes_eq dp :
  pool_config dp →
  mskarr_num dp = mask_words (pool_size dp) ∧ 0 < mask_words (pool_size dp) ∧
  pool_bytes dp = sizeof_list + 4 * mask_words (pool_size dp) + pool_size dp * dp_item_size dp ∧
  0 < pool_bytes dp < 0x7fffffff.
Proof.
  intros [Hi Hs Hb]. pose proof (mask_words_cover (pool_size dp) ltac:(lia)) as Hc.
  unfold mskarr_num, pool_bytes, mskarr_num. rewrite mask_words_eq by lia.
  rewrite Z.shiftl_mul_pow2 by lia. change (2 ^ 2) with 4. unfold sizeof_list in *.
  assert (0 < pool_size dp * dp_item_size dp) by nia.
  rewrite u32_small by lia. lia.
Qed.

Lemma slots_size (n : Z) (S : gset Z) :
  0 ≤ n → (∀ i, i ∈ S → 0 ≤ i < n) →
  Z.of_nat (size S) ≤ n ∧ (Z.of_nat (size S) < n ↔ ∃ i, 0 ≤ i < n ∧ i ∉ S).
Proof.
  intros Hn HS. set (R := list_to_set (seqZ 0 n) : gset Z).
  assert (HR : ∀ i, i ∈ R ↔ 0 ≤ i < n).
  { intros i. unfold R. rewrite elem_of_list_to_set, elem_of_seqZ. lia. }
  assert (HRs : size R = Z.to_nat n).
  { unfold R. rewrite size_list_to_set by apply NoDup_seqZ. apply length_seqZ. }
  assert (Hsub : S ⊆ R) by (intros i Hi; apply HR; auto).
  pose proof (subseteq_size _ _ Hsub) as Hle. split; [lia|]. split.
  - intros Hlt. destruct (set_choose_or_empty (R ∖ S)) as [[i Hi]|He].
    + exists i. apply elem_of_difference in Hi as [Hi ?]. split; [by apply HR|done].
    + assert (R ⊆ S) as Hrs%subseteq_size by set_solver. lia.
  - intros (i & Hi & Hni). assert (Hp : S ⊂ R) by (split; [done|]; intros Hrs; apply Hni, Hrs, HR, Hi).
    pose proof (subset_size _ _ Hp). lia.
Qed.

Section refine.
Context {M : Type} `{Allocator M} (A : list obj).
Implicit Types (dp : vsf_dynpool_t) (m : M).

(** The state of the pools: [Ss] are the taken slots of each. *)
Record dynpool_ok dp m (Ss : list (gset Z)) : Prop := {
  do_config : pool_config dp;
  do_pools : Forall2 (list_ok dp) (head dp) Ss;
  do_live : mem_live m (dp_objs dp ++ A) }.

(** A slot lies inside the object of its pool. *)
Lemma slot_inside dp p S k :
  pool_config dp → list_ok dp p S → k ∈ S →
  p_addr p ≤ slot_addr (pool p) k ∧ 0 ≤ k < pool_size dp ∧
  slot_addr (pool p) k + dp_item_size dp ≤ p_addr p + pool_bytes dp ∧
  buffer (pool p) ≤ slot_addr (pool p) k < buffer (pool p) + item_num (pool p) * item_size (pool p).
Proof.
  intros Hc [Hp Hi Hn _ Hb] Hk. destruct (pool_bytes_eq dp Hc) as (_ & Hm0 & -> & _).
  apply (ok_taken _ _ Hp) in Hk as [Hk _].
  destruct (slot_addr_bounds _ _ k Hp Hk) as [H1 H2]. rewrite Hb, Hn, Hi in *.
  pose proof (pc_item _ Hc). unfold sizeof_list in *. lia.
Qed.

Lemma pools_apart dp m Ss i j p q :
  dynpool_ok dp m Ss → head dp !! i = Some p → head dp !! j = Some q → i ≠ j →
  p_addr p + pool_bytes dp ≤ p_addr q ∨ p_addr q + pool_bytes dp ≤ p_addr p.
Proof.
  intros [_ _ Hm].
  assert (Hlt : ∀ i j p q, head dp !! i = Some p → head dp !! j = Some q → (i < j)%nat →
    apart (pool_obj dp p) (pool_obj dp q)).
  { clear i j p q. intros i j p q Hi Hj Hij.
    destruct (list_elem_of_split_length _ _ _ Hi) as (l1 & l2 & Hs & Hl1). rewrite Hs in Hj.
    rewrite lookup_app_r in Hj by lia. destruct (j - length l1)%nat as [|d] eqn:Hd; [lia|]. simpl in Hj.
    apply list_elem_of_split_length in Hj as (l3 & l4 & -> & _).
    apply (mem_live_apart m _ _ ((pool_obj dp <$> l1) ++ (pool_obj dp <$> l3) ++ (pool_obj dp <$> l4) ++ A)).
    eapply mem_live_perm; [|exact Hm]. unfold dp_objs. rewrite Hs.
    rewrite fmap_app, fmap_cons, fmap_app, fmap_cons. solve_Permutation. }
  intros Hi Hj Hij. destruct (decide (i < j)%nat).
  - apply (Hlt i j); done.
  - assert (Ha : apart (pool_obj dp q) (pool_obj dp p)) by (apply (Hlt j i); (done || lia)).
    unfold apart, pool_obj in *. cbn in *. tauto.
Qed.

(** Addresses that were handed out are those of different slots. *)
Lemma taken_apart dp m Ss a b :
  dynpool_ok dp m Ss → taken (head dp) Ss a → taken (head dp) Ss b → a ≠ b →
  apart (a, dp_item_size dp) (b, dp_item_size dp).
Proof.
  intros Hok (i & p & S & k & Hi & HS & Hk & ->) (j & q & T & l & Hj & HT & Hl & ->) Hne.
  pose proof Hok as [Hc Hps _].
  pose proof (Forall2_lookup_lr _ _ _ _ _ _ Hps Hi HS) as Hlp.
  pose proof (Forall2_lookup_lr _ _ _ _ _ _ Hps Hj HT) as Hlq.
  destruct (slot_inside dp p S k Hc Hlp Hk) as (H1 & H2 & H3 & _).
  destruct (slot_inside dp q T l Hc Hlq Hl) as (H4 & H5 & H6 & _).
  unfold apart. cbn. destruct (decide (i = j)) as [->|Hij].
  - assert (q = p) as -> by congruence. destruct Hlp as [_ Hit _ _ _]. unfold slot_addr in *. rewrite Hit in *.
    assert (k ≠ l) by (intros ->; done). pose proof (pc_item _ Hc).
    destruct (Z.lt_total k l) as [|[|]]; [left; nia|done|right; nia].
  - pose proof (pools_apart dp m Ss i j p q Hok Hi Hj Hij). lia.
Qed.

(** An address belongs to one slot only. *)
Lemma taken_unique dp m Ss i j p q S T k l :
  dynpool_ok dp m Ss → head dp !! i = Some p → Ss !! i = Some S → k ∈ S →
  head dp !! j = Some q → Ss !! j = Some T → l ∈ T →
  slot_addr (pool p) k = slot_addr (pool q) l → i = j ∧ k = l.
Proof.
  intros Hok Hi HS Hk Hj HT Hl Heq. pose proof Hok as [Hc Hps _].
  pose proof (Forall2_lookup_lr _ _ _ _ _ _ Hps Hi HS) as Hlp.
  pose proof (Forall2_lookup_lr _ _ _ _ _ _ Hps Hj HT) as Hlq.
  destruct (slot_inside dp p S k Hc Hlp Hk) as (H1 & H2 & H3 & _).
  destruct (slot_inside dp q T l Hc Hlq Hl) as (H4 & H5 & H6 & _). pose proof (pc_item _ Hc).
  destruct (decide (i = j)) as [->|Hij]; [|pose proof (pools_apart dp m Ss i j p q Hok Hi Hj Hij); lia].
  assert (q = p) as -> by congruence. destruct Hlp as [_ Hit _ _ _]. unfold slot_addr in Heq. rewrite Hit in *.
  split; [done|]. nia.
Qed.

Lemma do_allocate_ok dp p S :
  pool_config dp → list_ok dp p S → allocated_num p < pool_size dp →
  ∃ k p', do_allocate p = Some (slot_addr (pool p) k, p') ∧ k ∉ S ∧
    list_ok dp p' ({[k]} ∪ S) ∧ p_addr p' = p_addr p ∧ slot_addr (pool p') = slot_addr (pool p).
Proof.
  intros Hc [Hp Hi Hn Hcnt Hb] Hlt. pose proof (pc_size _ Hc) as Hsz.
  assert (HS : ∀ i, i ∈ S → 0 ≤ i < pool_size dp).
  { intros i Hin. apply (ok_taken _ _ Hp) in Hin as [Hin _]. by rewrite Hn in Hin. }
  destruct (slots_size (pool_size dp) S ltac:(lia) HS) as [Hle Hfree].
  unfold do_allocate. destruct (pool_alloc_ok (pool p) S Hp) as [(k & pl & -> & Hk & Hns & _ & Hp' & f & ->)|[Hfull _]].
  - bindr. eexists k, _. split; [done|]. split; [done|]. split; [|done]. split; try done.
    cbn [allocated_num]. rewrite size_union, size_singleton by set_solver. rewrite u32_small; lia.
  - exfalso. destruct (proj1 Hfree ltac:(lia)) as (i & Hir & Hni). apply Hni, Hfull. by rewrite Hn.
Qed.

(** The search for a pool with room. *)
Lemma alloc_loop_ok dp ps Ss :
  pool_config dp → Forall2 (list_ok dp) ps Ss →
  (alloc_loop ps (pool_size dp) = Some None ∧ Forall (λ S, Z.of_nat (size S) = pool_size dp) Ss) ∨
  ∃ i p S k p', alloc_loop ps (pool_size dp) = Some (Some (slot_addr (pool p) k, <[i := p']> ps)) ∧
    ps !! i = Some p ∧ Ss !! i = Some S ∧ k ∉ S ∧ list_ok dp p' ({[k]} ∪ S) ∧
    p_addr p' = p_addr p ∧ slot_addr (pool p') = slot_addr (pool p).
Proof.
  intros Hc. induction 1 as [|p S ps Ss Hp _ IH]; [by left|]. cbn [alloc_loop].
  destruct (Z.ltb_spec (allocated_num p) (pool_size dp)) as [Hlt|Hge].
  - destruct (do_allocate_ok dp p S Hc Hp Hlt) as (k & p' & -> & Hk & Hp' & Ha & Hs). bindr.
    right. by exists 0%nat, p, S, k, p'.
  - destruct IH as [[-> Hfull]|(i & q & T & k & q' & -> & Hi & HT & Hk & Hq' & Ha & Hs)]; bindr.
    + left. split; [done|]. constructor; [|done]. destruct Hp as [Hp _ Hn Hcnt _].
      pose proof (pc_size _ Hc). assert (HS : ∀ i, i ∈ S → 0 ≤ i < pool_size dp).
      { intros i Hin. apply (ok_taken _ _ Hp) in Hin as [Hin _]. by rewrite Hn in Hin. }
      destruct (slots_size (pool_size dp) S ltac:(lia) HS). lia.
    + right. by exists (Datatypes.S i), q, T, k, q'.
Qed.

(** Replacing a pool of the state. *)
Lemma insert_pool dp m Ss i p S p' S' n :
  dynpool_ok dp m Ss → head dp !! i = Some p → Ss !! i = Some S → list_ok dp p' S' →
  p_addr p' = p_addr p → dynpool_ok (set_head dp (<[i := p']> (head dp)) n) m (<[i := S']> Ss).
Proof.
  intros [[Hc1 Hc2 Hc3] Hps Hm] Hi HS Hp' Ha. split; [done| |].
  - cbn [head set_head]. apply Forall2_insert; [|by destruct Hp'].
    eapply Forall2_impl; [exact Hps|]. by intros x T [].
  - unfold dp_objs. cbn [head set_head]. rewrite list_fmap_insert.
    rewrite list_insert_id; [done|]. rewrite list_lookup_fmap, Hi. simpl. unfold pool_obj. by rewrite Ha.
Qed.

Lemma taken_insert ps Ss i p S p' S' b :
  ps !! i = Some p → Ss !! i = Some S → slot_addr (pool p') = slot_addr (pool p) →
  (taken (<[i := p']> ps) (<[i := S']> Ss) b ↔
   (∃ k, k ∈ S' ∧ b = slot_addr (pool p) k) ∨
   ∃ j q T l, j ≠ i ∧ ps !! j = Some q ∧ Ss !! j = Some T ∧ l ∈ T ∧ b = slot_addr (pool q) l).
Proof.
  intros Hi HS Hsl. pose proof (lookup_lt_Some _ _ _ Hi). pose proof (lookup_lt_Some _ _ _ HS). split.
  - intros (j & q & T & l & Hj & HT & Hl & ->). destruct (decide (j = i)) as [->|Hne].
    + rewrite list_lookup_insert_eq in Hj by done. rewrite list_lookup_insert_eq in HT by done. simplify_eq. left. exists l. by rewrite Hsl.
    + rewrite list_lookup_insert_ne in Hj by done. rewrite list_lookup_insert_ne in HT by done. right. by exists j, q, T, l.
  - intros [(k & Hk & ->)|(j & q & T & l & Hne & Hj & HT & Hl & ->)].
    + exists i, p', S', k. rewrite !list_lookup_insert_eq by done. by rewrite Hsl.
    + exists j, q, T, l. by rewrite !list_lookup_insert_ne by done.
Qed.

Lemma taken_split ps Ss i p S b :
  ps !! i = Some p → Ss !! i = Some S →
  (taken ps Ss b ↔ (∃ k, k ∈ S ∧ b = slot_addr (pool p) k) ∨
   ∃ j q T l, j ≠ i ∧ ps !! j = Some q ∧ Ss !! j = Some T ∧ l ∈ T ∧ b = slot_addr (pool q) l).
Proof.
  intros Hi HS. rewrite <- (taken_insert ps Ss i p S p S b Hi HS eq_refl).
  by rewrite !list_insert_id by done.
Qed.

(** A cleared pool in a new object. *)
Lemma new_pool_ok dp a :
  pool_config dp → 0 < a → a + pool_bytes dp < 4294967296 → list_ok dp (new_pool dp a) ∅.
Proof.
  intros Hc Ha Hb. destruct (pool_bytes_eq dp Hc) as (Hm & Hm0 & Hbytes & _). pose proof (pc_size _ Hc) as Hs.
  pose proof (pc_item _ Hc) as Hi. unfold sizeof_list in *.
  assert (0 < pool_size dp * dp_item_size dp) by nia.
  assert (Hbuf : u32 (a + 24 + 4 * mskarr_num dp) = a + 24 + 4 * mask_words (pool_size dp))
    by (rewrite Hm; apply u32_small; lia).
  split; [|done|done|done|]; unfold new_pool, sizeof_list in *; cbn [pool buffer p_addr]; [|done].
  split; cbn [flags buffer item_size item_num]; [by apply Forall_replicate| | |done| |].
  - rewrite length_replicate, Hm. lia.
  - lia.
  - rewrite Hbuf. lia.
  - intros i. rewrite elem_of_empty. split; [done|]. intros [Hi' Hbit].
    rewrite <- (app_nil_r (replicate _ 0)), mskarr_bit_zero in Hbit; [done|].
    pose proof (mask_words_cover (pool_size dp) ltac:(lia)). rewrite Hm. lia.
Qed.

(** The item [a] is new, all others are as before. *)
Definition added (ps : list vsf_dynpool_list_t) Ss (a : Z) ps' Ss' : Prop :=
  a ≠ NULL ∧ ¬ taken ps Ss a ∧ ∀ b, taken ps' Ss' b ↔ b = a ∨ taken ps Ss b.

Lemma alloc_old dp m Ss i p S k p' n :
  dynpool_ok dp m Ss → head dp !! i = Some p → Ss !! i = Some S → k ∉ S →
  list_ok dp p' ({[k]} ∪ S) → p_addr p' = p_addr p → slot_addr (pool p') = slot_addr (pool p) →
  dynpool_ok (set_head dp (<[i := p']> (head dp)) n) m (<[i := {[k]} ∪ S]> Ss) ∧
  added (head dp) Ss (slot_addr (pool p) k) (<[i := p']> (head dp)) (<[i := {[k]} ∪ S]> Ss).
Proof.
  intros Hok Hi HS Hk Hp' Ha Hsl. pose proof (lookup_lt_Some _ _ _ Hi). pose proof (lookup_lt_Some _ _ _ HS).
  pose proof (insert_pool dp m Ss i p S p' ({[k]} ∪ S) n Hok Hi HS Hp' Ha) as Hok'.
  split; [done|]. split_and!.
  - pose proof Hok as [Hc _ _]. pose proof (slot_inside dp p' ({[k]} ∪ S) k Hc Hp' ltac:(set_solver)) as (_ & _ & _ & Hin).
    pose proof (ok_mem _ _ (lo_pool _ _ _ Hp')). rewrite Hsl in Hin. unfold NULL. lia.
  - intros (j & q & T & l & Hj & HT & Hl & Heq). destruct (decide (j = i)) as [->|Hne].
    + simplify_eq. destruct (taken_unique _ _ _ i i p' p' ({[k]} ∪ S) ({[k]} ∪ S) k l Hok') as [_ ->]; try done;
        cbn [head set_head]; rewrite ?list_lookup_insert_eq by done; try done; [set_solver..|]. by rewrite Hsl.
    + destruct (taken_unique _ _ _ i j p' q ({[k]} ∪ S) T k l Hok') as [? _]; try done;
        cbn [head set_head]; rewrite ?list_lookup_insert_eq, ?list_lookup_insert_ne by done; try done; [set_solver|].
      by rewrite Hsl.
  - intros b. rewrite (taken_insert _ _ i p S) by done. rewrite (taken_split (head dp) Ss i p S b Hi HS).
    setoid_rewrite elem_of_union. setoid_rewrite elem_of_singleton. naive_solver.
Qed.

Lemma alloc_new dp m m1 Ss a k p' n :
  dynpool_ok dp m Ss → mem_live m1 ((a, pool_bytes dp) :: dp_objs dp ++ A) →
  list_ok dp p' {[k]} → p_addr p' = a →
  dynpool_ok (set_head dp (p' :: head dp) n) m1 ({[k]} :: Ss) ∧
  added (head dp) Ss (slot_addr (pool p') k) (p' :: head dp) ({[k]} :: Ss).
Proof.
  intros [Hc Hps Hm] Hm1 Hp' Ha.
  assert (Hok' : dynpool_ok (set_head dp (p' :: head dp) n) m1 ({[k]} :: Ss)).
  { split; [by destruct Hc| |].
    - constructor; [by destruct Hp'|]. eapply Forall2_impl; [exact Hps|]. by intros x T [].
    - unfold dp_objs. cbn [head set_head]. rewrite fmap_cons. unfold pool_obj at 1. rewrite Ha. exact Hm1. }
  split; [done|]. split_and!.
  - pose proof (slot_inside dp p' {[k]} k Hc Hp' ltac:(set_solver)) as (_ & _ & _ & Hin).
    pose proof (ok_mem _ _ (lo_pool _ _ _ Hp')). unfold NULL. lia.
  - intros (j & q & T & l & Hj & HT & Hl & Heq).
    destruct (taken_unique _ _ _ 0 (Datatypes.S j) p' q {[k]} T k l Hok') as [? _]; try done. set_solver.
  - intros b. split.
    + intros ([|j] & q & T & l & Hj & HT & Hl & ->); simpl in Hj, HT; simplify_eq.
      * left. apply elem_of_singleton in Hl. by subst.
      * right. by exists j, q, T, l.
    + intros [->|(j & q & T & l & Hj & HT & Hl & ->)].
      * exists 0%nat, p', {[k]}, k. split_and!; try done. set_solver.
      * by exists (Datatypes.S j), q, T, l.
Qed.

Lemma dynpool_alloc_ok dp m Ss :
  dynpool_ok dp m Ss →
  ∃ a dp' m', vsf_dynpool_alloc dp m = Some (a, dp', m') ∧
    ((∃ Ss', dynpool_ok dp' m' Ss' ∧ added (head dp) Ss a (head dp') Ss') ∨
     (a = NULL ∧ dp' = dp ∧ dynpool_ok dp m' Ss ∧ Forall (λ S, Z.of_nat (size S) = pool_size dp) Ss)).
Proof.
  intros Hok. pose proof Hok as [Hc Hps Hm]. unfold vsf_dynpool_alloc.
  destruct (alloc_loop_ok dp (head dp) Ss Hc Hps) as [[-> Hfull]|(i & p & S & k & p' & -> & Hi & HS & Hk & Hp' & Ha & Hsl)];
    bindr.
  - assert (Hgive : ∀ m1, mem_live m1 (dp_objs dp ++ A) → ∃ a dp' m', Some (NULL, dp, m1) = Some (a, dp', m') ∧
      ((∃ Ss', dynpool_ok dp' m' Ss' ∧ added (head dp) Ss a (head dp') Ss') ∨
       (a = NULL ∧ dp' = dp ∧ dynpool_ok dp m' Ss ∧ Forall (λ S, Z.of_nat (size S) = pool_size dp) Ss))).
    { intros m1 Hm1. do 3 eexists. split; [done|]. by right. }
    destruct ((pool_num dp =? 0) || (pool_num dp <? cur_pool_num dp)); [|by apply Hgive].
    destruct (pool_bytes_eq dp Hc) as (_ & _ & _ & Hb).
    destruct (malloc_spec m _ (pool_bytes dp) Hm) as (a & m1 & -> & Ho); [lia..|]. bindr.
    destruct (decide (a = NULL)) as [Hn|Hn]; [destruct Ho as [[_ ?]|[? _]]; [by apply Hgive|done]|].
    destruct Ho as [[? _]|[_ Hm1]]; [done|].
    destruct (mem_live_bounds _ _ _ Hm1) as (Ha0 & _ & Ha1). cbn in Ha0, Ha1.
    destruct (do_allocate_ok dp (new_pool dp a) ∅ Hc (new_pool_ok dp a Hc Ha0 Ha1)) as (k & p' & -> & _ & Hp' & Ha & Hsl).
    { cbn. apply (pc_size _ Hc). }
    bindr. rewrite <- Hsl. rewrite (right_id_L ∅ (∪)) in Hp'.
    destruct (alloc_new dp m m1 Ss a k p' (u16 (cur_pool_num dp + 1)) Hok Hm1 Hp' Ha) as [Hok' Hadd].
    do 3 eexists. split; [done|]. left. by eexists.
  - destruct (alloc_old dp m Ss i p S k p' (cur_pool_num dp) Hok Hi HS Hk Hp' Ha Hsl) as [Hok' Hadd].
    do 3 eexists. split; [done|]. left. by eexists.
Qed.

(** The search for the pool of an item. *)
Lemma free_loop_ok dp m Ss i p S k :
  dynpool_ok dp m Ss → head dp !! i = Some p → Ss !! i = Some S → k ∈ S →
  ∃ p', free_loop (head dp) (slot_addr (pool p) k) = Some (true, <[i := p']> (head dp)) ∧
    list_ok dp p' (S ∖ {[k]}) ∧ p_addr p' = p_addr p ∧ slot_addr (pool p') = slot_addr (pool p).
Proof.
  intros Hok Hi HS Hk. pose proof Hok as [Hc Hps Hm].
  pose proof (Forall2_lookup_lr _ _ _ _ _ _ Hps Hi HS) as Hlp.
  destruct (slot_inside dp p S k Hc Hlp Hk) as (H1 & H2 & H3 & H4). pose proof (pc_item _ Hc) as Hit.
  pose proof (ok_mem _ _ (lo_pool _ _ _ Hlp)) as Hmem.
  assert (Hbefore : ∀ j q T, (j < i)%nat → head dp !! j = Some q → Ss !! j = Some T →
    vsfpool_free (pool q) (slot_addr (pool p) k) = Some (false, pool q)).
  { intros j q T Hj Hq HT. pose proof (Forall2_lookup_lr _ _ _ _ _ _ Hps Hq HT) as Hlq.
    pose proof (pools_apart dp m Ss j i q p Hok Hq Hi ltac:(lia)) as Hap.
    destruct (pool_free_ok (pool q) T (slot_addr (pool p) k) (lo_pool _ _ _ Hlq)) as [(Hin & _)|[_ ?]]; [lia| |done].
    exfalso. destruct (pool_bytes_eq dp Hc) as (_ & Hm0 & Hbytes & _).
    rewrite (lo_buffer _ _ _ Hlq), (lo_item _ _ _ Hlq), (lo_num _ _ _ Hlq) in Hin. unfold sizeof_list in *. lia. }
  assert (Hself : ∃ pl, vsfpool_free (pool p) (slot_addr (pool p) k) = Some (true, pl) ∧
    pool_ok pl (S ∖ {[k]}) ∧ ∃ f, pl = with_flags (pool p) f).
  { destruct (pool_free_ok (pool p) S (slot_addr (pool p) k) (lo_pool _ _ _ Hlp)) as [(_ & _ & pl & Hf & Hpl)|[Hout _]];
      [lia| |lia].
    assert (Hidx : (slot_addr (pool p) k - buffer (pool p)) / item_size (pool p) = k).
    { unfold slot_addr. replace (buffer (pool p) + k * item_size (pool p) - buffer (pool p))
        with (k * item_size (pool p)) by lia. apply Z.div_mul. rewrite (lo_item _ _ _ Hlp). lia. }
    rewrite Hidx in Hpl. exists pl. split_and!; [done..|].
    unfold vsfpool_free in Hf. case_decide; [done|]. destruct (_ <? _); [|done].
    destruct (mskarr_clr _ _) as [f|]; [|done]. cbn in Hf. injection Hf as <-. by exists f. }
  destruct Hself as (pl & Hf & Hpl & f & ->).
  eexists {| p_addr := p_addr p; pool := with_flags (pool p) f; allocated_num := u32 (allocated_num p - 1) |}.
  split; [|split; [|done]].
  - clear -Hbefore Hf Hi Hps. revert i Hi Hbefore. induction Hps as [|q T ps Ss _ _ IH]; intros i Hi Hbefore; [done|].
    cbn [free_loop]. destruct i as [|i]; simpl in Hi.
    + injection Hi as ->. rewrite Hf. bindr. done.
    + rewrite (Hbefore 0%nat q T) by (done || lia). bindr. rewrite (IH i Hi).
      * bindr. do 2 f_equal. by destruct q.
      * intros j q' T' Hj. apply (Hbefore (Datatypes.S j)). lia.
  - destruct Hlp as [Hp0 Hi0 Hn0 Hc0 Hb0]. split; try done. cbn [allocated_num].
    assert (Hsz : size S = Datatypes.S (size (S ∖ {[k]}))).
    { rewrite size_difference by set_solver. rewrite size_singleton.
      assert (size S ≠ 0%nat); [|lia]. intros Hz%size_empty_inv. set_solver. }
    assert (HSr : ∀ i, i ∈ S → 0 ≤ i < pool_size dp).
    { intros x Hin. apply (ok_taken _ _ Hp0) in Hin as [Hin _]. by rewrite Hn0 in Hin. }
    pose proof (pc_size _ Hc). destruct (slots_size (pool_size dp) S ltac:(lia) HSr) as [Hle _].
    rewrite u32_small; lia.
Qed.
End refine.

(** C38: a dynamic pool is a growing set of items.  [vsf_dynpool_alloc] gives an
    address that is not in use, from a new pool only if all pools are full, or
    NULL when memory is exhausted; [vsf_dynpool_free] takes back exactly the item
    given.  Items in use do not overlap, [vsf_dynpool_fini] gives every pool back,
    and a pool with a limit ([pool_num], compared the wrong way round) never gives
    anything. *)
Theorem vsf_dynpool_refines_set `{Allocator M} A dp (m : M) Ss :
  dynpool_ok A dp m Ss →
  (∃ a dp' m', vsf_dynpool_alloc dp m = Some (a, dp', m') ∧
     ((∃ Ss', dynpool_ok A dp' m' Ss' ∧ added (head dp) Ss a (head dp') Ss') ∨
      (a = NULL ∧ dp' = dp ∧ dynpool_ok A dp m' Ss ∧
         Forall (λ S, Z.of_nat (size S) = pool_size dp) Ss))) ∧
  (∀ a, taken (head dp) Ss a → ∃ dp' Ss', vsf_dynpool_free dp a = Some (true, dp') ∧
     dynpool_ok A dp' m Ss' ∧ ∀ b, taken (head dp') Ss' b ↔ taken (head dp) Ss b ∧ b ≠ a) ∧
  (∀ a b, taken (head dp) Ss a → taken (head dp) Ss b → a ≠ b →
     apart (a, dp_item_size dp) (b, dp_item_size dp)) ∧
  (∃ m', vsf_dynpool_fini dp m = Some (VSFERR_NONE, m') ∧ mem_live m' A) ∧
  (pool_num dp ≠ 0 → cur_pool_num dp ≤ pool_num dp → head dp = [] →
     vsf_dynpool_alloc dp m = Some (NULL, dp, m)).
Proof.
  intros Hok. pose proof Hok as [Hc Hps Hm]. split_and!.
  - by apply dynpool_alloc_ok.
  - intros a (i & p & S & k & Hi & HS & Hk & ->).
    destruct (free_loop_ok A dp m Ss i p S k Hok Hi HS Hk) as (p' & Hf & Hp' & Ha & Hsl).
    unfold vsf_dynpool_free. rewrite Hf. bindr. do 2 eexists. split; [done|].
    split; [by eapply insert_pool|]. intros b. cbn [head set_head].
    rewrite (taken_insert _ _ i p S) by done. rewrite (taken_split (head dp) Ss i p S b Hi HS). split.
    + intros [(l & Hl & ->)|(j & q & T & l & Hne & Hj & HT & Hl & ->)].
      * apply elem_of_difference in Hl as [Hl Hlk]. split; [left; by exists l|]. intros Heq.
        destruct (taken_unique A dp m Ss i i p p S S l k Hok) as [_ ->]; try done. set_solver.
      * split; [right; by exists j, q, T, l|]. intros Heq.
        destruct (taken_unique A dp m Ss j i q p T S l k Hok) as [? _]; done.
    + intros [[(l & Hl & ->)|?] Hne]; [left|by right]. exists l. split; [|done].
      apply elem_of_difference. split; [done|]. intros ->%elem_of_singleton. done.
  - intros a b. by apply (taken_apart A dp m Ss).
  - unfold vsf_dynpool_fini. destruct (mfree_all_live (dp_objs dp) m A Hm) as (m' & Hf & Hm').
    unfold dp_objs in Hf. rewrite <- list_fmap_compose in Hf.
    replace (p_addr <$> head dp) with (fst ∘ pool_obj dp <$> head dp) by done.
    rewrite Hf. bindr. by exists m'.
  - intros Hn Hcur Hnil. unfold vsf_dynpool_alloc. rewrite Hnil. cbn [alloc_loop]. bindr.
    destruct (Z.eqb_spec (pool_num dp) 0), (Z.ltb_spec (pool_num dp) (cur_pool_num dp)); simpl; (done || lia).
Qed.

(** ** Example *)

(** A pool of two items of which the second is in use. *)
Definition demo_dynpool : vsf_dynpool_t :=
  {| dp_item_size := 8; pool_size := 2; pool_num := 0;
     head := [{| p_addr := 4108; allocated_num := 1;
                 pool := {| flags := [2]; buffer := 4136; item_size := 8; item_num := 2 |} |}];
     cur_pool_num := 1 |}.

Lemma demo_dynpool_ok : dynpool_ok [] demo_dynpool (demo_alloc [44]).2 [{[1]}].
Proof.
  assert (Ho : (demo_alloc [44]).1 = [(4108, 44)]) by (vm_compute; reflexivity).
  split.
  - split; simpl; unfold sizeof_list, mask_words; (lia || by vm_compute).
  - constructor; [|constructor]. split; try done. split; simpl; try lia; [by_decide|by vm_compute|].
    intros i. rewrite elem_of_singleton. split; [intros ->; by split|].
    intros [Hi Hb]. destruct (decide (i = 1)); [done|]. by replace i with 0 in Hb by lia.
  - change (dp_objs demo_dynpool ++ []) with [(4108, 44)]. rewrite <- Ho.
    apply demo_alloc_live; [by_decide|]. rewrite Ho. by_decide.
Qed.

Lemma vsf_dynpool_refines_set_witness :
  ∃ dp', vsf_dynpool_free demo_dynpool 4144 = Some (true, dp') ∧
    ∃ m', vsf_dynpool_fini demo_dynpool (demo_alloc [44]).2 = Some (VSFERR_NONE, m').
Proof.
  destruct (vsf_dynpool_refines_set [] demo_dynpool (demo_alloc [44]).2 [{[1]}] demo_dynpool_ok)
    as (_ & Hf & _ & (m' & Hm & _) & _).
  destruct (Hf 4144) as (dp' & Ss' & H1 & _).
  - exists 0%nat. eexists. exists {[1]}, 1. split_and!; [reflexivity|done|set_solver|reflexivity].
  - exists dp'. split; [exact H1|]. exists m'. exact Hm.
Defined.
