(* ===== verification/Vsfmal.v ===== *)
(** * Vsfmal: the memory abstraction layer and its windows (vsfmal.c)

    A memory is a table of driver operations ([vsfmal_drv_t]); [vsfmal_read]
    and its siblings cut a transfer into the driver's blocks, and a window
    (mim, memory in memory) is a driver that shifts addresses into another
    memory.  All of them are protothreads: one call is one dispatch, which
    ends with a positive value while the driver waits, and the label kept in
    the protothread says where the next one resumes.

    [BlockDriver] is what a driver promises to its callers: the layer is
    proved against it, and a window is shown to keep it. *)

From S2P Require Import Prelude.

(** ** Data *)

Record vsfmal_capacity_t := { block_size : Z; block_num : Z }.

Inductive vsfmal_op_t := VSFMAL_OP_ERASE | VSFMAL_OP_READ | VSFMAL_OP_WRITE.

(** [struct vsfsm_pt_t]: [state] is the label, 0 at the start. *)
Record vsfsm_pt_t := { user_data : Z; state : Z }.

(** [struct vsfmal_t]; [drv] is the address of the table, and the protothread
    of the memory at address [a] is at [a] in [pts]. *)
Record vsfmal_t := { cap : vsfmal_capacity_t; drv : Z; op_block_size : Z; mal_offset : Z }.

(** What [struct vsfmim_t] adds to the memory it starts with. *)
Record vsfmim_t := { realmal : Z; mim_addr : Z; mim_size : Z }.

(** The store: protothreads, memories and windows by address, the memory the
    transfer buffers are in, and the devices. *)
Record mworld (D : Type) := {
  pts : gmap Z vsfsm_pt_t; mals : gmap Z vsfmal_t; mims : gmap Z vsfmim_t;
  ram : list Z; dev : D }.
Arguments pts {D}. Arguments mals {D}. Arguments mims {D}. Arguments ram {D}. Arguments dev {D}.

Section store.
Context {D : Type}.
Implicit Types (w : mworld D).

Definition set_pt w (a : Z) (p : vsfsm_pt_t) : mworld D :=
  {| pts := <[a := p]> (pts w); mals := mals w; mims := mims w; ram := ram w; dev := dev w |}.
Definition set_mal w (a : Z) (m : vsfmal_t) : mworld D :=
  {| pts := pts w; mals := <[a := m]> (mals w); mims := mims w; ram := ram w; dev := dev w |}.
Definition set_ram w (r : list Z) : mworld D :=
  {| pts := pts w; mals := mals w; mims := mims w; ram := r; dev := dev w |}.
Definition set_dev w (d : D) : mworld D :=
  {| pts := pts w; mals := mals w; mims := mims w; ram := ram w; dev := d |}.
End store.

Definition set_op (m : vsfmal_t) (bs off : Z) : vsfmal_t :=
  {| cap := cap m; drv := drv m; op_block_size := bs; mal_offset := off |}.
Definition set_cap (m : vsfmal_t) (c : vsfmal_capacity_t) : vsfmal_t :=
  {| cap := c; drv := drv m; op_block_size := op_block_size m; mal_offset := mal_offset m |}.

(** A protothread: the address of its [vsfsm_pt_t] and an event. *)
Notation pt_fun D := (Z → Z → mworld D → option (Z * mworld D)).

(** [struct vsfmal_drv_t]; [None] is a NULL function. *)
Record vsfmal_drv_t (D : Type) := {
  drv_block_size : Z → Z → Z → vsfmal_op_t → mworld D → option Z;
  drv_init : option (pt_fun D);
  drv_fini : option (pt_fun D);
  drv_erase_all : option (pt_fun D);
  drv_erase : option (Z → Z → Z → Z → mworld D → option (Z * mworld D));
  drv_read : option (Z → Z → Z → Z → Z → mworld D → option (Z * mworld D));
  drv_write : option (Z → Z → Z → Z → Z → mworld D → option (Z * mworld D)) }.
Arguments drv_block_size {D}. Arguments drv_init {D}. Arguments drv_fini {D}.
Arguments drv_erase_all {D}. Arguments drv_erase {D}. Arguments drv_read {D}.
Arguments drv_write {D}.

(** ** The layer *)

(** The labels are the source's line numbers. *)
Definition ERASE_ENTRY : Z := 55.
Definition READ_ENTRY : Z := 81.
Definition WRITE_ENTRY : Z := 108.

Section vsfmal.
Context {D : Type} (table : Z → vsfmal_drv_t D).
Implicit Types (w : mworld D).

Definition pt_mal (pt : Z) w : option (Z * vsfmal_t) :=
  p ← pts w !! pt;
  m ← mals w !! user_data p;
  Some (user_data p, m).

Definition vsfmal_init (pt evt : Z) w : option (Z * mworld D) :=
  '(_, m) ← pt_mal pt w;
  match drv_init (table (drv m)) with
  | None => Some (VSFERR_NONE, w)
  | Some f => f pt evt w
  end.

Definition vsfmal_fini (pt evt : Z) w : option (Z * mworld D) :=
  '(_, m) ← pt_mal pt w;
  match drv_fini (table (drv m)) with
  | None => Some (VSFERR_NONE, w)
  | Some f => f pt evt w
  end.

Definition vsfmal_erase_all (pt evt : Z) w : option (Z * mworld D) :=
  '(_, m) ← pt_mal pt w;
  match drv_erase_all (table (drv m)) with
  | None => Some (VSFERR_NOT_SUPPORT, w)
  | Some f => f pt evt w
  end.

(** The loop over the blocks: [op] is the driver's operation on the block at
    an offset, [entry] the label before it; [resume] when the dispatch starts
    at the label. *)
Fixpoint vsfmal_blocks (fuel : nat) (resume : bool) (entry pt mal size : Z)
    (op : Z → Z → mworld D → option (Z * mworld D)) w : option (Z * mworld D) :=
  match fuel with
  | O => None
  | S fuel =>
      m ← mals w !! mal;
      if negb resume && negb (mal_offset m <? size) then Some (VSFERR_NONE, w)
      else
        w ← (if resume then Some w
             else
               p ← pts w !! pt;
               let w := set_pt w mal {| user_data := mal; state := 0 |} in
               Some (set_pt w pt {| user_data := user_data p; state := entry |}));
        '(err, w) ← op (mal_offset m) (op_block_size m) w;
        if negb (err =? 0) then Some (err, w)
        else
          m ← mals w !! mal;
          let w := set_mal w mal (set_op m (op_block_size m)
                     (u32 (mal_offset m + op_block_size m))) in
          vsfmal_blocks fuel false entry pt mal size op w
  end.

(** [vsfsm_pt_begin]: from the start, from the label, or past the end of the
    [switch]. *)
Definition vsfmal_blocks_pt (kind : vsfmal_op_t) (entry pt addr size : Z)
    (op : Z → Z → Z → mworld D → option (Z * mworld D)) w : option (Z * mworld D) :=
  p ← pts w !! pt;
  let mal := user_data p in
  m ← mals w !! mal;
  let fuel := S (Z.to_nat size) in
  if state p =? 0 then
    bs ← drv_block_size (table (drv m)) mal addr size kind w;
    vsfmal_blocks fuel false entry pt mal size (op mal) (set_mal w mal (set_op m bs 0))
  else if state p =? entry then vsfmal_blocks fuel true entry pt mal size (op mal) w
  else Some (VSFERR_NONE, w).

Definition vsfmal_erase (pt evt addr size : Z) w : option (Z * mworld D) :=
  vsfmal_blocks_pt VSFMAL_OP_ERASE ERASE_ENTRY pt addr size (λ mal offset bs w,
    m ← mals w !! mal;
    f ← drv_erase (table (drv m));
    f mal evt (u64 (addr + offset)) bs w) w.

Definition vsfmal_read (pt evt addr buff size : Z) w : option (Z * mworld D) :=
  vsfmal_blocks_pt VSFMAL_OP_READ READ_ENTRY pt addr size (λ mal offset bs w,
    m ← mals w !! mal;
    f ← drv_read (table (drv m));
    f mal evt (u64 (addr + offset)) (buff + offset) bs w) w.

Definition vsfmal_write (pt evt addr buff size : Z) w : option (Z * mworld D) :=
  vsfmal_blocks_pt VSFMAL_OP_WRITE WRITE_ENTRY pt addr size (λ mal offset bs w,
    m ← mals w !! mal;
    f ← drv_write (table (drv m));
    f mal evt (u64 (addr + offset)) (buff + offset) bs w) w.

(** ** mim: mal in mal *)

Definition vsfmim_blocksize (mal addr size : Z) (op : vsfmal_op_t) w : option Z :=
  mim ← mims w !! mal;
  m ← mals w !! realmal mim;
  drv_block_size (table (drv m)) (realmal mim) (u64 (mim_addr mim + addr)) size op w.

(** [pt->user_data = mim->realmal], [mim] being what [user_data] was. *)
Definition vsfmim_enter (pt : Z) w : option (vsfmim_t * mworld D) :=
  p ← pts w !! pt;
  mim ← mims w !! user_data p;
  Some (mim, set_pt w pt {| user_data := realmal mim; state := state p |}).

(** Division by a zero block size is undefined. *)
Definition vsfmim_init (pt evt : Z) w : option (Z * mworld D) :=
  p ← pts w !! pt;
  mim ← mims w !! user_data p;
  m ← mals w !! user_data p;
  rm ← mals w !! realmal mim;
  let bs := block_size (cap rm) in
  if bs =? 0 then None
  else
    let w := set_mal w (user_data p) (set_cap m {| block_size := bs; block_num := mim_size mim / bs |}) in
    '(_, w) ← vsfmim_enter pt w;
    vsfmal_init pt evt w.

Definition vsfmim_fini (pt evt : Z) w : option (Z * mworld D) :=
  '(_, w) ← vsfmim_enter pt w;
  vsfmal_fini pt evt w.

Definition vsfmim_erase_all (pt evt : Z) w : option (Z * mworld D) :=
  Some (VSFERR_NOT_SUPPORT, w).

Definition vsfmim_erase (pt evt addr size : Z) w : option (Z * mworld D) :=
  '(mim, w) ← vsfmim_enter pt w;
  vsfmal_erase pt evt (u64 (mim_addr mim + addr)) size w.

Definition vsfmim_read (pt evt addr buff size : Z) w : option (Z * mworld D) :=
  '(mim, w) ← vsfmim_enter pt w;
  vsfmal_read pt evt (u64 (mim_addr mim + addr)) buff size w.

Definition vsfmim_write (pt evt addr buff size : Z) w : option (Z * mworld D) :=
  '(mim, w) ← vsfmim_enter pt w;
  vsfmal_write pt evt (u64 (mim_addr mim + addr)) buff size w.

Definition vsfmim_drv : vsfmal_drv_t D := {|
  drv_block_size := vsfmim_blocksize;
  drv_init := Some vsfmim_init; drv_fini := Some vsfmim_fini;
  drv_erase_all := Some vsfmim_erase_all; drv_erase := Some vsfmim_erase;
  drv_read := Some vsfmim_read; drv_write := Some vsfmim_write |}.
End vsfmal.

(** The table of a system: windows nested at most [nest] deep, other drivers
    as given.  [VSFMIM_DRV] is the address of [vsfmim_drv]. *)
Definition VSFMIM_DRV : Z := 1.

Definition stuck_drv {D} : vsfmal_drv_t D := {|
  drv_block_size := λ _ _ _ _ _, None;
  drv_init := Some (λ _ _ _, None); drv_fini := Some (λ _ _ _, None);
  drv_erase_all := Some (λ _ _ _, None); drv_erase := None; drv_read := None; drv_write := None |}.

Fixpoint drv_table {D} (drivers : Z → vsfmal_drv_t D) (nest : nat) (d : Z) : vsfmal_drv_t D :=
  if d =? VSFMIM_DRV then
    match nest with
    | O => stuck_drv
    | S nest => vsfmim_drv (drv_table drivers nest)
    end
  else drivers d.

(** ** What a transfer does *)

(** [d] is [d0] with [x] and then [n] unknown bytes written at [p]. *)
Definition over (p : nat) (x : list Z) (n : nat) (d0 d : list Z) : Prop :=
  ∃ junk, length junk = n ∧ d = list_inserts p (x ++ junk) d0.

(** An operation at address [a] with the buffer at [b]: [o] bytes are done, the
    next [n] may be anything, the rest is as before.  The medium goes from
    [i0] to [i], the memory from [r0] to [r]. *)
Definition effect (k : vsfmal_op_t) (a b o n : nat) (i0 r0 i r : list Z) : Prop :=
  match k with
  | VSFMAL_OP_READ => i = i0 ∧ over b (take o (drop a i0)) n r0 r
  | VSFMAL_OP_WRITE => r = r0 ∧ over a (take o (drop b r0)) n i0 i
  | VSFMAL_OP_ERASE => r = r0 ∧ ∃ x, length x = o ∧ over a x n i0 i
  end.

(** The medium has [a, a+n) and, unless it is erased, the memory [b, b+n). *)
Definition spans (k : vsfmal_op_t) (a b n : nat) (i r : list Z) : Prop :=
  (a + n ≤ length i)%nat ∧ (k ≠ VSFMAL_OP_ERASE → (b + n ≤ length r)%nat).

Lemma inserts_same p (x y l : list Z) :
  length x = length y → list_inserts p x (list_inserts p y l) = list_inserts p x l.
Proof.
  intros Hxy. apply list_eq. intros i.
  destruct (decide (p ≤ i < p + length x)%nat) as [Hin|Hout].
  - destruct (decide (i < length l)%nat).
    + by rewrite !list_lookup_inserts by len.
    + rewrite !lookup_ge_None_2 by len. done.
  - destruct (decide (i < p)%nat); [by rewrite !list_lookup_inserts_lt by lia|].
    by rewrite !list_lookup_inserts_ge by lia.
Qed.

Lemma inserts_self p n (l : list Z) :
  (p + n ≤ length l)%nat → list_inserts p (take n (drop p l)) l = l.
Proof.
  intros Hn. apply list_eq. intros i.
  assert (Hlen : length (take n (drop p l)) = n) by (rewrite length_take, length_drop; lia).
  destruct (decide (i < p)%nat); [by rewrite list_lookup_inserts_lt by lia|].
  destruct (decide (i < p + n)%nat).
  - rewrite list_lookup_inserts by lia. rewrite lookup_take_lt, lookup_drop by lia. f_equal. lia.
  - by rewrite list_lookup_inserts_ge by lia.
Qed.

Lemma over_length p x n d0 d : over p x n d0 d → length d = length d0.
Proof. intros (j & _ & ->). apply length_inserts. Qed.

Lemma over_put p x y n d0 d :
  over p x n d0 d → length y = n → over p (x ++ y) 0 d0 (list_inserts (p + length x) y d).
Proof.
  intros (j & Hj & ->) Hy. exists []. split; [done|]. rewrite app_nil_r.
  rewrite !list_inserts_app_l, (Nat.add_comm p (length x)). apply inserts_same. congruence.
Qed.

Lemma over_touch p x n d0 d j :
  over p x n d0 d → length j = n → over p x n d0 (list_inserts (p + length x) j d).
Proof.
  intros Hd Hj. destruct (over_put p x j n d0 d Hd Hj) as ([|] & Hz & He); [|done].
  rewrite app_nil_r in He. by exists j.
Qed.

Lemma over_start p x n d0 d :
  over p x 0 d0 d → (p + length x + n ≤ length d0)%nat → over p x n d0 d.
Proof.
  intros Hd Hn. pose proof (over_length _ _ _ _ _ Hd) as Hl.
  destruct Hd as ([|] & Hz & ->); [|done]. rewrite app_nil_r in Hl |- *.
  set (d := list_inserts p x d0) in *.
  exists (take n (drop (p + length x) d)). split; [rewrite length_take, length_drop; lia|].
  rewrite list_inserts_app_l. fold d. rewrite (Nat.add_comm (length x) p).
  symmetry. apply inserts_self. lia.
Qed.

Lemma take_drop_app {A} (l : list A) a o n :
  take o (drop a l) ++ take n (drop (a + o) l) = take (o + n) (drop a l).
Proof. rewrite <- drop_drop. by rewrite <- take_take_drop. Qed.

Lemma length_slice {A} (l : list A) a n : (a + n ≤ length l)%nat → length (take n (drop a l)) = n.
Proof. intros. rewrite length_take, length_drop. lia. Qed.

Lemma effect_length k a b o n i0 r0 i r :
  effect k a b o n i0 r0 i r → length i = length i0 ∧ length r = length r0.
Proof.
  destruct k; simpl.
  - intros (-> & x & _ & Ho). split; [by eapply over_length|done].
  - intros (-> & Ho). split; [done|by eapply over_length].
  - intros (-> & Ho). split; [by eapply over_length|done].
Qed.

Lemma effect_nothing k a b i r : effect k a b 0 0 i r i r.
Proof. destruct k; simpl; (split; [done|]); [exists []; split; [done|]| |]; by exists []. Qed.

Lemma effect_start k a b o n i0 r0 i r :
  effect k a b o 0 i0 r0 i r → spans k a b (o + n) i0 r0 → effect k a b o n i0 r0 i r.
Proof.
  intros He (Hi & Hr). destruct k; simpl in *.
  - destruct He as (-> & x & Hx & Ho). split; [done|]. exists x. split; [done|].
    apply over_start; [done|lia].
  - destruct He as (-> & Ho). split; [done|]. specialize (Hr ltac:(done)).
    apply over_start; [done|]. rewrite length_slice; lia.
  - destruct He as (-> & Ho). split; [done|]. specialize (Hr ltac:(done)).
    apply over_start; [done|]. rewrite length_slice; lia.
Qed.

Lemma effect_done k a b o n i0 r0 i r i' r' :
  effect k a b o n i0 r0 i r → effect k (a + o) (b + o) n 0 i r i' r' →
  spans k a b (o + n) i0 r0 → effect k a b (o + n) 0 i0 r0 i' r'.
Proof.
  intros He He' (Hi & Hr). destruct k; simpl in *.
  - destruct He as (-> & x & Hx & Ho), He' as (-> & y & Hy & [|] & Hz & ->); [|done].
    rewrite app_nil_r. split; [done|]. exists (x ++ y). rewrite length_app. split; [lia|].
    rewrite <- Hx. by apply over_put with n.
  - destruct He as (-> & Ho), He' as (-> & [|] & Hz & ->); [|done]. specialize (Hr ltac:(done)).
    rewrite app_nil_r. split; [done|]. rewrite <- take_drop_app.
    pose proof (over_put b _ (take n (drop (a + o) i0)) n r0 r Ho) as Hp.
    rewrite !length_slice in Hp by lia. by apply Hp.
  - destruct He as (-> & Ho), He' as (-> & [|] & Hz & ->); [|done]. specialize (Hr ltac:(done)).
    rewrite app_nil_r. split; [done|]. rewrite <- take_drop_app.
    pose proof (over_put a _ (take n (drop (b + o) r0)) n i0 i Ho) as Hp.
    rewrite !length_slice in Hp by lia. by apply Hp.
Qed.

Lemma effect_touch k a b o n i0 r0 i r i' r' :
  effect k a b o n i0 r0 i r → effect k (a + o) (b + o) 0 n i r i' r' →
  spans k a b (o + n) i0 r0 → effect k a b o n i0 r0 i' r'.
Proof.
  intros He He' (Hi & Hr). destruct k; simpl in *.
  - destruct He as (-> & x & Hx & Ho), He' as (-> & [|] & Hy & j & Hj & ->); [|done].
    split; [done|]. exists x. split; [done|]. rewrite <- Hx. by apply over_touch.
  - destruct He as (-> & Ho), He' as (-> & j & Hj & ->). specialize (Hr ltac:(done)).
    split; [done|]. rewrite take_0. simpl.
    pose proof (over_touch b _ n r0 r j Ho Hj) as Hp. by rewrite length_slice in Hp by lia.
  - destruct He as (-> & Ho), He' as (-> & j & Hj & ->). specialize (Hr ltac:(done)).
    split; [done|]. rewrite take_0. simpl.
    pose proof (over_touch a _ n i0 i j Ho Hj) as Hp. by rewrite length_slice in Hp by lia.
Qed.

(** ** The promise of a driver *)

Section driver.
Context {D : Type}.
Implicit Types (w : mworld D) (k : vsfmal_op_t).

(** The driver's operation [k]; an erase has no buffer. *)
Definition drv_op (t : vsfmal_drv_t D) k (pt evt addr buff size : Z) w : option (Z * mworld D) :=
  match k with
  | VSFMAL_OP_ERASE => f ← drv_erase t; f pt evt addr size w
  | VSFMAL_OP_READ => f ← drv_read t; f pt evt addr buff size w
  | VSFMAL_OP_WRITE => f ← drv_write t; f pt evt addr buff size w
  end.

(** What no operation changes: the windows, the capacity and the driver of
    each memory, and which objects there are. *)
Definition same_config w w' : Prop :=
  mims w' = mims w ∧
  (∀ a, (λ m, (cap m, drv m)) <$> mals w' !! a = (λ m, (cap m, drv m)) <$> mals w !! a) ∧
  (∀ a, is_Some (pts w' !! a) ↔ is_Some (pts w !! a)).

(** Nothing changes but the private state of the memories [own] and the
    protothreads in [own] or at [pt]. *)
Definition framed (own : gset Z) (pt : Z) w w' : Prop :=
  same_config w w' ∧
  (∀ a, a ∉ own → mals w' !! a = mals w !! a) ∧
  (∀ a, a ∉ own → a ≠ pt → pts w' !! a = pts w !! a).

#[export] Instance same_config_equiv : Equivalence same_config.
Proof.
  unfold same_config. split.
  - by intros w.
  - intros w w' (? & H2 & H3). split_and!; [done|..]; intros a; [by rewrite H2|by rewrite H3].
  - intros w w' w'' (? & H2 & H3) (? & H5 & H6).
    split_and!; [congruence|..]; intros a; [by rewrite H5|by rewrite H6].
Qed.

Lemma framed_trans own pt w w' w'' :
  framed own pt w w' → framed own pt w' w'' → framed own pt w w''.
Proof.
  intros (H1 & H2 & H3) (H4 & H5 & H6). split; [by etransitivity|].
  split; intros; [by rewrite H5, H2|by rewrite H6, H3].
Qed.

Lemma framed_weaken own pt own' pt' w w' :
  framed own pt w w' → own ⊆ own' → (pt = pt' ∨ pt ∈ own') → framed own' pt' w w'.
Proof.
  intros (H1 & H2 & H3) Ho Hp. split; [done|].
  split; intros a Ha; [apply H2|intros Hne; apply H3]; set_solver.
Qed.

Lemma framed_refl own pt w : framed own pt w w.
Proof. by split_and!. Qed.

Lemma framed_set_pt own pt a p w :
  is_Some (pts w !! a) → a = pt ∨ a ∈ own → framed own pt w (set_pt w a p).
Proof.
  intros Ha Hin. split_and!; [split_and!; [done..|]| done |]; cbn [pts set_pt]; intros b.
  - destruct (decide (a = b)) as [->|]; [|by rewrite lookup_insert_ne].
    rewrite lookup_insert_eq. split; done.
  - intros ??. rewrite lookup_insert_ne; set_solver.
Qed.

Lemma framed_set_mal own pt a m m' w :
  mals w !! a = Some m → cap m' = cap m → drv m' = drv m → a ∈ own →
  framed own pt w (set_mal w a m').
Proof.
  intros Ha Hc Hd Hin. split_and!; [split_and!; [done| |done]| |done]; cbn [mals set_mal]; intros b.
  - destruct (decide (a = b)) as [->|]; [|by rewrite lookup_insert_ne].
    rewrite lookup_insert_eq, Ha. simpl. by rewrite Hc, Hd.
  - intros ?. rewrite lookup_insert_ne; set_solver.
Qed.

(** A driver [t] serving the memory at [mal]: the medium is a function of the
    devices; an operation on one block either finishes it, or fails having
    touched nothing but the block and the buffer, or waits, and then the next
    dispatch with the same arguments goes on from there, at most [bd_rank]
    times. *)
Class BlockDriver (t : vsfmal_drv_t D) (mal : Z) := {
  bd_image : D → list Z;
  bd_len : nat;
  bd_block : nat;
  bd_owned : gset Z;
  bd_ok : mworld D → Prop;
  bd_waiting : vsfmal_op_t → Z → Z → D → Prop;
  bd_rank : Z → D → nat;
  bd_image_length d : length (bd_image d) = bd_len;
  bd_len_fits : Z.of_nat bd_len < 2 ^ 64;
  bd_block_pos : (0 < bd_block)%nat;
  bd_fresh : mal ∉ bd_owned;
  bd_ok_config w w' : same_config w w' → bd_ok w → bd_ok w';
  bd_block_size addr size k w :
    bd_ok w → drv_block_size t mal addr size k w = Some (Z.of_nat bd_block);
  bd_op k w p evt (a b : nat) :
    bd_ok w → pts w !! mal = Some p → user_data p = mal →
    state p = 0 ∨ bd_waiting k (Z.of_nat a) (state p) (dev w) →
    spans k a b bd_block (bd_image (dev w)) (ram w) →
    ∃ e w' p', drv_op t k mal evt (Z.of_nat a) (Z.of_nat b) (Z.of_nat bd_block) w = Some (e, w') ∧
      framed bd_owned mal w w' ∧ pts w' !! mal = Some p' ∧
      if e =? 0 then
        effect k a b bd_block 0 (bd_image (dev w)) (ram w) (bd_image (dev w')) (ram w')
      else
        effect k a b 0 bd_block (bd_image (dev w)) (ram w) (bd_image (dev w')) (ram w') ∧
        (0 < e → user_data p' = mal ∧ bd_waiting k (Z.of_nat a) (state p') (dev w') ∧
          (bd_rank (state p') (dev w') < bd_rank (state p) (dev w))%nat) }.
End driver.

(** ** The loop over the blocks *)

Section blocks.
Context {D : Type} (table : Z → vsfmal_drv_t D) (d mal : Z).
Context `{Hbd : !BlockDriver (table d) mal}.
Implicit Types (w : mworld D) (k : vsfmal_op_t).

Definition entry_of k : Z :=
  match k with
  | VSFMAL_OP_ERASE => ERASE_ENTRY | VSFMAL_OP_READ => READ_ENTRY | VSFMAL_OP_WRITE => WRITE_ENTRY
  end.

(** The call of the driver in the loop of [k]. *)
Definition block_op k (evt addr buff : Z) (mal offset bs : Z) w : option (Z * mworld D) :=
  m ← mals w !! mal;
  drv_op (table (drv m)) k mal evt (u64 (addr + offset)) (buff + offset) bs w.

(** The three functions of the layer. *)
Definition vsfmal_op k (pt evt addr buff size : Z) w : option (Z * mworld D) :=
  match k with
  | VSFMAL_OP_ERASE => vsfmal_erase table pt evt addr size w
  | VSFMAL_OP_READ => vsfmal_read table pt evt addr buff size w
  | VSFMAL_OP_WRITE => vsfmal_write table pt evt addr buff size w
  end.

Lemma vsfmal_op_eq k pt evt addr buff size w :
  vsfmal_op k pt evt addr buff size w =
  vsfmal_blocks_pt table k (entry_of k) pt addr size (block_op k evt addr buff) w.
Proof. by destruct k. Qed.

(** A transfer of [size] bytes at [a], [b], begun on the medium [i0] and the
    memory [r0], with [o] bytes done; [resume] in the middle of a block. *)
Record going k (pt : Z) (a b size o : nat) (i0 r0 : list Z) (resume : bool) w : Prop := {
  go_mal : ∃ m, mals w !! mal = Some m ∧ drv m = d ∧
    op_block_size m = Z.of_nat bd_block ∧ mal_offset m = Z.of_nat o;
  go_ok : bd_ok w;
  go_pt : ∃ p, pts w !! pt = Some p ∧ user_data p = mal ∧ (resume = true → state p = entry_of k);
  go_drv : ∃ p, pts w !! mal = Some p ∧ (resume = true → user_data p = mal ∧
    (state p = 0 ∨ bd_waiting k (Z.of_nat (a + o)) (state p) (dev w)));
  go_div : ∃ n, (o + n * bd_block = size)%nat ∧ (resume = true → (0 < n)%nat);
  go_effect : effect k a b o (if resume then bd_block else 0) i0 r0 (bd_image (dev w)) (ram w) }.

(** The dispatches the driver may still need for the current block. *)
Definition drank w : nat :=
  match pts w !! mal with Some p => bd_rank (state p) (dev w) | None => 0 end.

Definition closer o (resume : bool) w o' w' : Prop :=
  (o < o')%nat ∨ (o = o' ∧ (resume = true → drank w' < drank w))%nat.

Context (k : vsfmal_op_t) (pt : Z) (a b size : nat) (i0 r0 : list Z).
Context (Hpt : pt ≠ mal) (Hown : pt ∉ bd_owned).
Context (Hsize : Z.of_nat size + Z.of_nat bd_block ≤ 4294967296).
Context (Hspan : spans k a b size i0 r0) (Hlen : length i0 = bd_len).
Notation transfer := (going k pt a b size).
Notation private := ({[mal]} ∪ bd_owned).

(** The block at [o] is inside the transfer. *)
Lemma block_fits o w : transfer o i0 r0 true w → (o + bd_block ≤ size)%nat.
Proof. intros [_ _ _ _ (n & Hn & Hpos) _]. specialize (Hpos eq_refl). destruct n; lia. Qed.

Lemma spans_part o :
  (o + bd_block ≤ size)%nat → spans k a b (o + bd_block) i0 r0.
Proof. intros Ho. destruct Hspan as [H1 H2]. split; [lia|]. intros Hk. specialize (H2 Hk). lia. Qed.

Lemma going_setup o w :
  transfer o i0 r0 false w → (o < size)%nat →
  ∃ p, pts w !! pt = Some p ∧
    let w' := set_pt (set_pt w mal {| user_data := mal; state := 0 |}) pt
                {| user_data := user_data p; state := entry_of k |} in
    transfer o i0 r0 true w' ∧ framed private pt w w'.
Proof.
  intros [Hm Hok (p & Hp & Hpu & _) (q & Hq & _) (n & Hn & _) He] Ho. exists p. split; [done|].
  assert (Hf : framed private pt w (set_pt (set_pt w mal {| user_data := mal; state := 0 |}) pt
    {| user_data := user_data p; state := entry_of k |})).
  { eapply framed_trans; apply framed_set_pt; [done|set_solver| |by left].
    cbn [pts set_pt]. rewrite lookup_insert_ne by done. done. }
  split; [|done]. split.
  - exact Hm.
  - eapply bd_ok_config; [apply Hf|done].
  - eexists. split; [apply lookup_insert_eq|]. done.
  - eexists. cbn [pts set_pt]. rewrite lookup_insert_ne, lookup_insert_eq by done.
    split; [done|]. intros _. split; [done|by left].
  - exists n. split; [done|]. intros _. destruct n; lia.
  - cbn. apply effect_start; [exact He|]. apply spans_part. destruct n; lia.
Qed.

(** *** One dispatch *)

Section dispatch.
Context (evt : Z).

Lemma going_call o w m :
  transfer o i0 r0 true w → mals w !! mal = Some m →
  ∃ e w' p', block_op k evt (Z.of_nat a) (Z.of_nat b) mal (mal_offset m) (op_block_size m) w
      = Some (e, w') ∧
    framed bd_owned mal w w' ∧ mals w' !! mal = Some m ∧ pts w' !! mal = Some p' ∧
    if e =? 0 then effect k a b (o + bd_block) 0 i0 r0 (bd_image (dev w')) (ram w')
    else effect k a b o bd_block i0 r0 (bd_image (dev w')) (ram w') ∧
      (0 < e → user_data p' = mal ∧ bd_waiting k (Z.of_nat (a + o)) (state p') (dev w') ∧
        (bd_rank (state p') (dev w') < drank w)%nat).
Proof.
  intros Hg Hm. pose proof (block_fits o w Hg) as Hfit. pose proof (spans_part o Hfit) as Hsp.
  destruct Hg as [(m' & Hm' & Hd & Hbs & Hoff) Hok _ (p & Hp & Hpd) _ He].
  rewrite Hm' in Hm. injection Hm as ->. destruct (Hpd eq_refl) as [Hpu Hst].
  destruct (effect_length _ _ _ _ _ _ _ _ _ He) as [Hli Hlr].
  destruct (bd_op k w p evt (a + o) (b + o) Hok Hp Hpu Hst) as (e & w' & p' & Hop & Hf & Hp' & Hout).
  { destruct Hsp as [H1 H2]. split; [lia|]. intros Hk. specialize (H2 Hk). lia. }
  exists e, w', p'. unfold block_op. rewrite Hm'. bindr. rewrite Hd, Hbs, Hoff.
  pose proof bd_len_fits as Hfits. pose proof bd_block_pos as Hbp. pose proof (proj1 Hsp) as Hsi.
  replace (u64 (Z.of_nat a + Z.of_nat o)) with (Z.of_nat (a + o)).
  2:{ unfold u64. rewrite wrap_small by (unfold fits; change (2 ^ 64) with 18446744073709551616 in *; lia). lia. }
  replace (Z.of_nat b + Z.of_nat o) with (Z.of_nat (b + o)) by lia.
  split; [done|]. split; [done|].
  split; [rewrite (proj1 (proj2 Hf)); [done|apply bd_fresh]|]. split; [done|].
  destruct (e =? 0).
  - eapply effect_done; [exact He|exact Hout|]. by apply spans_part.
  - destruct Hout as [Hout Hw]. split.
    + eapply effect_touch; [exact He|exact Hout|]. by apply spans_part.
    + unfold drank. by rewrite Hp.
Qed.

(** What one dispatch comes to, having started at [o]. *)
Definition dispatched o (resume : bool) w e w' : Prop :=
  framed private pt w w' ∧
  (e = 0 → effect k a b size 0 i0 r0 (bd_image (dev w')) (ram w')) ∧
  (e < 0 → ∃ o', (o ≤ o')%nat ∧ (o' + bd_block ≤ size)%nat ∧
     effect k a b o' bd_block i0 r0 (bd_image (dev w')) (ram w')) ∧
  (0 < e → ∃ o', transfer o' i0 r0 true w' ∧ closer o resume w o' w' ∧
     ∃ p, pts w' !! mal = Some p ∧ bd_waiting k (Z.of_nat (a + o')) (state p) (dev w')).

Lemma going_waits o w e w' p' m :
  transfer o i0 r0 true w → mals w !! mal = Some m → framed bd_owned mal w w' →
  mals w' !! mal = Some m → pts w' !! mal = Some p' →
  effect k a b o bd_block i0 r0 (bd_image (dev w')) (ram w') →
  (0 < e → user_data p' = mal ∧ bd_waiting k (Z.of_nat (a + o)) (state p') (dev w') ∧
    (bd_rank (state p') (dev w') < drank w)%nat) → e ≠ 0 →
  dispatched o true w e w'.
Proof.
  intros Hg Hm Hf Hm' Hp' He Hw Hne. pose proof (block_fits o w Hg) as Hfit.
  split; [eapply framed_weaken; [exact Hf|set_solver|set_solver]|]. split; [done|].
  split; [intros _; by exists o|]. intros Hpos. destruct (Hw Hpos) as (Hu & Hwt & Hr).
  exists o. destruct Hg as [(m1 & Hm1 & Hd1) Hok (p & Hp & Hpu) Hdrv Hdiv _].
  rewrite Hm in Hm1. injection Hm1 as <-.
  split; [|split; [right; split; [done|]; intros _; unfold drank; rewrite Hp'; exact Hr|by exists p']].
  split; [by exists m|by eapply bd_ok_config; [apply Hf|]| | |done|done].
  - exists p. split; [|done]. rewrite (proj2 (proj2 Hf)); done.
  - exists p'. split; [done|]. intros _. split; [done|by right].
Qed.

Lemma going_next o w w' p' m :
  transfer o i0 r0 true w → mals w !! mal = Some m → framed bd_owned mal w w' →
  mals w' !! mal = Some m → pts w' !! mal = Some p' →
  effect k a b (o + bd_block) 0 i0 r0 (bd_image (dev w')) (ram w') →
  let w'' := set_mal w' mal (set_op m (op_block_size m)
               (u32 (mal_offset m + op_block_size m))) in
  transfer (o + bd_block) i0 r0 false w'' ∧ framed private pt w w''.
Proof.
  intros Hg Hm Hf Hm' Hp' He w''. pose proof (block_fits o w Hg) as Hfit.
  pose proof bd_block_pos as Hbp.
  assert (Hf' : framed private pt w w'').
  { eapply framed_trans; [eapply framed_weaken; [exact Hf|set_solver|set_solver]|].
    by eapply framed_set_mal; [exact Hm'|..|set_solver]. }
  split; [|done]. destruct Hg as [(m1 & Hm1 & Hd & Hbs & Hoff) Hok (p & Hp & Hpu & _) _ (n & Hn & Hn0) _].
  rewrite Hm in Hm1. injection Hm1 as <-. split.
  - eexists. split; [apply lookup_insert_eq|]. cbn. split_and!; [done|done|].
    rewrite Hoff, Hbs, u32_small by lia. lia.
  - eapply bd_ok_config; [apply Hf'|done].
  - exists p. cbn. rewrite (proj2 (proj2 Hf)) by done. done.
  - exists p'. split; [done|]. done.
  - specialize (Hn0 eq_refl). exists (n - 1)%nat. split; [|done]. destruct n; simpl in *; lia.
  - exact He.
Qed.

Lemma dispatched_later o r w o1 r1 w1 e w2 :
  dispatched o1 r1 w1 e w2 → framed private pt w w1 →
  (o < o1)%nat ∨ (o = o1 ∧ (r = true → False)) → dispatched o r w e w2.
Proof.
  intros (Hf & H0 & Hneg & Hpos) Hfw Hlt. split; [by eapply framed_trans|]. split; [done|]. split.
  - intros He. destruct (Hneg He) as (o' & Ho & Hs & Heff). exists o'. split; [lia|done].
  - intros He. destruct (Hpos He) as (o' & Hg & Hc & Hw). exists o'. split; [done|].
    split; [|done]. clear Hw.
    unfold closer in *. destruct Hlt as [Hlt|[<- Hr]]; [left; destruct Hc as [|[? _]]; lia|].
    destruct Hc as [|[<- _]]; [by left|]. right. split; [done|]. intros; by destruct Hr.
Qed.

(** The loop with enough fuel, from [o] with [n] blocks left. *)
Definition loop_ok (fuel : nat) (resume : bool) : Prop := ∀ o w n,
  transfer o i0 r0 resume w → (o + n * bd_block = size)%nat → (n < fuel)%nat →
  ∃ e w', vsfmal_blocks fuel resume (entry_of k) pt mal (Z.of_nat size)
      (block_op k evt (Z.of_nat a) (Z.of_nat b) mal) w = Some (e, w') ∧
    dispatched o resume w e w'.

Lemma loop_resume fuel : loop_ok fuel false → loop_ok (S fuel) true.
Proof.
  intros IH o w n Hg Hn Hfuel. destruct (go_mal _ _ _ _ _ _ _ _ _ _ Hg) as (m & Hm & _).
  pose proof (block_fits o w Hg) as Hfit. pose proof bd_block_pos as Hpos.
  destruct (going_call o w m Hg Hm) as (e & w1 & p1 & Hop & Hf & Hm1 & Hp1 & Hout).
  cbn [vsfmal_blocks negb andb]. rewrite Hm. bindr. rewrite Hop. bindr.
  destruct (Z.eqb_spec e 0) as [->|Hne]; cbn [negb].
  - rewrite Hm1. bindr. destruct (going_next o w w1 p1 m Hg Hm Hf Hm1 Hp1 Hout) as [Hg1 Hf1].
    destruct (IH _ _ (n - 1)%nat Hg1) as (e2 & w2 & Hrun & Hd2);
      [destruct n; simpl in *; lia|destruct n; simpl in *; lia|].
    exists e2, w2. split; [done|]. eapply dispatched_later; [exact Hd2|exact Hf1|left; lia].
  - exists e, w1. split; [done|]. destruct Hout as [Hout Hw]. by eapply going_waits.
Qed.

Lemma loop_start fuel : loop_ok (S fuel) true → loop_ok (S fuel) false.
Proof.
  intros IH o w n Hg Hn Hfuel.
  destruct (go_mal _ _ _ _ _ _ _ _ _ _ Hg) as (m & Hm & _ & _ & Hoff).
  destruct (decide (o < size)%nat) as [Hlt|Hge].
  - destruct (going_setup o w Hg Hlt) as (p & Hp & Hg1 & Hf1).
    destruct (IH o _ n Hg1 Hn Hfuel) as (e & w' & Hrun & Hd). exists e, w'. split.
    + rewrite <- Hrun. cbn [vsfmal_blocks negb andb]. rewrite Hm. bindr.
      rewrite Hoff. destruct (Z.ltb_spec (Z.of_nat o) (Z.of_nat size)); [|lia]. cbn [negb].
      rewrite Hp. bindr. cbn [mals set_pt]. rewrite Hm. bindr. by rewrite Hoff.
    + eapply dispatched_later; [exact Hd|exact Hf1|by right].
  - assert (o = size) by lia. subst o. eexists _, w. split.
    + cbn [vsfmal_blocks negb andb]. rewrite Hm. bindr. by rewrite Hoff, Z.ltb_irrefl.
    + split; [apply framed_refl|]. split_and!; [intros _; apply Hg|done|done].
Qed.

Lemma loop_correct fuel : loop_ok fuel true ∧ loop_ok fuel false.
Proof.
  induction fuel as [|fuel [_ IH]]; [by split; intros ????; lia|].
  assert (Ht := loop_resume fuel IH). split; [done|]. by apply loop_start.
Qed.

(** A dispatch of a transfer in progress. *)
Lemma vsfmal_op_resume o w :
  transfer o i0 r0 true w →
  ∃ e w', vsfmal_op k pt evt (Z.of_nat a) (Z.of_nat b) (Z.of_nat size) w = Some (e, w') ∧
    dispatched o true w e w'.
Proof.
  intros Hg. destruct (go_div _ _ _ _ _ _ _ _ _ _ Hg) as (n & Hn & Hpos). pose proof bd_block_pos as Hbp.
  destruct (proj1 (loop_correct (S (Z.to_nat (Z.of_nat size)))) o w n Hg Hn) as (e & w' & Hrun & Hd);
    [nia|]. exists e, w'. split; [|done].
  destruct (go_pt _ _ _ _ _ _ _ _ _ _ Hg) as (p & Hp & Hpu & Hst). specialize (Hst eq_refl).
  destruct (go_mal _ _ _ _ _ _ _ _ _ _ Hg) as (m & Hm & _).
  rewrite vsfmal_op_eq. unfold vsfmal_blocks_pt. rewrite Hp. bindr. rewrite Hpu, Hm. bindr.
  rewrite Hst, Z.eqb_refl. by destruct k.
Qed.

(** What the first dispatch needs. *)
Record startable w : Prop := {
  st_mal : ∃ m, mals w !! mal = Some m ∧ drv m = d;
  st_ok : bd_ok w;
  st_pt : pts w !! pt = Some {| user_data := mal; state := 0 |};
  st_drv : is_Some (pts w !! mal);
  st_div : ∃ n, (n * bd_block = size)%nat }.

Lemma vsfmal_op_start w :
  startable w → bd_image (dev w) = i0 → ram w = r0 →
  ∃ e w', vsfmal_op k pt evt (Z.of_nat a) (Z.of_nat b) (Z.of_nat size) w = Some (e, w') ∧
    dispatched 0 false w e w'.
Proof.
  intros [(m & Hm & Hd) Hok Hp [q Hq] (n & Hn)] Hi Hr. pose proof bd_block_pos as Hbp.
  set (w1 := set_mal w mal (set_op m (Z.of_nat bd_block) 0)).
  assert (Hf : framed private pt w w1) by (by eapply framed_set_mal; [exact Hm|..|set_solver]).
  assert (Hg : transfer 0 i0 r0 false w1).
  { split.
    - eexists. split; [apply lookup_insert_eq|]. done.
    - eapply bd_ok_config; [apply Hf|done].
    - by eexists.
    - by exists q.
    - by exists n.
    - cbn. rewrite Hi, Hr. apply effect_nothing. }
  destruct (proj2 (loop_correct (S (Z.to_nat (Z.of_nat size)))) 0%nat w1 n Hg) as (e & w' & Hrun & Hd1);
    [lia|nia|]. exists e, w'. split.
  - rewrite vsfmal_op_eq. unfold vsfmal_blocks_pt. rewrite Hp. bindr. cbn [user_data state].
    rewrite Hm. bindr. rewrite Hd, bd_block_size by done. by bindr.
  - eapply dispatched_later; [exact Hd1|exact Hf|by right].
Qed.
End dispatch.
End blocks.

(** ** Whole transfers *)

(** Dispatch [op] with one event after the other until it does not wait. *)
Fixpoint vsfmal_drive {D} (op : Z → mworld D → option (Z * mworld D)) (fuel : nat)
    (evts : nat → Z) (w : mworld D) : option (Z * mworld D) :=
  match fuel with
  | O => None
  | S fuel =>
      '(err, w) ← op (evts 0%nat) w;
      if 0 <? err then vsfmal_drive op fuel (λ i, evts (S i)) w else Some (err, w)
  end.

Section transfer.
Context {D : Type} (table : Z → vsfmal_drv_t D) (d mal : Z).
Context `{Hbd : !BlockDriver (table d) mal}.
Implicit Types (w : mworld D).
Context (k : vsfmal_op_t) (pt : Z) (a b size : nat) (i0 r0 : list Z).
Context (Hpt : pt ≠ mal) (Hown : pt ∉ bd_owned).
Context (Hsize : Z.of_nat size + Z.of_nat bd_block ≤ 4294967296).
Context (Hspan : spans k a b size i0 r0) (Hlen : length i0 = bd_len).
Notation op evt := (vsfmal_op table k pt evt (Z.of_nat a) (Z.of_nat b) (Z.of_nat size)).

(** The end of a transfer: all of it done, or the first error, with the blocks
    before the failing one done. *)
Definition finished (e : Z) w w' : Prop :=
  framed ({[mal]} ∪ bd_owned) pt w w' ∧ e ≤ 0 ∧
  if e =? 0 then effect k a b size 0 i0 r0 (bd_image (dev w')) (ram w')
  else ∃ o, (o + bd_block ≤ size)%nat ∧
         effect k a b o bd_block i0 r0 (bd_image (dev w')) (ram w').

Lemma dispatched_finished o r w e w' :
  dispatched table d mal k pt a b size i0 r0 o r w e w' → e ≤ 0 → finished e w w'.
Proof.
  intros (Hf & H0 & Hneg & _) He. split; [done|]. split; [done|].
  destruct (Z.eqb_spec e 0); [by apply H0|]. destruct (Hneg ltac:(lia)) as (o' & _ & Ho & Heff).
  by exists o'.
Qed.

Lemma drive_resume o w evts :
  going table d mal k pt a b size o i0 r0 true w →
  ∃ fuel e w', vsfmal_drive (λ evt, op evt) fuel evts w = Some (e, w') ∧ finished e w w'.
Proof.
  remember (size - o)%nat as n eqn:Hn. remember (drank table d mal w) as r eqn:Hr.
  revert r o w evts Hn Hr. induction n as [n IHn] using lt_wf_ind.
  induction r as [r IHr] using lt_wf_ind. intros o w evts -> -> Hg.
  destruct (vsfmal_op_resume table d mal k pt a b size i0 r0 Hpt Hown Hsize Hspan Hlen
    (evts 0%nat) o w Hg) as (e & w1 & Hop & Hd).
  destruct (Z.ltb_spec 0 e) as [Hpos|Hneg].
  - destruct Hd as (Hf & _ & _ & Hwait). destruct (Hwait Hpos) as (o1 & Hg1 & Hc & _).
    assert (Hnext : ∃ fuel e2 w2, vsfmal_drive (λ evt, op evt) fuel (λ i, evts (S i)) w1
      = Some (e2, w2) ∧ finished e2 w1 w2).
    { pose proof (block_fits table d mal k pt a b size i0 r0 Hlen o w Hg) as Hfit. pose proof bd_block_pos as Hbp.
      destruct Hc as [Hlt|[<- Hrk]]; [eapply IHn; eauto; lia|]. eapply IHr; eauto. }
    destruct Hnext as (fuel & e2 & w2 & Hrun & Hf2 & Hfin). exists (S fuel), e2, w2. split.
    + cbn [vsfmal_drive]. rewrite Hop. bindr. by rewrite (proj2 (Z.ltb_lt 0 e) Hpos).
    + split; [by eapply framed_trans|done].
  - exists 1%nat, e, w1. split; [|by eapply dispatched_finished].
    cbn [vsfmal_drive]. rewrite Hop. bindr. by rewrite (proj2 (Z.ltb_ge 0 e) Hneg).
Qed.

(** C33: erase, read and write over a driver that keeps its promise, in blocks
    that divide the transfer.  Whatever events are dispatched, the call stops
    waiting after finitely many; then either all of the transfer is done (the
    buffer holds the medium's bytes, the medium the buffer's, nothing else
    changed), or the driver's error is returned with exactly the blocks before
    the failing one done.  No object is written but the caller's protothread
    and the private state of the memory and those below it. *)
Theorem vsfmal_transfer w evts :
  startable table d mal pt size w → bd_image (dev w) = i0 → ram w = r0 →
  ∃ fuel e w', vsfmal_drive (λ evt, op evt) fuel evts w = Some (e, w') ∧ finished e w w'.
Proof.
  intros Hst Hi Hr.
  destruct (vsfmal_op_start table d mal k pt a b size i0 r0 Hpt Hown Hsize Hspan Hlen
    (evts 0%nat) w Hst Hi Hr) as (e & w1 & Hop & Hd).
  destruct (Z.ltb_spec 0 e) as [Hpos|Hneg].
  - destruct Hd as (Hf & _ & _ & Hwait). destruct (Hwait Hpos) as (o1 & Hg1 & _).
    destruct (drive_resume o1 w1 (λ i, evts (S i)) Hg1) as (fuel & e2 & w2 & Hrun & Hf2 & Hfin).
    exists (S fuel), e2, w2. split; [|split; [by eapply framed_trans|done]].
    cbn [vsfmal_drive]. rewrite Hop. bindr. by rewrite (proj2 (Z.ltb_lt 0 e) Hpos).
  - exists 1%nat, e, w1. split; [|by eapply dispatched_finished].
    cbn [vsfmal_drive]. rewrite Hop. bindr. by rewrite (proj2 (Z.ltb_ge 0 e) Hneg).
Qed.
End transfer.

(** ** Windows *)

Definition window (ma msz : nat) (i : list Z) : list Z := take msz (drop ma i).

Lemma window_inserts ma msz a (x i : list Z) :
  (a + length x ≤ msz)%nat → (ma + msz ≤ length i)%nat →
  window ma msz (list_inserts (ma + a) x i) = list_inserts a x (window ma msz i).
Proof.
  intros Ha Hi. unfold window. apply list_eq. intros j.
  destruct (decide (j < msz)%nat) as [Hj|Hj].
  2:{ rewrite !lookup_ge_None_2 by (len; rewrite ?length_drop; len). done. }
  rewrite lookup_take_lt, lookup_drop by done.
  destruct (decide (j < a)%nat); [|destruct (decide (j < a + length x)%nat)].
  - rewrite !list_lookup_inserts_lt by lia. by rewrite lookup_take_lt, lookup_drop by done.
  - rewrite !list_lookup_inserts by (len; rewrite ?length_drop; len). f_equal. lia.
  - rewrite !list_lookup_inserts_ge by lia. by rewrite lookup_take_lt, lookup_drop by done.
Qed.

(** Writing inside the window leaves what is outside. *)
Lemma inserts_outside ma msz a (x i : list Z) :
  (a + length x ≤ msz)%nat →
  take ma (list_inserts (ma + a) x i) = take ma i ∧
  drop (ma + msz) (list_inserts (ma + a) x i) = drop (ma + msz) i.
Proof.
  intros Ha. split; apply list_eq; intros j.
  - destruct (decide (j < ma)%nat); [|by rewrite !lookup_take_ge by lia].
    by rewrite !lookup_take_lt, list_lookup_inserts_lt by lia.
  - by rewrite !lookup_drop, list_lookup_inserts_ge by lia.
Qed.

Lemma over_window ma msz a x n i i' :
  over (ma + a) x n i i' → (a + length x + n ≤ msz)%nat → (ma + msz ≤ length i)%nat →
  over a x n (window ma msz i) (window ma msz i') ∧
  take ma i' = take ma i ∧ drop (ma + msz) i' = drop (ma + msz) i.
Proof.
  intros (j & Hj & ->) Ha Hi. assert (a + length (x ++ j) ≤ msz)%nat by (rewrite length_app; lia).
  split; [|by apply inserts_outside]. exists j. split; [done|]. by apply window_inserts.
Qed.

Lemma window_slice ma msz a o (i : list Z) :
  (a + o ≤ msz)%nat → take o (drop a (window ma msz i)) = take o (drop (ma + a) i).
Proof.
  intros Ha. unfold window. apply list_eq. intros j. destruct (decide (j < o)%nat).
  - rewrite !lookup_take_lt, !lookup_drop, lookup_take_lt, lookup_drop by lia. f_equal. lia.
  - by rewrite !lookup_take_ge by lia.
Qed.

Lemma effect_window k ma msz a b o n i r i' r' :
  effect k (ma + a) b o n i r i' r' → (a + o + n ≤ msz)%nat → (ma + msz ≤ length i)%nat →
  (k = VSFMAL_OP_WRITE → (b + o ≤ length r)%nat) →
  effect k a b o n (window ma msz i) r (window ma msz i') r' ∧
  take ma i' = take ma i ∧ drop (ma + msz) i' = drop (ma + msz) i.
Proof.
  intros He Ha Hi Hr. destruct k; simpl in *.
  - destruct He as (-> & x & Hx & Ho).
    destruct (over_window ma msz a x n i i' Ho) as (H1 & H2 & H3); [lia|lia|].
    split_and!; [done| |done|done]. by exists x.
  - destruct He as (-> & Ho). rewrite window_slice by lia. done.
  - destruct He as (-> & Ho).
    destruct (over_window ma msz a _ n i i' Ho) as (H1 & H2 & H3);
      [rewrite length_slice; [lia|by apply Hr]|done|]. done.
Qed.

Section mim.
Context {D : Type} (table : Z → vsfmal_drv_t D) (d real mim : Z) (mm : vsfmim_t).
Context `{Hbd : !BlockDriver (table d) real}.
Context (Hnowait : ∀ k a s dv, ¬ bd_waiting (t := table d) (mal := real) k a s dv).
Context (Hreal : realmal mm = real) (Hne : mim ≠ real) (Hnown : mim ∉ bd_owned).
Context (Haddr : 0 ≤ mim_addr mm) (Hsz : 0 ≤ mim_size mm).
Notation ma := (Z.to_nat (mim_addr mm)).
Notation msz := (Z.to_nat (mim_size mm)).
Context (Hin : (ma + msz ≤ bd_len)%nat) (Hblk : 2 * Z.of_nat bd_block ≤ 4294967296).
Implicit Types (w : mworld D) (k : vsfmal_op_t).

(** The window at [mim] is set up over the memory at [real]. *)
Definition mim_ok w : Prop :=
  mims w !! mim = Some mm ∧ (∃ m, mals w !! real = Some m ∧ drv m = d) ∧
  is_Some (pts w !! real) ∧ bd_ok w.

Lemma mim_ok_config w w' : same_config w w' → mim_ok w → mim_ok w'.
Proof.
  intros Hc (Hm & (m & Hr & Hd) & Hp & Hok). pose proof Hc as (H1 & H2 & H3). split_and!.
  - by rewrite H1.
  - specialize (H2 real). rewrite Hr in H2. simpl in H2.
    destruct (mals w' !! real) as [m'|]; [|done]. simpl in H2. injection H2 as _ Hd'.
    exists m'. split; [done|congruence].
  - by apply H3.
  - by eapply bd_ok_config.
Qed.

Lemma vsfmim_op_eq k evt addr buff size w :
  drv_op (vsfmim_drv table) k mim evt addr buff size w =
  ('(mm, w) ← vsfmim_enter mim w;
   vsfmal_op table k mim evt (u64 (mim_addr mm + addr)) buff size w).
Proof. by destruct k. Qed.

Lemma vsfmim_op_ok k w p evt (a b : nat) :
  mim_ok w → pts w !! mim = Some p → user_data p = mim → state p = 0 →
  spans k a b bd_block (window ma msz (bd_image (dev w))) (ram w) →
  ∃ e w', drv_op (vsfmim_drv table) k mim evt (Z.of_nat a) (Z.of_nat b) (Z.of_nat bd_block) w
      = Some (e, w') ∧ framed ({[real]} ∪ bd_owned) mim w w' ∧ e ≤ 0 ∧
    effect k (ma + a) b (if e =? 0 then bd_block else 0) (if e =? 0 then 0 else bd_block)
      (bd_image (dev w)) (ram w) (bd_image (dev w')) (ram w').
Proof.
  intros (Hmim & (m & Hm & Hd) & Hpr & Hok) Hp Hpu Hps (Hsi & Hsr).
  unfold window in Hsi. rewrite length_take, length_drop, bd_image_length in Hsi.
  rewrite vsfmim_op_eq. unfold vsfmim_enter. rewrite Hp. bindr. rewrite Hpu, Hmim. bindr.
  set (w1 := set_pt w mim {| user_data := realmal mm; state := state p |}).
  assert (Hf : framed ({[real]} ∪ bd_owned) mim w w1) by (apply framed_set_pt; [done|by left]).
  pose proof bd_len_fits as Hfits.
  replace (u64 (mim_addr mm + Z.of_nat a)) with (Z.of_nat (ma + a)).
  2:{ unfold u64. rewrite wrap_small; [lia|]. unfold fits.
      change (2 ^ 64) with 18446744073709551616 in *. pose proof bd_block_pos. lia. }
  assert (Hb2 : Z.of_nat bd_block + Z.of_nat bd_block ≤ 4294967296) by lia.
  destruct (vsfmal_op_start table d real k mim (ma + a) b bd_block (bd_image (dev w)) (ram w)
    Hne Hnown Hb2) with (evt := evt) (w := w1) as (e & w' & Hop & Hd1).
  - split; [|done]. rewrite bd_image_length. lia.
  - apply bd_image_length.
  - split; [by exists m|by eapply bd_ok_config; [apply Hf|]| | |by exists 1%nat; lia].
    + subst w1. cbn. by rewrite lookup_insert_eq, Hreal, Hps.
    + subst w1. cbn. by rewrite lookup_insert_ne.
  - done.
  - done.
  - exists e, w'. split; [done|]. destruct Hd1 as (Hf1 & H0 & Hneg & Hpos).
    split; [by eapply framed_trans|].
    assert (e ≤ 0).
    { destruct (Z.le_gt_cases e 0); [done|]. destruct Hpos as (o' & _ & _ & q & _ & Hw); [lia|].
      by destruct (Hnowait _ _ _ _ Hw). }
    split; [done|]. destruct (Z.eqb_spec e 0); [by apply H0|].
    destruct Hneg as (o' & _ & Ho & Heff); [lia|]. by replace o' with 0%nat in Heff by lia.
Qed.

(** The window keeps the promise of a driver. *)
Lemma vsfmim_BlockDriver : BlockDriver (vsfmim_drv table) mim.
Proof using All.
  refine {| bd_image dv := window ma msz (bd_image dv); bd_len := msz; bd_block := bd_block;
    bd_owned := {[real]} ∪ bd_owned; bd_ok := mim_ok; bd_waiting _ _ _ _ := False;
    bd_rank _ _ := 0%nat |}.
  - intros dv. unfold window. rewrite length_take, length_drop, bd_image_length. lia.
  - pose proof bd_len_fits. lia.
  - apply bd_block_pos.
  - set_solver.
  - apply mim_ok_config.
  - intros addr size k w (Hm & (m & Hr & Hd) & _ & Hok). simpl. unfold vsfmim_blocksize.
    rewrite Hm. bindr. rewrite Hreal, Hr. bindr. rewrite Hd. by apply bd_block_size.
  - intros k w p evt a b Hok Hp Hpu [Hps|[]] Hs.
    destruct (vsfmim_op_ok k w p evt a b Hok Hp Hpu Hps Hs) as (e & w' & Hop & Hf & He & Heff).
    destruct (proj2 (proj2 (proj2 (proj1 Hf)) mim)) as [p' Hp']; [by exists p|].
    exists e, w', p'. split; [done|]. split; [done|]. split; [done|].
    destruct Hs as (Hsi & Hsr). unfold window in Hsi.
    rewrite length_take, length_drop, bd_image_length in Hsi.
    destruct (e =? 0); [|split; [|lia]];
      (eapply effect_window; [exact Heff|lia|rewrite bd_image_length; lia|]);
      intros ->; specialize (Hsr ltac:(done)); lia.
Defined.

(** C34: a window over a driver that does not wait.  A block operation at [a] in
    the window is the driver's at [mim_addr + a]: seen through the window it
    does what a driver promises for a medium of [mim_size] bytes, it never
    waits, and the medium before and after the window is not touched, whether
    the operation succeeds or fails. *)
Theorem vsfmim_window k w p evt (a b : nat) :
  mim_ok w → pts w !! mim = Some p → user_data p = mim → state p = 0 →
  spans k a b bd_block (window ma msz (bd_image (dev w))) (ram w) →
  ∃ e w', drv_op (vsfmim_drv table) k mim evt (Z.of_nat a) (Z.of_nat b) (Z.of_nat bd_block) w
      = Some (e, w') ∧ framed ({[real]} ∪ bd_owned) mim w w' ∧ e ≤ 0 ∧
    let i := bd_image (dev w) in let i' := bd_image (dev w') in
    effect k a b (if e =? 0 then bd_block else 0) (if e =? 0 then 0 else bd_block)
      (window ma msz i) (ram w) (window ma msz i') (ram w') ∧
    take ma i' = take ma i ∧ drop (ma + msz) i' = drop (ma + msz) i.
Proof.
  intros Hok Hp Hpu Hps Hs.
  destruct (vsfmim_op_ok k w p evt a b Hok Hp Hpu Hps Hs) as (e & w' & Hop & Hf & He & Heff).
  exists e, w'. split; [done|]. split; [done|]. split; [done|]. cbv zeta.
  destruct Hs as (Hsi & Hsr). unfold window in Hsi.
  rewrite length_take, length_drop, bd_image_length in Hsi.
  eapply effect_window; [exact Heff|destruct (e =? 0); lia|rewrite bd_image_length; lia|].
  intros ->. specialize (Hsr ltac:(done)). destruct (e =? 0); lia.
Qed.
End mim.

(** ** Witnesses *)

(** A memory of eight bytes in blocks of two, with a bad block at 6; when
    [waits], each operation waits once. *)
Definition demo_put (dv : nat → Z) (a : nat) (src : list Z) : nat → Z :=
  λ j, if decide (a ≤ j)%nat then default (dv j) (src !! (j - a)%nat) else dv j.

Definition demo_mal_op (waits : bool) (k : vsfmal_op_t) (pt evt addr buff size : Z)
    (w : mworld (nat → Z)) : option (Z * mworld (nat → Z)) :=
  p ← pts w !! pt;
  if waits && (state p =? 0) then
    Some (VSFERR_NOT_READY, set_pt w pt {| user_data := user_data p; state := 1 |})
  else if addr =? 6 then Some (VSFERR_FAIL, w)
  else Some (VSFERR_NONE,
    let a := Z.to_nat addr in let n := Z.to_nat size in
    match k with
    | VSFMAL_OP_READ => set_ram w (list_inserts (Z.to_nat buff) (dev w <$> seq a n) (ram w))
    | VSFMAL_OP_WRITE => set_dev w (demo_put (dev w) a (take n (drop (Z.to_nat buff) (ram w))))
    | VSFMAL_OP_ERASE => set_dev w (demo_put (dev w) a (replicate n 255))
    end).

Definition demo_mal_drv (waits : bool) : vsfmal_drv_t (nat → Z) := {|
  drv_block_size _ _ _ _ _ := Some 2; drv_init := None; drv_fini := None; drv_erase_all := None;
  drv_erase := Some (λ pt evt addr size, demo_mal_op waits VSFMAL_OP_ERASE pt evt addr 0 size);
  drv_read := Some (demo_mal_op waits VSFMAL_OP_READ);
  drv_write := Some (demo_mal_op waits VSFMAL_OP_WRITE) |}.

Definition demo_image (dv : nat → Z) : list Z := dv <$> seq 0 8.

Lemma demo_image_put dv a src :
  demo_image (demo_put dv a src) = list_inserts a src (demo_image dv).
Proof.
  unfold demo_image. apply list_eq. intros j. destruct (decide (j < 8)%nat) as [Hj|Hj].
  2:{ rewrite !lookup_ge_None_2; [done| |]; len; rewrite length_seq; lia. }
  assert (Hs : ∀ f : nat → Z, (f <$> seq 0 8) !! j = Some (f j)).
  { intros f. by rewrite list_lookup_fmap, lookup_seq_lt by done. }
  rewrite Hs. unfold demo_put. case_decide as Ha.
  - destruct (decide (j < a + length src)%nat) as [Hin|Hout].
    + rewrite list_lookup_inserts by (len; rewrite length_seq; lia).
      by destruct (lookup_lt_is_Some_2 src (j - a)) as [v ->]; [lia|].
    + rewrite list_lookup_inserts_ge, Hs by lia. by rewrite lookup_ge_None_2 by lia.
  - by rewrite list_lookup_inserts_lt, Hs by lia.
Qed.

Lemma demo_image_slice dv a : (a + 2 ≤ 8)%nat → take 2 (drop a (demo_image dv)) = dv <$> seq a 2.
Proof. intros Ha. do 7 (destruct a as [|a]; [reflexivity|]). lia. Qed.

#[export] Instance demo_BlockDriver waits mal : BlockDriver (demo_mal_drv waits) mal.
Proof.
  refine {| bd_image := demo_image; bd_len := 8; bd_block := 2; bd_owned := ∅; bd_ok _ := True;
    bd_waiting _ _ s _ := waits = true ∧ s = 1; bd_rank s _ := if s =? 0 then 1%nat else 0%nat |};
    [done|done|lia|set_solver|done|done|].
  intros k w p evt a b _ Hp Hu Hst (Ha & Hb).
  assert (Ho : drv_op (demo_mal_drv waits) k mal evt (Z.of_nat a) (Z.of_nat b) (Z.of_nat 2) w =
    demo_mal_op waits k mal evt (Z.of_nat a) (if k is VSFMAL_OP_ERASE then 0 else Z.of_nat b) 2 w)
    by by destruct k.
  rewrite Ho. unfold demo_mal_op. rewrite Hp. bindr. clear Ho.
  destruct (waits && (state p =? 0)) eqn:Hw.
  - apply andb_true_iff in Hw as [-> Hs]. do 3 eexists. split; [done|].
    split; [apply framed_set_pt; [done|by left]|]. split; [apply lookup_insert_eq|].
    split; [|rewrite Hs; auto].
    apply effect_start; [apply effect_nothing|by split].
  - destruct (Z.eqb_spec (Z.of_nat a) 6) as [Ha6|Ha6].
    + do 3 eexists. split; [done|]. split; [apply framed_refl|]. split; [done|].
      split; [apply effect_start; [apply effect_nothing|by split]|done].
    + do 3 eexists. split; [done|].
      destruct k; (split; [by split_and!|]); (split; [done|]); cbn [VSFERR_NONE Z.eqb effect dev ram
        set_ram set_dev]; rewrite ?Nat2Z.id; change (Z.to_nat 2) with 2%nat; (split; [done|]).
      * exists [255; 255]. split; [done|]. exists []. by rewrite demo_image_put.
      * exists []. by rewrite demo_image_slice, app_nil_r.
      * exists []. by rewrite demo_image_put, app_nil_r.
Defined.

(** Memories 10 (waiting) and 20 (not waiting), and windows 30 on 20 and 40 on
    10, of four bytes from 2 on; the caller's protothread is 5. *)
Definition demo_drivers (d : Z) : vsfmal_drv_t (nat → Z) := demo_mal_drv (d =? 2).

Definition demo_mal (d : Z) : vsfmal_t :=
  {| cap := {| block_size := 2; block_num := 4 |}; drv := d; op_block_size := 0; mal_offset := 0 |}.

Definition demo_world (caller : Z) : mworld (nat → Z) := {|
  pts := list_to_map ((5, {| user_data := caller; state := 0 |}) ::
    ((λ a, (a, {| user_data := a; state := 0 |})) <$> [10; 20; 30; 40]));
  mals := list_to_map [(10, demo_mal 2); (20, demo_mal 3); (30, demo_mal VSFMIM_DRV);
    (40, demo_mal VSFMIM_DRV)];
  mims := list_to_map [(30, {| realmal := 20; mim_addr := 2; mim_size := 4 |});
    (40, {| realmal := 10; mim_addr := 2; mim_size := 4 |})];
  ram := [0; 0; 0; 0; 0]; dev := λ j, 10 + Z.of_nat j |}.

Notation demo_table := (drv_table demo_drivers 1).

(** Four bytes from 2, with a wait in each block. *)
Lemma vsfmal_transfer_witness :
  ∃ fuel e w', vsfmal_drive (λ evt, vsfmal_op demo_table VSFMAL_OP_READ 5 evt 2 1 4) fuel
      (λ _, 16) (demo_world 10) = Some (e, w') ∧
    finished demo_table 2 10 VSFMAL_OP_READ 5 2 1 4 [10; 11; 12; 13; 14; 15; 16; 17]
      [0; 0; 0; 0; 0] e (demo_world 10) w'.
Proof.
  apply (vsfmal_transfer demo_table 2 10 VSFMAL_OP_READ 5 2 1 4 [10; 11; 12; 13; 14; 15; 16; 17]
    [0; 0; 0; 0; 0]).
  - done.
  - apply not_elem_of_empty.
  - simpl. lia.
  - split; simpl; lia.
  - reflexivity.
  - split; [by exists (demo_mal 2)|exact I|reflexivity|by eexists|by exists 2%nat].
  - reflexivity.
  - reflexivity.
Defined.

Definition demo_mim : vsfmim_t := {| realmal := 20; mim_addr := 2; mim_size := 4 |}.

Lemma vsfmim_window_witness :
  ∃ e w', drv_op (vsfmim_drv (drv_table demo_drivers 0)) VSFMAL_OP_WRITE 30 16 0 1 2 (demo_world 30)
      = Some (e, w') ∧ e ≤ 0 ∧
    take 2 (demo_image (dev w')) = [10; 11] ∧ drop 6 (demo_image (dev w')) = [16; 17].
Proof.
  destruct (vsfmim_window (drv_table demo_drivers 0) 3 20 30 demo_mim (Hbd := demo_BlockDriver false 20)) with
    (k := VSFMAL_OP_WRITE) (w := demo_world 30) (p := {| user_data := 30; state := 0 |})
    (evt := 16) (a := 0%nat) (b := 1%nat) as (e & w' & Hop & _ & He & Heff & H1 & H2).
  - intros k a s dv [H _]. vm_compute in H. discriminate.
  - reflexivity.
  - lia.
  - apply not_elem_of_empty.
  - simpl. lia.
  - simpl. lia.
  - simpl. lia.
  - split; [reflexivity|]. split; [by exists (demo_mal 3)|]. split; [by eexists|exact I].
  - reflexivity.
  - reflexivity.
  - reflexivity.
  - split; [simpl; lia|]. intros _. simpl. lia.
  - exists e, w'. split; [exact Hop|]. split; [exact He|]. split; [exact H1|exact H2].
Defined.

(** The same transfer through the window that does not wait. *)
Example window_read :
  (λ r, (r.1, ram r.2)) <$> vsfmal_drive (λ evt, vsfmal_op demo_table VSFMAL_OP_READ 5 evt 0 1 4) 9
    (λ _, 16) (demo_world 30) = Some (0, [0; 12; 13; 14; 15]).
Proof. vm_compute. reflexivity. Qed.

(** A window on a driver that waits: [vsfmim_read] leaves [user_data] at the
    memory below, so when the transfer is dispatched again it takes that memory
    for a window. *)
Example window_wait_lost :
  fst <$> vsfmal_op demo_table VSFMAL_OP_READ 5 16 0 1 4 (demo_world 40) = Some VSFERR_NOT_READY ∧
  vsfmal_drive (λ evt, vsfmal_op demo_table VSFMAL_OP_READ 5 evt 0 1 4) 9 (λ _, 16) (demo_world 40)
    = None.
Proof. by vm_compute. Qed.
