(* ===== verification/Malstream.v ===== *)
(** * Malstream: streaming a memory in blocks (vsf_malstream_* of vsfmal.c)

    A malstream moves a range of a memory through a multi-buffer stream, one
    block for one buffer.  Its two protothreads run in its state machine, which
    is dispatched on VSFSM_EVT_INIT, on the event its stream callback posts,
    and on whatever the driver waits for. *)

From S2P Require Import Prelude Chain Fifo Multibuf Stream Vsfsm Vsfmal.

(** ** State *)

(** [VSFSM_EVT_FINI], and [VSF_MALSTREAM_ON_INOUT], the first user event. *)
Definition VSFSM_EVT_FINI : Z := 3.
Definition VSF_MALSTREAM_ON_INOUT : Z := 0x10.

(** The address of [vsf_malstream_on_inout]. *)
Definition MALSTREAM_ON_INOUT_FN : Z := 0x1000.

(** Where the state machine's events go: [vsf_malstream_init_evt_handler], or
    [vsfsm_pt_evt_handler] on one of the two threads. *)
Inductive ms_thread_t := ReadThread | WriteThread.
Inductive ms_handler_t := InitHandler | PtHandler (t : ms_thread_t).

(** [struct vsf_malstream_t] without the stream; [pt_state] is [pt.state]. *)
Record vsf_malstream_t := {
  ms_mal : Z; on_finish : Z; finish_param : Z; ms_offset : Z; mal_ready : bool;
  ms_addr : Z; ms_size : Z; ms_handler : ms_handler_t; pt_state : Z }.

(** What the stream's callbacks act on: the events posted to the malstream's
    state machine and not yet dispatched, and the rest of the program. *)
Record menv (R : Type) := { sm_evts : list Z; others : R }.
Arguments sm_evts {R}. Arguments others {R}.

Notation mstream R := (vsf_stream_t vsf_mbufstream_mem_t (menv R)).

Record mstate (D R : Type) := { ms : vsf_malstream_t; io : mstream R; mw : mworld D }.
Arguments ms {D R}. Arguments io {D R}. Arguments mw {D R}.

Section state.
Context {D R : Type}.
Implicit Types (st : mstate D R) (s : mstream R) (m : vsf_malstream_t).

Definition set_ms st m : mstate D R := {| ms := m; io := io st; mw := mw st |}.
Definition set_io st s : mstate D R := {| ms := ms st; io := s; mw := mw st |}.
Definition set_mw st (w : mworld D) : mstate D R := {| ms := ms st; io := io st; mw := w |}.

Definition set_progress m (off pt : Z) : vsf_malstream_t :=
  {| ms_mal := ms_mal m; on_finish := on_finish m; finish_param := finish_param m;
     ms_offset := off; mal_ready := mal_ready m; ms_addr := ms_addr m; ms_size := ms_size m;
     ms_handler := ms_handler m; pt_state := pt |}.
Definition set_request m (addr size : Z) (h : ms_handler_t) : vsf_malstream_t :=
  {| ms_mal := ms_mal m; on_finish := on_finish m; finish_param := finish_param m;
     ms_offset := ms_offset m; mal_ready := mal_ready m; ms_addr := addr; ms_size := size;
     ms_handler := h; pt_state := pt_state m |}.
Definition set_ready m (b : bool) (h : ms_handler_t) : vsf_malstream_t :=
  {| ms_mal := ms_mal m; on_finish := on_finish m; finish_param := finish_param m;
     ms_offset := ms_offset m; mal_ready := b; ms_addr := ms_addr m; ms_size := ms_size m;
     ms_handler := h; pt_state := pt_state m |}.

Definition set_offset st (off : Z) := set_ms st (set_progress (ms st) off (pt_state (ms st))).
Definition set_label st (pt : Z) := set_ms st (set_progress (ms st) (ms_offset (ms st)) pt).

Definition set_cb (cb : vsf_stream_cb_t) (f : Z) : vsf_stream_cb_t :=
  {| cb_param := cb_param cb; Stream.on_inout := f; on_connect := on_connect cb;
     on_disconnect := on_disconnect cb |}.

Definition set_callbacks s (tx rx : vsf_stream_cb_t) : mstream R :=
  {| callback_tx := tx; callback_rx := rx; tx_ready := tx_ready s; rx_ready := rx_ready s;
     overflow := overflow s; smem := smem s; env := env s |}.

Definition set_tx_inout st (f : Z) : mstate D R :=
  set_io st (set_callbacks (io st) (set_cb (callback_tx (io st)) f) (callback_rx (io st))).
Definition set_rx_inout st (f : Z) : mstate D R :=
  set_io st (set_callbacks (io st) (callback_tx (io st)) (set_cb (callback_rx (io st)) f)).

(** The multi-buffer in the stream. *)
Definition mbuf st : vsf_multibuf_t := multibuf (smem (io st)).
Definition set_mbuf st (m : vsf_multibuf_t) : mstate D R :=
  set_io st (set_smem (io st)
    {| multibuf := m; rpos := rpos (smem (io st)); wpos := wpos (smem (io st)) |}).

End state.

(** An event for the malstream's state machine, whatever the stream's memory. *)
Definition post_evt {S R} (s : vsf_stream_t S (menv R)) (evt : Z) : vsf_stream_t S (menv R) :=
  set_env s {| sm_evts := sm_evts (env s) ++ [evt]; others := others (env s) |}.

(** [param] is the malstream itself. *)
Definition vsf_malstream_on_inout {S R} (s : vsf_stream_t S (menv R)) : vsf_stream_t S (menv R) :=
  post_evt s VSF_MALSTREAM_ON_INOUT.

(** A stream callback: the malstream's, or one of the other end. *)
Definition ms_invoke {S R} (peer : Z → Z → vsf_stream_t S (menv R) → option (vsf_stream_t S (menv R)))
    (f p : Z) (s : vsf_stream_t S (menv R)) : option (vsf_stream_t S (menv R)) :=
  if f =? MALSTREAM_ON_INOUT_FN then Some (vsf_malstream_on_inout s) else peer f p s.

(** ** The threads *)

(** The labels are the source's line numbers. *)
Definition READ_WFE : Z := 242.
Definition READ_BLOCK : Z := 248.
Definition WRITE_WFE : Z := 321.
Definition WRITE_BLOCK : Z := 327.

Section malstream.
Context {D R : Type} (table : Z → vsfmal_drv_t D).
Implicit Types (st : mstate D R) (s : mstream R).

(** The callbacks of the other end, and [cb.on_finish], which gets to see the
    malstream. *)
Context (peer : Z → Z → mstream R → option (mstream R)).
Context (finish : Z → Z → vsf_malstream_t → R → R).

Definition ms_finish st : mstate D R :=
  if on_finish (ms st) =? NULL then st
  else
    let e := env (io st) in
    set_io st (set_env (io st) {| sm_evts := sm_evts e;
      others := finish (on_finish (ms st)) (finish_param (ms st)) (ms st) (others e) |}).

Definition the_mal st : option vsfmal_t := mals (mw st) !! ms_mal (ms st).

(** [mal->op_block_size = mal->drv->block_size(mal, malstream->addr, 0, op)]. *)
Definition ask_block_size (op : vsfmal_op_t) st : option (Z * mstate D R) :=
  m ← the_mal st;
  bs ← drv_block_size (table (drv m)) (ms_mal (ms st)) (ms_addr (ms st)) 0 op (mw st);
  Some (bs, set_mw st (set_mal (mw st) (ms_mal (ms st)) (set_op m bs (mal_offset m)))).

(** The driver called on the next block with the buffer [b] of the
    multi-buffer; the driver's view of the memory is that buffer.  A NULL
    buffer is undefined. *)
Definition call_drv (op : vsfmal_op_t) (evt : Z) (b : option Z) st : option (Z * mstate D R) :=
  m ← the_mal st;
  b ← b;
  buf ← buffer_list (mbuf st) !! Z.to_nat b;
  let cur_addr := u64 (ms_addr (ms st) + ms_offset (ms st)) in
  '(err, w) ← drv_op (table (drv m)) op (ms_mal (ms st)) evt cur_addr 0 (op_block_size m)
                (set_ram (mw st) buf);
  Some (err, set_mw (set_mbuf st (set_bytes (mbuf st)
    (<[Z.to_nat b := ram w]> (buffer_list (mbuf st))))) w).

(** [mal->pt.user_data = mal; mal->pt.state = 0; vsfsm_pt_entry(pt)]. *)
Definition enter_block (label : Z) st : mstate D R :=
  let mal := ms_mal (ms st) in
  set_label (set_mw st (set_pt (mw st) mal {| user_data := mal; state := 0 |})) label.

(** *** Reading *)

(** [end:]. *)
Definition read_end st : option (Z * mstate D R) :=
  s ← stream_disconnect_tx (ms_invoke peer) (io st);
  Some (VSFERR_NONE, ms_finish (set_io st s)).

(** The inner [while], waiting for room for a block; [block] goes on. *)
Definition read_room (block : mstate D R → option (Z * mstate D R)) st : option (Z * mstate D R) :=
  m ← the_mal st;
  if stream_get_free_size mbufstream_op (io st) <? op_block_size m then
    Some (VSFERR_NOT_READY, set_label (set_tx_inout st MALSTREAM_ON_INOUT_FN) READ_WFE)
  else block (enter_block READ_BLOCK st).

(** The outer [while]. *)
Definition read_head (block : mstate D R → option (Z * mstate D R)) st : option (Z * mstate D R) :=
  if ms_offset (ms st) <? ms_size (ms st) then read_room block st else read_end st.

(** The block is published; after the last one the sender's callback is
    cleared ("fix before callback"). *)
Definition read_advance (bs : Z) st : mstate D R :=
  let st := set_mbuf st (snd (vsf_multibuf_push (mbuf st))) in
  let st := set_offset st (u32 (ms_offset (ms st) + bs)) in
  if ms_size (ms st) <=? ms_offset (ms st) then set_tx_inout st NULL else st.

(** From the label before the driver's call. *)
Fixpoint read_block (fuel : nat) (evt : Z) st : option (Z * mstate D R) :=
  match fuel with
  | O => None
  | S fuel =>
      '(err, st) ← call_drv VSFMAL_OP_READ evt (vsf_multibuf_get_empty (mbuf st)) st;
      if 0 <? err then Some (err, st)
      else if err <? 0 then read_end st
      else
        m ← the_mal st;
        let st := read_advance (op_block_size m) st in
        s ← call_if (ms_invoke peer) (rx_ready (io st)) (Stream.on_inout (callback_rx (io st)))
              (callback_rx (io st)) (io st);
        read_head (read_block fuel evt) (set_io st s)
  end.

Definition vsf_malstream_read_thread (evt : Z) st : option (Z * mstate D R) :=
  let fuel := S (Z.to_nat (ms_size (ms st))) in
  let label := pt_state (ms st) in
  if label =? 0 then
    '(bs, st) ← ask_block_size VSFMAL_OP_READ st;
    if negb (bs =? msize (mbuf st)) then Some (VSFERR_BUG, st)
    else read_head (read_block fuel evt) (set_offset st 0)
  else if label =? READ_WFE then
    if negb (evt =? VSF_MALSTREAM_ON_INOUT) then Some (VSFERR_NOT_READY, st)
    else read_room (read_block fuel evt) (set_tx_inout st NULL)
  else if label =? READ_BLOCK then read_block fuel evt st
  else Some (VSFERR_NONE, st).

(** *** Writing *)

Definition write_end st : option (Z * mstate D R) :=
  s ← stream_disconnect_rx (ms_invoke peer) (io st);
  Some (VSFERR_NONE, ms_finish (set_io st s)).

Definition write_data (block : mstate D R → option (Z * mstate D R)) st : option (Z * mstate D R) :=
  m ← the_mal st;
  if stream_get_data_size mbufstream_op (io st) <? op_block_size m then
    Some (VSFERR_NOT_READY, set_label (set_rx_inout st MALSTREAM_ON_INOUT_FN) WRITE_WFE)
  else block (enter_block WRITE_BLOCK st).

Definition write_head (block : mstate D R → option (Z * mstate D R)) st : option (Z * mstate D R) :=
  if ms_offset (ms st) <? ms_size (ms st) then write_data block st else write_end st.

(** After the last block it is the sender's callback that is cleared. *)
Definition write_advance (bs : Z) st : mstate D R :=
  let st := set_mbuf st (snd (vsf_multibuf_pop (mbuf st))) in
  let st := set_offset st (u32 (ms_offset (ms st) + bs)) in
  if ms_size (ms st) <=? ms_offset (ms st) then set_tx_inout st NULL else st.

Fixpoint write_block (fuel : nat) (evt : Z) st : option (Z * mstate D R) :=
  match fuel with
  | O => None
  | S fuel =>
      '(err, st) ← call_drv VSFMAL_OP_WRITE evt (vsf_multibuf_get_payload (mbuf st)) st;
      if 0 <? err then Some (err, st)
      else if err <? 0 then write_end st
      else
        m ← the_mal st;
        let st := write_advance (op_block_size m) st in
        s ← call_if (ms_invoke peer) (tx_ready (io st)) (Stream.on_inout (callback_tx (io st)))
              (callback_tx (io st)) (io st);
        write_head (write_block fuel evt) (set_io st s)
  end.

Definition vsf_malstream_write_thread (evt : Z) st : option (Z * mstate D R) :=
  let fuel := S (Z.to_nat (ms_size (ms st))) in
  let label := pt_state (ms st) in
  if label =? 0 then
    '(bs, st) ← ask_block_size VSFMAL_OP_WRITE st;
    if negb (bs =? msize (mbuf st)) then Some (VSFERR_BUG, st)
    else write_head (write_block fuel evt) (set_offset st 0)
  else if label =? WRITE_WFE then
    if negb (evt =? VSF_MALSTREAM_ON_INOUT) then Some (VSFERR_NOT_READY, st)
    else write_data (write_block fuel evt) (set_rx_inout st NULL)
  else if label =? WRITE_BLOCK then write_block fuel evt st
  else Some (VSFERR_NONE, st).

(** *** Requests and dispatch *)

(** [vsfsm_init]: VSFSM_EVT_ENTER does nothing in either handler, and
    VSFSM_EVT_INIT is posted. *)
Definition start_sm st : Z * mstate D R := (VSFERR_NONE, set_io st (post_evt (io st) VSFSM_EVT_INIT)).

Definition vsf_malstream_init st : Z * mstate D R :=
  start_sm (set_ms st (set_ready (ms st) false InitHandler)).

Definition vsf_malstream_init_evt_handler (evt : Z) st : option (mstate D R) :=
  if (evt =? VSFSM_EVT_FINI) || (evt =? VSFSM_EVT_ENTER) || (evt =? VSFSM_EVT_EXIT) then Some st
  else
    let mal := ms_mal (ms st) in
    let st := if evt =? VSFSM_EVT_INIT
              then set_mw st (set_pt (mw st) mal {| user_data := mal; state := 0 |}) else st in
    '(err, w) ← vsfmal_init table mal evt (mw st);
    let st := set_mw st w in
    Some (if err =? 0 then set_ms st (set_ready (ms st) true (ms_handler (ms st))) else st).

(** [self] is the address of the malstream. *)
Definition vsf_malstream_read (self addr size : Z) st : option (Z * mstate D R) :=
  let st := set_ms st (set_request (ms st) addr size (ms_handler (ms st))) in
  let cb := {| cb_param := self; Stream.on_inout := NULL; on_connect := NULL;
               on_disconnect := NULL |} in
  s ← stream_connect_tx (ms_invoke peer) (set_callbacks (io st) cb (callback_rx (io st)));
  let st := set_io st s in
  Some (start_sm (set_ms st (set_request (ms st) addr size (PtHandler ReadThread)))).

Definition vsf_malstream_write (self addr size : Z) st : option (Z * mstate D R) :=
  let st := set_ms st (set_request (ms st) addr size (ms_handler (ms st))) in
  let cb := {| cb_param := self; Stream.on_inout := NULL; on_connect := NULL;
               on_disconnect := NULL |} in
  s ← stream_connect_rx (ms_invoke peer) (set_callbacks (io st) (callback_tx (io st)) cb);
  let st := set_io st s in
  Some (start_sm (set_ms st (set_request (ms st) addr size (PtHandler WriteThread)))).

(** [vsfsm_pt_evt_handler], with what the thread returned. *)
Definition ms_pt_evt_handler (t : ms_thread_t) (evt : Z) st : option (Z * mstate D R) :=
  if (evt =? VSFSM_EVT_ENTER) || (evt =? VSFSM_EVT_EXIT) then Some (VSFERR_NOT_READY, st)
  else
    let st := if evt =? VSFSM_EVT_INIT then set_label st 0 else st in
    match t with
    | ReadThread => vsf_malstream_read_thread evt st
    | WriteThread => vsf_malstream_write_thread evt st
    end.

Definition ms_dispatch (evt : Z) st : option (Z * mstate D R) :=
  match ms_handler (ms st) with
  | InitHandler => st ← vsf_malstream_init_evt_handler evt st; Some (VSFERR_NOT_READY, st)
  | PtHandler t => ms_pt_evt_handler t evt st
  end.
End malstream.

(** ** Whole buffers *)

Definition fill (s : vsf_mbufstream_mem_t) (b : Z) (buf : list Z) : vsf_mbufstream_mem_t :=
  {| multibuf := set_bytes (multibuf s) (<[Z.to_nat b := buf]> (buffer_list (multibuf s)));
     rpos := rpos s; wpos := wpos s |}.
Definition publish (s : vsf_mbufstream_mem_t) : vsf_mbufstream_mem_t :=
  {| multibuf := snd (vsf_multibuf_push (multibuf s)); rpos := rpos s; wpos := wpos s |}.

Lemma inserts_all (x l : list Z) : length x = length l → list_inserts 0 x l = x.
Proof.
  intros Hl. apply list_eq. intros i. destruct (decide (i < length x)%nat).
  - rewrite list_lookup_inserts by lia. f_equal. lia.
  - rewrite list_lookup_inserts_ge, !lookup_ge_None_2 by lia. done.
Qed.

Lemma rep_head s l :
  mbuf_rep s l → wpos s = 0 → mlength (multibuf s) < count (multibuf s) →
  ∃ b, vsf_multibuf_get_empty (multibuf s) = Some (mhead (multibuf s)) ∧
    buffer_list (multibuf s) !! Z.to_nat (mhead (multibuf s)) = Some b ∧
    Z.of_nat (length b) = msize (multibuf s).
Proof.
  intros Hrep Hw Hlt. destruct (mbuf_head_pos s l Hrep Hlt) as (_ & _ & Hh & _).
  destruct Hrep as ((Hs & Hc & Hmb & Hlen & Hall & _) & _).
  destruct (lookup_lt_is_Some_2 (buffer_list (multibuf s)) (Z.to_nat (mhead (multibuf s)))) as [b Hb];
    [lia|].
  exists b. split; [|split; [exact Hb|]].
  2:{ apply Hall. by eapply list_elem_of_lookup_2. }
  unfold vsf_multibuf_get_empty. destruct (Z.leb_spec (count (multibuf s)) (mlength (multibuf s))); [lia|].
  done.
Qed.

(** What a producer writes to the buffer it is filling is not seen. *)
Lemma rep_refill s l buf :
  mbuf_rep s l → wpos s = 0 → mlength (multibuf s) < count (multibuf s) →
  Z.of_nat (length buf) = msize (multibuf s) →
  mbuf_rep (fill s (mhead (multibuf s)) buf) l.
Proof.
  intros Hrep Hw Hlt Hbuf. pose proof (rep_head s l Hrep Hw Hlt) as (b & _ & Hb & Hlb).
  destruct (mbuf_head_pos s l Hrep Hlt) as (Hroom & Hpos & Hh & Hhp).
  pose proof Hrep as ((Hs & Hc & Hmb & Hlen & Hall & Ht & Hl & Hhd & Hw1 & Hr & Hfull & Hemp)
                      & Hll & Hbytes).
  set (m := multibuf s) in *.
  destruct (mbyte_write m (mhead m) 0 buf) as (bl & Hbw & Hbl & Hball & Hmby);
    [lia..|done|lia|lia|].
  unfold buf_write in Hbw. rewrite Hb in Hbw. revert Hbw. bindr.
  rewrite memcpy_in by lia. bindr. rewrite inserts_all by lia. intros [= Hbl'].
  assert (Hf : multibuf (fill s (mhead m) buf) = set_bytes m bl) by (unfold fill; cbn; by rewrite <- Hbl').
  assert (Hcnt : Z.of_nat (length l) ≤ mlength m * msize m) by lia.
  split; [|split].
  - unfold mbuf_wf. rewrite Hf. unfold mbytes in *. cbn. fold m. rewrite Hbl. split_and!; try done; try lia.
  - rewrite Hf. cbn. exact Hll.
  - intros i Hi. rewrite Hf. cbn [mbytes set_bytes count msize mtail rpos fill]. change (mbytes (set_bytes m bl)) with (mbytes m).
    assert (Htp : 0 ≤ mtail m * msize m + rpos s < mbytes m) by by apply flat_range.
    rewrite Hbytes by done. rewrite Hmby by (apply slot_range; lia).
    cbv zeta. rewrite decide_False; [done|].
    assert (Hi3 : mhead m * msize m + msize m ≤ mbytes m).
    { pose proof (Z.mul_le_mono_nonneg_r (mhead m + 1) (count m) (msize m)
        ltac:(lia) ltac:(lia)). unfold mbytes in *. lia. }
    assert (Hi2 : Z.of_nat (length l) + Z.of_nat (length buf) ≤ mbytes m).
    { pose proof (Z.mul_le_mono_nonneg_r (mlength m + 1) (count m) (msize m)
        ltac:(lia) ltac:(lia)). unfold mbytes in *. lia. }
    unfold slot in *. revert Hpos. zcase; lia.
Qed.

Lemma rep_publish s l buf :
  mbuf_rep s l → wpos s = 0 → mlength (multibuf s) < count (multibuf s) →
  Z.of_nat (length buf) = msize (multibuf s) →
  mbuf_rep (publish (fill s (mhead (multibuf s)) buf)) (l ++ buf).
Proof.
  intros Hrep Hw Hlt Hbuf. pose proof (rep_head s l Hrep Hw Hlt) as (b & _ & Hb & Hlb).
  destruct (mbuf_rep_write s l buf (set_bytes (multibuf s)
    (<[Z.to_nat (mhead (multibuf s)) := buf]> (buffer_list (multibuf s)))) Hrep Hlt)
    as (_ & _ & _ & _ & _ & Hp).
  - lia.
  - unfold buf_write. rewrite Hb. bindr. rewrite Hw, memcpy_in by lia. bindr.
    by rewrite inserts_all by lia.
  - unfold publish, fill. cbn [multibuf rpos wpos]. rewrite Hw. apply Hp. cbn. lia.
Qed.

(** There is room for a block exactly when a buffer is free. *)
Lemma rep_room s l :
  mbuf_rep s l → wpos s = 0 →
  (multibuf_stream_get_avail_length s <? msize (multibuf s)) =
    (count (multibuf s) <=? mlength (multibuf s)) ∧
  (mlength (multibuf s) = count (multibuf s) → l ≠ []).
Proof.
  intros Hrep Hw. pose proof (mbuf_data_length s l Hrep) as Hd.
  destruct Hrep as ((Hs & Hc & Hmb & _ & _ & _ & Hl & _ & _ & Hr & _) & Hll & _).
  unfold multibuf_stream_get_avail_length, mbytes in *. rewrite Hd, (u32_small (_ * _)) by nia.
  assert (Hle : mlength (multibuf s) * msize (multibuf s) ≤ count (multibuf s) * msize (multibuf s)) by nia.
  rewrite u32_small by nia. split.
  - destruct (Z.leb_spec (count (multibuf s)) (mlength (multibuf s))).
    + apply Z.ltb_lt. nia.
    + apply Z.ltb_ge. nia.
  - intros Hfull ->. cbn in Hll. nia.
Qed.

(** A read moves nothing but the receiver's end. *)
Lemma read_loop_frame fuel s d b w n r s' d' :
  multibuf_stream_read_loop fuel s d b w n = Some (r, s', d') →
  wpos s' = wpos s ∧ msize (multibuf s') = msize (multibuf s) ∧
  count (multibuf s') = count (multibuf s).
Proof.
  revert s d b w n. induction fuel as [|fuel IH]; intros s d b w n; [done|].
  cbn [multibuf_stream_read_loop]. destruct b as [b|]; [|by intros [= <- <- <-]].
  destruct (n <=? 0); [by intros [= <- <- <-]|].
  match goal with |- (?x ≫= _) = _ → _ => destruct x as [data|] end; [|done]. bindr.
  destruct (_ <=? _); intros Hr; apply IH in Hr; [|done].
  destruct Hr as (-> & -> & ->). cbn. unfold vsf_multibuf_pop.
  by destruct (mlength (multibuf s) =? 0).
Qed.

(** ** Driving a malstream *)

(** The receiver takes up to [n] bytes. *)
Definition receive {D R} (peer : Z → Z → mstream R → option (mstream R)) (n : nat) (st : mstate D R)
    : option (list Z * mstate D R) :=
  '(count, s, data) ← stream_read mbufstream_op (ms_invoke peer) (io st) (Z.of_nat n)
                        (Some (replicate n 0));
  Some (take (Z.to_nat count) (default [] data), set_io st s).

(** The events waiting for the state machine are replaced. *)
Definition set_evts {D R} (st : mstate D R) (evs : list Z) : mstate D R :=
  set_io st (set_env (io st) {| sm_evts := evs; others := others (env (io st)) |}).

(** A run of the program around a malstream that reads: an event posted to its
    state machine is dispatched before anything else happens; when the driver
    waits, the device posts [evts]; otherwise the receiver takes [chunk] bytes,
    until the thread has ended and nothing is left.  [running] is false once the
    thread has ended. *)
Fixpoint play {D R} (table : Z → vsfmal_drv_t D) (peer : Z → Z → mstream R → option (mstream R))
    (finish : Z → Z → vsf_malstream_t → R → R) (fuel : nat) (chunk : nat → nat) (evts : nat → Z)
    (running : bool) (st : mstate D R) (out : list Z) : option (mstate D R * list Z) :=
  match fuel with
  | O => None
  | S fuel =>
      let go := play table peer finish fuel (λ i, chunk (S i)) (λ i, evts (S i)) in
      match sm_evts (env (io st)) with
      | e :: es =>
          '(err, st) ← ms_dispatch table peer finish e (set_evts st es);
          go (0 <? err) st out
      | [] =>
          if running && (pt_state (ms st) =? READ_BLOCK) then
            '(err, st) ← ms_dispatch table peer finish (evts 0%nat) st;
            go (0 <? err) st out
          else
            '(x, st) ← receive peer (chunk 0%nat) st;
            if negb running && (length x =? 0)%nat then Some (st, out)
            else go running st (out ++ x)
      end
  end.

(** ** Reading a range *)

Section reading.
Context {D R : Type} (table : Z → vsfmal_drv_t D) (d mal : Z).
Context `{Hbd : !BlockDriver (table d) mal}.
Implicit Types (st : mstate D R) (s : mstream R).
Context (peer : Z → Z → mstream R → option (mstream R)).
Context (finish : Z → Z → vsf_malstream_t → R → R).

(** The callbacks of the other end do not use the stream while they run; [P]
    is a property of the rest of the program they keep. *)
Context (act : Z → Z → R → R) (P : R → Prop).
Hypothesis quiet : ∀ f p s, peer f p s =
  Some (set_env s {| sm_evts := sm_evts (env s); others := act f p (others (env s)) |}).
Hypothesis act_P : ∀ f p r, P r → P (act f p r).

Context (fin : Z) (a size : nat) (i0 : list Z).
Hypothesis Hsize : Z.of_nat size + Z.of_nat bd_block ≤ 4294967296.
Hypothesis Hin : (a + size ≤ bd_len)%nat.

(** [size] bytes at [a] are requested, the first [o] are published, of which
    the receiver has taken [out]. *)
Record streaming (o : nat) (out : list Z) st : Prop := {
  s_request : ms_mal (ms st) = mal ∧ ms_addr (ms st) = Z.of_nat a ∧
    ms_size (ms st) = Z.of_nat size ∧ ms_handler (ms st) = PtHandler ReadThread;
  s_fin : on_finish (ms st) = fin;
  s_offset : ms_offset (ms st) = Z.of_nat o;
  s_blocks : ∃ n, (o + n * bd_block = size)%nat;
  s_mal : ∃ m, mals (mw st) !! mal = Some m ∧ drv m = d ∧ op_block_size m = Z.of_nat bd_block;
  s_ok : bd_ok (mw st);
  s_image : bd_image (dev (mw st)) = i0;
  s_bytes : ∃ l, mbuf_rep (smem (io st)) l ∧ out ++ l = take o (drop a i0);
  s_wpos : wpos (smem (io st)) = 0;
  s_size : msize (mbuf st) = Z.of_nat bd_block;
  s_ends : tx_ready (io st) = true ∧
    Stream.on_inout (callback_rx (io st)) ≠ MALSTREAM_ON_INOUT_FN ∧
    on_disconnect (callback_rx (io st)) ≠ MALSTREAM_ON_INOUT_FN;
  s_others : P (others (env (io st))) }.

(** Nothing posted, no callback armed. *)
Definition idle st : Prop :=
  sm_evts (env (io st)) = [] ∧ Stream.on_inout (callback_tx (io st)) = NULL.

Definition room st : Prop := mlength (mbuf st) < count (mbuf st).

(** Before a call of the driver, or waiting for it. *)
Definition in_block (o : nat) (out : list Z) st : Prop :=
  streaming o out st ∧ idle st ∧ room st ∧ (o < size)%nat ∧ pt_state (ms st) = READ_BLOCK ∧
  ∃ p, pts (mw st) !! mal = Some p ∧ user_data p = mal ∧
    (state p = 0 ∨ bd_waiting VSFMAL_OP_READ (Z.of_nat (a + o)) (state p) (dev (mw st))).

(** Waiting for the receiver, with the events [evs] posted. *)
Definition in_wait (evs : list Z) (o : nat) (out : list Z) st : Prop :=
  streaming o out st ∧ sm_evts (env (io st)) = evs ∧
  Stream.on_inout (callback_tx (io st)) = MALSTREAM_ON_INOUT_FN ∧
  (o < size)%nat ∧ pt_state (ms st) = READ_WFE ∧ is_Some (pts (mw st) !! mal) ∧
  (evs = [] → ¬ room st).

(** Over: the sender is disconnected, [on_finish] was called, once, and either
    all of the range is published or the driver failed at the next block. *)
Definition ended (o : nat) (out : list Z) st : Prop :=
  ms_offset (ms st) = Z.of_nat o ∧ ms_size (ms st) = Z.of_nat size ∧ (o ≤ size)%nat ∧
  (o = size ∨ ∃ evt w e w', e < 0 ∧ drv_op (table d) VSFMAL_OP_READ mal evt (Z.of_nat (a + o)) 0
     (Z.of_nat bd_block) w = Some (e, w')) ∧
  idle st ∧ tx_ready (io st) = false ∧
  (∃ l, mbuf_rep (smem (io st)) l ∧ out ++ l = take o (drop a i0)) ∧
  wpos (smem (io st)) = 0 ∧
  ∃ r, P r ∧ others (env (io st)) =
    if fin =? NULL then r else finish fin (finish_param (ms st)) (ms st) r.

(** How a dispatch can end. *)
Definition outcome (out : list Z) (Qe : nat → Prop) (Qb Qw : nat → mstate D R → Prop)
    (r : option (Z * mstate D R)) : Prop :=
  ∃ e st, r = Some (e, st) ∧
    ((e = 0 ∧ ∃ o, ended o out st ∧ Qe o) ∨
     (0 < e ∧ ∃ o, in_block o out st ∧ Qb o st) ∨
     (0 < e ∧ ∃ o, in_wait [] o out st ∧ Qw o st)).

Lemma outcome_mono out (Qe Qe' : nat → Prop) (Qb Qw Qb' Qw' : nat → mstate D R → Prop) r :
  outcome out Qe Qb Qw r → (∀ o, Qe o → Qe' o) → (∀ o st, Qb o st → Qb' o st) →
  (∀ o st, Qw o st → Qw' o st) → outcome out Qe' Qb' Qw' r.
Proof. unfold outcome. intros (e & st & -> & Hc) ???. exists e, st. naive_solver. Qed.

Definition brank st : nat :=
  match pts (mw st) !! mal with Some p => bd_rank (state p) (dev (mw st)) | None => 0 end.

(** A callback that is not the malstream's own. *)
Lemma quiet_call c f cb s :
  f ≠ MALSTREAM_ON_INOUT_FN → P (others (env s)) →
  ∃ r, call_if (ms_invoke peer) c f cb s = Some (set_env s {| sm_evts := sm_evts (env s); others := r |}) ∧
    P r.
Proof.
  intros Hf HP. unfold call_if. destruct (c && negb (f =? NULL)).
  - unfold ms_invoke. rewrite (proj2 (Z.eqb_neq _ _)) by done. rewrite quiet.
    eexists. split; [done|]. by apply act_P.
  - exists (others (env s)). split; [|done]. by destruct s as [? ? ? ? ? ? []].
Qed.

(** Changes [streaming] does not see. *)
Lemma streaming_same o out st st' :
  streaming o out st → ms_mal (ms st') = ms_mal (ms st) → ms_addr (ms st') = ms_addr (ms st) →
  ms_size (ms st') = ms_size (ms st) → ms_handler (ms st') = ms_handler (ms st) →
  ms_offset (ms st') = ms_offset (ms st) → on_finish (ms st') = on_finish (ms st) → same_config (mw st) (mw st') →
  mals (mw st') !! mal = mals (mw st) !! mal → dev (mw st') = dev (mw st) →
  smem (io st') = smem (io st) → tx_ready (io st') = tx_ready (io st) →
  callback_rx (io st') = callback_rx (io st) → P (others (env (io st'))) → streaming o out st'.
Proof.
  intros [H1 Hf H2 H3 H4 H5 H6 H7 H8 H9 H10 H11] E1 E2 E3 E4 E5 Ef E6 E7 E8 E9 E10 E11 E12.
  split; rewrite ?E1, ?E2, ?E3, ?E4, ?E5, ?Ef, ?E7, ?E8, ?E9, ?E10, ?E11; try done.
  - by eapply bd_ok_config.
  - unfold mbuf. by rewrite E9.
Qed.

Lemma read_end_ok o out st :
  streaming o out st → idle st → (o ≤ size)%nat →
  (o = size ∨ ∃ evt w e w', e < 0 ∧ drv_op (table d) VSFMAL_OP_READ mal evt (Z.of_nat (a + o)) 0
     (Z.of_nat bd_block) w = Some (e, w')) →
  ∃ st', read_end peer finish st = Some (VSFERR_NONE, st') ∧ ended o out st'.
Proof.
  intros Hs (He & Hi) Ho Hwhy. unfold read_end, stream_disconnect_tx.
  destruct (s_ends _ _ _ Hs) as (Htx & _ & Hrx).
  destruct (quiet_call (tx_ready (io st)) (on_disconnect (callback_rx (io st))) (callback_rx (io st))
    (io st) Hrx (s_others _ _ _ Hs)) as (r & -> & HP). bindr.
  eexists. split; [done|]. destruct (s_request _ _ _ Hs) as (_ & _ & Hsz & _).
  unfold ended, ms_finish, idle. cbn [ms set_io].
  pose proof (s_offset _ _ _ Hs) as Hoff. pose proof (s_bytes _ _ _ Hs) as Hb. pose proof (s_wpos _ _ _ Hs) as Hw.
  rewrite (s_fin _ _ _ Hs).
  destruct (fin =? NULL) eqn:Hf; cbn; repeat (split; [done|]);
    exists r; by rewrite ?(s_fin _ _ _ Hs), ?Hf.
Qed.

(** The driver called on the next block. *)
Lemma call_drv_ok evt o out st :
  in_block o out st →
  ∃ e st' p', call_drv table VSFMAL_OP_READ evt (vsf_multibuf_get_empty (mbuf st)) st = Some (e, st') ∧
    streaming o out st' ∧ idle st' ∧ room st' ∧ ms st' = ms st ∧
    callback_rx (io st') = callback_rx (io st) ∧ pts (mw st') !! mal = Some p' ∧
    (if e =? 0 then
       ∃ l, mbuf_rep (publish (smem (io st'))) l ∧ out ++ l = take (o + bd_block) (drop a i0)
     else
       (0 < e → user_data p' = mal ∧
          bd_waiting VSFMAL_OP_READ (Z.of_nat (a + o)) (state p') (dev (mw st')) ∧
          (bd_rank (state p') (dev (mw st')) < brank st)%nat) ∧
       (e < 0 → ∃ evt w e w', e < 0 ∧ drv_op (table d) VSFMAL_OP_READ mal evt (Z.of_nat (a + o)) 0
          (Z.of_nat bd_block) w = Some (e, w'))).
Proof.
  intros (Hs & Hidle & Hroom & Ho & _ & p & Hp & Hpu & Hst).
  pose proof Hs as [(Hmal & Had & _) Hfin Hoff (n & Hn) (m & Hm & Hd & Hbs) Hok Himg (l & Hl & Hout) Hw Hmsz _ _].
  pose proof bd_block_pos as Hbp. pose proof bd_len_fits as Hfits.
  destruct (rep_head _ _ Hl Hw Hroom) as (buf & Hge & Hbuf & Hlbuf). fold (mbuf st) in *.
  assert (Hfit : (o + bd_block ≤ size)%nat) by (destruct n; lia).
  assert (Hli : length i0 = bd_len) by (rewrite <- Himg; apply bd_image_length).
  set (w0 := set_ram (mw st) buf).
  destruct (bd_op VSFMAL_OP_READ w0 p evt (a + o) 0) as (e & w' & p' & Hop & Hf & Hp' & Hout').
  { by eapply bd_ok_config; [|exact Hok]. } { done. } { done. } { done. }
  { split; cbn; [rewrite Himg; lia|intros _; lia]. }
  assert (Hfr : same_config (mw st) w') by (etransitivity; [|apply Hf]; done).
  assert (Him : bd_image (dev w') = i0 ∧ length (ram w') = length buf).
  { destruct (e =? 0); [|destruct Hout' as [Hout' _]];
      destruct (effect_length _ _ _ _ _ _ _ _ _ Hout') as [_ Hr']; destruct Hout' as [Hi' _];
      split; [by rewrite Hi'|done|by rewrite Hi'|done]. }
  destruct Him as [Himg' Hlr].
  set (st' := set_mw (set_mbuf st (set_bytes (mbuf st)
    (<[Z.to_nat (mhead (mbuf st)) := ram w']> (buffer_list (mbuf st))))) w').
  assert (Hmem : smem (io st') = fill (smem (io st)) (mhead (mbuf st)) (ram w')) by done.
  exists e, st', p'. split.
  { unfold call_drv, the_mal. rewrite Hmal, Hm. bindr. rewrite Hge. bindr. rewrite Hbuf. bindr.
    fold w0. rewrite Had, Hoff, Hd, Hbs.
    replace (u64 (Z.of_nat a + Z.of_nat o)) with (Z.of_nat (a + o)).
    2:{ unfold u64. rewrite wrap_small; [lia|]. unfold fits.
        change (2 ^ 64) with 18446744073709551616 in *. lia. }
    change 0 with (Z.of_nat 0). rewrite Hop. done. }
  split.
  { split; try done; try apply Hs.
    - exists m. split; [|done]. cbn. rewrite (proj1 (proj2 Hf)); [done|apply bd_fresh].
    - by eapply bd_ok_config.
    - exists l. split; [|done]. rewrite Hmem. apply rep_refill; [done|done|done|].
      fold (mbuf st). lia. }
  split; [done|]. split; [done|]. split; [done|]. split; [done|]. split; [done|].
  destruct (Z.eqb_spec e 0) as [He|He].
  - exists (l ++ ram w'). split.
    + rewrite Hmem. apply rep_publish; [done|done|done|]. fold (mbuf st). lia.
    + rewrite app_assoc, Hout, <- take_drop_app. f_equal.
      destruct Hout' as [_ ([|] & Hz & Hr)]; [|done]. cbn [ram set_ram dev w0] in Hr.
      rewrite Hr, app_nil_r, Himg. apply inserts_all. rewrite length_slice by lia. lia.
  - destruct Hout' as [_ Hwt]. split.
    + unfold brank. rewrite Hp. exact Hwt.
    + intros Hneg. exists evt, w0, e, w'. split; [done|].
      change 0 with (Z.of_nat 0). exact Hop.
Qed.

(** What a dispatch from the label before the driver's call at [o] does. *)
Definition block_ok (o : nat) (out : list Z) (block : mstate D R → option (Z * mstate D R)) : Prop :=
  ∀ st, in_block o out st →
    outcome out (λ o', o ≤ o')%nat
      (λ o' st', (o < o')%nat ∨ (o' = o ∧ (brank st' < brank st)%nat)) (λ o' _, o < o')%nat (block st).

(** From the wait for room at [o]. *)
Definition room_ok (o : nat) (out : list Z) st (r : option (Z * mstate D R)) : Prop :=
  outcome out (λ o', o ≤ o')%nat (λ o' _, o ≤ o')%nat
    (λ o' st', (o < o')%nat ∨ (o' = o ∧ smem (io st') = smem (io st))) r.

Lemma read_room_ok block o out st :
  streaming o out st → idle st → is_Some (pts (mw st) !! mal) → (o < size)%nat →
  block_ok o out block → room_ok o out st (read_room block st).
Proof.
  intros Hs (He & Hi) [p Hp] Ho Hblock. unfold read_room, the_mal.
  destruct (s_request _ _ _ Hs) as (Hmal & _). destruct (s_mal _ _ _ Hs) as (m & Hm & _ & Hbs).
  rewrite Hmal, Hm. bindr. rewrite Hbs, <- (s_size _ _ _ Hs).
  destruct (s_bytes _ _ _ Hs) as (l & Hl & _).
  destruct (rep_room _ _ Hl (s_wpos _ _ _ Hs)) as [Hroom _].
  unfold stream_get_free_size. cbn [op_get_avail_length mbufstream_op]. fold (mbuf st) in Hroom.
  rewrite Hroom. destruct (Z.leb_spec (count (mbuf st)) (mlength (mbuf st))) as [Hfull|Hfree].
  - eexists _, _. split; [done|]. right. right. split; [done|]. exists o. split; [|by right].
    split; [by eapply streaming_same; [exact Hs|..]; try done; apply Hs|].
    split_and!; try done. intros _ Hr. unfold room in Hr. cbn in Hr. unfold mbuf in *. cbn in *. lia.
  - eapply outcome_mono; [apply Hblock| | |].
    + split; [eapply streaming_same; [exact Hs|..]; try done; [|apply Hs]|].
      { unfold enter_block. cbn. rewrite Hmal. apply (framed_set_pt ∅ mal); [by exists p|by left]. }
      split; [done|]. split; [done|]. split; [done|]. split; [done|].
      eexists. unfold enter_block. cbn. rewrite Hmal, lookup_insert_eq. split; [done|].
      split; [done|]. by left.
    + done.
    + intros o' st' Hc. destruct Hc; lia.
    + intros o' st' Hc. by left.
Qed.

Lemma read_head_ok block o out st :
  streaming o out st → idle st → is_Some (pts (mw st) !! mal) → (o ≤ size)%nat →
  ((o < size)%nat → block_ok o out block) → room_ok o out st (read_head peer finish block st).
Proof.
  intros Hs Hi Hp Ho Hblock. unfold read_head.
  destruct (s_request _ _ _ Hs) as (_ & _ & Hsz & _). rewrite (s_offset _ _ _ Hs), Hsz.
  destruct (Z.ltb_spec (Z.of_nat o) (Z.of_nat size)) as [Hlt|Hge].
  - apply read_room_ok; try done; [lia|]. apply Hblock. lia.
  - destruct (read_end_ok o out st Hs Hi Ho) as (st' & Hr & Hend); [left; lia|].
    exists VSFERR_NONE, st'. split; [exact Hr|]. left. split; [done|]. by exists o.
Qed.

(** Publishing the block the driver filled, and telling the receiver. *)
Lemma publish_ok o out st l :
  streaming o out st → idle st → (o + bd_block ≤ size)%nat →
  mbuf_rep (publish (smem (io st))) l → out ++ l = take (o + bd_block) (drop a i0) →
  (∃ n, (o + bd_block + n * bd_block = size)%nat) →
  ∃ m, the_mal st = Some m ∧
    let st2 := read_advance (op_block_size m) st in
    ∃ s, call_if (ms_invoke peer) (rx_ready (io st2)) (Stream.on_inout (callback_rx (io st2)))
        (callback_rx (io st2)) (io st2) = Some s ∧
      streaming (o + bd_block) out (set_io st2 s) ∧ idle (set_io st2 s) ∧ mw (set_io st2 s) = mw st.
Proof.
  intros Hs (He & Hi) Hfit Hl Hout Hn.
  pose proof Hs as [(Hmal & Had & Hsz & Hh) Hfin Hoff _ (m & Hm & Hd & Hbs) Hok Himg _ Hw Hmsz (Htx & Hrx & Hrxd) HP].
  exists m. split; [unfold the_mal; by rewrite Hmal|]. cbv zeta.
  set (st1 := set_offset (set_mbuf st (snd (vsf_multibuf_push (mbuf st))))
                (u32 (ms_offset (ms st) + op_block_size m))).
  set (st2 := read_advance (op_block_size m) st).
  assert (Hst2 : smem (io st2) = publish (smem (io st)) ∧ ms st2 = ms st1 ∧ mw st2 = mw st ∧
    callback_rx (io st2) = callback_rx (io st) ∧ tx_ready (io st2) = true ∧ idle st2 ∧
    env (io st2) = env (io st)).
  { unfold st2, read_advance. cbv zeta. destruct (_ <=? _); split_and!; done || by split. }
  destruct Hst2 as (Hmem & Hms & Hmw & Hcb & Htx2 & Hid2 & Henv). clearbody st2.
  rewrite Hcb. destruct (quiet_call (rx_ready (io st2)) (Stream.on_inout (callback_rx (io st)))
    (callback_rx (io st)) (io st2) Hrx) as (r & -> & HPr); [by rewrite Henv|].
  eexists. split; [done|]. pose proof bd_block_pos as Hbp.
  split; [|by destruct Hid2]. split.
  - cbn [ms set_io]. rewrite Hms. by split_and!.
  - cbn [ms set_io]. by rewrite Hms.
  - cbn [ms set_io]. rewrite Hms. cbn. rewrite Hoff, Hbs, u32_small by lia. lia.
  - exact Hn.
  - cbn [mw set_io]. rewrite Hmw. by exists m.
  - cbn [mw set_io]. by rewrite Hmw.
  - cbn [mw set_io]. by rewrite Hmw.
  - exists l. cbn [io set_io smem set_env]. by rewrite Hmem.
  - cbn [io set_io smem set_env]. by rewrite Hmem.
  - unfold mbuf. cbn [io set_io smem set_env]. rewrite Hmem. unfold publish. cbn.
    unfold vsf_multibuf_push. fold (mbuf st). by destruct (count (mbuf st) <=? mlength (mbuf st)).
  - cbn [io set_io set_env tx_ready callback_rx]. by rewrite Hcb.
  - done.
Qed.

Lemma read_block_ok fuel evt o out n :
  (o + n * bd_block = size)%nat → (n ≤ fuel)%nat →
  block_ok o out (read_block table peer finish fuel evt).
Proof.
  revert o n. induction fuel as [|fuel IH]; intros o n Hn Hfuel st Hb.
  { destruct Hb as (_ & _ & _ & Ho & _). lia. }
  pose proof Hb as (_ & _ & _ & Ho & Hpt & _).
  assert (Hfit : (o + bd_block ≤ size)%nat) by (destruct n; lia).
  destruct (call_drv_ok evt o out st Hb) as
    (e & st1 & p1 & Hcall & Hs & Hid & Hroom & Hms & Hcb & Hp1 & Hres).
  cbn [read_block]. rewrite Hcall. bindr. destruct (Z.ltb_spec 0 e) as [Hpos|Hnp].
  - rewrite (proj2 (Z.eqb_neq e 0)) in Hres by lia. destruct Hres as [Hw _].
    destruct (Hw Hpos) as (Hpu & Hwait & Hrank). exists e, st1. split; [done|].
    right. left. split; [done|]. exists o. split.
    + split; [done|]. split; [done|]. split; [done|]. split; [done|]. rewrite Hms.
      split; [done|]. exists p1. split; [done|]. split; [done|by right].
    + right. split; [done|]. unfold brank at 1. by rewrite Hp1.
  - destruct (Z.ltb_spec e 0) as [Hneg|Hz].
    + rewrite (proj2 (Z.eqb_neq e 0)) in Hres by lia. destruct Hres as [_ Herr].
      destruct (read_end_ok o out st1 Hs Hid) as (st2 & Hr & Hend); [lia|right; by apply Herr|].
      exists VSFERR_NONE, st2. split; [exact Hr|]. left. split; [done|]. by exists o.
    + assert (e = 0) as -> by lia. destruct Hres as (l & Hl & Hout).
      destruct (publish_ok o out st1 l Hs Hid Hfit Hl Hout) as (m & Hm & s & Hcallcb & Hs2 & Hid2 & Hmw).
      { exists (n - 1)%nat. destruct n; simpl in *; lia. }
      rewrite Hm. bindr. cbv zeta. rewrite Hcallcb. bindr. pose proof bd_block_pos as Hbp.
      eapply outcome_mono; [apply read_head_ok; [exact Hs2|exact Hid2| | |]| | |].
      * rewrite Hmw. by exists p1.
      * lia.
      * intros _. apply (IH _ (n - 1)%nat); destruct n; simpl in *; lia.
      * intros o' Ho'. cbv beta in *. lia.
      * intros o' st' Ho'. cbv beta in *. left. lia.
      * intros o' st' Ho'. cbv beta in *. destruct Ho' as [|[-> _]]; lia.
Qed.

(** The receiver in any state. *)
Lemma receive_ok n st l :
  mbuf_rep (smem (io st)) l → wpos (smem (io st)) = 0 → Z.of_nat n < 4294967296 →
  Stream.on_inout (callback_tx (io st)) = NULL ∨
  Stream.on_inout (callback_tx (io st)) = MALSTREAM_ON_INOUT_FN ∨ tx_ready (io st) = false →
  let k := Nat.min n (length l) in
  ∃ m, receive peer n st = Some (take k l,
      set_io st (set_env (set_smem (io st) m) {|
        sm_evts := sm_evts (env (io st)) ++
          (if tx_ready (io st) && negb (k =? 0)%nat &&
              (Stream.on_inout (callback_tx (io st)) =? MALSTREAM_ON_INOUT_FN)
           then [VSF_MALSTREAM_ON_INOUT] else []);
        others := others (env (io st)) |})) ∧
    mbuf_rep m (drop k l) ∧ wpos m = 0 ∧ msize (multibuf m) = msize (mbuf st) ∧
    count (multibuf m) = count (mbuf st) ∧ mlength (multibuf m) ≤ mlength (mbuf st).
Proof.
  intros Hl Hw Hn Hcb k.
  assert (Hready : Z.to_nat (Z.min (Z.of_nat n) (mbuf_ready (smem (io st)))) = k).
  { destruct Hl as (_ & Hll & _). unfold mbuf_ready, k. lia. }
  destruct (multibuf_read_loop_spec (S (Z.to_nat (Z.of_nat n))) (smem (io st)) l (replicate n 0) 0
    (Z.of_nat n) Hl) as (m & Hread & Hm); [lia|lia|lia|rewrite Hready; len|].
  rewrite Hready in Hread, Hm. exists m.
  destruct (read_loop_frame _ _ _ _ _ _ _ _ _ Hread) as (Hwm & Hms & Hcm). split.
  - unfold receive, stream_read. cbn [op_read mbufstream_op]. unfold multibuf_stream_read.
    change (Z.of_nat 0) with 0 in Hread. rewrite Hread. bindr. cbn [Nat.add].
    assert (Hdata : take (Z.to_nat (Z.of_nat k)) (list_inserts 0 (take k l) (replicate n 0)) = take k l).
    { rewrite Nat2Z.id. apply take_inserts_front; unfold k; lia. }
    assert (Hk0 : (Z.of_nat k =? 0) = (k =? 0)%nat) by (destruct (Nat.eqb_spec k 0); lia).
    assert (Hsame : ∀ evs, sm_evts (env (io st)) = evs → set_smem (io st) m = set_env (set_smem (io st) m)
      {| sm_evts := evs; others := others (env (io st)) |}).
    { intros evs <-. unfold set_env, set_smem. cbn. by destruct (env (io st)). }
    unfold call_if. rewrite Hk0. cbn [tx_ready callback_tx set_smem].
    destruct Hcb as [Hcb|[Hcb|Hcb]].
    + rewrite Hcb, andb_false_r. bindr. cbn [default id]. rewrite Hdata. change (NULL =? _) with false.
      rewrite andb_false_r, app_nil_r. by rewrite <- Hsame.
    + rewrite Hcb. change (negb (MALSTREAM_ON_INOUT_FN =? NULL)) with true. unfold ms_invoke.
      rewrite Z.eqb_refl, !andb_true_r. destruct (tx_ready (io st) && negb (k =? 0)%nat); bindr.
      * cbn [default id]. by rewrite Hdata.
      * cbn [default id]. rewrite Hdata, app_nil_r. by rewrite <- Hsame.
    + rewrite Hcb. cbn [andb]. bindr. cbn [default id]. rewrite Hdata, app_nil_r. by rewrite <- Hsame.
  - split; [done|]. split; [congruence|]. split; [done|]. split; [done|].
    clear Hread Hready Hcb. unfold mbuf.
    destruct Hl as ((Hs & _ & _ & _ & _ & _ & _ & _ & _ & Hr & _) & Hll & _).
    destruct Hm as ((_ & _ & _ & _ & _ & _ & _ & _ & _ & Hr' & _) & Hll' & _).
    rewrite length_drop, Hwm, Hms in *. apply Znot_gt_le. intros Hgt.
    assert ((mlength (multibuf (smem (io st))) + 1) * msize (multibuf (smem (io st))) ≤
      mlength (multibuf m) * msize (multibuf (smem (io st)))) by (apply Z.mul_le_mono_nonneg_r; lia).
    lia.
Qed.

(** *** The dispatches *)

(** A read was asked for, and VSFSM_EVT_INIT is yet to come. *)
Record starting (evs : list Z) st : Prop := {
  t_request : ms_mal (ms st) = mal ∧ ms_addr (ms st) = Z.of_nat a ∧
    ms_size (ms st) = Z.of_nat size ∧ ms_handler (ms st) = PtHandler ReadThread;
  t_fin : on_finish (ms st) = fin;
  t_blocks : ∃ n, (n * bd_block = size)%nat;
  t_mal : ∃ m, mals (mw st) !! mal = Some m ∧ drv m = d;
  t_ok : bd_ok (mw st);
  t_pt : is_Some (pts (mw st) !! mal);
  t_image : bd_image (dev (mw st)) = i0;
  t_bytes : mbuf_rep (smem (io st)) [];
  t_wpos : wpos (smem (io st)) = 0;
  t_size : msize (mbuf st) = Z.of_nat bd_block;
  t_ends : tx_ready (io st) = true ∧
    Stream.on_inout (callback_rx (io st)) ≠ MALSTREAM_ON_INOUT_FN ∧
    on_disconnect (callback_rx (io st)) ≠ MALSTREAM_ON_INOUT_FN;
  t_others : P (others (env (io st)));
  t_evts : sm_evts (env (io st)) = evs;
  t_inout : Stream.on_inout (callback_tx (io st)) = NULL }.

Lemma fuel_enough o n : (o + n * bd_block = size)%nat → (n ≤ S (Z.to_nat (Z.of_nat size)))%nat.
Proof. pose proof bd_block_pos. nia. Qed.

Lemma dispatch_start st :
  starting [] st → room_ok 0 [] st (ms_dispatch table peer finish VSFSM_EVT_INIT st).
Proof.
  intros [(Hmal & Had & Hsz & Hh) Hfin (n & Hn) (m & Hm & Hd) Hok [p Hp] Himg Hl Hw Hms Hends HP He Hi].
  unfold ms_dispatch. rewrite Hh. unfold ms_pt_evt_handler.
  change ((VSFSM_EVT_INIT =? VSFSM_EVT_ENTER) || (VSFSM_EVT_INIT =? VSFSM_EVT_EXIT)) with false.
  change (VSFSM_EVT_INIT =? VSFSM_EVT_INIT) with true. cbv iota.
  unfold vsf_malstream_read_thread. cbn [ms set_label set_ms pt_state set_progress Z.eqb].
  unfold ask_block_size, the_mal. cbn [ms set_label set_ms ms_mal mw ms_addr set_progress].
  rewrite Hmal, Hm. bindr. rewrite Hd, bd_block_size by done. bindr.
  match goal with |- context [mbuf ?x] => change (mbuf x) with (mbuf st) end.
  rewrite Hms, Z.eqb_refl. cbn [negb]. set (st1 := set_offset _ 0). cbn [ms_size set_progress]. rewrite Hsz.
  assert (Hf : same_config (mw st) (mw st1)).
  { apply (framed_set_mal {[mal]} mal mal m); [done|done|done|set_solver]. }
  assert (Hs : streaming 0 [] st1).
  { split; try done.
    - by exists n.
    - eexists. split; [apply lookup_insert_eq|]. by split.
    - by eapply bd_ok_config.
    - by exists []. }
  eapply outcome_mono; [eapply (read_head_ok _ 0 [] st1 Hs)| | |].
  - done.
  - by exists p.
  - lia.
  - intros _. eapply read_block_ok; [exact Hn|]. by apply (fuel_enough 0).
  - done.
  - done.
  - intros o' st' [|[-> Hsm]]; [by left|right]. split; [done|]. by rewrite Hsm.
Qed.

(** Events that reach the thread as they are. *)
Definition thread_evt (evt : Z) : Prop :=
  evt ≠ VSFSM_EVT_INIT ∧ evt ≠ VSFSM_EVT_ENTER ∧ evt ≠ VSFSM_EVT_EXIT.

Lemma dispatch_thread o out evt st :
  streaming o out st → thread_evt evt →
  ms_dispatch table peer finish evt st = vsf_malstream_read_thread table peer finish evt st.
Proof.
  intros Hs (H1 & H2 & H3). destruct (s_request _ _ _ Hs) as (_ & _ & _ & Hh).
  unfold ms_dispatch, ms_pt_evt_handler. rewrite Hh.
  by rewrite !(proj2 (Z.eqb_neq _ _)).
Qed.

Lemma dispatch_block o out evt : thread_evt evt → block_ok o out (ms_dispatch table peer finish evt).
Proof.
  intros Hevt st Hb. pose proof Hb as (Hs & _ & _ & _ & Hpt & _).
  rewrite (dispatch_thread o out) by done. unfold vsf_malstream_read_thread. rewrite Hpt.
  cbn [Z.eqb READ_BLOCK READ_WFE]. destruct (s_request _ _ _ Hs) as (_ & _ & -> & _).
  destruct (s_blocks _ _ _ Hs) as (n & Hn).
  apply (read_block_ok _ evt o out n); [done| |done]. by apply (fuel_enough o).
Qed.

Lemma dispatch_wait o out st :
  in_wait [VSF_MALSTREAM_ON_INOUT] o out st →
  room_ok o out st (ms_dispatch table peer finish VSF_MALSTREAM_ON_INOUT (set_evts st [])).
Proof.
  intros (Hs & He & Hi & Ho & Hpt & Hp & _).
  assert (Hs1 : streaming o out (set_evts st [])).
  { eapply streaming_same; [exact Hs|..]; try done. apply Hs. }
  rewrite (dispatch_thread o out) by done. unfold vsf_malstream_read_thread.
  change (pt_state (ms (set_evts st []))) with (pt_state (ms st)). rewrite Hpt.
  cbn [Z.eqb READ_WFE VSF_MALSTREAM_ON_INOUT negb].
  change (ms_size (ms (set_evts st []))) with (ms_size (ms st)).
  destruct (s_request _ _ _ Hs) as (_ & _ & -> & _). destruct (s_blocks _ _ _ Hs) as (n & Hn).
  eapply outcome_mono; [apply (read_room_ok _ o out (set_tx_inout (set_evts st []) NULL))| | |].
  - eapply streaming_same; [exact Hs1|..]; try done. apply Hs.
  - done.
  - done.
  - done.
  - apply (read_block_ok _ _ o out n); [done|]. by apply (fuel_enough o).
  - done.
  - done.
  - done.
Qed.

(** *** The run *)

Notation run := (play table peer finish).

Definition completes (chunk : nat → nat) (evts : nat → Z) (running : bool) st (out : list Z) : Prop :=
  ∃ fuel st' o, run fuel chunk evts running st out = Some (st', take o (drop a i0)) ∧
    ended o (take o (drop a i0)) st'.

Definition fair (chunk : nat → nat) (evts : nat → Z) : Prop :=
  (∀ i, 0 < Z.of_nat (chunk i) < 4294967296) ∧ (∀ i, thread_evt (evts i)).

Lemma fair_tail chunk evts : fair chunk evts → fair (λ i, chunk (S i)) (λ i, evts (S i)).
Proof. intros [Hc He]. by split. Qed.

(** One round of the run. *)
Lemma completes_step chunk evts running st out :
  (∃ e es err st', sm_evts (env (io st)) = e :: es ∧
     ms_dispatch table peer finish e (set_evts st es) = Some (err, st') ∧
     completes (λ i, chunk (S i)) (λ i, evts (S i)) (0 <? err) st' out) ∨
  (∃ err st', sm_evts (env (io st)) = [] ∧ running = true ∧ pt_state (ms st) = READ_BLOCK ∧
     ms_dispatch table peer finish (evts 0%nat) st = Some (err, st') ∧
     completes (λ i, chunk (S i)) (λ i, evts (S i)) (0 <? err) st' out) ∨
  (∃ x st', sm_evts (env (io st)) = [] ∧ (running = false ∨ pt_state (ms st) ≠ READ_BLOCK) ∧
     receive peer (chunk 0%nat) st = Some (x, st') ∧ (running = true ∨ x ≠ []) ∧
     completes (λ i, chunk (S i)) (λ i, evts (S i)) running st' (out ++ x)) →
  completes chunk evts running st out.
Proof.
  intros [(e & es & err & st' & He & Hd & fuel & st2 & o & Hrun & Hend)|
    [(err & st' & He & -> & Hpt & Hd & fuel & st2 & o & Hrun & Hend)|
     (x & st' & He & Hr & Hd & Hx & fuel & st2 & o & Hrun & Hend)]];
    exists (S fuel), st2, o; (split; [|done]); cbn [play]; rewrite He.
  - rewrite Hd. by bindr.
  - rewrite Hpt, Z.eqb_refl. cbn [andb]. rewrite Hd. by bindr.
  - assert (running && (pt_state (ms st) =? READ_BLOCK) = false) as ->.
    { destruct Hr as [->|Hr]; [done|]. rewrite (proj2 (Z.eqb_neq _ _) Hr). apply andb_false_r. }
    rewrite Hd. bindr. destruct Hx as [->|Hx]; [done|].
    destruct x; [done|]. cbn [length Nat.eqb]. by rewrite andb_false_r.
Qed.

Lemma completes_ended chunk evts o out st :
  ended o out st → fair chunk evts → completes chunk evts false st out.
Proof.
  intros (Hoff & Hsz & Ho & Hwhy & (He & Hi) & Htx & (l & Hl & Hout) & Hw & Hoth) Hfair.
  remember (length l) as n eqn:Hn. revert l out st chunk evts Hl Hout Hw Hoff Hsz He Hi Htx Hoth Hn Hfair.
  induction n as [n IH] using lt_wf_ind.
  intros l out st chunk evts Hl Hout Hw Hoff Hsz He Hi Htx Hoth -> Hfair.
  destruct (proj1 Hfair 0%nat) as [Hc0 Hc1].
  destruct (receive_ok (chunk 0%nat) st l Hl Hw Hc1) as (m & Hrec & Hm & Hwm & _); [by left|].
  rewrite Htx, He in Hrec. cbn [andb app] in Hrec.
  destruct (decide (l = [])) as [->|Hne].
  - rewrite app_nil_r in Hout. rewrite drop_nil in Hm. rewrite take_nil in Hrec.
    eexists 1%nat, _, o. cbn [play]. rewrite He. cbn [andb]. rewrite Hrec. bindr. cbn [negb length Nat.eqb andb].
    rewrite Hout. split; [done|]. split; [done|]. split; [done|]. split; [done|]. split; [done|].
    split; [done|]. split; [done|]. split; [|done]. exists []. split; [done|]. by rewrite app_nil_r.
  - apply completes_step. right. right. eexists _, _. split; [done|]. split; [by left|].
    split; [exact Hrec|].
    set (k := Nat.min (chunk 0%nat) (length l)) in *. assert (Hk : (0 < k ≤ length l)%nat).
    { destruct l; [done|]. unfold k. cbn [length]. lia. }
    split; [right; intros Hz; apply (f_equal length) in Hz; rewrite length_take in Hz; cbn in Hz; lia|].
    eapply (IH (length (drop k l))); [| |by rewrite <- app_assoc, take_drop|..]; try done.
    + rewrite length_drop. lia.
    + by apply fair_tail.
Qed.

Lemma in_wait_bytes evs o out st :
  in_wait evs o out st → ∃ l, mbuf_rep (smem (io st)) l ∧ out ++ l = take o (drop a i0) ∧
    length l = Z.to_nat (multibuf_stream_get_data_length (smem (io st))) ∧ (evs = [] → l ≠ []).
Proof.
  intros (Hs & _ & _ & _ & _ & _ & Hfull). destruct (s_bytes _ _ _ Hs) as (l & Hl & Hout).
  exists l. split; [done|]. split; [done|]. rewrite (mbuf_data_length _ _ Hl). split; [lia|].
  intros Hev. apply (rep_room _ _ Hl (s_wpos _ _ _ Hs)). specialize (Hfull Hev).
  pose proof Hl as ((_ & _ & _ & _ & _ & _ & Hml & _) & _). unfold room, mbuf in Hfull. lia.
Qed.

(** The receiver makes room, and says so. *)
Lemma wait_receive n o out st :
  in_wait [] o out st → 0 < Z.of_nat n < 4294967296 →
  ∃ x st', receive peer n st = Some (x, st') ∧ in_wait [VSF_MALSTREAM_ON_INOUT] o (out ++ x) st' ∧
    (Z.to_nat (multibuf_stream_get_data_length (smem (io st'))) <
     Z.to_nat (multibuf_stream_get_data_length (smem (io st))))%nat.
Proof.
  intros Hwt [Hn0 Hn1]. destruct (in_wait_bytes _ _ _ _ Hwt) as (l & Hl & Hout & Hlen & Hne).
  specialize (Hne eq_refl). destruct Hwt as (Hs & He & Hi & Ho & Hpt & Hp & _).
  destruct (receive_ok n st l Hl (s_wpos _ _ _ Hs) Hn1) as (m & Hrec & Hm & Hwm & Hmm & _ & _); [by right; left|].
  destruct (s_ends _ _ _ Hs) as (Htx & Hrx).
  set (k := Nat.min n (length l)) in *. assert (Hk : (0 < k ≤ length l)%nat).
  { destruct l; [done|]. unfold k. cbn [length]. lia. }
  rewrite Htx, Hi, He, Z.eqb_refl, (proj2 (Nat.eqb_neq k 0)) in Hrec by lia. cbn [andb negb app] in Hrec.
  eexists _, _. split; [exact Hrec|]. split.
  - split; [|by split_and!]. destruct Hs as [H1 Hf H2 H3 H4 H5 H6 H7 H8 H9 H10 H11].
    split; try done; [|cbn; unfold mbuf; cbn; congruence].
    exists (drop k l). split; [done|]. by rewrite <- app_assoc, take_drop.
  - cbn [io set_io set_env smem set_smem]. rewrite (mbuf_data_length _ _ Hm), <- Hlen, length_drop. lia.
Qed.

(** The run completes from every state at [o]. *)
Definition live (o : nat) : Prop := ∀ out st chunk evts, fair chunk evts →
  (in_block o out st → completes chunk evts true st out) ∧
  (∀ evs, evs = [] ∨ evs = [VSF_MALSTREAM_ON_INOUT] → in_wait evs o out st →
     completes chunk evts true st out).

(** After a dispatch. *)
Lemma completes_outcome chunk evts out (Qe : nat → Prop) (Qb Qw : nat → mstate D R → Prop) r :
  outcome out Qe Qb Qw r → fair chunk evts →
  (∀ o st, in_block o out st → Qb o st → completes chunk evts true st out) →
  (∀ o st, in_wait [] o out st → Qw o st → completes chunk evts true st out) →
  ∃ err st', r = Some (err, st') ∧ completes chunk evts (0 <? err) st' out.
Proof.
  intros (e & st' & -> & Hc) Hfair Hb Hw. exists e, st'. split; [done|].
  destruct Hc as [(-> & o & He & _)|[(He & o & Hin1 & HQ)|(He & o & Hin1 & HQ)]].
  - by eapply completes_ended.
  - rewrite (proj2 (Z.ltb_lt _ _) He). by eapply Hb.
  - rewrite (proj2 (Z.ltb_lt _ _) He). by eapply Hw.
Qed.

Lemma live_block o :
  (∀ o', (o < o')%nat → (o' ≤ size)%nat → live o') → ∀ out st chunk evts,
  fair chunk evts → in_block o out st → completes chunk evts true st out.
Proof.
  intros IH out st chunk evts. remember (brank st) as r eqn:Hr.
  revert st chunk evts Hr. induction r as [r IHr] using lt_wf_ind. intros st chunk evts -> Hfair Hb.
  pose proof Hb as (_ & (He & _) & _ & _ & Hpt & _).
  apply completes_step. right. left.
  destruct (completes_outcome (λ i, chunk (S i)) (λ i, evts (S i)) out _ _ _ _
    (dispatch_block o out (evts 0%nat) (proj2 Hfair 0%nat) st Hb)) as (err & st' & Hd & Hcomp).
  - by apply fair_tail.
  - intros o' st' Hb' [Hlt|[-> Hrk]]; pose proof Hb' as (_ & _ & _ & Ho' & _).
    + refine (proj1 (IH o' _ _ _ _ _ _ (fair_tail _ _ Hfair)) Hb'); lia.
    + by eapply IHr; [exact Hrk|done|apply fair_tail|].
  - intros o' st' Hw' Hlt. pose proof Hw' as (_ & _ & _ & Ho' & _).
    refine (proj2 (IH o' _ _ _ _ _ _ (fair_tail _ _ Hfair)) [] _ Hw'); [lia|lia|by left].
  - by exists err, st'.
Qed.

Lemma live_wait o :
  (∀ o', (o < o')%nat → (o' ≤ size)%nat → live o') → ∀ evs out st chunk evts,
  fair chunk evts → evs = [] ∨ evs = [VSF_MALSTREAM_ON_INOUT] → in_wait evs o out st →
  completes chunk evts true st out.
Proof.
  intros IH evs out st chunk evts.
  remember (2 * Z.to_nat (multibuf_stream_get_data_length (smem (io st))) + length evs)%nat as n eqn:Hn.
  revert evs out st chunk evts Hn. induction n as [n IHn] using lt_wf_ind.
  intros evs out st chunk evts -> Hfair Hevs Hw.
  pose proof Hw as (_ & He & _ & Ho & Hpt & _). apply completes_step. destruct Hevs as [->| ->].
  - right. right. destruct (wait_receive (chunk 0%nat) o out st Hw (proj1 Hfair 0%nat))
      as (x & st' & Hrec & Hw' & Hlt).
    exists x, st'. split; [done|]. split; [right; by rewrite Hpt|]. split; [done|]. split; [by left|].
    eapply IHn; [|done|by apply fair_tail|by right|done]. cbn [length]. lia.
  - left. destruct (completes_outcome (λ i, chunk (S i)) (λ i, evts (S i)) out _ _ _ _
      (dispatch_wait o out st Hw)) as (err & st' & Hd & Hcomp).
    + by apply fair_tail.
    + intros o' st' Hb' Hle. pose proof Hb' as (_ & _ & _ & Ho' & _).
      destruct (decide (o' = o)) as [->|]; [by apply (live_block o); [..|apply fair_tail|]|].
      refine (proj1 (IH o' _ _ _ _ _ _ (fair_tail _ _ Hfair)) Hb'); lia.
    + intros o' st' Hw' [Hlt|[-> Hsm]].
      * pose proof Hw' as (_ & _ & _ & Ho' & _).
        refine (proj2 (IH o' _ _ _ _ _ _ (fair_tail _ _ Hfair)) [] _ Hw'); [lia|lia|by left].
      * eapply IHn; [|done|by apply fair_tail|by left|exact Hw']. rewrite Hsm. cbn [length]. lia.
    + by exists VSF_MALSTREAM_ON_INOUT, [], err, st'.
Qed.

Lemma live_all o : live o.
Proof.
  remember (size - o)%nat as n eqn:Hn. revert o Hn. induction n as [n IH] using lt_wf_ind. intros o ->.
  assert (Hlater : ∀ o', (o < o')%nat → (o' ≤ size)%nat → live o') by (intros o' ??; eapply IH; [|done]; lia).
  intros out st chunk evts Hfair. split; [by apply live_block|]. intros evs. by apply live_wait.
Qed.

Lemma run_completes st chunk evts :
  starting [VSFSM_EVT_INIT] st → fair chunk evts → completes chunk evts true st [].
Proof.
  intros Hst Hfair. apply completes_step. left.
  assert (Hst0 : starting [] (set_evts st [])) by (destruct Hst; by split).
  destruct (completes_outcome (λ i, chunk (S i)) (λ i, evts (S i)) [] _ _ _ _ (dispatch_start _ Hst0))
    as (err & st' & Hd & Hcomp).
  - by apply fair_tail.
  - intros o st' Hb _. exact (proj1 (live_all o _ _ _ _ (fair_tail _ _ Hfair)) Hb).
  - intros o st' Hw _. refine (proj2 (live_all o _ _ _ _ (fair_tail _ _ Hfair)) [] _ Hw). by left.
  - exists VSFSM_EVT_INIT, [], err, st'. split; [apply Hst|done].
Qed.

(** *** The request *)

(** A malstream that can be asked to read the range: the stream is fresh, and
    its other end does not call into the malstream. *)
Record readable st : Prop := {
  d_mal : ms_mal (ms st) = mal ∧ ∃ m, mals (mw st) !! mal = Some m ∧ drv m = d;
  d_fin : on_finish (ms st) = fin;
  d_blocks : ∃ n, (n * bd_block = size)%nat;
  d_ok : bd_ok (mw st);
  d_pt : is_Some (pts (mw st) !! mal);
  d_image : bd_image (dev (mw st)) = i0;
  d_bytes : mbuf_rep (smem (io st)) [];
  d_wpos : wpos (smem (io st)) = 0;
  d_size : msize (mbuf st) = Z.of_nat bd_block;
  d_ends : tx_ready (io st) = false ∧
    Stream.on_inout (callback_rx (io st)) ≠ MALSTREAM_ON_INOUT_FN ∧
    on_connect (callback_rx (io st)) ≠ MALSTREAM_ON_INOUT_FN ∧
    on_disconnect (callback_rx (io st)) ≠ MALSTREAM_ON_INOUT_FN;
  d_others : P (others (env (io st)));
  d_evts : sm_evts (env (io st)) = [] }.

Lemma vsf_malstream_read_ok self st :
  readable st →
  ∃ st', vsf_malstream_read peer self (Z.of_nat a) (Z.of_nat size) st = Some (VSFERR_NONE, st') ∧
    starting [VSFSM_EVT_INIT] st'.
Proof.
  intros [(Hmal & Hm) Hfin Hn Hok Hp Himg Hl Hw Hms (Htx & H1 & H2 & H3) HP He].
  unfold vsf_malstream_read, stream_connect_tx. cbn [tx_ready set_callbacks io set_ms callback_rx].
  rewrite Htx. destruct (quiet_call true (on_connect (callback_rx (io st))) (callback_rx (io st))
    (set_callbacks (io st) {| cb_param := self; Stream.on_inout := NULL; on_connect := NULL;
      on_disconnect := NULL |} (callback_rx (io st))) H2 HP) as (r & -> & HPr). bindr.
  unfold call_if. cbn [callback_tx set_callbacks set_env on_connect negb]. change (negb (NULL =? NULL)) with false.
  rewrite andb_false_r. bindr. eexists. split; [done|].
  split; try done. cbn. by rewrite He.
Qed.

(** C15: reading a range of a memory through a malstream, with a driver that
    keeps its promise and callbacks that leave the stream alone, when every event
    that is posted is dispatched before the receiver takes more bytes ([play];
    with two takes before a dispatch the thread reads past its range,
    [stale_wakeup_reads_on]).  Whatever the sizes in which the receiver takes the
    bytes and whatever events make the driver go on, the run comes to an end: the receiver has got the bytes of
    the range in order, all of them, or, when the driver fails at some block,
    those before it; the sender has disconnected, [on_finish] was called
    exactly once and then, and no event is left behind.  No wake-up is lost: a
    thread that waits for room is woken by the next byte taken. *)
Theorem malstream_read_streams self st chunk evts :
  readable st → fair chunk evts →
  ∃ st1, vsf_malstream_read peer self (Z.of_nat a) (Z.of_nat size) st = Some (VSFERR_NONE, st1) ∧
  ∃ fuel st2 o, run fuel chunk evts true st1 [] = Some (st2, take o (drop a i0)) ∧
    ended o (take o (drop a i0)) st2.
Proof.
  intros Hr Hfair. destruct (vsf_malstream_read_ok self st Hr) as (st1 & Hreq & Hst).
  exists st1. split; [done|]. by apply run_completes.
Qed.
End reading.

(** ** Witnesses *)

(** A malstream on the memory [mal], one buffer of two bytes, with a log of the
    calls of the other end's callbacks and of [on_finish] (0x77). *)
Definition demo_peer (f p : Z) (s : mstream (list (Z * Z))) : option (mstream (list (Z * Z))) :=
  Some (set_env s {| sm_evts := sm_evts (env s);
    others := if f =? 0x77 then others (env s) else others (env s) ++ [(f, p)] |}).

Definition demo_finish (f p : Z) (m : vsf_malstream_t) (r : list (Z * Z)) : list (Z * Z) :=
  r ++ [(f, ms_offset m)].

Definition demo_malstream (mal : Z) : mstate (nat → Z) (list (Z * Z)) := {|
  ms := {| ms_mal := mal; on_finish := 0x77; finish_param := 0; ms_offset := 9; mal_ready := true;
           ms_addr := 0; ms_size := 0; ms_handler := InitHandler; pt_state := 0 |};
  io := {| callback_tx := {| cb_param := 0; Stream.on_inout := 0; on_connect := 0; on_disconnect := 0 |};
           callback_rx := {| cb_param := 8; Stream.on_inout := 0x21; on_connect := 0x22; on_disconnect := 0x23 |};
           tx_ready := false; rx_ready := true; overflow := false;
           smem := {| multibuf := {| msize := 2; buffer_list := [[0; 0]]; count := 1; mhead := 0;
                                     mtail := 0; mlength := 0 |}; rpos := 0; wpos := 0 |};
           env := {| sm_evts := []; others := [] |} |};
  mw := demo_world 5 |}.

Definition unfinished (r : list (Z * Z)) : Prop := Forall (λ c, c.1 ≠ 0x77) r.

(** Six bytes from 2, taken one by one: the block at 6 is bad. *)
Lemma malstream_read_streams_witness :
  ∃ st1 fuel st2 o, vsf_malstream_read demo_peer 0x500 2 6 (demo_malstream 10) = Some (VSFERR_NONE, st1) ∧
    play demo_table demo_peer demo_finish fuel (λ _, 1%nat) (λ _, 0x20) true st1 []
      = Some (st2, take o [12; 13; 14; 15; 16; 17]) ∧
    tx_ready (io st2) = false ∧ ms_offset (ms st2) = Z.of_nat o.
Proof.
  destruct (malstream_read_streams demo_table 2 10 demo_peer demo_finish
    (λ f p r, if f =? 0x77 then r else r ++ [(f, p)]) unfinished) with
    (fin := 0x77) (a := 2%nat) (size := 6%nat) (i0 := [10; 11; 12; 13; 14; 15; 16; 17]) (self := 0x500)
    (st := demo_malstream 10) (chunk := λ _ : nat, 1%nat) (evts := λ _ : nat, 0x20)
    as (st1 & H1 & fuel & st2 & o & H2 & H3).
  - reflexivity.
  - intros f p r Hr. destruct (Z.eqb_spec f 0x77); [exact Hr|].
    apply Forall_app. split; [exact Hr|]. by apply Forall_singleton.
  - simpl. lia.
  - simpl. lia.
  - split; try reflexivity.
    + split; [reflexivity|]. by exists (demo_mal 2).
    + by exists 3%nat.
    + by eexists.
    + split; [|split; [done|]].
      * unfold mbuf_wf, mbytes; simpl. split_and!; try done; try lia.
        intros b [->|[]%not_elem_of_nil]%elem_of_cons; done.
      * intros i Hi. simpl in Hi. lia.
    + by split_and!.
    + by constructor.
  - split; intros i; [simpl; lia|by split_and!].
  - exists st1, fuel, st2, o. split; [exact H1|]. split; [exact H2|].
    split; [exact (proj1 (proj2 (proj2 (proj2 (proj2 (proj2 H3))))))|exact (proj1 H3)].
Defined.

(** What happens in that run: four bytes, and one call of [on_finish]. *)
Example demo_run :
  ('(_, st) ← vsf_malstream_read demo_peer 0x500 2 6 (demo_malstream 10);
   '(st, out) ← play demo_table demo_peer demo_finish 40 (λ _, 1%nat) (λ _, 0x20) true st [];
   Some (out, others (env (io st)))) =
  Some ([12; 13; 14; 15], [(0x22, 8); (0x21, 8); (0x21, 8); (0x23, 8); (0x77, 4)]).
Proof. vm_compute. reflexivity. Qed.

(** Two bytes of the range 0..3 taken one by one before the state machine is
    dispatched post two wake-ups.  The first lets the thread finish; the second
    resumes it at its last label, where it reads a block past the range, after
    which [on_finish] is called again. *)
Example stale_wakeup_reads_on :
  let dispatch st := match sm_evts (env (io st)) with
    | e :: es => ms_dispatch demo_table demo_peer demo_finish e (set_evts st es)
    | [] => None
    end in
  ('(_, st) ← vsf_malstream_read demo_peer 0x500 0 4 (demo_malstream 20);
   '(_, st) ← dispatch st;
   '(x1, st) ← receive demo_peer 1 st; '(x2, st) ← receive demo_peer 1 st;
   '(_, st) ← dispatch st;
   '(x3, st) ← receive demo_peer 2 st;
   let finished := ms_offset (ms st) in
   '(_, st) ← dispatch st;
   Some (x1 ++ x2 ++ x3, finished, ms_offset (ms st), others (env (io st)))) =
  Some ([10; 11; 12; 13], 4, 6,
    [(0x22, 8); (0x21, 8); (0x21, 8); (0x23, 8); (0x77, 4); (0x21, 8); (0x77, 6)]).
Proof. vm_compute. reflexivity. Qed.
