(* ===== verification/Vsfscsi.v ===== *)
(** * Vsfscsi: a SCSI target on a memory (vsfscsi.c)

    [vsf_mal2scsi_execute] decodes one command block for a logical unit.
    Short answers are built in the stream's first buffer and handed out through
    a buffer stream; reads and writes start the malstream on the same stream,
    now a multi-buffer stream.  What goes wrong is told by the sense data,
    which REQUEST SENSE returns. *)

From S2P Require Import Prelude Chain Fifo Multibuf Stream Endian Vsfmal Malstream.

(** ** Constants (vsfscsi.h) *)

Definition SCSI_SENSEKEY_NO_SENSE : Z := 0.
Definition SCSI_SENSEKEY_NOT_READY : Z := 2.
Definition SCSI_SENSEKEY_ILLEGAL_REQUEST : Z := 5.
Definition SCSI_ASC_NONE : Z := 0x00.
Definition SCSI_ASC_INVALID_COMMAND : Z := 0x20.
Definition SCSI_ASC_INVALID_FIELD_IN_COMMAND : Z := 0x24.

Definition SCSI_GROUPCODE6 : Z := 0x00.
Definition SCSI_GROUPCODE10_1 : Z := 0x20.
Definition SCSI_GROUPCODE10_2 : Z := 0x40.
Definition SCSI_GROUPCODE16 : Z := 0x80.
Definition SCSI_GROUPCODE12 : Z := 0xA0.

Definition SCSI_CMDCODE_TEST_UNIT_READY : Z := 0x00.
Definition SCSI_CMDCODE_REQUEST_SENSE : Z := 0x03.
Definition SCSI_CMDCODE_READ_FORMAT_CAPACITIES : Z := 0x03.
Definition SCSI_CMDCODE_FORMAT_UNIT : Z := 0x04.
Definition SCSI_CMDCODE_READ_CAPACITY : Z := 0x05.
Definition SCSI_CMDCODE_READ : Z := 0x08.
Definition SCSI_CMDCODE_WRITE : Z := 0x0A.
Definition SCSI_CMDCODE_VERIFY : Z := 0x0F.
Definition SCSI_CMDCODE_INQUIRY : Z := 0x12.
Definition SCSI_CMDCODE_MODE_SELECT : Z := 0x15.
Definition SCSI_CMDCODE_MODE_SENSE : Z := 0x1A.
Definition SCSI_CMDCODE_START_STOP_UNIT : Z := 0x1B.
Definition SCSI_CMDCODE_ALLOW_MEDIUM_REMOVAL : Z := 0x1E.

(** ** State *)

(** [struct vsfscsi_transact_t]; [tr_lun] is a pointer, NULL for none. *)
Record vsfscsi_transact_t := { LBA : Z; data_size : Z; tr_err : Z; tr_lun : Z }.

(** What the malstream's environment keeps for the unit: the device's
    transaction, and the rest of the program. *)
Record scsi_env (T : Type) := { transact : vsfscsi_transact_t; rest : T }.
Arguments transact {T}. Arguments rest {T}.

(** The union of [struct vsf_scsistream_t] together with [stream.op]: the two
    are always set together. *)
Inductive scsi_mem :=
  | Bufstream (m : vsf_bufstream_mem_t)
  | Mbufstream (m : vsf_mbufstream_mem_t).

Notation scsistream T := (vsf_stream_t scsi_mem (menv (scsi_env T))).

(** [struct vsf_mal2scsi_cparam_t]. *)
Record vsf_mal2scsi_cparam_t := {
  cp_block_size : Z; cp_removable : bool; cp_vendor : list Z; cp_product : list Z;
  cp_revision : list Z; cp_type : Z }.

(** A logical unit ([struct vsfscsi_lun_t] with its [vsf_mal2scsi_t], its
    stream and the memories): [sense] and [asc] are the unit's private fields,
    [ms] the malstream, [sio] the stream with the transaction in its
    environment, and [smbuf] the multi-buffer description in the stream, no
    buffer standing for a NULL first buffer.  What the buffers hold between
    transactions is never looked at and not kept. *)
Record lun_t (D T : Type) := {
  sense : Z; asc : Z; lms : vsf_malstream_t; sio : scsistream T; smbuf : vsf_multibuf_t;
  smw : mworld D }.
Arguments sense {D T}. Arguments asc {D T}. Arguments lms {D T}. Arguments sio {D T}.
Arguments smbuf {D T}. Arguments smw {D T}.

Section lun.
Context {D T : Type}.
Implicit Types (u : lun_t D T) (s : scsistream T).

Definition set_sense u (k c : Z) : lun_t D T :=
  {| sense := k; asc := c; lms := lms u; sio := sio u; smbuf := smbuf u; smw := smw u |}.
Definition set_sio u s : lun_t D T :=
  {| sense := sense u; asc := asc u; lms := lms u; sio := s; smbuf := smbuf u; smw := smw u |}.
Definition set_lms u (m : vsf_malstream_t) : lun_t D T :=
  {| sense := sense u; asc := asc u; lms := m; sio := sio u; smbuf := smbuf u; smw := smw u |}.

Definition get_transact s : vsfscsi_transact_t := transact (others (env s)).
Definition put_transact s (t : vsfscsi_transact_t) : scsistream T :=
  set_env s {| sm_evts := sm_evts (env s);
    others := {| transact := t; rest := rest (others (env s)) |} |}.
Definition set_transact u (t : vsfscsi_transact_t) : lun_t D T := set_sio u (put_transact (sio u) t).
End lun.

Definition set_LBA (t : vsfscsi_transact_t) (x : Z) : vsfscsi_transact_t :=
  {| LBA := x; data_size := data_size t; tr_err := tr_err t; tr_lun := tr_lun t |}.
Definition set_data_size (t : vsfscsi_transact_t) (x : Z) : vsfscsi_transact_t :=
  {| LBA := LBA t; data_size := x; tr_err := tr_err t; tr_lun := tr_lun t |}.
Definition set_tr_err (t : vsfscsi_transact_t) (x : Z) : vsfscsi_transact_t :=
  {| LBA := LBA t; data_size := data_size t; tr_err := x; tr_lun := tr_lun t |}.
Definition set_tr_lun (t : vsfscsi_transact_t) (x : Z) : vsfscsi_transact_t :=
  {| LBA := LBA t; data_size := data_size t; tr_err := tr_err t; tr_lun := x |}.

Definition vsfscsi_release_transact (t : vsfscsi_transact_t) : vsfscsi_transact_t := set_tr_lun t NULL.
Definition vsfscsi_cancel_transact (t : vsfscsi_transact_t) : vsfscsi_transact_t :=
  vsfscsi_release_transact t.

(** ** The stream as either of its kinds *)

Definition with_mem {S S' E} (s : vsf_stream_t S E) (m : S') : vsf_stream_t S' E :=
  {| callback_tx := callback_tx s; callback_rx := callback_rx s; tx_ready := tx_ready s;
     rx_ready := rx_ready s; overflow := overflow s; smem := m; env := env s |}.

Definition as_mbufstream {E} (s : vsf_stream_t scsi_mem E) : option (vsf_stream_t vsf_mbufstream_mem_t E) :=
  match smem s with Mbufstream m => Some (with_mem s m) | Bufstream _ => None end.
Definition of_mbufstream {E} (s : vsf_stream_t vsf_mbufstream_mem_t E) : vsf_stream_t scsi_mem E :=
  with_mem s (Mbufstream (smem s)).

(** [STREAM_INIT], through the operations just set. *)
Definition scsistream_init {E} (s : vsf_stream_t scsi_mem E) : vsf_stream_t scsi_mem E :=
  match smem s with
  | Bufstream m =>
      let s := snd (stream_init bufstream_op (with_mem s m)) in with_mem s (Bufstream (smem s))
  | Mbufstream m => of_mbufstream (snd (stream_init mbufstream_op (with_mem s m)))
  end.

(** [stream_connect_tx] does not look at the memory. *)
Definition set_tx_cb {S E} (s : vsf_stream_t S E) (cb : vsf_stream_cb_t) : vsf_stream_t S E :=
  {| callback_tx := cb; callback_rx := callback_rx s; tx_ready := tx_ready s; rx_ready := rx_ready s;
     overflow := overflow s; smem := smem s; env := env s |}.

(** ** Devices *)

Section device.
Context {L W : Type}.

(** The units' private fields and [op], the address of their operations, with
    what the operations work on. *)
Record vsfscsi_lun_t := { l_op : Z; l_sense : Z; l_asc : Z; l_dev : Z; l_param : L }.

(** [op->init] and [op->execute]; [None] is NULL. *)
Context (op_init : Z → option (vsfscsi_lun_t → W → option (vsfscsi_lun_t * W))).
Context (op_execute : Z → option (vsfscsi_lun_t → list Z → Z → Z → W → option (Z * W))).

(** The loop over the first [n] units. *)
Fixpoint vsfscsi_init_loop (n : nat) (dev : Z) (luns : list vsfscsi_lun_t) (w : W)
    : option (list vsfscsi_lun_t * W) :=
  match n with
  | O => Some (luns, w)
  | S n =>
      match luns with
      | [] => None
      | l :: luns =>
          let l := {| l_op := l_op l; l_sense := SCSI_SENSEKEY_NO_SENSE; l_asc := SCSI_ASC_NONE;
                      l_dev := dev; l_param := l_param l |} in
          '(l, w) ← match op_init (l_op l) with Some f => f l w | None => Some (l, w) end;
          '(luns, w) ← vsfscsi_init_loop n dev luns w;
          Some (l :: luns, w)
      end
  end.

Definition vsfscsi_init (dev max_lun : Z) (luns : list vsfscsi_lun_t) (w : W)
    : option (Z * list vsfscsi_lun_t * W) :=
  '(luns, w) ← vsfscsi_init_loop (Z.to_nat (max_lun + 1)) dev luns w;
  Some (VSFERR_NONE, luns, w).

Definition vsfscsi_execute (l : vsfscsi_lun_t) (CDB : list Z) (CDB_size size : Z) (w : W)
    : option (Z * W) :=
  match op_execute (l_op l) with
  | Some f => f l CDB CDB_size size w
  | None => Some (VSFERR_FAIL, w)
  end.
End device.

(** ** mal2scsi *)

(** [vsfscsi_get_handler]: opcodes with the addresses of their handlers, ended
    by a NULL handler; a table without end is read past its end. *)
Fixpoint vsfscsi_get_handler (handlers : list (Z * Z)) (opcode : Z) : option Z :=
  match handlers with
  | [] => None
  | (op, h) :: handlers =>
      if h =? NULL then Some NULL
      else if op =? opcode then Some h
      else vsfscsi_get_handler handlers opcode
  end.

(** The address of [vsf_mal2scsi_mal_finish]. *)
Definition MAL_FINISH_FN : Z := 0x1100.

(** How a command block leaves the [switch]. *)
Inductive verdict := Accepted | InvalidCommand | InvalidField | NotReady.

#[export] Instance verdict_eq_dec : EqDecision verdict.
Proof. solve_decision. Defined.

Section mal2scsi.
Context {D T : Type}.
Implicit Types (u : lun_t D T) (s : scsistream T).

(** The addresses of the unit, of its malstream and of the transaction. *)
Context (lun malstream transact_p : Z).
Context (peer : Z → Z → scsistream T → option (scsistream T)).
Context (cparam : vsf_mal2scsi_cparam_t).
(** The vendor's table, [None] for NULL, and a call of one of its handlers. *)
Context (vendor_handlers : option (list (Z * Z))).
Context (call_handler : Z → lun_t D T → list Z → option (Z * lun_t D T)).

(** [None] when the first buffer is NULL; [memset] past the buffer is undefined.
    The buffer stream is given the first [size] bytes of the buffer. *)
Definition vsf_mal2scsi_prepare_transact u (size : Z) (write bufstream : bool)
    : option (option (lun_t D T)) :=
  match buffer_list (smbuf u) !! 0%nat with
  | None => Some None
  | Some buffer =>
      s ← (if bufstream then
             b ← memcpy buffer 0 (replicate (Z.to_nat size) 0);
             let s := with_mem (sio u) (Bufstream {|
               bbuf := {| Fifo.buffer := take (Z.to_nat size) b; Fifo.size := size |};
               bread := true; pos := 0 |}) in
             Some (scsistream_init (set_tx_cb s {| cb_param := transact_p; Stream.on_inout := NULL;
               on_connect := NULL; on_disconnect := NULL |}))
           else
             Some (scsistream_init (with_mem (sio u)
               (Mbufstream {| multibuf := smbuf u; rpos := 0; wpos := 0 |}))));
      Some (Some (set_transact (set_sio u s) {|
        LBA := LBA (get_transact s); data_size := size; tr_err := VSFERR_NONE; tr_lun := lun |}))
  end.

(** The answer is written to the buffer the stream was set up on. *)
Definition write_pbuf u (f : list Z → option (list Z)) : option (lun_t D T) :=
  match smem (sio u) with
  | Bufstream m =>
      b ← f (Fifo.buffer (bbuf m));
      Some (set_sio u (set_smem (sio u) (Bufstream {|
        bbuf := {| Fifo.buffer := b; Fifo.size := Fifo.size (bbuf m) |}; bread := bread m; pos := pos m |})))
  | Mbufstream _ => None
  end.

Definition vsf_mal2scsi_mal_finish (m : vsf_malstream_t) (e : scsi_env T) : scsi_env T :=
  if ms_offset m <? ms_size m
  then {| transact := set_tr_err (transact e) VSFERR_FAIL; rest := rest e |} else e.

(** [cb.on_finish] of the malstream. *)
Definition scsi_finish (f p : Z) (m : vsf_malstream_t) (e : scsi_env T) : scsi_env T :=
  if f =? MAL_FINISH_FN then vsf_mal2scsi_mal_finish m e else e.

(** The other end's callbacks on the stream as a multi-buffer stream. *)
Definition mpeer (f p : Z) (s : mstream (scsi_env T)) : option (mstream (scsi_env T)) :=
  s ← peer f p (of_mbufstream s);
  as_mbufstream s.

(** The unit as its malstream sees it, and back. *)
Definition malstream_of u : option (mstate D (scsi_env T)) :=
  s ← as_mbufstream (sio u);
  Some {| ms := lms u; io := s; mw := smw u |}.
Definition put_malstream u (st : mstate D (scsi_env T)) : lun_t D T :=
  {| sense := sense u; asc := asc u; lms := ms st; sio := of_mbufstream (io st);
     smbuf := smbuf u; smw := mw st |}.

(** [mal->cap]. *)
Definition scsi_cap u : option vsfmal_capacity_t := cap <$> mals (smw u) !! ms_mal (lms u).

(** *** Short answers *)

(** A command that answers with [size] bytes built by [fill]; [done] is what
    follows. *)
Definition answer u (size : Z) (fill : list Z → option (list Z)) : option (verdict * lun_t D T) :=
  r ← vsf_mal2scsi_prepare_transact u size false true;
  match r with
  | None => Some (NotReady, u)
  | Some u => u ← write_pbuf u fill; Some (Accepted, u)
  end.

Definition sense_data (key code : Z) (p : list Z) : option (list Z) :=
  p ← setb p 0 0x70; p ← setb p 2 (u8 key); p ← setb p 7 0x0A; setb p 12 (u8 code).

Definition scsi_request_sense (CDB : list Z) u : option (verdict * lun_t D T) :=
  '(v, u) ← answer u 18 (sense_data (sense u) (asc u));
  match v with
  | Accepted =>
      c ← getb CDB 4;
      Some (v, set_transact u (set_data_size (get_transact (sio u)) (Z.min c 18)))
  | _ => Some (v, u)
  end.

Definition inquiry_data (p : list Z) : option (list Z) :=
  p ← setb p 0 (u8 (cp_type cparam));
  p ← (if cp_removable cparam then setb p 1 0x80 else Some p);
  p ← setb p 3 2;
  p ← setb p 4 31;
  p ← memcpy p 8 (cp_vendor cparam);
  p ← memcpy p 16 (cp_product cparam);
  memcpy p 32 (cp_revision cparam).

Definition scsi_inquiry (CDB : list Z) u : option (verdict * lun_t D T) :=
  c1 ← getb CDB 1; c2 ← getb CDB 2;
  if negb (Z.land c1 1 =? 0) then
    if negb (c2 =? 0) then Some (InvalidField, u) else answer u 5 Some
  else if negb (c2 =? 0) then Some (InvalidField, u)
  else answer u 36 inquiry_data.

Definition scsi_mode_sense u : option (verdict * lun_t D T) := answer u 4 (λ p, setb p 0 3).

(** [SET_BE_U32(&p[i], v)]. *)
Definition put_be_u32 (p : list Z) (i : nat) (v : Z) : option (list Z) :=
  q ← SET_U32_MSBFIRST (drop i p) (u32 v); Some (take i p ++ q).

Definition scsi_read_format_capacities u : option (verdict * lun_t D T) :=
  c ← scsi_cap u;
  answer u 12 (λ p,
    p ← setb p 3 8;
    p ← put_be_u32 p 4 (block_num c);
    p ← put_be_u32 p 8 (block_size c);
    setb p 8 2).

Definition scsi_read_capacity u : option (verdict * lun_t D T) :=
  c ← scsi_cap u;
  answer u 8 (λ p,
    p ← put_be_u32 p 0 (block_num c - 1);
    put_be_u32 p 4 (block_size c)).

(** *** Transfers *)

(** [do_mal_read] and [do_mal_write], with the block address and the number of
    blocks taken from the command. *)
Definition do_mal (write : bool) (lba count : Z) u : option (verdict * lun_t D T) :=
  c ← scsi_cap u;
  let t := set_data_size (set_LBA (get_transact (sio u)) (u64 (lba * block_size c)))
             (u32 (count * block_size c)) in
  let u := set_transact u t in
  r ← vsf_mal2scsi_prepare_transact u (data_size t) write false;
  match r with
  | None => Some (NotReady, u)
  | Some u =>
      st ← malstream_of u;
      let t := get_transact (sio u) in
      '(_, st) ← (if write then vsf_malstream_write mpeer malstream (LBA t) (data_size t) st
                  else vsf_malstream_read mpeer malstream (LBA t) (data_size t) st);
      Some (Accepted, put_malstream u st)
  end.

(** The fields of the four kinds of transfer commands. *)
Definition rw6 (write : bool) (CDB : list Z) u : option (verdict * lun_t D T) :=
  lba ← GET_U16_MSBFIRST (drop 2 CDB); n ← getb CDB 4; do_mal write lba n u.
Definition rw10 (write : bool) (CDB : list Z) u : option (verdict * lun_t D T) :=
  lba ← GET_U32_MSBFIRST (drop 2 CDB); n ← GET_U16_MSBFIRST (drop 7 CDB); do_mal write lba n u.
Definition rw16 (write : bool) (CDB : list Z) u : option (verdict * lun_t D T) :=
  lba ← GET_U64_MSBFIRST (drop 2 CDB); n ← GET_U32_MSBFIRST (drop 10 CDB); do_mal write lba n u.
Definition rw12 (write : bool) (CDB : list Z) u : option (verdict * lun_t D T) :=
  lba ← GET_U32_MSBFIRST (drop 2 CDB); n ← GET_U32_MSBFIRST (drop 6 CDB); do_mal write lba n u.

(** *** The [switch] *)

Definition scsi_group6 (cmd : Z) (CDB : list Z) u : option (verdict * lun_t D T) :=
  if bool_decide (cmd ∈ [SCSI_CMDCODE_MODE_SELECT; SCSI_CMDCODE_TEST_UNIT_READY; SCSI_CMDCODE_VERIFY;
       SCSI_CMDCODE_FORMAT_UNIT; SCSI_CMDCODE_START_STOP_UNIT; SCSI_CMDCODE_ALLOW_MEDIUM_REMOVAL])
  then Some (Accepted, u)
  else if cmd =? SCSI_CMDCODE_REQUEST_SENSE then scsi_request_sense CDB u
  else if cmd =? SCSI_CMDCODE_READ then rw6 false CDB u
  else if cmd =? SCSI_CMDCODE_WRITE then rw6 true CDB u
  else if cmd =? SCSI_CMDCODE_INQUIRY then scsi_inquiry CDB u
  else if cmd =? SCSI_CMDCODE_MODE_SENSE then scsi_mode_sense u
  else Some (InvalidCommand, u).

Definition scsi_group10_1 (cmd : Z) (CDB : list Z) u : option (verdict * lun_t D T) :=
  if cmd =? SCSI_CMDCODE_READ_FORMAT_CAPACITIES then scsi_read_format_capacities u
  else if cmd =? SCSI_CMDCODE_READ_CAPACITY then scsi_read_capacity u
  else if cmd =? SCSI_CMDCODE_READ then rw10 false CDB u
  else if cmd =? SCSI_CMDCODE_WRITE then rw10 true CDB u
  else Some (InvalidCommand, u).

Definition scsi_group10_2 (cmd : Z) u : option (verdict * lun_t D T) :=
  if (cmd =? SCSI_CMDCODE_MODE_SELECT) || (cmd =? SCSI_CMDCODE_MODE_SENSE) then Some (Accepted, u)
  else Some (InvalidCommand, u).

Definition scsi_group16 (cmd : Z) (CDB : list Z) u : option (verdict * lun_t D T) :=
  if cmd =? SCSI_CMDCODE_READ then rw16 false CDB u
  else if cmd =? SCSI_CMDCODE_WRITE then rw16 true CDB u
  else Some (InvalidCommand, u).

Definition scsi_group12 (cmd : Z) (CDB : list Z) u : option (verdict * lun_t D T) :=
  if cmd =? SCSI_CMDCODE_READ then rw12 false CDB u
  else if cmd =? SCSI_CMDCODE_WRITE then rw12 true CDB u
  else Some (InvalidCommand, u).

Definition scsi_command (CDB : list Z) u : option (verdict * lun_t D T) :=
  op ← getb CDB 0;
  let group_code := Z.land op 0xE0 in
  let cmd_code := Z.land op 0x1F in
  if group_code =? SCSI_GROUPCODE6 then scsi_group6 cmd_code CDB u
  else if group_code =? SCSI_GROUPCODE10_1 then scsi_group10_1 cmd_code CDB u
  else if group_code =? SCSI_GROUPCODE10_2 then scsi_group10_2 cmd_code u
  else if group_code =? SCSI_GROUPCODE16 then scsi_group16 cmd_code CDB u
  else if group_code =? SCSI_GROUPCODE12 then scsi_group12 cmd_code CDB u
  else Some (InvalidCommand, u).

(** After the [switch]. *)
Definition scsi_exit (v : verdict) u : option (Z * lun_t D T) :=
  match v with
  | Accepted =>
      let u := set_sense u SCSI_SENSEKEY_NO_SENSE SCSI_ASC_NONE in
      match tr_lun (get_transact (sio u)) =? NULL, smem (sio u) with
      | false, Bufstream _ =>
          s ← stream_connect_tx (ms_invoke peer) (sio u);
          Some (VSFERR_NONE, set_sio u s)
      | _, _ => Some (VSFERR_NONE, u)
      end
  | InvalidCommand => Some (VSFERR_FAIL, set_sense u SCSI_SENSEKEY_ILLEGAL_REQUEST SCSI_ASC_INVALID_COMMAND)
  | InvalidField =>
      Some (VSFERR_FAIL, set_sense u SCSI_SENSEKEY_ILLEGAL_REQUEST SCSI_ASC_INVALID_FIELD_IN_COMMAND)
  | NotReady => Some (VSFERR_FAIL, set_sense u SCSI_SENSEKEY_NOT_READY SCSI_ASC_NONE)
  end.

Definition vsf_mal2scsi_execute (CDB : list Z) u : option (Z * lun_t D T) :=
  if negb (tr_lun (get_transact (sio u)) =? NULL) then Some (VSFERR_FAIL, u)
  else
    op ← getb CDB 0;
    h ← match vendor_handlers with Some hs => vsfscsi_get_handler hs op | None => Some NULL end;
    if negb (h =? NULL) then call_handler h u CDB
    else
      '(v, u) ← (if negb (mal_ready (lms u)) then Some (NotReady, u) else scsi_command CDB u);
      scsi_exit v u.

(** Only the callback, its parameter and the state machine are set. *)
Definition vsf_mal2scsi_init (m : vsf_malstream_t) (s : mstream (scsi_env T)) (w : mworld D)
    : Z * mstate D (scsi_env T) :=
  vsf_malstream_init {| ms := {| ms_mal := ms_mal m; on_finish := MAL_FINISH_FN; finish_param := lun;
      ms_offset := ms_offset m; mal_ready := mal_ready m; ms_addr := ms_addr m; ms_size := ms_size m;
      ms_handler := ms_handler m; pt_state := pt_state m |}; io := s; mw := w |}.
End mal2scsi.

(** ** Commands that are refused *)

Lemma set_transact_get {D T} (u : lun_t D T) : set_transact u (get_transact (sio u)) = u.
Proof. destruct u as [? ? ? [? ? ? ? ? ? [? []]] ? ?]. done. Qed.

Section sense.
Context {D T : Type} (lun malstream transact_p : Z).
Context (peer : Z → Z → scsistream T → option (scsistream T)).
Context (cparam : vsf_mal2scsi_cparam_t) (vendor_handlers : option (list (Z * Z))).
Context (call_handler : Z → lun_t D T → list Z → option (Z * lun_t D T)).
Implicit Types (u : lun_t D T).
Notation execute := (vsf_mal2scsi_execute lun malstream transact_p peer cparam
  vendor_handlers call_handler).
Notation command := (scsi_command lun malstream transact_p peer cparam).
Notation reply := (answer lun transact_p).

(** The callbacks of the other end keep to themselves. *)
Context (act : Z → Z → T → T).
Hypothesis quiet : ∀ f p s, peer f p s = Some (set_env s {| sm_evts := sm_evts (env s);
  others := {| transact := transact (others (env s)); rest := act f p (rest (others (env s))) |} |}).

(** No transaction is open; no vendor handler takes the command [op]. *)
Definition free u : Prop := tr_lun (get_transact (sio u)) = NULL.
Definition unclaimed (op : Z) : Prop :=
  match vendor_handlers with Some hs => vsfscsi_get_handler hs op | None => Some NULL end = Some NULL.

(** The unit is as before but for fields of the transaction that mean nothing
    while it is closed. *)
Definition refused u u1 : Prop := ∃ t, u1 = set_transact u t ∧
  tr_lun t = tr_lun (get_transact (sio u)) ∧ tr_err t = tr_err (get_transact (sio u)).

Lemma refused_refl u : refused u u.
Proof. exists (get_transact (sio u)). by rewrite set_transact_get. Qed.

(** The commands of the unit, and those of them that are transfers. *)
Definition opcodes : list Z :=
  [0x00; 0x03; 0x04; 0x08; 0x0A; 0x0F; 0x12; 0x15; 0x1A; 0x1B; 0x1E; 0x23; 0x25; 0x28; 0x2A;
   0x55; 0x5A; 0x88; 0x8A; 0xA8; 0xAA].
Definition transfers : list Z := [0x08; 0x0A; 0x28; 0x2A; 0x88; 0x8A; 0xA8; 0xAA].

(** Why a ready unit refuses the command [op]: it has no such command, an
    INQUIRY asks for a page that it does not have, or there is no buffer. *)
Definition cause (CDB : list Z) (op : Z) : verdict :=
  if decide (op ∉ opcodes) then InvalidCommand
  else if decide (op = 0x12 ∧ getb CDB 2 ≠ Some 0) then InvalidField else NotReady.

(** What it refuses with: the unit is as before, but for the address and the size
    that a transfer has put into the closed transaction. *)
Definition refuses (CDB : list Z) (op : Z) u (v : verdict) u1 : Prop :=
  v = Accepted ∨ v = cause CDB op ∧ refused u u1 ∧ (op ∉ transfers → u1 = u).

Lemma refuses_refl CDB op u v : v = cause CDB op → refuses CDB op u v u.
Proof. intros Hv. right. split; [done|]. split; [apply refused_refl|done]. Qed.

Lemma answer_refused u n f v u1 : reply u n f = Some (v, u1) → v = Accepted ∨ v = NotReady ∧ u1 = u.
Proof.
  unfold answer. destruct (vsf_mal2scsi_prepare_transact _ _ _ _ _ _) as [[u2|]|]; [| |done]; bindr.
  - destruct (write_pbuf u2 f) as [u3|]; [|done]. bindr. intros [= <- <-]. by left.
  - intros [= <- <-]. by right.
Qed.

Lemma do_mal_refused w lba n u v u1 :
  do_mal lun malstream transact_p peer w lba n u = Some (v, u1) → v = Accepted ∨ v = NotReady ∧ refused u u1.
Proof.
  unfold do_mal. destruct (scsi_cap u) as [c|]; [|done]. bindr.
  set (t := set_data_size _ _).
  destruct (vsf_mal2scsi_prepare_transact _ _ _ _ _ _) as [[u2|]|]; [| |done]; bindr.
  - destruct (malstream_of u2) as [st|]; [|done]. bindr.
    destruct (if w then _ else _) as [[? st1]|]; [|done]. bindr. intros [= <- <-]. by left.
  - intros [= <- <-]. right. split; [done|]. by exists t.
Qed.

(** The group and the command of an opcode. *)
Lemma opcode_split op g c : 0 ≤ op < 256 → Z.land op 0xE0 = g → Z.land op 0x1F = c → op = g + c.
Proof.
  intros Hop <- <-. pose proof (all_below_spec 256 (λ i, Z.land i 0xE0 + Z.land i 0x1F =? i) op
    ltac:(by vm_compute) Hop) as H. by apply Z.eqb_eq in H.
Qed.

(** An opcode of the list is none of those that the [switch] has tried. *)
Lemma cause_unknown CDB op : op ∉ opcodes → cause CDB op = InvalidCommand.
Proof. intros H. unfold cause. by rewrite decide_True. Qed.

Lemma cause_known CDB op : op ∈ opcodes → (op = 0x12 → getb CDB 2 = Some 0) → cause CDB op = NotReady.
Proof. intros H Hi. unfold cause. rewrite decide_False by tauto. rewrite decide_False; [done|]. intros [? ?]. auto. Qed.

(** The tests that have failed rule every opcode of the list out. *)
Ltac unknown :=
  apply refuses_refl; symmetry; apply cause_unknown; unfold opcodes; intros Hin;
  rewrite ?elem_of_cons, elem_of_nil in Hin; destruct_or? Hin; subst;
  first [done | match goal with
    | H : _ ≠ _ |- _ => exfalso; apply H; reflexivity
    | H : Z.land _ _ = _ |- _ => by vm_compute in H
    | H : _ ∉ _ |- _ => exfalso; apply H; by_decide end].

(** The opcode that the tests have found. *)
Ltac known :=
  match goal with Hg : Z.land ?op 0xE0 = _, Hc : Z.land ?op 0x1F = _ |- _ =>
    let H := fresh in assert (H := opcode_split op _ _ ltac:(assumption) Hg Hc); vm_compute in H; subst op end.

Lemma rw_refuses CDB op (f g : option Z) w u v u1 :
  op ∈ transfers → (lba ← f; n ← g; do_mal lun malstream transact_p peer w lba n u) = Some (v, u1) →
  refuses CDB op u v u1.
Proof.
  intros Ht. destruct f as [lba|], g as [n|]; bindr; try done. intros Hd.
  destruct (do_mal_refused _ _ _ _ _ _ Hd) as [->|[-> Hr]]; [by left|]. right. split; [|split; [done|by intros ?]].
  unfold transfers in Ht. symmetry. apply cause_known; [unfold opcodes; set_solver|].
  intros ->. rewrite ?elem_of_cons, elem_of_nil in Ht. lia.
Qed.

Lemma answer_refuses CDB op u n f v u1 :
  op ∈ opcodes → (op = 0x12 → getb CDB 2 = Some 0) → reply u n f = Some (v, u1) → refuses CDB op u v u1.
Proof.
  intros Hin Hi Ha. destruct (answer_refused _ _ _ _ _ Ha) as [->|[-> ->]]; [by left|].
  apply refuses_refl. symmetry. by apply cause_known.
Qed.

Lemma command_refused CDB op u v u1 :
  getb CDB 0 = Some op → 0 ≤ op < 256 → command CDB u = Some (v, u1) → refuses CDB op u v u1.
Proof.
  intros Hop Hb. unfold scsi_command. rewrite Hop. bindr.
  unfold scsi_group6, scsi_group10_1, scsi_group10_2, scsi_group16, scsi_group12, rw6, rw10, rw16, rw12.
  destruct (Z.eqb_spec (Z.land op 0xE0) SCSI_GROUPCODE6) as [Hg|];
    [|destruct (Z.eqb_spec (Z.land op 0xE0) SCSI_GROUPCODE10_1) as [Hg|];
    [|destruct (Z.eqb_spec (Z.land op 0xE0) SCSI_GROUPCODE10_2) as [Hg|];
    [|destruct (Z.eqb_spec (Z.land op 0xE0) SCSI_GROUPCODE16) as [Hg|];
    [|destruct (Z.eqb_spec (Z.land op 0xE0) SCSI_GROUPCODE12) as [Hg|]]]]].
  all: try (case_bool_decide; [intros [= <- <-]; by left|]).
  all: repeat match goal with |- context [?x =? ?y] =>
    match x with Z.land _ _ => destruct (Z.eqb_spec x y) end end; cbn [orb].
  all: try (intros [= <- <-]; first [by left | unknown]).
  all: known.
  all: try (intros Hd; eapply rw_refuses; [|exact Hd]; by_decide).
  - unfold scsi_request_sense. destruct (reply u 18 _) as [[v2 u2]|] eqn:Ha; [|done]. bindr.
    apply (answer_refuses CDB 0x03) in Ha; [|by_decide|done].
    destruct v2; [destruct (getb CDB 4); [|done]|..]; bindr; intros [= <- <-]; [by left|done..].
  - unfold scsi_inquiry. destruct (getb CDB 1) as [c1|]; [|done]. destruct (getb CDB 2) as [c2|] eqn:H2; [|done]. bindr.
    destruct (Z.eqb_spec c2 0) as [->|Hc2]; cbn [negb].
    + destruct (negb _); apply answer_refuses; (done || by_decide).
    + assert (Hc : cause CDB 0x12 = InvalidField).
      { unfold cause. rewrite decide_False by (intros H0; apply H0; by_decide). rewrite decide_True; [done|].
        split; [done|]. rewrite H2. by intros [=]. }
      destruct (negb _); intros [= <- <-]; by apply refuses_refl.
  - apply answer_refuses; (done || by_decide).
  - unfold scsi_read_format_capacities. destruct (scsi_cap u); [|done]. bindr. apply answer_refuses; (done || by_decide).
  - unfold scsi_read_capacity. destruct (scsi_cap u); [|done]. bindr. apply answer_refuses; (done || by_decide).
Qed.

Lemma execute_unclaimed CDB u op :
  free u → getb CDB 0 = Some op → unclaimed op →
  execute CDB u =
    ('(v, u) ← (if negb (mal_ready (lms u)) then Some (NotReady, u) else command CDB u);
     scsi_exit peer v u).
Proof.
  intros Hf Hop Hu. unfold vsf_mal2scsi_execute. rewrite Hf, Hop. bindr.
  unfold unclaimed in Hu. by rewrite Hu.
Qed.

Lemma exit_accepted u e u' : scsi_exit peer Accepted u = Some (e, u') → e = VSFERR_NONE.
Proof.
  unfold scsi_exit. repeat case_match; try by intros [= <- _].
  destruct (stream_connect_tx _ _); [|done]. bindr. by intros [= <- _].
Qed.

(** Why the command [op] of the unit fails, and how sense data say it. *)
Definition failure_cause u (CDB : list Z) (op : Z) : verdict :=
  if mal_ready (lms u) then cause CDB op else NotReady.

Definition sense_of (v : verdict) : Z * Z :=
  match v with
  | Accepted => (SCSI_SENSEKEY_NO_SENSE, SCSI_ASC_NONE)
  | InvalidCommand => (SCSI_SENSEKEY_ILLEGAL_REQUEST, SCSI_ASC_INVALID_COMMAND)
  | InvalidField => (SCSI_SENSEKEY_ILLEGAL_REQUEST, SCSI_ASC_INVALID_FIELD_IN_COMMAND)
  | NotReady => (SCSI_SENSEKEY_NOT_READY, SCSI_ASC_NONE)
  end.

Lemma execute_failed CDB u op u' :
  free u → getb CDB 0 = Some op → 0 ≤ op < 256 → unclaimed op → execute CDB u = Some (VSFERR_FAIL, u') →
  ∃ t, let '(k, c) := sense_of (failure_cause u CDB op) in u' = set_sense (set_transact u t) k c ∧
    tr_lun t = NULL ∧ tr_err t = tr_err (get_transact (sio u)) ∧
    (op ∉ transfers → t = get_transact (sio u)).
Proof.
  intros Hf Hop Hb Hu. rewrite (execute_unclaimed _ _ _ Hf Hop Hu). unfold failure_cause.
  assert (Hexit : ∀ v u1, v ≠ Accepted → refused u u1 → (op ∉ transfers → u1 = u) →
    scsi_exit peer v u1 = Some (VSFERR_FAIL, u') →
    ∃ t, let '(k, c) := sense_of v in u' = set_sense (set_transact u t) k c ∧ tr_lun t = NULL ∧
      tr_err t = tr_err (get_transact (sio u)) ∧ (op ∉ transfers → t = get_transact (sio u))).
  { intros v u1 Hv (t & -> & Ht & He) Hsame. rewrite Hf in Ht.
    assert (Hsame' : op ∉ transfers → t = get_transact (sio u)).
    { intros H. specialize (Hsame H). by rewrite <- Hsame. }
    destruct v; [done|..]; intros [= <-]; by exists t. }
  destruct (mal_ready (lms u)); cbn [negb]; bindr.
  2:{ by apply Hexit; [|apply refused_refl|]. }
  destruct (command CDB u) as [[v u1]|] eqn:Hc; [|done]. bindr.
  destruct (decide (v = Accepted)) as [->|Hv]; [by intros ?%exit_accepted|].
  destruct (command_refused CDB op _ _ _ Hop Hb Hc) as [|(-> & Hr & Hs)]; [done|]. by apply Hexit.
Qed.

(** The unit hands out [l] through a buffer stream connected at this end. *)
Definition serves u (l : list Z) : Prop :=
  (∃ m, smem (sio u) = Bufstream m ∧ source m l) ∧ tx_ready (sio u) = true.

(** A unit with the answer [l] of [n] bytes in its stream, not yet connected. *)
Record prepared u (n : nat) (l : list Z) u1 : Prop := {
  p_lms : lms u1 = lms u;
  p_stream : smem (sio u1) = Bufstream {|
    bbuf := {| Fifo.buffer := l; Fifo.size := Z.of_nat n |}; bread := true; pos := 0 |};
  p_flags : tx_ready (sio u1) = false ∧ rx_ready (sio u1) = false;
  p_rx : callback_rx (sio u1) = callback_rx (sio u);
  p_transact : get_transact (sio u1) = {| LBA := LBA (get_transact (sio u));
    data_size := Z.of_nat n; tr_err := VSFERR_NONE; tr_lun := lun |} }.

Lemma answer_ok u n f l b :
  buffer_list (smbuf u) !! 0%nat = Some b → (n ≤ length b)%nat → f (replicate n 0) = Some l →
  ∃ u1, reply u (Z.of_nat n) f = Some (Accepted, u1) ∧ prepared u n l u1.
Proof.
  intros Hb Hn Hf. unfold answer, vsf_mal2scsi_prepare_transact.
  rewrite Hb, Nat2Z.id. rewrite memcpy_in by (rewrite length_replicate; lia). bindr.
  assert (Ht : take n (list_inserts 0 (replicate n 0) b) = replicate n 0).
  { apply list_eq. intros i. destruct (decide (i < n)%nat).
    - rewrite lookup_take_lt, list_lookup_inserts by (rewrite ?length_replicate; lia). f_equal. lia.
    - by rewrite lookup_take_ge, lookup_ge_None_2 by (rewrite ?length_replicate; lia). }
  rewrite Ht. unfold write_pbuf. cbn. rewrite Hf. bindr. eexists. split; [done|]. by split.
Qed.

(** The end of an answered command: this end of the stream is connected. *)
Lemma exit_serves u n l :
  smem (sio u) = Bufstream {| bbuf := {| Fifo.buffer := l; Fifo.size := Z.of_nat n |};
    bread := true; pos := 0 |} →
  length l = n → Z.of_nat n < 4294967296 → tx_ready (sio u) = false → rx_ready (sio u) = false →
  Stream.on_connect (callback_rx (sio u)) ≠ MALSTREAM_ON_INOUT_FN →
  tr_lun (get_transact (sio u)) ≠ NULL →
  ∃ u2, scsi_exit peer Accepted u = Some (VSFERR_NONE, u2) ∧ serves u2 l ∧
    get_transact (sio u2) = get_transact (sio u) ∧
    sense u2 = SCSI_SENSEKEY_NO_SENSE ∧ asc u2 = SCSI_ASC_NONE.
Proof.
  intros Hm Hl Hn Htx Hrx Hcb Hlun. unfold scsi_exit. cbn [sio set_sense].
  rewrite (proj2 (Z.eqb_neq _ _) Hlun), Hm. unfold stream_connect_tx. rewrite Htx.
  assert (Hcall : ∃ r, call_if (ms_invoke peer) true (Stream.on_connect (callback_rx (sio u)))
      (callback_rx (sio u)) (sio u) = Some (set_env (sio u) {| sm_evts := sm_evts (env (sio u));
        others := {| transact := get_transact (sio u); rest := r |} |})).
  { unfold call_if. cbn [andb]. destruct (negb _).
    - unfold ms_invoke. rewrite (proj2 (Z.eqb_neq _ _) Hcb), quiet. by eexists.
    - exists (rest (others (env (sio u)))). by destruct u as [? ? ? [? ? ? ? ? ? [? []]] ? ?]. }
  destruct Hcall as (r & ->). bindr.
  cbn [rx_ready set_env]. rewrite Hrx. unfold call_if. cbn [andb]. bindr. eexists. split; [done|].
  split; [|by split_and!]. split; [|done]. eexists. split; [exact Hm|].
  split; [done|]. cbn. split; [lia|]. split; [lia|]. split; [lia|].
  by rewrite Nat2Z.id, <- Hl, firstn_all.
Qed.

Definition sense_bytes (k c : Z) : list Z :=
  [0x70; 0; u8 k; 0; 0; 0; 0; 0x0A; 0; 0; 0; 0; u8 c; 0; 0; 0; 0; 0].

(** The host asks for up to [n] bytes of sense data. *)
Definition request_sense_cdb (n : Z) : list Z := [0x03; 0; 0; 0; n; 0].

Lemma execute_request_sense u n b :
  free u → unclaimed 0x03 → mal_ready (lms u) = true → lun ≠ NULL → 0 ≤ n →
  buffer_list (smbuf u) !! 0%nat = Some b → (18 ≤ length b)%nat →
  Stream.on_connect (callback_rx (sio u)) ≠ MALSTREAM_ON_INOUT_FN →
  ∃ u2, execute (request_sense_cdb n) u = Some (VSFERR_NONE, u2) ∧
    serves u2 (sense_bytes (sense u) (asc u)) ∧
    data_size (get_transact (sio u2)) = Z.min n 18 ∧ tr_err (get_transact (sio u2)) = VSFERR_NONE ∧
    tr_lun (get_transact (sio u2)) = lun ∧
    sense u2 = SCSI_SENSEKEY_NO_SENSE ∧ asc u2 = SCSI_ASC_NONE.
Proof.
  intros Hf Hu Hr Hlun Hn Hb Hlb Hcb. rewrite (execute_unclaimed (request_sense_cdb n) u 0x03 Hf eq_refl Hu).
  rewrite Hr. cbn [negb].
  change (command (request_sense_cdb n) u) with (scsi_request_sense lun transact_p (request_sense_cdb n) u).
  unfold scsi_request_sense.
  destruct (answer_ok u 18 (sense_data (sense u) (asc u)) (sense_bytes (sense u) (asc u)) b)
    as (u1 & Ha & [H1 H2 [H3 H4] H5 H6]); [done|done|reflexivity|].
  change (Z.of_nat 18) with 18 in Ha. rewrite Ha. bindr.
  change (getb (request_sense_cdb n) 4) with (Some n). bindr.
  destruct (exit_serves (set_transact u1 (set_data_size (get_transact (sio u1)) (Z.min n 18))) 18
    (sense_bytes (sense u) (asc u))) as (u2 & Hx & Hs & Ht & Hk).
  - exact H2.
  - done.
  - lia.
  - exact H3.
  - exact H4.
  - change (Stream.on_connect (callback_rx (sio u1)) ≠ MALSTREAM_ON_INOUT_FN). by rewrite H5.
  - change (tr_lun (get_transact (sio u1)) ≠ NULL). by rewrite H6.
  - exists u2. split; [exact Hx|]. split; [exact Hs|]. rewrite Ht.
    cbn. change (transact (others (env (sio u1)))) with (get_transact (sio u1)). by rewrite H6.
Qed.

End sense.

(** ** Transfer commands *)

(** The four lengths of READ and WRITE. *)
Inductive rwkind := RW6 | RW10 | RW12 | RW16.

Definition be (n : nat) (v : Z) : list Z := reverse (le_bytes n v).

(** The command block that asks for [n] blocks at [lba]. *)
Definition rw_cdb (k : rwkind) (write : bool) (lba n : Z) : list Z :=
  let w := if write then 2 else 0 in
  match k with
  | RW6 => [0x08 + w; 0] ++ be 2 lba ++ be 1 n ++ [0]
  | RW10 => [0x28 + w; 0] ++ be 4 lba ++ [0] ++ be 2 n ++ [0]
  | RW12 => [0xA8 + w; 0] ++ be 4 lba ++ be 4 n ++ [0; 0]
  | RW16 => [0x88 + w; 0] ++ be 8 lba ++ be 4 n ++ [0; 0]
  end.

(** The bytes of the two fields. *)
Definition rw_widths (k : rwkind) : nat * nat :=
  (match k with RW6 => (2, 1) | RW10 => (4, 2) | RW12 => (4, 4) | RW16 => (8, 4) end)%nat.

Definition rw_fits (k : rwkind) (lba n : Z) : Prop :=
  0 ≤ lba < 256 ^ Z.of_nat (rw_widths k).1 ∧ 0 ≤ n < 256 ^ Z.of_nat (rw_widths k).2.

Lemma get_be c v p :
  c ∈ codecs → c_order c = @reverse Z → 0 ≤ v < 256 ^ Z.of_nat (c_len c) → bytes p →
  c_get c (be (c_len c) v ++ p) = Some v.
Proof.
  intros Hc Ho Hv Hp. pose proof (proj1 (Forall_forall _ _) codecs_ok c Hc) as Hok.
  assert (Hl : length (be (c_len c) v) = c_len c) by (unfold be; by rewrite length_reverse, le_bytes_length).
  rewrite (get_ok c Hok).
  - rewrite <- Hl at 1. rewrite take_app_length, Ho. unfold be.
    by rewrite reverse_involutive, le_value_bytes.
  - apply Forall_app. split; [|done]. unfold be. apply reverse_bytes, le_bytes_bytes.
  - rewrite length_app. lia.
Qed.

Lemma be_bytes n v : bytes (be n v).
Proof. unfold be. apply reverse_bytes, le_bytes_bytes. Qed.

Notation U16_be := (Build_codec 2 GET_U16_MSBFIRST SET_U16_MSBFIRST (@reverse Z)).
Notation U32_be := (Build_codec 4 GET_U32_MSBFIRST SET_U32_MSBFIRST (@reverse Z)).
Notation U64_be := (Build_codec 8 GET_U64_MSBFIRST SET_U64_MSBFIRST (@reverse Z)).

Lemma be_codecs : U16_be ∈ codecs ∧ U32_be ∈ codecs ∧ U64_be ∈ codecs.
Proof. unfold codecs. repeat split; repeat first [apply list_elem_of_here | apply list_elem_of_further]. Qed.

Lemma zeros_bytes (l : list Z) : Forall (λ x, x = 0) l → bytes l.
Proof. intros Hl. eapply Forall_impl; [exact Hl|]. simpl. lia. Qed.

Section transfer.
Context {D T : Type} (table : Z → vsfmal_drv_t D) (lun malstream transact_p : Z).
Context (peer : Z → Z → scsistream T → option (scsistream T)).
Context (cparam : vsf_mal2scsi_cparam_t) (vendor_handlers : option (list (Z * Z))).
Context (call_handler : Z → lun_t D T → list Z → option (Z * lun_t D T)).
Implicit Types (u : lun_t D T).
Notation execute := (vsf_mal2scsi_execute lun malstream transact_p peer cparam
  vendor_handlers call_handler).
Notation command := (scsi_command lun malstream transact_p peer cparam).

(** Each of the commands asks for its blocks, wherever its fields are. *)
Lemma rw_command k write lba n u :
  rw_fits k lba n →
  command (rw_cdb k write lba n) u = do_mal lun malstream transact_p peer write lba n u.
Proof.
  intros [Hl Hn]. destruct be_codecs as (H2 & H4 & H8).
  assert (Hz : ∀ l : list Z, Forall (λ x, x = 0) l → bytes l) by apply zeros_bytes.
  assert (Hb1 : bytes (be 1 n ++ [0])) by (apply Forall_app; split; [apply be_bytes|apply Hz; by repeat constructor]).
  assert (Hb2 : bytes ([0] ++ be 2 n ++ [0])).
  { apply Forall_app. split; [apply Hz; by repeat constructor|]. apply Forall_app.
    split; [apply be_bytes|apply Hz; by repeat constructor]. }
  assert (Hb4 : bytes (be 4 n ++ [0; 0])) by (apply Forall_app; split; [apply be_bytes|apply Hz; by repeat constructor]).
  destruct k; cbn [rw_widths fst snd] in Hl, Hn.
  - transitivity (rw6 lun malstream transact_p peer write (rw_cdb RW6 write lba n) u); [by destruct write|].
    unfold rw6. change (drop 2 (rw_cdb RW6 write lba n)) with (be 2 lba ++ be 1 n ++ [0]).
    rewrite (get_be U16_be lba) by done. bindr.
    change (getb (rw_cdb RW6 write lba n) 4) with (Some (n mod 256)). bindr.
    by rewrite Z.mod_small by lia.
  - transitivity (rw10 lun malstream transact_p peer write (rw_cdb RW10 write lba n) u); [by destruct write|].
    unfold rw10. change (drop 2 (rw_cdb RW10 write lba n)) with (be 4 lba ++ [0] ++ be 2 n ++ [0]).
    rewrite (get_be U32_be lba) by done. bindr.
    change (drop 7 (rw_cdb RW10 write lba n)) with (be 2 n ++ [0]).
    rewrite (get_be U16_be n) by (done || apply Hz; by repeat constructor). by bindr.
  - transitivity (rw12 lun malstream transact_p peer write (rw_cdb RW12 write lba n) u); [by destruct write|].
    unfold rw12. change (drop 2 (rw_cdb RW12 write lba n)) with (be 4 lba ++ be 4 n ++ [0; 0]).
    rewrite (get_be U32_be lba) by done. bindr.
    change (drop 6 (rw_cdb RW12 write lba n)) with (be 4 n ++ [0; 0]).
    rewrite (get_be U32_be n) by (done || apply Hz; by repeat constructor). by bindr.
  - transitivity (rw16 lun malstream transact_p peer write (rw_cdb RW16 write lba n) u); [by destruct write|].
    unfold rw16. change (drop 2 (rw_cdb RW16 write lba n)) with (be 8 lba ++ be 4 n ++ [0; 0]).
    rewrite (get_be U64_be lba) by done. bindr.
    change (drop 10 (rw_cdb RW16 write lba n)) with (be 4 n ++ [0; 0]).
    rewrite (get_be U32_be n) by (done || apply Hz; by repeat constructor). by bindr.
Qed.

(** *** Reading *)

Context (act : Z → Z → T → T).
Hypothesis quiet : ∀ f p s, peer f p s = Some (set_env s {| sm_evts := sm_evts (env s);
  others := {| transact := transact (others (env s)); rest := act f p (rest (others (env s))) |} |}).
Context (d mal : Z) `{Hbd : !BlockDriver (table d) mal}.

(** What the other end's callbacks do to the malstream's environment. *)
Definition env_act (f p : Z) (r : scsi_env T) : scsi_env T :=
  {| transact := transact r; rest := act f p (rest r) |}.

Lemma mpeer_quiet f p s : mpeer peer f p s =
  Some (set_env s {| sm_evts := sm_evts (env s); others := env_act f p (others (env s)) |}).
Proof. unfold mpeer. rewrite quiet. by destruct s. Qed.

Lemma malstream_of_put u st : malstream_of (put_malstream u st) = Some st.
Proof. by destruct st as [? [] ?]. Qed.

(** A unit that can be read: its malstream is set up, its buffers are the
    memory's blocks, and the other end does not call into the malstream. *)
Record readable_unit u : Prop := {
  ru_mal : ms_mal (lms u) = mal ∧ ∃ m, mals (smw u) !! mal = Some m ∧ drv m = d ∧
    block_size (cap m) = Z.of_nat bd_block;
  ru_fin : on_finish (lms u) = MAL_FINISH_FN;
  ru_ready : mal_ready (lms u) = true;
  ru_ok : bd_ok (smw u);
  ru_pt : is_Some (pts (smw u) !! mal);
  ru_bufs : msize (smbuf u) = Z.of_nat bd_block ∧ 0 < count (smbuf u) < 65536 ∧
    mbytes (smbuf u) < 4294967296 ∧ Z.of_nat (length (buffer_list (smbuf u))) = count (smbuf u) ∧
    ∀ b, b ∈ buffer_list (smbuf u) → Z.of_nat (length b) = Z.of_nat bd_block;
  ru_rx : Stream.on_inout (callback_rx (sio u)) ≠ MALSTREAM_ON_INOUT_FN ∧
    on_connect (callback_rx (sio u)) ≠ MALSTREAM_ON_INOUT_FN ∧
    on_disconnect (callback_rx (sio u)) ≠ MALSTREAM_ON_INOUT_FN;
  ru_evts : sm_evts (env (sio u)) = [] }.

(** The transaction of a read of [size] bytes at [a]. *)
Definition read_transact (a size : nat) : vsfscsi_transact_t :=
  {| LBA := Z.of_nat a; data_size := Z.of_nat size; tr_err := VSFERR_NONE; tr_lun := lun |}.

Lemma empty_rep u : readable_unit u →
  mbuf_rep (multibuf_stream_init {| multibuf := smbuf u; rpos := 0; wpos := 0 |}) [].
Proof.
  intros Hu. destruct (ru_bufs _ Hu) as (Hs & Hc & Hm & Hl & Hall). pose proof bd_block_pos as Hbp.
  split; [|split].
  - unfold mbuf_wf. cbn. rewrite Hs. unfold mbytes in *. rewrite Hs in Hm.
    split_and!; try done; try lia. unfold slot. zcase; lia.
  - cbn. lia.
  - intros i Hi. cbn in Hi. lia.
Qed.

(** [do_mal] up to the call of the malstream. *)
Lemma do_mal_read lba n u :
  readable_unit u → 0 ≤ lba → 0 ≤ n →
  let bs := Z.of_nat bd_block in let a := Z.to_nat (lba * bs) in let size := Z.to_nat (n * bs) in
  n * bs < 4294967296 → lba * bs < 2 ^ 64 →
  ∃ u0 st0, malstream_of u0 = Some st0 ∧
    readable table d mal (λ r, transact r = read_transact a size) MAL_FINISH_FN size
      (bd_image (dev (smw u))) st0 ∧
    do_mal lun malstream transact_p peer false lba n u =
      ('(_, st) ← vsf_malstream_read (mpeer peer) malstream (Z.of_nat a) (Z.of_nat size) st0;
       Some (Accepted, put_malstream u0 st)).
Proof.
  intros Hu Hl Hn bs a size Hsz Haddr. pose proof bd_block_pos as Hbp.
  assert (Ha : u64 (lba * bs) = Z.of_nat a).
  { unfold a, u64. rewrite wrap_small by (unfold fits; nia). rewrite Z2Nat.id by nia. done. }
  assert (Hs : u32 (n * bs) = Z.of_nat size).
  { unfold size. rewrite u32_small, Z2Nat.id by nia. done. }
  destruct (ru_mal _ Hu) as (Hmal & m & Hm & Hd & Hbs). destruct (ru_bufs _ Hu) as (Hms & Hcnt & _ & Hlen & _).
  unfold do_mal, scsi_cap. rewrite Hmal, Hm. cbn [fmap option_fmap option_map]. bindr. rewrite Hbs.
  fold bs. rewrite Ha, Hs. unfold vsf_mal2scsi_prepare_transact.
  destruct (lookup_lt_is_Some_2 (buffer_list (smbuf u)) 0%nat) as [b Hb]; [lia|].
  cbn [smbuf set_transact set_sio]. rewrite Hb. bindr.
  match goal with |- context [malstream_of ?x] => set (u0 := x) end.
  assert (Hst0 : ∃ s0, malstream_of u0 = Some {| ms := lms u; io := s0; mw := smw u |} ∧
    smem s0 = multibuf_stream_init {| multibuf := smbuf u; rpos := 0; wpos := 0 |} ∧
    callback_rx s0 = callback_rx (sio u) ∧ tx_ready s0 = false ∧
    transact (others (env s0)) = read_transact a size ∧ sm_evts (env s0) = sm_evts (env (sio u))).
  { by eexists. }
  destruct Hst0 as (s0 & Hof & Hmem & Hrx & Htx & Htr & Hev).
  exists u0, {| ms := lms u; io := s0; mw := smw u |}. split; [exact Hof|]. split.
  - split; cbn [ms io mw].
    + split; [done|]. by exists m.
    + apply Hu.
    + exists (Z.to_nat n). unfold size, bs. nia.
    + apply Hu.
    + apply Hu.
    + done.
    + rewrite Hmem. by apply empty_rep.
    + by rewrite Hmem.
    + unfold mbuf. cbn [io]. rewrite Hmem. exact Hms.
    + rewrite Hrx. split; [done|apply Hu].
    + exact Htr.
    + rewrite Hev. apply Hu.
  - rewrite Hof. bindr. done.
Qed.

(** C14: READ(6), READ(10), READ(12) and READ(16), from the command block to the
    bytes.  A ready unit with no open transaction accepts the command, opens a
    transaction of [n] blocks and starts its malstream at byte [lba * bs]; then,
    whatever the sizes in which the host takes the data and whatever wakes the
    driver, the run ends, the host has got the memory's bytes from there on in
    order, all of them and the transaction's [err] is still clear, or, if the
    driver fails, those before the failing block and [err] says so. *)
Theorem scsi_read_streams k lba n u chunk evts :
  rw_fits k lba n → free u → readable_unit u → lun ≠ NULL →
  (∃ op, getb (rw_cdb k false lba n) 0 = Some op ∧ unclaimed vendor_handlers op) →
  let bs := Z.of_nat bd_block in
  (lba + n) * bs ≤ Z.of_nat bd_len → n * bs + bs ≤ 4294967296 → fair chunk evts →
  ∃ u1 st1 fuel st2 o,
    execute (rw_cdb k false lba n) u = Some (VSFERR_NONE, u1) ∧
    sense u1 = SCSI_SENSEKEY_NO_SENSE ∧ asc u1 = SCSI_ASC_NONE ∧
    get_transact (sio u1) = read_transact (Z.to_nat (lba * bs)) (Z.to_nat (n * bs)) ∧
    malstream_of u1 = Some st1 ∧
    play table (mpeer peer) scsi_finish fuel chunk evts true st1 [] =
      Some (st2, take o (drop (Z.to_nat (lba * bs)) (bd_image (dev (smw u))))) ∧
    (o ≤ Z.to_nat (n * bs))%nat ∧
    tr_lun (transact (others (env (io st2)))) = lun ∧
    tr_err (transact (others (env (io st2)))) =
      (if decide (o = Z.to_nat (n * bs)) then VSFERR_NONE else VSFERR_FAIL) ∧
    (o = Z.to_nat (n * bs) ∨ ∃ evt w e w', e < 0 ∧
       drv_op (table d) VSFMAL_OP_READ mal evt (Z.of_nat (Z.to_nat (lba * bs) + o)) 0
         (Z.of_nat bd_block) w = Some (e, w')).
Proof.
  intros Hfit Hf Hu Hlun (op & Hop & Hun) bs Hin Hsz Hfair. pose proof Hfit as [Hl Hn].
  pose proof bd_block_pos as Hbp. pose proof bd_len_fits as Hlf.
  set (a := Z.to_nat (lba * bs)). set (size := Z.to_nat (n * bs)).
  destruct (do_mal_read lba n u Hu) as (u0 & st0 & Hof & Hrd & Hdo); [lia|lia|fold bs; lia|fold bs; nia|].
  fold bs a size in Hrd, Hdo.
  assert (Hsize : Z.of_nat size + Z.of_nat bd_block ≤ 4294967296) by (unfold size, bs in *; lia).
  assert (Hin' : (a + size ≤ bd_len)%nat) by (unfold a, size, bs in *; nia).
  assert (HP : ∀ f p r, transact r = read_transact a size → transact (env_act f p r) = read_transact a size)
    by done.
  destruct (vsf_malstream_read_ok table d mal (mpeer peer) env_act _ mpeer_quiet HP MAL_FINISH_FN a size
    _ malstream st0 Hrd) as (st1 & Hreq & Hst1).
  destruct (run_completes table d mal (mpeer peer) scsi_finish env_act _ mpeer_quiet HP MAL_FINISH_FN a size
    _ Hsize Hin' st1 chunk evts Hst1 Hfair) as (fuel & st2 & o & Hrun & Hend).
  set (u1 := set_sense (put_malstream u0 st1) SCSI_SENSEKEY_NO_SENSE SCSI_ASC_NONE).
  exists u1, st1, fuel, st2, o. split.
  { rewrite (execute_unclaimed lun malstream transact_p peer cparam vendor_handlers call_handler _ u op Hf Hop Hun).
    rewrite (ru_ready _ Hu). cbn [negb]. rewrite rw_command, Hdo, Hreq by done. bindr.
    unfold scsi_exit. by destruct (_ =? NULL). }
  split; [done|]. split; [done|]. split; [apply Hst1|]. split; [apply malstream_of_put|].
  split; [exact Hrun|]. destruct Hend as (Hoff & Hms & Ho & Hwhy & _ & _ & _ & _ & r & Hr & Hoth).
  change (MAL_FINISH_FN =? NULL) with false in Hoth. cbv iota in Hoth.
  split; [exact Ho|]. rewrite Hoth. unfold scsi_finish. rewrite Z.eqb_refl.
  unfold vsf_mal2scsi_mal_finish. rewrite Hoff, Hms.
  destruct (Z.ltb_spec (Z.of_nat o) (Z.of_nat size)) as [Hlt|Hge]; cbn [transact]; rewrite ?Hr.
  - split; [done|]. rewrite decide_False by lia. by split.
  - split; [done|]. rewrite decide_True by lia. by split.
Qed.
End transfer.

(** ** Witnesses *)

Definition demo_scsi_peer (f p : Z) (s : scsistream (list (Z * Z))) : option (scsistream (list (Z * Z))) :=
  Some (set_env s {| sm_evts := sm_evts (env s); others := {|
    transact := transact (others (env s)); rest := rest (others (env s)) ++ [(f, p)] |} |}).

Definition demo_cparam : vsf_mal2scsi_cparam_t :=
  {| cp_block_size := 2; cp_removable := true; cp_vendor := replicate 8 0x41;
     cp_product := replicate 16 0x42; cp_revision := replicate 4 0x43; cp_type := 0 |}.

(** A unit on the memory 10, with buffers [bufs]. *)
Definition demo_unit (ready : bool) (bufs : list (list Z)) : lun_t (nat → Z) (list (Z * Z)) := {|
  sense := 0; asc := 0;
  lms := {| ms_mal := 10; on_finish := MAL_FINISH_FN; finish_param := 1; ms_offset := 0;
            mal_ready := ready; ms_addr := 0; ms_size := 0; ms_handler := InitHandler; pt_state := 0 |};
  sio := {| callback_tx := {| cb_param := 0; Stream.on_inout := 0; on_connect := 0; on_disconnect := 0 |};
            callback_rx := {| cb_param := 8; Stream.on_inout := 0x21; on_connect := 0x22; on_disconnect := 0x23 |};
            tx_ready := false; rx_ready := false; overflow := false;
            smem := Mbufstream {| multibuf := {| msize := 0; buffer_list := []; count := 0; mhead := 0;
              mtail := 0; mlength := 0 |}; rpos := 0; wpos := 0 |};
            env := {| sm_evts := []; others := {| transact := {| LBA := 0; data_size := 0;
              tr_err := 0; tr_lun := NULL |}; rest := [] |} |} |};
  smbuf := {| msize := Z.of_nat (length (default [] (bufs !! 0%nat))); buffer_list := bufs;
              count := Z.of_nat (length bufs); mhead := 0; mtail := 0; mlength := 0 |};
  smw := demo_world 5 |}.

Notation demo_execute := (vsf_mal2scsi_execute 1 0x500 0x600 demo_scsi_peer demo_cparam
  None (λ _ _ _, None)).

Definition demo_refused : lun_t (nat → Z) (list (Z * Z)) :=
  set_sense (demo_unit true [replicate 64 9]) SCSI_SENSEKEY_ILLEGAL_REQUEST SCSI_ASC_INVALID_FIELD_IN_COMMAND.


(** READ(10) of three blocks at block 1; block 3 is bad. *)
Lemma scsi_read_streams_witness :
  ∃ u1 st1 fuel st2 o,
    demo_execute (rw_cdb RW10 false 1 3) (demo_unit true [[0; 0]; [0; 0]]) = Some (VSFERR_NONE, u1) ∧
    malstream_of u1 = Some st1 ∧
    play demo_table (mpeer demo_scsi_peer) scsi_finish fuel (λ _, 1%nat) (λ _, 0x20) true st1 []
      = Some (st2, take o [12; 13; 14; 15; 16; 17]) ∧
    tr_err (transact (others (env (io st2)))) = (if decide (o = 6%nat) then VSFERR_NONE else VSFERR_FAIL).
Proof.
  destruct (scsi_read_streams demo_table 1 0x500 0x600 demo_scsi_peer demo_cparam None (λ _ _ _, None)
    (λ f p r, r ++ [(f, p)]) (λ f p s, eq_refl) 2 10) with (k := RW10) (lba := 1) (n := 3)
    (u := demo_unit true [[0; 0]; [0; 0]]) (chunk := λ _ : nat, 1%nat) (evts := λ _ : nat, 0x20)
    as (u1 & st1 & fuel & st2 & o & H1 & _ & _ & _ & H2 & H3 & _ & _ & H4 & _).
  - split; simpl; lia.
  - reflexivity.
  - split; try reflexivity.
    + split; [reflexivity|]. by exists (demo_mal 2).
    + by eexists.
    + split; [reflexivity|]. split; [simpl; lia|]. split; [by_decide|]. split; [reflexivity|].
      intros b [->|[->|[]%not_elem_of_nil]%elem_of_cons]%elem_of_cons; reflexivity.
    + by split_and!.
  - discriminate.
  - by exists 0x28.
  - simpl. lia.
  - simpl. lia.
  - split; intros i; [simpl; lia|by split_and!].
  - exists u1, st1, fuel, st2, o. split; [exact H1|]. split; [exact H2|]. split; [exact H3|exact H4].
Defined.

(** Before the memory is ready REQUEST SENSE is refused like any other command,
    so the sense key NOT READY cannot be asked for while it is true. *)
Example not_ready_not_told :
  fst <$> demo_execute (request_sense_cdb 18) (demo_unit false [replicate 64 9]) = Some VSFERR_FAIL.
Proof. vm_compute. reflexivity. Qed.

(** The four bytes of a length in READ(16) are multiplied by the block size in
    32 bits: a read of 2^31 blocks of two bytes is a read of nothing. *)
Example read_length_wraps :
  (λ r, data_size (get_transact (sio r.2))) <$>
    demo_execute (rw_cdb RW16 false 0 2147483648) (demo_unit true [[0; 0]]) = Some 0.
Proof. vm_compute. reflexivity. Qed.

(** The memory has four blocks; a read at block 1000 is accepted. *)
Example read_past_the_end :
  fst <$> demo_execute (rw_cdb RW10 false 1000 1) (demo_unit true [[0; 0]]) = Some VSFERR_NONE.
Proof. vm_compute. reflexivity. Qed.

(** An answer longer than the first buffer overruns it. *)
Example answer_overruns :
  demo_execute (request_sense_cdb 18) (demo_unit true [[0; 0]; [0; 0]]) = None.
Proof. vm_compute. reflexivity. Qed.
