(* ===== verification/Vsfusbd.v ===== *)
(** * Vsfusbd: the USB device core (component/usb/core/vsfusbd.c)

    The core answers the requests on endpoint 0 and moves bytes between
    streams and endpoints for the classes of its interfaces.  Everything runs in
    its state machine: the interrupts of the controller and the callbacks of the
    streams only post events to it.  The world of the model is the device, the
    objects it points to, the events posted and not yet dispatched, the
    controller behind the hardware layer, and the rest of the program. *)

From S2P Require Import Prelude Chain Fifo Multibuf Endian Stream Vsfsm Malstream.

(** ** Constants *)

Definition VSFUSBD_CFG_EPMAXNO : Z := 15.
(** The size of [tmpbuf], for a full-speed device. *)
Definition VSFUSBD_TMPBUF : nat := 64.

(** [enum vsfusbd_evt_t] and its masks. *)
Definition VSFUSBD_INTEVT_RESET : Z := 0x4000.
Definition VSFUSBD_INTEVT_SUSPEND : Z := 0x4001.
Definition VSFUSBD_INTEVT_RESUME : Z := 0x4002.
Definition VSFUSBD_INTEVT_DETACH : Z := 0x4003.
Definition VSFUSBD_INTEVT_ATTACH : Z := 0x4004.
Definition VSFUSBD_INTEVT_SOF : Z := 0x4005.
Definition VSFUSBD_INTEVT_SETUP : Z := 0x4006.
Definition VSFUSBD_INTEVT_ERR : Z := 0x4100.
Definition VSFUSBD_EVT_EP_MASK : Z := 0x0F.
Definition VSFUSBD_EVT_DIR_IN : Z := 0x10.
Definition VSFUSBD_EVT_EVT_MASK : Z := -16.
Definition VSFUSBD_EVT_ERR_MASK : Z := 0xFF.
Definition VSFUSBD_INTEVT_IN : Z := 0x4030.
Definition VSFUSBD_INTEVT_OUT : Z := 0x4020.
Definition VSFUSBD_STREAM_IN : Z := 0x4050.
Definition VSFUSBD_STREAM_OUT : Z := 0x4040.
Definition VSFUSBD_STREAM_CLOSE_IN : Z := 0x4070.
Definition VSFUSBD_STREAM_CLOSE_OUT : Z := 0x4060.

(** Bits of a request (usb_ch9.h). *)
Definition USB_DIR_MASK : Z := 0x80.
Definition USB_DIR_OUT : Z := 0.
Definition USB_DIR_IN : Z := 0x80.
Definition USB_TYPE_MASK : Z := 0x60.
Definition USB_TYPE_STANDARD : Z := 0.
Definition USB_TYPE_CLASS : Z := 0x20.
Definition USB_TYPE_VENDOR : Z := 0x40.
Definition USB_RECIP_MASK : Z := 0x1f.
Definition USB_RECIP_DEVICE : Z := 0.
Definition USB_RECIP_INTERFACE : Z := 1.
Definition USB_RECIP_ENDPOINT : Z := 2.
Definition USB_REQ_GET_STATUS : Z := 0x00.
Definition USB_REQ_CLEAR_FEATURE : Z := 0x01.
Definition USB_REQ_SET_FEATURE : Z := 0x03.
Definition USB_REQ_SET_ADDRESS : Z := 0x05.
Definition USB_REQ_GET_DESCRIPTOR : Z := 0x06.
Definition USB_REQ_GET_CONFIGURATION : Z := 0x08.
Definition USB_REQ_SET_CONFIGURATION : Z := 0x09.
Definition USB_REQ_GET_INTERFACE : Z := 0x0A.
Definition USB_REQ_SET_INTERFACE : Z := 0x0B.
Definition USB_DEVICE_SELF_POWERED : Z := 0.
Definition USB_DEVICE_REMOTE_WAKEUP : Z := 1.
Definition USB_ENDPOINT_HALT : Z := 0.
Definition USB_DT_DEVICE : Z := 0x01.
Definition USB_DT_CONFIG : Z := 0x02.
Definition USB_DT_INTERFACE : Z := 0x04.
Definition USB_DT_ENDPOINT : Z := 0x05.
Definition USB_DT_CONFIG_SIZE : Z := 9.
Definition USB_CONFIG_ATT_SELFPOWER : Z := 0x40.
Definition USB_CONFIG_ATT_WAKEUP : Z := 0x20.

(** Addresses of the core's functions and of the fields of [ctrl_handler]. *)
Definition STREAM_ON_IN_FN : Z := 0x2000.
Definition STREAM_ON_DISCONNECT_IN_FN : Z := 0x2001.
Definition STREAM_ON_OUT_FN : Z := 0x2002.
Definition STREAM_ON_DISCONNECT_OUT_FN : Z := 0x2003.
Definition ON_IN_DO_FN : Z := 0x2010.
Definition ON_OUT_DO_FN : Z := 0x2011.
Definition SETUP_END_FN : Z := 0x2020.
Definition SETUP_STATUS_FN : Z := 0x2021.
Definition ON_EVENT_FN : Z := 0x2030.
Definition CTRL_STREAM : Z := 0x3000.
Definition CTRL_IN : Z := 0x3001.
Definition CTRL_OUT : Z := 0x3002.
(** The device itself, the parameter of its own callbacks. *)
Definition DEVICE : Z := 0x3003.

(** ** Data *)

(** [struct vsfusbd_transact_t]; its [device] is the device of the model. *)
Record vsfusbd_transact_t := {
  t_ep : Z; t_data_size : Z; t_stream : Z; t_on_finish : Z; t_param : Z; t_zlp : bool;
  t_idle : bool }.

Definition set_t_size (t : vsfusbd_transact_t) (n : Z) : vsfusbd_transact_t :=
  {| t_ep := t_ep t; t_data_size := n; t_stream := t_stream t; t_on_finish := t_on_finish t;
     t_param := t_param t; t_zlp := t_zlp t; t_idle := t_idle t |}.
Definition set_t_zlp (t : vsfusbd_transact_t) (b : bool) : vsfusbd_transact_t :=
  {| t_ep := t_ep t; t_data_size := t_data_size t; t_stream := t_stream t;
     t_on_finish := t_on_finish t; t_param := t_param t; t_zlp := b; t_idle := t_idle t |}.
Definition set_t_idle (t : vsfusbd_transact_t) (b : bool) : vsfusbd_transact_t :=
  {| t_ep := t_ep t; t_data_size := t_data_size t; t_stream := t_stream t;
     t_on_finish := t_on_finish t; t_param := t_param t; t_zlp := t_zlp t; t_idle := b |}.
Definition set_t_cb (t : vsfusbd_transact_t) (f p : Z) : vsfusbd_transact_t :=
  {| t_ep := t_ep t; t_data_size := t_data_size t; t_stream := t_stream t;
     t_on_finish := f; t_param := p; t_zlp := t_zlp t; t_idle := t_idle t |}.
Definition set_t_stream (t : vsfusbd_transact_t) (s : Z) : vsfusbd_transact_t :=
  {| t_ep := t_ep t; t_data_size := t_data_size t; t_stream := s;
     t_on_finish := t_on_finish t; t_param := t_param t; t_zlp := t_zlp t; t_idle := t_idle t |}.
Definition set_t_ep (t : vsfusbd_transact_t) (e : Z) : vsfusbd_transact_t :=
  {| t_ep := e; t_data_size := t_data_size t; t_stream := t_stream t;
     t_on_finish := t_on_finish t; t_param := t_param t; t_zlp := t_zlp t; t_idle := t_idle t |}.

(** [struct usb_ctrlrequest_t]. *)
Record usb_ctrlrequest_t := {
  bRequestType : Z; bRequest : Z; wValue : Z; wIndex : Z; wLength : Z }.

(** [struct vsfusbd_desc_filter_t]; [None] is a NULL buffer. *)
Record vsfusbd_desc_filter_t := {
  df_type : Z; df_index : Z; df_lanid : Z; df_buffer : option vsf_buffer_t }.

(** [struct vsfusbd_class_protocol_t], five functions. *)
Record vsfusbd_class_protocol_t := {
  get_desc : Z; request_prepare : Z; request_process : Z; cp_init : Z; cp_fini : Z }.

(** [struct vsfusbd_iface_t]; its state machine belongs to the class. *)
Record vsfusbd_iface_t := {
  class_protocol : option vsfusbd_class_protocol_t; protocol_param : Z; alternate_setting : Z }.

(** [struct vsfusbd_config_t]. *)
Record vsfusbd_config_t := {
  cfg_init : Z; cfg_fini : Z; num_of_ifaces : Z; iface : list vsfusbd_iface_t;
  configuration_value : Z; ep_OUT_iface_map : list Z; ep_IN_iface_map : list Z }.

(** [struct vsfusbd_ctrl_handler_t] without its stream and its two transfers,
    which are at [CTRL_STREAM], [CTRL_IN] and [CTRL_OUT]. *)
Record vsfusbd_ctrl_handler_t := {
  request : usb_ctrlrequest_t; c_stream : Z; c_data_size : Z; c_ep_size : Z;
  reply_buffer : list Z }.

(** [struct vsfusbd_device_t] without its state machine.  The arrays indexed by
    endpoint keep the entries that are not NULL. *)
Record vsfusbd_device_t := {
  num_of_configuration : Z; config : list vsfusbd_config_t;
  desc_filter : list vsfusbd_desc_filter_t; device_class_iface : Z; on_EVENT : Z;
  address : Z; configured : bool; configuration : Z; feature : Z;
  ctrl_handler : vsfusbd_ctrl_handler_t;
  IN_transact : gmap Z Z; OUT_transact : gmap Z Z; IN_handler : gmap Z Z; OUT_handler : gmap Z Z;
  tmpbuf : list Z }.

(** NULL entries are absent. *)
Definition entry (m : gmap Z Z) (ep : Z) : Z := default NULL (m !! ep).

Section device_fields.
Implicit Types (d : vsfusbd_device_t).

Definition set_IN d (t h : gmap Z Z) : vsfusbd_device_t :=
  {| num_of_configuration := num_of_configuration d; config := config d;
     desc_filter := desc_filter d; device_class_iface := device_class_iface d;
     on_EVENT := on_EVENT d; address := address d; configured := configured d;
     configuration := configuration d; feature := feature d; ctrl_handler := ctrl_handler d;
     IN_transact := t; OUT_transact := OUT_transact d; IN_handler := h;
     OUT_handler := OUT_handler d; tmpbuf := tmpbuf d |}.
Definition set_OUT d (t h : gmap Z Z) : vsfusbd_device_t :=
  {| num_of_configuration := num_of_configuration d; config := config d;
     desc_filter := desc_filter d; device_class_iface := device_class_iface d;
     on_EVENT := on_EVENT d; address := address d; configured := configured d;
     configuration := configuration d; feature := feature d; ctrl_handler := ctrl_handler d;
     IN_transact := IN_transact d; OUT_transact := t; IN_handler := IN_handler d;
     OUT_handler := h; tmpbuf := tmpbuf d |}.
Definition set_state d (a : Z) (c : bool) (n f : Z) : vsfusbd_device_t :=
  {| num_of_configuration := num_of_configuration d; config := config d;
     desc_filter := desc_filter d; device_class_iface := device_class_iface d;
     on_EVENT := on_EVENT d; address := a; configured := c;
     configuration := n; feature := f; ctrl_handler := ctrl_handler d;
     IN_transact := IN_transact d; OUT_transact := OUT_transact d; IN_handler := IN_handler d;
     OUT_handler := OUT_handler d; tmpbuf := tmpbuf d |}.
Definition set_ctrl d (c : vsfusbd_ctrl_handler_t) : vsfusbd_device_t :=
  {| num_of_configuration := num_of_configuration d; config := config d;
     desc_filter := desc_filter d; device_class_iface := device_class_iface d;
     on_EVENT := on_EVENT d; address := address d; configured := configured d;
     configuration := configuration d; feature := feature d; ctrl_handler := c;
     IN_transact := IN_transact d; OUT_transact := OUT_transact d; IN_handler := IN_handler d;
     OUT_handler := OUT_handler d; tmpbuf := tmpbuf d |}.
Definition set_config d (c : list vsfusbd_config_t) : vsfusbd_device_t :=
  {| num_of_configuration := num_of_configuration d; config := c;
     desc_filter := desc_filter d; device_class_iface := device_class_iface d;
     on_EVENT := on_EVENT d; address := address d; configured := configured d;
     configuration := configuration d; feature := feature d; ctrl_handler := ctrl_handler d;
     IN_transact := IN_transact d; OUT_transact := OUT_transact d; IN_handler := IN_handler d;
     OUT_handler := OUT_handler d; tmpbuf := tmpbuf d |}.
Definition set_tmpbuf d (b : list Z) : vsfusbd_device_t :=
  {| num_of_configuration := num_of_configuration d; config := config d;
     desc_filter := desc_filter d; device_class_iface := device_class_iface d;
     on_EVENT := on_EVENT d; address := address d; configured := configured d;
     configuration := configuration d; feature := feature d; ctrl_handler := ctrl_handler d;
     IN_transact := IN_transact d; OUT_transact := OUT_transact d; IN_handler := IN_handler d;
     OUT_handler := OUT_handler d; tmpbuf := b |}.
End device_fields.

Definition set_c_size (c : vsfusbd_ctrl_handler_t) (n : Z) : vsfusbd_ctrl_handler_t :=
  {| request := request c; c_stream := c_stream c; c_data_size := n; c_ep_size := c_ep_size c;
     reply_buffer := reply_buffer c |}.
Definition set_c_reply (c : vsfusbd_ctrl_handler_t) (b : list Z) : vsfusbd_ctrl_handler_t :=
  {| request := request c; c_stream := c_stream c; c_data_size := c_data_size c;
     c_ep_size := c_ep_size c; reply_buffer := b |}.
Definition set_c_request (c : vsfusbd_ctrl_handler_t) (r : usb_ctrlrequest_t) : vsfusbd_ctrl_handler_t :=
  {| request := r; c_stream := c_stream c; c_data_size := c_data_size c;
     c_ep_size := c_ep_size c; reply_buffer := reply_buffer c |}.
Definition set_c_stream (c : vsfusbd_ctrl_handler_t) (s : Z) : vsfusbd_ctrl_handler_t :=
  {| request := request c; c_stream := s; c_data_size := c_data_size c;
     c_ep_size := c_ep_size c; reply_buffer := reply_buffer c |}.
Definition set_c_ep_size (c : vsfusbd_ctrl_handler_t) (n : Z) : vsfusbd_ctrl_handler_t :=
  {| request := request c; c_stream := c_stream c; c_data_size := c_data_size c;
     c_ep_size := n; reply_buffer := reply_buffer c |}.

(** ** The controller (vsfhal_usbd_* of hal/vsfhal.h) *)

(** The hardware layer over its state [H].  The functions return an error code
    and the new state, those that only read, a value. *)
Record vsfhal_usbd (H : Type) := {
  hal_init : H → Z * H; hal_fini : H → Z * H; hal_reset : H → Z * H;
  hal_connect : H → Z * H; hal_disconnect : H → Z * H; hal_wakeup : H → Z * H;
  hal_set_address : Z → H → Z * H; hal_get_frame_number : H → Z;
  hal_get_setup : H → Z * list Z; hal_prepare_buffer : H → Z * H;
  ep_num : Z; ep_set_type : Z → Z → H → Z * H;
  ep_set_IN_epsize : Z → Z → H → Z * H; ep_get_IN_epsize : Z → H → Z;
  ep_set_IN_stall : Z → H → Z * H; ep_clear_IN_stall : Z → H → Z * H; ep_is_IN_stall : Z → H → bool;
  ep_reset_IN_toggle : Z → H → Z * H; ep_set_IN_count : Z → Z → H → Z * H;
  ep_write_IN_buffer : Z → list Z → H → Z * H;
  ep_set_OUT_epsize : Z → Z → H → Z * H; ep_get_OUT_epsize : Z → H → Z;
  ep_set_OUT_stall : Z → H → Z * H; ep_clear_OUT_stall : Z → H → Z * H; ep_is_OUT_stall : Z → H → bool;
  ep_reset_OUT_toggle : Z → H → Z * H; ep_get_OUT_count : Z → H → Z;
  ep_read_OUT_buffer : Z → Z → H → Z * list Z; ep_enable_OUT : Z → H → Z * H }.
Arguments hal_init {H}. Arguments hal_fini {H}. Arguments hal_reset {H}.
Arguments hal_connect {H}. Arguments hal_disconnect {H}. Arguments hal_wakeup {H}.
Arguments hal_set_address {H}. Arguments hal_get_frame_number {H}. Arguments hal_get_setup {H}.
Arguments hal_prepare_buffer {H}. Arguments ep_num {H}. Arguments ep_set_type {H}.
Arguments ep_set_IN_epsize {H}. Arguments ep_get_IN_epsize {H}. Arguments ep_set_IN_stall {H}.
Arguments ep_clear_IN_stall {H}. Arguments ep_is_IN_stall {H}. Arguments ep_reset_IN_toggle {H}.
Arguments ep_set_IN_count {H}. Arguments ep_write_IN_buffer {H}. Arguments ep_set_OUT_epsize {H}.
Arguments ep_get_OUT_epsize {H}. Arguments ep_set_OUT_stall {H}. Arguments ep_clear_OUT_stall {H}.
Arguments ep_is_OUT_stall {H}. Arguments ep_reset_OUT_toggle {H}. Arguments ep_get_OUT_count {H}.
Arguments ep_read_OUT_buffer {H}. Arguments ep_enable_OUT {H}.

(** [enum vsfhal_usbd_eptype_t]. *)
Definition USB_EP_TYPE_CONTROL : Z := 0.
Definition USB_EP_TYPE_INTERRUPT : Z := 1.
Definition USB_EP_TYPE_BULK : Z := 2.
Definition USB_EP_TYPE_ISO : Z := 3.

(** [enum vsfhal_usbd_evt_t]. *)
Inductive vsfhal_usbd_evt_t :=
  | ON_ATTACH | ON_DETACH | ON_RESET | ON_SETUP | ON_ERROR | ON_SUSPEND | ON_RESUME | ON_SOF
  | ON_IN | ON_NAK | ON_OUT | ON_UNDERFLOW | ON_OVERFLOW | ON_USER.

(** [enum vsfusbd_usr_evt_t]. *)
Inductive vsfusbd_usr_evt_t :=
  | USREVT_INIT | USREVT_FINI | USREVT_ATTACH | USREVT_DETACH | USREVT_ERROR | USREVT_RESET
  | USREVT_SETUP | USREVT_SOF | USREVT_SUSPEND | USREVT_RESUME | USREVT_IN | USREVT_OUT.

(** ** The streams

    The memory of a stream together with its [op]: the buffer stream of the
    control endpoint, or a memory of a class ([X]). *)
Inductive umem (X : Type) := Buf (m : vsf_bufstream_mem_t) | Mem (x : X).
Arguments Buf {X}. Arguments Mem {X}.

Section umem.
Context {X P : Type} (xop : vsf_stream_op_t X P).

Definition usb_op : vsf_stream_op_t (umem X) (option Z + P) := {|
  op_init m := match m with Buf b => Buf (op_init bufstream_op b) | Mem x => Mem (op_init xop x) end;
  op_fini m := match m with Buf b => Buf (op_fini bufstream_op b) | Mem x => Mem (op_fini xop x) end;
  op_write m n d :=
    match m with
    | Buf b => '(k, b) ← op_write bufstream_op b n d; Some (k, Buf b)
    | Mem x => '(k, x) ← op_write xop x n d; Some (k, Mem x)
    end;
  op_read m n d :=
    match m with
    | Buf b => '(k, b, d) ← op_read bufstream_op b n d; Some (k, Buf b, d)
    | Mem x => '(k, x, d) ← op_read xop x n d; Some (k, Mem x, d)
    end;
  op_get_data_length m :=
    match m with
    | Buf b => op_get_data_length bufstream_op b
    | Mem x => op_get_data_length xop x
    end;
  op_get_avail_length m :=
    match m with
    | Buf b => op_get_avail_length bufstream_op b
    | Mem x => op_get_avail_length xop x
    end;
  op_get_wbuf m :=
    match m with
    | Buf b => '(n, p) ← op_get_wbuf bufstream_op b; Some (n, inl p)
    | Mem x => '(n, p) ← op_get_wbuf xop x; Some (n, inr p)
    end;
  op_get_rbuf m :=
    match m with
    | Buf b => '(n, p) ← op_get_rbuf bufstream_op b; Some (n, inl p)
    | Mem x => '(n, p) ← op_get_rbuf xop x; Some (n, inr p)
    end |}.
End umem.

(** ** The world *)

(** A stream at rest: what its callbacks act on is the world around it. *)
Notation ustream X := (vsf_stream_t (umem X) unit).

(** [on_event] is [vsfhal_usbd_callback.on_event]; [evts] are the events posted
    to the state machine of the device and not yet dispatched. *)
Record uworld (X H R : Type) := {
  dev : vsfusbd_device_t; transacts : gmap Z vsfusbd_transact_t; streams : gmap Z (ustream X);
  evts : list Z; on_event : Z; hal : H; urest : R }.
Arguments dev {X H R}. Arguments transacts {X H R}. Arguments streams {X H R}.
Arguments evts {X H R}. Arguments on_event {X H R}. Arguments hal {X H R}. Arguments urest {X H R}.

(** The functions of the program that the core calls through pointers: on a
    stream event (address, parameter), when a transfer finishes, for the
    descriptors and requests of a class, for its initialisation and that of a
    configuration, for the events the user sees (with the address of their
    parameter), and the handlers a class sets on an endpoint. *)
Record usbd_class (W : Type) := {
  cl_stream : Z → Z → W → option W;
  cl_finish : Z → Z → W → option W;
  cl_get_desc : Z → Z → Z → Z → W → option (Z * option vsf_buffer_t * W);
  cl_request : Z → W → option (Z * W);
  cl_init : Z → Z → W → option (Z * W);
  cl_config : Z → W → option (Z * W);
  cl_usr : Z → vsfusbd_usr_evt_t → Z → W → option W;
  cl_handler : Z → Z → W → option (Z * W) }.
Arguments cl_stream {W}. Arguments cl_finish {W}. Arguments cl_get_desc {W}.
Arguments cl_request {W}. Arguments cl_init {W}. Arguments cl_config {W}.
Arguments cl_usr {W}. Arguments cl_handler {W}.

Section world_fields.
Context {X H R : Type}.
Implicit Types (w : uworld X H R).

Definition set_dev w (d : vsfusbd_device_t) : uworld X H R :=
  {| dev := d; transacts := transacts w; streams := streams w; evts := evts w;
     on_event := on_event w; hal := hal w; urest := urest w |}.
Definition set_transacts w (t : gmap Z vsfusbd_transact_t) : uworld X H R :=
  {| dev := dev w; transacts := t; streams := streams w; evts := evts w;
     on_event := on_event w; hal := hal w; urest := urest w |}.
Definition set_streams w (s : gmap Z (ustream X)) : uworld X H R :=
  {| dev := dev w; transacts := transacts w; streams := s; evts := evts w;
     on_event := on_event w; hal := hal w; urest := urest w |}.
Definition set_evts w (e : list Z) : uworld X H R :=
  {| dev := dev w; transacts := transacts w; streams := streams w; evts := e;
     on_event := on_event w; hal := hal w; urest := urest w |}.
Definition set_on_event w (f : Z) : uworld X H R :=
  {| dev := dev w; transacts := transacts w; streams := streams w; evts := evts w;
     on_event := f; hal := hal w; urest := urest w |}.
Definition set_hal w (h : H) : uworld X H R :=
  {| dev := dev w; transacts := transacts w; streams := streams w; evts := evts w;
     on_event := on_event w; hal := h; urest := urest w |}.
Definition set_urest w (r : R) : uworld X H R :=
  {| dev := dev w; transacts := transacts w; streams := streams w; evts := evts w;
     on_event := on_event w; hal := hal w; urest := r |}.

Definition put_transact w (tp : Z) (t : vsfusbd_transact_t) : uworld X H R :=
  set_transacts w (<[tp := t]> (transacts w)).
Definition put_stream w (p : Z) (s : ustream X) : uworld X H R :=
  set_streams w (<[p := s]> (streams w)).

(** [vsfsm_post_evt_pending(&device->sm, evt)]. *)
Definition post w (evt : Z) : uworld X H R := set_evts w (evts w ++ [evt]).

(** A call into the hardware layer: its result, and the world after it. *)
Definition run_hal w (f : H → Z * H) : Z * uworld X H R := let '(e, h) := f (hal w) in (e, set_hal w h).
Definition do_hal w (f : H → Z * H) : uworld X H R := snd (run_hal w f).

(** A stream of the world on its own, and back. *)
Definition with_env {S E E'} (s : vsf_stream_t S E) (e : E') : vsf_stream_t S E' :=
  {| callback_tx := callback_tx s; callback_rx := callback_rx s; tx_ready := tx_ready s;
     rx_ready := rx_ready s; overflow := overflow s; smem := smem s; env := e |}.
Definition open_stream (p : Z) w : option (vsf_stream_t (umem X) (uworld X H R)) :=
  s ← streams w !! p; Some (with_env s w).
Definition close_stream (p : Z) (s : vsf_stream_t (umem X) (uworld X H R)) : uworld X H R :=
  put_stream (env s) p (with_env s tt).

(** The two ends of a stream get a new callback. *)
Definition set_rx (s : ustream X) (cb : vsf_stream_cb_t) : ustream X :=
  {| callback_tx := callback_tx s; callback_rx := cb; tx_ready := tx_ready s;
     rx_ready := rx_ready s; overflow := overflow s; smem := smem s; env := tt |}.
Definition set_tx (s : ustream X) (cb : vsf_stream_cb_t) : ustream X :=
  {| callback_tx := cb; callback_rx := callback_rx s; tx_ready := tx_ready s;
     rx_ready := rx_ready s; overflow := overflow s; smem := smem s; env := tt |}.
(** [on_disconnect = NULL; on_inout = NULL]. *)
Definition mute (cb : vsf_stream_cb_t) : vsf_stream_cb_t :=
  {| cb_param := cb_param cb; on_inout := NULL; on_connect := on_connect cb; on_disconnect := NULL |}.
End world_fields.

Section endpoints.
Context {X P H R : Type} (xop : vsf_stream_op_t X P) (hw : vsfhal_usbd H).
Notation world := (uworld X H R).
Implicit Types (w : world).
Context (cls : usbd_class world).

(** ** Callbacks of the streams *)

(** [transact->ep]. *)
Definition ep_of w (tp : Z) : option Z := t_ep <$> transacts w !! tp.

Definition vsfusbd_stream_on_disconnect_OUT (tp : Z) w : option world :=
  ep ← ep_of w tp; Some (post w (Z.lor VSFUSBD_STREAM_CLOSE_OUT ep)).
Definition vsfusbd_stream_on_out (tp : Z) w : option world :=
  ep ← ep_of w tp; Some (post w (Z.lor VSFUSBD_STREAM_OUT ep)).
Definition vsfusbd_stream_on_disconnect_IN (tp : Z) w : option world :=
  ep ← ep_of w tp; Some (post w (Z.lor VSFUSBD_STREAM_CLOSE_IN ep)).
Definition vsfusbd_stream_on_in (tp : Z) w : option world :=
  ep ← ep_of w tp; Some (post w (Z.lor VSFUSBD_STREAM_IN ep)).

(** The stream callback at address [f]. *)
Definition stream_cb (f p : Z) w : option world :=
  if f =? STREAM_ON_IN_FN then vsfusbd_stream_on_in p w
  else if f =? STREAM_ON_DISCONNECT_IN_FN then vsfusbd_stream_on_disconnect_IN p w
  else if f =? STREAM_ON_OUT_FN then vsfusbd_stream_on_out p w
  else if f =? STREAM_ON_DISCONNECT_OUT_FN then vsfusbd_stream_on_disconnect_OUT p w
  else cl_stream cls f p w.

(** While an operation runs on the stream at [p], its callbacks act on the
    world with that stream in it. *)
Definition usb_invoke (p f param : Z) (s : vsf_stream_t (umem X) world)
    : option (vsf_stream_t (umem X) world) :=
  w ← stream_cb f param (close_stream p s); open_stream p w.

Definition usb_connect_tx (p : Z) w : option world :=
  s ← open_stream p w; s ← stream_connect_tx (usb_invoke p) s; Some (close_stream p s).
Definition usb_connect_rx (p : Z) w : option world :=
  s ← open_stream p w; s ← stream_connect_rx (usb_invoke p) s; Some (close_stream p s).
(** The count a read or write returns is not used. *)
Definition usb_stream_read (p n : Z) (data : option (list Z)) w : option (option (list Z) * world) :=
  s ← open_stream p w;
  '(_, s, data) ← stream_read (usb_op xop) (usb_invoke p) s n data;
  Some (data, close_stream p s).
Definition usb_stream_write (p n : Z) (data : list Z) w : option world :=
  s ← open_stream p w;
  '(_, s) ← stream_write (usb_op xop) (usb_invoke p) s n (Some data);
  Some (close_stream p s).

Definition usb_data_size (p : Z) w : option Z :=
  s ← streams w !! p; Some (stream_get_data_size (usb_op xop) s).
Definition usb_free_size (p : Z) w : option Z :=
  s ← streams w !! p; Some (stream_get_free_size (usb_op xop) s).

(** ** Endpoint transfers *)

Definition vsfusbd_set_IN_handler (ep handler : Z) w : Z * world :=
  if VSFUSBD_CFG_EPMAXNO <? ep then (VSFERR_FAIL, w)
  else (VSFERR_NONE, set_dev w (set_IN (dev w) (IN_transact (dev w)) (<[ep := handler]> (IN_handler (dev w))))).
Definition vsfusbd_set_OUT_handler (ep handler : Z) w : Z * world :=
  if VSFUSBD_CFG_EPMAXNO <? ep then (VSFERR_FAIL, w)
  else (VSFERR_NONE, set_dev w (set_OUT (dev w) (OUT_transact (dev w)) (<[ep := handler]> (OUT_handler (dev w))))).

(** [device->OUT_handler[ep] = h; device->OUT_transact[ep] = tp]. *)
Definition bind_OUT w (ep tp h : Z) : world :=
  set_dev w (set_OUT (dev w) (<[ep := tp]> (OUT_transact (dev w))) (<[ep := h]> (OUT_handler (dev w)))).
Definition bind_IN w (ep tp h : Z) : world :=
  set_dev w (set_IN (dev w) (<[ep := tp]> (IN_transact (dev w))) (<[ep := h]> (IN_handler (dev w)))).

Definition vsfusbd_transact_out (tp : Z) w : option world :=
  t ← transacts w !! tp;
  if t_idle t then
    let pkg_size := u16 (Z.min (ep_get_OUT_epsize hw (t_ep t) (hal w)) (t_data_size t)) in
    free_size ← usb_free_size (t_stream t) w;
    let idle := free_size <? pkg_size in
    let w := put_transact w tp (set_t_idle t idle) in
    Some (if idle then w else do_hal w (ep_enable_OUT hw (t_ep t)))
  else Some w.

(** [callback_tx] of a stream that the core writes. *)
Definition core_tx (tp : Z) : vsf_stream_cb_t :=
  {| cb_param := tp; on_inout := STREAM_ON_OUT_FN; on_connect := NULL;
     on_disconnect := STREAM_ON_DISCONNECT_OUT_FN |}.
Definition core_rx (tp : Z) : vsf_stream_cb_t :=
  {| cb_param := tp; on_inout := STREAM_ON_IN_FN; on_connect := NULL;
     on_disconnect := STREAM_ON_DISCONNECT_IN_FN |}.

Definition vsfusbd_ep_recv (tp : Z) w : option (Z * world) :=
  t ← transacts w !! tp;
  let ep := t_ep t in
  if VSFUSBD_CFG_EPMAXNO <? ep then Some (VSFERR_FAIL, w)
  else
    let w := bind_OUT w ep tp ON_OUT_DO_FN in
    let w := put_transact w tp (set_t_idle t true) in
    if negb (t_data_size t =? 0) then
      s ← streams w !! t_stream t;
      let w := put_stream w (t_stream t) (set_tx s (core_tx tp)) in
      w ← usb_connect_tx (t_stream t) w;
      w ← vsfusbd_transact_out tp w;
      Some (VSFERR_NONE, w)
    else Some (VSFERR_NONE, do_hal w (ep_enable_OUT hw ep)).

(** [if (transact->cb.on_finish != NULL) ...]. *)
Definition t_finish (t : vsfusbd_transact_t) w : option world :=
  if t_on_finish t =? NULL then Some w else cl_finish cls (t_on_finish t) (t_param t) w.

(** The callbacks of the end of the stream the core holds are cleared. *)
Definition mute_tx (p : Z) w : option world :=
  if p =? NULL then Some w
  else s ← streams w !! p; Some (put_stream w p (set_tx s (mute (callback_tx s)))).
Definition mute_rx (p : Z) w : option world :=
  if p =? NULL then Some w
  else s ← streams w !! p; Some (put_stream w p (set_rx s (mute (callback_rx s)))).

Definition vsfusbd_ep_cancel_recv (tp : Z) w : option world :=
  t ← transacts w !! tp;
  w ← mute_tx (t_stream t) w;
  if t_ep t <=? VSFUSBD_CFG_EPMAXNO then t_finish t (bind_OUT w (t_ep t) NULL NULL) else Some w.

Definition vsfusbd_ep_cancel_send (tp : Z) w : option world :=
  t ← transacts w !! tp;
  w ← mute_rx (t_stream t) w;
  if t_ep t <=? VSFUSBD_CFG_EPMAXNO then t_finish t (bind_IN w (t_ep t) NULL NULL) else Some w.

(** One packet of [cur_size] bytes, from the stream through [tmpbuf]; the
    transfer already accounts for it. *)
Definition send_packet (ep p cur_size : Z) w : option world :=
  '(data, w) ← usb_stream_read p cur_size (Some (tmpbuf (dev w))) w;
  data ← data;
  let w := set_dev w (set_tmpbuf (dev w) data) in
  pkt ← read_at data 0 (Z.to_nat cur_size);
  let w := do_hal w (ep_write_IN_buffer hw ep pkt) in
  Some (do_hal w (ep_set_IN_count hw ep cur_size)).

Definition vsfusbd_on_IN_do (ep : Z) w : option (Z * world) :=
  let tp := entry (IN_transact (dev w)) ep in
  t ← transacts w !! tp;
  if negb (t_data_size t =? 0) then
    data_size ← usb_data_size (t_stream t) w;
    let ep_size := ep_get_IN_epsize hw ep (hal w) in
    let cur_size := u16 (Z.min (t_data_size t) ep_size) in
    let idle := data_size <? cur_size in
    let t := set_t_idle t idle in
    let w := put_transact w tp t in
    if idle then
      s ← streams w !! t_stream t;
      if negb (tx_ready s) && (data_size <? t_data_size t)
      then w ← vsfusbd_ep_cancel_send tp w; Some (VSFERR_NONE, w)
      else Some (VSFERR_NONE, w)
    else
      let t := set_t_size t (u32 (t_data_size t - cur_size)) in
      let t := if (t_data_size t =? 0) && (cur_size <? ep_size) then set_t_zlp t false else t in
      w ← send_packet ep (t_stream t) cur_size (put_transact w tp t);
      Some (VSFERR_NONE, w)
  else if t_zlp t then
    Some (VSFERR_NONE, do_hal (put_transact w tp (set_t_zlp t false)) (ep_set_IN_count hw ep 0))
  else w ← vsfusbd_ep_cancel_send tp w; Some (VSFERR_NONE, w).

Definition vsfusbd_ep_send (tp : Z) w : option (Z * world) :=
  t ← transacts w !! tp;
  let ep := t_ep t in
  if VSFUSBD_CFG_EPMAXNO <? ep then Some (VSFERR_FAIL, w)
  else
    let w := bind_IN w ep tp ON_IN_DO_FN in
    let w := put_transact w tp (set_t_idle t true) in
    if negb (t_data_size t =? 0) then
      s ← streams w !! t_stream t;
      let w := put_stream w (t_stream t) (set_rx s (core_rx tp)) in
      w ← usb_connect_rx (t_stream t) w;
      '(_, w) ← vsfusbd_on_IN_do ep w;
      Some (VSFERR_NONE, w)
    else Some (VSFERR_NONE, do_hal w (ep_set_IN_count hw ep 0)).

(** The packet of the endpoint, in [tmpbuf]. *)
Definition read_packet (ep pkg_size : Z) w : option (list Z * world) :=
  let '(_, data) := ep_read_OUT_buffer hw ep pkg_size (hal w) in
  tmp ← memcpy (tmpbuf (dev w)) 0 (take (Z.to_nat pkg_size) data);
  pkt ← read_at tmp 0 (Z.to_nat pkg_size);
  Some (pkt, set_dev w (set_tmpbuf (dev w) tmp)).

(** [free_size], [last] and [transact->idle] once the packet is accounted for. *)
Definition out_last (t : vsfusbd_transact_t) (ep_size pkg_size : Z) w
    : option (Z * bool * vsfusbd_transact_t) :=
  if negb (t_data_size t =? 0) then
    s ← streams w !! t_stream t;
    let free_size := u32 (stream_get_free_size (usb_op xop) s - pkg_size) in
    let last := (pkg_size <? ep_size) || (t_data_size t =? 0) ||
                (negb (rx_ready s) && (free_size <? t_data_size t)) in
    Some (free_size, last, set_t_idle t last)
  else Some (0, true, t).

(** The endpoint is enabled again when the next packet fits. *)
Definition out_next (tp ep ep_size free_size : Z) (t : vsfusbd_transact_t) w : world :=
  let next_pkg_size := u16 (Z.min (t_data_size t) ep_size) in
  let idle := free_size <? next_pkg_size in
  let w := put_transact w tp (set_t_idle t idle) in
  if idle then w else do_hal w (ep_enable_OUT hw ep).

Definition vsfusbd_on_OUT_do (ep : Z) w : option (Z * world) :=
  let tp := entry (OUT_transact (dev w)) ep in
  let ep_size := ep_get_OUT_epsize hw ep (hal w) in
  let pkg_size := ep_get_OUT_count hw ep (hal w) in
  '(pkt, w) ← read_packet ep pkg_size w;
  t ← transacts w !! tp;
  if t_data_size t <? pkg_size then Some (VSFERR_BUG, w)
  else
    let t := set_t_size t (u32 (t_data_size t - pkg_size)) in
    '(free_size, last, t) ← out_last t ep_size pkg_size w;
    let w := put_transact w tp t in
    let w := if (last : bool) then w else out_next tp ep ep_size free_size t w in
    w ← (if 0 <? pkg_size then usb_stream_write (t_stream t) pkg_size pkt w else Some w);
    if last then w ← vsfusbd_ep_cancel_recv tp w; Some (VSFERR_NONE, w)
    else Some (VSFERR_NONE, w).

(** The handler at address [f] of endpoint [ep]; what it returns is not used. *)
Definition ep_handler (f ep : Z) w : option world :=
  if f =? NULL then Some w
  else if f =? ON_IN_DO_FN then snd <$> vsfusbd_on_IN_do ep w
  else if f =? ON_OUT_DO_FN then snd <$> vsfusbd_on_OUT_do ep w
  else snd <$> cl_handler cls f ep w.

Definition vsfusbd_usr_cb (evt : vsfusbd_usr_evt_t) (param : Z) w : option world :=
  if on_EVENT (dev w) =? NULL then Some w else cl_usr cls (on_EVENT (dev w)) evt param w.

(** The first switch on a transfer's event: the event left for the second. *)
Definition stream_evt (tp evt : Z) w : option (Z * world) :=
  t ← transacts w !! tp;
  let kind := Z.land evt VSFUSBD_EVT_EVT_MASK in
  if (kind =? VSFUSBD_STREAM_CLOSE_IN) || (kind =? VSFUSBD_STREAM_IN) then
    Some (if t_idle t then VSFUSBD_INTEVT_IN else evt, w)
  else if kind =? VSFUSBD_STREAM_CLOSE_OUT then
    w ← (if t_idle t then vsfusbd_ep_cancel_recv tp w else Some w); Some (evt, w)
  else if kind =? VSFUSBD_STREAM_OUT then
    w ← vsfusbd_transact_out tp w; Some (evt, w)
  else Some (evt, w).

(** The [default] case of the event handler, but for errors. *)
Definition transfer_evt (evt : Z) w : option world :=
  let ep := Z.land evt VSFUSBD_EVT_EP_MASK in
  let dir_in := Z.land evt VSFUSBD_EVT_DIR_IN in
  if VSFUSBD_CFG_EPMAXNO <? ep then Some w
  else
    let tp := entry (if dir_in =? 0 then OUT_transact (dev w) else IN_transact (dev w)) ep in
    '(evt, w) ← (if tp =? NULL then Some (evt, w) else stream_evt tp evt w);
    let kind := Z.land evt VSFUSBD_EVT_EVT_MASK in
    if kind =? VSFUSBD_INTEVT_IN then
      w ← vsfusbd_usr_cb USREVT_IN ep w; ep_handler (entry (IN_handler (dev w)) ep) ep w
    else if kind =? VSFUSBD_INTEVT_OUT then
      w ← vsfusbd_usr_cb USREVT_OUT ep w; ep_handler (entry (OUT_handler (dev w)) ep) ep w
    else Some w.

(** [vsfusbd_on_EVENT]: the interrupts of the controller become events. *)
Definition vsfusbd_on_EVENT (evt : vsfhal_usbd_evt_t) (value : Z) w : world :=
  match evt with
  | ON_ATTACH => post w VSFUSBD_INTEVT_ATTACH
  | ON_DETACH => post w VSFUSBD_INTEVT_DETACH
  | ON_RESET => post w VSFUSBD_INTEVT_RESET
  | ON_SETUP => post w VSFUSBD_INTEVT_SETUP
  | ON_ERROR => post w (Z.lor VSFUSBD_INTEVT_ERR value)
  | ON_SUSPEND => post w VSFUSBD_INTEVT_SUSPEND
  | ON_RESUME => post w VSFUSBD_INTEVT_RESUME
  | ON_SOF => post w VSFUSBD_INTEVT_SOF
  | ON_IN => post w (Z.lor VSFUSBD_INTEVT_IN value)
  | ON_OUT => post w (Z.lor VSFUSBD_INTEVT_OUT value)
  | ON_NAK | ON_UNDERFLOW | ON_OVERFLOW | ON_USER => w
  end.
End endpoints.
