(* ===== verification/Usbctrl.v ===== *)
(** * Usbctrl: requests on endpoint 0 and the event handler of the device core
    (component/usb/core/vsfusbd.c)

    A SETUP packet is answered in two steps: [vsfusbd_ctrl_prepare] decides what
    is sent or received, and when the status stage has been sent,
    [vsfusbd_ctrl_process] acts.  Descriptors come from a table, the endpoints
    are set up from the configuration descriptor. *)

From S2P Require Import Prelude Chain Fifo Multibuf Endian Stream Vsfsm Malstream Vsfusbd.

(** ** Descriptors *)

(** [vsfusbd_device_get_descriptor]: a table without its terminator is read
    past its end. *)
Fixpoint vsfusbd_device_get_descriptor (filter : list vsfusbd_desc_filter_t) (type index lanid : Z)
    : option (Z * option vsf_buffer_t) :=
  match filter with
  | [] => None
  | f :: filter =>
      match df_buffer f with
      | None => Some (VSFERR_FAIL, None)
      | Some b =>
          if size b =? 0 then Some (VSFERR_FAIL, None)
          else if (df_type f =? type) && (df_index f =? index) && (df_lanid f =? lanid)
          then Some (VSFERR_NONE, Some b)
          else vsfusbd_device_get_descriptor filter type index lanid
      end
  end.

(** The index of the configuration with a value, -1 for none; the loop's
    counter has 8 bits. *)
Fixpoint get_config_loop (n : nat) (i : Z) (d : vsfusbd_device_t) (value : Z) : option Z :=
  match n with
  | O => Some (-1)
  | S n =>
      c ← config d !! Z.to_nat i;
      if value =? configuration_value c then Some i else get_config_loop n (i + 1) d value
  end.
Definition vsfusbd_get_config (d : vsfusbd_device_t) (value : Z) : option Z :=
  get_config_loop (Z.to_nat (num_of_configuration d)) 0 d (u8 value).

Definition the_config (d : vsfusbd_device_t) : option vsfusbd_config_t :=
  config d !! Z.to_nat (configuration d).
Definition set_the_config (d : vsfusbd_device_t) (c : vsfusbd_config_t) : vsfusbd_device_t :=
  set_config d (<[Z.to_nat (configuration d) := c]> (config d)).

Definition set_maps (c : vsfusbd_config_t) (o i : list Z) : vsfusbd_config_t :=
  {| cfg_init := cfg_init c; cfg_fini := cfg_fini c; num_of_ifaces := num_of_ifaces c;
     iface := iface c; configuration_value := configuration_value c; ep_OUT_iface_map := o;
     ep_IN_iface_map := i |}.
Definition set_cfg_value (c : vsfusbd_config_t) (v : Z) : vsfusbd_config_t :=
  {| cfg_init := cfg_init c; cfg_fini := cfg_fini c; num_of_ifaces := num_of_ifaces c;
     iface := iface c; configuration_value := v; ep_OUT_iface_map := ep_OUT_iface_map c;
     ep_IN_iface_map := ep_IN_iface_map c |}.
Definition set_iface (c : vsfusbd_config_t) (l : list vsfusbd_iface_t) : vsfusbd_config_t :=
  {| cfg_init := cfg_init c; cfg_fini := cfg_fini c; num_of_ifaces := num_of_ifaces c;
     iface := l; configuration_value := configuration_value c;
     ep_OUT_iface_map := ep_OUT_iface_map c; ep_IN_iface_map := ep_IN_iface_map c |}.
Definition set_alternate (i : vsfusbd_iface_t) (v : Z) : vsfusbd_iface_t :=
  {| class_protocol := class_protocol i; protocol_param := protocol_param i;
     alternate_setting := u8 v |}.

(** [int8_t] from [int16_t]. *)
Definition s8 (x : Z) : Z := sgn 8 x.

Section ctrl.
Context {X P H R : Type} (xop : vsf_stream_op_t X P) (hw : vsfhal_usbd H).
Notation world := (uworld X H R).
Implicit Types (w : world).

(** ** Endpoints from the configuration descriptor *)

(** [ep_attr & 3]; the two bits have four cases. *)
Definition ep_type_of (attr : Z) : Z :=
  match Z.land attr 3 with
  | 0 => USB_EP_TYPE_CONTROL
  | 1 => USB_EP_TYPE_ISO
  | 2 => USB_EP_TYPE_BULK
  | _ => USB_EP_TYPE_INTERRUPT
  end.

(** [case USB_DT_ENDPOINT]. *)
Definition auto_init_ep (buf : list Z) (pos cur_iface : Z) w : option (Z * world) :=
  ep_addr ← getb buf (pos + 2);
  ep_attr ← getb buf (pos + 3);
  ep_size ← GET_U16_LSBFIRST (drop (Z.to_nat (pos + 4)) buf);
  let ep_index := Z.land ep_addr 0x0F in
  if VSFUSBD_CFG_EPMAXNO <? ep_index then Some (VSFERR_FAIL, w)
  else
    c ← the_config (dev w);
    if negb (Z.land ep_addr 0x80 =? 0) then
      let w := do_hal w (ep_set_IN_epsize hw ep_index ep_size) in
      m ← setb (ep_IN_iface_map c) ep_index (s8 cur_iface);
      let w := set_dev w (set_the_config (dev w) (set_maps c (ep_OUT_iface_map c) m)) in
      Some (VSFERR_NONE, do_hal w (ep_set_type hw ep_index (ep_type_of ep_attr)))
    else
      let w := do_hal w (ep_set_OUT_epsize hw ep_index ep_size) in
      m ← setb (ep_OUT_iface_map c) ep_index (s8 cur_iface);
      let w := set_dev w (set_the_config (dev w) (set_maps c m (ep_IN_iface_map c))) in
      Some (VSFERR_NONE, do_hal w (ep_set_type hw ep_index (ep_type_of ep_attr))).

(** The loop over the descriptors: [pos] has 16 bits. *)
Fixpoint auto_init_loop (fuel : nat) (desc : vsf_buffer_t) (pos cur_iface : Z) w : option (Z * world) :=
  match fuel with
  | O => None
  | S fuel =>
      if size desc <=? pos then Some (VSFERR_NONE, w)
      else
        kind ← getb (buffer desc) (pos + 1);
        iface ← (if kind =? USB_DT_INTERFACE then getb (buffer desc) (pos + 2) else Some cur_iface);
        '(err, w) ← (if kind =? USB_DT_ENDPOINT then auto_init_ep (buffer desc) pos cur_iface w
                     else Some (VSFERR_NONE, w));
        if negb (err =? 0) then Some (err, w)
        else
          len ← getb (buffer desc) pos;
          auto_init_loop fuel desc (u16 (pos + len)) iface w
  end.

(** The attributes of the configuration end in a local variable. *)
Definition config_feature (attr : Z) : Z :=
  Z.lor (if Z.land attr USB_CONFIG_ATT_SELFPOWER =? 0 then 0 else Z.shiftl 1 USB_DEVICE_SELF_POWERED)
        (if Z.land attr USB_CONFIG_ATT_WAKEUP =? 0 then 0 else Z.shiftl 1 USB_DEVICE_REMOTE_WAKEUP).

Definition vsfusbd_auto_init w : option (Z * world) :=
  '(err, desc) ← vsfusbd_device_get_descriptor (desc_filter (dev w)) USB_DT_CONFIG
                   (configuration (dev w)) 0;
  if negb (err =? 0) then Some (VSFERR_FAIL, w)
  else
    desc ← desc;
    attr ← getb (buffer desc) 7;
    let feature := config_feature attr in
    auto_init_loop (S (Z.to_nat (size desc))) desc USB_DT_CONFIG_SIZE (-1) w.

(** ** Standard requests *)

Context (cls : usbd_class world).

(** The buffer of the control stream; [buffer->buffer] is [reply_buffer] until
    a descriptor takes its place. *)
Definition ctrl_buffer w : option vsf_buffer_t :=
  s ← streams w !! CTRL_STREAM;
  match smem s with Buf m => Some (bbuf m) | Mem _ => None end.
Definition put_ctrl_mem w (f : vsf_bufstream_mem_t → vsf_bufstream_mem_t) : option world :=
  s ← streams w !! CTRL_STREAM;
  match smem s with
  | Buf m => Some (put_stream w CTRL_STREAM (set_smem s (Buf (f m))))
  | Mem _ => None
  end.
Definition put_ctrl_buffer w (b : vsf_buffer_t) : option world :=
  put_ctrl_mem w (λ m, {| bbuf := b; bread := bread m; pos := pos m |}).

(** [reply_buffer[..] = bytes; buffer->size = n]. *)
Definition reply w (bs : list Z) (n : Z) : option (Z * world) :=
  r ← memcpy (reply_buffer (ctrl_handler (dev w))) 0 bs;
  let w := set_dev w (set_ctrl (dev w) (set_c_reply (ctrl_handler (dev w)) r)) in
  w ← put_ctrl_buffer w {| buffer := r; size := n |};
  Some (VSFERR_NONE, w).

Definition set_feature w (f : Z) : world :=
  let d := dev w in set_dev w (set_state d (address d) (configured d) (configuration d) f).

Definition fail w : option (Z * world) := Some (VSFERR_FAIL, w).
Definition done w : option (Z * world) := Some (VSFERR_NONE, w).

(** The first byte of a descriptor request's value is its type. *)
Definition value_type (v : Z) : Z := Z.land (Z.shiftr v 8) 0xFF.
Definition value_index (v : Z) : Z := Z.land v 0xFF.

Definition prepare_device (r : usb_ctrlrequest_t) w : option (Z * world) :=
  let d := dev w in
  match bRequest r with
  | 0x00 => (* USB_REQ_GET_STATUS *)
      if negb (wValue r =? 0) || negb (wIndex r =? 0) then fail w else reply w [feature d; 0] 2
  | 0x01 => (* USB_REQ_CLEAR_FEATURE *)
      if negb (wIndex r =? 0) || negb (wValue r =? USB_DEVICE_REMOTE_WAKEUP) then fail w
      else done (set_feature w (Z.land (feature d) (u8 (Z.lnot USB_CONFIG_ATT_WAKEUP))))
  | 0x03 => (* USB_REQ_SET_FEATURE *)
      if negb (wIndex r =? 0) || negb (wValue r =? USB_DEVICE_REMOTE_WAKEUP) then fail w
      else done (set_feature w (Z.lor (feature d) USB_CONFIG_ATT_WAKEUP))
  | 0x05 => (* USB_REQ_SET_ADDRESS *)
      if (127 <? wValue r) || negb (wIndex r =? 0) || negb (configuration d =? 0) then fail w
      else done w
  | 0x06 => (* USB_REQ_GET_DESCRIPTOR *)
      '(err, b) ← vsfusbd_device_get_descriptor (desc_filter d) (value_type (wValue r))
                    (value_index (wValue r)) (wIndex r);
      if negb (err =? 0) then fail w else b ← b; w ← put_ctrl_buffer w b; done w
  | 0x08 => (* USB_REQ_GET_CONFIGURATION *)
      if negb (wValue r =? 0) || negb (wIndex r =? 0) then fail w
      else c ← the_config d; reply w [configuration_value c] 2
  | 0x09 => (* USB_REQ_SET_CONFIGURATION *)
      if negb (wIndex r =? 0) then fail w
      else
        i ← vsfusbd_get_config d (wValue r);
        if i <? 0 then fail w
        else done (set_dev w (set_state d (address d) false (configuration d) (feature d)))
  | _ => fail w
  end.

(** [protocol->get_desc(device, type, index, 0, buffer)] for the interface; what
    it leaves in [buffer] is in its result. *)
Definition class_desc (cp : option vsfusbd_class_protocol_t) (r : usb_ctrlrequest_t) w
    : option (Z * world) :=
  match cp with
  | None => fail w
  | Some cp =>
      if get_desc cp =? NULL then fail w
      else
        '(err, b, w) ← cl_get_desc cls (get_desc cp) (value_type (wValue r))
                         (value_index (wValue r)) 0 w;
        if negb (err =? 0) then fail w
        else match b with
             | Some b => w ← put_ctrl_buffer w b; done w
             | None => done w
             end
  end.

(** A function of the class that is allowed to be missing. *)
Definition class_request (f : vsfusbd_class_protocol_t → Z) (cp : option vsfusbd_class_protocol_t) w
    : option world :=
  match cp with
  | Some cp => if f cp =? NULL then Some w else snd <$> cl_request cls (f cp) w
  | None => Some w
  end.

(** The interface is read before its index is checked. *)
Definition prepare_iface (r : usb_ctrlrequest_t) w : option (Z * world) :=
  c ← the_config (dev w);
  let idx := u8 (wIndex r) in
  i ← iface c !! Z.to_nat idx;
  let cp := class_protocol i in
  if num_of_ifaces c <=? idx then fail w
  else
    match bRequest r with
    | 0x00 => (* USB_REQ_GET_STATUS *)
        if negb (wValue r =? 0) || (num_of_ifaces c <=? wIndex r) then fail w else reply w [0; 0] 2
    | 0x01 => done w (* USB_REQ_CLEAR_FEATURE *)
    | 0x03 => done w (* USB_REQ_SET_FEATURE *)
    | 0x06 => class_desc cp r w (* USB_REQ_GET_DESCRIPTOR *)
    | 0x0A => (* USB_REQ_GET_INTERFACE *)
        if negb (wValue r =? 0) then fail w else reply w [alternate_setting i] 1
    | 0x0B => (* USB_REQ_SET_INTERFACE *)
        let c := set_iface c (<[Z.to_nat idx := set_alternate i (wValue r)]> (iface c)) in
        w ← class_request request_prepare cp (set_dev w (set_the_config (dev w) c)); done w
    | _ => fail w
    end.

Definition prepare_endpoint (r : usb_ctrlrequest_t) w : option (Z * world) :=
  let ep := Z.land (wIndex r) 0x7F in
  let dir := Z.land (wIndex r) 0x80 in
  if Z.land (bRequestType r) USB_DIR_MASK =? USB_DIR_IN then fail w
  else
    match bRequest r with
    | 0x00 => (* USB_REQ_GET_STATUS *)
        if negb (wValue r =? 0) || (ep_num hw <=? wIndex r) then fail w
        else
          let stalled := if dir =? 0 then ep_is_OUT_stall hw ep (hal w) else ep_is_IN_stall hw ep (hal w) in
          reply w [of_bool stalled; 0] 2
    | 0x01 => (* USB_REQ_CLEAR_FEATURE *)
        if negb (wValue r =? USB_ENDPOINT_HALT) || (ep_num hw <=? ep) then fail w
        else if negb (dir =? 0) then
          done (do_hal (do_hal w (ep_reset_IN_toggle hw ep)) (ep_clear_IN_stall hw ep))
        else
          done (do_hal (do_hal (do_hal w (ep_reset_OUT_toggle hw ep)) (ep_clear_OUT_stall hw ep))
                  (ep_enable_OUT hw ep))
    | _ => fail w
    end.

(** [ctrl_handler->data_size = n]. *)
Definition set_data_size w (n : Z) : world :=
  set_dev w (set_ctrl (dev w) (set_c_size (ctrl_handler (dev w)) n)).

Definition vsfusbd_stdctrl_prepare w : option (Z * world) :=
  let r := request (ctrl_handler (dev w)) in
  let recip := Z.land (bRequestType r) USB_RECIP_MASK in
  '(err, w) ← (if recip =? USB_RECIP_DEVICE then prepare_device r w
               else if recip =? USB_RECIP_INTERFACE then prepare_iface r w
               else if recip =? USB_RECIP_ENDPOINT then prepare_endpoint r w
               else fail w);
  if negb (err =? 0) then Some (err, w)
  else b ← ctrl_buffer w; done (set_data_size w (size b)).

(** The interfaces of a configuration are initialised one by one. *)
Fixpoint init_ifaces (n : nat) (i : Z) w : option (Z * world) :=
  match n with
  | O => done w
  | S n =>
      c ← the_config (dev w);
      f ← iface c !! Z.to_nat i;
      let c := set_iface c (<[Z.to_nat i := set_alternate f 0]> (iface c)) in
      let w := set_dev w (set_the_config (dev w) c) in
      '(err, w) ← match class_protocol f with
                  | Some cp => if cp_init cp =? NULL then done w else cl_init cls (cp_init cp) i w
                  | None => done w
                  end;
      if negb (err =? 0) then fail w else init_ifaces n (i + 1) w
  end.

Definition set_configured w (b : bool) : world :=
  let d := dev w in set_dev w (set_state d (address d) b (configuration d) (feature d)).

(** [case USB_REQ_SET_CONFIGURATION]. *)
Definition process_set_config (r : usb_ctrlrequest_t) w : option (Z * world) :=
  i ← vsfusbd_get_config (dev w) (wValue r);
  if i <? 0 then fail w
  else
    let d := dev w in
    let w := set_dev w (set_state d (address d) (configured d) (u8 i) (feature d)) in
    '(err, w) ← vsfusbd_auto_init w;
    if negb (err =? 0) then fail w
    else
      c ← the_config (dev w);
      '(err, w) ← (if cfg_init c =? NULL then done w else cl_config cls (cfg_init c) w);
      if negb (err =? 0) then fail w
      else
        '(err, w) ← init_ifaces (Z.to_nat (num_of_ifaces c)) 0 w;
        if negb (err =? 0) then fail w else done (set_configured w true).

Definition vsfusbd_stdctrl_process w : option (Z * world) :=
  let r := request (ctrl_handler (dev w)) in
  let recip := Z.land (bRequestType r) USB_RECIP_MASK in
  if recip =? USB_RECIP_DEVICE then
    match bRequest r with
    | 0x05 => (* USB_REQ_SET_ADDRESS *)
        let d := dev w in
        let w := set_dev w (set_state d (u8 (wValue r)) (configured d) (configuration d) (feature d)) in
        Some (run_hal w (hal_set_address hw (address (dev w))))
    | 0x09 => process_set_config r w (* USB_REQ_SET_CONFIGURATION *)
    | _ => done w
    end
  else if recip =? USB_RECIP_INTERFACE then
    c ← the_config (dev w);
    let idx := u8 (wIndex r) in
    i ← iface c !! Z.to_nat idx;
    if num_of_ifaces c <=? idx then fail w
    else
      match bRequest r with
      | 0x0B => w ← class_request request_process (class_protocol i) w; done w
      | _ => done w
      end
  else done w.

(** ** Requests of the classes *)

(** The interface a class request is for; negative for none. *)
Definition request_iface (d : vsfusbd_device_t) (r : usb_ctrlrequest_t) : Z :=
  let recip := Z.land (bRequestType r) USB_RECIP_MASK in
  if recip =? USB_RECIP_DEVICE then s8 (device_class_iface d)
  else if recip =? USB_RECIP_INTERFACE then s8 (wIndex r) else -1.

(** [f] of the class of that interface; a NULL class is undefined. *)
Definition call_class (f : vsfusbd_class_protocol_t → Z) (err : Z) (r : usb_ctrlrequest_t) w
    : option (Z * world) :=
  c ← the_config (dev w);
  let n := request_iface (dev w) r in
  if (0 <=? n) && (n <? num_of_ifaces c) then
    i ← iface c !! Z.to_nat n;
    cp ← class_protocol i;
    if f cp =? NULL then Some (err, w) else cl_request cls (f cp) w
  else Some (err, w).

Definition is_in (r : usb_ctrlrequest_t) : bool := Z.land (bRequestType r) USB_DIR_MASK =? USB_DIR_IN.

(** [stream_init] on a stream of the world: no callback is called. *)
Definition usb_stream_init (p : Z) w : option (Z * world) :=
  s ← streams w !! p;
  let '(err, s) := stream_init (usb_op xop) s in
  Some (err, put_stream w p s).

Definition vsfusbd_ctrl_prepare w : option (Z * world) :=
  let c := ctrl_handler (dev w) in
  let r := request c in
  let type := Z.land (bRequestType r) USB_TYPE_MASK in
  let w := set_dev w (set_ctrl (dev w) (set_c_stream c CTRL_STREAM)) in
  w ← put_ctrl_mem w (λ m, {| bbuf := {| buffer := reply_buffer c; size := 0 |};
                              bread := is_in r; pos := pos m |});
  '(err, w) ← (if type =? USB_TYPE_STANDARD then vsfusbd_stdctrl_prepare w
               else if (type =? USB_TYPE_CLASS) || (type =? USB_TYPE_VENDOR) then
                 call_class request_prepare VSFERR_FAIL r w
               else fail w);
  if negb (err =? 0) then Some (err, w)
  else if c_data_size (ctrl_handler (dev w)) =? 0 then done w
  else usb_stream_init (c_stream (ctrl_handler (dev w))) w.

Definition vsfusbd_ctrl_process w : option world :=
  let r := request (ctrl_handler (dev w)) in
  let type := Z.land (bRequestType r) USB_TYPE_MASK in
  if type =? USB_TYPE_STANDARD then snd <$> vsfusbd_stdctrl_process w
  else if type =? USB_TYPE_CLASS then snd <$> call_class request_process VSFERR_NONE r w
  else Some w.

(** ** Stages of a request *)

Definition vsfusbd_setup_end_callback w : option world := vsfusbd_ctrl_process w.

(** The status stage, in the direction against the data; what the transfer
    returns is not used. *)
Definition vsfusbd_setup_status_callback w : option world :=
  let out := negb (is_in (request (ctrl_handler (dev w)))) in
  let tp := if out then CTRL_IN else CTRL_OUT in
  t ← transacts w !! tp;
  let w := put_transact w tp
             (set_t_cb (set_t_zlp (set_t_size (set_t_stream t NULL) 0) false) SETUP_END_FN DEVICE) in
  snd <$> (if out then vsfusbd_ep_send xop hw cls tp w else vsfusbd_ep_recv xop hw cls tp w).
End ctrl.

(** ** The core as a class of its own

    [on_finish] of a transfer is one of the two stages or a function of a class,
    which may start transfers that finish in turn; [n] bounds the nesting. *)
Section core.
Context {X P H R : Type} (xop : vsf_stream_op_t X P) (hw : vsfhal_usbd H).
Notation world := (uworld X H R).
Implicit Types (w : world).
Context (classes : usbd_class world → usbd_class world).

Definition no_class : usbd_class world := {|
  cl_stream _ _ _ := None; cl_finish _ _ _ := None; cl_get_desc _ _ _ _ _ := None;
  cl_request _ _ := None; cl_init _ _ _ := None; cl_config _ _ := None;
  cl_usr _ _ _ _ := None; cl_handler _ _ _ := None |}.

Definition with_finish (c : usbd_class world) (f : Z → Z → world → option world)
    : usbd_class world :=
  {| cl_stream := cl_stream c; cl_finish := f; cl_get_desc := cl_get_desc c;
     cl_request := cl_request c; cl_init := cl_init c; cl_config := cl_config c;
     cl_usr := cl_usr c; cl_handler := cl_handler c |}.

Fixpoint core (n : nat) : usbd_class world :=
  match n with
  | O => no_class
  | S n =>
      let below := core n in
      with_finish (classes below) (λ f p w,
        if f =? SETUP_END_FN then vsfusbd_setup_end_callback hw below w
        else if f =? SETUP_STATUS_FN then vsfusbd_setup_status_callback xop hw below w
        else cl_finish (classes below) f p w)
  end.

(** ** The event handler *)

Context (cls : usbd_class world).

(** The loop of VSFSM_EVT_INIT: the value of each configuration is in its
    descriptor. *)
Fixpoint init_configs (n : nat) (i : Z) w : option (Z * world) :=
  match n with
  | O => done w
  | S n =>
      '(err, desc) ← vsfusbd_device_get_descriptor (desc_filter (dev w)) USB_DT_CONFIG i 0;
      if negb (err =? 0) then fail w
      else
        desc ← desc;
        v ← getb (buffer desc) 5;
        c ← config (dev w) !! Z.to_nat i;
        init_configs n (i + 1)
          (set_dev w (set_config (dev w) (<[Z.to_nat i := set_cfg_value c v]> (config (dev w)))))
  end.

Definition unconfigure (d : vsfusbd_device_t) : vsfusbd_device_t := set_state d (address d) false 0 0.

Definition evt_init w : option world :=
  let w := set_dev w (unconfigure (dev w)) in
  '(err, w) ← init_configs (Z.to_nat (num_of_configuration (dev w))) 0 w;
  if negb (err =? 0) then Some w
  else
    let w := set_on_event w ON_EVENT_FN in
    let '(err, w) := run_hal w (hal_init hw) in
    if negb (err =? 0) then Some w else vsfusbd_usr_cb cls USREVT_INIT NULL w.

(** [memset(map, -1, 16)] on both maps of each configuration. *)
Definition clear_maps (c : vsfusbd_config_t) : vsfusbd_config_t :=
  set_maps c (replicate 16 (-1)) (replicate 16 (-1)).
Definition reset_device (d : vsfusbd_device_t) : vsfusbd_device_t :=
  let d := set_OUT (set_IN d ∅ ∅) ∅ ∅ in
  let d := unconfigure d in
  set_config d (clear_maps <$> take (Z.to_nat (num_of_configuration d)) (config d) ++
                drop (Z.to_nat (num_of_configuration d)) (config d)).

(** [a || b || ...] over calls of the hardware layer. *)
Fixpoint run_hals w (l : list (H → Z * H)) : Z * world :=
  match l with
  | [] => (0, w)
  | f :: l => let '(err, w) := run_hal w f in if err =? 0 then run_hals w l else (err, w)
  end.

Definition set_c_ep w (n : Z) : world :=
  set_dev w (set_ctrl (dev w) (set_c_ep_size (ctrl_handler (dev w)) n)).

Definition evt_reset w : option world :=
  let w := set_dev w (reset_device (dev w)) in
  let '(err, w) := run_hal w (hal_reset hw) in
  if Z.of_nat (length (config (dev w))) <? num_of_configuration (dev w) then None
  else if negb (err =? 0) then Some w
  else
    '(err, desc) ← vsfusbd_device_get_descriptor (desc_filter (dev w)) USB_DT_DEVICE 0 0;
    if negb (err =? 0) then Some w
    else
      desc ← desc;
      ep_size ← getb (buffer desc) 7;
      let w := set_c_ep w ep_size in
      let '(err, w) := run_hals w [hal_prepare_buffer hw; ep_set_IN_epsize hw 0 ep_size;
                          ep_set_OUT_epsize hw 0 ep_size; ep_set_type hw 0 USB_EP_TYPE_CONTROL] in
      if negb (err =? 0) then Some w
      else
        w ← vsfusbd_usr_cb cls USREVT_RESET NULL w;
        let w := snd (vsfusbd_set_IN_handler 0 ON_IN_DO_FN w) in
        let w := snd (vsfusbd_set_OUT_handler 0 ON_OUT_DO_FN w) in
        Some (do_hal w (hal_set_address hw 0)).

(** The eight bytes of a SETUP packet are the request. *)
Definition parse_request (b : list Z) : option usb_ctrlrequest_t :=
  t ← getb b 0; r ← getb b 1;
  v ← GET_U16_LSBFIRST (drop 2 b); i ← GET_U16_LSBFIRST (drop 4 b); n ← GET_U16_LSBFIRST (drop 6 b);
  Some {| bRequestType := t; bRequest := r; wValue := v; wIndex := i; wLength := n |}.

(** From the request prepared to the transfer of the data stage. *)
Definition setup_data (r : usb_ctrlrequest_t) w : option (Z * world) :=
  let c := ctrl_handler (dev w) in
  let w := if wLength r <? c_data_size c then set_data_size w (wLength r) else w in
  let c := ctrl_handler (dev w) in
  if negb (is_in r) then
    if wLength r =? 0 then w ← vsfusbd_setup_status_callback xop hw cls w; done w
    else
      t ← transacts w !! CTRL_OUT;
      let t := set_t_cb (set_t_stream (set_t_size t (c_data_size c)) (c_stream c)) SETUP_STATUS_FN DEVICE in
      vsfusbd_ep_recv xop hw cls CTRL_OUT (put_transact w CTRL_OUT t)
  else
    t ← transacts w !! CTRL_IN;
    let t := set_t_cb (set_t_stream (set_t_size t (c_data_size c)) (c_stream c)) NULL DEVICE in
    let t := set_t_zlp t (c_data_size c <? wLength r) in
    '(err, w) ← vsfusbd_ep_send xop hw cls CTRL_IN (put_transact w CTRL_IN t);
    if negb (err =? 0) then Some (err, w)
    else w ← vsfusbd_setup_status_callback xop hw cls w; done w.

(** The address of the request, for the user. *)
Definition REQUEST_PTR : Z := 0x3010.

Definition evt_setup w : option world :=
  let '(err, b) := hal_get_setup hw (hal w) in
  r ← parse_request b;
  let w := set_dev w (set_ctrl (dev w) (set_c_request (ctrl_handler (dev w)) r)) in
  '(err, w) ← (if negb (err =? 0) then fail w
               else
                 '(err, w) ← vsfusbd_ctrl_prepare xop hw cls w;
                 if negb (err =? 0) then fail w
                 else
                   w ← vsfusbd_usr_cb cls USREVT_SETUP REQUEST_PTR w;
                   setup_data (request (ctrl_handler (dev w))) w);
  Some (if negb (err =? 0)
        then do_hal (do_hal w (ep_set_IN_stall hw 0)) (ep_set_OUT_stall hw 0) else w).

(** Parameters that are values of their own are passed as they are. *)
Definition vsfusbd_evt_handler (evt : Z) w : option world :=
  if (evt =? VSFSM_EVT_ENTER) || (evt =? VSFSM_EVT_EXIT) then Some w
  else if evt =? VSFSM_EVT_FINI then
    vsfusbd_usr_cb cls USREVT_FINI NULL (do_hal (do_hal w (hal_fini hw)) (hal_disconnect hw))
  else if evt =? VSFSM_EVT_INIT then evt_init w
  else if evt =? VSFUSBD_INTEVT_RESET then evt_reset w
  else if evt =? VSFUSBD_INTEVT_SETUP then evt_setup w
  else if evt =? VSFUSBD_INTEVT_SUSPEND then vsfusbd_usr_cb cls USREVT_SUSPEND NULL w
  else if evt =? VSFUSBD_INTEVT_RESUME then vsfusbd_usr_cb cls USREVT_RESUME NULL w
  else if evt =? VSFUSBD_INTEVT_SOF then
    vsfusbd_usr_cb cls USREVT_SOF (hal_get_frame_number hw (hal w)) w
  else if evt =? VSFUSBD_INTEVT_ATTACH then vsfusbd_usr_cb cls USREVT_ATTACH NULL w
  else if evt =? VSFUSBD_INTEVT_DETACH then vsfusbd_usr_cb cls USREVT_DETACH NULL w
  else if Z.land evt (Z.lnot VSFUSBD_EVT_ERR_MASK) =? VSFUSBD_INTEVT_ERR then
    vsfusbd_usr_cb cls USREVT_ERROR (Z.land evt VSFUSBD_EVT_ERR_MASK) w
  else transfer_evt xop hw cls evt w.

(** ** The rest of the interface *)

Definition vsfusbd_connect w : Z * world := run_hal w (hal_connect hw).
Definition vsfusbd_disconnect w : Z * world := run_hal w (hal_disconnect hw).
Definition vsfusbd_wakeup w : Z * world := run_hal w (hal_wakeup hw).

(** [vsfsm_init]: the machine enters its state and VSFSM_EVT_INIT is posted. *)
Definition vsfusbd_device_init w : option (Z * world) :=
  w ← vsfusbd_evt_handler VSFSM_EVT_ENTER w; Some (VSFERR_NONE, post w VSFSM_EVT_INIT).
Definition vsfusbd_device_fini w : Z * world := (VSFERR_NONE, post w VSFSM_EVT_FINI).

(** One event of the queue is dispatched. *)
Definition usbd_poll w : option world :=
  match evts w with
  | [] => Some w
  | evt :: l => vsfusbd_evt_handler evt (set_evts w l)
  end.
End core.
