(* ===== verification/Usbxfer.v ===== *)
(** * Usbxfer: what an endpoint transfer promises

    A transfer to the host takes its bytes from a [Source] and a transfer from
    the host gives them to a [Sink], two halves of what a stream's memory does;
    the controller is a [UsbdHal].  The rest of the program is quiet: its
    callbacks do not touch the core's objects while they run. *)

From S2P Require Import Prelude Chain Fifo Multibuf Stream Vsfsm Vsfusbd Usbctrl.

(** ** The two ends of a stream's memory *)

(** [src m l]: [l] can be read, and is all that [get_data_length] counts. *)
Class Source {S P} (op : vsf_stream_op_t S P) := {
  src : S → list Z → Prop;
  src_length m l : src m l → op_get_data_length op m = Z.of_nat (length l);
  src_read m l n d : src m l → (n ≤ length l)%nat → (n ≤ length d)%nat →
    Z.of_nat n < 4294967296 →
    ∃ m', op_read op m (Z.of_nat n) (Some d)
        = Some (Z.of_nat n, m', Some (list_inserts 0 (take n l) d)) ∧ src m' (drop n l) }.

(** [snk m l c]: [l] has been written and not taken, [c] more bytes fit. *)
Class Sink {S P} (op : vsf_stream_op_t S P) := {
  snk : S → list Z → Z → Prop;
  snk_free m l c : snk m l c → op_get_avail_length op m = c ∧ 0 ≤ c < 4294967296;
  snk_write m l c d : snk m l c → Z.of_nat (length d) ≤ c →
    ∃ m', op_write op m (Z.of_nat (length d)) (Some d) = Some (Z.of_nat (length d), m') ∧
      snk m' (l ++ d) (c - Z.of_nat (length d)) }.

#[export] Instance fifo_Source : Source fifostream_op.
Proof.
  refine {| src := fifo_rep |}; cbn [op_get_data_length op_read fifostream_op].
  - apply fifo_data_length.
  - intros f l n d Hf Hn Hd Hlt.
    destruct (fifo_pop_spec f l (Z.of_nat n) d Hf) as (f' & Hp & Hf' & _); [lia..|].
    replace (Z.to_nat (Z.min (Z.of_nat n) (Z.of_nat (length l)))) with n in * by lia.
    rewrite Z.min_l in Hp by lia. by exists f'.
Defined.

#[export] Instance fifo_Sink : Sink fifostream_op.
Proof.
  refine {| snk f l c := fifo_rep f l ∧ c = size (fbuf f) - 1 - Z.of_nat (length l) |};
    cbn [op_get_avail_length op_write fifostream_op].
  - intros f l c [Hf ->]. split; [by apply fifo_avail_length|].
    destruct Hf as ((Hs & _) & Hl & _). lia.
  - intros f l c d [Hf ->] Hd. destruct (fifo_push_spec f l d Hf Hd) as (f' & Hp & Hf' & Hs).
    exists f'. split; [done|]. split; [done|]. rewrite Hs, length_app. lia.
Defined.

#[export] Instance buf_Source : Source bufstream_op.
Proof.
  refine {| src := source |}; cbn [op_get_data_length op_read bufstream_op].
  - intros m l Hs. by destruct (source_read m l 0 [] Hs) as (_ & _ & _ & ->); [lia..|].
  - intros m l n d Hs Hn Hd _.
    destruct (source_read m l (Z.of_nat n) d Hs) as (m' & Hr & Hm' & _); [lia..|].
    replace (Z.to_nat (Z.min (Z.of_nat n) (Z.of_nat (length l)))) with n in * by lia.
    rewrite Z.min_l in Hr by lia. by exists m'.
Defined.

#[export] Instance buf_Sink : Sink bufstream_op.
Proof.
  refine {| snk m l c := sink m l (c + Z.of_nat (length l)) |};
    cbn [op_get_avail_length op_write bufstream_op].
  - intros m l c Hs. destruct (sink_write m l _ [] Hs) as (_ & _ & _ & ->).
    destruct Hs as (_ & _ & _ & Hlt & _ & Hle & _). lia.
  - intros m l c d Hs Hd. destruct (sink_write m l _ d Hs) as (m' & Hw & Hm' & _).
    rewrite Z.min_l in Hw, Hm' by lia. rewrite Nat2Z.id, firstn_all in Hm'.
    exists m'. split; [done|].
    replace (c - Z.of_nat (length d) + Z.of_nat (length (l ++ d))) with (c + Z.of_nat (length l)); [done|].
    rewrite length_app. lia.
Defined.

(** Reading a multi-buffer does not move the writer. *)
Lemma read_loop_wpos fuel s d b k n :
  match multibuf_stream_read_loop fuel s d b k n with
  | Some (_, s', _) => wpos s' = wpos s
  | None => True
  end.
Proof.
  revert s d b k n. induction fuel as [|fuel IH]; intros s d b k n; cbn [multibuf_stream_read_loop]; [done|].
  destruct b as [b|]; [|done]. destruct (n <=? 0); [done|].
  set (o := match d with Some d0 => _ | None => _ end). destruct o as [d'|]; bindr; [|done].
  destruct (_ <=? _).
  - apply (IH {| multibuf := _; rpos := _; wpos := _ |}).
  - apply (IH {| multibuf := _; rpos := _; wpos := _ |}).
Qed.

(** A multi-buffer filled by whole buffers only. *)
#[export] Instance mbuf_Source : Source mbufstream_op.
Proof.
  refine {| src m l := mbuf_rep m l ∧ wpos m = 0 |}; cbn [op_get_data_length op_read mbufstream_op].
  - intros m l [Hm _]. by apply mbuf_data_length.
  - intros m l n d [Hm Hw] Hn Hd Hlt.
    assert (Hready : mbuf_ready m = Z.of_nat (length l)).
    { destruct Hm as (_ & Hl & _). unfold mbuf_ready. lia. }
    destruct (multibuf_read_loop_spec (S (Z.to_nat (Z.of_nat n))) m l d 0 (Z.of_nat n) Hm)
      as (s' & Hr & Hr'); [lia..|].
    pose proof (read_loop_wpos (S (Z.to_nat (Z.of_nat n))) m (Some d)
      (vsf_multibuf_get_payload (multibuf m)) 0 (Z.of_nat n)) as Hwp.
    change (Z.of_nat 0) with 0 in Hr. rewrite Hr in Hwp. unfold multibuf_stream_read.
    rewrite Hready in *. replace (Z.to_nat (Z.min (Z.of_nat n) (Z.of_nat (length l)))) with n in * by lia.
    exists s'. rewrite Hr, Hwp. done.
Defined.

Section umem.
Context {X P : Type} (xop : vsf_stream_op_t X P).

#[export] Instance usb_Source `{!Source xop} : Source (usb_op xop).
Proof.
  refine {| src m l := match m with Buf b => src (op := bufstream_op) b l | Mem x => src (op := xop) x l end |};
    cbn [op_get_data_length op_read usb_op].
  - intros [b|x] l Hm; by apply src_length.
  - intros [b|x] l n d Hm Hn Hd Hlt;
      destruct (src_read _ l n d Hm Hn Hd Hlt) as (m' & Hr & Hm');
      [exists (Buf m')|exists (Mem m')]; by rewrite Hr.
Defined.

#[export] Instance usb_Sink `{!Sink xop} : Sink (usb_op xop).
Proof.
  refine {| snk m l c := match m with Buf b => snk (op := bufstream_op) b l c
                         | Mem x => snk (op := xop) x l c end |};
    cbn [op_get_avail_length op_write usb_op].
  - intros [b|x] l c Hm; by apply (snk_free _ l).
  - intros [b|x] l c d Hm Hd;
      destruct (snk_write _ l c d Hm Hd) as (m' & Hr & Hm');
      [exists (Buf m')|exists (Mem m')]; by rewrite Hr.
Defined.
End umem.

(** ** The controller *)

(** What can be seen of an endpoint: its packet buffer to the host, whether it
    holds a packet the host has not taken, the packets it held so far; whether
    it accepts a packet from the host, and the one received last. *)
Record ep_view := {
  in_size : Z; in_buf : list Z; in_armed : bool; in_sent : list (list Z);
  out_size : Z; out_enabled : bool; out_pkt : list Z }.

Definition write_buf (v : ep_view) (b : list Z) : ep_view :=
  {| in_size := in_size v; in_buf := b; in_armed := in_armed v; in_sent := in_sent v;
     out_size := out_size v; out_enabled := out_enabled v; out_pkt := out_pkt v |}.
Definition arm (v : ep_view) (n : Z) : ep_view :=
  {| in_size := in_size v; in_buf := in_buf v; in_armed := true;
     in_sent := in_sent v ++ [take (Z.to_nat n) (in_buf v)];
     out_size := out_size v; out_enabled := out_enabled v; out_pkt := out_pkt v |}.
Definition disarm (v : ep_view) : ep_view :=
  {| in_size := in_size v; in_buf := in_buf v; in_armed := false; in_sent := in_sent v;
     out_size := out_size v; out_enabled := out_enabled v; out_pkt := out_pkt v |}.
Definition enable (v : ep_view) : ep_view :=
  {| in_size := in_size v; in_buf := in_buf v; in_armed := in_armed v; in_sent := in_sent v;
     out_size := out_size v; out_enabled := true; out_pkt := out_pkt v |}.
Definition receive_pkt (v : ep_view) (pkt : list Z) : ep_view :=
  {| in_size := in_size v; in_buf := in_buf v; in_armed := in_armed v; in_sent := in_sent v;
     out_size := out_size v; out_enabled := false; out_pkt := pkt |}.

(** A packet is handed over only while the endpoint holds none. *)
Class UsbdHal {H} (hw : vsfhal_usbd H) := {
  view : H → Z → ep_view;
  hal_IN_epsize ep h : ep_get_IN_epsize hw ep h = in_size (view h ep);
  hal_OUT_epsize ep h : ep_get_OUT_epsize hw ep h = out_size (view h ep);
  hal_write ep b h e : view (snd (ep_write_IN_buffer hw ep b h)) e
    = if decide (e = ep) then write_buf (view h ep) b else view h e;
  hal_arm ep n h e : in_armed (view h ep) = false →
    view (snd (ep_set_IN_count hw ep n h)) e = if decide (e = ep) then arm (view h ep) n else view h e;
  hal_enable ep h e : view (snd (ep_enable_OUT hw ep h)) e
    = if decide (e = ep) then enable (view h ep) else view h e;
  hal_count ep h : ep_get_OUT_count hw ep h = Z.of_nat (length (out_pkt (view h ep)));
  hal_packet ep n h : take (Z.to_nat n) (snd (ep_read_OUT_buffer hw ep n h))
    = take (Z.to_nat n) (out_pkt (view h ep)) }.

(** The host takes the packet of [ep], or sends one. *)
Definition taken {H} {hw : vsfhal_usbd H} `{!UsbdHal hw} (ep : Z) (h h' : H) : Prop :=
  in_armed (view h ep) = true ∧
  ∀ e, view h' e = if decide (e = ep) then disarm (view h ep) else view h e.
Definition delivered {H} {hw : vsfhal_usbd H} `{!UsbdHal hw} (ep : Z) (pkt : list Z) (h h' : H) : Prop :=
  out_enabled (view h ep) = true ∧
  ∀ e, view h' e = if decide (e = ep) then receive_pkt (view h ep) pkt else view h e.

(** ** Events of an endpoint *)

(** The events that concern endpoint [ep]. *)
Definition ep_evts : list Z :=
  [VSFUSBD_INTEVT_OUT; VSFUSBD_INTEVT_IN; VSFUSBD_STREAM_OUT; VSFUSBD_STREAM_IN;
   VSFUSBD_STREAM_CLOSE_OUT; VSFUSBD_STREAM_CLOSE_IN].

(** None of the cases before the last of the event handler. *)
Definition plain (evt : Z) : bool :=
  negb (existsb (Z.eqb evt) [VSFSM_EVT_ENTER; VSFSM_EVT_EXIT; Malstream.VSFSM_EVT_FINI; VSFSM_EVT_INIT;
    VSFUSBD_INTEVT_RESET; VSFUSBD_INTEVT_SETUP; VSFUSBD_INTEVT_SUSPEND; VSFUSBD_INTEVT_RESUME;
    VSFUSBD_INTEVT_SOF; VSFUSBD_INTEVT_ATTACH; VSFUSBD_INTEVT_DETACH]) &&
  negb (Z.land evt (Z.lnot VSFUSBD_EVT_ERR_MASK) =? VSFUSBD_INTEVT_ERR).

Definition ep_evt_ok (base ep : Z) : bool :=
  let evt := Z.lor base ep in
  (Z.land evt VSFUSBD_EVT_EP_MASK =? ep) && (Z.land evt VSFUSBD_EVT_EVT_MASK =? Z.land base (-16)) &&
  (Z.land evt VSFUSBD_EVT_DIR_IN =? Z.land base VSFUSBD_EVT_DIR_IN) && plain evt.

Lemma ep_evt_bits base ep : base ∈ ep_evts → 0 ≤ ep ≤ VSFUSBD_CFG_EPMAXNO → ep_evt_ok base ep = true.
Proof.
  intros Hb Hep. unfold VSFUSBD_CFG_EPMAXNO in Hep.
  assert (Hall : forallb (λ b, all_below 16 (ep_evt_ok b)) ep_evts = true) by (vm_compute; reflexivity).
  rewrite forallb_forall in Hall. apply (all_below_spec 16); [|lia].
  apply Hall. by apply list_elem_of_In.
Qed.

Lemma plain_evt {X P H R} (xop : vsf_stream_op_t X P) (hw : vsfhal_usbd H)
    (cls : usbd_class (uworld X H R)) evt w :
  plain evt = true → vsfusbd_evt_handler xop hw cls evt w = transfer_evt xop hw cls evt w.
Proof.
  unfold plain. intros Hp. apply andb_prop in Hp as [Hp He]. apply negb_true_iff in Hp, He.
  cbn [existsb] in Hp. repeat (apply orb_false_iff in Hp as [? Hp]).
  unfold vsfusbd_evt_handler.
  repeat match goal with E : (evt =? _) = false |- _ => rewrite E; clear E end.
  by rewrite He.
Qed.

(** ** Operations of a quiet program on a stream *)

Section transfers.
Context {X P H R : Type} {xop : vsf_stream_op_t X P} {hw : vsfhal_usbd H}.
Context `{Hhal : !UsbdHal hw}.
Notation world := (uworld X H R).
Implicit Types (w : world) (s : ustream X).
Context (cls : usbd_class world).

(** Not one of the functions of the core and its classes, which are at 0x2000
    to 0x2FFF. *)
Definition foreign (f : Z) : Prop := f < 0x2000 ∨ 0x3000 ≤ f.
(** A callback that is not there to be called does not count. *)
Definition foreign_cb (ready : bool) (cb : vsf_stream_cb_t) : Prop :=
  (ready = true → foreign (on_inout cb)) ∧ foreign (on_connect cb).

(** What the other functions of the program may do: change the rest of the
    program, as far as [keep] allows. *)
Context (keep : R → R → Prop) `{!PreOrder keep}.
Record quiet : Prop := {
  quiet_stream f p w : foreign f → ∃ r, cl_stream cls f p w = Some (set_urest w r) ∧ keep (urest w) r;
  quiet_usr f e p w : ∃ r, cl_usr cls f e p w = Some (set_urest w r) ∧ keep (urest w) r }.
Hypothesis Hquiet : quiet.

Lemma set_urest_id w : set_urest w (urest w) = w.
Proof. by destruct w. Qed.

Lemma stream_cb_quiet f p w :
  foreign f → ∃ r, stream_cb cls f p w = Some (set_urest w r) ∧ keep (urest w) r.
Proof.
  intros Hf. unfold stream_cb. rewrite !(proj2 (Z.eqb_neq _ _))
    by (intros ->; by destruct Hf). by apply (quiet_stream Hquiet).
Qed.

Lemma close_with_env p s w : close_stream p (with_env s w) = put_stream w p s.
Proof. by destruct s as [? ? ? ? ? ? []]. Qed.

Lemma put_put w p s s' : put_stream (put_stream w p s) p s' = put_stream w p s'.
Proof. unfold put_stream, set_streams. cbn. by rewrite insert_insert_eq. Qed.

Lemma put_urest w p s r : put_stream (set_urest w r) p s = set_urest (put_stream w p s) r.
Proof. done. Qed.

Lemma put_change w w' p s s' :
  put_stream w p s = put_stream w' p s → put_stream w p s' = put_stream w' p s'.
Proof. intros Hw. by rewrite <- (put_put w p s), Hw, put_put. Qed.

(** A callback, called or not, and the stream put back. *)
Lemma call_if_quiet p c f cb s w :
  (c = true → foreign f) →
  ∃ w' r, call_if (usb_invoke cls p) c f cb (with_env s w) = Some (with_env s w') ∧
    close_stream p (with_env s w') = put_stream (set_urest w r) p s ∧ keep (urest w) r.
Proof.
  intros Hf. unfold call_if. destruct (c && negb (f =? NULL)) eqn:Hcf.
  - apply andb_prop in Hcf as [Hcf _]. specialize (Hf Hcf). unfold usb_invoke. rewrite close_with_env.
    destruct (stream_cb_quiet f (cb_param cb) (put_stream w p s) Hf) as (r & -> & Hr). bindr.
    unfold open_stream. cbn [streams set_urest put_stream set_streams]. rewrite lookup_insert_eq. bindr.
    eexists _, r. split; [reflexivity|]. rewrite close_with_env. split; [|exact Hr].
    by rewrite !put_urest, put_put.
  - exists w, (urest w). rewrite close_with_env, set_urest_id. done.
Qed.

Lemma usb_read_ok `{!Source (usb_op xop)} p w s l n d :
  streams w !! p = Some s → src (op := usb_op xop) (smem s) l → (n ≤ length l)%nat →
  (n ≤ length d)%nat → Z.of_nat n < 4294967296 →
  (tx_ready s = true → foreign (on_inout (callback_tx s))) →
  ∃ m r, usb_stream_read xop cls p (Z.of_nat n) (Some d) w
      = Some (Some (list_inserts 0 (take n l) d), put_stream (set_urest w r) p (set_smem s m)) ∧
    src (op := usb_op xop) m (drop n l) ∧ keep (urest w) r.
Proof.
  intros Hs Hl Hn Hd Hlt Hf. unfold usb_stream_read, open_stream. rewrite Hs. bindr.
  unfold stream_read. cbn [smem with_env].
  destruct (src_read (smem s) l n d Hl Hn Hd Hlt) as (m & -> & Hm). bindr.
  change (set_smem (with_env s w) m) with (with_env (set_smem s m) w).
  destruct (call_if_quiet p (tx_ready s && negb (Z.of_nat n =? 0)) (on_inout (callback_tx s))
    (callback_tx s) (set_smem s m) w (λ Hc, Hf (proj1 (andb_prop _ _ Hc)))) as (w' & r & Hc & Hp & Hr).
  cbn [tx_ready with_env set_smem callback_tx] in *. rewrite Hc. bindr.
  exists m, r. by rewrite Hp.
Qed.

Lemma usb_write_ok `{!Sink (usb_op xop)} p w s l c d :
  streams w !! p = Some s → snk (op := usb_op xop) (smem s) l c → Z.of_nat (length d) ≤ c →
  (rx_ready s = true → foreign (on_inout (callback_rx s))) →
  ∃ m r, usb_stream_write xop cls p (Z.of_nat (length d)) d w
      = Some (put_stream (set_urest w r) p (set_smem s m)) ∧
    snk (op := usb_op xop) m (l ++ d) (c - Z.of_nat (length d)) ∧ keep (urest w) r.
Proof.
  intros Hs Hl Hd Hf. unfold usb_stream_write, open_stream. rewrite Hs. bindr.
  unfold stream_write. cbn [smem with_env].
  destruct (snk_write (smem s) l c d Hl Hd) as (m & -> & Hm). bindr. rewrite Z.ltb_irrefl.
  change (set_smem (with_env s w) m) with (with_env (set_smem s m) w).
  destruct (call_if_quiet p (rx_ready s && negb (Z.of_nat (length d) =? 0)) (on_inout (callback_rx s))
    (callback_rx s) (set_smem s m) w (λ Hc, Hf (proj1 (andb_prop _ _ Hc)))) as (w' & r & Hc & Hp & Hr).
  cbn [rx_ready with_env set_smem callback_rx] in *. rewrite Hc. bindr.
  exists m, r. by rewrite Hp.
Qed.

Lemma usb_connect_rx_ok p w s :
  streams w !! p = Some s → foreign (on_connect (callback_tx s)) → foreign (on_connect (callback_rx s)) →
  ∃ r, usb_connect_rx cls p w
      = Some (put_stream (set_urest w r) p (set_flags s (tx_ready s) true (overflow s))) ∧
    keep (urest w) r.
Proof.
  intros Hs Ht Hf. unfold usb_connect_rx, open_stream. rewrite Hs. bindr.
  unfold stream_connect_rx. cbn [rx_ready with_env].
  destruct (rx_ready s) eqn:Hrx.
  - bindr. exists (urest w). rewrite close_with_env, set_urest_id. split; [|done]. do 2 f_equal.
    destruct s as [? ? ? ? ? ? []]. cbn in *. by subst.
  - destruct (call_if_quiet p true (on_connect (callback_tx s)) (callback_tx s) s w (λ _, Ht))
      as (w1 & r1 & Hc1 & Hp1 & Hr1).
    cbn [callback_tx with_env]. rewrite Hc1. bindr.
    destruct (call_if_quiet p (tx_ready s) (on_connect (callback_rx s)) (callback_rx s) s w1 (λ _, Hf))
      as (w2 & r2 & Hc2 & Hp2 & Hr2).
    cbn [callback_rx callback_tx tx_ready with_env]. rewrite Hc2. bindr.
    cbn [tx_ready overflow with_env].
    change (set_flags (with_env s w2) (tx_ready s) true (overflow s))
      with (with_env (set_flags s (tx_ready s) true (overflow s)) w2).
    rewrite close_with_env.
    rewrite close_with_env in Hp1, Hp2. exists r2. split.
    + f_equal. rewrite (put_change w2 _ p s _ Hp2), put_urest, (put_change w1 _ p s _ Hp1). done.
    + etrans; [exact Hr1|]. apply (f_equal urest) in Hp1. cbn in Hp1. by rewrite Hp1 in Hr2.
Qed.
Lemma usb_connect_tx_ok p w s :
  streams w !! p = Some s → foreign (on_connect (callback_rx s)) → foreign (on_connect (callback_tx s)) →
  ∃ r, usb_connect_tx cls p w
      = Some (put_stream (set_urest w r) p (set_flags s true (rx_ready s) (overflow s))) ∧
    keep (urest w) r.
Proof.
  intros Hs Ht Hf. unfold usb_connect_tx, open_stream. rewrite Hs. bindr.
  unfold stream_connect_tx. cbn [tx_ready with_env].
  destruct (tx_ready s) eqn:Htx.
  - bindr. exists (urest w). rewrite close_with_env, set_urest_id. split; [|done]. do 2 f_equal.
    destruct s as [? ? ? ? ? ? []]. cbn in *. by subst.
  - destruct (call_if_quiet p true (on_connect (callback_rx s)) (callback_rx s) s w (λ _, Ht))
      as (w1 & r1 & Hc1 & Hp1 & Hr1).
    cbn [callback_rx with_env]. rewrite Hc1. bindr.
    destruct (call_if_quiet p (rx_ready s) (on_connect (callback_tx s)) (callback_tx s) s w1 (λ _, Hf))
      as (w2 & r2 & Hc2 & Hp2 & Hr2).
    cbn [callback_tx callback_rx rx_ready with_env]. rewrite Hc2. bindr.
    cbn [rx_ready overflow with_env].
    change (set_flags (with_env s w2) true (rx_ready s) (overflow s))
      with (with_env (set_flags s true (rx_ready s) (overflow s)) w2).
    rewrite close_with_env.
    rewrite close_with_env in Hp1, Hp2. exists r2. split.
    + f_equal. rewrite (put_change w2 _ p s _ Hp2), put_urest, (put_change w1 _ p s _ Hp1). done.
    + etrans; [exact Hr1|]. apply (f_equal urest) in Hp1. cbn in Hp1. by rewrite Hp1 in Hr2.
Qed.

(** ** A transfer to the host

    [N] bytes of the stream at [p] leave by endpoint [ep] in packets of [m];
    with [zl], a packet that is not full ends them. *)

Section to_host.
Context `{Hsrc : !Source (usb_op xop)} (ep tp p fn prm : Z) (N m : nat) (zl : bool) (base : list (list Z)).

Record in_params : Prop := {
  ip_ep : 0 ≤ ep ≤ VSFUSBD_CFG_EPMAXNO; ip_tp : tp ≠ NULL; ip_p : p ≠ NULL;
  ip_m : (0 < m ≤ VSFUSBD_TMPBUF)%nat; ip_N : Z.of_nat N < 4294967296 }.
Hypothesis Hip : in_params.

Definition xfer (n : nat) (z idle : bool) : vsfusbd_transact_t :=
  {| t_ep := ep; t_data_size := Z.of_nat n; t_stream := p; t_on_finish := fn; t_param := prm;
     t_zlp := z; t_idle := idle |}.

Definition full (ps : list (list Z)) : Prop := Forall (λ q, length q = m) ps.

(** The packets of a whole transfer of [l]: all are full but the last, which is
    short when the host has to see the end. *)
Definition complete (l : list Z) (ps : list (list Z)) : Prop :=
  concat ps = l ∧ ∃ pre q, ps = pre ++ [q] ∧ full pre ∧
    (if zl then length q < m else 0 < length q ≤ m)%nat.

Definition so_far (ps : list (list Z)) : nat := length (concat ps).

(** Packets that begin a transfer; [z] is what [zlp] has become. *)
Definition shape (ps : list (list Z)) (z : bool) : Prop :=
  if decide (so_far ps < N)%nat then z = zl ∧ full ps
  else if z then zl = true ∧ full ps else complete (concat ps) ps.

(** In progress: [total] is what the stream has been given, [ps] the packets. *)
Record sending (total : list Z) (ps : list (list Z)) (z idle armed : bool) w : Prop := {
  sd_transact : transacts w !! tp = Some (xfer (N - so_far ps) z idle);
  sd_bound : IN_transact (dev w) !! ep = Some tp ∧ IN_handler (dev w) !! ep = Some ON_IN_DO_FN;
  sd_stream : ∃ s, streams w !! p = Some s ∧ foreign_cb (tx_ready s) (callback_tx s) ∧
    callback_rx s = core_rx tp ∧ rx_ready s = true ∧
    (tx_ready s = true ∨ (N ≤ length total)%nat) ∧
    src (op := usb_op xop) (smem s) (drop (so_far ps) total);
  sd_bytes : concat ps = take (so_far ps) total ∧ (so_far ps ≤ N)%nat;
  sd_shape : shape ps z;
  sd_hal : in_size (view (hal w) ep) = Z.of_nat m ∧ in_armed (view (hal w) ep) = armed ∧
    in_sent (view (hal w) ep) = base ++ ps;
  sd_tmp : length (tmpbuf (dev w)) = VSFUSBD_TMPBUF;
  sd_idle : so_far ps = N → idle = false }.

(** What a step of the transfer leaves alone. *)
Definition in_rest (d : vsfusbd_device_t) : vsfusbd_device_t :=
  set_tmpbuf (set_IN d (delete ep (IN_transact d)) (delete ep (IN_handler d))) [].
Definition out_half (v : ep_view) : Z * bool * list Z := (out_size v, out_enabled v, out_pkt v).
Record in_frame w w' : Prop := {
  if_dev : in_rest (dev w') = in_rest (dev w);
  if_transacts : delete tp (transacts w') = delete tp (transacts w);
  if_streams : delete p (streams w') = delete p (streams w);
  if_evts : evts w' = evts w;
  if_on_event : on_event w' = on_event w;
  if_hal : ∀ e, (e ≠ ep → view (hal w') e = view (hal w) e) ∧
    out_half (view (hal w') e) = out_half (view (hal w) e);
  if_rest : keep (urest w) (urest w') }.

#[export] Instance in_frame_preorder : PreOrder in_frame.
Proof.
  split.
  - by split.
  - intros w1 w2 w3 [A1 A2 A3 A4 A5 A6 A7] [B1 B2 B3 B4 B5 B6 B7].
    split; [congruence..| |by etrans].
    intros e. destruct (A6 e) as [A A'], (B6 e) as [B B']. split; [|congruence].
    intros He. by rewrite B, A.
Qed.

Lemma so_far_snoc ps q : so_far (ps ++ [q]) = (so_far ps + length q)%nat.
Proof. unfold so_far. rewrite concat_app, length_app. simpl. by rewrite app_nil_r. Qed.

Lemma take_inserts_exact (k : nat) (l d : list Z) :
  (k ≤ length l)%nat → (k ≤ length d)%nat → take k (list_inserts 0 (take k l) d) = take k l.
Proof.
  intros Hl Hd. apply list_eq. intros i. destruct (decide (i < k)%nat).
  - rewrite !lookup_take_lt by lia. rewrite list_lookup_inserts by (rewrite ?length_take; lia).
    rewrite Nat.sub_0_r, lookup_take_lt by lia. done.
  - by rewrite !lookup_take_ge by lia.
Qed.

(** One packet, through [tmpbuf], into the endpoint. *)
Lemma send_packet_ok w s l n :
  streams w !! p = Some s → (tx_ready s = true → foreign (on_inout (callback_tx s))) →
  src (op := usb_op xop) (smem s) l → (n ≤ length l)%nat → (n ≤ VSFUSBD_TMPBUF)%nat →
  length (tmpbuf (dev w)) = VSFUSBD_TMPBUF → in_armed (view (hal w) ep) = false →
  ∃ w' mem, send_packet xop hw cls ep p (Z.of_nat n) w = Some w' ∧
    src (op := usb_op xop) mem (drop n l) ∧ in_frame w w' ∧
    transacts w' = transacts w ∧ streams w' !! p = Some (set_smem s mem) ∧
    IN_transact (dev w') = IN_transact (dev w) ∧ IN_handler (dev w') = IN_handler (dev w) ∧
    length (tmpbuf (dev w')) = VSFUSBD_TMPBUF ∧
    view (hal w') ep = arm (write_buf (view (hal w) ep) (take n l)) (Z.of_nat n).
Proof.
  intros Hs Hf Hl Hn Hm Ht Ha.
  assert (Hb : Z.of_nat n < 4294967296) by (unfold VSFUSBD_TMPBUF in Hm; lia).
  destruct (usb_read_ok p w s l n (tmpbuf (dev w)) Hs Hl) as (mem & r & Hr & Hmem & Hk);
    [lia|by rewrite Ht|done|done|].
  unfold send_packet. rewrite Hr. bindr. rewrite Nat2Z.id.
  rewrite read_at_in by (rewrite length_inserts, Ht; lia). bindr. rewrite drop_0.
  rewrite take_inserts_exact by (rewrite ?Ht; lia).
  eexists _, mem. split; [reflexivity|]. split; [exact Hmem|].
  unfold do_hal, run_hal. cbn [hal set_dev put_stream set_streams set_urest].
  destruct (ep_write_IN_buffer hw ep (take n l) (hal w)) as [e1 h1] eqn:H1. cbn [snd hal set_hal].
  pose proof (hal_write ep (take n l) (hal w)) as Hv1. rewrite H1 in Hv1. cbn [snd] in Hv1.
  destruct (ep_set_IN_count hw ep (Z.of_nat n) h1) as [e2 h2] eqn:H2. cbn [snd].
  pose proof (hal_arm ep (Z.of_nat n) h1) as Hv2. rewrite H2 in Hv2. cbn [snd] in Hv2.
  assert (Ha1 : in_armed (view h1 ep) = false) by (by rewrite Hv1, decide_True).
  split.
  { split; cbn; try done.
    - by rewrite delete_insert_eq.
    - intros e. rewrite Hv2 by done. destruct (decide (e = ep)) as [->|He]; rewrite Hv1.
      + rewrite decide_True by done. split; [congruence|done].
      + by rewrite decide_False. }
  cbn. rewrite lookup_insert_eq, length_inserts, Ht. split_and!; try done.
  by rewrite Hv2, decide_True, Hv1, decide_True by done.
Qed.

Lemma entry_bound (g : gmap Z Z) k v : g !! k = Some v → entry g k = v.
Proof. unfold entry. by intros ->. Qed.

(** The size of the next packet. *)
Definition next_size (ps : list (list Z)) : nat := Nat.min (N - so_far ps) m.

Lemma next_size_u16 ps :
  u16 (Z.min (Z.of_nat (N - so_far ps)) (Z.of_nat m)) = Z.of_nat (next_size ps).
Proof.
  destruct Hip as [_ _ _ Hm _]. unfold VSFUSBD_TMPBUF in Hm. unfold next_size.
  rewrite u16_small by lia. lia.
Qed.

Lemma next_bytes ps total :
  concat ps = take (so_far ps) total →
  concat (ps ++ [take (next_size ps) (drop (so_far ps) total)]) =
    take (so_far ps + next_size ps) total.
Proof.
  intros Hb. rewrite concat_app. simpl. rewrite app_nil_r. rewrite Hb at 1.
  by rewrite take_take_drop.
Qed.

(** The shape after a data packet, with [zlp] as the code leaves it. *)
Lemma shape_data ps z q :
  shape ps z → (so_far ps < N)%nat → length q = next_size ps →
  shape (ps ++ [q]) (if (N - (so_far ps + next_size ps) =? 0)%nat && (next_size ps <? m)%nat
                     then false else z).
Proof.
  intros Hs Hlt Hq. destruct Hip as [_ _ _ Hm _]. unfold shape in *.
  rewrite decide_True in Hs by done. destruct Hs as [-> Hf].
  rewrite so_far_snoc, Hq. unfold next_size in *.
  assert (Hsnoc : length q = m → full (ps ++ [q])) by (intros; apply Forall_app; split; [done|by repeat constructor]).
  destruct (decide _).
  - destruct (Nat.eqb_spec (N - (so_far ps + (N - so_far ps) `min` m)) 0); [lia|]. cbn [andb].
    split; [done|]. apply Hsnoc. lia.
  - destruct (Nat.eqb_spec (N - (so_far ps + (N - so_far ps) `min` m)) 0) as [He|He]; [|lia]. cbn [andb].
    destruct (Nat.ltb_spec ((N - so_far ps) `min` m) m).
    + split; [done|]. exists ps, q. split; [done|]. split; [done|]. destruct zl; lia.
    + destruct zl eqn:Hz; [split; [done|]; apply Hsnoc; lia|].
      split; [done|]. exists ps, q. split; [done|]. split; [done|]. rewrite Hz. lia.
Qed.

(** The empty packet at the end. *)
Lemma shape_zlp ps : shape ps true → so_far ps = N → shape (ps ++ [[]]) false.
Proof.
  intros Hs He. destruct Hip as [_ _ _ Hm _]. unfold shape in *. rewrite so_far_snoc.
  rewrite decide_False in Hs by lia. destruct Hs as [Hz Hf].
  rewrite decide_False by (simpl; lia). split; [done|]. exists ps, [].
  split; [done|]. split; [done|]. rewrite Hz. simpl. lia.
Qed.

(** [vsfusbd_on_IN_do] with data left and enough of it in the stream. *)
Lemma IN_do_packet total ps z idle w :
  sending total ps z idle false w → (so_far ps < N)%nat →
  (next_size ps ≤ length total - so_far ps)%nat →
  ∃ z' w', let q := take (next_size ps) (drop (so_far ps) total) in
    vsfusbd_on_IN_do xop hw cls ep w = Some (VSFERR_NONE, w') ∧ in_frame w w' ∧
    sending total (ps ++ [q]) z' false true w' ∧ (0 < length q)%nat ∧ (z' = z ∨ z' = false).
Proof.
  intros [Ht [Hb Hh] (s & Hs & Hf & Hcb & Hrx & Hfed & Hl) [Hbytes Hle] Hshape [Hsz [Ha Hsent]] Htmp _]
    Hlt Hav.
  pose proof Hip as [Hep Htp Hp Hm HN].
  unfold vsfusbd_on_IN_do. rewrite (entry_bound _ _ _ Hb), Ht. bindr. cbn [t_data_size xfer].
  rewrite (proj2 (Z.eqb_neq _ _)) by lia. cbn [negb t_stream xfer].
  unfold usb_data_size. rewrite Hs. bindr. unfold stream_get_data_size.
  rewrite (src_length _ _ Hl), length_drop, hal_IN_epsize, Hsz, next_size_u16.
  destruct (Z.ltb_spec (Z.of_nat (length total - so_far ps)) (Z.of_nat (next_size ps))); [lia|].
  cbn [set_t_idle set_t_size t_data_size t_stream t_zlp t_ep t_on_finish t_param].
  assert (Hlq : length (take (next_size ps) (drop (so_far ps) total)) = next_size ps)
    by (rewrite length_take, length_drop; lia).
  set (q := take (next_size ps) (drop (so_far ps) total)) in *.
  set (z' := if (N - (so_far ps + next_size ps) =? 0)%nat && (next_size ps <? m)%nat then false else z).
  match goal with |- context [put_transact (put_transact _ _ _) tp ?t1] =>
    assert (Ht1 : t1 = xfer (N - so_far (ps ++ [q])) z' false) end.
  { rewrite so_far_snoc, Hlq. unfold z', xfer. cbn [t_data_size].
    replace (u32 (Z.of_nat (N - so_far ps) - Z.of_nat (next_size ps)))
      with (Z.of_nat (N - (so_far ps + next_size ps)))
      by (rewrite u32_small; unfold next_size; lia).
    destruct (Nat.eqb_spec (N - (so_far ps + next_size ps)) 0), (Nat.ltb_spec (next_size ps) m);
      destruct (Z.eqb_spec (Z.of_nat (N - (so_far ps + next_size ps))) 0); try lia;
      destruct (Z.ltb_spec (Z.of_nat (next_size ps)) (Z.of_nat m)); try lia; done. }
  rewrite Ht1. clear Ht1. cbn [t_stream xfer].
  match goal with |- context [send_packet _ _ _ _ _ _ ?x] => set (w0 := x) end.
  destruct (send_packet_ok w0 s (drop (so_far ps) total) (next_size ps))
    as (w' & mem & Hsend & Hmem & Hframe & Htr & Hst & Hib & Hih & Ht' & Hv);
    [done|apply Hf|done|rewrite length_drop; lia|unfold next_size; lia|done|done|].
  rewrite Hsend. bindr. exists z', w'. split; [done|]. split.
  { etrans; [|exact Hframe]. split; try done. cbn. by rewrite !delete_insert_eq. }
  split; [|split; [rewrite Hlq; unfold next_size; lia|unfold z'; case_match; auto]].
  assert (Hsf : so_far (ps ++ [q]) = (so_far ps + next_size ps)%nat) by (by rewrite so_far_snoc, Hlq).
  split.
  - rewrite Htr. cbn. by rewrite lookup_insert_eq.
  - by rewrite Hib, Hih.
  - exists (set_smem s mem). cbn [callback_tx callback_rx rx_ready tx_ready smem set_smem].
    rewrite Hst. split_and!; try done. rewrite Hsf, <- drop_drop. exact Hmem.
  - rewrite Hsf. split; [by apply next_bytes|]. unfold next_size. lia.
  - by apply shape_data.
  - rewrite Hv. change (hal w0) with (hal w).
    cbn [in_size in_armed in_sent in_buf arm write_buf]. rewrite Hsz, Hsent, Nat2Z.id.
    split; [done|]. split; [done|]. rewrite <- app_assoc. unfold q. by rewrite take_take, Nat.min_id.
  - done.
  - done.
Qed.

(** Not enough bytes yet: the transfer waits for its stream. *)
Lemma IN_do_wait total ps z idle w :
  sending total ps z idle false w → (so_far ps < N)%nat →
  (length total - so_far ps < next_size ps)%nat →
  ∃ w', vsfusbd_on_IN_do xop hw cls ep w = Some (VSFERR_NONE, w') ∧ in_frame w w' ∧
    sending total ps z true false w' ∧ (length total < N)%nat.
Proof.
  intros [Ht [Hb Hh] (s & Hs & Hf & Hcb & Hrx & Hfed & Hl) Hbytes Hshape [Hsz Ha] Htmp _] Hlt Hav.
  unfold vsfusbd_on_IN_do. rewrite (entry_bound _ _ _ Hb), Ht. bindr. cbn [t_data_size xfer].
  rewrite (proj2 (Z.eqb_neq _ _)) by lia. cbn [negb t_stream xfer].
  unfold usb_data_size. rewrite Hs. bindr. unfold stream_get_data_size.
  rewrite (src_length _ _ Hl), length_drop, hal_IN_epsize, Hsz, next_size_u16.
  destruct (Z.ltb_spec (Z.of_nat (length total - so_far ps)) (Z.of_nat (next_size ps))); [|lia].
  cbn [streams put_transact set_transacts set_t_idle t_stream xfer]. rewrite Hs. bindr.
  assert (Hn : (length total < N)%nat) by (unfold next_size in *; lia).
  destruct Hfed as [Htx|]; [|lia]. rewrite Htx. cbn [negb andb].
  eexists. split; [done|]. split; [split; try done; cbn; by rewrite delete_insert_eq|].
  split; [|done]. split; try done.
  - cbn. by rewrite lookup_insert_eq.
  - exists s. split_and!; try done. by left.
  - lia.
Qed.

(** All bytes have left in full packets: an empty one marks the end. *)
Lemma IN_do_zlp total ps w :
  sending total ps true false false w → so_far ps = N →
  ∃ w', vsfusbd_on_IN_do xop hw cls ep w = Some (VSFERR_NONE, w') ∧ in_frame w w' ∧
    sending total (ps ++ [[]]) false false true w'.
Proof.
  intros [Ht [Hb Hh] (s & Hs & Hf & Hcb & Hrx & Hfed & Hl) [Hbytes _] Hshape [Hsz [Ha Hsent]] Htmp _] He.
  unfold vsfusbd_on_IN_do. rewrite (entry_bound _ _ _ Hb), Ht. bindr. cbn [t_data_size xfer t_zlp].
  rewrite He, Nat.sub_diag. cbn [Z.of_nat Z.eqb negb].
  unfold do_hal, run_hal. cbn [hal put_transact set_transacts].
  destruct (ep_set_IN_count hw ep 0 (hal w)) as [e h] eqn:Hc. cbn [snd].
  pose proof (hal_arm ep 0 (hal w)) as Hv. rewrite Hc in Hv. cbn [snd] in Hv.
  assert (Hsf : so_far (ps ++ [[]]) = so_far ps) by (rewrite so_far_snoc; simpl; lia).
  eexists. split; [done|]. split.
  { split; try done; cbn.
    - by rewrite delete_insert_eq.
    - intros e0. rewrite Hv by done. destruct (decide (e0 = ep)) as [->|]; [|done].
      split; [congruence|done]. }
  split; try done.
  - cbn. by rewrite lookup_insert_eq, Hsf, He, Nat.sub_diag.
  - exists s. rewrite Hsf. by split_and!.
  - rewrite Hsf, concat_app. simpl. rewrite app_nil_r. split; [done|lia].
  - by apply shape_zlp.
  - cbn. rewrite Hv, decide_True by done. cbn [in_size in_armed in_sent arm].
    rewrite Hsz, Hsent, take_0. split_and!; [done|done|by rewrite <- app_assoc].
Qed.

(** The stream and the endpoint let go of the transfer. *)
Definition unbind w : world :=
  match streams w !! p with
  | Some s => bind_IN (put_stream w p (set_rx s (mute (callback_rx s)))) ep NULL NULL
  | None => w
  end.

(** The endpoint and the stream once the transfer has let go of them. *)
Definition let_go (total : list Z) w : Prop :=
  entry (IN_transact (dev w)) ep = NULL ∧
  (in_size (view (hal w) ep) = Z.of_nat m ∧ in_armed (view (hal w) ep) = false ∧
   length (tmpbuf (dev w)) = VSFUSBD_TMPBUF) ∧
  (∃ s, streams w !! p = Some s ∧ callback_rx s = mute (core_rx tp) ∧
     foreign (on_connect (callback_tx s)) ∧ src (op := usb_op xop) (smem s) (drop N total)) ∧
  transacts w !! tp = Some (xfer 0 false false) ∧
  ∃ ps, in_sent (view (hal w) ep) = base ++ ps ∧ complete (take N total) ps ∧ (N ≤ length total)%nat.

(** The last packet has been taken: [on_finish] is called. *)
Lemma IN_do_finish total ps w :
  sending total ps false false false w → so_far ps = N →
  vsfusbd_on_IN_do xop hw cls ep w
    = (w' ← t_finish cls (xfer 0 false false) (unbind w); Some (VSFERR_NONE, w')) ∧
  in_frame w (unbind w) ∧ let_go total (unbind w).
Proof.
  intros [Ht [Hb Hh] (s & Hs & Hf & Hcb & Hrx & Hfed & Hl) [Hbytes _] Hshape [Hsz [Ha Hsent]] Htmp _] He.
  pose proof Hip as [Hep Htp Hp Hm HN].
  unfold unbind. rewrite Hs. split.
  - unfold vsfusbd_on_IN_do. rewrite (entry_bound _ _ _ Hb), Ht. bindr. cbn [t_data_size xfer t_zlp].
    rewrite He, Nat.sub_diag. change (negb (Z.of_nat 0 =? 0)) with false. cbn match.
    unfold vsfusbd_ep_cancel_send, mute_rx. rewrite Ht. bindr. cbn [t_stream t_ep xfer].
    rewrite (proj2 (Z.eqb_neq _ _)), Hs by done. bindr.
    rewrite (proj2 (Z.leb_le _ _)) by lia. by rewrite He, Nat.sub_diag.
  - split.
    + split; try done; cbn; [|by rewrite delete_insert_eq].
      unfold in_rest. cbn. by rewrite !delete_insert_eq.
    + unfold shape in Hshape. rewrite decide_False in Hshape by lia. split; [|split; [done|split; [|split]]].
      * cbn. unfold entry. by rewrite lookup_insert_eq.
      * eexists. cbn. rewrite lookup_insert_eq, Hcb. split; [reflexivity|]. split; [done|].
        split; [apply Hf|]. by rewrite He in Hl.
      * cbn. by rewrite Ht, He, Nat.sub_diag.
      * exists ps. split; [done|]. rewrite Hbytes, He in Hshape. split; [done|].
        assert (Hlen : length (concat ps) = N) by exact He. rewrite Hbytes, length_take in Hlen. lia.
Qed.

(** What is left to do. *)
Definition left (ps : list (list Z)) (z : bool) : nat := N - so_far ps + (if z then 1 else 0).

Lemma IN_do_ok total ps z idle w :
  sending total ps z idle false w →
  (∃ ps' z' armed' w', vsfusbd_on_IN_do xop hw cls ep w = Some (VSFERR_NONE, w') ∧ in_frame w w' ∧
     sending total ps' z' (negb armed') armed' w' ∧
     (if armed' then left ps' z' < left ps z
      else left ps' z' = left ps z ∧ ps' = ps ∧ length total < N)%nat) ∨
  (so_far ps = N ∧ vsfusbd_on_IN_do xop hw cls ep w
     = (w' ← t_finish cls (xfer 0 false false) (unbind w); Some (VSFERR_NONE, w')) ∧
   in_frame w (unbind w) ∧ let_go total (unbind w)).
Proof.
  intros Hs. pose proof (sd_bytes _ _ _ _ _ _ Hs) as [_ Hle].
  destruct (decide (so_far ps < N)%nat) as [Hlt|Hge].
  - left. destruct (decide (next_size ps ≤ length total - so_far ps)%nat) as [Hav|Hav].
    + destruct (IN_do_packet total ps z idle w Hs Hlt Hav) as (z' & w' & Hd & Hf & Hs' & Hq & Hz).
      eexists _, z', true, w'. split; [exact Hd|]. split; [done|]. split; [exact Hs'|].
      unfold left. rewrite so_far_snoc. destruct Hz as [->| ->]; [|destruct z]; lia.
    + destruct (IN_do_wait total ps z idle w Hs Hlt) as (w' & Hd & Hf & Hs' & Hn); [lia|].
      by exists ps, z, false, w'.
  - assert (He : so_far ps = N) by lia.
    pose proof (sd_idle _ _ _ _ _ _ Hs He) as ->. destruct z.
    + left. destruct (IN_do_zlp total ps w Hs He) as (w' & Hd & Hf & Hs').
      exists (ps ++ [[]]), false, true, w'. split; [done|]. split; [done|]. split; [done|].
      unfold left. rewrite so_far_snoc. simpl. lia.
    + right. split; [done|]. by apply (IN_do_finish total ps w).
Qed.

Lemma sending_urest total ps z idle armed w r :
  sending total ps z idle armed w → sending total ps z idle armed (set_urest w r).
Proof. intros [? ? ? ? ? ? ?]. by split. Qed.

Lemma in_frame_urest w r : keep (urest w) r → in_frame w (set_urest w r).
Proof. by split. Qed.

Lemma usr_cb_ok e q w :
  ∃ r, vsfusbd_usr_cb cls e q w = Some (set_urest w r) ∧ keep (urest w) r.
Proof.
  unfold vsfusbd_usr_cb. case_match; [|by apply (quiet_usr Hquiet)].
  exists (urest w). by rewrite set_urest_id.
Qed.

(** The endpoint's handler runs, after the user has been told. *)
Definition turn w : option world :=
  w ← vsfusbd_usr_cb cls USREVT_IN ep w; snd <$> vsfusbd_on_IN_do xop hw cls ep w.

Lemma evt_in base' total ps z idle armed w :
  sending total ps z idle armed w →
  base' ∈ [VSFUSBD_INTEVT_IN; VSFUSBD_STREAM_IN; VSFUSBD_STREAM_CLOSE_IN] →
  vsfusbd_evt_handler xop hw cls (Z.lor base' ep) w =
    if (base' =? VSFUSBD_INTEVT_IN) || idle then turn w else Some w.
Proof.
  intros [Ht [Hb Hh] _ _ _ _ _ _] Hbase. pose proof Hip as [Hep Htp Hp Hm HN].
  rewrite !elem_of_cons in Hbase.
  assert (Hevts : base' ∈ ep_evts) by (unfold ep_evts; rewrite !elem_of_cons; tauto).
  pose proof (ep_evt_bits base' ep Hevts Hep) as Hbits. unfold ep_evt_ok in Hbits.
  rewrite !andb_true_iff, !Z.eqb_eq in Hbits. destruct Hbits as [[[Hm1 Hm2] Hm3] Hplain].
  rewrite (plain_evt xop hw cls _ w Hplain). unfold transfer_evt. rewrite Hm1, Hm3.
  rewrite (proj2 (Z.ltb_ge _ _)) by lia.
  assert (Hd : (Z.land base' VSFUSBD_EVT_DIR_IN =? 0) = false)
    by (by destruct Hbase as [->|[->|[->|?%not_elem_of_nil]]]).
  rewrite Hd, (entry_bound _ _ _ Hb), (proj2 (Z.eqb_neq _ _)) by done.
  assert (Hturn : (w1 ← vsfusbd_usr_cb cls USREVT_IN ep w;
    ep_handler xop hw cls (entry (IN_handler (dev w1)) ep) ep w1) = turn w).
  { unfold turn. destruct (usr_cb_ok USREVT_IN ep w) as (r & -> & _). bindr.
    cbn [dev set_urest]. by rewrite (entry_bound _ _ _ Hh). }
  assert (Hkind : ∀ evt, stream_evt xop hw cls tp (Z.lor base' ep) w = Some (evt, w) →
    (Z.land evt VSFUSBD_EVT_EVT_MASK =? VSFUSBD_INTEVT_OUT) = false →
    ('(evt, w) ← stream_evt xop hw cls tp (Z.lor base' ep) w;
      (let kind := Z.land evt VSFUSBD_EVT_EVT_MASK in
    if kind =? VSFUSBD_INTEVT_IN then
      w ← vsfusbd_usr_cb cls USREVT_IN ep w; ep_handler xop hw cls (entry (IN_handler (dev w)) ep) ep w
    else if kind =? VSFUSBD_INTEVT_OUT then
      w ← vsfusbd_usr_cb cls USREVT_OUT ep w; ep_handler xop hw cls (entry (OUT_handler (dev w)) ep) ep w
    else Some w)) =
    if Z.land evt VSFUSBD_EVT_EVT_MASK =? VSFUSBD_INTEVT_IN then turn w else Some w).
  { intros evt -> He. bindr. cbv zeta. by rewrite He, Hturn. }
  unfold stream_evt in *. rewrite Ht in *. bindr. rewrite Hm2 in Hkind |- *. cbn [t_idle xfer] in *.
  destruct Hbase as [->|[->|[->|?%not_elem_of_nil]]]; [| | |done].
  - etrans; [apply (Hkind _ eq_refl); by rewrite Hm2|]. by rewrite Hm2.
  - destruct idle; (etrans; [apply (Hkind _ eq_refl); by rewrite ?Hm2|]); [done|by rewrite Hm2].
  - destruct idle; (etrans; [apply (Hkind _ eq_refl); by rewrite ?Hm2|]); [done|by rewrite Hm2].
Qed.

(** What [vsfusbd_ep_send] needs: the endpoint idle, the stream at hand. *)
Record can_send (total : list Z) w : Prop := {
  cs_transact : ∃ idle, transacts w !! tp = Some (xfer N zl idle);
  cs_stream : ∃ s, streams w !! p = Some s ∧ foreign_cb (tx_ready s) (callback_tx s) ∧
    (tx_ready s = true ∨ (N ≤ length total)%nat) ∧ src (op := usb_op xop) (smem s) total;
  cs_hal : in_size (view (hal w) ep) = Z.of_nat m ∧ in_armed (view (hal w) ep) = false ∧
    in_sent (view (hal w) ep) = base;
  cs_tmp : length (tmpbuf (dev w)) = VSFUSBD_TMPBUF }.

Lemma ep_send_ok total w :
  can_send total w → (0 < N)%nat →
  ∃ ps z armed w', vsfusbd_ep_send xop hw cls tp w = Some (VSFERR_NONE, w') ∧ in_frame w w' ∧
    sending total ps z (negb armed) armed w' ∧ (armed = false → length total < N)%nat.
Proof.
  intros [[idle Ht] (s & Hs & Hf & Hfed & Hl) (Hsz & Ha & Hsent) Htmp] HN0.
  pose proof Hip as [Hep Htp Hp Hm HN].
  unfold vsfusbd_ep_send. rewrite Ht. bindr. cbn [t_ep t_data_size t_stream xfer].
  rewrite (proj2 (Z.ltb_ge _ _)), (proj2 (Z.eqb_neq _ _)) by lia. cbn [negb].
  cbn [streams bind_IN put_transact set_transacts set_dev]. rewrite Hs. bindr.
  match goal with |- context [usb_connect_rx _ _ ?x] => set (w1 := x) end.
  destruct (usb_connect_rx_ok p w1 (set_rx s (core_rx tp))) as (r & Hc & Hk);
    [cbn; apply lookup_insert_eq|apply Hf|cbn; by left|].
  rewrite Hc. bindr.
  match goal with |- context [vsfusbd_on_IN_do _ _ _ _ ?x] => set (w2 := x) end.
  assert (Hs2 : sending total [] zl true false w2).
  { split; try done.
    - cbn. by rewrite lookup_insert_eq, Nat.sub_0_r.
    - cbn. by rewrite !lookup_insert_eq.
    - eexists. cbn. rewrite lookup_insert_eq. split; [done|]. by split_and!.
    - split; [done|]. unfold so_far. simpl. lia.
    - unfold shape, so_far. simpl. rewrite decide_True by done. split; [done|constructor].
    - cbn. by rewrite app_nil_r.
    - unfold so_far. simpl. lia. }
  assert (Hframe : in_frame w w2).
  { split; try done; cbn.
    - unfold in_rest. cbn. by rewrite !delete_insert_eq.
    - by rewrite delete_insert_eq.
    - by rewrite !delete_insert_eq. }
  destruct (IN_do_ok total [] zl true w2 Hs2) as [(ps & z & armed & w' & Hd & Hfr & Hs' & Hm')|Hfin].
  - exists ps, z, armed, w'. rewrite Hd. bindr. split; [done|]. split; [by etrans|].
    split; [done|]. intros ->. apply Hm'.
  - destruct Hfin as [He _]. unfold so_far in He. simpl in He. lia.
Qed.

(** *** Schedules

    The state machine dispatches its events, the host takes a packet, the other
    end of the stream gives it bytes and tells the core.  [total] is all the
    stream has been given. *)

Definition feeds (m0 m1 : umem X) (d : list Z) : Prop :=
  ∀ l, src (op := usb_op xop) m0 l → src (op := usb_op xop) m1 (l ++ d).

Inductive in_step (feed : bool) : list Z * world → list Z * world → Prop :=
  | in_poll total w w' : evts w ≠ [] → usbd_poll xop hw cls w = Some w' →
      in_step feed (total, w) (total, w')
  | in_take total w h : taken ep (hal w) h →
      in_step feed (total, w) (total, vsfusbd_on_EVENT ON_IN ep (set_hal w h))
  | in_feed total w s mem d c : feed = true → streams w !! p = Some s → feeds (smem s) mem d →
      call_if (usb_invoke cls p) (rx_ready s) (on_inout (callback_rx s)) (callback_rx s)
        (with_env (set_smem s mem) w) = Some c →
      in_step feed (total, w) (total ++ d, close_stream p c).

(** Events left from another transfer: they find this one or none. *)
Definition stale (e : Z) : Prop :=
  e = Z.lor VSFUSBD_STREAM_IN ep ∨ e = Z.lor VSFUSBD_STREAM_CLOSE_IN ep.
Definition taken_evt : Z := Z.lor VSFUSBD_INTEVT_IN ep.

(** How often the host has taken a packet that the core has not heard of. *)
Definition takes (l : list Z) : nat := length (filter (λ e, e = taken_evt) l).

(** After the end only stale events are left. *)
Definition over (total : list Z) w : Prop := let_go total w ∧ Forall stale (evts w).

Definition active (total : list Z) (ps : list (list Z)) (z idle armed : bool) w : Prop :=
  sending total ps z idle armed w ∧ Forall (λ e, e = taken_evt ∨ stale e) (evts w) ∧
  (takes (evts w) + (if armed then 1 else 0) = if idle then 0 else 1)%nat.

Lemma stale_taken e : stale e → e ≠ taken_evt.
Proof.
  unfold stale, taken_evt. intros Hs He. pose proof (ip_ep Hip) as Hep.
  pose proof (λ b Hb, ep_evt_bits b ep Hb Hep) as Hbits. unfold ep_evt_ok in Hbits.
  assert (Hkind : ∀ b, b ∈ ep_evts → Z.land (Z.lor b ep) VSFUSBD_EVT_EVT_MASK = Z.land b (-16)).
  { intros b Hb. specialize (Hbits b Hb). rewrite !andb_true_iff, !Z.eqb_eq in Hbits. tauto. }
  assert (Hi : VSFUSBD_INTEVT_IN ∈ ep_evts) by by_decide.
  destruct Hs as [->| ->]; apply (f_equal (λ x, Z.land x VSFUSBD_EVT_EVT_MASK)) in He;
    rewrite !Hkind in He by (done || by_decide); done.
Qed.

Lemma takes_cons e l : takes (e :: l) = (takes l + if decide (e = taken_evt) then 1 else 0)%nat.
Proof. unfold takes. rewrite filter_cons. case_decide; simpl; lia. Qed.

Lemma takes_snoc l e : takes (l ++ [e]) = (takes l + if decide (e = taken_evt) then 1 else 0)%nat.
Proof. unfold takes. rewrite filter_app, length_app, filter_cons. case_decide; simpl; lia. Qed.

Lemma stale_takes l : Forall stale l → takes l = 0%nat.
Proof.
  induction 1 as [|e l He Hl IH]; [done|]. rewrite takes_cons, IH, decide_False; [done|].
  by apply stale_taken.
Qed.

Lemma takes_stale l : Forall (λ e, e = taken_evt ∨ stale e) l → takes l = 0%nat → Forall stale l.
Proof.
  induction 1 as [|e l He Hl IH]; [constructor|]. rewrite takes_cons. intros Ht.
  case_decide; [lia|]. constructor; [by destruct He|apply IH; lia].
Qed.

(** Nothing of [sending] is about the queue of events. *)
Lemma sending_evts total ps z idle armed w l :
  sending total ps z idle armed w → sending total ps z idle armed (set_evts w l).
Proof. intros [? ? ? ? ? ? ?]. by split. Qed.

Lemma turn_ok total ps z idle w :
  sending total ps z idle false w →
  (∃ ps' z' armed' w', turn w = Some w' ∧ in_frame w w' ∧ sending total ps' z' (negb armed') armed' w' ∧
     (if armed' then left ps' z' < left ps z
      else left ps' z' = left ps z ∧ ps' = ps ∧ length total < N)%nat) ∨
  (∃ w', turn w = t_finish cls (xfer 0 false false) w' ∧ in_frame w w' ∧ let_go total w').
Proof.
  intros Hs. unfold turn. destruct (usr_cb_ok USREVT_IN ep w) as (r & -> & Hk). bindr.
  pose proof (sending_urest _ _ _ _ _ _ r Hs) as Hs1. pose proof (in_frame_urest w r Hk) as Hf1.
  destruct (IN_do_ok total ps z idle _ Hs1)
    as [(ps' & z' & armed' & w' & Hd & Hf & Hs' & Hm)|(_ & Hd & Hf & Hl)].
  - left. exists ps', z', armed', w'. rewrite Hd. split; [done|]. split; [by etrans|done].
  - right. eexists. rewrite Hd. split; [|split; [by etrans|done]].
    bindr. by destruct (t_finish _ _ _).
Qed.

(** The bound on the steps of a schedule without new bytes. *)
Definition mu (ps : list (list Z)) (z armed : bool) w : nat :=
  3 * left ps z + 3 + (if armed then 2 else 0) + length (evts w).

(** A step from [w] leaves the transfer active, below the bound [n] and idle only
    if [wait], or calls [on_finish]. *)
Definition moved (total : list Z) (n : nat) (wait : Prop) w (o : option world) : Prop :=
  (∃ ps z idle armed w', o = Some w' ∧ active total ps z idle armed w' ∧
     keep (urest w) (urest w') ∧ (mu ps z armed w' < n)%nat ∧ (idle = true → wait)) ∨
  (∃ w', o = t_finish cls (xfer 0 false false) w' ∧ let_go total w' ∧
     Forall stale (evts w') ∧ (length (evts w') < n)%nat ∧ keep (urest w) (urest w')).

Lemma turn_moved total ps z idle w :
  sending total ps z idle false w → Forall (λ e, e = taken_evt ∨ stale e) (evts w) →
  takes (evts w) = 0%nat →
  moved total (S (mu ps z false w)) (length total < N)%nat w (turn w).
Proof.
  intros Hs Hq Hz. destruct (turn_ok total ps z idle w Hs)
    as [(ps' & z' & armed' & w' & Hd & Hf & Hs' & Hm)|(w' & Hd & Hf & Hl)].
  - left. exists ps', z', (negb armed'), armed', w'. rewrite Hd. split; [done|].
    pose proof (if_evts _ _ Hf) as Hl. split; [|split; [apply (if_rest _ _ Hf)|]].
    + split; [done|]. rewrite Hl, Hz. split; [done|]. by destruct armed'.
    + unfold mu. rewrite Hl. destruct armed'; [split; [lia|done]|]. split; [lia|]. intros _. apply Hm.
  - right. exists w'. rewrite (if_evts _ _ Hf). split; [done|]. split; [done|].
    split; [by apply takes_stale|]. split; [unfold mu; lia|apply (if_rest _ _ Hf)].
Qed.

Lemma poll_active total ps z idle armed w :
  active total ps z idle armed w → evts w ≠ [] →
  moved total (mu ps z armed w) (length total < N)%nat w (usbd_poll xop hw cls w).
Proof.
  intros (Hs & Hq & Hcount) He. unfold usbd_poll. unfold mu at 1.
  destruct (evts w) as [|e l] eqn:Hev; [done|]. clear He.
  apply Forall_cons in Hq as [Hcase Hq]. rewrite takes_cons in Hcount.
  pose proof (sending_evts _ _ _ _ _ _ l Hs) as Hs1.
  assert (Hturn : armed = false → takes l = 0%nat →
    moved total (3 * left ps z + 3 + (if armed then 2 else 0) + length (e :: l))
      (length total < N)%nat w (turn (set_evts w l))).
  { intros -> Hz. destruct (turn_moved total ps z idle _ Hs1 Hq Hz)
      as [(ps' & z' & idle' & armed' & w' & H1 & H2 & H3 & H4 & H5)|(w' & H1 & H2 & H3 & H4 & H5)];
      unfold mu at 2 in H4 || unfold mu in H4; cbn [evts set_evts] in H4.
    - left. exists ps', z', idle', armed', w'. split_and!; try done. simpl in *. lia.
    - right. exists w'. split_and!; try done. simpl in *. lia. }
  destruct Hcase as [->|Hst].
  - rewrite decide_True in Hcount by done.
    unfold taken_evt. rewrite (evt_in VSFUSBD_INTEVT_IN _ _ _ _ _ _ Hs1) by by_decide.
    apply Hturn; destruct armed, idle; done || lia.
  - rewrite decide_False in Hcount by by apply stale_taken.
    assert (He : vsfusbd_evt_handler xop hw cls e (set_evts w l)
      = if idle then turn (set_evts w l) else Some (set_evts w l)).
    { destruct Hst as [->| ->]; (etrans; [eapply evt_in; [exact Hs1|by_decide]|done]). }
    rewrite He. destruct idle; [apply Hturn; destruct armed; done || lia|].
    left. exists ps, z, false, armed, (set_evts w l). split; [done|].
    split; [split; [done|]; split; [done|cbn [evts set_evts]; lia]|].
    split; [done|]. unfold mu. cbn [evts set_evts length]. split; [lia|done].
Qed.

Lemma evt_stale total e w :
  let_go total w → stale e → vsfusbd_evt_handler xop hw cls e w = Some w.
Proof.
  intros (Hn & _) Hst. pose proof Hip as [Hep _ _ _ _].
  assert (Hb : ∃ b, e = Z.lor b ep ∧ b ∈ [VSFUSBD_STREAM_IN; VSFUSBD_STREAM_CLOSE_IN]).
  { destruct Hst as [->| ->]; eexists; (split; [reflexivity|by_decide]). }
  destruct Hb as (b & -> & Hb). rewrite !elem_of_cons in Hb.
  assert (Hevts : b ∈ ep_evts) by (unfold ep_evts; rewrite !elem_of_cons; tauto).
  pose proof (ep_evt_bits b ep Hevts Hep) as Hbits. unfold ep_evt_ok in Hbits.
  rewrite !andb_true_iff, !Z.eqb_eq in Hbits. destruct Hbits as [[[Hm1 Hm2] Hm3] Hplain].
  rewrite (plain_evt xop hw cls _ w Hplain). unfold transfer_evt. rewrite Hm1, Hm3.
  rewrite (proj2 (Z.ltb_ge _ _)) by lia.
  assert (Hd : (Z.land b VSFUSBD_EVT_DIR_IN =? 0) = false)
    by (by destruct Hb as [->|[->|?%not_elem_of_nil]]).
  rewrite Hd, Hn, Z.eqb_refl. bindr. rewrite Hm2.
  by destruct Hb as [->|[->|?%not_elem_of_nil]].
Qed.

Lemma poll_over total w :
  over total w → evts w ≠ [] →
  ∃ w', usbd_poll xop hw cls w = Some w' ∧ over total w' ∧ urest w' = urest w ∧
    (length (evts w') < length (evts w))%nat.
Proof.
  intros [Hl Hst] He. unfold usbd_poll. destruct (evts w) as [|e l] eqn:Hev; [done|].
  apply Forall_cons in Hst as [Hs Hst]. exists (set_evts w l).
  rewrite (evt_stale total) by done. split; [done|]. split; [done|]. split; [done|]. simpl. lia.
Qed.

(** The host takes a packet: the core gets to hear of it. *)
Lemma take_active total ps z idle armed w h :
  active total ps z idle armed w → taken ep (hal w) h →
  let w' := vsfusbd_on_EVENT ON_IN ep (set_hal w h) in
  armed = true ∧ idle = false ∧ active total ps z idle false w' ∧ urest w' = urest w ∧
  (mu ps z false w' < mu ps z armed w)%nat.
Proof.
  intros ([Ht Hb Hst Hby Hsh (Hsz & Ha & Hsent) Htmp Hid] & Hq & Hcount) [Hta Hv] w'.
  assert (armed = true) as -> by congruence.
  assert (idle = false) as -> by (destruct idle; [lia|done]).
  split; [done|]. split; [done|]. split; [|split; [done|]].
  - split; [|split].
    + split; try done. cbn. rewrite Hv, decide_True by done. by cbn.
    + cbn [evts w' vsfusbd_on_EVENT post set_evts set_hal]. apply Forall_app. split; [done|].
      repeat constructor.
    + cbn [evts w' vsfusbd_on_EVENT post set_evts set_hal]. rewrite takes_snoc.
      rewrite decide_True by done. lia.
  - unfold mu. cbn [evts w' vsfusbd_on_EVENT post set_evts set_hal]. rewrite length_app. simpl. lia.
Qed.

Lemma feed_active total ps z idle armed w s mem d c :
  active total ps z idle armed w → streams w !! p = Some s → feeds (smem s) mem d →
  call_if (usb_invoke cls p) (rx_ready s) (on_inout (callback_rx s)) (callback_rx s)
    (with_env (set_smem s mem) w) = Some c →
  active (total ++ d) ps z idle armed (close_stream p c) ∧ evts (close_stream p c) ≠ [] ∧
  urest (close_stream p c) = urest w.
Proof.
  intros ([Ht Hb (s0 & Hs0 & Hf & Hcb & Hrx & Hfed & Hl) [Hby Hle] Hsh Hhal' Htmp Hid] & Hq & Hcount) Hs Hfeed Hc.
  rewrite Hs in Hs0. injection Hs0 as <-.
  assert (Hlen : (so_far ps ≤ length total)%nat).
  { assert (length (concat ps) = so_far ps) as Hx by done. rewrite Hby, length_take in Hx. lia. }
  assert (Hw : close_stream p c = post (put_stream w p (set_smem s mem)) (Z.lor VSFUSBD_STREAM_IN ep)).
  { unfold call_if, usb_invoke in Hc. rewrite Hrx, Hcb in Hc. cbn [on_inout core_rx cb_param] in Hc.
    cbn -[close_stream open_stream] in Hc. rewrite close_with_env in Hc.
    unfold vsfusbd_stream_on_in, ep_of in Hc. cbn [transacts put_stream set_streams] in Hc.
    rewrite Ht in Hc. cbn -[open_stream Z.lor] in Hc. unfold open_stream in Hc.
    cbn -[Z.lor] in Hc. rewrite lookup_insert_eq in Hc. cbn -[Z.lor] in Hc. injection Hc as <-.
    rewrite close_with_env. unfold post, put_stream, set_streams, set_evts. cbn -[Z.lor].
    by rewrite insert_insert_eq. }
  rewrite Hw. split; [|split; [|done]].
  - split; [|split].
    + split; try done.
      * exists (set_smem s mem). cbn. rewrite lookup_insert_eq. split_and!; try done.
        -- destruct Hfed as [?|?]; [by left|]. right. rewrite length_app. lia.
        -- rewrite drop_app_le by done. by apply Hfeed.
      * split; [|done]. by rewrite take_app_le.
    + cbn [evts post set_evts put_stream set_streams]. apply Forall_app. split; [done|].
      apply Forall_singleton. right. by left.
    + cbn [evts post set_evts put_stream set_streams]. rewrite takes_snoc, decide_False; [lia|].
      apply stale_taken. by left.
  - cbn. by destruct (evts w).
Qed.

Lemma feed_over total w s mem d c :
  over total w → streams w !! p = Some s → feeds (smem s) mem d →
  call_if (usb_invoke cls p) (rx_ready s) (on_inout (callback_rx s)) (callback_rx s)
    (with_env (set_smem s mem) w) = Some c →
  over (total ++ d) (close_stream p c) ∧ urest (close_stream p c) = urest w.
Proof.
  intros [(Hn & Ha & (s0 & Hs0 & Hm & Hf & Hl) & Ht & ps & Hsent & Hc & Hlen) Hst] Hs Hfeed Hcall.
  rewrite Hs in Hs0. injection Hs0 as <-.
  unfold call_if in Hcall. rewrite Hm, andb_false_r in Hcall. injection Hcall as <-.
  rewrite close_with_env. split; [|done]. split; [|done]. split; [done|]. split; [done|]. split; [|split; [done|]].
  - exists (set_smem s mem). cbn. rewrite lookup_insert_eq. split_and!; try done.
    rewrite drop_app_le by done. by apply Hfeed.
  - exists ps. split; [done|]. rewrite take_app_le by done. split; [done|]. rewrite length_app. lia.
Qed.
End to_host.
End transfers.

(** ** The promise of a transfer to the host *)

Section in_promise.
Context {X P H R : Type} {xop : vsf_stream_op_t X P} {hw : vsfhal_usbd H}.
Context `{Hhal : !UsbdHal hw} `{Hsrc : !Source (usb_op xop)}.
Notation world := (uworld X H R).
Implicit Types (w : world).
Context (cls : usbd_class world) (ep tp p fn prm : Z) (N m : nat) (zl : bool).

(** The rest of the program has a log of what it was told; only [on_finish]
    writes to it. *)
Context (calls : R → list (Z * Z)).
Definition same_calls (r r' : R) : Prop := calls r' = calls r.

#[export] Instance same_calls_preorder : PreOrder same_calls.
Proof. unfold same_calls. split; [done|]. intros x y z Hx Hy. congruence. Qed.

Definition told : list (Z * Z) := if fn =? NULL then [] else [(fn, prm)].
Definition finishes : Prop := ∀ w, ∃ r,
  (if fn =? NULL then Some w else cl_finish cls fn prm w) = Some (set_urest w r) ∧
  calls r = calls (urest w) ++ told.

Hypothesis (Hip : in_params ep tp p N m) (Hquiet : quiet cls same_calls) (Hfin : finishes).
Context (base : list (list Z)) (c0 : list (Z * Z)).

Notation active := (active (xop := xop) ep tp p fn prm N m zl base).
Notation over := (over (xop := xop) (hw := hw) ep tp p fn prm N m zl base).
Notation in_step := (in_step (xop := xop) (hw := hw) cls ep p).

(** [n] bounds the steps without new bytes. *)
Definition running (n : nat) (total : list Z) w : Prop :=
  (∃ ps z idle armed, active total ps z idle armed w ∧ calls (urest w) = c0 ∧
     (mu N ps z armed w ≤ n)%nat ∧ (idle = true → (length total < N)%nat ∨ evts w ≠ [])) ∨
  (over total w ∧ calls (urest w) = c0 ++ told ∧ (length (evts w) ≤ n)%nat).

Lemma running_poll n total w :
  running n total w → evts w ≠ [] →
  ∃ w', usbd_poll xop hw cls w = Some w' ∧ ∃ n', n = S n' ∧ running n' total w'.
Proof.
  intros [(ps & z & idle & armed & Ha & Hc & Hn & Hi)|(Ho & Hc & Hn)] He.
  - destruct (poll_active cls same_calls Hquiet ep tp p fn prm N m zl base Hip total ps z idle armed w Ha He)
      as [(ps' & z' & idle' & armed' & w' & Hp & Ha' & Hk & Hm & Hw)|(w' & Hp & Hl & Hst & Hm & Hk)].
    + exists w'. split; [exact Hp|]. exists (pred n). split; [lia|]. left.
      exists ps', z', idle', armed'. split; [done|]. split; [by rewrite Hk|]. split; [lia|].
      intros Hid. left. auto.
    + destruct (Hfin w') as (r & Hf & Hr). exists (set_urest w' r). split; [by rewrite Hp|].
      exists (pred n). split; [lia|]. right. split; [by split|]. cbn. rewrite Hr.
      unfold same_calls in Hk. rewrite Hk, Hc. split; [done|]. lia.
  - destruct (poll_over (xop := xop) cls ep tp p fn prm N m zl base Hip total w Ho He) as (w' & Hp & Ho' & Hu & Hlt).
    exists w'. split; [exact Hp|]. exists (pred n). split; [lia|]. right. rewrite Hu. split_and!; [done..|lia].
Qed.

Lemma running_step n feed c1 c2 :
  running n c1.1 c1.2 → in_step feed c1 c2 →
  ∃ n', running n' c2.1 c2.2 ∧ (feed = false → n = S n').
Proof.
  intros Hr Hstep. revert Hr.
  destruct Hstep as [total w w' He Hp|total w h Ht|total w s mem d c Hfd Hs Hfeed Hc];
    cbn [fst snd]; intros Hr.
  - destruct (running_poll n total w Hr He) as (w1 & Hp1 & n' & -> & Hr').
    rewrite Hp in Hp1. injection Hp1 as <-. by exists n'.
  - destruct Hr as [(ps & z & idle & armed & Ha & Hc & Hn & Hi)|([(_ & (_ & Hna & _) & _) _] & _)].
    2:{ destruct Ht as [Ht _]. congruence. }
    destruct (take_active ep tp p fn prm N m zl base total ps z idle armed w h Ha Ht)
      as (-> & -> & Ha' & Hu & Hm).
    exists (pred n). split; [|lia]. left. exists ps, z, false, false. rewrite Hu.
    split_and!; try done. lia.
  - destruct Hr as [(ps & z & idle & armed & Ha & Hcl & Hn & Hi)|(Ho & Hcl & Hn)].
    + destruct (feed_active cls ep tp p fn prm N m zl base Hip total ps z idle armed w s mem d c Ha Hs Hfeed Hc)
        as (Ha' & He & Hu).
      eexists. split; [|by rewrite Hfd]. left. exists ps, z, idle, armed. rewrite Hu.
      split; [exact Ha'|]. split; [done|]. split; [reflexivity|]. by right.
    + destruct (feed_over cls ep tp p fn prm N m zl base total w s mem d c Ho Hs Hfeed Hc) as (Ho' & Hu).
      eexists. split; [|by rewrite Hfd]. right. rewrite Hu. split; [exact Ho'|]. by split.
Qed.

Lemma running_steps n feed c1 c2 :
  running n c1.1 c1.2 → rtc (in_step feed) c1 c2 → ∃ n', running n' c2.1 c2.2.
Proof.
  intros Hr Hs. revert n Hr. induction Hs as [c|c1 c2 c3 H1 _ IH]; intros n Hr; [by exists n|].
  destruct (running_step n feed c1 c2 Hr H1) as (n' & Hr' & _). by apply (IH n').
Qed.

Lemma running_bound k n c1 c2 :
  running n c1.1 c1.2 → nsteps (in_step false) k c1 c2 → (k ≤ n)%nat.
Proof.
  intros Hr Hs. revert n Hr. induction Hs as [c|k c1 c2 c3 H1 _ IH]; intros n Hr; [lia|].
  destruct (running_step n false c1 c2 Hr H1) as (n' & Hr' & Hn). specialize (IH _ Hr'). 
  rewrite Hn by done. lia.
Qed.

(** What the host has seen of a running transfer. *)
Lemma running_seen n total w :
  running n total w →
  ∃ ps, in_sent (view (hal w) ep) = base ++ ps ∧ concat ps `prefix_of` take N total ∧
    Forall (λ q, length q ≤ m)%nat ps ∧
    (calls (urest w) = c0 ∨
     calls (urest w) = c0 ++ told ∧ complete m zl (take N total) ps) ∧
    (evts w = [] → in_armed (view (hal w) ep) = false → (N ≤ length total)%nat →
     calls (urest w) = c0 ++ told ∧ complete m zl (take N total) ps).
Proof.
  assert (Hfull : ∀ ps, full m ps → Forall (λ q, length q ≤ m)%nat ps).
  { intros ps Hf. eapply Forall_impl; [exact Hf|]. simpl. lia. }
  assert (Hcomp : ∀ l ps, complete m zl l ps → Forall (λ q, length q ≤ m)%nat ps).
  { intros l ps [_ (pre & q & -> & Hf & Hq)]. apply Forall_app. split; [by apply Hfull|].
    repeat constructor. destruct zl; lia. }
  intros [(ps & z & idle & armed & (Hs & Hq & Hcount) & Hc & Hn & Hi)|
          (((_ & (_ & Ha & _) & _ & _ & ps & Hsent & Hcp & Hlen) & Hst) & Hc & Hn)].
  - exists ps. destruct (sd_hal _ _ _ _ _ _ _ _ _ _ _ _ _ _ _ Hs) as (_ & Harm & Hsent).
    destruct (sd_bytes _ _ _ _ _ _ _ _ _ _ _ _ _ _ _ Hs) as [Hby Hle].
    pose proof (sd_shape _ _ _ _ _ _ _ _ _ _ _ _ _ _ _ Hs) as Hsh.
    split; [done|]. split; [|split; [|split; [by left|]]].
    + rewrite Hby. exists (drop (so_far ps) (take N total)).
      rewrite <- (take_drop (so_far ps) (take N total)) at 1. by rewrite take_take, Nat.min_l by lia.
    + unfold shape in Hsh. case_decide; [apply Hfull, Hsh|]. destruct z; [apply Hfull, Hsh|by eapply Hcomp].
    + intros He Hna Hlen. rewrite Harm in Hna. rewrite He, Hna in Hcount.
      destruct idle; [|done]. destruct Hi as [Hlt|Hne]; [done|lia|by rewrite He in Hne].
  - exists ps. split; [done|]. split; [|split; [by eapply Hcomp|split; [right; by split|done]]].
    destruct Hcp as [-> _]. done.
Qed.
End in_promise.

(** C5: a transfer of [N] bytes to the host.  Whatever the order in which the
    host takes packets, the stream gets bytes and events are dispatched, no step
    faults; the packets are the first [N] bytes of the stream in order, none
    larger than the endpoint or [tmpbuf]; without new bytes the steps come to an
    end; and once the stream has got [N] bytes they end with [on_finish] called
    once, all packets full but the last, which is short (or empty) when [zlp] is
    set. *)
Theorem usb_in_transfer {X P H R} {xop : vsf_stream_op_t X P} {hw : vsfhal_usbd H}
    `{!UsbdHal hw} `{!Source (usb_op xop)} (cls : usbd_class (uworld X H R)) ep tp p fn prm N m zl
    (calls : R → list (Z * Z)) total0 w :
  in_params ep tp p N m → (0 < N)%nat →
  quiet cls (same_calls calls) → finishes cls fn prm calls →
  can_send (hw := hw) (xop := xop) ep tp p fn prm N m zl (in_sent (view (hal w) ep)) total0 w →
  Forall (stale ep) (evts w) →
  ∃ w0, vsfusbd_ep_send xop hw cls tp w = Some (VSFERR_NONE, w0) ∧
  ∀ total w', rtc (in_step (xop := xop) (hw := hw) cls ep p true) (total0, w0) (total, w') →
    (evts w' ≠ [] → is_Some (usbd_poll xop hw cls w')) ∧
    (∃ b, ∀ k c, nsteps (in_step (xop := xop) (hw := hw) cls ep p false) k (total, w') c → (k ≤ b)%nat) ∧
    ∃ ps, in_sent (view (hal w') ep) = in_sent (view (hal w) ep) ++ ps ∧
      concat ps `prefix_of` take N total ∧ Forall (λ q, length q ≤ m)%nat ps ∧
      (calls (urest w') = calls (urest w) ∨
       calls (urest w') = calls (urest w) ++ told fn prm ∧ complete m zl (take N total) ps) ∧
      (evts w' = [] → in_armed (view (hal w') ep) = false → (N ≤ length total)%nat →
       calls (urest w') = calls (urest w) ++ told fn prm ∧ complete m zl (take N total) ps).
Proof.
  intros Hip HN Hq Hf Hcs Hst. set (base := in_sent (view (hal w) ep)) in *.
  destruct (ep_send_ok cls _ Hq ep tp p fn prm N m zl base Hip total0 w Hcs HN)
    as (ps & z & armed & w0 & Hs & Hfr & Hsend & Hwait).
  exists w0. split; [exact Hs|]. intros total w' Hrun.
  assert (Hr0 : running (xop := xop) (hw := hw) ep tp p fn prm N m zl calls base (calls (urest w))
    (mu N ps z armed w0) total0 w0).
  { left. exists ps, z, (negb armed), armed. split; [|split; [apply (if_rest _ _ _ _ _ _ Hfr)|]].
    - split; [done|]. rewrite (if_evts _ _ _ _ _ _ Hfr). split.
      + eapply Forall_impl; [exact Hst|]. by right.
      + rewrite (stale_takes ep tp p N m Hip _ Hst). by destruct armed.
    - split; [done|]. destruct armed; [done|]. left. by apply Hwait. }
  destruct (running_steps cls ep tp p fn prm N m zl calls Hip Hq Hf base _ _ true (total0, w0) (total, w')
    Hr0 Hrun) as [n Hn].
  cbn [fst snd] in Hn. split; [|split].
  - intros He. destruct (running_poll cls ep tp p fn prm N m zl calls Hip Hq Hf base _ n total w' Hn He)
      as (w1 & Hp & _). by exists w1.
  - exists n. intros k c Hk. exact (running_bound cls ep tp p fn prm N m zl calls Hip Hq Hf base _ k n (total, w') c Hn Hk).
  - by eapply running_seen.
Qed.

(** ** A controller to run on

    A table of endpoints, with the SETUP packet received last, the address, the
    endpoints that are stalled and the frame number; no call fails. *)

Record board := {
  b_eps : Z → ep_view; b_setup : list Z; b_address : Z; b_stalled : list Z; b_frame : Z }.

Definition on_ep (ep : Z) (f : ep_view → ep_view) (h : board) : board :=
  {| b_eps e := if decide (e = ep) then f (b_eps h ep) else b_eps h e; b_setup := b_setup h;
     b_address := b_address h; b_stalled := b_stalled h; b_frame := b_frame h |}.
Definition set_address_of (h : board) (a : Z) : board :=
  {| b_eps := b_eps h; b_setup := b_setup h; b_address := a; b_stalled := b_stalled h;
     b_frame := b_frame h |}.
Definition set_stalled (h : board) (l : list Z) : board :=
  {| b_eps := b_eps h; b_setup := b_setup h; b_address := b_address h; b_stalled := l;
     b_frame := b_frame h |}.
Definition set_setup (h : board) (l : list Z) : board :=
  {| b_eps := b_eps h; b_setup := l; b_address := b_address h; b_stalled := b_stalled h;
     b_frame := b_frame h |}.
Definition resize (i o : Z) (v : ep_view) : ep_view :=
  {| in_size := i; in_buf := in_buf v; in_armed := in_armed v; in_sent := in_sent v;
     out_size := o; out_enabled := out_enabled v; out_pkt := out_pkt v |}.
Definition ok {A} (a : A) : Z * A := (VSFERR_NONE, a).

(** A stalled endpoint is in the list by its address: 0x80 for IN. *)
Definition board_hal : vsfhal_usbd board := {|
  hal_init := ok; hal_fini := ok; hal_reset := ok; hal_connect := ok; hal_disconnect := ok;
  hal_wakeup := ok; hal_set_address a h := ok (set_address_of h a);
  hal_get_frame_number := b_frame; hal_get_setup h := (VSFERR_NONE, b_setup h);
  hal_prepare_buffer := ok; ep_num := 16; ep_set_type _ _ := ok;
  ep_set_IN_epsize ep n h := ok (on_ep ep (λ v, resize n (out_size v) v) h);
  ep_get_IN_epsize ep h := in_size (b_eps h ep);
  ep_set_IN_stall ep h := ok (set_stalled h (Z.lor ep 0x80 :: b_stalled h));
  ep_clear_IN_stall ep h := ok (set_stalled h (filter (λ e, e ≠ Z.lor ep 0x80) (b_stalled h)));
  ep_is_IN_stall ep h := bool_decide (Z.lor ep 0x80 ∈ b_stalled h);
  ep_reset_IN_toggle _ := ok; ep_set_IN_count ep n h := ok (on_ep ep (λ v, arm v n) h);
  ep_write_IN_buffer ep b h := ok (on_ep ep (λ v, write_buf v b) h);
  ep_set_OUT_epsize ep n h := ok (on_ep ep (λ v, resize (in_size v) n v) h);
  ep_get_OUT_epsize ep h := out_size (b_eps h ep);
  ep_set_OUT_stall ep h := ok (set_stalled h (ep :: b_stalled h));
  ep_clear_OUT_stall ep h := ok (set_stalled h (filter (λ e, e ≠ ep) (b_stalled h)));
  ep_is_OUT_stall ep h := bool_decide (ep ∈ b_stalled h);
  ep_reset_OUT_toggle _ := ok; ep_get_OUT_count ep h := Z.of_nat (length (out_pkt (b_eps h ep)));
  ep_read_OUT_buffer ep n h := (VSFERR_NONE, out_pkt (b_eps h ep));
  ep_enable_OUT ep h := ok (on_ep ep enable h) |}.

#[export] Instance board_UsbdHal : UsbdHal board_hal.
Proof. by refine {| view := b_eps |}. Defined.

Definition idle_ep (n : Z) : ep_view :=
  {| in_size := n; in_buf := []; in_armed := false; in_sent := []; out_size := n;
     out_enabled := false; out_pkt := [] |}.

(** The host takes the packet of [ep], or sends one. *)
Definition host_take {X R} (ep : Z) (w : uworld X board R) : uworld X board R :=
  vsfusbd_on_EVENT ON_IN ep (set_hal w (on_ep ep disarm (hal w))).
Definition host_send {X R} (ep : Z) (pkt : list Z) (w : uworld X board R) : uworld X board R :=
  vsfusbd_on_EVENT ON_OUT ep (set_hal w (on_ep ep (λ v, receive_pkt v pkt) (hal w))).

(** A program that only counts the transfers that finish. *)
Definition counting {X H} : usbd_class (uworld X H (list (Z * Z))) := {|
  cl_stream _ _ w := Some (set_urest w (urest w));
  cl_finish f p w := Some (set_urest w (urest w ++ [(f, p)]));
  cl_get_desc _ _ _ _ w := Some (VSFERR_FAIL, None, w); cl_request _ w := Some (VSFERR_FAIL, w);
  cl_init _ _ w := Some (VSFERR_NONE, w); cl_config _ w := Some (VSFERR_NONE, w);
  cl_usr _ _ _ w := Some (set_urest w (urest w)); cl_handler _ _ w := Some (VSFERR_FAIL, w) |}.

Definition no_cb : vsf_stream_cb_t :=
  {| cb_param := NULL; on_inout := NULL; on_connect := NULL; on_disconnect := NULL |}.

Definition demo_dev : vsfusbd_device_t := {|
  num_of_configuration := 0; config := []; desc_filter := []; device_class_iface := 0;
  on_EVENT := NULL; address := 5; configured := true; configuration := 0; feature := 0;
  ctrl_handler := {| request := {| bRequestType := 0; bRequest := 0; wValue := 0; wIndex := 0; wLength := 0 |};
    c_stream := NULL; c_data_size := 0; c_ep_size := 8; reply_buffer := [0; 0] |};
  IN_transact := ∅; OUT_transact := ∅; IN_handler := ∅; OUT_handler := ∅; tmpbuf := replicate 64 0 |}.

(** A fifo with [l] in it, both ends connected but for the one of the core. *)
Definition demo_fifo (l : list Z) (tx rx : bool) : ustream vsf_fifo_t := {|
  callback_tx := no_cb; callback_rx := no_cb; tx_ready := tx; rx_ready := rx; overflow := false;
  smem := Mem {| fbuf := {| buffer := l ++ replicate (20 - length l) 0; size := 20 |};
                 head := Z.of_nat (length l); tail := 0 |};
  env := tt |}.

Definition demo_world (t : vsfusbd_transact_t) (s : ustream vsf_fifo_t)
    : uworld vsf_fifo_t board (list (Z * Z)) := {|
  dev := demo_dev; transacts := {[ 0x50 := t ]}; streams := {[ 0x60 := s ]}; evts := [];
  on_event := ON_EVENT_FN;
  hal := {| b_eps _ := idle_ep 8; b_setup := []; b_address := 5; b_stalled := []; b_frame := 0 |};
  urest := [] |}.

Definition demo_send : uworld vsf_fifo_t board (list (Z * Z)) :=
  demo_world (xfer 2 0x60 0x70 0x71 10 true false) (demo_fifo (seqZ 1 6) true false).

(** Six of ten bytes are there; the others arrive after the first event. *)
Definition demo_send_run : option (uworld vsf_fifo_t board (list (Z * Z))) :=
  '(_, w) ← vsfusbd_ep_send fifostream_op board_hal counting 0x50 demo_send;
  w ← usb_stream_write fifostream_op counting 0x60 4 [7; 8; 9; 10] w;
  w ← usbd_poll fifostream_op board_hal counting w;
  w ← usbd_poll fifostream_op board_hal counting (host_take 2 w);
  usbd_poll fifostream_op board_hal counting (host_take 2 w).

Example demo_send_packets :
  match demo_send_run with
  | Some w => in_sent (b_eps (hal w) 2) = [seqZ 1 8; [9; 10]] ∧ urest w = [(0x70, 0x71)]
  | None => False
  end.
Proof. vm_compute. done. Qed.

Lemma fifo_rep_demo l tx rx :
  (length l ≤ 19)%nat → match smem (demo_fifo l tx rx) with Mem f => fifo_rep f l | Buf _ => False end.
Proof.
  intros Hl. cbn. unfold fifo_rep, fifo_wf, slot. cbn. split_and!; try lia.
  - rewrite length_app, length_replicate. lia.
  - zcase; lia.
  - intros i Hi. zcase; [|lia]. by rewrite Z.add_0_l, Nat2Z.id, lookup_app_l.
Qed.

Lemma counting_quiet {X H} : quiet (X := X) (H := H) counting (same_calls id).
Proof. split; intros; by eexists. Qed.

Lemma counting_finishes {X H} f p : finishes (X := X) (H := H) counting f p id.
Proof.
  intros w. unfold told. destruct (f =? NULL); [|by eexists].
  exists (urest w). by rewrite set_urest_id, app_nil_r.
Qed.

Lemma usb_in_transfer_witness :
  ∃ w0, vsfusbd_ep_send fifostream_op board_hal counting 0x50 demo_send = Some (VSFERR_NONE, w0) ∧
    in_sent (b_eps (hal w0) 2) = [] ∧ ∃ b, ∀ k c, 
      nsteps (in_step (xop := fifostream_op) (hw := board_hal) counting 2 0x60 false) k (seqZ 1 6, w0) c →
      (k ≤ b)%nat.
Proof.
  destruct (usb_in_transfer (xop := fifostream_op) (hw := board_hal) counting 2 0x50 0x60 0x70 0x71 10 8
    true id (seqZ 1 6) demo_send) as (w0 & H1 & H2).
  - split; unfold VSFUSBD_CFG_EPMAXNO, VSFUSBD_TMPBUF, NULL; lia.
  - lia.
  - apply counting_quiet.
  - apply counting_finishes.
  - split; [by eexists| |done|done].
    eexists. split; [reflexivity|]. split; [split; intros; by left|]. split; [by left|].
    apply (fifo_rep_demo (seqZ 1 6) true false). simpl. lia.
  - constructor.
  - exists w0. split; [exact H1|]. split; [vm_compute in H1; injection H1 as <-; reflexivity|].
    apply (H2 (seqZ 1 6) w0). constructor.
Defined.
