(* ===== verification/Usbrecv.v ===== *)
(** * Usbrecv: what a transfer from the host promises

    The endpoint is enabled only while the stream has room for the next packet,
    so nothing that the host sends is lost; a short packet or the last byte ends
    the transfer. *)

From S2P Require Import Prelude Chain Fifo Multibuf Stream Vsfsm Vsfusbd Usbctrl Usbxfer.

Section from_host.
Context {X P H R : Type} {xop : vsf_stream_op_t X P} {hw : vsfhal_usbd H}.
Context `{Hhal : !UsbdHal hw} `{Hsnk : !Sink (usb_op xop)}.
Notation world := (uworld X H R).
Implicit Types (w : world) (s : ustream X).
Context (cls : usbd_class world) (keep : R → R → Prop) `{!PreOrder keep}.
Hypothesis Hquiet : quiet cls keep.
Context (ep tp p fn prm : Z) (N m : nat) (zl : bool).
Hypothesis Hip : in_params ep tp p N m.

Notation xfer := (xfer ep p fn prm).

(** In progress: [l0] was in the stream before, [got] are the packets written to
    it, [out] is what has been taken from it; [idle] when it has no room for
    the next packet. *)
Record receiving (l0 : list Z) (got : list (list Z)) (out : list Z) (idle en : bool) w : Prop := {
  rc_transact : transacts w !! tp = Some (xfer (N - so_far got) zl idle);
  rc_bound : OUT_transact (dev w) !! ep = Some tp ∧ OUT_handler (dev w) !! ep = Some ON_OUT_DO_FN;
  rc_stream : ∃ s l c, streams w !! p = Some s ∧ foreign_cb (rx_ready s) (callback_rx s) ∧
    callback_tx s = core_tx tp ∧ tx_ready s = true ∧
    (rx_ready s = true ∨ Z.of_nat (N - so_far got) ≤ c) ∧ overflow s = false ∧
    snk (op := usb_op xop) (smem s) l c ∧ l0 ++ concat got = out ++ l ∧
    (idle = false → Z.of_nat (Nat.min (N - so_far got) m) ≤ c);
  rc_shape : full m got ∧ (so_far got < N)%nat;
  rc_hal : out_size (view (hal w) ep) = Z.of_nat m ∧ out_enabled (view (hal w) ep) = en;
  rc_tmp : length (tmpbuf (dev w)) = VSFUSBD_TMPBUF }.

(** What a step of the transfer leaves alone. *)
Definition out_others (d : vsfusbd_device_t) : vsfusbd_device_t :=
  set_tmpbuf (set_OUT d (delete ep (OUT_transact d)) (delete ep (OUT_handler d))) [].
Definition in_half (v : ep_view) : Z * list Z * bool * list (list Z) :=
  (in_size v, in_buf v, in_armed v, in_sent v).
Record out_frame w w' : Prop := {
  of_dev : out_others (dev w') = out_others (dev w);
  of_transacts : delete tp (transacts w') = delete tp (transacts w);
  of_streams : delete p (streams w') = delete p (streams w);
  of_evts : evts w' = evts w;
  of_on_event : on_event w' = on_event w;
  of_hal : ∀ e, (e ≠ ep → view (hal w') e = view (hal w) e) ∧
    in_half (view (hal w') e) = in_half (view (hal w) e);
  of_rest : keep (urest w) (urest w') }.

#[export] Instance out_frame_preorder : PreOrder out_frame.
Proof.
  split.
  - by split.
  - intros w1 w2 w3 [A1 A2 A3 A4 A5 A6 A7] [B1 B2 B3 B4 B5 B6 B7].
    split; [congruence..| |by etrans].
    intros e. destruct (A6 e) as [A A'], (B6 e) as [B B']. split; [|congruence].
    intros He. by rewrite B, A.
Qed.

(** The events of a transfer from the host, and those left from another. *)
Definition sent_evt : Z := Z.lor VSFUSBD_INTEVT_OUT ep.
Definition room_evt : Z := Z.lor VSFUSBD_STREAM_OUT ep.
Definition sends (l : list Z) : nat := length (filter (λ e, e = sent_evt) l).

Lemma room_sent : room_evt ≠ sent_evt.
Proof.
  unfold room_evt, sent_evt. intros He. pose proof (ip_ep _ _ _ _ _ Hip) as Hep.
  assert (H1 : ep_evt_ok VSFUSBD_STREAM_OUT ep = true) by (apply ep_evt_bits; [by_decide|done]).
  assert (H2 : ep_evt_ok VSFUSBD_INTEVT_OUT ep = true) by (apply ep_evt_bits; [by_decide|done]).
  unfold ep_evt_ok in H1, H2. rewrite !andb_true_iff, !Z.eqb_eq in H1, H2. rewrite He in H1.
  destruct H1 as [[[_ H1] _] _], H2 as [[[_ H2] _] _]. by rewrite H2 in H1.
Qed.

Lemma sends_cons e l : sends (e :: l) = (sends l + if decide (e = sent_evt) then 1 else 0)%nat.
Proof. unfold sends. rewrite filter_cons. case_decide; simpl; lia. Qed.
Lemma sends_snoc l e : sends (l ++ [e]) = (sends l + if decide (e = sent_evt) then 1 else 0)%nat.
Proof. unfold sends. rewrite filter_app, length_app, filter_cons. case_decide; simpl; lia. Qed.

(** *** Making room *)

(** The endpoint is enabled if the stream has room. *)
Lemma transact_out_ok l0 got out w :
  receiving l0 got out true false w →
  ∃ idle w', vsfusbd_transact_out xop hw tp w = Some w' ∧
    receiving l0 got out idle (negb idle) w' ∧ out_frame w w' ∧ streams w' = streams w ∧
    (idle = true → ∃ s l c, streams w' !! p = Some s ∧ snk (op := usb_op xop) (smem s) l c ∧
       c < Z.of_nat (Nat.min (N - so_far got) m)).
Proof.
  intros [Ht Hb (s & l & c & Hs & Hf & Hcb & Htx & Hfed & Hov & Hl & Heq & _) Hshape [Hsz Hen] Htmp].
  pose proof Hip as [Hep Htp Hp Hm HN]. unfold VSFUSBD_TMPBUF in Hm.
  unfold vsfusbd_transact_out. rewrite Ht. bindr. cbn [t_idle t_ep t_data_size t_stream Usbxfer.xfer].
  rewrite hal_OUT_epsize, Hsz. unfold usb_free_size. rewrite Hs. bindr. unfold stream_get_free_size.
  destruct (snk_free _ _ _ Hl) as [-> Hc].
  replace (u16 (Z.min (Z.of_nat m) (Z.of_nat (N - so_far got))))
    with (Z.of_nat (Nat.min (N - so_far got) m)) by (rewrite u16_small; lia).
  set (idle := c <? Z.of_nat (Nat.min (N - so_far got) m)).
  assert (Hst : ∃ s0 l1 c0, streams w !! p = Some s0 ∧ foreign_cb (rx_ready s0) (callback_rx s0) ∧
    callback_tx s0 = core_tx tp ∧ tx_ready s0 = true ∧
    (rx_ready s0 = true ∨ Z.of_nat (N - so_far got) ≤ c0) ∧ overflow s0 = false ∧
    snk (op := usb_op xop) (smem s0) l1 c0 ∧ l0 ++ concat got = out ++ l1 ∧
    (idle = false → Z.of_nat (Nat.min (N - so_far got) m) ≤ c0)).
  { exists s, l, c. split_and!; try done. unfold idle. intros ?%Z.ltb_ge. lia. }
  exists idle. destruct idle eqn:Hidle.
  - eexists. split; [reflexivity|]. split; [|split; [|split; [done|]]].
    + split; try done. cbn. by rewrite lookup_insert_eq.
    + split; try done. cbn. by rewrite delete_insert_eq.
    + intros _. exists s, l, c. split; [done|]. split; [done|]. by apply Z.ltb_lt.
  - unfold do_hal, run_hal. cbn [hal put_transact set_transacts].
    destruct (ep_enable_OUT hw ep (hal w)) as [e h] eqn:Hh. cbn [snd].
    pose proof (hal_enable ep (hal w)) as Hv. rewrite Hh in Hv. cbn [snd] in Hv.
    eexists. split; [reflexivity|]. split; [|split; [|by split]].
    + split; try done; cbn; [by rewrite lookup_insert_eq|]. rewrite Hv, decide_True by done. by cbn.
    + split; try done; cbn; [by rewrite delete_insert_eq|]. intros e0. rewrite Hv.
      case_decide; [by subst|done].
Qed.

(** *** A packet *)

Lemma inserts_back (q tmp : list Z) :
  (length q ≤ length tmp)%nat → take (length q) (list_inserts 0 q tmp) = q.
Proof.
  intros Hl. apply list_eq. intros i. destruct (decide (i < length q)%nat).
  - rewrite lookup_take_lt, list_lookup_inserts by lia. f_equal. lia.
  - by rewrite lookup_take_ge, lookup_ge_None_2 by lia.
Qed.

Lemma read_packet_ok w q :
  out_pkt (view (hal w) ep) = q → (length q ≤ VSFUSBD_TMPBUF)%nat →
  length (tmpbuf (dev w)) = VSFUSBD_TMPBUF →
  ∃ tmp, read_packet hw ep (Z.of_nat (length q)) w = Some (q, set_dev w (set_tmpbuf (dev w) tmp)) ∧
    length tmp = VSFUSBD_TMPBUF.
Proof.
  intros Hq Hl Ht. unfold read_packet.
  destruct (ep_read_OUT_buffer hw ep (Z.of_nat (length q)) (hal w)) as [e data] eqn:Hr.
  pose proof (hal_packet ep (Z.of_nat (length q)) (hal w)) as Hp. rewrite Hr, Hq in Hp. cbn [snd] in Hp.
  rewrite Nat2Z.id in *. rewrite firstn_all in Hp. rewrite Hp.
  rewrite memcpy_in by (rewrite Ht; lia). bindr.
  rewrite read_at_in by (rewrite length_inserts, Ht; lia). bindr. rewrite drop_0, inserts_back by lia.
  eexists. split; [reflexivity|]. by rewrite length_inserts.
Qed.

(** Whether the packet of [n] bytes is the last, with [r] bytes to come. *)
Lemma out_last_ok w s l c n r :
  streams w !! p = Some s → snk (op := usb_op xop) (smem s) l c → Z.of_nat n ≤ c →
  (rx_ready s = true ∨ Z.of_nat (n + r) ≤ c) →
  ∃ free, out_last xop (xfer r zl false) (Z.of_nat m) (Z.of_nat n) w
    = Some (free, (r =? 0)%nat || (n <? m)%nat,
        xfer r zl (if (r =? 0)%nat then false else (n <? m)%nat)) ∧
    (r ≠ 0%nat → free = c - Z.of_nat n).
Proof.
  intros Hs Hl Hn Hfed. unfold out_last. cbn [t_data_size t_stream Usbxfer.xfer].
  destruct (Nat.eqb_spec r 0) as [->|Hr].
  - exists 0. split; [reflexivity|done].
  - rewrite (proj2 (Z.eqb_neq _ _)) by lia. cbn [negb]. rewrite Hs. bindr.
    unfold stream_get_free_size. destruct (snk_free _ _ _ Hl) as [-> Hc].
    rewrite u32_small by lia. cbn [orb]. exists (c - Z.of_nat n).
    assert (Hlate : negb (rx_ready s) && (c - Z.of_nat n <? Z.of_nat r) = false).
    { destruct Hfed as [->|Hfed]; [done|]. apply andb_false_intro2, Z.ltb_ge. lia. }
    rewrite Hlate, orb_false_r, orb_false_r.
    replace (Z.of_nat n <? Z.of_nat m) with (n <? m)%nat; [done|].
    destruct (Nat.ltb_spec n m), (Z.ltb_spec (Z.of_nat n) (Z.of_nat m)); lia || done.
Qed.

(** The endpoint and the stream once the transfer has let go of them. *)
Definition gone (l0 : list Z) (got : list (list Z)) (out : list Z) w : Prop :=
  entry (OUT_transact (dev w)) ep = NULL ∧
  (out_size (view (hal w) ep) = Z.of_nat m ∧ out_enabled (view (hal w) ep) = false ∧
   length (tmpbuf (dev w)) = VSFUSBD_TMPBUF) ∧
  (∃ s l c, streams w !! p = Some s ∧ callback_tx s = mute (core_tx tp) ∧
    foreign (on_connect (callback_rx s)) ∧ overflow s = false ∧
    snk (op := usb_op xop) (smem s) l c ∧ l0 ++ concat got = out ++ l) ∧
  ∃ i, transacts w !! tp = Some (xfer (N - so_far got) zl i).

(** Writing the packet; an empty one is not written. *)
Lemma write_packet_ok w s l c q :
  streams w !! p = Some s → snk (op := usb_op xop) (smem s) l c → Z.of_nat (length q) ≤ c →
  (rx_ready s = true → foreign (on_inout (callback_rx s))) →
  ∃ mem r, (if 0 <? Z.of_nat (length q) then usb_stream_write xop cls p (Z.of_nat (length q)) q w
            else Some w) = Some (put_stream (set_urest w r) p (set_smem s mem)) ∧
    snk (op := usb_op xop) mem (l ++ q) (c - Z.of_nat (length q)) ∧ keep (urest w) r.
Proof.
  intros Hs Hl Hq Hf. destruct (Z.ltb_spec 0 (Z.of_nat (length q))).
  - by apply (usb_write_ok cls keep Hquiet p w s l c q).
  - destruct q; [|simpl in *; lia]. exists (smem s), (urest w). rewrite set_urest_id, app_nil_r, Z.sub_0_r.
    split; [|done]. f_equal. destruct w as [? ? st ? ? ? ?]. unfold put_stream, set_streams. cbn in *.
    f_equal. symmetry. apply insert_id. rewrite Hs. by destruct s as [? ? ? ? ? ? []].
Qed.

(** The endpoint enabled again, or not. *)
Lemma out_next_ok w free r idle0 :
  0 ≤ free < 4294967296 →
  let idle := free <? Z.of_nat (Nat.min r m) in
  ∃ h, out_next hw tp ep (Z.of_nat m) free (xfer r zl idle0) w
      = put_transact (set_hal w h) tp (xfer r zl idle) ∧
    out_size (view h ep) = out_size (view (hal w) ep) ∧
    out_enabled (view h ep) = (negb idle || out_enabled (view (hal w) ep)).
Proof.
  intros Hf idle. pose proof (ip_m _ _ _ _ _ Hip) as Hm. unfold VSFUSBD_TMPBUF in Hm.
  unfold out_next. cbn [t_data_size Usbxfer.xfer].
  replace (u16 (Z.min (Z.of_nat r) (Z.of_nat m))) with (Z.of_nat (Nat.min r m))
    by (rewrite u16_small; lia).
  fold idle. destruct idle.
  - exists (hal w). split; [by destruct w|]. done.
  - unfold do_hal, run_hal. cbn [hal put_transact set_transacts].
    destruct (ep_enable_OUT hw ep (hal w)) as [e h] eqn:Hh. cbn [snd].
    pose proof (hal_enable ep (hal w)) as Hv. rewrite Hh in Hv. cbn [snd] in Hv.
    exists h. split; [done|]. by rewrite Hv, decide_True.
Qed.

(** The room left is less than the next packet needs. *)
Definition no_room (got : list (list Z)) w : Prop :=
  ∃ s l c, streams w !! p = Some s ∧ snk (op := usb_op xop) (smem s) l c ∧
    c < Z.of_nat (Nat.min (N - so_far got) m).

Lemma OUT_do_more l0 got out q w :
  receiving l0 got out false false w → out_pkt (view (hal w) ep) = q →
  length q = m → (so_far got + length q < N)%nat →
  ∃ idle w', vsfusbd_on_OUT_do xop hw cls ep w = Some (VSFERR_NONE, w') ∧
    receiving l0 (got ++ [q]) out idle (negb idle) w' ∧ evts w' = evts w ∧ keep (urest w) (urest w') ∧
    (idle = true → no_room (got ++ [q]) w').
Proof.
  intros [Ht [Hb Hh] (s & l & c & Hs & Hf & Hcb & Htx & Hfed & Hov & Hl & Heq & Hroom) [Hfull Hlt]
    [Hsz Hen] Htmp] Hq Hqm HqN.
  pose proof Hip as [Hep Htp Hp Hm HN].
  specialize (Hroom eq_refl). destruct (snk_free _ _ _ Hl) as [_ Hc].
  unfold vsfusbd_on_OUT_do. rewrite hal_OUT_epsize, Hsz, hal_count, Hq.
  destruct (read_packet_ok w q Hq) as (tmp & Hrd & Htmp'); [lia|done|]. rewrite Hrd. bindr.
  cbn [dev set_dev transacts]. unfold entry. rewrite Hb. cbn [default id]. rewrite Ht. bindr.
  cbn [t_data_size set_t_size Usbxfer.xfer t_stream].
  rewrite (proj2 (Z.ltb_ge _ _)) by lia.
  set (r := (N - (so_far got + length q))%nat).
  replace (u32 (Z.of_nat (N - so_far got) - Z.of_nat (length q))) with (Z.of_nat r)
    by (rewrite u32_small; lia).
  match goal with |- context [out_last _ ?t _ _ ?w0] => set (w1 := w0); change t with (xfer r zl false) end.
  destruct (out_last_ok w1 s l c (length q) r Hs Hl) as (free & Hlast & Hfree); [lia|destruct Hfed; [by left|right; lia]|].
  rewrite Hlast. bindr. rewrite (proj2 (Nat.eqb_neq r 0)), (proj2 (Nat.ltb_ge _ _)) by lia. cbn [orb].
  rewrite Hfree by lia.
  destruct (out_next_ok (put_transact w1 tp (xfer r zl false)) (c - Z.of_nat (length q)) r false)
    as (h & Hnext & Hsz' & Hen'); [lia|].
  rewrite Hnext. set (idle := c - Z.of_nat (length q) <? Z.of_nat (Nat.min r m)) in *.
  match goal with |- context [usb_stream_write _ _ _ _ _ ?x] => set (w2 := x) end.
  cbn [t_stream Usbxfer.xfer].
  destruct (write_packet_ok w2 s l c q Hs Hl) as (mem & u & Hw & Hmem & Hk); [lia|apply Hf|].
  rewrite Hw. bindr. exists idle. eexists. split; [reflexivity|].
  assert (Hsf : so_far (got ++ [q]) = (so_far got + length q)%nat) by apply so_far_snoc.
  split; [|split; [done|split; [done|]]].
  - split.
    + cbn. rewrite lookup_insert_eq, Hsf. done.
    + done.
    + exists (set_smem s mem), (l ++ q), (c - Z.of_nat (length q)). cbn. rewrite lookup_insert_eq, Hsf.
      split_and!; try done.
      * destruct Hfed as [?|?]; [by left|right; lia].
      * rewrite concat_app. simpl. by rewrite app_nil_r, !app_assoc, Heq.
      * fold r. unfold idle. intros ?%Z.ltb_ge. lia.
    + split; [|lia]. apply Forall_app. split; [done|by apply Forall_singleton].
    + cbn. rewrite Hsz', Hen'. cbn. rewrite Hsz, Hen, orb_false_r. done.
    + done.
  - intros Hi. exists (set_smem s mem), (l ++ q), (c - Z.of_nat (length q)). cbn.
    rewrite lookup_insert_eq, Hsf. split; [done|]. split; [done|]. by apply Z.ltb_lt.
Qed.

(** [on_finish] of the transfer. *)
Definition finish w : option world := t_finish cls (xfer 0 false false) w.

Lemma cancel_recv_ok w s n i :
  transacts w !! tp = Some (xfer n zl i) → streams w !! p = Some s →
  vsfusbd_ep_cancel_recv cls tp w =
    finish (bind_OUT (put_stream w p (set_tx s (mute (callback_tx s)))) ep NULL NULL).
Proof.
  intros Ht Hs. pose proof Hip as [Hep Htp Hp Hm HN].
  unfold vsfusbd_ep_cancel_recv, mute_tx. rewrite Ht. bindr. cbn [t_stream t_ep Usbxfer.xfer].
  rewrite (proj2 (Z.eqb_neq _ _)), Hs by done. bindr.
  by rewrite (proj2 (Z.leb_le _ _)) by lia.
Qed.

Lemma OUT_do_last l0 got out q w :
  receiving l0 got out false false w → out_pkt (view (hal w) ep) = q →
  (length q ≤ m)%nat → (so_far got + length q ≤ N)%nat →
  (length q < m)%nat ∨ (so_far got + length q = N)%nat →
  ∃ w', vsfusbd_on_OUT_do xop hw cls ep w = (w'' ← finish w'; Some (VSFERR_NONE, w'')) ∧
    gone l0 (got ++ [q]) out w' ∧ out_frame w w'.
Proof.
  intros [Ht [Hb Hh] (s & l & c & Hs & Hf & Hcb & Htx & Hfed & Hov & Hl & Heq & Hroom) [Hfull Hlt]
    [Hsz Hen] Htmp] Hq Hqm HqN Hend.
  pose proof Hip as [Hep Htp Hp Hm HN]. specialize (Hroom eq_refl).
  unfold vsfusbd_on_OUT_do. rewrite hal_OUT_epsize, Hsz, hal_count, Hq.
  destruct (read_packet_ok w q Hq) as (tmp & Hrd & Htmp'); [lia|done|]. rewrite Hrd. bindr.
  cbn [dev set_dev transacts]. unfold entry. rewrite Hb. cbn [default id]. rewrite Ht. bindr.
  cbn [t_data_size set_t_size Usbxfer.xfer t_stream].
  rewrite (proj2 (Z.ltb_ge _ _)) by lia.
  set (r := (N - (so_far got + length q))%nat).
  replace (u32 (Z.of_nat (N - so_far got) - Z.of_nat (length q))) with (Z.of_nat r)
    by (rewrite u32_small; lia).
  match goal with |- context [out_last _ ?t _ _ ?w0] => set (w1 := w0); change t with (xfer r zl false) end.
  destruct (out_last_ok w1 s l c (length q) r Hs Hl) as (free & Hlast & _);
    [lia|destruct Hfed; [by left|right; lia]|].
  rewrite Hlast. bindr.
  assert (Hl1 : ((r =? 0) || (length q <? m))%nat = true).
  { destruct (Nat.eqb_spec r 0); [done|]. apply Nat.ltb_lt. lia. }
  rewrite Hl1. set (i := if (r =? 0)%nat then _ else _). cbn [t_stream Usbxfer.xfer].
  match goal with |- context [usb_stream_write _ _ _ _ _ ?x] => set (w2 := x) end.
  destruct (write_packet_ok w2 s l c q Hs Hl) as (mem & u & Hw & Hmem & Hk); [lia|apply Hf|].
  rewrite Hw. bindr.
  rewrite (cancel_recv_ok _ (set_smem s mem) r i);
    [|cbn; apply lookup_insert_eq|cbn; apply lookup_insert_eq].
  eexists. split; [reflexivity|]. split.
  - split; [cbn; unfold entry; by rewrite lookup_insert_eq|]. split; [done|]. split.
    + eexists _, (l ++ q), _. cbn. rewrite lookup_insert_eq, Hcb. split; [reflexivity|].
      split; [done|]. split; [apply Hf|]. split; [done|]. split; [exact Hmem|].
      rewrite concat_app. simpl. by rewrite app_nil_r, !app_assoc, Heq.
    + exists i. cbn. rewrite lookup_insert_eq. by rewrite so_far_snoc.
  - split; try done; cbn.
    + unfold out_others. cbn. by rewrite !delete_insert_eq.
    + by rewrite delete_insert_eq.
    + by rewrite !delete_insert_eq.
Qed.

(** *** Dispatch *)

(** The endpoint's handler runs, after the user has been told. *)
Definition turn w : option world :=
  w ← vsfusbd_usr_cb cls USREVT_OUT ep w; snd <$> vsfusbd_on_OUT_do xop hw cls ep w.

Lemma evt_out base l0 got out idle en w :
  receiving l0 got out idle en w → base ∈ [VSFUSBD_INTEVT_OUT; VSFUSBD_STREAM_OUT] →
  vsfusbd_evt_handler xop hw cls (Z.lor base ep) w =
    if base =? VSFUSBD_INTEVT_OUT then turn w else vsfusbd_transact_out xop hw tp w.
Proof.
  intros [Ht [Hb Hh] _ _ _ _] Hbase. pose proof Hip as [Hep Htp Hp Hm HN].
  rewrite !elem_of_cons in Hbase.
  assert (Hevts : base ∈ ep_evts) by (unfold ep_evts; rewrite !elem_of_cons; tauto).
  pose proof (ep_evt_bits base ep Hevts Hep) as Hbits. unfold ep_evt_ok in Hbits.
  rewrite !andb_true_iff, !Z.eqb_eq in Hbits. destruct Hbits as [[[Hm1 Hm2] Hm3] Hplain].
  rewrite (plain_evt xop hw cls _ w Hplain). unfold transfer_evt. rewrite Hm1, Hm3.
  rewrite (proj2 (Z.ltb_ge _ _)) by lia.
  assert (Hd : (Z.land base VSFUSBD_EVT_DIR_IN =? 0) = true)
    by (by destruct Hbase as [->|[->|?%not_elem_of_nil]]).
  rewrite Hd. cbn match. rewrite (entry_bound _ _ _ Hb), (proj2 (Z.eqb_neq _ _)) by done.
  assert (Hse : stream_evt xop hw cls tp (Z.lor base ep) w =
    if base =? VSFUSBD_INTEVT_OUT then Some (Z.lor base ep, w)
    else w ← vsfusbd_transact_out xop hw tp w; Some (Z.lor base ep, w)).
  { unfold stream_evt. rewrite Ht. bindr. rewrite Hm2.
    by destruct Hbase as [->|[->|?%not_elem_of_nil]]. }
  rewrite Hse. destruct Hbase as [->|[->|?%not_elem_of_nil]]; [| |done].
  - rewrite Z.eqb_refl. bindr. rewrite Hm2.
    change (Z.land VSFUSBD_INTEVT_OUT (-16)) with VSFUSBD_INTEVT_OUT.
    change (VSFUSBD_INTEVT_OUT =? VSFUSBD_INTEVT_IN) with false. rewrite Z.eqb_refl.
    unfold turn. destruct (usr_cb_ok cls keep Hquiet USREVT_OUT ep w) as (r & -> & _). bindr.
    cbn [dev set_urest]. by rewrite (entry_bound _ _ _ Hh).
  - change (VSFUSBD_STREAM_OUT =? VSFUSBD_INTEVT_OUT) with false. cbn match.
    destruct (vsfusbd_transact_out xop hw tp w) as [w'|]; [|done]. bindr. by rewrite Hm2.
Qed.

Lemma receiving_urest l0 got out idle en w r :
  receiving l0 got out idle en w → receiving l0 got out idle en (set_urest w r).
Proof. intros [? ? ? ? ? ?]. by split. Qed.
Lemma receiving_evts l0 got out idle en w l :
  receiving l0 got out idle en w → receiving l0 got out idle en (set_evts w l).
Proof. intros [? ? ? ? ? ?]. by split. Qed.

(** *** Schedules

    The host sends packets no longer than the endpoint and no more than [N]
    bytes, and the other end of the stream takes bytes; [sent] is what the host
    has sent, [out] what has been taken. *)

Definition takes_from (m0 m1 : umem X) (x : list Z) : Prop :=
  ∀ l c, snk (op := usb_op xop) m0 l c →
    ∃ l' c', l = x ++ l' ∧ snk (op := usb_op xop) m1 l' c' ∧ c ≤ c'.

Inductive out_step (drain : bool) :
    list (list Z) * list Z * world → list (list Z) * list Z * world → Prop :=
  | out_poll sent out w w' : evts w ≠ [] → usbd_poll xop hw cls w = Some w' →
      out_step drain (sent, out, w) (sent, out, w')
  | out_send sent out w q h : delivered ep q (hal w) h →
      (length q ≤ m)%nat → (so_far (sent ++ [q]) ≤ N)%nat →
      out_step drain (sent, out, w) (sent ++ [q], out, vsfusbd_on_EVENT ON_OUT ep (set_hal w h))
  | out_take sent out w s mem x c : drain = true → streams w !! p = Some s →
      takes_from (smem s) mem x →
      call_if (usb_invoke cls p) (tx_ready s) (on_inout (callback_tx s)) (callback_tx s)
        (with_env (set_smem s mem) w) = Some c →
      out_step drain (sent, out, w) (sent, out ++ x, close_stream p c).

(** A packet of the host waits in the endpoint, or none does. *)
Definition pending (got sent : list (list Z)) (idle en : bool) w : Prop :=
  (sends (evts w) = 0%nat ∧ sent = got ∧ en = negb idle) ∨
  (sends (evts w) = 1%nat ∧ idle = false ∧ en = false ∧
   ∃ q, sent = got ++ [q] ∧ out_pkt (view (hal w) ep) = q ∧ (length q ≤ m)%nat ∧
     (so_far got + length q ≤ N)%nat).

Definition active (l0 : list Z) (got sent : list (list Z)) (out : list Z) (idle en : bool) w : Prop :=
  receiving l0 got out idle en w ∧ Forall (λ e, e = sent_evt ∨ e = room_evt) (evts w) ∧
  pending got sent idle en w.

(** The packets that end a transfer. *)
Definition ended (sent : list (list Z)) : Prop :=
  ∃ pre q, sent = pre ++ [q] ∧ full m pre ∧ (so_far pre < N)%nat ∧ (length q ≤ m)%nat ∧
    ((length q < m)%nat ∨ so_far sent = N).

Definition over (l0 : list Z) (sent : list (list Z)) (out : list Z) w : Prop :=
  gone l0 sent out w ∧ Forall (λ e, e = room_evt) (evts w) ∧ ended sent.

Definition mu (got : list (list Z)) (idle en : bool) w : nat :=
  4 * (N - so_far got) + (if idle then 3 else if en then 2 else 0) + length (evts w).

Lemma sends_room l :
  Forall (λ e, e = sent_evt ∨ e = room_evt) l → sends l = 0%nat → Forall (λ e, e = room_evt) l.
Proof.
  induction 1 as [|e l He Hl IH]; [constructor|]. rewrite sends_cons. intros Ht.
  case_decide; [lia|]. constructor; [by destruct He|apply IH; lia].
Qed.

(** The packet in the endpoint is handled. *)
Lemma out_turn_ok l0 got q out w :
  receiving l0 got out false false w → out_pkt (view (hal w) ep) = q →
  (length q ≤ m)%nat → (so_far got + length q ≤ N)%nat →
  (∃ idle w', turn w = Some w' ∧ receiving l0 (got ++ [q]) out idle (negb idle) w' ∧
     evts w' = evts w ∧ keep (urest w) (urest w') ∧ (0 < length q)%nat ∧
     (idle = true → no_room (got ++ [q]) w')) ∨
  (∃ w', turn w = finish w' ∧ gone l0 (got ++ [q]) out w' ∧ out_frame w w' ∧ ended (got ++ [q])).
Proof.
  intros Hr Hq Hqm HqN. unfold turn.
  destruct (usr_cb_ok cls keep Hquiet USREVT_OUT ep w) as (u & -> & Hu). bindr.
  pose proof (receiving_urest _ _ _ _ _ _ u Hr) as Hr1. pose proof (ip_m _ _ _ _ _ Hip) as Hm.
  destruct (decide (length q = m ∧ so_far got + length q < N)%nat) as [[H1 H2]|Hn].
  - left. destruct (OUT_do_more l0 got out q _ Hr1 Hq H1 H2) as (idle & w' & Hd & Hr' & He & Hk & Hi).
    exists idle, w'. rewrite Hd. split; [done|]. split; [done|]. split; [done|].
    split; [by etrans|]. split; [lia|done].
  - right. destruct (OUT_do_last l0 got out q _ Hr1 Hq Hqm HqN) as (w' & Hd & Hg & Hfr); [lia|].
    exists w'. rewrite Hd. split; [bindr; by destruct (finish w')|]. split; [done|].
    split; [etrans; [|exact Hfr]; by split|]. destruct (rc_shape _ _ _ _ _ _ Hr) as [Hf Hlt].
    exists got, q. rewrite so_far_snoc. split_and!; try done. lia.
Qed.

(** A step leaves the transfer active, below the bound [n], or ends it. *)
Definition moved (l0 : list Z) (sent : list (list Z)) (out : list Z) (n : nat) w (o : option world) : Prop :=
  (∃ got idle en w', o = Some w' ∧ active l0 got sent out idle en w' ∧ keep (urest w) (urest w') ∧
     (mu got idle en w' < n)%nat ∧ (idle = true → no_room got w')) ∨
  (∃ w', o = finish w' ∧ over l0 sent out w' ∧ (length (evts w') < n)%nat ∧ keep (urest w) (urest w')).

Lemma poll_sent l0 got sent out idle en w l :
  active l0 got sent out idle en w → evts w = sent_evt :: l →
  moved l0 sent out (mu got idle en w) w (usbd_poll xop hw cls w).
Proof.
  intros (Hr & Hq & Hpend) Hev. unfold usbd_poll, mu. rewrite Hev in *.
  apply Forall_cons in Hq as [_ Hq].
  pose proof (receiving_evts _ _ _ _ _ _ l Hr) as Hr1.
  unfold sent_evt. rewrite (evt_out VSFUSBD_INTEVT_OUT _ _ _ _ _ _ Hr1) by by_decide. rewrite Z.eqb_refl.
  unfold pending in Hpend. rewrite Hev, sends_cons, decide_True in Hpend by done.
  destruct Hpend as [[? _]|(Hz & -> & -> & q & -> & Hpkt & Hqm & HqN)]; [lia|].
  destruct (out_turn_ok l0 got q out _ Hr1 Hpkt Hqm HqN)
    as [(idle & w' & Hd & Hr' & He & Hk & Hpos & Hi)|(w' & Hd & Hg & [_ _ _ He _ _ Hk] & Hend)];
    cbn [evts set_evts] in He.
  - left. exists (got ++ [q]), idle, (negb idle), w'. split; [done|]. split; [|split; [done|split; [|done]]].
    + split; [done|]. rewrite He. split; [done|]. left. rewrite He. split; [lia|done].
    + unfold mu. rewrite He, so_far_snoc. destruct (rc_shape _ _ _ _ _ _ Hr). simpl. destruct idle; simpl; lia.
  - right. exists w'. rewrite He. split; [done|]. split; [|split; [simpl; lia|done]].
    split; [done|]. rewrite He. split; [|done]. apply sends_room; [done|lia].
Qed.

Lemma poll_room l0 got sent out idle en w l :
  active l0 got sent out idle en w → evts w = room_evt :: l →
  moved l0 sent out (mu got idle en w) w (usbd_poll xop hw cls w).
Proof.
  intros (Hr & Hq & Hpend) Hev. unfold usbd_poll, mu. rewrite Hev in *.
  apply Forall_cons in Hq as [_ Hq].
  pose proof (receiving_evts _ _ _ _ _ _ l Hr) as Hr1.
  unfold room_evt. rewrite (evt_out VSFUSBD_STREAM_OUT _ _ _ _ _ _ Hr1) by by_decide.
  change (VSFUSBD_STREAM_OUT =? VSFUSBD_INTEVT_OUT) with false. cbn match.
  unfold pending in Hpend. rewrite Hev, sends_cons, decide_False, Nat.add_0_r in Hpend by apply room_sent.
  left. destruct idle.
  - destruct Hpend as [(Hz & -> & ->)|(_ & ? & _)]; [|done].
    destruct (transact_out_ok l0 got out _ Hr1) as (idle & w' & Hd & Hr' & [_ _ _ He _ _ Hk] & _ & Hi).
    cbn [evts urest set_evts] in *. exists got, idle, (negb idle), w'. rewrite Hd.
    split; [done|]. split; [|split; [done|split; [|done]]].
    + split; [done|]. rewrite He. split; [done|]. left. by rewrite He.
    + unfold mu. rewrite He. destruct idle; simpl; lia.
  - exists got, false, en, (set_evts w l). split.
    { unfold vsfusbd_transact_out. by rewrite (rc_transact _ _ _ _ _ _ Hr1). }
    split; [by split|]. split; [done|]. unfold mu. cbn [evts set_evts]. split; [simpl; lia|done].
Qed.

Lemma out_poll_active l0 got sent out idle en w :
  active l0 got sent out idle en w → evts w ≠ [] →
  moved l0 sent out (mu got idle en w) w (usbd_poll xop hw cls w).
Proof.
  intros Ha He. destruct (evts w) as [|e l] eqn:Hev; [done|].
  destruct Ha as (Hr & Hq & Hpend). pose proof Hq as Hq'. rewrite Hev in Hq'.
  apply Forall_cons in Hq' as [[->| ->] _]; [by eapply poll_sent|by eapply poll_room].
Qed.

(** The host sends a packet: the core gets to hear of it. *)
Lemma send_active l0 got sent out idle en w q h :
  active l0 got sent out idle en w → delivered ep q (hal w) h → (length q ≤ m)%nat →
  (so_far (sent ++ [q]) ≤ N)%nat →
  let w' := vsfusbd_on_EVENT ON_OUT ep (set_hal w h) in
  active l0 got (sent ++ [q]) out false false w' ∧ urest w' = urest w ∧ idle = false ∧
  (mu got false false w' < mu got idle en w)%nat.
Proof.
  intros ([Ht Hb Hst Hsh [Hsz Hen] Htmp] & Hq & Hpend) [Hden Hv] Hqm HqN w'.
  assert (en = true) as -> by congruence.
  destruct Hpend as [(Hz & -> & Hi)|(_ & _ & ? & _)]; [|done].
  assert (idle = false) as -> by (by destruct idle).
  split; [|split; [done|split; [done|]]].
  - split; [|split].
    + split; try done. cbn. rewrite Hv, decide_True by done. by cbn.
    + cbn [evts w' vsfusbd_on_EVENT post set_evts set_hal]. apply Forall_app. split; [done|].
      apply Forall_singleton. by left.
    + right. cbn [evts w' vsfusbd_on_EVENT post set_evts set_hal]. rewrite sends_snoc, decide_True by done.
      split; [lia|]. split; [done|]. split; [done|]. exists q. split; [done|].
      split; [cbn; by rewrite Hv, decide_True|]. split; [done|]. by rewrite <- so_far_snoc.
  - unfold mu. cbn [evts w' vsfusbd_on_EVENT post set_evts set_hal]. rewrite length_app. simpl. lia.
Qed.

Lemma out_take_active l0 got sent out idle en w s mem x c :
  active l0 got sent out idle en w → streams w !! p = Some s → takes_from (smem s) mem x →
  call_if (usb_invoke cls p) (tx_ready s) (on_inout (callback_tx s)) (callback_tx s)
    (with_env (set_smem s mem) w) = Some c →
  active l0 got sent (out ++ x) idle en (close_stream p c) ∧ evts (close_stream p c) ≠ [] ∧
  urest (close_stream p c) = urest w.
Proof.
  intros ([Ht Hb (s0 & l & f & Hs0 & Hf & Hcb & Htx & Hfed & Hov & Hl & Heq & Hroom) Hsh Hh Htmp] & Hq & Hpend)
    Hs Htake Hc.
  rewrite Hs in Hs0. injection Hs0 as <-. destruct (Htake l f Hl) as (l' & f' & -> & Hl' & Hff).
  assert (Hw : close_stream p c = post (put_stream w p (set_smem s mem)) room_evt).
  { unfold call_if, usb_invoke in Hc. rewrite Htx, Hcb in Hc. cbn [on_inout core_tx cb_param] in Hc.
    cbn -[close_stream open_stream] in Hc. rewrite close_with_env in Hc.
    unfold vsfusbd_stream_on_out, ep_of in Hc. cbn [transacts put_stream set_streams] in Hc.
    rewrite Ht in Hc. cbn -[open_stream Z.lor] in Hc. unfold open_stream in Hc.
    cbn -[Z.lor] in Hc. rewrite lookup_insert_eq in Hc. cbn -[Z.lor] in Hc. injection Hc as <-.
    rewrite close_with_env. unfold post, put_stream, set_streams, set_evts. cbn -[Z.lor].
    by rewrite insert_insert_eq. }
  rewrite Hw. split; [|split; [cbn; by destruct (evts w)|done]]. split; [|split].
  - split; try done. exists (set_smem s mem), l', f'. cbn. rewrite lookup_insert_eq.
    split_and!; try done.
    + destruct Hfed as [?|?]; [by left|right; lia].
    + by rewrite Heq, app_assoc.
    + intros Hi. specialize (Hroom Hi). lia.
  - cbn [evts post set_evts put_stream set_streams]. apply Forall_app. split; [done|].
    apply Forall_singleton. by right.
  - unfold pending in *. cbn [evts post set_evts put_stream set_streams].
    rewrite sends_snoc, decide_False, Nat.add_0_r by apply room_sent. exact Hpend.
Qed.

(** *** After the end *)

Lemma out_poll_over l0 sent out w :
  over l0 sent out w → evts w ≠ [] →
  ∃ w', usbd_poll xop hw cls w = Some w' ∧ over l0 sent out w' ∧ urest w' = urest w ∧
    (length (evts w') < length (evts w))%nat.
Proof.
  intros (Hg & Hst & Hend) He. unfold usbd_poll. destruct (evts w) as [|e l] eqn:Hev; [done|].
  apply Forall_cons in Hst as [-> Hst]. exists (set_evts w l). pose proof Hip as [Hep _ _ _ _].
  split; [|split; [by split|split; [done|simpl; lia]]].
  assert (Hbits : ep_evt_ok VSFUSBD_STREAM_OUT ep = true) by (apply ep_evt_bits; [by_decide|done]).
  unfold ep_evt_ok in Hbits. rewrite !andb_true_iff, !Z.eqb_eq in Hbits.
  destruct Hbits as [[[Hm1 Hm2] Hm3] Hplain].
  unfold room_evt. rewrite (plain_evt xop hw cls _ _ Hplain). unfold transfer_evt. rewrite Hm1, Hm3.
  rewrite (proj2 (Z.ltb_ge _ _)) by lia.
  change (Z.land VSFUSBD_STREAM_OUT VSFUSBD_EVT_DIR_IN =? 0) with true. cbn match.
  cbn [dev set_evts]. rewrite (proj1 Hg), Z.eqb_refl. bindr. by rewrite Hm2.
Qed.

Lemma take_over l0 sent out w s mem x c :
  over l0 sent out w → streams w !! p = Some s → takes_from (smem s) mem x →
  call_if (usb_invoke cls p) (tx_ready s) (on_inout (callback_tx s)) (callback_tx s)
    (with_env (set_smem s mem) w) = Some c →
  over l0 sent (out ++ x) (close_stream p c) ∧ urest (close_stream p c) = urest w ∧
  evts (close_stream p c) = evts w.
Proof.
  intros ((Hn & Hen & (s0 & l & f & Hs0 & Hm & Hfc & Hov & Hl & Heq) & Ht) & Hst & Hend) Hs Htake Hc.
  rewrite Hs in Hs0. injection Hs0 as <-. destruct (Htake l f Hl) as (l' & f' & -> & Hl' & Hff).
  unfold call_if in Hc. rewrite Hm, andb_false_r in Hc. injection Hc as <-.
  rewrite close_with_env. split; [|done]. split; [|done]. split; [done|]. split; [done|]. split; [|done].
  exists (set_smem s mem), l', f'. cbn. rewrite lookup_insert_eq. split_and!; try done.
  by rewrite Heq, app_assoc.
Qed.

(** *** The start *)

(** What [vsfusbd_ep_recv] needs: the endpoint idle, the stream [l] at hand. *)
Record can_receive (l : list Z) w : Prop := {
  cr_transact : ∃ idle, transacts w !! tp = Some (xfer N zl idle);
  cr_stream : ∃ s c, streams w !! p = Some s ∧ foreign_cb (rx_ready s) (callback_rx s) ∧
    (rx_ready s = true ∨ Z.of_nat N ≤ c) ∧ overflow s = false ∧ snk (op := usb_op xop) (smem s) l c;
  cr_hal : out_size (view (hal w) ep) = Z.of_nat m ∧ out_enabled (view (hal w) ep) = false;
  cr_tmp : length (tmpbuf (dev w)) = VSFUSBD_TMPBUF }.

Lemma ep_recv_ok l0 w :
  can_receive l0 w → (0 < N)%nat →
  ∃ idle w', vsfusbd_ep_recv xop hw cls tp w = Some (VSFERR_NONE, w') ∧
    receiving l0 [] [] idle (negb idle) w' ∧ out_frame w w' ∧
    (idle = true → no_room [] w' ∧ no_room [] w).
Proof.
  intros [[i Ht] (s & c & Hs & Hf & Hfed & Hov & Hl) [Hsz Hen] Htmp] HN0.
  pose proof Hip as [Hep Htp Hp Hm HN].
  unfold vsfusbd_ep_recv. rewrite Ht. bindr. cbn [t_ep t_data_size t_stream Usbxfer.xfer].
  rewrite (proj2 (Z.ltb_ge _ _)), (proj2 (Z.eqb_neq _ _)) by lia. cbn [negb].
  cbn [streams bind_OUT put_transact set_transacts set_dev]. rewrite Hs. bindr.
  match goal with |- context [usb_connect_tx _ _ ?x] => set (w1 := x) end.
  destruct (usb_connect_tx_ok cls keep Hquiet p w1 (set_tx s (core_tx tp))) as (r & Hc & Hk);
    [cbn; apply lookup_insert_eq|apply Hf|cbn; by left|].
  rewrite Hc. bindr.
  match goal with |- context [vsfusbd_transact_out _ _ _ ?x] => set (w2 := x) end.
  assert (Hr : receiving l0 [] [] true false w2).
  { split; try done.
    - cbn. by rewrite lookup_insert_eq, Nat.sub_0_r.
    - cbn. by rewrite !lookup_insert_eq.
    - eexists _, l0, c. cbn. rewrite lookup_insert_eq, app_nil_r, Nat.sub_0_r. split; [done|].
      by split_and!.
    - split; [constructor|done]. }
  destruct (transact_out_ok l0 [] [] w2 Hr) as (idle & w' & Hd & Hr' & Hfr & Hst & Hi).
  exists idle, w'. rewrite Hd. bindr. split; [done|]. split; [done|]. split.
  2:{ intros Hidle. specialize (Hi Hidle). split; [exact Hi|]. destruct Hi as (s1 & l1 & c1 & Hs1 & Hl1 & Hlt).
    exists s, l1, c1. split; [done|]. split; [|done]. rewrite Hst in Hs1. cbn in Hs1.
    rewrite lookup_insert_eq in Hs1. by injection Hs1 as <-. }
  etrans; [|exact Hfr]. split; try done; cbn.
  - unfold out_others. cbn. by rewrite !delete_insert_eq.
  - by rewrite delete_insert_eq.
  - by rewrite !delete_insert_eq.
Qed.
End from_host.

(** ** The promise of a transfer from the host *)

Section out_promise.
Context {X P H R : Type} {xop : vsf_stream_op_t X P} {hw : vsfhal_usbd H}.
Context `{Hhal : !UsbdHal hw} `{Hsnk : !Sink (usb_op xop)}.
Notation world := (uworld X H R).
Implicit Types (w : world).
Context (cls : usbd_class world) (ep tp p fn prm : Z) (N m : nat) (zl : bool).
Context (calls : R → list (Z * Z)).
Hypothesis (Hip : in_params ep tp p N m) (Hquiet : quiet cls (same_calls calls))
  (Hfin : finishes cls fn prm calls).
Context (l0 : list Z) (c0 : list (Z * Z)).

Notation active := (active (xop := xop) ep tp p fn prm N m zl).
Notation over := (over (hw := hw) (xop := xop) ep tp p fn prm N m zl).
Notation out_step := (out_step (xop := xop) (hw := hw) cls ep p N m).
Notation mu := (mu N).
Notation no_room := (no_room (xop := xop) p N m).

(** [n] bounds the steps until the stream makes room. *)
Definition running (n : nat) (c : list (list Z) * list Z * world) : Prop :=
  let '(sent, out, w) := c in
  (∃ got idle en, active l0 got sent out idle en w ∧ calls (urest w) = c0 ∧
     (mu got idle en w ≤ n)%nat ∧ (idle = true → no_room got w ∨ evts w ≠ [])) ∨
  (over l0 sent out w ∧ calls (urest w) = c0 ++ told fn prm ∧ (length (evts w) ≤ n)%nat).

Lemma out_running_poll n sent out w :
  running n (sent, out, w) → evts w ≠ [] →
  ∃ w', usbd_poll xop hw cls w = Some w' ∧ ∃ n', n = S n' ∧ running n' (sent, out, w').
Proof.
  intros [(got & idle & en & Ha & Hc & Hn & Hi)|(Ho & Hc & Hn)] He.
  - destruct (out_poll_active cls (same_calls calls) Hquiet ep tp p fn prm N m zl Hip _ _ _ _ _ _ _ Ha He)
      as [(got' & idle' & en' & w' & Hp & Ha' & Hk & Hm & Hw)|(w' & Hp & Ho & Hm & Hk)].
    + exists w'. split; [exact Hp|]. exists (pred n). split; [lia|]. left. exists got', idle', en'.
      split; [done|]. split; [by rewrite Hk|]. split; [lia|]. auto.
    + destruct (Hfin w') as (r & Hf & Hr). exists (set_urest w' r). split; [by rewrite Hp|].
      exists (pred n). split; [lia|]. right. split; [exact Ho|]. cbn. rewrite Hr.
      unfold same_calls in Hk. rewrite Hk, Hc. split; [done|]. lia.
  - destruct (out_poll_over (xop := xop) cls ep tp p fn prm N m zl Hip _ _ _ _ Ho He) as (w' & Hp & Ho' & Hu & Hlt).
    exists w'. split; [exact Hp|]. exists (pred n). split; [lia|]. right. rewrite Hu. split_and!; [done..|lia].
Qed.

Lemma out_running_step n drain c1 c2 :
  running n c1 → out_step drain c1 c2 → ∃ n', running n' c2 ∧ (drain = false → n = S n').
Proof.
  intros Hr Hstep. revert Hr.
  destruct Hstep as [sent out w w' He Hp|sent out w q h Hd Hqm HqN|sent out w s mem x c Hdr Hs Ht Hc];
    intros Hr.
  - destruct (out_running_poll n sent out w Hr He) as (w1 & Hp1 & n' & -> & Hr').
    rewrite Hp in Hp1. injection Hp1 as <-. by exists n'.
  - destruct Hr as [(got & idle & en & Ha & Hc & Hn & Hi)|(((_ & (_ & Hen & _) & _) & _) & _)].
    2:{ destruct Hd as [Hd _]. congruence. }
    destruct (send_active ep tp p fn prm N m zl l0 got sent out idle en w q h Ha Hd Hqm HqN)
      as (Ha' & Hu & Hidle & Hm).
    exists (pred n). split; [|lia]. left. exists got, false, false. rewrite Hu.
    split; [exact Ha'|]. split; [done|]. split; [lia|done].
  - destruct Hr as [(got & idle & en & Ha & Hcl & Hn & Hi)|(Ho & Hcl & Hn)].
    + destruct (out_take_active cls ep tp p fn prm N m zl Hip _ _ _ _ _ _ _ _ _ _ _ Ha Hs Ht Hc)
        as (Ha' & He & Hu).
      eexists. split; [|by rewrite Hdr]. left. exists got, idle, en. rewrite Hu.
      split; [exact Ha'|]. split; [done|]. split; [reflexivity|]. by right.
    + destruct (take_over cls ep tp p fn prm N m zl _ _ _ _ _ _ _ _ Ho Hs Ht Hc) as (Ho' & Hu & He).
      eexists. split; [|by rewrite Hdr]. right. rewrite Hu, He. split; [exact Ho'|]. by split.
Qed.

Lemma out_running_steps n drain c1 c2 :
  running n c1 → rtc (out_step drain) c1 c2 → ∃ n', running n' c2.
Proof.
  intros Hr Hs. revert n Hr. induction Hs as [c|c1 c2 c3 H1 _ IH]; intros n Hr; [by exists n|].
  destruct (out_running_step n drain c1 c2 Hr H1) as (n' & Hr' & _). by apply (IH n').
Qed.

Lemma out_running_bound k n c1 c2 : running n c1 → nsteps (out_step false) k c1 c2 → (k ≤ n)%nat.
Proof.
  intros Hr Hs. revert n Hr. induction Hs as [c|k c1 c2 c3 H1 _ IH]; intros n Hr; [lia|].
  destruct (out_running_step n false c1 c2 Hr H1) as (n' & Hr' & Hn). specialize (IH _ Hr').
  rewrite Hn by done. lia.
Qed.

(** What the stream holds, and what the endpoint may accept. *)
Definition stream_holds (got : list (list Z)) (out : list Z) w : Prop :=
  ∃ s l c, streams w !! p = Some s ∧ overflow s = false ∧ snk (op := usb_op xop) (smem s) l c ∧
    l0 ++ concat got = out ++ l ∧
    (out_enabled (view (hal w) ep) = true → Z.of_nat (Nat.min (N - so_far got) m) ≤ c).

Lemma out_running_seen n sent out w :
  running n (sent, out, w) →
  ∃ got, got `prefix_of` sent ∧ stream_holds got out w ∧
    ((calls (urest w) = c0 ∧ full m got) ∨
     calls (urest w) = c0 ++ told fn prm ∧ got = sent ∧ ended N m sent) ∧
    (evts w = [] → out_enabled (view (hal w) ep) = false →
     (calls (urest w) = c0 ++ told fn prm ∧ got = sent ∧ ended N m sent) ∨ no_room got w).
Proof.
  intros [(got & idle & en & (Hr & Hq & Hpend) & Hc & Hn & Hi)|
          (((_ & (_ & Hen & _) & (s & l & c & Hs & Hm & _ & Hov & Hl & Heq) & _) & Hst & Hend) & Hc & Hn)].
  - exists got. destruct (rc_hal _ _ _ _ _ _ _ _ _ _ _ _ _ _ Hr) as [_ Hen].
    destruct (rc_stream _ _ _ _ _ _ _ _ _ _ _ _ _ _ Hr)
      as (s & l & c & Hs & _ & _ & _ & _ & Hov & Hl & Heq & Hroom).
    destruct (rc_shape _ _ _ _ _ _ _ _ _ _ _ _ _ _ Hr) as [Hf Hlt].
    split; [|split; [|split; [by left|]]].
    + destruct Hpend as [(_ & -> & _)|(_ & _ & _ & q & -> & _)]; [done|by exists [q]].
    + exists s, l, c. split_and!; try done. rewrite Hen. intros ->. apply Hroom.
      destruct Hpend as [(_ & _ & Hi')|(_ & ? & ? & _)]; [|done]. by destruct idle.
    + intros He Hne. right. rewrite Hen in Hne. unfold pending in Hpend. rewrite He in Hpend.
      destruct Hpend as [(_ & _ & ->)|(? & _)]; [|done].
      destruct idle; [|done]. destruct Hi as [?|?]; done.
  - exists sent. split; [done|]. split; [|split; [by right|by left]].
    exists s, l, c. split_and!; try done. rewrite Hen. done.
Qed.
End out_promise.

(** C6: a transfer of up to [N] bytes from the host.  Whatever the order in which
    the host sends packets (no longer than the endpoint, [N] bytes at most), the
    stream is emptied and events are dispatched, no step faults; the stream is
    given the bytes of the packets in order and drops none; the endpoint accepts
    a packet only while the stream has room for it; [on_finish] is called once,
    after a short packet or the last byte, with everything written; until the
    stream makes room the steps come to an end, and then the transfer has
    finished or the stream has no room for a packet. *)
Theorem usb_out_transfer {X P H R} {xop : vsf_stream_op_t X P} {hw : vsfhal_usbd H}
    `{!UsbdHal hw} `{!Sink (usb_op xop)} (cls : usbd_class (uworld X H R)) ep tp p fn prm N m zl
    (calls : R → list (Z * Z)) l0 w :
  in_params ep tp p N m → (0 < N)%nat →
  quiet cls (same_calls calls) → finishes cls fn prm calls →
  can_receive (hw := hw) (xop := xop) ep tp p fn prm N m zl l0 w → evts w = [] →
  ∃ w0, vsfusbd_ep_recv xop hw cls tp w = Some (VSFERR_NONE, w0) ∧
  ∀ sent out w', rtc (out_step (xop := xop) (hw := hw) cls ep p N m true) ([], [], w0) (sent, out, w') →
    (evts w' ≠ [] → is_Some (usbd_poll xop hw cls w')) ∧
    (∃ b, ∀ k c, nsteps (out_step (xop := xop) (hw := hw) cls ep p N m false) k (sent, out, w') c →
       (k ≤ b)%nat) ∧
    ∃ got, got `prefix_of` sent ∧ stream_holds (hw := hw) (xop := xop) ep p N m l0 got out w' ∧
      ((calls (urest w') = calls (urest w) ∧ full m got) ∨
       calls (urest w') = calls (urest w) ++ told fn prm ∧ got = sent ∧ ended N m sent) ∧
      (evts w' = [] → out_enabled (view (hal w') ep) = false →
       (calls (urest w') = calls (urest w) ++ told fn prm ∧ got = sent ∧ ended N m sent) ∨ no_room (xop := xop) p N m got w').
Proof.
  intros Hip HN Hq Hf Hcr He.
  destruct (ep_recv_ok cls _ Hq ep tp p fn prm N m zl Hip l0 w Hcr HN)
    as (idle & w0 & Hs & Hr & [_ _ _ Hev _ _ Hk] & Hroom).
  exists w0. split; [exact Hs|]. intros sent out w' Hrun.
  assert (Hr0 : running (xop := xop) (hw := hw) ep tp p fn prm N m zl calls l0 (calls (urest w))
    (mu N [] idle (negb idle) w0) ([], [], w0)).
  { left. exists [], idle, (negb idle). split; [|split; [exact Hk|split; [done|]]].
    - split; [done|]. rewrite Hev, He. split; [constructor|]. left. by rewrite Hev, He.
    - intros Hi. left. by apply Hroom. }
  destruct (out_running_steps cls ep tp p fn prm N m zl calls Hip Hq Hf l0 _ _ true _ (sent, out, w') Hr0 Hrun)
    as [n Hn].
  split; [|split].
  - intros Hne. destruct (out_running_poll cls ep tp p fn prm N m zl calls Hip Hq Hf l0 _ n sent out w' Hn Hne)
      as (w1 & Hp & _). by exists w1.
  - exists n. intros k c Hsteps.
    exact (out_running_bound cls ep tp p fn prm N m zl calls Hip Hq Hf l0 _ k n (sent, out, w') c Hn Hsteps).
  - by eapply out_running_seen.
Qed.

(** ** Runs *)

Definition demo_recv (l : list Z) : uworld vsf_fifo_t board (list (Z * Z)) :=
  demo_world (xfer 1 0x60 0x70 0x71 20 false false) (demo_fifo l false true).

(** Twelve bytes of nineteen are taken: the endpoint stays disabled until the
    reader makes room, then takes a full packet and a short one. *)
Definition demo_recv_run : option (list (uworld vsf_fifo_t board (list (Z * Z)))) :=
  '(_, w0) ← vsfusbd_ep_recv fifostream_op board_hal counting 0x50 (demo_recv (seqZ 1 12));
  '(_, w) ← usb_stream_read fifostream_op counting 0x60 12 (Some (replicate 12 0)) w0;
  w1 ← usbd_poll fifostream_op board_hal counting w;
  w2 ← usbd_poll fifostream_op board_hal counting (host_send 1 (seqZ 20 8) w1);
  w3 ← usbd_poll fifostream_op board_hal counting (host_send 1 [30; 31] w2);
  Some [w0; w1; w2; w3].

Example demo_recv_enabled :
  match demo_recv_run with
  | Some ws => (λ w, (out_enabled (b_eps (hal w) 1), urest w)) <$> ws
      = [(false, []); (true, []); (true, []); (false, [(0x70, 0x71)])]
  | None => False
  end.
Proof. vm_compute. done. Qed.

Lemma usb_out_transfer_witness :
  ∃ w0, vsfusbd_ep_recv fifostream_op board_hal counting 0x50 (demo_recv (seqZ 1 12))
      = Some (VSFERR_NONE, w0) ∧ out_enabled (b_eps (hal w0) 1) = false ∧
    ∃ got, got `prefix_of` [] ∧
      stream_holds (hw := board_hal) (xop := fifostream_op) 1 0x60 20 8 (seqZ 1 12) got [] w0.
Proof.
  destruct (usb_out_transfer (xop := fifostream_op) (hw := board_hal) counting 1 0x50 0x60 0x70 0x71 20 8
    false id (seqZ 1 12) (demo_recv (seqZ 1 12))) as (w0 & H1 & H2).
  - split; unfold VSFUSBD_CFG_EPMAXNO, VSFUSBD_TMPBUF, NULL; lia.
  - lia.
  - apply counting_quiet.
  - apply counting_finishes.
  - split; [by eexists| |done|done].
    eexists _, 7. split; [reflexivity|]. split; [split; intros; by left|]. split; [by left|]. split; [done|].
    split; [|done]. apply (fifo_rep_demo (seqZ 1 12) false true). simpl. lia.
  - done.
  - exists w0. split; [exact H1|]. split; [vm_compute in H1; injection H1 as <-; reflexivity|].
    destruct (H2 [] [] w0) as (_ & _ & got & Hg & Hs & _); [constructor|]. by exists got.
Defined.

(** A transfer of no bytes leaves [idle] set: an event of the stream left from
    the transfer before finishes it while its packet is still in the endpoint. *)
Definition demo_empty : uworld vsf_fifo_t board (list (Z * Z)) :=
  post (demo_world (xfer 2 0x60 0x70 0x71 0 false false) (demo_fifo [] true true)) 0x4052.

Example zero_length_finished_early :
  match '(_, w) ← vsfusbd_ep_send fifostream_op board_hal counting 0x50 demo_empty;
        usbd_poll fifostream_op board_hal counting w with
  | Some w => in_armed (b_eps (hal w) 2) = true ∧ urest w = [(0x70, 0x71)]
  | None => False
  end.
Proof. vm_compute. done. Qed.

(** A packet longer than what is left of the transfer: it is dropped, the
    endpoint is not enabled again and [on_finish] is never called. *)
Example packet_too_long_hangs :
  match '(_, w) ← vsfusbd_ep_recv fifostream_op board_hal counting 0x50
          (demo_world (xfer 1 0x60 0x70 0x71 4 false false) (demo_fifo [] false true));
        usbd_poll fifostream_op board_hal counting (host_send 1 (seqZ 0 6) w) with
  | Some w => evts w = [] ∧ out_enabled (b_eps (hal w) 1) = false ∧ urest w = [] ∧
      usb_data_size fifostream_op 0x60 w = Some 0
  | None => False
  end.
Proof. vm_compute. done. Qed.

(** A multi-buffer that a writer has filled in part counts bytes that cannot be
    read yet: the packet has what [tmpbuf] held. *)
Definition demo_partial : uworld vsf_mbufstream_mem_t board (list (Z * Z)) := {|
  dev := set_tmpbuf demo_dev (replicate 64 0xAA); transacts := {[ 0x50 := xfer 2 0x60 0x70 0x71 3 false false ]};
  streams := {[ 0x60 := {| callback_tx := no_cb; callback_rx := no_cb; tx_ready := true; rx_ready := false;
    overflow := false;
    smem := Mem {| multibuf := {| count := 2; msize := 4; buffer_list := [[1; 2; 3; 0]; [0; 0; 0; 0]];
                                  mtail := 0; mhead := 0; mlength := 0 |}; rpos := 0; wpos := 3 |};
    env := tt |} ]};
  evts := []; on_event := ON_EVENT_FN;
  hal := {| b_eps _ := idle_ep 8; b_setup := []; b_address := 5; b_stalled := []; b_frame := 0 |};
  urest := [] |}.

Example partial_buffer_sends_garbage :
  match vsfusbd_ep_send mbufstream_op board_hal counting 0x50 demo_partial with
  | Some (_, w) => in_sent (b_eps (hal w) 2) = [[0xAA; 0xAA; 0xAA]]
  | None => False
  end.
Proof. vm_compute. done. Qed.
