(* ===== verification/Usbreq.v ===== *)
(** * Usbreq: standard requests, from the SETUP packet to the bytes the host gets

    A request that reads is answered by a reply of the device, cut to the length
    asked for and sent in packets; a request that is refused stalls endpoint 0.
    The endpoints of a configuration are those of its descriptor. *)

From S2P Require Import Prelude Chain Fifo Multibuf Endian Stream Vsfsm Vsfusbd Usbctrl Usbxfer.

(** ** Replies *)

(** What the device answers to a standard request that reads. *)
Inductive std_reply (d : vsfusbd_device_t) (r : usb_ctrlrequest_t) : list Z → Prop :=
  | reply_status :
      bRequestType r = 0x80 → bRequest r = USB_REQ_GET_STATUS → wValue r = 0 → wIndex r = 0 →
      std_reply d r [feature d; 0]
  | reply_descriptor b :
      bRequestType r = 0x80 → bRequest r = USB_REQ_GET_DESCRIPTOR →
      vsfusbd_device_get_descriptor (desc_filter d) (value_type (wValue r)) (value_index (wValue r))
        (wIndex r) = Some (VSFERR_NONE, Some b) →
      0 ≤ size b < 4294967296 → size b ≤ Z.of_nat (length (buffer b)) →
      std_reply d r (take (Z.to_nat (size b)) (buffer b))
  | reply_configuration c x y :
      bRequestType r = 0x80 → bRequest r = USB_REQ_GET_CONFIGURATION → wValue r = 0 → wIndex r = 0 →
      the_config d = Some c → reply_buffer (ctrl_handler d) = [x; y] →
      std_reply d r [configuration_value c; y]
  | reply_iface_status c i :
      bRequestType r = 0x81 → bRequest r = USB_REQ_GET_STATUS → wValue r = 0 → 0 ≤ wIndex r < 256 →
      the_config d = Some c → wIndex r < num_of_ifaces c → iface c !! Z.to_nat (wIndex r) = Some i →
      std_reply d r [0; 0]
  | reply_interface c i :
      bRequestType r = 0x81 → bRequest r = USB_REQ_GET_INTERFACE → wValue r = 0 → 0 ≤ wIndex r < 256 →
      the_config d = Some c → wIndex r < num_of_ifaces c → iface c !! Z.to_nat (wIndex r) = Some i →
      std_reply d r [alternate_setting i].

(** A standard request for one kind of recipient. *)
Definition standard (r : usb_ctrlrequest_t) (recip : Z) : Prop :=
  Z.land (bRequestType r) USB_TYPE_MASK = USB_TYPE_STANDARD ∧ Z.land (bRequestType r) USB_RECIP_MASK = recip.

(** A request of a class or a vendor, of which the core looks at the interface. *)
Definition non_standard (r : usb_ctrlrequest_t) : Prop :=
  Z.land (bRequestType r) USB_TYPE_MASK = USB_TYPE_CLASS ∨
  Z.land (bRequestType r) USB_TYPE_MASK = USB_TYPE_VENDOR.

(** The interface [i] that a request to an interface is for; the table is read
    before the index is compared with the number of interfaces. *)
Definition iface_of (d : vsfusbd_device_t) (r : usb_ctrlrequest_t) c i : Prop :=
  the_config d = Some c ∧ iface c !! Z.to_nat (u8 (wIndex r)) = Some i.

(** The requests whose outcome is decided by the code of a class: those of the
    class, and the descriptors of an interface. *)
Inductive left_to_class (d : vsfusbd_device_t) (r : usb_ctrlrequest_t) : Prop :=
  | left_request c i cp :
      non_standard r → the_config d = Some c → 0 ≤ request_iface d r < num_of_ifaces c →
      iface c !! Z.to_nat (request_iface d r) = Some i → class_protocol i = Some cp →
      request_prepare cp ≠ NULL → left_to_class d r
  | left_descriptor c i cp :
      standard r USB_RECIP_INTERFACE → iface_of d r c i → bRequest r = USB_REQ_GET_DESCRIPTOR →
      class_protocol i = Some cp → get_desc cp ≠ NULL → left_to_class d r.

(** The requests that the core itself refuses: a type, a recipient, an interface
    or a request that it does not know, arguments that the request does not
    allow, a descriptor that is not there. *)
Inductive refused {H} (hw : vsfhal_usbd H) (d : vsfusbd_device_t) (r : usb_ctrlrequest_t) : Prop :=
  | refused_reserved : Z.land (bRequestType r) USB_TYPE_MASK = 0x60 → refused hw d r
  | refused_recipient recip : standard r recip → 2 < recip → refused hw d r
  | refused_unknown :
      standard r USB_RECIP_DEVICE → bRequest r ∉ [0x00; 0x01; 0x03; 0x05; 0x06; 0x08; 0x09] → refused hw d r
  | refused_status :
      standard r USB_RECIP_DEVICE → bRequest r = USB_REQ_GET_STATUS ∨ bRequest r = USB_REQ_GET_CONFIGURATION →
      wValue r ≠ 0 ∨ wIndex r ≠ 0 → refused hw d r
  | refused_feature :
      standard r USB_RECIP_DEVICE → bRequest r = USB_REQ_SET_FEATURE ∨ bRequest r = USB_REQ_CLEAR_FEATURE →
      wIndex r ≠ 0 ∨ wValue r ≠ USB_DEVICE_REMOTE_WAKEUP → refused hw d r
  | refused_address :
      standard r USB_RECIP_DEVICE → bRequest r = USB_REQ_SET_ADDRESS →
      127 < wValue r ∨ wIndex r ≠ 0 ∨ configuration d ≠ 0 → refused hw d r
  | refused_descriptor b :
      standard r USB_RECIP_DEVICE → bRequest r = USB_REQ_GET_DESCRIPTOR →
      vsfusbd_device_get_descriptor (desc_filter d) (value_type (wValue r)) (value_index (wValue r))
        (wIndex r) = Some (VSFERR_FAIL, b) → refused hw d r
  | refused_configuration i :
      standard r USB_RECIP_DEVICE → bRequest r = USB_REQ_SET_CONFIGURATION →
      wIndex r ≠ 0 ∨ vsfusbd_get_config d (wValue r) = Some i ∧ i < 0 → refused hw d r
  | refused_iface c i :
      standard r USB_RECIP_INTERFACE → iface_of d r c i → num_of_ifaces c ≤ u8 (wIndex r) → refused hw d r
  | refused_iface_unknown c i :
      standard r USB_RECIP_INTERFACE → iface_of d r c i →
      bRequest r ∉ [0x00; 0x01; 0x03; 0x06; 0x0A; 0x0B] → refused hw d r
  | refused_iface_status c i :
      standard r USB_RECIP_INTERFACE → iface_of d r c i → bRequest r = USB_REQ_GET_STATUS →
      wValue r ≠ 0 ∨ num_of_ifaces c ≤ wIndex r → refused hw d r
  | refused_iface_setting c i :
      standard r USB_RECIP_INTERFACE → iface_of d r c i → bRequest r = USB_REQ_GET_INTERFACE →
      wValue r ≠ 0 → refused hw d r
  | refused_iface_descriptor c i :
      standard r USB_RECIP_INTERFACE → iface_of d r c i → bRequest r = USB_REQ_GET_DESCRIPTOR →
      (∀ cp, class_protocol i = Some cp → get_desc cp = NULL) → refused hw d r
  | refused_endpoint_in : standard r USB_RECIP_ENDPOINT → is_in r = true → refused hw d r
  | refused_endpoint_unknown :
      standard r USB_RECIP_ENDPOINT → bRequest r ∉ [0x00; 0x01] → refused hw d r
  | refused_endpoint_status :
      standard r USB_RECIP_ENDPOINT → bRequest r = USB_REQ_GET_STATUS →
      wValue r ≠ 0 ∨ ep_num hw ≤ wIndex r → refused hw d r
  | refused_endpoint_feature :
      standard r USB_RECIP_ENDPOINT → bRequest r = USB_REQ_CLEAR_FEATURE →
      wValue r ≠ USB_ENDPOINT_HALT ∨ ep_num hw ≤ Z.land (wIndex r) 0x7F → refused hw d r
  | refused_request c :
      non_standard r → the_config d = Some c →
      request_iface d r < 0 ∨ num_of_ifaces c ≤ request_iface d r → refused hw d r
  | refused_no_request c i cp :
      non_standard r → the_config d = Some c → 0 ≤ request_iface d r →
      iface c !! Z.to_nat (request_iface d r) = Some i → class_protocol i = Some cp →
      request_prepare cp = NULL → refused hw d r.

(** A call that has not failed. *)
Ltac no_err := change (negb (VSFERR_NONE =? 0)) with false; cbn match.

Section requests.
Context {X P H R : Type} {xop : vsf_stream_op_t X P} {hw : vsfhal_usbd H}.
Context `{Hhal : !UsbdHal hw} `{Hsrc : !Source xop}.
Notation world := (uworld X H R).
Implicit Types (w : world) (s : ustream X).
Context (cls : usbd_class world).

(** The control stream holds the reply [l]. *)
Definition prepared w (l : list Z) : Prop :=
  ∃ s mem, streams w !! CTRL_STREAM = Some s ∧ smem s = Buf mem ∧ bread mem = true ∧
    size (bbuf mem) = Z.of_nat (length l) ∧ size (bbuf mem) < 4294967296 ∧
    take (length l) (buffer (bbuf mem)) = l.

(** The rest of the world stays as it was. *)
Definition only_ctrl w w' : Prop :=
  (∃ c, dev w' = set_ctrl (dev w) c ∧ request c = request (ctrl_handler (dev w)) ∧
     c_stream c = c_stream (ctrl_handler (dev w))) ∧
  transacts w' = transacts w ∧ evts w' = evts w ∧ hal w' = hal w ∧ urest w' = urest w ∧
  ∃ s s', streams w !! CTRL_STREAM = Some s ∧ streams w' = <[CTRL_STREAM := s']> (streams w) ∧
    callback_tx s' = callback_tx s ∧ callback_rx s' = callback_rx s.

Lemma reply_ok w s mem bs n :
  streams w !! CTRL_STREAM = Some s → smem s = Buf mem → bread mem = true →
  length (reply_buffer (ctrl_handler (dev w))) = 2%nat → (length bs ≤ 2)%nat → (n ≤ 2)%nat →
  ∃ w', reply w bs (Z.of_nat n) = Some (VSFERR_NONE, w') ∧ only_ctrl w w' ∧
    prepared w' (take n (list_inserts 0 bs (reply_buffer (ctrl_handler (dev w))))).
Proof.
  intros Hs Hm Hr Hl Hb Hn. unfold reply. rewrite memcpy_in by (rewrite Hl; lia). bindr.
  unfold put_ctrl_buffer, put_ctrl_mem. cbn [streams set_dev]. rewrite Hs. bindr. rewrite Hm. bindr.
  set (rb := list_inserts 0 bs (reply_buffer (ctrl_handler (dev w)))).
  assert (Hlr : length rb = 2%nat) by (unfold rb; by rewrite length_inserts).
  eexists. split; [reflexivity|]. split.
  - split; [by eexists|]. split_and!; try done. by eexists s, _.
  - eexists _, _. cbn. rewrite lookup_insert_eq. split; [reflexivity|]. split; [reflexivity|].
    cbn. rewrite length_take, Hlr, Nat.min_l by lia. split_and!; try done. lia.
Qed.

Lemma std_reply_ctrl d c r l :
  reply_buffer c = reply_buffer (ctrl_handler d) → std_reply d r l → std_reply (set_ctrl d c) r l.
Proof.
  intros Hc [?|b|c0 x y H1 H2 H3 H4 H5 H6|c0 i|c0 i].
  - by apply (reply_status (set_ctrl d c)).
  - by apply (reply_descriptor (set_ctrl d c) r b).
  - apply (reply_configuration (set_ctrl d c) r c0 x y); try done. cbn. by rewrite Hc.
  - by apply (reply_iface_status (set_ctrl d c) r c0 i).
  - by apply (reply_interface (set_ctrl d c) r c0 i).
Qed.

(** The branch of the request leaves the reply in the control stream. *)
Lemma prepare_recip w r s mem l :
  std_reply (dev w) r l → streams w !! CTRL_STREAM = Some s → smem s = Buf mem → bread mem = true →
  length (reply_buffer (ctrl_handler (dev w))) = 2%nat →
  let recip := Z.land (bRequestType r) USB_RECIP_MASK in
  ∃ w', (if recip =? USB_RECIP_DEVICE then prepare_device r w
         else if recip =? USB_RECIP_INTERFACE then prepare_iface cls r w
         else if recip =? USB_RECIP_ENDPOINT then prepare_endpoint hw r w
         else fail w) = Some (VSFERR_NONE, w') ∧ only_ctrl w w' ∧ prepared w' l.
Proof.
  intros Hr Hs Hm Hrd Hl recip. unfold recip. clear recip.
  destruct (reply_buffer (ctrl_handler (dev w))) as [|x0 [|y0 [|]]] eqn:Hrb; try done. clear Hl.
  assert (Hreply : ∀ bs n l', (length bs ≤ 2)%nat → (n ≤ 2)%nat →
    take n (list_inserts 0 bs [x0; y0]) = l' →
    ∃ w', reply w bs (Z.of_nat n) = Some (VSFERR_NONE, w') ∧ only_ctrl w w' ∧ prepared w' l').
  { intros bs n l' Hb Hn <-. rewrite <- Hrb. eapply reply_ok; try done. by rewrite Hrb. }
  destruct Hr as [H1 H2 H3 H4|b H1 H2 H3 H4 H5|c x y H1 H2 H3 H4 H5 H6
                 |c i H1 H2 H3 H4 H5 H6 H7|c i H1 H2 H3 H4 H5 H6 H7]; rewrite H1; cbn [Z.land Z.eqb].
  - change (Z.land 0x80 USB_RECIP_MASK =? USB_RECIP_DEVICE) with true. cbn match.
    unfold prepare_device. rewrite H2, H3, H4. apply (Hreply _ 2%nat); (simpl; lia) || done.
  - change (Z.land 0x80 USB_RECIP_MASK =? USB_RECIP_DEVICE) with true. cbn match.
    unfold prepare_device. rewrite H2. cbn match. rewrite H3. bindr. cbn [negb Z.eqb].
    unfold put_ctrl_buffer, put_ctrl_mem. rewrite Hs. bindr. rewrite Hm. bindr.
    eexists. split; [reflexivity|]. split.
    + split; [exists (ctrl_handler (dev w)); cbn; by destruct (dev w)|]. split_and!; try done. by eexists s, _.
    + eexists _, _. cbn. rewrite lookup_insert_eq. split; [reflexivity|]. split; [reflexivity|].
      cbn. rewrite length_take, Nat.min_l by lia. split_and!; try done; try lia.
  - change (Z.land 0x80 USB_RECIP_MASK =? USB_RECIP_DEVICE) with true. cbn match.
    unfold prepare_device. rewrite H2, H3, H4. cbn [negb Z.eqb orb]. cbn match. rewrite H5. bindr.
    rewrite Hrb in H6. injection H6 as -> ->. apply (Hreply _ 2%nat); (simpl; lia) || done.
  - change (Z.land 0x81 USB_RECIP_MASK =? USB_RECIP_DEVICE) with false.
    change (Z.land 0x81 USB_RECIP_MASK =? USB_RECIP_INTERFACE) with true. cbn match.
    unfold prepare_iface. rewrite H5. bindr. rewrite u8_small, H7 by lia. bindr.
    rewrite (proj2 (Z.leb_gt _ _)), H2, H3 by lia.
    apply (Hreply _ 2%nat); (simpl; lia) || done.
  - change (Z.land 0x81 USB_RECIP_MASK =? USB_RECIP_DEVICE) with false.
    change (Z.land 0x81 USB_RECIP_MASK =? USB_RECIP_INTERFACE) with true. cbn match.
    unfold prepare_iface. rewrite H5. bindr. rewrite u8_small, H7 by lia. bindr.
    rewrite (proj2 (Z.leb_gt _ _)), H2, H3 by lia. apply (Hreply _ 1%nat); (simpl; lia) || done.
Qed.

Lemma std_reply_in d r l : std_reply d r l →
  is_in r = true ∧ Z.land (bRequestType r) USB_TYPE_MASK = USB_TYPE_STANDARD.
Proof. unfold is_in. by intros [H1|? H1|? ? ? H1|? ? H1|? ? H1]; rewrite H1. Qed.

(** The request as prepared: the control stream is a source of the reply. *)
Record read_ready w w' (r : usb_ctrlrequest_t) (l : list Z) : Prop := {
  rr_stream : ∃ s, streams w' !! CTRL_STREAM = Some s ∧ tx_ready s = false ∧
    foreign (on_connect (callback_tx s)) ∧ src (op := usb_op xop) (smem s) l;
  rr_ctrl : c_data_size (ctrl_handler (dev w')) = Z.of_nat (length l) ∧
    c_stream (ctrl_handler (dev w')) = CTRL_STREAM ∧ request (ctrl_handler (dev w')) = r;
  rr_tmp : tmpbuf (dev w') = tmpbuf (dev w);
  rr_same : transacts w' = transacts w ∧ evts w' = evts w ∧ hal w' = hal w ∧ urest w' = urest w }.

Lemma ctrl_prepare_ok w r s mem l :
  request (ctrl_handler (dev w)) = r → std_reply (dev w) r l → l ≠ [] →
  streams w !! CTRL_STREAM = Some s → smem s = Buf mem → foreign (on_connect (callback_tx s)) →
  length (reply_buffer (ctrl_handler (dev w))) = 2%nat →
  ∃ w', vsfusbd_ctrl_prepare xop hw cls w = Some (VSFERR_NONE, w') ∧ read_ready w w' r l.
Proof.
  intros Hreq Hr Hl Hs Hm Hf Hrb. destruct (std_reply_in _ _ _ Hr) as [Hin Htype].
  unfold vsfusbd_ctrl_prepare. rewrite Hreq, Hin, Htype, Z.eqb_refl.
  unfold put_ctrl_mem. cbn [streams set_dev]. rewrite Hs. bindr. rewrite Hm. bindr.
  set (w1 := put_stream _ _ _).
  assert (Hs1 : streams w1 !! CTRL_STREAM = Some (set_smem s (Buf {| bbuf :=
    {| buffer := reply_buffer (ctrl_handler (dev w)); size := 0 |}; bread := true; pos := pos mem |}))).
  { unfold w1. cbn. by rewrite lookup_insert_eq. }
  assert (Hr1 : std_reply (dev w1) r l) by by apply std_reply_ctrl.
  destruct (prepare_recip w1 r _ _ l Hr1 Hs1 eq_refl eq_refl Hrb)
    as (w2 & Hp & ((c & Hd & Hc1 & Hc2) & Ht & He & Hh & Hu & s1 & s2 & Hs1' & Hs2 & Hcb & _) & Hprep).
  rewrite Hs1 in Hs1'. injection Hs1' as <-.
  unfold vsfusbd_stdctrl_prepare. change (request (ctrl_handler (dev w1))) with (request (ctrl_handler (dev w))).
  rewrite Hreq. cbv zeta in Hp. rewrite Hp. bindr. no_err.
  destruct Hprep as (s3 & mem3 & Hs3 & Hm3 & Hrd & Hsz & Hlt & Hbytes).
  unfold ctrl_buffer. rewrite Hs3. bindr. rewrite Hm3. bindr. unfold done. bindr. no_err.
  unfold set_data_size. cbn [c_data_size ctrl_handler dev set_dev set_ctrl set_c_size].
  assert (Hlen : length l ≠ 0%nat) by (by destruct l).
  rewrite Hsz, (proj2 (Z.eqb_neq _ _)) by lia.
  unfold usb_stream_init. rewrite Hd.
  cbn [c_stream streams set_dev ctrl_handler dev set_ctrl set_c_size].
  rewrite Hc2. cbn [c_stream ctrl_handler dev w1 put_stream set_streams set_dev set_ctrl set_c_stream].
  rewrite Hs3. bindr. unfold stream_init. rewrite Hs2, lookup_insert_eq in Hs3. injection Hs3 as ->.
  eexists. split; [reflexivity|]. split.
  - eexists. cbn. rewrite lookup_insert_eq. split; [reflexivity|]. split; [done|].
    split; [cbn; by rewrite Hcb|]. cbn. rewrite Hm3. cbn. unfold source, buffer_stream_init. cbn.
    split; [done|]. rewrite Hsz, Nat2Z.id.
    assert (Hlb : (length l ≤ length (buffer (bbuf mem3)))%nat)
      by (rewrite <- Hbytes, length_take; lia).
    split_and!; try lia. by rewrite drop_0.
  - cbn. rewrite Hc2, Hc1. by split_and!.
  - cbn. done.
  - cbn. rewrite Ht, He, Hh, Hu. done.
Qed.

(** *** The stages *)

Notation ctrl_sending := (sending (xop := xop) (hw := hw) 0 CTRL_IN CTRL_STREAM NULL DEVICE).

Lemma status_ok n m zl base l ps z idle armed w t :
  ctrl_sending n m zl base l ps z idle armed w → is_in (request (ctrl_handler (dev w))) = true →
  transacts w !! CTRL_OUT = Some t → t_ep t = 0 →
  ∃ w', vsfusbd_setup_status_callback xop hw cls w = Some w' ∧
    ctrl_sending n m zl base l ps z idle armed w' ∧ out_enabled (view (hal w') 0) = true ∧
    evts w' = evts w ∧ urest w' = urest w.
Proof.
  intros [Ht Hb Hst Hby Hsh Hv Htmp Hid] Hin Hto Hep.
  unfold vsfusbd_setup_status_callback. rewrite Hin. cbn [negb]. rewrite Hto. bindr.
  unfold vsfusbd_ep_recv. cbn [transacts put_transact set_transacts]. rewrite lookup_insert_eq. bindr.
  cbn [t_ep t_data_size set_t_cb set_t_zlp set_t_size set_t_stream]. rewrite Hep.
  change (VSFUSBD_CFG_EPMAXNO <? 0) with false. change (negb (0 =? 0)) with false. cbn match.
  unfold do_hal, run_hal. cbn [hal bind_OUT put_transact set_transacts set_dev].
  destruct (ep_enable_OUT hw 0 (hal w)) as [e h] eqn:Hh. cbn [snd].
  pose proof (hal_enable 0 (hal w)) as Hv'. rewrite Hh in Hv'. cbn [snd] in Hv'.
  eexists. split; [reflexivity|]. split; [|split; [cbn; by rewrite Hv'|done]].
  split; try done.
  - cbn. rewrite !lookup_insert_ne by done. exact Ht.
  - cbn. rewrite Hv', decide_True by done. exact Hv.
Qed.

(** What endpoint 0 needs when a SETUP packet arrives. *)
Record setup_ready w (r : usb_ctrlrequest_t) (m : nat) : Prop := {
  su_packet : ∃ b, hal_get_setup hw (hal w) = (VSFERR_NONE, b) ∧ parse_request b = Some r;
  su_stream : ∃ s mem, streams w !! CTRL_STREAM = Some s ∧ smem s = Buf mem ∧
    foreign (on_connect (callback_tx s));
  su_transacts : (∃ t, transacts w !! CTRL_IN = Some t ∧ t_ep t = 0) ∧
    ∃ t, transacts w !! CTRL_OUT = Some t ∧ t_ep t = 0;
  su_reply : length (reply_buffer (ctrl_handler (dev w))) = 2%nat;
  su_size : (0 < m ≤ VSFUSBD_TMPBUF)%nat ∧ in_size (view (hal w) 0) = Z.of_nat m;
  su_idle : in_armed (view (hal w) 0) = false;
  su_tmp : length (tmpbuf (dev w)) = VSFUSBD_TMPBUF }.

(** The rest of the program only changes itself. *)
Context (keep : R → R → Prop) `{!PreOrder keep} (Hquiet : quiet cls keep).

(** From the reply to the first packet and the status stage. *)
Lemma setup_data_ok w w1 r m l :
  setup_ready w r m → read_ready w w1 r l → is_in r = true → l ≠ [] → 0 < wLength r < 65536 →
  Z.of_nat (length l) < 4294967296 →
  let n := Nat.min (length l) (Z.to_nat (wLength r)) in
  let zl := Z.of_nat n <? wLength r in
  ∃ ps z armed w', setup_data xop hw cls r w1 = Some (VSFERR_NONE, w') ∧
    ctrl_sending n m zl (in_sent (view (hal w) 0)) l ps z (negb armed) armed w' ∧
    (armed = false → length l < n)%nat ∧
    out_enabled (view (hal w') 0) = true ∧ evts w' = evts w ∧ keep (urest w) (urest w').
Proof.
  intros [_ _ [(ti & Hti & Hiep) (to & Hto & Hoep)] _ [Hm Hsz] Ha Htmp]
    [(s & Hs & Htx & Hf & Hl) (Hcs & Hcst & Hreq) Htmp1 (Htr & Hev & Hh & Hu)] Hin Hne Hw Hlen n zl.
  unfold setup_data. rewrite Hin. cbn [negb].
  set (w2 := if wLength r <? _ then _ else w1).
  assert (Hw2 : c_data_size (ctrl_handler (dev w2)) = Z.of_nat n ∧ c_stream (ctrl_handler (dev w2)) = CTRL_STREAM ∧
    request (ctrl_handler (dev w2)) = r ∧ tmpbuf (dev w2) = tmpbuf (dev w) ∧ transacts w2 = transacts w ∧
    evts w2 = evts w ∧ hal w2 = hal w ∧ urest w2 = urest w ∧ streams w2 = streams w1).
  { unfold w2. rewrite Hcs. destruct (Z.ltb_spec (wLength r) (Z.of_nat (length l))); cbn.
    - split; [unfold n; lia|]. by split_and!.
    - split; [rewrite Hcs; unfold n; lia|]. by split_and!. }
  destruct Hw2 as (Hn2 & Hst2 & Hreq2 & Htmp2 & Htr2 & Hev2 & Hh2 & Hu2 & Hss2). clearbody w2.
  rewrite Htr2, Hti. bindr. rewrite Hn2, Hst2.
  match goal with |- context [vsfusbd_ep_send _ _ _ _ ?x] => set (w3 := x) end.
  destruct (ep_send_ok cls keep Hquiet 0 CTRL_IN CTRL_STREAM NULL DEVICE n m zl
    (in_sent (view (hal w) 0))) with (total := l) (w := w3)
    as (ps & z & armed & w4 & Hsend & Hfr & Hsd & Hwait).
  - split; [unfold VSFUSBD_CFG_EPMAXNO; lia|done|done|done|unfold n; lia].
  - split.
    + exists (t_idle ti). cbn. rewrite lookup_insert_eq. unfold xfer, set_t_zlp, set_t_cb, set_t_stream, set_t_size.
      cbn. by rewrite Hiep.
    + exists s. cbn. rewrite Hss2. split; [done|]. split; [split; [by rewrite Htx|done]|].
      split; [right; unfold n; lia|done].
    + cbn. rewrite Hh2. done.
    + cbn. by rewrite Htmp2.
  - assert (length l ≠ 0%nat) by (by destruct l). unfold n. lia.
  - rewrite Hsend. bindr. no_err.
    assert (Hfr_tr : transacts w4 !! CTRL_OUT = Some to).
    { rewrite <- (lookup_delete_ne (transacts w4) CTRL_IN) by done.
      rewrite (if_transacts _ _ _ _ _ _ Hfr). cbn. rewrite delete_insert_eq, lookup_delete_ne by done.
      by rewrite Htr2. }
    assert (Hreq4 : request (ctrl_handler (dev w4)) = r).
    { pose proof (if_dev _ _ _ _ _ _ Hfr) as Hd. apply (f_equal ctrl_handler) in Hd. cbn in Hd. by rewrite Hd. }
    destruct (status_ok n m zl _ l ps z (negb armed) armed w4 to Hsd) as (w5 & Hs5 & Hsd5 & Hen & Hev5 & Hu5);
      [by rewrite Hreq4|done|done|].
    rewrite Hs5. bindr. exists ps, z, armed, w5. split; [done|]. split; [done|]. split; [done|].
    split; [done|]. rewrite Hev5, (if_evts _ _ _ _ _ _ Hfr), Hu5. split; [done|].
    pose proof (if_rest _ _ _ _ _ _ Hfr) as Hk. cbn in Hk. by rewrite Hu2 in Hk.
Qed.

Lemma evt_setup_ok w r m l :
  setup_ready w r m → std_reply (dev w) r l → l ≠ [] → 0 < wLength r < 65536 →
  Z.of_nat (length l) < 4294967296 →
  let n := Nat.min (length l) (Z.to_nat (wLength r)) in
  let zl := Z.of_nat n <? wLength r in
  ∃ ps z armed w', vsfusbd_evt_handler xop hw cls VSFUSBD_INTEVT_SETUP w = Some w' ∧
    ctrl_sending n m zl (in_sent (view (hal w) 0)) l ps z (negb armed) armed w' ∧
    (armed = false → length l < n)%nat ∧
    out_enabled (view (hal w') 0) = true ∧ evts w' = evts w ∧ keep (urest w) (urest w').
Proof.
  intros Hsu Hr Hne Hw Hlen n zl. destruct (std_reply_in _ _ _ Hr) as [Hin _].
  pose proof Hsu as [(b & Hget & Hparse) (s & mem & Hs & Hm & Hf) Htr Hrb Hsz Ha Htmp].
  change (vsfusbd_evt_handler xop hw cls VSFUSBD_INTEVT_SETUP w) with (evt_setup xop hw cls w).
  unfold evt_setup. rewrite Hget, Hparse. bindr. no_err.
  set (w1 := set_dev w _).
  assert (Hr1 : std_reply (dev w1) r l) by by apply std_reply_ctrl.
  destruct (ctrl_prepare_ok w1 r s mem l eq_refl Hr1 Hne Hs Hm Hf Hrb) as (w2 & Hp & Hrr).
  rewrite Hp. bindr. no_err.
  destruct (usr_cb_ok cls keep Hquiet USREVT_SETUP REQUEST_PTR w2) as (u & Hu & Hk). rewrite Hu. bindr.
  destruct Hrr as [Hst (Hc1 & Hc2 & Hc3) Ht (Htr2 & He2 & Hh2 & Hu2)].
  assert (Hrr' : read_ready (set_urest w u) (set_urest w2 u) r l).
  { by split. }
  change (request (ctrl_handler (dev (set_urest w2 u)))) with (request (ctrl_handler (dev w2))). rewrite Hc3.
  destruct (setup_data_ok (set_urest w u) (set_urest w2 u) r m l) as (ps & z & armed & w3 & Hd & Hsd & Hrest);
    try done.
  { by destruct Hsu. }
  rewrite Hd. bindr. no_err. exists ps, z, armed, w3. split; [done|]. split; [exact Hsd|].
  destruct Hrest as (H1 & H2 & H3 & H4). split_and!; try done. etrans; [|exact H4].
  cbn. cbn in Hk. by rewrite Hu2 in Hk.
Qed.

(** *** Refusals *)

Lemma land_recip_range x : 0 ≤ Z.land x USB_RECIP_MASK < 32.
Proof.
  change USB_RECIP_MASK with (Z.ones 5). rewrite Z.land_ones by lia. by apply Z.mod_pos_bound.
Qed.

Lemma get_config_ctrl d c v : vsfusbd_get_config (set_ctrl d c) v = vsfusbd_get_config d v.
Proof.
  unfold vsfusbd_get_config. cbn [num_of_configuration set_ctrl]. generalize 0.
  induction (Z.to_nat (num_of_configuration d)) as [|n IH]; intros i; [done|]. cbn [get_config_loop].
  cbn [config set_ctrl]. destruct (config d !! Z.to_nat i); [|done]. bindr. case_match; [done|apply IH].
Qed.

(** What the control transfer holds says nothing of a request. *)
Lemma refused_ctrl d c r : refused hw d r → refused hw (set_ctrl d c) r.
Proof.
  destruct 1; [econstructor 1|econstructor 2|econstructor 3|econstructor 4|econstructor 5|econstructor 6
    |econstructor 7|econstructor 8; [| |rewrite get_config_ctrl]|econstructor 9|econstructor 10|econstructor 11
    |econstructor 12|econstructor 13|econstructor 14|econstructor 15|econstructor 16|econstructor 17
    |econstructor 18|econstructor 19]; eassumption.
Qed.

(** The preparation of a request by its recipient. *)
Definition by_recipient (r : usb_ctrlrequest_t) w : option (Z * world) :=
  let recip := Z.land (bRequestType r) USB_RECIP_MASK in
  if recip =? USB_RECIP_DEVICE then prepare_device r w
  else if recip =? USB_RECIP_INTERFACE then prepare_iface cls r w
  else if recip =? USB_RECIP_ENDPOINT then prepare_endpoint hw r w
  else fail w.

Lemma by_device r w : standard r USB_RECIP_DEVICE → by_recipient r w = prepare_device r w.
Proof. intros [_ H0]. unfold by_recipient. by rewrite H0. Qed.
Lemma by_iface r w : standard r USB_RECIP_INTERFACE → by_recipient r w = prepare_iface cls r w.
Proof. intros [_ H0]. unfold by_recipient. by rewrite H0. Qed.
Lemma by_endpoint r w : standard r USB_RECIP_ENDPOINT → by_recipient r w = prepare_endpoint hw r w.
Proof. intros [_ H0]. unfold by_recipient. by rewrite H0. Qed.
Lemma by_none r w recip : standard r recip → 2 < recip → by_recipient r w = fail w.
Proof.
  intros [_ H0] Hr. unfold by_recipient. rewrite H0.
  unfold USB_RECIP_DEVICE, USB_RECIP_INTERFACE, USB_RECIP_ENDPOINT. by rewrite !(proj2 (Z.eqb_neq _ _)) by lia.
Qed.

(** A request that is none of those of a [switch]. *)
Ltac unlisted :=
  match goal with H : bRequest ?r ∉ _ |- _ => rewrite !not_elem_of_cons in H; destruct_and! H; destruct (bRequest r) end;
  repeat case_match; done || congruence.

(** The case of a request that is known. *)
Ltac listed H :=
  rewrite H; unfold USB_REQ_GET_STATUS, USB_REQ_CLEAR_FEATURE, USB_REQ_SET_FEATURE, USB_REQ_SET_ADDRESS,
    USB_REQ_GET_DESCRIPTOR, USB_REQ_GET_CONFIGURATION, USB_REQ_SET_CONFIGURATION, USB_REQ_GET_INTERFACE,
    USB_REQ_SET_INTERFACE; cbn match.

(** A test that makes the request fail. *)
Ltac test_fails :=
  match goal with |- (if ?b then _ else _) = _ =>
    let Hb := fresh in assert (Hb : b = true);
      [rewrite ?orb_true_iff, ?negb_true_iff, ?Z.eqb_neq, ?Z.ltb_lt, ?Z.leb_le; tauto|by rewrite Hb] end.

Lemma std_refused w r :
  refused hw (dev w) r → Z.land (bRequestType r) USB_TYPE_MASK = USB_TYPE_STANDARD →
  by_recipient r w = Some (VSFERR_FAIL, w).
Proof.
  intros Hr Hstd. destruct Hr.
  all: try match goal with H : _ = 0x60 |- _ => rewrite Hstd in H; discriminate H end.
  all: try match goal with H : non_standard _ |- _ => unfold non_standard in H; rewrite Hstd in H; by destruct H end.
  all: try (eapply by_none; eassumption).
  all: first [rewrite by_device by done; unfold prepare_device | rewrite by_iface by done; unfold prepare_iface
    | rewrite by_endpoint by done; unfold prepare_endpoint].
  all: try match goal with H : iface_of _ _ _ _ |- _ => destruct H as [-> Hi]; bindr; rewrite Hi; bindr end.
  all: try match goal with H : bRequest _ = _ ∨ bRequest _ = _ |- _ => destruct H as [H|H]; listed H end.
  all: try match goal with H : bRequest _ = _ |- _ => listed H end.
  all: try test_fails; try unlisted.
  all: try (case_match; [done|]; test_fails).
  - match goal with H : vsfusbd_device_get_descriptor _ _ _ _ = _ |- _ => rewrite H end. by bindr.
  - destruct (Z.eqb_spec (wIndex r) 0) as [Hz|]; [|done]. cbn [negb].
    match goal with H : wIndex r ≠ 0 ∨ _ |- _ => destruct H as [|[-> Hi]]; [done|] end. bindr.
    by rewrite (proj2 (Z.ltb_lt _ _) Hi).
  - case_match; [done|]. unfold class_desc. destruct (class_protocol i) as [cp|] eqn:Hcp; [|done].
    match goal with H : ∀ cp, _ → get_desc cp = NULL |- _ => by rewrite (H cp) end.
Qed.

Lemma class_refused w r :
  refused hw (dev w) r → non_standard r →
  call_class cls request_prepare VSFERR_FAIL r w = Some (VSFERR_FAIL, w).
Proof.
  intros Hr Hns. unfold call_class. destruct Hr; unfold standard in *; unfold non_standard in Hns.
  all: try match goal with H : _ = 0x60 |- _ => rewrite H in Hns; by destruct Hns end.
  all: try match goal with H : _ = USB_TYPE_STANDARD ∧ _ |- _ => rewrite (proj1 H) in Hns; by destruct Hns end.
  all: match goal with H : the_config _ = Some _ |- _ => rewrite H end; bindr.
  - match goal with |- (if ?b then _ else _) = _ => replace b with false; [done|] end.
    destruct (Z.leb_spec 0 (request_iface (dev w) r)), (Z.ltb_spec (request_iface (dev w) r) (num_of_ifaces c)); lia || done.
  - case_match; [|done]. match goal with H : iface _ !! _ = _ |- _ => rewrite H end. bindr.
    match goal with H : class_protocol _ = _ |- _ => rewrite H end. bindr.
    match goal with H : request_prepare _ = _ |- _ => by rewrite H end.
Qed.

(** No branch accepts a refused request. *)
Lemma refused_fails w r :
  refused hw (dev w) r → request (ctrl_handler (dev w)) = r →
  (∃ s mem, streams w !! CTRL_STREAM = Some s ∧ smem s = Buf mem) →
  ∃ w', vsfusbd_ctrl_prepare xop hw cls w = Some (VSFERR_FAIL, w') ∧ evts w' = evts w ∧
    hal w' = hal w ∧ urest w' = urest w ∧ transacts w' = transacts w.
Proof.
  intros Hr Hreq (s & mem & Hs & Hm). unfold vsfusbd_ctrl_prepare. rewrite Hreq.
  unfold put_ctrl_mem. cbn [streams set_dev]. rewrite Hs. bindr. rewrite Hm. bindr.
  set (w1 := put_stream _ _ _). exists w1. split; [|by split_and!].
  assert (Hr1 : refused hw (dev w1) r) by by apply refused_ctrl.
  assert (Hstd : Z.land (bRequestType r) USB_TYPE_MASK = USB_TYPE_STANDARD →
    vsfusbd_stdctrl_prepare hw cls w1 = Some (VSFERR_FAIL, w1)).
  { intros H0. unfold vsfusbd_stdctrl_prepare.
    change (request (ctrl_handler (dev w1))) with (request (ctrl_handler (dev w))). rewrite Hreq.
    fold (by_recipient r w1). by rewrite (std_refused _ _ Hr1 H0). }
  destruct (Z.eqb_spec (Z.land (bRequestType r) USB_TYPE_MASK) USB_TYPE_STANDARD) as [H0|_]; [by rewrite Hstd|].
  destruct (Z.eqb_spec (Z.land (bRequestType r) USB_TYPE_MASK) USB_TYPE_CLASS) as [H0|_];
    [|destruct (Z.eqb_spec (Z.land (bRequestType r) USB_TYPE_MASK) USB_TYPE_VENDOR) as [H0|_]; [|done]];
    rewrite (class_refused _ _ Hr1); done || by (left + right).
Qed.

(** ** All other requests are accepted, or left to the class *)

Lemma get_descriptor_error f ty ix la err b :
  vsfusbd_device_get_descriptor f ty ix la = Some (err, b) → err = VSFERR_NONE ∨ err = VSFERR_FAIL.
Proof.
  induction f as [|d f IH]; [done|]. cbn [vsfusbd_device_get_descriptor]. destruct (df_buffer d) as [b0|].
  - destruct (_ =? 0); [intros [= <- _]; by right|]. destruct (_ && _); [intros [= <- _]; by left|done].
  - intros [= <- _]. by right.
Qed.

Lemma reply_no_error w bs n err w' : reply w bs n = Some (err, w') → err = VSFERR_NONE.
Proof.
  unfold reply. destruct (memcpy _ _ _); [|done]. bindr. destruct (put_ctrl_buffer _ _); [|done]. bindr.
  by intros [= <- _].
Qed.

Lemma device_fails r w err w' :
  standard r USB_RECIP_DEVICE → prepare_device r w = Some (err, w') → err ≠ VSFERR_NONE →
  refused hw (dev w) r.
Proof.
  intros Hs Hp Herr. unfold prepare_device in Hp.
  destruct (decide (bRequest r ∈ [0x00; 0x01; 0x03; 0x05; 0x06; 0x08; 0x09])) as [Hin|?]; [|by constructor 3].
  rewrite !elem_of_cons, elem_of_nil in Hin. destruct Hin as [H0|[H0|[H0|[H0|[H0|[H0|[H0|[]]]]]]]]; rewrite H0 in Hp.
  - apply refused_status; [done|by left|]. destruct (Z.eqb_spec (wValue r) 0), (Z.eqb_spec (wIndex r) 0); try tauto.
    by apply reply_no_error in Hp.
  - apply refused_feature; [done|by right|].
    destruct (Z.eqb_spec (wIndex r) 0), (Z.eqb_spec (wValue r) USB_DEVICE_REMOTE_WAKEUP); try tauto. by injection Hp as <- <-.
  - apply refused_feature; [done|by left|].
    destruct (Z.eqb_spec (wIndex r) 0), (Z.eqb_spec (wValue r) USB_DEVICE_REMOTE_WAKEUP); try tauto. by injection Hp as <- <-.
  - apply refused_address; [done|done|].
    destruct (Z.ltb_spec 127 (wValue r)), (Z.eqb_spec (wIndex r) 0), (Z.eqb_spec (configuration (dev w)) 0); try tauto.
    by injection Hp as <- <-.
  - destruct (vsfusbd_device_get_descriptor _ _ _ _) as [[e b]|] eqn:Hd; [|done]. cbn [mbind option_bind] in Hp.
    destruct (get_descriptor_error _ _ _ _ _ _ Hd) as [->| ->].
    + cbn [mbind option_bind VSFERR_NONE Z.eqb negb] in Hp. destruct b as [b|]; [|done]. cbn [mbind option_bind] in Hp.
      destruct (put_ctrl_buffer w b); [|done]. by injection Hp as <- <-.
    + by eapply refused_descriptor.
  - apply refused_status; [done|by right|]. destruct (Z.eqb_spec (wValue r) 0), (Z.eqb_spec (wIndex r) 0); try tauto.
    cbn [negb orb] in Hp. destruct (the_config (dev w)); [|done]. cbn [mbind option_bind] in Hp. by apply reply_no_error in Hp.
  - destruct (Z.eqb_spec (wIndex r) 0) as [Hz|Hz]; [|by apply (refused_configuration _ _ _ 0); [..|left]].
    cbn [negb] in Hp. destruct (vsfusbd_get_config _ _) as [i|] eqn:Hc; [|done]. cbn [mbind option_bind] in Hp.
    destruct (Z.ltb_spec i 0); [by eapply (refused_configuration _ _ _ i); [..|right]|by injection Hp as <- <-].
Qed.

Lemma iface_fails r w err w' :
  standard r USB_RECIP_INTERFACE → prepare_iface cls r w = Some (err, w') → err ≠ VSFERR_NONE →
  refused hw (dev w) r ∨ left_to_class (dev w) r.
Proof.
  intros Hs Hp Herr. unfold prepare_iface in Hp. destruct (the_config (dev w)) as [c|] eqn:Hc; [|done].
  cbn [mbind option_bind] in Hp. destruct (iface c !! _) as [i|] eqn:Hi; [|done]. cbn [mbind option_bind] in Hp.
  assert (Hif : iface_of (dev w) r c i) by done.
  destruct (Z.leb_spec (num_of_ifaces c) (u8 (wIndex r))) as [Hle|_]; [left; by eapply refused_iface|].
  destruct (decide (bRequest r ∈ [0x00; 0x01; 0x03; 0x06; 0x0A; 0x0B])) as [Hin|?];
    [|left; by eapply refused_iface_unknown].
  rewrite !elem_of_cons, elem_of_nil in Hin. destruct Hin as [H0|[H0|[H0|[H0|[H0|[H0|[]]]]]]]; rewrite H0 in Hp.
  - left. apply (refused_iface_status _ _ _ c i); [done..|].
    destruct (Z.eqb_spec (wValue r) 0), (Z.leb_spec (num_of_ifaces c) (wIndex r)); try tauto.
    by apply reply_no_error in Hp.
  - by injection Hp as <- <-.
  - by injection Hp as <- <-.
  - destruct (class_protocol i) as [cp|] eqn:Hcp.
    + destruct (Z.eq_dec (get_desc cp) NULL); [left|right; by eapply left_descriptor].
      apply (refused_iface_descriptor _ _ _ c i); [done..|]. intros cp'. rewrite Hcp. by intros [= <-].
    + left. apply (refused_iface_descriptor _ _ _ c i); [done..|]. intros cp'. by rewrite Hcp.
  - left. apply (refused_iface_setting _ _ _ c i); [done..|]. intros Hz. rewrite Hz in Hp.
    by apply reply_no_error in Hp.
  - destruct (class_request _ _ _ _); [|done]. by injection Hp as <- <-.
Qed.

Lemma endpoint_fails r w err w' :
  standard r USB_RECIP_ENDPOINT → prepare_endpoint hw r w = Some (err, w') → err ≠ VSFERR_NONE →
  refused hw (dev w) r.
Proof.
  intros Hs Hp Herr. unfold prepare_endpoint in Hp.
  destruct (Z.land (bRequestType r) USB_DIR_MASK =? USB_DIR_IN) eqn:Hin; [by apply refused_endpoint_in|].
  destruct (decide (bRequest r ∈ [0x00; 0x01])) as [Hb|?]; [|by apply refused_endpoint_unknown].
  rewrite !elem_of_cons, elem_of_nil in Hb. destruct Hb as [H0|[H0|[]]]; rewrite H0 in Hp.
  - apply refused_endpoint_status; [done..|].
    destruct (Z.eqb_spec (wValue r) 0), (Z.leb_spec (ep_num hw) (wIndex r)); try tauto.
    by apply reply_no_error in Hp.
  - apply refused_endpoint_feature; [done..|].
    destruct (Z.eqb_spec (wValue r) USB_ENDPOINT_HALT), (Z.leb_spec (ep_num hw) (Z.land (wIndex r) 0x7F)); try tauto.
    destruct (negb (_ =? 0)) in Hp; by injection Hp as <- <-.
Qed.

Lemma by_recipient_fails r w err w' :
  Z.land (bRequestType r) USB_TYPE_MASK = USB_TYPE_STANDARD → by_recipient r w = Some (err, w') →
  err ≠ VSFERR_NONE → refused hw (dev w) r ∨ left_to_class (dev w) r.
Proof.
  intros Ht Hp Herr. unfold by_recipient in Hp. pose proof (land_recip_range (bRequestType r)) as Hr.
  destruct (Z.eqb_spec (Z.land (bRequestType r) USB_RECIP_MASK) USB_RECIP_DEVICE) as [Hd|Hd];
    [left; by eapply device_fails|].
  destruct (Z.eqb_spec (Z.land (bRequestType r) USB_RECIP_MASK) USB_RECIP_INTERFACE) as [Hi|Hi];
    [by eapply iface_fails|].
  destruct (Z.eqb_spec (Z.land (bRequestType r) USB_RECIP_MASK) USB_RECIP_ENDPOINT) as [He|He];
    [left; by eapply endpoint_fails|].
  left. apply (refused_recipient _ _ _ (Z.land (bRequestType r) USB_RECIP_MASK)); [done|].
  unfold USB_RECIP_DEVICE, USB_RECIP_INTERFACE, USB_RECIP_ENDPOINT in *. lia.
Qed.

Lemma class_fails r w err w' :
  non_standard r → call_class cls request_prepare VSFERR_FAIL r w = Some (err, w') → err ≠ VSFERR_NONE →
  refused hw (dev w) r ∨ left_to_class (dev w) r.
Proof.
  intros Hn Hp Herr. unfold call_class in Hp. destruct (the_config (dev w)) as [c|] eqn:Hc; [|done].
  cbn [mbind option_bind] in Hp. destruct (Z.leb_spec 0 (request_iface (dev w) r)) as [H0|H0].
  2:{ left. apply (refused_request _ _ _ c); [done..|]. by left. }
  destruct (Z.ltb_spec (request_iface (dev w) r) (num_of_ifaces c)) as [H1|H1].
  2:{ left. apply (refused_request _ _ _ c); [done..|]. by right. }
  cbn [andb] in Hp. destruct (iface c !! _) as [i|] eqn:Hi; [|done]. cbn [mbind option_bind] in Hp.
  destruct (class_protocol i) as [cp|] eqn:Hcp; [|done].
  destruct (Z.eq_dec (request_prepare cp) NULL); [left; by eapply refused_no_request|right; by eapply left_request].
Qed.

(** The two bits of the type. *)
Lemma type_cases x :
  Z.land x USB_TYPE_MASK = USB_TYPE_STANDARD ∨ Z.land x USB_TYPE_MASK = USB_TYPE_CLASS ∨
  Z.land x USB_TYPE_MASK = USB_TYPE_VENDOR ∨ Z.land x USB_TYPE_MASK = 0x60.
Proof.
  assert (Hx : Z.land x USB_TYPE_MASK = Z.land (x mod 128) USB_TYPE_MASK).
  { change 128 with (2 ^ 7). rewrite <- Z.land_ones, <- Z.land_assoc by lia. done. }
  rewrite Hx. pose proof (all_below_spec 128 (λ y, existsb (Z.eqb (Z.land y USB_TYPE_MASK)) [0; 0x20; 0x40; 0x60])
    (x mod 128) ltac:(by vm_compute) ltac:(by apply Z.mod_pos_bound)) as H0.
  cbn [existsb] in H0. rewrite !orb_true_iff, !Z.eqb_eq in H0.
  unfold USB_TYPE_STANDARD, USB_TYPE_CLASS, USB_TYPE_VENDOR. destruct_or? H0; done || tauto.
Qed.

(** The preparation of a request fails only when it is refused, or by the code of
    a class. *)
Lemma prepare_fails w r err w' :
  request (ctrl_handler (dev w)) = r →
  vsfusbd_ctrl_prepare xop hw cls w = Some (err, w') → err ≠ VSFERR_NONE →
  refused hw (dev w) r ∨ left_to_class (dev w) r.
Proof.
  intros Hreq Hp Herr. unfold vsfusbd_ctrl_prepare in Hp. rewrite Hreq in Hp.
  destruct (put_ctrl_mem _ _) as [w1|] eqn:H1; [|done]. cbn [mbind option_bind] in Hp.
  assert (Hd1 : dev w1 = set_ctrl (dev w) (set_c_stream (ctrl_handler (dev w)) CTRL_STREAM)).
  { unfold put_ctrl_mem in H1. destruct (streams _ !! _) as [s|]; [|done]. cbn [mbind option_bind] in H1.
    destruct (smem s); [|done]. by injection H1 as <-. }
  assert (Hback : refused hw (dev w1) r ∨ left_to_class (dev w1) r → refused hw (dev w) r ∨ left_to_class (dev w) r).
  { rewrite Hd1. intros [H0%(refused_ctrl _ (ctrl_handler (dev w)))|H0].
    - left. by destruct (dev w).
    - right. destruct H0; [by eapply left_request|by eapply left_descriptor]. }
  match type of Hp with (?o ≫= _) = _ => destruct o as [[e w2]|] eqn:Ho; [|done] end.
  cbn [mbind option_bind] in Hp. destruct (Z.eqb_spec e 0) as [->|He].
  - cbn [negb] in Hp. destruct (_ =? 0) in Hp; [by injection Hp as <- <-|]. unfold usb_stream_init in Hp.
    destruct (streams w2 !! _); [|done]. by injection Hp as <- <-.
  - apply Hback. cbn [negb] in Hp. destruct (type_cases (bRequestType r)) as [Ht|[Ht|[Ht|Ht]]].
    + rewrite Ht in Ho. cbn match in Ho.
      unfold vsfusbd_stdctrl_prepare in Ho. rewrite Hd1 in Ho. cbn [request ctrl_handler set_ctrl set_c_stream] in Ho.
      rewrite Hreq in Ho. fold (by_recipient r w1) in Ho.
      destruct (by_recipient r w1) as [[e' w3]|] eqn:Hb; [|done]. cbn [mbind option_bind] in Ho.
      destruct (Z.eqb_spec e' 0) as [->|He']; [|by eapply by_recipient_fails].
      cbn [negb] in Ho. destruct (ctrl_buffer w3); [|done]. by injection Ho as <- <-.
    + rewrite Ht in Ho. eapply class_fails; [by left|exact Ho|done].
    + rewrite Ht in Ho. eapply class_fails; [by right|exact Ho|done].
    + left. by constructor 1.
Qed.
End requests.

(** The rest of the program may change itself as it likes. *)
Definition free_rest {R} : R → R → Prop := same_calls (λ _, []).

(** C16: a standard request that reads.  When the SETUP packet of a request with a
    reply arrives, the first packet is in endpoint 0 and the status stage is
    ready; then, in whatever order the host takes packets and events are
    dispatched, nothing faults, the steps end, and at the end the host has got
    the reply cut to the length it asked for, in full packets but the last,
    which is short or empty when that is less than it asked for. *)
Theorem control_read {X P H R} {xop : vsf_stream_op_t X P} {hw : vsfhal_usbd H}
    `{!UsbdHal hw} `{!Source xop} (cls : usbd_class (uworld X H R)) w r m l :
  quiet cls free_rest → setup_ready (hw := hw) w r m → evts w = [] →
  std_reply (dev w) r l → l ≠ [] → 0 < wLength r < 65536 → Z.of_nat (length l) < 4294967296 →
  let n := Nat.min (length l) (Z.to_nat (wLength r)) in
  ∃ w1, vsfusbd_evt_handler xop hw cls VSFUSBD_INTEVT_SETUP w = Some w1 ∧
    out_enabled (view (hal w1) 0) = true ∧
    ∀ w', rtc (in_step (xop := xop) (hw := hw) cls 0 CTRL_STREAM false) (l, w1) (l, w') →
      (evts w' ≠ [] → is_Some (usbd_poll xop hw cls w')) ∧
      (∃ b, ∀ k c, nsteps (in_step (xop := xop) (hw := hw) cls 0 CTRL_STREAM false) k (l, w') c → (k ≤ b)%nat) ∧
      ∃ ps, in_sent (view (hal w') 0) = in_sent (view (hal w) 0) ++ ps ∧
        concat ps `prefix_of` take n l ∧ Forall (λ q, length q ≤ m)%nat ps ∧
        (evts w' = [] → in_armed (view (hal w') 0) = false →
         complete m (Z.of_nat n <? wLength r) (take n l) ps).
Proof.
  intros Hq Hsu He Hr Hne Hw Hlen n.
  destruct (evt_setup_ok cls free_rest Hq w r m l Hsu Hr Hne Hw Hlen)
    as (ps & z & armed & w1 & Hev & Hsd & Hwait & Hen & He1 & _). fold n in Hev, Hsd, Hwait.
  set (zl := Z.of_nat n <? wLength r) in *.
  exists w1. split; [exact Hev|]. split; [done|]. intros w' Hrun.
  assert (Hip : in_params 0 CTRL_IN CTRL_STREAM n m).
  { split; [unfold VSFUSBD_CFG_EPMAXNO; lia|done|done|apply Hsu|unfold n; lia]. }
  assert (Hf : finishes cls NULL DEVICE (λ _ : R, [])).
  { intros w0. exists (urest w0). by rewrite set_urest_id. }
  assert (Hr0 : running (xop := xop) (hw := hw) 0 CTRL_IN CTRL_STREAM NULL DEVICE n m zl (λ _ : R, [])
    (in_sent (view (hal w) 0)) [] (mu n ps z armed w1) l w1).
  { left. exists ps, z, (negb armed), armed. split; [|split; [done|split; [done|]]].
    - split; [exact Hsd|]. rewrite He1, He. split; [constructor|]. by destruct armed.
    - destruct armed; [done|]. left. by apply Hwait. }
  destruct (running_steps cls 0 CTRL_IN CTRL_STREAM NULL DEVICE n m zl (λ _ : R, []) Hip Hq Hf _ _ _ false
    (l, w1) (l, w') Hr0 Hrun) as [k Hk]. cbn [fst snd] in Hk.
  split; [|split].
  - intros Hne'. destruct (running_poll cls _ _ _ _ _ _ _ _ _ Hip Hq Hf _ _ k l w' Hk Hne') as (w2 & Hp & _).
    by exists w2.
  - exists k. intros j c Hsteps.
    exact (running_bound cls _ _ _ _ _ _ _ _ _ Hip Hq Hf _ _ j k (l, w') c Hk Hsteps).
  - destruct (running_seen _ _ _ _ _ _ _ _ _ _ _ k l w' Hk) as (qs & Hs & Hpre & Hle & _ & Hend).
    exists qs. split; [done|]. split; [done|]. split; [done|]. intros H1 H2.
    apply Hend; [done|done|unfold n; lia].
Qed.

(** C18: a request that the core refuses: an unknown type, recipient, interface or
    request, arguments that the request does not allow, a missing descriptor or
    class function ([refused] lists them; by [prepare_fails] no other request fails
    but by the code of a class, and a request to an interface past the table of
    interfaces is not among them, see [iface_index_overruns]).  Endpoint 0 is
    stalled in both directions, and nothing else happens: no packet, no transfer,
    no event, and the user is not told. *)
Theorem control_refused {X P H R} {xop : vsf_stream_op_t X P} {hw : vsfhal_usbd H}
    (cls : usbd_class (uworld X H R)) w r b :
  hal_get_setup hw (hal w) = (VSFERR_NONE, b) → parse_request b = Some r →
  (∃ s mem, streams w !! CTRL_STREAM = Some s ∧ smem s = Buf mem) →
  refused hw (dev w) r →
  ∃ w', vsfusbd_evt_handler xop hw cls VSFUSBD_INTEVT_SETUP w = Some w' ∧
    hal w' = snd (ep_set_OUT_stall hw 0 (snd (ep_set_IN_stall hw 0 (hal w)))) ∧
    evts w' = evts w ∧ transacts w' = transacts w ∧ urest w' = urest w.
Proof.
  intros Hget Hparse Hs Hr.
  change (vsfusbd_evt_handler xop hw cls VSFUSBD_INTEVT_SETUP w) with (evt_setup xop hw cls w).
  unfold evt_setup. rewrite Hget, Hparse. bindr. no_err. set (w1 := set_dev w _).
  assert (Hr1 : refused hw (dev w1) r) by by apply refused_ctrl.
  destruct (refused_fails (xop := xop) (hw := hw) cls w1 r Hr1 eq_refl Hs)
    as (w2 & Hp & He & Hh & Hu & Ht).
  rewrite Hp. bindr. change (negb (VSFERR_FAIL =? 0)) with true. cbn match. unfold fail. bindr.
  change (negb (VSFERR_FAIL =? 0)) with true. cbn match. eexists. split; [reflexivity|].
  unfold do_hal, run_hal. cbn [hal].
  destruct (ep_set_IN_stall hw 0 (hal w2)) as [e1 h1] eqn:H1. cbn [snd hal set_hal].
  destruct (ep_set_OUT_stall hw 0 h1) as [e2 h2] eqn:H2. cbn.
  rewrite Hh in H1. cbn in H1. rewrite H1. cbn. rewrite H2. by rewrite He, Ht, Hu.
Qed.

(** ** A device that answers *)

Definition device_descriptor : list Z :=
  [18; 1; 0; 2; 0; 0; 0; 8; 0x83; 4; 0x20; 0xA0; 0; 2; 1; 2; 3; 1].
(** Two interfaces: the first with an endpoint each way, the second with one. *)
Definition config_descriptor : list Z :=
  [9; 2; 48; 0; 2; 1; 0; 0x80; 50;
   9; 4; 0; 0; 2; 8; 6; 0x50; 0;
   7; 5; 0x81; 2; 8; 0; 0;
   7; 5; 0x02; 2; 8; 0; 0;
   9; 4; 1; 0; 1; 3; 0; 0; 0;
   7; 5; 0x83; 3; 4; 0; 10].
Definition desc_of (type : Z) (l : list Z) : vsfusbd_desc_filter_t :=
  {| df_type := type; df_index := 0; df_lanid := 0;
     df_buffer := Some {| buffer := l; size := Z.of_nat (length l) |} |}.
Definition desc_end : vsfusbd_desc_filter_t :=
  {| df_type := 0; df_index := 0; df_lanid := 0; df_buffer := None |}.

Definition demo_iface : vsfusbd_iface_t :=
  {| class_protocol := None; protocol_param := NULL; alternate_setting := 0 |}.
Definition demo_config : vsfusbd_config_t :=
  {| cfg_init := NULL; cfg_fini := NULL; num_of_ifaces := 2; iface := [demo_iface; demo_iface];
     configuration_value := 1; ep_OUT_iface_map := replicate 16 (-1);
     ep_IN_iface_map := replicate 16 (-1) |}.

(** The device with a configuration descriptor, as it stands with a SETUP packet. *)
Definition ctrl_world (cfg : list Z) (setup : list Z) : uworld vsf_fifo_t board (list (Z * Z)) := {|
  dev := {| num_of_configuration := 1; config := [demo_config];
     desc_filter := [desc_of USB_DT_DEVICE device_descriptor; desc_of USB_DT_CONFIG cfg; desc_end];
     device_class_iface := 0; on_EVENT := NULL; address := 0; configured := false;
     configuration := 0; feature := 0; ctrl_handler := ctrl_handler demo_dev;
     IN_transact := ∅; OUT_transact := ∅;
     IN_handler := {[0 := ON_IN_DO_FN]}; OUT_handler := {[0 := ON_OUT_DO_FN]};
     tmpbuf := replicate 64 0 |};
  transacts := {[CTRL_IN := xfer 0 NULL NULL NULL 0 false false;
                 CTRL_OUT := xfer 0 NULL NULL NULL 0 false false]};
  streams := {[CTRL_STREAM := {| callback_tx := no_cb; callback_rx := no_cb; tx_ready := false;
    rx_ready := false; overflow := false;
    smem := Buf {| bbuf := {| buffer := [0; 0]; size := 0 |}; bread := true; pos := 0 |}; env := tt |}]};
  evts := []; on_event := ON_EVENT_FN;
  hal := {| b_eps _ := idle_ep 8; b_setup := setup; b_address := 0; b_stalled := []; b_frame := 0 |};
  urest := [] |}.

(** GET_DESCRIPTOR of the device, of a string. *)
Definition get_device_setup : list Z := [0x80; 6; 0; 1; 0; 0; 64; 0].
Definition get_string_setup : list Z := [0x80; 6; 0; 3; 9; 4; 255; 0].

Lemma ctrl_world_ready cfg r setup :
  parse_request setup = Some r → setup_ready (hw := board_hal) (ctrl_world cfg setup) r 8.
Proof.
  intros Hp. split.
  - exists setup. split; [reflexivity|exact Hp].
  - eexists _, _. split; [reflexivity|]. split; [reflexivity|]. by left.
  - split; eexists; (split; [reflexivity|reflexivity]).
  - reflexivity.
  - split; [unfold VSFUSBD_TMPBUF; lia|reflexivity].
  - reflexivity.
  - reflexivity.
Qed.

Lemma control_read_witness :
  ∃ w1, vsfusbd_evt_handler fifostream_op board_hal counting VSFUSBD_INTEVT_SETUP
      (ctrl_world config_descriptor get_device_setup) = Some w1 ∧
    in_sent (b_eps (hal w1) 0) = [take 8 device_descriptor] ∧
    out_enabled (b_eps (hal w1) 0) = true.
Proof.
  destruct (control_read (xop := fifostream_op) (hw := board_hal) counting
    (ctrl_world config_descriptor get_device_setup)
    {| bRequestType := 0x80; bRequest := 6; wValue := 0x100; wIndex := 0; wLength := 64 |} 8
    device_descriptor) as (w1 & H1 & H2 & _).
  - split; intros; eexists; (split; [reflexivity|constructor]).
  - apply ctrl_world_ready. reflexivity.
  - reflexivity.
  - apply (reply_descriptor _ _ {| buffer := device_descriptor; size := 18 |}); try reflexivity; simpl; lia.
  - done.
  - simpl. lia.
  - simpl. lia.
  - exists w1. split; [exact H1|]. split; [|exact H2]. vm_compute in H1. injection H1 as <-. reflexivity.
Defined.

(** The host takes the three packets of the device descriptor. *)
Definition get_device_run : option (uworld vsf_fifo_t board (list (Z * Z))) :=
  w ← vsfusbd_evt_handler fifostream_op board_hal counting VSFUSBD_INTEVT_SETUP
        (ctrl_world config_descriptor get_device_setup);
  w ← usbd_poll fifostream_op board_hal counting (host_take 0 w);
  w ← usbd_poll fifostream_op board_hal counting (host_take 0 w);
  usbd_poll fifostream_op board_hal counting (host_take 0 w).

Example get_device_packets :
  match get_device_run with
  | Some w => in_sent (b_eps (hal w) 0) =
                [[18; 1; 0; 2; 0; 0; 0; 8]; [0x83; 4; 0x20; 0xA0; 0; 2; 1; 2]; [3; 1]] ∧ evts w = []
  | None => False
  end.
Proof. vm_compute. done. Qed.

Lemma control_refused_witness :
  ∃ w1, vsfusbd_evt_handler fifostream_op board_hal counting VSFUSBD_INTEVT_SETUP
      (ctrl_world config_descriptor get_string_setup) = Some w1 ∧
    b_stalled (hal w1) = [0; 0x80].
Proof.
  destruct (control_refused (xop := fifostream_op) (hw := board_hal) counting
    (ctrl_world config_descriptor get_string_setup)
    {| bRequestType := 0x80; bRequest := 6; wValue := 0x300; wIndex := 0x409; wLength := 255 |}
    get_string_setup) as (w1 & H1 & H2 & _).
  - reflexivity.
  - reflexivity.
  - eexists _, _. split; reflexivity.
  - eapply refused_descriptor; [split| |]; reflexivity.
  - exists w1. split; [exact H1|]. by rewrite H2.
Defined.
