(* ===== verification/Usbconf.v ===== *)
(** * Usbconf: the endpoints of a configuration are those of its descriptor

    A configuration descriptor is a header and a list of descriptors, each with
    its length and its kind.  [vsfusbd_auto_init] walks over its bytes; what it
    sets up is stated here on the list. *)

From S2P Require Import Prelude Chain Fifo Multibuf Endian Stream Vsfsm Vsfusbd Usbctrl Usbxfer Usbreq.

(** ** Descriptors and their bytes *)

Inductive desc :=
  | DIface (n : Z) (more : list Z)
  | DEndpoint (dir_in : bool) (ep attr max_packet : Z) (more : list Z)
  | DOther (kind : Z) (more : list Z).

Definition ep_address (dir_in : bool) (ep : Z) : Z := if dir_in then 0x80 + ep else ep.

Definition desc_tail (d : desc) : list Z :=
  match d with
  | DIface n more => USB_DT_INTERFACE :: n :: more
  | DEndpoint dir ep attr mp more =>
      USB_DT_ENDPOINT :: ep_address dir ep :: attr :: mp mod 256 :: mp / 256 :: more
  | DOther kind more => kind :: more
  end.
Definition desc_bytes (d : desc) : list Z := Z.of_nat (S (length (desc_tail d))) :: desc_tail d.
Definition config_bytes (header : list Z) (ds : list desc) : list Z := header ++ concat (desc_bytes <$> ds).

Definition desc_wf (d : desc) : Prop :=
  (length (desc_bytes d) < 256)%nat ∧
  match d with
  | DIface n _ => 0 ≤ n < 128
  | DEndpoint _ ep _ mp _ => 0 ≤ ep < 16 ∧ 0 ≤ mp < 65536
  | DOther kind _ => kind ≠ USB_DT_INTERFACE ∧ kind ≠ USB_DT_ENDPOINT
  end.

(** ** What the descriptors ask for *)

(** The interface and the packet size of an endpoint: those of its last
    descriptor, which belongs to the interface described last before it. *)
Fixpoint endpoint_of (dir_in : bool) (ep cur : Z) (ds : list desc) : option (Z * Z) :=
  match ds with
  | [] => None
  | DIface n _ :: ds => endpoint_of dir_in ep n ds
  | DEndpoint dir e _ mp _ :: ds =>
      match endpoint_of dir_in ep cur ds with
      | Some r => Some r
      | None => if eqb dir dir_in && (e =? ep) then Some (cur, mp) else None
      end
  | DOther _ _ :: ds => endpoint_of dir_in ep cur ds
  end.

(** Setting up an endpoint changes its packet size and nothing that is seen of
    another. *)
Class UsbdSetup {H} (hw : vsfhal_usbd H) `{!UsbdHal hw} := {
  hal_IN_resize ep n h e : view (snd (ep_set_IN_epsize hw ep n h)) e
    = if decide (e = ep) then resize n (out_size (view h ep)) (view h ep) else view h e;
  hal_OUT_resize ep n h e : view (snd (ep_set_OUT_epsize hw ep n h)) e
    = if decide (e = ep) then resize (in_size (view h ep)) n (view h ep) else view h e;
  hal_type ep t h e : view (snd (ep_set_type hw ep t h)) e = view h e }.

#[export] Instance board_UsbdSetup : UsbdSetup board_hal.
Proof. by split. Qed.

Lemma ep_address_bits dir ep :
  0 ≤ ep < 16 → Z.land (ep_address dir ep) 0x0F = ep ∧
    negb (Z.land (ep_address dir ep) 0x80 =? 0) = dir.
Proof.
  intros Hep.
  pose proof (all_below_spec 16 (λ e, (Z.land (ep_address dir e) 0x0F =? e) &&
    eqb (negb (Z.land (ep_address dir e) 0x80 =? 0)) dir) ep) as Hb.
  destruct (andb_prop _ _ (Hb ltac:(by destruct dir) Hep)) as [H1 H2].
  apply Z.eqb_eq in H1. by apply eqb_prop in H2.
Qed.

Lemma s8_small n : -1 ≤ n < 128 → s8 n = n.
Proof.
  intros Hn. unfold s8, sgn. change (2 ^ 8) with 256. change (2 ^ (8 - 1)) with 128.
  destruct (decide (n = -1)) as [->|]; [done|]. rewrite Z.mod_small by lia. zcase; lia.
Qed.

Lemma getb_app pre l i : 0 ≤ i → getb (pre ++ l) (Z.of_nat (length pre) + i) = getb l i.
Proof.
  intros Hi. unfold getb. rewrite !decide_True, lookup_app_r by lia. f_equal. lia.
Qed.

Lemma drop_at pre l i : 0 ≤ i → drop (Z.to_nat (Z.of_nat (length pre) + i)) (pre ++ l) = drop (Z.to_nat i) (l : list Z).
Proof. intros Hi. rewrite Z2Nat.inj_add, Nat2Z.id by lia. apply drop_app_add. Qed.

Lemma max_packet_read mp l :
  0 ≤ mp < 65536 → GET_U16_LSBFIRST (mp mod 256 :: mp / 256 :: l) = Some mp.
Proof.
  intros Hmp. unfold GET_U16_LSBFIRST. change (getb (mp mod 256 :: mp / 256 :: l) 0) with (Some (mp mod 256)).
  change (getb (mp mod 256 :: mp / 256 :: l) 1) with (Some (mp / 256)). bindr.
  rewrite Z.shiftl_0_r, Z.shiftl_mul_pow2 by lia.
  rewrite (lor_add_high (mp mod 256) (mp / 256 * 2 ^ 8) 8); [|lia| |by apply Z.mod_mul].
  2:{ apply (Z.mod_pos_bound mp 256). lia. }
  change (2 ^ 8) with 256. f_equal. rewrite u16_small; pose proof (Z.div_mod mp 256); lia.
Qed.

(** ** The walk *)

Section walk.
Context {X H R : Type} {hw : vsfhal_usbd H} `{Hset : UsbdSetup H hw}.
Notation world := (uworld X H R).
Implicit Types (w : world) (c : vsfusbd_config_t) (ds : list desc).

(** The descriptors [ds] have been set up: the maps of the configuration and
    the packet sizes are theirs, everything else is as it was. *)
Record set_up ds (cur : Z) w c w' c' : Prop := {
  up_dev : dev w' = set_the_config (dev w) c';
  up_config : c' = set_maps c (ep_OUT_iface_map c') (ep_IN_iface_map c');
  up_length : length (ep_OUT_iface_map c') = 16%nat ∧ length (ep_IN_iface_map c') = 16%nat;
  up_IN e : 0 ≤ e < 16 → ep_IN_iface_map c' !! Z.to_nat e =
    match endpoint_of true e cur ds with Some (i, _) => Some i | None => ep_IN_iface_map c !! Z.to_nat e end;
  up_OUT e : 0 ≤ e < 16 → ep_OUT_iface_map c' !! Z.to_nat e =
    match endpoint_of false e cur ds with Some (i, _) => Some i | None => ep_OUT_iface_map c !! Z.to_nat e end;
  up_IN_size e : in_size (view (hal w') e) =
    match endpoint_of true e cur ds with Some (_, n) => n | None => in_size (view (hal w) e) end;
  up_OUT_size e : out_size (view (hal w') e) =
    match endpoint_of false e cur ds with Some (_, n) => n | None => out_size (view (hal w) e) end;
  up_rest : transacts w' = transacts w ∧ streams w' = streams w ∧ evts w' = evts w ∧ urest w' = urest w }.

Lemma do_hal_eq w (f : H → Z * H) : do_hal w f = set_hal w (snd (f (hal w))).
Proof. unfold do_hal, run_hal. by destruct (f (hal w)). Qed.

Lemma the_config_set (d : vsfusbd_device_t) c0 c :
  the_config d = Some c0 → the_config (set_the_config d c) = Some c.
Proof. intros Hc. apply list_lookup_insert_eq. by apply lookup_lt_Some in Hc. Qed.

(** One endpoint descriptor. *)
Lemma auto_init_ep_ok pre post dir ep attr mp more cur w c :
  desc_wf (DEndpoint dir ep attr mp more) → -1 ≤ cur < 128 → the_config (dev w) = Some c →
  length (ep_OUT_iface_map c) = 16%nat → length (ep_IN_iface_map c) = 16%nat →
  ∃ w' c', auto_init_ep hw (pre ++ desc_bytes (DEndpoint dir ep attr mp more) ++ post)
      (Z.of_nat (length pre)) cur w = Some (VSFERR_NONE, w') ∧
    set_up [DEndpoint dir ep attr mp more] cur w c w' c' ∧ the_config (dev w') = Some c'.
Proof.
  intros [_ [Hep Hmp]] Hcur Hc Ho Hi. destruct (ep_address_bits dir ep Hep) as [Hn Hd].
  unfold auto_init_ep. rewrite !getb_app, drop_at by lia.
  change (getb (desc_bytes (DEndpoint dir ep attr mp more) ++ post) 2) with (Some (ep_address dir ep)).
  change (getb (desc_bytes (DEndpoint dir ep attr mp more) ++ post) 3) with (Some attr).
  change (drop (Z.to_nat 4) (desc_bytes (DEndpoint dir ep attr mp more) ++ post))
    with (mp mod 256 :: mp / 256 :: more ++ post).
  bindr. rewrite max_packet_read by done. bindr. rewrite Hn, Hd.
  rewrite (proj2 (Z.ltb_ge _ _)) by (unfold VSFUSBD_CFG_EPMAXNO; lia). rewrite Hc. bindr.
  rewrite s8_small by lia.
  destruct dir; rewrite setb_in by lia; bindr; eexists _, _;
    (split; [reflexivity|]); (split; [|rewrite !do_hal_eq; by eapply the_config_set]).
  - split; cbn [endpoint_of eqb andb]; rewrite ?do_hal_eq; cbn; try done.
    + by rewrite length_insert.
    + intros e He. destruct (Z.eqb_spec ep e) as [->|Hne];
        [apply list_lookup_insert_eq|apply list_lookup_insert_ne]; lia.
    + intros e. rewrite hal_type, hal_IN_resize. destruct (Z.eqb_spec ep e); case_decide; (done || lia).
    + intros e. rewrite hal_type, hal_IN_resize. case_decide; [by subst|done].
  - split; cbn [endpoint_of eqb andb]; rewrite ?do_hal_eq; cbn; try done.
    + by rewrite length_insert.
    + intros e He. destruct (Z.eqb_spec ep e) as [->|Hne];
        [apply list_lookup_insert_eq|apply list_lookup_insert_ne]; lia.
    + intros e. rewrite hal_type, hal_OUT_resize. case_decide; [by subst|done].
    + intros e. rewrite hal_type, hal_OUT_resize. destruct (Z.eqb_spec ep e); case_decide; (done || lia).
Qed.

(** Nothing set up; one descriptor, then others. *)
Lemma set_up_refl cur w c : the_config (dev w) = Some c →
  length (ep_OUT_iface_map c) = 16%nat → length (ep_IN_iface_map c) = 16%nat → set_up [] cur w c w c.
Proof.
  intros Hc Ho Hi. split; try done; [|by destruct c].
  unfold set_the_config. rewrite list_insert_id by done. by destruct (dev w).
Qed.

(** The interface after a descriptor. *)
Definition next_iface (cur : Z) (d : desc) : Z := match d with DIface n _ => n | _ => cur end.

Lemma endpoint_of_cons dir e cur d ds : endpoint_of dir e cur (d :: ds) =
  match endpoint_of dir e (next_iface cur d) ds with
  | Some r => Some r
  | None => endpoint_of dir e cur [d]
  end.
Proof. destruct d; cbn; by destruct (endpoint_of dir e _ ds). Qed.

Lemma set_up_cons d ds cur w c w1 c1 w2 c2 :
  set_up [d] cur w c w1 c1 → set_up ds (next_iface cur d) w1 c1 w2 c2 → set_up (d :: ds) cur w c w2 c2.
Proof.
  intros [Hd1 Hc1 Hl1 HI1 HO1 HIs1 HOs1 (Ht1 & Hs1 & He1 & Hu1)]
    [Hd2 Hc2 Hl2 HI2 HO2 HIs2 HOs2 (Ht2 & Hs2 & He2 & Hu2)].
  split; try (intros e; try intros He; rewrite endpoint_of_cons); try done.
  - rewrite Hd2, Hd1. unfold set_the_config. cbn. by rewrite list_insert_insert_eq.
  - rewrite Hc2, Hc1. done.
  - rewrite HI2 by done. destruct (endpoint_of _ _ _ ds) as [[]|]; [done|by apply HI1].
  - rewrite HO2 by done. destruct (endpoint_of _ _ _ ds) as [[]|]; [done|by apply HO1].
  - rewrite HIs2. destruct (endpoint_of _ _ _ ds) as [[]|]; [done|by apply HIs1].
  - rewrite HOs2. destruct (endpoint_of _ _ _ ds) as [[]|]; [done|by apply HOs1].
  - by rewrite Ht2, Hs2, He2, Hu2.
Qed.

(** One descriptor of any kind. *)
Lemma auto_init_step fuel pre post d cur w c :
  desc_wf d → -1 ≤ cur < 128 → the_config (dev w) = Some c →
  length (ep_OUT_iface_map c) = 16%nat → length (ep_IN_iface_map c) = 16%nat →
  Z.of_nat (length (pre ++ desc_bytes d ++ post)) < 65536 →
  let b := {| buffer := pre ++ desc_bytes d ++ post; size := Z.of_nat (length (pre ++ desc_bytes d ++ post)) |} in
  ∃ w' c', auto_init_loop hw (S fuel) b (Z.of_nat (length pre)) cur w
      = auto_init_loop hw fuel b (Z.of_nat (length (pre ++ desc_bytes d))) (next_iface cur d) w' ∧
    set_up [d] cur w c w' c' ∧ the_config (dev w') = Some c'.
Proof.
  intros Hwf Hcur Hc Ho Hi Hlen b. cbn [auto_init_loop].
  change (size b) with (Z.of_nat (length (pre ++ desc_bytes d ++ post))).
  change (buffer b) with (pre ++ desc_bytes d ++ post).
  assert (Hdl : length (desc_bytes d) = S (length (desc_tail d))) by done.
  rewrite (proj2 (Z.leb_gt (Z.of_nat (length (pre ++ desc_bytes d ++ post))) (Z.of_nat (length pre))))
    by (rewrite !length_app; lia).
  assert (Hnext : ∀ iface w', (len ← getb (pre ++ desc_bytes d ++ post) (Z.of_nat (length pre));
      auto_init_loop hw fuel b (u16 (Z.of_nat (length pre) + len)) iface w')
    = auto_init_loop hw fuel b (Z.of_nat (length (pre ++ desc_bytes d))) iface w').
  { intros i w'. rewrite <- (Z.add_0_r (Z.of_nat (length pre))) at 1. rewrite getb_app by lia.
    change (getb (desc_bytes d ++ post) 0) with (Some (Z.of_nat (S (length (desc_tail d))))). bindr.
    rewrite u16_small by (rewrite !length_app in Hlen; lia). by rewrite length_app, Hdl, Nat2Z.inj_add. }
  rewrite !getb_app by lia. rewrite !length_app in Hlen.
  destruct d as [n more|dir ep attr mp more|kind more].
  - change (getb (desc_bytes (DIface n more) ++ post) 1) with (Some USB_DT_INTERFACE).
    change (getb (desc_bytes (DIface n more) ++ post) 2) with (Some n). bindr.
    change (USB_DT_INTERFACE =? USB_DT_INTERFACE) with true.
    change (USB_DT_INTERFACE =? USB_DT_ENDPOINT) with false. cbn match. bindr.
    change (negb (VSFERR_NONE =? 0)) with false. cbn match. rewrite Hnext.
    exists w, c. split; [done|]. split; [|done]. by destruct (set_up_refl cur w c Hc Ho Hi).
  - change (getb (desc_bytes (DEndpoint dir ep attr mp more) ++ post) 1) with (Some USB_DT_ENDPOINT). bindr.
    change (USB_DT_ENDPOINT =? USB_DT_INTERFACE) with false.
    change (USB_DT_ENDPOINT =? USB_DT_ENDPOINT) with true. cbn match. bindr.
    destruct (auto_init_ep_ok pre post dir ep attr mp more cur w c Hwf Hcur Hc Ho Hi)
      as (w' & c' & He & Hup & Hc'). rewrite He. bindr.
    change (negb (VSFERR_NONE =? 0)) with false. cbn match. rewrite Hnext. by exists w', c'.
  - change (getb (desc_bytes (DOther kind more) ++ post) 1) with (Some kind). bindr.
    destruct Hwf as [_ [Hk1 Hk2]]. rewrite !(proj2 (Z.eqb_neq _ _)) by done. bindr.
    change (negb (VSFERR_NONE =? 0)) with false. cbn match. rewrite Hnext.
    exists w, c. split; [done|]. split; [|done]. by destruct (set_up_refl cur w c Hc Ho Hi).
Qed.

Lemma auto_init_loop_ok ds pre cur w c fuel :
  Forall desc_wf ds → -1 ≤ cur < 128 → the_config (dev w) = Some c →
  length (ep_OUT_iface_map c) = 16%nat → length (ep_IN_iface_map c) = 16%nat →
  Z.of_nat (length (config_bytes pre ds)) < 65536 → (length ds < fuel)%nat →
  ∃ w' c', auto_init_loop hw fuel {| buffer := config_bytes pre ds;
        size := Z.of_nat (length (config_bytes pre ds)) |} (Z.of_nat (length pre)) cur w
      = Some (VSFERR_NONE, w') ∧ set_up ds cur w c w' c' ∧ the_config (dev w') = Some c'.
Proof.
  revert pre cur w c fuel. induction ds as [|d ds IH]; intros pre cur w c fuel Hwf Hcur Hc Ho Hi Hlen Hfuel;
    (destruct fuel as [|fuel]; [simpl in Hfuel; lia|]).
  - exists w, c. split; [|split; [by apply set_up_refl|done]]. cbn [auto_init_loop size].
    unfold config_bytes. cbn [fmap list_fmap concat]. rewrite app_nil_r.
    by rewrite (proj2 (Z.leb_le _ _)) by lia.
  - apply Forall_cons in Hwf as [Hd Hwf].
    assert (Hb : config_bytes pre (d :: ds) = pre ++ desc_bytes d ++ concat (desc_bytes <$> ds)) by done.
    assert (Hb' : config_bytes pre (d :: ds) = config_bytes (pre ++ desc_bytes d) ds).
    { rewrite Hb. unfold config_bytes. by rewrite (assoc_L app). }
    destruct (auto_init_step fuel pre (concat (desc_bytes <$> ds)) d cur w c Hd Hcur Hc Ho Hi)
      as (w1 & c1 & Hl & Hup1 & Hc1); [by rewrite <- Hb|]. cbv zeta in Hl. rewrite <- Hb in Hl. rewrite Hl.
    destruct (IH (pre ++ desc_bytes d) (next_iface cur d) w1 c1 fuel) as (w2 & c2 & Hl2 & Hup2 & Hc2);
      [done| |done|apply Hup1|apply Hup1|by rewrite <- Hb'|simpl in Hfuel; lia|].
    { destruct d; cbn; [|done..]. destruct Hd as [_ Hn]. lia. }
    rewrite Hb'. exists w2, c2. split; [exact Hl2|]. split; [by eapply set_up_cons|done].
Qed.
End walk.

(** C31: endpoints of a configuration.  For a configuration descriptor of less
    than 64 KiB that is a list of descriptors, [vsfusbd_auto_init] ends without a
    fault, each endpoint belongs to the interface described last before its last
    descriptor and has the packet size that descriptor gives, endpoints without
    a descriptor are as they were, and nothing else changes. *)
Theorem auto_init_assigns {X H R} {hw : vsfhal_usbd H} `{UsbdSetup H hw}
    (w : uworld X H R) c header ds :
  vsfusbd_device_get_descriptor (desc_filter (dev w)) USB_DT_CONFIG (configuration (dev w)) 0
    = Some (VSFERR_NONE, Some {| buffer := config_bytes header ds;
                                 size := Z.of_nat (length (config_bytes header ds)) |}) →
  length header = 9%nat → Forall desc_wf ds → Z.of_nat (length (config_bytes header ds)) < 65536 →
  the_config (dev w) = Some c →
  length (ep_OUT_iface_map c) = 16%nat → length (ep_IN_iface_map c) = 16%nat →
  ∃ w' c', vsfusbd_auto_init hw w = Some (VSFERR_NONE, w') ∧ the_config (dev w') = Some c' ∧
    set_up ds (-1) w c w' c'.
Proof.
  intros Hget Hh Hwf Hlen Hc Ho Hi. unfold vsfusbd_auto_init. rewrite Hget. bindr.
  change (negb (VSFERR_NONE =? 0)) with false. cbn match.
  destruct (lookup_lt_is_Some_2 header 7) as [attr Hattr]; [rewrite Hh; lia|].
  assert (Hg : getb (config_bytes header ds) 7 = Some attr).
  { unfold getb, config_bytes. rewrite decide_True by lia. by apply lookup_app_l_Some. }
  cbn [buffer]. rewrite Hg. bindr.
  assert (Hsize : ∀ l, (length l ≤ length (concat (desc_bytes <$> l)))%nat).
  { induction l as [|d l IH]; [done|]. rewrite fmap_cons. cbn [concat length]. rewrite length_app.
    assert (length (desc_bytes d) = S (length (desc_tail d))) by done. lia. }
  change USB_DT_CONFIG_SIZE with (Z.of_nat 9). rewrite <- Hh.
  destruct (auto_init_loop_ok ds header (-1) w c (S (Z.to_nat (Z.of_nat (length (config_bytes header ds)))))) 
    as (w' & c' & Hl & Hup & Hc'); try done.
  { unfold config_bytes at 1. rewrite length_app. specialize (Hsize ds). lia. }
  exists w', c'. split; [exact Hl|]. by split.
Qed.

(** The descriptors of [config_descriptor]. *)
Definition config_descs : list desc :=
  [DIface 0 [0; 2; 8; 6; 0x50; 0]; DEndpoint true 1 2 8 [0]; DEndpoint false 2 2 8 [0];
   DIface 1 [0; 1; 3; 0; 0; 0]; DEndpoint true 3 3 4 [10]].

Lemma auto_init_assigns_witness :
  ∃ w' c', vsfusbd_auto_init board_hal (ctrl_world config_descriptor get_device_setup)
      = Some (VSFERR_NONE, w') ∧ the_config (dev w') = Some c' ∧
    ep_IN_iface_map c' !! 3%nat = Some 1 ∧ ep_OUT_iface_map c' !! 2%nat = Some 0 ∧
    ep_IN_iface_map c' !! 4%nat = Some (-1) ∧ in_size (b_eps (hal w') 3) = 4.
Proof.
  destruct (auto_init_assigns (hw := board_hal) (ctrl_world config_descriptor get_device_setup) demo_config
    (take 9 config_descriptor) config_descs) as (w' & c' & H1 & H2 & H3); try reflexivity.
  - repeat constructor; simpl; try lia; discriminate.
  - exists w', c'. split; [exact H1|]. split; [exact H2|].
    split; [apply (up_IN _ _ _ _ _ _ H3 3); lia|]. split; [apply (up_OUT _ _ _ _ _ _ H3 2); lia|].
    split; [apply (up_IN _ _ _ _ _ _ H3 4); lia|apply (up_IN_size _ _ _ _ _ _ H3 3)].
Defined.

(** A descriptor of length 0 is found again and again. *)
Lemma zero_length_desc_hangs {X H R} {hw : vsfhal_usbd H} (w : uworld X H R) fuel b pos cur kind :
  pos < size b → getb (buffer b) pos = Some 0 → getb (buffer b) (pos + 1) = Some kind →
  kind ≠ USB_DT_INTERFACE → kind ≠ USB_DT_ENDPOINT → 0 ≤ pos < 65536 →
  auto_init_loop hw fuel b pos cur w = None.
Proof.
  intros Hp Hl Hk Hn1 Hn2 Hr. induction fuel as [|fuel IH]; [done|]. cbn [auto_init_loop].
  rewrite (proj2 (Z.leb_gt _ _)) by done. rewrite Hk. bindr.
  rewrite !(proj2 (Z.eqb_neq _ _)) by done. bindr.
  change (negb (VSFERR_NONE =? 0)) with false. cbn match. rewrite Hl. bindr.
  by rewrite Z.add_0_r, u16_small.
Qed.

(** The attributes of the configuration do not reach the device: GET_STATUS of
    a self-powered device that wakes up still answers 0. *)
Example config_feature_lost :
  let cfg := take 7 config_descriptor ++ [0xE0] ++ drop 8 config_descriptor in
  config_feature 0xE0 = 3 ∧
  (feature ∘ dev ∘ snd <$> vsfusbd_auto_init board_hal (ctrl_world cfg get_device_setup)) = Some 0.
Proof. by vm_compute. Qed.

(** SET_FEATURE of the remote wake-up sets bit 5 of the status, not bit 1. *)
Example set_feature_bit_wrong :
  (λ '(e, w), (e, feature (dev w))) <$> prepare_device (X := vsf_fifo_t) (H := board)
    {| bRequestType := 0; bRequest := USB_REQ_SET_FEATURE; wValue := USB_DEVICE_REMOTE_WAKEUP;
       wIndex := 0; wLength := 0 |} (ctrl_world config_descriptor []) = Some (VSFERR_NONE, 0x20).
Proof. by vm_compute. Qed.

(** A request to an interface past the table reads past it. *)
Example iface_index_overruns :
  prepare_iface counting {| bRequestType := 0x81; bRequest := USB_REQ_GET_INTERFACE; wValue := 0;
    wIndex := 2; wLength := 1 |} (ctrl_world config_descriptor []) = None.
Proof. by vm_compute. Qed.
