(* ===== verification/Mscbot.v ===== *)
(** * Mscbot: the bulk-only transport of a mass-storage device
    (component/usb/class/device/MSC/vsfusbd_MSC_BOT.c)

    A command block (CBW) arrives on the OUT endpoint, is executed by a SCSI
    unit, its data moves between the unit's stream and an endpoint, and a status
    (CSW) goes back; then the next command is awaited.  Each step is the
    [on_finish] of the transfer before it. *)

From S2P Require Import Prelude Chain Fifo Multibuf Endian Stream Vsfsm Malstream Vsfscsi Vsfusbd Usbctrl.

(** ** Constants (vsfusb_MSC.h) *)

Definition USBMSC_CBW_SIGNATURE : Z := 0x43425355.
Definition USBMSC_CSW_SIGNATURE : Z := 0x53425355.
Definition USBMSC_CBWFLAGS_DIR_IN : Z := 0x80.
Definition USBMSC_CBWFLAGS_DIR_MASK : Z := 0x80.
Definition USBMSC_CBW_SIZE : Z := 31.
Definition USBMSC_CSW_SIZE : Z := 13.
Definition USB_MSCBOTREQ_GET_MAX_LUN : Z := 0xFE.
Definition USB_MSCBOTREQ_RESET : Z := 0xFF.
Definition USBMSC_CSW_OK : Z := 0.
Definition USBMSC_CSW_FAIL : Z := 1.

(** Addresses of the functions of the class. *)
Definition MSCBOT_ON_IDLE_FN : Z := 0x2100.
Definition MSCBOT_ON_CBW_FN : Z := 0x2101.
Definition MSCBOT_TO_SENDCSW_FN : Z := 0x2102.
Definition MSCBOT_ON_DATA_FINISH_FN : Z := 0x2103.
Definition MSCBOT_DUMMY_INOUT_FN : Z := 0x2104.
Definition MSCBOT_REQUEST_PREPARE_FN : Z := 0x2105.
Definition MSCBOT_CLASS_INIT_FN : Z := 0x2106.

(** ** Command and status blocks

    The structs are packed and the host is little-endian. *)

Record USBMSC_CBW_t := {
  dCBWSignature : Z; dCBWTag : Z; dCBWDataTransferLength : Z; bmCBWFlags : Z; bCBWLUN : Z;
  bCBWCBLength : Z; CBWCB : list Z }.
Record USBMSC_CSW_t := { dCSWSignature : Z; dCSWTag : Z; dCSWDataResidue : Z; dCSWStatus : Z }.

(** The bytes of a block, and the block in 31 bytes. *)
Definition cbw_bytes (c : USBMSC_CBW_t) : list Z :=
  le_bytes 4 (dCBWSignature c) ++ le_bytes 4 (dCBWTag c) ++ le_bytes 4 (dCBWDataTransferLength c) ++
  [bmCBWFlags c; bCBWLUN c; bCBWCBLength c] ++ CBWCB c.
Definition csw_bytes (c : USBMSC_CSW_t) : list Z :=
  le_bytes 4 (dCSWSignature c) ++ le_bytes 4 (dCSWTag c) ++ le_bytes 4 (dCSWDataResidue c) ++
  [dCSWStatus c].
Definition parse_cbw (b : list Z) : option USBMSC_CBW_t :=
  sig ← GET_U32_LSBFIRST b; tag ← GET_U32_LSBFIRST (drop 4 b); n ← GET_U32_LSBFIRST (drop 8 b);
  f ← getb b 12; l ← getb b 13; k ← getb b 14; cb ← read_at b 15 16;
  Some {| dCBWSignature := sig; dCBWTag := tag; dCBWDataTransferLength := n; bmCBWFlags := f;
          bCBWLUN := l; bCBWCBLength := k; CBWCB := cb |}.

(** ** Data *)

(** A SCSI unit as its device sees it: its address, its stream, its parameter. *)
Record unit_t := { u_addr : Z; u_stream : Z; u_param : Z }.
Notation scsi_unit := (@vsfscsi_lun_t unit_t).

(** [struct vsfscsi_device_t]; [lun] is its array of units. *)
Record vsfscsi_device_t := { max_lun : Z; d_lun : list scsi_unit; d_transact : vsfscsi_transact_t }.

(** [struct vsfusbd_MSCBOT_param_t]: [b_transact] and [b_bufstream] are the
    addresses of its transfer and its stream.  While a command is awaited the
    stream works on the memory of [CBW]. *)
Record vsfusbd_MSCBOT_param_t := {
  ep_out : Z; ep_in : Z; scsi_dev : Z; CBW : USBMSC_CBW_t; CSW : USBMSC_CSW_t;
  b_transact : Z; b_bufstream : Z; transact_size : Z }.

(** The parameters and SCSI devices at their addresses, and the rest. *)
Record msc_world (R : Type) := {
  params : gmap Z vsfusbd_MSCBOT_param_t; scsis : gmap Z vsfscsi_device_t; mrest : R }.
Arguments params {R}. Arguments scsis {R}. Arguments mrest {R}.

Definition set_CBW (b : vsfusbd_MSCBOT_param_t) (c : USBMSC_CBW_t) : vsfusbd_MSCBOT_param_t :=
  {| ep_out := ep_out b; ep_in := ep_in b; scsi_dev := scsi_dev b; CBW := c; CSW := CSW b;
     b_transact := b_transact b; b_bufstream := b_bufstream b; transact_size := transact_size b |}.
Definition set_CSW (b : vsfusbd_MSCBOT_param_t) (c : USBMSC_CSW_t) : vsfusbd_MSCBOT_param_t :=
  {| ep_out := ep_out b; ep_in := ep_in b; scsi_dev := scsi_dev b; CBW := CBW b; CSW := c;
     b_transact := b_transact b; b_bufstream := b_bufstream b; transact_size := transact_size b |}.
Definition set_transact_size (b : vsfusbd_MSCBOT_param_t) (n : Z) : vsfusbd_MSCBOT_param_t :=
  {| ep_out := ep_out b; ep_in := ep_in b; scsi_dev := scsi_dev b; CBW := CBW b; CSW := CSW b;
     b_transact := b_transact b; b_bufstream := b_bufstream b; transact_size := n |}.
Definition set_status (b : vsfusbd_MSCBOT_param_t) (s : Z) : vsfusbd_MSCBOT_param_t :=
  set_CSW b {| dCSWSignature := dCSWSignature (CSW b); dCSWTag := dCSWTag (CSW b);
               dCSWDataResidue := dCSWDataResidue (CSW b); dCSWStatus := s |}.
Definition set_d_transact (d : vsfscsi_device_t) (t : vsfscsi_transact_t) : vsfscsi_device_t :=
  {| max_lun := max_lun d; d_lun := d_lun d; d_transact := t |}.

(** [CBW->bmCBWFlags & USBMSC_CBWFLAGS_DIR_MASK]. *)
Definition cbw_in (c : USBMSC_CBW_t) : bool :=
  Z.land (bmCBWFlags c) USBMSC_CBWFLAGS_DIR_MASK =? USBMSC_CBWFLAGS_DIR_IN.

Section bot.
Context {X P H R : Type} (xop : vsf_stream_op_t X P) (hw : vsfhal_usbd H).
Notation world := (uworld X H (msc_world R)).
Implicit Types (w : world) (b : vsfusbd_MSCBOT_param_t) (d : vsfscsi_device_t).

(** [op->execute] of the units, and the functions the core calls. *)
Context (op_execute : Z → option (scsi_unit → list Z → Z → Z → world → option (Z * world))).
Context (cls : usbd_class world).

Definition put_param w (p : Z) b : world :=
  set_urest w {| params := <[p := b]> (params (urest w)); scsis := scsis (urest w); mrest := mrest (urest w) |}.
Definition put_scsi w (a : Z) d : world :=
  set_urest w {| params := params (urest w); scsis := <[a := d]> (scsis (urest w)); mrest := mrest (urest w) |}.
Definition get_param w (p : Z) : option vsfusbd_MSCBOT_param_t := params (urest w) !! p.
(** [param->scsi_dev]. *)
Definition get_scsi w b : option vsfscsi_device_t := scsis (urest w) !! scsi_dev b.

(** [scsi_transact->lun->stream]. *)
Definition lun_stream d : option Z :=
  l ← find (λ l, u_addr (l_param l) =? tr_lun (d_transact d)) (d_lun d);
  Some (u_stream (l_param l)).

(** The buffer stream set up on [bytes], to be read or written. *)
Definition init_bufstream w (a : Z) (bytes : list Z) (n : Z) (read : bool) : option world :=
  s ← streams w !! a;
  let mem := Buf {| bbuf := {| buffer := bytes; size := n |}; bread := read;
                    pos := match smem s with Buf m => pos m | Mem _ => 0 end |} in
  snd <$> usb_stream_init xop a (put_stream w a (set_smem s mem)).

(** [param->transact] with endpoint, size, stream and [on_finish]; what else it
    holds, [zlp] among it, stays. *)
Definition set_transfer w (tp ep n stream fn p : Z) : option world :=
  t ← transacts w !! tp;
  Some (put_transact w tp (set_t_cb (set_t_stream (set_t_size (set_t_ep t ep) n) stream) fn p)).

(** ** The steps of a command *)

(** The residue of the status; an open SCSI transaction is closed. *)
Definition csw_residue b d : Z :=
  if tr_lun (d_transact d) =? NULL then dCBWDataTransferLength (CBW b)
  else u32 (dCBWDataTransferLength (CBW b) - data_size (d_transact d)).
Definition csw_close d : vsfscsi_device_t :=
  if tr_lun (d_transact d) =? NULL then d
  else set_d_transact d (vsfscsi_release_transact (d_transact d)).

Definition vsfusbd_MSCBOT_SendCSW (p : Z) w : option (Z * world) :=
  b ← get_param w p;
  d ← get_scsi w b;
  let csw := {| dCSWSignature := USBMSC_CSW_SIGNATURE; dCSWTag := dCBWTag (CBW b);
                dCSWDataResidue := csw_residue b d; dCSWStatus := dCSWStatus (CSW b) |} in
  let w := put_scsi w (scsi_dev b) (csw_close d) in
  let w := put_param w p (set_CSW b csw) in
  w ← init_bufstream w (b_bufstream b) (csw_bytes csw) USBMSC_CSW_SIZE true;
  w ← set_transfer w (b_transact b) (ep_in b) USBMSC_CSW_SIZE (b_bufstream b) MSCBOT_ON_IDLE_FN p;
  vsfusbd_ep_send xop hw cls (b_transact b) w.

Definition vsfusbd_MSCBOT_to_SendCSW (p : Z) w : option world :=
  snd <$> vsfusbd_MSCBOT_SendCSW p w.

Definition vsfusbd_MSCBOT_ErrHandler (p error : Z) w : option (Z * world) :=
  b ← get_param w p;
  d ← get_scsi w b;
  let b := set_status b error in
  let w := put_param w p b in
  if cbw_in (CBW b) && (0 <? dCBWDataTransferLength (CBW b)) then
    let w := if tr_lun (d_transact d) =? NULL then w
             else put_scsi w (scsi_dev b) (set_d_transact d (Vsfscsi.set_data_size (d_transact d) 0)) in
    w ← set_transfer w (b_transact b) (ep_in b) 0 NULL MSCBOT_TO_SENDCSW_FN p;
    vsfusbd_ep_send xop hw cls (b_transact b) w
  else
    '(_, w) ← vsfusbd_MSCBOT_SendCSW p w; Some (VSFERR_NONE, w).

(** What arrives is thrown away. *)
Definition vsfusbd_MSCBOT_dummy_inout (p : Z) w : option world :=
  b ← get_param w p;
  t ← transacts w !! b_transact b;
  n ← usb_data_size xop (t_stream t) w;
  '(_, w) ← usb_stream_read xop cls (t_stream t) n None w;
  Some w.

(** [send_remain]: [n] more bytes of the unit's stream, cut off from its writer. *)
Definition send_remain (p : Z) b d (n : Z) (zlp : option bool) w : option world :=
  t ← transacts w !! b_transact b;
  a ← lun_stream d;
  let t := set_t_stream (set_t_size t n) a in
  let t := match zlp with Some z => set_t_zlp t z | None => t end in
  s ← streams w !! a;
  let w := put_stream w a (set_tx s {| cb_param := cb_param (callback_tx s); Stream.on_inout := NULL;
                                       on_connect := NULL; on_disconnect := NULL |}) in
  let w := put_transact w (b_transact b) (set_t_cb t MSCBOT_TO_SENDCSW_FN (t_param t)) in
  snd <$> vsfusbd_ep_send xop hw cls (b_transact b) w.

(** The rest of the data the host sends is received and thrown away. *)
Definition recv_remain (p : Z) b (t : vsfusbd_transact_t) w : option world :=
  s ← streams w !! t_stream t;
  let w := put_stream w (t_stream t) (set_rx s {| cb_param := p;
    Stream.on_inout := MSCBOT_DUMMY_INOUT_FN; on_connect := NULL; on_disconnect := NULL |}) in
  let w := put_transact w (b_transact b) (set_t_cb t MSCBOT_TO_SENDCSW_FN (t_param t)) in
  snd <$> vsfusbd_ep_recv xop hw cls (b_transact b) w.

Definition vsfusbd_MSCBOT_on_data_finish (p : Z) w : option world :=
  b ← get_param w p;
  d ← get_scsi w b;
  t ← transacts w !! b_transact b;
  let b := if tr_err (d_transact d) =? 0 then b else set_status b USBMSC_CSW_FAIL in
  let w := put_param w p b in
  let more := data_size (d_transact d) <? dCBWDataTransferLength (CBW b) in
  if cbw_in (CBW b) then
    remain ← usb_data_size xop (t_stream t) w;
    if negb (remain =? 0) then send_remain p b d remain (Some more) w
    else if more && (Z.land (u32 (transact_size b - t_data_size t))
                       (ep_get_IN_epsize hw (ep_in b) (hal w) - 1) =? 0)
    then send_remain p b d 0 None w
    else vsfusbd_MSCBOT_to_SendCSW p w
  else if negb (t_data_size t =? 0) then recv_remain p b t w
  else vsfusbd_MSCBOT_to_SendCSW p w.

(** The next command is awaited. *)
Definition vsfusbd_MSCBOT_on_idle (p : Z) w : option world :=
  b ← get_param w p;
  w ← init_bufstream w (b_bufstream b) (cbw_bytes (CBW b)) USBMSC_CBW_SIZE false;
  w ← set_transfer w (b_transact b) (ep_out b) USBMSC_CBW_SIZE (b_bufstream b) MSCBOT_ON_CBW_FN p;
  snd <$> vsfusbd_ep_recv xop hw cls (b_transact b) w.

(** [reply_failure]. *)
Definition reply_failure (p : Z) w : option world :=
  snd <$> vsfusbd_MSCBOT_ErrHandler p USBMSC_CSW_FAIL w.

(** What the stream has written is the command block. *)
Definition load_CBW w b : option USBMSC_CBW_t :=
  s ← streams w !! b_bufstream b;
  match smem s with Buf m => parse_cbw (buffer (bbuf m)) | Mem _ => None end.

Definition cbw_valid (c : USBMSC_CBW_t) : bool :=
  (dCBWSignature c =? USBMSC_CBW_SIGNATURE) && negb (bCBWCBLength c <? 1) && negb (16 <? bCBWCBLength c).

(** The data stage of a command that has been accepted. *)
Definition data_stage (p : Z) w : option world :=
  b ← get_param w p;
  d ← get_scsi w b;
  if tr_lun (d_transact d) =? NULL then reply_failure p w
  else
    let n := if data_size (d_transact d) =? 0 then dCBWDataTransferLength (CBW b)
             else data_size (d_transact d) in
    let w := put_param w p (set_transact_size b n) in
    a ← lun_stream d;
    let ep := if cbw_in (CBW b) then ep_in b else ep_out b in
    w ← set_transfer w (b_transact b) ep n a MSCBOT_ON_DATA_FINISH_FN p;
    snd <$> (if cbw_in (CBW b) then vsfusbd_ep_send xop hw cls (b_transact b) w
             else vsfusbd_ep_recv xop hw cls (b_transact b) w).

(** The size and direction that the unit is told. *)
Definition exec_size (c : USBMSC_CBW_t) : Z :=
  Z.lor (u32 (Z.shiftl (Z.land (bmCBWFlags c) 0x80) 24)) (dCBWDataTransferLength c).

(** A valid command. *)
Definition run_cbw (p : Z) b w : option world :=
  d ← get_scsi w b;
  if max_lun d <? bCBWLUN (CBW b) then reply_failure p w
  else
    let w := put_param w p (set_status b USBMSC_CSW_OK) in
    l ← d_lun d !! Z.to_nat (bCBWLUN (CBW b));
    '(err, w) ← vsfscsi_execute op_execute l (CBWCB (CBW b)) (bCBWCBLength (CBW b)) (exec_size (CBW b)) w;
    if negb (err =? 0) then reply_failure p w
    else if negb (dCBWDataTransferLength (CBW b) =? 0) then data_stage p w
    else
      d ← get_scsi w b;
      let w := if tr_lun (d_transact d) =? NULL then w
               else put_scsi w (scsi_dev b) (set_d_transact d (vsfscsi_cancel_transact (d_transact d))) in
      snd <$> vsfusbd_MSCBOT_SendCSW p w.

Definition vsfusbd_MSCBOT_on_cbw (p : Z) w : option world :=
  b ← get_param w p;
  c ← load_CBW w b;
  let b := set_CBW b c in
  let w := put_param w p b in
  t ← transacts w !! b_transact b;
  if negb (t_data_size t =? 0) || negb (cbw_valid c) then vsfusbd_MSCBOT_on_idle p w
  else run_cbw p b w.

(** ** The class *)

(** [config->iface[iface].protocol_param]. *)
Definition iface_param (i : Z) w : option Z :=
  c ← the_config (dev w); f ← iface c !! Z.to_nat i; Some (protocol_param f).

Definition vsfusbd_MSCBOT_class_init (i : Z) w : option (Z * world) :=
  p ← iface_param i w; w ← vsfusbd_MSCBOT_on_idle p w; Some (VSFERR_NONE, w).

Definition vsfusbd_MSCBOT_request_prepare w : option (Z * world) :=
  let r := request (ctrl_handler (dev w)) in
  let i := u8 (wIndex r) in
  p ← iface_param i w;
  '(err, w) ←
    (if bRequest r =? USB_MSCBOTREQ_GET_MAX_LUN then
       if negb (wLength r =? 1) || negb (wValue r =? 0) then fail w
       else
         b ← get_param w p; d ← get_scsi w b;
         w ← put_ctrl_buffer w {| buffer := [max_lun d]; size := 1 |}; done w
     else if bRequest r =? USB_MSCBOTREQ_RESET then
       if negb (wLength r =? 0) || negb (wValue r =? 0) then fail w
       else
         b ← get_param w p;
         let '(err, w) := run_hals w [ep_reset_IN_toggle hw (ep_in b); ep_reset_OUT_toggle hw (ep_out b)] in
         if negb (err =? 0) then fail w
         else
           '(err, w) ← vsfusbd_MSCBOT_class_init i w;
           if negb (err =? 0) then fail w else done w
     else fail w);
  if negb (err =? 0) then Some (err, w)
  else n ← ctrl_buffer w; done (set_data_size w (size n)).

(** The functions of the class, next to those of the rest of the program. *)
Context (others : usbd_class world).

Definition msc_finish (f p : Z) w : option world :=
  if f =? MSCBOT_ON_IDLE_FN then vsfusbd_MSCBOT_on_idle p w
  else if f =? MSCBOT_ON_CBW_FN then vsfusbd_MSCBOT_on_cbw p w
  else if f =? MSCBOT_TO_SENDCSW_FN then vsfusbd_MSCBOT_to_SendCSW p w
  else if f =? MSCBOT_ON_DATA_FINISH_FN then vsfusbd_MSCBOT_on_data_finish p w
  else cl_finish others f p w.
Definition vsfusbd_MSCBOT_class : usbd_class world := {|
  cl_stream f p w := if f =? MSCBOT_DUMMY_INOUT_FN then vsfusbd_MSCBOT_dummy_inout p w
                     else cl_stream others f p w;
  cl_finish := msc_finish;
  cl_get_desc := cl_get_desc others;
  cl_request f w := if f =? MSCBOT_REQUEST_PREPARE_FN then vsfusbd_MSCBOT_request_prepare w
                    else cl_request others f w;
  cl_init f i w := if f =? MSCBOT_CLASS_INIT_FN then vsfusbd_MSCBOT_class_init i w
                   else cl_init others f i w;
  cl_config := cl_config others; cl_usr := cl_usr others; cl_handler := cl_handler others |}.
End bot.
