(* ===== verification/Mscexec.v ===== *)
(** * Mscexec: one status for each command of a mass-storage device

    A command without data, or whose data goes to the host, or that is refused,
    is followed from the packet that carries it to the next wait: the host gets
    the data, the packet that ends it early, and one status. *)

From S2P Require Import Prelude Chain Fifo Multibuf Endian Stream Vsfsm Vsfscsi Vsfusbd Usbctrl.
From S2P Require Import Usbxfer Usbrecv Mscbot.

(** ** Command blocks *)

Definition cbw_wf (c : USBMSC_CBW_t) : Prop :=
  fits 32 (dCBWSignature c) ∧ fits 32 (dCBWTag c) ∧ fits 32 (dCBWDataTransferLength c) ∧
  fits 8 (bmCBWFlags c) ∧ fits 8 (bCBWLUN c) ∧ fits 8 (bCBWCBLength c) ∧
  bytes (CBWCB c) ∧ length (CBWCB c) = 16%nat.

Lemma cbw_bytes_length c : length (CBWCB c) = 16%nat → length (cbw_bytes c) = 31%nat.
Proof. intros Hl. unfold cbw_bytes. rewrite !length_app, !le_bytes_length, Hl. done. Qed.

Lemma get_u32_bytes v l : fits 32 v → bytes l → GET_U32_LSBFIRST (le_bytes 4 v ++ l) = Some v.
Proof.
  intros Hv Hl. assert (Hok : codec_ok (Build_codec 4 GET_U32_LSBFIRST SET_U32_LSBFIRST id)).
  { by apply (Forall_lookup_1 _ codecs 6 _ codecs_ok). }
  etrans; [apply (get_ok _ Hok)|].
  - apply Forall_app. split; [apply le_bytes_bytes|done].
  - cbn [c_len]. rewrite length_app, le_bytes_length. lia.
  - cbn [c_len c_order]. unfold id. rewrite take_app_length' by (by rewrite le_bytes_length).
    f_equal. by apply le_value_bytes.
Qed.

Lemma parse_cbw_bytes c : cbw_wf c → parse_cbw (cbw_bytes c) = Some c.
Proof.
  intros (H1 & H2 & H3 & H4 & H5 & H6 & H7 & H8). unfold parse_cbw, cbw_bytes.
  assert (Hb : ∀ v, bytes (le_bytes 4 v)) by (intros; apply le_bytes_bytes).
  assert (Ht : bytes ([bmCBWFlags c; bCBWLUN c; bCBWCBLength c] ++ CBWCB c)).
  { apply Forall_app. split; [|done]. unfold fits in *. repeat (apply Forall_cons; split); [lia..|done]. }
  assert (Hd : ∀ v l, drop 4 (le_bytes 4 v ++ l) = l)
    by (intros; by rewrite drop_app_length' by by rewrite le_bytes_length).
  assert (Hm : ∀ v l, bytes l → bytes (le_bytes 4 v ++ l)) by (intros; apply Forall_app; split; [apply Hb|done]).
  rewrite get_u32_bytes by auto. bindr. rewrite Hd, get_u32_bytes by auto. bindr.
  assert (Hd8 : ∀ v v' l, drop 8 (le_bytes 4 v ++ le_bytes 4 v' ++ l) = l)
    by (intros; change 8%nat with (4 + 4)%nat; by rewrite <- drop_drop, !Hd).
  rewrite Hd8, get_u32_bytes by done. bindr.
  destruct c as [sig tag n f l k cb]. cbn [dCBWSignature dCBWTag dCBWDataTransferLength bmCBWFlags bCBWLUN
    bCBWCBLength CBWCB] in *.
  change (getb _ 12) with (Some f). change (getb _ 13) with (Some l). change (getb _ 14) with (Some k). bindr.
  rewrite read_at_in.
  - bindr. change (drop 15 _) with cb. by rewrite take_ge by lia.
  - rewrite !length_app, !le_bytes_length, H8. simpl. lia.
Qed.

(** The transport's own [on_finish] functions. *)
Definition bot_fns : list Z :=
  [MSCBOT_ON_IDLE_FN; MSCBOT_ON_CBW_FN; MSCBOT_TO_SENDCSW_FN; MSCBOT_ON_DATA_FINISH_FN].

(** ** A command from the wait before it to the wait after it *)

Section exec.
Context {X P H R : Type} {xop : vsf_stream_op_t X P} {hw : vsfhal_usbd H}.
Context `{Hhal : !UsbdHal hw} `{Hsrc : !Source xop}.
Notation world := (uworld X H (msc_world R)).
Implicit Types (w : world) (b : vsfusbd_MSCBOT_param_t) (d : vsfscsi_device_t) (c : USBMSC_CBW_t).

(** The program's other functions change nothing of the transport. *)
Definition bot_keep (r r' : msc_world R) : Prop := params r' = params r ∧ scsis r' = scsis r.
#[export] Instance bot_keep_preorder : PreOrder bot_keep.
Proof. split; [done|]. intros x y z [? ?] [? ?]. split; congruence. Qed.

Context (op_execute : Z → option (scsi_unit → list Z → Z → Z → world → option (Z * world))).
Context (cls below others : usbd_class world).
Hypothesis (Hq : quiet cls bot_keep) (Hqb : quiet below bot_keep).
Hypothesis Hfin : ∀ f p w,
  f ∈ bot_fns →
  cl_finish cls f p w = msc_finish xop hw op_execute below others f p w.

(** The parameter at [p], endpoints of [m] bytes. *)
Context (p : Z) (m : nat).

Record bot_params b : Prop := {
  bp_out : 0 ≤ ep_out b ≤ VSFUSBD_CFG_EPMAXNO; bp_in : 0 ≤ ep_in b ≤ VSFUSBD_CFG_EPMAXNO;
  bp_tp : b_transact b ≠ NULL; bp_bs : b_bufstream b ≠ NULL;
  bp_m : (31 < m ≤ VSFUSBD_TMPBUF)%nat; bp_cbw : length (CBWCB (CBW b)) = 16%nat }.

(** The buffer stream of the transport as a sink: the 31 bytes of a command. *)
Definition cbw_Sink : Sink (usb_op xop).
Proof.
  refine {| snk mm l k := ∃ mb, mm = Buf mb ∧ sink mb l (k + Z.of_nat (length l)) ∧ size (bbuf mb) = 31 |};
    cbn [op_get_avail_length op_write usb_op].
  - intros mm l k (mb & -> & Hs & _). exact (@snk_free _ _ bufstream_op buf_Sink mb l k Hs).
  - intros mm l k d (mb & -> & Hs & Hsz) Hd.
    destruct (@snk_write _ _ bufstream_op buf_Sink mb l k d Hs Hd) as (mb' & Hw & Hs'). rewrite Hw.
    exists (Buf mb'). split; [done|]. exists mb'. split; [done|]. split; [exact Hs'|].
    destruct Hs as (_ & H1 & H2 & _), Hs' as (_ & H3 & H4 & _). rewrite length_app in *. lia.
Defined.
#[local] Existing Instance cbw_Sink.

(** The transport's objects while no transfer of its own is open: [sent] are the
    packets the host has got so far. *)
Record settled b d (sent : list (list Z)) w : Prop := {
  se_param : params (urest w) !! p = Some b;
  se_scsi : scsis (urest w) !! scsi_dev b = Some d;
  se_transact : ∃ t, transacts w !! b_transact b = Some t ∧ t_zlp t = false;
  se_buf : ∃ s, streams w !! b_bufstream b = Some s ∧ foreign (on_connect (callback_tx s)) ∧
    foreign (on_connect (callback_rx s));
  se_in : in_size (view (hal w) (ep_in b)) = Z.of_nat m ∧ in_armed (view (hal w) (ep_in b)) = false ∧
    in_sent (view (hal w) (ep_in b)) = sent;
  se_out : out_size (view (hal w) (ep_out b)) = Z.of_nat m ∧ out_enabled (view (hal w) (ep_out b)) = false;
  se_tmp : length (tmpbuf (dev w)) = VSFUSBD_TMPBUF;
  se_evts : evts w = [] }.

(** A command is awaited. *)
Record waiting b d (sent : list (list Z)) w : Prop := {
  wa_param : params (urest w) !! p = Some b;
  wa_scsi : scsis (urest w) !! scsi_dev b = Some d;
  wa_closed : tr_lun (d_transact d) = NULL;
  wa_recv : receiving (xop := xop) (hw := hw) (ep_out b) (b_transact b) (b_bufstream b) MSCBOT_ON_CBW_FN p 31 m
    false [] [] [] false true w;
  wa_in : in_size (view (hal w) (ep_in b)) = Z.of_nat m ∧ in_armed (view (hal w) (ep_in b)) = false ∧
    in_sent (view (hal w) (ep_in b)) = sent;
  wa_evts : evts w = [] }.

Lemma init_bufstream_ok w a s bs n rd :
  streams w !! a = Some s →
  init_bufstream xop w a bs n rd = Some (put_stream w a {| callback_tx := callback_tx s;
    callback_rx := callback_rx s; tx_ready := false; rx_ready := false; overflow := false;
    smem := Buf {| bbuf := {| buffer := bs; size := n |}; bread := rd; pos := 0 |}; env := tt |}).
Proof.
  intros Hs. unfold init_bufstream, usb_stream_init. rewrite Hs. bindr. cbn [streams put_stream set_streams].
  rewrite lookup_insert_eq. bindr. cbn. unfold put_stream, set_streams. cbn. rewrite insert_insert_eq.
  unfold set_smem, set_flags. cbn. by destruct (env s).
Qed.

Lemma set_transfer_ok w tp t ep n st fn q :
  transacts w !! tp = Some t → set_transfer w tp ep n st fn q = Some (put_transact w tp
    {| t_ep := ep; t_data_size := n; t_stream := st; t_on_finish := fn; t_param := q; t_zlp := t_zlp t;
       t_idle := t_idle t |}).
Proof. intros Ht. unfold set_transfer. by rewrite Ht. Qed.

Lemma bot_in_params b n : bot_params b → (0 < n)%nat → Z.of_nat n < 4294967296 →
  in_params (ep_in b) (b_transact b) (b_bufstream b) n m.
Proof. intros [? ? ? ? ? ?] ? ?. split; done || lia. Qed.

Lemma out_params b : bot_params b → in_params (ep_out b) (b_transact b) (b_bufstream b) 31 m.
Proof. intros [? ? ? ? ? ?]. split; done || lia. Qed.

(** *** The wait *)

Lemma on_idle_ok b d sent w :
  bot_params b → settled b d sent w → tr_lun (d_transact d) = NULL →
  ∃ w', vsfusbd_MSCBOT_on_idle xop hw below p w = Some w' ∧ waiting b d sent w' ∧
    delete (b_bufstream b) (streams w') = delete (b_bufstream b) (streams w).
Proof.
  intros Hb [Hp Hd (t & Ht & Hz) (s & Hs & Hf1 & Hf2) Hin Hout Htmp Hev] Hcl.
  unfold vsfusbd_MSCBOT_on_idle, get_param. rewrite Hp. bindr.
  pose proof (cbw_bytes_length (CBW b) (bp_cbw _ Hb)) as Hl. revert Hl.
  generalize (cbw_bytes (CBW b)) as bs. intros bs Hl. rewrite (init_bufstream_ok _ _ s) by done. bindr.
  rewrite (set_transfer_ok _ _ t) by done. bindr.
  match goal with |- context [vsfusbd_ep_recv _ _ _ _ ?x] => set (w1 := x) end.
  destruct (ep_recv_ok (xop := xop) (hw := hw) below bot_keep Hqb (ep_out b) (b_transact b) (b_bufstream b)
    MSCBOT_ON_CBW_FN p 31 m false (out_params b Hb) [] w1) as (idle & w' & Hr & Hrc & Hfr & Hroom).
  - split; [| |exact Hout|exact Htmp].
    + exists (t_idle t). cbn. rewrite lookup_insert_eq, Hz. done.
    + eexists _, 31. cbn. rewrite lookup_insert_eq. split; [reflexivity|]. split; [by split|].
      split; [by right|]. split; [done|]. eexists. split; [reflexivity|].
      split; [|done].
      split; [done|]. cbn [bbuf buffer size pos length]. rewrite Hl. by split_and!.
  - lia.
  - assert (idle = false) as ->.
    { destruct idle; [|done]. exfalso. destruct (Hroom eq_refl) as [_ (s1 & l & k & Hs1 & Hk & Hlt)].
      cbn in Hs1. rewrite lookup_insert_eq in Hs1. injection Hs1 as <-.
      destruct Hk as (mb & [= <-] & (_ & H1 & H2 & _ & H3 & _) & _). cbn in H2, H3.
      unfold USBMSC_CBW_SIZE in H2. pose proof (bp_m _ Hb).
      change (so_far []) with 0%nat in Hlt. lia. }
    rewrite Hr. exists w'. split; [done|]. destruct Hfr as [_ _ Hst He _ Hh [Hk1 Hk2]]. split.
    + split; try done.
      * by rewrite Hk1.
      * by rewrite Hk2.
      * destruct (Hh (ep_in b)) as [_ Hi]. unfold in_half in Hi. injection Hi as H1 H2 H3 H4.
        cbn [hal w1 put_transact put_stream set_transacts set_streams] in *.
        by rewrite H1, H3, H4.
      * by rewrite He.
    + rewrite Hst. cbn. by rewrite delete_insert_eq.
Qed.
(** *** Transfers to the host *)

(** What a transfer of the stream at [q] has around it. *)
Record around b d (q : Z) w : Prop := {
  ar_param : params (urest w) !! p = Some b;
  ar_scsi : scsis (urest w) !! scsi_dev b = Some d;
  ar_buf : q ≠ b_bufstream b → ∃ s, streams w !! b_bufstream b = Some s ∧
    foreign (on_connect (callback_tx s)) ∧ foreign (on_connect (callback_rx s));
  ar_out : out_size (view (hal w) (ep_out b)) = Z.of_nat m ∧ out_enabled (view (hal w) (ep_out b)) = false }.

(** The packet is in the endpoint, or the host has just taken it. *)
Definition turned b (armed : bool) w : Prop := evts w = if armed then [] else [taken_evt (ep_in b)].

(** A transfer of [total] from the stream at [q], with [fn] as its [on_finish]. *)
Definition leg b d (fn q : Z) (total : list Z) (base ps : list (list Z)) (z armed : bool) w : Prop :=
  sending (xop := xop) (hw := hw) (ep_in b) (b_transact b) q fn p (length total) m false base total ps z
    false armed w ∧ around b d q w ∧ turned b armed w.

(** An empty packet, with or without a stream. *)
Record empty_leg b d (fn : Z) (sent : list (list Z)) (armed : bool) w : Prop := {
  el_transact : ∃ q i, transacts w !! b_transact b = Some {| t_ep := ep_in b; t_data_size := 0; t_stream := q;
    t_on_finish := fn; t_param := p; t_zlp := false; t_idle := i |} ∧
    (q = NULL ∨ (q ≠ b_bufstream b ∧ is_Some (streams w !! q)));
  el_bound : IN_transact (dev w) !! ep_in b = Some (b_transact b) ∧
    IN_handler (dev w) !! ep_in b = Some ON_IN_DO_FN;
  el_around : around b d NULL w;
  el_hal : in_size (view (hal w) (ep_in b)) = Z.of_nat m ∧ in_armed (view (hal w) (ep_in b)) = armed ∧
    in_sent (view (hal w) (ep_in b)) = sent;
  el_tmp : length (tmpbuf (dev w)) = VSFUSBD_TMPBUF;
  el_turned : turned b armed w }.

(** The frame of a transfer keeps what is around it. *)
Lemma in_frame_around b d q tp w w' :
  in_frame bot_keep (ep_in b) tp q w w' → around b d q w → around b d q w'.
Proof.
  intros [_ _ Hst _ _ Hh [Hk1 Hk2]] [Hp Hd Hb Ho]. split.
  - by rewrite Hk1.
  - by rewrite Hk2.
  - intros Hne. destruct (Hb Hne) as (s & Hs & Hf). exists s. split; [|done].
    by rewrite <- (lookup_delete_ne (streams w') q), Hst, lookup_delete_ne by done.
  - destruct (Hh (ep_out b)) as [_ H0]. unfold out_half in H0. injection H0 as H1 H2 H3. by rewrite H1, H2.
Qed.

Lemma settled_around b d sent q w : settled b d sent w → around b d q w.
Proof. intros [? ? ? ? ? ? ? ?]. by split. Qed.

(** [vsfusbd_ep_send] of the whole of a stream that is there. *)
Lemma send_leg b d fn q total sent w t s :
  bot_params b → settled b d sent w → total ≠ [] → Z.of_nat (length total) < 4294967296 → q ≠ NULL →
  transacts w !! b_transact b = Some t → t_ep t = ep_in b → t_data_size t = Z.of_nat (length total) →
  t_stream t = q → t_on_finish t = fn → t_param t = p → t_zlp t = false →
  streams w !! q = Some s → foreign_cb (tx_ready s) (callback_tx s) →
  src (op := usb_op xop) (smem s) total →
  ∃ ps z w', vsfusbd_ep_send xop hw below (b_transact b) w = Some (VSFERR_NONE, w') ∧
    leg b d fn q total sent ps z true w'.
Proof.
  intros Hb Hse Hne Hlt Hqn Ht H1 H2 H3 H4 H5 H6 Hs Hf Hl.
  assert (Hlen : length total ≠ 0%nat) by (by destruct total).
  assert (Hip : in_params (ep_in b) (b_transact b) q (length total) m).
  { destruct Hb as [? ? ? ? ? ?]. split; done || lia. }
  destruct (ep_send_ok (xop := xop) (hw := hw) below bot_keep Hqb (ep_in b) (b_transact b) q fn p
    (length total) m false sent Hip total w) as (ps & z & armed & w' & Hsend & Hfr & Hsd & Hw).
  - split; [| |apply (se_in _ _ _ _ Hse)|apply (se_tmp _ _ _ _ Hse)].
    + exists (t_idle t). rewrite Ht. destruct t. cbn in *. subst. done.
    + exists s. split_and!; try done; apply Hf || by right.
  - lia.
  - destruct armed; [|specialize (Hw eq_refl); lia]. exists ps, z, w'. split; [done|].
    split; [exact Hsd|]. split.
    + eapply in_frame_around; [exact Hfr|]. by eapply settled_around.
    + unfold turned. rewrite (if_evts _ _ _ _ _ _ Hfr). apply (se_evts _ _ _ _ Hse).
Qed.
(** An empty packet. *)
Lemma send_empty b d fn q sent w i :
  bot_params b → settled b d sent w →
  transacts w !! b_transact b = Some {| t_ep := ep_in b; t_data_size := 0; t_stream := q; t_on_finish := fn;
    t_param := p; t_zlp := false; t_idle := i |} →
  q = NULL ∨ (q ≠ b_bufstream b ∧ is_Some (streams w !! q)) →
  ∃ w', vsfusbd_ep_send xop hw below (b_transact b) w = Some (VSFERR_NONE, w') ∧
    empty_leg b d fn (sent ++ [[]]) true w'.
Proof.
  intros Hb [Hp Hd _ Hbuf (Hi1 & Hi2 & Hi3) Hout Htmp Hev] Ht Hqs. pose proof (bp_in _ Hb).
  unfold vsfusbd_ep_send. rewrite Ht. bindr. cbn [t_ep t_data_size].
  rewrite (proj2 (Z.ltb_ge _ _)) by lia. change (negb (0 =? 0)) with false. cbn match.
  unfold do_hal, run_hal. cbn [hal bind_IN put_transact set_transacts set_dev].
  destruct (ep_set_IN_count hw (ep_in b) 0 (hal w)) as [e h] eqn:Hh. cbn [snd].
  pose proof (hal_arm (ep_in b) 0 (hal w)) as Hv. rewrite Hh in Hv. cbn [snd] in Hv.
  eexists. split; [reflexivity|]. split; try done.
  - exists q, true. cbn. rewrite lookup_insert_eq. by split.
  - cbn. by rewrite !lookup_insert_eq.
  - split; try done. cbn. rewrite Hv by done. case_decide as He; [|done]. rewrite <- He. by cbn.
  - cbn. rewrite Hv, decide_True by done. cbn. rewrite Hi1, Hi3, take_0. done.
Qed.

(** *** The status *)

Definition csw_of b d : USBMSC_CSW_t :=
  {| dCSWSignature := USBMSC_CSW_SIGNATURE; dCSWTag := dCBWTag (CBW b); dCSWDataResidue := csw_residue b d;
     dCSWStatus := dCSWStatus (CSW b) |}.

Lemma csw_bytes_length k : length (csw_bytes k) = 13%nat.
Proof. unfold csw_bytes. by rewrite !length_app, !le_bytes_length. Qed.

(** Another record of the same parameter. *)
Definition same_object b b' : Prop :=
  ep_out b' = ep_out b ∧ ep_in b' = ep_in b ∧ scsi_dev b' = scsi_dev b ∧ b_transact b' = b_transact b ∧
  b_bufstream b' = b_bufstream b.

Lemma settled_param b b' d sent w :
  settled b d sent w → same_object b b' → settled b' d sent (put_param w p b').
Proof.
  intros [Hp Hd Ht Hs Hi Ho Hm He] (H1 & H2 & H3 & H4 & H5).
  split; rewrite ?H1, ?H2, ?H3, ?H4, ?H5; try done. cbn. by rewrite lookup_insert_eq.
Qed.
Lemma settled_scsi b d d' sent w : settled b d sent w → settled b d' sent (put_scsi w (scsi_dev b) d').
Proof. intros [Hp Hd Ht Hs Hi Ho Hm He]. split; try done. cbn. by rewrite lookup_insert_eq. Qed.

Lemma same_CBW b c : same_object b (set_CBW b c).
Proof. done. Qed.
Lemma params_same b b' : bot_params b → same_object b b' → CBW b' = CBW b → bot_params b'.
Proof.
  intros [? ? ? ? ? ?] (H1 & H2 & H3 & H4 & H5) Hc. split; by rewrite ?H1, ?H2, ?H3, ?H4, ?H5, ?Hc.
Qed.

(** The stream and the transfer set up for [send_leg]. *)
Lemma settled_put b d sent w s t :
  settled b d sent w → foreign (on_connect (callback_tx s)) → foreign (on_connect (callback_rx s)) →
  t_zlp t = false →
  settled b d sent (put_transact (put_stream w (b_bufstream b) s) (b_transact b) t).
Proof.
  intros [Hp Hd Ht Hs Hi Ho Hm He] H1 H2 Hz. split; try done.
  - exists t. cbn. by rewrite lookup_insert_eq.
  - exists s. cbn. by rewrite lookup_insert_eq.
Qed.

Lemma send_csw_ok b d sent w :
  bot_params b → settled b d sent w →
  let b' := set_CSW b (csw_of b d) in
  ∃ ps z w', vsfusbd_MSCBOT_SendCSW xop hw below p w = Some (VSFERR_NONE, w') ∧
    leg b' (csw_close d) MSCBOT_ON_IDLE_FN (b_bufstream b) (csw_bytes (csw_of b d)) sent ps z true w'.
Proof.
  intros Hb Hse b'. unfold vsfusbd_MSCBOT_SendCSW, get_param, get_scsi.
  rewrite (se_param _ _ _ _ Hse). bindr. rewrite (se_scsi _ _ _ _ Hse). bindr. fold (csw_of b d).
  pose proof (csw_bytes_length (csw_of b d)) as Hlen. revert Hlen.
  generalize (csw_bytes (csw_of b d)) as bs. intros bs Hlen.
  set (w1 := put_param _ _ _). assert (Hse1 : settled b' (csw_close d) sent w1).
  { apply (settled_param b); [by apply (settled_scsi b d)|done]. }
  destruct (se_transact _ _ _ _ Hse1) as (t & Ht & Hz). destruct (se_buf _ _ _ _ Hse1) as (s & Hs & Hf1 & Hf2).
  change (b_bufstream b') with (b_bufstream b) in Hs. change (b_transact b') with (b_transact b) in Ht.
  clearbody w1. rewrite (init_bufstream_ok _ _ s) by done. bindr.
  rewrite (set_transfer_ok _ _ t) by done. bindr.
  match goal with |- context [vsfusbd_ep_send _ _ _ _ ?x] => set (w2 := x) end.
  destruct (send_leg b' (csw_close d) MSCBOT_ON_IDLE_FN (b_bufstream b) bs sent w2
    {| t_ep := ep_in b; t_data_size := USBMSC_CSW_SIZE; t_stream := b_bufstream b;
       t_on_finish := MSCBOT_ON_IDLE_FN; t_param := p; t_zlp := t_zlp t; t_idle := t_idle t |}
    {| callback_tx := callback_tx s; callback_rx := callback_rx s; tx_ready := false; rx_ready := false;
       overflow := false; smem := Buf {| bbuf := {| buffer := bs; size := USBMSC_CSW_SIZE |};
       bread := true; pos := 0 |}; env := tt |}) as (ps & z & w' & Hsend & Hl); try done.
  - by eapply params_same.
  - by apply (settled_put b').
  - by destruct bs.
  - rewrite Hlen. lia.
  - apply Hb.
  - cbn. by rewrite lookup_insert_eq.
  - cbn. by rewrite Hlen.
  - cbn. by rewrite lookup_insert_eq.
  - cbn [smem]. unfold src, usb_Source. cbn. unfold source. cbn. rewrite Hlen. split_and!; try done.
    change (Z.to_nat USBMSC_CSW_SIZE) with 13%nat. by rewrite drop_0, take_ge by lia.
  - by exists ps, z, w'.
Qed.
(** *** The host takes packets *)

Lemma leg_params b fn q total base ps z armed d w :
  bot_params b → leg b d fn q total base ps z armed w → q ≠ NULL → Z.of_nat (length total) < 4294967296 →
  in_params (ep_in b) (b_transact b) q (length total) m.
Proof. intros [? ? ? ? ? ?] _ ? ?. split; done || lia. Qed.

Lemma around_hal b d q w h :
  around b d q w → (∀ e, out_half (view h e) = out_half (view (hal w) e)) → around b d q (set_hal w h).
Proof.
  intros [Hp Hd Hbuf Ho] Hh. split; try done. specialize (Hh (ep_out b)). unfold out_half in Hh.
  injection Hh as H1 H2 H3. cbn. by rewrite H1, H2.
Qed.

Lemma taken_half b w h :
  taken (ep_in b) (hal w) h → ∀ e, out_half (view h e) = out_half (view (hal w) e).
Proof. intros [_ Hv] e. rewrite Hv. case_decide; [by subst|done]. Qed.

Lemma leg_take b d fn q total base ps z w h :
  bot_params b → q ≠ NULL → Z.of_nat (length total) < 4294967296 →
  leg b d fn q total base ps z true w → taken (ep_in b) (hal w) h →
  leg b d fn q total base ps z false (vsfusbd_on_EVENT ON_IN (ep_in b) (set_hal w h)).
Proof.
  intros Hb Hqn Hlt Hleg Ht. pose proof (leg_params _ _ _ _ _ _ _ _ _ _ Hb Hleg Hqn Hlt) as Hip.
  destruct Hleg as (Hs & Ha & Htu). unfold turned in Htu.
  destruct (take_active (xop := xop) (ep_in b) (b_transact b) q fn p (length total) m false base
    total ps z false true w h) as (_ & _ & (Hs' & _) & _); [|done|].
  { split; [done|]. rewrite Htu. split; [constructor|done]. }
  split; [exact Hs'|]. split.
  - destruct (around_hal b d q w h Ha (taken_half b w h Ht)) as [? ? ? ?]. by split.
  - unfold turned. cbn. by rewrite Htu.
Qed.

(** The end of a transfer, and its [on_finish]. *)
Record finished b d (fn q : Z) (total : list Z) (base : list (list Z)) w (o : option world) w' : Prop := {
  fi_call : o = msc_finish xop hw op_execute below others fn p w';
  fi_sent : ∃ ps, complete m false total ps ∧ settled b d (base ++ ps) w';
  fi_transact : transacts w' !! b_transact b = Some (xfer (ep_in b) q fn p 0 false false);
  fi_stream : ∃ s, streams w' !! q = Some s ∧ src (op := usb_op xop) (smem s) [] ∧
    foreign (on_connect (callback_tx s)) }.

Lemma leg_poll b d fn q total base ps z w :
  bot_params b → q ≠ NULL → Z.of_nat (length total) < 4294967296 →
  fn ∈ bot_fns →
  leg b d fn q total base ps z false w →
  (∃ ps' z' w', usbd_poll xop hw cls w = Some w' ∧ leg b d fn q total base ps' z' true w' ∧
     (left (length total) ps' z' < left (length total) ps z)%nat) ∨
  (∃ w', finished b d fn q total base w (usbd_poll xop hw cls w) w').
Proof.
  intros Hb Hqn Hlt Hfn Hleg. pose proof (leg_params _ _ _ _ _ _ _ _ _ _ Hb Hleg Hqn Hlt) as Hip.
  destruct Hleg as (Hs & Ha & Htu). unfold turned in Htu. unfold usbd_poll. rewrite Htu.
  pose proof (sending_evts (xop := xop) _ _ _ _ _ _ _ _ _ _ _ _ _ _ _ [] Hs) as Hs1.
  assert (Ha1 : around b d q (set_evts w [])) by (by destruct Ha).
  unfold taken_evt. rewrite (evt_in (xop := xop) cls bot_keep Hq _ _ _ _ _ _ _ _ _ Hip VSFUSBD_INTEVT_IN
    _ _ _ _ _ _ Hs1) by by_decide. rewrite Z.eqb_refl. cbn [orb].
  destruct (turn_ok (xop := xop) cls bot_keep Hq _ _ _ _ _ _ _ _ _ Hip _ _ _ _ _ Hs1)
    as [(ps' & z' & armed' & w' & Hd & Hf & Hs' & Hm)|(w' & Hd & Hf & Hl)]; rewrite Hd.
  - left. destruct armed'; [|destruct Hm as (_ & _ & ?); lia]. exists ps', z', w'. split; [done|].
    split; [|done]. split; [exact Hs'|]. split; [by eapply in_frame_around|].
    unfold turned. by rewrite (if_evts _ _ _ _ _ _ Hf).
  - right. exists w'. pose proof (in_frame_around _ _ _ _ _ _ Hf Ha1) as [Hp' Hd' Hbuf Hout].
    destruct Hl as (_ & (Hi1 & Hi2 & Hi3) & (s & Hs' & Hrx & Htx & Hsrc') & Ht & ps' & Hsent & Hc & _).
    rewrite firstn_all in Hc. rewrite drop_all in Hsrc'. split.
    + unfold t_finish, xfer. cbn [t_on_finish t_param].
      rewrite (proj2 (Z.eqb_neq fn NULL)); [by apply Hfin|].
      intros ->. revert Hfn. by_decide.
    + exists ps'. split; [done|]. split; try done.
      * by eexists.
      * destruct (decide (q = b_bufstream b)) as [->|Hne]; [|by apply Hbuf].
        exists s. split; [done|]. split; [done|]. rewrite Hrx. by left.
      * by rewrite (if_evts _ _ _ _ _ _ Hf).
    + done.
    + by exists s.
Qed.
Lemma empty_take b d fn sent w h :
  empty_leg b d fn sent true w → taken (ep_in b) (hal w) h →
  empty_leg b d fn sent false (vsfusbd_on_EVENT ON_IN (ep_in b) (set_hal w h)).
Proof.
  intros [Ht Hb Ha Hh Htmp Htu] Htk. split; try done.
  - destruct (around_hal b d NULL w h Ha (taken_half b w h Htk)) as [? ? ? ?]. by split.
  - cbn. destruct Htk as [_ Hv]. rewrite Hv, decide_True by done. cbn. by destruct Hh as (? & _ & ?).
  - unfold turned in *. cbn. by rewrite Htu.
Qed.

(** The event of a packet taken, whatever the transfer has become. *)
Lemma evt_taken ep tp t w :
  0 ≤ ep ≤ VSFUSBD_CFG_EPMAXNO → tp ≠ NULL → transacts w !! tp = Some t →
  IN_transact (dev w) !! ep = Some tp → IN_handler (dev w) !! ep = Some ON_IN_DO_FN →
  vsfusbd_evt_handler xop hw cls (Z.lor VSFUSBD_INTEVT_IN ep) w = Usbxfer.turn (xop := xop) (hw := hw) cls ep w.
Proof.
  intros Hep Htp Ht Hb Hh.
  assert (Hbits : ep_evt_ok VSFUSBD_INTEVT_IN ep = true) by (apply ep_evt_bits; [by_decide|done]).
  unfold ep_evt_ok in Hbits. rewrite !andb_true_iff, !Z.eqb_eq in Hbits.
  destruct Hbits as [[[Hm1 Hm2] Hm3] Hplain].
  rewrite (plain_evt xop hw cls _ w Hplain). unfold transfer_evt. rewrite Hm1, Hm3.
  rewrite (proj2 (Z.ltb_ge _ _)) by lia.
  change (Z.land VSFUSBD_INTEVT_IN VSFUSBD_EVT_DIR_IN =? 0) with false. cbn match.
  rewrite (entry_bound _ _ _ Hb), (proj2 (Z.eqb_neq _ _)) by done.
  unfold stream_evt. rewrite Ht. bindr. rewrite Hm2.
  change (Z.land VSFUSBD_INTEVT_IN (-16)) with VSFUSBD_INTEVT_IN.
  change ((VSFUSBD_INTEVT_IN =? VSFUSBD_STREAM_CLOSE_IN) || (VSFUSBD_INTEVT_IN =? VSFUSBD_STREAM_IN)) with false.
  change (VSFUSBD_INTEVT_IN =? VSFUSBD_STREAM_CLOSE_OUT) with false.
  change (VSFUSBD_INTEVT_IN =? VSFUSBD_STREAM_OUT) with false. cbn match. bindr. rewrite Hm2.
  change (Z.land VSFUSBD_INTEVT_IN (-16) =? VSFUSBD_INTEVT_IN) with true. cbn match.
  unfold Usbxfer.turn. destruct (usr_cb_ok cls bot_keep Hq USREVT_IN ep w) as (r & -> & _). bindr.
  cbn [dev set_urest]. by rewrite (entry_bound _ _ _ Hh).
Qed.

Lemma empty_poll b d fn sent w :
  bot_params b → fn ∈ bot_fns → empty_leg b d fn sent false w →
  ∃ w', usbd_poll xop hw cls w = msc_finish xop hw op_execute below others fn p w' ∧ settled b d sent w'.
Proof.
  intros Hb Hfn [(q & i & Ht & Hqs) [Hbt Hbh] Ha Hh Htmp Htu]. unfold usbd_poll. unfold turned in Htu.
  rewrite Htu. unfold taken_evt.
  rewrite (evt_taken _ (b_transact b) _ (set_evts w []) (bp_in _ Hb) (bp_tp _ Hb) Ht) by done.
  unfold Usbxfer.turn.
  destruct (usr_cb_ok cls bot_keep Hq USREVT_IN (ep_in b) (set_evts w [])) as (r & -> & Hk1 & Hk2). bindr.
  unfold vsfusbd_on_IN_do. cbn [dev set_urest set_evts]. rewrite (entry_bound _ _ _ Hbt).
  cbn [transacts set_urest set_evts]. rewrite Ht. bindr. cbn [t_data_size t_zlp].
  change (negb (0 =? 0)) with false. cbn match. unfold vsfusbd_ep_cancel_send.
  cbn [transacts set_urest set_evts]. rewrite Ht. bindr. cbn [t_stream t_ep].
  pose proof (bp_in _ Hb). rewrite (proj2 (Z.leb_le _ _)) by lia.
  set (w1 := set_urest (set_evts w []) r).
  assert (Hfnn : fn ≠ NULL) by (intros ->; revert Hfn; by_decide).
  assert (Hcall : ∀ w2, (snd <$> (w ← t_finish cls {| t_ep := ep_in b; t_data_size := 0; t_stream := q;
      t_on_finish := fn; t_param := p; t_zlp := false; t_idle := i |} w2; Some (VSFERR_NONE, w)))
    = msc_finish xop hw op_execute below others fn p w2).
  { intros w2. unfold t_finish. cbn [t_on_finish t_param]. rewrite (proj2 (Z.eqb_neq _ _)), Hfin by done.
    by destruct (msc_finish _ _ _ _ _ _ _ _). }
  destruct Ha as [Hp Hd Hbuf Hout].
  assert (Hset : ∀ st, delete q st = delete q (streams w) → (q = NULL → st = streams w) →
    settled b d sent (bind_IN (set_streams w1 st) (ep_in b) NULL NULL)).
  { intros st Hst Hst0. split; try done.
    - cbn. cbn in Hk1. by rewrite Hk1.
    - cbn. cbn in Hk2. by rewrite Hk2.
    - by eexists.
    - destruct Hbuf as (s & Hs & Hf); [apply not_eq_sym, Hb|]. exists s. split; [|done]. cbn.
      destruct Hqs as [->|[Hne _]]; [by rewrite Hst0|].
      by rewrite <- (lookup_delete_ne st q), Hst, lookup_delete_ne by done. }
  unfold mute_rx. destruct Hqs as [->|[Hne [s Hs]]].
  - rewrite Z.eqb_refl. bindr. eexists. rewrite Hcall. split; [reflexivity|].
    specialize (Hset (streams w) eq_refl (λ _, eq_refl)). exact Hset.
  - destruct (Z.eqb_spec q NULL) as [->|Hqn].
    + bindr. eexists. rewrite Hcall. split; [reflexivity|]. apply (Hset (streams w) eq_refl (λ _, eq_refl)).
    + cbn [streams w1 set_urest set_evts]. rewrite Hs. bindr. eexists. rewrite Hcall. split; [reflexivity|].
      apply Hset; [|done]. by rewrite delete_insert_eq.
Qed.
(** *** Schedules

    The state machine dispatches its events, the host takes packets. *)

Inductive bot_step (ei : Z) : world → world → Prop :=
  | bot_poll w w' : evts w ≠ [] → usbd_poll xop hw cls w = Some w' → bot_step ei w w'
  | bot_take w h : taken (ei) (hal w) h →
      bot_step ei w (vsfusbd_on_EVENT ON_IN (ei) (set_hal w h)).

(** Nothing to dispatch and nothing to take. *)
Definition quiescent (ei : Z) w : Prop := evts w = [] ∧ in_armed (view (hal w) (ei)) = false.

(** Every schedule comes to [fin] within [n] steps and none faults. *)
Inductive settles (ei : Z) (fin : world → Prop) : nat → world → Prop :=
  | settles_end n w : fin w → quiescent ei w → settles ei fin n w
  | settles_take n w : evts w = [] →
      (∀ h, taken (ei) (hal w) h →
         settles ei fin n (vsfusbd_on_EVENT ON_IN (ei) (set_hal w h))) →
      in_armed (view (hal w) (ei)) = true → settles ei fin (S n) w
  | settles_poll n w w' : evts w ≠ [] → in_armed (view (hal w) (ei)) = false →
      usbd_poll xop hw cls w = Some w' → settles ei fin n w' → settles ei fin (S n) w.

Lemma settles_step ei fin n w w' : settles ei fin n w → bot_step ei w w' → ∃ n', n = S n' ∧ settles ei fin n' w'.
Proof.
  intros Hs Hst. destruct Hs as [n w Hf [He Ha]|n w He Ht Ha|n w w1 He Ha Hp Hs].
  - exfalso. destruct Hst as [w w' ? ?|w h [? _]]; congruence.
  - exists n. split; [done|]. destruct Hst as [w w' ? ?|w h ?]; [done|by apply Ht].
  - exists n. split; [done|]. destruct Hst as [w w' _ Hp'|w h [? _]]; congruence.
Qed.

Lemma settles_run ei fin n w :
  settles ei fin n w →
  (∀ k w', nsteps (bot_step ei) k w w' → (k ≤ n)%nat) ∧
  ∀ w', rtc (bot_step ei) w w' →
    (evts w' ≠ [] → is_Some (usbd_poll xop hw cls w')) ∧ (quiescent ei w' → fin w').
Proof.
  intros Hs. split.
  - intros k w' Hk. revert n Hs. induction Hk as [w|k w w1 w2 H1 _ IH]; intros n Hs; [lia|].
    destruct (settles_step _ _ _ _ _ Hs H1) as (n' & -> & Hs'). specialize (IH _ Hs'). lia.
  - intros w' Hr. revert n Hs. induction Hr as [w|w w1 w2 H1 _ IH]; intros n Hs.
    + destruct Hs as [n w Hf [He Ha]|n w He Ht Ha|n w w1 He Ha Hp Hs].
      * by split.
      * split; [done|]. intros [_ ?]. congruence.
      * split; [by eexists|]. intros [? _]. done.
    + destruct (settles_step _ _ _ _ _ Hs H1) as (n' & -> & Hs'). by eapply IH.
Qed.

Lemma settles_le ei fin n n' w : settles ei fin n w → (n ≤ n')%nat → settles ei fin n' w.
Proof.
  intros Hs. revert n'. induction Hs as [n w Hf Hq'|n w He Ht IH Ha|n w w1 He Ha Hp Hs IH]; intros n' Hle.
  - by apply settles_end.
  - destruct n' as [|n']; [lia|]. apply settles_take; [done| |done]. intros h Hh. apply IH; [done|lia].
  - destruct n' as [|n']; [lia|]. apply (settles_poll ei fin n' w w1); try done. apply IH. lia.
Qed.

(** A transfer settles if what [on_finish] does settles. *)
Lemma leg_settles b d fn q total base fin n :
  bot_params b → q ≠ NULL → Z.of_nat (length total) < 4294967296 → fn ∈ bot_fns →
  (∀ w o w', finished b d fn q total base w o w' → ∃ w2, o = Some w2 ∧ settles (ep_in b) fin n w2) →
  ∀ ps z w, leg b d fn q total base ps z true w →
    settles (ep_in b) fin (n + 2 * left (length total) ps z + 2) w.
Proof.
  intros Hb Hqn Hlt Hfn Hend ps z. remember (left (length total) ps z) as k eqn:Hk. revert ps z Hk.
  induction k as [k IH] using lt_wf_ind. intros ps z -> w Hleg.
  pose proof Hleg as (Hs & _ & Htu).
  replace (n + 2 * left (length total) ps z + 2)%nat with (S (S (n + 2 * left (length total) ps z))) by lia.
  apply settles_take; [exact Htu| |apply (sd_hal _ _ _ _ _ _ _ _ _ _ _ _ _ _ _ Hs)].
  intros h Hh. pose proof (leg_take _ _ _ _ _ _ _ _ _ _ Hb Hqn Hlt Hleg Hh) as Hleg'.
  set (w1 := vsfusbd_on_EVENT _ _ _) in *. pose proof Hleg' as (Hs' & _ & Htu').
  assert (He : evts w1 ≠ []) by (by rewrite Htu').
  assert (Ha : in_armed (view (hal w1) (ep_in b)) = false)
    by apply (sd_hal _ _ _ _ _ _ _ _ _ _ _ _ _ _ _ Hs').
  destruct (leg_poll _ _ _ _ _ _ _ _ _ Hb Hqn Hlt Hfn Hleg') as [(ps' & z' & w' & Hp & Hl & Hm)|(w' & Hf)].
  - apply (settles_poll (ep_in b) fin _ w1 w'); try done.
    eapply settles_le; [by eapply (IH _ Hm ps' z' eq_refl)|]. lia.
  - destruct (Hend _ _ _ Hf) as (w2 & Ho & Hs2). apply (settles_poll (ep_in b) fin _ w1 w2); try done.
    eapply settles_le; [exact Hs2|]. lia.
Qed.

Lemma empty_settles b d fn sent fin n :
  bot_params b → fn ∈ bot_fns →
  (∀ w', settled b d sent w' →
     ∃ w2, msc_finish xop hw op_execute below others fn p w' = Some w2 ∧ settles (ep_in b) fin n w2) →
  ∀ w, empty_leg b d fn sent true w → settles (ep_in b) fin (n + 2) w.
Proof.
  intros Hb Hfn Hend w Hel. rewrite Nat.add_comm. cbn [Nat.add].
  apply settles_take; [exact (el_turned _ _ _ _ _ _ Hel)| |apply (el_hal _ _ _ _ _ _ Hel)].
  intros h Hh. pose proof (empty_take _ _ _ _ _ _ Hel Hh) as Hel'.
  destruct (empty_poll _ _ _ _ _ Hb Hfn Hel') as (w' & Hp & Hse).
  destruct (Hend w' Hse) as (w2 & Hf & Hs2). rewrite Hf in Hp.
  refine (settles_poll (ep_in b) fin _ _ w2 _ _ Hp Hs2).
  - by rewrite (el_turned _ _ _ _ _ _ Hel').
  - apply (el_hal _ _ _ _ _ _ Hel').
Qed.
(** *** The end of a command *)

Lemma complete_single l ps : l ≠ [] → (length l ≤ m)%nat → (0 < m)%nat → complete m false l ps → ps = [l].
Proof.
  intros Hne Hl Hm [Hc (pre & q & -> & Hf & Hlq)]. destruct pre as [|x pre].
  - cbn in *. by rewrite app_nil_r in Hc; subst.
  - apply Forall_cons in Hf as [Hx _]. apply (f_equal length) in Hc. cbn in Hc.
    rewrite length_app, concat_app, length_app in Hc. cbn in Hc. rewrite app_nil_r in Hc. lia.
Qed.

(** The status is sent and the next command is awaited. *)
Definition answered b d (sent : list (list Z)) w : Prop :=
  waiting (set_CSW b (csw_of b d)) (csw_close d) (sent ++ [csw_bytes (csw_of b d)]) w.

Lemma csw_close_closed d : tr_lun (d_transact (csw_close d)) = NULL.
Proof. unfold csw_close. destruct (Z.eqb_spec (tr_lun (d_transact d)) NULL); done. Qed.

Lemma waiting_quiescent b d sent w : waiting b d sent w → quiescent (ep_in b) w.
Proof. intros Hw. split; [apply (wa_evts _ _ _ _ Hw)|apply (wa_in _ _ _ _ Hw)]. Qed.

Lemma csw_settles b d sent w :
  bot_params b → settled b d sent w →
  ∃ w2, vsfusbd_MSCBOT_SendCSW xop hw below p w = Some (VSFERR_NONE, w2) ∧
    settles (ep_in b) (answered b d sent) 30 w2.
Proof.
  intros Hb Hse. destruct (send_csw_ok b d sent w Hb Hse) as (ps & z & w2 & Hsend & Hleg).
  exists w2. split; [exact Hsend|]. set (b' := set_CSW b (csw_of b d)) in *.
  assert (Hb' : bot_params b') by by eapply params_same.
  pose proof (csw_bytes_length (csw_of b d)) as Hlen.
  eapply (settles_le _ _ (0 + 2 * left 13 ps z + 2)); [|unfold left; destruct z; lia].
  rewrite <- Hlen. refine (leg_settles b' (csw_close d) MSCBOT_ON_IDLE_FN (b_bufstream b)
    (csw_bytes (csw_of b d)) sent (answered b d sent) 0 Hb' (bp_bs _ Hb) _ _ _ ps z w2 Hleg); [lia|by_decide|].
  intros w1 o w' [Hcall (ps' & Hc & Hse') _ _]. rewrite Hcall.
  assert (ps' = [csw_bytes (csw_of b d)]) as ->.
  { apply complete_single; [|rewrite Hlen; pose proof (bp_m _ Hb); lia|pose proof (bp_m _ Hb); lia|done].
    intros He. by rewrite He in Hlen. }
  destruct (on_idle_ok b' (csw_close d) _ w' Hb' Hse' (csw_close_closed d)) as (w3 & Hi & Hwa & _).
  exists w3. split; [exact Hi|]. apply settles_end; [exact Hwa|]. apply (waiting_quiescent _ _ _ _ Hwa).
Qed.

Lemma to_csw_settles b d sent w :
  bot_params b → settled b d sent w →
  ∃ w2, vsfusbd_MSCBOT_to_SendCSW xop hw below p w = Some w2 ∧ settles (ep_in b) (answered b d sent) 30 w2.
Proof.
  intros Hb Hse. destruct (csw_settles b d sent w Hb Hse) as (w2 & Hs & Hst).
  exists w2. unfold vsfusbd_MSCBOT_to_SendCSW. by rewrite Hs.
Qed.

(** A command that fails: the host gets an empty packet in place of the data it
    asked for. *)
Definition no_data (c : USBMSC_CBW_t) : list (list Z) :=
  if cbw_in c && (0 <? dCBWDataTransferLength c) then [[]] else [].

Lemma failure_settles b d sent w :
  bot_params b → settled b d sent w → tr_lun (d_transact d) = NULL →
  let b1 := set_status b USBMSC_CSW_FAIL in
  ∃ w2, reply_failure xop hw below p w = Some w2 ∧
    settles (ep_in b) (answered b1 d (sent ++ no_data (CBW b))) 32 w2.
Proof.
  intros Hb Hse Hcl b1. unfold reply_failure, vsfusbd_MSCBOT_ErrHandler, get_param, get_scsi.
  rewrite (se_param _ _ _ _ Hse). bindr. rewrite (se_scsi _ _ _ _ Hse). bindr. fold b1.
  assert (Hb1 : bot_params b1) by by eapply params_same.
  assert (Hse1 : settled b1 d sent (put_param w p b1)) by by eapply settled_param.
  unfold no_data. change (CBW b1) with (CBW b).
  destruct (cbw_in (CBW b) && (0 <? dCBWDataTransferLength (CBW b))).
  - rewrite Hcl, Z.eqb_refl. destruct (se_transact _ _ _ _ Hse1) as (t & Ht & Hz).
    change (b_transact b1) with (b_transact b) in *. rewrite (set_transfer_ok _ _ t) by done. bindr.
    match goal with |- context [vsfusbd_ep_send _ _ _ _ ?x] => set (w1 := x) end.
    destruct (send_empty b1 d MSCBOT_TO_SENDCSW_FN NULL sent w1 (t_idle t) Hb1) as (w2 & Hs & Hel).
    + destruct Hse1 as [Hp Hd _ Hbuf Hi Ho Htmp He]. split; try done. eexists. cbn.
      rewrite lookup_insert_eq. by split.
    + cbn. by rewrite lookup_insert_eq, Hz.
    + by left.
    + change (b_transact b1) with (b_transact b) in Hs. change (ep_in b1) with (ep_in b).
      rewrite Hs. bindr. exists w2. split; [done|].
      refine (empty_settles b1 d _ _ _ 30 Hb1 _ _ w2 Hel); [by_decide|]. intros w' Hw'.
      apply (to_csw_settles b1 d _ w' Hb1 Hw').
  - rewrite app_nil_r. destruct (csw_settles b1 d sent _ Hb1 Hse1) as (w2 & Hs & Hst). rewrite Hs. bindr.
    exists w2. split; [done|]. eapply settles_le; [exact Hst|lia].
Qed.
Lemma settles_weaken ei (f g : world → Prop) n w : (∀ w, f w → g w) → settles ei f n w → settles ei g n w.
Proof.
  intros Hfg. induction 1 as [n w Hf Hq'|n w He Ht IH Ha|n w w1 He Ha Hp Hs IH].
  - apply settles_end; auto.
  - by apply settles_take.
  - by apply (settles_poll ei g n w w1).
Qed.

Lemma settled_put_other b d sent w q s t :
  settled b d sent w → q ≠ b_bufstream b → t_zlp t = false →
  settled b d sent (put_transact (put_stream w q s) (b_transact b) t).
Proof.
  intros [Hp Hd Ht (s0 & Hs & Hf) Hi Ho Hm He] Hne Hz. split; try done.
  - exists t. cbn. by rewrite lookup_insert_eq.
  - exists s0. cbn. by rewrite lookup_insert_ne.
Qed.

(** *** Data to the host *)

(** The command has been accepted, its answer [data] is in the stream at [sx]. *)
Record opened b d (sx : Z) (data : list Z) : Prop := {
  op_lun : tr_lun (d_transact d) ≠ NULL; op_err : tr_err (d_transact d) = 0;
  op_size : data_size (d_transact d) = Z.of_nat (length data); op_stream : lun_stream d = Some sx;
  op_data : data ≠ [] ∧ Z.of_nat (length data) ≤ dCBWDataTransferLength (CBW b);
  op_len : dCBWDataTransferLength (CBW b) < 4294967296;
  op_sx : sx ≠ NULL ∧ sx ≠ b_bufstream b }.

(** The packet that ends data which is shorter than the host asked for. *)
Definition short_end (c : USBMSC_CBW_t) (data : list Z) : list (list Z) :=
  if (Z.of_nat (length data) <? dCBWDataTransferLength c) && (length data mod m =? 0)%nat then [[]] else [].

Context (Hpow : ∃ k, m = (2 ^ k)%nat).

Lemma packet_mask n : Z.land (Z.of_nat n) (Z.of_nat m - 1) = Z.of_nat (n mod m).
Proof.
  destruct Hpow as [k Hk]. rewrite Hk. rewrite Nat2Z.inj_pow. change (Z.of_nat 2) with 2.
  replace (2 ^ Z.of_nat k - 1) with (Z.ones (Z.of_nat k)) by (rewrite Z.ones_equiv; lia).
  rewrite Z.land_ones, Nat2Z.inj_mod, Nat2Z.inj_pow by lia. done.
Qed.

Lemma data_settles b d sx data base w o w' :
  bot_params b → opened b d sx data → cbw_in (CBW b) = true → transact_size b = Z.of_nat (length data) →
  finished b d MSCBOT_ON_DATA_FINISH_FN sx data base w o w' →
  ∃ w2, o = Some w2 ∧ settles (ep_in b) (λ w, ∃ ps, complete m false data ps ∧
    answered b d (base ++ ps ++ short_end (CBW b) data) w) 32 w2.
Proof.
  intros Hb [Hlun Herr Hsize Hstr [Hne Hle] Hlen [Hsx1 Hsx2]] Hin Hts
    [Hcall (ps & Hc & Hse) Ht (s & Hs & Hl & Hf)].
  rewrite Hcall. change (msc_finish xop hw op_execute below others MSCBOT_ON_DATA_FINISH_FN p w')
    with (vsfusbd_MSCBOT_on_data_finish xop hw below p w').
  unfold vsfusbd_MSCBOT_on_data_finish, get_param, get_scsi.
  rewrite (se_param _ _ _ _ Hse). bindr. rewrite (se_scsi _ _ _ _ Hse). bindr. rewrite Ht. bindr.
  rewrite Herr. change (0 =? 0) with true. cbn match. rewrite Hin, Hsize, Hts. cbn [t_stream t_data_size xfer].
  assert (Hse1 : settled b d (base ++ ps) (put_param w' p b)) by by eapply settled_param.
  unfold usb_data_size. cbn [streams put_param set_urest]. rewrite Hs. bindr.
  unfold stream_get_data_size. rewrite (src_length _ _ Hl). change (negb (Z.of_nat (length []) =? 0)) with false.
  cbn match. destruct (se_in _ _ _ _ Hse1) as [Hsz _]. rewrite hal_IN_epsize, Hsz.
  change (Z.of_nat (length data) - Z.of_nat 0) with (Z.of_nat (length data) - 0).
  rewrite Z.sub_0_r, u32_small, packet_mask by lia.
  unfold short_end. replace (Z.of_nat (length data mod m) =? 0) with (length data mod m =? 0)%nat
    by (destruct (Nat.eqb_spec (length data mod m) 0), (Z.eqb_spec (Z.of_nat (length data mod m)) 0); lia || done).
  destruct ((_ <? _) && (_ =? 0)%nat).
  - unfold send_remain. cbn [transacts streams put_param set_urest]. rewrite Ht. bindr. rewrite Hstr. bindr.
    cbn [streams put_param set_urest]. rewrite Hs. bindr.
    match goal with |- context [vsfusbd_ep_send _ _ _ _ ?x] => set (w1 := x) end.
    destruct (send_empty b d MSCBOT_TO_SENDCSW_FN sx (base ++ ps) w1 false Hb) as (w2 & Hsend & Hel).
    + by apply settled_put_other.
    + cbn. by rewrite lookup_insert_eq.
    + right. split; [done|]. cbn. by rewrite lookup_insert_eq.
    + rewrite Hsend. bindr. exists w2. split; [done|].
      refine (empty_settles b d _ _ _ 30 Hb _ _ w2 Hel); [by_decide|]. intros w3 Hw3.
      destruct (to_csw_settles b d _ w3 Hb Hw3) as (w4 & Hto & Hst). exists w4. split; [exact Hto|].
      eapply settles_weaken; [|exact Hst]. intros w5 Hw5. exists ps. split; [done|]. by rewrite app_assoc.
  - destruct (to_csw_settles b d _ _ Hb Hse1) as (w4 & Hto & Hst). exists w4. split; [exact Hto|].
    eapply settles_le; [|instantiate (1 := 30%nat); lia]. eapply settles_weaken; [|exact Hst].
    intros w5 Hw5. exists ps. split; [done|]. by rewrite app_nil_r.
Qed.
Lemma opened_size b d sx data n : opened b d sx data → opened (set_transact_size b n) d sx data.
Proof. intros [? ? ? ? ? ? ?]. by split. Qed.

Lemma data_stage_settles b d sent sx data w s :
  bot_params b → settled b d sent w → opened b d sx data → cbw_in (CBW b) = true →
  streams w !! sx = Some s → foreign_cb (tx_ready s) (callback_tx s) →
  src (op := usb_op xop) (smem s) data →
  let b1 := set_transact_size b (Z.of_nat (length data)) in
  ∃ n w2, data_stage xop hw below p w = Some w2 ∧ settles (ep_in b) (λ w, ∃ ps, complete m false data ps ∧
    answered b1 d (sent ++ ps ++ short_end (CBW b) data) w) n w2.
Proof.
  intros Hb Hse Hop Hin Hs Hf Hl b1. pose proof Hop as [Hlun Herr Hsize Hstr [Hne Hle] Hlen [Hsx1 Hsx2]].
  assert (Hdl : length data ≠ 0%nat) by (by destruct data).
  unfold data_stage, get_param, get_scsi.
  rewrite (se_param _ _ _ _ Hse). bindr. rewrite (se_scsi _ _ _ _ Hse). bindr.
  rewrite !(proj2 (Z.eqb_neq _ _)) by (done || lia). rewrite Hstr, Hsize, Hin. bindr. fold b1.
  assert (Hb1 : bot_params b1) by by eapply params_same.
  assert (Hse1 : settled b1 d sent (put_param w p b1)) by by eapply settled_param.
  destruct (se_transact _ _ _ _ Hse1) as (t & Ht & Hz). change (b_transact b1) with (b_transact b) in Ht.
  rewrite (set_transfer_ok _ _ t) by done. bindr.
  match goal with |- context [vsfusbd_ep_send _ _ _ _ ?x] => set (w1 := x) end.
  destruct (send_leg b1 d MSCBOT_ON_DATA_FINISH_FN sx data sent w1 {| t_ep := ep_in b;
    t_data_size := Z.of_nat (length data); t_stream := sx; t_on_finish := MSCBOT_ON_DATA_FINISH_FN;
    t_param := p; t_zlp := t_zlp t; t_idle := t_idle t |} s) as (ps & z & w2 & Hsend & Hleg); try done.
  - destruct Hse1 as [Hp Hd _ Hbuf Hi Ho Hm He]. split; try done. eexists. cbn. by rewrite lookup_insert_eq.
  - lia.
  - cbn. by rewrite lookup_insert_eq.
  - change (b_transact b1) with (b_transact b) in Hsend. rewrite Hsend. bindr.
    eexists _, w2. split; [done|].
    refine (leg_settles b1 d MSCBOT_ON_DATA_FINISH_FN sx data sent _ 32 Hb1 Hsx1 _ _ _ ps z w2 Hleg); [lia|by_decide|].
    intros w3 o w' Hfi. refine (data_settles b1 d sx data sent w3 o w' Hb1 _ Hin _ Hfi).
    + by apply opened_size.
    + done.
Qed.

(** *** What a unit promises *)

(** The bytes that are to move to the host: none without a data stage. *)
Definition answer_bytes c (ans : option (list Z)) : list Z :=
  if dCBWDataTransferLength c =? 0 then [] else default [] ans.
Definition succeeded c (ans : option (list Z)) : bool :=
  match ans with
  | Some l => (dCBWDataTransferLength c =? 0) || negb (bool_decide (l = []))
  | None => false
  end.

(** The packets of the data stage and the status that follows. *)
Definition reply_packets c (ans : option (list Z)) (ps : list (list Z)) : Prop :=
  match answer_bytes c ans with
  | [] => ps = no_data c
  | l => ∃ qs, complete m false l qs ∧ ps = qs ++ short_end c l
  end.
Definition reply_csw c (ans : option (list Z)) : USBMSC_CSW_t :=
  {| dCSWSignature := USBMSC_CSW_SIGNATURE; dCSWTag := dCBWTag c;
     dCSWDataResidue := dCBWDataTransferLength c - Z.of_nat (length (answer_bytes c ans));
     dCSWStatus := if succeeded c ans then USBMSC_CSW_OK else USBMSC_CSW_FAIL |}.

(** [ans] is what the units answer to the command in [b], while the streams
    other than the transport's are [rs]: a failure that opens no transaction,
    nothing, or bytes in a stream of their own. *)
Definition executes b d (rs : gmap Z (ustream X)) (ans : option (list Z)) : Prop := ∀ sent w,
  settled b d sent w → delete (b_bufstream b) (streams w) = rs →
  ∃ l err w' d', d_lun d !! Z.to_nat (bCBWLUN (CBW b)) = Some l ∧
    vsfscsi_execute op_execute l (CBWCB (CBW b)) (bCBWCBLength (CBW b)) (exec_size (CBW b)) w = Some (err, w') ∧
    settled b d' sent w' ∧
    match ans with
    | None => err ≠ 0 ∧ tr_lun (d_transact d') = NULL
    | Some data => err = 0 ∧
        (dCBWDataTransferLength (CBW b) = 0 ∨
         (data = [] ∧ tr_lun (d_transact d') = NULL) ∨
         ∃ sx s, opened b d' sx data ∧ streams w' !! sx = Some s ∧ foreign_cb (tx_ready s) (callback_tx s) ∧
           src (op := usb_op xop) (smem s) data)
    end.

(** The wait after a command. *)
Definition replied b c ans (sent : list (list Z)) w : Prop :=
  ∃ b' d' ps, same_object b b' ∧ bot_params b' ∧ reply_packets c ans ps ∧
    waiting b' d' (sent ++ ps ++ [csw_bytes (reply_csw c ans)]) w.

Lemma answered_replied b b1 d c ans ps sent w :
  same_object b b1 → bot_params b1 → CBW b1 = c → reply_packets c ans ps →
  csw_of b1 d = reply_csw c ans → answered b1 d (sent ++ ps) w → replied b c ans sent w.
Proof.
  intros Hs Hb <- Hr Hc Ha. exists (set_CSW b1 (csw_of b1 d)), (csw_close d), ps.
  split; [done|]. split; [by eapply params_same|]. split; [done|]. unfold answered in Ha.
  rewrite Hc in *. by rewrite app_assoc.
Qed.

Lemma csw_of_closed b d ans :
  tr_lun (d_transact d) = NULL → answer_bytes (CBW b) ans = [] →
  dCSWStatus (CSW b) = (if succeeded (CBW b) ans then USBMSC_CSW_OK else USBMSC_CSW_FAIL) →
  csw_of b d = reply_csw (CBW b) ans.
Proof.
  intros Hl Ha Hs. unfold csw_of, reply_csw, csw_residue. rewrite Hl, Z.eqb_refl, Ha, Hs.
  by rewrite Z.sub_0_r.
Qed.
(** *** From the command to the next wait *)

Lemma refused_replied b d ans sent w :
  bot_params b → settled b d sent w → tr_lun (d_transact d) = NULL →
  answer_bytes (CBW b) ans = [] → succeeded (CBW b) ans = false →
  ∃ n w2, reply_failure xop hw below p w = Some w2 ∧
    settles (ep_in b) (replied b (CBW b) ans sent) n w2.
Proof.
  intros Hb Hse Hcl Ha Hs. destruct (failure_settles b d sent w Hb Hse Hcl) as (w2 & Hf & Hst).
  exists 32%nat, w2. split; [done|]. eapply settles_weaken; [|exact Hst]. intros w3.
  apply (answered_replied b (set_status b USBMSC_CSW_FAIL) d); try done.
  - by eapply params_same.
  - unfold reply_packets. by rewrite Ha.
  - apply (csw_of_closed (set_status b USBMSC_CSW_FAIL)); [done|done|]. cbn. by rewrite Hs.
Qed.

Lemma no_stage_replied b d ans sent w :
  bot_params b → settled b d sent w → dCSWStatus (CSW b) = USBMSC_CSW_OK →
  dCBWDataTransferLength (CBW b) = 0 → succeeded (CBW b) ans = true →
  let w1 := if tr_lun (d_transact d) =? NULL then w
            else put_scsi w (scsi_dev b) (set_d_transact d (vsfscsi_cancel_transact (d_transact d))) in
  ∃ n w2, snd <$> vsfusbd_MSCBOT_SendCSW xop hw below p w1 = Some w2 ∧
    settles (ep_in b) (replied b (CBW b) ans sent) n w2.
Proof.
  intros Hb Hse Hok Hlen Hsu w1.
  set (d1 := if tr_lun (d_transact d) =? NULL then d
             else set_d_transact d (vsfscsi_cancel_transact (d_transact d))).
  assert (Hse1 : settled b d1 sent w1).
  { unfold w1, d1. destruct (_ =? _); [done|]. by eapply settled_scsi. }
  assert (Hd1 : tr_lun (d_transact d1) = NULL).
  { unfold d1. destruct (Z.eqb_spec (tr_lun (d_transact d)) NULL); done. }
  destruct (csw_settles b d1 sent w1 Hb Hse1) as (w2 & Hs & Hst).
  exists 30%nat, w2. rewrite Hs. split; [done|]. eapply settles_weaken; [|exact Hst]. intros w3 Hw3.
  apply (answered_replied b b d1 (CBW b) ans [] sent w3); try done.
  - unfold reply_packets, answer_bytes, no_data. rewrite Hlen. change (0 =? 0) with true. cbn match.
    change (0 <? 0) with false. by rewrite andb_false_r.
  - apply csw_of_closed; [done| |by rewrite Hsu].
    unfold answer_bytes. by rewrite Hlen.
  - by rewrite app_nil_r.
Qed.

Lemma stage_replied b d ans data sent w :
  bot_params b → settled b d sent w → dCSWStatus (CSW b) = USBMSC_CSW_OK →
  dCBWDataTransferLength (CBW b) ≠ 0 → ans = Some data →
  cbw_in (CBW b) = true ∨ answer_bytes (CBW b) ans = [] →
  (data = [] ∧ tr_lun (d_transact d) = NULL) ∨
  (∃ sx s, opened b d sx data ∧ streams w !! sx = Some s ∧ foreign_cb (tx_ready s) (callback_tx s) ∧
     src (op := usb_op xop) (smem s) data) →
  ∃ n w2, data_stage xop hw below p w = Some w2 ∧ settles (ep_in b) (replied b (CBW b) ans sent) n w2.
Proof.
  intros Hb Hse Hok Hlen -> Hdir Hcase.
  assert (Hab : answer_bytes (CBW b) (Some data) = data).
  { unfold answer_bytes. by rewrite (proj2 (Z.eqb_neq _ _)). }
  destruct Hcase as [[-> Hcl]|(sx & s & Hop & Hs & Hf & Hl)].
  - destruct (refused_replied b d (Some []) sent w Hb Hse Hcl Hab) as (n & w2 & Hr & Hst).
    { unfold succeeded. by rewrite (proj2 (Z.eqb_neq _ _)) by done. }
    exists n, w2. split; [|done]. unfold data_stage, get_param, get_scsi.
    rewrite (se_param _ _ _ _ Hse). bindr. rewrite (se_scsi _ _ _ _ Hse). bindr. by rewrite Hcl.
  - pose proof (op_data _ _ _ _ Hop) as [Hne Hle].
    destruct Hdir as [Hin|Hd0]; [|by rewrite Hab in Hd0].
    destruct (data_stage_settles b d sent sx data w s Hb Hse Hop Hin Hs Hf Hl) as (n & w2 & Hd & Hst).
    exists n, w2. split; [done|]. eapply settles_weaken; [|exact Hst]. intros w3 (ps & Hc & Ha).
    apply (answered_replied b (set_transact_size b (Z.of_nat (length data))) d (CBW b) (Some data)
      (ps ++ short_end (CBW b) data)); try done.
    + by eapply params_same.
    + unfold reply_packets. rewrite Hab. destruct data; [done|]. by exists ps.
    + unfold csw_of, reply_csw, csw_residue. rewrite (proj2 (Z.eqb_neq _ _)) by apply Hop.
      rewrite (op_size _ _ _ _ Hop), Hab. cbn [CBW CSW set_transact_size]. rewrite Hok. unfold succeeded.
      rewrite bool_decide_eq_false_2, orb_true_r by done.
      rewrite u32_small; [done|]. pose proof (op_len _ _ _ _ Hop). lia.
Qed.

Lemma run_cbw_replied b d ans sent w :
  bot_params b → settled b d sent w → tr_lun (d_transact d) = NULL →
  cbw_in (CBW b) = true ∨ answer_bytes (CBW b) ans = [] →
  (max_lun d < bCBWLUN (CBW b) ∧ ans = None) ∨
  (bCBWLUN (CBW b) ≤ max_lun d ∧
   executes (set_status b USBMSC_CSW_OK) d (delete (b_bufstream b) (streams w)) ans) →
  ∃ n w2, run_cbw xop hw op_execute below p b w = Some w2 ∧
    settles (ep_in b) (replied b (CBW b) ans sent) n w2.
Proof.
  intros Hb Hse Hcl Hdir Hcase. unfold run_cbw, get_scsi. rewrite (se_scsi _ _ _ _ Hse). bindr.
  destruct Hcase as [[Hmax ->]|[Hmax Hex]].
  - rewrite (proj2 (Z.ltb_lt _ _)) by done. apply (refused_replied b d None); try done.
    unfold answer_bytes. by destruct (_ =? _).
  - rewrite (proj2 (Z.ltb_ge _ _)) by done. set (b1 := set_status b USBMSC_CSW_OK) in *.
    assert (Hb1 : bot_params b1) by by eapply params_same.
    assert (Hse1 : settled b1 d sent (put_param w p b1)) by by eapply settled_param.
    destruct (Hex sent _ Hse1 eq_refl) as (l & err & w' & d' & Hl & He & Hse' & Hans).
    change (CBW b1) with (CBW b) in *. rewrite Hl. bindr. rewrite He. bindr.
    change (replied b) with (replied b1). change (ep_in b) with (ep_in b1).
    destruct ans as [data|].
    + destruct Hans as [-> Hans]. change (negb (0 =? 0)) with false. cbn match.
      destruct (Z.eqb_spec (dCBWDataTransferLength (CBW b)) 0) as [Hz|Hz]; cbn [negb].
      * change (scsis (urest w') !! scsi_dev b) with (scsis (urest w') !! scsi_dev b1).
        rewrite (se_scsi _ _ _ _ Hse'). bindr.
        apply (no_stage_replied b1 d' (Some data)); try done. unfold succeeded. change (CBW b1) with (CBW b).
        by rewrite Hz.
      * destruct Hans as [?|Hans]; [done|]. by eapply (stage_replied b1 d' (Some data) data).
    + destruct Hans as [Hne Hcl']. rewrite (proj2 (Z.eqb_neq _ _)) by done. cbn [negb].
      apply (refused_replied b1 d' None); try done. unfold answer_bytes. by destruct (_ =? _).
Qed.
(** The packet of a command is dispatched: [on_cbw] runs with the command read. *)
Lemma cbw_poll b d c sent w h :
  bot_params b → waiting b d sent w → cbw_wf c → delivered (ep_out b) (cbw_bytes c) (hal w) h →
  ∃ w2 t, usbd_poll xop hw cls (vsfusbd_on_EVENT ON_OUT (ep_out b) (set_hal w h))
      = vsfusbd_MSCBOT_on_cbw xop hw op_execute below p w2 ∧
    settled b d sent w2 ∧ load_CBW w2 b = Some c ∧
    transacts w2 !! b_transact b = Some t ∧ t_data_size t = 0 ∧
    delete (b_bufstream b) (streams w2) = delete (b_bufstream b) (streams w).
Proof.
  intros Hb [Hp Hd Hcl Hrc Hin Hev] Hwf Hdel. pose proof (bp_m _ Hb) as Hm.
  pose proof (out_params b Hb) as Hip.
  assert (Hlen : length (cbw_bytes c) = 31%nat) by (apply cbw_bytes_length; apply Hwf).
  destruct (Usbrecv.send_active (xop := xop) (ep_out b) (b_transact b) (b_bufstream b) MSCBOT_ON_CBW_FN p 31 m
    false [] [] [] [] false true w (cbw_bytes c) h) as ((Hrc' & Hq' & _) & _); [|done|lia| |].
  { split; [done|]. rewrite Hev. split; [constructor|]. left. rewrite Hev. done. }
  { unfold so_far. cbn [app concat]. rewrite app_nil_r. lia. }
  set (w1 := vsfusbd_on_EVENT ON_OUT (ep_out b) (set_hal w h)) in *.
  assert (He1 : evts w1 = [sent_evt (ep_out b)]) by (unfold w1; cbn; by rewrite Hev).
  assert (Hpkt : out_pkt (view (hal w1) (ep_out b)) = cbw_bytes c).
  { destruct Hdel as [_ Hv]. change (hal w1) with h. by rewrite Hv, decide_True. }
  unfold usbd_poll. rewrite He1. unfold sent_evt.
  pose proof (receiving_evts _ _ _ _ _ _ _ _ _ _ _ _ _ _ [] Hrc') as Hrc1.
  rewrite (evt_out (xop := xop) cls bot_keep Hq (ep_out b) _ _ _ _ 31 m false Hip VSFUSBD_INTEVT_OUT _ _ _ _ _ _ Hrc1)
    by by_decide.
  rewrite Z.eqb_refl.
  destruct (Usbrecv.out_turn_ok (xop := xop) cls bot_keep Hq (ep_out b) _ _ _ _ 31 m false Hip _ _ (cbw_bytes c) _ _
    Hrc1 Hpkt) as [(idle & w' & _ & Hr & _)|(w' & Ht & Hg & Hfr & _)]; [lia|rewrite Hlen; unfold so_far; cbn; lia| |].
  { exfalso. destruct (rc_shape _ _ _ _ _ _ _ _ _ _ _ _ _ _ Hr) as [_ Hlt]. unfold so_far in Hlt.
    cbn [app concat] in Hlt. rewrite app_nil_r, Hlen in Hlt. lia. }
  destruct Hg as (_ & (Ho1 & Ho2 & Htmp) & (s & l & k & Hs & Hcb & Hf & _ & Hk & Hl) & i & Htr).
  cbn [app concat] in Hl. rewrite app_nil_r in Hl. subst l.
  destruct Hfr as [_ _ Hst He _ Hh [Hk1 Hk2]]. cbn [evts set_evts streams hal urest] in *.
  exists w', (xfer (ep_out b) (b_bufstream b) MSCBOT_ON_CBW_FN p 0 false i). rewrite Ht.
  assert (Hz : (31 - so_far ([] ++ [cbw_bytes c]) = 0)%nat).
  { unfold so_far. cbn [app concat]. rewrite app_nil_r, Hlen. lia. }
  rewrite Hz in Htr. split; [|split; [|split; [|split; [exact Htr|split; [done|exact Hst]]]]].
  - unfold finish, t_finish. cbn [t_on_finish t_param xfer].
    change (MSCBOT_ON_CBW_FN =? NULL) with false. cbn match. rewrite Hfin by by_decide. done.
  - split; try done.
    + by rewrite Hk1.
    + by rewrite Hk2.
    + by eexists.
    + exists s. split; [done|]. rewrite Hcb. split; [by left|done].
    + destruct (Hh (ep_in b)) as [_ Hi]. unfold in_half in Hi. destruct Hdel as [_ Hv].
      change (hal w1) with h in Hi. rewrite Hv in Hi.
      assert (Hi' : in_half (view (hal w') (ep_in b)) = in_half (view (hal w) (ep_in b))).
      { unfold in_half. rewrite Hi. case_decide as Hee; [by rewrite <- Hee|done]. }
      unfold in_half in Hi'. injection Hi' as H1 H2 H3 H4. by rewrite H1, H3, H4.
  - unfold load_CBW. rewrite Hs. bindr. destruct Hk as (mb & -> & (_ & H1 & H2 & _ & _ & _ & H3) & H4).
    rewrite <- (parse_cbw_bytes c Hwf). f_equal. rewrite <- H3. rewrite Hlen. by rewrite take_ge by lia.
Qed.
End exec.

(** C4: one command without data from the host.  A valid command arrives for a
    unit that is not there, or that refuses it, or whose answer is in its stream
    when the command returns and is no longer than what the host asked for
    ([executes]); the command asks for data to the host, or the answer is empty.
    Then the steps that follow end without a fault, and after them the host has
    got the bytes of the answer in full packets but the last, a packet that ends
    them when they are fewer than it asked for, and one status with the command's
    tag, what was not sent as residue, and whether the command was carried out;
    and the next command is awaited.  Data from the host and an answer that is
    written while it is sent (a READ whose medium waits) are not covered; an
    answer that is too long is sent whole ([answer_too_long_wraps]). *)
Theorem bot_command {X P H R} {xop : vsf_stream_op_t X P} {hw : vsfhal_usbd H} `{!UsbdHal hw}
    `{!Source xop} (op_execute : Z → option (scsi_unit → list Z → Z → Z → uworld X H (msc_world R) →
      option (Z * uworld X H (msc_world R)))) cls below others p m k b d c ans sent w h :
  quiet cls bot_keep → quiet below bot_keep →
  (∀ f q w, f ∈ bot_fns → cl_finish cls f q w = msc_finish xop hw op_execute below others f q w) →
  m = (2 ^ k)%nat → bot_params m b → waiting (xop := xop) (hw := hw) p m b d sent w →
  cbw_wf c → cbw_valid c = true → delivered (ep_out b) (cbw_bytes c) (hal w) h →
  cbw_in c = true ∨ answer_bytes c ans = [] →
  (max_lun d < bCBWLUN c ∧ ans = None) ∨
  (bCBWLUN c ≤ max_lun d ∧ executes (xop := xop) (hw := hw) op_execute p m (set_status (set_CBW b c) USBMSC_CSW_OK) d
     (delete (b_bufstream b) (streams w)) ans) →
  ∃ w1 n, usbd_poll xop hw cls (vsfusbd_on_EVENT ON_OUT (ep_out b) (set_hal w h)) = Some w1 ∧
    (∀ j w', nsteps (bot_step (xop := xop) (hw := hw) cls (ep_in b)) j w1 w' → (j ≤ n)%nat) ∧
    ∀ w', rtc (bot_step (xop := xop) (hw := hw) cls (ep_in b)) w1 w' →
      (evts w' ≠ [] → is_Some (usbd_poll xop hw cls w')) ∧
      (quiescent (ep_in b) w' → replied (xop := xop) (hw := hw) p m b c ans sent w').
Proof.
  intros Hq Hqb Hfin Hpow Hb Hwa Hwf Hv Hdel Hdir Hcase.
  destruct (cbw_poll op_execute cls below others Hq Hfin p m b d c sent w h Hb Hwa Hwf Hdel)
    as (w2 & t & Hp & Hse & Hload & Ht & Hsz & Hst).
  set (b1 := set_CBW b c). assert (Hb1 : bot_params m b1).
  { destruct Hb as [? ? ? ? ? ?]. split; try done. apply Hwf. }
  assert (Hse1 : settled (hw := hw) p m b1 d sent (put_param w2 p b1)) by by eapply settled_param.
  destruct (run_cbw_replied op_execute cls below others Hq Hqb Hfin p m (ex_intro _ k Hpow) b1 d ans sent _ Hb1 Hse1
    (wa_closed _ _ _ _ _ _ Hwa) Hdir) as (n & w3 & Hr & Hset).
  { destruct Hcase as [?|[? ?]]; [by left|right]. split; [done|]. cbn [streams put_param set_urest].
    change (b_bufstream b1) with (b_bufstream b). by rewrite Hst. }
  exists w3, n. split.
  - rewrite Hp. unfold vsfusbd_MSCBOT_on_cbw, get_param. rewrite (se_param _ _ _ _ _ _ Hse). bindr.
    rewrite Hload. bindr. cbn [transacts put_param set_urest].
    change (b_transact (set_CBW b c)) with (b_transact b). rewrite Ht. bindr. rewrite Hsz, Hv. exact Hr.
  - exact (settles_run _ _ _ _ _ Hset).
Qed.

(** C19: a command block that is not valid is ignored: nothing is sent, no unit
    hears of it, and the next command is awaited. *)
Theorem bot_bad_command {X P H R} {xop : vsf_stream_op_t X P} {hw : vsfhal_usbd H} `{!UsbdHal hw}
    `{!Source xop} (op_execute : Z → option (scsi_unit → list Z → Z → Z → uworld X H (msc_world R) →
      option (Z * uworld X H (msc_world R)))) cls below others p m b d c sent w h :
  quiet cls bot_keep → quiet below bot_keep →
  (∀ f q w, f ∈ bot_fns → cl_finish cls f q w = msc_finish xop hw op_execute below others f q w) →
  bot_params m b → waiting (xop := xop) (hw := hw) p m b d sent w →
  cbw_wf c → cbw_valid c = false → delivered (ep_out b) (cbw_bytes c) (hal w) h →
  ∃ w1, usbd_poll xop hw cls (vsfusbd_on_EVENT ON_OUT (ep_out b) (set_hal w h)) = Some w1 ∧
    waiting (xop := xop) (hw := hw) p m (set_CBW b c) d sent w1.
Proof.
  intros Hq Hqb Hfin Hb Hwa Hwf Hv Hdel.
  destruct (cbw_poll op_execute cls below others Hq Hfin p m b d c sent w h Hb Hwa Hwf Hdel)
    as (w2 & t & Hp & Hse & Hload & Ht & Hsz & Hst).
  set (b1 := set_CBW b c). assert (Hb1 : bot_params m b1).
  { destruct Hb as [? ? ? ? ? ?]. split; try done. apply Hwf. }
  assert (Hse1 : settled (hw := hw) p m b1 d sent (put_param w2 p b1)) by by eapply settled_param.
  destruct (on_idle_ok (xop := xop) below Hqb p m b1 d sent _ Hb1 Hse1 (wa_closed _ _ _ _ _ _ Hwa)) as (w3 & Hi & Hwa3 & _).
  exists w3. split; [|exact Hwa3].
  rewrite Hp. unfold vsfusbd_MSCBOT_on_cbw, get_param. rewrite (se_param _ _ _ _ _ _ Hse). bindr.
  rewrite Hload. bindr. cbn [transacts put_param set_urest].
    change (b_transact (set_CBW b c)) with (b_transact b). rewrite Ht. bindr. rewrite Hsz, Hv. exact Hi.
Qed.

(** ** A unit that answers one command

    INQUIRY is answered with twelve bytes in a fifo, other commands fail. *)

Notation demo_bot := (uworld vsf_fifo_t board (msc_world unit)).

Definition demo_answer : list Z := seqZ 1 12.
Definition demo_execute (f : Z) : option (scsi_unit → list Z → Z → Z → demo_bot → option (Z * demo_bot)) :=
  Some (λ l cdb _ _ w,
    op ← getb cdb 0;
    d ← scsis (urest w) !! l_dev l;
    if op =? 0x12 then
      Some (VSFERR_NONE, put_scsi (put_stream w (u_stream (l_param l)) (demo_fifo demo_answer true false))
        (l_dev l) (set_d_transact d {| LBA := 0; data_size := 12; tr_err := VSFERR_NONE;
                                       tr_lun := u_addr (l_param l) |}))
    else Some (VSFERR_FAIL, w)).

(** The rest of the program does nothing. *)
Definition calm {X H R} : usbd_class (uworld X H R) := {|
  cl_stream _ _ w := Some (set_urest w (urest w)); cl_finish _ _ w := Some w;
  cl_get_desc _ _ _ _ w := Some (VSFERR_FAIL, None, w); cl_request _ w := Some (VSFERR_FAIL, w);
  cl_init _ _ w := Some (VSFERR_NONE, w); cl_config _ w := Some (VSFERR_NONE, w);
  cl_usr _ _ _ w := Some (set_urest w (urest w)); cl_handler _ _ w := Some (VSFERR_FAIL, w) |}.

(** The core with the mass-storage class. *)
Definition msc_device (n : nat) : usbd_class demo_bot :=
  core fifostream_op board_hal (λ below, vsfusbd_MSCBOT_class fifostream_op board_hal demo_execute below calm) n.

Lemma msc_device_quiet n : quiet (msc_device (S n)) bot_keep.
Proof.
  split.
  - intros f p w Hf. exists (urest w). split; [|done].
    change (cl_stream (msc_device (S n)) f p w) with
      (if f =? MSCBOT_DUMMY_INOUT_FN then vsfusbd_MSCBOT_dummy_inout fifostream_op (msc_device n) p w
       else Some (set_urest w (urest w))).
    destruct (Z.eqb_spec f MSCBOT_DUMMY_INOUT_FN) as [->|]; [|done]. by destruct Hf.
  - intros f e p w. exists (urest w). by split.
Qed.

Lemma msc_device_finish n f p w : f ∈ bot_fns →
  cl_finish (msc_device (S n)) f p w
    = msc_finish fifostream_op board_hal demo_execute (msc_device n) calm f p w.
Proof.
  intros Hf. change (cl_finish (msc_device (S n)) f p w) with
    (if f =? SETUP_END_FN then vsfusbd_setup_end_callback board_hal (msc_device n) w
     else if f =? SETUP_STATUS_FN then vsfusbd_setup_status_callback fifostream_op board_hal (msc_device n) w
     else msc_finish fifostream_op board_hal demo_execute (msc_device n) calm f p w).
  assert (H1 : SETUP_END_FN ∉ bot_fns) by by_decide. assert (H2 : SETUP_STATUS_FN ∉ bot_fns) by by_decide.
  rewrite !(proj2 (Z.eqb_neq _ _)); congruence.
Qed.

Definition demo_cbw (n : Z) (cb : list Z) : USBMSC_CBW_t :=
  {| dCBWSignature := USBMSC_CBW_SIGNATURE; dCBWTag := 0xABCD; dCBWDataTransferLength := n;
     bmCBWFlags := 0x80; bCBWLUN := 0; bCBWCBLength := 6; CBWCB := cb ++ replicate (16 - length cb) 0 |}.
Definition demo_param : vsfusbd_MSCBOT_param_t :=
  {| ep_out := 2; ep_in := 1; scsi_dev := 0x700; CBW := demo_cbw 0 [];
     CSW := {| dCSWSignature := 0; dCSWTag := 0; dCSWDataResidue := 0; dCSWStatus := 0 |};
     b_transact := 0x50; b_bufstream := 0x61; transact_size := 0 |}.
Definition demo_scsi : vsfscsi_device_t :=
  {| max_lun := 0;
     d_lun := [{| l_op := 0; l_sense := 0; l_asc := 0; l_dev := 0x700;
                  l_param := {| u_addr := 0x710; u_stream := 0x60; u_param := NULL |} |}];
     d_transact := {| LBA := 0; data_size := 0; tr_err := 0; tr_lun := NULL |} |}.

(** Before the first command is awaited. *)
Definition demo_start : demo_bot := {|
  dev := demo_dev; transacts := {[ 0x50 := xfer 0 NULL NULL NULL 0 false false ]};
  streams := {[ 0x61 := {| callback_tx := no_cb; callback_rx := no_cb; tx_ready := false; rx_ready := false;
    overflow := false; smem := Buf {| bbuf := {| buffer := []; size := 0 |}; bread := false; pos := 0 |};
    env := tt |} ]}; evts := []; on_event := ON_EVENT_FN;
  hal := {| b_eps _ := idle_ep 32; b_setup := []; b_address := 5; b_stalled := []; b_frame := 0 |};
  urest := {| params := {[ 0x600 := demo_param ]}; scsis := {[ 0x700 := demo_scsi ]}; mrest := tt |} |}.

(** The host sends a command and takes [n] packets. *)
Fixpoint take_packets (n : nat) (w : demo_bot) : option demo_bot :=
  match n with
  | O => Some w
  | S n => w ← usbd_poll fifostream_op board_hal (msc_device 3) (host_take 1 w); take_packets n w
  end.
Definition demo_command (c : USBMSC_CBW_t) (n : nat) : option demo_bot :=
  w ← vsfusbd_MSCBOT_on_idle fifostream_op board_hal (msc_device 3) 0x600 demo_start;
  w ← usbd_poll fifostream_op board_hal (msc_device 3) (host_send 2 (cbw_bytes c) w);
  take_packets n w.
Definition demo_sent (c : USBMSC_CBW_t) (n : nat) : option (list (list Z) * bool) :=
  w ← demo_command c n; Some (in_sent (b_eps (hal w) 1), out_enabled (b_eps (hal w) 2)).

Definition demo_csw (residue status : Z) : list Z :=
  [0x55; 0x53; 0x42; 0x53; 0xCD; 0xAB; 0; 0; residue; 0; 0; 0; status].

(** The answer and its status; a command that fails; one without data. *)
Example demo_inquiry : demo_sent (demo_cbw 36 [0x12]) 2 = Some ([demo_answer; demo_csw 24 0], true).
Proof. by vm_compute. Qed.
Example demo_failure : demo_sent (demo_cbw 36 [0x99]) 2 = Some ([[]; demo_csw 36 1], true).
Proof. by vm_compute. Qed.

(** A unit that answers more than the host asked for: all of it is sent, and
    the residue wraps below zero. *)
Example answer_too_long_wraps :
  demo_sent (demo_cbw 8 [0x12]) 2
    = Some ([demo_answer; [0x55; 0x53; 0x42; 0x53; 0xCD; 0xAB; 0; 0; 252; 255; 255; 255; 0]], true).
Proof. by vm_compute. Qed.

Lemma demo_executes rs :
  executes (xop := fifostream_op) (hw := board_hal) demo_execute 0x600 32
    (set_status (set_CBW demo_param (demo_cbw 36 [0x12])) USBMSC_CSW_OK) demo_scsi rs (Some demo_answer).
Proof.
  intros sent w Hse _. pose proof (se_scsi _ _ _ _ _ _ Hse) as Hd. cbn in Hd.
  eexists _, VSFERR_NONE, _, _. split; [reflexivity|]. split.
  { unfold vsfscsi_execute. cbn. rewrite Hd. cbn. reflexivity. }
  destruct Hse as [Hp _ Ht (s & Hs & Hf) Hi Ho Hm He]. cbn in Hs.
  split; [|split; [done|right; right]].
  - split; try done; [cbn; by rewrite lookup_insert_eq|]. exists s. cbn.
    by rewrite lookup_insert_ne.
  - exists 0x60, (demo_fifo demo_answer true false). cbn. rewrite lookup_insert_eq.
    split; [|split; [done|split; [by split; [left|left]|]]].
    + by split.
    + apply (fifo_rep_demo demo_answer true false). simpl. lia.
Qed.

Lemma demo_params : bot_params 32 demo_param.
Proof. split; try done; unfold VSFUSBD_CFG_EPMAXNO, VSFUSBD_TMPBUF; simpl; lia. Qed.

Lemma demo_waiting : ∃ w : demo_bot, waiting (xop := fifostream_op) (hw := board_hal) 0x600 32 demo_param demo_scsi [] w.
Proof.
  destruct (on_idle_ok (xop := fifostream_op) (hw := board_hal) (msc_device 1) (msc_device_quiet 0) 0x600 32
    demo_param demo_scsi [] demo_start) as (w & _ & Hw & _); [apply demo_params| |done|by exists w].
  split; try done; [by eexists|]. eexists. split; [reflexivity|]. split; by left.
Qed.

Lemma demo_cbw_wf n cb : fits 32 n → bytes cb → (length cb ≤ 16)%nat → cbw_wf (demo_cbw n cb).
Proof.
  intros Hn Hb Hl. unfold cbw_wf, demo_cbw. cbn -[replicate app Nat.sub]. split_and!; try done.
  - apply Forall_app. split; [done|]. by apply Forall_replicate.
  - rewrite length_app, length_replicate. lia.
Qed.

Lemma demo_delivered (w : demo_bot) pkt :
  waiting (xop := fifostream_op) (hw := board_hal) 0x600 32 demo_param demo_scsi [] w →
  delivered (hw := board_hal) 2 pkt (hal w) (on_ep 2 (λ v, receive_pkt v pkt) (hal w)).
Proof. intros Hw. split; [apply (rc_hal _ _ _ _ _ _ _ _ _ _ _ _ _ _ (wa_recv _ _ _ _ _ _ Hw))|done]. Qed.

Lemma bot_command_witness : ∃ w w1 n, 
  usbd_poll fifostream_op board_hal (msc_device 3) (host_send 2 (cbw_bytes (demo_cbw 36 [0x12])) w) = Some w1 ∧
  ∀ j w', nsteps (bot_step (xop := fifostream_op) (hw := board_hal) (msc_device 3) 1) j w1 w' → (j ≤ n)%nat.
Proof.
  destruct demo_waiting as [w Hw].
  destruct (bot_command (xop := fifostream_op) (hw := board_hal) demo_execute (msc_device 3) (msc_device 2) calm
    0x600 32 5 demo_param demo_scsi (demo_cbw 36 [0x12]) (Some demo_answer) [] w
    (on_ep 2 (λ v, receive_pkt v (cbw_bytes (demo_cbw 36 [0x12]))) (hal w))) as (w1 & n & H1 & H2 & _).
  - apply (msc_device_quiet 2).
  - apply (msc_device_quiet 1).
  - intros f q w0. apply (msc_device_finish 2).
  - reflexivity.
  - apply demo_params.
  - exact Hw.
  - apply demo_cbw_wf; [done|by repeat constructor|simpl; lia].
  - reflexivity.
  - by apply demo_delivered.
  - by left.
  - right. split; [simpl; lia|]. apply demo_executes.
  - exists w, w1, n. split; [exact H1|exact H2].
Defined.

(** A block without the signature. *)
Definition bad_cbw : USBMSC_CBW_t :=
  {| dCBWSignature := 0; dCBWTag := 1; dCBWDataTransferLength := 0; bmCBWFlags := 0; bCBWLUN := 0;
     bCBWCBLength := 6; CBWCB := replicate 16 0 |}.

Lemma bot_bad_command_witness : ∃ (w w1 : demo_bot),
  usbd_poll fifostream_op board_hal (msc_device 3) (host_send 2 (cbw_bytes bad_cbw) w) = Some w1 ∧
  waiting (xop := fifostream_op) (hw := board_hal) 0x600 32 (set_CBW demo_param bad_cbw) demo_scsi [] w1.
Proof.
  destruct demo_waiting as [w Hw].
  destruct (bot_bad_command (xop := fifostream_op) (hw := board_hal) demo_execute (msc_device 3) (msc_device 2)
    calm 0x600 32 demo_param demo_scsi bad_cbw [] w (on_ep 2 (λ v, receive_pkt v (cbw_bytes bad_cbw)) (hal w)))
    as (w1 & H1 & H2).
  - apply (msc_device_quiet 2).
  - apply (msc_device_quiet 1).
  - intros f q w0. apply (msc_device_finish 2).
  - apply demo_params.
  - exact Hw.
  - unfold cbw_wf. split_and!; try done. by repeat constructor.
  - reflexivity.
  - by apply demo_delivered.
  - exists w, w1. split; [exact H1|exact H2].
Defined.
