(* ===== verification/Ipdata.v ===== *)
(** * Ipdata: packets, sockets and interfaces of the TCP/IP stack

    The data of component/tcpip/vsfip.h and netif/vsfip_netif.h, what the stack
    asks of the rest of the system, and the buffer and checksum routines of
    vsfip.c.  A packet buffer is its bytes with two windows, [buf] (what the
    layer at hand sees) and [app] (the payload), both as offsets into the bytes;
    pointers to the objects of the stack are addresses. *)

From S2P Require Import Prelude Chain Vsfq Bits Endian.

(** ** Configuration and constants *)

Definition VSFIP_CFG_TTL_INPUT : Z := 10.
Definition VSFIP_CFG_UDP_PORT : Z := 40000.
Definition VSFIP_CFG_TCP_PORT : Z := 40000.
Definition VSFIP_CFG_MTU : Z := 1500.
(** The room that vsfusbd_RNDIS.h asks for. *)
Definition VSFIP_CFG_NETIF_HEADLEN : Z := 64.
Definition VSFIP_IP_HEADLEN : Z := 20.
Definition VSFIP_UDP_HEADLEN : Z := 8.
Definition VSFIP_TCP_HEADLEN : Z := 20.
Definition VSFIP_CFG_TCP_MSS : Z := VSFIP_CFG_MTU - VSFIP_IP_HEADLEN - VSFIP_TCP_HEADLEN.
Definition VSFIP_PROTO_HEADLEN : Z := VSFIP_CFG_NETIF_HEADLEN + VSFIP_IP_HEADLEN.
Definition VSFIP_CFG_ARPCACHE_SIZE : nat := 8.
Definition VSFIP_CFG_ARP_TIMEOUT_MS : Z := 1000.
Definition VSFIP_TCP_RETRY : Z := 3.
Definition VSFIP_TCP_ATO : Z := 10.
Definition VSFIP_IPADDR_ANY : Z := 0.

Definition AF_INET : Z := 2.
Definition IPPROTO_ICMP : Z := 1.
Definition IPPROTO_TCP : Z := 6.
Definition IPPROTO_UDP : Z := 17.
Definition VSFIP_IPH_DF : Z := 0x4000.
Definition VSFIP_IPH_MF : Z := 0x2000.
Definition VSFIP_IPH_OFFSET_MASK : Z := 0x1FFF.
Definition VSFIP_NETIF_PROTO_IP : Z := 0x0800.
Definition VSFIP_NETIF_PROTO_ARP : Z := 0x0806.

(** [VSFSM_EVT_INVALID] and [VSFSM_EVT_NONE], which no state machine is sent. *)
Definition EVT_INVALID : Z := -1.
Definition EVT_NONE : Z := 0.
(** The events of the stack ([enum vsfip_EVT_t]). *)
Definition VSFIP_EVT_TICK : Z := 0x4004.
Definition VSFIP_EVT_TCP_CONNECTOK : Z := 0x4005.
Definition VSFIP_EVT_TCP_CONNECTFAIL : Z := 0x4006.
Definition VSFIP_EVT_TCP_CLOSED : Z := 0x4007.
Definition VSFIP_EVT_TCP_TXOK : Z := 0x4008.
Definition VSFIP_EVT_TCP_RXOK : Z := 0x4009.
Definition VSFIP_EVT_TCP_RXFAIL : Z := 0x400A.
Definition VSFIP_EVT_SOCKET_TIMEOUT : Z := 0x6002.
Definition VSFIP_EVT_SOCKET_RECV : Z := 0x6003.

(** The functions of the stack whose addresses are stored in a socket. *)
Definition TCP_INPUT_FN : Z := 0x1001.
Definition UDP_INPUT_FN : Z := 0x1002.


(** ** Fields

    [set_field eta proj] is the function that replaces the field [proj] of a
    record, where [eta] rebuilds a record from its fields. *)
Ltac set_field eta proj :=
  intros x r;
  let body := eval hnf in (eta r) in
  let body := eval pattern (proj r) in body in
  match body with ?f _ => let t := eval cbv beta in (f x) in exact t end.

(** ** Addresses ([struct vsfip_addr_t])

    The sixteen bytes are the members of the union. *)
Record vsfip_addr_t := { asize : Z; s_addr_buf : list Z }.

Definition s_addr (a : vsfip_addr_t) : Z := le_value (take 4 (s_addr_buf a)).
Definition set_s_addr (v : Z) (a : vsfip_addr_t) : vsfip_addr_t :=
  {| asize := asize a; s_addr_buf := le_bytes 4 v ++ drop 4 (s_addr_buf a) |}.
Definition set_asize (n : Z) (a : vsfip_addr_t) : vsfip_addr_t :=
  {| asize := n; s_addr_buf := s_addr_buf a |}.

Record vsfip_sockaddr_t := { sin_port : Z; sin_addr : vsfip_addr_t }.

(** ** Packet buffers *)

(** [struct vsf_buffer_t] inside a packet: where it starts and its size. *)
Record window := { off : Z; wsize : Z }.

(** [struct vsfip_buffer_t] without its two queue nodes; [mem] is what
    [buffer->buffer] points to. *)
Record vsfip_buffer_t := {
  mem : list Z; buf : window; app : window; iphead : Z;
  ref : Z; ttl : Z; retry : Z; netif : Z }.

Definition eta_buffer b : vsfip_buffer_t :=
  {| mem := mem b; buf := buf b; app := app b; iphead := iphead b;
     ref := ref b; ttl := ttl b; retry := retry b; netif := netif b |}.
Definition set_mem : list Z → vsfip_buffer_t → vsfip_buffer_t := ltac:(set_field eta_buffer mem).
Definition set_buf : window → vsfip_buffer_t → vsfip_buffer_t := ltac:(set_field eta_buffer buf).
Definition set_app : window → vsfip_buffer_t → vsfip_buffer_t := ltac:(set_field eta_buffer app).
Definition set_iphead : Z → vsfip_buffer_t → vsfip_buffer_t := ltac:(set_field eta_buffer iphead).
Definition set_ref : Z → vsfip_buffer_t → vsfip_buffer_t := ltac:(set_field eta_buffer ref).
Definition set_ttl : Z → vsfip_buffer_t → vsfip_buffer_t := ltac:(set_field eta_buffer ttl).
Definition set_retry : Z → vsfip_buffer_t → vsfip_buffer_t := ltac:(set_field eta_buffer retry).
Definition set_netif : Z → vsfip_buffer_t → vsfip_buffer_t := ltac:(set_field eta_buffer netif).

(** ** TCP control blocks *)

(** [enum vsfip_tcp_stat_t]. *)
Inductive tcp_stat :=
  | INVALID | CLOSED | LISTEN | SYN_SENT | SYN_GET | ESTABLISHED
  | FINWAIT1 | FINWAIT2 | CLOSEWAIT | LASTACK.

#[export] Instance tcp_stat_eq_dec : EqDecision tcp_stat.
Proof. solve_decision. Defined.

Record vsfip_tcppcb_t := {
  state : tcp_stat; lseq : Z; acked_lseq : Z; rseq : Z; acked_rseq : Z; rwnd : Z;
  tx_sm : Z; tx_timeout : Z; tx_retry : Z; tx_window : Z;
  rx_sm : Z; rx_timeout : Z; rx_window : Z; ack_tick : Z;
  rclose : bool; lclose : bool; pflags : Z }.

Definition eta_pcb p : vsfip_tcppcb_t :=
  {| state := state p; lseq := lseq p; acked_lseq := acked_lseq p; rseq := rseq p;
     acked_rseq := acked_rseq p; rwnd := rwnd p; tx_sm := tx_sm p;
     tx_timeout := tx_timeout p; tx_retry := tx_retry p; tx_window := tx_window p;
     rx_sm := rx_sm p; rx_timeout := rx_timeout p; rx_window := rx_window p;
     ack_tick := ack_tick p; rclose := rclose p; lclose := lclose p; pflags := pflags p |}.
Definition set_state : tcp_stat → vsfip_tcppcb_t → vsfip_tcppcb_t := ltac:(set_field eta_pcb state).
Definition set_lseq : Z → vsfip_tcppcb_t → vsfip_tcppcb_t := ltac:(set_field eta_pcb lseq).
Definition set_acked_lseq : Z → vsfip_tcppcb_t → vsfip_tcppcb_t := ltac:(set_field eta_pcb acked_lseq).
Definition set_rseq : Z → vsfip_tcppcb_t → vsfip_tcppcb_t := ltac:(set_field eta_pcb rseq).
Definition set_acked_rseq : Z → vsfip_tcppcb_t → vsfip_tcppcb_t := ltac:(set_field eta_pcb acked_rseq).
Definition set_rwnd : Z → vsfip_tcppcb_t → vsfip_tcppcb_t := ltac:(set_field eta_pcb rwnd).
Definition set_tx_sm : Z → vsfip_tcppcb_t → vsfip_tcppcb_t := ltac:(set_field eta_pcb tx_sm).
Definition set_tx_timeout : Z → vsfip_tcppcb_t → vsfip_tcppcb_t := ltac:(set_field eta_pcb tx_timeout).
Definition set_tx_retry : Z → vsfip_tcppcb_t → vsfip_tcppcb_t := ltac:(set_field eta_pcb tx_retry).
Definition set_tx_window : Z → vsfip_tcppcb_t → vsfip_tcppcb_t := ltac:(set_field eta_pcb tx_window).
Definition set_rx_sm : Z → vsfip_tcppcb_t → vsfip_tcppcb_t := ltac:(set_field eta_pcb rx_sm).
Definition set_rx_timeout : Z → vsfip_tcppcb_t → vsfip_tcppcb_t := ltac:(set_field eta_pcb rx_timeout).
Definition set_rx_window : Z → vsfip_tcppcb_t → vsfip_tcppcb_t := ltac:(set_field eta_pcb rx_window).
Definition set_ack_tick : Z → vsfip_tcppcb_t → vsfip_tcppcb_t := ltac:(set_field eta_pcb ack_tick).
Definition set_rclose : bool → vsfip_tcppcb_t → vsfip_tcppcb_t := ltac:(set_field eta_pcb rclose).
Definition set_lclose : bool → vsfip_tcppcb_t → vsfip_tcppcb_t := ltac:(set_field eta_pcb lclose).
Definition set_pflags : Z → vsfip_tcppcb_t → vsfip_tcppcb_t := ltac:(set_field eta_pcb pflags).

(** ** Sockets *)

(** The queues [inq] and [outq] link the [proto_node]s of their buffers;
    [ippcb_buf] is [pcb.ippcb.buf] and [protopcb] points to the control block. *)
Record vsfip_socket_t := {
  family : Z; protocol : Z;
  local_sockaddr : vsfip_sockaddr_t; remote_sockaddr : vsfip_sockaddr_t;
  ippcb_buf : Z; ippcb_id : Z; xfed_len : Z; protopcb : Z;
  inq : vsfq_t; outq : vsfq_t; can_rx : bool;
  child : Z; backlog : Z; accepted_num : Z; closing : bool; accepted : bool; father : Z;
  tx_timeout_ms : Z; rx_timeout_ms : Z;
  proto_on_input : Z; user_on_input : Z; user_on_outputted : Z; user_param : Z;
  snext : Z }.

Definition eta_socket s : vsfip_socket_t :=
  {| family := family s; protocol := protocol s;
     local_sockaddr := local_sockaddr s; remote_sockaddr := remote_sockaddr s;
     ippcb_buf := ippcb_buf s; ippcb_id := ippcb_id s; xfed_len := xfed_len s;
     protopcb := protopcb s; inq := inq s; outq := outq s; can_rx := can_rx s;
     child := child s; backlog := backlog s; accepted_num := accepted_num s;
     closing := closing s; accepted := accepted s; father := father s;
     tx_timeout_ms := tx_timeout_ms s; rx_timeout_ms := rx_timeout_ms s;
     proto_on_input := proto_on_input s; user_on_input := user_on_input s;
     user_on_outputted := user_on_outputted s; user_param := user_param s; snext := snext s |}.
Definition set_local : vsfip_sockaddr_t → vsfip_socket_t → vsfip_socket_t := ltac:(set_field eta_socket local_sockaddr).
Definition set_remote : vsfip_sockaddr_t → vsfip_socket_t → vsfip_socket_t := ltac:(set_field eta_socket remote_sockaddr).
Definition set_ippcb_buf : Z → vsfip_socket_t → vsfip_socket_t := ltac:(set_field eta_socket ippcb_buf).
Definition set_ippcb_id : Z → vsfip_socket_t → vsfip_socket_t := ltac:(set_field eta_socket ippcb_id).
Definition set_protopcb : Z → vsfip_socket_t → vsfip_socket_t := ltac:(set_field eta_socket protopcb).
Definition set_inq : vsfq_t → vsfip_socket_t → vsfip_socket_t := ltac:(set_field eta_socket inq).
Definition set_outq : vsfq_t → vsfip_socket_t → vsfip_socket_t := ltac:(set_field eta_socket outq).
Definition set_can_rx : bool → vsfip_socket_t → vsfip_socket_t := ltac:(set_field eta_socket can_rx).
Definition set_child : Z → vsfip_socket_t → vsfip_socket_t := ltac:(set_field eta_socket child).
Definition set_backlog : Z → vsfip_socket_t → vsfip_socket_t := ltac:(set_field eta_socket backlog).
Definition set_accepted_num : Z → vsfip_socket_t → vsfip_socket_t := ltac:(set_field eta_socket accepted_num).
Definition set_closing : bool → vsfip_socket_t → vsfip_socket_t := ltac:(set_field eta_socket closing).
Definition set_accepted : bool → vsfip_socket_t → vsfip_socket_t := ltac:(set_field eta_socket accepted).
Definition set_father : Z → vsfip_socket_t → vsfip_socket_t := ltac:(set_field eta_socket father).
Definition set_tx_timeout_ms : Z → vsfip_socket_t → vsfip_socket_t := ltac:(set_field eta_socket tx_timeout_ms).
Definition set_rx_timeout_ms : Z → vsfip_socket_t → vsfip_socket_t := ltac:(set_field eta_socket rx_timeout_ms).
Definition set_proto_on_input : Z → vsfip_socket_t → vsfip_socket_t := ltac:(set_field eta_socket proto_on_input).
Definition set_user_on_input : Z → vsfip_socket_t → vsfip_socket_t := ltac:(set_field eta_socket user_on_input).
Definition set_user_on_outputted : Z → vsfip_socket_t → vsfip_socket_t := ltac:(set_field eta_socket user_on_outputted).
Definition set_user_param : Z → vsfip_socket_t → vsfip_socket_t := ltac:(set_field eta_socket user_param).
Definition set_snext : Z → vsfip_socket_t → vsfip_socket_t := ltac:(set_field eta_socket snext).

#[export] Instance vsfip_socket_Linked : Linked vsfip_socket_t.
Proof.
  refine {| nxt := snext; set_nxt a s := set_snext a s |}; [done..|by intros []].
Defined.

(** ** Network interfaces *)

Record vsfip_arp_entry_t := { emac : vsfip_addr_t; eip : vsfip_addr_t; etime : Z }.

(** [drv] stands for the driver, of which [header_size] and [hwtype] are used;
    the fields from [arpc_buf] on are those of the ARP client. *)
Record vsfip_netif_t := {
  drv : Z; header_size : Z; hwtype : Z;
  macaddr : vsfip_addr_t; ipaddr : vsfip_addr_t; netmask : vsfip_addr_t;
  gateway : vsfip_addr_t; mac_broadcast : vsfip_addr_t; mtu : Z;
  noutq : vsfq_t; arp_time : Z; arp_cache : list vsfip_arp_entry_t; quit : bool;
  sm_pending : Z; arpc_buf : Z; requestq : vsfq_t; cur_request : Z;
  ip_for_mac : vsfip_addr_t; arpc_retry : Z; arpc_pt : Z; nnext : Z }.

Definition eta_netif n : vsfip_netif_t :=
  {| drv := drv n; header_size := header_size n; hwtype := hwtype n;
     macaddr := macaddr n; ipaddr := ipaddr n; netmask := netmask n;
     gateway := gateway n; mac_broadcast := mac_broadcast n; mtu := mtu n;
     noutq := noutq n; arp_time := arp_time n; arp_cache := arp_cache n; quit := quit n;
     sm_pending := sm_pending n; arpc_buf := arpc_buf n; requestq := requestq n;
     cur_request := cur_request n; ip_for_mac := ip_for_mac n; arpc_retry := arpc_retry n;
     arpc_pt := arpc_pt n; nnext := nnext n |}.
Definition set_ipaddr : vsfip_addr_t → vsfip_netif_t → vsfip_netif_t := ltac:(set_field eta_netif ipaddr).
Definition set_noutq : vsfq_t → vsfip_netif_t → vsfip_netif_t := ltac:(set_field eta_netif noutq).
Definition set_arp_time : Z → vsfip_netif_t → vsfip_netif_t := ltac:(set_field eta_netif arp_time).
Definition set_arp_cache : list vsfip_arp_entry_t → vsfip_netif_t → vsfip_netif_t := ltac:(set_field eta_netif arp_cache).
Definition set_sm_pending : Z → vsfip_netif_t → vsfip_netif_t := ltac:(set_field eta_netif sm_pending).
Definition set_arpc_buf : Z → vsfip_netif_t → vsfip_netif_t := ltac:(set_field eta_netif arpc_buf).
Definition set_requestq : vsfq_t → vsfip_netif_t → vsfip_netif_t := ltac:(set_field eta_netif requestq).
Definition set_cur_request : Z → vsfip_netif_t → vsfip_netif_t := ltac:(set_field eta_netif cur_request).
Definition set_ip_for_mac : vsfip_addr_t → vsfip_netif_t → vsfip_netif_t := ltac:(set_field eta_netif ip_for_mac).
Definition set_arpc_retry : Z → vsfip_netif_t → vsfip_netif_t := ltac:(set_field eta_netif arpc_retry).
Definition set_arpc_pt : Z → vsfip_netif_t → vsfip_netif_t := ltac:(set_field eta_netif arpc_pt).
Definition set_nnext : Z → vsfip_netif_t → vsfip_netif_t := ltac:(set_field eta_netif nnext).

#[export] Instance vsfip_netif_Linked : Linked vsfip_netif_t.
Proof.
  refine {| nxt := nnext; set_nxt a n := set_nnext a n |}; [done..|by intros []].
Defined.

(** ** The stack ([struct vsfip_t]) *)

Record vsfip_t := {
  netif_list : Z; netif_default : Z; udpconns : Z; tcpconns : Z;
  udp_port : Z; tcp_port : Z; ip_id : Z; tsn : Z; output_sniffer : Z }.

Definition eta_ip g : vsfip_t :=
  {| netif_list := netif_list g; netif_default := netif_default g; udpconns := udpconns g;
     tcpconns := tcpconns g; udp_port := udp_port g; tcp_port := tcp_port g;
     ip_id := ip_id g; tsn := tsn g; output_sniffer := output_sniffer g |}.
Definition set_netif_list : Z → vsfip_t → vsfip_t := ltac:(set_field eta_ip netif_list).
Definition set_netif_default : Z → vsfip_t → vsfip_t := ltac:(set_field eta_ip netif_default).
Definition set_udpconns : Z → vsfip_t → vsfip_t := ltac:(set_field eta_ip udpconns).
Definition set_tcpconns : Z → vsfip_t → vsfip_t := ltac:(set_field eta_ip tcpconns).
Definition set_udp_port : Z → vsfip_t → vsfip_t := ltac:(set_field eta_ip udp_port).
Definition set_tcp_port : Z → vsfip_t → vsfip_t := ltac:(set_field eta_ip tcp_port).
Definition set_ip_id : Z → vsfip_t → vsfip_t := ltac:(set_field eta_ip ip_id).
Definition set_tsn : Z → vsfip_t → vsfip_t := ltac:(set_field eta_ip tsn).

(** ** The world of the stack

    [pnodes] and [nnodes] are the two queue nodes of every buffer, by the address
    of the buffer; [env] is the rest of the system. *)
Record net (E : Type) := {
  bufs : gmap Z vsfip_buffer_t; pnodes : qstore; nnodes : qstore;
  socks : gmap Z vsfip_socket_t; pcbs : gmap Z vsfip_tcppcb_t;
  netifs : gmap Z vsfip_netif_t; vsfip : vsfip_t; env : E }.

Arguments bufs {_}. Arguments pnodes {_}. Arguments nnodes {_}. Arguments socks {_}.
Arguments pcbs {_}. Arguments netifs {_}. Arguments vsfip {_}. Arguments env {_}.

Definition eta_net {E} (w : net E) : net E :=
  {| bufs := bufs w; pnodes := pnodes w; nnodes := nnodes w; socks := socks w;
     pcbs := pcbs w; netifs := netifs w; vsfip := vsfip w; env := env w |}.
Definition set_bufs {E} : gmap Z vsfip_buffer_t → net E → net E := ltac:(set_field (@eta_net E) (@bufs E)).
Definition set_pnodes {E} : qstore → net E → net E := ltac:(set_field (@eta_net E) (@pnodes E)).
Definition set_nnodes {E} : qstore → net E → net E := ltac:(set_field (@eta_net E) (@nnodes E)).
Definition set_socks {E} : gmap Z vsfip_socket_t → net E → net E := ltac:(set_field (@eta_net E) (@socks E)).
Definition set_pcbs {E} : gmap Z vsfip_tcppcb_t → net E → net E := ltac:(set_field (@eta_net E) (@pcbs E)).
Definition set_netifs {E} : gmap Z vsfip_netif_t → net E → net E := ltac:(set_field (@eta_net E) (@netifs E)).
Definition set_vsfip {E} : vsfip_t → net E → net E := ltac:(set_field (@eta_net E) (@vsfip E)).
Definition set_env {E} : E → net E → net E := ltac:(set_field (@eta_net E) (@env E)).

Definition put_buf {E} b x (w : net E) : net E := set_bufs (<[b := x]> (bufs w)) w.
Definition put_sock {E} s x (w : net E) : net E := set_socks (<[s := x]> (socks w)) w.
Definition put_pcb {E} p x (w : net E) : net E := set_pcbs (<[p := x]> (pcbs w)) w.
Definition put_netif {E} n x (w : net E) : net E := set_netifs (<[n := x]> (netifs w)) w.

(** Changing an object of each kind. *)
Definition upd_buf {E} b f (w : net E) : option (net E) := x ← bufs w !! b; Some (put_buf b (f x) w).
Definition upd_sock {E} s f (w : net E) : option (net E) := x ← socks w !! s; Some (put_sock s (f x) w).
Definition upd_pcb {E} p f (w : net E) : option (net E) := x ← pcbs w !! p; Some (put_pcb p (f x) w).
Definition upd_netif {E} n f (w : net E) : option (net E) := x ← netifs w !! n; Some (put_netif n (f x) w).

(** ** The rest of the system

    The kernel (event queues, semaphores and timers), the memory that the
    application gives ([struct vsfip_mem_op_t]), its callbacks, and the
    interface driver, as operations on the world. *)

Inductive sem_id := INPUT_SEM (so : Z) | OUTPUT_SEM (n : Z) | ARPC_SEM (n : Z).
Inductive timer_id := TICK_TIMER | RX_TIMER (so : Z) | TX_TIMER (so : Z) | ARPC_TIMER (n : Z).

Record system (E : Type) := {
  sm_init : Z → net E → option (Z * net E);
  post_evt : Z → Z → net E → option (net E);
  sem_init : sem_id → Z → net E → net E;
  sem_post : sem_id → net E → option (Z * net E);
  sem_pend : sem_id → Z → net E → option (Z * net E);
  sync_cancel : sem_id → Z → net E → option (net E);
  timer_enqueue : timer_id → Z → Z → Z → Z → net E → net E;
  timer_dequeue : timer_id → net E → net E;
  get_buffer : Z → E → Z * list Z * E;
  release_buffer : Z → E → E;
  get_socket : E → Z * E;
  release_socket : Z → E → E;
  get_tcppcb : E → Z * E;
  release_tcppcb : Z → E → E;
  call_on_input : Z → Z → Z → net E → option (net E);
  call_on_outputted : Z → Z → net E → option (net E);
  call_sniffer : Z → Z → net E → option (net E);
  drv_header : Z → Z → Z → vsfip_addr_t → net E → option (Z * net E);
  drv_init : Z → Z → net E → option (Z * net E);
  drv_fini : Z → Z → net E → option (Z * net E);
  cfg_rx_window : Z; cfg_tx_window : Z }.

Arguments sm_init {_}. Arguments post_evt {_}. Arguments sem_init {_}. Arguments sem_post {_}.
Arguments sem_pend {_}. Arguments sync_cancel {_}. Arguments timer_enqueue {_}.
Arguments timer_dequeue {_}. Arguments get_buffer {_}. Arguments release_buffer {_}.
Arguments get_socket {_}. Arguments release_socket {_}. Arguments get_tcppcb {_}.
Arguments release_tcppcb {_}. Arguments call_on_input {_}. Arguments call_on_outputted {_}.
Arguments call_sniffer {_}. Arguments drv_header {_}. Arguments drv_init {_}. Arguments drv_fini {_}. Arguments cfg_rx_window {_}.
Arguments cfg_tx_window {_}.

(** ** Fields of packets

    An [n]-byte field of the packed header structures at offset [o], in the byte
    order of the processor (little-endian); [None] outside the packet. *)
Definition rd (n : nat) (m : list Z) (o : Z) : option Z :=
  if o <? 0 then None else le_value <$> read_at m (Z.to_nat o) n.
Definition wr (n : nat) (m : list Z) (o v : Z) : option (list Z) :=
  if o <? 0 then None else memcpy m (Z.to_nat o) (le_bytes n v).
Definition rd_bytes (m : list Z) (o n : Z) : option (list Z) :=
  if o <? 0 then None else read_at m (Z.to_nat o) (Z.to_nat n).
Definition wr_bytes (m : list Z) (o : Z) (bs : list Z) : option (list Z) :=
  if o <? 0 then None else memcpy m (Z.to_nat o) bs.

(** [SYS_TO_BE_U16] and [BE_TO_SYS_U16], and for words of 32 bits. *)
Definition be16 (v : Z) : Z := SWAP_U16 (u16 v).
Definition be32 (v : Z) : Z := SWAP_U32 (u32 v).

(** [x->f = BE_TO_SYS(x->f)]. *)
Definition swap16_at (m : list Z) (o : Z) : option (list Z) := v ← rd 2 m o; wr 2 m o (be16 v).
Definition swap32_at (m : list Z) (o : Z) : option (list Z) := v ← rd 4 m o; wr 4 m o (be32 v).

(** [memset(&x, 0, sizeof x)]. *)
Definition zero_addr : vsfip_addr_t := {| asize := 0; s_addr_buf := replicate 16 0 |}.
Definition zero_sockaddr : vsfip_sockaddr_t := {| sin_port := 0; sin_addr := zero_addr |}.

(** ** Buffers *)

Section buffers.
Context {E : Type} (sys : system E).
Implicit Types w : net E.

(** The new buffer and its nodes; the fields that are not set here are set before
    they are used. *)
Definition vsfip_buffer_get (size : Z) w : Z * net E :=
  let '(b, m, e) := get_buffer sys size (env w) in
  let w := set_env e w in
  if b =? NULL then (NULL, w)
  else
    let x := {| mem := m; buf := {| off := 0; wsize := size |}; app := {| off := 0; wsize := size |};
                iphead := 0; ref := 1; ttl := 0; retry := 0; netif := NULL |} in
    let nd := {| addr := 0; next := NULL |} in
    (b, set_pnodes (<[b := nd]> (pnodes w)) (set_nnodes (<[b := nd]> (nnodes w)) (put_buf b x w))).

Definition vsfip_appbuffer_get (header appsize : Z) w : option (Z * net E) :=
  let '(b, w) := vsfip_buffer_get (header + appsize) w in
  if b =? NULL then Some (NULL, w)
  else
    w ← upd_buf b (λ x, set_app {| off := off (app x) + header; wsize := u32 (wsize (app x) - header) |} x) w;
    Some (b, w).

Definition vsfip_buffer_reference (b : Z) w : option (net E) :=
  if b =? NULL then Some w else upd_buf b (λ x, set_ref (u16 (ref x + 1)) x) w.

(** The memory of a released buffer is not touched: its nodes stay as they are. *)
Definition vsfip_buffer_release (b : Z) w : option (net E) :=
  if b =? NULL then Some w
  else
    x ← bufs w !! b;
    if ref x =? 0 then Some w
    else if u16 (ref x - 1) =? 0
    then Some (set_env (release_buffer sys b (env w)) (set_bufs (delete b (bufs w)) w))
    else Some (put_buf b (set_ref (u16 (ref x - 1)) x) w).

(** ** Queues of buffers by their [proto_node] *)

Definition proto_append (q : vsfq_t) (b : Z) w : option (vsfq_t * net E) :=
  '(h, q) ← vsfq_append (pnodes w) q b; Some (q, set_pnodes h w).
Definition proto_remove (q : vsfq_t) (b : Z) w : option (vsfq_t * net E) :=
  '(h, q) ← vsfq_remove (pnodes w) q b; Some (q, set_pnodes h w).
Definition netif_append (q : vsfq_t) (b : Z) w : option (vsfq_t * net E) :=
  '(h, q) ← vsfq_append (nnodes w) q b; Some (q, set_nnodes h w).

(** The loop over the queue; the queue itself is a field of a socket. *)
Fixpoint bufferlist_free_loop (fuel : nat) (q : vsfq_t) w : option (vsfq_t * net E) :=
  match fuel with
  | O => None
  | S fuel =>
      '(b, q) ← vsfq_dequeue (pnodes w) q;
      if b =? NULL then Some (q, w)
      else w ← vsfip_buffer_release b w; bufferlist_free_loop fuel q w
  end.
Definition vsfip_bufferlist_free (q : vsfq_t) w : option (vsfq_t * net E) :=
  bufferlist_free_loop (fuel_of (pnodes w)) q w.

Fixpoint bufferlist_len_loop (fuel : nat) (b size : Z) w : option Z :=
  match fuel with
  | O => None
  | S fuel =>
      if b =? NULL then Some size
      else
        x ← bufs w !! b;
        nx ← load_nxt (pnodes w) b;
        bufferlist_len_loop fuel nx (u32 (size + wsize (app x))) w
  end.
Definition vsfip_bufferlist_len (q : vsfq_t) w : option Z :=
  bufferlist_len_loop (fuel_of (pnodes w)) (head q) 0 w.

End buffers.

(** ** Checksums *)

(** [while (len > 1)], two bytes at a time. *)
Fixpoint checksum_loop (m : list Z) (sum : Z) : Z :=
  match m with
  | a :: b :: m => checksum_loop m (u32 (sum + Z.lor (Z.shiftl a 8) b))
  | [a] => u32 (sum + u16 (Z.shiftl a 8))
  | [] => sum
  end.
Definition fold16 (c : Z) : Z := u32 (Z.land c 0xFFFF + Z.shiftr c 16).
Definition vsfip_checksum (data : list Z) : Z := u16 (fold16 (fold16 (checksum_loop data 0))).

(** The pseudo header adds the two addresses, the protocol and the length. *)
Definition vsfip_proto_checksum (local_addr remote_addr : vsfip_addr_t) (proto size : Z)
    (data : list Z) : option Z :=
  l0 ← GET_U16_MSBFIRST (s_addr_buf local_addr);
  l2 ← GET_U16_MSBFIRST (drop 2 (s_addr_buf local_addr));
  r0 ← GET_U16_MSBFIRST (s_addr_buf remote_addr);
  r2 ← GET_U16_MSBFIRST (drop 2 (s_addr_buf remote_addr));
  let c := u32 (vsfip_checksum data + l0 + l2 + r0 + r2 + proto + size) in
  Some (u16 (fold16 (fold16 c))).

(** [VSFIP_IP4H_V] and [VSFIP_IP4H_HLEN]. *)
Definition VSFIP_IP4H_V (ver_hl : Z) : Z := Z.shiftr ver_hl 4.
Definition VSFIP_IP4H_HLEN (ver_hl : Z) : Z := Z.land ver_hl 0x0F.
