(* ===== verification/Netif.v ===== *)
(** * Netif: interfaces and address resolution (netif/vsfip_netif.c, eth/vsfip_eth.c)

    A packet for the network is given the header of the interface and queued for
    its driver.  The hardware address comes from a cache; packets for which
    there is none wait in a queue for the ARP client, a protothread that asks the
    network for one packet at a time. *)

From S2P Require Import Prelude Chain Vsfq Bits Endian Ipdata.

(** ** Constants *)

Definition VSFIP_NETIF_EVT_ARPC_TIMEOUT : Z := 0x6002.
Definition VSFIP_NETIF_EVT_ARPC_UPDATE : Z := 0x6003.
Definition VSFIP_NETIF_EVT_ARPC_REQUEST : Z := 0x4002.
Definition ARP_REQUEST : Z := 1.
Definition ARP_REPLY : Z := 2.
(** [sizeof(struct vsfip_arphead_t)]. *)
Definition ARP_HEADSIZE : Z := 8.
Definition VSFIP_ETH_HEADSIZE : Z := 14.

(** The state machine of an interface's ARP client, inside the interface. *)
Definition arpc_sm (n : Z) : Z := n + 1.

(** ** The cache *)

(** [NULL] is [None]. *)
Fixpoint get_mac_loop (c : list vsfip_arp_entry_t) (ip : Z) : option vsfip_addr_t :=
  match c with
  | [] => None
  | e :: c => if negb (etime e =? 0) && (ip =? s_addr (eip e)) then Some (emac e) else get_mac_loop c ip
  end.
Definition vsfip_netif_get_mac (n : vsfip_netif_t) (ip : vsfip_addr_t) : option vsfip_addr_t :=
  if s_addr ip =? 0xFFFFFFFF then Some (mac_broadcast n) else get_mac_loop (arp_cache n) (s_addr ip).

(** The entry to use: the first unused one, else the oldest so far. *)
Fixpoint choose_entry (c : list vsfip_arp_entry_t) (i best besttime : Z) : Z :=
  match c with
  | [] => best
  | e :: c =>
      if etime e =? 0 then i
      else if etime e <? besttime then choose_entry c (i + 1) i (etime e)
      else choose_entry c (i + 1) best besttime
  end.

(** [memcpy(a.addr.s_addr_buf, bs, size); a.size = size]. *)
Definition addr_of (old : list Z) (bs : list Z) : option vsfip_addr_t :=
  b ← memcpy old 0 bs; Some {| asize := Z.of_nat (length bs); s_addr_buf := b |}.

Definition vsfip_netif_arp_add_assoc (n : vsfip_netif_t) (hwaddr protoaddr : list Z) : option vsfip_netif_t :=
  ip ← addr_of (s_addr_buf zero_addr) protoaddr;
  match vsfip_netif_get_mac n ip with
  | Some _ => Some n
  | None =>
      e0 ← arp_cache n !! 0%nat;
      let i := Z.to_nat (choose_entry (arp_cache n) 0 0 (etime e0)) in
      e ← arp_cache n !! i;
      mac ← addr_of (s_addr_buf (emac e)) hwaddr;
      ip ← addr_of (s_addr_buf (eip e)) protoaddr;
      Some (set_arp_time (u32 (arp_time n + 1))
              (set_arp_cache (<[i := {| emac := mac; eip := ip; etime := arp_time n |}]> (arp_cache n)) n))
  end.

(** ** Output *)

(** The destination in the IP header; only IPv4 packets have one. *)
Definition vsfip_netif_get_ipaddr (b : vsfip_buffer_t) : option vsfip_addr_t :=
  v ← rd 1 (mem b) (iphead b);
  if Z.shiftr v 4 =? 4 then
    d ← rd 4 (mem b) (iphead b + 16);
    Some (set_s_addr d {| asize := 4; s_addr_buf := s_addr_buf zero_addr |})
  else None.

Fixpoint islocal_loop (len : nat) (ip gw mask : list Z) : option bool :=
  match len, ip, gw, mask with
  | O, _, _, _ => Some true
  | S len, a :: ip, g :: gw, m :: mask =>
      if negb (Z.land a m =? Z.land g m) then Some false else islocal_loop len ip gw mask
  | S _, _, _, _ => None
  end.
Definition vsfip_netif_islocal (n : vsfip_netif_t) (ip : vsfip_addr_t) : option bool :=
  if s_addr ip =? 0xFFFFFFFF then Some true
  else islocal_loop (Z.to_nat (asize (netmask n))) (s_addr_buf ip) (s_addr_buf (gateway n))
         (s_addr_buf (netmask n)).

(** The address to resolve: the destination or the gateway. *)
Definition next_hop (n : vsfip_netif_t) (dest : vsfip_addr_t) : option vsfip_addr_t :=
  l ← vsfip_netif_islocal n dest;
  Some (if (l : bool) || (asize (gateway n) =? 0) then dest else gateway n).

Section netif.
Context {E : Type} (sys : system E).
Implicit Types w : net E.

Definition vsfip_netif_ip_output_do (b proto : Z) (mac : vsfip_addr_t) w : option (Z * net E) :=
  x ← bufs w !! b;
  n ← netifs w !! netif x;
  '(err, w) ← drv_header sys (drv n) b proto mac w;
  if negb (err =? 0) then
    w ← vsfip_buffer_release sys b w; Some (VSFERR_FAIL, w)
  else
    n ← netifs w !! netif x;
    '(q, w) ← netif_append (noutq n) b w;
    sem_post sys (OUTPUT_SEM (netif x)) (put_netif (netif x) (set_noutq q n) w).

Definition vsfip_netif_ip_output (b : Z) w : option (Z * net E) :=
  x ← bufs w !! b;
  n ← netifs w !! netif x;
  dest ← vsfip_netif_get_ipaddr x;
  ip ← next_hop n dest;
  match vsfip_netif_get_mac n ip with
  | None =>
      '(q, w) ← netif_append (requestq n) b w;
      sem_post sys (ARPC_SEM (netif x)) (put_netif (netif x) (set_requestq q n) w)
  | Some mac =>
      if negb (wsize (buf x) =? 0) then vsfip_netif_ip_output_do b VSFIP_NETIF_PROTO_IP mac w
      else Some (VSFERR_NONE, w)
  end.

(** The Ethernet driver's [header]. *)
Definition vsfip_eth_header (driver b proto : Z) (dest : vsfip_addr_t) w : option (Z * net E) :=
  x ← bufs w !! b;
  n ← netifs w !! netif x;
  if off (buf x) <? VSFIP_ETH_HEADSIZE then Some (VSFERR_FAIL, w)
  else
    let o := off (buf x) - VSFIP_ETH_HEADSIZE in
    dst ← rd_bytes (s_addr_buf dest) 0 6;
    src ← rd_bytes (s_addr_buf (macaddr n)) 0 6;
    m ← wr_bytes (mem x) o dst;
    m ← wr_bytes m (o + 6) src;
    m ← wr 2 m (o + 12) (be16 proto);
    let x := set_buf {| off := o; wsize := u32 (wsize (buf x) + VSFIP_ETH_HEADSIZE) |} (set_mem m x) in
    Some (VSFERR_NONE, put_buf b x w).

(** ** ARP *)

(** The head of an ARP packet, after its fields are in the processor's order. *)
Record vsfip_arphead_t := { ahwlen : Z; aprotolen : Z; aop : Z }.

Definition fix_arphead (m : list Z) (o : Z) : option (list Z) :=
  m ← swap16_at m o; m ← swap16_at m (o + 2); swap16_at m (o + 6).
Definition read_arphead (m : list Z) (o : Z) : option vsfip_arphead_t :=
  hl ← rd 1 m (o + 4); pl ← rd 1 m (o + 5); op ← rd 2 m (o + 6);
  Some {| ahwlen := hl; aprotolen := pl; aop := op |}.

(** The two lengths fit the interface and the packet. *)
Definition arp_sizes_ok (n : vsfip_netif_t) (h : vsfip_arphead_t) (size : Z) : bool :=
  (ahwlen h =? asize (macaddr n)) && (aprotolen h =? asize (ipaddr n)) &&
  (ARP_HEADSIZE + 2 * (ahwlen h + aprotolen h) <=? size).

(** The reply, in place of the request; with it the address to send it to. *)
Definition arp_reply (n : vsfip_netif_t) (h : vsfip_arphead_t) (m : list Z) (o : Z) :
    option (vsfip_addr_t * list Z) :=
  let p := o + ARP_HEADSIZE in
  let hl := ahwlen h in let pl := aprotolen h in
  m ← wr 2 m o (be16 (hwtype n));
  m ← wr 2 m (o + 2) (be16 VSFIP_NETIF_PROTO_IP);
  m ← wr 2 m (o + 6) (be16 ARP_REPLY);
  mac ← rd_bytes m p hl;
  ip ← rd_bytes m (p + hl) pl;
  own_mac ← rd_bytes (s_addr_buf (macaddr n)) 0 hl;
  own_ip ← rd_bytes (s_addr_buf (ipaddr n)) 0 pl;
  m ← wr_bytes m p own_mac;
  m ← wr_bytes m (p + hl) own_ip;
  m ← wr_bytes m (p + hl + pl) mac;
  m ← wr_bytes m (p + 2 * hl + pl) ip;
  dest ← addr_of (s_addr_buf zero_addr) mac;
  Some (dest, m).

Definition arp_for_us (n : vsfip_netif_t) (h : vsfip_arphead_t) (m : list Z) (o : Z) : option bool :=
  target ← rd_bytes m (o + ARP_HEADSIZE + 2 * ahwlen h + aprotolen h) (aprotolen h);
  own ← rd_bytes (s_addr_buf (ipaddr n)) 0 (aprotolen h);
  Some (bool_decide (target = own)).

Definition vsfip_netif_arp_input (b : Z) w : option (net E) :=
  x ← bufs w !! b;
  n ← netifs w !! netif x;
  let o := off (buf x) in
  m ← fix_arphead (mem x) o;
  let w := put_buf b (set_mem m x) w in
  h ← read_arphead m o;
  if aop h =? ARP_REQUEST then
    us ← (if arp_sizes_ok n h (wsize (buf x)) then arp_for_us n h m o else Some false);
    if us : bool then
      '(dest, m) ← arp_reply n h m o;
      '(_, w) ← vsfip_netif_ip_output_do b VSFIP_NETIF_PROTO_ARP dest (put_buf b (set_mem m x) w);
      Some w
    else vsfip_buffer_release sys b w
  else if aop h =? ARP_REPLY then
    if arp_sizes_ok n h (wsize (buf x)) then
      hw ← rd_bytes m (o + ARP_HEADSIZE) (ahwlen h);
      ip ← rd_bytes m (o + ARP_HEADSIZE + asize (macaddr n)) (aprotolen h);
      n ← vsfip_netif_arp_add_assoc n hw ip;
      let w := put_netif (netif x) n w in
      w ← (if sm_pending n =? NULL then Some w
           else post_evt sys (sm_pending n) VSFIP_NETIF_EVT_ARPC_UPDATE w);
      vsfip_buffer_release sys b w
    else vsfip_buffer_release sys b w
  else vsfip_buffer_release sys b w.

(** [VSFIP_NETIFBUF_GET(128)], filled with the request. *)
Definition arp_request (n : vsfip_netif_t) (ip : vsfip_addr_t) (m : list Z) : option (window * list Z) :=
  let o := header_size n in
  let hl := asize (macaddr n) in let pl := asize (ipaddr n) in
  m ← wr 2 m o (be16 (hwtype n));
  m ← wr 2 m (o + 2) (be16 VSFIP_NETIF_PROTO_IP);
  m ← wr 1 m (o + 4) (u8 hl);
  m ← wr 1 m (o + 5) (u8 pl);
  m ← wr 2 m (o + 6) (be16 ARP_REQUEST);
  own_mac ← rd_bytes (s_addr_buf (macaddr n)) 0 hl;
  own_ip ← rd_bytes (s_addr_buf (ipaddr n)) 0 pl;
  target ← rd_bytes (s_addr_buf ip) 0 (asize ip);
  let p := o + ARP_HEADSIZE in
  m ← wr_bytes m p own_mac;
  m ← wr_bytes m (p + hl) own_ip;
  m ← wr_bytes m (p + hl + pl) (replicate (Z.to_nat hl) 0);
  m ← wr_bytes m (p + 2 * hl + pl) target;
  Some ({| off := o; wsize := ARP_HEADSIZE + 2 * hl + pl + asize ip |}, m).

Definition vsfip_netif_prepare_arp_request (nt : Z) (ip : vsfip_addr_t) w : option (Z * net E) :=
  let '(b, w) := vsfip_buffer_get sys (128 + VSFIP_CFG_NETIF_HEADLEN) w in
  if b =? NULL then Some (NULL, w)
  else
    n ← netifs w !! nt;
    x ← bufs w !! b;
    '(win, m) ← arp_request n ip (mem x);
    Some (b, put_buf b (set_buf win (set_mem m (set_netif nt x))) w).

(** ** The ARP client

    The points of the thread: the head of its loop, a request to take from the
    queue, a request to send, an answer or a timeout, and the end of the round
    with the address found.  [arpc_pt] is the line it waits at. *)
Inductive arpc_point :=
  | ArpcTop | ArpcServe | ArpcRetry | ArpcAnswer | ArpcFound (mac : option vsfip_addr_t).

Definition ARPC_WAIT_REQUEST : Z := 341.
Definition ARPC_WAIT_REPLY : Z := 377.

(** [return VSFERR_NOT_READY] with the label set. *)
Definition arpc_wait (nt line : Z) w : option (Z * net E) :=
  w ← upd_netif nt (set_arpc_pt line) w; Some (VSFERR_NOT_READY, w).

(** The next point, or what the thread returns. *)
Definition arpc_step (nt : Z) (p : arpc_point) w : option ((arpc_point + Z) * net E) :=
  n ← netifs w !! nt;
  match p with
  | ArpcTop =>
      if quit n then Some (inr VSFERR_NONE, w)
      else
        '(r, w) ← sem_pend sys (ARPC_SEM nt) (arpc_sm nt) w;
        if negb (r =? 0) then '(r, w) ← arpc_wait nt ARPC_WAIT_REQUEST w; Some (inr r, w)
        else Some (inl ArpcServe, w)
  | ArpcServe =>
      '(b, q) ← vsfq_dequeue (nnodes w) (requestq n);
      let n := set_cur_request b (set_requestq q n) in
      if b =? NULL then Some (inl ArpcTop, put_netif nt n w)
      else
        x ← bufs w !! b;
        dest ← vsfip_netif_get_ipaddr x;
        ip ← next_hop n dest;
        let n := set_ip_for_mac ip n in
        match vsfip_netif_get_mac n ip with
        | Some mac => Some (inl (ArpcFound (Some mac)), put_netif nt n w)
        | None => Some (inl ArpcRetry, put_netif nt (set_arpc_retry 3 n) w)
        end
  | ArpcRetry =>
      '(b, w) ← vsfip_netif_prepare_arp_request nt (ip_for_mac n) w;
      w ← upd_netif nt (set_arpc_buf b) w;
      if b =? NULL then Some (inl (ArpcFound None), w)
      else
        '(err, w) ← vsfip_netif_ip_output_do b VSFIP_NETIF_PROTO_ARP (mac_broadcast n) w;
        if negb (err =? 0) then Some (inl ArpcAnswer, w)
        else
          w ← upd_netif nt (set_sm_pending (arpc_sm nt)) w;
          let w := timer_enqueue sys (ARPC_TIMER nt) VSFIP_CFG_ARP_TIMEOUT_MS (arpc_sm nt)
                     VSFIP_NETIF_EVT_ARPC_TIMEOUT 1 w in
          '(r, w) ← arpc_wait nt ARPC_WAIT_REPLY w;
          Some (inr r, w)
  | ArpcAnswer =>
      match vsfip_netif_get_mac n (ip_for_mac n) with
      | None =>
          if 0 <? arpc_retry n
          then Some (inl ArpcRetry, put_netif nt (set_arpc_retry (u32 (arpc_retry n - 1)) n) w)
          else Some (inl (ArpcFound None), w)
      | found => Some (inl (ArpcFound found), w)
      end
  | ArpcFound None =>
      w ← vsfip_buffer_release sys (cur_request n) w; Some (inl ArpcTop, w)
  | ArpcFound (Some mac) =>
      '(_, w) ← vsfip_netif_ip_output_do (cur_request n) VSFIP_NETIF_PROTO_IP mac w;
      Some (inl ArpcTop, w)
  end.

Fixpoint arpc_run (fuel : nat) (nt : Z) (p : arpc_point) w : option (Z * net E) :=
  match fuel with
  | O => None
  | S fuel =>
      '(p, w) ← arpc_step nt p w;
      match p with inl p => arpc_run fuel nt p w | inr r => Some (r, w) end
  end.

(** A dispatch of the thread with an event. *)
Definition vsfip_netif_arp_client_thread (fuel : nat) (nt evt : Z) w : option (Z * net E) :=
  n ← netifs w !! nt;
  if arpc_pt n =? 0 then arpc_run fuel nt ArpcTop w
  else if arpc_pt n =? ARPC_WAIT_REQUEST then
    if negb (evt =? VSFIP_NETIF_EVT_ARPC_REQUEST) then Some (VSFERR_NOT_READY, w)
    else arpc_run fuel nt ArpcServe w
  else if arpc_pt n =? ARPC_WAIT_REPLY then
    if negb ((evt =? VSFIP_NETIF_EVT_ARPC_UPDATE) || (evt =? VSFIP_NETIF_EVT_ARPC_TIMEOUT))
    then Some (VSFERR_NOT_READY, w)
    else
      let w := timer_dequeue sys (ARPC_TIMER nt) w in
      w ← upd_netif nt (set_sm_pending NULL) w;
      arpc_run fuel nt ArpcAnswer w
  else None.

(** ** Start *)

(** [VSFSM_EVT_USER_LOCAL] is the event of the output semaphore. *)
Definition vsfip_netif_construct (nt : Z) w : option (Z * net E) :=
  n ← netifs w !! nt;
  let w := put_netif nt (set_arp_time 1 (set_arpc_buf NULL (set_noutq vsfq_init n))) w in
  let w := sem_init sys (OUTPUT_SEM nt) 0x4000 w in
  let w := sem_init sys (ARPC_SEM nt) VSFIP_NETIF_EVT_ARPC_REQUEST w in
  sm_init sys (arpc_sm nt) w.

End netif.
