(* ===== verification/Ipsock.v ===== *)
(** * Ipsock: sockets, IP output and UDP (tcpip/vsfip.c)

    The sockets of each protocol are in a list, the children of a listening
    socket in a list of its own.  The routines that take a list by the address of
    its head are functions from the head to the new head. *)

From S2P Require Import Prelude Chain Vsfq Bits Endian Ipdata Netif.

Section sockets.
Context {E : Type} (sys : system E).
Implicit Types w : net E.

(** ** Lists of sockets *)

Definition vsfip_socketlist_add (hd so : Z) w : option (Z * net E) :=
  w ← (if negb (hd =? NULL) then upd_sock so (set_snext hd) w else Some w);
  Some (so, w).

Fixpoint socketlist_remove_loop (fuel : nat) (tmp so : Z) w : option (bool * net E) :=
  match fuel with
  | O => None
  | S fuel =>
      if tmp =? NULL then Some (false, w)
      else
        t ← socks w !! tmp;
        if snext t =? so then
          s ← socks w !! so;
          Some (true, put_sock tmp (set_snext (snext s) t) w)
        else socketlist_remove_loop fuel (snext t) so w
  end.

Definition vsfip_socketlist_remove (hd so : Z) w : option (bool * Z * net E) :=
  if hd =? NULL then Some (false, hd, w)
  else if hd =? so then s ← socks w !! so; Some (true, snext s, w)
  else '(r, w) ← socketlist_remove_loop (fuel_of (socks w)) hd so w; Some (r, hd, w).

(** The lists of bound sockets, by protocol; no other protocol has one. *)
Definition conns_of (proto : Z) w : option Z :=
  if proto =? IPPROTO_UDP then Some (udpconns (vsfip w))
  else if proto =? IPPROTO_TCP then Some (tcpconns (vsfip w))
  else None.
Definition set_conns (proto hd : Z) w : net E :=
  if proto =? IPPROTO_UDP then set_vsfip (set_udpconns hd (vsfip w)) w
  else set_vsfip (set_tcpconns hd (vsfip w)) w.

(** ** Making and releasing sockets *)

Definition zero_pcb : vsfip_tcppcb_t :=
  {| state := INVALID; lseq := 0; acked_lseq := 0; rseq := 0; acked_rseq := 0; rwnd := 0;
     tx_sm := NULL; tx_timeout := 0; tx_retry := 0; tx_window := 0;
     rx_sm := NULL; rx_timeout := 0; rx_window := 0; ack_tick := 0;
     rclose := false; lclose := false; pflags := 0 |}.

Definition new_socket (fam proto : Z) : vsfip_socket_t :=
  {| family := fam; protocol := proto; local_sockaddr := zero_sockaddr; remote_sockaddr := zero_sockaddr;
     ippcb_buf := NULL; ippcb_id := 0; xfed_len := 0; protopcb := NULL;
     inq := vsfq_init; outq := vsfq_init; can_rx := false;
     child := NULL; backlog := 0; accepted_num := 0; closing := false; accepted := false; father := NULL;
     tx_timeout_ms := 0; rx_timeout_ms := 0;
     proto_on_input := NULL; user_on_input := NULL; user_on_outputted := NULL; user_param := NULL;
     snext := NULL |}.

Definition new_pcb : vsfip_tcppcb_t :=
  {| state := CLOSED; lseq := 0; acked_lseq := 0; rseq := 0; acked_rseq := 0; rwnd := 0;
     tx_sm := NULL; tx_timeout := 0; tx_retry := 0; tx_window := cfg_tx_window sys;
     rx_sm := NULL; rx_timeout := 0; rx_window := cfg_rx_window sys; ack_tick := 0;
     rclose := true; lclose := true; pflags := 0 |}.

Definition vsfip_socket_release (so : Z) w : net E :=
  set_env (release_socket sys so (env w)) (set_socks (delete so (socks w)) w).
Definition vsfip_tcppcb_release (p : Z) w : net E :=
  set_env (release_tcppcb sys p (env w)) (set_pcbs (delete p (pcbs w)) w).

(** [vsfip_socket], the whole routine: NULL when there is no memory. *)
Definition vsfip_socket (fam proto : Z) w : Z * net E :=
  let '(so, e) := get_socket sys (env w) in
  let w := set_env e w in
  if so =? NULL then (NULL, w)
  else
    let s := new_socket fam proto in
    let w := sem_init sys (INPUT_SEM so) VSFIP_EVT_SOCKET_RECV (put_sock so s w) in
    if proto =? IPPROTO_TCP then
      let s := set_proto_on_input TCP_INPUT_FN (set_can_rx true s) in
      let '(p, e) := get_tcppcb sys (env w) in
      let w := set_env e (put_sock so s w) in
      if p =? NULL then (NULL, vsfip_socket_release so w)
      else (so, put_sock so (set_protopcb p s) (put_pcb p new_pcb w))
    else if proto =? IPPROTO_UDP then (so, put_sock so (set_proto_on_input UDP_INPUT_FN s) w)
    else (so, w).

Definition vsfip_childsocket (fa : Z) (sockaddr : vsfip_sockaddr_t) w : option (Z * net E) :=
  f ← socks w !! fa;
  let '(so, w) := vsfip_socket (family f) (protocol f) w in
  if so =? NULL then Some (NULL, w)
  else
    w ← upd_sock so (λ s, set_father fa (set_local (local_sockaddr f) (set_remote sockaddr
           (set_rx_timeout_ms (rx_timeout_ms f) (set_tx_timeout_ms (tx_timeout_ms f)
              (set_can_rx (can_rx f) s)))))) w;
    '(hd, w) ← vsfip_socketlist_add (child f) so w;
    w ← upd_sock fa (set_child hd) w;
    Some (so, w).

(** [vsfip_tcp_postevt(&x, evt)] on a field [x]: [sm] is its value, and the field
    is cleared by [clear] before the event is posted. *)
Definition vsfip_tcp_postevt (sm : Z) (clear : net E → option (net E)) (evt : Z) w : option (net E) :=
  if sm =? NULL then Some w else w ← clear w; post_evt sys sm evt w.

(** Taking a socket off the list it is on. *)
Definition unlist (so : Z) w : option (net E) :=
  s ← socks w !! so;
  if negb (father s =? NULL) then
    f ← socks w !! father s;
    '(_, hd, w) ← vsfip_socketlist_remove (child f) so w;
    upd_sock (father s) (set_child hd) w
  else
    hd ← conns_of (protocol s) w;
    '(_, hd, w) ← vsfip_socketlist_remove hd so w;
    Some (set_conns (protocol s) hd w).

Definition vsfip_free_socket (so : Z) w : option (Z * net E) :=
  w ← unlist so w;
  s ← socks w !! so;
  '(q, w) ← vsfip_bufferlist_free sys (inq s) w;
  w ← upd_sock so (set_inq q) w;
  '(q, w) ← vsfip_bufferlist_free sys (outq s) w;
  w ← upd_sock so (set_outq q) w;
  let w := timer_dequeue sys (RX_TIMER so) (timer_dequeue sys (TX_TIMER so) w) in
  s ← socks w !! so;
  w ← (if (protocol s =? IPPROTO_TCP) && negb (protopcb s =? NULL) then
         p ← pcbs w !! protopcb s;
         w ← (if bool_decide (state p = LISTEN)
              then vsfip_tcp_postevt (rx_sm p) (upd_pcb (protopcb s) (set_rx_sm NULL))
                     VSFIP_EVT_TCP_CONNECTFAIL w
              else Some w);
         Some (vsfip_tcppcb_release (protopcb s) w)
       else Some w);
  Some (VSFERR_NONE, vsfip_socket_release so w).

Definition vsfip_close (so : Z) w : option (Z * net E) :=
  s ← socks w !! so;
  if (0 <? backlog s) && (0 <? accepted_num s) then
    Some (VSFERR_NONE, put_sock so (set_closing true s) w)
  else
    w ← (if negb (father s =? NULL) then
           f ← socks w !! father s;
           '(found, hd, w) ← vsfip_socketlist_remove (child f) so w;
           w ← upd_sock (father s) (set_child hd) w;
           w ← (if found : bool
                then upd_sock (father s) (λ f, set_accepted_num (u8 (accepted_num f - 1)) f) w
                else Some w);
           f ← socks w !! father s;
           if closing f && (accepted_num f =? 0)
           then '(_, w) ← vsfip_free_socket (father s) w; Some w
           else Some w
         else Some w);
    vsfip_free_socket so w.

Definition vsfip_socket_cb (so param on_input on_outputted : Z) w : option (net E) :=
  upd_sock so (λ s, set_user_on_outputted on_outputted (set_user_on_input on_input (set_user_param param s))) w.

(** [while (tmp != NULL)] of [vsfip_bind]. *)
Fixpoint port_bound (fuel : nat) (tmp port : Z) w : option bool :=
  match fuel with
  | O => None
  | S fuel =>
      if tmp =? NULL then Some false
      else
        t ← socks w !! tmp;
        if sin_port (local_sockaddr t) =? port then Some true else port_bound fuel (snext t) port w
  end.

Definition vsfip_bind (so port : Z) w : option (Z * net E) :=
  s ← socks w !! so;
  hd ← conns_of (protocol s) w;
  bound ← port_bound (fuel_of (socks w)) hd port w;
  if bound : bool then Some (VSFERR_FAIL, w)
  else
    let s := set_snext hd s in
    let s := set_local {| sin_port := port; sin_addr := sin_addr (local_sockaddr s) |} s in
    Some (VSFERR_NONE, set_conns (protocol s) so (put_sock so s w)).

Definition vsfip_listen (so n : Z) w : option (Z * net E) :=
  s ← socks w !! so;
  let s := set_can_rx true s in
  let w := put_sock so s w in
  if protocol s =? IPPROTO_TCP then
    if n =? 0 then Some (VSFERR_INVALID_PARAMETER, w)
    else if 0 <? backlog s then Some (VSFERR_FAIL, w)
    else
      w ← upd_pcb (protopcb s) (set_state LISTEN) (put_sock so (set_backlog n s) w);
      Some (VSFERR_NONE, w)
  else Some (VSFERR_NONE, w).

Definition vsfip_get_port (proto : Z) w : Z * net E :=
  let g := vsfip w in
  if proto =? IPPROTO_TCP then (tcp_port g, set_vsfip (set_tcp_port (u16 (tcp_port g + 1)) g) w)
  else if proto =? IPPROTO_UDP then (udp_port g, set_vsfip (set_udp_port (u16 (udp_port g + 1)) g) w)
  else (0, w).

(** A local port, if the socket has none; the result of [vsfip_bind], or 0. *)
Definition bind_if_unset (so proto : Z) w : option (Z * net E) :=
  s ← socks w !! so;
  if sin_port (local_sockaddr s) =? 0
  then let '(port, w) := vsfip_get_port proto w in vsfip_bind so port w
  else Some (VSFERR_NONE, w).

(** ** IP output *)

Definition vsfip_ip_route (a : vsfip_addr_t) w : Z := netif_default (vsfip w).

Definition vsfip_ip_output_do (b : Z) w : option (Z * net E) :=
  w ← (if negb (output_sniffer (vsfip w) =? NULL) then call_sniffer sys (output_sniffer (vsfip w)) b w
       else '(_, w) ← vsfip_netif_ip_output sys b w; Some w);
  Some (VSFERR_NONE, w).

(** The IPv4 header of a packet of [size] bytes, at offset [o]. *)
Definition write_ip4head (m : list Z) (o size id proto frag src dest : Z) : option (list Z) :=
  m ← wr 1 m o 0x45;
  m ← wr 1 m (o + 1) 0;
  m ← wr 2 m (o + 2) (be16 size);
  m ← wr 2 m (o + 4) (be16 id);
  m ← wr 1 m (o + 8) 32;
  m ← wr 1 m (o + 9) (u8 proto);
  m ← wr 2 m (o + 6) (be16 frag);
  m ← wr 2 m (o + 10) (be16 0);
  m ← wr 4 m (o + 12) src;
  m ← wr 4 m (o + 16) dest;
  h ← rd_bytes m o VSFIP_IP_HEADLEN;
  wr 2 m (o + 10) (be16 (u16 (Z.lnot (vsfip_checksum h)))).

Definition vsfip_add_ip4head (so : Z) w : option (Z * net E) :=
  s ← socks w !! so;
  x ← bufs w !! ippcb_buf s;
  if off (app x) <? VSFIP_IP_HEADLEN then Some (VSFERR_FAIL, w)
  else
    n ← netifs w !! netif x;
    let o := off (buf x) - VSFIP_IP_HEADLEN in
    let size := u32 (wsize (buf x) + VSFIP_IP_HEADLEN) in
    m ← write_ip4head (mem x) o size (ippcb_id s) (protocol s) (u16 (xfed_len s)) (s_addr (ipaddr n))
          (s_addr (sin_addr (remote_sockaddr s)));
    let x := set_iphead o (set_buf {| off := o; wsize := size |} (set_mem m x)) in
    Some (VSFERR_NONE, put_buf (ippcb_buf s) x w).

Definition vsfip_ip4_output (so : Z) w : option (Z * net E) :=
  s ← socks w !! so;
  x ← bufs w !! ippcb_buf s;
  n ← netifs w !! netif x;
  if u32 (mtu n - VSFIP_IP_HEADLEN) <? wsize (buf x) then
    w ← vsfip_buffer_release sys (ippcb_buf s) w; Some (VSFERR_NOT_ENOUGH_RESOURCES, w)
  else
    let w := put_sock so (set_ippcb_id (ip_id (vsfip w)) s) w in
    let w := set_vsfip (set_ip_id (u16 (ip_id (vsfip w) + 1)) (vsfip w)) w in
    '(err, w) ← vsfip_add_ip4head so w;
    if negb (err =? 0) then w ← vsfip_buffer_release sys (ippcb_buf s) w; Some (err, w)
    else vsfip_ip_output_do (ippcb_buf s) w.

Definition vsfip_ip6_output (so : Z) w : option (Z * net E) :=
  s ← socks w !! so;
  w ← vsfip_buffer_release sys (ippcb_buf s) w; Some (VSFERR_NONE, w).

Definition vsfip_ip_output (so : Z) w : option (Z * net E) :=
  s ← socks w !! so;
  if family s =? AF_INET then vsfip_ip4_output so w else vsfip_ip6_output so w.

(** ** UDP *)

Definition vsfip_add_udphead (so b : Z) w : option (Z * net E) :=
  s ← socks w !! so;
  x ← bufs w !! b;
  if off (app x) <? VSFIP_UDP_HEADLEN then Some (VSFERR_NOT_ENOUGH_RESOURCES, w)
  else
    let o := off (app x) - VSFIP_UDP_HEADLEN in
    let size := u32 (wsize (app x) + VSFIP_UDP_HEADLEN) in
    m ← wr 2 (mem x) o (be16 (sin_port (local_sockaddr s)));
    m ← wr 2 m (o + 2) (be16 (sin_port (remote_sockaddr s)));
    m ← wr 2 m (o + 4) (be16 size);
    m ← wr 2 m (o + 6) (be16 0);
    Some (VSFERR_NONE, put_buf b (set_buf {| off := o; wsize := size |} (set_mem m x)) w).

(** [cleanup:], which releases the packet. *)
Definition udp_send_failed (b err : Z) w : option (Z * net E) :=
  w ← vsfip_buffer_release sys b w; Some (err, w).

Definition vsfip_udp_async_send (so : Z) (sockaddr : option vsfip_sockaddr_t) (b : Z) w : option (Z * net E) :=
  match sockaddr with
  | None => udp_send_failed b VSFERR_INVALID_PARAMETER w
  | Some sockaddr =>
      if (so =? NULL) || (b =? NULL) then udp_send_failed b VSFERR_INVALID_PARAMETER w
      else
        w ← upd_sock so (set_remote sockaddr) w;
        let n := vsfip_ip_route (sin_addr sockaddr) w in
        w ← upd_buf b (set_netif n) w;
        if n =? NULL then udp_send_failed b VSFERR_FAIL w
        else
          '(err, w) ← bind_if_unset so IPPROTO_UDP w;
          if negb (err =? 0) then udp_send_failed b VSFERR_FAIL w
          else
            '(err, w) ← vsfip_add_udphead so b w;
            if negb (err =? 0) then udp_send_failed b err w
            else
              w ← upd_sock so (set_ippcb_buf b) w;
              '(err, w) ← vsfip_ip_output so w;
              s ← socks w !! so;
              w ← (if (err =? 0) && negb (user_on_outputted s =? NULL)
                   then call_on_outputted sys (user_on_outputted s) (user_param s) w else Some w);
              Some (err, w)
  end.

Definition vsfip_udp_send := vsfip_udp_async_send.

(** [vsfip_udp_match]: the first packet from the address, which is taken off the
    queue; an address that is not set becomes that of the first packet. *)
Fixpoint udp_match_loop (fuel : nat) (so b a : Z) w : option (Z * Z * net E) :=
  match fuel with
  | O => None
  | S fuel =>
      if b =? NULL then Some (b, a, w)
      else
        x ← bufs w !! b;
        src ← rd 4 (mem x) (iphead x + 12);
        let a := if a =? VSFIP_IPADDR_ANY then src else a in
        if a =? src then
          s ← socks w !! so;
          '(q, w) ← proto_remove (inq s) b w;
          let x := set_app {| off := off (buf x) + VSFIP_UDP_HEADLEN;
                              wsize := u32 (wsize (buf x) - VSFIP_UDP_HEADLEN) |} x in
          Some (b, a, put_buf b x (put_sock so (set_inq q s) w))
        else
          nx ← load_nxt (pnodes w) b;
          udp_match_loop fuel so nx a w
  end.

(** The result, the address that the caller's variable has, the packet. *)
Definition vsfip_udp_async_recv (so : Z) (sockaddr : vsfip_sockaddr_t) w :
    option (Z * vsfip_sockaddr_t * Z * net E) :=
  s ← socks w !! so;
  if sin_port (local_sockaddr s) =? 0 then Some (VSFERR_INVALID_PARAMETER, sockaddr, NULL, w)
  else
    let w := put_sock so (set_remote sockaddr s) w in
    '(b, a, w) ← udp_match_loop (fuel_of (pnodes w)) so (head (inq s)) (s_addr (sin_addr sockaddr)) w;
    let sockaddr := {| sin_port := sin_port sockaddr; sin_addr := set_s_addr a (sin_addr sockaddr) |} in
    Some (if b =? NULL then VSFERR_NOT_READY else VSFERR_NONE, sockaddr, b, w).

(** The protothread [vsfip_udp_recv]: its label, and the loop around its wait. *)
Definition UDP_RECV_WAIT : Z := 1106.

Definition udp_result : Type := Z * Z * vsfip_sockaddr_t * Z * net E.

Definition udp_recv_try (sm so : Z) (sockaddr : vsfip_sockaddr_t) (again : vsfip_sockaddr_t → net E → option udp_result) w :
    option udp_result :=
  '(err, sockaddr, b, w) ← vsfip_udp_async_recv so sockaddr w;
  if err =? 0 then Some (VSFERR_NONE, UDP_RECV_WAIT, sockaddr, b, timer_dequeue sys (RX_TIMER so) w)
  else again sockaddr w.

Fixpoint udp_recv_loop (fuel : nat) (sm so : Z) (sockaddr : vsfip_sockaddr_t) w : option udp_result :=
  match fuel with
  | O => None
  | S fuel =>
      '(r, w) ← sem_pend sys (INPUT_SEM so) sm w;
      if negb (r =? 0) then Some (VSFERR_NOT_READY, UDP_RECV_WAIT, sockaddr, NULL, w)
      else udp_recv_try sm so sockaddr (udp_recv_loop fuel sm so) w
  end.

(** The result, the label, the caller's address and packet. *)
Definition vsfip_udp_recv (fuel : nat) (label sm evt so : Z) (sockaddr : vsfip_sockaddr_t) w : option udp_result :=
  if label =? 0 then
    '(err, sockaddr, b, w) ← vsfip_udp_async_recv so sockaddr w;
    if err <=? 0 then Some (err, label, sockaddr, b, w)
    else
      s ← socks w !! so;
      let w := if negb (rx_timeout_ms s =? 0)
               then timer_enqueue sys (RX_TIMER so) (rx_timeout_ms s) sm VSFIP_EVT_SOCKET_TIMEOUT 1 w
               else w in
      udp_recv_loop fuel sm so sockaddr w
  else if label =? UDP_RECV_WAIT then
    if evt =? VSFIP_EVT_SOCKET_TIMEOUT then
      w ← sync_cancel sys (INPUT_SEM so) sm (timer_dequeue sys (RX_TIMER so) w);
      Some (VSFERR_FAIL, label, sockaddr, NULL, w)
    else if evt =? VSFIP_EVT_SOCKET_RECV then
      udp_recv_try sm so sockaddr (udp_recv_loop fuel sm so) w
    else Some (VSFERR_NOT_READY, label, sockaddr, NULL, w)
  else None.

(** What a socket does with a datagram for it. *)
Definition vsfip_udp_socket_input (so b : Z) w : option (net E) :=
  s ← socks w !! so;
  if negb (user_on_input s =? NULL) then call_on_input sys (user_on_input s) (user_param s) b w
  else
    w ← upd_buf b (set_ttl VSFIP_CFG_TTL_INPUT) w;
    '(q, w) ← proto_append (inq s) b w;
    '(_, w) ← sem_post sys (INPUT_SEM so) (put_sock so (set_inq q s) w);
    Some w.

End sockets.
