(* ===== verification/Tcp.v ===== *)
(** * Tcp: the TCP half of tcpip/vsfip.c

    Segments are built around the payload of a buffer and sent; the timer tick
    sends again what was not acknowledged and acknowledges what was received; an
    incoming segment moves the state of the connection.  [connect], [accept],
    [send], [recv] and [close] are protothreads of the machine that calls them:
    they take its label and give the new one, the source's line number. *)

From S2P Require Import Prelude Chain Vsfq Bits Endian Ipdata Netif Ipsock.

Definition VSFIP_TCPFLAG_FIN : Z := 1.
Definition VSFIP_TCPFLAG_SYN : Z := 2.
Definition VSFIP_TCPFLAG_RST : Z := 4.
Definition VSFIP_TCPFLAG_PSH : Z := 8.
Definition VSFIP_TCPFLAG_ACK : Z := 16.

(** [flags & mask]. *)
Definition has (flags mask : Z) : bool := negb (Z.land flags mask =? 0).

(** The head of a segment, in the processor's byte order. *)
Record vsfip_tcphead_t := {
  src_port : Z; dst_port : Z; seqno : Z; ackseq : Z; headlen : Z; hflags : Z; window_size : Z }.

Definition read_tcphead (m : list Z) (o : Z) : option vsfip_tcphead_t :=
  sp ← rd 2 m o; dp ← rd 2 m (o + 2); sq ← rd 4 m (o + 4); ak ← rd 4 m (o + 8);
  hl ← rd 1 m (o + 12); fl ← rd 1 m (o + 13); ws ← rd 2 m (o + 14);
  Some {| src_port := sp; dst_port := dp; seqno := sq; ackseq := ak; headlen := hl;
          hflags := fl; window_size := ws |}.

(** [head.flags &= ~VSFIP_TCPFLAG_FIN]. *)
Definition clear_fin (h : vsfip_tcphead_t) : vsfip_tcphead_t :=
  {| src_port := src_port h; dst_port := dst_port h; seqno := seqno h; ackseq := ackseq h;
     headlen := headlen h; hflags := Z.land (hflags h) (Z.lnot VSFIP_TCPFLAG_FIN);
     window_size := window_size h |}.

Section tcp.
Context {E : Type} (sys : system E).
Implicit Types w : net E.

(** The control block of a socket. *)
Definition pcb_of (so : Z) w : option (vsfip_socket_t * vsfip_tcppcb_t) :=
  s ← socks w !! so; p ← pcbs w !! protopcb s; Some (s, p).
Definition upd_pcb_of (so : Z) (f : vsfip_tcppcb_t → vsfip_tcppcb_t) w : option (net E) :=
  s ← socks w !! so; upd_pcb (protopcb s) f w.

(** [vsfip_tcp_postevt(&pcb->tx_sm, evt)], and for [rx_sm]. *)
Definition post_tx (so evt : Z) w : option (net E) :=
  '(s, p) ← pcb_of so w;
  vsfip_tcp_postevt sys (tx_sm p) (upd_pcb (protopcb s) (set_tx_sm NULL)) evt w.
Definition post_rx (so evt : Z) w : option (net E) :=
  '(s, p) ← pcb_of so w;
  vsfip_tcp_postevt sys (rx_sm p) (upd_pcb (protopcb s) (set_rx_sm NULL)) evt w.

(** ** Sending *)

Definition vsfip_get_tsn w : Z * net E :=
  (tsn (vsfip w), set_vsfip (set_tsn (u32 (tsn (vsfip w) + 0x10000)) (vsfip w)) w).

(** The head at offset [o]; [syn] adds the option. *)
Definition write_tcphead (m : list Z) (o sport dport seq ack hlen flags window : Z) : option (list Z) :=
  m ← wr_bytes m o (replicate 20 0);
  m ← wr 2 m o (be16 sport);
  m ← wr 2 m (o + 2) (be16 dport);
  m ← wr 4 m (o + 4) (be32 seq);
  m ← wr 4 m (o + 8) (be32 ack);
  m ← wr 1 m (o + 12) (u8 (Z.shiftl (Z.shiftr hlen 2) 4));
  m ← wr 1 m (o + 13) flags;
  m ← wr 2 m (o + 14) (be16 window);
  m ← wr 2 m (o + 16) (be16 0);
  wr 2 m (o + 18) (be16 0).

Definition write_mss (m : list Z) (o : Z) : option (list Z) :=
  m ← wr 1 m o 2;
  m ← wr 1 m (o + 1) 4;
  wr_bytes m (o + 2) [Z.shiftr VSFIP_CFG_TCP_MSS 8; VSFIP_CFG_TCP_MSS mod 256].

Definition tcp_headlen (flags : Z) : Z :=
  VSFIP_TCP_HEADLEN + (if has flags VSFIP_TCPFLAG_SYN then 4 else 0).
Definition with_ack (p : vsfip_tcppcb_t) (flags : Z) : Z :=
  Z.lor flags (if negb (rseq p =? 0) then VSFIP_TCPFLAG_ACK else 0).

Definition vsfip_add_tcphead (so b flags : Z) w : option (Z * net E) :=
  '(s, p) ← pcb_of so w;
  x ← bufs w !! b;
  if off (app x) <? tcp_headlen flags then Some (VSFERR_NOT_ENOUGH_RESOURCES, w)
  else
    let o := off (app x) - tcp_headlen flags in
    nd ← pnodes w !! b;
    len ← vsfip_bufferlist_len (inq s) w;
    m ← write_tcphead (mem x) o (sin_port (local_sockaddr s)) (sin_port (remote_sockaddr s))
          (lseq p) (rseq p) (tcp_headlen flags) (with_ack p flags) (u16 (rx_window p - len));
    m ← (if has flags VSFIP_TCPFLAG_SYN then write_mss m (o + VSFIP_TCP_HEADLEN) else Some m);
    let x := set_buf {| off := o; wsize := u32 (wsize (app x) + tcp_headlen flags) |} (set_mem m x) in
    let w := set_pnodes (<[b := {| addr := lseq p; next := next nd |}]> (pnodes w)) (put_buf b x w) in
    w ← upd_pcb (protopcb s) (λ p, set_acked_rseq (rseq p) p) w;
    Some (VSFERR_NONE, w).

Definition vsfip_add_tcpchecksum (so b : Z) w : option (net E) :=
  s ← socks w !! so;
  x ← bufs w !! b;
  n ← netifs w !! netif x;
  data ← rd_bytes (mem x) (off (buf x)) (u16 (wsize (buf x)));
  c ← vsfip_proto_checksum (ipaddr n) (sin_addr (remote_sockaddr s)) (protocol s) (wsize (buf x)) data;
  m ← wr 2 (mem x) (off (buf x) + 16) (be16 (u16 (Z.lnot c)));
  Some (put_buf b (set_mem m x) w).

Definition vsfip_tcp_send_do (so b flags : Z) w : option (Z * net E) :=
  '(err, w) ← vsfip_add_tcphead so b flags w;
  if err <? 0 then w ← vsfip_buffer_release sys b w; Some (VSFERR_FAIL, w)
  else
    w ← vsfip_add_tcpchecksum so b w;
    w ← upd_sock so (set_ippcb_buf b) w;
    '(_, w) ← vsfip_ip_output sys so w;
    x ← bufs w !! b;
    w ← (if has flags (Z.lor VSFIP_TCPFLAG_FIN VSFIP_TCPFLAG_SYN) || (0 <? wsize (app x))
         then upd_pcb_of so (set_pflags flags) w else Some w);
    w ← upd_pcb_of so (λ p, set_lseq (u32 (lseq p + wsize (app x))) p) w;
    Some (VSFERR_NONE, w).

Definition vsfip_tcp_sendflags (so flags : Z) w : option (Z * net E) :=
  s ← socks w !! so;
  w ← (if has flags (Z.lor VSFIP_TCPFLAG_SYN VSFIP_TCPFLAG_FIN)
       then upd_pcb_of so (set_tx_timeout (tx_timeout_ms s)) w else Some w);
  '(b, w) ← vsfip_appbuffer_get sys (VSFIP_PROTO_HEADLEN + VSFIP_TCP_HEADLEN) 0 w;
  if b =? NULL then Some (VSFERR_NOT_ENOUGH_RESOURCES, w)
  else
    let n := vsfip_ip_route (sin_addr (remote_sockaddr s)) w in
    w ← upd_buf b (set_netif n) w;
    if n =? NULL then Some (VSFERR_FAIL, w)
    else vsfip_tcp_send_do so b flags w.

(** [vsfip_tcp_sendflags(socket, flags); pcb->lseq++], the answer being dropped. *)
Definition send_flags (so flags : Z) w : option (net E) :=
  '(_, w) ← vsfip_tcp_sendflags so flags w; Some w.
Definition bump_lseq (so : Z) w : option (net E) :=
  upd_pcb_of so (λ p, set_lseq (u32 (lseq p + 1)) p) w.

(** ** The tick *)

(** Sending a buffer of [outq] again, with the sequence number it had. *)
Definition tcp_resend (so b : Z) w : option (net E) :=
  '(s, p) ← pcb_of so w;
  nd ← pnodes w !! b;
  w ← upd_pcb_of so (set_lseq (addr nd)) w;
  w ← vsfip_buffer_reference b w;
  w ← upd_buf b (set_ttl (u16 (tx_timeout_ms s))) w;
  '(_, w) ← vsfip_tcp_send_do so b VSFIP_TCPFLAG_PSH w;
  upd_pcb_of so (set_lseq (lseq p)) w.

(** A buffer was sent too often: what waits is dropped and the connection closed. *)
Definition tcp_give_up (so : Z) w : option (net E) :=
  s ← socks w !! so;
  '(q, w) ← vsfip_bufferlist_free sys (outq s) w;
  w ← upd_sock so (set_outq q) w;
  w ← upd_pcb_of so (λ p, set_tx_retry 3 (set_lseq (acked_lseq p) p)) w;
  w ← send_flags so VSFIP_TCPFLAG_FIN w;
  w ← bump_lseq so w;
  w ← upd_pcb_of so (λ p, set_lclose true (set_state (if rclose p then LASTACK else FINWAIT1) p)) w;
  post_tx so VSFIP_EVT_SOCKET_TIMEOUT w.

(** The loop over [outq]; [true] when the routine has returned. *)
Fixpoint tick_outq (fuel : nat) (so b : Z) w : option (bool * net E) :=
  match fuel with
  | O => None
  | S fuel =>
      if b =? NULL then Some (false, w)
      else
        x ← bufs w !! b;
        let x := set_ttl (u16 (ttl x - 1)) x in
        let w := put_buf b x w in
        '(gone, w) ← (if ttl x =? 0 then
            '(_, p) ← pcb_of so w;
            let left := if retry x =? 0 then 0 else u16 (retry x - 1) in
            let again := (retry x =? 0) || negb (left =? 0) in
            let w := put_buf b (set_retry left x) w in
            if again && negb (bool_decide (state p = CLOSEWAIT))
            then w ← tcp_resend so b w; Some (false, w)
            else w ← tcp_give_up so w; Some (true, w)
          else Some (false, w));
        if gone : bool then Some (true, w)
        else nx ← load_nxt (pnodes w) b; tick_outq fuel so nx w
  end.

(** The timeout of a SYN or FIN; [true] when the routine has returned. *)
Definition tick_tx (so : Z) w : option (bool * net E) :=
  '(s, p) ← pcb_of so w;
  if tx_timeout p =? 0 then Some (false, w)
  else
    w ← upd_pcb_of so (λ p, set_tx_timeout (u32 (tx_timeout p - 1)) p) w;
    if negb (u32 (tx_timeout p - 1) =? 0) then Some (false, w)
    else
      w ← upd_pcb_of so (λ p, set_tx_retry (u32 (tx_retry p - 1)) p) w;
      if negb (u32 (tx_retry p - 1) =? 0) then
        w ← upd_pcb_of so (λ p, set_lseq (acked_lseq p) p) w;
        w ← send_flags so (pflags p) w;
        '(_, p) ← pcb_of so w;
        w ← (if has (pflags p) (Z.lor VSFIP_TCPFLAG_SYN VSFIP_TCPFLAG_FIN) then bump_lseq so w else Some w);
        Some (false, w)
      else if negb (father s =? NULL) && has (pflags p) VSFIP_TCPFLAG_SYN then
        '(_, w) ← vsfip_close sys so w; Some (false, w)
      else
        w ← (if bool_decide (state p = SYN_SENT ∨ state p = SYN_GET ∨ state p = LASTACK)
             then upd_pcb_of so (set_state CLOSED) w else Some w);
        w ← post_tx so VSFIP_EVT_SOCKET_TIMEOUT w;
        Some (true, w).

Definition tick_rx (so : Z) w : option (bool * net E) :=
  '(_, p) ← pcb_of so w;
  if rx_timeout p =? 0 then Some (false, w)
  else
    w ← upd_pcb_of so (λ p, set_rx_timeout (u32 (rx_timeout p - 1)) p) w;
    if negb (u32 (rx_timeout p - 1) =? 0) then Some (false, w)
    else w ← post_rx so VSFIP_EVT_SOCKET_TIMEOUT w; Some (true, w).

(** The delayed acknowledgement. *)
Definition tick_ack (so : Z) w : option (net E) :=
  '(_, p) ← pcb_of so w;
  if acked_rseq p =? rseq p then Some w
  else
    w ← upd_pcb_of so (λ p, set_ack_tick (u32 (ack_tick p - 1)) p) w;
    if negb (u32 (ack_tick p - 1) =? 0) then Some w
    else
      w ← send_flags so VSFIP_TCPFLAG_ACK w;
      upd_pcb_of so (set_ack_tick VSFIP_TCP_ATO) w.

Definition vsfip_tcp_socket_tick (so : Z) w : option (net E) :=
  '(ret, w) ← tick_tx so w;
  if ret : bool then Some w
  else
    '(ret, w) ← tick_rx so w;
    if ret : bool then Some w
    else
      s ← socks w !! so;
      '(ret, w) ← tick_outq (fuel_of (pnodes w)) so (head (outq s)) w;
      if ret : bool then Some w else tick_ack so w.

(** ** Receiving *)

Definition vsfip_tcp_data_input (so b : Z) w : option (net E) :=
  x ← bufs w !! b;
  w ← upd_pcb_of so (λ p, set_ack_tick VSFIP_TCP_ATO (set_rseq (u32 (rseq p + wsize (app x))) p)) w;
  s ← socks w !! so;
  if negb (user_on_input s =? NULL) then call_on_input sys (user_on_input s) (user_param s) b w
  else
    w ← upd_buf b (set_ttl VSFIP_CFG_TTL_INPUT) w;
    '(q, w) ← proto_append (inq s) b w;
    upd_sock so (set_inq q) w.

(** The buffers that the new [acked_lseq] covers leave [outq]. *)
Fixpoint ack_outq (fuel : nat) (so : Z) w : option (net E) :=
  match fuel with
  | O => None
  | S fuel =>
      '(s, p) ← pcb_of so w;
      let b := head (outq s) in
      if b =? NULL then Some w
      else
        x ← bufs w !! b;
        nd ← pnodes w !! b;
        if u32 (addr nd + wsize (app x)) <=? acked_lseq p then
          '(_, q) ← vsfq_dequeue (pnodes w) (outq s);
          let w := put_sock so (set_outq q s) w in
          w ← (if negb (user_on_outputted s =? NULL)
               then call_on_outputted sys (user_on_outputted s) (user_param s) w else Some w);
          w ← vsfip_buffer_release sys b w;
          ack_outq fuel so w
        else Some w
  end.

(** What is left to do when a case of the switch ends: leave, release the packet
    and leave, or look at the state again.  [rel] is [release_buffer] and [pre] is
    [pre_state]. *)
Inductive tcp_next :=
  | Leave
  | Release
  | Again (h : vsfip_tcphead_t) (pre : tcp_stat) (rel : bool).

Definition finish_rel (rel : bool) w : option (tcp_next * net E) :=
  Some (if rel then Release else Leave, w).

Definition state_of (so : Z) w : option tcp_stat := '(_, p) ← pcb_of so w; Some (state p).

(** [case VSFIP_TCPSTAT_LISTEN]. *)
Definition tcp_listen_input (so b : Z) (h : vsfip_tcphead_t) w : option (tcp_next * net E) :=
  '(s, p) ← pcb_of so w;
  if (hflags h =? VSFIP_TCPFLAG_SYN) && (accepted_num s <? backlog s) && negb (closing s) then
    x ← bufs w !! b;
    src ← rd 4 (mem x) (iphead x + 12);
    let peer := {| sin_port := src_port h;
                   sin_addr := set_asize 4 (set_s_addr src zero_addr) |} in
    '(ns, w) ← vsfip_childsocket sys so peer w;
    if ns =? NULL then Some (Release, w)
    else
      w ← upd_sock so (λ s, set_accepted_num (u8 (accepted_num s + 1)) s) w;
      let '(t, w) := vsfip_get_tsn w in
      '(_, p) ← pcb_of so w;
      w ← upd_pcb_of ns (λ np, set_tx_retry 3 (set_tx_sm (tx_sm p) (set_rseq (u32 (seqno h + 1))
             (set_state SYN_GET (set_acked_lseq t (set_lseq t np)))))) w;
      w ← send_flags ns (Z.lor VSFIP_TCPFLAG_SYN VSFIP_TCPFLAG_ACK) w;
      w ← bump_lseq ns w;
      w ← upd_pcb_of ns (set_rclose false) w;
      Some (Release, w)
  else Some (Release, w).

(** [connected:]. *)
Definition tcp_connected (so b : Z) (rel : bool) w : option (tcp_next * net E) :=
  w ← upd_pcb_of so (λ p, set_state ESTABLISHED (set_lclose false (set_rclose false p))) w;
  w ← (if rel then vsfip_buffer_release sys b w else Some w);
  w ← post_tx so VSFIP_EVT_TCP_CONNECTOK w;
  Some (Leave, w).

Definition tcp_syn_sent_input (so b : Z) (h : vsfip_tcphead_t) (rel : bool) w : option (tcp_next * net E) :=
  '(_, p) ← pcb_of so w;
  if hflags h =? VSFIP_TCPFLAG_SYN then
    w ← upd_pcb_of so (λ p, set_tx_retry 3 (set_rseq (u32 (seqno h + 1)) p)) w;
    w ← send_flags so (Z.lor VSFIP_TCPFLAG_SYN VSFIP_TCPFLAG_ACK) w;
    w ← bump_lseq so w;
    w ← upd_pcb_of so (set_state SYN_GET) w;
    Some (Release, w)
  else if has (hflags h) (Z.lor VSFIP_TCPFLAG_SYN VSFIP_TCPFLAG_ACK) && (ackseq h =? lseq p) then
    w ← upd_pcb_of so (λ p, set_acked_lseq (lseq p) (set_rseq (u32 (seqno h + 1)) (set_tx_timeout 0 p))) w;
    w ← send_flags so VSFIP_TCPFLAG_ACK w;
    tcp_connected so b rel w
  else Some (Release, w).

(** In-order data is taken, other data is answered with the number expected. *)
Definition tcp_take_data (so b : Z) (h : vsfip_tcphead_t) (rel : bool) w : option (bool * net E) :=
  x ← bufs w !! b;
  if 0 <? wsize (app x) then
    '(_, p) ← pcb_of so w;
    if rseq p =? seqno h then w ← vsfip_tcp_data_input so b w; Some (false, w)
    else w ← send_flags so VSFIP_TCPFLAG_ACK w; Some (rel, w)
  else Some (rel, w).

Definition tcp_syn_get_input (so b : Z) (h : vsfip_tcphead_t) (rel : bool) w : option (tcp_next * net E) :=
  '(_, p) ← pcb_of so w;
  if hflags h =? VSFIP_TCPFLAG_SYN then
    w ← upd_pcb_of so (λ p, set_tx_retry 3 (set_lseq (acked_lseq p) p)) w;
    w ← send_flags so (Z.lor VSFIP_TCPFLAG_SYN VSFIP_TCPFLAG_ACK) w;
    w ← bump_lseq so w;
    Some (Release, w)
  else if has (hflags h) VSFIP_TCPFLAG_ACK && (ackseq h =? u32 (acked_lseq p + 1)) then
    w ← upd_pcb_of so (λ p, set_acked_lseq (ackseq h) (set_lseq (ackseq h) (set_tx_timeout 0 p))) w;
    '(rel, w) ← tcp_take_data so b h rel w;
    tcp_connected so b rel w
  else if has (hflags h) VSFIP_TCPFLAG_FIN then
    w ← upd_pcb_of so (set_tx_retry 3) w;
    w ← send_flags so VSFIP_TCPFLAG_FIN w;
    w ← bump_lseq so w;
    w ← upd_pcb_of so (λ p, set_lclose true (set_state FINWAIT1 p)) w;
    Some (Release, w)
  else Some (Release, w).

(** [remote_close:] to the end of its case. *)
Definition tcp_remote_close (so : Z) (h : vsfip_tcphead_t) (rel : bool) w : option (tcp_next * net E) :=
  let h := clear_fin h in
  w ← upd_pcb_of so (λ p, set_rseq (u32 (seqno h + 1)) (set_rclose true p)) w;
  w ← send_flags so VSFIP_TCPFLAG_ACK w;
  '(_, p) ← pcb_of so w;
  let pre := if lclose p then CLOSED else CLOSEWAIT in
  w ← upd_pcb_of so (set_state pre) w;
  w ← post_rx so VSFIP_EVT_TCP_RXFAIL w;
  st ← state_of so w;
  if negb (bool_decide (st = pre)) then Some (Again h pre rel, w)
  else
    w ← (if bool_decide (st = CLOSED) then post_tx so VSFIP_EVT_TCP_CLOSED w else Some w);
    finish_rel rel w.

Definition tcp_maybe_close (so : Z) (h : vsfip_tcphead_t) (rel : bool) w : option (tcp_next * net E) :=
  if has (hflags h) VSFIP_TCPFLAG_FIN then tcp_remote_close so h rel w else finish_rel rel w.

(** [case VSFIP_TCPSTAT_CLOSEWAIT], which is also the end of the case before it. *)
Definition tcp_closewait_input (so : Z) (h : vsfip_tcphead_t) (pre : tcp_stat) (rel : bool) w :
    option (tcp_next * net E) :=
  '(_, p) ← pcb_of so w;
  if has (hflags h) VSFIP_TCPFLAG_ACK && negb (ackseq h =? acked_lseq p) then
    w ← upd_pcb_of so (λ p, set_acked_lseq (ackseq h) (set_tx_timeout 0 p)) w;
    w ← ack_outq (fuel_of (pnodes w)) so w;
    w ← post_tx so VSFIP_EVT_TCP_TXOK w;
    st ← state_of so w;
    if negb (bool_decide (st = pre)) then Some (Again h pre rel, w) else tcp_maybe_close so h rel w
  else tcp_maybe_close so h rel w.

Definition tcp_established_input (so b : Z) (h : vsfip_tcphead_t) (pre : tcp_stat) (rel : bool) w :
    option (tcp_next * net E) :=
  x ← bufs w !! b;
  '(_, p) ← pcb_of so w;
  if (0 <? wsize (app x)) && (rseq p =? seqno h) then
    w ← vsfip_tcp_data_input so b w;
    w ← post_rx so VSFIP_EVT_TCP_RXOK w;
    st ← state_of so w;
    if negb (bool_decide (st = pre)) then Some (Again h pre false, w)
    else tcp_closewait_input so h pre false w
  else
    w ← (if 0 <? wsize (app x) then send_flags so VSFIP_TCPFLAG_ACK w else Some w);
    tcp_closewait_input so h pre rel w.

(** [check_data_in_FIN:]. *)
Definition tcp_data_in_fin (so b : Z) (h : vsfip_tcphead_t) w : option (tcp_next * net E) :=
  x ← bufs w !! b;
  if 0 <? wsize (app x) then
    w ← upd_pcb_of so (λ p, if rseq p =? seqno h then set_rseq (u32 (rseq p + wsize (app x))) p else p) w;
    w ← send_flags so VSFIP_TCPFLAG_ACK w;
    Some (Release, w)
  else Some (Release, w).

Definition tcp_finwait1_input (so b : Z) (h : vsfip_tcphead_t) (rel : bool) w : option (tcp_next * net E) :=
  '(_, p) ← pcb_of so w;
  if has (hflags h) VSFIP_TCPFLAG_ACK && (ackseq h =? lseq p) then
    w ← upd_pcb_of so (λ p, set_acked_lseq (lseq p) (set_tx_timeout 0 (set_lclose true p))) w;
    if has (hflags h) VSFIP_TCPFLAG_FIN then tcp_remote_close so h rel w
    else w ← upd_pcb_of so (set_state FINWAIT2) w; tcp_data_in_fin so b h w
  else tcp_data_in_fin so b h w.

Definition tcp_lastack_input (so b : Z) (h : vsfip_tcphead_t) w : option (tcp_next * net E) :=
  w ← (if has (hflags h) VSFIP_TCPFLAG_FIN then send_flags so VSFIP_TCPFLAG_ACK w else Some w);
  '(_, p) ← pcb_of so w;
  if (hflags h =? VSFIP_TCPFLAG_ACK) && (ackseq h =? lseq p) then
    w ← upd_pcb_of so (λ p, set_state CLOSED (set_acked_lseq (lseq p) (set_tx_timeout 0 (set_lclose true p)))) w;
    w ← vsfip_buffer_release sys b w;
    w ← post_tx so VSFIP_EVT_TCP_CLOSED w;
    Some (Leave, w)
  else Some (Release, w).

(** [switch (pcb->state)]. *)
Definition tcp_switch (so b : Z) (h : vsfip_tcphead_t) (pre : tcp_stat) (rel : bool) w :
    option (tcp_next * net E) :=
  st ← state_of so w;
  match st with
  | INVALID => Some (Release, w)
  | CLOSED => w ← send_flags so VSFIP_TCPFLAG_RST w; Some (Release, w)
  | LISTEN => tcp_listen_input so b h w
  | SYN_SENT => tcp_syn_sent_input so b h rel w
  | SYN_GET => tcp_syn_get_input so b h rel w
  | ESTABLISHED => tcp_established_input so b h pre rel w
  | CLOSEWAIT => tcp_closewait_input so h pre rel w
  | FINWAIT1 => tcp_finwait1_input so b h rel w
  | FINWAIT2 =>
      if has (hflags h) VSFIP_TCPFLAG_FIN then tcp_remote_close so h rel w else tcp_data_in_fin so b h w
  | LASTACK => tcp_lastack_input so b h w
  end.

(** [re_process:]. *)
Fixpoint tcp_process (fuel : nat) (so b : Z) (h : vsfip_tcphead_t) (pre : tcp_stat) (rel : bool) w :
    option (net E) :=
  match fuel with
  | O => None
  | S fuel =>
      '(nx, w) ← tcp_switch so b h pre rel w;
      match nx with
      | Leave => Some w
      | Release => vsfip_buffer_release sys b w
      | Again h pre rel => tcp_process fuel so b h pre rel w
      end
  end.

(** A reset ends the connection at once. *)
Definition tcp_reset_input (so b : Z) w : option (net E) :=
  w ← vsfip_buffer_release sys b w;
  w ← upd_pcb_of so (λ p, set_state CLOSED (set_rx_timeout 0 (set_tx_timeout 0 p))) w;
  s ← socks w !! so;
  '(q, w) ← vsfip_bufferlist_free sys (inq s) w;
  w ← upd_sock so (set_inq q) w;
  '(q, w) ← vsfip_bufferlist_free sys (outq s) w;
  w ← upd_sock so (set_outq q) w;
  w ← post_tx so VSFIP_EVT_SOCKET_TIMEOUT w;
  post_rx so VSFIP_EVT_SOCKET_TIMEOUT w.

(** The rounds of [tcp_process] that the code can need: a state changed by the
    machine that is told of data, of an acknowledgement and of the close. *)
Definition TCP_ROUNDS : nat := 8.

Definition vsfip_tcp_socket_input (so b : Z) w : option (net E) :=
  '(s, p) ← pcb_of so w;
  x ← bufs w !! b;
  h ← read_tcphead (mem x) (off (buf x));
  if (0 <? backlog s) && negb (hflags h =? VSFIP_TCPFLAG_SYN) then vsfip_buffer_release sys b w
  else
    w ← upd_pcb_of so (set_rwnd (window_size h)) w;
    if has (hflags h) VSFIP_TCPFLAG_RST then tcp_reset_input so b w
    else tcp_process TCP_ROUNDS so b h (state p) true w.

Definition vsfip_tcp_config_window (so rxw txw : Z) w : option (net E) :=
  upd_pcb_of so (λ p, set_tx_window txw (set_rx_window rxw p)) w.

(** ** Opening a connection *)

(** The labels of the protothreads. *)
Definition TCP_CONNECT_WAIT : Z := 1749.
Definition TCP_ACCEPT_WAIT : Z := 1808.
Definition TCP_SEND_WAIT : Z := 1891.
Definition TCP_FLUSH_WAIT : Z := 1912.
Definition TCP_RECV_WAIT : Z := 1968.
Definition TCP_OUTQ_WAIT : Z := 2003.
Definition TCP_CLOSE_WAIT : Z := 2033.

(** A protothread gives its result, its label and the world. *)
Definition pt_result : Type := Z * Z * net E.

(** [pcb->tx_sm = pt->sm] and the wait, which always returns the first time. *)
Definition wait_tx (so sm line : Z) w : option pt_result :=
  w ← upd_pcb_of so (set_tx_sm sm) w; Some (VSFERR_NOT_READY, line, w).

Definition vsfip_tcp_connect (label sm evt so : Z) (sockaddr : vsfip_sockaddr_t) w : option pt_result :=
  '(_, p) ← pcb_of so w;
  if label =? 0 then
    if negb (bool_decide (state p = CLOSED)) then Some (VSFERR_INVALID_PARAMETER, label, w)
    else if negb (tx_sm p =? NULL) then Some (VSFERR_BUG, label, w)
    else
      w ← upd_sock so (set_remote sockaddr) w;
      '(err, w) ← bind_if_unset so IPPROTO_TCP w;
      if negb (err =? 0) then Some (VSFERR_NONE, label, w)
      else
        let '(t, w) := vsfip_get_tsn w in
        w ← upd_pcb_of so (λ p, set_tx_retry 3 (set_rseq 0 (set_acked_lseq t (set_lseq t p)))) w;
        w ← send_flags so VSFIP_TCPFLAG_SYN w;
        w ← bump_lseq so w;
        w ← upd_pcb_of so (set_state SYN_SENT) w;
        wait_tx so sm TCP_CONNECT_WAIT w
  else if label =? TCP_CONNECT_WAIT then
    if negb ((evt =? VSFIP_EVT_TCP_CONNECTOK) || (evt =? VSFIP_EVT_TCP_CONNECTFAIL) ||
             (evt =? VSFIP_EVT_SOCKET_TIMEOUT))
    then Some (VSFERR_NOT_READY, label, w)
    else
      w ← upd_pcb_of so (λ p, set_lseq (acked_lseq p) p) w;
      Some (if evt =? VSFIP_EVT_TCP_CONNECTOK then VSFERR_NONE else VSFERR_FAIL, label, w)
  else None.

(** [vsfip_tcp_accept_try]: the first child that is connected and was not given
    to the application yet. *)
Fixpoint accept_try_loop (fuel : nat) (so : Z) w : option (Z * net E) :=
  match fuel with
  | O => None
  | S fuel =>
      if so =? NULL then Some (NULL, w)
      else
        '(s, p) ← pcb_of so w;
        if bool_decide (state p = ESTABLISHED) && negb (accepted s)
        then Some (so, put_sock so (set_accepted true s) w)
        else accept_try_loop fuel (snext s) w
  end.
Definition vsfip_tcp_accept_try (so : Z) w : option (Z * net E) :=
  s ← socks w !! so; accept_try_loop (fuel_of (socks w)) (child s) w.

(** With the socket accepted; the label is kept when the wait is over. *)
Definition vsfip_tcp_accept (label sm evt so : Z) w : option (Z * Z * Z * net E) :=
  '(s, p) ← pcb_of so w;
  if label =? 0 then
    if negb (bool_decide (state p = LISTEN)) || closing s then Some (VSFERR_FAIL, label, NULL, w)
    else if negb (tx_sm p =? NULL) then Some (VSFERR_BUG, label, NULL, w)
    else
      '(a, w) ← vsfip_tcp_accept_try so w;
      if negb (a =? NULL) then Some (VSFERR_NONE, label, a, w)
      else
        '(err, label, w) ← wait_tx so sm TCP_ACCEPT_WAIT w;
        Some (err, label, NULL, w)
  else if label =? TCP_ACCEPT_WAIT then
    if negb ((evt =? VSFIP_EVT_TCP_CONNECTOK) || (evt =? VSFIP_EVT_TCP_CONNECTFAIL))
    then Some (VSFERR_NOT_READY, label, NULL, w)
    else
      w ← upd_pcb_of so (set_tx_sm NULL) w;
      if evt =? VSFIP_EVT_TCP_CONNECTFAIL then Some (VSFERR_FAIL, label, NULL, w)
      else
        '(a, w) ← vsfip_tcp_accept_try so w;
        Some (if negb (a =? NULL) then VSFERR_NONE else VSFERR_BUG, label, a, w)
  else None.

(** ** Data *)

Definition vsfip_tcp_async_send (so b : Z) w : option (Z * net E) :=
  '(s, p) ← pcb_of so w;
  if negb (tx_sm p =? NULL) then w ← vsfip_buffer_release sys b w; Some (VSFERR_BUG, w)
  else if lclose p then w ← vsfip_buffer_release sys b w; Some (VSFERR_FAIL, w)
  else
    size ← vsfip_bufferlist_len (outq s) w;
    x ← bufs w !! b;
    if Z.min (tx_window p) (rwnd p) <? u32 (size + wsize (app x)) then Some (VSFERR_NOT_READY, w)
    else
      let n := vsfip_ip_route (sin_addr (remote_sockaddr s)) w in
      let x := set_netif n x in
      if n =? NULL then Some (VSFERR_FAIL, put_buf b x w)
      else
        let x := set_ttl (u16 (tx_timeout_ms s)) (set_retry VSFIP_TCP_RETRY x) in
        '(q, w) ← proto_append (outq s) b (put_buf b x w);
        w ← vsfip_buffer_reference b (put_sock so (set_outq q s) w);
        '(err, w) ← vsfip_tcp_send_do so b VSFIP_TCPFLAG_PSH w;
        if negb (err =? 0) then w ← vsfip_buffer_release sys b w; Some (VSFERR_FAIL, w)
        else Some (VSFERR_NONE, w).

(** [cleanup:] of [vsfip_tcp_send]. *)
Definition tcp_send_failed (b err label : Z) w : option pt_result :=
  w ← vsfip_buffer_release sys b w; Some (err, label, w).

Definition tcp_flush (so b sm label : Z) (flush : bool) w : option pt_result :=
  s ← socks w !! so;
  if flush && negb (head (outq s) =? NULL) then wait_tx so sm TCP_FLUSH_WAIT w
  else Some (VSFERR_NONE, label, w).

Definition tcp_send_try (so b sm label : Z) (flush : bool) w : option pt_result :=
  '(err, w) ← vsfip_tcp_async_send so b w;
  if err <? 0 then tcp_send_failed b err label w
  else if err =? 0 then tcp_flush so b sm label flush w
  else wait_tx so sm TCP_SEND_WAIT w.

Definition vsfip_tcp_send (label sm evt so b : Z) (flush : bool) w : option pt_result :=
  if label =? 0 then tcp_send_try so b sm label flush w
  else if negb ((label =? TCP_SEND_WAIT) || (label =? TCP_FLUSH_WAIT)) then None
  else if negb ((evt =? VSFIP_EVT_TCP_TXOK) || (evt =? VSFIP_EVT_SOCKET_TIMEOUT))
  then Some (VSFERR_NOT_READY, label, w)
  else if evt =? VSFIP_EVT_SOCKET_TIMEOUT then tcp_send_failed b VSFERR_FAIL label w
  else if label =? TCP_SEND_WAIT then tcp_send_try so b sm label flush w
  else tcp_flush so b sm label true w.

Definition vsfip_tcp_async_recv (so : Z) w : option (Z * Z * net E) :=
  '(s, p) ← pcb_of so w;
  if negb (rx_sm p =? NULL) then Some (VSFERR_BUG, NULL, w)
  else if rclose p then Some (VSFERR_FAIL, NULL, w)
  else
    '(b, q) ← vsfq_dequeue (pnodes w) (inq s);
    Some (if b =? NULL then VSFERR_NOT_READY else VSFERR_NONE, b, put_sock so (set_inq q s) w).

(** With the packet received. *)
Definition vsfip_tcp_recv (label sm evt so : Z) w : option (Z * Z * Z * net E) :=
  if label =? 0 then
    '(err, b, w) ← vsfip_tcp_async_recv so w;
    if err =? 0 then Some (VSFERR_NONE, label, b, w)
    else
      s ← socks w !! so;
      w ← upd_pcb_of so (λ p, set_rx_sm sm (set_rx_timeout (rx_timeout_ms s) p)) w;
      Some (VSFERR_NOT_READY, TCP_RECV_WAIT, b, w)
  else if label =? TCP_RECV_WAIT then
    if negb ((evt =? VSFIP_EVT_TCP_RXOK) || (evt =? VSFIP_EVT_SOCKET_TIMEOUT) ||
             (evt =? VSFIP_EVT_TCP_RXFAIL))
    then Some (VSFERR_NOT_READY, label, NULL, w)
    else
      '(err, b, w) ← vsfip_tcp_async_recv so w;
      Some (if err =? 0 then VSFERR_NONE else VSFERR_FAIL, label, b, w)
  else None.

(** ** Closing *)

(** From the end of the wait for [outq]. *)
Definition tcp_close_fin (so sm : Z) w : option pt_result :=
  '(_, p) ← pcb_of so w;
  w ← (if negb (lclose p) then
         w ← upd_pcb_of so (λ p, set_tx_retry 3 (set_lseq (acked_lseq p) p)) w;
         w ← send_flags so VSFIP_TCPFLAG_FIN w;
         w ← bump_lseq so w;
         upd_pcb_of so (λ p, set_state (if rclose p then LASTACK else FINWAIT1) p) w
       else Some w);
  wait_tx so sm TCP_CLOSE_WAIT w.

Definition tcp_close_outq (so sm : Z) w : option pt_result :=
  s ← socks w !! so;
  if negb (head (outq s) =? NULL) then wait_tx so sm TCP_OUTQ_WAIT w else tcp_close_fin so sm w.

Definition vsfip_tcp_close (label sm evt so : Z) w : option pt_result :=
  '(_, p) ← pcb_of so w;
  if label =? 0 then
    if bool_decide (state p = CLOSED) then Some (VSFERR_NONE, label, w)
    else if negb (tx_sm p =? NULL) then Some (VSFERR_BUG, label, w)
    else tcp_close_outq so sm w
  else if label =? TCP_OUTQ_WAIT then
    if evt =? VSFIP_EVT_TCP_TXOK then tcp_close_outq so sm w
    else if evt =? VSFIP_EVT_SOCKET_TIMEOUT then tcp_close_fin so sm w
    else Some (VSFERR_NOT_READY, label, w)
  else if label =? TCP_CLOSE_WAIT then
    if negb ((evt =? VSFIP_EVT_TCP_CLOSED) || (evt =? VSFIP_EVT_SOCKET_TIMEOUT))
    then Some (VSFERR_NOT_READY, label, w)
    else if 0 <? tx_timeout p then Some (VSFERR_NOT_READY, label, w)
    else
      w ← upd_pcb_of so (λ p, set_lseq (acked_lseq p) p) w;
      Some (if evt =? VSFIP_EVT_TCP_CLOSED then VSFERR_NONE else VSFERR_FAIL, label, w)
  else None.

End tcp.
