(* ===== verification/Vsfip.v ===== *)
(** * Vsfip: input, ICMP, the tick and start-up (tcpip/vsfip.c, eth/vsfip_eth.c)

    A frame from the driver goes to ARP or to IP; a packet for this host goes to
    ICMP or to the socket of its ports, which takes it as its protocol does.
    Forwarding is off in the default configuration. *)

From S2P Require Import Prelude Chain Vsfq Bits Endian Ipdata Netif Ipsock Tcp.

Definition VSFIP_ICMP_ECHO_REPLY : Z := 0.
Definition VSFIP_ICMP_ECHO : Z := 8.
Definition VSFIP_ETH_TYPE_IP : Z := 0x0800.
Definition VSFIP_ETH_TYPE_IP6 : Z := 0x86DD.
Definition VSFIP_ETH_TYPE_ARP : Z := 0x0806.

Section vsfip.
Context {E : Type} (sys : system E).
Implicit Types w : net E.

(** ** Finding the socket *)

Definition any_or (a b : Z) : bool := (a =? 0) || (a =? b).

(** The child that talks to this peer, else the listening socket itself. *)
Fixpoint find_child (fuel : nat) (so c src port : Z) w : option Z :=
  match fuel with
  | O => None
  | S fuel =>
      if c =? NULL then Some so
      else
        t ← socks w !! c;
        if (s_addr (sin_addr (remote_sockaddr t)) =? src) && (sin_port (remote_sockaddr t) =? port)
        then Some c else find_child fuel so (snext t) src port w
  end.

Fixpoint find_socket (fuel : nat) (so src dest sport dport : Z) w : option Z :=
  match fuel with
  | O => None
  | S fuel =>
      if so =? NULL then Some NULL
      else
        s ← socks w !! so;
        let l := local_sockaddr s in
        let r := remote_sockaddr s in
        if (sin_port l =? dport) && any_or (s_addr (sin_addr l)) dest then
          if backlog s =? 0 then
            if any_or (s_addr (sin_addr r)) src && any_or (sin_port r) sport then Some so
            else find_socket fuel (snext s) src dest sport dport w
          else find_child (fuel_of (socks w)) so (child s) src sport w
        else find_socket fuel (snext s) src dest sport dport w
  end.

(** [socket->proto_callback.on_input]. *)
Definition call_proto (f so b : Z) w : option (net E) :=
  if f =? TCP_INPUT_FN then vsfip_tcp_socket_input sys so b w
  else if f =? UDP_INPUT_FN then vsfip_udp_socket_input sys so b w
  else None.

Definition vsfip_proto_input (list b sport dport : Z) w : option (net E) :=
  x ← bufs w !! b;
  src ← rd 4 (mem x) (iphead x + 12);
  dest ← rd 4 (mem x) (iphead x + 16);
  so ← find_socket (fuel_of (socks w)) list src dest sport dport w;
  if so =? NULL then vsfip_buffer_release sys b w
  else
    s ← socks w !! so;
    if negb (can_rx s) then vsfip_buffer_release sys b w
    else if negb (proto_on_input s =? NULL) then call_proto (proto_on_input s) so b w
    else vsfip_buffer_release sys b w.

(** ** UDP and TCP input *)

Definition app_behind (n : Z) (x : vsfip_buffer_t) : vsfip_buffer_t :=
  set_app {| off := off (buf x) + n; wsize := u32 (wsize (buf x) - n) |} x.

Definition vsfip_udp_input (b : Z) w : option (net E) :=
  x ← bufs w !! b;
  let o := off (buf x) in
  m ← swap16_at (mem x) o; m ← swap16_at m (o + 2); m ← swap16_at m (o + 4); m ← swap16_at m (o + 6);
  sport ← rd 2 m o; dport ← rd 2 m (o + 2);
  vsfip_proto_input (udpconns (vsfip w)) b sport dport
    (put_buf b (app_behind VSFIP_UDP_HEADLEN (set_mem m x)) w).

(** [tcphead->headlen = (tcphead->headlen >> 4) << 2] and the byte order. *)
Definition fix_tcphead (m : list Z) (o : Z) : option (list Z) :=
  m ← swap16_at m o; m ← swap16_at m (o + 2); m ← swap32_at m (o + 4); m ← swap32_at m (o + 8);
  hl ← rd 1 m (o + 12);
  m ← wr 1 m (o + 12) (u8 (Z.shiftl (Z.shiftr hl 4) 2));
  m ← swap16_at m (o + 14); m ← swap16_at m (o + 16); swap16_at m (o + 18).

Definition vsfip_tcp_input (b : Z) w : option (net E) :=
  x ← bufs w !! b;
  let o := off (buf x) in
  m ← fix_tcphead (mem x) o;
  h ← read_tcphead m o;
  nd ← pnodes w !! b;
  let w := set_pnodes (<[b := {| addr := seqno h; next := next nd |}]> (pnodes w)) w in
  vsfip_proto_input (tcpconns (vsfip w)) b (src_port h) (dst_port h)
    (put_buf b (app_behind (headlen h) (set_mem m x)) w).

(** ** ICMP *)

(** The packet made a reply: the addresses are swapped, the fields of the IP head
    that the input has turned are turned back, and the checksum is updated for
    the new type. *)
Definition icmp_reply (m : list Z) (iph o : Z) : option (list Z) :=
  src ← rd 4 m (iph + 12); dest ← rd 4 m (iph + 16);
  m ← wr 4 m (iph + 12) dest; m ← wr 4 m (iph + 16) src;
  m ← swap16_at m (iph + 2); m ← swap16_at m (iph + 4); m ← swap16_at m (iph + 10);
  m ← wr 1 m o VSFIP_ICMP_ECHO_REPLY;
  c ← rd 2 m (o + 2);
  let c := u16 (c + be16 (Z.shiftl VSFIP_ICMP_ECHO 8)) in
  wr 2 m (o + 2) (if be16 (0xffff - Z.shiftl VSFIP_ICMP_ECHO 8) <=? c then u16 (c + 1) else c).

Definition vsfip_icmp_input (b : Z) w : option (net E) :=
  x ← bufs w !! b;
  v ← rd 1 (mem x) (iphead x);
  let hlen := VSFIP_IP4H_HLEN v * 4 in
  type ← rd 1 (mem x) (off (buf x));
  if type =? VSFIP_ICMP_ECHO then
    m ← icmp_reply (mem x) (iphead x) (off (buf x));
    let win := {| off := off (buf x) - hlen; wsize := u32 (wsize (buf x) + hlen) |} in
    '(_, w) ← vsfip_ip_output_do sys b (put_buf b (set_buf win (set_mem m x)) w);
    Some w
  else vsfip_buffer_release sys b w.

(** ** IP input *)

Definition vsfip_ip_ismatch (a1 a2 : vsfip_addr_t) : bool :=
  (asize a1 =? asize a2) &&
  bool_decide (take (Z.to_nat (asize a1)) (s_addr_buf a1) = take (Z.to_nat (asize a1)) (s_addr_buf a2)).

Definition vsfip_ip4_isbroadcast (a : vsfip_addr_t) (n : vsfip_netif_t) : bool :=
  let addr32 := s_addr a in
  let mask := s_addr (netmask n) in
  (addr32 =? VSFIP_IPADDR_ANY) || (addr32 =? 0xFFFFFFFF) ||
  (addr32 =? Z.lor (Z.land (s_addr (ipaddr n)) mask) (u32 (Z.lnot mask))).

(** The packet is for this host. *)
Definition ip4_for_us (n : vsfip_netif_t) (dest : Z) : bool :=
  let a := set_asize 4 (set_s_addr dest zero_addr) in
  vsfip_ip4_isbroadcast a n || negb (0 <? asize (ipaddr n)) || vsfip_ip_ismatch a (ipaddr n).

Definition fix_ip4head (m : list Z) (o : Z) : option (list Z) :=
  m ← swap16_at m (o + 2); m ← swap16_at m (o + 4); m ← swap16_at m (o + 6); swap16_at m (o + 10).

(** [vsfip_ip4_reass]: fragments are dropped. *)
Definition is_fragment (offset : Z) : bool :=
  (Z.land offset VSFIP_IPH_DF =? 0) && negb (Z.land offset (Z.lor VSFIP_IPH_MF VSFIP_IPH_OFFSET_MASK) =? 0).

Definition ip4_deliver (proto b : Z) w : option (net E) :=
  if proto =? IPPROTO_UDP then vsfip_udp_input b w
  else if proto =? IPPROTO_TCP then vsfip_tcp_input b w
  else if proto =? IPPROTO_ICMP then vsfip_icmp_input b w
  else vsfip_buffer_release sys b w.

Definition vsfip_ip4_input (b : Z) w : option (net E) :=
  x ← bufs w !! b;
  n ← netifs w !! netif x;
  let o := off (buf x) in
  v ← rd 1 (mem x) o;
  let hlen := VSFIP_IP4H_HLEN v * 4 in
  h ← rd_bytes (mem x) o hlen;
  if negb (vsfip_checksum h =? 0xFFFF) then vsfip_buffer_release sys b w
  else
    dest ← rd 4 (mem x) (o + 16);
    if negb (ip4_for_us n dest) then vsfip_buffer_release sys b w
    else
      m ← fix_ip4head (mem x) o;
      len ← rd 2 m (o + 2);
      offset ← rd 2 m (o + 6);
      proto ← rd 1 m (o + 9);
      let x := set_iphead o (set_mem m x) in
      let w := put_buf b x w in
      if negb (VSFIP_IP4H_V v =? 4) || (len <? hlen) || (wsize (buf x) <? len)
      then vsfip_buffer_release sys b w
      else
        let w := put_buf b (set_buf {| off := o + hlen; wsize := len - hlen |} x) w in
        if is_fragment offset then vsfip_buffer_release sys b w else ip4_deliver proto b w.

Definition vsfip_ip6_input (b : Z) w : option (net E) := vsfip_buffer_release sys b w.

(** A frame. *)
Definition vsfip_eth_input (b : Z) w : option (net E) :=
  x ← bufs w !! b;
  let o := off (buf x) in
  let x := set_buf {| off := o + VSFIP_ETH_HEADSIZE; wsize := u32 (wsize (buf x) - VSFIP_ETH_HEADSIZE) |} x in
  t ← rd 2 (mem x) (o + 12);
  let w := put_buf b x w in
  if be16 t =? VSFIP_ETH_TYPE_IP then vsfip_ip4_input b w
  else if be16 t =? VSFIP_ETH_TYPE_IP6 then vsfip_ip6_input b w
  else if be16 t =? VSFIP_ETH_TYPE_ARP then vsfip_netif_arp_input sys b w
  else vsfip_buffer_release sys b w.

(** ** The tick *)

(** [vsfip_check_buff]: packets that nobody took in time are dropped. *)
Fixpoint check_buff_loop (fuel : nat) (so b : Z) w : option (net E) :=
  match fuel with
  | O => None
  | S fuel =>
      if b =? NULL then Some w
      else
        x ← bufs w !! b;
        let t := if ttl x =? 0 then 0 else u16 (ttl x - 1) in
        let w := put_buf b (set_ttl t x) w in
        w ← (if t =? 0 then
               s ← socks w !! so;
               '(q, w) ← proto_remove (inq s) b w;
               vsfip_buffer_release sys b (put_sock so (set_inq q s) w)
             else Some w);
        nx ← load_nxt (pnodes w) b;
        check_buff_loop fuel so nx w
  end.
Definition vsfip_check_buff (so : Z) w : option (net E) :=
  s ← socks w !! so; check_buff_loop (fuel_of (pnodes w)) so (head (inq s)) w.

(** [f] on every socket of a list, [next] being read afterwards. *)
Fixpoint each_socket (fuel : nat) (f : Z → net E → option (net E)) (so : Z) w : option (net E) :=
  match fuel with
  | O => None
  | S fuel =>
      if so =? NULL then Some w
      else w ← f so w; s ← socks w !! so; each_socket fuel f (snext s) w
  end.

Definition tick_socket (so : Z) w : option (net E) :=
  w ← vsfip_check_buff so w; vsfip_tcp_socket_tick sys so w.
Definition tick_tcp (so : Z) w : option (net E) :=
  s ← socks w !! so;
  w ← each_socket (fuel_of (socks w)) tick_socket (child s) w;
  tick_socket so w.

(** The state machine [vsfip.tick_sm]. *)
Definition TICK_SM : Z := 0x2000.
Definition vsfip_tick (evt : Z) w : option (net E) :=
  if evt =? 2 then Some (timer_enqueue sys TICK_TIMER 1 TICK_SM VSFIP_EVT_TICK (-1) w)
  else if evt =? 3 then Some (timer_dequeue sys TICK_TIMER w)
  else if evt =? VSFIP_EVT_TICK then
    w ← each_socket (fuel_of (socks w)) vsfip_check_buff (udpconns (vsfip w)) w;
    each_socket (fuel_of (socks w)) tick_tcp (tcpconns (vsfip w)) w
  else Some w.

(** ** Start-up *)

Definition vsfip_init w : option (Z * net E) :=
  let g := {| netif_list := NULL; netif_default := NULL; udpconns := NULL; tcpconns := NULL;
              udp_port := VSFIP_CFG_UDP_PORT; tcp_port := VSFIP_CFG_TCP_PORT;
              ip_id := 0; tsn := 0; output_sniffer := NULL |} in
  sm_init sys TICK_SM (set_vsfip g w).

Definition vsfip_fini w : option (net E) := post_evt sys TICK_SM 3 w.

Definition vsfip_set_default_netif (n : Z) w : net E := set_vsfip (set_netif_default n (vsfip w)) w.

(** Adding an interface: up to the [init] of its driver, which is called again at
    each dispatch until it ends, and then. *)
Definition NETIF_INIT_WAIT : Z := 233.
Definition NETIF_FINI_WAIT : Z := 273.

Definition netif_add_init (nt evt : Z) w : option (Z * Z * net E) :=
  '(err, w) ← drv_init sys nt evt w;
  if negb (err =? 0) then Some (err, NETIF_INIT_WAIT, w)
  else
    let w := if netif_list (vsfip w) =? NULL then vsfip_set_default_netif nt w else w in
    w ← upd_netif nt (set_nnext (netif_list (vsfip w))) w;
    Some (VSFERR_NONE, NETIF_INIT_WAIT, set_vsfip (set_netif_list nt (vsfip w)) w).

Definition vsfip_netif_add (label evt nt : Z) w : option (Z * Z * net E) :=
  if label =? 0 then
    n ← netifs w !! nt;
    let a := ipaddr n in
    let n := set_ipaddr (if asize a =? 0 then set_asize 4 a else a) n in
    '(_, w) ← vsfip_netif_construct sys nt (put_netif nt n w);
    netif_add_init nt evt w
  else if label =? NETIF_INIT_WAIT then netif_add_init nt evt w
  else None.

(** [while (netif_tmp != NULL)]: the interface before [nt] is linked to the one
    after it; [false] when [nt] is not in the list. *)
Fixpoint netif_unlink (fuel : nat) (tmp nt : Z) w : option (bool * net E) :=
  match fuel with
  | O => None
  | S fuel =>
      if tmp =? NULL then Some (false, w)
      else
        t ← netifs w !! tmp;
        if nnext t =? nt then
          n ← netifs w !! nt; Some (true, put_netif tmp (set_nnext (nnext n) t) w)
        else netif_unlink fuel (nnext t) nt w
  end.

Definition netif_remove_fini (nt evt : Z) w : option (Z * Z * net E) :=
  '(err, w) ← drv_fini sys nt evt w; Some (err, NETIF_FINI_WAIT, w).

Definition vsfip_netif_remove (label evt nt : Z) w : option (Z * Z * net E) :=
  if label =? 0 then
    let hd := netif_list (vsfip w) in
    if hd =? nt then
      n ← netifs w !! nt;
      netif_remove_fini nt evt (set_vsfip (set_netif_list (nnext n) (vsfip w)) w)
    else
      '(found, w) ← netif_unlink (fuel_of (netifs w)) hd nt w;
      if found : bool then netif_remove_fini nt evt w else Some (VSFERR_NONE, label, w)
  else if label =? NETIF_FINI_WAIT then netif_remove_fini nt evt w
  else None.

End vsfip.

(** ** Addresses in text

    [atoi] and [strchr(str, '.')] on the characters up to the terminator. *)

Fixpoint atoi_digits (s : list Z) (v : Z) : Z :=
  match s with
  | c :: s => if (48 <=? c) && (c <=? 57) then atoi_digits s (v * 10 + (c - 48)) else v
  | [] => v
  end.
Fixpoint skip_spaces (s : list Z) : list Z :=
  match s with
  | c :: r => if (c =? 32) || ((9 <=? c) && (c <=? 13)) then skip_spaces r else s
  | [] => []
  end.
Definition atoi (s : list Z) : Z :=
  match skip_spaces s with
  | c :: r => if c =? 45 then - atoi_digits r 0 else if c =? 43 then atoi_digits r 0 else atoi_digits (c :: r) 0
  | [] => 0
  end.
Fixpoint after_dot (s : list Z) : option (list Z) :=
  match s with
  | c :: s => if c =? 46 then Some s else after_dot s
  | [] => None
  end.

Definition set_octet (i : nat) (v : Z) (a : vsfip_addr_t) : vsfip_addr_t :=
  {| asize := asize a; s_addr_buf := <[i := u8 v]> (s_addr_buf a) |}.

(** [for (i = 1; i < 4; i++)]. *)
Fixpoint pton_fields (n i : nat) (s : list Z) (a : vsfip_addr_t) : Z * vsfip_addr_t :=
  match n with
  | O => (VSFERR_NONE, set_asize 4 a)
  | S n =>
      match after_dot s with
      | None => (VSFERR_FAIL, a)
      | Some s => pton_fields n (S i) s (set_octet i (atoi s) a)
      end
  end.
Definition vsfip_ip4_pton (a : vsfip_addr_t) (domain : list Z) : Z * vsfip_addr_t :=
  if u8 (atoi domain) =? 0 then (VSFERR_FAIL, a)
  else pton_fields 3 1 domain (set_octet 0 (atoi domain) a).
