(* ===== verification/Iplab.v ===== *)
(** * Iplab: a small system for the stack to run on

    A system in which every operation is a concrete function: memory comes from a
    counter, a socket's consumer keeps the payloads it is given, and nothing else
    happens when an event or a semaphore is posted.  The witnesses run the stack
    on it. *)

From S2P Require Import Prelude Chain Vsfq Bits Endian Ipdata Netif Ipsock Tcp Vsfip.

(** The next free address, the buffers that can still be given out, and the
    payloads that were heard. *)
Record lab_env := { fresh : Z; left : nat; heard : list (list Z) }.

Definition take_object (e : lab_env) : Z * lab_env :=
  (fresh e, {| fresh := fresh e + 16; left := left e; heard := heard e |}).

Definition lab_buffer (size : Z) (e : lab_env) : Z * list Z * lab_env :=
  match left e with
  | O => (NULL, [], e)
  | S k => (fresh e, replicate (Z.to_nat size) 0, {| fresh := fresh e + 16; left := k; heard := heard e |})
  end.
Definition lab_release (b : Z) (e : lab_env) : lab_env :=
  {| fresh := fresh e; left := S (left e); heard := heard e |}.

(** The consumer keeps a copy of the payload and releases the packet. *)
Definition lab_hear (b : Z) (w : net lab_env) : option (net lab_env) :=
  x ← bufs w !! b;
  bs ← rd_bytes (mem x) (off (app x)) (wsize (app x));
  let e := env w in
  Some (set_env {| fresh := fresh e; left := S (left e); heard := heard e ++ [bs] |}
          (set_bufs (delete b (bufs w)) w)).

Definition lab : system lab_env := {|
  sm_init := λ _ w, Some (VSFERR_NONE, w);
  post_evt := λ _ _ w, Some w;
  sem_init := λ _ _ w, w;
  sem_post := λ _ w, Some (VSFERR_NONE, w);
  sem_pend := λ _ _ w, Some (VSFERR_NOT_READY, w);
  sync_cancel := λ _ _ w, Some w;
  timer_enqueue := λ _ _ _ _ _ w, w;
  timer_dequeue := λ _ w, w;
  get_buffer := lab_buffer;
  release_buffer := lab_release;
  get_socket := take_object;
  release_socket := λ _ e, e;
  get_tcppcb := take_object;
  release_tcppcb := λ _ e, e;
  call_on_input := λ _ _ b w, lab_hear b w;
  call_on_outputted := λ _ _ w, Some w;
  call_sniffer := λ _ _ w, Some w;
  drv_header := vsfip_eth_header;
  drv_init := λ _ _ w, Some (VSFERR_NONE, w);
  drv_fini := λ _ _ w, Some (VSFERR_NONE, w);
  cfg_rx_window := 4096;
  cfg_tx_window := 4096 |}.

(** ** Two hosts *)

Definition lab_ip (a b c d : Z) : vsfip_addr_t := {| asize := 4; s_addr_buf := [a; b; c; d] ++ replicate 12 0 |}.
Definition lab_mac (k : Z) : vsfip_addr_t := {| asize := 6; s_addr_buf := [2; 0; 0; 0; 0; k] ++ replicate 10 0 |}.

(** The interface at 300 of the host [k], which knows the host [j]. *)
Definition lab_netif (k j : Z) : vsfip_netif_t := {|
  drv := 310; header_size := 14; hwtype := 1;
  macaddr := lab_mac k; ipaddr := lab_ip 192 168 1 k; netmask := lab_ip 255 255 255 0;
  gateway := lab_ip 192 168 1 254; mac_broadcast := {| asize := 6; s_addr_buf := replicate 16 255 |};
  mtu := 1500; noutq := vsfq_init; arp_time := 2;
  arp_cache := {| emac := lab_mac j; eip := lab_ip 192 168 1 j; etime := 1 |} ::
               replicate 7 {| emac := zero_addr; eip := zero_addr; etime := 0 |};
  quit := false; sm_pending := NULL; arpc_buf := NULL; requestq := vsfq_init; cur_request := NULL;
  ip_for_mac := zero_addr; arpc_retry := 0; arpc_pt := 0; nnext := NULL |}.

Definition lab_ipdata (udp tcp : Z) : vsfip_t := {|
  netif_list := 300; netif_default := 300; udpconns := udp; tcpconns := tcp;
  udp_port := VSFIP_CFG_UDP_PORT; tcp_port := VSFIP_CFG_TCP_PORT; ip_id := 7; tsn := 0;
  output_sniffer := NULL |}.

(** A host with one socket, at 500, and one buffer, at 600. *)
Definition lab_world (k j : Z) (g : vsfip_t) (s : vsfip_socket_t) (pcb : list (Z * vsfip_tcppcb_t))
    (x : vsfip_buffer_t) : net lab_env := {|
  bufs := {[ 600 := x ]};
  pnodes := {[ 600 := {| addr := 0; next := NULL |} ]};
  nnodes := {[ 600 := {| addr := 0; next := NULL |} ]};
  socks := {[ 500 := s ]}; pcbs := list_to_map pcb; netifs := {[ 300 := lab_netif k j ]};
  vsfip := g; env := {| fresh := 1000; left := 4; heard := [] |} |}.

Definition lab_port (p : Z) : vsfip_sockaddr_t := {| sin_port := p; sin_addr := zero_addr |}.

(** A bound UDP socket; [can_rx] is set by [vsfip_listen]. *)
Definition lab_udp_socket (port cb : Z) : vsfip_socket_t :=
  set_user_on_input cb (set_can_rx true (set_local (lab_port port)
    (set_proto_on_input UDP_INPUT_FN (new_socket AF_INET IPPROTO_UDP)))).

(** A buffer with [room] bytes in front of the payload. *)
Definition lab_packet (room : nat) (payload : list Z) : vsfip_buffer_t := {|
  mem := replicate room 0 ++ payload; buf := {| off := 0; wsize := 0 |};
  app := {| off := Z.of_nat room; wsize := Z.of_nat (length payload) |};
  iphead := 0; ref := 1; ttl := 0; retry := 0; netif := 300 |}.

(** A frame as the driver gives it. *)
Definition lab_frame (frame : list Z) : vsfip_buffer_t := {|
  mem := frame; buf := {| off := 0; wsize := Z.of_nat (length frame) |};
  app := {| off := 0; wsize := 0 |};
  iphead := 0; ref := 1; ttl := 0; retry := 0; netif := 300 |}.

(** A connected TCP socket, with its control block at 700. *)
Definition lab_tcp_socket (port cb : Z) (peer : vsfip_sockaddr_t) : vsfip_socket_t :=
  set_user_on_input cb (set_can_rx true (set_local (lab_port port) (set_remote peer
    (set_protopcb 700 (set_proto_on_input TCP_INPUT_FN (new_socket AF_INET IPPROTO_TCP)))))).
Definition lab_pcb (seq ack : Z) : vsfip_tcppcb_t :=
  set_state ESTABLISHED (set_lseq seq (set_acked_lseq seq (set_rseq ack (set_acked_rseq ack
    (set_rclose false (set_lclose false (new_pcb lab))))))).
