(* ===== verification/Packet.v ===== *)
(** * Packet: what the stack writes into packets and reads back

    Lemmas on the fields of packets and on the Internet checksum: the routine
    computes the one's complement sum, the complement of the sum makes a packet
    add up, and the head that [write_ip4head] writes is read back field by field. *)

From S2P Require Import Prelude Chain Vsfq Bits Endian Ipdata Netif Ipsock Tcp Vsfip.

(** ** Fields of a framed block *)

Section fields.
Implicit Types pre blk post bs m : list Z.

Lemma memcpy_frame pre blk post k src :
  (k + length src ≤ length blk)%nat →
  memcpy (pre ++ blk ++ post) (length pre + k) src = Some (pre ++ list_inserts k src blk ++ post).
Proof.
  intros Hk. rewrite memcpy_in by (rewrite !length_app; lia). f_equal.
  rewrite list_inserts_app_r. f_equal.
  apply list_eq. intros i.
  destruct (decide (i < length blk)%nat).
  - rewrite lookup_app_l by len.
    destruct (decide (k ≤ i < k + length src)%nat).
    + rewrite !list_lookup_inserts by len. done.
    + destruct (decide (i < k)%nat).
      * rewrite !list_lookup_inserts_lt by lia. by rewrite lookup_app_l.
      * rewrite !list_lookup_inserts_ge by lia. by rewrite lookup_app_l.
  - rewrite list_lookup_inserts_ge by lia.
    rewrite !lookup_app_r by len. by rewrite length_inserts.
Qed.

Lemma read_at_frame pre blk post k n :
  (k + n ≤ length blk)%nat →
  read_at (pre ++ blk ++ post) (length pre + k) n = Some (take n (drop k blk)).
Proof.
  intros Hk. rewrite read_at_in by (rewrite !length_app; lia). f_equal.
  rewrite <- drop_drop, drop_app_length, drop_app_le by lia.
  by rewrite take_app_le by (rewrite length_drop; lia).
Qed.

Lemma wr_frame n pre blk post o k v :
  o = Z.of_nat (length pre) + Z.of_nat k → (k + n ≤ length blk)%nat →
  wr n (pre ++ blk ++ post) o v = Some (pre ++ list_inserts k (le_bytes n v) blk ++ post).
Proof.
  intros -> Hk. unfold wr. destruct (Z.ltb_spec (Z.of_nat (length pre) + Z.of_nat k) 0); [lia|].
  replace (Z.to_nat _) with (length pre + k)%nat by lia.
  apply memcpy_frame. by rewrite le_bytes_length.
Qed.

Lemma wr_bytes_frame pre blk post o k bs :
  o = Z.of_nat (length pre) + Z.of_nat k → (k + length bs ≤ length blk)%nat →
  wr_bytes (pre ++ blk ++ post) o bs = Some (pre ++ list_inserts k bs blk ++ post).
Proof.
  intros -> Hk. unfold wr_bytes. destruct (Z.ltb_spec (Z.of_nat (length pre) + Z.of_nat k) 0); [lia|].
  replace (Z.to_nat _) with (length pre + k)%nat by lia. by apply memcpy_frame.
Qed.

Lemma rd_frame n pre blk post o k :
  o = Z.of_nat (length pre) + Z.of_nat k → (k + n ≤ length blk)%nat →
  rd n (pre ++ blk ++ post) o = Some (le_value (take n (drop k blk))).
Proof.
  intros -> Hk. unfold rd. destruct (Z.ltb_spec (Z.of_nat (length pre) + Z.of_nat k) 0); [lia|].
  replace (Z.to_nat _) with (length pre + k)%nat by lia. by rewrite read_at_frame.
Qed.

Lemma rd_bytes_frame pre blk post o k n :
  o = Z.of_nat (length pre) + Z.of_nat k → 0 ≤ n → (k + Z.to_nat n ≤ length blk)%nat →
  rd_bytes (pre ++ blk ++ post) o n = Some (take (Z.to_nat n) (drop k blk)).
Proof.
  intros -> ? Hk. unfold rd_bytes. destruct (Z.ltb_spec (Z.of_nat (length pre) + Z.of_nat k) 0); [lia|].
  replace (Z.to_nat (_ + _)) with (length pre + k)%nat by lia. by rewrite read_at_frame.
Qed.

End fields.

(** ** Byte order *)

Lemma le_bytes_wrap n w v : (8 * Z.of_nat n ≤ w) → le_bytes n (wrap w v) = le_bytes n v.
Proof.
  revert w v. induction n as [|n IH]; intros w v Hw; [done|]. cbn [le_bytes]. unfold wrap. f_equal.
  - replace w with (8 + (w - 8)) by lia. rewrite Z.pow_add_r by lia.
    rewrite Z.rem_mul_r by lia. change (2 ^ 8) with 256.
    rewrite (Z.mul_comm 256), Z.mod_add, Z.mod_mod by lia. done.
  - rewrite <- (IH (w - 8) (v / 256)) by lia. f_equal. unfold wrap.
    replace w with (8 + (w - 8)) at 1 by lia. rewrite Z.pow_add_r by lia.
    rewrite Z.rem_mul_r by lia. change (2 ^ 8) with 256.
    rewrite (Z.mul_comm 256), Z.div_add by lia.
    rewrite (Z.div_small (v mod 256)) by (apply Z.mod_pos_bound; lia). lia.
Qed.

Lemma be16_bytes v : le_bytes 2 (be16 v) = [(v / 256) mod 256; v mod 256].
Proof.
  unfold be16. rewrite (proj1 (SWAP_bytes (u16 v))) by apply (wrap_fits 16 v ltac:(lia)).
  unfold u16. by rewrite (le_bytes_wrap 2 16) by lia.
Qed.

Lemma be32_bytes v :
  le_bytes 4 (be32 v) = [(v / 256 / 256 / 256) mod 256; (v / 256 / 256) mod 256; (v / 256) mod 256; v mod 256].
Proof.
  unfold be32. rewrite (proj1 (proj2 (SWAP_bytes (u32 v)))) by apply (wrap_fits 32 v ltac:(lia)).
  unfold u32. by rewrite (le_bytes_wrap 4 32) by lia.
Qed.

Lemma be16_fits v : 0 ≤ be16 v < 65536.
Proof. apply u16_range. Qed.

(** Turning a field around in place. *)
Lemma rd_two a b : 0 ≤ a < 256 → 0 ≤ b < 256 → le_bytes 2 (be16 (le_value [a; b])) = [b; a].
Proof.
  intros Ha Hb. rewrite be16_bytes. cbn [le_value].
  replace (a + 256 * (b + 256 * 0)) with (a + b * 256) by lia.
  rewrite Z.div_add, Z.mod_add, (Z.div_small a), Z.add_0_l, !Z.mod_small by lia. done.
Qed.

Lemma rd_four a b c d :
  0 ≤ a < 256 → 0 ≤ b < 256 → 0 ≤ c < 256 → 0 ≤ d < 256 →
  le_bytes 4 (be32 (le_value [a; b; c; d])) = [d; c; b; a].
Proof.
  intros Ha Hb Hc Hd. rewrite be32_bytes. cbn [le_value].
  replace (a + 256 * (b + 256 * (c + 256 * (d + 256 * 0)))) with (a + (b + (c + d * 256) * 256) * 256) by lia.
  rewrite !Z.div_add, !Z.mod_add, (Z.div_small a) by lia. rewrite Z.add_0_l.
  rewrite !Z.div_add, !Z.mod_add, (Z.div_small b) by lia. rewrite Z.add_0_l.
  rewrite !Z.div_add, !Z.mod_add, (Z.div_small c) by lia. rewrite Z.add_0_l.
  rewrite !Z.mod_small by lia. done.
Qed.

Lemma le_value_2 v : 0 ≤ v < 65536 → le_value [v mod 256; v / 256 mod 256] = v.
Proof. intros Hv. apply (le_value_bytes 2 v). by change (256 ^ Z.of_nat 2) with 65536. Qed.
Lemma le_value_4 v :
  0 ≤ v < 4294967296 →
  le_value [v mod 256; v / 256 mod 256; v / 256 / 256 mod 256; v / 256 / 256 / 256 mod 256] = v.
Proof. intros Hv. apply (le_value_bytes 4 v). by change (256 ^ Z.of_nat 4) with 4294967296. Qed.

(** ** The Internet checksum *)

(** The sum of the 16-bit words, most significant byte first, and the one's
    complement sum. *)
Fixpoint wsum (m : list Z) : Z :=
  match m with
  | a :: b :: m => 256 * a + b + wsum m
  | [a] => 256 * a
  | [] => 0
  end.
Definition onec (s : Z) : Z := if s =? 0 then 0 else (s - 1) mod 65535 + 1.

(** Induction two elements at a time. *)
Lemma list_pairs_ind {A} (P : list A → Prop) :
  P [] → (∀ a, P [a]) → (∀ a b m, P m → P (a :: b :: m)) → ∀ m, P m.
Proof.
  intros H0 H1 H2. fix IH 1. intros [|a [|b m]]; [done|apply H1|apply H2, IH].
Qed.

Lemma wsum_bounds m : bytes m → 0 ≤ wsum m ≤ 65535 * ((Z.of_nat (length m) + 1) / 2).
Proof.
  induction m as [|a|a b m IH] using list_pairs_ind; intros Hm.
  - done.
  - inversion_clear Hm. cbn [wsum length]. change ((Z.of_nat 1 + 1) / 2) with 1. lia.
  - inversion_clear Hm as [|? ? Ha Hm']. inversion_clear Hm' as [|? ? Hb Hm].
    specialize (IH Hm). cbn [wsum length].
    replace (Z.of_nat (S (S (length m))) + 1) with (Z.of_nat (length m) + 1 + 1 * 2) by lia.
    rewrite Z.div_add by lia. lia.
Qed.

Lemma wsum_app m1 m2 : Nat.Even (length m1) → wsum (m1 ++ m2) = wsum m1 + wsum m2.
Proof.
  induction m1 as [|a|a b m1 IH] using list_pairs_ind; intros He.
  - done.
  - destruct He as [k Hk]. cbn in Hk. lia.
  - change (256 * a + b + wsum (m1 ++ m2) = 256 * a + b + wsum m1 + wsum m2).
    rewrite IH; [lia|]. destruct He as [k Hk]. exists (k - 1)%nat. cbn in Hk. lia.
Qed.

Lemma word_lor a b : 0 ≤ a < 256 → 0 ≤ b < 256 → Z.lor (Z.shiftl a 8) b = 256 * a + b.
Proof.
  intros Ha Hb. rewrite Z.shiftl_mul_pow2 by lia. change (2 ^ 8) with 256.
  rewrite (lor_add_low (a * 256) b 8); [lia|lia| |done].
  change (2 ^ 8) with 256. by rewrite Z.mod_mul.
Qed.

Lemma checksum_loop_spec m s :
  bytes m → 0 ≤ s → s + wsum m < 4294967296 → checksum_loop m s = s + wsum m.
Proof.
  revert s. induction m as [|a|a b m IH] using list_pairs_ind; intros s Hm Hs Hlt; cbn [checksum_loop wsum] in *.
  - lia.
  - inversion_clear Hm. rewrite Z.shiftl_mul_pow2 by lia. change (2 ^ 8) with 256.
    rewrite u16_small, u32_small by lia. lia.
  - inversion_clear Hm as [|? ? Ha Hm']. inversion_clear Hm' as [|? ? Hb Hm].
    pose proof (wsum_bounds m Hm). rewrite word_lor by done.
    rewrite u32_small by lia. rewrite IH by (done || lia). lia.
Qed.

Lemma fold16_value c : 0 ≤ c < 4294967296 → fold16 c = c mod 65536 + c / 65536.
Proof.
  intros Hc. unfold fold16. change 0xFFFF with (Z.ones 16).
  rewrite Z.land_ones, Z.shiftr_div_pow2 by lia. change (2 ^ 16) with 65536.
  apply u32_small. pose proof (Z.mod_pos_bound c 65536 ltac:(lia)).
  assert (c / 65536 < 65536) by (apply Z.div_lt_upper_bound; lia).
  pose proof (Z.div_pos c 65536). lia.
Qed.

Lemma onec_fold c : 0 ≤ c → onec (c mod 65536 + c / 65536) = onec c.
Proof.
  intros Hc. pose proof (Z.div_mod c 65536 ltac:(lia)) as E.
  pose proof (Z.mod_pos_bound c 65536 ltac:(lia)). pose proof (Z.div_pos c 65536 Hc ltac:(lia)).
  unfold onec. destruct (Z.eqb_spec c 0) as [->|]; [done|].
  destruct (Z.eqb_spec (c mod 65536 + c / 65536) 0); [lia|]. f_equal.
  rewrite E at 3.
  replace (65536 * (c / 65536) + c mod 65536 - 1)
    with (c mod 65536 + c / 65536 - 1 + c / 65536 * 65535) by lia.
  by rewrite Z.mod_add by lia.
Qed.

Lemma onec_small c : 0 ≤ c ≤ 65535 → onec c = c.
Proof. intros Hc. unfold onec. destruct (Z.eqb_spec c 0); [lia|]. rewrite Z.mod_small; lia. Qed.

Lemma onec_range s : 0 ≤ s → 0 ≤ onec s ≤ 65535.
Proof.
  intros Hs. unfold onec. destruct (Z.eqb_spec s 0); [lia|].
  pose proof (Z.mod_pos_bound (s - 1) 65535). lia.
Qed.

Lemma fold_twice c : 0 ≤ c < 4294967296 → u16 (fold16 (fold16 c)) = onec c.
Proof.
  intros Hc. rewrite <- (onec_fold c) by lia.
  pose proof (Z.mod_pos_bound c 65536 ltac:(lia)).
  assert (0 ≤ c / 65536 < 65536) by (split; [apply Z.div_pos|apply Z.div_lt_upper_bound]; lia).
  rewrite (fold16_value c) by lia.
  assert (Hd : 0 ≤ c mod 65536 + c / 65536 ≤ 131070) by lia.
  revert Hd. generalize (c mod 65536 + c / 65536). intros d Hd.
  pose proof (Z.mod_pos_bound d 65536 ltac:(lia)). pose proof (Z.div_mod d 65536 ltac:(lia)).
  assert (0 ≤ d / 65536 ≤ 1) by (split; [apply Z.div_pos|apply Z.lt_succ_r, Z.div_lt_upper_bound]; lia).
  rewrite fold16_value, u16_small by lia. rewrite <- (onec_fold d) by lia.
  by rewrite onec_small by lia.
Qed.

(** The routine is the one's complement sum. *)
Lemma vsfip_checksum_onec m :
  bytes m → Z.of_nat (length m) ≤ 65535 → vsfip_checksum m = onec (wsum m).
Proof.
  intros Hm Hl. unfold vsfip_checksum.
  pose proof (wsum_bounds m Hm).
  assert ((Z.of_nat (length m) + 1) / 2 ≤ 32768) by (apply Z.lt_succ_r, Z.div_lt_upper_bound; lia).
  rewrite checksum_loop_spec by (done || lia). apply fold_twice. lia.
Qed.

(** Adding the complement of the sum gives all ones. *)
Lemma onec_complement s : 0 ≤ s → onec (s + (65535 - onec s)) = 65535.
Proof.
  intros Hs. unfold onec at 2. destruct (Z.eqb_spec s 0) as [->|Hn]; [done|].
  pose proof (Z.div_mod (s - 1) 65535 ltac:(lia)) as E.
  pose proof (Z.div_pos (s - 1) 65535 ltac:(lia) ltac:(lia)).
  unfold onec. destruct (Z.eqb_spec (s + (65535 - ((s - 1) mod 65535 + 1))) 0); [lia|].
  replace (s + (65535 - ((s - 1) mod 65535 + 1)) - 1) with (65534 + (s - 1) / 65535 * 65535) by lia.
  rewrite Z.mod_add by lia. done.
Qed.

Lemma lnot16 v : 0 ≤ v ≤ 65535 → u16 (Z.lnot v) = 65535 - v.
Proof.
  intros Hv. unfold Z.lnot, u16, wrap. change (2 ^ 16) with 65536.
  rewrite <- (Z.mod_add _ 1) by lia. rewrite Z.mod_small; lia.
Qed.

(** A word of the packet, written most significant byte first. *)
Lemma wsum_word pre post a b :
  Nat.Even (length pre) → wsum (pre ++ [a; b] ++ post) = wsum pre + (256 * a + b) + wsum post.
Proof. intros He. rewrite wsum_app by done. change (wsum ([a; b] ++ post)) with (256 * a + b + wsum post). lia. Qed.

Lemma word_split v : 0 ≤ v < 65536 → 256 * (v / 256 mod 256) + v mod 256 = v.
Proof.
  intros Hv. pose proof (Z.div_mod v 256 ltac:(lia)).
  assert (0 ≤ v / 256 < 256) by (split; [apply Z.div_pos|apply Z.div_lt_upper_bound]; lia).
  rewrite (Z.mod_small (v / 256)) by lia. lia.
Qed.

(** A packet with the complement of its sum in a field that was 0 adds up. *)
Lemma checksum_field pre post :
  bytes pre → bytes post → Nat.Even (length pre) → Z.of_nat (length (pre ++ [0; 0] ++ post)) ≤ 65535 →
  vsfip_checksum (pre ++ le_bytes 2 (be16 (u16 (Z.lnot (vsfip_checksum (pre ++ [0; 0] ++ post))))) ++ post) = 0xFFFF.
Proof.
  intros Hpre Hpost He Hl.
  assert (Hz : bytes (pre ++ [0; 0] ++ post)) by (apply Forall_app_2; [done|]; repeat (constructor; [lia|]); done).
  rewrite (vsfip_checksum_onec (pre ++ [0; 0] ++ post)) by done.
  pose proof (wsum_bounds _ Hz). assert (0 ≤ wsum (pre ++ [0; 0] ++ post)) by lia.
  pose proof (onec_range (wsum (pre ++ [0; 0] ++ post)) ltac:(lia)).
  rewrite lnot16 by lia. set (v := 65535 - onec _).
  rewrite vsfip_checksum_onec.
  - rewrite be16_bytes, wsum_word, word_split by (done || (unfold v; lia)).
    replace (wsum pre + v + wsum post) with (wsum (pre ++ [0; 0] ++ post) + v) by (rewrite wsum_word by done; lia).
    by apply onec_complement.
  - apply Forall_app_2; [done|]. apply Forall_app_2; [apply le_bytes_bytes|done].
  - revert Hl. rewrite !length_app, le_bytes_length. done.
Qed.

(** ** The IPv4 head *)

(** Two bytes, most significant first. *)
Definition be2 (v : Z) : list Z := [v / 256 mod 256; v mod 256].

(** The twenty bytes of the head, with a given checksum field. *)
Definition ip4head (size id proto frag cs src dest : Z) : list Z :=
  [0x45; 0] ++ be2 size ++ be2 id ++ be2 frag ++ [32; u8 proto] ++ be2 cs ++ le_bytes 4 src ++ le_bytes 4 dest.
Definition ip4head_sum (size id proto frag src dest : Z) : Z :=
  u16 (Z.lnot (vsfip_checksum (ip4head size id proto frag 0 src dest))).

(** A field written at offset [k] of the block in the middle. *)
Ltac wr_step pre post k :=
  first
    [ rewrite (wr_frame _ pre _ post _ k) by (cbn [length]; lia)
    | rewrite (wr_bytes_frame pre _ post _ k) by (cbn [length]; lia) ];
  cbn [mbind option_bind]; rewrite ?be16_bytes, ?be32_bytes; cbn [le_bytes list_inserts insert list_insert].

Lemma write_ip4head_ok pre blk post o size id proto frag src dest :
  o = Z.of_nat (length pre) → length blk = 20%nat →
  write_ip4head (pre ++ blk ++ post) o size id proto frag src dest =
  Some (pre ++ ip4head size id proto frag (ip4head_sum size id proto frag src dest) src dest ++ post).
Proof.
  intros Ho Hb. unfold write_ip4head.
  do 20 (destruct blk as [|? blk]; [discriminate|]). destruct blk; [|discriminate]. clear Hb.
  wr_step pre post 0%nat. wr_step pre post 1%nat. wr_step pre post 2%nat. wr_step pre post 4%nat.
  wr_step pre post 8%nat. wr_step pre post 9%nat. wr_step pre post 6%nat. wr_step pre post 10%nat.
  wr_step pre post 12%nat. wr_step pre post 16%nat.
  change VSFIP_IP_HEADLEN with 20.
  rewrite (rd_bytes_frame pre _ post o 0) by (cbn; lia). cbn [mbind option_bind drop take Z.to_nat Pos.to_nat Pos.iter_op Init.Nat.add].
  replace (u8 proto mod 256) with (u8 proto) by (unfold u8, wrap; by rewrite Z.mod_mod).
  wr_step pre post 10%nat.
  change (69 mod 256) with 69. change (32 mod 256) with 32. change (0 / 256 mod 256) with 0. change (0 mod 256) with 0.
  unfold ip4head_sum, ip4head, be2. cbn [app le_bytes].
  change (0 / 256 mod 256) with 0. change (0 mod 256) with 0. done.
Qed.

Lemma be16_be2 v : le_bytes 2 (be16 v) = be2 v.
Proof. apply be16_bytes. Qed.

Lemma be2_bytes v : bytes (be2 v).
Proof. unfold be2. repeat constructor; apply Z.mod_pos_bound; lia. Qed.

Lemma ip4head_length size id proto frag cs src dest :
  length (ip4head size id proto frag cs src dest) = 20%nat.
Proof. unfold ip4head, be2. rewrite !length_app, !le_bytes_length. done. Qed.

(** The head as its first ten bytes, the checksum and the rest. *)
Lemma ip4head_split size id proto frag cs src dest :
  ip4head size id proto frag cs src dest =
  ([0x45; 0] ++ be2 size ++ be2 id ++ be2 frag ++ [32; u8 proto]) ++ be2 cs ++ le_bytes 4 src ++ le_bytes 4 dest.
Proof. unfold ip4head. by rewrite <- !app_assoc. Qed.

Lemma ip4head_adds_up size id proto frag src dest :
  vsfip_checksum (ip4head size id proto frag (ip4head_sum size id proto frag src dest) src dest) = 0xFFFF.
Proof.
  rewrite ip4head_split. unfold ip4head_sum. rewrite ip4head_split.
  change (be2 0) with [0; 0].
  set (pre := [69; 0] ++ _). set (post := le_bytes 4 src ++ _).
  rewrite <- be16_be2.
  refine (checksum_field pre post _ _ _ _); unfold pre, post; clear pre post.
  - repeat (apply Forall_app_2; [first [apply be2_bytes | repeat (constructor; [lia|]); done]|]).
    constructor; [lia|]. constructor; [apply u8_range|done].
  - apply Forall_app_2; apply le_bytes_bytes.
  - exists 5%nat. unfold be2. done.
  - unfold be2. rewrite !length_app, !le_bytes_length. done.
Qed.

(** The head after its fields have been turned into the processor's order. *)
Definition ip4head_host (size id proto frag cs src dest : Z) : list Z :=
  [0x45; 0] ++ le_bytes 2 size ++ le_bytes 2 id ++ le_bytes 2 frag ++ [32; u8 proto] ++ le_bytes 2 cs ++
  le_bytes 4 src ++ le_bytes 4 dest.

Lemma swap16_frame pre blk post o k :
  o = Z.of_nat (length pre) + Z.of_nat k → (k + 2 ≤ length blk)%nat →
  swap16_at (pre ++ blk ++ post) o =
  Some (pre ++ list_inserts k (le_bytes 2 (be16 (le_value (take 2 (drop k blk))))) blk ++ post).
Proof.
  intros Ho Hk. unfold swap16_at. rewrite (rd_frame 2 pre blk post o k) by done.
  cbn [mbind option_bind]. by rewrite (wr_frame 2 pre blk post o k) by done.
Qed.

Lemma swap32_frame pre blk post o k :
  o = Z.of_nat (length pre) + Z.of_nat k → (k + 4 ≤ length blk)%nat →
  swap32_at (pre ++ blk ++ post) o =
  Some (pre ++ list_inserts k (le_bytes 4 (be32 (le_value (take 4 (drop k blk))))) blk ++ post).
Proof.
  intros Ho Hk. unfold swap32_at. rewrite (rd_frame 4 pre blk post o k) by done.
  cbn [mbind option_bind]. by rewrite (wr_frame 4 pre blk post o k) by done.
Qed.

(** A field of a block that is given element by element is turned around. *)
Ltac swap_step pre post k :=
  first
    [ rewrite (swap16_frame pre _ post _ k) by (cbn [length]; lia); cbn [drop take];
      rewrite rd_two by (apply Z.mod_pos_bound; lia)
    | rewrite (swap32_frame pre _ post _ k) by (cbn [length]; lia); cbn [drop take];
      rewrite rd_four by (apply Z.mod_pos_bound; lia) ];
  cbn [mbind option_bind list_inserts insert list_insert].

Lemma ip4head_list size id proto frag cs src dest :
  ip4head size id proto frag cs src dest =
  [0x45; 0; size / 256 mod 256; size mod 256; id / 256 mod 256; id mod 256; frag / 256 mod 256; frag mod 256;
   32; u8 proto; cs / 256 mod 256; cs mod 256;
   src mod 256; src / 256 mod 256; src / 256 / 256 mod 256; src / 256 / 256 / 256 mod 256;
   dest mod 256; dest / 256 mod 256; dest / 256 / 256 mod 256; dest / 256 / 256 / 256 mod 256].
Proof. done. Qed.

Lemma fix_ip4head_ok pre post o size id proto frag cs src dest :
  o = Z.of_nat (length pre) →
  fix_ip4head (pre ++ ip4head size id proto frag cs src dest ++ post) o =
  Some (pre ++ ip4head_host size id proto frag cs src dest ++ post).
Proof.
  intros Ho. unfold fix_ip4head. rewrite ip4head_list.
  swap_step pre post 2%nat. swap_step pre post 4%nat. swap_step pre post 6%nat. swap_step pre post 10%nat.
  done.
Qed.
