(* ===== verification/Ipwire.v ===== *)
(** * Ipwire: datagrams from one host to another

    What a host writes around a payload, the other host takes off: the frame that
    [vsfip_udp_async_send] leaves with the interface is delivered by
    [vsfip_eth_input] to the socket bound to its port, with the same payload. *)

From S2P Require Import Prelude Chain Vsfq Bits Endian Ipdata Netif Ipsock Tcp Vsfip Packet Iplab.

(** ** Changing the world *)

Section world.
Context {E : Type}.
Implicit Types w : net E.

Lemma put_buf_put b x y w : put_buf b y (put_buf b x w) = put_buf b y w.
Proof. unfold put_buf, set_bufs. cbn. by rewrite insert_insert_eq. Qed.

Lemma put_buf_get b x w : bufs (put_buf b x w) !! b = Some x.
Proof. apply lookup_insert_eq. Qed.

Lemma upd_buf_ok b f x w : bufs w !! b = Some x → upd_buf b f w = Some (put_buf b (f x) w).
Proof. intros Hb. unfold upd_buf. by rewrite Hb. Qed.
Lemma upd_sock_ok s f x w : socks w !! s = Some x → upd_sock s f w = Some (put_sock s (f x) w).
Proof. intros Hs. unfold upd_sock. by rewrite Hs. Qed.
Lemma upd_pcb_ok p f x w : pcbs w !! p = Some x → upd_pcb p f w = Some (put_pcb p (f x) w).
Proof. intros Hp. unfold upd_pcb. by rewrite Hp. Qed.
Lemma upd_netif_ok n f x w : netifs w !! n = Some x → upd_netif n f w = Some (put_netif n (f x) w).
Proof. intros Hn. unfold upd_netif. by rewrite Hn. Qed.
Lemma put_sock_get s x w : socks (put_sock s x w) !! s = Some x.
Proof. apply lookup_insert_eq. Qed.
Lemma put_pcb_get p x w : pcbs (put_pcb p x w) !! p = Some x.
Proof. apply lookup_insert_eq. Qed.
Lemma put_sock_put s x y w : put_sock s y (put_sock s x w) = put_sock s y w.
Proof. unfold put_sock, set_socks. cbn. by rewrite insert_insert_eq. Qed.
Lemma put_pcb_put p x y w : put_pcb p y (put_pcb p x w) = put_pcb p y w.
Proof. unfold put_pcb, set_pcbs. cbn. by rewrite insert_insert_eq. Qed.
End world.

Create Rewrite HintDb net.
#[export] Hint Rewrite @put_buf_put @put_buf_get @put_sock_get @put_pcb_get @put_sock_put @put_pcb_put : net.

(** ** Input *)

Section input.
Context {E : Type} (sys : system E).
Implicit Types w : net E.

Lemma rd_app n pre blk post o k v :
  o = Z.of_nat (length pre) + Z.of_nat k → (k + n ≤ length blk)%nat →
  le_value (take n (drop k blk)) = v → rd n (pre ++ blk ++ post) o = Some v.
Proof. intros Ho Hk <-. by apply rd_frame. Qed.

(** A good packet for this host goes to its protocol with the head removed. *)
Lemma ip4_input_ok w b x n pre post size id proto src dest wsz :
  bufs w !! b = Some x → netifs w !! netif x = Some n →
  mem x = pre ++ ip4head size id proto 0 (ip4head_sum size id proto 0 src dest) src dest ++ post →
  buf x = {| off := Z.of_nat (length pre); wsize := wsz |} →
  20 ≤ size < 65536 → size ≤ wsz → 0 ≤ dest < 4294967296 → ip4_for_us n dest = true →
  vsfip_ip4_input sys b w =
  ip4_deliver sys (u8 proto) b
    (put_buf b (set_buf {| off := Z.of_nat (length pre) + 20; wsize := size - 20 |}
       (set_iphead (Z.of_nat (length pre))
         (set_mem (pre ++ ip4head_host size id proto 0 (ip4head_sum size id proto 0 src dest) src dest ++ post) x))) w).
Proof.
  intros Hb Hn Hm Hbuf Hsize Hwsz Hdest Hus. set (cs := ip4head_sum size id proto 0 src dest) in *.
  unfold vsfip_ip4_input. rewrite Hb. bindr. rewrite Hn. bindr. rewrite Hm, Hbuf. cbn [off wsize].
  rewrite (rd_app 1 pre _ post (Z.of_nat (length pre)) 0 0x45) by (rewrite ?ip4head_length; done || lia). bindr.
  change (VSFIP_IP4H_HLEN 0x45 * 4) with 20. change (VSFIP_IP4H_V 0x45) with 4.
  rewrite (rd_bytes_frame pre _ post _ 0) by (rewrite ?ip4head_length; cbn; lia). bindr.
  rewrite drop_0, take_ge by (rewrite ip4head_length; cbn; lia).
  unfold cs at 1. rewrite ip4head_adds_up. cbn [negb Z.eqb Pos.eqb].
  rewrite (rd_app 4 pre _ post (Z.of_nat (length pre) + 16) 16 dest) by
    (rewrite ?ip4head_length; first [lia | exact (le_value_4 dest Hdest)]).
  bindr. rewrite Hus. cbn [negb].
  rewrite fix_ip4head_ok by done. bindr.
  assert (Hl : length (ip4head_host size id proto 0 cs src dest) = 20%nat) by done.
  rewrite (rd_app 2 pre _ post (Z.of_nat (length pre) + 2) 2 size) by (rewrite ?Hl; first [lia | refine (le_value_2 size _); lia]). bindr.
  rewrite (rd_app 2 pre _ post (Z.of_nat (length pre) + 6) 6 0) by (rewrite ?Hl; done || lia). bindr.
  rewrite (rd_app 1 pre _ post (Z.of_nat (length pre) + 9) 9 (u8 proto)) by (rewrite ?Hl; first [lia | cbn; lia]). bindr.
  cbn [Z.eqb Pos.eqb negb orb].
  destruct (Z.ltb_spec size 20); [lia|]. destruct (Z.ltb_spec wsz size); [lia|]. cbn [orb].
  cbn [set_iphead set_mem buf]. rewrite Hbuf. cbn [off wsize].
  destruct (Z.ltb_spec wsz size); [lia|].
  by rewrite put_buf_put.
Qed.

(** The UDP head, and after its fields have been turned. *)
Definition udphead (sport dport size : Z) : list Z := be2 sport ++ be2 dport ++ be2 size ++ be2 0.
Definition udphead_host (sport dport size : Z) : list Z :=
  le_bytes 2 sport ++ le_bytes 2 dport ++ le_bytes 2 size ++ le_bytes 2 0.

Lemma udphead_list sport dport size :
  udphead sport dport size =
  [sport / 256 mod 256; sport mod 256; dport / 256 mod 256; dport mod 256;
   size / 256 mod 256; size mod 256; 0 / 256 mod 256; 0 mod 256].
Proof. done. Qed.

Lemma udp_input_ok w b x pre post sport dport size :
  bufs w !! b = Some x → off (buf x) = Z.of_nat (length pre) →
  mem x = pre ++ udphead sport dport size ++ post → 0 ≤ sport < 65536 → 0 ≤ dport < 65536 →
  vsfip_udp_input sys b w =
  vsfip_proto_input sys (udpconns (vsfip w)) b sport dport
    (put_buf b (app_behind 8 (set_mem (pre ++ udphead_host sport dport size ++ post) x)) w).
Proof.
  intros Hb Ho Hm Hs Hd. unfold vsfip_udp_input. rewrite Hb. bindr. rewrite Hm, Ho, udphead_list.
  rewrite <- (Z.add_0_r (Z.of_nat (length pre))) at 1.
  swap_step pre post 0%nat. swap_step pre post 2%nat. swap_step pre post 4%nat. swap_step pre post 6%nat.
  rewrite (rd_app 2 pre _ post (Z.of_nat (length pre)) 0 sport)
    by (cbn [length]; first [lia | refine (le_value_2 sport _); lia]). bindr.
  rewrite (rd_app 2 pre _ post (Z.of_nat (length pre) + 2) 2 dport)
    by (cbn [length]; first [lia | refine (le_value_2 dport _); lia]). bindr.
  done.
Qed.

Lemma find_child_same f so c src port w w' :
  socks w' = socks w → find_child f so c src port w' = find_child f so c src port w.
Proof.
  intros He. revert c. induction f as [|f IH]; intros c; cbn [find_child]; [done|].
  destruct (c =? NULL); [done|]. rewrite He. destruct (socks w !! c); [|done]. bindr. by rewrite IH.
Qed.

(** Looking for a socket only looks at sockets. *)
Lemma find_socket_same f so src dest sport dport w w' :
  socks w' = socks w → find_socket f so src dest sport dport w' = find_socket f so src dest sport dport w.
Proof.
  intros He. revert so. induction f as [|f IH]; intros so; cbn [find_socket]; [done|].
  destruct (so =? NULL); [done|]. rewrite He. destruct (socks w !! so); [|done]. bindr.
  by rewrite !IH, (find_child_same _ _ _ _ _ w w' He).
Qed.

(** A packet for a socket that takes it. *)
Lemma proto_input_ok w list b x sport dport src dest so s :
  bufs w !! b = Some x → rd 4 (mem x) (iphead x + 12) = Some src → rd 4 (mem x) (iphead x + 16) = Some dest →
  find_socket (fuel_of (socks w)) list src dest sport dport w = Some so → so ≠ NULL →
  socks w !! so = Some s → can_rx s = true → proto_on_input s ≠ NULL →
  vsfip_proto_input sys list b sport dport w = call_proto sys (proto_on_input s) so b w.
Proof.
  intros Hb Hs Hd Hf Hn Hso Hr Hp. unfold vsfip_proto_input.
  rewrite Hb. bindr. rewrite Hs. bindr. rewrite Hd. bindr. rewrite Hf. bindr.
  destruct (Z.eqb_spec so NULL); [done|]. rewrite Hso. bindr. rewrite Hr. cbn [negb].
  by destruct (Z.eqb_spec (proto_on_input s) NULL).
Qed.

(** An Ethernet frame with an IPv4 packet. *)
Definition ethhead (dst src : list Z) (type : Z) : list Z := dst ++ src ++ be2 type.

Lemma eth_input_ip w b x pre post dst src size :
  bufs w !! b = Some x → buf x = {| off := Z.of_nat (length pre); wsize := size |} → 14 ≤ size < 4294967296 →
  mem x = pre ++ ethhead dst src 0x0800 ++ post → length dst = 6%nat → length src = 6%nat →
  vsfip_eth_input sys b w =
  vsfip_ip4_input sys b (put_buf b (set_buf {| off := Z.of_nat (length pre) + 14; wsize := size - 14 |} x) w).
Proof.
  intros Hb Hbuf Hsize Hm Hd Hs. unfold vsfip_eth_input. rewrite Hb. bindr. rewrite Hbuf. cbn [off wsize].
  replace (mem (set_buf _ x)) with (mem x) by done. rewrite Hm.
  assert (Hl : length (ethhead dst src 2048) = 14%nat).
  { unfold ethhead. rewrite !length_app, Hd, Hs. done. }
  rewrite (rd_app 2 pre _ post _ 12 8); [|lia|lia|].
  - bindr. unfold VSFIP_ETH_HEADSIZE. by rewrite u32_small by lia.
  - unfold ethhead. rewrite app_assoc, drop_app_length' by (rewrite length_app; lia). done.
Qed.

End input.

(** ** A datagram as bytes *)

Definition udp_datagram (id src dest sport dport : Z) (payload : list Z) : list Z :=
  let n := Z.of_nat (length payload) in
  ip4head (28 + n) id IPPROTO_UDP 0 (ip4head_sum (28 + n) id IPPROTO_UDP 0 src dest) src dest ++
  udphead sport dport (8 + n) ++ payload.

Section received.
Context {E : Type} (sys : system E).
Implicit Types w : net E.

(** What the receiving host is asked to have: a socket for the datagram. *)
Record receiver (w : net E) (n : vsfip_netif_t) (src dest sport dport so : Z) : Prop := {
  rcv_us : ip4_for_us n dest = true;
  rcv_found : find_socket (fuel_of (socks w)) (udpconns (vsfip w)) src dest sport dport w = Some so;
  rcv_so : so ≠ NULL;
  rcv_sock : ∃ s, socks w !! so = Some s ∧ can_rx s = true ∧ proto_on_input s = UDP_INPUT_FN }.

(** The payload is where the socket's [app] window says. *)
Definition delivers (y : vsfip_buffer_t) (src : Z) (payload : list Z) : Prop :=
  rd_bytes (mem y) (off (app y)) (wsize (app y)) = Some payload ∧
  rd 4 (mem y) (iphead y + 12) = Some src.

Lemma payload_at pre payload post o :
  o = Z.of_nat (length pre) → rd_bytes (pre ++ payload ++ post) o (Z.of_nat (length payload)) = Some payload.
Proof.
  intros ->. rewrite <- (Z.add_0_r (Z.of_nat (length pre))).
  rewrite (rd_bytes_frame pre payload post _ 0) by lia. by rewrite Nat2Z.id, drop_0, firstn_all.
Qed.

(** The packet in the socket's hands, behind the IP head [ip]. *)
Lemma udp_received w b y p1 ip post src dest sport dport payload so size :
  bufs w !! b = Some y → mem y = (p1 ++ ip) ++ udphead sport dport size ++ payload ++ post →
  buf y = {| off := Z.of_nat (length p1) + 20; wsize := 8 + Z.of_nat (length payload) |} →
  iphead y = Z.of_nat (length p1) → length ip = 20%nat →
  le_value (take 4 (drop 12 ip)) = src → le_value (take 4 (drop 16 ip)) = dest →
  Z.of_nat (length payload) < 65536 → 0 ≤ sport < 65536 → 0 ≤ dport < 65536 →
  find_socket (fuel_of (socks w)) (udpconns (vsfip w)) src dest sport dport w = Some so → so ≠ NULL →
  (∃ s, socks w !! so = Some s ∧ can_rx s = true ∧ proto_on_input s = UDP_INPUT_FN) →
  ∃ y', vsfip_udp_input sys b w = vsfip_udp_socket_input sys so b (put_buf b y' w) ∧ delivers y' src payload.
Proof.
  intros Hb Hm Hbuf Hi Hip Hsrc Hdest Hlen Hsp Hdp Hf Hso (so' & Hs1 & Hs2 & Hs3).
  rewrite (udp_input_ok sys w b y (p1 ++ ip) (payload ++ post) sport dport size);
    [|done|rewrite Hbuf, length_app, Hip; cbn [off]; lia|done|done|done].
  set (y3 := app_behind 8 _).
  assert (Hm3 : mem y3 = p1 ++ ip ++ udphead_host sport dport size ++ payload ++ post)
    by (unfold y3; cbn; by rewrite <- !app_assoc).
  assert (Hi3 : iphead y3 = Z.of_nat (length p1)) by done.
  assert (Ha3 : app y3 = {| off := Z.of_nat (length p1) + 28; wsize := Z.of_nat (length payload) |}).
  { unfold y3, app_behind. cbn [app set_app set_mem buf]. rewrite Hbuf. cbn [off wsize].
    rewrite u32_small by lia. f_equal; lia. }
  assert (Hs : rd 4 (mem y3) (iphead y3 + 12) = Some src).
  { rewrite Hm3, Hi3. apply (rd_app 4 p1 ip _ _ 12); [lia|rewrite Hip; lia|done]. }
  exists y3. split.
  - rewrite (proto_input_ok sys (put_buf b y3 w) _ b y3 sport dport src dest so so'); first by rewrite Hs3.
    + apply put_buf_get.
    + done.
    + rewrite Hm3, Hi3. apply (rd_app 4 p1 ip _ _ 16); [lia|rewrite Hip; lia|done].
    + by rewrite (find_socket_same _ _ _ _ _ _ w).
    + done.
    + done.
    + done.
    + by rewrite Hs3.
  - split; [|done]. rewrite Ha3, Hm3. cbn [off wsize]. rewrite 2!app_assoc.
    apply payload_at. rewrite !length_app, Hip.
    change (length (udphead_host sport dport size)) with 8%nat. lia.
Qed.

Lemma ethhead_length d s t : length d = 6%nat → length s = 6%nat → length (ethhead d s t) = 14%nat.
Proof. intros Hd Hs. unfold ethhead. by rewrite !length_app, Hd, Hs. Qed.

(** A frame with a good IPv4 packet goes to its protocol, behind its two heads. *)
Lemma frame_received w b y n pre post d s id proto src dest body :
  let k := Z.of_nat (length body) in
  let cs := ip4head_sum (20 + k) id proto 0 src dest in
  bufs w !! b = Some y → netifs w !! netif y = Some n →
  mem y = pre ++ (ethhead d s 0x0800 ++ ip4head (20 + k) id proto 0 cs src dest ++ body) ++ post →
  buf y = {| off := Z.of_nat (length pre); wsize := 34 + k |} →
  length d = 6%nat → length s = 6%nat → 20 + k < 65536 → 0 ≤ dest < 4294967296 → ip4_for_us n dest = true →
  vsfip_eth_input sys b w =
  ip4_deliver sys (u8 proto) b
    (put_buf b (set_buf {| off := Z.of_nat (length (pre ++ ethhead d s 0x0800)) + 20; wsize := k |}
       (set_iphead (Z.of_nat (length (pre ++ ethhead d s 0x0800)))
         (set_mem ((pre ++ ethhead d s 0x0800) ++ ip4head_host (20 + k) id proto 0 cs src dest ++ body ++ post) y))) w).
Proof.
  intros k cs Hb Hn Hm Hbuf Hd Hs Hlen Hdest Hus. pose proof (ethhead_length d s 2048 Hd Hs) as He.
  rewrite (eth_input_ip sys w b y pre ((ip4head (20 + k) id proto 0 cs src dest ++ body) ++ post) d s (34 + k));
    [|done|done|lia| |done|done].
  2: by rewrite Hm, <- !app_assoc.
  set (y1 := set_buf _ y).
  rewrite (ip4_input_ok sys _ b y1 n (pre ++ ethhead d s 2048) (body ++ post) (20 + k) id proto src dest (34 + k - 14));
    [|apply put_buf_get|done| | |lia|lia|done|done].
  - rewrite put_buf_put. fold cs. f_equal. f_equal. unfold y1.
    by replace (20 + k - 20) with k by lia.
  - unfold y1. cbn [set_buf mem]. rewrite Hm. unfold cs. by rewrite <- !app_assoc.
  - unfold y1. cbn [set_buf buf]. f_equal. rewrite length_app, He. lia.
Qed.

Lemma datagram_received w b y n pre post d s id src dest sport dport payload so :
  bufs w !! b = Some y → netifs w !! netif y = Some n →
  mem y = pre ++ (ethhead d s 0x0800 ++ udp_datagram id src dest sport dport payload) ++ post →
  buf y = {| off := Z.of_nat (length pre); wsize := 42 + Z.of_nat (length payload) |} →
  length d = 6%nat → length s = 6%nat → 28 + Z.of_nat (length payload) < 65536 →
  0 ≤ src < 4294967296 → 0 ≤ dest < 4294967296 → 0 ≤ sport < 65536 → 0 ≤ dport < 65536 →
  receiver w n src dest sport dport so →
  ∃ y', vsfip_eth_input sys b w = vsfip_udp_socket_input sys so b (put_buf b y' w) ∧
        delivers y' src payload.
Proof.
  intros Hb Hn Hm Hbuf Hd Hs Hlen Hsrc Hdest Hsp Hdp [Hus Hf Hso Hsock].
  set (body := udphead sport dport (8 + Z.of_nat (length payload)) ++ payload).
  assert (Hk : Z.of_nat (length body) = 8 + Z.of_nat (length payload)).
  { unfold body. rewrite length_app. change (length (udphead _ _ _)) with 8%nat. lia. }
  rewrite (frame_received w b y n pre post d s id IPPROTO_UDP src dest body); try done; rewrite ?Hk; try lia.
  - set (y2 := set_buf _ _). set (ip := ip4head_host _ _ _ _ _ _ _) in y2.
    unfold ip4_deliver. change (u8 IPPROTO_UDP =? IPPROTO_UDP) with true. cbn match.
    destruct (udp_received (put_buf b y2 w) b y2 (pre ++ ethhead d s 2048) ip post src dest sport dport payload so
      (8 + Z.of_nat (length payload))) as (y' & -> & Hd'); try done.
    + apply put_buf_get.
    + unfold y2, body. cbn [set_buf set_iphead set_mem mem]. by rewrite <- !app_assoc.
    + exact (le_value_4 src Hsrc).
    + exact (le_value_4 dest Hdest).
    + lia.
    + by rewrite (find_socket_same _ _ _ _ _ _ w).
    + exists y'. by rewrite put_buf_put.
  - rewrite Hm. unfold udp_datagram, body. 
    by replace (20 + (8 + Z.of_nat (length payload))) with (28 + Z.of_nat (length payload)) by lia.
  - rewrite Hbuf. f_equal. lia.
Qed.
End received.

(** ** Output

    What is asked of the system: a semaphore or an event that is posted wakes a
    machine later, and changes the rest of the system by a step of [quiet_step];
    the driver's head is Ethernet's. *)
Class Quiet {E} (sys : system E) := {
  quiet_step : E → E → Prop;
  quiet_sem_post s w : ∃ r e, sem_post sys s w = Some (r, set_env e w) ∧ quiet_step (env w) e;
  quiet_post_evt sm evt w : ∃ e, post_evt sys sm evt w = Some (set_env e w) ∧ quiet_step (env w) e;
  quiet_header d b proto mac w : drv_header sys d b proto mac w = vsfip_eth_header d b proto mac w }.

(** An IPv4 address as the stack builds it from a packet. *)
Definition addr4 (a : Z) : vsfip_addr_t := set_s_addr a {| asize := 4; s_addr_buf := s_addr_buf zero_addr |}.

(** The interface can send to [dest]: the hardware address is known. *)
Record reaches (n : vsfip_netif_t) (dest : Z) (mac : vsfip_addr_t) : Prop := {
  reach_dest : 0 ≤ dest < 4294967296;
  reach_mac : ∃ ip, next_hop n (addr4 dest) = Some ip ∧ vsfip_netif_get_mac n ip = Some mac;
  reach_len : (6 ≤ length (s_addr_buf mac))%nat;
  reach_own : (6 ≤ length (s_addr_buf (macaddr n)))%nat;
  reach_mtu : 20 ≤ mtu n < 65536 }.

Definition mac6 (a : vsfip_addr_t) : list Z := take 6 (s_addr_buf a).

Section sent.
Context {E : Type} (sys : system E) `{!Quiet sys}.
Implicit Types w : net E.

Lemma mac_bytes a : (6 ≤ length (s_addr_buf a))%nat → rd_bytes (s_addr_buf a) 0 6 = Some (mac6 a).
Proof. intros Ha. unfold rd_bytes. cbn [Z.ltb Z.compare]. by rewrite read_at_in by (cbn; lia). Qed.

Lemma mac6_length a : (6 ≤ length (s_addr_buf a))%nat → length (mac6 a) = 6%nat.
Proof. intros Ha. unfold mac6. rewrite length_take. lia. Qed.

Lemma inserts_cover (k l : list Z) : length k = length l → list_inserts 0 k l = k.
Proof.
  intros Hk. apply list_eq. intros i. destruct (decide (i < length l)%nat).
  - rewrite list_lookup_inserts by lia. by rewrite Nat.sub_0_r.
  - rewrite !lookup_ge_None_2; [done|lia|rewrite length_inserts; lia].
Qed.

Lemma ethhead_inserts (d s r : list Z) t :
  length d = 6%nat → length s = 6%nat → length r = 14%nat →
  list_inserts 12 (be2 t) (list_inserts 6 s (list_inserts 0 d r)) = ethhead d s t.
Proof.
  intros Hd Hs Hr. unfold ethhead, be2.
  do 6 (destruct d as [|? d]; [discriminate|]). destruct d; [|discriminate].
  do 6 (destruct s as [|? s]; [discriminate|]). destruct s; [|discriminate].
  do 14 (destruct r as [|? r]; [discriminate|]). by destruct r; [|discriminate].
Qed.

(** The Ethernet head in front of a packet. *)
Lemma eth_header_ok w d b proto mac x n pre room post o size :
  bufs w !! b = Some x → netifs w !! netif x = Some n →
  mem x = pre ++ room ++ post → length room = 14%nat →
  buf x = {| off := o; wsize := size |} → o = Z.of_nat (length pre) + 14 → 0 ≤ size < 4294967282 →
  (6 ≤ length (s_addr_buf mac))%nat → (6 ≤ length (s_addr_buf (macaddr n)))%nat →
  vsfip_eth_header d b proto mac w =
  Some (VSFERR_NONE,
    put_buf b (set_buf {| off := Z.of_nat (length pre); wsize := size + 14 |}
      (set_mem (pre ++ ethhead (mac6 mac) (mac6 (macaddr n)) proto ++ post) x)) w).
Proof.
  intros Hb Hn Hm Hr Hbuf -> Hsize Hmac Hown. unfold vsfip_eth_header.
  rewrite Hb. bindr. rewrite Hn. bindr. rewrite Hbuf. cbn [off wsize]. unfold VSFIP_ETH_HEADSIZE.
  destruct (Z.ltb_spec (Z.of_nat (length pre) + 14) 14); [lia|].
  rewrite !mac_bytes by done. bindr. rewrite Hm.
  replace (Z.of_nat (length pre) + 14 - 14) with (Z.of_nat (length pre)) by lia.
  pose proof (mac6_length _ Hmac). pose proof (mac6_length _ Hown).
  rewrite (wr_bytes_frame pre room post _ 0) by lia. bindr.
  rewrite (wr_bytes_frame pre _ post _ 6) by (rewrite ?length_inserts; lia). bindr.
  rewrite (wr_frame 2 pre _ post _ 12) by (rewrite ?length_inserts; lia). bindr.
  rewrite be16_be2, ethhead_inserts by done. by rewrite u32_small by lia.
Qed.

Lemma get_ipaddr_ok x pre ip post dest :
  mem x = pre ++ ip ++ post → iphead x = Z.of_nat (length pre) → length ip = 20%nat →
  le_value (take 1 ip) = 0x45 → le_value (take 4 (drop 16 ip)) = dest →
  vsfip_netif_get_ipaddr x = Some (addr4 dest).
Proof.
  intros Hm Hi Hip H1 Hd. unfold vsfip_netif_get_ipaddr. rewrite Hm, Hi.
  rewrite (rd_app 1 pre ip post (Z.of_nat (length pre)) 0 0x45) by (lia || done). bindr.
  change (Z.shiftr 69 4 =? 4) with true. cbn match.
  by rewrite (rd_app 4 pre ip post _ 16 dest) by (lia || done).
Qed.

(** A packet with its IP head leaves with the head of the interface, queued for
    the driver. *)
Lemma netif_output_ok w b x n pre room ip post dest mac q nd size :
  bufs w !! b = Some x → netifs w !! netif x = Some n →
  mem x = pre ++ room ++ ip ++ post → length room = 14%nat → length ip = 20%nat →
  buf x = {| off := Z.of_nat (length pre) + 14; wsize := size |} → 0 < size < 4294967282 →
  iphead x = Z.of_nat (length pre) + 14 →
  le_value (take 1 ip) = 0x45 → le_value (take 4 (drop 16 ip)) = dest → reaches n dest mac →
  queue_rep (nnodes w) (noutq n) q → nnodes w !! b = Some nd → b ≠ NULL → b ∉ q →
  ∃ r e h q',
    vsfip_netif_ip_output sys b w = Some (r,
      set_env e (put_netif (netif x) (set_noutq q' n) (set_nnodes h
        (put_buf b (set_buf {| off := Z.of_nat (length pre); wsize := size + 14 |}
          (set_mem (pre ++ ethhead (mac6 mac) (mac6 (macaddr n)) VSFIP_NETIF_PROTO_IP ++ ip ++ post) x)) w)))) ∧
    queue_rep h q' (q ++ [b]) ∧ same_keys (nnodes w) h ∧ quiet_step (env w) e.
Proof.
  intros Hb Hn Hm Hr Hip Hbuf Hsize Hi H1 Hd [Hdest (hop & Hhop & Hmac) Hlm Hlo Hmtu] Hq Hnd Hb0 Hbq.
  destruct (vsfq_append_spec _ _ _ _ _ Hq Hnd Hb0 Hbq) as (h & q' & Happ & Hq' & Hk).
  set (x' := set_buf {| off := Z.of_nat (length pre); wsize := size + 14 |} _).
  destruct (quiet_sem_post (OUTPUT_SEM (netif x)) (put_netif (netif x) (set_noutq q' n) (set_nnodes h (put_buf b x' w))))
    as (r & e & Hp & Hstep).
  exists r, e, h, q'. split; [|done].
  unfold vsfip_netif_ip_output. rewrite Hb. bindr. rewrite Hn. bindr.
  rewrite (get_ipaddr_ok x (pre ++ room) ip post dest);
    [|by rewrite Hm, <- app_assoc|rewrite Hi, length_app, Hr; lia|done|done|done].
  bindr. rewrite Hhop. bindr. rewrite Hmac. rewrite Hbuf. cbn [wsize].
  destruct (Z.eqb_spec size 0); [lia|]. cbn [negb].
  unfold vsfip_netif_ip_output_do. rewrite Hb. bindr. rewrite Hn. bindr.
  rewrite quiet_header, (eth_header_ok w _ b _ mac x n pre room (ip ++ post) (Z.of_nat (length pre) + 14) size);
    [|done|done|done|done|done|done|lia|done|done].
  bindr. cbn [negb Z.eqb VSFERR_NONE].
  change (netifs (put_buf b _ w)) with (netifs w). rewrite Hn. bindr.
  unfold netif_append. change (nnodes (put_buf b _ w)) with (nnodes w). rewrite Happ. bindr.
  exact Hp.
Qed.

(** What [vsfip_ip_output] leaves of the socket's packet: the frame of a body that
    was at [pre ++ room ++ body]. *)
Definition framed (s : vsfip_socket_t) (n : vsfip_netif_t) (id : Z) (mac : vsfip_addr_t) (body : list Z) : list Z :=
  let src := s_addr (ipaddr n) in
  let dest := s_addr (sin_addr (remote_sockaddr s)) in
  let size := 20 + Z.of_nat (length body) in
  ethhead (mac6 mac) (mac6 (macaddr n)) VSFIP_NETIF_PROTO_IP ++
  ip4head size id (protocol s) 0 (ip4head_sum size id (protocol s) 0 src dest) src dest ++ body.

Definition framed_buf (x : vsfip_buffer_t) (pre post frame : list Z) : vsfip_buffer_t :=
  set_buf {| off := Z.of_nat (length pre); wsize := Z.of_nat (length frame) |}
    (set_iphead (Z.of_nat (length pre) + 14) (set_mem (pre ++ frame ++ post) x)).

Lemma framed_length s n id mac body :
  (6 ≤ length (s_addr_buf mac))%nat → (6 ≤ length (s_addr_buf (macaddr n)))%nat →
  Z.of_nat (length (framed s n id mac body)) = 34 + Z.of_nat (length body).
Proof.
  intros Hm Ho. unfold framed. rewrite !length_app, ip4head_length.
  rewrite ethhead_length by (by apply mac6_length). lia.
Qed.

(** A socket that can send through the default interface. *)
Record sender w (so b : Z) (s : vsfip_socket_t) (x : vsfip_buffer_t) (n : vsfip_netif_t)
    (mac : vsfip_addr_t) (q : list Z) : Prop := {
  snd_sock : socks w !! so = Some s;
  snd_family : family s = AF_INET;
  snd_xfed : xfed_len s = 0;
  snd_buf : bufs w !! b = Some x;
  snd_null : b ≠ NULL;
  snd_netif : netifs w !! netif x = Some n;
  snd_sniffer : output_sniffer (vsfip w) = NULL;
  snd_reach : reaches n (s_addr (sin_addr (remote_sockaddr s))) mac;
  snd_queue : queue_rep (nnodes w) (noutq n) q;
  snd_node : is_Some (nnodes w !! b);
  snd_free : b ∉ q }.

(** The world after a packet was sent. *)
Definition sent_world w (so b : Z) s (x : vsfip_buffer_t) n e h q' frame pre post : net E :=
  set_env e (put_netif (netif x) (set_noutq q' n) (set_nnodes h (put_buf b (framed_buf x pre post frame)
    (set_vsfip (set_ip_id (u16 (ip_id (vsfip w) + 1)) (vsfip w))
       (put_sock so (set_ippcb_id (ip_id (vsfip w)) s) w))))).

Lemma add_ip4head_ok w so s x n pre r2 body post :
  socks w !! so = Some s → bufs w !! ippcb_buf s = Some x → netifs w !! netif x = Some n →
  mem x = pre ++ r2 ++ body ++ post → length r2 = 20%nat → xfed_len s = 0 → 20 ≤ off (app x) →
  buf x = {| off := Z.of_nat (length pre) + 20; wsize := Z.of_nat (length body) |} →
  Z.of_nat (length body) < 65536 →
  let size := 20 + Z.of_nat (length body) in
  let src := s_addr (ipaddr n) in
  let dest := s_addr (sin_addr (remote_sockaddr s)) in
  vsfip_add_ip4head so w = Some (VSFERR_NONE,
    put_buf (ippcb_buf s) (set_iphead (Z.of_nat (length pre))
      (set_buf {| off := Z.of_nat (length pre); wsize := size |}
        (set_mem (pre ++ ip4head size (ippcb_id s) (protocol s) 0
             (ip4head_sum size (ippcb_id s) (protocol s) 0 src dest) src dest ++ body ++ post) x))) w).
Proof.
  intros Hs Hb Hn Hm Hr Hx Ha Hbuf Hl size src dest. unfold vsfip_add_ip4head.
  rewrite Hs. bindr. rewrite Hb. bindr. unfold VSFIP_IP_HEADLEN.
  destruct (Z.ltb_spec (off (app x)) 20); [lia|]. rewrite Hn. bindr. rewrite Hbuf, Hm, Hx. cbn [off wsize].
  replace (Z.of_nat (length pre) + 20 - 20) with (Z.of_nat (length pre)) by lia.
  replace (u32 (Z.of_nat (length body) + 20)) with size by (rewrite u32_small by lia; unfold size; lia).
  change (u16 0) with 0. rewrite (write_ip4head_ok pre r2 (body ++ post)) by done. bindr. done.
Qed.

Lemma ip_output_ok w so b s x n mac q pre r1 r2 body post :
  sender w so b s x n mac q → ippcb_buf s = b →
  mem x = pre ++ r1 ++ r2 ++ body ++ post → length r1 = 14%nat → length r2 = 20%nat →
  buf x = {| off := Z.of_nat (length pre) + 34; wsize := Z.of_nat (length body) |} → 20 ≤ off (app x) →
  Z.of_nat (length body) ≤ mtu n - 20 →
  ∃ e h q',
    vsfip_ip_output sys so w = Some (VSFERR_NONE,
      sent_world w so b s x n e h q' (framed s n (ip_id (vsfip w)) mac body) pre post) ∧
    queue_rep h q' (q ++ [b]) ∧ same_keys (nnodes w) h ∧ quiet_step (env w) e.
Proof.
  intros [Hs Hfam Hx Hb Hb0 Hn Hsn Hreach Hq [nd Hnd] Hbq] Hib Hm Hr1 Hr2 Hbuf Ha Hlen.
  pose proof (reach_mtu _ _ _ Hreach) as Hmtu. pose proof (reach_dest _ _ _ Hreach) as Hdest.
  unfold vsfip_ip_output. rewrite Hs. bindr. rewrite Hfam. change (AF_INET =? AF_INET) with true. cbn match.
  unfold vsfip_ip4_output. rewrite Hs. bindr. rewrite Hib, Hb. bindr. rewrite Hn. bindr.
  rewrite Hbuf. cbn [wsize]. unfold VSFIP_IP_HEADLEN at 1. rewrite u32_small by lia.
  destruct (Z.ltb_spec (mtu n - 20) (Z.of_nat (length body))); [lia|].
  set (s' := set_ippcb_id (ip_id (vsfip w)) s). set (w1 := set_vsfip _ _).
  rewrite (add_ip4head_ok w1 so s' x n (pre ++ r1) r2 body post);
    [|apply put_sock_get| | | |done|done|done| |].
  2: { by change (bufs w !! ippcb_buf s = Some x); rewrite Hib. }
  2: exact Hn.
  2: by rewrite Hm, <- app_assoc.
  2: { rewrite Hbuf, length_app, Hr1. f_equal. lia. }
  2: lia.
  replace (Z.of_nat (length (pre ++ r1))) with (Z.of_nat (length pre) + 14) by (rewrite length_app, Hr1; lia).
  bindr. change (negb (VSFERR_NONE =? 0)) with false. cbn match.
  change (ippcb_buf s') with (ippcb_buf s). rewrite Hib. set (x1 := set_iphead _ _). set (w2 := put_buf b x1 w1).
  unfold vsfip_ip_output_do. change (output_sniffer (vsfip w2)) with (output_sniffer (vsfip w)). rewrite Hsn.
  change (negb (NULL =? NULL)) with false. cbn match.
  change (ippcb_id s') with (ip_id (vsfip w)) in *.
  change (protocol s') with (protocol s) in *. change (remote_sockaddr s') with (remote_sockaddr s) in *.
  set (size := 20 + Z.of_nat (length body)) in *. set (cs := ip4head_sum _ _ _ _ _ _) in *.
  set (ip := ip4head size _ _ _ _ _ _) in *.
  destruct (netif_output_ok w2 b x1 n pre r1 ip (body ++ post)
    (s_addr (sin_addr (remote_sockaddr s))) mac q nd size) as (r & e & h & q' & -> & Hq' & Hk & Hstep); try done.
  - apply put_buf_get.
  - unfold x1. cbn [set_iphead set_buf set_mem mem]. by rewrite <- app_assoc.
  - unfold size. lia.
  - exact (le_value_4 _ Hdest).
  - exists e, h, q'. split; [|done]. bindr. f_equal. f_equal. unfold sent_world, w2.
    change (netif x1) with (netif x). rewrite put_buf_put.
    assert (Hf : framed s n (ip_id (vsfip w)) mac body =
                 ethhead (mac6 mac) (mac6 (macaddr n)) VSFIP_NETIF_PROTO_IP ++ ip ++ body) by done.
    unfold framed_buf. rewrite framed_length by (by destruct Hreach). rewrite Hf, <- !app_assoc.
    replace (34 + Z.of_nat (length body)) with (size + 14) by (unfold size; lia). done.
Qed.

(** ** UDP *)

Record udp_ready w (so b : Z) s x n mac q (peer : vsfip_sockaddr_t) : Prop := {
  ur_so : so ≠ NULL;
  ur_sock : socks w !! so = Some s;
  ur_family : family s = AF_INET;
  ur_proto : protocol s = IPPROTO_UDP;
  ur_xfed : xfed_len s = 0;
  ur_port : 0 < sin_port (local_sockaddr s) < 65536;
  ur_peer : 0 ≤ sin_port peer < 65536;
  ur_cb : user_on_outputted s = NULL;
  ur_b : b ≠ NULL;
  ur_buf : bufs w !! b = Some x;
  ur_default : netif_default (vsfip w) ≠ NULL;
  ur_netif : netifs w !! netif_default (vsfip w) = Some n;
  ur_src : 0 ≤ s_addr (ipaddr n) < 4294967296;
  ur_sniffer : output_sniffer (vsfip w) = NULL;
  ur_reach : reaches n (s_addr (sin_addr peer)) mac;
  ur_queue : queue_rep (nnodes w) (noutq n) q;
  ur_node : is_Some (nnodes w !! b);
  ur_free : b ∉ q }.

Lemma udphead_inserts (r : list Z) sp dp sz :
  length r = 8%nat →
  list_inserts 6 (be2 0) (list_inserts 4 (be2 sz) (list_inserts 2 (be2 dp) (list_inserts 0 (be2 sp) r))) =
  udphead sp dp sz.
Proof.
  intros Hr. unfold udphead, be2.
  do 8 (destruct r as [|? r]; [discriminate|]). by destruct r; [|discriminate].
Qed.

Lemma add_udphead_ok w so b s x pre r payload post :
  socks w !! so = Some s → bufs w !! b = Some x → mem x = pre ++ r ++ payload ++ post → length r = 8%nat →
  app x = {| off := Z.of_nat (length pre) + 8; wsize := Z.of_nat (length payload) |} →
  Z.of_nat (length payload) < 65536 →
  let size := 8 + Z.of_nat (length payload) in
  vsfip_add_udphead so b w = Some (VSFERR_NONE,
    put_buf b (set_buf {| off := Z.of_nat (length pre); wsize := size |}
      (set_mem (pre ++ udphead (sin_port (local_sockaddr s)) (sin_port (remote_sockaddr s)) size ++ payload ++ post) x)) w).
Proof.
  intros Hs Hb Hm Hr Ha Hl size. unfold vsfip_add_udphead. rewrite Hs. bindr. rewrite Hb. bindr.
  rewrite Ha, Hm. cbn [off wsize]. unfold VSFIP_UDP_HEADLEN.
  destruct (Z.ltb_spec (Z.of_nat (length pre) + 8) 8); [lia|].
  replace (Z.of_nat (length pre) + 8 - 8) with (Z.of_nat (length pre)) by lia.
  replace (u32 (Z.of_nat (length payload) + 8)) with size by (rewrite u32_small by lia; unfold size; lia).
  rewrite (wr_frame 2 pre r _ _ 0) by lia. bindr.
  rewrite (wr_frame 2 pre _ _ _ 2) by (rewrite ?length_inserts; lia). bindr.
  rewrite (wr_frame 2 pre _ _ _ 4) by (rewrite ?length_inserts; lia). bindr.
  rewrite (wr_frame 2 pre _ _ _ 6) by (rewrite ?length_inserts; lia). bindr.
  by rewrite !be16_be2, udphead_inserts by done.
Qed.

(** The world in which the datagram is given to IP. *)
Definition udp_prepared w so b s x peer mem' win : net E :=
  put_sock so (set_ippcb_buf b (set_remote peer s))
    (put_buf b (set_buf win (set_mem mem' (set_netif (netif_default (vsfip w)) x)))
       (put_sock so (set_remote peer s) w)).

Lemma udp_send_prepare w so b s x n mac q peer pre r payload post :
  udp_ready w so b s x n mac q peer →
  mem x = pre ++ r ++ payload ++ post → length r = 8%nat →
  app x = {| off := Z.of_nat (length pre) + 8; wsize := Z.of_nat (length payload) |} →
  Z.of_nat (length payload) < 65536 →
  let size := 8 + Z.of_nat (length payload) in
  vsfip_udp_async_send sys so (Some peer) b w =
  ('(err, w) ← vsfip_ip_output sys so (udp_prepared w so b s x peer
      (pre ++ udphead (sin_port (local_sockaddr s)) (sin_port peer) size ++ payload ++ post)
      {| off := Z.of_nat (length pre); wsize := size |});
   s ← socks w !! so;
   w ← (if (err =? 0) && negb (user_on_outputted s =? NULL)
        then call_on_outputted sys (user_on_outputted s) (user_param s) w else Some w);
   Some (err, w)).
Proof.
  intros [] Hm Hr Ha Hlen size. unfold vsfip_udp_async_send.
  destruct (Z.eqb_spec so NULL); [done|]. destruct (Z.eqb_spec b NULL); [done|]. cbn [orb].
  rewrite (upd_sock_ok so _ s) by done. bindr. set (w1 := put_sock so _ w).
  change (vsfip_ip_route (sin_addr peer) w1) with (netif_default (vsfip w)).
  rewrite (upd_buf_ok b _ x) by done. bindr. set (w2 := put_buf b _ w1).
  destruct (Z.eqb_spec (netif_default (vsfip w)) NULL); [done|].
  unfold bind_if_unset. rewrite (put_sock_get so _ w : socks w2 !! so = _). bindr. cbn [set_remote local_sockaddr].
  destruct (Z.eqb_spec (sin_port (local_sockaddr s)) 0); [lia|].
  bindr. change (negb (VSFERR_NONE =? 0)) with false. cbn match.
  rewrite (add_udphead_ok w2 so b (set_remote peer s) (set_netif (netif_default (vsfip w)) x) pre r payload post);
    [|apply put_sock_get|apply put_buf_get|done|done|done|lia].
  bindr. change (negb (VSFERR_NONE =? 0)) with false. cbn match.
  rewrite (upd_sock_ok so _ (set_remote peer s)) by apply put_sock_get. bindr.
  unfold udp_prepared, w2, w1. by rewrite put_buf_put.
Qed.

Lemma split3 (l : list Z) a b c :
  length l = (a + b + c)%nat →
  ∃ r1 r2 r3, l = r1 ++ r2 ++ r3 ∧ length r1 = a ∧ length r2 = b ∧ length r3 = c.
Proof.
  intros Hl. exists (take a l), (take b (drop a l)), (drop b (drop a l)).
  split; [by rewrite !take_drop|]. rewrite !length_take, !length_drop. lia.
Qed.

(** The frame that the sender queues for its driver. *)
Lemma udp_sent w so b s x n mac q peer pre room payload post :
  udp_ready w so b s x n mac q peer →
  mem x = pre ++ room ++ payload ++ post → length room = 42%nat →
  app x = {| off := Z.of_nat (length pre) + 42; wsize := Z.of_nat (length payload) |} →
  28 + Z.of_nat (length payload) ≤ mtu n →
  let src := s_addr (ipaddr n) in
  let frame := ethhead (mac6 mac) (mac6 (macaddr n)) VSFIP_NETIF_PROTO_IP ++
               udp_datagram (ip_id (vsfip w)) src (s_addr (sin_addr peer)) (sin_port (local_sockaddr s)) (sin_port peer) payload in
  ∃ w' x' n',
    vsfip_udp_async_send sys so (Some peer) b w = Some (VSFERR_NONE, w') ∧
    bufs w' !! b = Some x' ∧ mem x' = pre ++ frame ++ post ∧
    buf x' = {| off := Z.of_nat (length pre); wsize := Z.of_nat (length frame) |} ∧
    netifs w' !! netif_default (vsfip w) = Some n' ∧ queue_rep (nnodes w') (noutq n') (q ++ [b]).
Proof.
  intros Hready Hm Hr Ha Hlen src frame. pose proof Hready as [].
  pose proof (reach_mtu _ _ _ ur_reach0).
  destruct (split3 room 14 20 8 Hr) as (r1 & r2 & r3 & -> & Hl1 & Hl2 & Hl3).
  rewrite (udp_send_prepare w so b s x n mac q peer (pre ++ r1 ++ r2) r3 payload post);
    [|done|by rewrite Hm, <- !app_assoc|done|rewrite Ha, !length_app, Hl1, Hl2; f_equal; lia|lia].
  set (w4 := udp_prepared _ _ _ _ _ _ _ _). set (s4 := set_ippcb_buf b (set_remote peer s)).
  set (body := udphead (sin_port (local_sockaddr s)) (sin_port peer) (8 + Z.of_nat (length payload)) ++ payload).
  assert (Hbody : Z.of_nat (length body) = 8 + Z.of_nat (length payload)).
  { unfold body. rewrite length_app. change (length (udphead _ _ _)) with 8%nat. lia. }
  epose proof (put_buf_get b _ _ : bufs w4 !! b = Some _) as Hx4.
  match type of Hx4 with _ = Some ?v => set (x4 := v) in Hx4 end.
  destruct (ip_output_ok w4 so b s4 x4 n mac q pre r1 r2 body post) as (e & h & q' & -> & Hq' & Hk & _).
  - split; try done; [apply put_sock_get].
  - done.
  - unfold body. cbn. by rewrite <- !app_assoc.
  - done.
  - done.
  - cbn [x4 set_buf buf]. rewrite Hbody, !length_app, Hl1, Hl2. f_equal. lia.
  - cbn [x4 set_buf set_mem set_netif app]. rewrite Ha. cbn [off]. lia.
  - lia.
  - bindr. rewrite (put_sock_get so _ w4 : socks (sent_world w4 so b s4 x4 n e h q' _ pre post) !! so = _). bindr.
    cbn [set_ippcb_id s4 set_ippcb_buf set_remote user_on_outputted]. rewrite ur_cb0. bindr.
    assert (Hf : framed s4 n (ip_id (vsfip w4)) mac body = frame).
    { unfold framed, frame, udp_datagram. rewrite Hbody.
      replace (20 + (8 + Z.of_nat (length payload))) with (28 + Z.of_nat (length payload)) by lia.
      change (protocol s4) with (protocol s). by rewrite ur_proto0. }
    rewrite Hf. do 3 eexists. split; [done|]. split; [apply put_buf_get|]. split; [done|]. split; [done|].
    split; [apply lookup_insert_eq|done].
Qed.
End sent.

(** ** From host to host *)

(** C10: A datagram sent with [vsfip_udp_async_send] is delivered.  The routine
    succeeds and leaves one Ethernet frame with the interface of the socket; a
    host that gets these bytes, in a buffer of its own and at any offset, hands the
    packet to the socket that is bound to the destination port, with the payload
    as the application's bytes and the sender's address in the head.  All checks of
    the input (checksum, version, lengths, fragments, ports) pass. *)
Theorem datagram_delivered {E1 E2} (sys1 : system E1) (sys2 : system E2) `{!Quiet sys1}
    w so b s x n mac q peer pre room payload post :
  udp_ready w so b s x n mac q peer →
  mem x = pre ++ room ++ payload ++ post → length room = 42%nat →
  app x = {| off := Z.of_nat (length pre) + 42; wsize := Z.of_nat (length payload) |} →
  28 + Z.of_nat (length payload) ≤ mtu n →
  ∃ w' x' n' frame,
    vsfip_udp_async_send sys1 so (Some peer) b w = Some (VSFERR_NONE, w') ∧
    bufs w' !! b = Some x' ∧ rd_bytes (mem x') (off (buf x')) (wsize (buf x')) = Some frame ∧
    netifs w' !! netif_default (vsfip w) = Some n' ∧ queue_rep (nnodes w') (noutq n') (q ++ [b]) ∧
    ∀ (w2 : net E2) b2 y n2 so2 pre2 post2,
      bufs w2 !! b2 = Some y → netifs w2 !! netif y = Some n2 →
      mem y = pre2 ++ frame ++ post2 →
      buf y = {| off := Z.of_nat (length pre2); wsize := Z.of_nat (length frame) |} →
      receiver w2 n2 (s_addr (ipaddr n)) (s_addr (sin_addr peer))
        (sin_port (local_sockaddr s)) (sin_port peer) so2 →
      ∃ y', vsfip_eth_input sys2 b2 w2 = vsfip_udp_socket_input sys2 so2 b2 (put_buf b2 y' w2) ∧
            delivers y' (s_addr (ipaddr n)) payload.
Proof.
  intros Hready Hm Hr Ha Hlen. pose proof Hready as []. pose proof ur_reach0 as [].
  destruct (udp_sent sys1 w so b s x n mac q peer pre room payload post)
    as (w' & x' & n' & Hsend & Hb & Hmem & Hbuf & Hn & Hq); [done..|].
  set (frame := ethhead _ _ _ ++ _) in *.
  assert (Hf : Z.of_nat (length frame) = 42 + Z.of_nat (length payload)).
  { unfold frame, udp_datagram. rewrite !length_app, ip4head_length, ethhead_length by (by apply mac6_length).
    change (length (udphead _ _ _)) with 8%nat. lia. }
  exists w', x', n', frame. split; [done|]. split; [done|].
  split; [rewrite Hmem, Hbuf; by apply payload_at|]. split; [done|]. split; [done|].
  intros w2 b2 y n2 so2 pre2 post2 Hy Hn2 Hmy Hby Hrcv. rewrite Hf in Hby.
  apply (datagram_received sys2 w2 b2 y n2 pre2 post2 (mac6 mac) (mac6 (macaddr n)) (ip_id (vsfip w))
    (s_addr (ipaddr n)) (s_addr (sin_addr peer)) (sin_port (local_sockaddr s)) (sin_port peer) payload so2);
    try done; try (by apply mac6_length); lia.
Qed.

(** The laboratory is a quiet system. *)
#[export] Instance lab_quiet : Quiet lab.
Proof.
  refine {| quiet_step := eq |}; [intros ? w; exists VSFERR_NONE, (env w)|intros ? ? w; exists (env w)|done];
    by destruct w.
Defined.

(** Five bytes from port 9 of one host to port 7 of the other. *)
Definition lab_peer : vsfip_sockaddr_t := {| sin_port := 7; sin_addr := lab_ip 192 168 1 2 |}.
Definition lab_sender : net lab_env :=
  lab_world 1 2 (lab_ipdata 500 NULL) (lab_udp_socket 9 NULL) [] (lab_packet 100 [104; 101; 108; 108; 111]).

Lemma lab_udp_ready :
  udp_ready lab_sender 500 600 (lab_udp_socket 9 NULL) (lab_packet 100 [104; 101; 108; 108; 111])
    (lab_netif 1 2) (lab_mac 2) [] lab_peer.
Proof.
  split; try done.
  - split; [by vm_compute| |cbn; lia|cbn; lia|done]. eexists. by split.
  - set_solver.
Qed.

Lemma datagram_delivered_witness :
  ∃ frame w',
    vsfip_udp_async_send lab 500 (Some lab_peer) 600 lab_sender = Some (VSFERR_NONE, w') ∧
    ∃ y', vsfip_eth_input lab 600
            (lab_world 2 1 (lab_ipdata 500 NULL) (lab_udp_socket 7 44) [] (lab_frame frame)) =
          vsfip_udp_socket_input lab 500 600
            (put_buf 600 y' (lab_world 2 1 (lab_ipdata 500 NULL) (lab_udp_socket 7 44) [] (lab_frame frame))) ∧
          delivers y' (s_addr (lab_ip 192 168 1 1)) [104; 101; 108; 108; 111].
Proof.
  destruct (datagram_delivered lab lab lab_sender 500 600 _ _ _ _ _ lab_peer (replicate 58 0) (replicate 42 0)
    [104; 101; 108; 108; 111] [] lab_udp_ready) as (w' & x' & n' & frame & Hsend & _ & _ & _ & _ & Hin);
    [done|done|done|cbn; lia|].
  exists frame, w'. split; [done|].
  set (w2 := lab_world _ _ _ _ _ (lab_frame frame)).
  refine (Hin w2 600 (lab_frame frame) (lab_netif 2 1) 500 [] [] _ _ _ _ _);
    [done|done|by rewrite app_nil_r|done|].
  split; [by vm_compute|by vm_compute|done|].
  exists (lab_udp_socket 7 44). split_and!; vm_compute; reflexivity.
Defined.
