(* ===== verification/Tcpseg.v ===== *)
(** * Tcpseg: the segments that TCP writes

    The bytes of a segment, what the input reads of them, and the checksum over
    the segment and the pseudo header of its addresses. *)

From S2P Require Import Prelude Chain Vsfq Bits Endian Ipdata Netif Ipsock Tcp Vsfip Packet Iplab Ipwire.

(** ** Segments *)

Record segment := {
  g_sport : Z; g_dport : Z; g_seq : Z; g_ack : Z; g_flags : Z; g_window : Z; g_payload : list Z }.

Record seg_ok (g : segment) : Prop := {
  go_sport : 0 ≤ g_sport g < 65536; go_dport : 0 ≤ g_dport g < 65536;
  go_seq : 0 ≤ g_seq g < 4294967296; go_ack : 0 ≤ g_ack g < 4294967296;
  go_flags : 0 ≤ g_flags g < 256; go_window : 0 ≤ g_window g < 65536;
  go_payload : bytes (g_payload g) }.

Definition be4 (v : Z) : list Z :=
  [v / 256 / 256 / 256 mod 256; v / 256 / 256 mod 256; v / 256 mod 256; v mod 256].

(** The option of a SYN: the maximal segment size. *)
Definition options (flags : Z) : list Z :=
  if has flags VSFIP_TCPFLAG_SYN then [2; 4; 5; 180] else [].

(** The head; [hl] is its length in words, [cs] the checksum. *)
Definition tcphead (g : segment) (hl cs : Z) : list Z :=
  be2 (g_sport g) ++ be2 (g_dport g) ++ be4 (g_seq g) ++ be4 (g_ack g) ++
  [hl * 16; g_flags g] ++ be2 (g_window g) ++ be2 cs ++ be2 0.

Definition head_words (flags : Z) : Z := if has flags VSFIP_TCPFLAG_SYN then 6 else 5.

Definition seg_bytes (g : segment) (cs : Z) : list Z :=
  tcphead g (head_words (g_flags g)) cs ++ options (g_flags g) ++ g_payload g.

(** What the input reads of the head. *)
Definition head_of (g : segment) : vsfip_tcphead_t :=
  {| src_port := g_sport g; dst_port := g_dport g; seqno := g_seq g; ackseq := g_ack g;
     headlen := head_words (g_flags g) * 4; hflags := g_flags g; window_size := g_window g |}.

Lemma tcp_headlen_words flags : tcp_headlen flags = head_words flags * 4.
Proof. unfold tcp_headlen, head_words. by destruct (has _ _). Qed.

Lemma options_length flags : Z.of_nat (length (options flags)) = tcp_headlen flags - 20.
Proof. unfold tcp_headlen, options. by destruct (has _ _). Qed.

Lemma head_words_range flags : 5 ≤ head_words flags ≤ 6.
Proof. unfold head_words. destruct (has _ _); lia. Qed.

Lemma tcphead_length g hl cs : length (tcphead g hl cs) = 20%nat.
Proof. done. Qed.

(** ** Writing the head *)

Lemma write_tcphead_ok g pre blk post o hlen hl :
  o = Z.of_nat (length pre) → length blk = 20%nat → 0 ≤ g_flags g < 256 →
  u8 (Z.shiftl (Z.shiftr hlen 2) 4) = hl * 16 → 0 ≤ hl < 16 →
  write_tcphead (pre ++ blk ++ post) o (g_sport g) (g_dport g) (g_seq g) (g_ack g) hlen (g_flags g) (g_window g) =
  Some (pre ++ tcphead g hl 0 ++ post).
Proof.
  intros Ho Hb Hf Hh Hl. unfold write_tcphead.
  do 20 (destruct blk as [|? blk]; [discriminate|]). destruct blk; [|discriminate]. clear Hb.
  rewrite (wr_bytes_frame pre _ post o 0) by (cbn; lia). bindr.
  cbn [replicate list_inserts insert list_insert].
  wr_step pre post 0%nat. wr_step pre post 2%nat. wr_step pre post 4%nat. wr_step pre post 8%nat.
  wr_step pre post 12%nat. wr_step pre post 13%nat. wr_step pre post 14%nat. wr_step pre post 16%nat.
  wr_step pre post 18%nat.
  rewrite Hh, (Z.mod_small (hl * 16)), (Z.mod_small (g_flags g)) by lia. done.
Qed.

Lemma write_mss_ok pre blk post o :
  o = Z.of_nat (length pre) → length blk = 4%nat →
  write_mss (pre ++ blk ++ post) o = Some (pre ++ [2; 4; 5; 180] ++ post).
Proof.
  intros Ho Hb. unfold write_mss.
  do 4 (destruct blk as [|? blk]; [discriminate|]). destruct blk; [|discriminate]. clear Hb.
  wr_step pre post 0%nat. wr_step pre post 1%nat.
  by rewrite (wr_bytes_frame pre _ post _ 2) by (cbn; lia).
Qed.

(** ** Reading it *)

Definition tcphead_host (g : segment) (hl cs : Z) : list Z :=
  le_bytes 2 (g_sport g) ++ le_bytes 2 (g_dport g) ++ le_bytes 4 (g_seq g) ++ le_bytes 4 (g_ack g) ++
  [hl * 4; g_flags g] ++ le_bytes 2 (g_window g) ++ le_bytes 2 cs ++ le_bytes 2 0.

Lemma tcphead_list g hl cs :
  tcphead g hl cs =
  [g_sport g / 256 mod 256; g_sport g mod 256; g_dport g / 256 mod 256; g_dport g mod 256;
   g_seq g / 256 / 256 / 256 mod 256; g_seq g / 256 / 256 mod 256; g_seq g / 256 mod 256; g_seq g mod 256;
   g_ack g / 256 / 256 / 256 mod 256; g_ack g / 256 / 256 mod 256; g_ack g / 256 mod 256; g_ack g mod 256;
   hl * 16; g_flags g; g_window g / 256 mod 256; g_window g mod 256; cs / 256 mod 256; cs mod 256;
   0 / 256 mod 256; 0 mod 256].
Proof. done. Qed.

Lemma le_value_1 v : le_value [v] = v.
Proof. cbn [le_value]. lia. Qed.

Lemma headlen_words hl : 0 ≤ hl < 16 → u8 (Z.shiftl (Z.shiftr (hl * 16) 4) 2) = hl * 4.
Proof.
  intros Hh. rewrite Z.shiftr_div_pow2, Z.shiftl_mul_pow2 by lia. change (2 ^ 4) with 16. change (2 ^ 2) with 4.
  rewrite Z.div_mul by lia. apply u8_small. lia.
Qed.

Lemma fix_tcphead_ok g hl cs pre post o :
  o = Z.of_nat (length pre) → 0 ≤ hl < 16 →
  fix_tcphead (pre ++ tcphead g hl cs ++ post) o = Some (pre ++ tcphead_host g hl cs ++ post).
Proof.
  intros Ho Hh. unfold fix_tcphead. rewrite tcphead_list. rewrite <- (Z.add_0_r o) at 1.
  swap_step pre post 0%nat. swap_step pre post 2%nat. swap_step pre post 4%nat. swap_step pre post 8%nat.
  rewrite (rd_app 1 pre _ post (o + 12) 12 (hl * 16)) by (cbn [length]; first [lia | exact (le_value_1 _)]). bindr.
  rewrite headlen_words by done. wr_step pre post 12%nat.
  swap_step pre post 14%nat. swap_step pre post 16%nat. swap_step pre post 18%nat.
  by rewrite (Z.mod_small (hl * 4)) by lia.
Qed.

Lemma read_tcphead_ok g hl cs pre post o :
  o = Z.of_nat (length pre) → seg_ok g →
  read_tcphead (pre ++ tcphead_host g hl cs ++ post) o =
  Some {| src_port := g_sport g; dst_port := g_dport g; seqno := g_seq g; ackseq := g_ack g;
          headlen := hl * 4; hflags := g_flags g; window_size := g_window g |}.
Proof.
  intros Ho [Hsp Hdp Hsq Hak Hfl Hwi _]. unfold read_tcphead.
  assert (Hl : length (tcphead_host g hl cs) = 20%nat) by done.
  rewrite (rd_app 2 pre _ post o 0 (g_sport g)) by (rewrite ?Hl; first [lia | exact (le_value_2 _ Hsp)]). bindr.
  rewrite (rd_app 2 pre _ post (o + 2) 2 (g_dport g)) by (rewrite ?Hl; first [lia | exact (le_value_2 _ Hdp)]). bindr.
  rewrite (rd_app 4 pre _ post (o + 4) 4 (g_seq g)) by (rewrite ?Hl; first [lia | exact (le_value_4 _ Hsq)]). bindr.
  rewrite (rd_app 4 pre _ post (o + 8) 8 (g_ack g)) by (rewrite ?Hl; first [lia | exact (le_value_4 _ Hak)]). bindr.
  rewrite (rd_app 1 pre _ post (o + 12) 12 (hl * 4)) by (rewrite ?Hl; first [lia | exact (le_value_1 _)]). bindr.
  rewrite (rd_app 1 pre _ post (o + 13) 13 (g_flags g)) by (rewrite ?Hl; first [lia | exact (le_value_1 _)]). bindr.
  by rewrite (rd_app 2 pre _ post (o + 14) 14 (g_window g)) by (rewrite ?Hl; first [lia | exact (le_value_2 _ Hwi)]).
Qed.

(** ** The checksum *)

(** What the pseudo header adds to the sum. *)
Definition addr_words (a : vsfip_addr_t) : Z := wsum (take 4 (s_addr_buf a)).
Definition pseudo_sum (local_addr remote_addr : vsfip_addr_t) (proto size : Z) : Z :=
  addr_words local_addr + addr_words remote_addr + proto + size.

(** An address of four bytes. *)
Record addr_ok (a : vsfip_addr_t) : Prop := {
  ao_bytes : bytes (s_addr_buf a); ao_len : (4 ≤ length (s_addr_buf a))%nat }.

Lemma msb_word a b r : 0 ≤ a < 256 → 0 ≤ b < 256 → GET_U16_MSBFIRST (a :: b :: r) = Some (256 * a + b).
Proof.
  intros Ha Hb. change (GET_U16_MSBFIRST _) with (Some (u16 (Z.lor (Z.shiftl a 8) (Z.shiftl b 0)))).
  f_equal. rewrite Z.shiftl_0_r, word_lor by done. apply u16_small. lia.
Qed.

Lemma addr_words_get a :
  addr_ok a → ∃ v1 v2, GET_U16_MSBFIRST (s_addr_buf a) = Some v1 ∧
    GET_U16_MSBFIRST (drop 2 (s_addr_buf a)) = Some v2 ∧ v1 + v2 = addr_words a ∧ 0 ≤ addr_words a ≤ 131070.
Proof.
  intros [Hb Hl]. unfold addr_words.
  destruct (s_addr_buf a) as [|a0 [|a1 [|a2 [|a3 r]]]]; cbn in Hl; try lia.
  apply Forall_cons in Hb as [H0 Hb]. apply Forall_cons in Hb as [H1 Hb].
  apply Forall_cons in Hb as [H2 Hb]. apply Forall_cons in Hb as [H3 _].
  exists (256 * a0 + a1), (256 * a2 + a3). split; [by apply msb_word|]. split; [by apply msb_word|].
  cbn [take wsum] in *. rewrite take_0. cbn [wsum]. lia.
Qed.

Lemma onec_add a b : 0 ≤ a → 0 ≤ b → onec (onec a + b) = onec (a + b).
Proof.
  intros Ha Hb. unfold onec at 2. destruct (Z.eqb_spec a 0) as [->|Hn]; [by rewrite Z.add_0_l|].
  pose proof (Z.mod_pos_bound (a - 1) 65535 ltac:(lia)).
  pose proof (Z.div_mod (a - 1) 65535 ltac:(lia)) as E.
  unfold onec. destruct (Z.eqb_spec ((a - 1) mod 65535 + 1 + b) 0); [lia|]. destruct (Z.eqb_spec (a + b) 0); [lia|].
  f_equal. replace (a + b - 1) with ((a - 1) mod 65535 + 1 + b - 1 + (a - 1) / 65535 * 65535) by lia.
  by rewrite Z.mod_add by lia.
Qed.

(** The routine is the one's complement sum of the data and the pseudo header. *)
Lemma proto_checksum_onec la ra proto size data :
  addr_ok la → addr_ok ra → 0 ≤ proto < 256 → 0 ≤ size < 65536 → bytes data → Z.of_nat (length data) ≤ 65535 →
  vsfip_proto_checksum la ra proto size data = Some (onec (wsum data + pseudo_sum la ra proto size)).
Proof.
  intros (l0 & l2 & Hl0 & Hl2 & Hl & ?)%addr_words_get (r0 & r2 & Hr0 & Hr2 & Hr & ?)%addr_words_get ? ? Hd Hlen.
  unfold vsfip_proto_checksum. rewrite Hl0. bindr. rewrite Hl2. bindr. rewrite Hr0. bindr. rewrite Hr2. bindr.
  f_equal. rewrite vsfip_checksum_onec by done. pose proof (wsum_bounds _ Hd).
  pose proof (onec_range (wsum data) ltac:(lia)).
  replace (onec (wsum data) + l0 + l2 + r0 + r2 + proto + size)
    with (onec (wsum data) + pseudo_sum la ra proto size) by (unfold pseudo_sum; lia).
  assert (0 ≤ pseudo_sum la ra proto size < 400000) by (unfold pseudo_sum; lia).
  rewrite u32_small by lia. rewrite fold_twice by lia. rewrite onec_add by lia. done.
Qed.

(** The checksum of a segment between two addresses. *)
Definition seg_size (g : segment) : Z := Z.of_nat (length (seg_bytes g 0)).
Definition tcp_sum (la ra : vsfip_addr_t) (g : segment) : Z :=
  65535 - onec (wsum (seg_bytes g 0) + pseudo_sum la ra IPPROTO_TCP (seg_size g)).

Lemma be4_bytes v : bytes (be4 v).
Proof. unfold be4. repeat constructor; apply Z.mod_pos_bound; lia. Qed.

Lemma seg_bytes_bytes g cs : seg_ok g → bytes (seg_bytes g cs).
Proof.
  intros [_ _ _ _ Hf _ Hp]. unfold seg_bytes, tcphead. pose proof (head_words_range (g_flags g)).
  repeat (apply Forall_app_2; [|]); try apply be2_bytes; try apply be4_bytes; try done.
  - repeat (constructor; [lia|]). done.
  - unfold options. destruct (has _ _); [|done]. repeat (constructor; [lia|]). done.
Qed.

Lemma seg_bytes_length g cs :
  Z.of_nat (length (seg_bytes g cs)) = tcp_headlen (g_flags g) + Z.of_nat (length (g_payload g)).
Proof. unfold seg_bytes. rewrite !length_app, tcphead_length. pose proof (options_length (g_flags g)). lia. Qed.

(** The part of the head in front of the checksum field, and what is behind it. *)
Definition tcphead_front (g : segment) (hl : Z) : list Z :=
  be2 (g_sport g) ++ be2 (g_dport g) ++ be4 (g_seq g) ++ be4 (g_ack g) ++
  [hl * 16; g_flags g] ++ be2 (g_window g).

Lemma seg_bytes_split g cs :
  seg_bytes g cs = tcphead_front g (head_words (g_flags g)) ++ be2 cs ++ be2 0 ++ options (g_flags g) ++ g_payload g.
Proof. unfold seg_bytes, tcphead, tcphead_front. by rewrite <- !app_assoc. Qed.

Lemma seg_bytes_wsum g cs : 0 ≤ cs < 65536 → wsum (seg_bytes g cs) = wsum (seg_bytes g 0) + cs.
Proof.
  intros Hc. rewrite !seg_bytes_split. change (be2 0) with [0; 0] at 2.
  assert (He : Nat.Even (length (tcphead_front g (head_words (g_flags g))))) by by exists 8%nat.
  unfold be2 at 1. rewrite (wsum_word _ _ (cs / 256 mod 256) (cs mod 256)), (wsum_word _ _ 0 0), word_split by done. lia.
Qed.

Lemma seg_size_range g :
  Z.of_nat (length (g_payload g)) ≤ 65000 → 20 ≤ seg_size g < 65536.
Proof.
  intros Hl. unfold seg_size. rewrite seg_bytes_length, tcp_headlen_words.
  pose proof (head_words_range (g_flags g)). lia.
Qed.

Lemma pseudo_sum_pos la ra proto size : addr_ok la → addr_ok ra → 0 ≤ proto → 0 ≤ size → 0 ≤ pseudo_sum la ra proto size.
Proof.
  intros (? & ? & _ & _ & _ & ?)%addr_words_get (? & ? & _ & _ & _ & ?)%addr_words_get ??.
  unfold pseudo_sum. lia.
Qed.

Lemma tcp_sum_range la ra g :
  addr_ok la → addr_ok ra → seg_ok g → Z.of_nat (length (g_payload g)) ≤ 65000 → 0 ≤ tcp_sum la ra g < 65536.
Proof.
  intros Hla Hra Hg Hl. pose proof (seg_size_range g Hl).
  pose proof (pseudo_sum_pos la ra IPPROTO_TCP (seg_size g) Hla Hra ltac:(done) ltac:(lia)).
  pose proof (wsum_bounds _ (seg_bytes_bytes g 0 Hg)). unfold tcp_sum.
  pose proof (onec_range (wsum (seg_bytes g 0) + pseudo_sum la ra IPPROTO_TCP (seg_size g)) ltac:(lia)). lia.
Qed.

(** With its checksum, a segment and its pseudo header add up to all ones. *)
Lemma segment_adds_up la ra g :
  addr_ok la → addr_ok ra → seg_ok g → Z.of_nat (length (g_payload g)) ≤ 65000 →
  vsfip_proto_checksum la ra IPPROTO_TCP (seg_size g) (seg_bytes g (tcp_sum la ra g)) = Some 0xFFFF.
Proof.
  intros Hla Hra Hg Hl. pose proof (seg_size_range g Hl). pose proof (tcp_sum_range la ra g Hla Hra Hg Hl).
  pose proof (pseudo_sum_pos la ra IPPROTO_TCP (seg_size g) Hla Hra ltac:(done) ltac:(lia)).
  pose proof (wsum_bounds _ (seg_bytes_bytes g 0 Hg)).
  rewrite proto_checksum_onec; [|done|done|done|lia|by apply seg_bytes_bytes|].
  - f_equal. rewrite seg_bytes_wsum by done. unfold tcp_sum.
    set (z := wsum _) in *. set (P := pseudo_sum _ _ _ _) in *.
    replace (z + (65535 - onec (z + P)) + P) with (z + P + (65535 - onec (z + P))) by lia.
    apply onec_complement. lia.
  - rewrite seg_bytes_length. unfold seg_size in *. rewrite seg_bytes_length in *. lia.
Qed.

(** ** Sending *)

(** The segment that a socket writes. *)
Definition seg_of (s : vsfip_socket_t) (p : vsfip_tcppcb_t) (flags window : Z) (payload : list Z) : segment :=
  {| g_sport := sin_port (local_sockaddr s); g_dport := sin_port (remote_sockaddr s);
     g_seq := lseq p; g_ack := rseq p; g_flags := with_ack p flags; g_window := window; g_payload := payload |}.

Lemma has_with_ack p flags m : Z.land VSFIP_TCPFLAG_ACK m = 0 → has (with_ack p flags) m = has flags m.
Proof.
  intros Hm. unfold has, with_ack. rewrite Z.land_lor_distr_l.
  destruct (negb (rseq p =? 0)); [rewrite Hm|rewrite Z.land_0_l]; by rewrite Z.lor_0_r.
Qed.

Lemma with_ack_headlen p flags : tcp_headlen (with_ack p flags) = tcp_headlen flags.
Proof. unfold tcp_headlen. by rewrite has_with_ack. Qed.
Lemma with_ack_words p flags : head_words (with_ack p flags) = head_words flags.
Proof. unfold head_words. by rewrite has_with_ack. Qed.

Lemma with_ack_range p flags : 0 ≤ flags < 256 → 0 ≤ with_ack p flags < 256.
Proof.
  intros Hf. change 256 with (2 ^ 8) in *. unfold with_ack. apply fits_testbit; [lia| |].
  - apply Z.lor_nonneg. split; [lia|]. by destruct (negb _).
  - intros i Hi. rewrite Z.lor_spec, (testbit_fits 8 flags) by done.
    apply (testbit_fits 8); [|done]. by destruct (negb _).
Qed.

Lemma headlen_byte flags : u8 (Z.shiftl (Z.shiftr (tcp_headlen flags) 2) 4) = head_words flags * 16.
Proof. unfold tcp_headlen, head_words. by destruct (has _ _). Qed.

Section sending.
Context {E : Type}.
Implicit Types w : net E.

Lemma pcb_of_ok w so s p : socks w !! so = Some s → pcbs w !! protopcb s = Some p → pcb_of so w = Some (s, p).
Proof. intros Hs Hp. unfold pcb_of. rewrite Hs. bindr. by rewrite Hp. Qed.
Lemma upd_pcb_of_ok w so s p f :
  socks w !! so = Some s → pcbs w !! protopcb s = Some p → upd_pcb_of so f w = Some (put_pcb (protopcb s) (f p) w).
Proof. intros Hs Hp. unfold upd_pcb_of. rewrite Hs. bindr. by apply upd_pcb_ok. Qed.

Lemma write_options pre r payload post o flags :
  o = Z.of_nat (length pre) → Z.of_nat (length r) = tcp_headlen flags - 20 →
  (if has flags VSFIP_TCPFLAG_SYN then write_mss (pre ++ r ++ payload ++ post) o
   else Some (pre ++ r ++ payload ++ post)) = Some (pre ++ options flags ++ payload ++ post).
Proof.
  intros Ho Hr. unfold tcp_headlen, options in *. destruct (has _ _).
  - by rewrite (write_mss_ok pre r (payload ++ post)) by (done || (unfold VSFIP_TCP_HEADLEN in *; lia)).
  - destruct r; [done|]. unfold VSFIP_TCP_HEADLEN in *. cbn [length] in Hr. lia.
Qed.

Lemma add_tcphead_ok w so b s p x nd len pre r payload post flags :
  socks w !! so = Some s → pcbs w !! protopcb s = Some p → bufs w !! b = Some x → pnodes w !! b = Some nd →
  vsfip_bufferlist_len (inq s) w = Some len → mem x = pre ++ r ++ payload ++ post →
  Z.of_nat (length r) = tcp_headlen flags → 0 ≤ flags < 256 → Z.of_nat (length payload) ≤ 65000 →
  app x = {| off := Z.of_nat (length pre) + tcp_headlen flags; wsize := Z.of_nat (length payload) |} →
  let g := seg_of s p flags (u16 (rx_window p - len)) payload in
  vsfip_add_tcphead so b flags w = Some (VSFERR_NONE,
    put_pcb (protopcb s) (set_acked_rseq (rseq p) p)
      (set_pnodes (<[b := {| addr := lseq p; next := next nd |}]> (pnodes w))
         (put_buf b (set_buf {| off := Z.of_nat (length pre); wsize := seg_size g |}
            (set_mem (pre ++ seg_bytes g 0 ++ post) x)) w))).
Proof.
  intros Hs Hp Hb Hnd Hlen Hm Hr Hf Hl Ha g. unfold vsfip_add_tcphead.
  rewrite (pcb_of_ok w so s p) by done. bindr. rewrite Hb. bindr. rewrite Ha. cbn [off wsize].
  pose proof (tcp_headlen_words flags) as Hw. pose proof (head_words_range flags).
  destruct (Z.ltb_spec (Z.of_nat (length pre) + tcp_headlen flags) (tcp_headlen flags)); [lia|].
  replace (Z.of_nat (length pre) + tcp_headlen flags - tcp_headlen flags) with (Z.of_nat (length pre)) by lia.
  rewrite Hnd. bindr. rewrite Hlen. bindr. rewrite Hm.
  rewrite <- (take_drop 20 r). set (r1 := take 20 r). set (r2 := drop 20 r).
  assert (Hr1 : length r1 = 20%nat) by (unfold r1; rewrite length_take; lia).
  rewrite <- (app_assoc r1 r2).
  rewrite (write_tcphead_ok g pre r1 (r2 ++ payload ++ post) _ (tcp_headlen flags) (head_words flags));
    [|done|done|by apply with_ack_range|apply headlen_byte|lia].
  bindr. rewrite (app_assoc pre (tcphead _ _ _)).
  rewrite write_options; [|rewrite length_app, tcphead_length; unfold VSFIP_TCP_HEADLEN; lia
                          |unfold r2; rewrite length_drop; lia].
  bindr. assert (Hsz : u32 (Z.of_nat (length payload) + tcp_headlen flags) = seg_size g).
  { unfold seg_size. rewrite seg_bytes_length. cbn [g g_flags g_payload seg_of].
    rewrite with_ack_headlen, u32_small by lia. lia. }
  rewrite Hsz. set (w1 := set_pnodes _ _).
  rewrite (upd_pcb_ok _ _ p) by done. bindr. f_equal. f_equal. f_equal. unfold w1. f_equal. f_equal. f_equal. f_equal.
  unfold seg_bytes. cbn [g g_flags g_payload seg_of]. rewrite with_ack_words. unfold options.
  rewrite has_with_ack by done. by rewrite <- !app_assoc.
Qed.

Lemma add_tcpchecksum_ok w so b s x n g pre post :
  socks w !! so = Some s → bufs w !! b = Some x → netifs w !! netif x = Some n →
  mem x = pre ++ seg_bytes g 0 ++ post → protocol s = IPPROTO_TCP →
  buf x = {| off := Z.of_nat (length pre); wsize := seg_size g |} →
  addr_ok (ipaddr n) → addr_ok (sin_addr (remote_sockaddr s)) → seg_ok g → Z.of_nat (length (g_payload g)) ≤ 65000 →
  vsfip_add_tcpchecksum so b w =
  Some (put_buf b (set_mem (pre ++ seg_bytes g (tcp_sum (ipaddr n) (sin_addr (remote_sockaddr s)) g) ++ post) x) w).
Proof.
  intros Hs Hb Hn Hm Hpr Hbuf Hla Hra Hg Hl. unfold vsfip_add_tcpchecksum.
  rewrite Hs. bindr. rewrite Hb. bindr. rewrite Hn. bindr. rewrite Hbuf, Hm, Hpr. cbn [off wsize].
  pose proof (seg_size_range g Hl). rewrite u16_small by lia.
  rewrite (payload_at pre (seg_bytes g 0) post _ eq_refl : rd_bytes _ _ (seg_size g) = _). bindr.
  pose proof (tcp_sum_range _ _ g Hla Hra Hg Hl) as Hc. unfold tcp_sum in Hc.
  rewrite proto_checksum_onec; [|done|done|done|lia|by apply seg_bytes_bytes|unfold seg_size in *; lia]. bindr.
  pose proof (pseudo_sum_pos _ _ IPPROTO_TCP (seg_size g) Hla Hra ltac:(done) ltac:(lia)).
  pose proof (wsum_bounds _ (seg_bytes_bytes g 0 Hg)).
  rewrite lnot16 by (apply onec_range; lia). fold (tcp_sum (ipaddr n) (sin_addr (remote_sockaddr s)) g).
  set (cs := tcp_sum _ _ _). rewrite !seg_bytes_split.
  rewrite <- !app_assoc, (app_assoc pre). rewrite (wr_frame 2 (pre ++ tcphead_front g _) (be2 0) _ _ 0).
  - bindr. rewrite be16_be2. by rewrite <- app_assoc.
  - rewrite length_app. change (length (tcphead_front g _)) with 16%nat. lia.
  - done.
Qed.
End sending.


(** What TCP asks of a socket and its packet to send a segment. *)
Record tcp_sender {E} (w : net E) (so b : Z) s p (n : vsfip_netif_t) nd (len : Z) : Prop := {
  ts_proto : protocol s = IPPROTO_TCP;
  ts_pcb : pcbs w !! protopcb s = Some p;
  ts_node : pnodes w !! b = Some nd;
  ts_len : vsfip_bufferlist_len (inq s) w = Some len;
  ts_ip : addr_ok (ipaddr n);
  ts_peer : addr_ok (sin_addr (remote_sockaddr s));
  ts_lport : 0 ≤ sin_port (local_sockaddr s) < 65536;
  ts_rport : 0 ≤ sin_port (remote_sockaddr s) < 65536;
  ts_lseq : 0 ≤ lseq p < 4294967296;
  ts_rseq : 0 ≤ rseq p < 4294967296 }.

(** The frame of a segment. *)
Definition tcp_frame (s : vsfip_socket_t) (n : vsfip_netif_t) (id : Z) (mac : vsfip_addr_t) (g : segment) : list Z :=
  framed s n id mac (seg_bytes g (tcp_sum (ipaddr n) (sin_addr (remote_sockaddr s)) g)).

Definition sent_pcb (flags len : Z) (p : vsfip_tcppcb_t) : vsfip_tcppcb_t :=
  let p := set_acked_rseq (rseq p) p in
  let p := if has flags (Z.lor VSFIP_TCPFLAG_FIN VSFIP_TCPFLAG_SYN) || (0 <? len) then set_pflags flags p else p in
  set_lseq (u32 (lseq p + len)) p.

(** The world after a segment was sent. *)
Definition seg_sent {E} (w : net E) (so b : Z) s p x n nd e h q' frame pre post flags len : net E := {|
  bufs := <[b := framed_buf x pre post frame]> (bufs w);
  pnodes := <[b := {| addr := lseq p; next := next nd |}]> (pnodes w); nnodes := h;
  socks := <[so := set_ippcb_id (ip_id (vsfip w)) (set_ippcb_buf b s)]> (socks w);
  pcbs := <[protopcb s := sent_pcb flags len p]> (pcbs w);
  netifs := <[netif x := set_noutq q' n]> (netifs w);
  vsfip := set_ip_id (u16 (ip_id (vsfip w) + 1)) (vsfip w); env := e |}.

Lemma net_ext {E} (w1 w2 : net E) :
  bufs w1 = bufs w2 → pnodes w1 = pnodes w2 → nnodes w1 = nnodes w2 → socks w1 = socks w2 →
  pcbs w1 = pcbs w2 → netifs w1 = netifs w2 → vsfip w1 = vsfip w2 → env w1 = env w2 → w1 = w2.
Proof. destruct w1, w2. cbn. by intros; subst. Qed.

(** The two routines that build the segment. *)
Definition seg_built {E} (w : net E) (so b : Z) s p x nd pre post la g : net E :=
  put_sock so (set_ippcb_buf b s)
    (put_pcb (protopcb s) (set_acked_rseq (rseq p) p)
      (set_pnodes (<[b := {| addr := lseq p; next := next nd |}]> (pnodes w))
         (put_buf b (set_buf {| off := Z.of_nat (length pre); wsize := seg_size g |}
            (set_mem (pre ++ seg_bytes g (tcp_sum la (sin_addr (remote_sockaddr s)) g) ++ post) x)) w))).

(** The fields of a changed world. *)
Ltac net_fields :=
  cbn [bufs pnodes nnodes socks pcbs netifs vsfip env put_pcb put_netif put_buf put_sock set_env set_pcbs set_netifs
       set_bufs set_socks set_vsfip set_nnodes set_pnodes sent_world seg_built seg_sent].

Section send_do.
Context {E : Type} (sys : system E) `{!Quiet sys}.
Implicit Types w : net E.

Lemma seg_of_ok w so b s p n nd len flags window payload :
  tcp_sender w so b s p n nd len → 0 ≤ flags < 256 → 0 ≤ window < 65536 → bytes payload →
  seg_ok (seg_of s p flags window payload).
Proof. intros []. intros. split; cbn; try done. by apply with_ack_range. Qed.


Lemma send_do_built w so b s p x n mac q nd len pre r payload post flags :
  sender w so b s x n mac q → tcp_sender w so b s p n nd len →
  mem x = pre ++ r ++ payload ++ post → Z.of_nat (length r) = tcp_headlen flags → 0 ≤ flags < 256 →
  Z.of_nat (length payload) ≤ 65000 → bytes payload →
  app x = {| off := Z.of_nat (length pre) + tcp_headlen flags; wsize := Z.of_nat (length payload) |} →
  let g := seg_of s p flags (u16 (rx_window p - len)) payload in
  vsfip_tcp_send_do sys so b flags w =
  ('(_, w) ← vsfip_ip_output sys so (seg_built w so b s p x nd pre post (ipaddr n) g);
    x ← bufs w !! b;
    w ← (if has flags (Z.lor VSFIP_TCPFLAG_FIN VSFIP_TCPFLAG_SYN) || (0 <? wsize (app x))
         then upd_pcb_of so (set_pflags flags) w else Some w);
    w ← upd_pcb_of so (λ p, set_lseq (u32 (lseq p + wsize (app x))) p) w;
    Some (VSFERR_NONE, w)).
Proof.
  intros [] Hts Hm Hr Hf Hl Hby Ha g. pose proof Hts as [].
  unfold vsfip_tcp_send_do. rewrite (add_tcphead_ok w so b s p x nd len pre r payload post flags) by done.
  bindr. change (VSFERR_NONE <? 0) with false. cbn match. fold g. set (w1 := put_pcb _ _ _).
  epose proof (put_buf_get b _ _ : bufs w1 !! b = Some _) as Hx1.
  rewrite (add_tcpchecksum_ok w1 so b s _ n g pre post snd_sock Hx1); [|done|done|done|done|done|done| |done].
  - bindr. rewrite (upd_sock_ok so _ s) by done. bindr. unfold seg_built, w1.
    set (A := put_sock so _ _). set (B := put_sock so _ _).
    assert (HAB : A = B); [|by rewrite HAB]. unfold A, B, put_buf, put_sock, put_pcb, set_bufs, set_socks, set_pcbs.
    cbn. by rewrite insert_insert_eq.
  - eapply seg_of_ok; try done. apply u16_range.
Qed.

Lemma framed_same s s' n id mac body :
  protocol s' = protocol s → remote_sockaddr s' = remote_sockaddr s →
  framed s' n id mac body = framed s n id mac body.
Proof. intros Hp Hr. unfold framed. by rewrite Hp, Hr. Qed.

(** The bookkeeping behind the output. *)
Lemma send_do_finish w so b s p x n nd win mem' e h q' frame pre pre4 post flags len g la :
  wsize (app x) = len →
  let x4 := set_buf win (set_mem mem' x) in
  let w4 := seg_built w so b s p x nd pre4 post la g in
  let w5 := sent_world w4 so b (set_ippcb_buf b s) x4 n e h q' frame pre post in
  (x ← bufs w5 !! b;
   w ← (if has flags (Z.lor VSFIP_TCPFLAG_FIN VSFIP_TCPFLAG_SYN) || (0 <? wsize (app x))
        then upd_pcb_of so (set_pflags flags) w5 else Some w5);
   w ← upd_pcb_of so (λ p, set_lseq (u32 (lseq p + wsize (app x))) p) w;
   Some (VSFERR_NONE, w)) =
  Some (VSFERR_NONE, seg_sent w so b s p x n nd e h q' frame pre post flags len).
Proof.
  intros Hl x4 w4 w5. set (p1 := set_acked_rseq (rseq p) p). set (s5 := set_ippcb_id (ip_id (vsfip w)) (set_ippcb_buf b s)).
  assert (Hx5 : bufs w5 !! b = Some (framed_buf x4 pre post frame)) by apply put_buf_get.
  assert (Hs5 : socks w5 !! so = Some s5) by apply lookup_insert_eq.
  assert (Hp5 : pcbs w5 !! protopcb s5 = Some p1) by apply lookup_insert_eq.
  assert (Hbufs : bufs w5 = <[b := framed_buf x pre post frame]> (bufs w)).
  { unfold w5, w4. net_fields. by rewrite insert_insert_eq. }
  assert (Hsocks : socks w5 = <[so := s5]> (socks w)).
  { unfold w5, w4. net_fields. by rewrite insert_insert_eq. }
  assert (Hpcbs : pcbs w5 = <[protopcb s := p1]> (pcbs w)) by done.
  rewrite Hx5. bindr. cbn [framed_buf set_buf set_iphead set_mem app x4]. rewrite Hl.
  assert (Hw : (if has flags (Z.lor VSFIP_TCPFLAG_FIN VSFIP_TCPFLAG_SYN) || (0 <? len)
                then upd_pcb_of so (set_pflags flags) w5 else Some w5) =
               Some (if has flags (Z.lor VSFIP_TCPFLAG_FIN VSFIP_TCPFLAG_SYN) || (0 <? len)
                     then put_pcb (protopcb s) (set_pflags flags p1) w5 else w5)).
  { destruct (_ || _); [by rewrite (upd_pcb_of_ok _ so s5 _ _ Hs5 Hp5)|done]. }
  rewrite Hw. bindr. unfold seg_sent, sent_pcb. fold p1.
  destruct (_ || _).
  - rewrite (upd_pcb_of_ok (put_pcb (protopcb s) (set_pflags flags p1) w5) so s5 _ _ Hs5 (put_pcb_get _ _ _)).
    bindr. f_equal. f_equal. apply net_ext; try done. net_fields. rewrite Hpcbs. by rewrite !insert_insert_eq.
  - rewrite (upd_pcb_of_ok _ so s5 _ _ Hs5 Hp5).
    bindr. f_equal. f_equal. apply net_ext; try done. net_fields. rewrite Hpcbs. by rewrite !insert_insert_eq.
Qed.

Lemma send_do_ok w so b s p x n mac q nd len pre r1 r2 r3 payload post flags :
  sender w so b s x n mac q → tcp_sender w so b s p n nd len →
  mem x = pre ++ r1 ++ r2 ++ r3 ++ payload ++ post → length r1 = 14%nat → length r2 = 20%nat →
  Z.of_nat (length r3) = tcp_headlen flags → 0 ≤ flags < 256 →
  tcp_headlen flags + Z.of_nat (length payload) ≤ Z.min 65000 (mtu n - 20) → bytes payload →
  app x = {| off := Z.of_nat (length pre) + 34 + tcp_headlen flags; wsize := Z.of_nat (length payload) |} →
  let g := seg_of s p flags (u16 (rx_window p - len)) payload in
  ∃ e h q',
    vsfip_tcp_send_do sys so b flags w =
    Some (VSFERR_NONE, seg_sent w so b s p x n nd e h q' (tcp_frame s n (ip_id (vsfip w)) mac g) pre post flags
                         (Z.of_nat (length payload))) ∧
    queue_rep h q' (q ++ [b]) ∧ same_keys (nnodes w) h ∧ quiet_step (env w) e.
Proof.
  intros Hsnd Hts Hm H1 H2 H3 Hf Hl Hby Ha g. pose proof Hsnd as []. pose proof Hts as [].
  pose proof (tcp_headlen_words flags) as Hhl. pose proof (head_words_range flags).
  rewrite (send_do_built w so b s p x n mac q nd len (pre ++ r1 ++ r2) r3 payload post flags);
    [|done|done|by rewrite Hm, <- !app_assoc|done|done|lia|done|].
  2: { rewrite Ha, !length_app, H1, H2. f_equal. lia. }
  fold g. set (w4 := seg_built _ _ _ _ _ _ _ _ _ _ _). set (s4 := set_ippcb_buf b s).
  set (body := seg_bytes g (tcp_sum (ipaddr n) (sin_addr (remote_sockaddr s)) g)).
  assert (Hbody : Z.of_nat (length body) = seg_size g) by (unfold seg_size, body; by rewrite !seg_bytes_length).
  assert (Hsz : seg_size g = tcp_headlen flags + Z.of_nat (length payload)).
  { unfold seg_size. rewrite seg_bytes_length. cbn [g g_flags g_payload seg_of]. by rewrite with_ack_headlen. }
  epose proof (put_buf_get b _ _ : bufs w4 !! b = Some _) as Hx4.
  match type of Hx4 with _ = Some ?v => set (x4 := v) in Hx4 end.
  destruct (ip_output_ok sys w4 so b s4 x4 n mac q pre r1 r2 body post) as (e & h & q' & -> & Hq' & Hk & Hst).
  - split; try done. apply put_sock_get.
  - done.
  - unfold x4. cbn [set_buf set_mem mem]. by rewrite <- !app_assoc.
  - done.
  - done.
  - cbn [x4 set_buf buf]. rewrite Hbody, !length_app, H1, H2. f_equal. lia.
  - cbn [x4 set_buf set_mem app]. rewrite Ha. cbn [off]. lia.
  - rewrite Hbody. lia.
  - exists e, h, q'. split; [|done]. bindr.
    rewrite (framed_same s s4) by done. change (ip_id (vsfip w4)) with (ip_id (vsfip w)).
    fold (tcp_frame s n (ip_id (vsfip w)) mac g).
    apply send_do_finish. by rewrite Ha.
Qed.
End send_do.

(** ** Receiving *)

(** The segment is in the packet as the socket's input looks at it. *)
Definition seg_arrives (y : vsfip_buffer_t) (src : Z) (g : segment) : Prop :=
  read_tcphead (mem y) (off (buf y)) = Some (head_of g) ∧
  rd_bytes (mem y) (off (app y)) (wsize (app y)) = Some (g_payload g) ∧
  wsize (app y) = Z.of_nat (length (g_payload g)) ∧
  rd 4 (mem y) (iphead y + 12) = Some src.

(** What the receiving host is asked to have. *)
Record tcp_receiver {E} (w : net E) (n : vsfip_netif_t) (src dest sport dport so : Z) : Prop := {
  tr_us : ip4_for_us n dest = true;
  tr_found : find_socket (fuel_of (socks w)) (tcpconns (vsfip w)) src dest sport dport w = Some so;
  tr_so : so ≠ NULL;
  tr_sock : ∃ s, socks w !! so = Some s ∧ can_rx s = true ∧ proto_on_input s = TCP_INPUT_FN }.

(** The queue node of the packet gets the sequence number. *)
Definition keyed {E} (b seq : Z) nd (w : net E) : net E :=
  set_pnodes (<[b := {| addr := seq; next := next nd |}]> (pnodes w)) w.

Section receiving.
Context {E : Type} (sys : system E).
Implicit Types w : net E.

Lemma tcp_input_ok w b y nd p1 p2 g cs :
  bufs w !! b = Some y → pnodes w !! b = Some nd → mem y = p1 ++ seg_bytes g cs ++ p2 →
  off (buf y) = Z.of_nat (length p1) → seg_ok g →
  let hl := head_words (g_flags g) in
  vsfip_tcp_input sys b w =
  vsfip_proto_input sys (tcpconns (vsfip w)) b (g_sport g) (g_dport g)
    (put_buf b (app_behind (hl * 4)
       (set_mem (p1 ++ tcphead_host g hl cs ++ options (g_flags g) ++ g_payload g ++ p2) y)) (keyed b (g_seq g) nd w)).
Proof.
  intros Hb Hnd Hm Ho Hg hl. unfold vsfip_tcp_input. rewrite Hb. bindr. rewrite Hm, Ho.
  unfold seg_bytes. rewrite <- !app_assoc. pose proof (head_words_range (g_flags g)).
  rewrite fix_tcphead_ok by (done || lia). bindr. rewrite read_tcphead_ok by done. bindr.
  rewrite Hnd. bindr. done.
Qed.

(** The segment in the socket's hands, behind the IP head [ip]. *)
Lemma tcp_received w b y nd p1 ip post src dest g cs so :
  bufs w !! b = Some y → pnodes w !! b = Some nd → mem y = (p1 ++ ip) ++ seg_bytes g cs ++ post →
  buf y = {| off := Z.of_nat (length p1) + 20; wsize := seg_size g |} →
  iphead y = Z.of_nat (length p1) → length ip = 20%nat →
  le_value (take 4 (drop 12 ip)) = src → le_value (take 4 (drop 16 ip)) = dest →
  Z.of_nat (length (g_payload g)) ≤ 65000 → seg_ok g →
  find_socket (fuel_of (socks w)) (tcpconns (vsfip w)) src dest (g_sport g) (g_dport g) w = Some so → so ≠ NULL →
  (∃ s, socks w !! so = Some s ∧ can_rx s = true ∧ proto_on_input s = TCP_INPUT_FN) →
  ∃ y', vsfip_tcp_input sys b w = vsfip_tcp_socket_input sys so b (put_buf b y' (keyed b (g_seq g) nd w)) ∧
        seg_arrives y' src g ∧ ref y' = ref y.
Proof.
  intros Hb Hnd Hm Hbuf Hi Hip Hsrc Hdest Hlen Hg Hf Hso (s & Hs1 & Hs2 & Hs3).
  set (hl := head_words (g_flags g)). pose proof (head_words_range (g_flags g) : 5 ≤ hl ≤ 6).
  assert (Ho : off (buf y) = Z.of_nat (length (p1 ++ ip))) by (rewrite Hbuf, length_app, Hip; cbn [off]; lia).
  rewrite (tcp_input_ok w b y nd (p1 ++ ip) post g cs) by done. fold hl.
  set (y3 := app_behind _ _). set (wk := keyed _ _ _ _).
  assert (Hm3 : mem y3 = p1 ++ ip ++ tcphead_host g hl cs ++ options (g_flags g) ++ g_payload g ++ post)
    by (unfold y3; cbn [app_behind set_app set_mem mem]; by rewrite <- !app_assoc).
  assert (Hi3 : iphead y3 = Z.of_nat (length p1)) by done.
  assert (Ha3 : app y3 = {| off := Z.of_nat (length p1) + 20 + hl * 4; wsize := Z.of_nat (length (g_payload g)) |}).
  { unfold y3, app_behind. cbn [app set_app set_mem buf]. rewrite Hbuf. cbn [off wsize]. f_equal.
    unfold seg_size. rewrite seg_bytes_length, tcp_headlen_words. fold hl. rewrite u32_small; lia. }
  assert (Hs : rd 4 (mem y3) (iphead y3 + 12) = Some src).
  { rewrite Hm3, Hi3. apply (rd_app 4 p1 ip _ _ 12); [lia|rewrite Hip; lia|done]. }
  exists y3. split.
  - rewrite (proto_input_ok sys (put_buf b y3 wk) _ b y3 (g_sport g) (g_dport g) src dest so s); [by rewrite Hs3| |done| | |done|done|done|by rewrite Hs3].
    + apply put_buf_get.
    + rewrite Hm3, Hi3. apply (rd_app 4 p1 ip _ _ 16); [lia|rewrite Hip; lia|done].
    + by rewrite (find_socket_same _ _ _ _ _ _ w).
  - split; [|done]. split_and!; [| | |done].
    + rewrite Hm3. rewrite app_assoc. apply read_tcphead_ok; [|done]. rewrite <- Ho. done.
    + rewrite Ha3, Hm3. cbn [off wsize]. rewrite !app_assoc, <- app_assoc. apply payload_at.
      rewrite !length_app, Hip. change (length (tcphead_host g hl cs)) with 20%nat.
      pose proof (options_length (g_flags g)). pose proof (tcp_headlen_words (g_flags g)). fold hl in H1. lia.
    + by rewrite Ha3.
Qed.

(** A frame with a segment for a socket of this host. *)
Lemma segment_received w b y nd n pre post d s id src dest g cs so :
  let body := seg_bytes g cs in
  let k := Z.of_nat (length body) in
  bufs w !! b = Some y → pnodes w !! b = Some nd → netifs w !! netif y = Some n →
  mem y = pre ++ (ethhead d s 0x0800 ++
    ip4head (20 + k) id IPPROTO_TCP 0 (ip4head_sum (20 + k) id IPPROTO_TCP 0 src dest) src dest ++ body) ++ post →
  buf y = {| off := Z.of_nat (length pre); wsize := 34 + k |} →
  length d = 6%nat → length s = 6%nat → Z.of_nat (length (g_payload g)) ≤ 65000 → seg_ok g →
  0 ≤ src < 4294967296 → 0 ≤ dest < 4294967296 →
  tcp_receiver w n src dest (g_sport g) (g_dport g) so →
  ∃ y', vsfip_eth_input sys b w = vsfip_tcp_socket_input sys so b (put_buf b y' (keyed b (g_seq g) nd w)) ∧
        seg_arrives y' src g ∧ ref y' = ref y.
Proof.
  intros body k Hb Hnd Hn Hm Hbuf Hd Hs Hlen Hg Hsrc Hdest [Hus Hf Hso Hsock].
  assert (Hk : k = seg_size g) by (unfold k, body, seg_size; by rewrite !seg_bytes_length).
  pose proof (head_words_range (g_flags g)).
  assert (Hk2 : k ≤ 65024) by (unfold k, body; rewrite seg_bytes_length, tcp_headlen_words; lia).
  rewrite (frame_received sys w b y n pre post d s id IPPROTO_TCP src dest body); try done; try (fold k; lia).
  fold k. set (y2 := set_buf _ _). set (ip := ip4head_host _ _ _ _ _ _ _) in y2.
  unfold ip4_deliver. change (u8 IPPROTO_TCP =? IPPROTO_UDP) with false. change (u8 IPPROTO_TCP =? IPPROTO_TCP) with true.
  cbn match.
  destruct (tcp_received (put_buf b y2 w) b y2 nd (pre ++ ethhead d s 2048) ip post src dest g cs so)
    as (y' & -> & Hd'); try done.
  - apply put_buf_get.
  - unfold y2, body. cbn [set_buf set_iphead set_mem mem]. by rewrite <- !app_assoc.
  - exact (le_value_4 src Hsrc).
  - exact (le_value_4 dest Hdest).
  - by rewrite (find_socket_same _ _ _ _ _ _ w).
  - exists y'. split; [|done]. f_equal. unfold keyed.
    apply net_ext; try done. net_fields. by rewrite insert_insert_eq.
Qed.
End receiving.

(** ** From host to host *)

(** C11: A segment that a connection sends is what the other end reads.
    [vsfip_tcp_send_do] succeeds, moves the next sequence number behind the
    payload and leaves one Ethernet frame with the interface; the checksum in it
    makes the segment and the pseudo header of the two addresses add up to all
    ones; and a host that gets these bytes, in a buffer of its own and at any
    offset, gives its socket a packet in which the routine that reads the head finds
    the ports, the sequence number, the acknowledgement, the flags and the window
    of the connection, and the payload behind the head and its options. *)
Theorem segment_delivered {E1 E2} (sys1 : system E1) (sys2 : system E2) `{!Quiet sys1}
    w so b s p x n mac q nd len pre room payload post flags :
  sender w so b s x n mac q → tcp_sender w so b s p n nd len →
  mem x = pre ++ room ++ payload ++ post → Z.of_nat (length room) = 34 + tcp_headlen flags → 0 ≤ flags < 256 →
  tcp_headlen flags + Z.of_nat (length payload) ≤ Z.min 65000 (mtu n - 20) → bytes payload →
  app x = {| off := Z.of_nat (length pre) + 34 + tcp_headlen flags; wsize := Z.of_nat (length payload) |} →
  0 ≤ s_addr (ipaddr n) < 4294967296 →
  let g := seg_of s p flags (u16 (rx_window p - len)) payload in
  let peer := sin_addr (remote_sockaddr s) in
  ∃ w' x' n' front segm,
    vsfip_tcp_send_do sys1 so b flags w = Some (VSFERR_NONE, w') ∧
    pcbs w' !! protopcb s = Some (sent_pcb flags (Z.of_nat (length payload)) p) ∧
    bufs w' !! b = Some x' ∧ rd_bytes (mem x') (off (buf x')) (wsize (buf x')) = Some (front ++ segm) ∧
    netifs w' !! netif x = Some n' ∧ queue_rep (nnodes w') (noutq n') (q ++ [b]) ∧
    vsfip_proto_checksum (ipaddr n) peer IPPROTO_TCP (Z.of_nat (length segm)) segm = Some 0xFFFF ∧
    ∀ (w2 : net E2) b2 y nd2 n2 so2 pre2 post2,
      bufs w2 !! b2 = Some y → pnodes w2 !! b2 = Some nd2 → netifs w2 !! netif y = Some n2 →
      mem y = pre2 ++ (front ++ segm) ++ post2 →
      buf y = {| off := Z.of_nat (length pre2); wsize := Z.of_nat (length (front ++ segm)) |} →
      tcp_receiver w2 n2 (s_addr (ipaddr n)) (s_addr peer) (g_sport g) (g_dport g) so2 →
      ∃ y', vsfip_eth_input sys2 b2 w2 =
              vsfip_tcp_socket_input sys2 so2 b2 (put_buf b2 y' (keyed b2 (g_seq g) nd2 w2)) ∧
            seg_arrives y' (s_addr (ipaddr n)) g.
Proof.
  intros Hsnd Hts Hm Hroom Hf Hl Hby Ha Hsrc g peer.
  pose proof (tcp_headlen_words flags). pose proof (head_words_range flags).
  destruct (split3 room 14 20 (length room - 34)) as (r1 & r2 & r3 & -> & H1 & H2 & H3); [lia|].
  destruct (send_do_ok sys1 w so b s p x n mac q nd len pre r1 r2 r3 payload post flags)
    as (e & h & q' & Hsend & Hq & Hk & _); try done.
  { by rewrite Hm, <- !app_assoc. }
  { lia. }
  pose proof Hsnd as []. pose proof snd_reach as []. pose proof Hts as [].
  fold g in Hsend. set (frame := tcp_frame _ _ _ _ _) in Hsend.
  set (segm := seg_bytes g (tcp_sum (ipaddr n) peer g)).
  assert (Hg : seg_ok g) by (eapply seg_of_ok; try done; apply u16_range).
  assert (Hlg : Z.of_nat (length (g_payload g)) ≤ 65000) by (cbn [g seg_of g_payload]; lia).
  assert (Hseg : Z.of_nat (length segm) = seg_size g) by (unfold seg_size, segm; by rewrite !seg_bytes_length).
  eexists _, _, _, (take 34 frame), segm.
  assert (Hfr : frame = take 34 frame ++ segm).
  { unfold frame, tcp_frame, framed. fold peer segm. rewrite app_assoc.
    by rewrite take_app_length' by (rewrite length_app, ethhead_length, ip4head_length by (by apply mac6_length); done). }
  rewrite <- Hfr. split; [exact Hsend|]. split; [apply lookup_insert_eq|]. split; [apply lookup_insert_eq|].
  split; [by apply payload_at|]. split; [apply lookup_insert_eq|]. split; [done|].
  split; [rewrite Hseg; by apply segment_adds_up|].
  intros w2 b2 y nd2 n2 so2 pre2 post2 Hy Hnd2 Hn2 Hmy Hby2 Hrcv.
  destruct (segment_received sys2 w2 b2 y nd2 n2 pre2 post2 (mac6 mac) (mac6 (macaddr n)) (ip_id (vsfip w))
    (s_addr (ipaddr n)) (s_addr peer) g (tcp_sum (ipaddr n) peer g) so2) as (y' & Hi & Hy' & _);
    try done; try (by apply mac6_length); [| |by exists y'].
  - rewrite Hmy. unfold frame, tcp_frame, framed. by rewrite ts_proto0.
  - rewrite Hby2. unfold frame, tcp_frame. by rewrite framed_length.
Qed.

(** Three bytes from port 5000 to port 80. *)
Definition lab_conn_a : vsfip_socket_t :=
  lab_tcp_socket 5000 44 {| sin_port := 80; sin_addr := lab_ip 192 168 1 2 |}.
Definition lab_conn_b : vsfip_socket_t :=
  lab_tcp_socket 80 44 {| sin_port := 5000; sin_addr := lab_ip 192 168 1 1 |}.
Definition lab_tcp_a (room : nat) (payload : list Z) : net lab_env :=
  lab_world 1 2 (lab_ipdata NULL 500) lab_conn_a [(700, lab_pcb 1000 7000)] (lab_packet room payload).
Definition lab_tcp_b (frame : list Z) : net lab_env :=
  lab_world 2 1 (lab_ipdata NULL 500) lab_conn_b [(700, lab_pcb 7000 1000)] (lab_frame frame).

Lemma lab_addr_ok a b c d : bytes [a; b; c; d] → addr_ok (lab_ip a b c d).
Proof.
  intros Hb. split; [|cbn; lia]. apply Forall_app_2; [done|]. apply Forall_replicate. lia.
Qed.

Lemma lab_sender_a room payload :
  sender (lab_tcp_a room payload) 500 600 lab_conn_a (lab_packet room payload) (lab_netif 1 2) (lab_mac 2) [].
Proof.
  split; try done; [|by set_solver].
  split; [by vm_compute| |cbn; lia|cbn; lia|done]. eexists. by split.
Qed.

Lemma lab_tcp_sender_a room payload :
  tcp_sender (lab_tcp_a room payload) 500 600 lab_conn_a (lab_pcb 1000 7000) (lab_netif 1 2)
    {| addr := 0; next := NULL |} 0.
Proof.
  split; try done; apply lab_addr_ok; repeat constructor; cbn; lia.
Qed.

Lemma segment_delivered_witness :
  ∃ w' front segm,
    vsfip_tcp_send_do lab 500 600 VSFIP_TCPFLAG_PSH (lab_tcp_a 80 [1; 2; 3]) = Some (VSFERR_NONE, w') ∧
    vsfip_proto_checksum (lab_ip 192 168 1 1) (lab_ip 192 168 1 2) IPPROTO_TCP (Z.of_nat (length segm)) segm = Some 0xFFFF ∧
    ∃ y' g, vsfip_eth_input lab 600 (lab_tcp_b (front ++ segm)) =
              vsfip_tcp_socket_input lab 500 600 (put_buf 600 y'
                (keyed 600 1000 {| addr := 0; next := NULL |} (lab_tcp_b (front ++ segm)))) ∧
            seg_arrives y' (s_addr (lab_ip 192 168 1 1)) g ∧ g_payload g = [1; 2; 3].
Proof.
  destruct (segment_delivered lab lab (lab_tcp_a 80 [1; 2; 3]) 500 600 _ _ _ _ _ _ _ _ (replicate 26 0) (replicate 54 0)
    [1; 2; 3] [] VSFIP_TCPFLAG_PSH (lab_sender_a _ _) (lab_tcp_sender_a _ _))
    as (w' & x' & n' & front & segm & Hsend & _ & _ & _ & _ & _ & Hsum & Hin);
    [done|done|done|by vm_compute|repeat constructor; cbn; lia|done|done|].
  exists w', front, segm. split; [exact Hsend|]. split; [exact Hsum|]. clear Hsend Hsum.
  set (g := seg_of lab_conn_a _ _ _ _) in Hin. set (w2 := lab_tcp_b (front ++ segm)).
  destruct (Hin w2 600 (lab_frame (front ++ segm)) {| addr := 0; next := NULL |} (lab_netif 2 1) 500 [] [])
    as (y' & He & Hy'); [done|done|done|by rewrite app_nil_r|done| |exists y', g; done].
  split; [by vm_compute|by vm_compute|done|]. exists lab_conn_b. split_and!; vm_compute; reflexivity.
Defined.
