(* ===== verification/Tcprecv.v ===== *)
(** * Tcprecv: the receiving side of a TCP connection

    A connection whose own data is acknowledged takes segments from the network
    in any order.  What it does is given as a receiver on three values, the state,
    the next sequence number and the bytes that the application has; the input
    routine implements it on every segment, without a fault and without losing a
    packet, and over any history the application gets a prefix of what the other
    end sent. *)

From S2P Require Import Prelude Chain Vsfq Bits Endian Ipdata Netif Ipsock Tcp Vsfip Packet Iplab Ipwire Tcpseg.

(** ** The host

    What is asked of the memory and of the application: a buffer that is given out
    is not in use, and the consumer takes the payload and releases the packet.
    [live e X] says that the buffers [X] are out, [taken e] is what the application
    has so far. *)
Class Host {E} (sys : system E) `{!Quiet sys} := {
  live : E → gset Z → Prop;
  taken : E → list Z;
  host_step e e' X : quiet_step e e' → live e X → live e' X ∧ taken e' = taken e;
  host_get size e X b m e' :
    live e X → get_buffer sys size e = (b, m, e') →
    taken e' = taken e ∧
    (b = NULL ∧ live e' X ∨ b ≠ NULL ∧ b ∉ X ∧ length m = Z.to_nat size ∧ live e' ({[b]} ∪ X));
  host_release b e X :
    live e X → b ∈ X → live (release_buffer sys b e) (X ∖ {[b]}) ∧ taken (release_buffer sys b e) = taken e;
  host_input f param b w x bs :
    f ≠ NULL → bufs w !! b = Some x → rd_bytes (mem x) (off (app x)) (wsize (app x)) = Some bs →
    live (env w) (dom (bufs w)) →
    ∃ e, call_on_input sys f param b w = Some (set_env e (set_bufs (delete b (bufs w)) w)) ∧
         taken e = taken (env w) ++ bs ∧ live e (dom (bufs w) ∖ {[b]}) }.

(** ** The receiver

    What a connection that has been opened does with a segment. *)
Record rxstate := { rs_state : tcp_stat; rs_next : Z; rs_data : list Z }.

Definition rx_data (r : rxstate) (g : segment) : rxstate :=
  if (0 <? Z.of_nat (length (g_payload g))) && (rs_next r =? g_seq g)
  then {| rs_state := rs_state r; rs_next := u32 (rs_next r + Z.of_nat (length (g_payload g)));
          rs_data := rs_data r ++ g_payload g |}
  else r.
Definition rx_fin (r : rxstate) (g : segment) : rxstate :=
  if has (g_flags g) VSFIP_TCPFLAG_FIN
  then {| rs_state := CLOSEWAIT; rs_next := u32 (g_seq g + 1); rs_data := rs_data r |} else r.
Definition rx (r : rxstate) (g : segment) : rxstate :=
  if has (g_flags g) VSFIP_TCPFLAG_RST
  then {| rs_state := CLOSED; rs_next := rs_next r; rs_data := rs_data r |}
  else match rs_state r with
       | ESTABLISHED => rx_fin (rx_data r g) g
       | CLOSEWAIT => rx_fin r g
       | _ => r
       end.

(** The control block of a connection that this side has not closed. *)
Definition rx_of (p : vsfip_tcppcb_t) (bs : list Z) : rxstate :=
  {| rs_state := state p; rs_next := rseq p; rs_data := bs |}.
Definition opened (p : vsfip_tcppcb_t) : Prop :=
  state p = CLOSED ∨ (state p = ESTABLISHED ∨ state p = CLOSEWAIT) ∧ lclose p = false.

Lemma rx_opened p bs g :
  opened p → has (g_flags g) VSFIP_TCPFLAG_RST = false →
  let st := rs_state (rx (rx_of p bs) g) in st = CLOSED ∨ (st = ESTABLISHED ∨ st = CLOSEWAIT) ∧ lclose p = false.
Proof.
  intros Hop Hr. unfold rx, rx_fin, rx_data. rewrite Hr. cbn [rx_of rs_state rs_next].
  destruct Hop as [Hst|[[Hst|Hst] Hl]]; rewrite Hst; [by left| |]; right; (split; [|done]);
    repeat (case_match; simplify_eq/=; eauto).
Qed.

(** ** The connection

    [s0], [n0] and [g0] are the socket, the interface and the stack up to what
    sending changes, [others] the sockets of the host. *)
Record endpoint (so nt : Z) (s0 : vsfip_socket_t) (n0 : vsfip_netif_t) (g0 : vsfip_t) (mac : vsfip_addr_t) : Prop := {
  ep_so : so ≠ NULL; ep_nt : nt ≠ NULL;
  ep_family : family s0 = AF_INET; ep_proto : protocol s0 = IPPROTO_TCP; ep_xfed : xfed_len s0 = 0;
  ep_backlog : backlog s0 = 0; ep_input : user_on_input s0 ≠ NULL;
  ep_can_rx : can_rx s0 = true; ep_proto_input : proto_on_input s0 = TCP_INPUT_FN;
  ep_inq : head (inq s0) = NULL; ep_outq : head (outq s0) = NULL;
  ep_lport : 0 ≤ sin_port (local_sockaddr s0) < 65536; ep_rport : 0 ≤ sin_port (remote_sockaddr s0) < 65536;
  ep_ip : addr_ok (ipaddr n0); ep_peer : addr_ok (sin_addr (remote_sockaddr s0));
  ep_reach : reaches n0 (s_addr (sin_addr (remote_sockaddr s0))) mac; ep_mtu : 64 ≤ mtu n0;
  ep_default : netif_default g0 = nt; ep_sniffer : output_sniffer g0 = NULL }.

(** The values that the input of a segment is about. *)
Record same_conn (p p' : vsfip_tcppcb_t) : Prop := {
  sc_state : state p' = state p; sc_lseq : lseq p' = lseq p; sc_acked : acked_lseq p' = acked_lseq p;
  sc_rseq : rseq p' = rseq p; sc_rclose : rclose p' = rclose p; sc_lclose : lclose p' = lclose p }.

#[export] Instance same_conn_preorder : PreOrder same_conn.
Proof. split; [done|]. intros x y z [] []. split; congruence. Qed.

(** ** Looking for the socket *)

(** Two sockets that the search does not tell apart. *)
Definition like (s s' : vsfip_socket_t) : Prop :=
  local_sockaddr s' = local_sockaddr s ∧ remote_sockaddr s' = remote_sockaddr s ∧ backlog s' = backlog s ∧
  child s' = child s ∧ snext s' = snext s.

Section search.
Context {E : Type} (w w' : net E).
Context (Hlike : ∀ a, option_Forall2 like (socks w !! a) (socks w' !! a)).

Lemma find_child_like f so c src port : find_child f so c src port w' = find_child f so c src port w.
Proof using Hlike.
  revert c. induction f as [|f IH]; intros c; cbn [find_child]; [done|]. destruct (c =? NULL); [done|].
  destruct (Hlike c) as [s s' (_ & Hr & _ & _ & Hn)|]; [|done]. bindr. by rewrite Hr, Hn, IH.
Qed.

Lemma find_socket_like f so src dest sport dport :
  size (socks w') = size (socks w) →
  find_socket f so src dest sport dport w' = find_socket f so src dest sport dport w.
Proof using Hlike.
  intros Hsize. revert so. induction f as [|f IH]; intros so; cbn [find_socket]; [done|]. destruct (so =? NULL); [done|].
  destruct (Hlike so) as [s s' (Hl & Hr & Hb & Hc & Hn)|]; [|done]. bindr.
  unfold fuel_of. by rewrite Hl, Hr, Hb, Hc, Hn, Hsize, !IH, find_child_like.
Qed.
End search.

Section connection.
Context {E : Type} (sys : system E) `{!Quiet sys} `{!Host sys}.
Context (so nt : Z) (s0 : vsfip_socket_t) (n0 : vsfip_netif_t) (g0 : vsfip_t) (mac : vsfip_addr_t).
Context (others : gmap Z vsfip_socket_t).
Context (Hep : endpoint so nt s0 n0 g0 mac).
Implicit Types w : net E.

Record conn w (p : vsfip_tcppcb_t) (out : list Z) : Prop := {
  cn_sock : ∃ i b, socks w = <[so := set_ippcb_id i (set_ippcb_buf b s0)]> others;
  cn_pcb : pcbs w !! protopcb s0 = Some p;
  cn_netif : ∃ q, netifs w !! nt = Some (set_noutq q n0) ∧ queue_rep (nnodes w) q out;
  cn_out : ∀ b, b ∈ out → ∃ x, bufs w !! b = Some x ∧ ref x = 1;
  cn_ip : ∃ i, vsfip w = set_ip_id i g0;
  cn_lseq : 0 ≤ lseq p < 4294967296; cn_rseq : 0 ≤ rseq p < 4294967296;
  cn_live : live (env w) (dom (bufs w)) }.

(** What one action of the connection leaves alone: the bytes taken, the packets
    that were there, and their queue nodes. *)
Record keeps w w' : Prop := {
  kp_taken : taken (env w') = taken (env w);
  kp_bufs : ∀ b, b ∈ dom (bufs w) → bufs w' !! b = bufs w !! b }.

#[local] Instance keeps_preorder : PreOrder keeps.
Proof.
  split; [done|]. intros x y z [H1 H2] [H3 H4]. split; [congruence|].
  intros b Hb. rewrite H4, H2; [done|done|]. rewrite elem_of_dom, H2, <- elem_of_dom; done.
Qed.

(** An action of the connection: what it sends is behind what was queued, and it
    holds no packet that is not queued. *)
Record acts w out w' out' : Prop := {
  ac_keeps : keeps w w';
  ac_out : ∃ l, out' = out ++ l ∧ ∀ a, a ∈ l → a ∉ dom (bufs w);
  ac_used : ∀ a, a ∈ dom (bufs w') → a ∈ dom (bufs w) ∨ a ∈ out' }.

Lemma acts_same w w' out : keeps w w' → dom (bufs w') = dom (bufs w) → acts w out w' out.
Proof.
  intros Hk Hd. split; [done| |intros a; rewrite Hd; by left].
  exists []. split; [by rewrite app_nil_r|]. intros a Ha. set_solver.
Qed.

Lemma acts_refl w out : acts w out w out.
Proof. by apply acts_same. Qed.

Lemma keeps_dom w w' a : keeps w w' → a ∈ dom (bufs w) → a ∈ dom (bufs w').
Proof. intros [_ Hb] Ha. by rewrite elem_of_dom, Hb, <- elem_of_dom. Qed.

Lemma acts_trans w1 out1 w2 out2 w3 out3 : acts w1 out1 w2 out2 → acts w2 out2 w3 out3 → acts w1 out1 w3 out3.
Proof.
  intros [Hk1 (l1 & -> & Hl1) Hu1] [Hk2 (l2 & -> & Hl2) Hu2]. split; [by etrans| |].
  - exists (l1 ++ l2). split; [by rewrite <- app_assoc|]. intros a [Ha|Ha]%elem_of_app; [by apply Hl1|].
    intros Hin. by apply (Hl2 a Ha), (keeps_dom w1 w2).
  - intros a [[Ha|Ha]%Hu1|Ha]%Hu2; [by left|right; set_solver|by right].
Qed.

Lemma conn_sock w p out : conn w p out → ∃ s, socks w !! so = Some s ∧ ∃ i b, s = set_ippcb_id i (set_ippcb_buf b s0).
Proof. intros [(i & b & ->) _ _ _ _ _ _ _]. eexists. split; [apply lookup_insert_eq|]. by eexists _, _. Qed.

Lemma conn_pcb_of w p out :
  conn w p out → ∃ i b, pcb_of so w = Some (set_ippcb_id i (set_ippcb_buf b s0), p).
Proof.
  intros Hc. destruct (conn_sock w p out Hc) as (s & Hs & i & b & ->). exists i, b.
  apply pcb_of_ok; [done|]. by destruct Hc.
Qed.

(** Changing the control block. *)
Lemma conn_upd w p out f :
  conn w p out → 0 ≤ lseq (f p) < 4294967296 → 0 ≤ rseq (f p) < 4294967296 →
  upd_pcb_of so f w = Some (put_pcb (protopcb s0) (f p) w) ∧ conn (put_pcb (protopcb s0) (f p) w) (f p) out ∧
  acts w out (put_pcb (protopcb s0) (f p) w) out.
Proof.
  intros Hc Hl Hr. destruct (conn_sock w p out Hc) as (s & Hs & i & b & ->). pose proof Hc as [].
  split; [exact (upd_pcb_of_ok w so _ p f Hs cn_pcb0)|]. split; [|by apply acts_same].
  split; try done. apply put_pcb_get.
Qed.

(** An event for a machine that waits. *)
Lemma post_ok w p out evt (which : bool) :
  conn w p out →
  ∃ w' p', (if which then post_tx sys so evt w else post_rx sys so evt w) = Some w' ∧ conn w' p' out ∧
           same_conn p p' ∧ acts w out w' out.
Proof.
  intros Hc. destruct (conn_pcb_of w p out Hc) as (i & b & Hpc). pose proof Hc as [].
  set (f := if which then set_tx_sm NULL else set_rx_sm NULL).
  assert (He : (if which then post_tx sys so evt w else post_rx sys so evt w) =
    vsfip_tcp_postevt sys (if which then tx_sm p else rx_sm p) (upd_pcb (protopcb s0) f) evt w).
  { unfold f, post_tx, post_rx. rewrite Hpc. bindr. by destruct which. }
  rewrite He. unfold vsfip_tcp_postevt. destruct (_ =? NULL); [exists w, p; split_and!; [done|done|done|apply acts_refl]|].
  rewrite (upd_pcb_ok _ _ p) by done. bindr. set (w1 := put_pcb _ _ w).
  destruct (quiet_post_evt (if which then tx_sm p else rx_sm p) evt w1) as (e & -> & Hst).
  destruct (host_step _ _ _ Hst cn_live0) as [Hlive Htk].
  exists (set_env e w1), (f p). split; [done|].
  assert (Hsame : same_conn p (f p)) by (unfold f; by destruct which).
  split; [|split; [done|by apply acts_same]].
  pose proof Hsame as [? ? ? ? ? ?]. split; try done; [apply put_pcb_get|congruence|congruence].
Qed.

(** ** Sending flags *)

Lemma queue_rep_fresh h q l a nd : a ∉ l → queue_rep h q l → queue_rep (<[a := nd]> h) q l.
Proof. intros Ha [Hc Ht]. split; [|done]. by apply lseg_insert_notin. Qed.

(** A new packet: there is no memory, or it is one that was not in use. *)
Lemma appbuffer_ok w p out :
  conn w p out →
  ∃ b w', vsfip_appbuffer_get sys (VSFIP_PROTO_HEADLEN + VSFIP_TCP_HEADLEN) 0 w = Some (b, w') ∧
    conn w' p out ∧ keeps w w' ∧ dom (bufs w') ⊆ {[b]} ∪ dom (bufs w) ∧
    (b = NULL ∧ w' = set_env (env w') w ∨ b ≠ NULL ∧ b ∉ dom (bufs w) ∧ b ∉ out ∧ is_Some (nnodes w' !! b) ∧ is_Some (pnodes w' !! b) ∧
       ∃ x, bufs w' !! b = Some x ∧ ref x = 1 ∧ length (mem x) = 104%nat ∧ app x = {| off := 104; wsize := 0 |}).
Proof.
  intros Hc. pose proof Hc as []. unfold vsfip_appbuffer_get, vsfip_buffer_get.
  destruct (get_buffer sys (VSFIP_PROTO_HEADLEN + VSFIP_TCP_HEADLEN + 0) (env w)) as [[b m] e] eqn:Hg.
  destruct (host_get _ _ _ _ _ _ cn_live0 Hg) as [Htk [[-> Hlive]|(Hb & Hfr & Hm & Hlive)]].
  - exists NULL, (set_env e w). split; [done|]. split; [by split|]. split; [by split|]. split; [cbn; set_solver|by left].
  - destruct (Z.eqb_spec b NULL); [done|]. rewrite (upd_buf_ok b _ _ _ (lookup_insert_eq _ _ _)). bindr.
    eexists b, _. split; [by destruct (Z.eqb_spec b NULL)|].
    assert (Hout : b ∉ out).
    { intros Hin. destruct (cn_out0 b Hin) as (x & Hx & _). apply Hfr. by apply elem_of_dom_2 in Hx. }
    split; [|split; [|split]].
    + split; try done.
      * destruct cn_netif0 as (q & Hn & Hq). exists q. split; [done|]. by apply queue_rep_fresh.
      * intros a Ha. cbn. rewrite insert_insert_eq, lookup_insert_ne by (intros ->; done). by apply cn_out0.
      * cbn. rewrite !dom_insert_L. by replace ({[b]} ∪ ({[b]} ∪ dom (bufs w))) with ({[b]} ∪ dom (bufs w)) by set_solver.
    + split; [done|]. intros a Ha. cbn. by rewrite insert_insert_eq, lookup_insert_ne by (intros ->; done).
    + cbn. rewrite !dom_insert_L. set_solver.
    + right. split_and!; [done|done|done|eexists; apply lookup_insert_eq|eexists; apply lookup_insert_eq|].
      eexists. split; [apply lookup_insert_eq|]. split; [done|]. split; [|done]. cbn. rewrite Hm. done.
Qed.

(** What the segment leaves of the control block. *)
Lemma sent_same p flags : 0 ≤ lseq p < 4294967296 → same_conn p (sent_pcb flags 0 p).
Proof.
  intros Hl. unfold sent_pcb. split; try (by destruct (_ || _)).
  cbn [set_lseq lseq]. destruct (_ || _); cbn; rewrite Z.add_0_r; by apply u32_small.
Qed.

Lemma empty_len q w : head q = NULL → vsfip_bufferlist_len q w = Some 0.
Proof. intros Hq. unfold vsfip_bufferlist_len. by rewrite Hq. Qed.

(** A packet of this connection with nothing in it is sent. *)
Lemma send_empty_ok w p out b x nd flags :
  conn w p out → b ≠ NULL → b ∉ out → is_Some (nnodes w !! b) → pnodes w !! b = Some nd → bufs w !! b = Some x →
  netif x = nt → ref x = 1 → length (mem x) = 104%nat → app x = {| off := 104; wsize := 0 |} → 0 ≤ flags < 256 →
  ∃ w', vsfip_tcp_send_do sys so b flags w = Some (VSFERR_NONE, w') ∧
        conn w' (sent_pcb flags 0 p) (out ++ [b]) ∧ taken (env w') = taken (env w) ∧
        dom (bufs w') = dom (bufs w) ∧ ∀ a, a ≠ b → bufs w' !! a = bufs w !! a.
Proof.
  intros Hc Hb Hfr Hnn Hnd Hx Hnt Href Hm Ha Hf. pose proof Hc as []. pose proof Hep as [].
  destruct cn_sock0 as (i & b' & Hsocks). destruct cn_netif0 as (q & Hn & Hq). destruct cn_ip0 as [id Hip].
  set (s := set_ippcb_id i (set_ippcb_buf b' s0)).
  pose proof (tcp_headlen_words flags). pose proof (head_words_range flags).
  set (k := Z.to_nat (70 - tcp_headlen flags)).
  destruct (split3 (mem x) k 34 (Z.to_nat (tcp_headlen flags))) as (pre & r & r3 & Hsplit & Hl1 & Hl2 & Hl3); [lia|].
  destruct (split3 r 14 20 0) as (r1 & r2 & r0 & -> & H1 & H2 & H3); [done|].
  destruct r0; [|done]. rewrite app_nil_r in Hsplit.
  destruct (send_do_ok sys w so b s p x (set_noutq q n0) mac out nd 0 pre r1 r2 r3 [] [] flags)
    as (e & h & q' & Hsend & Hq' & _ & Hst).
  - split; try done; [by rewrite Hsocks; apply lookup_insert_eq|by rewrite Hnt|by rewrite Hip|by destruct ep_reach0].
  - split; try done. by apply empty_len.
  - by rewrite Hsplit, !app_nil_r, <- !app_assoc.
  - done.
  - done.
  - lia.
  - done.
  - cbn [length]. change (mtu (set_noutq q n0)) with (mtu n0). lia.
  - constructor.
  - rewrite Ha. f_equal. unfold k in Hl1. lia.
  - destruct (host_step _ _ _ Hst cn_live0) as [Hlive Htk].
    assert (Hdom : {[b]} ∪ dom (bufs w) = dom (bufs w)) by (apply elem_of_dom_2 in Hx; set_solver).
    eexists. split; [exact Hsend|].
    split; [|split; [exact Htk|split; [cbn; by rewrite dom_insert_L|intros a Hab; cbn; by rewrite lookup_insert_ne]]].
    destruct (sent_same p flags cn_lseq0) as [_ Hsl _ Hsr _ _].
    split; cbn.
    + exists (ip_id (vsfip w)), b. rewrite Hsocks, insert_insert_eq. done.
    + apply lookup_insert_eq.
    + exists q'. rewrite Hnt. split; [apply lookup_insert_eq|done].
    + intros a [Ha'| ->%list_elem_of_singleton]%elem_of_app; [|eexists; split; [apply lookup_insert_eq|done]].
      rewrite lookup_insert_ne by (intros ->; done). by apply cn_out0.
    + rewrite Hip. eexists. done.
    + change (0 ≤ lseq (sent_pcb flags 0 p) < 4294967296). by rewrite Hsl.
    + change (0 ≤ rseq (sent_pcb flags 0 p) < 4294967296). by rewrite Hsr.
    + by rewrite dom_insert_L, Hdom.
Qed.

Lemma send_flags_ok w p out flags :
  conn w p out → 0 ≤ flags < 256 →
  ∃ w' p' out', send_flags sys so flags w = Some w' ∧ conn w' p' out' ∧ same_conn p p' ∧ acts w out w' out'.
Proof.
  intros Hc Hf. unfold send_flags, vsfip_tcp_sendflags.
  destruct (conn_sock w p out Hc) as (s & Hs & i & bi & Hsi). rewrite Hs. bindr.
  assert (Hto : ∃ w1 p1, (if has flags (Z.lor VSFIP_TCPFLAG_SYN VSFIP_TCPFLAG_FIN)
      then upd_pcb_of so (set_tx_timeout (tx_timeout_ms s)) w else Some w) = Some w1 ∧
      conn w1 p1 out ∧ same_conn p p1 ∧ acts w out w1 out).
  { destruct (has _ _); [|by exists w, p; split_and!; [..|apply acts_refl]].
    destruct (conn_upd w p out (set_tx_timeout (tx_timeout_ms s)) Hc) as (He & Hc' & Hk); [by destruct Hc..|].
    eexists _, _. split; [exact He|]. split; [exact Hc'|]. split; [by split|exact Hk]. }
  destruct Hto as (w1 & p1 & -> & Hc1 & Hp1 & Hk1). bindr.
  destruct (appbuffer_ok w1 p1 out Hc1) as (b & w2 & -> & Hc2 & Hk2 & Hd2 & [[-> Hw2]|(Hb & Hnb & Hfr & Hnn & [nd Hnd] & x & Hx & Href & Hm & Ha)]).
  { bindr. exists w2, p1, out. split; [done|]. split; [done|]. split; [done|].
    eapply acts_trans; [exact Hk1|]. apply acts_same; [done|]. by rewrite Hw2. }
  bindr. destruct (Z.eqb_spec b NULL); [done|].
  pose proof Hc2 as [_ _ _ _ [id Hip] _ _ _]. pose proof Hep as [].
  unfold vsfip_ip_route. rewrite Hip. change (netif_default (set_ip_id id g0)) with (netif_default g0).
  rewrite ep_default0, (upd_buf_ok b _ x) by done. bindr.
  destruct (Z.eqb_spec nt NULL); [done|]. set (w3 := put_buf b (set_netif nt x) w2).
  assert (Hc3 : conn w3 p1 out).
  { destruct Hc2. split; try done.
    - intros a Hin. unfold w3. cbn. rewrite lookup_insert_ne by (intros ->; done). by apply cn_out0.
    - unfold w3. cbn. rewrite dom_insert_L. apply elem_of_dom_2 in Hx.
      by replace ({[b]} ∪ dom (bufs w2)) with (dom (bufs w2)) by set_solver. }
  destruct (send_empty_ok w3 p1 out b (set_netif nt x) nd flags)
    as (w4 & -> & Hc4 & Htk & Hd4 & Hbufs); try done; [apply put_buf_get|].
  bindr. eexists _, _, _. split; [done|]. split; [exact Hc4|]. split.
  - etrans; [exact Hp1|]. apply sent_same. by destruct Hc1.
  - eapply acts_trans; [exact Hk1|]. destruct Hk2 as [Ht2 Hb2]. split.
    + split; [rewrite Htk; unfold w3; cbn; congruence|]. intros a Hin. assert (a ≠ b) by (intros ->; done).
      rewrite Hbufs by done. unfold w3. cbn. rewrite lookup_insert_ne by done. by rewrite Hb2.
    + exists [b]. split; [done|]. by intros a ->%list_elem_of_singleton.
    + intros a Hin. rewrite Hd4 in Hin. unfold w3 in Hin. cbn in Hin. rewrite dom_insert_L in Hin.
      destruct (decide (a = b)) as [->|]; [right; set_solver|left; set_solver].
Qed.

(** ** The input of a segment *)

Lemma state_of_ok w p out : conn w p out → state_of so w = Some (state p).
Proof. intros Hc. unfold state_of. by destruct (conn_pcb_of w p out Hc) as (i & b & ->). Qed.

(** The acknowledgement, when nothing waits to be acknowledged. *)
Lemma ack_outq_ok w p out : conn w p out → ack_outq sys (fuel_of (pnodes w)) so w = Some w.
Proof.
  intros Hc. unfold fuel_of. cbn [ack_outq]. destruct (conn_pcb_of w p out Hc) as (i & b & ->). bindr.
  change (outq (set_ippcb_id i (set_ippcb_buf b s0))) with (outq s0). destruct Hep. by rewrite ep_outq0.
Qed.

Definition leave (rel : bool) : tcp_next := if rel then Release else Leave.

Lemma finish_rel_eq rel w : finish_rel rel w = Some (leave rel, w).
Proof. done. Qed.

(** What an input routine does to the connection. *)
Definition moves w p out w' p' out' : Prop := conn w' p' out' ∧ acts w out w' out' ∧ lclose p' = lclose p.

Lemma remote_close_ok w p out h rel :
  conn w p out → lclose p = false →
  ∃ w' p' out', tcp_remote_close sys so h rel w = Some (leave rel, w') ∧ moves w p out w' p' out' ∧
    state p' = CLOSEWAIT ∧ rseq p' = u32 (seqno h + 1).
Proof.
  intros Hc Hlc. unfold tcp_remote_close. set (h' := clear_fin h).
  set (f1 := λ p, set_rseq (u32 (seqno h' + 1)) (set_rclose true p)).
  destruct (conn_upd w p out f1 Hc) as (-> & Hc1 & Ha1); [by destruct Hc|apply u32_range|]. bindr.
  destruct (send_flags_ok _ _ out VSFIP_TCPFLAG_ACK Hc1) as (w2 & p2 & out2 & -> & Hc2 & [? ? ? Hr2 ? Hl2] & Ha2); [done|]. bindr.
  destruct (conn_pcb_of _ _ _ Hc2) as (i & b & ->). bindr.
  assert (Hlp : lclose p2 = false) by (rewrite Hl2; exact Hlc). rewrite Hlp.
  destruct (conn_upd w2 p2 out2 (set_state CLOSEWAIT) Hc2) as (-> & Hc3 & Ha3); [by destruct Hc2..|]. bindr.
  destruct (post_ok _ _ _ VSFIP_EVT_TCP_RXFAIL false Hc3) as (w4 & p4 & -> & Hc4 & [Hst4 ? ? Hr4 ? Hl4] & Ha4). bindr.
  rewrite (state_of_ok _ _ _ Hc4), Hst4. bindr. cbn [set_state state].
  rewrite bool_decide_eq_true_2, bool_decide_eq_false_2 by done. cbn [negb]. bindr.
  exists w4, p4, out2. split; [done|]. split; [split; [done|split]|split].
  - eapply acts_trans; [exact Ha1|]. eapply acts_trans; [exact Ha2|]. by eapply acts_trans.
  - rewrite Hl4. cbn. congruence.
  - done.
  - rewrite Hr4. exact Hr2.
Qed.

Lemma maybe_close_ok w p out h rel g :
  conn w p out → lclose p = false → hflags h = g_flags g → seqno h = g_seq g →
  ∃ w' p' out', tcp_maybe_close sys so h rel w = Some (leave rel, w') ∧ moves w p out w' p' out' ∧
    rx_of p' (taken (env w)) = rx_fin (rx_of p (taken (env w))) g.
Proof.
  intros Hc Hlc Hf Hs. unfold tcp_maybe_close, rx_fin. rewrite Hf. destruct (has _ _).
  - destruct (remote_close_ok w p out h rel Hc Hlc) as (w' & p' & out' & He & Hm & Hst & Hr).
    exists w', p', out'. split; [done|]. split; [done|]. unfold rx_of. cbn [rs_data]. by rewrite Hst, Hr, Hs.
  - exists w, p, out. split; [done|]. split; [|done]. split; [done|]. split; [apply acts_refl|done].
Qed.

Lemma closewait_ok w p out h rel g :
  conn w p out → lclose p = false → hflags h = g_flags g → seqno h = g_seq g →
  ∃ w' p' out', tcp_closewait_input sys so h (state p) rel w = Some (leave rel, w') ∧ moves w p out w' p' out' ∧
    rx_of p' (taken (env w)) = rx_fin (rx_of p (taken (env w))) g.
Proof.
  intros Hc Hlc Hf Hs. unfold tcp_closewait_input. destruct (conn_pcb_of w p out Hc) as (i & b & ->). bindr.
  destruct (_ && _); [|by apply maybe_close_ok].
  set (f1 := λ p, set_acked_lseq (ackseq h) (set_tx_timeout 0 p)).
  destruct (conn_upd w p out f1 Hc) as (-> & Hc1 & Ha1); [by destruct Hc..|]. bindr.
  rewrite (ack_outq_ok _ _ _ Hc1). bindr.
  destruct (post_ok _ _ _ VSFIP_EVT_TCP_TXOK true Hc1) as (w2 & p2 & -> & Hc2 & [Hst2 ? ? Hr2 ? Hl2] & Ha2). bindr.
  rewrite (state_of_ok _ _ _ Hc2), Hst2. bindr. change (state (f1 p)) with (state p).
  rewrite bool_decide_eq_true_2 by done. cbn [negb].
  destruct (maybe_close_ok w2 p2 out h rel g Hc2) as (w' & p' & out' & -> & (Hc' & Ha' & Hl') & Hrx);
    [by rewrite Hl2|done|done|].
  assert (Hpre : acts w out w2 out) by (by eapply acts_trans).
  exists w', p', out'. split; [done|]. split; [split; [done|]; split; [by eapply acts_trans|]|].
  - rewrite Hl', Hl2. done.
  - destruct Hpre as [[Htk _] _ _]. rewrite Htk in Hrx. rewrite Hrx. unfold rx_fin, rx_of.
    destruct (has _ _); [done|]. by rewrite Hst2, Hr2.
Qed.

(** The packet [b] with [data] was taken: its buffer is released, the others are
    untouched, and every other packet in use was so before or is queued. *)
Record served w (out : list Z) b (data : list Z) w' (out' : list Z) : Prop := {
  sv_taken : taken (env w') = taken (env w) ++ data;
  sv_bufs : ∀ a, a ∈ dom (bufs w) → a ≠ b → bufs w' !! a = bufs w !! a;
  sv_out : ∃ l, out' = out ++ l ∧ ∀ a, a ∈ l → a ∉ dom (bufs w) ∖ {[b]};
  sv_used : ∀ a, a ∈ dom (bufs w') → a ∈ dom (bufs w) ∖ {[b]} ∨ a ∈ out' }.

Lemma served_release w out b w1 out1 w2 :
  acts w out w1 out1 → b ∈ dom (bufs w) → taken (env w2) = taken (env w1) → bufs w2 = delete b (bufs w1) →
  served w out b [] w2 out1.
Proof.
  intros [[Ht Hb] (l & -> & Hl) Hu] Hin Ht2 Hb2. split.
  - by rewrite app_nil_r, Ht2.
  - intros a Ha Hab. rewrite Hb2, lookup_delete_ne by done. by apply Hb.
  - exists l. split; [done|]. intros a Ha. pose proof (Hl a Ha). set_solver.
  - intros a. rewrite Hb2, dom_delete_L. intros [Ha Hab]%elem_of_difference. destruct (Hu a Ha); set_solver.
Qed.

Lemma served_consume w out b data w1 w2 out2 :
  taken (env w1) = taken (env w) ++ data → bufs w1 = delete b (bufs w) → acts w1 out w2 out2 →
  served w out b data w2 out2.
Proof.
  intros Ht1 Hb1 [[Ht Hb] (l & -> & Hl) Hu]. rewrite Hb1 in Hb, Hl, Hu.
  assert (Hd : dom (delete b (bufs w)) = dom (bufs w) ∖ {[b]}) by (by rewrite dom_delete_L). rewrite Hd in Hb, Hl, Hu. split.
  - by rewrite Ht, Ht1.
  - intros a Ha Hab. rewrite Hb by set_solver. by rewrite lookup_delete_ne.
  - by exists l.
  - done.
Qed.

Lemma release_ok w p out b y :
  conn w p out → bufs w !! b = Some y → ref y = 1 → b ≠ NULL → b ∉ out →
  ∃ w', vsfip_buffer_release sys b w = Some w' ∧ conn w' p out ∧ taken (env w') = taken (env w) ∧
        bufs w' = delete b (bufs w).
Proof.
  intros [] Hb Hr Hb0 Hout. unfold vsfip_buffer_release. destruct (Z.eqb_spec b NULL); [done|].
  rewrite Hb. bindr. rewrite Hr. change (1 =? 0) with false. change (u16 (1 - 1) =? 0) with true. cbn match.
  destruct (host_release b (env w) (dom (bufs w)) cn_live0) as [Hlive Htk]; [by eapply elem_of_dom_2|].
  eexists. split; [done|]. split; [|done]. split; try done.
  - intros a Ha. cbn. rewrite lookup_delete_ne by (intros ->; done). by apply cn_out0.
  - cbn. by rewrite dom_delete_L.
Qed.

(** The packet in the socket's hands. *)
Record packet w (out : list Z) b y src g : Prop := {
  pk_buf : bufs w !! b = Some y; pk_arrives : seg_arrives y src g; pk_ref : ref y = 1;
  pk_null : b ≠ NULL; pk_out : b ∉ out }.

Definition took (p : vsfip_tcppcb_t) (n : Z) : vsfip_tcppcb_t := set_ack_tick VSFIP_TCP_ATO (set_rseq (u32 (rseq p + n)) p).

Lemma data_input_ok w p out b y src g :
  conn w p out → packet w out b y src g →
  ∃ w', vsfip_tcp_data_input sys so b w = Some w' ∧ conn w' (took p (Z.of_nat (length (g_payload g)))) out ∧
        taken (env w') = taken (env w) ++ g_payload g ∧ bufs w' = delete b (bufs w).
Proof.
  intros Hc [Hb (_ & Hpay & Hsz & _) _ _ Hout]. unfold vsfip_tcp_data_input. rewrite Hb. bindr. rewrite Hsz.
  destruct (conn_upd w p out (λ p, took p (Z.of_nat (length (g_payload g)))) Hc) as (He & Hc1 & _);
    [by destruct Hc|apply u32_range|].
  unfold took in He at 1. rewrite He. bindr. set (w1 := put_pcb _ _ _) in *.
  destruct (conn_sock _ _ _ Hc1) as (s & Hs & i & bi & Hsi). rewrite Hs. bindr.
  assert (Hin : user_on_input s = user_on_input s0) by (by rewrite Hsi). rewrite Hin. destruct Hep.
  destruct (Z.eqb_spec (user_on_input s0) NULL); [done|]. cbn [negb].
  destruct (host_input (user_on_input s0) (user_param s) b w1 y (g_payload g)) as (e & -> & Htk & Hlive);
    [done|done|done|by destruct Hc1|].
  eexists. split; [done|]. split; [|done]. destruct Hc1. split; try done.
  - intros a Ha. cbn. rewrite lookup_delete_ne by (intros ->; done). by apply cn_out0.
  - cbn. by rewrite dom_delete_L.
Qed.

Lemma take_state p n : state (took p n) = state p.
Proof. done. Qed.

(** The result of a round: with the packet left to release, or served. *)
Definition rounded w p out b g nx w' p' out' (r : rxstate) : Prop :=
  conn w' p' out' ∧ lclose p' = lclose p ∧ rx_of p' (taken (env w')) = r ∧
  (nx = Release ∧ acts w out w' out' ∨ nx = Leave ∧ served w out b (g_payload g) w' out').

Lemma established_take w p out b y src g h :
  conn w p out → packet w out b y src g → state p = ESTABLISHED → lclose p = false →
  hflags h = g_flags g → seqno h = g_seq g →
  0 < Z.of_nat (length (g_payload g)) → rseq p = g_seq g →
  ∃ nx w' p' out', tcp_established_input sys so b h ESTABLISHED true w = Some (nx, w') ∧
    rounded w p out b g nx w' p' out' (rx_fin (rx_data (rx_of p (taken (env w))) g) g).
Proof.
  intros Hc Hpk Hst Hlc Hf Hs Hlen Hseq. pose proof Hpk as [Hb (_ & _ & Hsz & _) _ _ _].
  unfold tcp_established_input. rewrite Hb. bindr. destruct (conn_pcb_of w p out Hc) as (i & bi & ->). bindr.
  rewrite Hsz, Hs, Hseq, Z.eqb_refl. rewrite (proj2 (Z.ltb_lt _ _) Hlen). cbn [andb].
  destruct (data_input_ok w p out b y src g Hc Hpk) as (w1 & -> & Hc1 & Ht1 & Hb1). bindr.
  destruct (post_ok _ _ _ VSFIP_EVT_TCP_RXOK false Hc1) as (w2 & p2 & -> & Hc2 & [Hst2 ? ? Hr2 ? Hl2] & Ha2). bindr.
  rewrite take_state, Hst in Hst2. rewrite (state_of_ok _ _ _ Hc2), Hst2. bindr.
  rewrite bool_decide_eq_true_2 by done. cbn [negb].
  destruct (closewait_ok w2 p2 out h false g Hc2) as (w3 & p3 & out3 & He & (Hc3 & Ha3 & Hl3) & Hrx); [by rewrite Hl2|done|done|].
  rewrite Hst2 in He. exists Leave, w3, p3, out3. split; [exact He|].
  assert (Ha : acts w1 out w3 out3) by (by eapply acts_trans).
  split; [done|]. split; [by rewrite Hl3, Hl2|]. split; [|right; split; [done|by eapply served_consume]].
  destruct Ha3 as [[-> _] _ _]. rewrite Hrx. destruct Ha2 as [[-> _] _ _]. rewrite Ht1. f_equal.
  unfold rx_data, rx_of. cbn [rs_next rs_state rs_data].
  rewrite (proj2 (Z.ltb_lt _ _) Hlen), Hseq, Z.eqb_refl. cbn [andb]. rewrite Hst, Hst2, Hr2. cbn. by rewrite Hseq.
Qed.

Lemma established_skip w p out b y src g h :
  conn w p out → packet w out b y src g → state p = ESTABLISHED → lclose p = false →
  hflags h = g_flags g → seqno h = g_seq g →
  (0 <? Z.of_nat (length (g_payload g))) && (rseq p =? g_seq g) = false →
  ∃ nx w' p' out', tcp_established_input sys so b h ESTABLISHED true w = Some (nx, w') ∧
    rounded w p out b g nx w' p' out' (rx_fin (rx_data (rx_of p (taken (env w))) g) g).
Proof.
  intros Hc Hpk Hst Hlc Hf Hs Hno. pose proof Hpk as [Hb (_ & _ & Hsz & _) _ _ _].
  unfold tcp_established_input. rewrite Hb. bindr. destruct (conn_pcb_of w p out Hc) as (i & bi & ->). bindr.
  rewrite Hsz, Hs, Hno.
  assert (Hw1 : ∃ w1 p1 out1, (if 0 <? Z.of_nat (length (g_payload g)) then send_flags sys so VSFIP_TCPFLAG_ACK w else Some w) = Some w1 ∧
            conn w1 p1 out1 ∧ same_conn p p1 ∧ acts w out w1 out1).
  { destruct (0 <? _); [by apply send_flags_ok|]. exists w, p, out. split_and!; [done|done|done|apply acts_refl]. }
  destruct Hw1 as (w1 & p1 & out1 & -> & Hc1 & [Hst1 ? ? Hr1 ? Hl1] & Ha1). bindr.
  destruct (closewait_ok w1 p1 out1 h true g Hc1) as (w3 & p3 & out3 & He & (Hc3 & Ha3 & Hl3) & Hrx); [by rewrite Hl1|done|done|].
  rewrite Hst1, Hst in He. exists Release, w3, p3, out3. split; [exact He|].
  split; [done|]. split; [by rewrite Hl3, Hl1|]. split; [|left; split; [done|by eapply acts_trans]].
  destruct Ha3 as [[-> _] _ _]. rewrite Hrx. destruct Ha1 as [[-> _] _ _]. f_equal.
  unfold rx_data, rx_of. cbn [rs_next]. rewrite Hno. by rewrite Hst1, Hr1.
Qed.

(** One round of the switch for a segment without RST. *)
Lemma switch_ok w p out b y src g h :
  conn w p out → packet w out b y src g → opened p → hflags h = g_flags g → seqno h = g_seq g →
  has (g_flags g) VSFIP_TCPFLAG_RST = false →
  ∃ nx w' p' out', tcp_switch sys so b h (state p) true w = Some (nx, w') ∧
    rounded w p out b g nx w' p' out' (rx (rx_of p (taken (env w))) g).
Proof.
  intros Hc Hpk Hop Hf Hs Hrst. unfold tcp_switch, rx. rewrite (state_of_ok _ _ _ Hc). bindr.
  rewrite Hrst. change (rs_state (rx_of p (taken (env w)))) with (state p). destruct Hop as [Hst|[[Hst|Hst] Hlc]]; rewrite Hst.
  - destruct (send_flags_ok w p out VSFIP_TCPFLAG_RST Hc) as (w1 & p1 & out1 & -> & Hc1 & [Hst1 ? ? Hr1 ? Hl1] & Ha1); [done|].
    bindr. exists Release, w1, p1, out1. split; [done|]. split; [done|]. split; [done|]. split; [|by left].
    destruct Ha1 as [[-> _] _ _]. unfold rx_of. by rewrite Hst1, Hr1.
  - destruct ((0 <? Z.of_nat (length (g_payload g))) && (rseq p =? g_seq g)) eqn:Hd; [|by eapply established_skip].
    apply andb_prop in Hd as [Hd1%Z.ltb_lt Hd2%Z.eqb_eq]. by eapply established_take.
  - destruct (closewait_ok w p out h true g Hc Hlc Hf Hs) as (w3 & p3 & out3 & He & (Hc3 & Ha3 & Hl3) & Hrx).
    rewrite Hst in He. exists Release, w3, p3, out3. split; [exact He|]. split; [done|]. split; [done|]. split; [|by left].
    destruct Ha3 as [[-> _] _ _]. done.
Qed.

(** The queues of a connection at rest are empty. *)
Lemma free_empty q w : head q = NULL → vsfip_bufferlist_free sys q w = Some (q, w).
Proof.
  intros Hq. unfold vsfip_bufferlist_free, fuel_of. cbn [bufferlist_free_loop].
  unfold vsfq_dequeue. rewrite Hq. by rewrite decide_True by done.
Qed.

(** Emptying both queues changes nothing. *)
Lemma drop_queues w p out (k : net E → option (net E)) :
  conn w p out →
  ∃ w', (s ← socks w !! so;
         '(q, w) ← vsfip_bufferlist_free sys (inq s) w;
         w ← upd_sock so (set_inq q) w;
         '(q, w) ← vsfip_bufferlist_free sys (outq s) w;
         w ← upd_sock so (set_outq q) w;
         k w) = k w' ∧ conn w' p out ∧ acts w out w' out ∧ bufs w' = bufs w.
Proof.
  intros Hc. destruct (conn_sock w p out Hc) as (s & Hs & i & bi & Hsi). pose proof Hep as []. pose proof Hc as [].
  rewrite Hs. bindr. rewrite free_empty by (by rewrite Hsi). bindr.
  rewrite (upd_sock_ok so _ s) by done. bindr. rewrite free_empty by (by rewrite Hsi). bindr.
  rewrite (upd_sock_ok so _ (set_inq (inq s) s)) by apply put_sock_get. bindr. rewrite put_sock_put.
  assert (Hss : set_outq (outq s) (set_inq (inq s) s) = s) by (by rewrite Hsi). rewrite Hss.
  exists (put_sock so s w). split; [done|]. split; [|split; [by apply acts_same|done]].
  split; try done. exists i, bi. cbn. destruct cn_sock0 as (i' & b' & ->).
  by rewrite insert_insert_eq, Hsi.
Qed.

Lemma reset_ok w p out b y src g :
  conn w p out → packet w out b y src g →
  ∃ w' p', tcp_reset_input sys so b w = Some w' ∧ conn w' p' out ∧ served w out b [] w' out ∧
    state p' = CLOSED ∧ rseq p' = rseq p.
Proof.
  intros Hc [Hb _ Hr Hb0 Hout]. unfold tcp_reset_input.
  destruct (release_ok w p out b y Hc Hb Hr Hb0 Hout) as (w1 & -> & Hc1 & Ht1 & Hb1). bindr.
  set (f := λ p, set_state CLOSED (set_rx_timeout 0 (set_tx_timeout 0 p))).
  destruct (conn_upd w1 p out f Hc1) as (-> & Hc2 & Ha2); [by destruct Hc1..|]. bindr.
  destruct (drop_queues _ _ _ (λ w, w ← post_tx sys so VSFIP_EVT_SOCKET_TIMEOUT w; post_rx sys so VSFIP_EVT_SOCKET_TIMEOUT w) Hc2)
    as (w3 & -> & Hc3 & Ha3 & _).
  destruct (post_ok _ _ _ VSFIP_EVT_SOCKET_TIMEOUT true Hc3) as (w4 & p4 & -> & Hc4 & Hs4 & Ha4). bindr.
  destruct (post_ok _ _ _ VSFIP_EVT_SOCKET_TIMEOUT false Hc4) as (w5 & p5 & -> & Hc5 & Hs5 & Ha5).
  exists w5, p5. split; [done|]. split; [done|]. assert (Hs : same_conn (f p) p5) by (by etrans).
  destruct Hs as [-> _ _ -> _ _]. split; [|done].
  eapply served_consume; [by rewrite app_nil_r|exact Hb1|].
  eapply acts_trans; [exact Ha2|]. eapply acts_trans; [exact Ha3|]. by eapply acts_trans.
Qed.

(** The bytes that a segment adds. *)
Definition added (r : rxstate) (g : segment) : list Z :=
  if negb (has (g_flags g) VSFIP_TCPFLAG_RST) && bool_decide (rs_state r = ESTABLISHED) &&
     ((0 <? Z.of_nat (length (g_payload g))) && (rs_next r =? g_seq g))
  then g_payload g else [].

Lemma rx_added r g : rs_data (rx r g) = rs_data r ++ added r g.
Proof.
  unfold rx, added. destruct (has _ VSFIP_TCPFLAG_RST); [by rewrite app_nil_r|]. cbn [negb andb].
  destruct (rs_state r) eqn:Hst; cbn [bool_decide decide andb]; try (by rewrite app_nil_r).
  - unfold rx_fin, rx_data. rewrite bool_decide_eq_true_2 by done. cbn [andb].
    destruct (_ && _); destruct (has _ _); cbn; by rewrite ?app_nil_r.
  - unfold rx_fin. destruct (has _ _); cbn; by rewrite ?app_nil_r.
Qed.

Lemma input_ok w p out b y src g :
  conn w p out → packet w out b y src g → opened p →
  ∃ w' p' out', vsfip_tcp_socket_input sys so b w = Some w' ∧ conn w' p' out' ∧ opened p' ∧
    rx_of p' (taken (env w')) = rx (rx_of p (taken (env w))) g ∧
    served w out b (added (rx_of p (taken (env w))) g) w' out'.
Proof.
  intros Hc Hpk Hop. pose proof Hpk as [Hb (Hh & _) Hr Hb0 Hout]. pose proof Hep as [].
  unfold vsfip_tcp_socket_input. destruct (conn_pcb_of w p out Hc) as (i & bi & ->). bindr.
  rewrite Hb. bindr. rewrite Hh. bindr.
  change (backlog (set_ippcb_id i (set_ippcb_buf bi s0))) with (backlog s0). rewrite ep_backlog0. cbn [Z.ltb Z.compare andb].
  set (f := set_rwnd (window_size (head_of g))).
  destruct (conn_upd w p out f Hc) as (-> & Hc1 & Ha1); [by destruct Hc..|]. bindr.
  set (w1 := put_pcb _ _ w) in *. change (hflags (head_of g)) with (g_flags g).
  assert (Hpk1 : packet w1 out b y src g) by (by destruct Hpk).
  destruct (has (g_flags g) VSFIP_TCPFLAG_RST) eqn:Hrst.
  - destruct (reset_ok w1 (f p) out b y src g Hc1 Hpk1) as (w2 & p2 & -> & Hc2 & Hs2 & Hst & Hrs).
    exists w2, p2, out. split; [done|]. split; [done|]. split; [by left|].
    destruct Hs2 as [Htk ? ? ?]. rewrite app_nil_r in Htk. split.
    + unfold rx. rewrite Hrst. unfold rx_of. by rewrite Hst, Hrs, Htk.
    + unfold added. rewrite Hrst. cbn [negb andb]. split; [by rewrite app_nil_r|done..].
  - unfold TCP_ROUNDS. cbn [tcp_process].
    destruct (switch_ok w1 (f p) out b y src g (head_of g) Hc1 Hpk1 Hop eq_refl eq_refl Hrst)
      as (nx & w2 & p2 & out2 & He & Hc2 & Hl2 & Hrx & Hnx).
    change (state (f p)) with (state p) in He. rewrite He. bindr.
    change (rx_of (f p) (taken (env w1))) with (rx_of p (taken (env w))) in Hrx.
    assert (Hdata : taken (env w2) = taken (env w) ++ added (rx_of p (taken (env w))) g).
    { change (taken (env w2)) with (rs_data (rx_of p2 (taken (env w2)))). by rewrite Hrx, rx_added. }
    assert (Hop2 : opened p2).
    { assert (Hst2 : state p2 = rs_state (rx (rx_of p (taken (env w))) g)) by (by rewrite <- Hrx).
      unfold opened. rewrite Hst2, Hl2. exact (rx_opened p (taken (env w)) g Hop Hrst). }
    destruct Hnx as [[-> Ha2]|[-> Hs2]].
    + destruct (release_ok w2 p2 out2 b y Hc2) as (w3 & -> & Hc3 & Ht3 & Hb3); [|done|done| |].
      * destruct Ha2 as [[_ Hbufs] _ _]. rewrite Hbufs by (by eapply elem_of_dom_2). done.
      * destruct Ha2 as [_ (l & -> & Hl) _]. intros [Hin|Hin]%elem_of_app; [done|].
        apply (Hl b Hin). by eapply elem_of_dom_2.
      * exists w3, p2, out2. split; [done|]. split; [done|]. split; [done|]. rewrite Ht3. split; [done|].
        destruct (served_release w1 out b w2 out2 w3) as [_ ? ? ?]; try done; [by eapply elem_of_dom_2|].
        split; [by rewrite Ht3, Hdata|done..].
    + exists w2, p2, out2. split; [done|]. split; [done|]. split; [done|]. split; [done|].
      destruct Hs2. by split.
Qed.

(** ** Frames *)

(** What the driver of an interface does (as class/device/CDC/vsfusbd_RNDIS.c): it
    fills a buffer with a frame and gives it to the stack, and takes what the stack
    has queued, releasing it when it is sent. *)
Definition rx_frame (frame : list Z) w : option (net E) :=
  let '(b, w) := vsfip_buffer_get sys (Z.of_nat (length frame)) w in
  if b =? NULL then Some w
  else w ← upd_buf b (λ x, set_netif nt (set_mem frame x)) w; vsfip_eth_input sys b w.
Definition tx_frame w : option (net E) :=
  n ← netifs w !! nt;
  '(b, q) ← vsfq_dequeue (nnodes w) (noutq n);
  let w := put_netif nt (set_noutq q n) w in
  if b =? NULL then Some w else vsfip_buffer_release sys b w.

Definition peer_addr : Z := s_addr (sin_addr (remote_sockaddr s0)).
Definition own_addr : Z := s_addr (ipaddr n0).

Definition peer_frame (d s : list Z) (id cs : Z) (g : segment) : list Z :=
  let k := Z.of_nat (length (seg_bytes g cs)) in
  ethhead d s 0x0800 ++
  ip4head (20 + k) id IPPROTO_TCP 0 (ip4head_sum (20 + k) id IPPROTO_TCP 0 peer_addr own_addr) peer_addr own_addr ++
  seg_bytes g cs.

(** A frame with a segment of the other end; its checksum is not looked at. *)
Record from_peer (g : segment) (frame : list Z) : Prop := {
  fp_seg : seg_ok g;
  fp_len : Z.of_nat (length (g_payload g)) ≤ 65000;
  fp_sport : g_sport g = sin_port (remote_sockaddr s0);
  fp_dport : g_dport g = sin_port (local_sockaddr s0);
  fp_frame : ∃ d s id cs, length d = 6%nat ∧ length s = 6%nat ∧ frame = peer_frame d s id cs g }.

(** The search leads to this socket, and the address is the interface's. *)
Record found w : Prop := {
  fd_socket : find_socket (fuel_of (socks w)) (tcpconns (vsfip w)) peer_addr own_addr
                (sin_port (remote_sockaddr s0)) (sin_port (local_sockaddr s0)) w = Some so;
  fd_us : ip4_for_us n0 own_addr = true;
  fd_peer : 0 ≤ peer_addr < 4294967296; fd_own : 0 ≤ own_addr < 4294967296 }.

Lemma found_kept w p out w' p' out' : conn w p out → conn w' p' out' → found w → found w'.
Proof.
  intros [(i & b & Hs) _ _ _ [id Hip] _ _ _] [(i' & b' & Hs') _ _ _ [id' Hip'] _ _ _] [Hf ? ? ?]. split; try done.
  assert (Hsize : size (socks w') = size (socks w)) by (rewrite <- !size_dom, Hs, Hs', !dom_insert_L; done).
  rewrite <- Hf. unfold fuel_of. rewrite Hsize, Hip, Hip'. apply find_socket_like; [|done].
  intros a. rewrite Hs, Hs'. destruct (decide (a = so)) as [->|].
  - rewrite !lookup_insert_eq. by constructor.
  - rewrite !lookup_insert_ne by done. destruct (others !! a); constructor. done.
Qed.

(** A buffer with a frame in it. *)
Definition filled (b : Z) (frame : list Z) (e : E) w : net E :=
  let nd := {| addr := 0; next := NULL |} in
  set_pnodes (<[b := nd]> (pnodes w)) (set_nnodes (<[b := nd]> (nnodes w)) (put_buf b
    {| mem := frame; buf := {| off := 0; wsize := Z.of_nat (length frame) |};
       app := {| off := 0; wsize := Z.of_nat (length frame) |}; iphead := 0; ref := 1; ttl := 0; retry := 0;
       netif := nt |} (set_env e w))).

Lemma filled_conn w p out b frame e :
  conn w p out → b ∉ dom (bufs w) → b ∉ out → live e ({[b]} ∪ dom (bufs w)) → conn (filled b frame e w) p out.
Proof.
  intros [] Hfr Hout Hlive. split; try done.
  - destruct cn_netif0 as (q & Hn & Hq). exists q. split; [done|]. by apply queue_rep_fresh.
  - intros a Ha. cbn. rewrite lookup_insert_ne by (intros ->; done). by apply cn_out0.
  - cbn. by rewrite dom_insert_L.
Qed.

Lemma rx_frame_eq w frame b m e :
  get_buffer sys (Z.of_nat (length frame)) (env w) = (b, m, e) → b ≠ NULL →
  rx_frame frame w = vsfip_eth_input sys b (filled b frame e w).
Proof.
  intros Hg Hb. unfold rx_frame, vsfip_buffer_get. rewrite Hg. destruct (Z.eqb_spec b NULL); [done|].
  destruct (Z.eqb_spec b NULL); [done|]. rewrite (upd_buf_ok b _ _ _ (lookup_insert_eq _ _ _)). bindr.
  f_equal. unfold filled. apply net_ext; try done. cbn. by rewrite insert_insert_eq.
Qed.

Lemma conn_repacked w p out b y nd seq :
  conn w p out → b ∈ dom (bufs w) → b ∉ out → conn (put_buf b y (keyed b seq nd w)) p out.
Proof.
  intros [] Hb Hout. split; try done.
  - intros a Ha. cbn. rewrite lookup_insert_ne by (intros ->; done). by apply cn_out0.
  - cbn. rewrite dom_insert_L. by replace ({[b]} ∪ dom (bufs w)) with (dom (bufs w)) by set_solver.
Qed.

Definition no_memory (frame : list Z) w : bool := (get_buffer sys (Z.of_nat (length frame)) (env w)).1.1 =? NULL.

(** A frame of the other end: it is dropped when there is no memory, else its
    segment is received. *)
Lemma frame_ok w p out g frame :
  conn w p out → found w → opened p → from_peer g frame →
  ∃ w' p' out', rx_frame frame w = Some w' ∧ conn w' p' out' ∧ opened p' ∧ (∃ l, out' = out ++ l) ∧
    (∀ a, a ∈ dom (bufs w') → a ∈ dom (bufs w) ∨ a ∈ out') ∧
    rx_of p' (taken (env w')) =
      (if no_memory frame w then rx_of p (taken (env w)) else rx (rx_of p (taken (env w))) g).
Proof.
  intros Hc [Hf Hus Hsrc Hdest] Hop [Hg Hlen Hsp Hdp (d & s & id & cs & Hd & Hs & Hfr)]. pose proof Hc as [].
  unfold peer_frame in Hfr.
  destruct (get_buffer sys (Z.of_nat (length frame)) (env w)) as [[b m] e] eqn:Hget.
  destruct (host_get _ _ _ _ _ _ cn_live0 Hget) as [Htk [[-> Hlive]|(Hb & Hnew & Hm & Hlive)]].
  - exists (set_env e w), p, out. unfold rx_frame, vsfip_buffer_get, no_memory. rewrite Hget.
    split; [done|]. split; [by split|]. split; [done|]. split; [exists []; by rewrite app_nil_r|].
    split; [by left|]. cbn. by rewrite Htk.
  - rewrite (rx_frame_eq w frame b m e) by done.
    assert (Hout : b ∉ out).
    { intros Hin. destruct (cn_out0 b Hin) as (x & Hx & _). apply Hnew. by apply elem_of_dom_2 in Hx. }
    pose proof (filled_conn w p out b frame e Hc Hnew Hout Hlive) as Hc1. set (w1 := filled b frame e w) in *.
    destruct cn_netif0 as (q & Hn & _).
    destruct (segment_received sys w1 b _ {| addr := 0; next := NULL |} (set_noutq q n0) [] [] d s id
      peer_addr own_addr g cs so (lookup_insert_eq _ _ _)) as (y' & -> & Harr & Hr); try done.
    + apply lookup_insert_eq.
    + cbn [mem]. by rewrite app_nil_r.
    + cbn [buf]. f_equal. rewrite Hfr, !length_app, ethhead_length, ip4head_length by done. lia.
    + split; [done| |by destruct Hep|].
      * rewrite Hsp, Hdp, <- Hf. by apply find_socket_same.
      * destruct (conn_sock w p out Hc) as (s' & Hs' & i & bi & ->). eexists. split; [exact Hs'|]. by destruct Hep.
    + assert (Hin : b ∈ dom (bufs w1)) by (by cbn; rewrite dom_insert_L; set_solver).
      pose proof (conn_repacked w1 p out b y' {| addr := 0; next := NULL |} (g_seq g) Hc1 Hin Hout) as Hc2.
      set (w2 := put_buf b y' _) in *.
      destruct (input_ok w2 p out b y' peer_addr g Hc2) as (w3 & p3 & out3 & He & Hc3 & Hop3 & Hrx & [_ _ (l & Hl & _) Hused]);
        [split; try done; apply put_buf_get|done|].
      exists w3, p3, out3. split; [exact He|]. split; [done|]. split; [done|]. split; [by exists l|]. split.
      * intros a [Ha|Ha]%Hused; [left|by right]. unfold w2, w1 in Ha. cbn in Ha. rewrite !dom_insert_L in Ha. set_solver.
      * rewrite Hrx. unfold no_memory. rewrite Hget. cbn [fst]. destruct (Z.eqb_spec b NULL); [done|].
        change (env w2) with e. by rewrite Htk.
Qed.

(** The driver takes the first frame that is queued. *)
Lemma tx_frame_ok w p out :
  conn w p out →
  ∃ w', tx_frame w = Some w' ∧ conn w' p (tl out) ∧ taken (env w') = taken (env w) ∧
        ∀ a, a ∈ dom (bufs w') → a ∈ dom (bufs w) ∧ (a ∈ out → a ∈ tl out).
Proof.
  intros Hc. pose proof Hc as []. destruct cn_netif0 as (q & Hn & Hq). unfold tx_frame. rewrite Hn. bindr.
  change (noutq (set_noutq q n0)) with q. pose proof (vsfq_dequeue_spec _ _ _ Hq) as Hdq. destruct out as [|b out].
  - rewrite Hdq. bindr. eexists. split; [done|]. split; [|done]. split; try done. exists q. split; [apply lookup_insert_eq|done].
  - destruct Hdq as (q' & Hdq & Hq'). rewrite Hdq. bindr.
    destruct (cn_out0 b) as (x & Hx & Hr); [set_solver|].
    assert (Hb : b ≠ NULL) by (destruct Hq as [Hq _]; by destruct Hq as (_ & ? & _)).
    assert (Hnd : b ∉ out) by (destruct Hq as [Hq _]; apply chain_NoDup in Hq; by apply NoDup_cons in Hq as [? _]).
    destruct (Z.eqb_spec b NULL); [done|]. set (w1 := put_netif _ _ w).
    assert (Hc1 : conn w1 p out).
    { split; try done; [exists q'; split; [apply lookup_insert_eq|done]|]. intros a Ha. apply cn_out0. set_solver. }
    destruct (release_ok w1 p out b x Hc1) as (w2 & -> & Hc2 & Ht2 & Hb2); [done|done|done|done|].
    exists w2. split; [done|]. split; [done|]. split; [done|]. intros a. rewrite Hb2, dom_delete_L. set_solver.
Qed.

(** ** Histories *)

(** What happens at the interface, in order: frames arrive, frames leave. *)
Inductive traffic :=
  | Arrives (g : segment) (frame : list Z)
  | Leaves.

Definition happens (ev : traffic) w : option (net E) :=
  match ev with Arrives _ frame => rx_frame frame w | Leaves => tx_frame w end.
Fixpoint run (evs : list traffic) w : option (net E) :=
  match evs with [] => Some w | ev :: evs => w ← happens ev w; run evs w end.
Definition ev_ok (ev : traffic) : Prop :=
  match ev with Arrives g frame => from_peer g frame | Leaves => True end.
Definition segments (evs : list traffic) : list segment :=
  omap (λ ev, match ev with Arrives g _ => Some g | Leaves => None end) evs.

(** The segments for which there was memory. *)
Fixpoint kept (evs : list traffic) w : list segment :=
  match evs with
  | [] => []
  | ev :: evs =>
      match ev with
      | Arrives g frame => if no_memory frame w then [] else [g]
      | Leaves => []
      end ++ match happens ev w with Some w => kept evs w | None => [] end
  end.

(** One event, as a step of the receiver. *)
Lemma happens_ok w p out ev :
  conn w p out → found w → opened p → ev_ok ev →
  ∃ w' p' out', happens ev w = Some w' ∧ conn w' p' out' ∧ found w' ∧ opened p' ∧
    rx_of p' (taken (env w')) =
      match ev with
      | Arrives g frame => if no_memory frame w then rx_of p (taken (env w)) else rx (rx_of p (taken (env w))) g
      | Leaves => rx_of p (taken (env w))
      end ∧
    ∀ a, a ∈ dom (bufs w') → a ∈ dom (bufs w) ∧ a ∉ out ∨ a ∈ out'.
Proof.
  intros Hc Hf Hop Hev. destruct ev as [g frame|]; cbn [happens].
  - destruct (frame_ok w p out g frame Hc Hf Hop Hev) as (w' & p' & out' & He & Hc' & Hop' & (l & ->) & Hu & Hrx).
    exists w', p', (out ++ l). split; [done|]. split; [done|]. split; [exact (found_kept _ _ _ _ _ _ Hc Hc' Hf)|]. split; [done|].
    split; [done|]. intros a [Ha|Ha]%Hu; [|by right].
    destruct (decide (a ∈ out)); [right; apply elem_of_app; by left|by left].
  - destruct (tx_frame_ok w p out Hc) as (w' & He & Hc' & Ht & Hu).
    exists w', p, (tl out). split; [done|]. split; [done|]. split; [exact (found_kept _ _ _ _ _ _ Hc Hc' Hf)|]. split; [done|].
    split; [by rewrite Ht|]. intros a [Ha Htl]%Hu. destruct (decide (a ∈ out)); [right; by apply Htl|by left].
Qed.

(** C8: The input of TCP implements the receiver [rx].  Whatever frames of the other
    end arrive at a connection whose own data is acknowledged, in any order, with
    any flags, window and acknowledgement, and whenever the driver takes frames, no
    routine fails: the state, the next sequence number and the bytes that the
    application has are those of [rx] on the segments for which there was memory,
    and every packet in use at the end waits for the driver, or was in use and not
    queued at the start. *)
Theorem tcp_receiver_refines w p out evs :
  conn w p out → found w → opened p → Forall ev_ok evs →
  ∃ w' p' out', run evs w = Some w' ∧ conn w' p' out' ∧
    rx_of p' (taken (env w')) = foldl rx (rx_of p (taken (env w))) (kept evs w) ∧
    ∀ a, a ∈ dom (bufs w') → a ∈ dom (bufs w) ∧ a ∉ out ∨ a ∈ out'.
Proof.
  intros Hc Hf Hop Hevs. revert w p out Hc Hf Hop.
  induction Hevs as [|ev evs Hev _ IH]; intros w p out Hc Hf Hop.
  - exists w, p, out. split; [done|]. split; [done|]. split; [done|].
    intros a Ha. destruct (decide (a ∈ out)); [by right|by left].
  - destruct (happens_ok w p out ev Hc Hf Hop Hev) as (w1 & p1 & out1 & He & Hc1 & Hf1 & Hop1 & Hrx & Hu).
    destruct (IH w1 p1 out1 Hc1 Hf1 Hop1) as (w2 & p2 & out2 & He2 & Hc2 & Hrx2 & Hu2).
    cbn [run kept]. rewrite He. bindr. exists w2, p2, out2. split; [done|]. split; [done|]. split.
    + rewrite Hrx2, Hrx. rewrite foldl_app. destruct ev as [g frame|]; [|done]. by destruct (no_memory frame w).
    + intros a [[Ha Ho]|Ha]%Hu2; [|by right]. destruct (Hu a Ha); [by left|done].
Qed.

(** ** What the application gets *)

(** A segment of a sender whose bytes are [S], the first with number [base]. *)
Definition carries (S : list Z) (base : Z) (g : segment) : Prop :=
  ∃ o, (o + length (g_payload g) ≤ length S)%nat ∧ g_seq g = u32 (base + Z.of_nat o) ∧
       g_payload g = take (length (g_payload g)) (drop o S).

(** [k] bytes of [S] were taken behind [bs]. *)
Definition progress (S : list Z) (base : Z) (bs : list Z) (k : nat) (r : rxstate) : Prop :=
  (k ≤ length S)%nat ∧ rs_data r = bs ++ take k S ∧
  (rs_state r = ESTABLISHED → rs_next r = u32 (base + Z.of_nat k)).

Lemma u32_inj base a b :
  0 ≤ a < 4294967296 → 0 ≤ b < 4294967296 → u32 (base + a) = u32 (base + b) → a = b.
Proof.
  intros Ha Hb. unfold u32, wrap. change (2 ^ 32) with 4294967296. intros He.
  assert (Hd : (a - b) mod 4294967296 = 0).
  { replace (a - b) with ((base + a) - (base + b)) by lia. by rewrite Zminus_mod, He, Z.sub_diag. }
  apply Z.mod_divide in Hd as [c Hc]; [|done]. nia.
Qed.

Lemma rx_progress S base bs k r g :
  Z.of_nat (length S) < 4294967296 → carries S base g → progress S base bs k r →
  ∃ k', progress S base bs k' (rx r g).
Proof.
  intros HS (o & Ho & Hseq & Hpay) (Hk & Hd & Hn). unfold rx.
  destruct (has _ VSFIP_TCPFLAG_RST); [by exists k|].
  assert (Hfin : ∀ k r, progress S base bs k r → progress S base bs k (rx_fin r g)).
  { intros k1 r1 (? & ? & ?). unfold rx_fin. by destruct (has _ _). }
  destruct (rs_state r) eqn:Hst; try (exists k; by rewrite ?Hst); try (exists k; split_and!; by rewrite ?Hst).
  - unfold rx_data. destruct (_ && _) eqn:Hin; [|exists k; apply Hfin; split_and!; [done|done|by rewrite Hst]].
    apply andb_prop in Hin as [_ Heq%Z.eqb_eq]. rewrite Hn, Hseq in Heq by done.
    apply u32_inj in Heq as ->%Nat2Z.inj; [|lia|lia].
    exists (o + length (g_payload g))%nat. apply Hfin. split_and!; cbn [rs_data rs_next rs_state].
    + done.
    + rewrite Hd, <- app_assoc. f_equal. rewrite Hpay at 1. by rewrite take_take_drop.
    + intros _. rewrite Hn by done. rewrite Nat2Z.inj_add. unfold u32, wrap.
      rewrite Zplus_mod_idemp_l. f_equal. lia.
  - exists k. apply Hfin. split_and!; [done|done|by rewrite Hst].
Qed.

(** C7: The application gets the bytes of the other end, in order.  When every
    segment that arrives carries bytes of one stream at their place (whatever was
    lost, repeated, reordered or cut differently when it was sent again, and with
    sequence numbers that wrap), no routine fails and the bytes that the
    application has taken are the first [k] bytes of the stream, for some [k]. *)
Theorem tcp_stream_prefix w p out evs S base :
  conn w p out → found w → opened p → Forall ev_ok evs →
  Z.of_nat (length S) < 4294967296 → Forall (carries S base) (segments evs) → rseq p = u32 base →
  ∃ w' k, run evs w = Some w' ∧ taken (env w') = taken (env w) ++ take k S.
Proof.
  intros Hc Hf Hop Hevs HS Hcar Hr. set (bs := taken (env w)).
  assert (Hp : progress S base bs 0 (rx_of p (taken (env w)))).
  { split_and!; [lia|by rewrite take_0, app_nil_r|]. intros _. cbn. by rewrite Z.add_0_r. }
  clearbody bs. clear Hr. revert w p out Hc Hf Hop Hp Hcar. generalize 0%nat as k.
  induction Hevs as [|ev evs Hev _ IH]; intros k w p out Hc Hf Hop Hp Hcar.
  - exists w, k. split; [done|]. by destruct Hp as (_ & ? & _).
  - destruct (happens_ok w p out ev Hc Hf Hop Hev) as (w1 & p1 & out1 & He & Hc1 & Hf1 & Hop1 & Hrx & _).
    cbn [run]. rewrite He. bindr.
    assert (Hk : ∃ k', progress S base bs k' (rx_of p1 (taken (env w1)))).
    { rewrite Hrx. destruct ev as [g frame|]; [|by exists k]. destruct (no_memory frame w); [by exists k|].
      eapply rx_progress; [done|by apply Forall_cons in Hcar as [? _]|done]. }
    destruct Hk as [k' Hk']. eapply (IH k'); try done.
    destruct ev; [by apply Forall_cons in Hcar as [_ ?]|done].
Qed.

(** Segments that follow each other, with none of the flags that end a connection. *)
Fixpoint in_order (next : Z) (gs : list segment) : Prop :=
  match gs with
  | [] => True
  | g :: gs =>
      g_seq g = next ∧ has (g_flags g) VSFIP_TCPFLAG_RST = false ∧ has (g_flags g) VSFIP_TCPFLAG_FIN = false ∧
      in_order (u32 (next + Z.of_nat (length (g_payload g)))) gs
  end.

Lemma rx_plain r g :
  rs_state r = ESTABLISHED → 0 ≤ rs_next r < 4294967296 → g_seq g = rs_next r →
  has (g_flags g) VSFIP_TCPFLAG_RST = false → has (g_flags g) VSFIP_TCPFLAG_FIN = false →
  rx r g = {| rs_state := ESTABLISHED; rs_next := u32 (rs_next r + Z.of_nat (length (g_payload g)));
              rs_data := rs_data r ++ g_payload g |}.
Proof.
  intros Hst Hr Hseq Hrst Hfin. unfold rx, rx_fin, rx_data. rewrite Hrst, Hst, Hfin, Hseq, Z.eqb_refl, andb_true_r.
  destruct (Z.ltb_spec 0 (Z.of_nat (length (g_payload g)))) as [?|Hz]; [done|].
  destruct (g_payload g); [|cbn in Hz; lia]. cbn [length]. rewrite Z.add_0_r, u32_small, app_nil_r by done.
  destruct r. cbn in *. by subst.
Qed.

Lemma kept_length evs w : (length (kept evs w) ≤ length (segments evs))%nat.
Proof.
  revert w. induction evs as [|ev evs IH]; intros w; [done|]. cbn [kept]. rewrite length_app.
  assert (Hr : (length (match happens ev w with Some w => kept evs w | None => [] end) ≤ length (segments evs))%nat)
    by (destruct (happens ev w); [apply IH|cbn; lia]).
  destruct ev as [g frame|]; [|exact Hr]. destruct (no_memory frame w); unfold segments in *; cbn in *; lia.
Qed.

(** C9: Nothing is withheld.  When the segments come in order from the number that
    the connection expects, none of them ends the connection and there is memory
    for each, the application has all their bytes when the last one is received,
    whatever the driver takes in between and whatever else the segments say. *)
Theorem tcp_stream_complete w p out evs :
  conn w p out → found w → state p = ESTABLISHED → lclose p = false → Forall ev_ok evs →
  kept evs w = segments evs → in_order (rseq p) (segments evs) →
  ∃ w', run evs w = Some w' ∧ taken (env w') = taken (env w) ++ concat (g_payload <$> segments evs).
Proof.
  intros Hc Hf Hst Hlc Hevs. revert w p out Hc Hf Hst Hlc.
  induction Hevs as [|ev evs Hev _ IH]; intros w p out Hc Hf Hst Hlc Hk Hin.
  - exists w. split; [done|]. by rewrite app_nil_r.
  - destruct (happens_ok w p out ev Hc Hf) as (w1 & p1 & out1 & He & Hc1 & Hf1 & Hop1 & Hrx & _);
      [by right; split; [left|]|done|].
    cbn [run]. rewrite He. bindr. cbn [kept] in Hk. rewrite He in Hk.
    destruct ev as [g frame|]; cbn [segments omap list_omap] in *.
    + destruct (no_memory frame w).
      { apply (f_equal length) in Hk. pose proof (kept_length evs w1). unfold segments in *. cbn in *. lia. }
      injection Hk as Hk. destruct Hin as (Hseq & Hrst & Hfin & Hin).
      rewrite rx_plain in Hrx by (cbn; try done; by destruct Hc). injection Hrx as Hst1 Hr1 Ht1.
      assert (Hl1 : lclose p1 = false) by (by destruct Hop1 as [?|[_ ?]]; [congruence|]).
      destruct (IH w1 p1 out1) as (w2 & Hrun & Ht2); try done; [by rewrite Hr1|].
      exists w2. split; [done|]. rewrite Ht2, Ht1. cbn. by rewrite <- app_assoc.
    + injection Hrx as Hst1 Hr1 Ht1. rewrite Hst in Hst1.
      assert (Hl1 : lclose p1 = false) by (by destruct Hop1 as [?|[_ ?]]; [congruence|]).
      rewrite <- Ht1. apply (IH w1 p1 out1); try done. by rewrite Hr1.
Qed.

End connection.

(** ** A connection of the laboratory *)

#[export] Instance lab_host : Host lab.
Proof.
  refine {| live e X := 0 < fresh e ∧ ∀ b, b ∈ X → b < fresh e; taken e := concat (heard e) |}.
  - intros e e' X He Hl. cbn in He. by subst.
  - intros size e X b m e' [Hf HX] Hg. cbn in Hg. unfold lab_buffer in Hg. destruct (left e) as [|k]; injection Hg as <- <- <-.
    + split; [done|]. left. done.
    + split; [done|]. right. split_and!.
      * intros Hn. rewrite Hn in Hf. done.
      * intros Hin. specialize (HX _ Hin). lia.
      * apply length_replicate.
      * cbn. lia.
      * cbn. intros b [->%elem_of_singleton|Hb]%elem_of_union; [lia|]. specialize (HX b Hb). lia.
  - intros b e X [Hf HX] _. split; [|done]. split; [done|]. intros a Ha. cbn. apply HX. set_solver.
  - intros f param b w x bs _ Hb Hr [Hf HX]. cbn. unfold lab_hear. rewrite Hb. cbn [mbind option_bind]. rewrite Hr.
    eexists. split; [done|]. cbn. split; [by rewrite concat_app; cbn; rewrite app_nil_r|].
    split; [done|]. intros a Ha. apply HX. set_solver.
Defined.

Definition lab_stack : vsfip_t := lab_ipdata NULL 500.
Definition lab_start : net lab_env := lab_tcp_a 80 [].

Lemma lab_endpoint : endpoint 500 300 lab_conn_a (lab_netif 1 2) lab_stack (lab_mac 2).
Proof.
  split; try done; try (apply lab_addr_ok; repeat constructor; cbn; lia); try (cbn; lia).
  split; [by vm_compute| |cbn; lia|cbn; lia|done]. eexists. by split.
Qed.

Lemma lab_conn : conn lab 500 300 lab_conn_a (lab_netif 1 2) lab_stack ∅ lab_start (lab_pcb 1000 7000) [].
Proof.
  split; try done.
  - by exists 0, NULL.
  - by exists vsfq_init.
  - intros b Hb. set_solver.
  - by exists 7.
  - split; [done|]. intros b Hb. cbn in Hb. rewrite dom_singleton_L in Hb. apply elem_of_singleton in Hb as ->. done.
Qed.

Lemma lab_found : found 500 lab_conn_a (lab_netif 1 2) lab_start.
Proof. split; by vm_compute. Qed.

(** Segments of the other end, from port 80. *)
Definition lab_segment (seq flags : Z) (payload : list Z) : segment :=
  {| g_sport := 80; g_dport := 5000; g_seq := seq; g_ack := 1000; g_flags := flags; g_window := 4096; g_payload := payload |}.
Definition lab_arrives (seq flags : Z) (payload : list Z) : traffic :=
  let g := lab_segment seq flags payload in
  Arrives g (peer_frame lab_conn_a (lab_netif 1 2) [2; 0; 0; 0; 0; 1] [2; 0; 0; 0; 0; 2] 77 0 g).

Lemma lab_arrives_ok seq flags payload :
  0 ≤ seq < 4294967296 → 0 ≤ flags < 256 → bytes payload → Z.of_nat (length payload) ≤ 65000 →
  ev_ok lab_conn_a (lab_netif 1 2) (lab_arrives seq flags payload).
Proof.
  intros Hs Hf Hb Hl. split; [split; cbn; lia || done|done|done|done|].
  eexists _, _, _, _. split; [|split; [|reflexivity]]; done.
Qed.

(** The second part first, then the first, a repetition and the second again. *)
Definition lab_history : list traffic :=
  [lab_arrives 7003 16 [40; 50]; Leaves; lab_arrives 7000 16 [10; 20; 30]; lab_arrives 7000 16 [10; 20; 30];
   lab_arrives 7003 17 [40; 50]].
Definition lab_ordered : list traffic :=
  [lab_arrives 7000 16 [10; 20; 30]; Leaves; lab_arrives 7003 24 [40; 50]].

Lemma lab_history_ok : Forall (ev_ok lab_conn_a (lab_netif 1 2)) lab_history.
Proof. repeat (constructor; [first [done | apply lab_arrives_ok; [lia|lia|repeat constructor; lia|cbn; lia]]|]). constructor. Qed.
Lemma lab_ordered_ok : Forall (ev_ok lab_conn_a (lab_netif 1 2)) lab_ordered.
Proof. repeat (constructor; [first [done | apply lab_arrives_ok; [lia|lia|repeat constructor; lia|cbn; lia]]|]). constructor. Qed.
Lemma lab_opened : opened (lab_pcb 1000 7000).
Proof. right. split; [by left|done]. Qed.

Lemma tcp_receiver_refines_witness :
  ∃ w' p' (out' : list Z), run lab 300 lab_history lab_start = Some w' ∧
    rx_of p' (taken (env w')) = {| rs_state := CLOSEWAIT; rs_next := 7004; rs_data := [10; 20; 30; 40; 50] |} ∧
    ∀ a, a ∈ dom (bufs w') → a ∈ dom (bufs lab_start) ∧ a ∉ [] ∨ a ∈ out'.
Proof.
  destruct (tcp_receiver_refines lab 500 300 lab_conn_a (lab_netif 1 2) lab_stack (lab_mac 2) ∅ lab_endpoint
    lab_start _ [] lab_history lab_conn lab_found lab_opened lab_history_ok) as (w' & p' & out' & Hrun & _ & Hrx & Hu).
  exists w', p', out'. split; [exact Hrun|]. split; [|exact Hu]. rewrite Hrx. vm_compute. reflexivity.
Defined.

Lemma tcp_stream_prefix_witness :
  ∃ w' k, run lab 300 lab_history lab_start = Some w' ∧ taken (env w') = [] ++ take k [10; 20; 30; 40; 50].
Proof.
  refine (tcp_stream_prefix lab 500 300 lab_conn_a (lab_netif 1 2) lab_stack (lab_mac 2) ∅ lab_endpoint
    lab_start _ [] lab_history [10; 20; 30; 40; 50] 7000 lab_conn lab_found lab_opened lab_history_ok _ _ _); [done| |done].
  repeat constructor; [exists 3%nat|exists 0%nat|exists 0%nat|exists 3%nat]; cbn; split_and!; try lia; done.
Defined.

Lemma tcp_stream_complete_witness :
  ∃ w', run lab 300 lab_ordered lab_start = Some w' ∧ taken (env w') = [10; 20; 30; 40; 50].
Proof.
  refine (tcp_stream_complete lab 500 300 lab_conn_a (lab_netif 1 2) lab_stack (lab_mac 2) ∅ lab_endpoint
    lab_start (lab_pcb 1000 7000) [] lab_ordered lab_conn lab_found eq_refl eq_refl lab_ordered_ok _ _);
    [vm_compute; reflexivity|by split_and!].
Defined.

(** A FIN that overtakes data is taken at once: the data that it overtook is then
    acknowledged and never given to the application. *)
Example fin_out_of_order_lost :
  taken ∘ env <$> run lab 300 [lab_arrives 7003 17 []; lab_arrives 7000 16 [10; 20; 30]] lab_start = Some [] ∧
  (rseq <$> (w ← run lab 300 [lab_arrives 7003 17 []] lab_start; pcbs w !! 700)) = Some 7004.
Proof. split; vm_compute; reflexivity. Qed.
