(* ===== verification/Vsfile.v ===== *)
(** * Vsfile: names, attributes and the memory file system (vsfile.c)

    A file is a [vsfile_t]; its name is the bytes before the NUL, [None] for a
    NULL name, which ends an array of files.  The memory file system keeps a
    file in a buffer and a directory in an array: both are the first word of a
    union ([memptr]).  Its operations see files through [look], the part of an
    object that is a [vsfile_memfile_t], so that a file system that extends the
    struct (Fakefat) uses them on its own objects. *)

From S2P Require Import Prelude Chain.

(** ** Data (vsfile.h) *)

Definition VSFILE_ATTR_READONLY : Z := Z.shiftl 1 0.
Definition VSFILE_ATTR_HIDDEN : Z := Z.shiftl 1 1.
Definition VSFILE_ATTR_SYSTEM : Z := Z.shiftl 1 2.
Definition VSFILE_ATTR_VOLUMID : Z := Z.shiftl 1 3.
Definition VSFILE_ATTR_DIRECTORY : Z := Z.shiftl 1 4.
Definition VSFILE_ATTR_ARCHIVE : Z := Z.shiftl 1 5.
Definition VSFILE_ATTR_WRITEONLY : Z := Z.shiftl 1 6.

(** [attr & VSFILE_ATTR_...] as a condition. *)
Definition has (attr bit : Z) : bool := negb (Z.land attr bit =? 0).

Record vsfile_t := {
  f_name : option (list Z); f_size : Z; f_attr : Z; f_op : Z; f_parent : Z }.

(** The union of [f.buff] and [d.child] is [memptr]; [child_size] is the second
    word of [d]. *)
Record vsfile_memfile_t := { mfile : vsfile_t; memptr : Z; child_size : Z }.

(** ** Strings *)

(** The bytes before the NUL of the string at [a]; [None] when the memory ends
    first. *)
Fixpoint to_nul (l : list Z) : option (list Z) :=
  match l with
  | [] => None
  | c :: l => if c =? 0 then Some [] else cons c <$> to_nul l
  end.

Definition cstr (m : list Z) (a : Z) : option (list Z) :=
  if decide (0 ≤ a) then to_nul (drop (Z.to_nat a) m) else None.

Definition strlen (s : list Z) : Z := Z.of_nat (length s).

(** The string from the first [c] on. *)
Fixpoint strchr (s : list Z) (c : Z) : option (list Z) :=
  match s with
  | [] => None
  | x :: s' => if x =? c then Some s else strchr s' c
  end.

Definition strcmp_eq (s t : list Z) : bool := bool_decide (s = t).

Definition islower (c : Z) : bool := (97 <=? c) && (c <=? 122).
Definition isupper (c : Z) : bool := (65 <=? c) && (c <=? 90).
Definition isalpha (c : Z) : bool := islower c || isupper c.
Definition toupper (c : Z) : Z := if islower c then c - 32 else c.
Definition tolower (c : Z) : Z := if isupper c then c + 32 else c.

(** ** Helpers *)

(** The string after its last dot; a name without a dot is its own extension. *)
Fixpoint getfileext_loop (fuel : nat) (ext : list Z) : option (list Z) :=
  match fuel with
  | O => None
  | S fuel =>
    match strchr ext 46 with
    | Some tmp => getfileext_loop fuel (drop 1 tmp)
    | None => Some ext
    end
  end.

Definition vsfile_getfileext (fname : list Z) : option (list Z) :=
  getfileext_loop (S (length fname)) fname.

Definition vsfile_is_div (ch : Z) : bool := (92 =? ch) || (47 =? ch).

(** [strstr(path, filename) == path]: the name is a prefix of the path.  The
    byte after it is the terminator at the end of the path. *)
Definition vsfile_match (path filename : list Z) : bool :=
  if decide (take (length filename) path = filename) then
    match drop (length filename) path with
    | [] => true
    | ch :: _ => vsfile_is_div ch
    end
  else false.

(** ** The memory file system *)

Section memfs.
Context (look : Z → option vsfile_memfile_t).

Fixpoint getchild_loop (fuel : nat) (stride : Z) (name : option (list Z)) (idx child : Z)
    : option Z :=
  match fuel with
  | O => None
  | S fuel =>
    if child =? NULL then Some NULL
    else
      f ← look child;
      match f_name (mfile f) with
      | None => Some NULL
      | Some nm =>
        if (match name with Some path => vsfile_match path nm | None => idx =? 0 end)
        then Some child
        else getchild_loop fuel stride name (u32 (idx - 1)) (u32 (child + stride))
      end
  end.

(** [user_data] is that of the protothread.  The child found and the result. *)
Definition vsfile_memfs_getchild (fuel : nat) (user_data dir : Z) (name : option (list Z)) (idx : Z)
    : option (Z * Z) :=
  memfile ← look (if dir =? NULL then user_data else dir);
  child ← getchild_loop fuel (child_size memfile) name idx (memptr memfile);
  Some (child, if child =? NULL then VSFERR_NOT_AVAILABLE else VSFERR_NONE).
End memfs.

(** [buf] is the contents of [f.buff]: the bytes copied and their number. *)
Definition vsfile_memfs_read (f : vsfile_memfile_t) (buf : list Z) (offset size : Z)
    : option (list Z * Z) :=
  if f_size (mfile f) <=? offset then Some ([], 0)
  else
    let rsize := u32 (Z.min size (f_size (mfile f) - offset)) in
    src ← read_at buf (Z.to_nat offset) (Z.to_nat rsize);
    Some (src, rsize).

(** [src] is the caller's buffer from its start: the new contents of [f.buff]
    and the number of bytes copied. *)
Definition vsfile_memfs_write (f : vsfile_memfile_t) (buf : list Z) (offset size : Z) (src : list Z)
    : option (list Z * Z) :=
  if f_size (mfile f) <=? offset then Some (buf, 0)
  else
    let wsize := u32 (Z.min size (f_size (mfile f) - offset)) in
    data ← read_at src 0 (Z.to_nat wsize);
    buf ← memcpy buf (Z.to_nat offset) data;
    Some (buf, wsize).
