(* ===== verification/Vsffat.v ===== *)
(** * Vsffat: names and directory entries of FAT volumes (vsffat.c)

    [vsffat_is_LFN] says which names need entries for a long name;
    [vsffat_parse_dentry_fat] takes the next file from a buffer of directory
    entries.  The parser writes the name into a buffer of its caller, and the
    callers give it the start of the buffer it reads: the model has one memory
    and addresses, so that such a name overwrites entries as it does in the
    code.  [char] is unsigned, as it is on the processors of the library. *)

From S2P Require Import Prelude Endian Vsfile.

(** ** Names *)

(** [name] is not NULL: the loop reads it. *)
Definition vsffat_is_LFN (name : list Z) : option bool :=
  ext ← vsfile_getfileext name;
  let ext_len := strlen ext in
  let name_len := u32 (strlen name - (ext_len + 1)) in
  if (8 <? name_len) || (3 <? ext_len) then Some true
  else
    let has_lower := existsb islower name in
    let has_upper := existsb isupper name in
    Some (has_lower && has_upper).

(** ** Directory entries *)

Definition FATFS_FILEATTR_LONGNAME : Z :=
  Z.lor (Z.lor (Z.lor VSFILE_ATTR_READONLY VSFILE_ATTR_HIDDEN) VSFILE_ATTR_SYSTEM)
    VSFILE_ATTR_VOLUMID.

Record vsffat_dentry_parser_t := { entry : Z; entry_num : Z; lfn : Z; filename : Z }.

(** One of the three loops that copy the characters of a long name: [n] of them
    from [buf] to [ptr], until one is 0; whether one was, and the next [ptr]. *)
Fixpoint lfn_copy (n : nat) (buf ptr : Z) (m : list Z) : option (bool * Z * list Z) :=
  match n with
  | O => Some (false, ptr, m)
  | S n =>
    b0 ← getb m buf;
    nul ← (if b0 =? 0 then b1 ← getb m (buf + 1); Some (b1 =? 0) else Some false);
    if (nul : bool) then Some (true, ptr, m)
    else m ← setb m ptr b0; lfn_copy n (buf + 2) (ptr + 1) m
  end.

(** An entry of a long name at [e]: its index and the memory. *)
Definition lfn_entry (e fn : Z) (m : list Z) : option (Z * list Z) :=
  index ← getb m e;
  let pos := u8 ((Z.land index 0x0F - 1) * 13) in
  '(nul, ptr, m) ← lfn_copy 5 (e + 1) (fn + pos) m;
  '(nul, ptr, m) ← (if (nul : bool) then Some (true, ptr, m) else lfn_copy 6 (e + 14) ptr m);
  '(nul, ptr, m) ← (if (nul : bool) then Some (true, ptr, m) else lfn_copy 2 (e + 28) ptr m);
  m ← (if Z.land index 0xF0 =? 0x40 then setb m ptr 0 else Some m);
  Some (index, m).

(** One of the two loops of a short name: at most [n] characters from [src], to
    the first blank; the next [ptr]. *)
Fixpoint sfn_copy (n : nat) (lower : bool) (src ptr : Z) (m : list Z) : option (Z * list Z) :=
  match n with
  | O => Some (ptr, m)
  | S n =>
    c ← getb m src;
    if c =? 32 then Some (ptr, m)
    else
      m ← setb m ptr (if lower then tolower c else c);
      sfn_copy n lower (src + 1) (ptr + 1) m
  end.

Definition sfn_entry (e fn : Z) (m : list Z) : option (list Z) :=
  lcase ← getb m (e + 12);
  '(ptr, m) ← sfn_copy 8 (has lcase 0x08) e fn m;
  ext0 ← getb m (e + 8);
  '(ptr, m) ← (if ext0 =? 32 then Some (ptr, m)
    else
      m ← setb m ptr 46;
      lcase ← getb m (e + 12);
      sfn_copy 3 (has lcase 0x10) (e + 8) (ptr + 1) m);
  setb m ptr 0.

Fixpoint parse_dentry_loop (fuel : nat) (p : vsffat_dentry_parser_t) (m : list Z)
    : option (bool * vsffat_dentry_parser_t * list Z) :=
  match fuel with
  | O => None
  | S fuel =>
    let at_ e l := {| entry := e; entry_num := u16 (entry_num p - 1); lfn := l;
      filename := filename p |} in
    if entry_num p =? 0 then Some (false, at_ (entry p) (lfn p), m)
    else
      let e := entry p in
      c ← getb m e;
      if c =? 0 then Some (false, at_ e (lfn p), m)
      else if negb (c =? 0xE5) then
        attr ← getb m (e + 11);
        if attr =? FATFS_FILEATTR_LONGNAME then
          '(index, m) ← lfn_entry e (filename p) m;
          parse_dentry_loop fuel (at_ (e + 32) (Z.land index 0x0F)) m
        else if negb (attr =? VSFILE_ATTR_VOLUMID) then
          if lfn p =? 1 then Some (true, at_ e 0, m)
          else m ← sfn_entry e (filename p) m; Some (true, at_ e 0, m)
        else parse_dentry_loop fuel (at_ (e + 32) (lfn p)) m
      else parse_dentry_loop fuel (at_ (e + 32) (if 0 <? lfn p then 0 else lfn p)) m
  end.

(** Whether a file was found; then [entry] is its short entry. *)
Definition vsffat_parse_dentry_fat (p : vsffat_dentry_parser_t) (m : list Z) :=
  parse_dentry_loop (S (Z.to_nat (entry_num p))) p m.

(** "A~1" ... a name of two entries. *)
Example is_LFN_examples :
  vsffat_is_LFN [97; 46; 98] = Some false ∧ vsffat_is_LFN [65; 98; 46; 99] = Some true ∧
  vsffat_is_LFN [46] = Some false ∧ vsffat_is_LFN [46; 46] = Some false.
Proof. by vm_compute. Qed.

(** A name without a dot is taken for its own extension, and so for a long
    name. *)
Example no_extension_is_long_wrong : vsffat_is_LFN [68; 79; 67] = Some true.
Proof. by vm_compute. Qed.
