(* ===== verification/Fakefat.v ===== *)
(** * Fakefat: a FAT32 volume made on demand from a tree of files
    (file/fs/fakefs/fakefat32/fakefat32.c)

    A memory driver that keeps no image: each sector that is read is made
    from the tree of files, boot sector, FATs, directories and data; each
    sector that is written changes the file it belongs to.

    Objects are at addresses of [ff_files], the contents of memory files at
    addresses of [ff_bufs]; the buffer of a transfer is a range of a memory
    [m], and functions take its address.  [fakefat32_mbr] is the template of
    the boot sector, which the host can overwrite.  A callback that is not
    one of this file's goes to [user_cb]. *)

From S2P Require Import Prelude Chain Endian Vsfmal Vsfile Vsffat.

(** ** Data (fakefat32.h) *)

(** The packed struct [record]. *)
Record fat_record_t := {
  CrtTimeTenth : Z; CrtTime : Z; CrtData : Z; LstAccData : Z;
  FstClusHI : Z; WrtTime : Z; WrtData : Z; FstClusLO : Z }.

Record fakefat32_file_t := {
  memfile : vsfile_memfile_t; cb_read : Z; cb_write : Z;
  first_cluster : Z; record : fat_record_t }.

(** [root] is the address of the two elements of [root]. *)
Record fakefat32_param_t := {
  sector_size : Z; sector_number : Z; sectors_per_cluster : Z;
  volume_id : Z; disk_id : Z; root : Z }.

(** [mal_param] is [mal->param]. *)
Record fakefat32 := {
  ff_files : gmap Z fakefat32_file_t; ff_bufs : gmap Z (list Z);
  fakefat32_mbr : list Z;
  ff_params : gmap Z fakefat32_param_t; mal_param : gmap Z Z }.

(** [sizeof(struct fakefat32_file_t)]: what [file++] adds. *)
Definition FILE_SIZE : Z := 72.

(** The addresses of [fakefat32_fs_op], [fakefat32_dir_read] and
    [fakefat32_dir_write]. *)
Definition FAKEFAT32_FS_OP : Z := 1.
Definition DIR_READ_FN : Z := 1.
Definition DIR_WRITE_FN : Z := 2.

Definition FAKEFAT32_FILEATTR_LONGNAME : Z :=
  Z.lor (Z.lor (Z.lor VSFILE_ATTR_READONLY VSFILE_ATTR_HIDDEN) VSFILE_ATTR_SYSTEM)
    VSFILE_ATTR_VOLUMID.
Definition FAKEFAT32_NAMEATTR_NAMELOWERCASE : Z := 0x08.
Definition FAKEFAT32_NAMEATTR_EXTLOWERCASE : Z := 0x10.

Definition FAT32_FAT_FILEEND : Z := 0x0FFFFFFF.
Definition FAT32_FAT_START : Z := 0x0FFFFFF8.
Definition FAT32_FAT_INVALID : Z := 0xFFFFFFFF.

(** The initial value of [fakefat32_mbr]; its zeros from byte 379 on are counted. *)
Definition fakefat32_mbr_init : list Z := [
  0xEB; 0x58; 0x90; 0x4D; 0x53; 0x44; 0x4F; 0x53; 0x35; 0x2E; 0x30; 0x00; 0x00; 0x00; 0x10; 0x00;
  0x02; 0x00; 0x00; 0x00; 0x00; 0xF8; 0x00; 0x00; 0x3F; 0x00; 0xFF; 0x00; 0x40; 0x00; 0x00; 0x00;
  0x00; 0x00; 0x00; 0x00; 0x00; 0x00; 0x00; 0x00; 0x00; 0x00; 0x00; 0x00; 0x02; 0x00; 0x00; 0x00;
  0x01; 0x00; 0x06; 0x00; 0x00; 0x00; 0x00; 0x00; 0x00; 0x00; 0x00; 0x00; 0x00; 0x00; 0x00; 0x00;
  0x00; 0x00; 0x29; 0x00; 0x00; 0x00; 0x00; 0x4E; 0x4F; 0x20; 0x4E; 0x41; 0x4D; 0x45; 0x20; 0x20;
  0x20; 0x20; 0x46; 0x41; 0x54; 0x33; 0x32; 0x20; 0x20; 0x20; 0x33; 0xC9; 0x8E; 0xD1; 0xBC; 0xF4;
  0x7B; 0x8E; 0xC1; 0x8E; 0xD9; 0xBD; 0x00; 0x7C; 0x88; 0x4E; 0x02; 0x8A; 0x56; 0x40; 0xB4; 0x08;
  0xCD; 0x13; 0x73; 0x05; 0xB9; 0xFF; 0xFF; 0x8A; 0xF1; 0x66; 0x0F; 0xB6; 0xC6; 0x40; 0x66; 0x0F;
  0xB6; 0xD1; 0x80; 0xE2; 0x3F; 0xF7; 0xE2; 0x86; 0xCD; 0xC0; 0xED; 0x06; 0x41; 0x66; 0x0F; 0xB7;
  0xC9; 0x66; 0xF7; 0xE1; 0x66; 0x89; 0x46; 0xF8; 0x83; 0x7E; 0x16; 0x00; 0x75; 0x38; 0x83; 0x7E;
  0x2A; 0x00; 0x77; 0x32; 0x66; 0x8B; 0x46; 0x1C; 0x66; 0x83; 0xC0; 0x0C; 0xBB; 0x00; 0x80; 0xB9;
  0x01; 0x00; 0xE8; 0x2B; 0x00; 0xE9; 0x48; 0x03; 0xA0; 0xFA; 0x7D; 0xB4; 0x7D; 0x8B; 0xF0; 0xAC;
  0x84; 0xC0; 0x74; 0x17; 0x3C; 0xFF; 0x74; 0x09; 0xB4; 0x0E; 0xBB; 0x07; 0x00; 0xCD; 0x10; 0xEB;
  0xEE; 0xA0; 0xFB; 0x7D; 0xEB; 0xE5; 0xA0; 0xF9; 0x7D; 0xEB; 0xE0; 0x98; 0xCD; 0x16; 0xCD; 0x19;
  0x66; 0x60; 0x66; 0x3B; 0x46; 0xF8; 0x0F; 0x82; 0x4A; 0x00; 0x66; 0x6A; 0x00; 0x66; 0x50; 0x06;
  0x53; 0x66; 0x68; 0x10; 0x00; 0x01; 0x00; 0x80; 0x7E; 0x02; 0x00; 0x0F; 0x85; 0x20; 0x00; 0xB4;
  0x41; 0xBB; 0xAA; 0x55; 0x8A; 0x56; 0x40; 0xCD; 0x13; 0x0F; 0x82; 0x1C; 0x00; 0x81; 0xFB; 0x55;
  0xAA; 0x0F; 0x85; 0x14; 0x00; 0xF6; 0xC1; 0x01; 0x0F; 0x84; 0x0D; 0x00; 0xFE; 0x46; 0x02; 0xB4;
  0x42; 0x8A; 0x56; 0x40; 0x8B; 0xF4; 0xCD; 0x13; 0xB0; 0xF9; 0x66; 0x58; 0x66; 0x58; 0x66; 0x58;
  0x66; 0x58; 0xEB; 0x2A; 0x66; 0x33; 0xD2; 0x66; 0x0F; 0xB7; 0x4E; 0x18; 0x66; 0xF7; 0xF1; 0xFE;
  0xC2; 0x8A; 0xCA; 0x66; 0x8B; 0xD0; 0x66; 0xC1; 0xEA; 0x10; 0xF7; 0x76; 0x1A; 0x86; 0xD6; 0x8A;
  0x56; 0x40; 0x8A; 0xE8; 0xC0; 0xE4; 0x06; 0x0A; 0xCC; 0xB8; 0x01; 0x02; 0xCD; 0x13; 0x66; 0x61;
  0x0F; 0x82; 0x54; 0xFF; 0x81; 0xC3; 0x00; 0x02; 0x66; 0x40; 0x49; 0x0F; 0x85; 0x71; 0xFF; 0xC3;
  0x4E; 0x54; 0x4C; 0x44; 0x52; 0x20; 0x20; 0x20; 0x20; 0x20; 0x20] ++
  replicate 49 0x00 ++ [
  0x0D; 0x0A; 0x52; 0x65; 0x6D; 0x6F; 0x76; 0x65; 0x20; 0x64; 0x69; 0x73; 0x6B; 0x73; 0x20; 0x6F;
  0x72; 0x20; 0x6F; 0x74; 0x68; 0x65; 0x72; 0x20; 0x6D; 0x65; 0x64; 0x69; 0x61; 0x2E; 0xFF; 0x0D;
  0x0A; 0x44; 0x69; 0x73; 0x6B; 0x20; 0x65; 0x72; 0x72; 0x6F; 0x72; 0xFF; 0x0D; 0x0A; 0x50; 0x72;
  0x65; 0x73; 0x73; 0x20; 0x61; 0x6E; 0x79; 0x20; 0x6B; 0x65; 0x79; 0x20; 0x74; 0x6F; 0x20; 0x72;
  0x65; 0x73; 0x74; 0x61; 0x72; 0x74; 0x0D; 0x0A; 0x00; 0x00; 0x00; 0x00; 0x00; 0xAC; 0xCB; 0xD8;
  0x00; 0x00; 0x55; 0xAA].

(** ** Updates *)

Definition upd_file (g : vsfile_t → vsfile_t) (f : fakefat32_file_t) : fakefat32_file_t :=
  {| memfile := {| mfile := g (mfile (memfile f)); memptr := memptr (memfile f);
       child_size := child_size (memfile f) |};
     cb_read := cb_read f; cb_write := cb_write f; first_cluster := first_cluster f;
     record := record f |}.

Definition set_name (v : option (list Z)) : fakefat32_file_t → fakefat32_file_t :=
  upd_file (λ f, {| f_name := v; f_size := f_size f; f_attr := f_attr f; f_op := f_op f;
    f_parent := f_parent f |}).
Definition set_size (v : Z) : fakefat32_file_t → fakefat32_file_t :=
  upd_file (λ f, {| f_name := f_name f; f_size := v; f_attr := f_attr f; f_op := f_op f;
    f_parent := f_parent f |}).
Definition set_attr (v : Z) : fakefat32_file_t → fakefat32_file_t :=
  upd_file (λ f, {| f_name := f_name f; f_size := f_size f; f_attr := v; f_op := f_op f;
    f_parent := f_parent f |}).
Definition set_op (v : Z) : fakefat32_file_t → fakefat32_file_t :=
  upd_file (λ f, {| f_name := f_name f; f_size := f_size f; f_attr := f_attr f; f_op := v;
    f_parent := f_parent f |}).
Definition set_parent (v : Z) : fakefat32_file_t → fakefat32_file_t :=
  upd_file (λ f, {| f_name := f_name f; f_size := f_size f; f_attr := f_attr f; f_op := f_op f;
    f_parent := v |}).

Definition set_child_size (v : Z) (f : fakefat32_file_t) : fakefat32_file_t :=
  {| memfile := {| mfile := mfile (memfile f); memptr := memptr (memfile f); child_size := v |};
     cb_read := cb_read f; cb_write := cb_write f; first_cluster := first_cluster f;
     record := record f |}.
Definition set_cb (r w : Z) (f : fakefat32_file_t) : fakefat32_file_t :=
  {| memfile := memfile f; cb_read := r; cb_write := w; first_cluster := first_cluster f;
     record := record f |}.
Definition set_first_cluster (v : Z) (f : fakefat32_file_t) : fakefat32_file_t :=
  {| memfile := memfile f; cb_read := cb_read f; cb_write := cb_write f; first_cluster := v;
     record := record f |}.
Definition set_record (v : fat_record_t) (f : fakefat32_file_t) : fakefat32_file_t :=
  {| memfile := memfile f; cb_read := cb_read f; cb_write := cb_write f;
     first_cluster := first_cluster f; record := v |}.

(** [r.FstClusHI = (c >> 16) & 0xFFFF; r.FstClusLO = (c >> 0) & 0xFFFF]. *)
Definition set_FstClus (c : Z) (r : fat_record_t) : fat_record_t :=
  {| CrtTimeTenth := CrtTimeTenth r; CrtTime := CrtTime r; CrtData := CrtData r;
     LstAccData := LstAccData r; FstClusHI := Z.land (Z.shiftr c 16) 0xFFFF;
     WrtTime := WrtTime r; WrtData := WrtData r; FstClusLO := Z.land (Z.shiftr c 0) 0xFFFF |}.

(** The bytes of a [record] in memory, and the [record] that bytes make. *)
Definition record_bytes (r : fat_record_t) : list Z :=
  le_bytes 1 (CrtTimeTenth r) ++ le_bytes 2 (CrtTime r) ++ le_bytes 2 (CrtData r) ++
  le_bytes 2 (LstAccData r) ++ le_bytes 2 (FstClusHI r) ++ le_bytes 2 (WrtTime r) ++
  le_bytes 2 (WrtData r) ++ le_bytes 2 (FstClusLO r).

Definition record_of (b : list Z) : fat_record_t :=
  let field o n := le_value (take n (drop o b)) in
  {| CrtTimeTenth := field 0 1; CrtTime := field 1 2; CrtData := field 3 2;
     LstAccData := field 5 2; FstClusHI := field 7 2; WrtTime := field 9 2;
     WrtData := field 11 2; FstClusLO := field 13 2 |}%nat.

Definition set_files (s : fakefat32) (fs : gmap Z fakefat32_file_t) : fakefat32 :=
  {| ff_files := fs; ff_bufs := ff_bufs s; fakefat32_mbr := fakefat32_mbr s;
     ff_params := ff_params s; mal_param := mal_param s |}.
Definition set_bufs (s : fakefat32) (bs : gmap Z (list Z)) : fakefat32 :=
  {| ff_files := ff_files s; ff_bufs := bs; fakefat32_mbr := fakefat32_mbr s;
     ff_params := ff_params s; mal_param := mal_param s |}.
Definition set_mbr (s : fakefat32) (b : list Z) : fakefat32 :=
  {| ff_files := ff_files s; ff_bufs := ff_bufs s; fakefat32_mbr := b;
     ff_params := ff_params s; mal_param := mal_param s |}.

(** Change the object at [a]; [None] when there is none. *)
Definition modify (fs : gmap Z fakefat32_file_t) (a : Z) (g : fakefat32_file_t → fakefat32_file_t)
    : option (gmap Z fakefat32_file_t) :=
  f ← fs !! a; Some (<[a := g f]> fs).

(** ** Memory *)

(** [memcpy((uint8_t * )a, src, length src)]. *)
Definition put (m : list Z) (a : Z) (src : list Z) : option (list Z) :=
  if decide (0 ≤ a) then memcpy m (Z.to_nat a) src else None.

(** [memset(a, v, n)]. *)
Definition memset (m : list Z) (a v n : Z) : option (list Z) := put m a (replicate (Z.to_nat n) v).

(** A byte-order accessor at address [a]. *)
Definition get_at (get : list Z → option Z) (m : list Z) (a : Z) : option Z :=
  if decide (0 ≤ a) then get (drop (Z.to_nat a) m) else None.

Definition set_at (set : list Z → Z → option (list Z)) (m : list Z) (a v : Z) : option (list Z) :=
  if decide (0 ≤ a) then
    t ← set (drop (Z.to_nat a) m) v; Some (take (Z.to_nat a) m ++ t)
  else None.

(** An unsigned division; by zero it is undefined. *)
Definition udiv (a b : Z) : option Z := if b =? 0 then None else Some (a / b).

(** ** Helper functions *)

Fixpoint find_first_alphabet (str : list Z) : Z :=
  match str with
  | [] => 0
  | c :: str => if isalpha c then c else find_first_alphabet str
  end.

(** At [d] with [n] bytes to go: the end of [src] is filled up. *)
Fixpoint strncpy_fill (n : nat) (d : Z) (src : list Z) (fill : Z) (m : list Z) : option (list Z) :=
  match n with
  | O => Some m
  | S n' =>
    match src with
    | [] => memset m d fill (Z.of_nat n)
    | c :: src => m ← setb m d c; strncpy_fill n' (d + 1) src fill m
    end
  end.

(** The NUL at the end of [src] is copied and ends the copy. *)
Fixpoint memncpy_toupper (n : nat) (d : Z) (src : list Z) (m : list Z) : option (list Z) :=
  match n with
  | O => Some m
  | S n =>
    match src with
    | [] => setb m d 0
    | c :: src => m ← setb m d (toupper c); memncpy_toupper n (d + 1) src m
    end
  end.

(** ** The boot sector template as parameters *)

Definition FAT32_RES_SECTORS (mbr : list Z) : option Z := get_at GET_U16_LSBFIRST mbr 0x0E.
Definition FAT32_FAT_NUM (mbr : list Z) : option Z := getb mbr 0x10.
Definition FAT32_HIDDEN_SECTORS (mbr : list Z) : option Z := get_at GET_U32_LSBFIRST mbr 0x1C.
Definition FAT32_ROOT_CLUSTER (mbr : list Z) : option Z := get_at GET_U32_LSBFIRST mbr 0x2C.
Definition FAT32_FSINFO_SECTOR (mbr : list Z) : option Z := getb mbr 0x30.
Definition FAT32_BACKUP_SECTOR (mbr : list Z) : option Z := get_at GET_U16_LSBFIRST mbr 0x32.

Definition fakefat32_calc_fat_sectors (param : fakefat32_param_t) (mbr : list Z) : option Z :=
  rc ← FAT32_ROOT_CLUSTER mbr;
  q ← udiv (sector_number param) (sectors_per_cluster param);
  n ← udiv (u32 ((q + 1 + rc) * 4)) (sector_size param);
  Some (u32 (n + 1)).

(** ** The tree of files *)

Definition cluster_size_of (param : fakefat32_param_t) : Z :=
  sector_size param * sectors_per_cluster param.

(** [((uint64_t)size + cluster_size - 1) / cluster_size]. *)
Definition clusters_of (param : fakefat32_param_t) (size : Z) : option Z :=
  let cluster_size := cluster_size_of param in
  n ← udiv (u64 (size + cluster_size - 1)) cluster_size; Some (u32 n).

(** The address of the file that has the cluster, NULL when none has. *)
Fixpoint fakefat32_get_file_by_cluster (fuel : nat) (param : fakefat32_param_t)
    (fs : gmap Z fakefat32_file_t) (cur_file cluster : Z) : option Z :=
  match fuel with
  | O => None
  | S fuel =>
    f ← fs !! cur_file;
    let rawfile := mfile (memfile f) in
    clusters ← clusters_of param (f_size rawfile);
    let cluster_start := first_cluster f in
    let cluster_end := u32 (cluster_start + clusters) in
    if (cluster_start <=? cluster) && (cluster <? cluster_end) then Some cur_file
    else
      result ← (if negb (memptr (memfile f) =? NULL) && has (f_attr rawfile) VSFILE_ATTR_DIRECTORY
        then fakefat32_get_file_by_cluster fuel param fs (memptr (memfile f)) cluster
        else Some NULL);
      if negb (result =? NULL) then Some result
      else
        let cur_file := cur_file + FILE_SIZE in
        f ← fs !! cur_file;
        match f_name (mfile (memfile f)) with
        | Some _ => fakefat32_get_file_by_cluster fuel param fs cur_file cluster
        | None => Some NULL
        end
  end.

(** Files are visited once: there is fuel for all. *)
Definition file_fuel (fs : gmap Z fakefat32_file_t) : nat := S (size fs).

Definition fakefat32_file_is_longname (file : fakefat32_file_t) : option bool :=
  name ← f_name (mfile (memfile file)); vsffat_is_LFN name.

Definition fakefat32_calc_longname_len (file : fakefat32_file_t) : Z :=
  match f_name (mfile (memfile file)) with Some name => strlen name | None => 0 end.

(** Whether the file has entries for a long name; a volume label has none. *)
Definition has_longname (file : fakefat32_file_t) : option bool :=
  if f_attr (mfile (memfile file)) =? VSFILE_ATTR_VOLUMID then Some false
  else fakefat32_file_is_longname file.

Fixpoint calc_dir_loop (fuel : nat) (fs : gmap Z fakefat32_file_t) (file size : Z) : option Z :=
  match fuel with
  | O => None
  | S fuel =>
    f ← fs !! file;
    match f_name (mfile (memfile f)) with
    | None => Some size
    | Some _ =>
      long ← has_longname f;
      let size := if (long : bool)
        then u32 (size + 0x20 * (u32 (fakefat32_calc_longname_len f + 12) / 13)) else size in
      calc_dir_loop fuel fs (file + FILE_SIZE) (u32 (size + 0x20))
    end
  end.

Definition fakefat32_calc_dir_clusters (param : fakefat32_param_t)
    (fs : gmap Z fakefat32_file_t) (file : Z) : option Z :=
  let cluster_size := cluster_size_of param in
  if file =? NULL then Some 0
  else
    f ← fs !! file;
    if negb (has (f_attr (mfile (memfile f))) VSFILE_ATTR_DIRECTORY) ||
       (memptr (memfile f) =? NULL) then Some 0
    else
      size ← calc_dir_loop (file_fuel fs) fs (memptr (memfile f)) 0;
      udiv (u32 (size + cluster_size - 1)) cluster_size.

Definition DOT : list Z := [46].
Definition DOTDOT : list Z := [46; 46].

(** The part of [fakefat32_init_recursion] before the clusters are given out:
    the number of clusters of the file, and the file's own fields. *)
Definition init_file (param : fakefat32_param_t) (file : Z) (fs : gmap Z fakefat32_file_t)
    : option (Z * gmap Z fakefat32_file_t) :=
  fs ← modify fs file (λ f, set_child_size FILE_SIZE (set_op FAKEFAT32_FS_OP f));
  f ← fs !! file;
  let rawfile := mfile (memfile f) in
  if has (f_attr rawfile) VSFILE_ATTR_DIRECTORY then
    name ← f_name rawfile;
    '(clusters, fs) ← (if strcmp_eq name DOT then
        parent ← fs !! f_parent rawfile;
        fs ← modify fs file (set_first_cluster (first_cluster parent));
        Some (0, fs)
      else if strcmp_eq name DOTDOT then Some (0, fs)
      else
        clusters ← fakefat32_calc_dir_clusters param fs file;
        fs ← modify fs file (set_size (u32 (clusters * cluster_size_of param)));
        Some (clusters, fs));
    fs ← modify fs file (set_cb DIR_READ_FN DIR_WRITE_FN);
    Some (clusters, fs)
  else if f_attr rawfile =? VSFILE_ATTR_VOLUMID then Some (0, fs)
  else clusters ← clusters_of param (f_size rawfile); Some (clusters, fs).

Definition give_clusters (file clusters cur : Z) (fs : gmap Z fakefat32_file_t)
    : option (Z * gmap Z fakefat32_file_t) :=
  if clusters =? 0 then Some (cur, fs)
  else
    fs ← modify fs file (λ f, set_record (set_FstClus cur (record f)) (set_first_cluster cur f));
    Some (u32 (cur + clusters), fs).

(** The result, the next free cluster and the objects. *)
Fixpoint fakefat32_init_recursion (fuel : nat) (param : fakefat32_param_t) (file cur : Z)
    (fs : gmap Z fakefat32_file_t) {struct fuel} : option (Z * Z * gmap Z fakefat32_file_t) :=
  match fuel with
  | O => None
  | S fuel =>
    if file =? NULL then Some (VSFERR_FAIL, cur, fs)
    else
      '(clusters, fs) ← init_file param file fs;
      '(cur, fs) ← give_clusters file clusters cur fs;
      f ← fs !! file;
      if negb (memptr (memfile f) =? NULL) &&
         has (f_attr (mfile (memfile f))) VSFILE_ATTR_DIRECTORY
      then init_children fuel param file (memptr (memfile f)) cur fs
      else Some (VSFERR_NONE, cur, fs)
  end
with init_children (fuel : nat) (param : fakefat32_param_t) (parent file cur : Z)
    (fs : gmap Z fakefat32_file_t) {struct fuel} : option (Z * Z * gmap Z fakefat32_file_t) :=
  match fuel with
  | O => None
  | S fuel =>
    f ← fs !! file;
    match f_name (mfile (memfile f)) with
    | None => Some (VSFERR_NONE, cur, fs)
    | Some _ =>
      fs ← modify fs file (set_parent parent);
      '(err, cur, fs) ← fakefat32_init_recursion fuel param file cur fs;
      if err =? 0 then init_children fuel param parent (file + FILE_SIZE) cur fs
      else Some (VSFERR_FAIL, cur, fs)
    end
  end.

(** Each file takes one call of each function. *)
Definition init_fuel (fs : gmap Z fakefat32_file_t) : nat := (2 * size fs + 2)%nat.

Definition fakefat32_init (param : fakefat32_param_t) (s : fakefat32) : option (Z * fakefat32) :=
  f ← ff_files s !! root param;
  if f_op (mfile (memfile f)) =? NULL then
    rc ← FAT32_ROOT_CLUSTER (fakefat32_mbr s);
    fs ← modify (ff_files s) (root param)
      (λ f, set_parent NULL (set_attr VSFILE_ATTR_DIRECTORY f));
    fs ← modify fs (root param + FILE_SIZE) (set_name None);
    '(err, _, fs) ← fakefat32_init_recursion (init_fuel fs) param (root param) rc fs;
    Some (err, set_files s fs)
  else Some (VSFERR_NONE, s).

(** ** Directories *)

(** The 11 bytes of a short name.  The extension is never NULL. *)
Definition fakefat32_get_shortname (name : list Z) : option (list Z) :=
  ext ← vsfile_getfileext name;
  let extlen := strlen ext in
  let shortname := replicate 11 32 in
  if strcmp_eq name DOT then setb shortname 0 46
  else if strcmp_eq name DOTDOT then s ← setb shortname 1 46; setb s 0 46
  else
    long ← vsffat_is_LFN name;
    shortname ← (if negb (long : bool) then
        memncpy_toupper (Z.to_nat (u32 (strlen name - (extlen + 1)))) 0 name shortname
      else
        let n := Z.min (strlen name) 6 in
        s ← memncpy_toupper (Z.to_nat n) 0 name shortname;
        s ← setb s n 126;
        setb s (n + 1) 49);
    memncpy_toupper (Z.to_nat (Z.min extlen 3)) 8 ext shortname.

(** The number of entries of a long name. *)
Definition longname_entry_num (name : list Z) : Z := u8 ((strlen name + 12) / 13).

(** What the search for the entry at [addr] gives: the file and the index of
    the entry in its long name, or nothing when the directory ends before. *)
Fixpoint dir_seek (fuel : nat) (fs : gmap Z fakefat32_file_t) (file addr : Z)
    : option (option (Z * Z)) :=
  match fuel with
  | O => None
  | S fuel =>
    if addr =? 0 then Some (Some (file, 0))
    else
      f ← fs !! file;
      match f_name (mfile (memfile f)) with
      | None => Some None
      | Some name =>
        long ← has_longname f;
        let current_entry_size := if (long : bool) then (1 + longname_entry_num name) * 0x20 else 0x20 in
        if addr <? current_entry_size then Some (Some (file, u8 (addr / 0x20)))
        else dir_seek fuel fs (file + FILE_SIZE) (addr - current_entry_size)
      end
  end.

(** The checksum of a short name in an entry of a long one. *)
Definition shortname_checksum (shortname : list Z) : Z :=
  foldl (λ c x, u8 (Z.lor (Z.shiftl c 7) (Z.shiftr c 1) + x)) 0 shortname.

(** The characters of the name from [i] on, into the fields of the entry at
    [buff] from [j] on; the next [j]. *)
Fixpoint longname_chars (fuel : nat) (name : list Z) (i j buff : Z) (m : list Z)
    : option (Z * list Z) :=
  match fuel with
  | O => None
  | S fuel =>
    if (i <? strlen name) && (j <? 32) then
      c ← getb name i;
      m ← setb m (buff + j) c;
      m ← setb m (buff + j + 1) 0;
      let j := j + 2 in
      let j := if 0x0B =? j then 0x0E else if 0x1A =? j then 0x1C else j in
      longname_chars fuel name (u32 (i + 1)) j buff m
    else Some (j, m)
  end.

(** The characters of the entry of index [index], with a terminator where there
    is room. *)
Definition longname_text (name : list Z) (index buff : Z) (m : list Z) : option (list Z) :=
  '(j, m) ← longname_chars 14 name (u32 (13 * (Z.land index (Z.lnot 0x40) - 1))) 1 buff m;
  if j <? 32 then m ← setb m (buff + j + 1) 0; setb m (buff + j) 0 else Some m.

(** The entry of a long name at [buff], of index [index]. *)
Definition longname_entry (name shortname : list Z) (index buff : Z) (m : list Z) : option (list Z) :=
  m ← memset m buff 0xFF 0x20;
  m ← setb m (buff + 0x0B) FAKEFAT32_FILEATTR_LONGNAME;
  m ← setb m (buff + 0x1B) 0;
  m ← setb m (buff + 0x1A) 0;
  m ← setb m (buff + 0x0C) 0;
  m ← setb m (buff + 0x0D) (shortname_checksum shortname);
  m ← setb m buff index;
  longname_text name index buff m.

(** The entries of a long name while there is room: the next address, the room
    left and the memory. *)
Fixpoint longname_loop (fuel : nat) (name shortname : list Z) (index buff page_size : Z) (m : list Z)
    : option (Z * Z * list Z) :=
  match fuel with
  | O => None
  | S fuel =>
    if (page_size =? 0) || (index =? 0) then Some (buff, page_size, m)
    else
      m ← longname_entry name shortname index buff m;
      longname_loop fuel name shortname (u8 (Z.land index (Z.lnot 0x40) - 1)) (buff + 0x20)
        (u32 (page_size - 0x20)) m
  end.

(** The index that the entries of a long name start from. *)
Definition longname_start (name : list Z) (offset : Z) : Z :=
  let index := longname_entry_num name in
  let index := if 0x40 <=? index then 0x3F else index in
  if offset =? 0 then Z.lor index 0x40 else u8 (index - offset).

(** The cluster that the entries "." and ".." stand for. *)
Definition fix_dots (file_dir file : Z) (name : list Z) (fs : gmap Z fakefat32_file_t)
    : option (gmap Z fakefat32_file_t) :=
  d ← fs !! file_dir;
  if strcmp_eq name DOT then
    modify fs file (λ f, set_record (set_FstClus (first_cluster d) (record f)) f)
  else if strcmp_eq name DOTDOT && negb (f_parent (mfile (memfile d)) =? NULL) then
    p ← fs !! f_parent (mfile (memfile d));
    if negb (f_parent (mfile (memfile p)) =? NULL) then
      modify fs file (λ f, set_record (set_FstClus (first_cluster p) (record f)) f)
    else Some fs
  else Some fs.

(** [buff[12]]: which parts of a short name are in lower case. *)
Definition name_attr (name : list Z) : option Z :=
  ext ← vsfile_getfileext name;
  Some (Z.lor (if islower (find_first_alphabet name) then FAKEFAT32_NAMEATTR_NAMELOWERCASE else 0)
    (if islower (find_first_alphabet ext) then FAKEFAT32_NAMEATTR_EXTLOWERCASE else 0)).

(** The short entry of the file at [buff]. *)
Definition shortname_entry (file_dir file : Z) (name shortname : list Z) (longname : bool) (buff : Z)
    (fs : gmap Z fakefat32_file_t) (m : list Z) : option (gmap Z fakefat32_file_t * list Z) :=
  f ← fs !! file;
  let rawfile := mfile (memfile f) in
  m ← put m buff shortname;
  m ← setb m (buff + 11) (u8 (f_attr rawfile));
  m ← setb m (buff + 12) 0;
  m ← (if negb longname then a ← name_attr name; setb m (buff + 12) a else Some m);
  m ← set_at SET_U32_LSBFIRST m (buff + 28)
    (if has (f_attr rawfile) VSFILE_ATTR_DIRECTORY then 0 else f_size rawfile);
  fs ← fix_dots file_dir file name fs;
  f ← fs !! file;
  m ← put m (buff + 13) (record_bytes (record f));
  Some (fs, m).

(** The second loop of [fakefat32_dir_read]. *)
Fixpoint dir_entries (fuel : nat) (file_dir file offset buff page_size : Z)
    (fs : gmap Z fakefat32_file_t) (m : list Z) : option (gmap Z fakefat32_file_t * list Z) :=
  match fuel with
  | O => None
  | S fuel =>
    if (page_size =? 0) || (file =? NULL) then Some (fs, m)
    else
      f ← fs !! file;
      match f_name (mfile (memfile f)) with
      | None => Some (fs, m)
      | Some name =>
        if VSFILE_ATTR_VOLUMID =? f_attr (mfile (memfile f)) then
          m ← strncpy_fill 11 buff name 32 m;
          m ← setb m (buff + 11) (u8 (f_attr (mfile (memfile f))));
          m ← memset m (buff + 12) 0 20;
          dir_entries fuel file_dir (file + FILE_SIZE) offset (buff + 0x20) (u32 (page_size - 0x20)) fs m
        else
          shortname ← fakefat32_get_shortname name;
          longname ← fakefat32_file_is_longname f;
          '(buff, page_size, m) ← (if (longname : bool) then
              longname_loop 65 name shortname (longname_start name offset) buff page_size m
            else Some (buff, page_size, m));
          if longname && (page_size =? 0) then Some (fs, m)
          else
            '(fs, m) ← shortname_entry file_dir file name shortname longname buff fs m;
            dir_entries fuel file_dir (file + FILE_SIZE) (if (longname : bool) then 0 else offset)
              (buff + 0x20) (u32 (page_size - 0x20)) fs m
      end
  end.

Definition fakefat32_dir_read (file addr buff page_size : Z) (s : fakefat32) (m : list Z)
    : option (Z * fakefat32 * list Z) :=
  m ← memset m buff 0 page_size;
  f ← ff_files s !! file;
  if negb (has (f_attr (mfile (memfile f))) VSFILE_ATTR_DIRECTORY) then Some (VSFERR_FAIL, s, m)
  else if memptr (memfile f) =? NULL then Some (VSFERR_NONE, s, m)
  else
    seek ← dir_seek (file_fuel (ff_files s)) (ff_files s) (memptr (memfile f)) addr;
    match seek with
    | None => Some (VSFERR_NONE, s, m)
    | Some (child, offset) =>
      '(fs, m) ← dir_entries (S (Z.to_nat page_size)) file child offset buff page_size (ff_files s) m;
      Some (VSFERR_NONE, set_files s fs, m)
    end.

(** The file of the directory with that name. *)
Fixpoint find_name (fuel : nat) (fs : gmap Z fakefat32_file_t) (file : Z) (filename : list Z)
    : option Z :=
  match fuel with
  | O => None
  | S fuel =>
    f ← fs !! file;
    match f_name (mfile (memfile f)) with
    | None => Some NULL
    | Some name =>
      if strcmp_eq name filename then Some file else find_name fuel fs (file + FILE_SIZE) filename
    end
  end.

(** The entry at [e] is the file's: what the host can change is taken over. *)
Definition take_entry (file_match e : Z) (fs : gmap Z fakefat32_file_t) (m : list Z)
    : option (gmap Z fakefat32_file_t) :=
  want_size ← get_at GET_U32_LSBFIRST m (e + 28);
  lo ← get_at GET_U16_LSBFIRST m (e + 26);
  hi ← get_at GET_U16_LSBFIRST m (e + 20);
  let want_first_cluster := u16 (lo + Z.shiftl hi 16) in
  f ← fs !! file_match;
  let rawfile := mfile (memfile f) in
  fs ← (if negb (has (f_attr rawfile) VSFILE_ATTR_DIRECTORY) && negb (f_size rawfile =? want_size)
    then modify fs file_match (set_size want_size) else Some fs);
  r ← read_at m (Z.to_nat (e + 13)) 15;
  modify fs file_match (λ f, set_record (record_of r) (set_first_cluster want_first_cluster f)).

Fixpoint dir_write_loop (fuel : nat) (file buff : Z) (p : vsffat_dentry_parser_t)
    (fs : gmap Z fakefat32_file_t) (m : list Z) : option (gmap Z fakefat32_file_t * list Z) :=
  match fuel with
  | O => None
  | S fuel =>
    if entry_num p =? 0 then Some (fs, m)
    else
      '(parsed, p, m) ← vsffat_parse_dentry_fat p m;
      if (parsed : bool) then
        name ← cstr m (filename p);
        file_match ← find_name (file_fuel fs) fs file name;
        fs ← (if file_match =? NULL then Some fs else take_entry file_match (entry p) fs m);
        dir_write_loop fuel file buff
          {| entry := entry p + 32; entry_num := entry_num p; lfn := lfn p; filename := buff |} fs m
      else Some (fs, m)
  end.

Definition fakefat32_dir_write (file buff page_size : Z) (s : fakefat32) (m : list Z)
    : option (Z * fakefat32 * list Z) :=
  f ← ff_files s !! file;
  let p := {| entry := buff; entry_num := u16 (Z.shiftr page_size 5); lfn := 0; filename := buff |} in
  '(fs, m) ← dir_write_loop (S (Z.to_nat (entry_num p))) (memptr (memfile f)) buff p (ff_files s) m;
  Some (VSFERR_NONE, set_files s fs, m).

(** ** The file system *)

Definition memfile_at (s : fakefat32) (a : Z) : option vsfile_memfile_t := memfile <$> ff_files s !! a.

(** [user_data] is the address of the parameters. *)
Definition fakefat32_fs_mount (user_data : Z) (s : fakefat32) : option (Z * fakefat32) :=
  param ← ff_params s !! user_data; fakefat32_init param s.

(** The new [user_data], the child and the result. *)
Definition fakefat32_getchild (user_data dir : Z) (name : option (list Z)) (idx : Z) (s : fakefat32)
    : option (Z * Z * Z) :=
  user_data ← (if dir =? NULL then root <$> ff_params s !! user_data else Some user_data);
  '(child, err) ← vsfile_memfs_getchild (memfile_at s) (file_fuel (ff_files s)) user_data dir name idx;
  Some (user_data, child, err).

(** ** The memory driver *)

Section driver.
(** The callbacks of the application: function, protothread, event, file,
    address, buffer, size. *)
Context (user_cb : Z → Z → Z → Z → Z → Z → Z → fakefat32 → list Z →
  option (Z * fakefat32 * list Z)).
Implicit Types (w : mworld fakefat32).

Definition call_read (fn pt evt file addr buff page_size : Z) (s : fakefat32) (m : list Z) :=
  if fn =? DIR_READ_FN then fakefat32_dir_read file addr buff page_size s m
  else user_cb fn pt evt file addr buff page_size s m.

Definition call_write (fn pt evt file addr buff page_size : Z) (s : fakefat32) (m : list Z) :=
  if fn =? DIR_WRITE_FN then fakefat32_dir_write file buff page_size s m
  else user_cb fn pt evt file addr buff page_size s m.

(** The memory of the protothread and its parameters. *)
Definition mal_of (pt : Z) w : option (Z * vsfmal_t * fakefat32_param_t) :=
  p ← pts w !! pt; mal ← mals w !! user_data p;
  a ← mal_param (dev w) !! user_data p; param ← ff_params (dev w) !! a;
  Some (user_data p, mal, param).

Definition fakefat32_mal_blocksize (mal addr size : Z) (op : vsfmal_op_t) w : option Z :=
  m ← mals w !! mal; Some (u32 (block_size (cap m))).

Definition fakefat32_mal_init (pt evt : Z) w : option (Z * mworld fakefat32) :=
  '(a, mal, param) ← mal_of pt w;
  hidden ← FAT32_HIDDEN_SECTORS (fakefat32_mbr (dev w));
  let w := set_mal w a (set_cap mal {| block_size := sector_size param;
    block_num := u32 (sector_number param + hidden) |}) in
  '(err, s) ← fakefat32_init param (dev w);
  Some (err, set_dev w s).

Definition fakefat32_mal_fini (pt evt : Z) w : option (Z * mworld fakefat32) :=
  Some (VSFERR_NONE, w).

(** Sector 0: the partition table. *)
Definition write_dpt (param : fakefat32_param_t) (hidden buff : Z) (m : list Z) : option (list Z) :=
  m ← set_at SET_U32_LSBFIRST m (buff + 0x1B8) (disk_id param);
  m ← setb m (buff + 0x1BE) 0x80;
  m ← setb m (buff + 0x1BF) 0x01;
  m ← setb m (buff + 0x1C0) 0x01;
  m ← setb m (buff + 0x1C1) 0x00;
  m ← setb m (buff + 0x1C2) 0x0B;
  m ← setb m (buff + 0x1C3) 0x01;
  m ← setb m (buff + 0x1C4) 0xFF;
  m ← setb m (buff + 0x1C5) 0xFF;
  m ← set_at SET_U32_LSBFIRST m (buff + 0x1C6) hidden;
  m ← set_at SET_U32_LSBFIRST m (buff + 0x1CA) (sector_number param);
  set_at SET_U16_LSBFIRST m (buff + 510) 0xAA55.

(** The boot sector. *)
Definition write_boot (param : fakefat32_param_t) (mbr : list Z) (fat_sectors buff : Z) (m : list Z)
    : option (list Z) :=
  m ← put m buff mbr;
  m ← set_at SET_U16_LSBFIRST m (buff + 0x0B) (sector_size param);
  m ← setb m (buff + 0x0D) (sectors_per_cluster param);
  m ← set_at SET_U32_LSBFIRST m (buff + 0x20) (sector_number param);
  m ← set_at SET_U32_LSBFIRST m (buff + 0x24) fat_sectors;
  set_at SET_U32_LSBFIRST m (buff + 0x43) (volume_id param).

Definition write_fsinfo (buff : Z) (m : list Z) : option (list Z) :=
  m ← set_at SET_U32_LSBFIRST m (buff + 0) 0x41615252;
  m ← set_at SET_U32_LSBFIRST m (buff + 484) 0x61417272;
  m ← set_at SET_U32_LSBFIRST m (buff + 488) 0xFFFFFFFF;
  set_at SET_U16_LSBFIRST m (buff + 510) 0xAA55.

(** [*buff32++ = v]. *)
Definition put32 (m : list Z) (buff32 v : Z) : option (list Z) := set_at SET_U32_LSBFIRST m buff32 v.

(** The entries before the root cluster. *)
Fixpoint fat_reserved (fuel : nat) (root_cluster cluster_index remain_size buff32 : Z) (m : list Z)
    : option (Z * Z * Z * list Z) :=
  match fuel with
  | O => None
  | S fuel =>
    if negb (remain_size =? 0) && (cluster_index <? root_cluster) then
      m ← put32 m buff32 (if 0 =? cluster_index then FAT32_FAT_START else FAT32_FAT_INVALID);
      fat_reserved fuel root_cluster (u32 (cluster_index + 1)) (u32 (remain_size - 4)) (buff32 + 4) m
    else Some (cluster_index, remain_size, buff32, m)
  end.

(** The entries of one file. *)
Fixpoint fat_file (fuel : nat) (file_clusters cluster_offset cluster_index remain_size buff32 : Z)
    (m : list Z) : option (Z * Z * Z * list Z) :=
  match fuel with
  | O => None
  | S fuel =>
    if negb (remain_size =? 0) && (cluster_offset <? file_clusters) then
      m ← put32 m buff32 (if cluster_offset =? u32 (file_clusters - 1) then FAT32_FAT_FILEEND
        else u32 (cluster_index + 1));
      fat_file fuel file_clusters (u32 (cluster_offset + 1)) (u32 (cluster_index + 1))
        (u32 (remain_size - 4)) (buff32 + 4) m
    else Some (cluster_index, remain_size, buff32, m)
  end.

(** The other entries. *)
Fixpoint fat_entries (fuel : nat) (param : fakefat32_param_t) (fs : gmap Z fakefat32_file_t)
    (cluster_index remain_size buff32 : Z) (m : list Z) : option (list Z) :=
  match fuel with
  | O => None
  | S fuel =>
    if remain_size =? 0 then Some m
    else
      file ← fakefat32_get_file_by_cluster (file_fuel fs) param fs (root param) cluster_index;
      if file =? NULL then
        m ← put32 m buff32 0;
        fat_entries fuel param fs (u32 (cluster_index + 1)) (u32 (remain_size - 4)) (buff32 + 4) m
      else
        f ← fs !! file;
        file_clusters ← clusters_of param (f_size (mfile (memfile f)));
        '(cluster_index, remain_size, buff32, m) ← fat_file (S (Z.to_nat remain_size)) file_clusters
          (u32 (cluster_index - first_cluster f)) cluster_index remain_size buff32 m;
        fat_entries fuel param fs cluster_index remain_size buff32 m
  end.

(** A sector of a FAT. *)
Definition write_fat (param : fakefat32_param_t) (fs : gmap Z fakefat32_file_t)
    (root_cluster fat_sector page_size buff : Z) (m : list Z) : option (list Z) :=
  let max_cluster := page_size / 4 in
  let fuel := S (Z.to_nat page_size) in
  '(cluster_index, remain_size, buff32, m) ←
    fat_reserved fuel root_cluster (u32 (fat_sector * max_cluster)) page_size buff m;
  fat_entries fuel param fs cluster_index remain_size buff32 m.

(** The file that has the sector, counted from the root cluster, and the
    sector's place in it. *)
Definition locate (param : fakefat32_param_t) (fs : gmap Z fakefat32_file_t)
    (root_cluster sectors_to_root : Z) : option (Z * Z) :=
  q ← udiv sectors_to_root (sectors_per_cluster param);
  file ← fakefat32_get_file_by_cluster (file_fuel fs) param fs (root param) (u32 (root_cluster + q));
  if file =? NULL then Some (NULL, 0)
  else
    f ← fs !! file;
    Some (file, u32 (sector_size param *
      (sectors_to_root - sectors_per_cluster param * (first_cluster f - root_cluster)))).

(** A sector of data: from the memory of the file, or from its callback. *)
Definition read_data (pt evt : Z) (param : fakefat32_param_t)
    (root_cluster sectors_to_root page_size buff : Z) (s : fakefat32) (m : list Z)
    : option (Z * fakefat32 * list Z) :=
  '(file, addr_offset) ← locate param (ff_files s) root_cluster sectors_to_root;
  if file =? NULL then Some (VSFERR_NONE, s, m)
  else
    f ← ff_files s !! file;
    let rawfile := mfile (memfile f) in
    if has (f_attr rawfile) VSFILE_ATTR_WRITEONLY then Some (VSFERR_NONE, s, m)
    else if negb (memptr (memfile f) =? NULL) && negb (has (f_attr rawfile) VSFILE_ATTR_DIRECTORY) then
      b ← ff_bufs s !! memptr (memfile f);
      '(src, _) ← vsfile_memfs_read (memfile f) b addr_offset page_size;
      m ← put m buff src;
      Some (VSFERR_NONE, s, m)
    else if negb (cb_read f =? NULL) then
      call_read (cb_read f) pt evt file addr_offset buff page_size s m
    else Some (VSFERR_NONE, s, m).

Definition fakefat32_mal_read (pt evt addr buff sz : Z) w : option (Z * mworld fakefat32) :=
  '(_, mal, param) ← mal_of pt w;
  let s := dev w in
  let mbr := fakefat32_mbr s in
  let page_size := u32 (block_size (cap mal)) in
  block_addr ← udiv (u32 addr) page_size;
  fat_sectors ← fakefat32_calc_fat_sectors param mbr;
  root_cluster ← FAT32_ROOT_CLUSTER mbr;
  hidden ← FAT32_HIDDEN_SECTORS mbr;
  res ← FAT32_RES_SECTORS mbr;
  fat_num ← FAT32_FAT_NUM mbr;
  backup ← FAT32_BACKUP_SECTOR mbr;
  fsinfo ← FAT32_FSINFO_SECTOR mbr;
  let fat_end := u32 (hidden + res + fat_num * fat_sectors) in
  m ← (if block_addr <? fat_end then memset (ram w) buff 0 page_size else Some (ram w));
  let done m := Some (VSFERR_NONE, set_ram w m) in
  if (0 <? hidden) && (0 =? block_addr) then m ← write_dpt param hidden buff m; done m
  else if (0 <? hidden) && (block_addr <? hidden) then done m
  else if (hidden =? block_addr) || (u32 (hidden + backup) =? block_addr) then
    m ← write_boot param mbr fat_sectors buff m; done m
  else if (u32 (hidden + fsinfo) =? block_addr) || (u32 (hidden + backup + fsinfo) =? block_addr) then
    m ← write_fsinfo buff m; done m
  else if (u32 (hidden + fsinfo + 1) =? block_addr) ||
          (u32 (hidden + backup + fsinfo + 1) =? block_addr) then
    m ← set_at SET_U16_MSBFIRST m (buff + 510) 0xAA55; done m
  else if block_addr <? u32 (hidden + res) then done m
  else if block_addr <? fat_end then
    fat_sector ← (if fat_sectors =? 0 then None
      else Some (u32 (block_addr - hidden - res) mod fat_sectors));
    m ← write_fat param (ff_files s) root_cluster fat_sector page_size buff m; done m
  else
    '(err, s, m) ← read_data pt evt param root_cluster
      (u32 (block_addr - hidden - res - fat_num * fat_sectors)) page_size buff s m;
    Some (err, set_dev (set_ram w m) s).

Definition fakefat32_mal_write (pt evt addr buff sz : Z) w : option (Z * mworld fakefat32) :=
  '(_, mal, param) ← mal_of pt w;
  let s := dev w in
  let mbr := fakefat32_mbr s in
  let page_size := u32 (block_size (cap mal)) in
  block_addr ← udiv (u32 addr) page_size;
  fat_sectors ← fakefat32_calc_fat_sectors param mbr;
  root_cluster ← FAT32_ROOT_CLUSTER mbr;
  hidden ← FAT32_HIDDEN_SECTORS mbr;
  res ← FAT32_RES_SECTORS mbr;
  fat_num ← FAT32_FAT_NUM mbr;
  backup ← FAT32_BACKUP_SECTOR mbr;
  let sectors_to_root := u32 (block_addr - hidden - res - fat_num * fat_sectors) in
  _ ← udiv sectors_to_root (sectors_per_cluster param);
  if block_addr <? u32 (hidden + res + fat_num * fat_sectors) then
    if (hidden =? block_addr) || (u32 (hidden + backup) =? block_addr) then
      src ← (if decide (0 ≤ buff) then read_at (ram w) (Z.to_nat buff) 512 else None);
      Some (VSFERR_NONE, set_dev w (set_mbr s src))
    else Some (VSFERR_NONE, w)
  else
    '(file, addr_offset) ← locate param (ff_files s) root_cluster sectors_to_root;
    if file =? NULL then Some (VSFERR_NONE, w)
    else
      f ← ff_files s !! file;
      let rawfile := mfile (memfile f) in
      if has (f_attr rawfile) VSFILE_ATTR_READONLY then Some (VSFERR_NONE, w)
      else if negb (memptr (memfile f) =? NULL) && negb (has (f_attr rawfile) VSFILE_ATTR_DIRECTORY) then
        b ← ff_bufs s !! memptr (memfile f);
        src ← (if decide (0 ≤ buff) then Some (drop (Z.to_nat buff) (ram w)) else None);
        '(b, _) ← vsfile_memfs_write (memfile f) b addr_offset page_size src;
        Some (VSFERR_NONE, set_dev w (set_bufs s (<[memptr (memfile f) := b]> (ff_bufs s))))
      else if negb (cb_write f =? NULL) then
        '(err, s, m) ← call_write (cb_write f) pt evt file addr_offset buff page_size s (ram w);
        Some (err, set_dev (set_ram w m) s)
      else Some (VSFERR_NONE, w).

Definition fakefat32_mal_drv : vsfmal_drv_t fakefat32 := {|
  drv_block_size := fakefat32_mal_blocksize;
  drv_init := Some fakefat32_mal_init;
  drv_fini := Some fakefat32_mal_fini;
  drv_erase_all := None;
  drv_erase := None;
  drv_read := Some fakefat32_mal_read;
  drv_write := Some fakefat32_mal_write |}.
End driver.

(** ** Lemmas on memory

    A memory is cut at the address of an access: what is before it stays as it
    is. *)

Lemma put_app (pre rest x : list Z) a :
  a = Z.of_nat (length pre) → (length x ≤ length rest)%nat →
  put (pre ++ rest) a x = Some (pre ++ x ++ drop (length x) rest).
Proof.
  intros -> Hx. unfold put. rewrite decide_True, Nat2Z.id by lia.
  rewrite memcpy_in by (rewrite length_app; lia). f_equal.
  rewrite <- (Nat.add_0_r (length pre)), list_inserts_app_r. f_equal.
  rewrite <- (take_drop (length x) rest) at 1. rewrite list_inserts_0_r; [done|].
  rewrite length_take. lia.
Qed.

Lemma memset_app (pre rest : list Z) a v n :
  a = Z.of_nat (length pre) → 0 ≤ n ≤ Z.of_nat (length rest) →
  memset (pre ++ rest) a v n = Some (pre ++ replicate (Z.to_nat n) v ++ drop (Z.to_nat n) rest).
Proof.
  intros -> Hn. unfold memset. rewrite put_app by (rewrite ?length_replicate; lia).
  by rewrite length_replicate.
Qed.

Lemma setb_app (pre e post : list Z) a k v :
  a = Z.of_nat (length pre) + k → 0 ≤ k < Z.of_nat (length e) →
  setb (pre ++ e ++ post) a v = Some (pre ++ <[Z.to_nat k := v]> e ++ post).
Proof.
  intros -> Hk. rewrite setb_in by (rewrite !length_app; lia). f_equal.
  replace (Z.to_nat (Z.of_nat (length pre) + k)) with (length pre + Z.to_nat k)%nat by lia.
  rewrite insert_app_r. by rewrite insert_app_l by lia.
Qed.

Lemma getb_in_app (pre e post : list Z) a k :
  a = Z.of_nat (length pre) + k → 0 ≤ k < Z.of_nat (length e) →
  getb (pre ++ e ++ post) a = e !! Z.to_nat k.
Proof.
  intros -> Hk. unfold getb. rewrite decide_True by lia.
  replace (Z.to_nat (Z.of_nat (length pre) + k)) with (length pre + Z.to_nat k)%nat by lia.
  rewrite lookup_app_r by lia. replace (_ - _)%nat with (Z.to_nat k) by lia.
  by rewrite lookup_app_l by lia.
Qed.

Lemma set_at_app c (pre rest : list Z) a v :
  codec_ok c → a = Z.of_nat (length pre) → 0 ≤ v → (c_len c ≤ length rest)%nat →
  set_at (c_set c) (pre ++ rest) a v =
    Some (pre ++ c_order c (le_bytes (c_len c) v) ++ drop (c_len c) rest).
Proof.
  intros Hc -> Hv Hl. unfold set_at. rewrite decide_True, Nat2Z.id by lia.
  rewrite drop_app_length, take_app_length. by rewrite (set_ok _ Hc) by done.
Qed.

Lemma get_at_app c (pre rest : list Z) a :
  codec_ok c → a = Z.of_nat (length pre) → bytes rest → (c_len c ≤ length rest)%nat →
  get_at (c_get c) (pre ++ rest) a = Some (le_value (c_order c (take (c_len c) rest))).
Proof.
  intros Hc -> Hb Hl. unfold get_at. rewrite decide_True, Nat2Z.id by lia.
  rewrite drop_app_length. by rewrite (get_ok _ Hc).
Qed.

Lemma u16_le_ok : codec_ok (Build_codec 2 GET_U16_LSBFIRST SET_U16_LSBFIRST id).
Proof. apply (proj1 (Forall_forall _ _) codecs_ok). unfold codecs. set_solver. Qed.
Lemma u32_le_ok : codec_ok (Build_codec 4 GET_U32_LSBFIRST SET_U32_LSBFIRST id).
Proof. apply (proj1 (Forall_forall _ _) codecs_ok). unfold codecs. set_solver. Qed.
Lemma u16_be_ok : codec_ok (Build_codec 2 GET_U16_MSBFIRST SET_U16_MSBFIRST (@reverse Z)).
Proof. apply (proj1 (Forall_forall _ _) codecs_ok). unfold codecs. set_solver. Qed.
