(* ===== verification/Fatlayout.v ===== *)
(** * Fatlayout: which file has which clusters

    [fakefat32_init] gives each file of the tree a run of clusters, in the
    order in which [fakefat32_get_file_by_cluster] visits them.  [forest] is
    that order; [laid] says that the runs follow each other; together they give
    the file that a cluster belongs to. *)

From S2P Require Import Prelude Chain Endian Vsfmal Vsfile Vsffat Fakefat.

(** ** Trees of files *)

Notation name_of f := (f_name (mfile (memfile f))).
Notation attr_of f := (f_attr (mfile (memfile f))).
Notation size_of f := (f_size (mfile (memfile f))).

Definition is_dir (f : fakefat32_file_t) : bool := has (attr_of f) VSFILE_ATTR_DIRECTORY.

Definition has_kids (f : fakefat32_file_t) : bool := negb (memptr (memfile f) =? NULL) && is_dir f.

(** The files of the array at [a] and what is below them, each before its
    children.  The array of a directory is not empty: the search for a cluster
    does not look whether the first child is the end of the array. *)
Inductive forest (fs : gmap Z fakefat32_file_t) : Z → list Z → Prop :=
  | forest_end a f : fs !! a = Some f → name_of f = None → forest fs a []
  | forest_leaf a f l : fs !! a = Some f → is_Some (name_of f) → a ≠ NULL → has_kids f = false →
      forest fs (a + FILE_SIZE) l → forest fs a (a :: l)
  | forest_node a f lk l : fs !! a = Some f → is_Some (name_of f) → a ≠ NULL → has_kids f = true →
      forest fs (memptr (memfile f)) lk → lk ≠ [] → forest fs (a + FILE_SIZE) l →
      forest fs a (a :: lk ++ l).

(** What setting up the volume leaves alone: names, attributes, contents, and
    the sizes of files. *)
Definition key (f : fakefat32_file_t) : option (list Z) * Z * Z * Z :=
  (name_of f, attr_of f, memptr (memfile f), if is_dir f then 0 else size_of f).

Definition same_shape (fs fs' : gmap Z fakefat32_file_t) : Prop := key <$> fs = key <$> fs'.

#[export] Instance same_shape_equiv : Equivalence same_shape.
Proof.
  unfold same_shape. split; [by intros x|by intros x y H; symmetry|].
  intros x y z H1 H2. by rewrite H1.
Qed.

Lemma same_shape_lookup fs fs' a f :
  same_shape fs fs' → fs !! a = Some f → ∃ f', fs' !! a = Some f' ∧ key f' = key f.
Proof.
  intros H Ha. apply (f_equal (.!! a)) in H. rewrite !lookup_fmap, Ha in H.
  destruct (fs' !! a) as [f'|]; [|done]. exists f'. split; [done|]. by apply (inj Some) in H.
Qed.

Lemma same_shape_none fs fs' a : same_shape fs fs' → fs !! a = None → fs' !! a = None.
Proof.
  intros H Ha. apply (f_equal (.!! a)) in H. rewrite !lookup_fmap, Ha in H.
  by destruct (fs' !! a).
Qed.

Lemma same_shape_insert fs a f f' :
  fs !! a = Some f → key f' = key f → same_shape fs (<[a := f']> fs).
Proof.
  intros Ha Hk. unfold same_shape. rewrite fmap_insert, Hk. symmetry. apply insert_id.
  by rewrite lookup_fmap, Ha.
Qed.

Lemma same_shape_size fs fs' : same_shape fs fs' → file_fuel fs = file_fuel fs'.
Proof. intros H. unfold file_fuel. by rewrite <- (map_size_fmap key fs), H, map_size_fmap. Qed.

Lemma key_kids f f' : key f' = key f → has_kids f' = has_kids f.
Proof. unfold key, has_kids, is_dir. intros [= H1 -> -> H4]. done. Qed.

Lemma key_dir f f' : key f' = key f → is_dir f' = is_dir f.
Proof. unfold key, is_dir. by intros [= H1 -> H3 H4]. Qed.

Lemma forest_shape fs fs' a l : same_shape fs fs' → forest fs a l → forest fs' a l.
Proof.
  intros Hs. induction 1 as [a f Ha Hn|a f l Ha Hn H0 Hk H IH|a f lk l Ha Hn H0 Hk H1 IH1 Hne H2 IH2];
    destruct (same_shape_lookup _ _ _ _ Hs Ha) as (f' & Hf' & Hkey);
    pose proof (key_kids _ _ Hkey) as Hkk; injection Hkey as Hkn ? Hp ?.
  - eapply forest_end; [done|congruence].
  - eapply forest_leaf; [done|congruence|done|congruence|done].
  - eapply forest_node; [done|congruence|done|congruence|by rewrite Hp|done|done].
Qed.

Lemma forest_head fs a l : forest fs a l →
  ∃ f, fs !! a = Some f ∧ (l = [] → name_of f = None) ∧ (l ≠ [] → is_Some (name_of f)).
Proof. inversion 1; simplify_eq; eexists; (split; [done|]); split; done. Qed.

Lemma forest_elem fs a l x : forest fs a l → x ∈ l →
  x ≠ NULL ∧ ∃ f, fs !! x = Some f ∧ is_Some (name_of f).
Proof.
  induction 1 as [| |a f lk l Ha Hn H0 Hk H1 IH1 Hne H2 IH2].
  - by intros ?%elem_of_nil.
  - intros [->|Hin]%elem_of_cons; [split; [done|by eexists]|auto].
  - intros [->|[Hin|Hin]%elem_of_app]%elem_of_cons; [split; [done|by eexists]|auto|auto].
Qed.

(** There is fuel for every file. *)
Lemma forest_fuel fs a l : forest fs a l → NoDup l → (length l < file_fuel fs)%nat.
Proof.
  intros Hf Hnd. unfold file_fuel. rewrite <- (size_dom (D := gset Z)). apply le_n_S.
  rewrite <- (size_list_to_set (C := gset Z) l) by done. apply subseteq_size.
  intros x Hx. apply elem_of_list_to_set in Hx. apply elem_of_dom.
  destruct (forest_elem _ _ _ _ Hf Hx) as (_ & f & -> & _). by eexists.
Qed.

(** ** The search for a cluster *)

Section search.
Context (param : fakefat32_param_t).

Definition covers (fs : gmap Z fakefat32_file_t) (c x : Z) : bool :=
  match f ← fs !! x; n ← clusters_of param (size_of f); Some (first_cluster f, n) with
  | Some (start, n) => (start <=? c) && (c <? u32 (start + n))
  | None => false
  end.

Lemma find_app {A} (p : A → bool) l1 l2 :
  List.find p (l1 ++ l2) = match List.find p l1 with Some x => Some x | None => List.find p l2 end.
Proof. induction l1 as [|x l1 IH]; simpl; [done|]. by destruct (p x). Qed.

Lemma clusters_of_Some n : cluster_size_of param ≠ 0 →
  clusters_of param n = Some (u32 (u64 (n + cluster_size_of param - 1) / cluster_size_of param)).
Proof. intros H. unfold clusters_of, udiv. by destruct (Z.eqb_spec (cluster_size_of param) 0). Qed.

Lemma find_nonzero fs a l p x : forest fs a l → List.find p l = Some x → x ≠ NULL.
Proof.
  intros Hf [Hin _]%List.find_some. apply list_elem_of_In in Hin.
  by apply (forest_elem _ _ _ _ Hf).
Qed.

Lemma get_file_forest fs a l c fuel :
  cluster_size_of param ≠ 0 → forest fs a l → l ≠ [] → (length l < fuel)%nat →
  fakefat32_get_file_by_cluster fuel param fs a c = Some (default NULL (List.find (covers fs c) l)).
Proof.
  intros Hcs Hf. revert fuel.
  induction Hf as [a f Ha Hn|a f l Ha Hn H0 Hk H IH|a f lk l Ha Hn H0 Hk H1 IH1 Hne H2 IH2];
    intros fuel Hl Hfuel; [done| |];
    (destruct fuel as [|fuel]; [simpl in Hfuel; lia|]); cbn [fakefat32_get_file_by_cluster List.find];
    unfold covers at 1; rewrite Ha; bindr; rewrite clusters_of_Some by done; bindr;
    (destruct ((_ <=? _) && _); [done|]); unfold has_kids, is_dir in Hk; rewrite Hk; bindr.
  - destruct (forest_head _ _ _ H) as (g & Hg & Hg0 & Hg1). cbn [Z.eqb negb NULL].
    rewrite Hg. bindr. destruct (decide (l = [])) as [->|Hne].
    + by rewrite Hg0.
    + destruct (Hg1 Hne) as [nm ->]. apply IH; [done|simpl in Hfuel; lia].
  - cbn [length] in Hfuel. rewrite length_app in Hfuel.
    rewrite IH1 by (done || lia). bindr. rewrite find_app.
    destruct (List.find (covers fs c) lk) as [x|] eqn:Hx; simpl.
    + pose proof (find_nonzero _ _ _ _ _ H1 Hx) as Hx0. apply Z.eqb_neq in Hx0.
      by rewrite Hx0.
    + destruct (forest_head _ _ _ H2) as (g & Hg & Hg0 & Hg1).
      rewrite Hg. bindr. destruct (decide (l = [])) as [->|Hnl].
      * by rewrite Hg0.
      * destruct (Hg1 Hnl) as [nm ->]. apply IH2; [done|lia].
Qed.
End search.

(** ** Clusters that a file needs *)

(** The directory entries "." and "..". *)
Definition is_dots (f : fakefat32_file_t) : bool :=
  match name_of f with Some nm => strcmp_eq nm DOT || strcmp_eq nm DOTDOT | None => false end.

Section init.
Context (param : fakefat32_param_t).
Implicit Types (fs : gmap Z fakefat32_file_t).

Definition need fs (x : Z) : Z :=
  match fs !! x with
  | Some f =>
    if is_dir f then
      if is_dots f then 0 else default 0 (fakefat32_calc_dir_clusters param fs x)
    else if attr_of f =? VSFILE_ATTR_VOLUMID then 0 else default 0 (clusters_of param (size_of f))
  | None => 0
  end.

Definition total fs (l : list Z) : Z := foldr (λ x n, need fs x + n) 0 l.

(** What the layout asks of a file: its clusters are less than 4 GiB, and a
    volume label and the entries "." and ".." have no size. *)
Definition file_ok fs (x : Z) : Prop :=
  match fs !! x with
  | Some f =>
    is_Some (name_of f) ∧ 0 ≤ first_cluster f ∧
    if is_dir f then
      if is_dots f then size_of f = 0
      else match fakefat32_calc_dir_clusters param fs x with
           | Some n => 0 ≤ n ∧ n * cluster_size_of param < 4294967296
           | None => False
           end
    else if attr_of f =? VSFILE_ATTR_VOLUMID then size_of f = 0
    else 0 ≤ size_of f ∧ size_of f + cluster_size_of param ≤ 4294967296
  | None => False
  end.

(** The file has the [n] clusters from [c] on. *)
Definition placed (c n : Z) (f : fakefat32_file_t) : Prop :=
  clusters_of param (size_of f) = Some n ∧ 0 ≤ n ∧ 0 ≤ first_cluster f ∧
  (n ≠ 0 → first_cluster f = c ∧ FstClusHI (record f) = Z.land (Z.shiftr c 16) 0xFFFF ∧
    FstClusLO (record f) = Z.land (Z.shiftr c 0) 0xFFFF) ∧
  (is_dir f = true → cb_read f = DIR_READ_FN ∧ cb_write f = DIR_WRITE_FN ∧
    (is_dots f = false → size_of f = n * cluster_size_of param)).

(** A directory of [fs] that has been given the clusters for its entries. *)
Definition sized fs fs' (x : Z) : Prop :=
  ∀ f, fs' !! x = Some f → is_dir f = true → is_dots f = false → size_of f = need fs x * cluster_size_of param.

(** A directory that "." can stand for. *)
Definition parent_ok fs (p : Z) : Prop := ∃ f, fs !! p = Some f ∧ 0 ≤ first_cluster f.

(** The files of [l] have runs that follow each other from [c] to [e]. *)
Fixpoint laid fs (l : list Z) (c e : Z) : Prop :=
  match l with
  | [] => e = c
  | x :: l => ∃ f n, fs !! x = Some f ∧ placed c n f ∧ laid fs l (c + n) e
  end.

Lemma has_longname_key f f' : key f' = key f → has_longname f' = has_longname f.
Proof.
  unfold key, has_longname, fakefat32_file_is_longname. intros [= Hn Ha _ _]. by rewrite Hn, Ha.
Qed.

Lemma calc_dir_loop_shape fuel fs fs' a n :
  same_shape fs fs' → calc_dir_loop fuel fs' a n = calc_dir_loop fuel fs a n.
Proof.
  intros Hs. revert a n. induction fuel as [|fuel IH]; intros a n; [done|].
  cbn [calc_dir_loop]. destruct (fs !! a) as [f|] eqn:Ha.
  - destruct (same_shape_lookup _ _ _ _ Hs Ha) as (f' & -> & Hk). bindr.
    rewrite (has_longname_key _ _ Hk). unfold fakefat32_calc_longname_len.
    injection Hk as -> ???. destruct (name_of f); [|done]. destruct (has_longname f); [|done].
    bindr. apply IH.
  - by rewrite (same_shape_none _ _ _ Hs Ha).
Qed.

Lemma calc_dir_clusters_shape fs fs' x :
  same_shape fs fs' → fakefat32_calc_dir_clusters param fs' x = fakefat32_calc_dir_clusters param fs x.
Proof.
  intros Hs. unfold fakefat32_calc_dir_clusters. destruct (x =? NULL); [done|].
  destruct (fs !! x) as [f|] eqn:Hx; [|by rewrite (same_shape_none _ _ _ Hs Hx)].
  destruct (same_shape_lookup _ _ _ _ Hs Hx) as (f' & -> & Hk). bindr.
  pose proof (key_dir _ _ Hk) as Hd. unfold is_dir in Hd. rewrite Hd. injection Hk as ?? -> ?.
  rewrite <- (same_shape_size _ _ Hs). destruct (_ || _); [done|].
  by rewrite (calc_dir_loop_shape _ _ _ _ _ Hs).
Qed.

Lemma laid_ext fs fs' l c e :
  (∀ x, x ∈ l → fs' !! x = fs !! x) → laid fs l c e → laid fs' l c e.
Proof.
  revert c. induction l as [|x l IH]; intros c Hx; [done|]. intros (f & n & Hf & Hp & Hl).
  exists f, n. rewrite Hx by set_solver. split_and!; [done..|]. apply IH; [set_solver|done].
Qed.

Lemma laid_parent fs l c e x : laid fs l c e → x ∈ l → parent_ok fs x.
Proof.
  revert c. induction l as [|y l IH]; intros c; [by intros _ ?%elem_of_nil|].
  intros (f & n & Hf & (_ & _ & H0 & _) & Hl) [->|Hin]%elem_of_cons; [by exists f|by eapply IH].
Qed.

Lemma laid_app fs l1 l2 c d e : laid fs l1 c d → laid fs l2 d e → laid fs (l1 ++ l2) c e.
Proof.
  revert c. induction l1 as [|x l1 IH]; intros c; simpl; [by intros ->|].
  intros (f & n & Hf & Hp & Hl) H2. exists f, n. eauto.
Qed.

Lemma total_need_app fs l1 l2 : total fs (l1 ++ l2) = total fs l1 + total fs l2.
Proof. induction l1 as [|x l1 IH]; simpl; [done|]. rewrite IH. lia. Qed.

Lemma modify_Some fs a f g : fs !! a = Some f → modify fs a g = Some (<[a := g f]> fs).
Proof. intros Ha. unfold modify. by rewrite Ha. Qed.

(** Change the object that has just been changed. *)
Lemma modify_insert fs a f g : modify (<[a := f]> fs) a g = Some (<[a := g f]> fs).
Proof. rewrite (modify_Some _ _ f) by apply lookup_insert_eq. by rewrite insert_insert_eq. Qed.

Context (Hcs : 0 < cluster_size_of param < 4294967296).

Lemma clusters_of_fits n : 0 ≤ n < 4294967296 →
  clusters_of param n = Some ((n + cluster_size_of param - 1) / cluster_size_of param).
Proof.
  intros Hn. rewrite clusters_of_Some by lia. unfold u64.
  rewrite (wrap_small 64) by (unfold fits; lia). rewrite u32_small; [done|].
  split; [apply Z.div_pos; lia|]. apply Z.div_lt_upper_bound; [lia|]. nia.
Qed.

Lemma clusters_of_whole n : 0 ≤ n → n * cluster_size_of param < 4294967296 →
  clusters_of param (u32 (n * cluster_size_of param)) = Some n.
Proof.
  intros Hn Hb. rewrite u32_small by nia. rewrite clusters_of_fits by nia. f_equal.
  replace (_ + _ - 1) with (cluster_size_of param - 1 + n * cluster_size_of param) by lia.
  rewrite Z.div_add, Z.div_small by lia. lia.
Qed.

Lemma need_nonneg fs x : file_ok fs x → 0 ≤ need fs x.
Proof.
  unfold file_ok, need. destruct (fs !! x) as [f|]; [|done]. intros (_ & _ & H).
  destruct (is_dir f); [destruct (is_dots f); [done|]; by destruct fakefat32_calc_dir_clusters; destruct H|].
  destruct (_ =? _); [done|]. rewrite clusters_of_fits by lia. simpl. apply Z.div_pos; lia.
Qed.

Lemma total_need_nonneg fs l : Forall (file_ok fs) l → 0 ≤ total fs l.
Proof. induction 1 as [|x l Hx Hl IH]; simpl; [done|]. pose proof (need_nonneg _ _ Hx). lia. Qed.

Lemma placed_intro n h :
  clusters_of param (size_of h) = Some n → 0 ≤ n → 0 ≤ first_cluster h →
  (is_dir h = true → cb_read h = DIR_READ_FN ∧ cb_write h = DIR_WRITE_FN ∧
    (is_dots h = false → size_of h = n * cluster_size_of param)) →
  (∀ c, 0 ≤ c → placed c n (set_record (set_FstClus c (record h)) (set_first_cluster c h))) ∧
  (n = 0 → placed 0 0 h).
Proof.
  intros Hn Hn0 Hf Hd. split; [intros c Hc; by split_and!|intros ->; by split_and!].
Qed.

(** The first part of the recursion on the file at [x], which is [f] in its new
    directory. *)
Lemma init_file_ok fs fs1 x f p :
  same_shape fs fs1 → file_ok fs x → fs !! x = Some f → fs1 !! x = Some f →
  parent_ok fs1 p ∨ is_dots f = false →
  ∃ f', init_file param x (<[x := set_parent p f]> fs1) = Some (need fs x, <[x := f']> fs1) ∧
    key f' = key f ∧
    (∀ c, 0 ≤ c → placed c (need fs x)
      (set_record (set_FstClus c (record f')) (set_first_cluster c f'))) ∧
    (need fs x = 0 → placed 0 0 f').
Proof.
  intros Hs Hok Hf Hf1 Hp. unfold init_file. rewrite modify_insert. bindr.
  rewrite lookup_insert_eq. bindr. set (g := set_child_size _ _).
  change (f_attr (mfile (memfile g))) with (attr_of f).
  change (f_name (mfile (memfile g))) with (name_of f).
  change (f_size (mfile (memfile g))) with (size_of f).
  change (f_parent (mfile (memfile g))) with p.
  assert (Hz : clusters_of param 0 = Some 0).
  { rewrite clusters_of_fits by lia. f_equal. apply Z.div_small. lia. }
  revert Hok. unfold file_ok, need. rewrite Hf. unfold is_dir, is_dots.
  destruct (has (attr_of f) VSFILE_ATTR_DIRECTORY) eqn:Hd; intros ([nm Hnm] & Hfc & Hok).
  - rewrite Hnm in Hok |- *. bindr.
    assert (Hp' : strcmp_eq nm DOT = true → parent_ok (<[x := g]> fs1) p).
    { intros Hdot. destruct Hp as [(pf & Hp & Hpf)|Hp].
      - destruct (decide (x = p)) as [->|]; [exists g; by rewrite lookup_insert_eq|].
        exists pf. by rewrite lookup_insert_ne.
      - unfold is_dots in Hp. by rewrite Hnm, Hdot in Hp. }
    destruct (strcmp_eq nm DOT); [|destruct (strcmp_eq nm DOTDOT)]; cbn [orb] in Hok |- *.
    + destruct Hp' as (pf & -> & Hpf); [done|]. bindr. rewrite modify_insert; bindr.
      rewrite modify_insert; bindr. eexists. split; [done|]. split; [done|].
      apply placed_intro; cbn; rewrite ?Hok; auto; lia.
    + bindr. rewrite modify_insert; bindr. eexists. split; [done|]. split; [done|].
      apply placed_intro; cbn; rewrite ?Hok; auto; lia.
    + assert (Hs' : same_shape fs (<[x := g]> fs1)).
      { etransitivity; [exact Hs|]. by apply (same_shape_insert _ _ f). }
      rewrite (calc_dir_clusters_shape _ _ _ Hs').
      destruct (fakefat32_calc_dir_clusters param fs x) as [n|]; [|done]. bindr.
      rewrite modify_insert; bindr. rewrite modify_insert; bindr.
      eexists. split; [done|]. split; [unfold key, is_dir; cbn; by rewrite Hd|].
      apply placed_intro; [apply clusters_of_whole; simpl; lia|simpl; lia|done|].
      intros _. split; [done|]. split; [done|]. intros _. cbn. apply u32_small.
      split; [apply Z.mul_nonneg_nonneg|]; lia.
  - destruct (attr_of f =? VSFILE_ATTR_VOLUMID).
    + exists g. split; [done|]. split; [done|]. apply placed_intro; [|done|done|].
      * change (size_of g) with (size_of f). by rewrite Hok.
      * change (is_dir g) with (has (attr_of f) VSFILE_ATTR_DIRECTORY). by rewrite Hd.
    + rewrite clusters_of_fits by lia. bindr. exists g. split; [done|]. split; [done|].
      apply placed_intro; simpl.
      * change (size_of g) with (size_of f). by rewrite clusters_of_fits by lia.
      * apply Z.div_pos; lia.
      * done.
      * change (is_dir g) with (has (attr_of f) VSFILE_ATTR_DIRECTORY). by rewrite Hd.
Qed.

(** One call of the recursion. *)
Lemma init_recursion_step fs fs1 x f p fuel cur :
  same_shape fs fs1 → file_ok fs x → fs !! x = Some f → fs1 !! x = Some f → x ≠ NULL →
  parent_ok fs1 p ∨ is_dots f = false → 0 ≤ cur → cur + need fs x < 4294967296 →
  ∃ f', key f' = key f ∧ placed cur (need fs x) f' ∧
    fakefat32_init_recursion (S fuel) param x cur (<[x := set_parent p f]> fs1) =
    (if has_kids f
     then init_children fuel param x (memptr (memfile f)) (cur + need fs x) (<[x := f']> fs1)
     else Some (VSFERR_NONE, cur + need fs x, <[x := f']> fs1)).
Proof.
  intros Hs Hok Hf Hf1 H0 Hp Hcur Hb.
  destruct (init_file_ok _ _ _ _ _ Hs Hok Hf Hf1 Hp) as (g & Hi & Hk & Hpl & Hpz).
  pose proof (need_nonneg _ _ Hok) as Hn0.
  assert (Hgive : ∃ f', key f' = key f ∧ placed cur (need fs x) f' ∧
    give_clusters x (need fs x) cur (<[x := g]> fs1) = Some (cur + need fs x, <[x := f']> fs1)).
  { unfold give_clusters. destruct (Z.eqb_spec (need fs x) 0) as [Hz|Hz].
    - exists g. split; [done|]. rewrite Hz, Z.add_0_r. split; [|done].
      destruct (Hpz Hz) as (H1 & H2 & H3 & H4 & H5). by split_and!.
    - eexists. rewrite modify_insert. bindr. split; [|split; [by apply Hpl|]].
      + done.
      + rewrite u32_small by lia. done. }
  destruct Hgive as (f' & Hk' & Hp' & Hg). exists f'. split; [done|]. split; [done|].
  cbn [fakefat32_init_recursion]. apply Z.eqb_neq in H0. rewrite H0, Hi. bindr. rewrite Hg. bindr.
  rewrite lookup_insert_eq. bindr. fold (is_dir f'). fold (has_kids f').
  rewrite (key_kids _ _ Hk'). by injection Hk' as _ _ -> _.
Qed.

Lemma placed_sized fs fs' x c f : fs' !! x = Some f → placed c (need fs x) f → sized fs fs' x.
Proof. intros Hf (_ & _ & _ & _ & Hd) g Hg Hdir Hdots. simplify_eq. by apply Hd. Qed.

(** One file of an array. *)
Lemma init_children_cons fs fs1 a f p fuel cur :
  same_shape fs fs1 → file_ok fs a → fs !! a = Some f → fs1 !! a = Some f → a ≠ NULL →
  is_Some (name_of f) → parent_ok fs1 p → 0 ≤ cur → cur + need fs a < 4294967296 →
  ∃ f', placed cur (need fs a) f' ∧ same_shape fs (<[a := f']> fs1) ∧
    parent_ok (<[a := f']> fs1) p ∧ 0 ≤ first_cluster f' ∧
    init_children (S (S fuel)) param p a cur fs1 =
    ('(err, cur1, fs2) ← (if has_kids f
        then init_children fuel param a (memptr (memfile f)) (cur + need fs a) (<[a := f']> fs1)
        else Some (VSFERR_NONE, cur + need fs a, <[a := f']> fs1));
     if err =? 0 then init_children (S fuel) param p (a + FILE_SIZE) cur1 fs2
     else Some (VSFERR_FAIL, cur1, fs2)).
Proof.
  intros Hs Hok Ha Hf1 H0 [nm Hn] Hp Hcur Hb.
  destruct (init_recursion_step fs fs1 a f p fuel cur Hs Hok Ha Hf1 H0 (or_introl Hp) Hcur Hb)
    as (f' & Hk' & Hpl & Hrec).
  assert (Hfc : 0 ≤ first_cluster f') by apply Hpl.
  exists f'. split; [done|]. split; [|split; [|split; [done|]]].
  - etransitivity; [exact Hs|]. by apply (same_shape_insert _ _ f).
  - destruct Hp as (pf & Hp & Hpf).
    destruct (decide (a = p)) as [->|]; [exists f'; by rewrite lookup_insert_eq|].
    exists pf. by rewrite lookup_insert_ne.
  - cbn [init_children]. rewrite Hf1. bindr. rewrite Hn, (modify_Some _ _ _ _ Hf1). bindr.
    by rewrite <- Hrec.
Qed.

(** Setting up the array at [a]: its files and those below get the clusters
    from [cur] on, and nothing else changes. *)
Lemma init_forest fs a l :
  forest fs a l → ∀ fs1 fuel p cur, same_shape fs fs1 → NoDup l → Forall (file_ok fs) l →
  (∀ x, x ∈ l → fs1 !! x = fs !! x) → parent_ok fs1 p → 0 ≤ cur →
  cur + total fs l < 4294967296 → (2 * length l + 1 ≤ fuel)%nat →
  ∃ fs2, init_children fuel param p a cur fs1 = Some (VSFERR_NONE, cur + total fs l, fs2) ∧
    same_shape fs fs2 ∧ (∀ x, x ∉ l → fs2 !! x = fs1 !! x) ∧ laid fs2 l cur (cur + total fs l) ∧
    Forall (sized fs fs2) l.
Proof.
  induction 1 as [a f Ha Hn|a f l Ha Hn H0 Hk H IH|a f lk l Ha Hn H0 Hk H1 IH1 Hne H2 IH2];
    intros fs1 fuel p cur Hs Hnd Hok Hsame Hp Hcur Hb Hfuel.
  { destruct fuel as [|fuel]; [lia|]. cbn [init_children].
    destruct (same_shape_lookup _ _ _ _ Hs Ha) as (f' & -> & Hk). bindr.
    injection Hk as -> _ _ _. rewrite Hn. simpl. rewrite Z.add_0_r. exists fs1. auto 6. }
  all: apply Forall_cons in Hok as [Hoka Hok]; pose proof (need_nonneg _ _ Hoka);
    pose proof (total_need_nonneg _ _ Hok); cbn [length] in Hfuel;
    (destruct fuel as [|[|fuel]]; [lia..|]); cbn [total foldr] in Hb |- *;
    destruct (init_children_cons fs fs1 a f p fuel cur Hs Hoka Ha) as (f' & Hpl & Hs' & Hp' & Hfc & ->);
    [rewrite Hsame by set_solver; done|done|done|done|done|unfold total in *; lia|];
    rewrite Hk; apply NoDup_cons in Hnd as [Hni Hnd].
  - fold (total fs l) in *. bindr.
    destruct (IH (<[a := f']> fs1) (S fuel) p (cur + need fs a)) as (fs2 & Hi & Hs2 & Ho & Hl & Hz);
      [done|done|done| |done|lia|lia|lia|].
    { intros x Hx. rewrite lookup_insert_ne by set_solver. apply Hsame. set_solver. }
    rewrite Z.add_assoc. exists fs2. split; [done|]. split; [done|]. split.
    + intros x Hx. rewrite Ho by set_solver. apply lookup_insert_ne. set_solver.
    + assert (Hfa : fs2 !! a = Some f') by (rewrite Ho by done; apply lookup_insert_eq). split.
      * by exists f', (need fs a).
      * constructor; [by apply (placed_sized _ _ _ _ _ Hfa Hpl)|done].
  - fold (total fs (lk ++ l)) in *. rewrite total_need_app in *. rewrite length_app in Hfuel.
    apply NoDup_app in Hnd as (Hndk & Hdisj & Hnd). apply Forall_app in Hok as [Hokk Hok].
    pose proof (total_need_nonneg _ _ Hok). pose proof (total_need_nonneg _ _ Hokk).
    destruct (IH1 (<[a := f']> fs1) fuel a (cur + need fs a)) as (fs2 & -> & Hs2 & Ho & Hl & Hz);
      [done|done|done| |exists f'; by rewrite lookup_insert_eq|lia|lia|lia|].
    { intros x Hx. rewrite lookup_insert_ne by set_solver. apply Hsame. set_solver. }
    bindr. destruct (IH2 fs2 (S fuel) p (cur + need fs a + total fs lk)) as (fs3 & Hi3 & Hs3 & Ho3 & Hl3 & Hz3);
      [done|done|done| | |lia|lia|lia|].
    { intros x Hx. rewrite Ho by (intros ?; by apply (Hdisj x)). rewrite lookup_insert_ne by set_solver.
      apply Hsame. set_solver. }
    { destruct (decide (p ∈ lk)) as [Hin|Hnp]; [by eapply laid_parent|].
      unfold parent_ok. by rewrite Ho. }
    rewrite !Z.add_assoc. exists fs3. split; [done|]. split; [done|]. split.
    + intros x Hx. rewrite Ho3, Ho by set_solver. apply lookup_insert_ne. set_solver.
    + assert (Hfa : fs3 !! a = Some f') by (rewrite Ho3, Ho by set_solver; apply lookup_insert_eq).
      assert (Hlk : ∀ x, x ∈ lk → fs3 !! x = fs2 !! x) by (intros x Hx; apply Ho3; intros ?; by apply (Hdisj x)).
      split.
      * exists f', (need fs a). split; [done|split; [done|]].
        eapply laid_app; [|exact Hl3]. by apply (laid_ext fs2).
      * constructor; [by apply (placed_sized _ _ _ _ _ Hfa Hpl)|]. apply Forall_app. split; [|done].
        rewrite Forall_forall in Hz |- *. intros x Hx. unfold sized. rewrite Hlk by done. by apply Hz.
Qed.
End init.

(** ** Volumes *)

(** A tree that is ready for [fakefat32_init_recursion]: [l] are the files below
    the root directory, [rc] is the root's first cluster.  The sizes are less
    than 4 GiB and the clusters fit the entries of a FAT. *)
Record volume (param : fakefat32_param_t) (fs : gmap Z fakefat32_file_t) (l : list Z) (rc : Z) : Prop := {
  v_cs : 0 < cluster_size_of param < 4294967296;
  v_forest : forest fs (root param) (root param :: l);
  v_root f : fs !! root param = Some f → has_kids f = true ∧ is_dots f = false ∧
    f_parent (mfile (memfile f)) = NULL;
  v_nodup : NoDup (root param :: l);
  v_files : Forall (file_ok param fs) (root param :: l);
  v_rc : 2 ≤ rc;
  v_fits : rc + total param fs (root param :: l) < 0x0FFFFFF8 }.

(** What [fakefat32_init] does to the root before the recursion. *)
Definition prepared (param : fakefat32_param_t) (fs : gmap Z fakefat32_file_t)
    : option (gmap Z fakefat32_file_t) :=
  fs ← modify fs (root param) (λ f, set_parent NULL (set_attr VSFILE_ATTR_DIRECTORY f));
  modify fs (root param + FILE_SIZE) (set_name None).

(** Each file of the volume has its run of clusters. *)
Record mounted (param : fakefat32_param_t) (fs : gmap Z fakefat32_file_t) (l : list Z) (rc e : Z) : Prop := {
  m_cs : 0 < cluster_size_of param < 4294967296;
  m_forest : forest fs (root param) (root param :: l);
  m_nodup : NoDup (root param :: l);
  m_laid : laid param fs (root param :: l) rc e;
  m_dirs x f : x ∈ root param :: l → fs !! x = Some f → is_dir f = true → is_dots f = false →
    ∃ n, fakefat32_calc_dir_clusters param fs x = Some n ∧ size_of f = n * cluster_size_of param;
  m_rc : 2 ≤ rc;
  m_fits : e < 0x0FFFFFF8 }.

Lemma sized_dirs param fs fs' l :
  same_shape fs fs' → Forall (file_ok param fs) l → Forall (sized param fs fs') l →
  ∀ x f, x ∈ l → fs' !! x = Some f → is_dir f = true → is_dots f = false →
    ∃ n, fakefat32_calc_dir_clusters param fs' x = Some n ∧ size_of f = n * cluster_size_of param.
Proof.
  rewrite !Forall_forall. intros Hs Hok Hz x f Hx Hf Hd Hdots. pose proof (Hz x Hx f Hf Hd Hdots) as Hsize.
  destruct (same_shape_lookup fs' fs x f ltac:(by symmetry) Hf) as (f0 & Hf0 & Hk).
  specialize (Hok x Hx). unfold file_ok in Hok. unfold need in Hsize. rewrite Hf0 in Hok, Hsize.
  rewrite (key_dir _ _ Hk), Hd in Hok, Hsize.
  assert (Hd0 : is_dots f0 = false) by (unfold is_dots in *; by injection Hk as -> _ _ _).
  rewrite Hd0 in Hok, Hsize. rewrite (calc_dir_clusters_shape param fs fs') by done.
  destruct Hok as (_ & _ & Hok). destruct (fakefat32_calc_dir_clusters param fs x) as [n|]; [|done]. by exists n.
Qed.

Lemma fakefat32_init_laid param s f fs l rc :
  ff_files s !! root param = Some f → f_op (mfile (memfile f)) = NULL →
  FAT32_ROOT_CLUSTER (fakefat32_mbr s) = Some rc →
  prepared param (ff_files s) = Some fs → volume param fs l rc →
  ∃ fs', fakefat32_init param s = Some (VSFERR_NONE, set_files s fs') ∧ same_shape fs fs' ∧
    (∀ x, x ∉ root param :: l → fs' !! x = fs !! x) ∧
    mounted param fs' l rc (rc + total param fs (root param :: l)).
Proof.
  intros Hf Hop Hrc Hprep [Hcs Hfo Hroot Hnd Hok Hrc2 Hfit].
  unfold fakefat32_init. rewrite Hf. bindr. rewrite Hop. cbn [NULL Z.eqb]. rewrite Hrc. bindr.
  unfold prepared in Hprep. destruct (modify (ff_files s) _ _) as [fs0|]; [|done]. bindr.
  cbn [mbind option_bind] in Hprep. rewrite Hprep. bindr.
  inversion Hfo as [|? g ? Hg ? ? Hk|? g lk lr Hg Hn H0 Hk Hfk Hne Hfr]; simplify_eq.
  { destruct (Hroot _ Hg) as [? _]. congruence. }
  destruct (Hroot _ Hg) as (_ & Hdots & Hpar).
  apply Forall_cons in Hok as [Hokr Hok]. apply NoDup_cons in Hnd as [Hni Hnd].
  pose proof (total_need_nonneg param Hcs _ _ Hok). pose proof (need_nonneg param Hcs _ _ Hokr).
  cbn [total foldr] in Hfit |- *. fold (total param fs (lk ++ lr)) in *.
  pose proof (forest_fuel _ _ _ Hfo ltac:(by apply NoDup_cons)) as Hfuel.
  unfold file_fuel in Hfuel. cbn [length] in Hfuel. rewrite length_app in Hfuel.
  assert (lr = []) as ->.
  { destruct (forest_head _ _ _ Hfr) as (h & Hh & _ & Hs). destruct lr as [|y lr]; [done|].
    destruct (Hs ltac:(done)) as [nm Hnm]. unfold modify in Hprep.
    destruct (fs0 !! _) as [h0|]; simplify_eq/=. by rewrite lookup_insert_eq in Hh; simplify_eq. }
  rewrite app_nil_r in *. cbn [length] in Hfuel. rewrite Nat.add_0_r in Hfuel.
  assert (Hself : <[root param := set_parent NULL g]> fs = fs).
  { apply insert_id. rewrite Hg. f_equal. destruct g as [[[] ? ?] ? ? ? ?]. cbn in Hpar. by subst. }
  assert (Hf2 : init_fuel fs = S (2 * size fs + 1)) by (unfold init_fuel; lia). rewrite Hf2.
  destruct (init_recursion_step param Hcs fs fs (root param) g NULL (2 * size fs + 1)%nat rc)
    as (g' & Hk' & Hpl & Hrec); [done|done|done|done|done|by right|lia|lia|].
  rewrite Hself, Hk in Hrec. rewrite Hrec.
  destruct (init_forest param Hcs fs _ _ Hfk (<[root param := g']> fs) (2 * size fs + 1)%nat
    (root param) (rc + need param fs (root param))) as (fs2 & -> & Hs2 & Ho & Hl & Hz);
    [by apply (same_shape_insert _ _ g)|done|done| | |lia|lia|lia|].
  { intros x Hx. apply lookup_insert_ne. by intros <-. }
  { exists g'. rewrite lookup_insert_eq. split; [done|apply Hpl]. }
  bindr. rewrite !Z.add_assoc. exists fs2. split; [done|]. split; [done|]. split.
  { intros x Hx. rewrite Ho by set_solver. apply lookup_insert_ne. set_solver. }
  assert (Hg' : fs2 !! root param = Some g') by (rewrite Ho by done; apply lookup_insert_eq).
  constructor; [done|by apply (forest_shape fs)|by apply NoDup_cons| | |done|lia].
  - by exists g', (need param fs (root param)).
  - apply (sized_dirs param fs); [done|by constructor|].
    constructor; [by apply (placed_sized _ _ _ _ _ _ Hg' Hpl)|done].
Qed.

(** *** The owner of a cluster *)

Section owner.
Context (param : fakefat32_param_t) (fs : gmap Z fakefat32_file_t).

Lemma covers_placed x f c n k :
  fs !! x = Some f → placed param c n f → 0 ≤ c → c + n < 4294967296 →
  covers param fs k x = (c <=? k) && (k <? c + n).
Proof.
  intros Hx (Hn & Hn0 & Hf0 & Hc & _) Hc0 Hb. unfold covers. rewrite Hx. bindr. rewrite Hn. bindr.
  destruct (decide (n = 0)) as [->|Hnz].
  - rewrite !Z.add_0_r. unfold u32, wrap. pose proof (Z.mod_le (first_cluster f) (2 ^ 32)).
    destruct (Z.leb_spec (first_cluster f) k), (Z.ltb_spec k (first_cluster f mod 2 ^ 32)),
      (Z.leb_spec c k), (Z.ltb_spec k c); (done || lia).
  - destruct (Hc Hnz) as (-> & _ & _). by rewrite u32_small by lia.
Qed.

Lemma laid_bound l c e : laid param fs l c e → c ≤ e.
Proof.
  revert c. induction l as [|x l IH]; intros c; [by intros ->|].
  intros (f & n & _ & (_ & Hn & _) & Hl). specialize (IH _ Hl). lia.
Qed.

(** A cluster in the range of the volume has an owner, and it is the only
    file whose run has the cluster. *)
Lemma laid_owner l c e k :
  laid param fs l c e → 0 ≤ c → e < 4294967296 →
  match List.find (covers param fs k) l with
  | Some x => x ∈ l ∧ ∃ f n, fs !! x = Some f ∧ placed param (first_cluster f) n f ∧ n ≠ 0 ∧
      c ≤ first_cluster f ∧ first_cluster f ≤ k < first_cluster f + n ∧ first_cluster f + n ≤ e
  | None => k < c ∨ e ≤ k
  end.
Proof.
  revert c. induction l as [|x l IH]; intros c; [intros -> ??; simpl; lia|].
  intros (f & n & Hf & Hp & Hl) Hc He. pose proof (laid_bound _ _ _ Hl). pose proof Hp as (Hn & Hn0 & _ & Hfc & _).
  cbn [List.find]. rewrite (covers_placed _ _ _ _ _ Hf Hp) by lia.
  destruct (Z.leb_spec c k), (Z.ltb_spec k (c + n)); cbn [andb];
    try (specialize (IH _ Hl ltac:(lia) He); destruct (List.find _ l) as [y|]; [|lia];
      destruct IH as (Hy & g & m & Hg & Hm & Hm0 & Hr); split; [by right|];
      exists g, m; split; [done|]; split; [done|]; split; [done|]; lia).
  assert (Hnz : n ≠ 0) by lia. destruct (Hfc Hnz) as (Hfc' & _). split; [by left|].
  exists f, n. rewrite Hfc'. split_and!; [done..|lia|lia|lia|lia].
Qed.

Lemma laid_runs l c e x :
  laid param fs l c e → x ∈ l → ∃ f n d, fs !! x = Some f ∧ placed param d n f ∧ c ≤ d ∧ d + n ≤ e ∧
    ∀ k, 0 ≤ c → e < 4294967296 → d ≤ k < d + n → List.find (covers param fs k) l = Some x.
Proof.
  revert c. induction l as [|y l IH]; intros c; [by intros _ ?%elem_of_nil|].
  intros (f & n & Hf & Hp & Hl) Hx. pose proof (laid_bound _ _ _ Hl). pose proof Hp as (_ & Hn0 & _).
  cbn [List.find]. apply elem_of_cons in Hx as [->|Hx].
  - exists f, n, c. split_and!; [done..|lia|done|].
    intros k Hc He Hk. rewrite (covers_placed _ _ _ _ _ Hf Hp) by lia.
    destruct (Z.leb_spec c k), (Z.ltb_spec k (c + n)); (done || lia).
  - destruct (IH _ Hl Hx) as (g & m & d & Hg & Hm & Hd & Hdm & Hk).
    exists g, m, d. split_and!; [done..|lia|lia|].
    intros k Hc He Hkd. rewrite (covers_placed _ _ _ _ _ Hf Hp) by lia.
    destruct (Z.leb_spec c k), (Z.ltb_spec k (c + n)); cbn [andb]; try lia; apply Hk; lia.
Qed.
End owner.

(** The run of a file of the volume. *)
Lemma mounted_run param fs l rc e x f n :
  mounted param fs l rc e → x ∈ root param :: l → fs !! x = Some f →
  clusters_of param (size_of f) = Some n → n ≠ 0 →
  0 < n ∧ rc ≤ first_cluster f ∧ first_cluster f + n ≤ e ∧
  FstClusHI (record f) = Z.land (Z.shiftr (first_cluster f) 16) 0xFFFF ∧
  FstClusLO (record f) = Z.land (Z.shiftr (first_cluster f) 0) 0xFFFF ∧
  ∀ k, first_cluster f ≤ k < first_cluster f + n →
    List.find (covers param fs k) (root param :: l) = Some x.
Proof.
  intros [Hcs Hfo Hnd Hlaid _ Hrc He] Hx Hf Hn Hn0.
  destruct (laid_runs param fs _ _ _ x Hlaid Hx) as (g & m & d & Hg & Hp & Hd & Hde & Hk). simplify_eq.
  destruct Hp as (Hm & Hm0 & _ & Hfc & _). simplify_eq. destruct (Hfc Hn0) as (-> & -> & ->).
  split_and!; [lia|lia|lia|done|done|]. intros k Hkr. apply Hk; lia.
Qed.

(** The search finds the owner of a cluster of the volume. *)
Lemma mounted_get_file param fs l rc e k :
  mounted param fs l rc e →
  fakefat32_get_file_by_cluster (file_fuel fs) param fs (root param) k =
  Some (default NULL (List.find (covers param fs k) (root param :: l))).
Proof.
  intros Hm. destruct Hm as [Hcs Hfo Hnd _ _ _ _]. apply get_file_forest; [lia|done|done|].
  by apply (forest_fuel _ _ _ Hfo).
Qed.
