(* ===== verification/Fatimage.v ===== *)
(** * Fatimage: the sectors of the volume, as a reader of FAT32 sees them

    What [fakefat32_mal_read] puts into a buffer for each kind of sector, and
    that following the chain of a file through the FAT gives its contents. *)

From S2P Require Import Prelude Chain Endian Vsfmal Vsfile Vsffat Fakefat Fatlayout.

(** Results that are tuples, component by component. *)
Ltac pair_eq :=
  repeat match goal with |- Some _ = Some _ => f_equal | |- (_, _) = (_, _) => f_equal end;
  try lia; try done.

(** ** The entries of the FAT *)

Section fat.
Context (param : fakefat32_param_t) (fs : gmap Z fakefat32_file_t) (l : list Z) (rc e : Z).

(** The entry of a cluster: the next cluster of the file, or the end. *)
Definition fat_value (c : Z) : Z :=
  if c =? 0 then FAT32_FAT_START
  else if c <? rc then FAT32_FAT_INVALID
  else
    match List.find (covers param fs c) (root param :: l) with
    | Some x =>
      match f ← fs !! x; n ← clusters_of param (size_of f); Some (first_cluster f + n - 1) with
      | Some last => if c =? last then FAT32_FAT_FILEEND else c + 1
      | None => 0
      end
    | None => 0
    end.

(** [n] entries from that of [c] on. *)
Fixpoint fat_bytes (c : Z) (n : nat) : list Z :=
  match n with O => [] | S n => le_bytes 4 (fat_value c) ++ fat_bytes (c + 1) n end.

Lemma fat_bytes_length c n : length (fat_bytes c n) = (4 * n)%nat.
Proof. revert c. induction n as [|n IH]; intros c; [done|]. cbn [fat_bytes]. rewrite length_app, IH, le_bytes_length. lia. Qed.

Lemma fat_bytes_app c j k : fat_bytes c (j + k) = fat_bytes c j ++ fat_bytes (c + Z.of_nat j) k.
Proof.
  revert c. induction j as [|j IH]; intros c; [by rewrite Z.add_0_r|].
  cbn [fat_bytes Nat.add]. rewrite IH, <- app_assoc. do 3 f_equal. lia.
Qed.

Context (Hm : mounted param fs l rc e).

Lemma fat_value_nonneg c : 0 ≤ c → 0 ≤ fat_value c.
Proof.
  intros Hc. unfold fat_value. destruct (c =? 0); [done|]. destruct (c <? rc); [done|].
  destruct (List.find _ _); [|done]. destruct (_ ≫= _) as [last|]; [|done].
  destruct (c =? last); [done|lia].
Qed.

Lemma put32_app (pre rest : list Z) a v :
  a = Z.of_nat (length pre) → 0 ≤ v → (4 ≤ length rest)%nat →
  put32 (pre ++ rest) a v = Some ((pre ++ le_bytes 4 v) ++ drop 4 rest).
Proof.
  intros -> Hv Hl. unfold put32. rewrite <- app_assoc.
  by apply (set_at_app (Build_codec 4 GET_U32_LSBFIRST SET_U32_LSBFIRST id) _ _ _ _ u32_le_ok).
Qed.

(** The room left of [4 * k] bytes after one entry. *)
Lemma room_next k : 4 * Z.of_nat (S k) < 4294967296 → u32 (4 * Z.of_nat (S k) - 4) = 4 * Z.of_nat k.
Proof. intros. rewrite u32_small by lia. lia. Qed.

(** One entry is written, and the rest of the run goes on from there. *)
Lemma fat_step c k j (pre rest : list Z) :
  (j ≤ k)%nat → (4 * S k ≤ length rest)%nat →
  ((pre ++ le_bytes 4 (fat_value c)) ++ fat_bytes (c + 1) j) ++ drop (4 * j) (drop 4 rest) =
  (pre ++ fat_bytes c (S j)) ++ drop (4 * S j) rest.
Proof.
  intros Hj Hl. cbn [fat_bytes]. rewrite <- !app_assoc, drop_drop. do 4 f_equal. lia.
Qed.

Lemma fat_reserved_spec k : ∀ fuel c (pre rest : list Z),
  (k < fuel)%nat → 0 ≤ c → c + Z.of_nat k < 4294967296 → 4 * Z.of_nat k < 4294967296 →
  (4 * k ≤ length rest)%nat →
  ∃ j, (j ≤ k)%nat ∧ (j = k ∨ rc ≤ c + Z.of_nat j) ∧
    fat_reserved fuel rc c (4 * Z.of_nat k) (Z.of_nat (length pre)) (pre ++ rest) =
    Some (c + Z.of_nat j, 4 * Z.of_nat (k - j), Z.of_nat (length pre) + 4 * Z.of_nat j,
      (pre ++ fat_bytes c j) ++ drop (4 * j) rest).
Proof.
  induction k as [|k IH]; intros fuel c pre rest Hfuel Hc Hb Hb4 Hl;
    (destruct fuel as [|fuel]; [lia|]); cbn [fat_reserved].
  { exists 0%nat. split; [lia|]. split; [by left|]. simpl. rewrite app_nil_r, drop_0. pair_eq. }
  rewrite (proj2 (Z.eqb_neq (4 * Z.of_nat (S k)) 0)) by lia. cbn [negb andb].
  destruct (Z.ltb_spec c rc) as [Hrc|Hrc].
  - set (v := if 0 =? c then _ else _). assert (Hv : v = fat_value c).
    { unfold v, fat_value. rewrite (Z.eqb_sym 0 c). destruct (c =? 0); [done|].
      by rewrite (proj2 (Z.ltb_lt c rc)) by lia. }
    rewrite put32_app by (rewrite ?Hv; (done || lia || by apply fat_value_nonneg)). bindr. rewrite Hv.
    rewrite u32_small, room_next by lia.
    replace (Z.of_nat (length pre) + 4) with (Z.of_nat (length (pre ++ le_bytes 4 (fat_value c))))
      by (rewrite length_app, le_bytes_length; lia).
    destruct (IH fuel (c + 1) (pre ++ le_bytes 4 (fat_value c)) (drop 4 rest)) as (j & Hj & Hor & ->);
      [lia..|rewrite length_drop; lia|].
    exists (S j). split; [lia|]. split; [lia|].
    rewrite (fat_step _ k) by done. rewrite length_app, le_bytes_length. pair_eq.
  - exists 0%nat. split; [lia|]. split; [right; lia|]. cbn [fat_bytes]. rewrite app_nil_r, drop_0.
    pair_eq.
Qed.

(** In the run of a file. *)
Lemma fat_value_run x f n c :
  fs !! x = Some f → clusters_of param (size_of f) = Some n → rc ≤ c →
  List.find (covers param fs c) (root param :: l) = Some x →
  fat_value c = if c =? first_cluster f + n - 1 then FAT32_FAT_FILEEND else c + 1.
Proof.
  intros Hf Hn Hc Hx. pose proof (m_rc _ _ _ _ _ Hm). unfold fat_value.
  rewrite (proj2 (Z.eqb_neq c 0)), (proj2 (Z.ltb_ge c rc)) by lia. rewrite Hx, Hf. bindr. by rewrite Hn.
Qed.

Lemma fat_file_spec x f n k :
  fs !! x = Some f → clusters_of param (size_of f) = Some n → n < 4294967296 → rc ≤ first_cluster f →
  (∀ c, first_cluster f ≤ c < first_cluster f + n →
    List.find (covers param fs c) (root param :: l) = Some x) →
  ∀ fuel c (pre rest : list Z),
  (k < fuel)%nat → first_cluster f ≤ c → c + Z.of_nat k < 4294967296 → 4 * Z.of_nat k < 4294967296 →
  (4 * k ≤ length rest)%nat →
  ∃ j, (j ≤ k)%nat ∧ (c < first_cluster f + n → (0 < k)%nat → (0 < j)%nat) ∧
    fat_file fuel n (c - first_cluster f) c (4 * Z.of_nat k) (Z.of_nat (length pre)) (pre ++ rest) =
    Some (c + Z.of_nat j, 4 * Z.of_nat (k - j), Z.of_nat (length pre) + 4 * Z.of_nat j,
      (pre ++ fat_bytes c j) ++ drop (4 * j) rest).
Proof.
  intros Hf Hn Hnb Hfc Hrun. pose proof (m_rc _ _ _ _ _ Hm) as Hrc.
  induction k as [|k IH]; intros fuel c pre rest Hfuel Hc Hb Hb4 Hl;
    (destruct fuel as [|fuel]; [lia|]); cbn [fat_file].
  { exists 0%nat. split; [lia|]. split; [lia|]. simpl. rewrite app_nil_r, drop_0. pair_eq. }
  rewrite (proj2 (Z.eqb_neq (4 * Z.of_nat (S k)) 0)) by lia. cbn [negb andb].
  destruct (Z.ltb_spec (c - first_cluster f) n) as [Hin|Hout].
  - set (v := if _ =? _ then _ else _). assert (Hv : v = fat_value c).
    { unfold v. rewrite (fat_value_run x f n) by (done || lia || (apply Hrun; lia)).
      rewrite !u32_small by lia.
      destruct (Z.eqb_spec (c - first_cluster f) (n - 1)), (Z.eqb_spec c (first_cluster f + n - 1));
        (done || lia). }
    rewrite put32_app by (rewrite ?Hv; (done || lia || (apply fat_value_nonneg; lia))). bindr. rewrite Hv.
    rewrite !u32_small by lia.
    replace (c - first_cluster f + 1) with (c + 1 - first_cluster f) by lia.
    replace (4 * Z.of_nat (S k) - 4) with (4 * Z.of_nat k) by lia.
    replace (Z.of_nat (length pre) + 4) with (Z.of_nat (length (pre ++ le_bytes 4 (fat_value c))))
      by (rewrite length_app, le_bytes_length; lia).
    destruct (IH fuel (c + 1) (pre ++ le_bytes 4 (fat_value c)) (drop 4 rest)) as (j & Hj & _ & ->);
      [lia..|rewrite length_drop; lia|].
    exists (S j). split; [lia|]. split; [lia|].
    rewrite (fat_step _ k) by done. rewrite length_app, le_bytes_length. pair_eq.
  - exists 0%nat. split; [lia|]. split; [lia|]. cbn [fat_bytes]. rewrite app_nil_r, drop_0. pair_eq.
Qed.

Lemma fat_entries_spec k : ∀ fuel c (pre rest : list Z),
  (k < fuel)%nat → rc ≤ c → c + Z.of_nat k < 4294967296 → 4 * Z.of_nat k < 4294967296 →
  (4 * k ≤ length rest)%nat →
  fat_entries fuel param fs c (4 * Z.of_nat k) (Z.of_nat (length pre)) (pre ++ rest) =
  Some ((pre ++ fat_bytes c k) ++ drop (4 * k) rest).
Proof.
  pose proof Hm as [Hcs Hfo Hnd Hlaid Hrc He].
  induction k as [k IH] using lt_wf_ind. intros fuel c pre rest Hfuel Hc Hb Hb4 Hl.
  destruct fuel as [|fuel]; [lia|]. cbn [fat_entries]. destruct k as [|k].
  { cbn [fat_bytes]. by rewrite app_nil_r, drop_0. }
  rewrite (proj2 (Z.eqb_neq (4 * Z.of_nat (S k)) 0)) by lia.
  rewrite (get_file_forest param fs _ _ _ _ ltac:(lia) Hfo ltac:(done) (forest_fuel _ _ _ Hfo Hnd)). bindr.
  pose proof (laid_owner param fs _ _ _ c Hlaid ltac:(lia) ltac:(lia)) as Hown.
  assert (Hval : List.find (covers param fs c) (root param :: l) = None → fat_value c = 0).
  { intros Hnone. unfold fat_value. rewrite (proj2 (Z.eqb_neq c 0)), (proj2 (Z.ltb_ge c rc)) by lia.
    by rewrite Hnone. }
  destruct (List.find _ _) as [x|] eqn:Hx; cbn [default].
  - destruct Hown as (Hin & f & n & Hf & Hp & Hn0 & H1 & H2 & H3).
    assert (Hx0 : x ≠ NULL) by (by apply (forest_elem _ _ _ _ Hfo)). apply Z.eqb_neq in Hx0. change (id x) with x.
    rewrite Hx0, Hf. bindr. destruct Hp as (Hn & Hp). rewrite Hn. bindr. rewrite u32_small by lia.
    destruct (fat_file_spec x f n (S k) Hf Hn) with (fuel := S (Z.to_nat (4 * Z.of_nat (S k)))) (c := c)
      (pre := pre) (rest := rest) as (j & Hj & Hjp & ->); [lia|lia| |lia|lia|lia|lia|lia|].
    { intros d Hd. destruct (laid_runs param fs _ _ _ x Hlaid Hin) as (f2 & n2 & d2 & Hf2 & Hp2 & Hd2 & He2 & Hk).
      simplify_eq. destruct Hp2 as (Hn2 & _ & _ & Hfc & _). simplify_eq.
      destruct (Hfc Hn0) as (Hfc2 & _). rewrite Hfc2 in Hd. apply Hk; lia. }
    bindr. specialize (Hjp ltac:(lia) ltac:(lia)).
    replace (Z.of_nat (length pre) + 4 * Z.of_nat j) with (Z.of_nat (length (pre ++ fat_bytes c j)))
      by (rewrite length_app, fat_bytes_length; lia).
    rewrite (IH (S k - j)%nat) by (rewrite ?length_drop; lia). f_equal.
    rewrite <- !app_assoc, drop_drop. f_equal. rewrite app_assoc, <- fat_bytes_app.
    do 3 f_equal; lia.
  - change (NULL =? NULL) with true. cbv iota.
    rewrite put32_app by (done || lia). bindr. rewrite u32_small, room_next by lia.
    replace (Z.of_nat (length pre) + 4) with (Z.of_nat (length (pre ++ le_bytes 4 0)))
      by (rewrite length_app, le_bytes_length; lia).
    rewrite (IH k) by (rewrite ?length_drop; lia). f_equal. rewrite <- (Hval eq_refl).
    by apply (fat_step c k k).
Qed.

(** A sector of the FAT. *)
Lemma write_fat_spec c k (pre rest : list Z) n :
  0 ≤ n → n * Z.of_nat k = c → c + Z.of_nat k < 4294967296 → 4 * Z.of_nat k < 4294967296 →
  (4 * k ≤ length rest)%nat →
  write_fat param fs rc n (4 * Z.of_nat k) (Z.of_nat (length pre)) (pre ++ rest) =
  Some (pre ++ fat_bytes c k ++ drop (4 * k) rest).
Proof.
  intros Hn Hc Hb Hb4 Hl. unfold write_fat. rewrite Z.mul_comm, Z.div_mul, Hc, u32_small by lia.
  rewrite (Z.mul_comm (Z.of_nat k) 4).
  destruct (fat_reserved_spec k (S (Z.to_nat (4 * Z.of_nat k))) c pre rest) as (j & Hj & Hor & ->);
    [lia..|]. bindr.
  replace (Z.of_nat (length pre) + 4 * Z.of_nat j) with (Z.of_nat (length (pre ++ fat_bytes c j)))
    by (rewrite length_app, fat_bytes_length; lia).
  destruct Hor as [->|Hor].
  - rewrite Nat.sub_diag. cbn [fat_entries]. rewrite (app_assoc pre). done.
  - rewrite fat_entries_spec by (rewrite ?length_drop; lia).
    rewrite <- !app_assoc, drop_drop, (app_assoc (fat_bytes c j)), <- fat_bytes_app.
    repeat (f_equal; try lia).
Qed.
End fat.

(** ** Fields of a sector *)

(** Codecs of little-endian words. *)
Definition le16 : codec := Build_codec 2 GET_U16_LSBFIRST SET_U16_LSBFIRST id.
Definition le32 : codec := Build_codec 4 GET_U32_LSBFIRST SET_U32_LSBFIRST id.

Lemma le16_in : le16 ∈ codecs.
Proof. unfold codecs, le16. set_solver. Qed.
Lemma le32_in : le32 ∈ codecs.
Proof. unfold codecs, le32. set_solver. Qed.

Definition field (o n : nat) (p : list Z) : list Z := take n (drop o p).

Lemma field_same o x p : (o + length x ≤ length p)%nat → field o (length x) (list_inserts o x p) = x.
Proof.
  intros Hl. unfold field. apply list_eq. intros j. destruct (decide (j < length x)%nat) as [Hj|Hj].
  - rewrite lookup_take_lt, lookup_drop, list_lookup_inserts by lia. f_equal. lia.
  - rewrite !lookup_ge_None_2; [done|lia|]. rewrite length_take. lia.
Qed.

Lemma field_other o n o' x p :
  (o + n ≤ o' ∨ o' + length x ≤ o)%nat → field o n (list_inserts o' x p) = field o n p.
Proof.
  intros Hd. unfold field. apply list_eq. intros j. destruct (decide (j < n)%nat) as [Hj|Hj].
  - rewrite !lookup_take_lt, !lookup_drop by lia.
    destruct Hd; [by rewrite list_lookup_inserts_lt by lia|by rewrite list_lookup_inserts_ge by lia].
  - by rewrite !lookup_take_ge by lia.
Qed.

Lemma field_app o n p q : (o + n ≤ length p)%nat → field o n (p ++ q) = field o n p.
Proof. intros H. unfold field. rewrite drop_app_le by lia. by rewrite take_app_le by (rewrite length_drop; lia). Qed.

Lemma inserts_split o (x p : list Z) :
  (o + length x ≤ length p)%nat → list_inserts o x p = take o p ++ x ++ drop (o + length x) p.
Proof.
  intros Hl. assert (Ho : length (take o p) = o) by (rewrite length_take; lia).
  rewrite <- (take_drop o p) at 1. rewrite <- (Nat.add_0_r o) at 1. rewrite <- Ho at 1.
  rewrite list_inserts_app_r. f_equal. rewrite <- (take_drop (length x) (drop o p)).
  rewrite list_inserts_0_r by (rewrite length_take, length_drop; lia). by rewrite drop_drop.
Qed.

Lemma set_at_page c (pre p post : list Z) k v :
  c ∈ codecs → 0 ≤ k → 0 ≤ v → (Z.to_nat k + c_len c ≤ length p)%nat →
  set_at (c_set c) (pre ++ p ++ post) (Z.of_nat (length pre) + k) v =
    Some (pre ++ list_inserts (Z.to_nat k) (c_order c (le_bytes (c_len c) v)) p ++ post).
Proof.
  intros Hc Hk Hv Hl. set (o := Z.to_nat k) in *. replace k with (Z.of_nat o) by lia. destruct (codec_order_involutive c Hc) as (Hlen & _ & _).
  specialize (Hlen (le_bytes (c_len c) v)). rewrite le_bytes_length in Hlen.
  set (x := c_order c (le_bytes (c_len c) v)) in *.
  rewrite <- (take_drop o p) at 1. rewrite <- app_assoc, app_assoc.
  rewrite set_at_app; [|exact (proj1 (Forall_forall _ _) codecs_ok c Hc)| |done|].
  - fold x. rewrite inserts_split by lia. rewrite drop_app_le by (rewrite length_drop; lia).
    rewrite drop_drop, Hlen, <- !app_assoc. done.
  - rewrite length_app, length_take. lia.
  - rewrite length_app, length_drop. lia.
Qed.

Lemma setb_page (pre p post : list Z) k v :
  0 ≤ k < Z.of_nat (length p) →
  setb (pre ++ p ++ post) (Z.of_nat (length pre) + k) v =
    Some (pre ++ list_inserts (Z.to_nat k) [v] p ++ post).
Proof. intros Hk. by rewrite (setb_app _ _ _ _ k) by lia. Qed.

Lemma get_at_field c p o :
  c ∈ codecs → bytes p → (o + c_len c ≤ length p)%nat →
  get_at (c_get c) p (Z.of_nat o) = Some (le_value (c_order c (field o (c_len c) p))).
Proof.
  intros Hc Hb Hl. rewrite <- (take_drop o p) at 1.
  rewrite get_at_app; [done|exact (proj1 (Forall_forall _ _) codecs_ok c Hc)| | |].
  - rewrite length_take. lia.
  - by apply Forall_drop.
  - rewrite length_drop. lia.
Qed.

(** ** Sectors *)

(** What the memory file system reads from the contents [b] of a file. *)
Lemma memfs_read_spec f b off n :
  0 ≤ f_size (mfile f) ≤ Z.of_nat (length b) → f_size (mfile f) < 4294967296 → 0 ≤ off → 0 ≤ n →
  ∃ r, vsfile_memfs_read f b off n =
    Some (take (Z.to_nat n) (drop (Z.to_nat off) (take (Z.to_nat (f_size (mfile f))) b)), r).
Proof.
  intros Hb Hs Ho Hn. unfold vsfile_memfs_read. destruct (Z.leb_spec (f_size (mfile f)) off).
  - exists 0. rewrite (drop_ge (take _ b)) by (rewrite length_take; lia). by rewrite take_nil.
  - rewrite u32_small by lia. rewrite read_at_in by lia. bindr. eexists. do 2 f_equal.
    replace (Z.to_nat (f_size (mfile f)))
      with (Z.to_nat off + Z.to_nat (f_size (mfile f) - off))%nat by lia.
    rewrite <- take_drop_commute, take_take. f_equal. lia.
Qed.

Section sectors.
Context (user_cb : Z → Z → Z → Z → Z → Z → Z → fakefat32 → list Z →
  option (Z * fakefat32 * list Z)).
Context (a : Z) (param : fakefat32_param_t).
Implicit Types (w : mworld fakefat32).

(** The volume is served at [a] and the host has not overwritten its boot
    sector. *)
Record serving w : Prop := {
  sv_pt : ∃ p, pts w !! a = Some p ∧ user_data p = a;
  sv_mal : ∃ m, mals w !! a = Some m ∧ block_size (cap m) = sector_size param;
  sv_param : ∃ pa, mal_param (dev w) !! a = Some pa ∧ ff_params (dev w) !! pa = Some param;
  sv_mbr : fakefat32_mbr (dev w) = fakefat32_mbr_init }.

(** Sectors of at least 512 bytes, in which entries do not cross a boundary;
    all of the volume has 32-bit addresses. *)
Record geometry_ok : Prop := {
  g_ss : 512 ≤ sector_size param < 65536;
  g_ss32 : sector_size param mod 32 = 0;
  g_spc : 0 < sectors_per_cluster param < 256;
  g_sn : 0 ≤ sector_number param;
  g_all : (64 + sector_number param) * sector_size param ≤ 4294967296;
  g_ids : fits 32 (volume_id param) ∧ fits 32 (disk_id param) }.

Context (Hg : geometry_ok).

Notation ss := (sector_size param).
Notation spc := (sectors_per_cluster param).

(** The sectors of one FAT, and the first sector of the data. *)
Definition fat_sectors : Z := (sector_number param / spc + 3) * 4 / ss + 1.
Definition data_base : Z := 80 + 2 * fat_sectors.

Lemma fat_sectors_bound : 1 ≤ fat_sectors ∧ fat_sectors * ss ≤ 2 * 4294967296 ∧
  (sector_number param / spc + 3) * 4 < fat_sectors * ss ∧ data_base < 4294967296.
Proof.
  destruct Hg as [H1 H2 H3 H4 H5 _]. unfold data_base, fat_sectors.
  set (q := sector_number param / spc). assert (Hq : 0 ≤ q ≤ sector_number param).
  { split; [apply Z.div_pos; lia|]. apply Z.div_le_upper_bound; nia. }
  pose proof (Z.div_mod ((q + 3) * 4) ss ltac:(lia)) as Hdm.
  pose proof (Z.mod_pos_bound ((q + 3) * 4) ss ltac:(lia)). set (d := (q + 3) * 4 / ss) in *.
  assert (0 ≤ d) by (apply Z.div_pos; lia). split_and!; nia.
Qed.

Lemma calc_fat_sectors_init :
  fakefat32_calc_fat_sectors param fakefat32_mbr_init = Some fat_sectors.
Proof.
  pose proof fat_sectors_bound as (Hf1 & Hf2 & Hf3 & Hf4). destruct Hg as [H1 H2 H3 H4 H5 _].
  unfold fakefat32_calc_fat_sectors. change (FAT32_ROOT_CLUSTER fakefat32_mbr_init) with (Some 2). bindr.
  unfold udiv. rewrite (proj2 (Z.eqb_neq spc 0)), (proj2 (Z.eqb_neq ss 0)) by lia. bindr.
  set (q := sector_number param / spc) in *. assert (Hq : 0 ≤ q ≤ sector_number param).
  { split; [apply Z.div_pos; lia|]. apply Z.div_le_upper_bound; nia. }
  assert (Hb : (q + 3) * 4 < 4294967296) by nia.
  replace (q + 1 + 2) with (q + 3) by lia. rewrite (u32_small ((q + 3) * 4)) by lia.
  unfold fat_sectors in *. fold q in Hf1, Hf2, Hf3 |- *. rewrite u32_small; [done|]. unfold data_base, fat_sectors in Hf4.
  fold q in Hf4. lia.
Qed.

Lemma mal_of_serving w : serving w →
  ∃ m, mal_of a w = Some (a, m, param) ∧ block_size (cap m) = ss.
Proof.
  intros [(p & Hp & <-) (m & Hm & Hb) (pa & Ha & Hpa) _]. exists m. split; [|done].
  unfold mal_of. rewrite Hp. bindr. rewrite Hm. bindr. rewrite Ha. bindr. by rewrite Hpa.
Qed.

(** The beginning of [fakefat32_mal_read], up to the case analysis on the
    sector [n]. *)
Ltac start_read Hw n :=
  pose proof fat_sectors_bound as (?Hf1 & ?Hf2 & ?Hf3 & ?Hf4); pose proof (g_ss Hg);
  destruct (mal_of_serving _ Hw) as (?m & ?Hmal & ?Hbs);
  unfold fakefat32_mal_read; rewrite Hmal; bindr; rewrite Hbs, (sv_mbr _ Hw);
  rewrite (u32_small ss), (u32_small (n * ss)) by lia; unfold udiv at 1;
  rewrite (proj2 (Z.eqb_neq ss 0)), Z.div_mul by lia; bindr;
  rewrite calc_fat_sectors_init; bindr;
  change (FAT32_ROOT_CLUSTER fakefat32_mbr_init) with (Some 2);
  change (FAT32_HIDDEN_SECTORS fakefat32_mbr_init) with (Some 64);
  change (FAT32_RES_SECTORS fakefat32_mbr_init) with (Some 16);
  change (FAT32_FAT_NUM fakefat32_mbr_init) with (Some 2);
  change (FAT32_BACKUP_SECTOR fakefat32_mbr_init) with (Some 6);
  change (FAT32_FSINFO_SECTOR fakefat32_mbr_init) with (Some 1); bindr;
  change (0 <? 64) with true; cbn [andb];
  change (u32 (64 + 6)) with 70; change (u32 (64 + 1)) with 65; change (u32 (64 + 6 + 1)) with 71;
  change (u32 (64 + 1 + 1)) with 66; change (u32 (64 + 6 + 1 + 1)) with 72;
  change (u32 (64 + 16)) with 80;
  replace (64 + 16 + 2 * fat_sectors) with data_base by (unfold data_base; lia);
  rewrite (u32_small data_base) by (unfold data_base in *; lia).

(** A FAT sector, in either copy. *)
Lemma read_fat_sector w l e evt sz n j k (pre page post : list Z) :
  serving w → mounted param (ff_files (dev w)) l 2 e → 0 ≤ j < 2 → 0 ≤ k < fat_sectors →
  n = 80 + j * fat_sectors + k → n * ss < 4294967296 →
  ram w = pre ++ page ++ post → Z.of_nat (length page) = ss →
  fakefat32_mal_read user_cb a evt (n * ss) (Z.of_nat (length pre)) sz w =
  Some (VSFERR_NONE, set_ram w
    (pre ++ fat_bytes param (ff_files (dev w)) l 2 (k * (ss / 4)) (Z.to_nat (ss / 4)) ++ post)).
Proof.
  intros Hw Hm Hj Hk Hn Hb Hram Hlen. start_read Hw n.
  assert (H4 : ss = 4 * Z.of_nat (Z.to_nat (ss / 4))) by (pose proof (g_ss32 Hg); Z.div_mod_to_equations; lia).
  assert (Hjf : 0 ≤ j * fat_sectors ≤ fat_sectors) by nia.
  rewrite (proj2 (Z.ltb_lt n data_base)) by (unfold data_base; lia).
  rewrite Hram, memset_app by (rewrite ?length_app; lia). bindr.
  rewrite (proj2 (Z.eqb_neq 0 n)), (proj2 (Z.ltb_ge n 64)), (proj2 (Z.eqb_neq 64 n)),
    (proj2 (Z.eqb_neq 70 n)), (proj2 (Z.eqb_neq 65 n)), (proj2 (Z.eqb_neq 71 n)),
    (proj2 (Z.eqb_neq 66 n)), (proj2 (Z.eqb_neq 72 n)), (proj2 (Z.ltb_ge n 80)) by lia. cbn [orb].
  rewrite (proj2 (Z.eqb_neq fat_sectors 0)) by lia. bindr.
  assert (Hmod : u32 (n - 64 - 16) mod fat_sectors = k).
  { rewrite u32_small by lia. replace (n - 64 - 16) with (k + j * fat_sectors) by lia.
    rewrite Z.mod_add by lia. apply Z.mod_small. lia. }
  rewrite Hmod, H4 at 1. rewrite (write_fat_spec _ _ _ _ _ Hm (k * (ss / 4))).
  - bindr. do 3 f_equal. rewrite drop_app_ge by (rewrite length_replicate; lia).
    rewrite length_replicate, drop_app_ge by lia. do 2 f_equal. rewrite drop_drop.
    replace (_ + _)%nat with 0%nat by lia. apply drop_0.
  - lia.
  - rewrite Z2Nat.id by (apply Z.div_pos; lia). done.
  - set (q := ss / 4) in *. assert (0 ≤ q) by (apply Z.div_pos; lia). nia.
  - lia.
  - rewrite !length_app, length_replicate. lia.
Qed.

(** The sector after the FATs of that number. *)
Lemma read_data_sector w evt buff sz k :
  serving w → 0 ≤ k → (data_base + k) * ss < 4294967296 →
  fakefat32_mal_read user_cb a evt ((data_base + k) * ss) buff sz w =
  ('(err, s, m) ← read_data user_cb a evt param 2 k ss buff (dev w) (ram w);
   Some (err, set_dev (set_ram w m) s)).
Proof.
  intros Hw Hk Haddr. pose proof (g_spc Hg) as Hspc. pose proof (g_ss Hg).
  assert (Hd82 : 82 ≤ data_base) by (pose proof fat_sectors_bound; unfold data_base; lia).
  set (s := data_base + k) in *. assert (Hss0 : 0 ≤ s * ss) by (apply Z.mul_nonneg_nonneg; lia).
  assert (Hsb : s ≤ s * ss) by nia. start_read Hw s.
  rewrite (proj2 (Z.ltb_ge s data_base)) by lia. bindr.
  rewrite (proj2 (Z.eqb_neq 0 s)), (proj2 (Z.ltb_ge s 64)), (proj2 (Z.eqb_neq 64 s)),
    (proj2 (Z.eqb_neq 70 s)), (proj2 (Z.eqb_neq 65 s)), (proj2 (Z.eqb_neq 71 s)),
    (proj2 (Z.eqb_neq 66 s)), (proj2 (Z.eqb_neq 72 s)), (proj2 (Z.ltb_ge s 80)) by lia. cbn [orb].
  replace (s - 64 - 16 - 2 * fat_sectors) with k by (unfold s, data_base; lia).
  by rewrite (u32_small k) by lia.
Qed.

(** The sector of a file, and the place in the file. *)
Lemma locate_run fs l e x f n i :
  mounted param fs l 2 e → x ∈ root param :: l → fs !! x = Some f → clusters_of param (size_of f) = Some n →
  0 ≤ i < n * spc → i * ss < 4294967296 →
  locate param fs 2 ((first_cluster f - 2) * spc + i) = Some (x, i * ss) ∧ x ≠ NULL.
Proof.
  intros Hm Hx Hf Hn Hi Hoff. pose proof (g_spc Hg) as Hspc. pose proof (g_ss Hg).
  assert (Hn0 : n ≠ 0) by lia.
  destruct (mounted_run _ _ _ _ _ _ _ _ Hm Hx Hf Hn Hn0) as (Hn1 & Hfc & Hfe & _ & _ & Hrun).
  assert (Hx0 : x ≠ NULL) by (by apply (forest_elem _ _ _ _ (m_forest _ _ _ _ _ Hm))). split; [|done].
  unfold locate, udiv. rewrite (proj2 (Z.eqb_neq spc 0)) by lia. bindr.
  rewrite (Z.add_comm _ i), Z.div_add by lia.
  assert (Hq : 0 ≤ i / spc < n) by (split; [apply Z.div_pos; lia|apply Z.div_lt_upper_bound; lia]).
  pose proof (m_fits _ _ _ _ _ Hm).
  rewrite u32_small, (mounted_get_file _ _ _ _ _ _ Hm) by lia. bindr. rewrite (Hrun _) by lia.
  change (default NULL (Some x)) with x. rewrite (proj2 (Z.eqb_neq x NULL)), Hf by done. bindr.
  replace (ss * _) with (i * ss) by lia.
  by rewrite u32_small by (split; [apply Z.mul_nonneg_nonneg|]; lia).
Qed.

(** A sector of a file in memory: its bytes, and then what the buffer had. *)
Lemma read_file_sector w l e evt sz x f n b i (pre page post : list Z) :
  serving w → mounted param (ff_files (dev w)) l 2 e → x ∈ root param :: l →
  ff_files (dev w) !! x = Some f → is_dir f = false → memptr (memfile f) ≠ NULL →
  has (attr_of f) VSFILE_ATTR_WRITEONLY = false →
  ff_bufs (dev w) !! memptr (memfile f) = Some b → 0 ≤ size_of f ≤ Z.of_nat (length b) →
  clusters_of param (size_of f) = Some n → 0 ≤ i < n * spc →
  size_of f + cluster_size_of param ≤ 4294967296 →
  (data_base + (first_cluster f - 2) * spc + i) * ss < 4294967296 →
  ram w = pre ++ page ++ post → Z.of_nat (length page) = ss →
  fakefat32_mal_read user_cb a evt ((data_base + (first_cluster f - 2) * spc + i) * ss)
    (Z.of_nat (length pre)) sz w =
  Some (VSFERR_NONE, set_ram w (pre ++
    (let src := take (Z.to_nat ss) (drop (Z.to_nat (i * ss)) (take (Z.to_nat (size_of f)) b)) in
     src ++ drop (length src) page) ++ post)).
Proof.
  intros Hw Hm Hx Hf Hd Hptr Hwo Hb Hlb Hn Hi Hsz Haddr Hram Hlen. pose proof (g_spc Hg) as Hspc.
  pose proof (g_ss Hg) as Hss. assert (Hn0 : n ≠ 0) by lia.
  destruct (mounted_run _ _ _ _ _ _ _ _ Hm Hx Hf Hn Hn0) as (Hn1 & Hfc & _).
  assert (Hs0 : 0 ≤ (first_cluster f - 2) * spc) by (apply Z.mul_nonneg_nonneg; lia).
  assert (Hoff : 0 ≤ i * ss < 4294967296).
  { pose proof (m_cs _ _ _ _ _ Hm) as Hcs. rewrite (clusters_of_fits _ Hcs) in Hn by lia.
    injection Hn as <-. pose proof (Z.mul_div_le (size_of f + cluster_size_of param - 1)
      (cluster_size_of param) ltac:(lia)). unfold cluster_size_of in *. nia. }
  rewrite <- Z.add_assoc in *. rewrite read_data_sector by (done || lia).
  destruct (locate_run _ _ _ x f n i Hm Hx Hf Hn Hi ltac:(lia)) as [Hloc Hx0].
  unfold read_data. rewrite Hloc. bindr. apply Z.eqb_neq in Hx0, Hptr. rewrite Hx0, Hf. bindr.
  rewrite Hwo, Hptr. unfold is_dir in Hd. rewrite Hd. cbn [negb andb]. rewrite Hb. bindr.
  destruct (memfs_read_spec (memfile f) b (i * ss) ss) as (r & ->);
    [lia|unfold cluster_size_of in *; nia|lia|lia|]. bindr.
  set (src := take (Z.to_nat ss) _).
  assert (Hsrc : (length src ≤ length page)%nat) by (unfold src; rewrite length_take; lia).
  rewrite Hram, put_app by (rewrite ?length_app; lia). bindr. cbv zeta. rewrite <- app_assoc.
  rewrite drop_app_le by done. done.
Qed.

(** A sector of a directory: what its callback makes. *)
Lemma read_dir_sector w l e evt sz x f n i buff r :
  serving w → mounted param (ff_files (dev w)) l 2 e → x ∈ root param :: l →
  ff_files (dev w) !! x = Some f → is_dir f = true → cb_read f = DIR_READ_FN →
  has (attr_of f) VSFILE_ATTR_WRITEONLY = false → clusters_of param (size_of f) = Some n →
  0 ≤ i < n * spc → i * ss < 4294967296 → (data_base + (first_cluster f - 2) * spc + i) * ss < 4294967296 →
  fakefat32_dir_read x (i * ss) buff ss (dev w) (ram w) = Some r →
  fakefat32_mal_read user_cb a evt ((data_base + (first_cluster f - 2) * spc + i) * ss) buff sz w =
  Some (r.1.1, set_dev (set_ram w r.2) r.1.2).
Proof.
  intros Hw Hm Hx Hf Hd Hcb Hwo Hn Hi Hoff Haddr Hr. pose proof (g_spc Hg) as Hspc. assert (Hn0 : n ≠ 0) by lia.
  destruct (mounted_run _ _ _ _ _ _ _ _ Hm Hx Hf Hn Hn0) as (Hn1 & Hfc & _).
  assert (Hs0 : 0 ≤ (first_cluster f - 2) * spc) by (apply Z.mul_nonneg_nonneg; lia).
  rewrite <- Z.add_assoc in *. rewrite read_data_sector by (done || lia).
  destruct (locate_run _ _ _ x f n i Hm Hx Hf Hn Hi ltac:(lia)) as [Hloc Hx0].
  unfold read_data. rewrite Hloc. bindr. apply Z.eqb_neq in Hx0. rewrite Hx0, Hf. bindr.
  rewrite Hwo. unfold is_dir in Hd. rewrite Hd, andb_false_r, Hcb. cbn [DIR_READ_FN NULL Z.eqb negb].
  unfold call_read. cbn [DIR_READ_FN Z.eqb Pos.eqb]. rewrite Hr. by destruct r as [[err s] m].
Qed.

(** Sector 0 and the boot sector, as the changes made to a sector of zeros and
    to the template. *)
Definition dpt_page : list Z :=
  list_inserts 510 (le_bytes 2 0xAA55) (list_inserts 0x1CA (le_bytes 4 (sector_number param))
  (list_inserts 0x1C6 (le_bytes 4 64) (list_inserts 0x1C5 [0xFF] (list_inserts 0x1C4 [0xFF]
  (list_inserts 0x1C3 [0x01] (list_inserts 0x1C2 [0x0B] (list_inserts 0x1C1 [0x00]
  (list_inserts 0x1C0 [0x01] (list_inserts 0x1BF [0x01] (list_inserts 0x1BE [0x80]
  (list_inserts 0x1B8 (le_bytes 4 (disk_id param)) (replicate (Z.to_nat ss) 0)))))))))))).

Definition boot_page : list Z :=
  list_inserts 0x43 (le_bytes 4 (volume_id param)) (list_inserts 0x24 (le_bytes 4 fat_sectors)
  (list_inserts 0x20 (le_bytes 4 (sector_number param)) (list_inserts 0x0D [spc]
  (list_inserts 0x0B (le_bytes 2 ss) (fakefat32_mbr_init ++ replicate (Z.to_nat ss - 512) 0))))).

(** Write the next field of the sector after [pre]. *)
Ltac write_field :=
  first
  [ rewrite (set_at_page le32) by (apply le32_in || lia || (cbn [c_len le32]; rewrite ?length_inserts; lia))
  | rewrite (set_at_page le16) by (apply le16_in || lia || (cbn [c_len le16]; rewrite ?length_inserts; lia))
  | rewrite setb_page by (rewrite ?length_inserts; lia) ]; bindr; cbn [c_order c_len le32 le16 id].

Lemma write_dpt_page (pre post : list Z) :
  write_dpt param 64 (Z.of_nat (length pre)) (pre ++ replicate (Z.to_nat ss) 0 ++ post) =
  Some (pre ++ dpt_page ++ post).
Proof.
  pose proof (g_ss Hg). pose proof (g_sn Hg). destruct (g_ids Hg) as [_ [Hid _]].
  unfold write_dpt, dpt_page. set (page := replicate _ _).
  assert (Hp : (512 ≤ length page)%nat) by (unfold page; rewrite length_replicate; lia).
  do 12 write_field. done.
Qed.

Lemma write_boot_page (pre post : list Z) :
  write_boot param fakefat32_mbr_init fat_sectors (Z.of_nat (length pre))
    (pre ++ replicate (Z.to_nat ss) 0 ++ post) =
  Some (pre ++ boot_page ++ post).
Proof.
  pose proof (g_ss Hg). pose proof (g_sn Hg). destruct (g_ids Hg) as [[Hid _] _].
  pose proof fat_sectors_bound as (Hf1 & _).
  unfold write_boot, boot_page. assert (Hl : length fakefat32_mbr_init = 512%nat) by reflexivity.
  set (mbr := fakefat32_mbr_init) in *. clearbody mbr.
  rewrite put_app by (rewrite ?length_app, ?length_replicate; lia). bindr.
  rewrite Hl, drop_app_le by (rewrite length_replicate; lia). rewrite drop_replicate, (app_assoc mbr).
  set (page := mbr ++ _).
  assert (Hp : (512 ≤ length page)%nat) by (unfold page; rewrite length_app; lia).
  do 5 write_field. done.
Qed.

(** What a host gets when it reads sector [n] into a buffer of zeros. *)
Definition read_sector w (n : Z) : option (list Z) :=
  '(err, w') ← fakefat32_mal_read user_cb a 0 (n * ss) 0 ss (set_ram w (replicate (Z.to_nat ss) 0));
  if err =? 0 then Some (ram w') else None.

Lemma serving_ram w r : serving w → serving (set_ram w r).
Proof. intros [H1 H2 H3 H4]. by constructor. Qed.

(** A read of a buffer of zeros, from what the read does to any buffer. *)
Lemma read_sector_at w n page :
  length page = Z.to_nat ss →
  fakefat32_mal_read user_cb a 0 (n * ss) (Z.of_nat (length (@nil Z))) ss
    (set_ram w ([] ++ replicate (Z.to_nat ss) 0 ++ [])) =
    Some (VSFERR_NONE, set_ram (set_ram w ([] ++ replicate (Z.to_nat ss) 0 ++ [])) ([] ++ page ++ [])) →
  read_sector w n = Some page.
Proof.
  intros Hl H. unfold read_sector. rewrite app_nil_r in H. cbn [app length] in H.
  change (Z.of_nat 0) with 0 in H. rewrite H.
  bindr. cbn [VSFERR_NONE Z.eqb ram set_ram]. by rewrite app_nil_r.
Qed.

Lemma dpt_page_length : length dpt_page = Z.to_nat ss.
Proof. unfold dpt_page. by rewrite !length_inserts, length_replicate. Qed.

Lemma boot_page_length : length boot_page = Z.to_nat ss.
Proof.
  unfold boot_page. rewrite !length_inserts, length_app, length_replicate.
  change (length fakefat32_mbr_init) with 512%nat. pose proof (g_ss Hg). lia.
Qed.

Lemma read_dpt w : serving w → read_sector w 0 = Some dpt_page.
Proof.
  intros Hw. apply read_sector_at; [apply dpt_page_length|]. pose proof (serving_ram _ ([] ++ replicate (Z.to_nat ss) 0 ++ []) Hw) as Hw'.
  pose proof fat_sectors_bound. start_read Hw' 0.
  rewrite (proj2 (Z.ltb_lt 0 data_base)) by (unfold data_base; lia). cbn [ram set_ram].
  rewrite memset_app by (rewrite ?length_app, ?length_replicate; lia). bindr.
  rewrite drop_app_ge by (rewrite length_replicate; lia). rewrite length_replicate, Nat.sub_diag, drop_0.
  change (0 =? 0) with true. cbv iota. by rewrite write_dpt_page.
Qed.

Lemma read_boot w : serving w → read_sector w 64 = Some boot_page.
Proof.
  intros Hw. apply read_sector_at; [apply boot_page_length|]. pose proof (serving_ram _ ([] ++ replicate (Z.to_nat ss) 0 ++ []) Hw) as Hw'.
  pose proof fat_sectors_bound. start_read Hw' 64.
  rewrite (proj2 (Z.ltb_lt 64 data_base)) by (unfold data_base; lia). cbn [ram set_ram].
  rewrite memset_app by (rewrite ?length_app, ?length_replicate; lia). bindr.
  rewrite drop_app_ge by (rewrite length_replicate; lia). rewrite length_replicate, Nat.sub_diag, drop_0.
  change (0 =? 64) with false. change (64 <? 64) with false. change (64 =? 64) with true. cbn [orb].
  by rewrite write_boot_page.
Qed.
End sectors.

(** ** A reader of FAT32 volumes

    The specification: the partition table gives the first sector, the boot
    sector the sizes, and the FAT the chain of clusters. *)

Record fat32_geometry := { r_ss : Z; r_spc : Z; r_fat : Z; r_fat_size : Z; r_data : Z; r_root : Z }.

Section reader.
Context (sec : Z → option (list Z)).

Definition fat32_open : option fat32_geometry :=
  s0 ← sec 0;
  sig ← get_at GET_U16_LSBFIRST s0 510;
  if negb (sig =? 0xAA55) then None
  else
    lba ← get_at GET_U32_LSBFIRST s0 0x1C6;
    bs ← sec lba;
    bytes_per_sec ← get_at GET_U16_LSBFIRST bs 0x0B;
    sec_per_clus ← getb bs 0x0D;
    rsvd ← get_at GET_U16_LSBFIRST bs 0x0E;
    num_fats ← getb bs 0x10;
    fat_size ← get_at GET_U32_LSBFIRST bs 0x24;
    root_clus ← get_at GET_U32_LSBFIRST bs 0x2C;
    Some {| r_ss := bytes_per_sec; r_spc := sec_per_clus; r_fat := lba + rsvd; r_fat_size := fat_size;
      r_data := lba + rsvd + num_fats * fat_size; r_root := root_clus |}.

Definition fat32_entry (g : fat32_geometry) (c : Z) : option Z :=
  s ← sec (r_fat g + c * 4 / r_ss g); get_at GET_U32_LSBFIRST s (c * 4 mod r_ss g).

(** The clusters of the chain that starts at [c]. *)
Fixpoint fat32_chain (g : fat32_geometry) (fuel : nat) (c : Z) : option (list Z) :=
  match fuel with
  | O => None
  | S fuel =>
    v ← fat32_entry g c;
    if 0x0FFFFFF8 <=? v then Some [c] else cons c <$> fat32_chain g fuel v
  end.

Definition fat32_cluster (g : fat32_geometry) (c : Z) : option (list Z) :=
  @concat Z <$> mapM (λ i, sec (r_data g + (c - 2) * r_spc g + Z.of_nat i)) (seq 0 (Z.to_nat (r_spc g))).

(** All the bytes of the chain; no chain is longer than the FAT. *)
Definition fat32_read (g : fat32_geometry) (c : Z) : option (list Z) :=
  cs ← fat32_chain g (Z.to_nat (r_fat_size g * r_ss g / 4)) c;
  @concat Z <$> mapM (fat32_cluster g) cs.
End reader.

(** ** What the reader finds *)

Lemma concat_windows (P : nat → list Z) (d : list Z) k s m :
  (∀ i, (s ≤ i < s + m)%nat → P i = take k (drop (i * k) d)) →
  concat (P <$> seq s m) = take (m * k) (drop (s * k) d).
Proof.
  revert s. induction m as [|m IH]; intros s HP; [done|]. cbn [seq fmap list_fmap concat].
  rewrite HP, (IH (S s)) by (intros; try apply HP; lia).
  rewrite <- (take_drop k (drop (s * k) d)) at 2. rewrite drop_drop.
  replace (S m * k)%nat with (k + m * k)%nat by lia. replace (S s * k)%nat with (s * k + k)%nat by lia.
  destruct (decide (k ≤ length (drop (s * k) d))%nat) as [Hk|Hk].
  - rewrite take_app_add' by (rewrite length_take; lia). done.
  - rewrite length_drop in Hk. rewrite (drop_ge d (s * k + k)) by lia.
    rewrite !take_nil, !app_nil_r, take_take. f_equal. lia.
Qed.

Lemma mapM_seq {B} (g : nat → option B) (P : nat → B) s m :
  (∀ i, (s ≤ i < s + m)%nat → g i = Some (P i)) → mapM g (seq s m) = Some (P <$> seq s m).
Proof.
  revert s. induction m as [|m IH]; intros s Hg; [done|]. cbn [seq mapM].
  rewrite Hg by lia. bindr. rewrite IH by (intros; apply Hg; lia). done.
Qed.

Lemma mapM_compose {A B C} (g : B → option C) (h : A → B) (l : list A) :
  mapM g (h <$> l) = mapM (λ x, g (h x)) l.
Proof. induction l as [|x l IH]; [done|]. cbn [fmap list_fmap mapM]. by rewrite IH. Qed.

(** A window on a list that is followed by zeros. *)
Lemma window_zeros (b : list Z) p k m :
  (p + k ≤ length b + m)%nat →
  take k (drop p (b ++ replicate m 0)) =
  take k (drop p b) ++ drop (length (take k (drop p b))) (replicate k 0).
Proof.
  intros Hm. rewrite drop_app, take_app, drop_replicate, take_replicate, drop_replicate.
  f_equal. f_equal. rewrite length_take, !length_drop. lia.
Qed.

Section reading.
Context (user_cb : Z → Z → Z → Z → Z → Z → Z → fakefat32 → list Z →
  option (Z * fakefat32 * list Z)).
Context (a : Z) (param : fakefat32_param_t) (Hg : geometry_ok param).
Context (w : mworld fakefat32) (Hw : serving a param w).
Notation ss := (sector_size param).
Notation spc := (sectors_per_cluster param).
Notation sec := (read_sector user_cb a param w).

Definition opened : fat32_geometry :=
  {| r_ss := ss; r_spc := spc; r_fat := 80; r_fat_size := fat_sectors param;
     r_data := data_base param; r_root := 2 |}.

Lemma bytes_dpt_page : bytes (dpt_page param).
Proof.
  unfold dpt_page, bytes. repeat (apply Forall_inserts; [|first [apply le_bytes_bytes|by_decide]]).
  apply Forall_replicate. lia.
Qed.

Lemma bytes_boot_page : bytes (boot_page param).
Proof.
  pose proof (g_spc _ Hg). unfold boot_page, bytes.
  repeat (apply Forall_inserts; [|first [apply le_bytes_bytes|by_decide|repeat constructor; lia]]).
  apply Forall_app. split; [by_decide|]. apply Forall_replicate. lia.
Qed.

Lemma field_le n o v (p : list Z) :
  (o + n ≤ length p)%nat → field o n (list_inserts o (le_bytes n v) p) = le_bytes n v.
Proof.
  intros Hl. pose proof (field_same o (le_bytes n v) p) as H. rewrite le_bytes_length in H. by apply H.
Qed.

Lemma get_le16 p o k v :
  o = Z.of_nat k → bytes p → (k + 2 ≤ length p)%nat → field k 2 p = le_bytes 2 v → 0 ≤ v < 65536 →
  get_at GET_U16_LSBFIRST p o = Some v.
Proof.
  intros -> Hb Hl Hf Hv. etransitivity; [exact (get_at_field le16 p k le16_in Hb Hl)|].
  cbn [c_order le16 c_len]. unfold id. by rewrite Hf, le_value_bytes.
Qed.

Lemma get_le32 p o k v :
  o = Z.of_nat k → bytes p → (k + 4 ≤ length p)%nat → field k 4 p = le_bytes 4 v → 0 ≤ v < 4294967296 →
  get_at GET_U32_LSBFIRST p o = Some v.
Proof.
  intros -> Hb Hl Hf Hv. etransitivity; [exact (get_at_field le32 p k le32_in Hb Hl)|].
  cbn [c_order le32 c_len]. unfold id. by rewrite Hf, le_value_bytes.
Qed.

(** The field at a place: the last write there is the one that counts. *)
Ltac find_field :=
  repeat rewrite field_other by (rewrite ?le_bytes_length; cbn [length]; lia);
  first [apply field_le; rewrite ?length_inserts; lia | rewrite field_app by (simpl; lia); reflexivity].

Lemma boot_byte o k v :
  o = Z.of_nat k → field k 1 (boot_page param) = [v] → getb (boot_page param) o = Some v.
Proof.
  unfold field. intros -> H. unfold getb. rewrite decide_True, Nat2Z.id by lia.
  assert (H0 : drop k (boot_page param) !! 0%nat = Some v).
  { revert H. destruct (drop k _) as [|y q]; [done|]. intros [= ->]. done. }
  by rewrite lookup_drop, Nat.add_0_r in H0.
Qed.

(** The reader finds its way to the FAT and the data. *)
Lemma fat32_open_volume : fat32_open sec = Some opened.
Proof.
  pose proof (g_ss _ Hg). pose proof (g_spc _ Hg). pose proof (fat_sectors_bound _ Hg) as (? & ? & _).
  pose proof (dpt_page_length param) as Hd. pose proof (boot_page_length _ Hg) as Hb.
  pose proof bytes_dpt_page as Hbd. pose proof bytes_boot_page as Hbb.
  unfold fat32_open. rewrite (read_dpt _ _ _ Hg _ Hw). bindr.
  assert (Hl1 : (512 ≤ length (replicate (Z.to_nat ss) 0%Z))%nat) by (rewrite length_replicate; lia).
  assert (Hl2 : (512 ≤ length (fakefat32_mbr_init ++ replicate (Z.to_nat ss - 512) 0%Z))%nat)
    by (rewrite length_app; change (length fakefat32_mbr_init) with 512%nat; lia).
  rewrite (get_le16 _ 510 510 0xAA55 eq_refl Hbd);
    [|lia|unfold dpt_page; find_field|lia]. bindr. cbn [Z.eqb Pos.eqb negb].
  rewrite (get_le32 _ 0x1C6 0x1C6 64 eq_refl Hbd);
    [|lia|unfold dpt_page; find_field|lia]. bindr.
  rewrite (read_boot _ _ _ Hg _ Hw). bindr.
  rewrite (get_le16 _ 0x0B 0x0B ss eq_refl Hbb);
    [|lia|unfold boot_page; find_field|lia]. bindr.
  rewrite (boot_byte 0x0D 0x0D spc eq_refl). 2:{ unfold boot_page.
    repeat rewrite field_other by (rewrite ?le_bytes_length; cbn [length]; lia).
    apply (field_same _ [_]). rewrite ?length_inserts. simpl. lia. }
  bindr.
  rewrite (get_le16 _ 0x0E 0x0E 16 eq_refl Hbb);
    [|lia|unfold boot_page; find_field|lia]. bindr.
  rewrite (boot_byte 0x10 0x10 2 eq_refl). 2:{ unfold boot_page. find_field. } bindr.
  rewrite (get_le32 _ 0x24 0x24 (fat_sectors param) eq_refl Hbb);
    [|lia|unfold boot_page; find_field|nia]. bindr.
  rewrite (get_le32 _ 0x2C 0x2C 2 eq_refl Hbb);
    [|lia|unfold boot_page; find_field|lia]. bindr.
  done.
Qed.

Context (l : list Z) (e : Z) (Hm : mounted param (ff_files (dev w)) l 2 e).

(** The clusters in use are inside of the partition. *)
Context (Hfits : 16 + 2 * fat_sectors param + (e - 2) * spc ≤ sector_number param).

Notation value := (fat_value param (ff_files (dev w)) l 2).

Lemma bytes_fat c n : bytes (fat_bytes param (ff_files (dev w)) l 2 c n).
Proof.
  revert c. induction n as [|n IH]; intros c; [constructor|]. cbn [fat_bytes].
  apply Forall_app. split; [apply le_bytes_bytes|apply IH].
Qed.

Lemma fat_bytes_field c n i : (i < n)%nat →
  field (4 * i) 4 (fat_bytes param (ff_files (dev w)) l 2 c n) = le_bytes 4 (value (c + Z.of_nat i)).
Proof.
  intros Hi. replace n with (i + (1 + (n - i - 1)))%nat by lia. rewrite !fat_bytes_app.
  unfold field. rewrite drop_app_ge by (rewrite fat_bytes_length; lia).
  rewrite fat_bytes_length. replace (4 * i - 4 * i)%nat with 0%nat by lia. rewrite drop_0.
  rewrite take_app_le by (rewrite fat_bytes_length; lia).
  cbn [fat_bytes]. rewrite app_nil_r. apply take_ge. by rewrite le_bytes_length.
Qed.

Lemma value_bound c : 2 ≤ c < e → 0 ≤ value c < 4294967296.
Proof.
  intros Hc. pose proof (m_fits _ _ _ _ _ Hm). split; [by apply fat_value_nonneg; lia|].
  unfold fat_value. destruct (c =? 0); [done|]. destruct (c <? 2); [done|].
  destruct (List.find _ _); [|done]. destruct (_ ≫= _) as [last|]; [|done].
  destruct (c =? last); [done|lia].
Qed.

Lemma sector_addr n : n < 64 + sector_number param → n * ss < 4294967296.
Proof.
  intros Hn. pose proof (g_ss _ Hg). pose proof (g_all _ Hg).
  assert (n * ss < (64 + sector_number param) * ss) by (apply Z.mul_lt_mono_pos_r; lia). lia.
Qed.

Lemma in_fat c : 2 ≤ c < e → c * 4 < fat_sectors param * ss.
Proof.
  intros Hc. pose proof (fat_sectors_bound _ Hg) as (_ & _ & H & _). pose proof (g_spc _ Hg).
  assert ((e - 2) * spc ≤ sector_number param) by (pose proof (fat_sectors_bound _ Hg); lia).
  assert (e - 2 ≤ sector_number param / spc) by (apply Z.div_le_lower_bound; lia). lia.
Qed.

(** The entry that the reader finds. *)
Lemma fat32_entry_value c : 2 ≤ c < e → fat32_entry sec opened c = Some (value c).
Proof.
  intros Hc. pose proof (in_fat c Hc) as Hin. pose proof (g_ss _ Hg). pose proof (g_ss32 _ Hg) as H32.
  pose proof (value_bound c Hc) as Hvb. unfold fat32_entry. cbn [opened r_fat r_ss].
  set (q := c * 4 / ss). set (k := Z.to_nat (ss / 4)).
  assert (Hss : ss = 4 * Z.of_nat k) by (unfold k; Z.div_mod_to_equations; lia).
  assert (Hq : 0 ≤ q < fat_sectors param)
    by (unfold q; split; [apply Z.div_pos; lia|apply Z.div_lt_upper_bound; lia]).
  assert (Hdm : c * 4 = ss * q + c * 4 mod ss) by (apply Z.div_mod; lia).
  pose proof (Z.mod_pos_bound (c * 4) ss ltac:(lia)) as Hmod.
  set (i := Z.to_nat (c * 4 mod ss / 4)).
  assert (Hi : c * 4 mod ss = 4 * Z.of_nat i) by (unfold i; Z.div_mod_to_equations; lia).
  assert (Hsec : sec (80 + q) = Some (fat_bytes param (ff_files (dev w)) l 2 (q * (ss / 4)) k)).
  { apply read_sector_at; [by rewrite fat_bytes_length; lia|].
    apply (read_fat_sector _ _ _ Hg (set_ram w ([] ++ replicate (Z.to_nat ss) 0 ++ [])) l e _ _ _ 0 q
      [] (replicate (Z.to_nat ss) 0) []); [by apply serving_ram|done|lia|done|lia| |done|].
    - apply sector_addr. pose proof (g_spc _ Hg). assert (0 ≤ (e - 2) * spc) by (apply Z.mul_nonneg_nonneg; lia).
      lia.
    - rewrite length_replicate. lia. }
  rewrite Hsec. bindr. rewrite (get_le32 _ _ (4 * i) (value c)); [done|lia|apply bytes_fat| | |lia].
  - rewrite fat_bytes_length. lia.
  - rewrite fat_bytes_field by lia. do 2 f_equal. replace (ss / 4) with (Z.of_nat k) by lia. lia.
Qed.

(** The chain of a file is its run. *)
Lemma fat32_chain_run x f n k fuel i :
  x ∈ root param :: l → ff_files (dev w) !! x = Some f → clusters_of param (size_of f) = Some n →
  n = i + Z.of_nat (S k) → 0 ≤ i → (k < fuel)%nat →
  fat32_chain sec opened fuel (first_cluster f + i) =
    Some ((λ j, first_cluster f + Z.of_nat j) <$> seq (Z.to_nat i) (S k)).
Proof.
  intros Hx Hf Hn. assert (Hrun := λ H, mounted_run _ _ _ _ _ _ _ _ Hm Hx Hf Hn H).
  revert fuel i. induction k as [|k IH]; intros fuel i Hni Hi Hfuel; (destruct fuel as [|fuel]; [lia|]);
    destruct (Hrun ltac:(lia)) as (_ & Hfc & Hfe & _ & _ & Hfind); cbn [fat32_chain];
    pose proof (m_fits _ _ _ _ _ Hm); rewrite fat32_entry_value by lia; bindr;
    rewrite (fat_value_run _ _ _ _ _ Hm x f n) by (done || lia || (apply Hfind; lia)).
  - destruct (Z.eqb_spec (first_cluster f + i) (first_cluster f + n - 1)); [|lia].
    change (268435448 <=? FAT32_FAT_FILEEND) with true. simpl. do 2 f_equal. lia.
  - destruct (Z.eqb_spec (first_cluster f + i) (first_cluster f + n - 1)); [lia|].
    rewrite (proj2 (Z.leb_gt _ _)) by lia. rewrite <- Z.add_assoc, (IH fuel (i + 1)) by lia.
    cbn [fmap option_fmap option_map seq list_fmap]. f_equal.
    replace (Z.to_nat (i + 1)) with (S (Z.to_nat i)) by lia. f_equal. lia.
Qed.

(** Reading a chain: the sectors of the run, one after the other. *)
Lemma fat32_read_run x f n (d : list Z) :
  x ∈ root param :: l → ff_files (dev w) !! x = Some f → clusters_of param (size_of f) = Some n →
  n ≠ 0 →
  (∀ i, (i < Z.to_nat n * Z.to_nat spc)%nat →
    sec (data_base param + (first_cluster f - 2) * spc + Z.of_nat i) =
      Some (take (Z.to_nat ss) (drop (i * Z.to_nat ss) d))) →
  fat32_read sec opened (first_cluster f) = Some (take (Z.to_nat (n * cluster_size_of param)) d).
Proof.
  intros Hx Hf Hn Hn0 Hsec. pose proof (g_ss _ Hg). pose proof (g_spc _ Hg).
  destruct (mounted_run _ _ _ _ _ _ _ _ Hm Hx Hf Hn Hn0) as (Hn1 & Hfc & Hfe & _).
  unfold fat32_read. cbn [opened r_fat_size r_ss]. fold opened.
  pose proof (in_fat (e - 1) ltac:(lia)) as Hin.
  assert (Hfuel : e - 1 ≤ fat_sectors param * ss / 4) by (apply Z.div_le_lower_bound; lia).
  pose proof (fat32_chain_run x f n (Z.to_nat n - 1) (Z.to_nat (fat_sectors param * ss / 4)) 0
    Hx Hf Hn ltac:(lia) ltac:(lia) ltac:(lia)) as Hch.
  rewrite Z.add_0_r in Hch. rewrite Hch. bindr. replace (S (Z.to_nat n - 1)) with (Z.to_nat n) by lia.
  change (Z.to_nat 0) with 0%nat. set (cs := (Z.to_nat spc * Z.to_nat ss)%nat).
  assert (Hcl : ∀ j, (j < Z.to_nat n)%nat →
    fat32_cluster sec opened (first_cluster f + Z.of_nat j) = Some (take cs (drop (j * cs) d))).
  { intros j Hj. unfold fat32_cluster. cbn [opened r_data r_spc].
    rewrite (mapM_seq _ (λ i, take (Z.to_nat ss) (drop ((j * Z.to_nat spc + i) * Z.to_nat ss) d))).
    - cbn [fmap option_fmap option_map]. f_equal.
      rewrite (concat_windows _ (drop (j * cs) d) (Z.to_nat ss) 0 (Z.to_nat spc)).
      + by rewrite drop_0.
      + intros i Hi. rewrite drop_drop. do 2 f_equal. unfold cs. lia.
    - intros i Hi. rewrite <- Hsec by nia. f_equal. lia. }
  rewrite mapM_compose, (mapM_seq _ (λ j, take cs (drop (j * cs) d))) by (intros j Hj; apply Hcl; lia).
  cbn [fmap option_fmap option_map]. f_equal.
  rewrite (concat_windows _ d cs 0 (Z.to_nat n)) by done. rewrite drop_0. f_equal.
  unfold cs, cluster_size_of. lia.
Qed.

(** A file kept in memory. *)
Record stored (x : Z) (f : fakefat32_file_t) (b : list Z) : Prop := {
  st_in : x ∈ root param :: l;
  st_file : ff_files (dev w) !! x = Some f;
  st_kind : is_dir f = false ∧ has (attr_of f) VSFILE_ATTR_WRITEONLY = false;
  st_buf : memptr (memfile f) ≠ NULL ∧ ff_bufs (dev w) !! memptr (memfile f) = Some b;
  st_size : 0 < size_of f ≤ Z.of_nat (length b) ∧ size_of f + cluster_size_of param ≤ 4294967296 }.

Lemma fat32_read_file x f b :
  stored x f b →
  ∃ d, fat32_read sec opened (first_cluster f) = Some d ∧
    take (Z.to_nat (size_of f)) d = take (Z.to_nat (size_of f)) b.
Proof.
  intros [Hx Hf [Hd Hwo] [Hptr Hb] [Hlb Hsz]]. pose proof (g_ss _ Hg). pose proof (g_spc _ Hg).
  pose proof (m_cs _ _ _ _ _ Hm) as Hcs. set (cs := cluster_size_of param) in *.
  set (n := (size_of f + cs - 1) / cs).
  assert (Hn : clusters_of param (size_of f) = Some n) by (apply clusters_of_fits; [done|lia]).
  pose proof (Z.div_mod (size_of f + cs - 1) cs ltac:(lia)) as Hdm. fold n in Hdm.
  pose proof (Z.mod_pos_bound (size_of f + cs - 1) cs ltac:(lia)) as Hmod.
  assert (Hncs : size_of f ≤ n * cs) by lia. assert (Hn0 : n ≠ 0) by nia.
  destruct (mounted_run _ _ _ _ _ _ _ _ Hm Hx Hf Hn Hn0) as (Hn1 & Hfc & Hfe & _).
  set (c := take (Z.to_nat (size_of f)) b). set (d := c ++ replicate (Z.to_nat (n * cs)) 0).
  exists (take (Z.to_nat (n * cs)) d). split.
  - apply (fat32_read_run x f n); [done..|]. intros i Hi.
    assert (HiZ : Z.of_nat i < n * spc) by lia.
    assert (Hi' : (i * Z.to_nat ss + Z.to_nat ss ≤ length c + Z.to_nat (n * cs))%nat).
    { assert ((Z.of_nat i + 1) * ss ≤ n * spc * ss) by (apply Z.mul_le_mono_nonneg_r; lia).
      unfold cs, cluster_size_of. lia. }
    unfold d. rewrite (window_zeros c) by done.
    apply read_sector_at; [rewrite length_app, length_drop, length_take, length_replicate; lia|].
    assert (Hin : data_base param + (first_cluster f - 2) * spc + Z.of_nat i < 64 + sector_number param).
    { unfold data_base. assert ((first_cluster f + n - 2) * spc ≤ (e - 2) * spc)
        by (apply Z.mul_le_mono_nonneg_r; lia). lia. }
    rewrite (read_file_sector _ _ _ Hg (set_ram w ([] ++ replicate (Z.to_nat ss) 0 ++ [])) l e _ _ x f n b _
      [] (replicate (Z.to_nat ss) 0) []); cbn [ff_files dev set_ram]; try done.
    + cbv zeta. fold c.
      by replace (Z.to_nat (Z.of_nat i * ss)) with (i * Z.to_nat ss)%nat by lia.
    + by apply serving_ram.
    + lia.
    + lia.
    + by apply sector_addr.
    + rewrite length_replicate. lia.
  - rewrite take_take. unfold d. rewrite take_app_le.
    + rewrite take_ge; [done|]. unfold c. rewrite length_take. lia.
    + unfold c. rewrite length_take. lia.
Qed.
End reading.
