(* ===== verification/Fatdir.v ===== *)
(** * Fatdir: directories of the volume, written and parsed

    The directory of a volume is a stream of entries, [dir_stream];
    [fakefat32_dir_read] gives windows of it, and [vsffat_parse_dentry_fat]
    finds each file in it again. *)

From S2P Require Import Prelude Chain Endian Vsfmal Vsfile Vsffat Fakefat Fatlayout Fatimage.

(** ** Entries of a long name *)

(** Where the character [t] of an entry is. *)
Definition lfn_off (t : nat) : nat :=
  if decide (t < 5)%nat then 1 + 2 * t else if decide (t < 11)%nat then 4 + 2 * t else 6 + 2 * t.

Fixpoint put_chars (cs : list Z) (t : nat) (e : list Z) : list Z :=
  match cs with [] => e | c :: cs => put_chars cs (S t) (list_inserts (lfn_off t) [c; 0] e) end.

(** The entry before the characters. *)
Definition lfn_blank (index ck : Z) : list Z :=
  index :: replicate 10 0xFF ++ [0x0F; 0; ck] ++ replicate 12 0xFF ++ [0; 0] ++ replicate 4 0xFF.

(** The entry with the characters [cs], at most 13 of them. *)
Definition lfn_bytes (index ck : Z) (cs : list Z) : list Z :=
  let e := put_chars cs 0 (lfn_blank index ck) in
  if decide (length cs < 13)%nat then list_inserts (lfn_off (length cs)) [0; 0] e else e.

(** The characters of the [k]-th entry of a name, counted from 1. *)
Definition lfn_part (name : list Z) (k : nat) : list Z := take 13 (drop (13 * (k - 1)) name).

Lemma put_chars_length cs t e : length (put_chars cs t e) = length e.
Proof. revert t e. induction cs as [|c cs IH]; intros t e; [done|]. cbn [put_chars]. by rewrite IH, length_inserts. Qed.

Lemma lfn_bytes_length index ck cs : length (lfn_bytes index ck cs) = 32%nat.
Proof. unfold lfn_bytes. case_decide; by rewrite ?length_inserts, put_chars_length. Qed.

Lemma lfn_off_step t : (t < 13)%nat →
  (let j := Z.of_nat (lfn_off t) + 2 in if 0x0B =? j then 0x0E else if 0x1A =? j then 0x1C else j) =
  Z.of_nat (lfn_off (S t)).
Proof. intros Ht. do 13 (destruct t as [|t]; [reflexivity|]). lia. Qed.

Lemma lfn_off_bound t : (lfn_off t <? 32 = (t <? 13))%nat ∧ (t < 13 → lfn_off t < 31)%nat.
Proof.
  unfold lfn_off. split; repeat case_decide; try lia;
    destruct (Nat.ltb_spec t 13); (apply Nat.ltb_lt || apply Nat.ltb_ge); lia.
Qed.

Lemma setb2_app (pre e post : list Z) a k c d :
  a = Z.of_nat (length pre) → (k + 1 < length e)%nat →
  (m ← setb (pre ++ e ++ post) (a + Z.of_nat k) c; setb m (a + Z.of_nat k + 1) d) =
  Some (pre ++ list_inserts k [c; d] e ++ post).
Proof.
  intros -> Hk. rewrite (setb_app _ _ _ _ (Z.of_nat k)) by lia. bindr.
  rewrite (setb_app _ _ _ _ (Z.of_nat k + 1)) by (rewrite ?length_insert; lia). do 2 f_equal.
  replace (Z.to_nat (Z.of_nat k + 1)) with (S k) by lia. rewrite Nat2Z.id. cbn [list_inserts].
  rewrite list_insert_insert_ne by lia. done.
Qed.

Lemma longname_chars_spec name cs : ∀ fuel i t a (pre e post : list Z),
  cs = take (13 - t) (drop (Z.to_nat i) name) → 0 ≤ i → strlen name < 4294967296 → (t ≤ 13)%nat →
  (length cs < fuel)%nat → a = Z.of_nat (length pre) → length e = 32%nat →
  longname_chars fuel name i (Z.of_nat (lfn_off t)) a (pre ++ e ++ post) =
  Some (Z.of_nat (lfn_off (t + length cs)), pre ++ put_chars cs t e ++ post).
Proof.
  induction cs as [|c cs IH]; intros fuel i t a pre e post Hcs Hi Hs Ht Hfuel Ha He;
    (destruct fuel as [|fuel]; [simpl in Hfuel; lia|]); cbn [longname_chars]; unfold strlen in *.
  - rewrite Nat.add_0_r. assert (Hstop : (i <? Z.of_nat (length name)) && (Z.of_nat (lfn_off t) <? 32) = false).
    { apply (f_equal length) in Hcs. rewrite length_take, length_drop in Hcs. simpl in Hcs.
      destruct (Z.ltb_spec i (Z.of_nat (length name))); [|done]. assert (t = 13%nat) as -> by lia. done. }
    by rewrite Hstop.
  - pose proof (f_equal length Hcs) as Hlen. rewrite length_take, length_drop in Hlen. simpl in Hlen.
    destruct (lfn_off_bound t) as [_ Hoff]. specialize (Hoff ltac:(lia)).
    rewrite (proj2 (Z.ltb_lt i _)), (proj2 (Z.ltb_lt (Z.of_nat (lfn_off t)) 32)) by lia. cbn [andb].
    assert (Hc : getb name i = Some c).
    { unfold getb. rewrite decide_True by lia. rewrite <- (Nat.add_0_r (Z.to_nat i)), <- lookup_drop.
      rewrite <- (lookup_take_lt _ (13 - t)) by lia. by rewrite <- Hcs. }
    rewrite Hc. bindr. subst a.
    pose proof (setb2_app pre e post _ (lfn_off t) c 0 eq_refl ltac:(lia)) as H2.
    destruct (setb _ _ c) as [m1|]; [|done]. cbn [mbind option_bind] in H2. bindr. rewrite H2. bindr.
    rewrite lfn_off_step by lia. rewrite u32_small by lia.
    rewrite (IH fuel (i + 1) (S t)); [| |lia|done|lia|simpl in Hfuel; lia|done|by rewrite length_inserts].
    + cbn [put_chars length]. by rewrite Nat.add_succ_comm.
    + replace (Z.to_nat (i + 1)) with (Z.to_nat i + 1)%nat by lia. rewrite <- drop_drop.
      replace (13 - t)%nat with (S (13 - S t)) in Hcs by lia.
      destruct (drop (Z.to_nat i) name) as [|y q]; [done|]. cbn in Hcs |- *. by injection Hcs.
Qed.

Lemma longname_text_spec name index k ck (pre rest : list Z) :
  Z.land index (Z.lnot 0x40) = Z.of_nat k → (1 ≤ k ≤ 63)%nat → strlen name < 4294967296 →
  longname_text name index (Z.of_nat (length pre)) (pre ++ lfn_blank index ck ++ rest) =
  Some (pre ++ lfn_bytes index ck (lfn_part name k) ++ rest).
Proof.
  intros Hk Hk1 Hs. unfold longname_text. rewrite Hk, u32_small by lia. set (cs := lfn_part name k).
  assert (Hcl : (length cs ≤ 13)%nat) by (unfold cs, lfn_part; rewrite length_take; lia).
  pose proof (longname_chars_spec name cs 14 (13 * (Z.of_nat k - 1)) 0 (Z.of_nat (length pre)) pre
    (lfn_blank index ck) rest) as Hch.
  assert (H0 : Z.of_nat (lfn_off 0) = 1) by reflexivity. rewrite H0 in Hch. clear H0.
  rewrite Hch; [|unfold cs, lfn_part; do 2 f_equal; lia|lia|done|lia|lia|done|done]. clear Hch.
  bindr. cbn [Nat.add]. destruct (lfn_off_bound (length cs)) as [Hb Hoff]. unfold lfn_bytes. cbv zeta.
  destruct (decide (length cs < 13)%nat) as [Hc|Hc].
  - specialize (Hoff Hc). rewrite (proj2 (Z.ltb_lt (Z.of_nat (lfn_off (length cs))) 32)) by lia.
    set (e := put_chars cs 0 (lfn_blank index ck)).
    assert (He : length e = 32%nat) by (unfold e; by rewrite put_chars_length).
    replace (Z.of_nat (length pre) + Z.of_nat (lfn_off (length cs)) + 1)
      with (Z.of_nat (length pre) + Z.of_nat (S (lfn_off (length cs)))) by lia.
    rewrite (setb_app _ _ _ _ (Z.of_nat (S (lfn_off (length cs))))) by lia. bindr.
    rewrite (setb_app _ _ _ _ (Z.of_nat (lfn_off (length cs)))) by (rewrite ?length_insert; lia).
    by rewrite !Nat2Z.id.
  - assert (length cs = 13%nat) as -> by lia.
    assert (H13 : (Z.of_nat (lfn_off 13) <? 32) = false) by reflexivity. by rewrite H13.
Qed.

Lemma longname_entry_spec name sn index k a (pre page post : list Z) :
  Z.land index (Z.lnot 0x40) = Z.of_nat k → (1 ≤ k ≤ 63)%nat → strlen name < 4294967296 →
  a = Z.of_nat (length pre) → (32 ≤ length page)%nat →
  longname_entry name sn index a (pre ++ page ++ post) =
  Some (pre ++ (lfn_bytes index (shortname_checksum sn) (lfn_part name k) ++ drop 32 page) ++ post).
Proof.
  intros Hk Hk1 Hs -> Hp. unfold longname_entry. rewrite memset_app by (rewrite ?length_app; lia). bindr.
  assert (H32 : Z.to_nat 0x20 = 32%nat) by reflexivity. rewrite H32, drop_app_le by lia.
  set (rest := drop 32 page ++ post).
  rewrite (setb_app _ _ _ _ 0x0B) by (rewrite ?length_insert, ?length_replicate; lia). bindr.
  rewrite (setb_app _ _ _ _ 0x1B) by (rewrite ?length_insert, ?length_replicate; lia). bindr.
  rewrite (setb_app _ _ _ _ 0x1A) by (rewrite ?length_insert, ?length_replicate; lia). bindr.
  rewrite (setb_app _ _ _ _ 0x0C) by (rewrite ?length_insert, ?length_replicate; lia). bindr.
  rewrite (setb_app _ _ _ _ 0x0D) by (rewrite ?length_insert, ?length_replicate; lia). bindr.
  rewrite (setb_app _ _ _ _ 0) by (rewrite ?length_insert, ?length_replicate; lia). bindr.
  set (ck := shortname_checksum sn). set (e := <[Z.to_nat 0 := index]> _).
  assert (He : e = lfn_blank index ck) by reflexivity. rewrite He.
  rewrite (longname_text_spec _ _ k) by done. unfold rest. by rewrite <- app_assoc.
Qed.

Lemma index_bits k : (k < 64)%nat →
  Z.land (Z.of_nat k) (Z.lnot 0x40) = Z.of_nat k ∧
  Z.land (Z.lor (Z.of_nat k) 0x40) (Z.lnot 0x40) = Z.of_nat k ∧
  64 ≤ Z.lor (Z.of_nat k) 0x40 < 128 ∧
  Z.land (Z.lor (Z.of_nat k) 0x40) 0x0F = Z.land (Z.of_nat k) 0x0F.
Proof.
  intros Hk. assert (H : 0 ≤ Z.of_nat k < 64) by lia. revert H. generalize (Z.of_nat k). intros i Hi.
  pose proof (all_below_spec 64 (λ i, (Z.land i (Z.lnot 0x40) =? i) &&
    (Z.land (Z.lor i 0x40) (Z.lnot 0x40) =? i) && (64 <=? Z.lor i 0x40) && (Z.lor i 0x40 <? 128) &&
    (Z.land (Z.lor i 0x40) 0x0F =? Z.land i 0x0F)) i ltac:(by vm_compute) Hi) as H.
  cbv beta in H. rewrite !andb_true_iff, !Z.eqb_eq, Z.leb_le, Z.ltb_lt in H. tauto.
Qed.

(** The entries of a name from the [k]-th down to the first, which comes last. *)
Fixpoint lfn_tail (name sn : list Z) (k : nat) : list Z :=
  match k with
  | O => []
  | S k' => lfn_bytes (Z.of_nat k) (shortname_checksum sn) (lfn_part name k) ++ lfn_tail name sn k'
  end.

(** All the entries of a name of [n]: the first in the stream is marked. *)
Definition lfn_stream (name sn : list Z) (n : nat) : list Z :=
  match n with
  | O => []
  | S n' => lfn_bytes (Z.lor (Z.of_nat n) 0x40) (shortname_checksum sn) (lfn_part name n) ++ lfn_tail name sn n'
  end.

Lemma lfn_tail_length name sn k : length (lfn_tail name sn k) = (32 * k)%nat.
Proof. induction k as [|k IH]; [done|]. cbn [lfn_tail]. rewrite length_app, lfn_bytes_length, IH. lia. Qed.

Lemma lfn_stream_length name sn n : length (lfn_stream name sn n) = (32 * n)%nat.
Proof. destruct n as [|n]; [done|]. cbn [lfn_stream]. rewrite length_app, lfn_bytes_length, lfn_tail_length. lia. Qed.

Lemma lfn_tail_drop name sn k o : (o ≤ k)%nat → drop (32 * o) (lfn_tail name sn k) = lfn_tail name sn (k - o).
Proof.
  revert o. induction k as [|k IH]; intros [|o] Ho; [done|lia|done|]. cbn [lfn_tail].
  rewrite drop_app_ge by (rewrite lfn_bytes_length; lia). rewrite lfn_bytes_length, Nat.sub_succ, <- IH by lia.
  f_equal. lia.
Qed.

Lemma lfn_stream_drop name sn n o : (0 < o ≤ n)%nat →
  drop (32 * o) (lfn_stream name sn n) = lfn_tail name sn (n - o).
Proof.
  intros Ho. destruct n as [|n]; [lia|]. cbn [lfn_stream].
  rewrite drop_app_ge by (rewrite lfn_bytes_length; lia). rewrite lfn_bytes_length.
  replace (S n - o)%nat with (n - (o - 1))%nat by lia. rewrite <- lfn_tail_drop by lia. f_equal. lia.
Qed.

(** Writing [src] as far as there is room in [page]. *)
Definition fill (page src : list Z) : list Z :=
  take (length page) src ++ drop (length src) page.

Lemma fill_length page src : length (fill page src) = length page.
Proof. unfold fill. rewrite length_app, length_take, length_drop. lia. Qed.

Lemma fill_app page x y : (length x ≤ length page)%nat →
  fill page (x ++ y) = x ++ fill (drop (length x) page) y.
Proof.
  intros Hx. unfold fill. rewrite take_app_ge by done. rewrite length_drop, length_app, <- app_assoc, drop_drop. done.
Qed.

Lemma fill_nil page : fill page [] = page.
Proof. unfold fill. by rewrite take_nil, drop_0. Qed.

Lemma fill_nil_l src : fill [] src = [].
Proof. unfold fill. by rewrite drop_nil. Qed.

Section longname.
Context (name sn : list Z) (Hname : strlen name < 4294967296).

(** The entry that the loop writes first, and then the rest. *)
Lemma longname_loop_step index k fuel r (pre page post : list Z) :
  Z.land index (Z.lnot 0x40) = Z.of_nat k → (1 ≤ k ≤ 63)%nat → index ≠ 0 →
  length page = (32 * S r)%nat → Z.of_nat (length page) < 4294967296 →
  longname_loop (S fuel) name sn index (Z.of_nat (length pre)) (Z.of_nat (length page))
    (pre ++ page ++ post) =
  (let x := lfn_bytes index (shortname_checksum sn) (lfn_part name k) in
   longname_loop fuel name sn (Z.of_nat (k - 1)) (Z.of_nat (length (pre ++ x)))
     (Z.of_nat (length (drop 32 page))) ((pre ++ x) ++ drop 32 page ++ post)).
Proof.
  intros Hk Hk1 Hi Hl Hb. cbn [longname_loop].
  rewrite (proj2 (Z.eqb_neq (Z.of_nat (length page)) 0)), (proj2 (Z.eqb_neq index 0)) by lia. cbn [orb].
  rewrite (longname_entry_spec _ _ _ k) by (done || lia). bindr. cbv zeta.
  rewrite length_app, lfn_bytes_length, length_drop, <- !app_assoc. f_equal.
  - rewrite Hk. rewrite u8_small by lia. lia.
  - lia.
  - rewrite u32_small by lia. lia.
Qed.

Lemma longname_loop_tail k : ∀ fuel r (pre page post : list Z),
  (k < fuel)%nat → (k ≤ 63)%nat → length page = (32 * r)%nat → Z.of_nat (length page) < 4294967296 →
  longname_loop fuel name sn (Z.of_nat k) (Z.of_nat (length pre)) (Z.of_nat (length page))
    (pre ++ page ++ post) =
  (let n := Nat.min (length page) (32 * k) in
   Some (Z.of_nat (length pre + n), Z.of_nat (length page - n),
     pre ++ fill page (lfn_tail name sn k) ++ post)).
Proof.
  induction k as [|k IH]; intros fuel r pre page post Hfuel Hk Hl Hb; cbv zeta;
    (destruct fuel as [|fuel]; [lia|]).
  { cbn [longname_loop]. rewrite orb_true_r. rewrite Nat.mul_0_r, Nat.min_0_r, Nat.add_0_r, Nat.sub_0_r.
    cbn [lfn_tail]. by rewrite fill_nil. }
  destruct r as [|r].
  { destruct page; [|simpl in Hl; lia]. rewrite fill_nil_l. cbn [longname_loop length].
    rewrite Nat.min_0_l, Nat.add_0_r. done. }
  destruct (index_bits (S k)) as (Hbits & _); [lia|].
  rewrite (longname_loop_step _ (S k) _ r) by (done || lia). cbv zeta.
  replace (S k - 1)%nat with k by lia.
  rewrite (IH fuel r) by (rewrite ?length_drop; lia). cbv zeta. cbn [lfn_tail].
  rewrite fill_app by (rewrite lfn_bytes_length; lia).
  rewrite !length_app, !length_drop, lfn_bytes_length, <- !app_assoc. pair_eq.
Qed.
End longname.

(** ** Short entries *)

Lemma put_page (pre p post x : list Z) k :
  0 ≤ k → (Z.to_nat k + length x ≤ length p)%nat →
  put (pre ++ p ++ post) (Z.of_nat (length pre) + k) x =
    Some (pre ++ list_inserts (Z.to_nat k) x p ++ post).
Proof.
  intros Hk Hl. rewrite inserts_split by lia. rewrite <- (take_drop (Z.to_nat k) p) at 1.
  rewrite <- app_assoc, app_assoc. rewrite put_app.
  - rewrite drop_app_le by (rewrite length_drop; lia). rewrite drop_drop, <- !app_assoc. done.
  - rewrite length_app, length_take. lia.
  - rewrite length_app, length_drop. lia.
Qed.

(** The record of a file's entry in the directory [d]: "." and ".." stand for
    other directories. *)
Definition dot_record (fs : gmap Z fakefat32_file_t) (d : Z) (name : list Z) (r : fat_record_t)
    : option fat_record_t :=
  f ← fs !! d;
  if strcmp_eq name DOT then Some (set_FstClus (first_cluster f) r)
  else if strcmp_eq name DOTDOT && negb (f_parent (mfile (memfile f)) =? NULL) then
    p ← fs !! f_parent (mfile (memfile f));
    Some (if f_parent (mfile (memfile p)) =? NULL then r else set_FstClus (first_cluster p) r)
  else Some r.

Lemma fix_dots_record fs d x name f r :
  fs !! x = Some f → dot_record fs d name (record f) = Some r →
  fix_dots d x name fs = Some (<[x := set_record r f]> fs).
Proof.
  intros Hx. unfold fix_dots, dot_record. destruct (fs !! d) as [df|]; [|done]. bindr.
  assert (Hid : <[x := set_record (record f) f]> fs = fs) by (apply insert_id; by destruct f).
  destruct (strcmp_eq name DOT); [intros [= <-]; by rewrite (modify_Some _ _ _ _ Hx)|].
  destruct (_ && _); [|intros [= <-]; by rewrite Hid].
  destruct (fs !! f_parent _) as [p|]; [|done]. bindr.
  destruct (_ =? _); intros [= <-]; cbn [negb]; [by rewrite Hid|by rewrite (modify_Some _ _ _ _ Hx)].
Qed.

Lemma record_bytes_length r : length (record_bytes r) = 15%nat.
Proof. done. Qed.

(** The short entry of a file. *)
Definition sfn_bytes (f : fakefat32_file_t) (r : fat_record_t) (sn : list Z) (flags : Z) : list Z :=
  sn ++ [u8 (attr_of f); flags] ++ record_bytes r ++
  le_bytes 4 (if is_dir f then 0 else size_of f).

Lemma sfn_bytes_length f r sn flags : length sn = 11%nat → length (sfn_bytes f r sn flags) = 32%nat.
Proof. intros Hs. unfold sfn_bytes. rewrite !length_app, Hs. done. Qed.

Definition lcase (name : list Z) (long : bool) : option Z := if long then Some 0 else name_attr name.

Lemma shortname_entry_spec fs d x f name sn long flags r (pre page post : list Z) :
  fs !! x = Some f → length sn = 11%nat → lcase name long = Some flags → 0 ≤ size_of f →
  dot_record fs d name (record f) = Some r → (32 ≤ length page)%nat →
  shortname_entry d x name sn long (Z.of_nat (length pre)) fs (pre ++ page ++ post) =
  Some (<[x := set_record r f]> fs, (pre ++ sfn_bytes f r sn flags) ++ drop 32 page ++ post).
Proof.
  intros Hx Hsn Hfl Hsz Hr Hp. unfold shortname_entry. rewrite Hx. bindr.
  assert (Hpage : ∃ e rest, page = e ++ rest ∧ length e = 32%nat ∧ drop 32 page = rest).
  { exists (take 32 page), (drop 32 page). rewrite take_drop, length_take. split_and!; [done|lia|done]. }
  destruct Hpage as (e & rest & -> & He & ->). rewrite <- app_assoc. set (q := rest ++ post).
  rewrite <- (Z.add_0_r (Z.of_nat (length pre))) at 1. rewrite put_page by lia. bindr.
  rewrite setb_page by (rewrite length_inserts; lia). bindr.
  rewrite setb_page by (rewrite !length_inserts; lia). bindr.
  assert (Hc : (if negb long then a ← name_attr name; setb (pre ++ list_inserts (Z.to_nat 12) [0]
      (list_inserts (Z.to_nat 11) [u8 (attr_of f)] (list_inserts (Z.to_nat 0) sn e)) ++ q)
      (Z.of_nat (length pre) + 12) a
    else Some (pre ++ list_inserts (Z.to_nat 12) [0]
      (list_inserts (Z.to_nat 11) [u8 (attr_of f)] (list_inserts (Z.to_nat 0) sn e)) ++ q)) =
    Some (pre ++ list_inserts (Z.to_nat 12) [flags]
      (list_inserts (Z.to_nat 11) [u8 (attr_of f)] (list_inserts (Z.to_nat 0) sn e)) ++ q)).
  { unfold lcase in Hfl. destruct long; cbn [negb]; [by injection Hfl as <-|]. rewrite Hfl. bindr.
    rewrite setb_page by (rewrite !length_inserts; lia). cbn [list_inserts]. by rewrite list_insert_insert_eq. }
  rewrite Hc. bindr. fold (is_dir f). set (sz := if is_dir f then 0 else size_of f).
  rewrite (set_at_page le32) by (apply le32_in || (unfold sz; destruct (is_dir f); lia) ||
    (cbn [c_len le32]; rewrite !length_inserts; lia)). bindr.
  rewrite (fix_dots_record _ _ _ _ _ _ Hx Hr). bindr. rewrite lookup_insert_eq. bindr. cbn [record set_record].
  rewrite put_page by (rewrite ?length_inserts, ?record_bytes_length; lia). bindr. do 2 f_equal.
  rewrite <- app_assoc. f_equal. unfold q. rewrite !(app_assoc _ rest). f_equal. f_equal.
  unfold sfn_bytes. fold sz. cbn [c_order c_len le32]. unfold id.
  assert (Hrl := record_bytes_length r). assert (Hsl := le_bytes_length 4 sz).
  set (rb := record_bytes r) in *. set (sb := le_bytes 4 sz) in *. clearbody rb sb.
  change (Z.to_nat 13) with 13%nat. change (Z.to_nat 28) with 28%nat. change (Z.to_nat 12) with 12%nat.
  change (Z.to_nat 11) with 11%nat. change (Z.to_nat 0) with 0%nat.
  do 32 (destruct e as [|? e]; [done|]). destruct e; [|done].
  do 11 (destruct sn as [|? sn]; [done|]). destruct sn; [|done].
  do 15 (destruct rb as [|? rb]; [done|]). destruct rb; [|done].
  do 4 (destruct sb as [|? sb]; [done|]). destruct sb; [|done]. reflexivity.
Qed.

(** ** Volume labels *)

Lemma strncpy_fill_spec n src fill_ : ∀ a (pre page : list Z),
  a = Z.of_nat (length pre) → (n ≤ length page)%nat →
  strncpy_fill n a src fill_ (pre ++ page) =
  Some (pre ++ take n (src ++ replicate n fill_) ++ drop n page).
Proof.
  revert src. induction n as [|n IH]; intros src a pre page -> Hp; [done|]. cbn [strncpy_fill].
  destruct src as [|c src].
  - rewrite memset_app by lia. rewrite Nat2Z.id. cbn [app]. by rewrite take_ge by (rewrite length_replicate; lia).
  - destruct page as [|y page]; [simpl in Hp; lia|].
    rewrite (setb_app pre [y] page _ 0) by (simpl; lia). bindr. cbn [Z.to_nat insert list_insert app take drop].
    change (pre ++ c :: page) with (pre ++ [c] ++ page). rewrite app_assoc.
    rewrite (IH src _ (pre ++ [c]) page) by (rewrite ?length_app; simpl in *; lia).
    rewrite <- app_assoc. cbn [app]. do 3 f_equal.
    rewrite replicate_S_end, app_assoc. by rewrite (take_app_le (src ++ _)) by (rewrite length_app, length_replicate; lia).
Qed.

(** A volume label: the name and blanks. *)
Definition label_bytes (f : fakefat32_file_t) (name : list Z) : list Z :=
  take 11 (name ++ replicate 11 32) ++ [u8 (attr_of f)] ++ replicate 20 0.

Lemma label_bytes_length f name : length (label_bytes f name) = 32%nat.
Proof.
  unfold label_bytes. rewrite !length_app, length_take, length_app, !length_replicate. cbn [length]. lia.
Qed.

Lemma label_spec f name a (pre page post : list Z) :
  a = Z.of_nat (length pre) → (32 ≤ length page)%nat →
  (m ← strncpy_fill 11 a name 32 (pre ++ page ++ post);
   m ← setb m (a + 11) (u8 (attr_of f)); memset m (a + 12) 0 20) =
  Some ((pre ++ label_bytes f name) ++ drop 32 page ++ post).
Proof.
  intros -> Hp. rewrite strncpy_fill_spec by (rewrite ?length_app; lia). bindr.
  rewrite drop_app_le by lia. unfold label_bytes. set (nm := take 11 (name ++ replicate 11 32)).
  assert (Hn : length nm = 11%nat) by (unfold nm; rewrite length_take, length_app, length_replicate; lia).
  assert (Hq : ∃ y q, drop 11 page = y :: q ∧ length q = (length page - 12)%nat ∧ drop 20 q = drop 32 page).
  { destruct (drop 11 page) as [|y q] eqn:Hd; [apply (f_equal length) in Hd; rewrite length_drop in Hd; simpl in Hd; lia|].
    exists y, q. pose proof (f_equal length Hd) as Hl. rewrite length_drop in Hl. simpl in Hl.
    split_and!; [done|lia|]. change q with (drop 1 (y :: q)). rewrite <- Hd, !drop_drop. done. }
  destruct Hq as (y & q & -> & Hql & Hq). rewrite app_assoc.
  change ((y :: q) ++ post) with ([y] ++ q ++ post).
  rewrite (setb_app (pre ++ nm) [y] _ _ 0) by (rewrite ?length_app, ?Hn; cbn [length]; lia). bindr.
  change (<[Z.to_nat 0:=u8 (attr_of f)]> [y]) with [u8 (attr_of f)]. rewrite app_assoc.
  rewrite memset_app by (rewrite ?length_app, ?Hn; cbn [length]; lia). f_equal. change (Z.to_nat 20) with 20%nat.
  rewrite drop_app_le by lia. rewrite Hq, <- !app_assoc. done.
Qed.

(** ** The entries of a file *)

(** What an entry says of a file. *)
Record dentry := { d_name : list Z; d_attr : Z; d_size : Z; d_cluster : Z }.

(** How many entries there are before the short one. *)
Definition lfn_num (name : list Z) (long : bool) : nat :=
  if long then Z.to_nat ((strlen name + 12) / 13) else 0.

Lemma lfn_num_bound name long : strlen name ≤ 819 → (lfn_num name long ≤ 63)%nat.
Proof.
  intros H. unfold lfn_num. destruct long; [|lia].
  assert ((strlen name + 12) / 13 < 64) by (apply Z.div_lt_upper_bound; lia). lia.
Qed.

Lemma lfn_num_pos name : 0 < strlen name → (0 < lfn_num name true)%nat.
Proof. intros H. unfold lfn_num. assert (1 ≤ (strlen name + 12) / 13) by (apply Z.div_le_lower_bound; lia). lia. Qed.

Lemma entry_num_lfn name : 0 ≤ strlen name ≤ 819 →
  longname_entry_num name = Z.of_nat (lfn_num name true).
Proof.
  intros H. unfold longname_entry_num, lfn_num.
  assert ((strlen name + 12) / 13 < 64) by (apply Z.div_lt_upper_bound; lia).
  assert (0 ≤ (strlen name + 12) / 13) by (apply Z.div_pos; lia). rewrite u8_small by lia. lia.
Qed.

Section stream.
Context (d : Z).

(** The file at [x] has a name that entries of the directory [d] can be made
    of: a long one has no more than 63 entries.  [r] is what [record] will be. *)
Record listed (fs : gmap Z fakefat32_file_t) (x : Z) (f : fakefat32_file_t) (name sn : list Z)
    (long : bool) (flags : Z) (r : fat_record_t) : Prop := {
  li_file : fs !! x = Some f;
  li_name : name_of f = Some name;
  li_sn : fakefat32_get_shortname name = Some sn ∧ length sn = 11%nat;
  li_long : vsffat_is_LFN name = Some long;
  li_len : 0 < strlen name ≤ 819;
  li_flags : lcase name long = Some flags;
  li_size : 0 ≤ size_of f;
  li_record : dot_record fs d name (record f) = Some r;
  li_bytes : Forall (λ c, 0 < c < 256) name }.

Definition file_bytes (f : fakefat32_file_t) (name sn : list Z) (long : bool) (flags : Z) (r : fat_record_t) :=
  lfn_stream name sn (lfn_num name long) ++ sfn_bytes f r sn flags.

Definition file_dentry (f : fakefat32_file_t) (name : list Z) (r : fat_record_t) : dentry :=
  {| d_name := name; d_attr := u8 (attr_of f); d_size := if is_dir f then 0 else u32 (size_of f);
     d_cluster := u16 (FstClusLO r) + 65536 * u16 (FstClusHI r) |}.

(** The entries of a file, and the file they say; a volume label is not one. *)
Inductive entries_of (fs : gmap Z fakefat32_file_t) (x : Z) : list Z → list dentry → Prop :=
  | entries_label f name : fs !! x = Some f → name_of f = Some name →
      Forall (λ c, 0 < c < 256) name → attr_of f = VSFILE_ATTR_VOLUMID → entries_of fs x (label_bytes f name) []
  | entries_file f name sn long flags r : listed fs x f name sn long flags r →
      attr_of f ≠ VSFILE_ATTR_VOLUMID →
      entries_of fs x (file_bytes f name sn long flags r) [file_dentry f name r].

(** The entries of the array of files at [a]. *)
Inductive dir_stream (fs : gmap Z fakefat32_file_t) : Z → list (list Z) → list dentry → Prop :=
  | stream_end a f : fs !! a = Some f → name_of f = None → dir_stream fs a [] []
  | stream_cons a e i es ds : a ≠ NULL → entries_of fs a e i → dir_stream fs (a + FILE_SIZE) es ds →
      dir_stream fs a (e :: es) (i ++ ds).

(** ** Files and their records *)

(** All of a file but its record. *)
Definition body (f : fakefat32_file_t) := (memfile f, cb_read f, cb_write f, first_cluster f).

(** The same files, whose records may differ. *)
Definition same_files (fs fs' : gmap Z fakefat32_file_t) : Prop := body <$> fs = body <$> fs'.

Lemma same_files_lookup fs fs' a f : same_files fs fs' → fs !! a = Some f →
  ∃ r, fs' !! a = Some (set_record r f).
Proof.
  intros Hs Hf. pose proof (f_equal (.!! a) Hs) as Ha. rewrite !lookup_fmap, Hf in Ha.
  destruct (fs' !! a) as [f'|]; [|done]. injection Ha as H1 H2 H3 H4. exists (record f'). f_equal.
  destruct f', f. simpl in *. by subst.
Qed.

Lemma same_files_none fs fs' a : same_files fs fs' → fs !! a = None → fs' !! a = None.
Proof.
  intros Hs Hf. pose proof (f_equal (.!! a) Hs) as Ha. rewrite !lookup_fmap, Hf in Ha.
  by destruct (fs' !! a).
Qed.

Lemma same_files_insert fs x f r : fs !! x = Some f → same_files fs (<[x := set_record r f]> fs).
Proof.
  intros Hx. unfold same_files. rewrite fmap_insert. change (body (set_record r f)) with (body f).
  symmetry. apply insert_id. by rewrite lookup_fmap, Hx.
Qed.

Lemma set_FstClus_twice c r : set_FstClus c (set_FstClus c r) = set_FstClus c r.
Proof. done. Qed.

Lemma dot_record_files fs fs' name r : same_files fs fs' →
  dot_record fs' d name r = dot_record fs d name r.
Proof.
  intros Hs. unfold dot_record.
  destruct (fs !! d) as [df|] eqn:Hd; [|by rewrite (same_files_none _ _ _ Hs Hd)].
  destruct (same_files_lookup _ _ _ _ Hs Hd) as (rd & ->). bindr. cbn [memfile first_cluster set_record].
  destruct (strcmp_eq name DOT); [done|]. destruct (_ && _); [|done].
  destruct (fs !! f_parent _) as [p|] eqn:Hp; [|by rewrite (same_files_none _ _ _ Hs Hp)].
  destruct (same_files_lookup _ _ _ _ Hs Hp) as (rp & ->). done.
Qed.

Lemma dot_record_twice fs name r r' : dot_record fs d name r = Some r' → dot_record fs d name r' = Some r'.
Proof.
  unfold dot_record. destruct (fs !! d) as [df|]; [|done]. bindr.
  destruct (strcmp_eq name DOT); [by intros [= <-]|]. destruct (_ && _); [|done].
  destruct (fs !! f_parent _) as [p|]; [|done]. bindr. destruct (_ =? NULL); by intros [= <-].
Qed.

(** The directory is the same when the record of a file has become what it has
    to be. *)
Lemma entries_of_record fs x f name sn long flags r y e i :
  listed fs x f name sn long flags r → entries_of fs y e i →
  entries_of (<[x := set_record r f]> fs) y e i.
Proof.
  intros Hx. pose proof (same_files_insert fs x f r (li_file _ _ _ _ _ _ _ _ Hx)) as Hs.
  destruct 1 as [g nm Hg Hnm Hb Ha|g nm sn' lg fl r' Hg Ha].
  - destruct (same_files_lookup _ _ _ _ Hs Hg) as (r2 & Hg2).
    change (label_bytes g nm) with (label_bytes (set_record r2 g) nm). by econstructor.
  - destruct Hg as [H1 H2 H3 H4 H5 H6 H7 H8 H9].
    assert (Hg2 : ∃ r2, <[x := set_record r f]> fs !! y = Some (set_record r2 g) ∧
      dot_record fs d nm r2 = Some r').
    { destruct (decide (x = y)) as [<-|Hne].
      - exists r. rewrite lookup_insert_eq. destruct Hx as [Hx1 Hx2 _ _ _ _ _ Hx8 _]. simplify_eq.
        split; [done|by eapply dot_record_twice].
      - exists (record g). rewrite lookup_insert_ne by done. by destruct g. }
    destruct Hg2 as (r2 & Hg2 & Hr2).
    change (file_bytes g nm sn' lg fl r') with (file_bytes (set_record r2 g) nm sn' lg fl r').
    change (file_dentry g nm r') with (file_dentry (set_record r2 g) nm r').
    constructor; [|done]. constructor; try done. by rewrite (dot_record_files _ _ _ _ Hs).
Qed.

(** The same files, with entries that say the same. *)
Definition settled (fs fs' : gmap Z fakefat32_file_t) : Prop :=
  same_files fs fs' ∧ ∀ y e i, entries_of fs y e i → entries_of fs' y e i.

#[export] Instance settled_preorder : PreOrder settled.
Proof.
  split; [by intros fs|]. intros fs1 fs2 fs3 [H1 E1] [H2 E2]. split; [by etransitivity|]. auto.
Qed.

Lemma settled_record fs x f name sn long flags r :
  listed fs x f name sn long flags r → settled fs (<[x := set_record r f]> fs).
Proof.
  intros Hx. split; [by eapply same_files_insert, li_file|]. intros y e i. by eapply entries_of_record.
Qed.

Lemma dir_stream_settled fs fs' a es ds : settled fs fs' → dir_stream fs a es ds → dir_stream fs' a es ds.
Proof.
  intros [Hs He]. induction 1 as [a g Hg Hn|a e i es ds Ha Hx Hes IH].
  - destruct (same_files_lookup _ _ _ _ Hs Hg) as (r2 & Hg2). by econstructor.
  - constructor; [done|by apply He|done].
Qed.

(** ** Writing entries *)

(** A long name from its [o]-th entry on. *)
Lemma longname_loop_from name sn o r (pre page post : list Z) :
  0 < strlen name ≤ 819 → (o ≤ lfn_num name true)%nat → length page = (32 * S r)%nat →
  Z.of_nat (length page) < 4294967296 →
  longname_loop 65 name sn (longname_start name (Z.of_nat o)) (Z.of_nat (length pre))
    (Z.of_nat (length page)) (pre ++ page ++ post) =
  (let n := Nat.min (length page) (32 * (lfn_num name true - o)) in
   Some (Z.of_nat (length pre + n), Z.of_nat (length page - n),
     pre ++ fill page (drop (32 * o) (lfn_stream name sn (lfn_num name true))) ++ post)).
Proof.
  intros Hs Ho Hl Hb. pose proof (lfn_num_pos name ltac:(lia)) as Hn0.
  pose proof (lfn_num_bound name true ltac:(lia)) as Hn. unfold longname_start.
  rewrite entry_num_lfn by lia. set (n := lfn_num name true) in *. clearbody n. cbv zeta.
  rewrite (proj2 (Z.leb_gt 0x40 _)) by lia. destruct o as [|o].
  - change (Z.of_nat 0 =? 0) with true. cbv iota. change (32 * 0)%nat with 0%nat.
    rewrite drop_0, Nat.sub_0_r. destruct n as [|n]; [lia|].
    destruct (index_bits (S n)) as (_ & Hbits & Hr & _); [lia|].
    rewrite (longname_loop_step name sn ltac:(lia) _ (S n) _ r) by (done || lia). cbv zeta.
    replace (S n - 1)%nat with n by lia. set (x := lfn_bytes _ _ _).
    rewrite (longname_loop_tail name sn ltac:(lia) n _ r) by (rewrite ?length_drop; lia). cbv zeta.
    cbn [lfn_stream]. fold x.
    assert (Hx : length x = 32%nat) by apply lfn_bytes_length. rewrite fill_app by lia.
    rewrite !length_app, !length_drop, Hx, <- !app_assoc. pair_eq.
  - rewrite (proj2 (Z.eqb_neq _ 0)) by lia. rewrite u8_small by lia.
    replace (Z.of_nat n - Z.of_nat (S o)) with (Z.of_nat (n - S o)) by lia.
    rewrite (longname_loop_tail name sn ltac:(lia) _ _ (S r)) by lia. cbv zeta.
    by rewrite lfn_stream_drop by lia.
Qed.

Lemma fill_same (page src : list Z) : length src = length page → fill page src = src.
Proof. intros H. unfold fill. rewrite take_ge, drop_ge by lia. apply app_nil_r. Qed.

Lemma fill_room (page src : list Z) : (length src ≤ length page)%nat → fill page src = src ++ drop (length src) page.
Proof. intros H. unfold fill. by rewrite take_ge. Qed.

Lemma fill_long page src x : (length page ≤ length src)%nat → fill page (src ++ x) = fill page src.
Proof.
  intros H. unfold fill. rewrite take_app_le by done. rewrite !drop_ge by (rewrite ?length_app; lia). done.
Qed.

Lemma file_bytes_length f name sn long flags r : length sn = 11%nat →
  length (file_bytes f name sn long flags r) = (32 * lfn_num name long + 32)%nat.
Proof. intros H. unfold file_bytes. rewrite length_app, lfn_stream_length, sfn_bytes_length by done. lia. Qed.

(** The entries of a file from the [o]-th on: there may be no room for the
    last. *)
Lemma dir_entries_file fs x f name sn long flags r o R fuel (pre page post : list Z) :
  listed fs x f name sn long flags r → attr_of f ≠ VSFILE_ATTR_VOLUMID → x ≠ NULL →
  (o ≤ lfn_num name long)%nat → length page = (32 * S R)%nat → Z.of_nat (length page) < 4294967296 →
  dir_entries (S fuel) d x (Z.of_nat o) (Z.of_nat (length pre)) (Z.of_nat (length page)) fs
    (pre ++ page ++ post) =
  (let e := drop (32 * o) (file_bytes f name sn long flags r) in
   if decide (length e ≤ length page)%nat then
     dir_entries fuel d (x + FILE_SIZE) 0 (Z.of_nat (length (pre ++ e)))
       (Z.of_nat (length (drop (length e) page))) (<[x := set_record r f]> fs)
       ((pre ++ e) ++ drop (length e) page ++ post)
   else Some (fs, pre ++ fill page e ++ post)).
Proof.
  intros [Hx Hname [Hsn Hsnl] Hlong Hlen Hfl Hsz Hr Hbytes] Hattr Hx0 Ho Hl Hb. cbn [dir_entries].
  rewrite (proj2 (Z.eqb_neq (Z.of_nat (length page)) 0)), (proj2 (Z.eqb_neq x NULL)) by (done || lia).
  cbn [orb]. rewrite Hx. bindr. rewrite Hname.
  rewrite (proj2 (Z.eqb_neq VSFILE_ATTR_VOLUMID _)) by (intros H; by apply Hattr).
  rewrite Hsn. bindr. unfold fakefat32_file_is_longname. rewrite Hname. bindr. rewrite Hlong. bindr.
  set (e := file_bytes f name sn long flags r).
  assert (He : length (drop (32 * o) e) = (32 * (lfn_num name long - o) + 32)%nat).
  { unfold e. rewrite length_drop, file_bytes_length by done. lia. }
  cbv zeta. rewrite He. assert (Hdr : drop (32 * o) e =
    drop (32 * o) (lfn_stream name sn (lfn_num name long)) ++ sfn_bytes f r sn flags).
  { unfold e, file_bytes. rewrite drop_app_le; [done|]. rewrite lfn_stream_length. lia. }
  rewrite Hdr. set (t := drop (32 * o) (lfn_stream _ _ _)).
  assert (Ht : length t = (32 * (lfn_num name long - o))%nat)
    by (unfold t; rewrite length_drop, lfn_stream_length; lia).
  destruct long.
  - rewrite (longname_loop_from name sn o R) by done. bindr. fold t.
    set (k := lfn_num name true) in *. cbn [andb]. rewrite <- Ht. case_decide as Hroom.
    + rewrite Nat.min_r by lia. rewrite (proj2 (Z.eqb_neq _ 0)) by lia.
      rewrite (fill_room page t) by lia. rewrite <- app_assoc, app_assoc.
      rewrite <- length_app.
      rewrite (shortname_entry_spec fs d x f name sn true flags r) by (done || rewrite ?length_drop; lia).
      bindr. rewrite u32_small by lia. rewrite drop_drop, <- !app_assoc, !length_app, !length_drop.
      rewrite sfn_bytes_length by done. f_equal; [lia|]. lia.
    + assert (Hmin : Nat.min (length page) (length t) = length page) by lia. rewrite Hmin, Nat.sub_diag.
      cbn [Z.of_nat Z.eqb]. rewrite fill_long by lia. done.
  - bindr. cbn [andb]. assert (t = []) as Ht0 by (destruct t; [done|simpl in Ht, Ho; lia]).
    cbn [lfn_num] in Ho |- *. assert (o = 0%nat) as -> by lia. rewrite Ht0. cbn [app].
    rewrite decide_True by (cbn; lia).
    rewrite (shortname_entry_spec fs d x f name sn false flags r) by (done || lia). bindr.
    rewrite u32_small by lia. rewrite !length_app, !length_drop, sfn_bytes_length by done.
    change (32 * (0 - 0) + 32)%nat with 32%nat. f_equal; lia.
Qed.

Lemma dir_entries_label fs x f name R fuel o (pre page post : list Z) :
  fs !! x = Some f → name_of f = Some name → attr_of f = VSFILE_ATTR_VOLUMID → x ≠ NULL →
  length page = (32 * S R)%nat → Z.of_nat (length page) < 4294967296 →
  dir_entries (S fuel) d x o (Z.of_nat (length pre)) (Z.of_nat (length page)) fs (pre ++ page ++ post) =
  dir_entries fuel d (x + FILE_SIZE) o (Z.of_nat (length (pre ++ label_bytes f name)))
    (Z.of_nat (length (drop 32 page))) fs ((pre ++ label_bytes f name) ++ drop 32 page ++ post).
Proof.
  intros Hx Hname Hattr Hx0 Hl Hb. cbn [dir_entries].
  rewrite (proj2 (Z.eqb_neq (Z.of_nat (length page)) 0)), (proj2 (Z.eqb_neq x NULL)) by (done || lia).
  cbn [orb]. rewrite Hx. bindr. rewrite Hname.
  rewrite Hattr at 1. cbn [Z.eqb VSFILE_ATTR_VOLUMID Z.shiftl Pos.iter Pos.eqb].
  pose proof (label_spec f name _ pre page post eq_refl ltac:(lia)) as H.
  destruct (strncpy_fill _ _ _ _ _) as [m1|]; [|done]. cbn [mbind option_bind] in H. bindr.
  destruct (setb m1 _ _) as [m2|]; [|done]. cbn [mbind option_bind] in H. bindr.
  rewrite H. bindr. rewrite !length_app, length_drop, label_bytes_length, u32_small by lia. f_equal; lia.
Qed.

Lemma entries_of_length fs x e i : entries_of fs x e i → ∃ n, length e = (32 * S n)%nat.
Proof.
  destruct 1 as [f name|f name sn long flags r Hx].
  - exists 0%nat. by rewrite label_bytes_length.
  - exists (lfn_num name long). destruct Hx as [_ _ [_ Hsn] _ _ _ _ _ _]. rewrite file_bytes_length by done. lia.
Qed.

(** A place to start: at a file, or at one of its entries. *)
Definition within (es : list (list Z)) (o : nat) : Prop :=
  o = 0%nat ∨ ∃ e es', es = e :: es' ∧ (32 * o < length e)%nat.

Lemma dir_entries_spec es : ∀ fs ds x fuel R o (pre page post : list Z),
  dir_stream fs x es ds → within es o → length page = (32 * R)%nat → (R < fuel)%nat →
  Z.of_nat (length page) < 4294967296 →
  ∃ fs', dir_entries fuel d x (Z.of_nat o) (Z.of_nat (length pre)) (Z.of_nat (length page)) fs
      (pre ++ page ++ post) =
    Some (fs', pre ++ fill page (drop (32 * o) (concat es)) ++ post) ∧
    settled fs fs'.
Proof.
  induction es as [|e es IH]; intros fs ds x fuel R o pre page post Hs Ho Hl Hfuel Hb;
    (destruct fuel as [|fuel]; [lia|]).
  { inversion Hs as [a f Hf Hn|]; subst. destruct Ho as [->|(e & es' & [=] & _)]. exists fs.
    split; [|done]. cbn [dir_entries concat]. rewrite drop_nil, fill_nil.
    destruct (_ || _); [done|]. rewrite Hf. bindr. by rewrite Hn. }
  destruct R as [|R].
  { destruct page; [|simpl in Hl; lia]. exists fs. rewrite fill_nil_l. done. }
  inversion Hs as [|a e' i es' ds' Hx0 He Hes]; subst.
  assert (Ho' : (32 * o < length e)%nat).
  { destruct (entries_of_length _ _ _ _ He) as (n & Hn). destruct Ho as [->|(? & ? & [= <- <-] & ?)]; lia. }
  cbn [concat]. rewrite drop_app_le by lia. set (e' := drop (32 * o) e).
  destruct He as [f name Hf Hname Hbytes Hattr|f name sn long flags r Hx Hattr].
  - rewrite label_bytes_length in Ho'. assert (o = 0%nat) as -> by lia.
    rewrite (dir_entries_label _ _ f name R) by done.
    destruct (IH fs ds' _ fuel R 0%nat (pre ++ label_bytes f name) (drop 32 page) post Hes)
      as (fs' & Hd & Hsame); [by left|rewrite length_drop; lia|lia|rewrite length_drop; lia|].
    exists fs'. change 0 with (Z.of_nat 0). rewrite Hd. split.
    + unfold e'. rewrite !drop_0, fill_app, label_bytes_length by (rewrite label_bytes_length; lia).
      by rewrite <- !app_assoc.
    + done.
  - assert (Hsn : length sn = 11%nat) by by destruct Hx as [_ _ [_ ?] _ _ _ _ _ _].
    rewrite file_bytes_length in Ho' by done.
    rewrite (dir_entries_file _ _ f name sn long flags r o R) by (done || lia). cbv zeta.
    fold e'. case_decide as Hroom.
    + destruct (IH (<[x:=set_record r f]> fs) ds' (x + FILE_SIZE) fuel (S R - length e' / 32)%nat 0%nat
        (pre ++ e') (drop (length e') page) post) as (fs' & Hd & Hsame).
      * eapply dir_stream_settled; [by eapply settled_record|done].
      * by left.
      * rewrite length_drop. assert (He32 : length e' = (32 * (lfn_num name long - o + 1))%nat).
        { unfold e'. rewrite length_drop, file_bytes_length by done. lia. }
        rewrite He32, Nat.mul_comm, Nat.div_mul by done. lia.
      * assert (He32 : length e' = (32 * (lfn_num name long - o + 1))%nat).
        { unfold e'. rewrite length_drop, file_bytes_length by done. lia. }
        rewrite He32, Nat.mul_comm, Nat.div_mul by done. lia.
      * rewrite length_drop. lia.
      * exists fs'. change 0 with (Z.of_nat 0). rewrite Hd. split.
        { rewrite fill_app by done. change (32 * 0)%nat with 0%nat. by rewrite drop_0, <- !app_assoc. }
        etransitivity; [by eapply settled_record|done].
    + exists fs. rewrite fill_long by lia. done.
Qed.

(** ** Reading a directory *)

Lemma dir_seek_spec es : ∀ fs ds x fuel k,
  dir_stream fs x es ds → (length es < fuel)%nat →
  (dir_seek fuel fs x (32 * Z.of_nat k) = Some None ∧ (length (concat es) ≤ 32 * k)%nat) ∨
  (∃ y o es' ds', dir_seek fuel fs x (32 * Z.of_nat k) = Some (Some (y, Z.of_nat o)) ∧
    dir_stream fs y es' ds' ∧ within es' o ∧
    drop (32 * k) (concat es) = drop (32 * o) (concat es')).
Proof.
  induction es as [|e es IH]; intros fs ds x fuel k Hs Hfuel; (destruct fuel as [|fuel]; [simpl in Hfuel; lia|]);
    cbn [dir_seek]; (destruct (decide (k = 0%nat)) as [->|Hk];
      [right; exists x, 0%nat; eexists _, _; split; [done|]; split; [done|]; split; [by left|done]|]);
    rewrite (proj2 (Z.eqb_neq (32 * Z.of_nat k) 0)) by lia.
  { inversion Hs as [a f Hf Hn|]; subst. rewrite Hf. bindr. rewrite Hn. left. split; [done|]. simpl. lia. }
  inversion Hs as [|a e' i es' ds' Hx0 He Hes]; subst.
  destruct He as [f name Hf Hname Hbytes Hattr|f name sn long flags r Hx Hattr].
  - rewrite Hf. bindr. rewrite Hname. unfold has_longname.
    rewrite Hattr, Z.eqb_refl. bindr. rewrite (proj2 (Z.ltb_ge _ _)) by lia.
    replace (32 * Z.of_nat k - 32) with (32 * Z.of_nat (k - 1)) by lia. cbn [concat].
    rewrite length_app, drop_app_ge, label_bytes_length by (rewrite label_bytes_length; lia).
    replace (32 * k - 32)%nat with (32 * (k - 1))%nat by lia.
    destruct (IH fs ds' _ fuel (k - 1)%nat Hes ltac:(simpl in Hfuel; lia))
      as [(-> & Hl)|(y & o & es' & ds2 & -> & H2)]; [left; split; [done|lia]|right; by eexists y, o, es', ds2].
  - destruct Hx as [Hf Hname Hsn Hlong Hlen Hfl Hsz Hr Hbytes]. rewrite Hf. bindr. rewrite Hname.
    unfold has_longname, fakefat32_file_is_longname. rewrite (proj2 (Z.eqb_neq _ _)) by done.
    rewrite Hname. bindr. rewrite Hlong. bindr.
    assert (Hsize : (if long then (1 + longname_entry_num name) * 32 else 32) =
      32 * Z.of_nat (lfn_num name long + 1)).
    { destruct long; [rewrite entry_num_lfn by lia; lia|done]. }
    rewrite Hsize. set (e := file_bytes f name sn long flags r).
    assert (He : length e = (32 * (lfn_num name long + 1))%nat).
    { unfold e. rewrite file_bytes_length by (by destruct Hsn). lia. }
    pose proof (lfn_num_bound name long ltac:(lia)).
    destruct (Z.ltb_spec (32 * Z.of_nat k) (32 * Z.of_nat (lfn_num name long + 1))).
    + right. exists x, k, (e :: es). exists (file_dentry f name r :: ds'). split_and!; [|done| |done].
      * rewrite (Z.mul_comm 32), Z.div_mul by done. by rewrite u8_small by lia.
      * right. exists e, es. split; [done|lia].
    + replace (32 * Z.of_nat k - _) with (32 * Z.of_nat (k - (lfn_num name long + 1))) by lia. cbn [concat].
      rewrite length_app, drop_app_ge, He by lia.
      replace (32 * k - 32 * _)%nat with (32 * (k - (lfn_num name long + 1)))%nat by lia.
      destruct (IH fs ds' _ fuel (k - (lfn_num name long + 1))%nat Hes ltac:(simpl in Hfuel; lia))
        as [(-> & Hl)|(y & o & es' & ds2 & -> & H2)]; [left; split; [done|lia]|right; by eexists y, o, es', ds2].
Qed.

Lemma dir_stream_keys fs a es ds k : dir_stream fs a es ds → (k < length es)%nat →
  is_Some (fs !! (a + FILE_SIZE * Z.of_nat k)).
Proof.
  intros Hs. revert k. induction Hs as [a f Hf Hn|a e i es ds Ha He Hes IH]; intros k Hk; [simpl in Hk; lia|].
  destruct k as [|k].
  - rewrite Z.mul_0_r, Z.add_0_r. destruct He as [f ? Hf|f ? ? ? ? ? [Hf]]; by eexists.
  - replace (a + FILE_SIZE * Z.of_nat (S k)) with (a + FILE_SIZE + FILE_SIZE * Z.of_nat k) by lia.
    apply IH. simpl in Hk. lia.
Qed.

(** There is fuel for every file of the array. *)
Lemma dir_stream_fuel fs a es ds : dir_stream fs a es ds → (length es < file_fuel fs)%nat.
Proof.
  intros Hs. unfold file_fuel. rewrite <- (size_dom (D := gset Z)). apply le_n_S.
  set (l := (λ k, a + FILE_SIZE * Z.of_nat k) <$> seq 0 (length es)).
  replace (length es) with (length l) by (unfold l; by rewrite length_fmap, length_seq).
  rewrite <- (size_list_to_set (C := gset Z) l).
  - apply subseteq_size. intros x Hx%elem_of_list_to_set. apply elem_of_dom.
    unfold l in Hx. apply list_elem_of_fmap in Hx as (k & -> & Hk%elem_of_seq).
    apply (dir_stream_keys _ _ _ _ _ Hs). lia.
  - apply NoDup_fmap_2; [intros ? ?; unfold FILE_SIZE; lia|apply NoDup_seq].
Qed.

Lemma drop_fill (es : list (list Z)) (page : list Z) o : (length (concat es) ≤ o)%nat →
  fill page (drop o (concat es)) = page.
Proof. intros H. rewrite drop_ge by done. apply fill_nil. Qed.

(** A sector of a directory is a window of its entries, followed by zeros. *)
Lemma dir_read_window s f es ds k R (pre page post : list Z) :
  ff_files s !! d = Some f → is_dir f = true → memptr (memfile f) ≠ NULL →
  dir_stream (ff_files s) (memptr (memfile f)) es ds → length page = (32 * R)%nat →
  Z.of_nat (length page) < 4294967296 →
  ∃ fs', fakefat32_dir_read d (32 * Z.of_nat k) (Z.of_nat (length pre)) (Z.of_nat (length page)) s
      (pre ++ page ++ post) =
    Some (VSFERR_NONE, set_files s fs',
      pre ++ fill (replicate (length page) 0) (drop (32 * k) (concat es)) ++ post) ∧
    settled (ff_files s) fs'.
Proof.
  intros Hf Hd Hp Hs Hl Hb. unfold fakefat32_dir_read.
  rewrite memset_app by (rewrite ?length_app; lia). bindr. rewrite Nat2Z.id, drop_app_length.
  rewrite Hf. bindr. unfold is_dir in Hd. rewrite Hd. cbn [negb].
  rewrite (proj2 (Z.eqb_neq _ NULL)) by done. set (zs := replicate (length page) 0).
  destruct (dir_seek_spec es _ ds _ (file_fuel (ff_files s)) k Hs (dir_stream_fuel _ _ _ _ Hs))
    as [(-> & Hlen)|(y & o & es' & ds' & -> & Hs' & Ho & Hdrop)]; bindr.
  - exists (ff_files s). rewrite drop_fill by done. split; [by destruct s|done].
  - rewrite Hdrop. assert (Hzl : length zs = length page) by apply length_replicate.
    destruct (dir_entries_spec es' (ff_files s) ds' y (S (length page)) R o pre zs post Hs' Ho)
      as (fs' & Hde & Hset); [lia|lia|lia|]. exists fs'. rewrite Hzl in Hde. rewrite Hde. done.
Qed.
End stream.

(** C0: a sector of a directory, whatever its place, is made of the entries of
    the files from that place on, followed by zeros: nothing else in memory
    changes, and of the files only the records of the entries "." and "..", so
    that the sectors that are read next belong to the same entries.  The files
    are an array that ends with a file without a name, and each has a name of
    at most 819 bytes other than 0 of which a short name can be made
    ([dir_stream]); the place and the sector are whole entries. *)
Theorem fakefat32_dir_read_window d s f es ds k R (pre page post : list Z) :
  ff_files s !! d = Some f → is_dir f = true → memptr (memfile f) ≠ NULL →
  dir_stream d (ff_files s) (memptr (memfile f)) es ds → length page = (32 * R)%nat →
  Z.of_nat (length page) < 4294967296 →
  ∃ s', fakefat32_dir_read d (32 * Z.of_nat k) (Z.of_nat (length pre)) (Z.of_nat (length page)) s
      (pre ++ page ++ post) =
    Some (VSFERR_NONE, s',
      pre ++ take (length page) (drop (32 * k) (concat es) ++ replicate (length page) 0) ++ post) ∧
    s' = set_files s (ff_files s') ∧ same_files (ff_files s) (ff_files s') ∧
    dir_stream d (ff_files s') (memptr (memfile f)) es ds.
Proof.
  intros Hf Hd Hp Hs Hl Hb.
  destruct (dir_read_window d s f es ds k R pre page post Hf Hd Hp Hs Hl Hb) as (fs' & -> & Hset).
  exists (set_files s fs'). split; [|split; [done|split; [by destruct Hset|by eapply dir_stream_settled]]].
  do 4 f_equal. unfold fill. rewrite length_replicate, take_app, take_replicate, drop_replicate. do 2 f_equal. lia.
Qed.

(** ** A tree of files *)

Definition demo_file (name : option (list Z)) (size attr ptr : Z) : fakefat32_file_t :=
  {| memfile := {| mfile := {| f_name := name; f_size := size; f_attr := attr; f_op := NULL; f_parent := NULL |};
       memptr := ptr; child_size := 0 |};
     cb_read := NULL; cb_write := NULL; first_cluster := 0; record := record_of (replicate 15 0) |}.

(** A root directory with a label "V", a file "x.b" and a file "Read me.txt". *)
Definition demo_files : gmap Z fakefat32_file_t := list_to_map
  [(1000, demo_file (Some [82]) 0 VSFILE_ATTR_DIRECTORY 2000); (1072, demo_file None 0 0 NULL);
   (2000, demo_file (Some [86]) 0 VSFILE_ATTR_VOLUMID NULL);
   (2072, demo_file (Some [120; 46; 98]) 3 VSFILE_ATTR_ARCHIVE 1);
   (2144, demo_file (Some [82; 101; 97; 100; 32; 109; 101; 46; 116; 120; 116]) 600 VSFILE_ATTR_ARCHIVE 2);
   (2216, demo_file None 0 0 NULL)].

Definition demo_param : fakefat32_param_t := {| sector_size := 512; sector_number := 100;
  sectors_per_cluster := 1; volume_id := 1; disk_id := 2; root := 1000 |}.

Definition demo_state : fakefat32 := {| ff_files := demo_files;
  ff_bufs := list_to_map [(1, [1; 2; 3]); (2, replicate 600 66)]; fakefat32_mbr := fakefat32_mbr_init;
  ff_params := {[50 := demo_param]}; mal_param := {[60 := 50]} |}.

(** The entries of the root directory, in a tree with these files. *)
Ltac demo_stream :=
  repeat first
  [ eapply stream_end; [by vm_compute|done]
  | eapply stream_cons; [done| |];
    [first [eapply entries_label; [by vm_compute|done|by_decide|done]
     | eapply entries_file; [constructor; [by vm_compute|done|split; by vm_compute|by vm_compute|by vm_compute|
         by vm_compute|done|by vm_compute|by_decide]|done]]|] ].

Definition demo_root : fakefat32_file_t := demo_file (Some [82]) 0 VSFILE_ATTR_DIRECTORY 2000.

Definition demo_list (c1 c2 : Z) : list dentry :=
  [{| d_name := [120; 46; 98]; d_attr := 32; d_size := 3; d_cluster := c1 |};
   {| d_name := [82; 101; 97; 100; 32; 109; 101; 46; 116; 120; 116]; d_attr := 32; d_size := 600; d_cluster := c2 |}].

(** Before the volume is set up there are no clusters. *)
Lemma demo_entries : ∃ es, dir_stream 1000 demo_files 2000 es (demo_list 0 0) ∧ length (concat es) = 128%nat.
Proof.
  assert (H : ∃ es ds, dir_stream 1000 demo_files 2000 es ds ∧ ds = demo_list 0 0 ∧ length (concat es) = 128%nat).
  { eexists _, _. split; [demo_stream|]. split; by vm_compute. }
  destruct H as (es & ds & H & -> & Hl). by exists es.
Qed.

Lemma fakefat32_dir_read_window_witness : ∃ s' es ds,
  length (concat es) = 128%nat ∧
  fakefat32_dir_read 1000 (32 * Z.of_nat 2) (Z.of_nat (length [5])) (Z.of_nat (length (replicate 64 7))) demo_state
    ([5] ++ replicate 64 7 ++ [6]) =
  Some (VSFERR_NONE, s', [5] ++ take 64 (drop (32 * 2) (concat es) ++ replicate 64 0) ++ [6]) ∧
  dir_stream 1000 (ff_files s') 2000 es ds.
Proof.
  destruct demo_entries as (es & Hs & Hl).
  destruct (fakefat32_dir_read_window 1000 demo_state demo_root es (demo_list 0 0) 2 2 [5] (replicate 64 7) [6])
    as (s' & H1 & _ & _ & H4); [by vm_compute|done|done|exact Hs|done|by vm_compute|].
  exists s', es, (demo_list 0 0). split; [exact Hl|]. split; [exact H1|exact H4].
Defined.
