(* ===== verification/Fatparse.v ===== *)
(** * Fatparse: the parser finds the files of a directory

    [vsffat_parse_dentry_fat] on the entries that [fakefat32_dir_read] makes:
    names, and what the short entries say, come back. *)

From S2P Require Import Prelude Chain Endian Vsfmal Vsfile Vsffat Fakefat Fatlayout Fatimage Fatdir.

(** ** Extensions *)

Lemma strchr_spec s c :
  match strchr s c with
  | Some t => ∃ p t', t = c :: t' ∧ s = p ++ t
  | None => c ∉ s
  end.
Proof.
  induction s as [|x s IH]; cbn [strchr]; [by apply not_elem_of_nil|].
  destruct (Z.eqb_spec x c) as [->|Hx]; [by exists [], s|].
  destruct (strchr s c) as [t|].
  - destruct IH as (p & t' & -> & ->). by exists (x :: p), t'.
  - by apply not_elem_of_cons.
Qed.

(** A name with its extension. *)
Lemma getfileext_loop_spec fuel s ext :
  getfileext_loop fuel s = Some ext → ext = s ∨ ∃ base, s = base ++ 46 :: ext.
Proof.
  revert s. induction fuel as [|fuel IH]; intros s; [done|]. cbn [getfileext_loop].
  pose proof (strchr_spec s 46) as Hc. destruct (strchr s 46) as [t|]; [|intros [= ->]; by left].
  destruct Hc as (p & t' & -> & ->). intros H. right. assert (Hd : drop 1 (46 :: t') = t') by apply drop_0. rewrite Hd in H.
  destruct (IH _ H) as [<-|(base & ->)]; [by exists p|]. exists (p ++ 46 :: base). by rewrite <- app_assoc.
Qed.

(** ** Case *)

(** Not letters of both cases. *)
Definition one_case (s : list Z) : Prop := existsb islower s && existsb isupper s = false.

Lemma one_case_app s t : one_case (s ++ t) → one_case s ∧ one_case t.
Proof.
  unfold one_case. rewrite !existsb_app.
  destruct (existsb islower s), (existsb isupper s), (existsb islower t), (existsb isupper t); simpl; tauto.
Qed.

Lemma find_first_case s : islower (find_first_alphabet s) = true → existsb islower s = true.
Proof.
  induction s as [|c s IH]; [done|]. cbn [find_first_alphabet existsb].
  destruct (isalpha c); [by intros ->|]. intros H. rewrite IH by done. apply orb_true_r.
Qed.

Lemma find_first_upper s : islower (find_first_alphabet s) = false → one_case s → existsb islower s = false.
Proof.
  unfold one_case. intros H. assert (Hs : existsb islower s = true → existsb isupper s = true).
  { induction s as [|c s IH]; [done|]. cbn [find_first_alphabet existsb] in *. unfold isalpha in *.
    destruct (islower c) eqn:Hc; cbn [orb] in *; [congruence|]. destruct (isupper c); cbn [orb] in *; [done|]. auto. }
  destruct (existsb islower s); [|done]. rewrite Hs by done. done.
Qed.

Lemma existsb_false {A} (p : A → bool) s : existsb p s = false ↔ Forall (λ x, p x = false) s.
Proof.
  induction s as [|x s IH]; cbn [existsb]; [split; auto|]. rewrite orb_false_iff, Forall_cons, IH. done.
Qed.

(** What a short name's copy makes of a character. *)
Definition respell (lower : bool) (c : Z) : Z := if lower then tolower (toupper c) else toupper c.

Lemma respell_same s t : one_case s → t ⊆ s → respell (islower (find_first_alphabet s)) <$> t = t.
Proof.
  intros Hs Ht. rewrite <- (list_fmap_id t) at 2. apply Forall_fmap_ext, Forall_forall. unfold id. cut (∀ c, c ∈ s → respell (islower (find_first_alphabet s)) c = c); [set_solver|].
  unfold respell. destruct (islower (find_first_alphabet s)) eqn:Hf.
  - assert (Hu : existsb isupper s = false).
    { unfold one_case in Hs. rewrite (find_first_case _ Hf) in Hs. done. }
    apply existsb_false in Hu. rewrite Forall_forall in Hu. intros c Hc. specialize (Hu c Hc).
    unfold tolower, toupper, isupper, islower in *. zcase; cbn [andb] in *; zcase; cbn [andb] in *; lia || done.
  - apply (find_first_upper _ Hf), existsb_false in Hs. rewrite Forall_forall in Hs.
    intros c Hc. specialize (Hs c Hc). unfold toupper. by rewrite Hs.
Qed.

(** ** Short names *)

Lemma memncpy_toupper_spec n : ∀ a src (pre page : list Z),
  a = Z.of_nat (length pre) → (n ≤ length src)%nat → (n ≤ length page)%nat →
  memncpy_toupper n a src (pre ++ page) = Some (pre ++ (toupper <$> take n src) ++ drop n page).
Proof.
  induction n as [|n IH]; intros a src pre page -> Hs Hp; [done|]. cbn [memncpy_toupper].
  destruct src as [|c src]; [simpl in Hs; lia|]. destruct page as [|y page]; [simpl in Hp; lia|].
  rewrite (setb_app pre [y] page _ 0) by (simpl; lia). bindr. rewrite app_assoc.
  rewrite (IH _ src (pre ++ [toupper c]) page) by (rewrite ?length_app; simpl in *; lia).
  by rewrite <- app_assoc.
Qed.

(** The base and the extension in their fields. *)
Definition sfn_name (base ext : list Z) : list Z :=
  (toupper <$> base) ++ replicate (8 - length base) 32 ++
  (toupper <$> ext) ++ replicate (3 - length ext) 32.

(** A name that is not long. *)
Inductive short_name : list Z → list Z → Prop :=
  | short_dot : short_name DOT [46; 32; 32; 32; 32; 32; 32; 32; 32; 32; 32]
  | short_dotdot : short_name DOTDOT [46; 46; 32; 32; 32; 32; 32; 32; 32; 32; 32]
  | short_plain base ext : base ++ 46 :: ext ≠ DOT → base ++ 46 :: ext ≠ DOTDOT →
      (length base ≤ 8)%nat → (length ext ≤ 3)%nat →
      vsfile_getfileext (base ++ 46 :: ext) = Some ext → one_case (base ++ 46 :: ext) →
      short_name (base ++ 46 :: ext) (sfn_name base ext).

Lemma short_name_spec name sn :
  strlen name ≤ 819 → vsffat_is_LFN name = Some false → fakefat32_get_shortname name = Some sn →
  short_name name sn.
Proof.
  unfold fakefat32_get_shortname, strcmp_eq. intros Hlen Hlong.
  destruct (vsfile_getfileext name) as [ext|] eqn:Hext; [|done]. bindr.
  destruct (bool_decide_reflect (name = DOT)) as [->|Hd]; [intros [= <-]; constructor|].
  destruct (bool_decide_reflect (name = DOTDOT)) as [->|Hdd]; [intros [= <-]; constructor|].
  rewrite Hlong. bindr. cbn [negb]. unfold vsffat_is_LFN in Hlong. rewrite Hext in Hlong. bindr.
  cbn [mbind option_bind] in Hlong. unfold strlen in *.
  destruct (_ || _) eqn:Hb; [done|]. apply orb_false_elim in Hb as [Hb1 Hb2]. apply Z.ltb_ge in Hb1, Hb2.
  injection Hlong as Hcase. destruct (getfileext_loop_spec _ _ _ Hext) as [->|(base & ->)].
  { exfalso. replace (_ - (_ + 1)) with (-1) in Hb1 by lia. vm_compute in Hb1. done. }
  rewrite length_app in *. cbn [length] in *. rewrite u32_small in Hb1 by lia. rewrite u32_small by lia.
  rewrite <- (app_nil_l (replicate 11 32)), (memncpy_toupper_spec _ _ _ []) by
    (rewrite ?length_app, ?length_replicate; cbn [length]; lia).
  bindr. replace (Z.to_nat (_ - _)) with (length base) by lia. rewrite take_app_length, drop_replicate.
  replace (Z.to_nat (Z.min (Z.of_nat (length ext)) 3)) with (length ext) by lia.
  replace (11 - length base)%nat with ((8 - length base) + 3)%nat by lia.
  cbn [app]. rewrite replicate_add, app_assoc.
  rewrite memncpy_toupper_spec by (rewrite ?length_app, ?length_fmap, ?length_replicate; lia).
  rewrite take_ge, drop_replicate by lia. intros [= <-]. rewrite <- app_assoc. apply short_plain; done || lia.
Qed.

(** ** Copies of the parser *)

(** The memory is [pre ++ B ++ q]: [B] is what is left of the name's buffer and
    [q] is what is read. *)

Lemma getb_after (pre B q : list Z) a j :
  a = Z.of_nat (length (pre ++ B) + j) → getb (pre ++ B ++ q) a = q !! j.
Proof.
  intros ->. unfold getb. rewrite decide_True, Nat2Z.id, app_assoc by lia.
  rewrite lookup_app_r by lia. f_equal. lia.
Qed.

Lemma setb_next (pre q : list Z) y B a c :
  a = Z.of_nat (length pre) →
  setb (pre ++ (y :: B) ++ q) a c = Some ((pre ++ [c]) ++ B ++ q).
Proof.
  intros ->. rewrite (setb_app pre (y :: B) q _ 0) by (simpl; lia). by rewrite <- app_assoc.
Qed.

Lemma sfn_copy_spec n lower cs : ∀ j a p (pre B q : list Z),
  (length cs ≤ n)%nat → (length cs ≤ length B)%nat → p = Z.of_nat (length pre) →
  a = Z.of_nat (length (pre ++ B) + j) →
  (∀ i c, cs !! i = Some c → q !! (j + i)%nat = Some c ∧ c ≠ 32) →
  length cs = n ∨ q !! (j + length cs)%nat = Some 32 →
  sfn_copy n lower a p (pre ++ B ++ q) =
  (let x := (λ c, if lower then tolower c else c) <$> cs in
   Some (Z.of_nat (length (pre ++ x)), (pre ++ x) ++ drop (length cs) B ++ q)).
Proof.
  revert cs. induction n as [|n IH]; intros cs j a p pre B q Hn HB -> Ha Hcs Hend.
  { destruct cs; [|simpl in Hn; lia]. cbv zeta. cbn [sfn_copy fmap list_fmap length]. by rewrite app_nil_r, drop_0. }
  destruct cs as [|c cs]; cbn [sfn_copy]; rewrite (getb_after _ _ _ _ j) by done.
  { destruct Hend as [?|Hend]; [done|]. rewrite Nat.add_0_r in Hend. rewrite Hend. bindr. cbv zeta.
    cbn [fmap list_fmap length]. rewrite app_nil_r, drop_0. done. }
  destruct (Hcs 0%nat c eq_refl) as [Hc Hc32]. rewrite Nat.add_0_r in Hc. rewrite Hc. bindr.
  rewrite (proj2 (Z.eqb_neq c 32)) by done. destruct B as [|y B]; [simpl in HB; lia|].
  rewrite setb_next by done. bindr. set (c' := if lower then tolower c else c).
  rewrite (IH cs (S j)); [|simpl in *; lia|simpl in *; lia|rewrite length_app; simpl; lia| | |].
  - cbv zeta. cbn [fmap list_fmap]. fold c'. rewrite <- !app_assoc. done.
  - rewrite Ha, !length_app. simpl. lia.
  - intros i x Hx. replace (S j + i)%nat with (j + S i)%nat by lia. by apply Hcs.
  - destruct Hend as [H|H]; [left; simpl in H; lia|right]. by rewrite Nat.add_succ_comm.
Qed.

Lemma lfn_copy_spec n cs : ∀ j a p (pre B q : list Z),
  (length cs ≤ n)%nat → (length cs ≤ length B)%nat → p = Z.of_nat (length pre) →
  a = Z.of_nat (length (pre ++ B) + j) →
  (∀ i c, cs !! i = Some c → q !! (j + 2 * i)%nat = Some c ∧ c ≠ 0) →
  length cs = n ∨ ((length cs < n)%nat ∧ q !! (j + 2 * length cs)%nat = Some 0 ∧
    q !! (j + 2 * length cs + 1)%nat = Some 0) →
  lfn_copy n a p (pre ++ B ++ q) =
  Some (bool_decide (length cs < n)%nat, Z.of_nat (length (pre ++ cs)),
    (pre ++ cs) ++ drop (length cs) B ++ q).
Proof.
  revert cs. induction n as [|n IH]; intros cs j a p pre B q Hn HB -> Ha Hcs Hend.
  { destruct cs; [|simpl in Hn; lia]. cbn [lfn_copy length]. by rewrite app_nil_r, drop_0. }
  destruct cs as [|c cs]; cbn [lfn_copy]; rewrite (getb_after _ _ _ a j) by done.
  { destruct Hend as [?|(_ & H0 & H1)]; [done|]. rewrite Nat.mul_0_r, Nat.add_0_r in H0, H1. rewrite H0. bindr.
    cbn [Z.eqb]. rewrite (getb_after _ _ _ _ (j + 1)) by lia. rewrite H1. bindr. cbn [Z.eqb length].
    rewrite bool_decide_true by lia. by rewrite app_nil_r, drop_0. }
  destruct (Hcs 0%nat c eq_refl) as [Hc Hc0]. rewrite Nat.mul_0_r, Nat.add_0_r in Hc. rewrite Hc. bindr.
  rewrite (proj2 (Z.eqb_neq c 0)) by done. bindr. destruct B as [|y B]; [simpl in HB; lia|].
  rewrite setb_next by done. bindr.
  rewrite (IH cs (j + 2)%nat); [|simpl in *; lia|simpl in *; lia|rewrite length_app; simpl; lia| | |].
  - rewrite <- !app_assoc. cbn [length app drop]. do 3 f_equal. apply bool_decide_ext. lia.
  - rewrite Ha, !length_app. simpl. lia.
  - intros i x Hx. replace (j + 2 + 2 * i)%nat with (j + 2 * S i)%nat by lia. by apply Hcs.
  - replace (j + 2 + 2 * length cs)%nat with (j + 2 * length (c :: cs))%nat by (simpl; lia).
    destruct Hend as [H|(H & ? & ?)]; [left; simpl in H; lia|right]. simpl in H. split; [lia|done].
Qed.

(** ** Entries of a long name *)

(** Where everything is in such an entry. *)
Lemma lfn_bytes_lookup index ck cs : (length cs ≤ 13)%nat →
  (∀ t, (t < length cs)%nat → lfn_bytes index ck cs !! lfn_off t = cs !! t) ∧
  ((length cs < 13)%nat → lfn_bytes index ck cs !! lfn_off (length cs) = Some 0 ∧
    lfn_bytes index ck cs !! (lfn_off (length cs) + 1)%nat = Some 0) ∧
  lfn_bytes index ck cs !! 0%nat = Some index ∧ lfn_bytes index ck cs !! 11%nat = Some 0x0F.
Proof.
  intros Hl. do 14 (destruct cs as [|? cs]; [split_and!; [|first [by intros _; split; reflexivity|intros H; simpl in H; lia]|done|done];
    intros t Ht; simpl in Ht; do 13 (destruct t as [|t]; [reflexivity || lia|]); lia|]). simpl in Hl. lia.
Qed.

Section entry.
Context (index ck : Z) (cs q1 q2 : list Z).
Context (Hcs : (length cs ≤ 13)%nat) (Hnz : Forall (λ c, 0 < c < 256) cs).
Notation ent := (lfn_bytes index ck cs).
Notation q := (q1 ++ ent ++ q2).

Lemma entry_lookup i : (i < 32)%nat → q !! (length q1 + i)%nat = ent !! i.
Proof.
  intros Hi. rewrite lookup_app_r, lookup_app_l by (rewrite ?lfn_bytes_length; lia). f_equal. lia.
Qed.

(** One of the three groups of characters. *)
Lemma lfn_copy_group n t o a (pre B : list Z) :
  (t ≤ length cs)%nat → (t + n ≤ 13)%nat → (∀ i, (i < n)%nat → lfn_off (t + i) = o + 2 * i)%nat →
  (0 < n)%nat →
  (length cs - t ≤ length B)%nat → a = Z.of_nat (length (pre ++ B) + length q1 + o) →
  lfn_copy n a (Z.of_nat (length pre)) (pre ++ B ++ q) =
  (let x := take n (drop t cs) in
   Some (bool_decide (length cs < t + n)%nat, Z.of_nat (length (pre ++ x)), (pre ++ x) ++ drop (length x) B ++ q)).
Proof.
  intros Ht Htn Hoff Hn HB ->. cbv zeta. set (x := take n (drop t cs)).
  assert (Hx : length x = Nat.min n (length cs - t)) by (unfold x; by rewrite length_take, length_drop).
  destruct (lfn_bytes_lookup index ck cs Hcs) as (Hl & Hz & _ & _).
  assert (Hin : ∀ i, (i < n)%nat → (o + 2 * i < 31)%nat).
  { intros i Hi. rewrite <- Hoff by lia. apply lfn_off_bound. lia. }
  rewrite (lfn_copy_spec n x (length q1 + o)); [|lia|lia|done|lia| |].
  - do 3 f_equal. apply bool_decide_ext. lia.
  - intros i c Hi. assert (Hi' : (i < length x)%nat) by (by eapply lookup_lt_Some). unfold x in Hi.
    rewrite lookup_take_lt, lookup_drop in Hi by lia. split.
    + rewrite <- Nat.add_assoc, entry_lookup by (specialize (Hin i); lia).
      rewrite <- Hoff by lia. by rewrite Hl by lia.
    + rewrite Forall_forall in Hnz. apply list_elem_of_lookup_2, Hnz in Hi. lia.
  - destruct (decide (length x = n)) as [|Hne]; [by left|]. right. split; [lia|].
    assert (Htx : (t + length x = length cs)%nat) by lia.
    assert (Ho : (o + 2 * length x = lfn_off (length cs))%nat) by (rewrite <- Htx, Hoff by lia; done).
    destruct Hz as [Hz1 Hz2]; [lia|]. specialize (Hin (length x) ltac:(lia)).
    rewrite <- !Nat.add_assoc. rewrite !entry_lookup by lia. by rewrite Nat.add_assoc, Ho.
Qed.

(** The characters go to their place in the name; the last entry ends it. *)
Lemma lfn_entry_spec k fn (pre B : list Z) :
  index ≠ 0 → Z.land index 0x0F = Z.of_nat k → (1 ≤ k ≤ 15)%nat →
  fn + 13 * Z.of_nat (k - 1) = Z.of_nat (length pre) → (length cs < length B)%nat →
  lfn_entry (Z.of_nat (length (pre ++ B) + length q1)) fn (pre ++ B ++ q) =
  Some (index, if Z.land index 0xF0 =? 0x40 then pre ++ cs ++ 0 :: drop (S (length cs)) B ++ q
    else pre ++ cs ++ drop (length cs) B ++ q).
Proof.
  intros Hi Hk Hk1 Hfn HB. destruct (lfn_bytes_lookup index ck cs Hcs) as (_ & _ & H0 & _).
  unfold lfn_entry. rewrite (getb_after _ _ _ _ (length q1)) by done.
  rewrite <- (Nat.add_0_r (length q1)) at 1. rewrite entry_lookup, H0 by lia. bindr.
  rewrite Hk, u8_small by lia. replace (fn + (Z.of_nat k - 1) * 13) with (Z.of_nat (length pre)) by lia.
  assert (Hfin : ∀ p m, p = pre ++ cs → m = p ++ drop (length cs) B ++ q →
    (m ← (if Z.land index 0xF0 =? 0x40 then setb m (Z.of_nat (length p)) 0 else Some m);
      Some (index, m)) = Some (index, if Z.land index 0xF0 =? 0x40
        then pre ++ cs ++ 0 :: drop (S (length cs)) B ++ q
        else pre ++ cs ++ drop (length cs) B ++ q)).
  { intros p m -> ->. destruct (_ =? 0x40); [|by rewrite <- app_assoc].
    destruct (drop (length cs) B) as [|y B'] eqn:Hd; [apply (f_equal length) in Hd; rewrite length_drop in Hd; simpl in Hd; lia|].
    rewrite setb_next by done. bindr. do 2 f_equal. rewrite <- !app_assoc. cbn [app]. do 3 f_equal.
    replace (S (length cs)) with (length cs + 1)%nat by lia. by rewrite <- drop_drop, Hd. }
  rewrite (lfn_copy_group 5 0 1) by (rewrite ?length_app; lia || (intros i ?; unfold lfn_off; rewrite decide_True by lia; lia)).
  cbv zeta. bindr. rewrite drop_0. case_bool_decide as H5; bindr.
  { rewrite !(take_ge cs 5) by lia. by apply Hfin. }
  set (x := take 5 cs). assert (Hx : length x = 5%nat) by (unfold x; rewrite length_take; lia).
  rewrite (lfn_copy_group 6 5 14).
  2-7: rewrite ?length_drop, ?length_app, ?length_drop, ?Hx; try lia.
  2:{ intros i ?. unfold lfn_off. rewrite decide_False, decide_True by lia. lia. }
  cbv zeta. bindr. rewrite drop_drop, Hx. case_bool_decide as H11; bindr.
  { rewrite !(take_ge (drop 5 cs) 6) by (rewrite length_drop; lia).
    assert (Hc : x ++ drop 5 cs = cs) by apply take_drop. apply Hfin; [by rewrite <- app_assoc, Hc|].
    rewrite length_drop. by replace (5 + (length cs - 5))%nat with (length cs) by lia. }
  set (y := take 6 (drop 5 cs)). assert (Hy : length y = 6%nat) by (unfold y; rewrite length_take, length_drop; lia).
  rewrite (lfn_copy_group 2 11 28).
  2-7: rewrite ?length_drop, ?length_app, ?length_drop, ?Hx, ?Hy; try lia.
  2:{ intros i ?. unfold lfn_off. rewrite !decide_False by lia. lia. }
  cbv zeta. bindr. rewrite !(take_ge (drop 11 cs) 2) by (rewrite length_drop; lia).
  assert (Hc : x ++ y ++ drop 11 cs = cs).
  { unfold x, y. change 11%nat with (5 + 6)%nat. by rewrite <- drop_drop, take_drop, take_drop. }
  apply Hfin; [by rewrite <- !app_assoc, Hc|]. rewrite drop_drop, Hy, length_drop.
  by replace (5 + 6 + (length cs - 11))%nat with (length cs) by lia.
Qed.
End entry.

(** ** Parsing the entries of a file *)

(** The parser at an entry. *)
Definition parser (e : nat) (n : nat) (l fn : Z) : vsffat_dentry_parser_t :=
  {| entry := Z.of_nat e; entry_num := Z.of_nat n; lfn := l; filename := fn |}.

Lemma parse_lfn_step index ck cs q1 q2 k fn l m fuel (pre B : list Z) :
  (length cs ≤ 13)%nat → Forall (λ c, 0 < c < 256) cs → 0 < index < 128 →
  Z.land index 0x0F = Z.of_nat k → (1 ≤ k ≤ 15)%nat →
  fn + 13 * Z.of_nat (k - 1) = Z.of_nat (length pre) → (length cs < length B)%nat → Z.of_nat m < 65535 →
  let q := q1 ++ lfn_bytes index ck cs ++ q2 in
  parse_dentry_loop (S fuel) (parser (length (pre ++ B) + length q1) (S m) l fn) (pre ++ B ++ q) =
  parse_dentry_loop fuel (parser (length (pre ++ B) + length q1 + 32) m (Z.of_nat k) fn)
    (if Z.land index 0xF0 =? 0x40 then pre ++ cs ++ 0 :: drop (S (length cs)) B ++ q
     else pre ++ cs ++ drop (length cs) B ++ q).
Proof.
  intros Hcs Hnz Hi Hk Hk1 Hfn HB Hm q. cbn [parse_dentry_loop parser entry entry_num lfn filename].
  destruct (lfn_bytes_lookup index ck cs Hcs) as (_ & _ & H0 & H11).
  assert (Hq0 : q !! length q1 = Some index).
  { unfold q. rewrite <- (Nat.add_0_r (length q1)). by rewrite entry_lookup, H0 by lia. }
  rewrite (proj2 (Z.eqb_neq (Z.of_nat (S m)) 0)) by lia.
  rewrite (getb_after pre B q (Z.of_nat (length (pre ++ B) + length q1)) (length q1)) by done.
  rewrite Hq0. bindr.
  rewrite (proj2 (Z.eqb_neq index 0)), (proj2 (Z.eqb_neq index 0xE5)) by lia. cbn [negb].
  unfold q. rewrite (getb_after pre B _ (Z.of_nat (length (pre ++ B) + length q1) + 11) (length q1 + 11)) by lia. rewrite entry_lookup, H11 by lia. bindr.
  change (15 =? FATFS_FILEATTR_LONGNAME) with true. cbv iota.
  rewrite (lfn_entry_spec index ck cs q1 q2 Hcs Hnz k fn pre B) by (done || lia). bindr.
  rewrite Hk. unfold parser. rewrite u16_small by lia. f_equal. f_equal; lia.
Qed.

(** The parts of a name, from the last to the first. *)
Lemma parse_lfn_tail name sn k : ∀ fuel m l fn q1 q2 (pre A B : list Z),
  Forall (λ c, 0 < c < 256) name → (13 * k ≤ length name)%nat → (k ≤ 15)%nat → length A = (13 * k)%nat →
  (0 < length B)%nat → fn = Z.of_nat (length pre) → Z.of_nat (k + m) < 65536 →
  let q := q1 ++ lfn_tail name sn k ++ q2 in
  parse_dentry_loop (k + fuel) (parser (length (pre ++ A ++ B) + length q1) (k + m) l fn) (pre ++ A ++ B ++ q) =
  parse_dentry_loop fuel (parser (length (pre ++ A ++ B) + length q1 + 32 * k) m (if decide (k = 0%nat) then l else 1) fn)
    (pre ++ take (13 * k) name ++ B ++ q).
Proof.
  induction k as [|k IH]; intros fuel m l fn q1 q2 pre A B Hnz Hk Hk15 HA HB Hfn Hm q.
  { destruct A; [|simpl in HA; lia]. cbn [Nat.add Nat.mul]. rewrite decide_True, Nat.add_0_r by done. done. }
  assert (HA' : ∃ A1 A2, A = A1 ++ A2 ∧ length A1 = (13 * k)%nat ∧ length A2 = 13%nat).
  { exists (take (13 * k) A), (drop (13 * k) A). rewrite take_drop, length_take, length_drop. split_and!; [done|lia..]. }
  destruct HA' as (A1 & A2 & -> & HA1 & HA2). set (cs := lfn_part name (S k)).
  assert (Hcs : length cs = 13%nat) by (unfold cs, lfn_part; rewrite length_take, length_drop; lia).
  destruct (index_bits (S k)) as (_ & _ & _ & Hland); [lia|].
  assert (Hi : Z.land (Z.of_nat (S k)) 0x0F = Z.of_nat (S k)).
  { change 0x0F with (Z.ones 4). rewrite Z.land_ones, Z.mod_small by lia. done. }
  assert (Hhi : Z.land (Z.of_nat (S k)) 0xF0 = 0).
  { pose proof (all_below_spec 16 (λ i, Z.land i 0xF0 =? 0) (Z.of_nat (S k)) ltac:(by vm_compute) ltac:(lia)) as H.
    by apply Z.eqb_eq in H. }
  unfold q. cbn [lfn_tail]. fold cs. rewrite <- (app_assoc (lfn_bytes _ _ _)).
  set (ent := lfn_bytes _ _ _). set (t := lfn_tail name sn k ++ q2).
  pose proof (parse_lfn_step (Z.of_nat (S k)) (shortname_checksum sn) cs q1 t (S k) fn l (k + m) (k + fuel)
    (pre ++ A1) (A2 ++ B) ltac:(lia) ltac:(by apply Forall_take, Forall_drop) ltac:(lia) Hi ltac:(lia)
    ltac:(rewrite length_app; lia) ltac:(rewrite length_app; lia) ltac:(lia)) as Hstep.
  cbv zeta in Hstep. fold ent in Hstep. rewrite Hhi in Hstep. cbn [Z.eqb] in Hstep.
  rewrite !length_app, Hcs, (drop_app_ge A2) in Hstep by lia. rewrite HA2, Nat.sub_diag, drop_0 in Hstep.
  repeat rewrite <- app_assoc in Hstep. repeat rewrite <- app_assoc. rewrite !length_app. cbn [Nat.add].
  replace (length pre + (length A1 + (length A2 + length B)) + length q1)%nat
    with (length pre + length A1 + (13 + length B) + length q1)%nat by lia.
  rewrite Hstep.
  pose proof (IH fuel m (Z.of_nat (S k)) fn (q1 ++ ent) q2 pre A1 (cs ++ B) Hnz ltac:(lia) ltac:(lia) HA1
    ltac:(rewrite length_app; lia) Hfn ltac:(lia)) as H. cbv zeta in H. fold t in H.
  rewrite !length_app, Hcs in H. unfold ent in H at 1 3. rewrite !lfn_bytes_length in H.
  rewrite <- !app_assoc in H.
  replace (length pre + length A1 + (13 + length B) + length q1 + 32)%nat
    with (length pre + (length A1 + (13 + length B)) + (length q1 + 32))%nat by lia.
  rewrite H. f_equal.
  - f_equal; [lia|]. destruct (decide (k = 0%nat)) as [->|]; [|done]. by rewrite decide_False.
  - f_equal. rewrite !app_assoc. do 4 f_equal. unfold cs, lfn_part.
    replace (13 * S k)%nat with (13 * k + 13)%nat by lia. replace (13 * (S k - 1))%nat with (13 * k)%nat by lia.
    apply take_take_drop.
Qed.

(** A long name: the parser comes to the short entry with the name in its
    buffer. *)
Lemma parse_lfn_stream name sn fuel m l fn q1 q2 (pre B : list Z) :
  Forall (λ c, 0 < c < 256) name → 0 < strlen name ≤ 195 → (196 ≤ length B)%nat →
  fn = Z.of_nat (length pre) → let n := lfn_num name true in Z.of_nat (n + m) < 65536 →
  let q := q1 ++ lfn_stream name sn n ++ q2 in
  parse_dentry_loop (n + fuel) (parser (length (pre ++ B) + length q1) (n + m) l fn) (pre ++ B ++ q) =
  parse_dentry_loop fuel (parser (length (pre ++ B) + length q1 + 32 * n) m 1 fn)
    (pre ++ (name ++ 0 :: drop (S (length name)) B) ++ q).
Proof.
  intros Hnz Hlen HB Hfn n Hm q. unfold strlen in Hlen.
  assert (Hn : ∃ k, n = S k ∧ (13 * k < length name ≤ 13 * k + 13)%nat ∧ (k < 15)%nat).
  { exists (n - 1)%nat. unfold n, lfn_num, strlen. Z.div_mod_to_equations. lia. }
  destruct Hn as (k & Hnk & Hk & Hk15). unfold q. clear q. clearbody n. subst n.
  set (A := take (13 * k) B). set (B' := drop (13 * k) B). assert (HBB : B = A ++ B') by (symmetry; apply take_drop).
  assert (HA : length A = (13 * k)%nat) by (unfold A; rewrite length_take; lia).
  assert (HB' : length B' = (length B - 13 * k)%nat) by (unfold B'; by rewrite length_drop).
  set (cs := lfn_part name (S k)).
  assert (Hcs : length cs = (length name - 13 * k)%nat) by (unfold cs, lfn_part; rewrite length_take, length_drop; lia).
  destruct (index_bits (S k)) as (_ & _ & Hr & Hland); [lia|].
  assert (Hi : Z.land (Z.lor (Z.of_nat (S k)) 0x40) 0x0F = Z.of_nat (S k)).
  { rewrite Hland. change 0x0F with (Z.ones 4). rewrite Z.land_ones, Z.mod_small by lia. done. }
  assert (Hhi : Z.land (Z.lor (Z.of_nat (S k)) 0x40) 0xF0 = 0x40).
  { pose proof (all_below_spec 16 (λ i, Z.land (Z.lor i 0x40) 0xF0 =? 0x40) (Z.of_nat (S k)) ltac:(by vm_compute) ltac:(lia)) as H.
    by apply Z.eqb_eq in H. }
  cbn [lfn_stream]. fold cs. rewrite <- (app_assoc (lfn_bytes _ _ _)).
  set (ent := lfn_bytes _ _ _). set (t := lfn_tail name sn k ++ q2).
  pose proof (parse_lfn_step (Z.lor (Z.of_nat (S k)) 0x40) (shortname_checksum sn) cs q1 t (S k) fn l (k + m) (k + fuel)
    (pre ++ A) B' ltac:(lia) ltac:(by apply Forall_take, Forall_drop) ltac:(lia) Hi ltac:(lia)
    ltac:(rewrite length_app; lia) ltac:(lia) ltac:(lia)) as Hstep.
  cbv zeta in Hstep. fold ent in Hstep. rewrite Hhi in Hstep. cbn [Z.eqb Pos.eqb] in Hstep.
  rewrite <- !(app_assoc pre A), (app_assoc A B'), <- HBB in Hstep. cbn [Nat.add]. rewrite Hstep.
  pose proof (parse_lfn_tail name sn k fuel m (Z.of_nat (S k)) fn (q1 ++ ent) q2 pre A
    (cs ++ 0 :: drop (S (length cs)) B') Hnz ltac:(lia) ltac:(lia) HA
    ltac:(rewrite length_app; simpl; lia) Hfn ltac:(lia)) as H. cbv zeta in H. fold t in H.
  assert (Hl : length (pre ++ A ++ cs ++ 0 :: drop (S (length cs)) B') = length (pre ++ B)).
  { rewrite HBB, !length_app. cbn [length]. rewrite length_drop. lia. }
  assert (He : length (q1 ++ ent) = (length q1 + 32)%nat) by (unfold ent; by rewrite length_app, lfn_bytes_length).
  rewrite Hl, He in H. rewrite <- !app_assoc in H. rewrite Nat.add_assoc in H.
  change ((0 :: drop (S (length cs)) B') ++ q1 ++ ent ++ t) with (0 :: drop (S (length cs)) B' ++ q1 ++ ent ++ t) in H.
  rewrite H. f_equal.
  - f_equal; [lia|]. by destruct (decide (k = 0%nat)) as [->|].
  - f_equal. rewrite !app_assoc. assert (Hname : take (13 * k) name ++ cs = name).
    { unfold cs, lfn_part. replace (13 * (S k - 1))%nat with (13 * k)%nat by lia.
      rewrite (take_ge (drop _ _)) by (rewrite length_drop; lia). apply take_drop. }
    rewrite Hname, <- !app_assoc. cbn [app]. do 3 f_equal. unfold B'. rewrite drop_drop. f_equal. lia.
Qed.

(** ** Parsing a file *)

(** What the parser can give back.  A long name has no more than 15 entries,
    the index is masked with 15; a short one has no blank, and no dot at its
    end. *)
Definition plain_name (name : list Z) : Prop :=
  32 ∉ name ∧ (name = DOT ∨ name = DOTDOT ∨ vsfile_getfileext name ≠ Some []).

#[export] Instance plain_name_dec name : Decision (plain_name name).
Proof. unfold plain_name. apply _. Defined.

Record visible (x : dentry) : Prop := {
  vi_attr : d_attr x ≠ FATFS_FILEATTR_LONGNAME ∧ d_attr x ≠ VSFILE_ATTR_VOLUMID;
  vi_first : d_name x !! 0%nat ≠ Some 0xE5;
  vi_long : vsffat_is_LFN (d_name x) = Some true → strlen (d_name x) ≤ 195;
  vi_short : vsffat_is_LFN (d_name x) = Some false → plain_name (d_name x) }.

Lemma toupper_first c : 0 < c < 256 → c ≠ 0xE5 → toupper c ≠ 0 ∧ toupper c ≠ 0xE5 ∧ (c ≠ 32 → toupper c ≠ 32).
Proof. intros H1 H2. unfold toupper, islower. zcase; cbn [andb]; lia. Qed.

(** The first byte of a short name says neither free nor last. *)
Definition in_use (sn : list Z) : Prop := ∃ c, sn !! 0%nat = Some c ∧ c ≠ 0 ∧ c ≠ 0xE5.

Lemma long_in_use name sn :
  Forall (λ c, 0 < c < 256) name → name !! 0%nat ≠ Some 0xE5 → 0 < strlen name → vsffat_is_LFN name = Some true →
  fakefat32_get_shortname name = Some sn → in_use sn.
Proof.
  intros Hb Hf Hl Hlong. unfold fakefat32_get_shortname, strcmp_eq, strlen in *.
  destruct (vsfile_getfileext name) as [ext|]; [|done]. bindr.
  destruct (bool_decide_reflect (name = DOT)) as [->|_]; [vm_compute in Hlong; done|].
  destruct (bool_decide_reflect (name = DOTDOT)) as [->|_]; [vm_compute in Hlong; done|].
  rewrite Hlong. bindr. cbn [negb]. destruct name as [|c name]; [simpl in Hl; lia|].
  apply Forall_cons in Hb as [Hc _]. assert (HcE : c ≠ 0xE5) by (intros ->; by apply Hf).
  set (n := Z.min (Z.of_nat (length (c :: name))) 6).
  assert (Hn : 1 ≤ n ≤ 6) by (unfold n; cbn [length]; lia).
  assert (Hnl : (Z.to_nat n ≤ length (c :: name))%nat) by (unfold n; lia).
  rewrite <- (app_nil_l (replicate 11 32)), (memncpy_toupper_spec (Z.to_nat n) 0 (c :: name) [] (replicate 11 32)) by (rewrite ?length_replicate; done || lia).
  bindr. cbn [app]. set (s := _ ++ drop _ _). assert (Hs : length s = 11%nat).
  { unfold s. rewrite length_app, length_fmap, length_take, length_drop, length_replicate. lia. }
  assert (H0 : s !! 0%nat = Some (toupper c)).
  { unfold s. replace (Z.to_nat n) with (S (Z.to_nat (n - 1))) by lia. done. }
  clearbody s. rewrite setb_in by lia. bindr. rewrite setb_in by (rewrite length_insert; lia). bindr.
  set (s2 := <[_ := 49]> _). assert (H20 : s2 !! 0%nat = Some (toupper c)).
  { unfold s2. rewrite !list_lookup_insert_ne by lia. done. }
  assert (Hs2 : length s2 = 11%nat) by (unfold s2; by rewrite !length_insert). clearbody s2.
  rewrite <- (take_drop 8 s2). rewrite memncpy_toupper_spec;
    [|rewrite length_take; lia|lia|rewrite length_drop; lia].
  intros [= <-]. exists (toupper c). rewrite lookup_app_l by (rewrite length_take; lia).
  rewrite lookup_take_lt by lia. destruct (toupper_first c Hc HcE) as (? & ? & _). done.
Qed.

Lemma short_in_use name sn :
  Forall (λ c, 0 < c < 256) name → name !! 0%nat ≠ Some 0xE5 → short_name name sn → in_use sn.
Proof.
  intros Hb Hf Hs. destruct Hs as [| |base ext Hd Hdd Hbl Hel Hext Hcase]; [by eexists..|].
  destruct base as [|c base]; [by exists 32|]. exists (toupper c). split; [done|].
  apply Forall_cons in Hb as [Hc _]. assert (HcE : c ≠ 0xE5) by (intros ->; by apply Hf).
  destruct (toupper_first c Hc HcE) as (? & ? & _). done.
Qed.

Lemma name_attr_flags base ext a :
  vsfile_getfileext (base ++ 46 :: ext) = Some ext → name_attr (base ++ 46 :: ext) = Some a →
  has a 0x08 = islower (find_first_alphabet (base ++ 46 :: ext)) ∧
  has a 0x10 = islower (find_first_alphabet ext).
Proof.
  unfold name_attr. intros ->. bindr. intros [= <-].
  destruct (islower (find_first_alphabet (base ++ 46 :: ext))), (islower (find_first_alphabet ext)); done.
Qed.

Section short.
Context (sn tail : list Z) (at_ flags : Z) (q1 q2 : list Z).
Notation ent := (sn ++ [at_; flags] ++ tail).
Notation q := (q1 ++ ent ++ q2).

Lemma short_lookup i : (i < length sn)%nat → q !! (length q1 + i)%nat = sn !! i.
Proof.
  intros Hi. rewrite lookup_app_r by lia. rewrite <- !app_assoc, lookup_app_l by lia. f_equal. lia.
Qed.

Lemma short_attr : length sn = 11%nat → q !! (length q1 + 11)%nat = Some at_ ∧ q !! (length q1 + 12)%nat = Some flags.
Proof.
  intros Hs. split; rewrite lookup_app_r, <- !app_assoc, lookup_app_r by lia.
  - by replace (length q1 + 11 - length q1 - length sn)%nat with 0%nat by lia.
  - by replace (length q1 + 12 - length q1 - length sn)%nat with 1%nat by lia.
Qed.

(** A part of the short name, at [o] in its entry. *)
Lemma sfn_copy_part n o cs lower a (pre B : list Z) :
  length sn = 11%nat → (o + n ≤ 11)%nat → (length cs ≤ n)%nat → (length cs ≤ length B)%nat →
  a = Z.of_nat (length (pre ++ B) + length q1 + o) →
  (∀ i c, cs !! i = Some c → sn !! (o + i)%nat = Some c ∧ c ≠ 32) →
  (length cs = n ∨ sn !! (o + length cs)%nat = Some 32) →
  sfn_copy n lower a (Z.of_nat (length pre)) (pre ++ B ++ q) =
  (let x := (λ c, if lower then tolower c else c) <$> cs in
   Some (Z.of_nat (length (pre ++ x)), (pre ++ x) ++ drop (length cs) B ++ q)).
Proof.
  intros Hs Ho Hn HB -> Hcs Hend. apply (sfn_copy_spec n lower cs (length q1 + o)); try done; try lia.
  - intros i c Hi. destruct (Hcs i c Hi). apply lookup_lt_Some in Hi.
    rewrite <- Nat.add_assoc, short_lookup by lia. done.
  - destruct Hend as [?|Hend]; [by left|right]. assert (length cs ≤ n)%nat by done.
    apply lookup_lt_Some in Hend as Hlt. by rewrite <- Nat.add_assoc, short_lookup by lia.
Qed.

Lemma set_end (pre x B : list Z) p :
  p = Z.of_nat (length (pre ++ x)) → (length x < length B)%nat →
  setb ((pre ++ x) ++ drop (length x) B ++ q) p 0 = Some (pre ++ (x ++ 0 :: drop (S (length x)) B) ++ q).
Proof.
  intros -> HB. destruct (drop (length x) B) as [|y B'] eqn:Hd;
    [apply (f_equal length) in Hd; rewrite length_drop in Hd; simpl in Hd; lia|].
  rewrite setb_next by done. rewrite <- !app_assoc. cbn [app]. do 4 f_equal.
  replace (S (length x)) with (length x + 1)%nat by lia. by rewrite <- drop_drop, Hd.
Qed.

End short.
(** The two fields of a short name. *)
Lemma toupper_nonblank c : 0 < c < 256 → c ≠ 32 → toupper c ≠ 32.
Proof. intros H1 H2. unfold toupper, islower. zcase; cbn [andb]; lia. Qed.

Lemma upper_field (pfx cs post : list Z) n :
  Forall (λ c, 0 < c < 256) cs → 32 ∉ cs → (length cs ≤ n)%nat →
  let s := pfx ++ ((toupper <$> cs) ++ replicate (n - length cs) 32) ++ post in
  (∀ i c, (toupper <$> cs) !! i = Some c → s !! (length pfx + i)%nat = Some c ∧ c ≠ 32) ∧
  (length (toupper <$> cs) = n ∨ s !! (length pfx + length (toupper <$> cs))%nat = Some 32).
Proof.
  intros Hb H32 Hn s. unfold s. split.
  - intros i c Hi. apply lookup_lt_Some in Hi as Hlt. rewrite lookup_app_r by lia.
    replace (length pfx + i - length pfx)%nat with i by lia. rewrite <- app_assoc, lookup_app_l by done.
    split; [done|]. apply list_lookup_fmap_Some in Hi as (x & -> & Hx). apply list_elem_of_lookup_2 in Hx.
    rewrite Forall_forall in Hb. apply toupper_nonblank; [by apply Hb|]. by intros ->.
  - rewrite length_fmap. destruct (decide (length cs = n)) as [|Hne]; [by left|right].
    rewrite lookup_app_r, <- app_assoc, lookup_app_r by (rewrite ?length_fmap; lia). rewrite length_fmap.
    replace (length pfx + length cs - length pfx - length cs)%nat with 0%nat by lia.
    by replace (n - length cs)%nat with (S (n - length cs - 1)) by lia.
Qed.

Lemma respell_fmap (b : bool) (s : list Z) : (λ c, if b then tolower c else c) <$> (toupper <$> s) = respell b <$> s.
Proof. rewrite <- list_fmap_compose. by destruct b. Qed.

Section short_entry.
Context (sn tail : list Z) (at_ flags : Z) (q1 q2 : list Z).
Notation ent := (sn ++ [at_; flags] ++ tail).
Notation q := (q1 ++ ent ++ q2).

(** The first byte of an extension. *)
Lemma ext_first base y (ext : list Z) :
  (length base ≤ 8)%nat → sfn_name base (y :: ext) !! 8%nat = Some (toupper y).
Proof.
  intros Hl. unfold sfn_name. rewrite app_assoc, lookup_app_r by
    (rewrite length_app, length_fmap, length_replicate; lia).
  rewrite length_app, length_fmap, length_replicate. by replace (8 - _)%nat with 0%nat by lia.
Qed.

(** A name without an extension. *)
Lemma sfn_dots name (pre B : list Z) cs :
  length sn = 11%nat → (13 ≤ length B)%nat →
  (length cs ≤ 2)%nat → (λ c, if has flags 8 then tolower c else c) <$> cs = name →
  (∀ i c, cs !! i = Some c → sn !! (0 + i)%nat = Some c ∧ c ≠ 32) →
  sn !! (0 + length cs)%nat = Some 32 → sn !! 8%nat = Some 32 →
  let e := Z.of_nat (length (pre ++ B) + length q1) in
  ('(ptr, m) ← sfn_copy 8 (has flags 8) e (Z.of_nat (length pre)) (pre ++ B ++ q);
   ext0 ← getb m (e + 8);
   '(ptr, m) ← (if ext0 =? 32 then Some (ptr, m)
     else m ← setb m ptr 46; lcase ← getb m (e + 12); sfn_copy 3 (has lcase 0x10) (e + 8) (ptr + 1) m);
   setb m ptr 0) = Some (pre ++ (name ++ 0 :: drop (S (length name)) B) ++ q).
Proof.
  intros Hsnl HB Hl Hname Hcs Hend H8 e.
  rewrite (sfn_copy_part _ _ _ _ _ _ 8 0 cs _ e) by (done || lia || by right). cbv zeta. rewrite Hname. bindr.
  assert (Hnl : length name = length cs) by (rewrite <- Hname; apply length_fmap). rewrite <- Hnl.
  rewrite (getb_after _ _ q (e + 8) (length q1 + 8)) by
    (unfold e; rewrite !length_app, length_drop; lia).
  rewrite short_lookup, H8 by lia. bindr. cbn [Z.eqb Pos.eqb]. bindr. apply set_end; [done|lia].
Qed.

(** A short name is put together again. *)
Lemma sfn_entry_spec name (pre B : list Z) :
  short_name name sn → Forall (λ c, 0 < c < 256) name → plain_name name → name_attr name = Some flags →
  (13 ≤ length B)%nat →
  sfn_entry (Z.of_nat (length (pre ++ B) + length q1)) (Z.of_nat (length pre)) (pre ++ B ++ q) =
  Some (pre ++ (name ++ 0 :: drop (S (length name)) B) ++ q).
Proof.
  intros Hsn Hb [Hbl Hex] Hfl HB. assert (Hsnl : length sn = 11%nat).
  { destruct Hsn; [done..|]. unfold sfn_name. rewrite !length_app, !length_fmap, !length_replicate. lia. }
  destruct (short_attr sn tail at_ flags q1 q2 Hsnl) as [_ H12]. unfold sfn_entry.
  set (e := Z.of_nat (length (pre ++ B) + length q1)).
  rewrite (getb_after pre B q (e + 12) (length q1 + 12)) by lia. rewrite H12. bindr.
  pose proof (λ cs, sfn_dots name pre B cs Hsnl HB) as Hdots. cbv zeta in Hdots. fold e in Hdots.
  destruct Hsn as [| |base ext Hd Hdd Hbl' Hel Hext Hcase].
  - apply (Hdots [46]); try done; [simpl; lia|by destruct (has flags 8)|].
    intros [|i] c Hi; [|done]. by injection Hi as <-.
  - apply (Hdots [46; 46]); try done; [by destruct (has flags 8)|].
    intros [|[|i]] c Hi; [..|done]; by injection Hi as <-.
  - destruct Hex as [?|[?|Hex]]; [done..|]. destruct (name_attr_flags _ _ _ Hext Hfl) as [-> Hf16].
    assert (Hne : ext ≠ []) by (intros ->; done).
    apply Forall_app in Hb as [Hbb Hb2]. apply Forall_cons in Hb2 as [_ Hbe].
    assert (Hnb : 32 ∉ base ∧ 32 ∉ ext) by set_solver. destruct Hnb as [Hnb Hne32].
    destruct (upper_field [] base ((toupper <$> ext) ++ replicate (3 - length ext) 32) 8 Hbb Hnb Hbl') as [Hf1 Hf2].
    cbn [app length] in Hf1, Hf2. rewrite <- app_assoc in Hf1, Hf2. fold (sfn_name base ext) in Hf1, Hf2.
    set (pfx := (toupper <$> base) ++ replicate (8 - length base) 32).
    destruct (upper_field pfx ext [] 3 Hbe Hne32 Hel) as [Hf3 Hf4].
    assert (Hsfn : sfn_name base ext = pfx ++ ((toupper <$> ext) ++ replicate (3 - length ext) 32) ++ [])
      by (unfold sfn_name, pfx; by rewrite app_nil_r, <- app_assoc).
    rewrite <- Hsfn in Hf3, Hf4. clear Hsfn.
    assert (Hpl : length pfx = 8%nat) by (unfold pfx; rewrite length_app, length_fmap, length_replicate; lia).
    clearbody pfx.
    rewrite (sfn_copy_part _ _ _ _ _ _ 8 0 (toupper <$> base) _ e);
      [|done|lia|by rewrite length_fmap|rewrite length_fmap; lia|unfold e; lia|done|done].
    cbv zeta. rewrite respell_fmap, respell_same by (done || set_solver). bindr. rewrite length_fmap.
    destruct ext as [|y ext]; [done|].
    set (qq := q1 ++ (sfn_name base (y :: ext) ++ [at_; flags] ++ tail) ++ q2) in *.
    assert (H8 : qq !! (length q1 + 8)%nat = Some (toupper y))
      by (unfold qq; rewrite short_lookup by lia; by apply ext_first).
    rewrite (getb_after (pre ++ base) _ qq (e + 8) (length q1 + 8)) by (unfold e; rewrite !length_app, length_drop; lia).
    rewrite H8. bindr. assert (Hy : toupper y ≠ 32).
    { apply Forall_cons in Hbe as [? _]. apply toupper_nonblank; [done|]. intros ->. apply Hne32. by left. }
    rewrite (proj2 (Z.eqb_neq (toupper y) 32)) by done.
    destruct (drop (length base) B) as [|b0 B'] eqn:HdB;
      [apply (f_equal length) in HdB; rewrite length_drop in HdB; simpl in HdB; lia|].
    assert (HB' : B' = drop (S (length base)) B).
    { replace (S (length base)) with (length base + 1)%nat by lia. by rewrite <- drop_drop, HdB. }
    assert (HB'l : length B' = (length B - S (length base))%nat) by (rewrite HB'; by rewrite length_drop).
    rewrite setb_next by done. bindr.
    rewrite (getb_after _ B' qq (e + 12) (length q1 + 12)) by (unfold e; rewrite !length_app; simpl; lia).
    rewrite H12. bindr. rewrite Hf16.
    replace (Z.of_nat (length (pre ++ base)) + 1) with (Z.of_nat (length ((pre ++ base) ++ [46])))
      by (rewrite (length_app (pre ++ base)); simpl; lia).
    unfold qq. rewrite (sfn_copy_part _ _ _ _ _ _ 3 8 (toupper <$> (y :: ext)));
      [|done|lia|by rewrite length_fmap|rewrite length_fmap; lia|unfold e; rewrite !length_app; simpl; lia| |].
    + cbv zeta. rewrite respell_fmap, respell_same; [|by apply (one_case_app (base ++ [46])); rewrite <- app_assoc|done].
      bindr. rewrite length_fmap, set_end by (done || lia). f_equal. rewrite <- !app_assoc. cbn [app]. do 7 f_equal.
      rewrite HB', drop_drop. f_equal. rewrite length_app. simpl. lia.
    + intros i c Hi. rewrite <- Hpl. by apply Hf3.
    + rewrite <- Hpl. destruct Hf4 as [Hf4|Hf4]; [by left|by right].
Qed.
End short_entry.

(** A short entry at which the parser is. *)
Lemma parse_sfn_step sn at_ flags tail q1 q2 l m fn fuel (pre B : list Z) :
  in_use sn → length sn = 11%nat → at_ ≠ FATFS_FILEATTR_LONGNAME → at_ ≠ VSFILE_ATTR_VOLUMID → Z.of_nat m < 65535 →
  let q := q1 ++ (sn ++ [at_; flags] ++ tail) ++ q2 in
  parse_dentry_loop (S fuel) (parser (length (pre ++ B) + length q1) (S m) l fn) (pre ++ B ++ q) =
  (if l =? 1 then Some (true, parser (length (pre ++ B) + length q1) m 0 fn, pre ++ B ++ q)
   else mm ← sfn_entry (Z.of_nat (length (pre ++ B) + length q1)) fn (pre ++ B ++ q);
     Some (true, parser (length (pre ++ B) + length q1) m 0 fn, mm)).
Proof.
  intros (c & Hc & Hc0 & HcE) Hsn Ha1 Ha2 Hm q. cbn [parse_dentry_loop parser entry entry_num lfn filename].
  destruct (short_attr sn tail at_ flags q1 q2 Hsn) as [H11 _].
  rewrite (proj2 (Z.eqb_neq (Z.of_nat (S m)) 0)) by lia.
  assert (Hq0 : q !! length q1 = Some c).
  { unfold q. rewrite <- (Nat.add_0_r (length q1)). by rewrite short_lookup by lia. }
  set (e := Z.of_nat (length (pre ++ B) + length q1)).
  rewrite (getb_after pre B q e (length q1)) by done. rewrite Hq0. bindr.
  rewrite (proj2 (Z.eqb_neq c 0)), (proj2 (Z.eqb_neq c 0xE5)) by done. cbn [negb].
  rewrite (getb_after pre B q (e + 11) (length q1 + 11)) by lia. unfold q. rewrite H11. bindr.
  rewrite (proj2 (Z.eqb_neq at_ _)), (proj2 (Z.eqb_neq at_ _)) by done. cbn [negb].
  unfold parser. replace (u16 (Z.of_nat (S m) - 1)) with (Z.of_nat m) by (rewrite u16_small by lia; lia). done.
Qed.

(** The entries of one file. *)
Lemma parse_file d fs x f name sn long flags r q1 q2 m fn fuel (pre B : list Z) :
  listed d fs x f name sn long flags r → visible (file_dentry f name r) →
  (196 ≤ length B)%nat → fn = Z.of_nat (length pre) → let n := lfn_num name long in
  Z.of_nat (n + S m) < 65536 →
  let q := q1 ++ file_bytes f name sn long flags r ++ q2 in
  parse_dentry_loop (n + S fuel) (parser (length (pre ++ B) + length q1) (n + S m) 0 fn) (pre ++ B ++ q) =
  Some (true, parser (length (pre ++ B) + length q1 + 32 * n) m 0 fn,
    pre ++ (name ++ 0 :: drop (S (length name)) B) ++ q).
Proof.
  intros [Hx Hname [Hsn Hsnl] Hlong Hlen Hfl Hsz Hr Hbytes] [[Hv1 Hv2] Hv3 Hv4 Hv5] HB Hfn n Hm q.
  cbn [d_attr d_name file_dentry] in *. unfold q, file_bytes, sfn_bytes. fold n. clear q.
  set (tail := record_bytes r ++ le_bytes 4 _).
  destruct long.
  - specialize (Hv4 Hlong).
    pose proof (parse_lfn_stream name sn (S fuel) (S m) 0 fn q1 ((sn ++ [u8 (attr_of f); flags] ++ tail) ++ q2) pre B
      Hbytes ltac:(lia) HB Hfn Hm) as H. fold n in H. rewrite (app_assoc (lfn_stream _ _ _)) in H.
    rewrite H. clear H. set (B' := name ++ 0 :: drop (S (length name)) B).
    assert (HB' : length B' = length B).
    { unfold B', strlen in *. rewrite length_app. cbn [length]. rewrite length_drop. lia. }
    pose proof (parse_sfn_step sn (u8 (attr_of f)) flags tail (q1 ++ lfn_stream name sn n) q2 1 m fn fuel pre B'
      (long_in_use _ _ Hbytes Hv3 ltac:(lia) Hlong Hsn) Hsnl Hv1 Hv2 ltac:(lia)) as H. cbv zeta in H.
    cbn [Z.eqb Pos.eqb] in H. rewrite !length_app, HB', lfn_stream_length in H.
    rewrite !length_app. rewrite Nat.add_assoc in H. rewrite <- !app_assoc in H |- *. exact H.
  - cbn [lfn_num] in n. assert (n = 0%nat) as Hn by done. rewrite Hn. clear Hn. change (lfn_stream name sn 0) with (@nil Z). rewrite app_nil_l. cbn [Nat.add].
    specialize (Hv5 Hlong). assert (Hs : short_name name sn) by (apply short_name_spec; [lia|done..]).
    pose proof (parse_sfn_step sn (u8 (attr_of f)) flags tail q1 q2 0 m fn fuel pre B
      (short_in_use _ _ Hbytes Hv3 Hs) Hsnl Hv1 Hv2 ltac:(unfold n in Hm; lia)) as H. cbv zeta in H. rewrite H.
    cbn [Z.eqb]. subst fn. rewrite (sfn_entry_spec sn tail _ flags q1 q2 name) by (done || lia). bindr.
    by rewrite Nat.mul_0_r, Nat.add_0_r.
Qed.

Lemma parse_label f name q1 q2 m fn fuel (pre B : list Z) :
  Forall (λ c, 0 < c < 256) name → attr_of f = VSFILE_ATTR_VOLUMID → Z.of_nat m < 65535 →
  let q := q1 ++ label_bytes f name ++ q2 in
  parse_dentry_loop (S fuel) (parser (length (pre ++ B) + length q1) (S m) 0 fn) (pre ++ B ++ q) =
  parse_dentry_loop fuel (parser (length (pre ++ B) + length q1 + 32) m 0 fn) (pre ++ B ++ q).
Proof.
  intros Hb Ha Hm q. cbn [parse_dentry_loop parser entry entry_num lfn filename].
  set (sn := take 11 (name ++ replicate 11 32)).
  assert (Hsn : length sn = 11%nat) by (unfold sn; rewrite length_take, length_app, length_replicate; lia).
  assert (Hq : q = q1 ++ (sn ++ [u8 (attr_of f); 0] ++ replicate 19 0) ++ q2) by done.
  destruct (short_attr sn (replicate 19 0) (u8 (attr_of f)) 0 q1 q2 Hsn) as [H11 _]. rewrite <- Hq in H11.
  rewrite (proj2 (Z.eqb_neq (Z.of_nat (S m)) 0)) by lia.
  assert (Hq0 : ∃ c, q !! length q1 = Some c ∧ c ≠ 0).
  { rewrite Hq, <- (Nat.add_0_r (length q1)), short_lookup by lia.
    unfold sn. destruct name as [|c name]; [by exists 32|]. apply Forall_cons in Hb as [? _]. exists c. split; [done|lia]. }
  destruct Hq0 as (c & Hq0 & Hc0). set (e := Z.of_nat (length (pre ++ B) + length q1)).
  rewrite (getb_after pre B q e (length q1)) by done. rewrite Hq0. bindr.
  rewrite (proj2 (Z.eqb_neq c 0)) by done.
  assert (Hp : {| entry := e + 32; entry_num := u16 (Z.of_nat (S m) - 1); lfn := 0; filename := fn |} =
    parser (length (pre ++ B) + length q1 + 32) m 0 fn).
  { unfold parser. rewrite u16_small by lia. f_equal; lia. }
  destruct (c =? 0xE5); cbn [negb].
  { by rewrite <- Hp. }
  rewrite (getb_after pre B q (e + 11) (length q1 + 11)) by lia. rewrite H11. bindr. rewrite Ha.
  by rewrite <- Hp.
Qed.

(** The files of the example can be read. *)
Lemma demo_visible c1 c2 : Forall visible (demo_list c1 c2).
Proof.
  constructor; [|constructor; [|constructor]]; (constructor; [split; by vm_compute|by vm_compute| |]);
    intros H; (first [by vm_compute in H | by vm_compute | cbn [d_name]; by_decide]).
Qed.
