(* ===== verification/Fatlist.v ===== *)
(** * Fatlist: a directory listed with the parser

    [list_dir] calls [vsffat_parse_dentry_fat] until it finds no more files; on
    the entries that [fakefat32_dir_read] makes it gives the files back. *)

From S2P Require Import Prelude Chain Endian Vsfmal Vsfile Vsffat Fakefat Fatlayout Fatimage Fatdir Fatparse.

(** ** Listing a directory *)

(** The fields of a short entry, as the specification of FAT has them. *)
Definition read_dentry (name e : list Z) : dentry :=
  {| d_name := name; d_attr := le_value (field 11 1 e); d_size := le_value (field 28 4 e);
     d_cluster := le_value (field 26 2 e) + 65536 * le_value (field 20 2 e) |}.

(** All that the parser finds, called again after each file. *)
Fixpoint list_dir (fuel : nat) (p : vsffat_dentry_parser_t) (m : list Z) : option (list dentry) :=
  match fuel with
  | O => None
  | S fuel =>
    '(found, p, m) ← vsffat_parse_dentry_fat p m;
    if (found : bool) then
      name ← cstr m (filename p);
      e ← read_at m (Z.to_nat (entry p)) 32;
      rest ← list_dir fuel {| entry := entry p + 32; entry_num := entry_num p; lfn := lfn p;
        filename := filename p |} m;
      Some (read_dentry name e :: rest)
    else Some []
  end.

Lemma le_value_wrap n v : le_value (le_bytes n v) = v mod 256 ^ Z.of_nat n.
Proof.
  revert v. induction n as [|n IH]; intros v; [by rewrite Z.mod_1_r|]. cbn [le_bytes le_value].
  rewrite IH, Nat2Z.inj_succ, Z.pow_succ_r, Z.rem_mul_r by lia. done.
Qed.

Lemma read_dentry_sfn f name r sn flags : length sn = 11%nat →
  read_dentry name (sfn_bytes f r sn flags) = file_dentry f name r.
Proof.
  intros Hs. do 11 (destruct sn as [|? sn]; [done|]). destruct sn; [|done].
  assert (H : ∀ v, le_value (le_bytes 2 v) = u16 v) by (intros v; apply le_value_wrap).
  unfold read_dentry, file_dentry. f_equal.
  - change (u8 (attr_of f) + 256 * 0 = u8 (attr_of f)). lia.
  - change (le_value (le_bytes 4 (if is_dir f then 0 else size_of f)) = if is_dir f then 0 else u32 (size_of f)).
    destruct (is_dir f); [done|]. apply (le_value_wrap 4).
  - change (le_value (le_bytes 2 (FstClusLO r)) + 65536 * le_value (le_bytes 2 (FstClusHI r)) =
      u16 (FstClusLO r) + 65536 * u16 (FstClusHI r)). by rewrite !H.
Qed.

Lemma cstr_at (pre rest name : list Z) : Forall (λ c, 0 < c < 256) name →
  cstr (pre ++ name ++ 0 :: rest) (Z.of_nat (length pre)) = Some name.
Proof.
  intros Hb. unfold cstr. rewrite decide_True, Nat2Z.id, drop_app_length by lia.
  induction Hb as [|c name Hc Hb IH]; [done|]. cbn [app to_nul].
  rewrite (proj2 (Z.eqb_neq c 0)), IH by lia. done.
Qed.

Lemma visible_length d fs x f name sn long flags r :
  listed d fs x f name sn long flags r → visible (file_dentry f name r) → strlen name ≤ 195.
Proof.
  intros [_ _ [Hsn _] Hlong Hlen _ _ _ _] [_ _ Hv _]. destruct long; [by apply Hv|].
  destruct (short_name_spec name sn ltac:(lia) Hlong Hsn); [done..|].
  unfold strlen. rewrite length_app. cbn [length]. lia.
Qed.

Section listing.
Context (d : Z) (fs : gmap Z fakefat32_file_t).
Context (pre : list Z).
Notation mem B q := (pre ++ B ++ q).
Notation zeros z := (replicate z (0 : Z)).

(** The end of the entries, or of the memory. *)
Lemma parse_end q1 z m fn fuel (B : list Z) :
  z = (32 * m)%nat → Z.of_nat m < 65536 →
  ∃ p, parse_dentry_loop (S fuel) (parser (length (pre ++ B) + length q1) m 0 fn) (mem B (q1 ++ zeros z)) =
    Some (false, p, mem B (q1 ++ zeros z)).
Proof.
  intros -> Hm. destruct m as [|m]; [by eexists|]. cbn [parse_dentry_loop parser entry entry_num lfn filename].
  rewrite (proj2 (Z.eqb_neq (Z.of_nat (S m)) 0)) by lia.
  rewrite (getb_after pre B _ (Z.of_nat (length (pre ++ B) + length q1)) (length q1)) by done.
  rewrite lookup_app_r, Nat.sub_diag by lia.
  replace (32 * S m)%nat with (S (32 * S m - 1)) by lia. cbn [replicate lookup list_lookup]. bindr.
  cbn [Z.eqb]. by eexists.
Qed.

(** The next file: where it is, and what comes after it. *)
Definition finds (x : dentry) ds z fuel q1 q m fn (B : list Z) : Prop :=
  ∃ a' es' q1' e m' B', dir_stream d fs a' es' ds ∧ q1 ++ q = q1' ++ e ++ concat es' ++ zeros z ∧
    length e = 32%nat ∧ read_dentry (d_name x) e = x ∧ Forall (λ c, 0 < c < 256) (d_name x) ∧
    length B' = length B ∧ (∃ t, B' = d_name x ++ 0 :: t) ∧
    (length (concat es') + z = 32 * m')%nat ∧ (m' ≤ m)%nat ∧
    parse_dentry_loop fuel (parser (length (pre ++ B) + length q1) m 0 fn) (mem B (q1 ++ q)) =
      Some (true, parser (length (pre ++ B) + length q1') m' 0 fn, mem B' (q1 ++ q)).

Lemma parse_next es : ∀ a ds q1 z m fn fuel (B : list Z),
  dir_stream d fs a es ds → Forall visible ds → (196 ≤ length B)%nat → fn = Z.of_nat (length pre) →
  (length (concat es) + z = 32 * m)%nat → Z.of_nat m < 65536 → (m < fuel)%nat →
  match ds with
  | [] => ∃ p, parse_dentry_loop fuel (parser (length (pre ++ B) + length q1) m 0 fn)
      (mem B (q1 ++ concat es ++ zeros z)) = Some (false, p, mem B (q1 ++ concat es ++ zeros z))
  | x :: ds' => finds x ds' z fuel q1 (concat es ++ zeros z) m fn B
  end.
Proof.
  induction es as [|e es IH]; intros a ds q1 z m fn fuel B Hs Hv HB Hfn Hlen Hm Hfuel.
  { inversion Hs; subst. destruct fuel as [|fuel]; [lia|]. apply parse_end; [simpl in Hlen; lia|done]. }
  inversion Hs as [|? ? i es' ds' Ha He Hes]; subst a e es ds. cbn [concat] in *. rewrite length_app in Hlen.
  destruct He as [f name Hf Hname Hbytes Hattr|f name sn long flags r Hx Hattr].
  - rewrite label_bytes_length in Hlen. destruct fuel as [|fuel]; [lia|]. destruct m as [|m]; [lia|].
    rewrite <- app_assoc. cbn [app] in *. set (rest := concat es' ++ zeros z).
    pose proof (parse_label f name q1 rest m fn fuel pre B Hbytes Hattr ltac:(lia)) as Hstep. cbv zeta in Hstep.
    pose proof (IH _ _ (q1 ++ label_bytes f name) z m fn fuel B Hes Hv HB Hfn ltac:(lia) ltac:(lia) ltac:(lia)) as Hn.
    fold rest in Hn. rewrite (length_app q1), label_bytes_length, Nat.add_assoc, <- app_assoc in Hn.
    destruct ds' as [|x ds'].
    + destruct Hn as (p & Hp). exists p. by rewrite Hstep.
    + destruct Hn as (a' & es2 & q1' & e & m' & B' & H1 & H2 & H3 & H4 & H5 & H6 & H7 & H8 & H9 & H10).
      exists a', es2, q1', e, m', B'. rewrite <- app_assoc in H2.
      rewrite (length_app q1), label_bytes_length, Nat.add_assoc, <- app_assoc in H10.
      split_and!; try done; [lia|]. by rewrite Hstep.
  - cbn [app] in *. apply Forall_cons in Hv as [Hvx Hv]. assert (Hsn : length sn = 11%nat) by by destruct Hx as [_ _ [_ ?] _ _ _ _ _ _].
    rewrite file_bytes_length in Hlen by done. set (n := lfn_num name long) in *.
    set (m' := (m - n - 1)%nat). set (rest := concat es' ++ zeros z).
    pose proof (parse_file d fs _ f name sn long flags r q1 rest m' fn (fuel - n - 1) pre B Hx Hvx HB Hfn) as Hp.
    fold n in Hp. cbv zeta in Hp. replace (n + S m')%nat with m in Hp by (unfold m'; lia).
    replace (n + S (fuel - n - 1))%nat with fuel in Hp by lia. specialize (Hp Hm).
    set (B' := name ++ 0 :: drop (S (length name)) B) in *.
    exists (a0 + FILE_SIZE), es', (q1 ++ lfn_stream name sn n), (sfn_bytes f r sn flags), m', B'.
    pose proof (visible_length _ _ _ _ _ _ _ _ _ Hx Hvx) as Hl195. destruct Hx as [_ _ _ _ Hl _ _ _ Hbytes].
    split_and!; try done.
    + unfold file_bytes. by rewrite <- !app_assoc.
    + by apply sfn_bytes_length.
    + by apply read_dentry_sfn.
    + unfold B'. rewrite length_app. cbn [length]. rewrite length_drop. unfold strlen in Hl195. lia.
    + by eexists.
    + unfold m'. lia.
    + unfold m'. lia.
    + rewrite (length_app q1), lfn_stream_length, <- app_assoc, Nat.add_assoc. exact Hp.
Qed.

Lemma list_dir_stream ds : ∀ fuel es a q1 z m fn (B : list Z),
  dir_stream d fs a es ds → Forall visible ds → (196 ≤ length B)%nat → fn = Z.of_nat (length pre) →
  (length (concat es) + z = 32 * m)%nat → Z.of_nat m < 65536 → (length ds < fuel)%nat →
  list_dir fuel (parser (length (pre ++ B) + length q1) m 0 fn) (mem B (q1 ++ concat es ++ zeros z)) = Some ds.
Proof.
  induction ds as [|x ds IH]; intros fuel es a q1 z m fn B Hs Hv HB Hfn Hlen Hm Hfuel;
    (destruct fuel as [|fuel]; [lia|]);
    pose proof (parse_next es a _ q1 z m fn (S m) B Hs Hv HB Hfn Hlen Hm ltac:(lia)) as Hn;
    cbn [list_dir]; unfold vsffat_parse_dentry_fat;
    assert (Hf : S (Z.to_nat (entry_num (parser (length (pre ++ B) + length q1) m 0 fn))) = S m) by (simpl; lia);
    rewrite Hf.
  - destruct Hn as (p & ->). done.
  - destruct Hn as (a' & es' & q1' & e & m' & B' & Hs' & Hq & He & Hx & Hb & HB' & (t & Ht) & Hlen' & Hm' & ->). bindr.
    cbn [filename entry entry_num lfn parser]. rewrite Hfn, Ht. rewrite <- (app_assoc (d_name x)).
    cbn [app]. rewrite cstr_at by done. bindr. rewrite Hq.
    rewrite read_at_in.
    2:{ rewrite Nat2Z.id. rewrite !length_app. cbn [length]. rewrite !length_app.
      rewrite Ht, length_app in HB'. cbn [length] in HB'. lia. }
    bindr. assert (Hread : take 32 (drop (Z.to_nat (Z.of_nat (length (pre ++ B) + length q1')))
      (pre ++ d_name x ++ 0 :: t ++ q1' ++ e ++ concat es' ++ zeros z)) = e).
    { change (0 :: t ++ q1' ++ e ++ concat es' ++ zeros z) with ((0 :: t) ++ q1' ++ e ++ concat es' ++ zeros z).
      rewrite (app_assoc (d_name x)), <- Ht, !app_assoc, <- 2!app_assoc. rewrite Nat2Z.id.
      rewrite drop_app_ge by (rewrite !length_app; lia).
      replace (_ - _)%nat with 0%nat by (rewrite !length_app; lia). rewrite drop_0. by apply take_app_length'. }
    rewrite Hread. apply Forall_cons in Hv as [_ Hv].
    assert (Hp : {| entry := Z.of_nat (length (pre ++ B) + length q1') + 32; entry_num := Z.of_nat m'; lfn := 0;
      filename := Z.of_nat (length pre) |} = parser (length (pre ++ B') + length (q1' ++ e)) m' 0 (Z.of_nat (length pre))).
    { unfold parser. rewrite !length_app, HB', He. f_equal. lia. }
    rewrite Hp. pose proof (IH fuel es' a' (q1' ++ e) z m' (Z.of_nat (length pre)) B' Hs' Hv ltac:(lia) eq_refl Hlen'
      ltac:(lia) ltac:(simpl in Hfuel; lia)) as H. rewrite Ht in H at 2. rewrite <- !app_assoc in H. cbn [app] in H.
    rewrite H. bindr. by rewrite Hx.
Qed.
End listing.

Lemma dir_stream_count d fs a es ds : dir_stream d fs a es ds → (32 * length ds ≤ length (concat es))%nat.
Proof.
  induction 1 as [|a e i es ds Ha He Hes IH]; [simpl; lia|]. cbn [concat]. rewrite !length_app.
  destruct (entries_of_length _ _ _ _ _ He) as (n & Hn). destruct He; simpl; lia.
Qed.


