(* ===== verification/Fatvolume.v ===== *)
(** * Fatvolume: what a host finds on the volume

    The parts together: [fakefat32_mal_init] on a tree of files, and then a
    host that opens the volume ([fat32_open]), follows chains of clusters
    ([fat32_read]) and lists directories ([list_dir]). *)

From S2P Require Import Prelude Chain Endian Vsfmal Vsfile Vsffat Fakefat Fatlayout Fatimage Fatdir Fatparse Fatlist.

(** ** Sizes of directories *)

Lemma calc_dir_loop_stream d fs es : ∀ a ds fuel n,
  dir_stream d fs a es ds → (length es < fuel)%nat → 0 ≤ n → n + Z.of_nat (length (concat es)) < 4294967296 →
  calc_dir_loop fuel fs a n = Some (n + Z.of_nat (length (concat es))).
Proof.
  induction es as [|e es IH]; intros a ds fuel n Hs Hfuel Hn Hb; (destruct fuel as [|fuel]; [simpl in Hfuel; lia|]);
    cbn [calc_dir_loop].
  { inversion Hs as [? f Hf Hnm|]; subst. rewrite Hf. bindr. rewrite Hnm. simpl. f_equal. lia. }
  inversion Hs as [|? ? i es' ds' Ha He Hes]; subst. cbn [concat] in *. rewrite length_app in *.
  destruct He as [f name Hf Hname Hbytes Hattr|f name sn long flags r Hx Hattr].
  - rewrite label_bytes_length in *. rewrite Hf. bindr. rewrite Hname. unfold has_longname.
    rewrite Hattr, Z.eqb_refl. bindr. rewrite u32_small, (IH _ ds') by (done || (simpl in Hfuel; lia)). f_equal. lia.
  - destruct Hx as [Hf Hname [_ Hsn] Hlong Hlen _ _ _ _]. rewrite file_bytes_length in * by done.
    rewrite Hf. bindr. rewrite Hname. unfold has_longname, fakefat32_file_is_longname, fakefat32_calc_longname_len.
    rewrite (proj2 (Z.eqb_neq _ _)), Hname by done. bindr. rewrite Hlong. bindr.
    assert (Hsize : (if long then u32 (n + 0x20 * (u32 (strlen name + 12) / 13)) else n) =
      n + 32 * Z.of_nat (lfn_num name long)).
    { destruct long; [|simpl; lia]. unfold lfn_num in *. rewrite (u32_small (_ + 12)) by lia.
      assert (0 ≤ (strlen name + 12) / 13) by (apply Z.div_pos; lia). rewrite u32_small by lia. lia. }
    rewrite Hsize, u32_small, (IH _ ds') by (done || (simpl in Hfuel; lia)). f_equal. lia.
Qed.

Section volume.
Context (user_cb : Z → Z → Z → Z → Z → Z → Z → fakefat32 → list Z →
  option (Z * fakefat32 * list Z)).
Context (a : Z) (param : fakefat32_param_t) (Hg : geometry_ok param).
Context (w : mworld fakefat32) (Hw : serving a param w).
Context (l : list Z) (e : Z) (Hm : mounted param (ff_files (dev w)) l 2 e).
Context (Hfits : 16 + 2 * fat_sectors param + (e - 2) * sectors_per_cluster param ≤ sector_number param).
Notation ss := (sector_size param).
Notation spc := (sectors_per_cluster param).
Notation cs := (cluster_size_of param).
Notation sec := (read_sector user_cb a param w).

(** A directory with the entries [es], which show the files [ds]. *)
Record directory (x : Z) (f : fakefat32_file_t) (es : list (list Z)) (ds : list dentry) : Prop := {
  dr_in : x ∈ root param :: l;
  dr_file : ff_files (dev w) !! x = Some f;
  dr_kind : is_dir f = true ∧ is_dots f = false ∧ has (attr_of f) VSFILE_ATTR_WRITEONLY = false;
  dr_kids : memptr (memfile f) ≠ NULL;
  dr_stream : dir_stream x (ff_files (dev w)) (memptr (memfile f)) es ds;
  dr_size : es ≠ [] ∧ Z.of_nat (length (concat es)) + cs ≤ 4294967296 }.

(** The clusters of a directory. *)
Lemma directory_size x f es ds : directory x f es ds →
  ∃ n, clusters_of param (size_of f) = Some n ∧ 0 < n ∧ n * cs < 4294967296 ∧
    Z.of_nat (length (concat es)) ≤ n * cs ∧ cb_read f = DIR_READ_FN ∧ size_of f = n * cs.
Proof.
  intros [Hx Hf (Hd & Hdots & _) Hk Hs [Hne Hb]]. pose proof (m_cs _ _ _ _ _ Hm) as Hcs.
  destruct (m_dirs _ _ _ _ _ Hm x f Hx Hf Hd Hdots) as (n & Hn & Hsz).
  assert (Hx0 : x ≠ NULL) by (by apply (forest_elem _ _ _ _ (m_forest _ _ _ _ _ Hm))).
  unfold fakefat32_calc_dir_clusters in Hn. rewrite (proj2 (Z.eqb_neq x NULL)), Hf in Hn by done.
  cbn [mbind option_bind] in Hn. unfold is_dir in Hd. rewrite Hd, (proj2 (Z.eqb_neq _ NULL)) in Hn by done.
  cbn [negb orb] in Hn. rewrite (calc_dir_loop_stream x _ es _ ds) in Hn by (done || lia || by eapply dir_stream_fuel).
  cbn [mbind option_bind] in Hn. rewrite u32_small in Hn by lia. unfold udiv in Hn.
  rewrite (proj2 (Z.eqb_neq cs 0)) in Hn by lia. injection Hn as Hn.
  assert (Hpos : 0 < Z.of_nat (length (concat es))).
  { destruct es as [|e0 es]; [done|]. inversion Hs as [|? ? i ? ? _ He _]; subst.
    destruct (entries_of_length _ _ _ _ _ He) as (k & Hk'). cbn [concat]. rewrite length_app. lia. }
  pose proof (Z.div_mod (Z.of_nat (length (concat es)) + cs - 1) cs ltac:(lia)) as Hdm.
  pose proof (Z.mod_pos_bound (Z.of_nat (length (concat es)) + cs - 1) cs ltac:(lia)) as Hmod.
  rewrite Z.add_0_l in Hn. rewrite Hn in Hdm. assert (Hn0 : 0 < n) by nia.
  assert (Hlt : n * cs < 4294967296) by lia.
  exists n. split; [rewrite Hsz, <- (u32_small (n * cs)) by lia; apply clusters_of_whole; lia|].
  split; [done|]. split; [done|]. split; [lia|].
  destruct (laid_runs param _ _ _ _ x (m_laid _ _ _ _ _ Hm) Hx) as (g & k & c & Hg' & Hp & _). simplify_eq.
  split; [by apply Hp|done].
Qed.

(** The chain of a directory: its entries, and zeros. *)
Lemma fat32_read_dir x f es ds : directory x f es ds →
  fat32_read sec (opened param) (first_cluster f) =
    Some (concat es ++ replicate (Z.to_nat (size_of f) - length (concat es)) 0).
Proof.
  intros Hdir. destruct (directory_size _ _ _ _ Hdir) as (n & Hn & Hn0 & Hlt & Hle & Hcb & Hsize).
  destruct Hdir as [Hx Hf (Hd & Hdots & Hwo) Hk Hs [Hne Hb]]. rewrite Hsize.
  pose proof (g_ss _ Hg). pose proof (g_spc _ Hg). pose proof (g_ss32 _ Hg) as H32.
  pose proof (m_cs _ _ _ _ _ Hm) as Hcs.
  destruct (mounted_run _ _ _ _ _ _ _ _ Hm Hx Hf Hn ltac:(lia)) as (_ & Hfc & Hfe & _).
  set (c := concat es) in *. set (D := c ++ replicate (Z.to_nat (n * cs)) 0).
  rewrite (fat32_read_run user_cb a param Hg w Hw l e Hm Hfits x f n D Hx Hf Hn ltac:(lia)).
  { f_equal. unfold D. rewrite take_app_ge, take_replicate by lia. do 2 f_equal. lia. }
  intros i Hi. assert (HiZ : Z.of_nat i < n * spc) by lia.
  assert (Hincs : (Z.of_nat i + 1) * ss ≤ n * cs).
  { assert ((Z.of_nat i + 1) * ss ≤ n * spc * ss) by (apply Z.mul_le_mono_nonneg_r; lia). unfold cluster_size_of. lia. }
  unfold D. rewrite window_zeros by lia. set (R := Z.to_nat (ss / 32)).
  assert (HR : Z.to_nat ss = (32 * R)%nat) by (unfold R; Z.div_mod_to_equations; lia).
  set (w0 := set_ram w (replicate (Z.to_nat ss) 0)).
  destruct (dir_read_window x (dev w0) f es ds (i * R) R [] (replicate (Z.to_nat ss) 0) [] Hf Hd Hk Hs)
    as (fs' & Hdr & _); [rewrite length_replicate; lia|rewrite length_replicate; lia|].
  rewrite length_replicate, app_nil_r in Hdr. cbn [app length] in Hdr. rewrite app_nil_r in Hdr.
  assert (Haddr : data_base param + (first_cluster f - 2) * spc + Z.of_nat i < 64 + sector_number param).
  { unfold data_base. assert ((first_cluster f + n - 2) * spc ≤ (e - 2) * spc)
      by (apply Z.mul_le_mono_nonneg_r; lia). lia. }
  unfold read_sector. fold w0. assert (Hoff : 32 * Z.of_nat (i * R) = Z.of_nat i * ss) by lia.
  rewrite Hoff, Z2Nat.id in Hdr by lia.
  rewrite (read_dir_sector user_cb a param Hg w0 l e 0 ss x f n (Z.of_nat i) 0 _
    ltac:(by apply serving_ram) Hm Hx Hf Hd Hcb Hwo Hn ltac:(lia) ltac:(lia) ltac:(by apply (sector_addr param Hg)) Hdr).
  cbn [fst snd]. bindr. cbn [VSFERR_NONE Z.eqb ram set_dev set_ram]. f_equal. unfold fill.
  rewrite length_replicate. fold c. assert (Hir : (32 * (i * R) = i * Z.to_nat ss)%nat) by lia. rewrite Hir.
  f_equal. rewrite !drop_replicate. f_equal. rewrite length_take, !length_drop. lia.
Qed.
End volume.

(** ** Setting up *)

Section mount.
Context (a : Z) (param : fakefat32_param_t).

(** A memory driver on a tree of files that has not been set up; [fs] is the
    tree with its root in order, [l] are the files below the root, and there is
    room on the volume for all. *)
Record mountable (w : mworld fakefat32) (fs : gmap Z fakefat32_file_t) (l : list Z) : Prop := {
  mt_pt : ∃ p, pts w !! a = Some p ∧ user_data p = a;
  mt_mal : ∃ m, mals w !! a = Some m;
  mt_param : ∃ pa, mal_param (dev w) !! a = Some pa ∧ ff_params (dev w) !! pa = Some param;
  mt_mbr : fakefat32_mbr (dev w) = fakefat32_mbr_init;
  mt_root : ∃ f, ff_files (dev w) !! root param = Some f ∧ f_op (mfile (memfile f)) = NULL;
  mt_prepared : prepared param (ff_files (dev w)) = Some fs;
  mt_volume : volume param fs l 2;
  mt_fits : 16 + 2 * fat_sectors param + total param fs (root param :: l) * sectors_per_cluster param
    ≤ sector_number param }.

Lemma mal_init_mounted w fs l evt :
  geometry_ok param → mountable w fs l →
  ∃ w1, fakefat32_mal_init a evt w = Some (VSFERR_NONE, w1) ∧ serving a param w1 ∧
    same_shape fs (ff_files (dev w1)) ∧ ff_bufs (dev w1) = ff_bufs (dev w) ∧
    mounted param (ff_files (dev w1)) l 2 (2 + total param fs (root param :: l)).
Proof.
  intros Hg [(p & Hp & Hpa) (m & Hmal) (pa & Ha & Hparam) Hmbr (f & Hf & Hop) Hprep Hv _].
  unfold fakefat32_mal_init, mal_of. rewrite Hp. bindr. rewrite Hpa, Hmal. bindr. rewrite Ha. bindr. rewrite Hparam. bindr.
  rewrite Hmbr. change (FAT32_HIDDEN_SECTORS fakefat32_mbr_init) with (Some 64). bindr. cbn [dev set_mal].
  destruct (fakefat32_init_laid param (dev w) f fs l 2 Hf Hop ltac:(by rewrite Hmbr) Hprep Hv)
    as (fs' & -> & Hs & _ & Hm). bindr. eexists. split; [done|]. split; [|done].
  constructor; cbn [pts mals dev set_dev set_mal set_files mal_param ff_params fakefat32_mbr].
  - by exists p.
  - eexists. split; [apply lookup_insert_eq|done].
  - by exists pa.
  - done.
Qed.

Lemma mal_init_once w fs l evt w1 :
  geometry_ok param → mountable w fs l → fakefat32_mal_init a evt w = Some (VSFERR_NONE, w1) →
  serving a param w1 ∧ same_shape fs (ff_files (dev w1)) ∧ ff_bufs (dev w1) = ff_bufs (dev w) ∧
  mounted param (ff_files (dev w1)) l 2 (2 + total param fs (root param :: l)).
Proof. intros Hg Hw Hi. destruct (mal_init_mounted w fs l evt Hg Hw) as (w2 & Hi2 & H). by simplify_eq. Qed.
End mount.

(** *** Entries and clusters *)

Lemma FstClus_value c : 0 ≤ c < 4294967296 →
  u16 (Z.land (Z.shiftr c 0) 0xFFFF) + 65536 * u16 (Z.land (Z.shiftr c 16) 0xFFFF) = c.
Proof.
  intros Hc. change 0xFFFF with (Z.ones 16). rewrite !Z.land_ones, Z.shiftr_0_r, Z.shiftr_div_pow2 by lia.
  unfold u16, wrap. rewrite !Z.mod_mod by lia. change (2 ^ 16) with 65536.
  rewrite (Z.mod_small (c / 65536)) by (split; [apply Z.div_pos; lia|apply Z.div_lt_upper_bound; lia]).
  pose proof (Z.div_mod c 65536 ltac:(lia)). lia.
Qed.

Lemma dot_record_plain fs d f name r : is_Some (fs !! d) → is_dots f = false → name_of f = Some name →
  dot_record fs d name r = Some r.
Proof.
  intros [df Hd] Hdots Hn. unfold is_dots in Hdots. rewrite Hn in Hdots. apply orb_false_elim in Hdots as [H1 H2].
  unfold dot_record. rewrite Hd. bindr. by rewrite H1, H2.
Qed.

(** The entry of a file of the array. *)
Lemma dir_stream_child d fs a es ds k y h :
  dir_stream d fs a es ds → (k < length es)%nat → y = a + FILE_SIZE * Z.of_nat k → fs !! y = Some h →
  attr_of h ≠ VSFILE_ATTR_VOLUMID →
  ∃ name r, name_of h = Some name ∧ dot_record fs d name (record h) = Some r ∧ file_dentry h name r ∈ ds.
Proof.
  intros Hs Hk -> Hy Hattr. revert k Hk Hy.
  induction Hs as [a f Hf Hn|a e i es ds Ha He Hes IH]; intros k Hk Hy; [simpl in Hk; lia|]. destruct k as [|k].
  - rewrite Z.mul_0_r, Z.add_0_r in Hy. destruct He as [f name Hf Hname Hb Ha'|f name sn long flags r Hx Ha'].
    + by simplify_eq.
    + destruct Hx as [Hf Hname _ _ _ _ _ Hr _]. simplify_eq. exists name, r. split_and!; [done|done|]. by left.
  - replace (a + FILE_SIZE * Z.of_nat (S k)) with (a + FILE_SIZE + FILE_SIZE * Z.of_nat k) in Hy by lia.
    destruct (IH k ltac:(simpl in Hk; lia) Hy) as (name & r & ? & ? & Hin). exists name, r.
    split_and!; [done|done|]. apply elem_of_app. by right.
Qed.

Section host.
Context (user_cb : Z → Z → Z → Z → Z → Z → Z → fakefat32 → list Z →
  option (Z * fakefat32 * list Z)).
Context (a : Z) (param : fakefat32_param_t).
Notation sec := (read_sector user_cb a param).

(** The chain of a directory, listed: [B] is a buffer for names. *)
Definition host_list (w : mworld fakefat32) (g : fat32_geometry) (c : Z) (B : list Z) : option (list dentry) :=
  bytes ← fat32_read (sec w) g c;
  list_dir (S (length bytes)) {| entry := Z.of_nat (length B); entry_num := Z.of_nat (length bytes / 32);
    lfn := 0; filename := 0 |} (B ++ bytes).

(** The contents of the file that an entry shows. *)
Definition host_read (w : mworld fakefat32) (g : fat32_geometry) (x : dentry) : option (list Z) :=
  bytes ← fat32_read (sec w) g (d_cluster x); Some (take (Z.to_nat (d_size x)) bytes).

Lemma host_list_directory w l e x f es ds (B : list Z) :
  geometry_ok param → serving a param w → mounted param (ff_files (dev w)) l 2 e →
  16 + 2 * fat_sectors param + (e - 2) * sectors_per_cluster param ≤ sector_number param →
  directory param w l x f es ds → Forall visible ds → (196 ≤ length B)%nat → size_of f < 0x200000 →
  host_list w (opened param) (first_cluster f) B = Some ds.
Proof.
  intros Hg Hw Hm Hfits Hdir Hv HB Hsz.
  destruct (directory_size param w l e Hm _ _ _ _ Hdir) as (n & Hn & Hn0 & Hlt & Hle & Hcb & Hsize).
  pose proof (dr_stream _ _ _ _ _ _ _ Hdir) as Hs. unfold host_list.
  rewrite (fat32_read_dir user_cb a param Hg w Hw l e Hm Hfits _ _ _ _ Hdir). bindr.
  set (c := concat es) in *. set (z := (Z.to_nat (size_of f) - length c)%nat).
  pose proof (g_ss _ Hg). pose proof (g_spc _ Hg). pose proof (g_ss32 _ Hg) as H32.
  set (k := Z.to_nat (size_of f / 32)). assert (Hk : (length c + z = 32 * k)%nat).
  { assert (Hmod : size_of f mod 32 = 0).
    { rewrite Hsize. unfold cluster_size_of.
      replace (n * (sector_size param * sectors_per_cluster param))
        with (n * sectors_per_cluster param * sector_size param) by lia.
      by rewrite <- Z.mul_mod_idemp_r, H32, Z.mul_0_r by done. }
    unfold z, k. Z.div_mod_to_equations. lia. }
  assert (Hl : length (c ++ replicate z 0) = (32 * k)%nat) by (rewrite length_app, length_replicate; lia).
  rewrite Hl, (Nat.mul_comm 32), Nat.div_mul by done.
  pose proof (list_dir_stream x (ff_files (dev w)) [] ds (S (k * 32)) es _ [] z k 0 B Hs Hv HB eq_refl Hk) as Hlist.
  cbn [app length] in Hlist. rewrite Nat.add_0_r in Hlist. unfold parser in Hlist. apply Hlist; [unfold k; Z.div_mod_to_equations; lia|].
  pose proof (dir_stream_count _ _ _ _ _ Hs) as Hcount. fold c in Hcount. lia.
Qed.

(** A file of a directory, kept in memory. *)
Record child (w : mworld fakefat32) (l : list Z) (f : fakefat32_file_t) (es : list (list Z)) (y : Z)
    (h : fakefat32_file_t) (b : list Z) : Prop := {
  ch_index : ∃ k, (k < length es)%nat ∧ y = memptr (memfile f) + FILE_SIZE * Z.of_nat k;
  ch_kind : is_dots h = false ∧ attr_of h ≠ VSFILE_ATTR_VOLUMID;
  ch_stored : stored param w l y h b }.

Lemma host_read_child w l e x f es ds y h b :
  geometry_ok param → serving a param w → mounted param (ff_files (dev w)) l 2 e →
  16 + 2 * fat_sectors param + (e - 2) * sectors_per_cluster param ≤ sector_number param →
  directory param w l x f es ds → child w l f es y h b →
  ∃ dd, dd ∈ ds ∧ name_of h = Some (d_name dd) ∧ d_size dd = size_of h ∧ d_attr dd = u8 (attr_of h) ∧
    host_read w (opened param) dd = Some (take (Z.to_nat (size_of h)) b).
Proof.
  intros Hg Hw Hm Hfits Hdir [(k & Hk & Hy) [Hdots Hattr] Hst].
  pose proof Hst as [Hin Hh [Hd Hwo] [Hp Hb] [Hsz Hfit]].
  destruct (dir_stream_child _ _ _ _ _ _ _ _ (dr_stream _ _ _ _ _ _ _ Hdir) Hk Hy Hh Hattr)
    as (name & r & Hname & Hr & Hdd).
  rewrite (dot_record_plain _ _ h) in Hr by (done || (eexists; exact (dr_file _ _ _ _ _ _ _ Hdir))).
  injection Hr as <-. exists (file_dentry h name (record h)). split; [done|]. split; [done|].
  pose proof (m_cs _ _ _ _ _ Hm) as Hcs.
  assert (Hsize : d_size (file_dentry h name (record h)) = size_of h).
  { cbn [d_size file_dentry]. rewrite Hd. apply u32_small. lia. }
  split; [done|]. split; [done|]. unfold host_read. rewrite Hsize.
  assert (Hc : d_cluster (file_dentry h name (record h)) = first_cluster h).
  { assert (Hn : clusters_of param (size_of h) = Some ((size_of h + cluster_size_of param - 1) / cluster_size_of param))
      by (apply clusters_of_fits; lia).
    assert (Hn0 : (size_of h + cluster_size_of param - 1) / cluster_size_of param ≠ 0).
    { assert (1 ≤ (size_of h + cluster_size_of param - 1) / cluster_size_of param)
        by (apply Z.div_le_lower_bound; lia). lia. }
    destruct (mounted_run _ _ _ _ _ _ _ _ Hm Hin Hh Hn Hn0) as (Hn1 & Hfc & Hfe & HHI & HLO & _).
    pose proof (m_fits _ _ _ _ _ Hm). cbn [d_cluster file_dentry]. rewrite HHI, HLO. apply FstClus_value. lia. }
  rewrite Hc. destruct (fat32_read_file user_cb a param Hg w Hw l e Hm Hfits y h b Hst) as (D & -> & HD).
  bindr. by rewrite HD.
Qed.
End host.

(** ** The volume *)

(** C22: setting up the memory driver gives every file of the tree its own
    clusters: the call succeeds, every file that is not empty has a run of as many
    clusters as its size takes (a directory those of its entries), the search by
    cluster gives for each cluster of a run the file that has it, and beyond the
    last run there is none.  The tree has not been set up before, its directories
    have files, its objects are in no two places, and there is room for it on the
    volume ([mountable]); the volume has sectors of at least 512 bytes and 32-bit
    addresses ([geometry_ok]). *)
Theorem fakefat32_mal_init_runs a param w fs l evt :
  geometry_ok param → mountable a param w fs l →
  ∃ w1, fakefat32_mal_init a evt w = Some (VSFERR_NONE, w1) ∧
    (∀ x f, x ∈ root param :: l → ff_files (dev w1) !! x = Some f →
      ∃ n, clusters_of param (size_of f) = Some n ∧ 0 ≤ n ∧
        (n ≠ 0 → 2 ≤ first_cluster f ∧ first_cluster f + n ≤ 2 + total param fs (root param :: l)) ∧
        ∀ k, first_cluster f ≤ k < first_cluster f + n →
          fakefat32_get_file_by_cluster (file_fuel (ff_files (dev w1))) param (ff_files (dev w1)) (root param) k = Some x) ∧
    (∀ k, 2 + total param fs (root param :: l) ≤ k →
      fakefat32_get_file_by_cluster (file_fuel (ff_files (dev w1))) param (ff_files (dev w1)) (root param) k = Some NULL).
Proof.
  intros Hg Hw. destruct (mal_init_mounted a param w fs l evt Hg Hw) as (w1 & Hi & _ & _ & _ & Hm).
  exists w1. split; [done|]. pose proof (m_fits _ _ _ _ _ Hm). split.
  - intros x f Hx Hf.
    destruct (laid_runs param _ _ _ _ x (m_laid _ _ _ _ _ Hm) Hx) as (g & n & c & Hg' & (Hn & Hn0 & _) & _). simplify_eq.
    exists n. split; [done|]. split; [done|].
    destruct (decide (n = 0)) as [->|Hnz]; [split; [done|lia]|].
    destruct (mounted_run _ _ _ _ _ _ _ _ Hm Hx Hf Hn Hnz) as (_ & Hfc & Hfe & _ & _ & Hrun).
    split; [done|]. intros k Hk. rewrite (mounted_get_file _ _ _ _ _ _ Hm). by rewrite Hrun.
  - intros k Hk. rewrite (mounted_get_file _ _ _ _ _ _ Hm).
    pose proof (laid_owner param _ _ _ _ k (m_laid _ _ _ _ _ Hm) ltac:(lia) ltac:(lia)) as Ho.
    destruct (List.find _ _) as [x|]; [|done]. destruct Ho as (_ & f & n & _ & _ & _ & Hr). lia.
Qed.

(** C20: a FAT32 host finds the tree of files on the volume: it opens the
    volume, the chain of a directory lists the files of the directory, and for
    each file that is kept in memory the listing has an entry with its name,
    its size and the chain that has its contents.  The host is [fat32_open],
    which reads the partition table and the boot sector, [fat32_read], which
    follows a chain of the FAT, and the parser of vsffat.c.  The tree and the volume
    are as for [fakefat32_mal_init_runs]; the directory has less than 2 MiB of
    entries and its files are [visible]; the file is not empty, fits its buffer
    and may be read ([child]). *)
Theorem volume_shows_tree user_cb a param w fs l evt w1 x f es ds B :
  geometry_ok param → mountable a param w fs l → fakefat32_mal_init a evt w = Some (VSFERR_NONE, w1) →
  directory param w1 l x f es ds → Forall visible ds → size_of f < 0x200000 → (196 ≤ length B)%nat →
  ∃ g, fat32_open (read_sector user_cb a param w1) = Some g ∧
    host_list user_cb a param w1 g (first_cluster f) B = Some ds ∧
    ∀ y h b, child param w1 l f es y h b →
      ∃ dd, dd ∈ ds ∧ name_of h = Some (d_name dd) ∧ d_size dd = size_of h ∧ d_attr dd = u8 (attr_of h) ∧
        host_read user_cb a param w1 g dd = Some (take (Z.to_nat (size_of h)) b).
Proof.
  intros Hg Hw Hi Hdir Hv Hsz HB. destruct (mal_init_once a param w fs l evt w1 Hg Hw Hi) as (Hsv & _ & _ & Hm).
  assert (Hfits : 16 + 2 * fat_sectors param + (2 + total param fs (root param :: l) - 2) * sectors_per_cluster param
    ≤ sector_number param).
  { pose proof (mt_fits _ _ _ _ _ Hw) as Hf. by replace (2 + _ - 2) with (total param fs (root param :: l)) by lia. }
  exists (opened param). split; [by eapply fat32_open_volume|]. split; [by eapply host_list_directory|].
  intros y h b Hc. by eapply host_read_child.
Qed.

(** ** The volume of the example *)

Definition demo_world : mworld fakefat32 := {|
  pts := {[60 := {| user_data := 60; state := 0 |}]};
  mals := {[60 := {| cap := {| block_size := 0; block_num := 0 |}; drv := 0; op_block_size := 0; mal_offset := 0 |}]};
  mims := ∅; ram := []; dev := demo_state |}.

Definition demo_cb : Z → Z → Z → Z → Z → Z → Z → fakefat32 → list Z → option (Z * fakefat32 * list Z) :=
  λ _ _ _ _ _ _ _ _ _, None.

(** The world after the call. *)
Definition demo_mounted : mworld fakefat32 :=
  match fakefat32_mal_init 60 0 demo_world with Some (_, w) => w | None => demo_world end.

Lemma demo_geometry : geometry_ok demo_param.
Proof. constructor; by vm_compute || (split; by vm_compute). Qed.

Lemma demo_mountable : mountable 60 demo_param demo_world demo_files [2000; 2072; 2144].
Proof.
  constructor.
  - by eexists.
  - by eexists.
  - by exists 50.
  - done.
  - by eexists.
  - by vm_compute.
  - constructor.
    + by vm_compute.
    + eapply (forest_node _ _ _ [2000; 2072; 2144] []); [by vm_compute|by eexists|done|done| |done|].
      * eapply forest_leaf; [by vm_compute|by eexists|done|done|].
        eapply forest_leaf; [by vm_compute|by eexists|done|done|].
        eapply forest_leaf; [by vm_compute|by eexists|done|done|]. eapply forest_end; by vm_compute.
      * eapply forest_end; by vm_compute.
    + intros f Hf. vm_compute in Hf. by simplify_eq.
    + by_decide.
    + rewrite !Forall_cons. split_and!; [..|constructor]; vm_compute; (split_and!; [by eexists|done..]).
    + done.
    + by vm_compute.
  - by vm_compute.
Qed.

Definition demo_at (x : Z) : fakefat32_file_t :=
  default (demo_file None 0 0 NULL) (ff_files (dev demo_mounted) !! x).

Lemma demo_directory : ∃ es,
  directory demo_param demo_mounted [2000; 2072; 2144] 1000 (demo_at 1000) es (demo_list 3 4) ∧ length es = 3%nat.
Proof.
  assert (H : ∃ es ds, dir_stream 1000 (ff_files (dev demo_mounted)) 2000 es ds ∧ ds = demo_list 3 4 ∧
    length (concat es) = 128%nat ∧ length es = 3%nat).
  { eexists _, _. split; [demo_stream|]. split_and!; by vm_compute. }
  destruct H as (es & ds & H & -> & Hl & Hn). exists es. split; [|done]. constructor.
  - by left.
  - by vm_compute.
  - split_and!; by vm_compute.
  - by vm_compute.
  - exact H.
  - split; [by intros ->|]. rewrite Hl. by vm_compute.
Qed.

Lemma demo_child es : length es = 3%nat →
  child demo_param demo_mounted [2000; 2072; 2144] (demo_at 1000) es 2144 (demo_at 2144) (replicate 600 66).
Proof.
  intros Hes. constructor.
  - exists 2%nat. split; [lia|]. by vm_compute.
  - split; by vm_compute.
  - constructor; [set_solver|by vm_compute|split; by vm_compute|split; by vm_compute|].
    split; [split; by vm_compute|by vm_compute].
Qed.

Lemma fakefat32_mal_init_runs_witness : ∃ w1,
  fakefat32_mal_init 60 0 demo_world = Some (VSFERR_NONE, w1) ∧
  fakefat32_get_file_by_cluster (file_fuel (ff_files (dev w1))) demo_param (ff_files (dev w1)) 1000 6 = Some NULL.
Proof.
  destruct (fakefat32_mal_init_runs 60 demo_param demo_world demo_files [2000; 2072; 2144] 0 demo_geometry
    demo_mountable) as (w1 & Hi & _ & Hnone). exists w1. split; [exact Hi|]. apply Hnone. by vm_compute.
Defined.

Lemma volume_shows_tree_witness : ∃ g dd,
  fat32_open (read_sector demo_cb 60 demo_param demo_mounted) = Some g ∧
  host_list demo_cb 60 demo_param demo_mounted g 2 (replicate 196 0) = Some (demo_list 3 4) ∧
  dd ∈ demo_list 3 4 ∧
  host_read demo_cb 60 demo_param demo_mounted g dd = Some (take 600 (replicate 600 66)).
Proof.
  destruct demo_directory as (es & Hd & Hes).
  destruct (volume_shows_tree demo_cb 60 demo_param demo_world demo_files [2000; 2072; 2144] 0 demo_mounted 1000
    (demo_at 1000) es (demo_list 3 4) (replicate 196 0) demo_geometry demo_mountable)
    as (g & Hg & Hl & Hc); [by vm_compute|exact Hd|apply demo_visible|by vm_compute|by_decide|].
  destruct (Hc 2144 (demo_at 2144) (replicate 600 66) (demo_child es Hes)) as (dd & Hin & _ & _ & _ & Hr).
  exists g, dd. split; [exact Hg|]. split; [exact Hl|]. split; [exact Hin|exact Hr].
Defined.
