(* ===== verification/Fatwrite.v ===== *)
(** * Fatwrite: sectors that a host writes

    A sector of a file that is kept in memory goes to the file, as far as the
    file has bytes there, and is read back from it; the boot sector replaces
    the template; the other sectors before the data are dropped. *)

From S2P Require Import Prelude Chain Endian Vsfmal Vsfile Vsffat Fakefat Fatlayout Fatimage Fatdir Fatparse Fatlist Fatvolume.

(** [list_inserts] of what fits between [off] and the size. *)
Lemma memfs_write_spec f b off n src :
  0 ≤ off → 0 ≤ n → 0 ≤ f_size (mfile f) ≤ Z.of_nat (length b) → f_size (mfile f) < 4294967296 →
  n ≤ Z.of_nat (length src) →
  ∃ r, vsfile_memfs_write f b off n src =
    Some (list_inserts (Z.to_nat off) (take (Z.to_nat (Z.min n (f_size (mfile f) - off))) src) b, r).
Proof.
  intros Ho Hn Hs Hs32 Hl. unfold vsfile_memfs_write. destruct (Z.leb_spec (f_size (mfile f)) off).
  - exists 0. by replace (Z.to_nat (Z.min _ _)) with 0%nat by lia.
  - rewrite u32_small by lia. set (k := Z.min _ _). rewrite read_at_in by lia. bindr. rewrite drop_0.
    rewrite memcpy_in by (rewrite length_take; lia). by eexists.
Qed.

Section write.
Context (user_cb : Z → Z → Z → Z → Z → Z → Z → fakefat32 → list Z →
  option (Z * fakefat32 * list Z)).
Context (a : Z) (param : fakefat32_param_t) (Hg : geometry_ok param).
Implicit Types (w : mworld fakefat32).
Notation ss := (sector_size param).
Notation spc := (sectors_per_cluster param).

(** The beginning of [fakefat32_mal_write], as for a read. *)
Ltac start_write Hw n :=
  pose proof (fat_sectors_bound _ Hg) as (?Hf1 & ?Hf2 & ?Hf3 & ?Hf4); pose proof (g_ss _ Hg);
  pose proof (g_spc _ Hg);
  destruct (mal_of_serving _ _ _ Hw) as (?m & ?Hmal & ?Hbs);
  unfold fakefat32_mal_write; rewrite Hmal; bindr; rewrite Hbs, (sv_mbr _ _ _ Hw);
  rewrite (u32_small ss), (u32_small (n * ss)) by lia; unfold udiv;
  rewrite (proj2 (Z.eqb_neq ss 0)), Z.div_mul by lia; bindr;
  rewrite (calc_fat_sectors_init _ Hg); bindr;
  change (FAT32_ROOT_CLUSTER fakefat32_mbr_init) with (Some 2);
  change (FAT32_HIDDEN_SECTORS fakefat32_mbr_init) with (Some 64);
  change (FAT32_RES_SECTORS fakefat32_mbr_init) with (Some 16);
  change (FAT32_FAT_NUM fakefat32_mbr_init) with (Some 2);
  change (FAT32_BACKUP_SECTOR fakefat32_mbr_init) with (Some 6); bindr;
  change (u32 (64 + 6)) with 70;
  rewrite (proj2 (Z.eqb_neq spc 0)) by lia; bindr;
  replace (64 + 16 + 2 * fat_sectors param) with (data_base param) by (unfold data_base; lia);
  rewrite (u32_small (data_base param)) by (unfold data_base in *; lia).

(** The host writes the [page] to the sector [n]. *)
Definition write_sector w (n : Z) (page : list Z) : option (mworld fakefat32) :=
  '(err, w') ← fakefat32_mal_write user_cb a 0 (n * ss) 0 ss (set_ram w page);
  if err =? 0 then Some (set_ram w' (ram w)) else None.

(** The world with other contents of the buffer at [p]. *)
Definition with_buf w (p : Z) (b : list Z) : mworld fakefat32 :=
  set_dev w (set_bufs (dev w) (<[p := b]> (ff_bufs (dev w)))).

Lemma write_file_sector w l e x f n b i page :
  serving a param w → mounted param (ff_files (dev w)) l 2 e → x ∈ root param :: l →
  ff_files (dev w) !! x = Some f → is_dir f = false → memptr (memfile f) ≠ NULL →
  has (attr_of f) VSFILE_ATTR_READONLY = false →
  ff_bufs (dev w) !! memptr (memfile f) = Some b → 0 ≤ size_of f ≤ Z.of_nat (length b) →
  clusters_of param (size_of f) = Some n → 0 ≤ i < n * spc →
  size_of f + cluster_size_of param ≤ 4294967296 →
  (data_base param + (first_cluster f - 2) * spc + i) * ss < 4294967296 → Z.of_nat (length page) = ss →
  write_sector w (data_base param + (first_cluster f - 2) * spc + i) page =
  Some (with_buf w (memptr (memfile f))
    (list_inserts (Z.to_nat (i * ss)) (take (Z.to_nat (Z.min ss (size_of f - i * ss))) page) b)).
Proof.
  intros Hw Hm Hx Hf Hd Hptr Hro Hb Hlb Hn Hi Hsz Haddr Hlen. assert (Hn0 : n ≠ 0) by lia.
  destruct (mounted_run _ _ _ _ _ _ _ _ Hm Hx Hf Hn Hn0) as (Hn1 & Hfc & _).
  pose proof (g_spc _ Hg). pose proof (g_ss _ Hg).
  assert (Hs0 : 0 ≤ (first_cluster f - 2) * spc) by (apply Z.mul_nonneg_nonneg; lia).
  assert (Hoff : 0 ≤ i * ss < 4294967296).
  { pose proof (m_cs _ _ _ _ _ Hm) as Hcs. rewrite (clusters_of_fits param Hcs) in Hn by lia.
    injection Hn as <-. pose proof (Z.mul_div_le (size_of f + cluster_size_of param - 1)
      (cluster_size_of param) ltac:(lia)). unfold cluster_size_of in *. nia. }
  destruct (locate_run param Hg _ _ _ x f n i Hm Hx Hf Hn Hi ltac:(lia)) as [Hloc Hx0].
  set (k := (first_cluster f - 2) * spc + i) in *. rewrite <- Z.add_assoc in *. fold k in Haddr |- *.
  assert (Hd82 : 82 ≤ data_base param) by (pose proof (fat_sectors_bound _ Hg); unfold data_base; lia).
  set (s := data_base param + k) in *. assert (Hss0 : 0 ≤ s * ss) by (apply Z.mul_nonneg_nonneg; lia).
  assert (Hsb : s ≤ s * ss) by nia. unfold write_sector.
  assert (Hw' : serving a param (set_ram w page)) by (by apply serving_ram).
  start_write Hw' s. rewrite (proj2 (Z.ltb_ge s (data_base param))) by lia.
  replace (s - 64 - 16 - 2 * fat_sectors param) with k by (unfold s, data_base; lia).
  rewrite (u32_small k) by lia. cbn [dev set_ram]. rewrite Hloc. bindr.
  apply Z.eqb_neq in Hx0, Hptr. rewrite Hx0, Hf. bindr. rewrite Hro, Hptr. unfold is_dir in Hd. rewrite Hd.
  cbn [negb andb]. rewrite Hb. bindr. rewrite decide_True by lia. bindr. cbn [ram set_ram]. change (Z.to_nat 0) with 0%nat.
  rewrite drop_0.
  destruct (memfs_write_spec (memfile f) b (i * ss) ss page) as (r & ->);
    [lia|lia|lia|unfold cluster_size_of in *; nia|lia|]. bindr. cbn [VSFERR_NONE Z.eqb]. f_equal.
Qed.

Lemma serving_buf w p b : serving a param w → serving a param (with_buf w p b).
Proof. intros [H1 H2 H3 H4]. by constructor. Qed.

Lemma stored_buf w l y h b b' :
  stored param w l y h b → length b' = length b →
  stored param (with_buf w (memptr (memfile h)) b') l y h b'.
Proof.
  intros [H1 H2 H3 [H4 H5] [H6 H7]] Hl. constructor; try done.
  - split; [done|]. apply lookup_insert_eq.
  - rewrite Hl. done.
Qed.

Lemma directory_buf w l x f es ds p b : directory param w l x f es ds → directory param (with_buf w p b) l x f es ds.
Proof. intros [H1 H2 H3 H4 H5 H6]. by constructor. Qed.
End write.

(** C21: what a host writes to a sector of a file in memory, a host reads back:
    the write succeeds, the directory still lists the same files, and the file
    has the bytes that were written, as far as the file goes, and its old bytes
    everywhere else.  The volume, the directory and the file are as for
    [volume_shows_tree], and the file may be written. *)
Theorem volume_write_read user_cb a param w fs l evt w1 x f es ds B y h b n i page :
  geometry_ok param → mountable a param w fs l → fakefat32_mal_init a evt w = Some (VSFERR_NONE, w1) →
  directory param w1 l x f es ds → Forall visible ds → size_of f < 0x200000 → (196 ≤ length B)%nat →
  child param w1 l f es y h b → has (attr_of h) VSFILE_ATTR_READONLY = false →
  clusters_of param (size_of h) = Some n → 0 ≤ i < n * sectors_per_cluster param →
  Z.of_nat (length page) = sector_size param →
  ∃ w2 g dd, write_sector user_cb a param w1
      (data_base param + (first_cluster h - 2) * sectors_per_cluster param + i) page = Some w2 ∧
    fat32_open (read_sector user_cb a param w2) = Some g ∧
    host_list user_cb a param w2 g (first_cluster f) B = Some ds ∧
    dd ∈ ds ∧ name_of h = Some (d_name dd) ∧
    host_read user_cb a param w2 g dd = Some (take (Z.to_nat (size_of h))
      (list_inserts (Z.to_nat (i * sector_size param))
        (take (Z.to_nat (Z.min (sector_size param) (size_of h - i * sector_size param))) page) b)).
Proof.
  intros Hg Hw Hi Hdir Hv Hsz HB Hc Hro Hn Hi' Hpage.
  destruct (mal_init_once a param w fs l evt w1 Hg Hw Hi) as (Hsv & _ & _ & Hm).
  set (e := 2 + total param fs (root param :: l)) in *.
  assert (Hfits : 16 + 2 * fat_sectors param + (e - 2) * sectors_per_cluster param ≤ sector_number param).
  { pose proof (mt_fits _ _ _ _ _ Hw) as Hf. by replace (e - 2) with (total param fs (root param :: l)) by (unfold e; lia). }
  destruct Hc as [Hidx Hkind Hst]. pose proof Hst as [Hin Hh [Hd Hwo] [Hp Hb] [Hs1 Hs2]].
  assert (Hn0 : n ≠ 0) by (pose proof (g_spc _ Hg); lia).
  destruct (mounted_run _ _ _ _ _ _ _ _ Hm Hin Hh Hn Hn0) as (Hn1 & Hfc & Hfe & _).
  set (b' := list_inserts _ _ b). assert (Hl : length b' = length b) by apply length_inserts.
  set (w2 := with_buf w1 (memptr (memfile h)) b').
  assert (Hwr : write_sector user_cb a param w1
    (data_base param + (first_cluster h - 2) * sectors_per_cluster param + i) page = Some w2).
  { apply (write_file_sector user_cb a param Hg w1 l e y h n b i); try done; [lia|].
    apply (sector_addr param Hg). unfold data_base. pose proof (g_spc _ Hg).
    assert ((first_cluster h + n - 2) * sectors_per_cluster param ≤ (e - 2) * sectors_per_cluster param)
      by (apply Z.mul_le_mono_nonneg_r; lia). lia. }
  assert (Hsv2 : serving a param w2) by (by apply serving_buf).
  assert (Hdir2 : directory param w2 l x f es ds) by (by apply directory_buf).
  assert (Hc2 : child param w2 l f es y h b') by (constructor; [done|done|by eapply stored_buf]).
  destruct (host_read_child user_cb a param w2 l e x f es ds y h b' Hg Hsv2 Hm Hfits Hdir2 Hc2)
    as (dd & Hdd & Hnm & _ & _ & Hread).
  exists w2, (opened param), dd. split; [done|]. split; [by eapply fat32_open_volume|].
  split; [by eapply host_list_directory|]. done.
Qed.

(** The second sector of "Read me.txt" is written. *)
Lemma volume_write_read_witness : ∃ w2 g dd,
  write_sector demo_cb 60 demo_param demo_mounted (data_base demo_param + 3) (replicate 512 67) = Some w2 ∧
  host_list demo_cb 60 demo_param w2 g 2 (replicate 196 0) = Some (demo_list 3 4) ∧
  dd ∈ demo_list 3 4 ∧
  host_read demo_cb 60 demo_param w2 g dd =
    Some (take 600 (list_inserts 512 (take 88 (replicate 512 67)) (replicate 600 66))).
Proof.
  destruct demo_directory as (es & Hd & Hes).
  destruct (volume_write_read demo_cb 60 demo_param demo_world demo_files [2000; 2072; 2144] 0 demo_mounted 1000
    (demo_at 1000) es (demo_list 3 4) (replicate 196 0) 2144 (demo_at 2144) (replicate 600 66) 2 1 (replicate 512 67)
    demo_geometry demo_mountable)
    as (w2 & g & dd & Hw & _ & Hl & Hin & _ & Hr);
    [by vm_compute|exact Hd|apply demo_visible|by vm_compute|by_decide|exact (demo_child es Hes)|by vm_compute|
     by vm_compute|split; by vm_compute|done|].
  exists w2, g, dd. split; [exact Hw|]. split; [exact Hl|]. split; [exact Hin|exact Hr].
Defined.
