(* ===== verification/Fattype.v ===== *)
(** * Fattype: types of the volume's state

    Memory is bytes and keeps its size, names and contents are bytes, and the
    fields of files have their widths: each operation of the memory driver
    keeps it so, whatever it is called with. *)

From S2P Require Import Prelude Chain Endian Vsfmal Vsfile Vsffat Fakefat Fatlayout Fatimage Fatdir Fatparse Fatlist Fatvolume.

(** ** Types *)

Definition byte (v : Z) : Prop := 0 ≤ v < 256.

(** A memory of [n] bytes. *)
Definition memory (n : nat) (m : list Z) : Prop := length m = n ∧ bytes m.

Record typed_record (r : fat_record_t) : Prop := {
  tr_tenth : fits 8 (CrtTimeTenth r);
  tr_crt : fits 16 (CrtTime r) ∧ fits 16 (CrtData r) ∧ fits 16 (LstAccData r);
  tr_wrt : fits 16 (WrtTime r) ∧ fits 16 (WrtData r);
  tr_clus : fits 16 (FstClusHI r) ∧ fits 16 (FstClusLO r) }.

Record typed_file (f : fakefat32_file_t) : Prop := {
  tf_name name : name_of f = Some name → bytes name;
  tf_size : fits 32 (size_of f);
  tf_cluster : fits 32 (first_cluster f);
  tf_record : typed_record (record f) }.

Definition typed_files (fs : gmap Z fakefat32_file_t) : Prop := map_Forall (λ _, typed_file) fs.

Record typed (s : fakefat32) : Prop := {
  ty_files : typed_files (ff_files s);
  ty_bufs : map_Forall (λ _, bytes) (ff_bufs s);
  ty_mbr : memory 512 (fakefat32_mbr s);
  ty_params : map_Forall (λ _ p, fits 8 (sectors_per_cluster p)) (ff_params s) }.

(** ** Automation

    [chop] takes a computation that succeeded apart; the lemmas of the database
    say what each step keeps. *)

Ltac chop := repeat
  match goal with
  | H : mbind _ _ = Some _ |- _ => apply bind_Some in H as (? & ? & H)
  | H : Some _ = Some _ |- _ => apply (inj Some) in H
  | H : (_, _) = (_, _) |- _ => apply pair_equal_spec in H as [? ?]
  | H : None = Some _ |- _ => discriminate H
  | H : (if ?b then _ else _) = Some _ |- _ => destruct b
  | H : (let '(_, _) := ?p in _) = Some _ |- _ => destruct p
  end; subst.

Create HintDb typed.

Lemma memory_bytes n m : memory n m → bytes m.
Proof. by intros []. Qed.

Lemma byte_u8 v : byte (u8 v).
Proof. apply u8_range. Qed.

Lemma byte_land v : byte (Z.land v 0xFF).
Proof. change 0xFF with (Z.ones 8). rewrite Z.land_ones by lia. by apply Z.mod_pos_bound. Qed.

Lemma byte_toupper c : byte c → byte (toupper c).
Proof. unfold byte, toupper, islower. intros H. zcase; cbn [andb]; lia. Qed.

Lemma byte_tolower c : byte c → byte (tolower c).
Proof. unfold byte, tolower, isupper. intros H. zcase; cbn [andb]; lia. Qed.

Lemma fits_u16 v : fits 16 (u16 v).
Proof. by apply wrap_fits. Qed.
Lemma fits_u32 v : fits 32 (u32 v).
Proof. by apply wrap_fits. Qed.

#[export] Hint Resolve memory_bytes byte_u8 byte_land byte_toupper byte_tolower fits_u16 fits_u32 : typed.
#[export] Hint Extern 1 (byte ?v) => (by unfold byte) : typed.

Lemma bytes_getb m a c : getb m a = Some c → bytes m → byte c.
Proof. intros (_ & Hl)%getb_Some Hb. by eapply Forall_lookup_1 in Hb. Qed.

Lemma memory_getb n m a c : getb m a = Some c → memory n m → byte c.
Proof. intros H [_ Hb]. by eapply bytes_getb. Qed.

Lemma memory_setb n m m' a v : setb m a v = Some m' → memory n m → byte v → memory n m'.
Proof.
  intros H [Hl Hb] Hv. revert H. unfold setb. case_decide; [|done]. intros [= <-]. split; [by rewrite length_insert|].
  by apply Forall_insert.
Qed.

Lemma memory_put n m m' a src : put m a src = Some m' → memory n m → bytes src → memory n m'.
Proof.
  intros H [Hl Hb] Hs. revert H. unfold put, memcpy. repeat case_decide; try done. intros [= <-].
  split; [by rewrite length_inserts|]. by apply Forall_inserts.
Qed.

Lemma memory_memset n m m' a v k : memset m a v k = Some m' → memory n m → byte v → memory n m'.
Proof. intros H Hm Hv. eapply memory_put; [exact H|done|]. by apply Forall_replicate. Qed.

#[export] Hint Resolve bytes_getb memory_getb memory_setb memory_put memory_memset : typed.

Lemma bytes_take k m : bytes m → bytes (take k m).
Proof. apply Forall_take. Qed.
Lemma bytes_drop k m : bytes m → bytes (drop k m).
Proof. apply Forall_drop. Qed.
#[export] Hint Resolve bytes_take bytes_drop : typed.

(** A writer at an address. *)
Lemma memory_set_at (set : list Z → Z → option (list Z)) n m m' a v :
  (∀ k p p', set p v = Some p' → memory k p → memory k p') →
  set_at set m a v = Some m' → memory n m → memory n m'.
Proof.
  intros Hset Hs [Hl Hb]. revert Hs. unfold set_at. case_decide; [|done]. intros Hst. chop.
  edestruct (Hset (length (drop (Z.to_nat a) m))) as [Hl' Hb']; [eassumption|split; [done|by apply bytes_drop]|].
  split; [rewrite length_app, Hl', length_take, length_drop; lia|]. apply Forall_app. split; [by apply bytes_take|done].
Qed.

Lemma memory_set16 n m m' v : SET_U16_LSBFIRST m v = Some m' → memory n m → memory n m'.
Proof. unfold SET_U16_LSBFIRST. intros H Hm. chop. eauto with typed. Qed.
Lemma memory_set16_be n m m' v : SET_U16_MSBFIRST m v = Some m' → memory n m → memory n m'.
Proof. unfold SET_U16_MSBFIRST. intros H Hm. chop. eauto with typed. Qed.
Lemma memory_set32 n m m' v : SET_U32_LSBFIRST m v = Some m' → memory n m → memory n m'.
Proof. unfold SET_U32_LSBFIRST. intros H Hm. chop. eauto 6 with typed. Qed.

Lemma memory_at16 n m m' a v : set_at SET_U16_LSBFIRST m a v = Some m' → memory n m → memory n m'.
Proof. apply memory_set_at. intros. by eapply memory_set16. Qed.
Lemma memory_at16_be n m m' a v : set_at SET_U16_MSBFIRST m a v = Some m' → memory n m → memory n m'.
Proof. apply memory_set_at. intros. by eapply memory_set16_be. Qed.
Lemma memory_at32 n m m' a v : set_at SET_U32_LSBFIRST m a v = Some m' → memory n m → memory n m'.
Proof. apply memory_set_at. intros. by eapply memory_set32. Qed.
Lemma memory_put32 n m m' a v : put32 m a v = Some m' → memory n m → memory n m'.
Proof. apply memory_at32. Qed.
#[export] Hint Resolve memory_at16 memory_at16_be memory_at32 memory_put32 : typed.

(** ** Names *)

Lemma memory_strncpy_fill k : ∀ n m m' d src fill, strncpy_fill k d src fill m = Some m' →
  memory n m → bytes src → byte fill → memory n m'.
Proof.
  induction k as [|k IH]; intros n m m' d src fill H Hm Hs Hf; cbn [strncpy_fill] in H; [by injection H as <-|].
  destruct src as [|c src]; [eauto with typed|]. apply Forall_cons in Hs as [Hc Hs]. chop. eauto with typed.
Qed.

Lemma memory_toupper k : ∀ n m m' d src, memncpy_toupper k d src m = Some m' →
  memory n m → bytes src → memory n m'.
Proof.
  induction k as [|k IH]; intros n m m' d src H Hm Hs; cbn [memncpy_toupper] in H; [by injection H as <-|].
  destruct src as [|c src]; [eauto with typed|]. apply Forall_cons in Hs as [Hc Hs]. chop. eauto with typed.
Qed.
#[export] Hint Resolve memory_strncpy_fill memory_toupper : typed.

Lemma bytes_fileext name ext : vsfile_getfileext name = Some ext → bytes name → bytes ext.
Proof.
  intros H Hb. destruct (getfileext_loop_spec _ _ _ H) as [->|(base & ->)]; [done|].
  apply Forall_app in Hb as [_ Hb]. by apply Forall_cons in Hb as [_ Hb].
Qed.

Lemma memory_shortname name sn : bytes name → fakefat32_get_shortname name = Some sn → memory 11 sn.
Proof.
  intros Hb H. unfold fakefat32_get_shortname in H. chop.
  all: assert (Hr : memory 11 (replicate 11 32)) by (split; [done|by apply Forall_replicate]).
  all: eauto 7 using bytes_fileext with typed.
Qed.

#[export] Hint Resolve bytes_fileext : typed.

(** ** Directories *)

Lemma byte_checksum sn : byte (shortname_checksum sn).
Proof.
  unfold shortname_checksum. assert (H : ∀ c, byte c → byte (foldl (λ c x, u8 (Z.lor (Z.shiftl c 7) (Z.shiftr c 1) + x)) c sn)).
  { induction sn as [|x sn IH]; intros c Hc; [done|]. cbn [foldl]. apply IH, byte_u8. }
  by apply H.
Qed.
#[export] Hint Resolve byte_checksum : typed.

Lemma memory_longname_chars fuel : ∀ n name i j a m j' m', longname_chars fuel name i j a m = Some (j', m') →
  memory n m → bytes name → memory n m'.
Proof.
  induction fuel as [|fuel IH]; intros n name i j a m j' m' H Hm Hs; [done|]. cbn [longname_chars] in H. chop; [|done].
  eauto with typed.
Qed.
#[export] Hint Resolve memory_longname_chars : typed.

Lemma memory_longname_text n name i a m m' : longname_text name i a m = Some m' →
  memory n m → bytes name → memory n m'.
Proof. unfold longname_text. intros H Hm Hs. chop; eauto with typed. Qed.
#[export] Hint Resolve memory_longname_text : typed.

Lemma memory_longname_entry n name sn i a m m' : longname_entry name sn i a m = Some m' →
  memory n m → bytes name → byte i → memory n m'.
Proof. unfold longname_entry. intros H Hm Hs Hi. chop. eauto 12 with typed. Qed.
#[export] Hint Resolve memory_longname_entry : typed.

Lemma memory_longname_loop fuel : ∀ n name sn i a ps m a' ps' m',
  longname_loop fuel name sn i a ps m = Some (a', ps', m') → memory n m → bytes name → byte i → memory n m'.
Proof.
  induction fuel as [|fuel IH]; intros n name sn i a ps m a' ps' m' H Hm Hs Hi; [done|]. cbn [longname_loop] in H. chop; [done|].
  eauto with typed.
Qed.
#[export] Hint Resolve memory_longname_loop : typed.

Lemma byte_longname_start name o : byte (longname_start name o).
Proof.
  unfold longname_start. set (i := if 0x40 <=? longname_entry_num name then 0x3F else longname_entry_num name).
  assert (Hi : 0 ≤ i < 64). { unfold i. pose proof (u8_range ((strlen name + 12) / 13)) as H. fold (longname_entry_num name) in H.
    zcase; lia. }
  destruct (o =? 0); [|apply byte_u8]. destruct (index_bits (Z.to_nat i)) as (_ & _ & H & _); [lia|].
  rewrite Z2Nat.id in H by lia. unfold byte. lia.
Qed.
#[export] Hint Resolve byte_longname_start : typed.

Lemma byte_name_attr name v : name_attr name = Some v → byte v.
Proof. unfold name_attr. intros H. chop. destruct (islower _), (islower _); done. Qed.

Lemma bytes_record r : bytes (record_bytes r).
Proof. unfold record_bytes, bytes. rewrite !Forall_app. split_and!; apply le_bytes_bytes. Qed.
#[export] Hint Resolve byte_name_attr bytes_record : typed.

(** *** Files *)

Lemma typed_modify fs fs' a g : modify fs a g = Some fs' → typed_files fs →
  (∀ f, typed_file f → typed_file (g f)) → typed_files fs'.
Proof.
  unfold modify. intros H Hfs Hg. chop. apply map_Forall_insert_2; [|done]. apply Hg. by eapply map_Forall_lookup_1 in Hfs.
Qed.

Lemma fits_land16 v : fits 16 (Z.land v 0xFFFF).
Proof. change 0xFFFF with (Z.ones 16). rewrite Z.land_ones by lia. by apply Z.mod_pos_bound. Qed.

Lemma typed_FstClus c r : typed_record r → typed_record (set_FstClus c r).
Proof. intros [H1 H2 H3 H4]. constructor; try done. split; apply fits_land16. Qed.

Lemma typed_set_record r f : typed_file f → typed_record r → typed_file (set_record r f).
Proof. intros [H1 H2 H3 H4] Hr. by constructor. Qed.

Lemma typed_fix_dots fs fs' d x name : fix_dots d x name fs = Some fs' → typed_files fs → typed_files fs'.
Proof.
  unfold fix_dots. intros H Hfs. chop; try done; (eapply typed_modify; [eassumption|done|]);
    intros h Hh; apply typed_set_record; [done|apply typed_FstClus, Hh|done|apply typed_FstClus, Hh].
Qed.

Lemma typed_lookup fs x f : fs !! x = Some f → typed_files fs → typed_file f.
Proof. intros Hx Hfs. by eapply map_Forall_lookup_1 in Hfs. Qed.

Lemma typed_shortname_entry n d x name sn long a fs m fs' m' :
  shortname_entry d x name sn long a fs m = Some (fs', m') → memory n m → bytes sn → typed_files fs →
  memory n m' ∧ typed_files fs'.
Proof.
  unfold shortname_entry. intros H Hm Hsn Hfs. chop; (split; [|by eapply typed_fix_dots]); eauto 12 with typed.
Qed.

Lemma typed_dir_entries fuel : ∀ n d x o a ps fs m fs' m',
  dir_entries fuel d x o a ps fs m = Some (fs', m') → memory n m → typed_files fs →
  memory n m' ∧ typed_files fs'.
Proof.
  induction fuel as [|fuel IH]; intros n d x o a ps fs m fs' m' H Hm Hfs; [done|]. cbn [dir_entries] in H. chop; [done|].
  destruct (name_of _) as [name|] eqn:Hname; [|by chop].
  assert (Hb : bytes name) by (eapply tf_name; [by eapply typed_lookup|done]).
  destruct (_ =? attr_of _); [chop; eapply IH; [eassumption|eauto with typed|done]|].
  apply bind_Some in H as (sn & Hsn & H). pose proof (memory_shortname _ _ Hb Hsn) as Hsm.
  apply bind_Some in H as (long & Hlong & H). apply bind_Some in H as ([[a1 ps1] m1] & Hl & H).
  assert (Hm1 : memory n m1) by (destruct long; [eauto with typed|by chop]).
  destruct (long && _); [by chop|]. apply bind_Some in H as ([fs2 m2] & Hs & H).
  destruct (typed_shortname_entry _ _ _ _ _ _ _ _ _ _ _ Hs Hm1 ltac:(eauto with typed) Hfs). by eapply IH.
Qed.

(** What an operation keeps. *)
Definition keeps (n : nat) (s : fakefat32) (m : list Z) : Prop := typed s ∧ memory n m.

Lemma typed_set_files s fs : typed s → typed_files fs → typed (set_files s fs).
Proof. intros [H1 H2 H3 H4] Hfs. by constructor. Qed.

Lemma typed_dir_read n x addr a ps s m err s' m' :
  fakefat32_dir_read x addr a ps s m = Some (err, s', m') → keeps n s m → keeps n s' m'.
Proof.
  unfold fakefat32_dir_read. intros H [Hs Hm]. apply bind_Some in H as (m1 & Hm1 & H).
  assert (Hm2 : memory n m1) by eauto with typed. clear Hm1. chop; try by split.
  destruct x1 as [[child o]|]; [|by chop]. apply bind_Some in H as ([fs2 m2] & Hd & H). chop.
  destruct (typed_dir_entries _ _ _ _ _ _ _ _ _ _ _ Hd Hm2 (ty_files _ Hs)). split; [by apply typed_set_files|done].
Qed.

Lemma typed_buf s p b : ff_bufs s !! p = Some b → typed s → bytes b.
Proof. intros Hp Hs. pose proof (ty_bufs _ Hs) as H. by eapply map_Forall_lookup_1 in H. Qed.

Lemma typed_param s p q : ff_params s !! p = Some q → typed s → byte (sectors_per_cluster q).
Proof. intros Hp Hs. pose proof (ty_params _ Hs) as H. by eapply map_Forall_lookup_1 in H. Qed.

(** ** Sectors that are read *)

Lemma memory_write_dpt n param h a m m' : write_dpt param h a m = Some m' → memory n m → memory n m'.
Proof. unfold write_dpt. intros H Hm. chop. eauto 20 with typed. Qed.

Lemma memory_write_boot n param mbr k a m m' : write_boot param mbr k a m = Some m' →
  memory n m → bytes mbr → byte (sectors_per_cluster param) → memory n m'.
Proof. unfold write_boot. intros H Hm Hb Hs. chop. eauto 20 with typed. Qed.

Lemma memory_write_fsinfo n a m m' : write_fsinfo a m = Some m' → memory n m → memory n m'.
Proof. unfold write_fsinfo. intros H Hm. chop. eauto 20 with typed. Qed.

Lemma memory_fat_reserved fuel : ∀ n rc c k b m c' k' b' m', fat_reserved fuel rc c k b m = Some (c', k', b', m') →
  memory n m → memory n m'.
Proof.
  induction fuel as [|fuel IH]; intros n rc c k b m c' k' b' m' H Hm; [done|]. cbn [fat_reserved] in H. chop; eauto with typed.
Qed.

Lemma memory_fat_file fuel : ∀ n fc o c k b m c' k' b' m', fat_file fuel fc o c k b m = Some (c', k', b', m') →
  memory n m → memory n m'.
Proof.
  induction fuel as [|fuel IH]; intros n fc o c k b m c' k' b' m' H Hm; [done|]. cbn [fat_file] in H. chop; eauto with typed.
Qed.
#[export] Hint Resolve memory_write_dpt memory_write_boot memory_write_fsinfo memory_fat_reserved memory_fat_file : typed.

Lemma memory_fat_entries fuel : ∀ n param fs c k b m m', fat_entries fuel param fs c k b m = Some m' →
  memory n m → memory n m'.
Proof.
  induction fuel as [|fuel IH]; intros n param fs c k b m m' H Hm; [done|]. cbn [fat_entries] in H. chop; eauto with typed.
Qed.
#[export] Hint Resolve memory_fat_entries : typed.

Lemma memory_write_fat n param fs rc k ps a m m' : write_fat param fs rc k ps a m = Some m' → memory n m → memory n m'.
Proof. unfold write_fat. intros H Hm. chop. eauto with typed. Qed.
#[export] Hint Resolve memory_write_fat : typed.

Lemma bytes_read_at (b : list Z) i k x : read_at b i k = Some x → bytes b → bytes x.
Proof. unfold read_at. intros H Hb. case_decide; [|done]. chop. auto with typed. Qed.

Lemma bytes_memfs_read f b off k x r : vsfile_memfs_read f b off k = Some (x, r) → bytes b → bytes x.
Proof. unfold vsfile_memfs_read. intros H Hb. chop; [constructor|]. by eapply bytes_read_at. Qed.

Lemma memory_read_at (b : list Z) n i k x : read_at b i k = Some x → memory n b → memory k x.
Proof.
  unfold read_at. intros H [Hl Hb]. case_decide; [|done]. chop. split; [rewrite length_take, length_drop; lia|].
  auto with typed.
Qed.

Lemma bytes_memcpy (b src : list Z) i x : memcpy b i src = Some x → bytes b → bytes src → bytes x.
Proof. unfold memcpy. intros H Hb Hs. case_decide; [|done]. chop. by apply Forall_inserts. Qed.

Lemma bytes_memfs_write f b off k src x r : vsfile_memfs_write f b off k src = Some (x, r) →
  bytes b → bytes src → bytes x.
Proof.
  unfold vsfile_memfs_write. intros H Hb Hs. chop; [done|]. eapply bytes_memcpy; [eassumption|done|]. by eapply bytes_read_at.
Qed.

(** ** Sectors that are written *)

Lemma memory_lfn_copy k : ∀ n b p m nul p' m', lfn_copy k b p m = Some (nul, p', m') → memory n m → memory n m'.
Proof.
  induction k as [|k IH]; intros n b p m nul p' m' H Hm; cbn [lfn_copy] in H; [by chop|].
  apply bind_Some in H as (b0 & Hb0 & H). apply bind_Some in H as (z & _ & H). chop; [done|]. eauto with typed.
Qed.
#[export] Hint Resolve memory_lfn_copy : typed.

Lemma memory_lfn_entry n e fn m i m' : lfn_entry e fn m = Some (i, m') → memory n m → memory n m' ∧ byte i.
Proof.
  unfold lfn_entry. intros H Hm. apply bind_Some in H as (i1 & Hi & H). assert (byte i1) by eauto with typed. clear Hi.
  chop; split; try done; eauto 6 with typed.
Qed.

Lemma memory_sfn_copy k : ∀ n lower b p m p' m', sfn_copy k lower b p m = Some (p', m') → memory n m → memory n m'.
Proof.
  induction k as [|k IH]; intros n lower b p m p' m' H Hm; cbn [sfn_copy] in H; [by chop|].
  apply bind_Some in H as (c & Hc & H). destruct (_ =? _); [by chop|]. apply bind_Some in H as (m1 & H1 & H).
  eapply IH; [exact H|]. destruct lower; eauto with typed.
Qed.
#[export] Hint Resolve memory_sfn_copy : typed.

Lemma memory_sfn_entry n e fn m m' : sfn_entry e fn m = Some m' → memory n m → memory n m'.
Proof. unfold sfn_entry. intros H Hm. chop; eauto 8 with typed. Qed.
#[export] Hint Resolve memory_sfn_entry : typed.

Lemma memory_parse fuel : ∀ n p m found p' m', parse_dentry_loop fuel p m = Some (found, p', m') →
  memory n m → memory n m'.
Proof.
  induction fuel as [|fuel IH]; intros n p m found p' m' H Hm; [done|]. cbn [parse_dentry_loop] in H.
  destruct (_ =? 0); [by chop|]. apply bind_Some in H as (c & _ & H). destruct (_ =? 0); [by chop|].
  destruct (negb _); [|by eapply IH]. apply bind_Some in H as (at_ & _ & H). destruct (_ =? _).
  - apply bind_Some in H as ([i m1] & Hi & H). destruct (memory_lfn_entry _ _ _ _ _ _ Hi Hm). by eapply IH.
  - destruct (negb _); [|by eapply IH]. chop; eauto with typed.
Qed.

Lemma u16_at m a v : get_at GET_U16_LSBFIRST m a = Some v → fits 16 v.
Proof. unfold get_at, GET_U16_LSBFIRST. intros H. case_decide; [|done]. chop. apply fits_u16. Qed.
Lemma u32_at m a v : get_at GET_U32_LSBFIRST m a = Some v → fits 32 v.
Proof. unfold get_at, GET_U32_LSBFIRST. intros H. case_decide; [|done]. chop. apply fits_u32. Qed.

Lemma typed_record_of b : bytes b → typed_record (record_of b).
Proof.
  intros Hb. assert (Hr : ∀ o k, (k ≤ 2)%nat → fits (8 * Z.of_nat k) (le_value (take k (drop o b)))).
  { intros o k Hk. pose proof (le_value_range (take k (drop o b)) ltac:(by apply bytes_take, bytes_drop)) as [H1 H2].
    assert (256 ^ Z.of_nat (length (take k (drop o b))) ≤ 256 ^ Z.of_nat k)
      by (apply Z.pow_le_mono_r; rewrite ?length_take; lia).
    unfold fits. rewrite Z.pow_mul_r by lia. change (2 ^ 8) with 256. lia. }
  constructor; cbn; split_and?; apply (Hr _ 1%nat ltac:(lia)) || apply (Hr _ 2%nat ltac:(lia)).
Qed.

Lemma typed_take_entry n x e fs m fs' : take_entry x e fs m = Some fs' → memory n m → typed_files fs → typed_files fs'.
Proof.
  unfold take_entry. intros H Hm Hfs. apply bind_Some in H as (sz & Hsz & H). apply u32_at in Hsz.
  apply bind_Some in H as (lo & _ & H). apply bind_Some in H as (hi & _ & H). apply bind_Some in H as (f & Hf & H).
  apply bind_Some in H as (fs1 & Hfs1 & H). apply bind_Some in H as (r & Hr & H).
  assert (Hfs2 : typed_files fs1).
  { destruct (_ && _); [|by chop]. eapply typed_modify; [eassumption|done|]. intros h [H1 H2 H3 H4]. by constructor. }
  pose proof (memory_read_at _ _ _ _ _ Hr Hm) as [_ Hrb]. eapply typed_modify; [eassumption|done|].
  intros h [H1 H2 H3 H4]. constructor; try done; [|by apply typed_record_of].
  cbn. set (v := lo + _). pose proof (u16_range v). unfold fits. lia.
Qed.

Lemma typed_dir_write_loop fuel : ∀ n x b p fs m fs' m', dir_write_loop fuel x b p fs m = Some (fs', m') →
  memory n m → typed_files fs → memory n m' ∧ typed_files fs'.
Proof.
  induction fuel as [|fuel IH]; intros n x b p fs m fs' m' H Hm Hfs; [done|]. cbn [dir_write_loop] in H.
  destruct (_ =? 0); [by chop|]. apply bind_Some in H as ([[found p1] m1] & Hp & H).
  pose proof (memory_parse _ _ _ _ _ _ _ Hp Hm) as Hm1. destruct found; [|by chop].
  apply bind_Some in H as (name & _ & H). apply bind_Some in H as (y & _ & H). apply bind_Some in H as (fs1 & Hfs1 & H).
  eapply IH; [exact H|done|]. destruct (_ =? NULL); [by chop|]. by eapply typed_take_entry.
Qed.

Lemma typed_dir_write n x a ps s m err s' m' :
  fakefat32_dir_write x a ps s m = Some (err, s', m') → keeps n s m → keeps n s' m'.
Proof.
  unfold fakefat32_dir_write. intros H [Hs Hm]. apply bind_Some in H as (f & _ & H).
  apply bind_Some in H as ([fs1 m1] & Hl & H). chop.
  destruct (typed_dir_write_loop _ _ _ _ _ _ _ _ _ Hl Hm (ty_files _ Hs)). split; [by apply typed_set_files|done].
Qed.

Section driver.
Context (user_cb : Z → Z → Z → Z → Z → Z → Z → fakefat32 → list Z →
  option (Z * fakefat32 * list Z)).

(** The callbacks of the application keep the types. *)
Definition cb_typed : Prop := ∀ fn pt evt x addr a ps n s m err s' m',
  user_cb fn pt evt x addr a ps s m = Some (err, s', m') → keeps n s m → keeps n s' m'.
Context (Hcb : cb_typed).
Implicit Types (w : mworld fakefat32).

Lemma typed_read_data n pt evt param rc k ps a s m err s' m' :
  read_data user_cb pt evt param rc k ps a s m = Some (err, s', m') → keeps n s m → keeps n s' m'.
Proof.
  unfold read_data, call_read. intros H [Hs Hm]. chop; try by split.
  - split; [done|]. eapply memory_put; [eassumption|done|]. eapply bytes_memfs_read; [eassumption|]. by eapply typed_buf.
  - by eapply typed_dir_read.
  - by eapply Hcb.
Qed.

(** The world after an operation: the same drivers, and typed. *)
Definition keeps_world (n : nat) w w' : Prop :=
  keeps n (dev w') (ram w') ∧ pts w' = pts w ∧ mals w' = mals w ∧ mims w' = mims w.

Lemma mal_of_param pt w a m param : mal_of pt w = Some (a, m, param) → typed (dev w) → byte (sectors_per_cluster param).
Proof.
  unfold mal_of. intros H Hs. chop. by eapply typed_param.
Qed.

Lemma typed_mal_read n pt evt addr a sz w err w' :
  fakefat32_mal_read user_cb pt evt addr a sz w = Some (err, w') → keeps n (dev w) (ram w) → keeps_world n w w'.
Proof.
  unfold fakefat32_mal_read. intros H [Hs Hm]. apply bind_Some in H as ([[x mal] param] & Hmal & H).
  pose proof (mal_of_param _ _ _ _ _ Hmal Hs) as Hspc. clear Hmal. destruct (ty_mbr _ Hs) as [_ Hb].
  do 8 (apply bind_Some in H as (? & _ & H)). apply bind_Some in H as (m1 & Hm1 & H).
  assert (Hmem : memory n m1).
  { destruct (_ <? _); [eauto with typed|by chop]. } clear Hm1.
  assert (Hdone : ∀ m, memory n m → keeps_world n w (set_ram w m)) by done.
  chop; try (apply Hdone; eauto with typed).
  match goal with Hr : read_data _ _ _ _ _ _ _ _ _ _ = Some _ |- _ =>
    destruct (typed_read_data _ _ _ _ _ _ _ _ _ _ _ _ _ Hr (conj Hs Hmem)) end.
  done.
Qed.

Lemma typed_mal_write n pt evt addr a sz w err w' :
  fakefat32_mal_write user_cb pt evt addr a sz w = Some (err, w') → keeps n (dev w) (ram w) → keeps_world n w w'.
Proof.
  unfold fakefat32_mal_write. intros H [Hs Hm]. apply bind_Some in H as ([[x mal] param] & _ & H).
  do 8 (apply bind_Some in H as (? & _ & H)).
  assert (Hdone : ∀ s, typed s → keeps_world n w (set_dev w s)) by done.
  destruct (_ <? _).
  { destruct (_ || _); [|by chop]. chop. apply Hdone. destruct Hs as [Hs1 Hs2 Hs3 Hs4].
    constructor; [done|done| |done]. by eapply memory_read_at. }
  apply bind_Some in H as ([y off] & _ & H). destruct (_ =? NULL); [by chop|].
  apply bind_Some in H as (f & Hf & H). destruct (has _ _); [by chop|].
  destruct (_ && _); [|destruct (negb _); [|by chop]].
  - apply bind_Some in H as (b & Hb & H). pose proof (typed_buf _ _ _ Hb Hs) as Hbb.
    apply bind_Some in H as (src & Hsrc & H). apply bind_Some in H as ([b' r] & Hw & H).
    assert (Hsb : bytes src) by (case_decide; [|done]; chop; apply bytes_drop, Hm).
    chop. apply Hdone. destruct Hs as [Hs1 Hs2 Hs3 Hs4]. constructor; try done.
    apply map_Forall_insert_2; [|done]. by eapply bytes_memfs_write.
  - apply bind_Some in H as ([[err' s'] m'] & Hc & H). chop. unfold call_write in Hc. destruct (_ =? _).
    + destruct (typed_dir_write _ _ _ _ _ _ _ _ _ Hc (conj Hs Hm)). done.
    + destruct (Hcb _ _ _ _ _ _ _ _ _ _ _ _ _ Hc (conj Hs Hm)). done.
Qed.
End driver.


(** ** The volume of the example *)

#[local] Instance typed_record_dec r : Decision (typed_record r).
Proof.
  refine (cast_if (decide (fits 8 (CrtTimeTenth r) ∧ (fits 16 (CrtTime r) ∧ fits 16 (CrtData r) ∧ fits 16 (LstAccData r)) ∧
    (fits 16 (WrtTime r) ∧ fits 16 (WrtData r)) ∧ fits 16 (FstClusHI r) ∧ fits 16 (FstClusLO r)))).
  - abstract (destruct_and!; by split).
  - abstract (intros []; tauto).
Defined.

Definition file_typed (f : fakefat32_file_t) : bool :=
  match name_of f with Some name => bool_decide (bytes name) | None => true end &&
  bool_decide (fits 32 (size_of f)) && bool_decide (fits 32 (first_cluster f)) && bool_decide (typed_record (record f)).

Lemma file_typed_spec f : file_typed f = true → typed_file f.
Proof.
  unfold file_typed. rewrite !andb_true_iff, !bool_decide_eq_true. intros [[[Hn ?] ?] ?]. split; [|done..].
  intros name Hname. rewrite Hname in Hn. by apply bool_decide_eq_true in Hn.
Qed.

Lemma demo_typed : keeps 600 (dev demo_mounted) (replicate 600 0).
Proof.
  split; [|split; [done|by apply Forall_replicate]]. constructor.
  - apply map_Forall_to_list. apply Forall_forall. intros [x f] Hx.
    apply file_typed_spec.
    assert (H : forallb (λ '(_, f), file_typed f) (map_to_list (ff_files (dev demo_mounted))) = true) by (by vm_compute).
    rewrite forallb_forall in H. apply (H (x, f)). by apply list_elem_of_In.
  - apply map_Forall_to_list. by_decide.
  - split; [by vm_compute|by_decide].
  - apply map_Forall_to_list. by_decide.
Qed.

